(* ===== verification/_CoqProject ===== *)
-Q . S2P
Prelude.v
JsNumber.v
JsObject.v
JsDate.v
JsValue.v
AccountRisk.v
RiskState.v
RiskLedger.v
Triggers.v
JsFloat.v
JsMath.v
JsText.v
Cbor.v
Framing.v
Codec.v
Json.v
Execution.v
Venues.v
Capabilities.v
SpotFilters.v
ExecutionJournal.v
JournalHistory.v
JournalSafety.v
ExecutionRecovery.v
RecoverySafety.v
PaperAccount.v
PaperRoundTrip.v
PaperPath.v
PaperStore.v
PaperFiles.v
PaperSession.v
PaperLedger.v
PaperFutures.v
PaperClient.v
PaperLife.v
PaperSteps.v
PaperSettle.v
PaperFate.v
PaperFaults.v
Positions.v
OrderPlan.v
OrderPreflight.v
PlanSafety.v
AccountFacts.v
AccountGuard.v
GuardSafety.v
Effects.v
Engine.v
EngineSafety.v
EngineRuns.v
EnginePool.v
Transitions.v
FileSystem.v
Persist.v
CrashSafety.v
FileLocks.v
Handlers.v
Supervisor.v
SupervisionSafety.v
SupervisionRuns.v
Outbox.v
OutboxSafety.v
TradePlans.v
PlanGate.v
PlanHistory.v
