(* ===== verification/Prelude.v ===== *)
(** * Ti trader: a verification library

    Ti trader is a trading application in TypeScript: an engine that prepares, confirms,
    submits and recovers orders under risk limits, a simulated exchange account, the
    triggers of an agent's plans, and the wire protocol between its processes.  This library
    models those parts as functions of Rocq translated from the sources, and proves what makes
    each of them correct.  Sources are named from the root of the repository.

    ** How the program's parts fit together

    An intent becomes a plan (order-plan.ts) on data a client reports (types.ts), within what
    the venue supports (capabilities.ts, venues/).  A plan is checked again on fresh data
    (order-preflight.ts), claims quota and is recorded in the execution journal
    (execution-journal.ts, in the state that risk.ts validates and stores), and is then
    submitted to a client, live or simulated (paper-client.ts).  What became of a submission
    whose answer was lost is settled by recovery (execution-recovery.ts) with the evidence of
    lookups.  An independent monitor assesses the account (account-risk.ts of trading-risk);
    the agent works under plans its operator activates (plans/store.ts), whose conditions are
    evaluated as triggers are (packages/triggers) and whose notifications are queued and leased
    (monitoring-state.ts); processes talk in framed CBOR messages (packages/protocol).

    ** Files

    Every file starts with the sources it models; a definition has the name of the function it
    translates, and a step of a function that is named here has a comment saying which.

    - The language: JsNumber, JsFloat, JsMath, JsText (numbers, their bits, rounding, text),
      JsObject, JsValue, Json (strings, objects, values of unknown shape, JSON.stringify),
      JsDate (ISO dates).
    - packages/trading-risk: AccountRisk (assessment of an account), RiskState (quota state and
      its validation), RiskLedger (class RiskLedger over an atomic store).
    - packages/triggers: Triggers.
    - packages/protocol: Cbor, Framing, Codec.
    - packages/trading-engine, journal: Execution (records and their validation),
      ExecutionJournal (its operations), JournalHistory and JournalSafety (histories of any
      number of runtimes that share one store), ExecutionRecovery and RecoverySafety.
    - packages/trading-engine, venues: Venues, Capabilities, SpotFilters (filters of Binance).
    - packages/trading-engine, simulated account: PaperAccount and PaperRoundTrip (the persisted
      account), PaperPath (the price since an order was last checked), PaperStore (the files) and
      PaperFiles (accounts through their JSON text), PaperSession, PaperLedger, PaperFutures,
      PaperClient (state, ledgers and operations of the client), PaperLife, PaperSteps,
      PaperSettle, PaperFate, PaperFaults (what happens to its orders, and its failures).
    - packages/trading-engine, orders: Positions, OrderPlan, OrderPreflight, PlanSafety.
    - packages/trading-engine, account: AccountFacts (exposures of a snapshot), AccountGuard (the
      account's entry in the shared store and the decisions on it), GuardSafety.
    - packages/trading-engine, facade: Effects (programs of calls, their runs and a logic of
      them), Engine (engine.ts and the waiting methods of the guard), EngineSafety (when each
      call of a submission is made), EngineRuns (single placements), EnginePool (placements that
      interleave).
    - packages/trading-engine, risk supervisor: Handlers (programs over an interface and their
      implementations), Supervisor (risk-supervisor.ts over the operations of the engine, which
      Engine implements), SupervisionSafety (when each operation of a pass is performed),
      SupervisionRuns (passes, and what of them the engine sends).
    - packages/trading-engine, files: Transitions (programs on a state that may stop), FileSystem
      (files, directories, crashes and the calls of node:fs), Persist (persist.ts), CrashSafety
      (durable writes), FileLocks (processes that share a lock).
    - packages/trading-agent: Outbox and OutboxSafety (notifications of monitoring-state.ts, their
      leases and deliveries), TradePlans (model.ts, intent.ts and store.ts of plans, in a
      transaction of private-store.ts), PlanGate (runtime.ts: evaluation, and the gate of a
      submission under a plan), PlanHistory (operations of the store in any order).

    ** How code is read

    A number is a binary64 value, the kernel's [float], with the comparisons and the rounding of
    the language; counters that the sources check to be safe integers are [Z] where nothing but
    their order is used.  A string is its bytes in WTF-8.  An object used as a map is an
    association list in the order of Object.keys ([obj]); an interface is a record, with [option]
    for an optional field; a value of type unknown is a [value].  A function that throws returns
    [result]; an error is a constructor, and its text is modelled only where code reads it.
    An asynchronous method is a program of calls ([Prog]): transactions of the store, fields of
    the object, callbacks, the client, the clock; [awaited] says at which of them other work of
    the process may run.
    State is passed explicitly: the ledger and the journal are programs on a draft of the stored
    state, the paper client is a state and error monad whose state survives a throw, as the
    fields of the object do.  An order the paper client holds is a mutable object reached from
    several lists; it is known by its identifier and every list is updated with it.  Concurrency
    appears as sequences of steps: transactions of several runtimes in any order for the journal,
    file steps that may stop anywhere for the account files, chunks in any division for frames,
    placements that run until they wait, and processes that make one call of the file system
    at a time.  A file system keeps for each entry and each text the values that a crash may
    leave; a flush leaves one.

    Of a stored scope of notifications the validators of triggers, facts and orders, and of the
    file of plans the bound on its bytes, are parameters too: nothing here reads those parts.

    What is not under src/ is a parameter: the typebox schema check, sha256, randomUUID,
    localeCompare, Date.parse outside the ISO format, the power operator and the case mappings
    where they are not of ASCII, the exchange and the clock.  Hypotheses about them are stated
    where they are used, and the witness of a theorem instantiates them.

    ** What is shown

    - Submission.  An intent begins at most once and executes at most once, whatever the
      interleaving of runtimes and failures; records follow the status machine; quota is claimed
      once, and returned once by a definite rejection; a stale runtime is fenced.  Recovery frees
      quota only for orders that cannot have filled, on what a lookup of that very run answered.
    - Risk.  An accepted assessment is within every limit, a loss latch is permanent, what is
      checked agrees with what is reserved, a reservation is settled once.
    - Plans.  A prepared order is sound on its data and can rest in the paper account; a
      preflight re-establishes this on fresh data, and what is submitted is near what was
      confirmed.
    - The account.  An observation of the account serves one claim; a claimed mutation bars the
      others; an admitted opening leaves the account within its limits, with the order's exposure,
      fee and margin in it; an admitted cancellation keeps the protection of every position.
    - The engine.  Whatever its calls reply, an order is sent only with a permission that names
      what was checked and confirmed, and at most once for a plan, however placements
      interleave; every end of a placement releases its claim, settles it or reports it; it asks
      at most four times; and no plan stays in flight.
    - The supervisor.  A pass sends only stops for what has too little protection and closes on
      a breach that no other execution of the symbol may race, cancels only entries, reports
      every cancellation, is not ended by a failing submission, and performs a bounded number
      of operations.  A repair that is reported twice is exhibited.
    - The agent's plans.  An opening under a plan needs the version its operator activated, of the
      current epoch, whose conditions hold on fresh facts; a reset of the Paper account disarms
      every plan until a later version is activated; a saved intent binds one order for good.
      A plan that cannot be archived while the clock reads too early is exhibited.
    - Notifications.  An event is leased to one delivery at a time, is not delivered again after
      an acknowledgement under its lease, and is never dropped before it is finished; a pass sends
      only what it has just claimed and reports it all.
    - Files.  Wherever a durable write is interrupted a crash leaves the old content or the new,
      whole, and its error says truthfully whether it was published.  A lock without a limit of
      age has one holder as long as no process ends between two calls of another's recovery;
      the run that breaks this and the lock that no process can take again are exhibited.
    - The simulated account.  Orders are never lost or reopened, at most one leg of a group is
      filled, a failed pass changes nothing, both files are written or neither is, accounts are
      read back from JSON as written but for the sign of zeros, and one account state that stops
      every operation is exhibited.
    - Triggers and protocol.  A one-shot trigger fires once, [stable_for] asks for uninterrupted
      truth; encoding and decoding are inverse, decoding fails closed and does not depend on how
      bytes are divided.
    - Venues.  Which orders are supported, and that the filters of Binance decide what they
      document, on exact decimals.

    ** Fuel

    Recursion is structural where the code's is.  The CBOR decoder and the schema of conditions
    recurse on the levels that their depth limit leaves, the decoder of frames on the rounds
    that the chunk's length allows, and both are proved to finish within them; the text of a
    number searches exponents and at most 17 digits, after which every binary64 value is
    determined; the pages of candles are at most the number the code allows; a run of recovery
    is bounded by its attempts and its records; a queue of notifications makes room at most as
    often as it is long.

    ** Not modelled

    The adapters of ccxt and the venue calls, which map the answers of a library; of engine.ts
    the methods that only pass a call on, and of account-risk.ts the promise that callers of
    reconcileMutation share; of the paper client the views that only value an account (balances,
    positions, snapshots, books and market lists); of the trading agent the polls that observe
    orders, triggers and plans, its decisions, its autonomous mode and its tools; the client of
    the protocol.  The language model providers, the coding agent and its terminal interface,
    telemetry and scripts carry no
    trading logic. *)

From Stdlib Require Import ZArith Lia Bool.
From stdpp Require Import base strings option list.

(** ** Results

    A TypeScript function that may [throw] is a function into [result E A]:
    the value it returns, or the error it throws. *)
Inductive result (E A : Type) : Type :=
  | Ok (a : A)
  | Throw (e : E).
Arguments Ok {E A} a.
Arguments Throw {E A} e.

#[export] Instance result_ret (E : Type) : MRet (result E) := fun A a => Ok a.
#[export] Instance result_bind (E : Type) : MBind (result E) :=
  fun A B k m => match m with Ok a => k a | Throw e => Throw e end.
#[export] Instance result_fmap (E : Type) : FMap (result E) :=
  fun A B f m => match m with Ok a => Ok (f a) | Throw e => Throw e end.

(** [throwIf c e] is the statement [if (c) throw e;]. *)
Definition throwIf {E : Type} (c : bool) (e : E) : result E unit :=
  if c then Throw e else Ok tt.

Definition isOk {E A : Type} (m : result E A) : bool :=
  match m with Ok _ => true | Throw _ => false end.

(** [mapError] is the [try { } catch (error) { throw f(error) }] wrapper. *)
Definition mapError {E F A : Type} (f : E -> F) (m : result E A) : result F A :=
  match m with Ok a => Ok a | Throw e => Throw (f e) end.

Section ResultLemmas.
Context {E A B : Type}.

Lemma bind_Ok (m : result E A) (k : A -> result E B) (b : B) :
  (m ≫= k) = Ok b <-> exists a, m = Ok a /\ k a = Ok b.
Proof.
  destruct m as [a|e]; cbn; split.
  - intros H; eauto.
  - intros (a' & [= ->] & H); exact H.
  - intros [=].
  - intros (a' & [=] & _).
Qed.

Lemma bind_Throw (m : result E A) (k : A -> result E B) (e : E) :
  (m ≫= k) = Throw e <-> m = Throw e \/ exists a, m = Ok a /\ k a = Throw e.
Proof.
  destruct m as [a|e']; cbn; split.
  - intros H; right; eauto.
  - intros [[=]|(a' & [= ->] & H)]; exact H.
  - intros [= ->]; by left.
  - intros [[= ->]|(a' & [=] & _)]; reflexivity.
Qed.
End ResultLemmas.

Lemma throwIf_Ok {E : Type} (c : bool) (e : E) (u : unit) :
  throwIf c e = Ok u <-> c = false.
Proof. destruct c, u; cbn; split; congruence. Qed.

Lemma throwIf_Throw {E : Type} (c : bool) (e e' : E) :
  throwIf c e = Throw e' <-> c = true /\ e = e'.
Proof. destruct c; cbn; split; intuition congruence. Qed.

(** ** Operations on a store

    An operation that may throw and that reads and writes a store of type [W]. *)
Definition ST (W E A : Type) : Type := W -> result E A * W.

#[export] Instance ST_ret (W E : Type) : MRet (ST W E) := fun A a w => (Ok a, w).
#[export] Instance ST_bind (W E : Type) : MBind (ST W E) :=
  fun A B k m w =>
    match m w with
    | (Ok a, w') => k a w'
    | (Throw e, w') => (Throw e, w')
    end.

(** A result that does not touch the store. *)
Definition lift {W E A : Type} (r : result E A) : ST W E A := fun w => (r, w).

(** A read of the store. *)
Definition reads {W E A : Type} (f : W -> result E A) : ST W E A := fun w => (f w, w).

Lemma st_bind_Ok {W E A B : Type} (m : ST W E A) (k : A -> ST W E B) w b w' :
  (m ≫= k) w = (Ok b, w') <-> exists a w1, m w = (Ok a, w1) /\ k a w1 = (Ok b, w').
Proof.
  unfold mbind, ST_bind. destruct (m w) as [[a|e] w1]; split.
  - intros H; eauto.
  - intros (a' & w2 & [= -> ->] & H); exact H.
  - intros [=].
  - intros (a' & w2 & [=] & _).
Qed.

Lemma st_bind_Throw {W E A B : Type} (m : ST W E A) (k : A -> ST W E B) w e w' :
  (m ≫= k) w = (Throw e, w') <->
  m w = (Throw e, w') \/ exists a w1, m w = (Ok a, w1) /\ k a w1 = (Throw e, w').
Proof.
  unfold mbind, ST_bind. destruct (m w) as [[a|e1] w1]; split.
  - intros H; right; eauto.
  - intros [[=]|(a' & w2 & [= -> ->] & H)]; exact H.
  - intros [= -> ->]; by left.
  - intros [[= -> ->]|(a' & w2 & [=] & _)]; reflexivity.
Qed.

(** [preserves P m]: running [m] keeps [P], whether it returns or throws. *)
Definition preserves {W E A : Type} (P : W -> Prop) (m : ST W E A) : Prop :=
  forall w, P w -> P (snd (m w)).

Section Preserves.
Context {W E : Type} (P : W -> Prop).

Lemma preserves_ret {A} (a : A) : preserves P (mret a : ST W E A).
Proof. by intros w. Qed.

Lemma preserves_lift {A} (r : result E A) : preserves P (lift r).
Proof. by intros w. Qed.

Lemma preserves_reads {A} (f : W -> result E A) : preserves P (reads f).
Proof. by intros w. Qed.

Lemma preserves_bind {A B} (m : ST W E A) (k : A -> ST W E B) :
  preserves P m -> (forall a, preserves P (k a)) -> preserves P (m ≫= k).
Proof.
  intros Hm Hk w Hw. unfold mbind, ST_bind. specialize (Hm w Hw).
  destruct (m w) as [[a|e] w']; [by apply Hk|done].
Qed.

Lemma preserves_if {A} (c : bool) (m m' : ST W E A) :
  preserves P m -> preserves P m' -> preserves P (if c then m else m').
Proof. by destruct c. Qed.
End Preserves.

(** Runs a chain of guards forwards. *)
Lemma throwIf_pass {E A : Type} (c : bool) (e : E) (k : unit -> result E A) :
  c = false -> (throwIf c e ≫= k) = k tt.
Proof. by intros ->. Qed.

Lemma throwIf_stop {E A : Type} (c : bool) (e : E) (k : unit -> result E A) :
  c = true -> (throwIf c e ≫= k) = Throw e.
Proof. by intros ->. Qed.

Lemma Ok_pass {E A B : Type} (m : result E A) (a : A) (k : A -> result E B) :
  m = Ok a -> (m ≫= k) = k a.
Proof. by intros ->. Qed.

(** Inverts a hypothesis about a chain of [throw] guards and bindings. *)
Ltac inv_ok :=
  repeat match goal with
  | H : (_ ≫= _) = Ok _ |- _ =>
      apply bind_Ok in H; let x := fresh "r" in destruct H as (x & ? & H); cbn beta in H
  | H : throwIf _ _ = Ok ?u |- _ =>
      rewrite throwIf_Ok in H; try clear u
  | H : Ok _ = Ok _ |- _ => injection H as H; subst
  | H : Throw _ = Ok _ |- _ => discriminate H
  | H : mret _ = Ok _ |- _ => injection H as H; subst
  | x : unit |- _ => destruct x
  end.

(** Splits boolean conjunctions and negated disjunctions among the hypotheses. *)
Ltac bool_hyps :=
  repeat match goal with
  | H : andb _ _ = true |- _ => apply andb_true_iff in H as [? ?]
  | H : orb _ _ = false |- _ => apply orb_false_iff in H as [? ?]
  | H : negb _ = true |- _ => apply negb_true_iff in H
  | H : negb _ = false |- _ => apply negb_false_iff in H
  end.

(** Case analysis on the innermost [match] or [if] of a hypothesis. *)
Ltac case_in H :=
  match type of H with
  | context [match ?x with _ => _ end] =>
      lazymatch x with
      | context [match _ with _ => _ end] => fail
      | _ => destruct x eqn:?
      end
  end.

(** The hint database of the development: facts about numbers and objects
    that every component uses without comment. *)
Create HintDb ti discriminated.
Create Rewrite HintDb ti.

(** [l.map(f)] where [f] may throw. *)
Fixpoint all_ok {A B E} (f : A -> result E B) (l : list A) : result E (list B) :=
  match l with [] => Ok [] | x :: r => y ← f x; ys ← all_ok f r; Ok (y :: ys) end.

Lemma all_ok_Forall2 {A B E} (f : A -> result E B) l l' : all_ok f l = Ok l' <-> Forall2 (fun x y => f x = Ok y) l l'.
Proof.
  revert l'. induction l as [|x r IH]; intros l'; cbn.
  - split; [intros [= <-]; constructor|intros H; by inversion H].
  - split.
    + intros (y & Hy & H)%bind_Ok. apply bind_Ok in H as (ys & Hys & [= <-]). constructor; [done|by apply IH].
    + intros H. inversion H as [|? y ? ys Hy Hys]; subst. rewrite Hy. apply IH in Hys. by rewrite Hys.
Qed.

(** ** Iteration over lists inside [result] *)
Section FoldM.
Context {E A S : Type}.

(** [for (const x of l) s = f(s, x)] where [f] may throw. *)
Fixpoint foldM (f : S -> A -> result E S) (s : S) (l : list A) : result E S :=
  match l with
  | [] => Ok s
  | x :: r => match f s x with Ok s' => foldM f s' r | Throw e => Throw e end
  end.

Lemma foldM_app f s l1 l2 :
  foldM f s (l1 ++ l2) = (foldM f s l1 ≫= fun s' => foldM f s' l2).
Proof.
  revert s; induction l1 as [|x r IH]; intros s; cbn; [done|].
  destruct (f s x) as [s'|e]; [apply IH|reflexivity].
Qed.

(** An invariant of every step is an invariant of the loop. *)
Lemma foldM_inv (P : S -> Prop) f s l s' :
  (forall a x b, P a -> In x l -> f a x = Ok b -> P b) ->
  P s -> foldM f s l = Ok s' -> P s'.
Proof.
  revert s; induction l as [|x r IH]; cbn; intros s Hf Hs H.
  - by injection H as <-.
  - destruct (f s x) as [s1|e] eqn:E1; [|discriminate].
    eapply IH; [|eapply Hf; eauto|exact H]. eauto.
Qed.
End FoldM.

(** A loop that only throws passes when no element is bad. *)
Lemma foldM_throwIf {A E : Type} (bad : A -> bool) (err : A -> E) (l : list A) :
  foldM (fun _ x => throwIf (bad x) (err x)) tt l = Ok tt <-> forall x, In x l -> bad x = false.
Proof.
  induction l as [|a l IH]; cbn [foldM In]; [split; [by intros|done]|].
  unfold throwIf at 1. destruct (bad a) eqn:Eb; (split; [intros H|intros H]).
  - discriminate H.
  - specialize (H a (or_introl eq_refl)). congruence.
  - intros x [<-|Hx]; [done|]. by apply IH.
  - apply IH. intros x Hx. apply H. by right.
Qed.

(** [Array.prototype.slice(-n)]: the last [n] elements. *)
Definition lastN {A : Type} (n : nat) (l : list A) : list A :=
  drop (length l - n) l.

Lemma length_lastN {A} n (l : list A) : length (lastN n l) = Nat.min n (length l).
Proof. unfold lastN. rewrite length_drop. lia. Qed.

Lemma lastN_small {A} n (l : list A) : length l <= n -> lastN n l = l.
Proof. intros H. unfold lastN. replace (length l - n) with 0 by lia. apply drop_0. Qed.

Lemma lastN_incl {A} n (l : list A) x : In x (lastN n l) -> In x l.
Proof.
  unfold lastN. intros H. rewrite <- (take_drop (length l - n) l).
  apply in_or_app. by right.
Qed.

(** A new last element survives the bound. *)
Lemma lastN_snoc {A} n (l : list A) x :
  0 < n -> exists l', lastN n (l ++ [x]) = l' ++ [x].
Proof.
  intros Hn. unfold lastN. rewrite length_app; cbn.
  exists (drop (length l + 1 - n) l).
  by rewrite drop_app_le by lia.
Qed.

Lemma forallb_In {A} (p : A -> bool) l x : forallb p l = true -> In x l -> p x = true.
Proof. rewrite forallb_forall; auto. Qed.

Lemma forallb_incl {A} (p : A -> bool) l l' :
  (forall x, In x l' -> In x l) -> forallb p l = true -> forallb p l' = true.
Proof. rewrite !forallb_forall; auto. Qed.

Lemma existsb_none {A} (p : A -> bool) l :
  existsb p l = false <-> forall x, In x l -> p x = false.
Proof.
  induction l as [|a l IH]; cbn; [split; [by intros|done]|].
  rewrite orb_false_iff, IH. split.
  - intros [H1 H2] x [<-|H]; auto.
  - intros H; split; auto.
Qed.

Lemma find_app_none {A} (p : A -> bool) l l' :
  find p l = None -> find p (l ++ l') = find p l'.
Proof. induction l as [|a l IH]; cbn; [done|]. destruct (p a); [done|apply IH]. Qed.

#[export] Hint Resolve lastN_incl : ti.
#[export] Hint Resolve preserves_ret preserves_lift preserves_reads preserves_bind preserves_if : ti.
