(* ===== verification/JsNumber.v ===== *)
(** * JavaScript numbers

    A JavaScript [number] is an IEEE-754 binary64 value, here the kernel's
    primitive [float].  The file defines what the sources use of [Number] and
    [Math] ([isFinite], [EPSILON], [Math.max], [Math.abs], [===]) and proves
    the order theory every component relies on: away from [NaN] the tests
    [<], [<=], [>=], [>] are those of a total preorder, sums of non-negative
    numbers are non-negative, and sums of finite numbers are never [NaN]. *)

From Stdlib Require Import ZArith Lia Bool Floats.
From stdpp Require Import base option list.
From S2P Require Import Prelude.

Local Open Scope Z_scope.

Abbreviation number := PrimFloat.float.

(** [Number.isFinite] on a value known to be a number. *)
Definition isFinite (x : number) : bool := (PrimFloat.abs x <? infinity)%float.

(** [Number.EPSILON], 2^-52. *)
Definition EPSILON : number := 0x1p-52%float.

(** [Math.abs]. *)
Definition Math_abs (x : number) : number := PrimFloat.abs x.

(** [Math.max(a, b)]: [NaN] when an argument is, and [+0] over [-0]. *)
Definition Math_max (a b : number) : number :=
  if is_nan a || is_nan b then nan
  else if (a <? b)%float then b
  else if (b <? a)%float then a
  else if get_sign a then b else a.

(** [Math.min(a, b)]: [NaN] when an argument is, and [-0] over [+0]. *)
Definition Math_min (a b : number) : number :=
  if is_nan a || is_nan b then nan
  else if (a <? b)%float then a
  else if (b <? a)%float then b
  else if get_sign a then a else b.

(** ** A key that orders the numbers other than [NaN] *)

Definition key := (Z * Z * Z)%type.

Definition sf_key (x : spec_float) : option key :=
  match x with
  | S754_nan => None
  | S754_zero _ => Some (0, 0, 0)
  | S754_infinity false => Some (2, 0, 0)
  | S754_infinity true => Some (-2, 0, 0)
  | S754_finite false m e => Some (1, e, Zpos m)
  | S754_finite true m e => Some (-1, - e, Zneg m)
  end.

Definition key_lt (a b : key) : Prop :=
  let '(a1, a2, a3) := a in let '(b1, b2, b3) := b in
  a1 < b1 \/ (a1 = b1 /\ (a2 < b2 \/ (a2 = b2 /\ a3 < b3))).

Definition key_cmp (a b : key) : comparison :=
  let '(a1, a2, a3) := a in let '(b1, b2, b3) := b in
  match a1 ?= b1 with
  | Eq => match a2 ?= b2 with Eq => a3 ?= b3 | c => c end
  | c => c
  end.

Lemma key_cmp_spec a b :
  match key_cmp a b with
  | Lt => key_lt a b
  | Eq => a = b
  | Gt => key_lt b a
  end.
Proof.
  destruct a as [[a1 a2] a3], b as [[b1 b2] b3]; cbn.
  destruct (Z.compare_spec a1 b1); [|lia|lia]; subst.
  destruct (Z.compare_spec a2 b2); [|lia|lia]; subst.
  destruct (Z.compare_spec a3 b3); [by subst|lia|lia].
Qed.

Lemma SFcompare_key x y :
  SFcompare x y =
  match sf_key x, sf_key y with
  | Some a, Some b => Some (key_cmp a b)
  | _, _ => None
  end.
Proof.
  destruct x as [s|s| |s m e], y as [s'|s'| |s' m' e'];
    try destruct s; try destruct s'; try reflexivity; cbn.
  destruct (Z.compare_spec e e'), (Z.compare_spec (- e) (- e')); lia || reflexivity.
Qed.

Definition fkey (x : number) : option key := sf_key (Prim2SF x).

Lemma ltb_key x y :
  (x <? y)%float = true <->
  exists a b, fkey x = Some a /\ fkey y = Some b /\ key_lt a b.
Proof.
  rewrite FloatAxioms.ltb_spec; unfold SFltb; rewrite SFcompare_key; fold (fkey x) (fkey y).
  destruct (fkey x) as [a|], (fkey y) as [b|]; try (split; [done|by intros (? & ? & ? & ? & ?)]).
  pose proof (key_cmp_spec a b) as H. split.
  - intros Hc. exists a, b. by destruct (key_cmp a b).
  - intros (a' & b' & [= <-] & [= <-] & Hlt).
    destruct a as [[a1 a2] a3], b as [[b1 b2] b3], (key_cmp _ _); cbn in *;
      [injection H as <- <- <-; lia|done|lia].
Qed.

Lemma leb_key x y :
  (x <=? y)%float = true <->
  exists a b, fkey x = Some a /\ fkey y = Some b /\ ~ key_lt b a.
Proof.
  rewrite FloatAxioms.leb_spec; unfold SFleb; rewrite SFcompare_key; fold (fkey x) (fkey y).
  destruct (fkey x) as [a|], (fkey y) as [b|]; try (split; [done|by intros (? & ? & ? & ? & ?)]).
  pose proof (key_cmp_spec a b) as H. split.
  - intros Hc. exists a, b. split_and!; [done..|].
    destruct a as [[a1 a2] a3], b as [[b1 b2] b3], (key_cmp _ _); cbn in *;
      [injection H as <- <- <-; lia|lia|done].
  - intros (a' & b' & [= <-] & [= <-] & Hlt). by destruct (key_cmp a b).
Qed.

Lemma eqb_key x y :
  (x =? y)%float = true <-> exists a, fkey x = Some a /\ fkey y = Some a.
Proof.
  rewrite FloatAxioms.eqb_spec; unfold SFeqb; rewrite SFcompare_key; fold (fkey x) (fkey y).
  destruct (fkey x) as [a|], (fkey y) as [b|]; try (split; [done|by intros (? & ? & ?)]).
  pose proof (key_cmp_spec a b) as H. split.
  - intros Hc. exists a. destruct (key_cmp a b); try discriminate. by subst.
  - intros (a' & [= ->] & [= ->]).
    destruct a' as [[a1 a2] a3], (key_cmp _ _); cbn in *; [done|lia|lia].
Qed.

(** A number is not [NaN] exactly when it has a key. *)
Definition notNaN (x : number) : Prop := is_Some (fkey x).

Lemma notNaN_eqb x : notNaN x <-> (x =? x)%float = true.
Proof. rewrite eqb_key. unfold notNaN, is_Some. split; intros [a H]; exists a; tauto. Qed.

Ltac keys :=
  repeat match goal with
  | H : (_ <? _)%float = true |- _ => apply ltb_key in H as (? & ? & ? & ? & ?)
  | H : (_ <=? _)%float = true |- _ => apply leb_key in H as (? & ? & ? & ? & ?)
  | H : (_ =? _)%float = true |- _ => apply eqb_key in H as (? & ? & ?)
  | H : notNaN _ |- _ => destruct H as [? H]
  | H : ?t = Some ?a, H' : ?t = Some ?b |- _ =>
      assert_fails (unify a b); rewrite H in H'; injection H' as H'; subst
  end.

Ltac key_lia :=
  repeat match goal with x : key |- _ => destruct x as [[? ?] ?] end;
  cbn in *; repeat match goal with H : (_, _, _) = (_, _, _) |- _ => injection H as ? ? ?; subst end;
  lia.

Lemma ltb_notNaN x y : (x <? y)%float = true -> notNaN x /\ notNaN y.
Proof. intros H. keys. unfold notNaN. split; eauto. Qed.

Lemma leb_notNaN x y : (x <=? y)%float = true -> notNaN x /\ notNaN y.
Proof. intros H. keys. unfold notNaN. split; eauto. Qed.

Lemma leb_refl x : notNaN x -> (x <=? x)%float = true.
Proof. intros [a Ha]. apply leb_key. exists a, a. split_and!; [done..|]. key_lia. Qed.

Lemma leb_trans x y z :
  (x <=? y)%float = true -> (y <=? z)%float = true -> (x <=? z)%float = true.
Proof.
  intros H1 H2. keys. apply leb_key. do 2 eexists. split_and!; [done..|]. key_lia.
Qed.

Lemma ltb_leb_trans x y z :
  (x <? y)%float = true -> (y <=? z)%float = true -> (x <? z)%float = true.
Proof.
  intros H1 H2. keys. apply ltb_key. do 2 eexists. split_and!; [done..|]. key_lia.
Qed.

Lemma leb_ltb_trans x y z :
  (x <=? y)%float = true -> (y <? z)%float = true -> (x <? z)%float = true.
Proof.
  intros H1 H2. keys. apply ltb_key. do 2 eexists. split_and!; [done..|]. key_lia.
Qed.

Lemma ltb_leb x y : (x <? y)%float = true -> (x <=? y)%float = true.
Proof.
  intros H. keys. apply leb_key. do 2 eexists. split_and!; [done..|]. key_lia.
Qed.

Lemma ltb_irrefl x : (x <? x)%float = false.
Proof. apply not_true_iff_false. intros H. keys. key_lia. Qed.

Lemma ltb_not_leb x y : (x <? y)%float = true -> (y <=? x)%float = false.
Proof. intros H. apply not_true_iff_false. intros H'. keys. key_lia. Qed.

(** Away from [NaN], [!(x < y)] is [y <= x]. *)
Lemma ltb_false_leb x y :
  notNaN x -> notNaN y -> (x <? y)%float = false -> (y <=? x)%float = true.
Proof.
  intros [a Ha] [b Hb] H. apply leb_key. exists b, a. split_and!; [done..|].
  intros Hlt. apply not_true_iff_false in H. apply H, ltb_key. eauto.
Qed.

Lemma leb_false_ltb x y :
  notNaN x -> notNaN y -> (x <=? y)%float = false -> (y <? x)%float = true.
Proof.
  intros [a Ha] [b Hb] H. apply ltb_key. exists b, a. split_and!; [done..|].
  apply not_true_iff_false in H. destruct (decide (key_cmp b a = Lt)) as [E|E].
  - pose proof (key_cmp_spec b a) as Hs. by rewrite E in Hs.
  - exfalso. apply H, leb_key. exists a, b. split_and!; [done..|].
    pose proof (key_cmp_spec b a) as Hs. destruct (key_cmp b a); [subst; key_lia|done|].
    key_lia.
Qed.

(** ** Finite numbers *)

Lemma isFinite_key x :
  isFinite x = true <-> exists a b c, fkey x = Some (a, b, c) /\ -2 < a < 2.
Proof.
  unfold isFinite. rewrite ltb_key. unfold fkey. rewrite abs_spec.
  change (Prim2SF infinity) with (S754_infinity false). cbn.
  destruct (Prim2SF x) as [s|[|]| |[|] m e]; cbn; split.
  all: try (intros (a & b & [= <-] & [= <-] & H)); try (intros (a & b & c & [= <- <- <-] & H));
    try (cbn in *; lia); try (do 3 eexists; split; [reflexivity|lia]);
    try (do 2 eexists; split_and!; [reflexivity..|cbn; lia]).
Qed.

Lemma isFinite_notNaN x : isFinite x = true -> notNaN x.
Proof. intros (a & b & c & H & _)%isFinite_key. by eexists. Qed.

(** Something between two finite numbers is finite. *)
Lemma isFinite_between x y z :
  isFinite x = true -> isFinite z = true ->
  (x <=? y)%float = true -> (y <=? z)%float = true -> isFinite y = true.
Proof.
  intros (a & b & c & H & Ha)%isFinite_key (a' & b' & c' & H' & Ha')%isFinite_key L1 L2.
  keys. apply isFinite_key.
  match goal with H : fkey y = Some ?k |- _ => destruct k as [[? ?] ?] end.
  do 3 eexists; split; [eassumption|]. cbn in *; lia.
Qed.

(** ** Rounding keeps the sign and never makes [NaN] of finite numbers *)

Definition sf_nonneg (x : spec_float) : Prop :=
  match x with
  | S754_zero _ | S754_infinity false | S754_finite false _ _ => True
  | _ => False
  end.

Lemma leb_zero_nonneg x : (0 <=? x)%float = true <-> sf_nonneg (Prim2SF x).
Proof.
  rewrite leb_key. unfold fkey. change (sf_key (Prim2SF 0)) with (Some (0, 0, 0)).
  destruct (Prim2SF x) as [s|[|]| |[|] m e]; cbn; split; try done.
  all: try (intros (? & ? & [= <-] & [= <-] & H); cbn in *; lia).
  all: try (intros _; do 2 eexists; split_and!; [reflexivity..|cbn; lia]).
Qed.

Lemma shr_1_nonneg r : 0 <= shr_m r -> 0 <= shr_m (shr_1 r).
Proof. destruct r as [[|[p|p|]|[p|p|]] rr s]; cbn; lia. Qed.

Lemma iter_shr_nonneg p r : 0 <= shr_m r -> 0 <= shr_m (SpecFloat.iter_pos shr_1 p r).
Proof.
  revert r. induction p as [p IH|p IH|]; cbn; intros r H; auto using shr_1_nonneg.
Qed.

Lemma shr_nonneg r e n : 0 <= shr_m r -> 0 <= shr_m (fst (shr r e n)).
Proof. destruct n; cbn; auto using iter_shr_nonneg. Qed.

Lemma shr_fexp_nonneg m e l : 0 <= m -> 0 <= shr_m (fst (shr_fexp prec emax m e l)).
Proof. intros H. apply shr_nonneg. by destruct l as [|[]]. Qed.

Lemma round_even_nonneg m l : 0 <= m -> 0 <= round_nearest_even m l.
Proof. intros H. destruct l as [|[]]; cbn; try destruct (Z.even m); lia. Qed.

(** The sign of a rounded magnitude is the sign given to it. *)
Lemma binary_round_aux_sign sx m e l :
  0 <= m ->
  let r := binary_round_aux prec emax sx m e l in
  r = S754_zero sx \/ r = S754_infinity sx \/ exists m' e', r = S754_finite sx m' e'.
Proof.
  intros Hm. unfold binary_round_aux.
  pose proof (shr_fexp_nonneg m e l Hm) as H1.
  destruct (shr_fexp prec emax m e l) as [mrs' e'] eqn:E1; cbn in H1.
  pose proof (shr_fexp_nonneg (round_nearest_even (shr_m mrs') (loc_of_shr_record mrs'))
                e' loc_Exact (round_even_nonneg _ _ H1)) as H2.
  destruct (shr_fexp prec emax _ e' loc_Exact) as [mrs'' e''] eqn:E2; cbn in H2.
  destruct (shr_m mrs'') as [|p|p]; [by left| |lia].
  destruct (Z.leb e'' _); [right; right; eauto|by right; left].
Qed.

Lemma binary_round_sign sx m e :
  let r := binary_round prec emax sx m e in
  r = S754_zero sx \/ r = S754_infinity sx \/ exists m' e', r = S754_finite sx m' e'.
Proof.
  unfold binary_round. destruct (shl_align _ _ _) as [mz ez].
  apply binary_round_aux_sign; lia.
Qed.

Lemma add_nonneg x y :
  (0 <=? x)%float = true -> (0 <=? y)%float = true -> (0 <=? x + y)%float = true.
Proof.
  rewrite !leb_zero_nonneg, add_spec. unfold SF64add.
  destruct (Prim2SF x) as [[|]|[|]| |[|] m e], (Prim2SF y) as [[|]|[|]| |[|] m' e'];
    cbn -[binary_round prec emax]; try done; intros _ _.
  match goal with |- context [binary_normalize _ _ (Zpos ?a + Zpos ?b) ?e _] =>
    change (binary_normalize prec emax (Zpos a + Zpos b) e false)
      with (binary_round prec emax false (a + b) e);
    destruct (binary_round_sign false (a + b) e) as [->|[->|(? & ? & ->)]]; exact I end.
Qed.

Lemma binary_normalize_key m e s :
  is_Some (sf_key (binary_normalize prec emax m e s)).
Proof.
  destruct m as [|p|p]; cbn; [eauto| |].
  - destruct (binary_round_sign false p e) as [->|[->|(? & ? & ->)]]; cbn; eauto.
  - destruct (binary_round_sign true p e) as [->|[->|(? & ? & ->)]]; cbn; eauto.
Qed.

Lemma isFinite_sf x :
  isFinite x = true ->
  (exists s, Prim2SF x = S754_zero s) \/ (exists s m e, Prim2SF x = S754_finite s m e).
Proof.
  intros (a & b & c & H & ?)%isFinite_key. unfold fkey in H.
  destruct (Prim2SF x) as [s|[|]| |s m e]; cbn in *; eauto 6.
  - injection H as <- <- <-; lia.
  - injection H as <- <- <-; lia.
  - done.
Qed.

Lemma add_notNaN x y : isFinite x = true -> isFinite y = true -> notNaN (x + y)%float.
Proof.
  intros Hx%isFinite_sf Hy%isFinite_sf. unfold notNaN, fkey. rewrite add_spec. unfold SF64add.
  destruct Hx as [[s ->]|(s & m & e & ->)], Hy as [[s' ->]|(s' & m' & e' & ->)]; cbn.
  - destruct s, s'; cbn; eauto.
  - destruct s'; cbn; eauto.
  - destruct s; cbn; eauto.
  - apply binary_normalize_key.
Qed.

Lemma sub_notNaN x y : isFinite x = true -> isFinite y = true -> notNaN (x - y)%float.
Proof.
  intros Hx%isFinite_sf Hy%isFinite_sf. unfold notNaN, fkey. rewrite sub_spec. unfold SF64sub.
  destruct Hx as [[s ->]|(s & m & e & ->)], Hy as [[s' ->]|(s' & m' & e' & ->)]; cbn.
  - destruct s, s'; cbn; eauto.
  - destruct s'; cbn; eauto.
  - destruct s; cbn; eauto.
  - apply binary_normalize_key.
Qed.

Lemma abs_nonneg x : notNaN x -> (0 <=? Math_abs x)%float = true.
Proof.
  intros [k Hk]. apply leb_zero_nonneg. unfold Math_abs. rewrite abs_spec.
  unfold fkey in Hk. by destruct (Prim2SF x) as [|[]| |[] ? ?].
Qed.

Lemma abs_isFinite x : isFinite (Math_abs x) = isFinite x.
Proof.
  unfold isFinite, Math_abs. rewrite !FloatAxioms.ltb_spec, !abs_spec.
  by destruct (Prim2SF x) as [|[]| |[] ? ?].
Qed.

Lemma mul_nonneg x y :
  isFinite x = true -> isFinite y = true ->
  (0 <=? x)%float = true -> (0 <=? y)%float = true -> (0 <=? x * y)%float = true.
Proof.
  rewrite !leb_zero_nonneg, mul_spec. unfold SF64mul.
  intros Hx%isFinite_sf Hy%isFinite_sf.
  destruct Hx as [[s ->]|(s & m & e & ->)], Hy as [[s' ->]|(s' & m' & e' & ->)];
    cbn -[binary_round_aux prec emax]; try done.
  destruct s, s'; try done. intros _ _. cbn [xorb].
  destruct (binary_round_aux_sign false (Zpos (m * m')) (e + e') loc_Exact ltac:(lia))
    as [->|[->|(? & ? & ->)]]; exact I.
Qed.

Lemma abs_notNaN x : notNaN x -> notNaN (Math_abs x).
Proof. intros [k Hk]. unfold notNaN, fkey, Math_abs in *. rewrite abs_spec. destruct (Prim2SF x) as [s|[|]| |s m e]; cbn in *; eauto. Qed.

Lemma sub_finite_r x y : notNaN x -> isFinite y = true -> notNaN (x - y)%float.
Proof.
  intros Hx Hy%isFinite_sf. unfold notNaN, fkey in *. rewrite sub_spec. unfold SF64sub.
  destruct Hy as [[s' ->]|(s' & m' & e' & ->)], (Prim2SF x) as [s|[|]| |s m e]; cbn in *; try (by destruct Hx); eauto.
  - destruct s, s'; cbn; eauto.
  - destruct s'; cbn; eauto.
  - apply binary_normalize_key.
Qed.

Lemma mul_notNaN x y : isFinite x = true -> isFinite y = true -> notNaN (x * y)%float.
Proof.
  intros Hx%isFinite_sf Hy%isFinite_sf. unfold notNaN, fkey. rewrite mul_spec. unfold SF64mul.
  destruct Hx as [[s ->]|(s & m & e & ->)], Hy as [[s' ->]|(s' & m' & e' & ->)]; cbn; eauto.
  destruct (binary_round_aux_sign (xorb s s') (Zpos (m * m')) (e + e') loc_Exact ltac:(lia)) as [->|[->|(? & ? & ->)]]; destruct s, s'; cbn; eauto.
Qed.

(** A finite number minus itself is [+0]. *)
Lemma sub_self x : isFinite x = true -> Prim2SF (x - x)%float = S754_zero false.
Proof.
  intros Hx%isFinite_sf. rewrite sub_spec. unfold SF64sub.
  destruct Hx as [[s ->]|(s & m & e & ->)]; cbn -[binary_normalize prec emax]; [by destruct s|].
  by rewrite Z.sub_diag.
Qed.

(** ** [Math.max] is the least upper bound *)

Lemma is_nan_notNaN x : is_nan x = false <-> notNaN x.
Proof. unfold is_nan. rewrite negb_false_iff, notNaN_eqb. done. Qed.

Lemma Math_max_cases a b :
  notNaN a -> notNaN b ->
  (Math_max a b = a /\ (b <=? a)%float = true) \/ (Math_max a b = b /\ (a <=? b)%float = true).
Proof.
  intros Ha Hb. unfold Math_max.
  rewrite (proj2 (is_nan_notNaN a) Ha), (proj2 (is_nan_notNaN b) Hb); cbn [orb].
  destruct (a <? b)%float eqn:E1; [right; split; [done|by apply ltb_leb]|].
  destruct (b <? a)%float eqn:E2; [left; split; [done|by apply ltb_leb]|].
  destruct (get_sign a); [right|left]; (split; [done|by apply ltb_false_leb]).
Qed.

Lemma Math_max_l a b : notNaN a -> notNaN b -> (a <=? Math_max a b)%float = true.
Proof.
  intros Ha Hb. destruct (Math_max_cases a b Ha Hb) as [[-> _]|[-> ?]]; auto using leb_refl.
Qed.

Lemma Math_max_r a b : notNaN a -> notNaN b -> (b <=? Math_max a b)%float = true.
Proof.
  intros Ha Hb. destruct (Math_max_cases a b Ha Hb) as [[-> ?]|[-> _]]; auto using leb_refl.
Qed.

Lemma Math_max_notNaN a b : notNaN a -> notNaN b -> notNaN (Math_max a b).
Proof. intros Ha Hb. destruct (Math_max_cases a b Ha Hb) as [[-> _]|[-> _]]; done. Qed.

Lemma Math_max_isFinite a b :
  isFinite a = true -> isFinite b = true -> isFinite (Math_max a b) = true.
Proof.
  intros Ha Hb.
  destruct (Math_max_cases a b) as [[-> _]|[-> _]]; auto using isFinite_notNaN.
Qed.

#[export] Hint Resolve isFinite_notNaN leb_refl add_nonneg add_notNaN sub_notNaN abs_nonneg
  Math_max_notNaN Math_max_isFinite Math_max_l Math_max_r ltb_leb : ti.
