(* ===== verification/JsObject.v ===== *)
(** * JavaScript strings and objects

    A JavaScript string is a [string] holding its (generalised) UTF-8 bytes;
    every test the sources make on strings is on ASCII characters, on
    emptiness or on equality.  An object used as a dictionary is an
    association list in the order [Object.keys] enumerates it: canonical array
    indices first, ascending, then the other keys in insertion order. *)

From Stdlib Require Import ZArith Lia Bool Ascii.
From stdpp Require Import base strings option list.
From S2P Require Import Prelude.

Local Open Scope Z_scope.

(** ** Character classes and the regular expressions of the sources *)

Definition code (c : ascii) : Z := Z.of_N (N_of_ascii c).
Definition between (lo hi : Z) (c : ascii) : bool := (lo <=? code c) && (code c <=? hi).
Definition isDigit : ascii -> bool := between 48 57.
Definition isUpper : ascii -> bool := between 65 90.
Definition isLower : ascii -> bool := between 97 122.
Definition isDashUnderscore (c : ascii) : bool := (code c =? 45) || (code c =? 95).

(** Every character of the string is in the class: [/^[class]*$/]. *)
Fixpoint all_chars (p : ascii -> bool) (s : string) : bool :=
  match s with
  | EmptyString => true
  | String c r => p c && all_chars p r
  end.

Definition lengthZ (s : string) : Z := Z.of_nat (String.length s).

(** [/^[class]{lo,hi}$/]. *)
Definition class_len (p : ascii -> bool) (lo hi : Z) (s : string) : bool :=
  (lo <=? lengthZ s) && (lengthZ s <=? hi) && all_chars p s.

(** [/^[A-Za-z0-9_-]{1,80}$/], the shape of every stored identity. *)
Definition isWordDash (c : ascii) : bool :=
  isDigit c || isUpper c || isLower c || isDashUnderscore c.
Definition identifier (s : string) : bool := class_len isWordDash 1 80 s.

(** [/^[A-Z0-9_-]+$/], a currency code. *)
Definition isCurrencyChar (c : ascii) : bool := isDigit c || isUpper c || isDashUnderscore c.
Definition currencyCode (s : string) : bool :=
  negb (String.eqb s "") && all_chars isCurrencyChar s.

(** [/^[a-z-]{1,80}$/], an audit action. *)
Definition actionCode (s : string) : bool :=
  class_len (fun c => isLower c || (code c =? 45)) 1 80 s.

(** [/^[a-f0-9]{64}$/], a SHA-256 digest in hexadecimal. *)
Definition hex64 (s : string) : bool :=
  class_len (fun c => isDigit c || between 97 102 c) 64 64 s.

(** [/^\d{4}-\d{2}-\d{2}$/], a calendar date. *)
Definition isoDay (s : string) : bool :=
  match s with
  | String a (String b (String c (String d (String e (String f (String g
      (String h (String i (String j EmptyString))))))))) =>
      isDigit a && isDigit b && isDigit c && isDigit d && (code e =? 45) &&
      isDigit f && isDigit g && (code h =? 45) && isDigit i && isDigit j
  | _ => false
  end.

(** [s.trim() === ""]: only ECMAScript white space and line terminators. *)
Fixpoint blank (s : string) : bool :=
  match s with
  | EmptyString => true
  | String c r =>
      if between 9 13 c || (code c =? 32) then blank r
      else match r with
      | String d r2 =>
          if (code c =? 194) && (code d =? 160) then blank r2
          else match r2 with
          | String e r3 =>
              if ((code c =? 225) && (code d =? 154) && (code e =? 128))
                 || ((code c =? 226) && (code d =? 128)
                     && (between 128 138 e || (code e =? 168) || (code e =? 169) || (code e =? 175)))
                 || ((code c =? 226) && (code d =? 129) && (code e =? 159))
                 || ((code c =? 227) && (code d =? 128) && (code e =? 128))
                 || ((code c =? 239) && (code d =? 187) && (code e =? 191))
              then blank r3 else false
          | EmptyString => false
          end
      | EmptyString => false
      end
  end.

(** [s.split(c)] for a one-character separator. *)
Fixpoint split_on (c : ascii) (s : string) : list string :=
  match s with
  | EmptyString => [""%string]
  | String d r =>
      if Ascii.eqb c d then ""%string :: split_on c r
      else match split_on c r with
           | w :: ws => String d w :: ws
           | [] => [String d ""]
           end
  end.

(** [s.includes(c)] for one character, [s.startsWith(p)], [s.endsWith(p)]. *)
Definition includes_char (c : ascii) (s : string) : bool :=
  negb (all_chars (fun d => negb (Ascii.eqb c d)) s).
Definition startsWith (p s : string) : bool := String.prefix p s.
Definition endsWith (p s : string) : bool :=
  let n := String.length s in let k := String.length p in
  (k <=? n)%nat && String.eqb (String.substring (n - k) k s) p.

Lemma split_on_cons c s : exists w ws, split_on c s = w :: ws.
Proof.
  induction s as [|d r (w & ws & IH)]; cbn; [eauto|].
  destruct (Ascii.eqb c d); [eauto|]. rewrite IH. eauto.
Qed.

(** A blank text has no slash. *)
Lemma blank_no_slash s : blank s = true -> includes_char "/"%char s = false.
Proof.
  remember (String.length s) as n eqn:Hn. revert s Hn.
  induction n as [n IH] using (well_founded_induction Wf_nat.lt_wf). intros s -> Hb.
  unfold includes_char. apply negb_false_iff.
  assert (forall r, (String.length r < String.length s)%nat -> blank r = true ->
            all_chars (fun d => negb (Ascii.eqb "/" d)) r = true) as IHr.
  { intros r Hr Hbr. specialize (IH _ Hr r eq_refl Hbr). by apply negb_false_iff in IH. }
  assert (forall c, code c <> 47 -> Ascii.eqb "/" c = false) as Hc.
  { intros c Hc. apply Ascii.eqb_neq. intros <-. by apply Hc. }
  destruct s as [|c r]; [done|]. cbn [all_chars String.length blank] in *. unfold between in Hb.
  destruct ((9 <=? code c) && (code c <=? 13) || (code c =? 32)) eqn:E1.
  { rewrite Hc, IHr by (done || lia). done. }
  destruct r as [|d r2]; [done|]. cbn [all_chars String.length] in *.
  destruct ((code c =? 194) && (code d =? 160)) eqn:E2.
  { rewrite !Hc, IHr by (done || lia). done. }
  destruct r2 as [|e r3]; [done|]. cbn [all_chars String.length] in *.
  match type of Hb with (if ?b then _ else _) = true => destruct b eqn:E3; [|done] end.
  rewrite !Hc, IHr by (done || lia). done.
Qed.

Lemma split_on_none c s : includes_char c s = false -> split_on c s = [s].
Proof.
  unfold includes_char. intros H%negb_false_iff. induction s as [|d r IH]; cbn in *; [done|].
  bool_hyps. destruct (Ascii.eqb c d); [done|]. by rewrite IH.
Qed.

(** ** Objects as dictionaries *)

Abbreviation obj A := (list (string * A)).

(** A canonical array index: a decimal numeral below 2^32 - 1 without leading zeros. *)
Fixpoint digits_value (acc : Z) (s : string) : option Z :=
  match s with
  | EmptyString => Some acc
  | String c r => if isDigit c then digits_value (10 * acc + (code c - 48)) r else None
  end.

Definition arrayIndex (s : string) : option Z :=
  match s with
  | EmptyString => None
  | String c r =>
      if (code c =? 48) && negb (String.eqb r "") then None
      else match digits_value 0 s with
           | Some n => if n <? 4294967295 then Some n else None
           | None => None
           end
  end.

(** Whether a new key [k] is enumerated before the present key [j]. *)
Definition key_before (k j : string) : bool :=
  match arrayIndex k, arrayIndex j with
  | Some a, Some b => a <? b
  | Some _, None => true
  | None, _ => false
  end.

Section Obj.
Context {A : Type}.
Implicit Types (o : obj A) (k j : string) (v : A).

Fixpoint o_get k o : option A :=
  match o with
  | [] => None
  | (j, v) :: r => if String.eqb k j then Some v else o_get k r
  end.

(** [Object.hasOwn(o, k)]. *)
Definition o_has k o : bool := match o_get k o with Some _ => true | None => false end.

Fixpoint o_replace k v o : obj A :=
  match o with
  | [] => []
  | (j, w) :: r => if String.eqb k j then (k, v) :: r else (j, w) :: o_replace k v r
  end.

Fixpoint o_insert k v o : obj A :=
  match o with
  | [] => [(k, v)]
  | (j, w) :: r => if key_before k j then (k, v) :: (j, w) :: r else (j, w) :: o_insert k v r
  end.

(** [o[k] = v]. *)
Definition o_set k v o : obj A := if o_has k o then o_replace k v o else o_insert k v o.

(** [delete o[k]]. *)
Definition o_delete k o : obj A := List.filter (fun p => negb (String.eqb k (fst p))) o.

(** [Object.keys], [Object.values]. *)
Definition o_keys o : list string := map fst o.
Definition o_values o : list A := map snd o.

(** What every JavaScript object satisfies. *)
Definition o_wf o : Prop := NoDup (o_keys o).

Lemma o_get_replace_eq k v o : o_has k o = true -> o_get k (o_replace k v o) = Some v.
Proof.
  unfold o_has. induction o as [|[j w] r IH]; cbn; [done|].
  destruct (String.eqb k j) eqn:E; cbn; [by rewrite String.eqb_refl|]. by rewrite E.
Qed.

Lemma o_get_replace_ne k j v o : k <> j -> o_get j (o_replace k v o) = o_get j o.
Proof.
  intros Hne. induction o as [|[i w] r IH]; cbn; [done|].
  destruct (String.eqb_spec k i) as [->|E]; cbn.
  - destruct (String.eqb_spec j i); [congruence|done].
  - by rewrite IH.
Qed.

Lemma o_get_insert_eq k v o : o_get k o = None -> o_get k (o_insert k v o) = Some v.
Proof.
  induction o as [|[j w] r IH]; cbn; [by rewrite String.eqb_refl|].
  destruct (String.eqb k j) eqn:E; [done|]. intros H.
  destruct (key_before k j); cbn; [by rewrite String.eqb_refl|]. rewrite E. auto.
Qed.

Lemma o_get_insert_ne k j v o : k <> j -> o_get j (o_insert k v o) = o_get j o.
Proof.
  intros Hne. assert (String.eqb j k = false) as E by (apply String.eqb_neq; congruence).
  induction o as [|[i w] r IH]; cbn; [by rewrite E|].
  destruct (key_before k i); cbn; [by rewrite E|]. by rewrite IH.
Qed.

Lemma o_get_set_eq k v o : o_get k (o_set k v o) = Some v.
Proof.
  unfold o_set. destruct (o_has k o) eqn:E; [by apply o_get_replace_eq|].
  apply o_get_insert_eq. unfold o_has in E. by destruct (o_get k o).
Qed.

Lemma o_get_set_ne k j v o : k <> j -> o_get j (o_set k v o) = o_get j o.
Proof.
  intros H. unfold o_set.
  destruct (o_has k o); [by apply o_get_replace_ne|by apply o_get_insert_ne].
Qed.

Lemma o_get_delete_eq k o : o_get k (o_delete k o) = None.
Proof.
  unfold o_delete. induction o as [|[j w] r IH]; cbn; [done|].
  destruct (String.eqb k j) eqn:E; cbn; [done|]. by rewrite E.
Qed.

Lemma o_get_delete_ne k j o : k <> j -> o_get j (o_delete k o) = o_get j o.
Proof.
  intros Hne. unfold o_delete. induction o as [|[i w] r IH]; cbn; [done|].
  destruct (String.eqb_spec k i) as [->|E]; cbn; rewrite IH; [|done].
  by destruct (String.eqb_spec j i).
Qed.

Lemma o_get_In k v o : o_get k o = Some v -> In (k, v) o.
Proof.
  induction o as [|[j w] r IH]; cbn; [done|].
  destruct (String.eqb_spec k j) as [->|E]; [intros [= ->]; by left|auto].
Qed.

Lemma o_get_None k o : o_get k o = None <-> ~ In k (o_keys o).
Proof.
  induction o as [|[j w] r IH]; cbn; [tauto|].
  destruct (String.eqb_spec k j) as [->|E]; [split; [done|tauto]|].
  rewrite IH. intuition congruence.
Qed.

Lemma o_In_get k v o : o_wf o -> In (k, v) o -> o_get k o = Some v.
Proof.
  unfold o_wf. induction o as [|[j w] r IH]; cbn; [done|].
  intros [Hn Hd]%NoDup_cons [[= -> ->]|H]; [by rewrite String.eqb_refl|].
  destruct (String.eqb_spec k j) as [->|E]; [|auto].
  exfalso. apply Hn, list_elem_of_In, in_map_iff. by exists (j, v).
Qed.

(** A fresh key that is no array index goes last. *)
Lemma o_set_fresh k v o :
  arrayIndex k = None -> o_get k o = None -> o_set k v o = o ++ [(k, v)].
Proof.
  intros Hk. unfold o_set, o_has. intros ->.
  induction o as [|[j w] r IH]; cbn; [done|].
  unfold key_before at 1. rewrite Hk. by rewrite IH.
Qed.

Lemma o_keys_insert k v o : o_keys (o_insert k v o) ≡ₚ k :: o_keys o.
Proof.
  induction o as [|[j w] r IH]; cbn; [done|].
  destruct (key_before k j); cbn; [done|]. rewrite IH. apply Permutation_swap.
Qed.

Lemma o_keys_replace k v o : o_keys (o_replace k v o) = o_keys o.
Proof.
  induction o as [|[j w] r IH]; cbn; [done|].
  destruct (String.eqb_spec k j) as [->|]; cbn; [done|]. by f_equal.
Qed.

Lemma o_wf_nil : o_wf ([] : obj A).
Proof. apply NoDup_nil_2. Qed.

Lemma o_wf_set k v o : o_wf o -> o_wf (o_set k v o).
Proof.
  unfold o_wf, o_set, o_has. intros H. destruct (o_get k o) eqn:E.
  - by rewrite o_keys_replace.
  - rewrite o_keys_insert. apply NoDup_cons. split; [|done].
    rewrite list_elem_of_In. by apply o_get_None.
Qed.

Lemma o_keys_delete k o : o_keys (o_delete k o) = List.filter (fun j => negb (String.eqb k j)) (o_keys o).
Proof.
  unfold o_delete. induction o as [|[j w] r IH]; cbn; [done|].
  destruct (String.eqb k j); cbn; [done|by f_equal].
Qed.

Lemma o_wf_delete k o : o_wf o -> o_wf (o_delete k o).
Proof.
  unfold o_wf. rewrite o_keys_delete, !NoDup_ListNoDup. apply List.NoDup_filter.
Qed.

Lemma o_delete_In k p o : In p (o_delete k o) <-> In p o /\ fst p <> k.
Proof.
  unfold o_delete. rewrite filter_In, negb_true_iff, String.eqb_neq. intuition congruence.
Qed.
(** The enumeration order of a JavaScript object: no key is out of place. *)
Fixpoint o_sorted o : Prop :=
  match o with
  | [] => True
  | (k, _) :: r => (forall j, In j (o_keys r) -> j <> k /\ key_before j k = false) /\ o_sorted r
  end.

Lemma o_sorted_wf o : o_sorted o -> o_wf o.
Proof.
  unfold o_wf. induction o as [|[k v] r IH]; cbn; [intros; apply NoDup_nil_2|].
  intros [H1 H2]. apply NoDup_cons. split; [|auto].
  rewrite list_elem_of_In. intros H. by destruct (H1 _ H).
Qed.

Lemma key_before_asym k j : key_before k j = true -> key_before j k = false.
Proof.
  unfold key_before. destruct (arrayIndex k), (arrayIndex j); try done. intros ?. lia.
Qed.

Lemma key_before_trans i j k :
  key_before i j = true -> key_before j k = true -> key_before i k = true.
Proof.
  unfold key_before. destruct (arrayIndex i), (arrayIndex j), (arrayIndex k); try done.
  intros ? ?. lia.
Qed.

Lemma o_insert_sorted k v o :
  o_get k o = None -> o_sorted o -> o_sorted (o_insert k v o).
Proof.
  induction o as [|[j w] r IH]; intros Hn; cbn [o_insert].
  - cbn. split; [by intros|done].
  - cbn in Hn. destruct (String.eqb_spec k j) as [|Hkj]; [done|].
    intros [H1 H2]. destruct (key_before k j) eqn:E.
    + split; [|by split]. intros i Hi. cbn in Hi. split.
      * intros ->. destruct Hi as [->|Hi]; [done|].
        apply o_get_None in Hn. by apply Hn.
      * apply not_true_iff_false. intros Hik. destruct Hi as [<-|Hi].
        -- apply key_before_asym in E. congruence.
        -- destruct (H1 _ Hi) as [_ Hij].
           rewrite (key_before_trans _ _ _ Hik E) in Hij. done.
    + split; [|auto]. intros i Hi.
      assert (In i (k :: o_keys r)) as [<-|Hi'].
      { apply list_elem_of_In. rewrite <- (o_keys_insert k v r). by apply list_elem_of_In. }
      * done.
      * auto.
Qed.

Lemma o_replace_sorted k v o : o_sorted o -> o_sorted (o_replace k v o).
Proof.
  induction o as [|[j w] r IH]; cbn [o_replace]; [done|]. intros [H1 H2].
  destruct (String.eqb_spec k j) as [->|]; [by split|].
  split; [|auto]. by rewrite o_keys_replace.
Qed.

Lemma o_set_sorted k v o : o_sorted o -> o_sorted (o_set k v o).
Proof.
  unfold o_set, o_has. intros H. destruct (o_get k o) eqn:E.
  - by apply o_replace_sorted.
  - by apply o_insert_sorted.
Qed.

Lemma o_delete_sorted k o : o_sorted o -> o_sorted (o_delete k o).
Proof.
  induction o as [|[j w] r IH]; [done|]. intros [H1 H2].
  unfold o_delete. cbn. destruct (String.eqb k j); cbn; [by apply IH|].
  split; [|by apply IH]. intros i Hi. apply H1.
  change (In i (o_keys (o_delete k r))) in Hi. rewrite o_keys_delete in Hi.
  by apply filter_In in Hi as [Hi _].
Qed.

(** Adding the entries of an object in their own order rebuilds it. *)
Lemma o_set_last acc k v :
  (forall j, In j (o_keys acc) -> j <> k /\ key_before k j = false) ->
  o_set k v acc = acc ++ [(k, v)].
Proof.
  intros H. unfold o_set, o_has.
  replace (o_get k acc) with (@None A)
    by (symmetry; apply o_get_None; intros Hk; by destruct (H _ Hk)).
  induction acc as [|[j w] r IH]; cbn; [done|].
  destruct (H j (or_introl eq_refl)) as [_ ->]. f_equal. apply IH.
  intros i Hi. apply H. by right.
Qed.

Lemma o_sorted_app o1 o2 :
  o_sorted (o1 ++ o2) ->
  forall k j, In k (o_keys o1) -> In j (o_keys o2) -> j <> k /\ key_before j k = false.
Proof.
  induction o1 as [|[i w] r IH]; [done|]. cbn [app o_sorted o_keys map fst In].
  intros [H1 H2] k j [<-|Hk] Hj; [|eapply IH; eauto].
  apply H1. unfold o_keys. rewrite map_app, in_app_iff. by right.
Qed.
Lemma o_set_In k v o p : In p (o_set k v o) -> p = (k, v) \/ In p o.
Proof.
  unfold o_set. destruct (o_has k o).
  - induction o as [|[j w] r IH]; cbn; [done|]. destruct (String.eqb k j); cbn; naive_solver.
  - induction o as [|[j w] r IH]; cbn; [naive_solver|]. destruct (key_before k j); cbn; naive_solver.
Qed.


(** The order is decidable. *)
Fixpoint o_sortedb o : bool :=
  match o with
  | [] => true
  | (k, _) :: r => forallb (fun j => negb (String.eqb j k) && negb (key_before j k)) (o_keys r) && o_sortedb r
  end.

Lemma o_sortedb_ok o : o_sortedb o = true -> o_sorted o.
Proof.
  induction o as [|[k v] r IH]; [done|]. cbn [o_sortedb o_sorted]. intros [H1 H2]%andb_true_iff.
  split; [|auto]. intros j Hj. rewrite forallb_forall in H1. specialize (H1 j Hj).
  apply andb_true_iff in H1 as [H1%negb_true_iff H3%negb_true_iff]. split; [|done]. by apply String.eqb_neq.
Qed.
End Obj.

#[export] Hint Rewrite @o_get_set_eq @o_get_delete_eq : ti.
#[export] Hint Resolve @o_set_sorted @o_delete_sorted @o_sorted_wf : ti.
#[export] Hint Resolve @o_wf_set @o_wf_delete @o_wf_nil @o_get_In : ti.
