(* ===== verification/JsDate.v ===== *)
(** * JavaScript dates

    [Date.prototype.toISOString] of a time value in milliseconds, the parsing
    of that format, and the sources' [iso] test ([new Date(v).toISOString() ===
    v]).  The calendar is the proleptic Gregorian one, by 400-year eras that
    start on 1 March; its inverse is proved for every day. *)

From Stdlib Require Import ZArith Lia Bool Ascii.
From stdpp Require Import base strings option list.
From S2P Require Import Prelude JsObject.

Local Open Scope Z_scope.

(** ** The calendar *)

Record civil := Civil { c_year : Z; c_month : Z; c_day : Z }.

(** Year, month and day of day [doe] of a 400-year era that starts on 1 March:
    centuries, four-year cycles, years, days.  A leap day ends its cycle. *)
Definition era_civil (doe : Z) : Z * Z * Z :=
  let n100 := Z.min (doe / 36524) 3 in
  let r100 := doe - 36524 * n100 in
  let n4 := r100 / 1461 in
  let r4 := r100 - 1461 * n4 in
  let n1 := Z.min (r4 / 365) 3 in
  let doy := r4 - 365 * n1 in
  let mp := (5 * doy + 2) / 153 in
  (100 * n100 + 4 * n4 + n1, mp, doy - (153 * mp + 2) / 5 + 1).

Definition era_day (yoe mp d : Z) : Z :=
  yoe * 365 + yoe / 4 - yoe / 100 + ((153 * mp + 2) / 5 + d - 1).

Definition civil_of_days (z : Z) : civil :=
  let z' := z + 719468 in
  let '(yoe, mp, d) := era_civil (z' mod 146097) in
  let m := if mp <? 10 then mp + 3 else mp - 9 in
  Civil (yoe + 400 * (z' / 146097) + (if m <=? 2 then 1 else 0)) m d.

Definition days_of_civil (c : civil) : Z :=
  let y := if c_month c <=? 2 then c_year c - 1 else c_year c in
  let mp := if 2 <? c_month c then c_month c - 3 else c_month c + 9 in
  (y / 400) * 146097 + era_day (y mod 400) mp (c_day c) - 719468.

(** What every day of an era satisfies. *)
Definition era_ok (doe : Z) : bool :=
  let '(yoe, mp, d) := era_civil doe in
  (0 <=? yoe) && (yoe <? 400) && (0 <=? mp) && (mp <? 12) && (1 <=? d) && (d <=? 31)
  && (era_day yoe mp d =? doe).

Lemma era_ok_range doe : 0 <= doe < 146097 -> era_ok doe = true.
Proof.
  intros H. unfold era_ok, era_civil. cbv zeta.
  set (n100 := Z.min (doe / 36524) 3). set (r100 := doe - 36524 * n100).
  assert (0 <= n100 <= 3 /\ 0 <= r100 <= 36524) as [Hn100 Hr100]
    by (subst n100 r100; pose proof (Z_div_mod_eq_full doe 36524);
        pose proof (Z.mod_pos_bound doe 36524); lia).
  assert (n100 = 3 \/ r100 < 36524) as Hlast
    by (subst n100 r100; pose proof (Z_div_mod_eq_full doe 36524);
        pose proof (Z.mod_pos_bound doe 36524); lia).
  set (n4 := r100 / 1461). set (r4 := r100 - 1461 * n4).
  assert (0 <= n4 <= 24 /\ 0 <= r4 <= 1460) as [Hn4 Hr4]
    by (subst n4 r4; pose proof (Z_div_mod_eq_full r100 1461);
        pose proof (Z.mod_pos_bound r100 1461); lia).
  set (n1 := Z.min (r4 / 365) 3). set (doy := r4 - 365 * n1).
  assert (0 <= n1 <= 3 /\ 0 <= doy <= 365) as [Hn1 Hdoy]
    by (subst n1 doy; pose proof (Z_div_mod_eq_full r4 365);
        pose proof (Z.mod_pos_bound r4 365); lia).
  set (mp := (5 * doy + 2) / 153). set (md := (153 * mp + 2) / 5).
  assert (0 <= mp < 12 /\ 0 <= doy - md <= 30) as [Hmp Hd]
    by (subst md mp; pose proof (Z_div_mod_eq_full (5 * doy + 2) 153);
        pose proof (Z.mod_pos_bound (5 * doy + 2) 153);
        pose proof (Z_div_mod_eq_full (153 * ((5 * doy + 2) / 153) + 2) 5);
        pose proof (Z.mod_pos_bound (153 * ((5 * doy + 2) / 153) + 2) 5); lia).
  unfold era_day. fold md.
  assert ((100 * n100 + 4 * n4 + n1) / 4 = 25 * n100 + n4) as ->
    by (symmetry; apply (Z.div_unique _ _ _ n1); lia).
  assert ((100 * n100 + 4 * n4 + n1) / 100 = n100) as ->
    by (symmetry; apply (Z.div_unique _ _ _ (4 * n4 + n1)); lia).
  repeat (apply andb_true_iff; split); lia.
Qed.

Lemma era_ok_mod z : era_ok (z mod 146097) = true.
Proof.
  apply era_ok_range. pose proof (Z.mod_pos_bound z 146097). lia.
Qed.

Lemma civil_of_days_range z :
  1 <= c_month (civil_of_days z) <= 12 /\ 1 <= c_day (civil_of_days z) <= 31.
Proof.
  unfold civil_of_days. pose proof (era_ok_mod (z + 719468)) as H. unfold era_ok in H.
  destruct (era_civil _) as [[yoe mp] d]. cbn.
  destruct (mp <? 10) eqn:?; lia.
Qed.

(** The calendar loses no day. *)
Lemma days_of_civil_of_days z : days_of_civil (civil_of_days z) = z.
Proof.
  unfold civil_of_days. pose proof (era_ok_mod (z + 719468)) as H. unfold era_ok in H.
  pose proof (Z_div_mod_eq_full (z + 719468) 146097) as Hdm.
  destruct (era_civil _) as [[yoe mp] d]. unfold days_of_civil; cbn [c_year c_month c_day].
  bool_hyps. set (q := (z + 719468) / 146097) in *.
  set (m := if mp <? 10 then mp + 3 else mp - 9).
  assert ((if m <=? 2 then yoe + 400 * q + (if m <=? 2 then 1 else 0) - 1
           else yoe + 400 * q + (if m <=? 2 then 1 else 0)) = yoe + q * 400) as ->
    by (destruct (m <=? 2); lia).
  assert ((if 2 <? m then m - 3 else m + 9) = mp) as ->
    by (unfold m; destruct (mp <? 10) eqn:?;
        match goal with |- context [2 <? ?t] => destruct (2 <? t) eqn:? end; lia).
  rewrite Z.div_add, Z.mod_add by lia.
  rewrite (Z.div_small yoe 400), (Z.mod_small yoe 400) by lia. lia.
Qed.

(** ** Digits *)

Definition digit (n : Z) : ascii := ascii_of_N (Z.to_N (48 + n)).
Definition dig (c : ascii) : Z := code c - 48.

Lemma dig_digit n : 0 <= n < 10 -> dig (digit n) = n.
Proof.
  intros H. unfold dig, digit, code. rewrite N_ascii_embedding by lia.
  rewrite Z2N.id by lia. lia.
Qed.

Lemma digit_isDigit n : 0 <= n < 10 -> isDigit (digit n) = true.
Proof.
  intros H. unfold isDigit, between, digit, code. rewrite N_ascii_embedding by lia.
  rewrite Z2N.id by lia. apply andb_true_iff; lia.
Qed.

Definition str1 (c : ascii) (r : string) : string := String c r.
Definition pad2 (n : Z) (r : string) : string :=
  String (digit (n / 10)) (String (digit (n mod 10)) r).
Definition pad3 (n : Z) (r : string) : string := String (digit (n / 100)) (pad2 (n mod 100) r).
Definition pad4 (n : Z) (r : string) : string := pad2 (n / 100) (pad2 (n mod 100) r).
Definition pad6 (n : Z) (r : string) : string := pad2 (n / 10000) (pad4 (n mod 10000) r).

Definition get2 (a b : ascii) : Z := 10 * dig a + dig b.

Lemma get2_pad n : 0 <= n < 100 -> get2 (digit (n / 10)) (digit (n mod 10)) = n.
Proof.
  intros H. unfold get2. pose proof (Z_div_mod_eq_full n 10).
  pose proof (Z.mod_pos_bound n 10). pose proof (Z.div_lt_upper_bound n 10 10).
  pose proof (Z.div_pos n 10). rewrite !dig_digit by lia. lia.
Qed.

(** Bounds of quotients and remainders that occur as printed fields. *)
Ltac field_bound :=
  match goal with
  | |- 0 <= ?a mod ?b < _ => pose proof (Z.mod_pos_bound a b); lia
  | |- 0 <= _ / _ < _ => split; [apply Z.div_pos; lia|apply Z.div_lt_upper_bound; lia]
  | |- _ => lia
  end.

(** ** [toISOString] *)

Definition MS_PER_DAY : Z := 86400000.

(** The largest time value of a valid [Date]. *)
Definition MAX_TIME : Z := 8640000000000000.
Definition validTime (t : Z) : bool := Z.abs t <=? MAX_TIME.

Definition show_year (y : Z) (r : string) : string :=
  if (0 <=? y) && (y <=? 9999) then pad4 y r
  else String (if y <? 0 then "-"%char else "+"%char) (pad6 (Z.abs y) r).

Definition show_time (ms : Z) (r : string) : string :=
  pad2 (ms / 3600000) (String ":" (pad2 (ms / 60000 mod 60) (String ":"
    (pad2 (ms / 1000 mod 60) (String "." (pad3 (ms mod 1000) r)))))).

(** [new Date(t).toISOString()] for a valid time value. *)
Definition toISOString (t : Z) : string :=
  let c := civil_of_days (t / MS_PER_DAY) in
  show_year (c_year c) (String "-" (pad2 (c_month c) (String "-" (pad2 (c_day c)
    (String "T" (show_time (t mod MS_PER_DAY) (String "Z" ""))))))).

(** [new Date(t).toISOString().slice(0, 10)]. *)
Definition isoDate (t : Z) : string := String.substring 0 10 (toISOString t).

(** ** Parsing the format back

    The fields are read by position; [iso] then compares the printed time with
    the text, so no field needs a check of its own. *)
Definition read_rest (y : Z) (s : string) : option Z :=
  match s with
  | String _ (String m1 (String m2 (String _ (String d1 (String d2 (String _
      (String h1 (String h2 (String _ (String i1 (String i2 (String _
        (String s1 (String s2 (String _ (String l1 (String l2 (String l3 _)))))))))))))))))) =>
      Some (days_of_civil (Civil y (get2 m1 m2) (get2 d1 d2)) * MS_PER_DAY
            + get2 h1 h2 * 3600000 + get2 i1 i2 * 60000 + get2 s1 s2 * 1000
            + (100 * dig l1 + get2 l2 l3))
  | _ => None
  end.

Definition parseISO (s : string) : option Z :=
  match s with
  | String a (String b (String c (String d r))) =>
      if isDigit a then read_rest (100 * get2 a b + get2 c d) r
      else match r with
           | String e (String f (String g r')) =>
               let y := 10000 * get2 b c + (100 * get2 d e + get2 f g) in
               read_rest (if Ascii.eqb a "-" then - y else y) r'
           | _ => None
           end
  | _ => None
  end.

(** The sources' [iso(value)] and [new Date(v).toISOString() === v] on strings. *)
Definition iso (s : string) : bool :=
  match parseISO s with
  | Some t => validTime t && String.eqb (toISOString t) s
  | None => false
  end.

Lemma read_rest_show y t :
  y = c_year (civil_of_days (t / MS_PER_DAY)) ->
  read_rest y (String "-" (pad2 (c_month (civil_of_days (t / MS_PER_DAY))) (String "-"
    (pad2 (c_day (civil_of_days (t / MS_PER_DAY)))
      (String "T" (show_time (t mod MS_PER_DAY) (String "Z" "")))))))
  = Some t.
Proof.
  intros ->. set (c := civil_of_days (t / MS_PER_DAY)).
  assert (1 <= c_month c <= 12 /\ 1 <= c_day c <= 31) as [Hm Hd] by apply civil_of_days_range.
  assert (days_of_civil c = t / MS_PER_DAY) as Hc by apply days_of_civil_of_days.
  assert (Civil (c_year c) (c_month c) (c_day c) = c) as Hcc by by destruct c.
  unfold MS_PER_DAY in *.
  pose proof (Z.mod_pos_bound t 86400000) as Hb. pose proof (Z_div_mod_eq_full t 86400000) as Ht.
  set (u := t mod 86400000) in *.
  unfold show_time, pad3, pad2; cbn [read_rest].
  pose proof (Z.mod_pos_bound u 1000). pose proof (Z.mod_pos_bound (u mod 1000) 100).
  rewrite !get2_pad by field_bound.
  rewrite Hcc, Hc, dig_digit by field_bound.
  f_equal. pose proof (Z_div_mod_eq_full (u mod 1000) 100). pose proof (Z_div_mod_eq_full u 1000).
  pose proof (Z_div_mod_eq_full (u / 1000) 60) as D1. pose proof (Z_div_mod_eq_full (u / 60000) 60) as D2.
  rewrite Z.div_div in D1, D2 by lia. change (1000 * 60) with 60000 in D1.
  change (60000 * 60) with 3600000 in D2. unfold MS_PER_DAY. lia.
Qed.

(** A time value of a four- or six-digit year. *)
Definition six_digit_year (t : Z) : bool :=
  Z.abs (c_year (civil_of_days (t / MS_PER_DAY))) <? 1000000.

Lemma year_bound t : validTime t = true -> six_digit_year t = true.
Proof.
  unfold validTime, MAX_TIME, six_digit_year, civil_of_days, MS_PER_DAY. intros H%Z.leb_le.
  apply Z.ltb_lt. pose proof (era_ok_mod (t / 86400000 + 719468)) as He. unfold era_ok in He.
  destruct (era_civil _) as [[yoe mp] d]. cbn [c_year].
  bool_hyps. set (q := t / 86400000) in *.
  assert (-100000001 <= q <= 100000000)
    by (unfold q; split; [apply Z.div_le_lower_bound|apply Z.div_le_upper_bound]; lia).
  assert (-684 - 100 <= (q + 719468) / 146097 <= 784)
    by (split; [apply Z.div_le_lower_bound|apply Z.div_le_upper_bound]; lia).
  destruct (_ <=? 2); lia.
Qed.

Lemma parseISO_toISOString t : six_digit_year t = true -> parseISO (toISOString t) = Some t.
Proof.
  intros H%Z.ltb_lt. unfold toISOString. cbv zeta.
  set (c := civil_of_days (t / MS_PER_DAY)) in *.
  unfold show_year, pad6, pad4. destruct ((0 <=? c_year c) && _) eqn:E.
  - unfold pad2 at 1 2; cbn [parseISO]. rewrite digit_isDigit
      by (split; [apply Z.div_pos; [apply Z.div_pos|]; lia
                 |apply Z.div_lt_upper_bound; [lia|apply Z.div_lt_upper_bound; lia]]).
    rewrite !get2_pad by field_bound.
    apply read_rest_show. fold c. pose proof (Z_div_mod_eq_full (c_year c) 100). lia.
  - set (y := c_year c) in *. unfold pad2 at 1 2 3; cbn [parseISO].
    pose proof (Z.mod_pos_bound (Z.abs y) 10000).
    pose proof (Z_div_mod_eq_full (Z.abs y) 10000). pose proof (Z_div_mod_eq_full (Z.abs y mod 10000) 100).
    replace (isDigit (if y <? 0 then "-"%char else "+"%char)) with false by by destruct (y <? 0).
    rewrite !get2_pad by field_bound.
    apply read_rest_show. fold c y.
    destruct (y <? 0) eqn:Ey;
      [change (Ascii.eqb "-" "-") with true|change (Ascii.eqb "+" "-") with false];
      cbv iota; lia.
Qed.

(** Every printed time passes the sources' test. *)
Lemma iso_toISOString t : validTime t = true -> iso (toISOString t) = true.
Proof.
  intros H. unfold iso. rewrite parseISO_toISOString by by apply year_bound.
  by rewrite H, String.eqb_refl.
Qed.

(** The accepted texts are exactly the printed times. *)
Lemma iso_spec s : iso s = true <-> exists t, validTime t = true /\ s = toISOString t.
Proof.
  split.
  - unfold iso. destruct (parseISO s) as [t|]; [|done]. intros [H1 H2]%andb_true_iff.
    exists t. split; [done|]. symmetry. by apply String.eqb_eq.
  - intros (t & H & ->). by apply iso_toISOString.
Qed.

(** The date part of a four-digit year has the form [dddd-dd-dd]. *)
Lemma isoDate_isoDay t :
  (let y := c_year (civil_of_days (t / MS_PER_DAY)) in (0 <=? y) && (y <=? 9999)) = true ->
  isoDay (isoDate t) = true.
Proof.
  cbv zeta. unfold isoDate, toISOString, show_year. cbv zeta.
  destruct (civil_of_days_range (t / MS_PER_DAY)) as [Hm Hd].
  set (c := civil_of_days (t / MS_PER_DAY)) in *. intros E. rewrite E.
  unfold pad4, pad2, isoDay. cbn [String.substring].
  assert (0 <= c_year c / 100 < 100) by field_bound.
  pose proof (Z.mod_pos_bound (c_year c) 100).
  rewrite !digit_isDigit by field_bound. reflexivity.
Qed.

#[export] Hint Resolve iso_toISOString : ti.
