(* ===== verification/JsValue.v ===== *)
(** * JavaScript values of unknown shape

    The type the sources call [unknown]: what a parsed JSON document or an
    untyped argument can be, the type tests made on it, and property reads.
    Values of a declared TypeScript interface are Coq records; the component
    files give the object such a record is at run time, so that a validator of
    [unknown] is one definition wherever it is called. *)

From Stdlib Require Import ZArith Lia Bool Floats.
From stdpp Require Import base strings option list.
From S2P Require Import Prelude JsNumber JsObject.

Local Open Scope Z_scope.

Inductive value : Type :=
  | VUndefined
  | VNull
  | VBool (b : bool)
  | VNum (n : number)
  | VStr (s : string)
  | VArr (l : list value)
  | VObj (o : list (string * value)).

(** [v !== undefined]. *)
Definition defined (v : value) : bool := match v with VUndefined => false | _ => true end.

(** [typeof v === "object" && v !== null && !Array.isArray(v)]. *)
Definition isRecord (v : value) : bool := match v with VObj _ => true | _ => false end.

(** [typeof v === "object" && v !== null], arrays included. *)
Definition isObject (v : value) : bool :=
  match v with VObj _ | VArr _ => true | _ => false end.

(** The own property [k] of a value known to be an object; an array has no
    property of the names the sources read. *)
Definition prop (k : string) (v : value) : value :=
  match v with VObj o => default VUndefined (o_get k o) | _ => VUndefined end.

(** [Object.keys(v)] of a record. *)
Definition keys_of (v : value) : list string := match v with VObj o => o_keys o | _ => [] end.

(** [Object.entries(v)] of a record. *)
Definition entries_of (v : value) : list (string * value) := match v with VObj o => o | _ => [] end.

Definition isString (p : string -> bool) (v : value) : bool :=
  match v with VStr s => p s | _ => false end.
Definition isNumber (p : number -> bool) (v : value) : bool :=
  match v with VNum n => p n | _ => false end.
Definition isBoolean (v : value) : bool := match v with VBool _ => true | _ => false end.
Definition isArray (p : list value -> bool) (v : value) : bool :=
  match v with VArr l => p l | _ => false end.

(** [v === "s"]. *)
Definition isLit (s : string) (v : value) : bool := isString (String.eqb s) v.

(** [v === undefined || p(v)]: an optional property. *)
Definition optional (p : value -> bool) (v : value) : bool := negb (defined v) || p v.

(** [list.includes(s)]. *)
Definition str_in (l : list string) (s : string) : bool := existsb (String.eqb s) l.

(** [String(v)], as far as the result can equal a literal that is neither a
    numeral nor contains a comma; [None] stands for every other text.  An array
    prints its only element, [null] and [undefined] elements print nothing. *)
Fixpoint stringOf (v : value) : option string :=
  match v with
  | VUndefined => Some "undefined"
  | VNull => Some "null"
  | VBool b => Some (if b then "true" else "false")
  | VNum _ => None
  | VStr s => Some s
  | VArr [] => Some ""
  | VArr [x] => match x with VUndefined | VNull => Some "" | _ => stringOf x end
  | VArr _ => None
  | VObj _ => Some "[object Object]"
  end%string.

(** [list.includes(String(v))] for such literals. *)
Definition literal_in (l : list string) (v : value) : bool :=
  match stringOf v with Some s => str_in l s | None => false end.

(** [Object.keys(v).every((key) => allowed.includes(key))]. *)
Definition only_keys (allowed : list string) (v : value) : bool :=
  forallb (str_in allowed) (keys_of v).

(** An optional property of a record: absent when the field is [undefined]. *)
Definition field (k : string) (v : value) : list (string * value) := [(k, v)].
Definition opt_field {A : Type} (k : string) (f : A -> value) (o : option A) : list (string * value) :=
  match o with Some a => [(k, f a)] | None => [] end.

Lemma str_in_In l s : str_in l s = true <-> In s l.
Proof.
  unfold str_in. rewrite existsb_exists. split.
  - intros (x & Hx & ->%String.eqb_eq). done.
  - intros H. exists s. by rewrite String.eqb_refl.
Qed.

(** ** Integers carried by numbers *)

(** The integer part of a finite number ([Math.trunc]); 0 for the others. *)
Definition trunc (x : number) : Z :=
  match Prim2SF x with
  | S754_finite s m e =>
      let a := if 0 <=? e then Zpos m * 2 ^ e else Zpos m / 2 ^ (- e) in
      if s then - a else a
  | _ => 0
  end.

(** The number an integer of magnitude at most 2^53 is. *)
Definition of_Z (n : Z) : number := SF2Prim (binary_normalize prec emax n 0 false).

Definition MAX_SAFE_INTEGER : Z := 9007199254740991.

(** [Number.isInteger]. *)
Definition isInteger (x : number) : bool := isFinite x && (of_Z (trunc x) =? x)%float
  || isFinite x && (4503599627370496 <=? Math_abs x)%float.

(** [Number.isSafeInteger] of an integer of the model. *)
Definition safe (n : Z) : bool := Z.abs n <=? MAX_SAFE_INTEGER.

(** [Number.isSafeInteger]. *)
Definition isSafeInteger (x : number) : bool := isInteger x && safe (trunc x).
