(* ===== verification/AccountRisk.v ===== *)
(** * Account risk (packages/trading-risk/src/account-risk.ts)

    The pure rules shared by preview, final submission and the independent
    monitor: the validators of limits and memory, [assessAccountRisk] with its
    loss latch, and the three order-level checks.  [assessAccountRisk] threads
    [AccountRiskMemory] from one observation to the next; [observe] below is
    that loop, and the latch and watermark theorems are about it. *)

From Stdlib Require Import ZArith Lia Bool Floats.
From stdpp Require Import base strings option list.
From S2P Require Import Prelude JsNumber JsObject JsDate JsValue.

Local Open Scope float_scope.

(** ** Data *)

Record AccountRiskLimits := {
  maxGrossExposure : number;
  maxNetExposure : number;
  maxAssetExposure : number;
  maxLeverage : number;
  maxMarginUsagePct : number;
  maxDailyLoss : number;
  maxDrawdown : number;
  maxDataAgeMs : number;
  maxPriceDeviationPct : number;
  minDepthRatio : number;
  minLiquidationDistancePct : number;
  minProtectionCoveragePct : number;
  maxStopDistancePct : number;
  cancelEntriesOnBreach : bool;
  reduceOnBreach : bool
}.

Record RiskExposure := {
  ex_asset : string;
  ex_symbol : string;
  ex_notional : number;
  ex_pending : bool;
  ex_liquidationDistancePct : option number;
  ex_protectionCoveragePct : number;
  ex_stopDistancePct : option number;
  ex_futures : bool;
  ex_projected : option bool
}.

Record AccountRiskFacts := {
  f_source : string;
  f_epoch : string;
  f_observedAt : number;
  f_oldestPriceAt : number;
  f_equity : number;
  f_netExternalFlows : number;
  f_marginUsed : number;
  f_exposures : list RiskExposure
}.

Record LossTrip := { trip_at : number; trip_reasons : list string }.

Record AccountRiskMemory := {
  m_epoch : string;
  m_date : string;
  m_dailyOpeningValue : number;
  m_peakValue : number;
  m_lastObservedAt : number;
  m_lastValue : option number;
  m_lossTrip : option LossTrip
}.

Record AccountRiskAssessment := {
  a_allowed : bool;
  a_reasons : list string;
  a_grossExposure : number;
  a_netExposure : number;
  a_assetExposure : obj number;
  a_leverage : number;
  a_marginUsagePct : number;
  a_dailyLoss : number;
  a_drawdown : number;
  a_memory : AccountRiskMemory
}.

(** What the functions throw, one constructor per message. *)
Inductive AccountRiskError :=
  | ErrLimitsMissing
  | ErrLimitNumber (name : string)
  | ErrLimitAbove100 (name : string)
  | ErrLimitBoolean (name : string)
  | ErrLimitUnknownField
  | ErrMemory
  | ErrMemoryEpochDate
  | ErrMemoryNumber (name : string)
  | ErrMemoryLastValue
  | ErrMemoryLossTrip
  | ErrIdentityTime
  | ErrFact (name : string)
  | ErrMarginNegative
  | ErrEpochChanged
  | ErrMovedBackwards
  | ErrFlowAdjustedEquity
  | ErrInvalidDate
  | ErrExposureEvidence
  | ErrStopDistance (symbol : string)
  | ErrExecutionEvidence (name : string)
  | ErrExecutionInvalid.

(** ** Run-time objects of the two interfaces *)

Definition limits_value (l : AccountRiskLimits) : value :=
  VObj [("maxGrossExposure", VNum (maxGrossExposure l));
        ("maxNetExposure", VNum (maxNetExposure l));
        ("maxAssetExposure", VNum (maxAssetExposure l));
        ("maxLeverage", VNum (maxLeverage l));
        ("maxMarginUsagePct", VNum (maxMarginUsagePct l));
        ("maxDailyLoss", VNum (maxDailyLoss l));
        ("maxDrawdown", VNum (maxDrawdown l));
        ("maxDataAgeMs", VNum (maxDataAgeMs l));
        ("maxPriceDeviationPct", VNum (maxPriceDeviationPct l));
        ("minDepthRatio", VNum (minDepthRatio l));
        ("minLiquidationDistancePct", VNum (minLiquidationDistancePct l));
        ("minProtectionCoveragePct", VNum (minProtectionCoveragePct l));
        ("maxStopDistancePct", VNum (maxStopDistancePct l));
        ("cancelEntriesOnBreach", VBool (cancelEntriesOnBreach l));
        ("reduceOnBreach", VBool (reduceOnBreach l))]%string.

Definition trip_value (t : LossTrip) : value :=
  VObj [("at", VNum (trip_at t)); ("reasons", VArr (map VStr (trip_reasons t)))]%string.

Definition memory_value (m : AccountRiskMemory) : value :=
  VObj (("epoch", VStr (m_epoch m)) :: ("date", VStr (m_date m))
        :: ("dailyOpeningValue", VNum (m_dailyOpeningValue m))
        :: ("peakValue", VNum (m_peakValue m))
        :: ("lastObservedAt", VNum (m_lastObservedAt m))
        :: app (opt_field "lastValue" VNum (m_lastValue m))
               (opt_field "lossTrip" trip_value (m_lossTrip m)))%string.

(** ** Validators *)

Definition numericLimits : list string :=
  ["maxGrossExposure"; "maxNetExposure"; "maxAssetExposure"; "maxLeverage";
   "maxMarginUsagePct"; "maxDailyLoss"; "maxDrawdown"; "maxDataAgeMs";
   "maxPriceDeviationPct"; "minDepthRatio"; "minLiquidationDistancePct";
   "minProtectionCoveragePct"; "maxStopDistancePct"]%string.

(** A limit named [min...] may be zero, the others are positive. *)
Definition limit_ok (name : string) (v : value) : bool :=
  isNumber (fun n => isFinite n && (if startsWith "min" name then 0 <=? n else 0 <? n)) v.

Definition percentLimits : list string :=
  ["maxMarginUsagePct"; "minLiquidationDistancePct"; "minProtectionCoveragePct";
   "maxStopDistancePct"]%string.

Definition breachFlags : list string := ["cancelEntriesOnBreach"; "reduceOnBreach"]%string.

(** [for (const x of l) if (bad(x)) throw err(x);] *)
Definition throwFirst {E : Type} (bad : string -> bool) (err : string -> E) (l : list string) :
    result E unit :=
  foldM (fun _ x => throwIf (bad x) (err x)) tt l.

Definition validateAccountRiskLimits (v : value) : result AccountRiskError unit :=
  _ ← throwIf (negb (isRecord v)) ErrLimitsMissing;
  _ ← throwFirst (fun name => negb (limit_ok name (prop name v))) ErrLimitNumber numericLimits;
  _ ← throwFirst (fun name => isNumber (fun n => 100 <? n) (prop name v)) ErrLimitAbove100
        percentLimits;
  _ ← throwFirst (fun name => negb (isBoolean (prop name v))) ErrLimitBoolean breachFlags;
  throwIf (negb (only_keys (numericLimits ++ breachFlags) v)) ErrLimitUnknownField.

Definition trip_ok (v : value) : bool :=
  isObject v && isNumber isFinite (prop "at" v)
  && isArray (fun l => negb (Nat.eqb (length l) 0) && forallb (isString (fun _ => true)) l)
       (prop "reasons" v).

Definition validateAccountRiskMemory (v : value) : result AccountRiskError unit :=
  _ ← throwIf (negb (isObject v)) ErrMemory;
  _ ← throwIf (negb (isString (fun _ => true) (prop "epoch" v) && isString isoDay (prop "date" v)))
        ErrMemoryEpochDate;
  _ ← throwFirst (fun k => negb (isNumber isFinite (prop k v))) ErrMemoryNumber
        ["dailyOpeningValue"; "peakValue"; "lastObservedAt"]%string;
  _ ← throwIf (negb (optional (isNumber isFinite) (prop "lastValue" v))) ErrMemoryLastValue;
  throwIf (negb (optional trip_ok (prop "lossTrip" v))) ErrMemoryLossTrip.

(** ** [assessAccountRisk] *)

(** [if (c) reasons.push(r);] *)
Definition reason_if (c : bool) (r : string) : list string := if c then [r] else [].

(** [facts[key] > now || now - facts[key] > limits.maxDataAgeMs] *)
Definition stale (limits : AccountRiskLimits) (now at_ : number) : bool :=
  (now <? at_) || (maxDataAgeMs limits <? now - at_).

Definition stale_reasons (limits : AccountRiskLimits) (facts : AccountRiskFacts) (now : number) :
    list string :=
  app (reason_if (stale limits now (f_observedAt facts)) "stale:observedAt")
      (reason_if (stale limits now (f_oldestPriceAt facts)) "stale:oldestPriceAt").

(** [new Date(now).toISOString().slice(0, 10)], a RangeError out of range. *)
Definition date_of (now : number) : result AccountRiskError string :=
  if validTime (trunc now) then Ok (isoDate (trunc now)) else Throw ErrInvalidDate.

Definition with_day (m : AccountRiskMemory) (date : string) (opening : number) :=
  {| m_epoch := m_epoch m; m_date := date; m_dailyOpeningValue := opening;
     m_peakValue := m_peakValue m; m_lastObservedAt := m_lastObservedAt m;
     m_lastValue := m_lastValue m; m_lossTrip := m_lossTrip m |}.

Definition with_value (m : AccountRiskMemory) (peak at_ value : number) :=
  {| m_epoch := m_epoch m; m_date := m_date m; m_dailyOpeningValue := m_dailyOpeningValue m;
     m_peakValue := peak; m_lastObservedAt := at_;
     m_lastValue := Some value; m_lossTrip := m_lossTrip m |}.

Definition with_trip (m : AccountRiskMemory) (t : LossTrip) :=
  {| m_epoch := m_epoch m; m_date := m_date m; m_dailyOpeningValue := m_dailyOpeningValue m;
     m_peakValue := m_peakValue m; m_lastObservedAt := m_lastObservedAt m;
     m_lastValue := m_lastValue m; m_lossTrip := Some t |}.

(** The memory before the loss latch: the first observation, the day rollover
    and the watermarks. *)
Definition roll_memory (facts : AccountRiskFacts) (previous : option AccountRiskMemory)
    (date : string) (normalizedValue : number) (fresh : bool) : AccountRiskMemory :=
  let memory :=
    match previous with
    | Some m => m
    | None => {| m_epoch := f_epoch facts; m_date := date; m_dailyOpeningValue := normalizedValue;
                 m_peakValue := normalizedValue; m_lastObservedAt := f_observedAt facts;
                 m_lastValue := None; m_lossTrip := None |}
    end in
  let memory :=
    if negb (String.eqb (m_date memory) date) && fresh
    then with_day memory date (default (m_dailyOpeningValue memory) (m_lastValue memory))
    else memory in
  if fresh
  then with_value memory (Math_max (m_peakValue memory) normalizedValue) (f_observedAt facts)
         normalizedValue
  else memory.

(** [memory.lossTrip ??= ...] when a fresh observation breaches a loss limit. *)
Definition latch (m : AccountRiskMemory) (now : number) (fresh : bool) (lossReasons : list string) :
    AccountRiskMemory :=
  if fresh && negb (Nat.eqb (length lossReasons) 0) then
    match m_lossTrip m with
    | Some _ => m
    | None => with_trip m {| trip_at := now; trip_reasons := lossReasons |}
    end
  else m.

(** The loop over [facts.exposures]. *)
Record Totals := {
  t_gross : number;
  t_net : number;
  t_buys : number;
  t_sells : number;
  t_assets : obj number;
  t_reasons : list string
}.

Definition finite_opt (o : option number) : bool :=
  match o with Some n => isFinite n | None => false end.

Definition protection_reasons (limits : AccountRiskLimits) (ex : RiskExposure) : list string :=
  reason_if (negb (ex_pending ex) && (0 <? Math_abs (ex_notional ex))
             && (ex_protectionCoveragePct ex <? minProtectionCoveragePct limits))
    (String.append "protection:" (ex_symbol ex)).

Definition liquidation_reasons (limits : AccountRiskLimits) (ex : RiskExposure) : list string :=
  if (0 <? Math_abs (ex_notional ex)) && ex_futures ex
     && (negb (ex_pending ex) || default false (ex_projected ex)) then
    match ex_liquidationDistancePct ex with
    | Some d =>
        if isFinite d
        then reason_if (d <? minLiquidationDistancePct limits)
               (String.append "liquidation:" (ex_symbol ex))
        else [String.append "missing:liquidation:" (ex_symbol ex)]
    | None => [String.append "missing:liquidation:" (ex_symbol ex)]
    end
  else [].

Definition stop_reasons (limits : AccountRiskLimits) (ex : RiskExposure) : list string :=
  if (0 <? Math_abs (ex_notional ex)) && (0 <? ex_protectionCoveragePct ex) then
    match ex_stopDistancePct ex with
    | Some d => reason_if (maxStopDistancePct limits <? d)
                  (String.append "stopDistance:" (ex_symbol ex))
    | None => []
    end
  else [].

Definition exposure_reasons (limits : AccountRiskLimits) (ex : RiskExposure) : list string :=
  app (protection_reasons limits ex) (app (liquidation_reasons limits ex) (stop_reasons limits ex)).

Definition add_exposure (limits : AccountRiskLimits) (t : Totals) (ex : RiskExposure) :
    result AccountRiskError Totals :=
  _ ← throwIf (String.eqb (ex_asset ex) "" || negb (isFinite (ex_notional ex))
               || negb (isFinite (ex_protectionCoveragePct ex))) ErrExposureEvidence;
  let magnitude := Math_abs (ex_notional ex) in
  _ ← throwIf ((0 <? magnitude) && (0 <? ex_protectionCoveragePct ex)
               && negb (finite_opt (ex_stopDistancePct ex))) (ErrStopDistance (ex_symbol ex));
  let isBuy := 0 <? ex_notional ex in
  Ok {| t_gross := t_gross t + magnitude;
        t_net := if ex_pending ex then t_net t else t_net t + ex_notional ex;
        t_buys := if ex_pending ex && isBuy then t_buys t + magnitude else t_buys t;
        t_sells := if ex_pending ex && negb isBuy then t_sells t + magnitude else t_sells t;
        t_assets := o_set (ex_asset ex)
                      (default 0 (o_get (ex_asset ex) (t_assets t)) + magnitude) (t_assets t);
        t_reasons := app (t_reasons t) (exposure_reasons limits ex) |}.

Definition no_totals : Totals :=
  {| t_gross := 0; t_net := 0; t_buys := 0; t_sells := 0; t_assets := []; t_reasons := [] |}.

Definition asset_reasons (limits : AccountRiskLimits) (assets : obj number) : list string :=
  flat_map (fun p => reason_if (maxAssetExposure limits <? snd p)
                       (String.append "maxAssetExposure:" (fst p))) assets.

Definition checked_facts : list (string * (AccountRiskFacts -> number)) :=
  [("equity", f_equity); ("netExternalFlows", f_netExternalFlows); ("marginUsed", f_marginUsed);
   ("observedAt", f_observedAt); ("oldestPriceAt", f_oldestPriceAt)]%string.

Definition check_facts (facts : AccountRiskFacts) : result AccountRiskError unit :=
  foldM (fun _ p => throwIf (negb (isFinite (snd p facts))) (ErrFact (fst p))) tt checked_facts.

Definition assessAccountRisk (limits : AccountRiskLimits) (facts : AccountRiskFacts)
    (previous : option AccountRiskMemory) (now : number) :
    result AccountRiskError AccountRiskAssessment :=
  _ ← validateAccountRiskLimits (limits_value limits);
  _ ← match previous with
      | Some m => validateAccountRiskMemory (memory_value m)
      | None => Ok tt
      end;
  _ ← throwIf (negb (isFinite now) || String.eqb (f_epoch facts) "" || String.eqb (f_source facts) "")
        ErrIdentityTime;
  _ ← check_facts facts;
  _ ← throwIf (f_marginUsed facts <? 0) ErrMarginNegative;
  let staleReasons := stale_reasons limits facts now in
  _ ← throwIf (match previous with
               | Some m => negb (String.eqb (m_epoch m) (f_epoch facts)) | None => false end)
        ErrEpochChanged;
  _ ← throwIf (match previous with
               | Some m => f_observedAt facts <? m_lastObservedAt m | None => false end)
        ErrMovedBackwards;
  let normalizedValue := f_equity facts - f_netExternalFlows facts in
  _ ← throwIf (negb (isFinite normalizedValue)) ErrFlowAdjustedEquity;
  date ← date_of now;
  let fresh := Nat.eqb (length staleReasons) 0 in
  let memory := roll_memory facts previous date normalizedValue fresh in
  let dailyLoss := Math_max 0 (m_dailyOpeningValue memory - normalizedValue) in
  let drawdown := Math_max 0 (m_peakValue memory - normalizedValue) in
  let lossReasons := app (reason_if (maxDailyLoss limits <=? dailyLoss) "maxDailyLoss")
                         (reason_if (maxDrawdown limits <=? drawdown) "maxDrawdown") in
  let memory := latch memory now fresh lossReasons in
  let tripReasons := match m_lossTrip memory with Some _ => ["lossTrip"%string] | None => [] end in
  t ← foldM (add_exposure limits) no_totals (f_exposures facts);
  let netExposure := Math_max (Math_abs (t_net t + t_buys t)) (Math_abs (t_net t - t_sells t)) in
  let leverage := if 0 <? f_equity facts then t_gross t / f_equity facts else infinity in
  let marginUsagePct :=
    if 0 <? f_equity facts then (f_marginUsed facts / f_equity facts) * 100 else infinity in
  let reasons :=
    app staleReasons (app lossReasons (app tripReasons (app (t_reasons t)
    (app (reason_if (f_equity facts <=? 0) "equity")
    (app (reason_if (maxGrossExposure limits <? t_gross t) "maxGrossExposure")
    (app (reason_if (maxNetExposure limits <? netExposure) "maxNetExposure")
    (app (asset_reasons limits (t_assets t))
    (app (reason_if (maxLeverage limits <? leverage) "maxLeverage")
    (reason_if (maxMarginUsagePct limits <? marginUsagePct) "maxMarginUsagePct"))))))))) in
  Ok {| a_allowed := Nat.eqb (length reasons) 0;
        a_reasons := reasons;
        a_grossExposure := t_gross t;
        a_netExposure := netExposure;
        a_assetExposure := t_assets t;
        a_leverage := leverage;
        a_marginUsagePct := marginUsagePct;
        a_dailyLoss := dailyLoss;
        a_drawdown := drawdown;
        a_memory := memory |}.

(** ** Order-level checks *)

Inductive OrderSide := Buy | Sell.

Definition assessProtectionTarget (limits : AccountRiskLimits) (side : OrderSide)
    (reference stop : number) : result AccountRiskError (list string) :=
  _ ← validateAccountRiskLimits (limits_value limits);
  if negb (isFinite reference && (0 <? reference) && (isFinite stop && (0 <? stop)))
  then Ok ["missing:protectionPrice"%string]
  else
    let distance :=
      (match side with Sell => reference - stop | Buy => stop - reference end / reference) * 100 in
    Ok (reason_if ((distance <=? 0) || (maxStopDistancePct limits <? distance))
          "maxStopDistancePct").

Definition assessLeverageSetting (limits : AccountRiskLimits) (leverage : number) :
    result AccountRiskError (list string) :=
  _ ← validateAccountRiskLimits (limits_value limits);
  Ok (reason_if (negb (isFinite leverage) || (leverage <=? 0) || (maxLeverage limits <? leverage))
        "maxLeverage").

Record ExecutionFacts := {
  x_now : number;
  x_observedAt : number;
  x_referencePrice : number;
  x_orderPrice : number;
  x_availableDepth : number;
  x_amount : number
}.

Definition execution_entries : list (string * (ExecutionFacts -> number)) :=
  [("now", x_now); ("observedAt", x_observedAt); ("referencePrice", x_referencePrice);
   ("orderPrice", x_orderPrice); ("availableDepth", x_availableDepth); ("amount", x_amount)]%string.

Definition assessExecutionPrice (limits : AccountRiskLimits) (facts : ExecutionFacts) :
    result AccountRiskError (list string) :=
  _ ← validateAccountRiskLimits (limits_value limits);
  _ ← foldM (fun _ p => throwIf (negb (isFinite (snd p facts))) (ErrExecutionEvidence (fst p))) tt
        execution_entries;
  _ ← throwIf ((x_referencePrice facts <=? 0) || (x_orderPrice facts <=? 0)
               || (x_amount facts <=? 0) || (x_availableDepth facts <? 0)) ErrExecutionInvalid;
  Ok (app (reason_if (stale limits (x_now facts) (x_observedAt facts)) "stale:orderBook")
     (app (reason_if (maxPriceDeviationPct limits
                      <? Math_abs (x_orderPrice facts / x_referencePrice facts - 1) * 100)
             "maxPriceDeviationPct")
          (reason_if (x_availableDepth facts / x_amount facts <? minDepthRatio limits)
             "minDepthRatio"))).

(** ** Observation loop

    The callers thread the returned memory into the next assessment.  A thrown
    error leaves the stored memory as it was. *)
Definition observe (limits : AccountRiskLimits) (memory : option AccountRiskMemory)
    (obs : AccountRiskFacts * number) : option AccountRiskMemory :=
  match assessAccountRisk limits (fst obs) memory (snd obs) with
  | Ok a => Some (a_memory a)
  | Throw _ => memory
  end.

Definition observe_all (limits : AccountRiskLimits) (memory : option AccountRiskMemory)
    (l : list (AccountRiskFacts * number)) : option AccountRiskMemory :=
  fold_left (observe limits) l memory.

(** ** Inversion *)

Lemma reason_if_nil c r : reason_if c r = [] <-> c = false.
Proof. destruct c; cbn; split; congruence. Qed.

Lemma app_nil_iff {A} (l l' : list A) : app l l' = [] <-> l = [] /\ l' = [].
Proof. destruct l, l'; cbn; intuition congruence. Qed.

Lemma length_nil_eqb {A} (l : list A) : Nat.eqb (length l) 0 = true <-> l = [].
Proof. rewrite Nat.eqb_eq. apply length_zero_iff_nil. Qed.

Lemma check_facts_iff facts :
  check_facts facts = Ok tt <->
  isFinite (f_equity facts) && isFinite (f_netExternalFlows facts)
  && isFinite (f_marginUsed facts) && isFinite (f_observedAt facts)
  && isFinite (f_oldestPriceAt facts) = true.
Proof.
  unfold check_facts. cbn -[isFinite].
  repeat (destruct (isFinite _); cbn -[isFinite]; [|done]). done.
Qed.

(** What a returned assessment is made of. *)
Lemma assess_inv limits facts previous now a :
  assessAccountRisk limits facts previous now = Ok a ->
  exists date t,
    let nv := f_equity facts - f_netExternalFlows facts in
    let staleReasons := stale_reasons limits facts now in
    let fresh := Nat.eqb (length staleReasons) 0 in
    let memory := roll_memory facts previous date nv fresh in
    let lossReasons := app (reason_if (maxDailyLoss limits <=? a_dailyLoss a) "maxDailyLoss")
                           (reason_if (maxDrawdown limits <=? a_drawdown a) "maxDrawdown") in
    validateAccountRiskLimits (limits_value limits) = Ok tt /\
    (forall m, previous = Some m ->
       validateAccountRiskMemory (memory_value m) = Ok tt /\ m_epoch m = f_epoch facts /\
       (f_observedAt facts <? m_lastObservedAt m) = false) /\
    isFinite now = true /\ check_facts facts = Ok tt /\ isFinite nv = true /\
    date_of now = Ok date /\
    foldM (add_exposure limits) no_totals (f_exposures facts) = Ok t /\
    a_memory a = latch memory now fresh lossReasons /\
    a_dailyLoss a = Math_max 0 (m_dailyOpeningValue memory - nv) /\
    a_drawdown a = Math_max 0 (m_peakValue memory - nv) /\
    a_grossExposure a = t_gross t /\ a_assetExposure a = t_assets t /\
    a_netExposure a = Math_max (Math_abs (t_net t + t_buys t)) (Math_abs (t_net t - t_sells t)) /\
    a_leverage a = (if 0 <? f_equity facts then t_gross t / f_equity facts else infinity) /\
    a_marginUsagePct a =
      (if 0 <? f_equity facts then (f_marginUsed facts / f_equity facts) * 100 else infinity) /\
    a_allowed a = Nat.eqb (length (a_reasons a)) 0 /\
    a_reasons a =
      app staleReasons (app lossReasons
      (app (match m_lossTrip (a_memory a) with Some _ => ["lossTrip"%string] | None => [] end)
      (app (t_reasons t)
      (app (reason_if (f_equity facts <=? 0) "equity")
      (app (reason_if (maxGrossExposure limits <? a_grossExposure a) "maxGrossExposure")
      (app (reason_if (maxNetExposure limits <? a_netExposure a) "maxNetExposure")
      (app (asset_reasons limits (a_assetExposure a))
      (app (reason_if (maxLeverage limits <? a_leverage a) "maxLeverage")
      (reason_if (maxMarginUsagePct limits <? a_marginUsagePct a) "maxMarginUsagePct"))))))))).
Proof.
  unfold assessAccountRisk. intros H. inv_ok.
  match goal with Hd : date_of _ = Ok ?d, Ht : foldM (add_exposure _) _ _ = Ok ?t |- _ =>
    exists d, t end.
  cbn [a_memory a_dailyLoss a_drawdown a_grossExposure a_netExposure
    a_assetExposure a_leverage a_marginUsagePct a_allowed a_reasons]. bool_hyps.
  split_and!; try done.
  intros m ->. cbv iota beta in *. bool_hyps. split_and!; try done. by apply String.eqb_eq.
Qed.

(** ** What the validators accept, field by field *)

Definition positive (n : number) : bool := isFinite n && (0 <? n).
Definition nonneg (n : number) : bool := isFinite n && (0 <=? n).

Definition limits_ok (l : AccountRiskLimits) : bool :=
  positive (maxGrossExposure l) && positive (maxNetExposure l) && positive (maxAssetExposure l)
  && positive (maxLeverage l) && positive (maxMarginUsagePct l) && positive (maxDailyLoss l)
  && positive (maxDrawdown l) && positive (maxDataAgeMs l) && positive (maxPriceDeviationPct l)
  && nonneg (minDepthRatio l) && nonneg (minLiquidationDistancePct l)
  && nonneg (minProtectionCoveragePct l) && positive (maxStopDistancePct l)
  && negb (100 <? maxMarginUsagePct l) && negb (100 <? minLiquidationDistancePct l)
  && negb (100 <? minProtectionCoveragePct l) && negb (100 <? maxStopDistancePct l).

Lemma throwFirst_Ok {E} bad (err : string -> E) l u :
  throwFirst bad err l = Ok u <-> forallb (fun x => negb (bad x)) l = true.
Proof.
  destruct u. unfold throwFirst. induction l as [|x l IH]; cbn; [done|].
  destruct (bad x); cbn; [done|exact IH].
Qed.

Lemma validate_limits_iff l :
  validateAccountRiskLimits (limits_value l) = Ok tt <-> limits_ok l = true.
Proof.
  unfold validateAccountRiskLimits. rewrite bind_Ok. split.
  - intros (u & _ & H). apply bind_Ok in H as (? & H1%throwFirst_Ok & H).
    apply bind_Ok in H as (? & H2%throwFirst_Ok & _).
    cbn -[PrimFloat.ltb PrimFloat.leb] in H1, H2. rewrite !negb_involutive in H1.
    unfold limits_ok, positive, nonneg. bool_hyps. by repeat (apply andb_true_iff; split);
      try apply negb_true_iff.
  - intros H. unfold limits_ok, positive, nonneg in H. bool_hyps.
    exists tt. split; [done|]. apply bind_Ok. exists tt. split.
    { apply throwFirst_Ok. cbn -[PrimFloat.ltb PrimFloat.leb]. rewrite !negb_involutive.
      by repeat (apply andb_true_iff; split). }
    apply bind_Ok. exists tt. split; [|done].
    apply throwFirst_Ok. cbn -[PrimFloat.ltb PrimFloat.leb].
    by repeat (apply andb_true_iff; split); try apply negb_true_iff.
Qed.

Definition opt_ok {A} (p : A -> bool) (o : option A) : bool :=
  match o with Some a => p a | None => true end.

Definition trip_valid (t : LossTrip) : bool :=
  isFinite (trip_at t) && negb (Nat.eqb (length (trip_reasons t)) 0).

Definition memory_ok (m : AccountRiskMemory) : bool :=
  isoDay (m_date m) && isFinite (m_dailyOpeningValue m) && isFinite (m_peakValue m)
  && isFinite (m_lastObservedAt m) && opt_ok isFinite (m_lastValue m)
  && opt_ok trip_valid (m_lossTrip m).

Lemma all_strings l : forallb (isString (fun _ => true)) (map VStr l) = true.
Proof. by induction l. Qed.

Lemma trip_ok_value t : trip_ok (trip_value t) = trip_valid t.
Proof.
  unfold trip_ok, trip_valid, trip_value. cbn -[isFinite map length].
  rewrite length_map, all_strings. by rewrite andb_true_r.
Qed.

Lemma validate_memory_iff m :
  validateAccountRiskMemory (memory_value m) = Ok tt <-> memory_ok m = true.
Proof.
  unfold validateAccountRiskMemory.
  assert (prop "lastValue" (memory_value m) = match m_lastValue m with
    Some v => VNum v | None => VUndefined end) as ->
    by (unfold memory_value; by destruct (m_lastValue m), (m_lossTrip m)).
  assert (prop "lossTrip" (memory_value m) = match m_lossTrip m with
    Some t => trip_value t | None => VUndefined end) as ->
    by (unfold memory_value; by destruct (m_lastValue m), (m_lossTrip m)).
  assert (forall (o : option LossTrip), optional trip_ok
    (match o with Some t => trip_value t | None => VUndefined end) = opt_ok trip_valid o) as ->
    by (intros [t|]; [apply trip_ok_value|done]).
  assert (forall (o : option number), optional (isNumber isFinite)
    (match o with Some v => VNum v | None => VUndefined end) = opt_ok isFinite o) as ->
    by (by intros [v|]).
  unfold memory_ok. cbn -[isFinite isoDay opt_ok].
  destruct (isoDay _); cbn -[isFinite opt_ok]; [|done].
  destruct (isFinite (m_dailyOpeningValue m)); cbn -[isFinite opt_ok]; [|done].
  destruct (isFinite (m_peakValue m)); cbn -[isFinite opt_ok]; [|done].
  destruct (isFinite (m_lastObservedAt m)); cbn -[isFinite opt_ok]; [|done].
  destruct (opt_ok isFinite _); cbn -[opt_ok]; [|done].
  by destruct (opt_ok trip_valid _).
Qed.

(** ** What admission means *)

(** A position or order whose protection and liquidation evidence is acceptable. *)
Definition protected (limits : AccountRiskLimits) (ex : RiskExposure) : Prop :=
  ex_pending ex = false -> (0 <? Math_abs (ex_notional ex)) = true ->
  (minProtectionCoveragePct limits <=? ex_protectionCoveragePct ex) = true.

Definition far_from_liquidation (limits : AccountRiskLimits) (ex : RiskExposure) : Prop :=
  (0 <? Math_abs (ex_notional ex)) = true -> ex_futures ex = true ->
  ex_pending ex = false \/ ex_projected ex = Some true ->
  exists d, ex_liquidationDistancePct ex = Some d /\ isFinite d = true /\
            (minLiquidationDistancePct limits <=? d) = true.

Definition stop_close (limits : AccountRiskLimits) (ex : RiskExposure) : Prop :=
  (0 <? Math_abs (ex_notional ex)) = true -> (0 <? ex_protectionCoveragePct ex) = true ->
  exists d, ex_stopDistancePct ex = Some d /\ isFinite d = true /\
            (d <=? maxStopDistancePct limits) = true.

Definition exposure_safe (limits : AccountRiskLimits) (ex : RiskExposure) : Prop :=
  protected limits ex /\ far_from_liquidation limits ex /\ stop_close limits ex.

(** Every limit respected, on fresh data, with no loss trip latched. *)
Record within_limits (limits : AccountRiskLimits) (facts : AccountRiskFacts) (now : number)
    (a : AccountRiskAssessment) : Prop := {
  wl_fresh_account : stale limits now (f_observedAt facts) = false;
  wl_fresh_price : stale limits now (f_oldestPriceAt facts) = false;
  wl_daily : (a_dailyLoss a <? maxDailyLoss limits) = true;
  wl_drawdown : (a_drawdown a <? maxDrawdown limits) = true;
  wl_trip : m_lossTrip (a_memory a) = None;
  wl_equity : (0 <? f_equity facts) = true;
  wl_gross : (a_grossExposure a <=? maxGrossExposure limits) = true;
  wl_net : (maxNetExposure limits <? a_netExposure a) = false;
  wl_assets : forall asset x, In (asset, x) (a_assetExposure a) ->
                (x <=? maxAssetExposure limits) = true;
  wl_leverage : (maxLeverage limits <? a_leverage a) = false;
  wl_margin : (maxMarginUsagePct limits <? a_marginUsagePct a) = false;
  wl_exposures : forall ex, In ex (f_exposures facts) -> exposure_safe limits ex
}.

Lemma not_ltb_iff x y : notNaN x -> notNaN y -> (x <? y) = false <-> (y <=? x) = true.
Proof.
  intros Hx Hy. split; [by apply ltb_false_leb|]. intros H.
  apply not_true_iff_false. intros H'. apply ltb_not_leb in H'. congruence.
Qed.

Lemma not_leb_iff x y : notNaN x -> notNaN y -> (x <=? y) = false <-> (y <? x) = true.
Proof. intros Hx Hy. split; [by apply leb_false_ltb|apply ltb_not_leb]. Qed.

Lemma finite_zero : notNaN 0.
Proof. apply isFinite_notNaN. reflexivity. Qed.

Lemma protection_reasons_nil limits ex :
  notNaN (minProtectionCoveragePct limits) -> notNaN (ex_protectionCoveragePct ex) ->
  protection_reasons limits ex = [] <-> protected limits ex.
Proof.
  intros H1 H2. unfold protection_reasons, protected. rewrite reason_if_nil.
  destruct (ex_pending ex); cbn [negb andb]; [naive_solver|].
  destruct (0 <? _); cbn [andb]; [|naive_solver].
  rewrite not_ltb_iff by done. naive_solver.
Qed.

Lemma liquidation_reasons_nil limits ex :
  notNaN (minLiquidationDistancePct limits) ->
  liquidation_reasons limits ex = [] <-> far_from_liquidation limits ex.
Proof.
  intros H1. unfold liquidation_reasons, far_from_liquidation.
  destruct (0 <? _); cbn [andb]; [|naive_solver].
  destruct (ex_futures ex); cbn [andb]; [|naive_solver].
  assert (negb (ex_pending ex) || default false (ex_projected ex) = true <->
          ex_pending ex = false \/ ex_projected ex = Some true) as Hg
    by (destruct (ex_pending ex), (ex_projected ex) as [[]|]; cbn; naive_solver).
  destruct (_ || _) eqn:E; [|split; [intros _ _ _ K; by apply Hg in K|done]].
  destruct (ex_liquidationDistancePct ex) as [d|];
    [|split; [done|intros K; destruct K as (? & [=] & _); tauto]].
  destruct (isFinite d) eqn:Ed;
    [|split; [done|intros K; destruct K as (? & [= <-] & K & _); [done..|tauto|congruence]]].
  rewrite reason_if_nil, not_ltb_iff by eauto using isFinite_notNaN.
  split; [eauto|]. intros K. destruct K as (? & [= <-] & _ & K); tauto.
Qed.

Lemma stop_reasons_nil limits ex :
  notNaN (maxStopDistancePct limits) ->
  (0 <? Math_abs (ex_notional ex)) && (0 <? ex_protectionCoveragePct ex)
    && negb (finite_opt (ex_stopDistancePct ex)) = false ->
  stop_reasons limits ex = [] <-> stop_close limits ex.
Proof.
  intros H1. unfold stop_reasons, stop_close.
  destruct (0 <? Math_abs _); cbn [andb]; [|naive_solver].
  destruct (0 <? _); cbn [andb]; [|naive_solver].
  destruct (ex_stopDistancePct ex) as [d|]; cbn; [|done]. intros Hd%negb_false_iff.
  rewrite reason_if_nil, not_ltb_iff by eauto using isFinite_notNaN.
  split; [eauto|]. intros K. destruct K as (? & [= <-] & _ & K); tauto.
Qed.

(** The evidence an exposure passed without a throw, and what no reason means. *)
Lemma exposure_reasons_nil limits t ex t' :
  limits_ok limits = true -> add_exposure limits t ex = Ok t' ->
  exposure_reasons limits ex = [] <-> exposure_safe limits ex.
Proof.
  unfold limits_ok, positive, nonneg, add_exposure. intros Hl H. inv_ok. bool_hyps.
  unfold exposure_reasons, exposure_safe. rewrite !app_nil_iff.
  rewrite protection_reasons_nil, liquidation_reasons_nil, stop_reasons_nil
    by eauto using isFinite_notNaN. done.
Qed.

(** ** The exposure loop *)

Lemma add_exposure_reasons limits t ex t' :
  add_exposure limits t ex = Ok t' ->
  t_reasons t' = app (t_reasons t) (exposure_reasons limits ex).
Proof. unfold add_exposure. intros H. by inv_ok. Qed.

Lemma add_exposure_state limits t ex t' t2 :
  add_exposure limits t ex = Ok t' -> exists t2', add_exposure limits t2 ex = Ok t2'.
Proof.
  unfold add_exposure. intros H. inv_ok.
  repeat match goal with E : _ = false |- _ => rewrite E; clear E end. cbn. eauto.
Qed.

Lemma exposures_reasons_nil limits l t t' :
  limits_ok limits = true -> foldM (add_exposure limits) t l = Ok t' ->
  t_reasons t' = [] <-> t_reasons t = [] /\ forall ex, In ex l -> exposure_safe limits ex.
Proof.
  intros Hl. revert t. induction l as [|ex l IH]; intros t; cbn.
  - intros [= ->]. naive_solver.
  - destruct (add_exposure limits t ex) as [t1|] eqn:E; [|done]. intros H.
    rewrite (IH _ H), (add_exposure_reasons _ _ _ _ E), app_nil_iff,
      (exposure_reasons_nil _ _ _ _ Hl E).
    naive_solver.
Qed.

(** Non-negative totals: magnitudes are only ever added. *)
Definition totals_ok (t : Totals) : Prop :=
  (0 <=? t_gross t) = true /\
  forall asset x, In (asset, x) (t_assets t) -> (0 <=? x) = true.

Lemma add_exposure_totals limits t ex t' :
  totals_ok t -> add_exposure limits t ex = Ok t' -> totals_ok t'.
Proof.
  unfold add_exposure, totals_ok. intros [Hg Ha] H. inv_ok. bool_hyps. cbn.
  assert ((0 <=? Math_abs (ex_notional ex)) = true) by auto using abs_nonneg, isFinite_notNaN.
  split; [auto using add_nonneg|]. intros asset x [[= -> ->]|Hin]%o_set_In; [|eauto].
  apply add_nonneg; [|done].
  destruct (o_get (ex_asset ex) (t_assets t)) eqn:E; cbn; [|done]. eapply Ha, o_get_In, E.
Qed.

Lemma exposures_totals limits l t' :
  foldM (add_exposure limits) no_totals l = Ok t' -> totals_ok t'.
Proof.
  apply foldM_inv; [intros; eapply add_exposure_totals; eauto|].
  split; [reflexivity|intros ? ? []].
Qed.

Lemma nonneg_notNaN x : (0 <=? x) = true -> notNaN x.
Proof. intros H. exact (proj2 (leb_notNaN _ _ H)). Qed.

Lemma asset_reasons_nil limits assets :
  asset_reasons limits assets = [] <->
  forall asset x, In (asset, x) assets -> (maxAssetExposure limits <? x) = false.
Proof.
  unfold asset_reasons. induction assets as [|[a y] l IH]; cbn; [naive_solver|].
  rewrite app_nil_iff, reason_if_nil, IH. naive_solver.
Qed.

(** ** The memory *)

Lemma latch_eq m now fresh r :
  latch m now fresh r = m \/
  exists t, latch m now fresh r = with_trip m t /\ fresh = true /\ m_lossTrip m = None /\
            t = {| trip_at := now; trip_reasons := r |} /\ r <> [].
Proof.
  unfold latch. destruct fresh; cbn; [|by left].
  destruct (Nat.eqb (length r) 0) eqn:E; cbn; [by left|].
  destruct (m_lossTrip m) eqn:Et; [by left|]. right. eexists. split_and!; try done.
  intros ->. by cbn in E.
Qed.

(** The watermarks a roll leaves are finite. *)
Lemma roll_memory_finite facts previous date nv fresh :
  isFinite nv = true ->
  (forall m, previous = Some m -> memory_ok m = true) ->
  let m := roll_memory facts previous date nv fresh in
  isFinite (m_dailyOpeningValue m) = true /\ isFinite (m_peakValue m) = true.
Proof.
  intros Hnv Hm. unfold roll_memory. destruct previous as [m|].
  - specialize (Hm m eq_refl). unfold memory_ok in Hm. bool_hyps.
    destruct fresh; rewrite ?andb_false_r; cbn; [|done].
    destruct (negb _); cbn; split; eauto with ti.
    by destruct (m_lastValue m).
  - rewrite String.eqb_refl. destruct fresh; cbn; eauto with ti.
Qed.

Lemma roll_memory_peak facts m date nv fresh :
  isFinite nv = true -> memory_ok m = true ->
  (m_peakValue m <=? m_peakValue (roll_memory facts (Some m) date nv fresh)) = true.
Proof.
  intros Hnv Hm. unfold memory_ok in Hm. bool_hyps. unfold roll_memory.
  destruct (negb _ && fresh), fresh; cbn; eauto using isFinite_notNaN with ti.
Qed.

Lemma roll_memory_trip facts m date nv fresh :
  m_lossTrip (roll_memory facts (Some m) date nv fresh) = m_lossTrip m.
Proof. unfold roll_memory. by destruct (negb _ && fresh), fresh. Qed.

Lemma latch_trip m now fresh r t : m_lossTrip m = Some t -> latch m now fresh r = m.
Proof. intros H. destruct (latch_eq m now fresh r) as [|(? & _ & _ & ? & _)]; congruence. Qed.

Lemma latch_peak m now fresh r : m_peakValue (latch m now fresh r) = m_peakValue m.
Proof. by destruct (latch_eq m now fresh r) as [->|(? & -> & _)]. Qed.

Lemma latch_observed m now fresh r : m_lastObservedAt (latch m now fresh r) = m_lastObservedAt m.
Proof. by destruct (latch_eq m now fresh r) as [->|(? & -> & _)]. Qed.

Lemma latch_date m now fresh r : m_date (latch m now fresh r) = m_date m.
Proof. by destruct (latch_eq m now fresh r) as [->|(? & -> & _)]. Qed.

Lemma latch_opening m now fresh r :
  m_dailyOpeningValue (latch m now fresh r) = m_dailyOpeningValue m.
Proof. by destruct (latch_eq m now fresh r) as [->|(? & -> & _)]. Qed.

#[export] Hint Resolve nonneg_notNaN finite_zero : ti.

Lemma observe_trip limits m trip o :
  m_lossTrip m = Some trip ->
  exists m', observe limits (Some m) o = Some m' /\ m_lossTrip m' = Some trip.
Proof.
  intros Hm. unfold observe.
  destruct (assessAccountRisk limits (fst o) (Some m) (snd o)) as [a|] eqn:E; [|eauto].
  apply assess_inv in E as (d & t & _ & _ & _ & _ & _ & _ & _ & -> & _).
  eexists. split; [done|].
  rewrite (latch_trip _ _ _ _ trip); by rewrite roll_memory_trip.
Qed.

Lemma observe_all_trip limits m trip l :
  m_lossTrip m = Some trip ->
  exists m', observe_all limits (Some m) l = Some m' /\ m_lossTrip m' = Some trip.
Proof.
  revert m. induction l as [|o l IH]; intros m Hm; [by eexists|].
  destruct (observe_trip limits m trip o Hm) as (m1 & H1 & H2).
  unfold observe_all in *. cbn [fold_left]. rewrite H1. by apply IH.
Qed.

(** ** The memory stays well formed *)

Lemma roll_memory_ok facts previous date nv fresh :
  isoDay date = true -> isFinite nv = true -> isFinite (f_observedAt facts) = true ->
  (forall m, previous = Some m -> memory_ok m = true) ->
  memory_ok (roll_memory facts previous date nv fresh) = true.
Proof.
  intros Hd Hnv Ho Hm. unfold roll_memory.
  assert (forall m, memory_ok m = true ->
    memory_ok (with_day m date (default (m_dailyOpeningValue m) (m_lastValue m))) = true) as Hday.
  { unfold memory_ok. intros m H. bool_hyps. cbn -[isFinite].
    repeat (apply andb_true_iff; split); auto. by destruct (m_lastValue m). }
  assert (forall m, memory_ok m = true ->
    memory_ok (with_value m (Math_max (m_peakValue m) nv) (f_observedAt facts) nv) = true) as Hval.
  { unfold memory_ok. intros m H. bool_hyps. cbn -[isFinite].
    repeat (apply andb_true_iff; split); auto using Math_max_isFinite. }
  assert (memory_ok (match previous with Some m => m | None =>
    {| m_epoch := f_epoch facts; m_date := date; m_dailyOpeningValue := nv;
       m_peakValue := nv; m_lastObservedAt := f_observedAt facts;
       m_lastValue := None; m_lossTrip := None |} end) = true) as Hstart.
  { destruct previous as [m|]; [auto|]. unfold memory_ok. cbn -[isFinite]. by rewrite Hd, Hnv, Ho. }
  destruct (negb _ && fresh), fresh; auto.
Qed.

Lemma latch_memory_ok m now fresh r :
  isFinite now = true -> memory_ok m = true -> memory_ok (latch m now fresh r) = true.
Proof.
  intros Hn Hm. destruct (latch_eq m now fresh r) as [->|(t & -> & _ & _ & -> & Hr)]; [done|].
  unfold memory_ok in *. bool_hyps. cbn -[isFinite]. repeat (apply andb_true_iff; split); auto.
  apply negb_true_iff, not_true_iff_false.
  by rewrite length_nil_eqb.
Qed.

Lemma date_of_isoDay now d :
  date_of now = Ok d ->
  (let y := c_year (civil_of_days (trunc now / MS_PER_DAY)) in (0 <=? y)%Z && (y <=? 9999)%Z) = true ->
  isoDay d = true.
Proof.
  unfold date_of. destruct (validTime _); [|done]. intros [= <-] H. by apply isoDate_isoDay.
Qed.

(** ** Properties *)

Lemma allowed_within_limits limits facts previous now a :
  assessAccountRisk limits facts previous now = Ok a ->
  a_allowed a = true <-> within_limits limits facts now a.
Proof.
  intros (date & t & Hl%validate_limits_iff & Hp & Hnow & Hcf & Hnv & Hd & Ht & Hm & HdL & Hdd
          & Hg & Has & _ & _ & _ & Hal & Hr)%assess_inv.
  destruct (roll_memory_finite facts previous date _
    (Nat.eqb (length (stale_reasons limits facts now)) 0) Hnv) as [Hop Hpk];
    [intros m ->; by apply validate_memory_iff, (Hp m)|].
  destruct (exposures_totals _ _ _ Ht) as [Hgt Hat].
  pose proof (exposures_reasons_nil _ _ _ _ Hl Ht) as Hex.
  pose proof Hl as Hl'. unfold limits_ok, positive, nonneg in Hl'. bool_hyps.
  assert (notNaN (a_dailyLoss a)) by (rewrite HdL; auto using isFinite_notNaN with ti).
  assert (notNaN (a_drawdown a)) by (rewrite Hdd; auto using isFinite_notNaN with ti).
  assert (isFinite (f_equity facts) = true) as Heq.
  { apply check_facts_iff in Hcf. by bool_hyps. }
  assert ((f_equity facts <=? 0) = false <-> (0 <? f_equity facts) = true) as He
    by (apply not_leb_iff; auto using isFinite_notNaN with ti).
  rewrite Hal, length_nil_eqb, Hr. unfold stale_reasons.
  rewrite !app_nil_iff, !reason_if_nil, Hex, asset_reasons_nil, He, Hg, Has.
  rewrite !not_leb_iff by auto using isFinite_notNaN.
  rewrite (not_ltb_iff (maxGrossExposure limits)) by auto using isFinite_notNaN with ti.
  split.
  - intros ((? & ?) & (? & ?) & Htr & (_ & ?) & ? & ? & ? & Hassets & ? & ?).
    constructor; rewrite ?Hg, ?Has; auto.
    + by destruct (m_lossTrip (a_memory a)).
    + intros asset x Hin. apply ltb_false_leb; eauto using isFinite_notNaN with ti.
  - intros [? ? ? ? Htr ? ? ? Hassets ? ? ?]. rewrite Hg in *. rewrite Has in *. rewrite Htr.
    split_and!; auto. intros asset x Hin.
    apply not_ltb_iff; eauto using isFinite_notNaN with ti.
Qed.

(** An assessment admits new risk exactly when the facts are fresh, no loss
    trip is latched, and every configured limit is respected: daily loss,
    drawdown, gross, net and per-asset exposure, leverage, margin usage, and the
    protection, liquidation and stop evidence of every position and order. *)
Theorem assessment_allowed_iff limits facts previous now a :
  assessAccountRisk limits facts previous now = Ok a ->
  a_allowed a = true <-> within_limits limits facts now a.
Proof. apply allowed_within_limits. Qed.

(** Once a loss trip is latched, no later sequence of observations clears or
    rewrites it, and every assessment made afterwards is refused. *)
Theorem loss_trip_is_permanent limits m trip l facts now a :
  m_lossTrip m = Some trip ->
  assessAccountRisk limits facts (observe_all limits (Some m) l) now = Ok a ->
  a_allowed a = false /\ m_lossTrip (a_memory a) = Some trip.
Proof.
  intros Hm Ha.
  destruct (observe_all_trip limits m trip l Hm) as (m' & Hm' & Htrip).
  rewrite Hm' in Ha.
  apply assess_inv in Ha as (d & t & _ & _ & _ & _ & _ & _ & _ & Hmem & _ & _ & _ & _ & _ & _ & _ & Hal & Hr).
  assert (m_lossTrip (a_memory a) = Some trip) as Hlt
    by (rewrite Hmem; rewrite (latch_trip _ _ _ _ trip) by (by rewrite roll_memory_trip); by rewrite roll_memory_trip).
  split; [|done]. rewrite Hal, Hr, Hlt, !length_app. apply Nat.eqb_neq. cbn. lia.
Qed.

(** A fresh observation whose daily loss or drawdown reaches its limit latches
    the loss trip: the returned memory carries one, so the refusal persists. *)
Theorem breach_latches limits facts previous now a :
  assessAccountRisk limits facts previous now = Ok a ->
  stale_reasons limits facts now = [] ->
  (maxDailyLoss limits <=? a_dailyLoss a) = true \/ (maxDrawdown limits <=? a_drawdown a) = true ->
  exists trip, m_lossTrip (a_memory a) = Some trip.
Proof.
  intros (d & t & _ & _ & _ & _ & _ & _ & _ & -> & _)%assess_inv Hs Hb. rewrite Hs. cbn [length Nat.eqb].
  unfold latch. cbn [andb].
  destruct (Nat.eqb (length _) 0) eqn:E; cbn [negb].
  - apply length_nil_eqb, app_nil_iff in E as [E1%reason_if_nil E2%reason_if_nil].
    destruct Hb; congruence.
  - destruct (m_lossTrip (roll_memory _ _ _ _ _)) eqn:Et; cbn; rewrite ?Et; eauto.
Qed.

(** Watermarks only advance: an assessment never lowers the recorded peak
    equity, and never accepts an observation older than the last one. *)
Theorem watermarks_advance limits facts m now a :
  assessAccountRisk limits facts (Some m) now = Ok a ->
  (m_peakValue m <=? m_peakValue (a_memory a)) = true /\
  (m_lastObservedAt m <=? m_lastObservedAt (a_memory a)) = true.
Proof.
  intros (d & t & _ & Hp & _ & Hcf & Hnv & _ & _ & -> & _)%assess_inv.
  destruct (Hp m eq_refl) as (Hm%validate_memory_iff & _ & Hobs).
  rewrite latch_peak, latch_observed. split; [by apply roll_memory_peak|].
  unfold memory_ok in Hm. bool_hyps.
  assert (isFinite (f_observedAt facts) = true) as Hf.
  { apply check_facts_iff in Hcf. by bool_hyps. }
  apply ltb_false_leb in Hobs; [|auto using isFinite_notNaN..].
  unfold roll_memory. by destruct (negb _ && _), (Nat.eqb _ _); cbn;
    auto using isFinite_notNaN, leb_refl.
Qed.

(** An assessment on stale data blocks admission and changes nothing that is
    remembered: neither watermarks, nor the day, nor the loss latch. *)
Theorem stale_assessment_remembers_nothing limits facts m now a :
  assessAccountRisk limits facts (Some m) now = Ok a ->
  stale_reasons limits facts now <> [] ->
  a_allowed a = false /\ a_memory a = m.
Proof.
  intros (d & t & _ & _ & _ & _ & _ & _ & _ & Hm & _ & _ & _ & _ & _ & _ & _ & Hal & Hr)%assess_inv Hs.
  assert (Nat.eqb (length (stale_reasons limits facts now)) 0 = false) as E
    by (apply not_true_iff_false; by rewrite length_nil_eqb).
  split.
  - rewrite Hal. apply not_true_iff_false. rewrite length_nil_eqb, Hr, app_nil_iff. tauto.
  - rewrite Hm, E. unfold roll_memory, latch. rewrite andb_false_r. done.
Qed.

(** On the first fresh observation of a new day the daily loss is measured
    from the last value seen on the previous day (from the previous opening when
    there is none), so a loss that happened overnight is not reset. *)
Theorem overnight_loss_is_kept limits facts m now a date :
  assessAccountRisk limits facts (Some m) now = Ok a ->
  stale_reasons limits facts now = [] -> date_of now = Ok date -> m_date m <> date ->
  m_date (a_memory a) = date /\
  m_dailyOpeningValue (a_memory a) = default (m_dailyOpeningValue m) (m_lastValue m) /\
  a_dailyLoss a = Math_max 0 (default (m_dailyOpeningValue m) (m_lastValue m)
                              - (f_equity facts - f_netExternalFlows facts)).
Proof.
  intros (d & t & _ & _ & _ & _ & _ & Hd & _ & Hm & HdL & _)%assess_inv Hs Hd' Hne.
  rewrite Hd in Hd'. injection Hd' as ->. rewrite Hs in *. cbn [length Nat.eqb] in *.
  apply String.eqb_neq in Hne. unfold roll_memory in *. rewrite Hne in *. cbn [negb andb] in *.
  by rewrite HdL, Hm, latch_opening, latch_date.
Qed.

(** The days whose printed form the memory validator accepts. *)
Definition four_digit_day (now : number) : bool :=
  let y := c_year (civil_of_days (trunc now / MS_PER_DAY)) in (0 <=? y)%Z && (y <=? 9999)%Z.

(** C40: up to the year 9999 the returned memory passes the validator that the
    next assessment applies to it, so an admitted state can always be assessed
    again. *)
Theorem assessed_memory_valid limits facts previous now a :
  assessAccountRisk limits facts previous now = Ok a ->
  four_digit_day now = true ->
  validateAccountRiskMemory (memory_value (a_memory a)) = Ok tt.
Proof.
  intros (d & t & _ & Hp & Hnow & Hcf & Hnv & Hd & _ & -> & _)%assess_inv Hy.
  apply validate_memory_iff.
  assert (isoDay d = true) as Hday by (by apply (date_of_isoDay now)).
  apply check_facts_iff in Hcf. bool_hyps.
  apply latch_memory_ok; [done|]. apply roll_memory_ok; auto.
  intros m ->. destruct (Hp m eq_refl) as [Hm _]. by apply validate_memory_iff.
Qed.

(** The execution-price check reports no reason exactly when the order book is
    fresh, the price deviates by no more than the limit and the depth ratio is
    sufficient. *)
Theorem execution_price_ok_iff limits facts :
  assessExecutionPrice limits facts = Ok [] <->
  limits_ok limits = true /\
  (forall p, In p execution_entries -> isFinite (snd p facts) = true) /\
  (x_referencePrice facts <=? 0) = false /\ (x_orderPrice facts <=? 0) = false /\
  (x_amount facts <=? 0) = false /\ (x_availableDepth facts <? 0) = false /\
  stale limits (x_now facts) (x_observedAt facts) = false /\
  (maxPriceDeviationPct limits
   <? Math_abs (x_orderPrice facts / x_referencePrice facts - 1) * 100) = false /\
  (x_availableDepth facts / x_amount facts <? minDepthRatio limits) = false.
Proof.
  pose proof (foldM_throwIf (fun p => negb (isFinite (snd p facts)))
    (fun p => ErrExecutionEvidence (fst p)) execution_entries) as Hev.
  setoid_rewrite negb_false_iff in Hev.
  rewrite <- Hev, <- validate_limits_iff. unfold assessExecutionPrice. split.
  - intros H. inv_ok.
    match goal with E : app _ _ = [] |- _ => rewrite !app_nil_iff, !reason_if_nil in E end.
    bool_hyps. tauto.
  - intros (-> & -> & -> & -> & -> & -> & E1 & E2 & E3). by rewrite E1, E2, E3.
Qed.

(** ** Witnesses *)

Definition sample_limits : AccountRiskLimits :=
  {| maxGrossExposure := 1000; maxNetExposure := 1000; maxAssetExposure := 600; maxLeverage := 3;
     maxMarginUsagePct := 50; maxDailyLoss := 50; maxDrawdown := 80; maxDataAgeMs := 60000;
     maxPriceDeviationPct := 2; minDepthRatio := 1; minLiquidationDistancePct := 10;
     minProtectionCoveragePct := 90; maxStopDistancePct := 5;
     cancelEntriesOnBreach := true; reduceOnBreach := false |}.

Definition sample_exposure : RiskExposure :=
  {| ex_asset := "BTC"; ex_symbol := "BTC/USDT:USDT"; ex_notional := 500; ex_pending := false;
     ex_liquidationDistancePct := Some 40; ex_protectionCoveragePct := 100;
     ex_stopDistancePct := Some 3; ex_futures := true; ex_projected := None |}.

(** 2023-11-14T22:13:20Z, and the same instant on the next day. *)
Definition day1 : number := 1700000000000.
Definition day2 : number := 1700086400000.

Definition sample_facts (equity at_ : number) : AccountRiskFacts :=
  {| f_source := "exchange"; f_epoch := "epoch"; f_observedAt := at_; f_oldestPriceAt := at_;
     f_equity := equity; f_netExternalFlows := 1000; f_marginUsed := 100;
     f_exposures := [sample_exposure] |}.

Definition memory_of (r : result AccountRiskError AccountRiskAssessment) : AccountRiskMemory :=
  match r with
  | Ok a => a_memory a
  | Throw _ => {| m_epoch := ""; m_date := ""; m_dailyOpeningValue := 0; m_peakValue := 0;
                  m_lastObservedAt := 0; m_lastValue := None; m_lossTrip := None |}
  end.

(** A good first day, and the memory after a loss of 60 on the same day. *)
Definition good_memory := memory_of (assessAccountRisk sample_limits (sample_facts 1000 day1) None day1).
Definition tripped_memory :=
  memory_of (assessAccountRisk sample_limits (sample_facts 940 day1) (Some good_memory) day1).

(** The returned assessment satisfies [P]. *)
Definition returns (r : result AccountRiskError AccountRiskAssessment)
    (P : AccountRiskAssessment -> Prop) : Prop :=
  match r with Ok a => P a | Throw _ => False end.

Ltac on_return a E :=
  unfold returns;
  match goal with |- match ?r with _ => _ end =>
    destruct r as [a|] eqn:E; [|vm_compute in E; discriminate E] end.

Lemma assessment_allowed_iff_witness :
  returns (assessAccountRisk sample_limits (sample_facts 1000 day1) None day1)
    (within_limits sample_limits (sample_facts 1000 day1) day1).
Proof.
  on_return a E. apply (assessment_allowed_iff _ _ _ _ a E).
  vm_compute in E. injection E as <-. reflexivity.
Defined.

Lemma loss_trip_is_permanent_witness :
  returns (assessAccountRisk sample_limits (sample_facts 2000 day2)
             (observe_all sample_limits (Some tripped_memory) [(sample_facts 1500 day2, day2)]) day2)
    (fun a => a_allowed a = false).
Proof.
  on_return a E. eapply (proj1 (loss_trip_is_permanent _ _ _ _ _ _ a _ E)).
  Unshelve. 2: vm_compute; reflexivity.
Defined.

Lemma breach_latches_witness :
  returns (assessAccountRisk sample_limits (sample_facts 940 day1) (Some good_memory) day1)
    (fun a => exists trip, m_lossTrip (a_memory a) = Some trip).
Proof.
  on_return a E. apply (breach_latches _ _ _ _ a E); [reflexivity|left].
  vm_compute in E. injection E as <-. reflexivity.
Defined.

Lemma watermarks_advance_witness :
  returns (assessAccountRisk sample_limits (sample_facts 1010 day2) (Some good_memory) day2)
    (fun a => (m_peakValue good_memory <=? m_peakValue (a_memory a)) = true).
Proof. on_return a E. exact (proj1 (watermarks_advance _ _ _ _ a E)). Defined.

Lemma stale_assessment_remembers_nothing_witness :
  returns (assessAccountRisk sample_limits (sample_facts 940 day1) (Some good_memory) day2)
    (fun a => a_memory a = good_memory).
Proof.
  on_return a E. apply (stale_assessment_remembers_nothing _ _ _ _ a E). discriminate.
Defined.

Lemma overnight_loss_is_kept_witness :
  returns (assessAccountRisk sample_limits (sample_facts 960 day2) (Some good_memory) day2)
    (fun a => a_dailyLoss a = 40).
Proof.
  on_return a E.
  rewrite (proj2 (proj2 (overnight_loss_is_kept _ _ _ _ a "2023-11-15" E
    ltac:(reflexivity) ltac:(vm_compute; reflexivity) ltac:(vm_compute; discriminate)))).
  reflexivity.
Defined.

Lemma assessed_memory_valid_witness :
  returns (assessAccountRisk sample_limits (sample_facts 940 day1) (Some good_memory) day1)
    (fun a => validateAccountRiskMemory (memory_value (a_memory a)) = Ok tt).
Proof. on_return a E. apply (assessed_memory_valid _ _ _ _ a E). reflexivity. Defined.
