(* ===== verification/RiskState.v ===== *)
(** * Risk state (packages/trading-risk/src/risk.ts, data and validation)

    The persisted quota state of the paper and live modes, the objects it is at
    run time, and the functions that validate and normalise them.  The
    normalisers read values of unknown shape, as the sources do: they are
    applied both to what a store loads and to the drafts a mutation leaves. *)

From Stdlib Require Import ZArith Lia Bool Ascii Floats.
From stdpp Require Import base strings option list.
From S2P Require Import Prelude JsNumber JsObject JsDate JsValue AccountRisk.

Local Open Scope float_scope.

(** ** Data *)

Inductive MarketType := Spot | UsdmFutures | Both.
Inductive TradingMode := Paper | Live.

#[export] Instance TradingMode_eq_dec : EqDecision TradingMode.
Proof. solve_decision. Defined.
#[export] Instance MarketType_eq_dec : EqDecision MarketType.
Proof. solve_decision. Defined.

Definition mode_name (m : TradingMode) : string :=
  match m with Paper => "paper" | Live => "live" end.

Record RiskLimits := {
  maxOrderNotional : number;
  maxDailyNotional : number;
  allowedSymbols : list string;
  account : option AccountRiskLimits
}.

Record RiskConfig := {
  rc_mode : TradingMode;
  rc_marketType : MarketType;
  rc_quoteCurrency : string;
  rc_risk : RiskLimits
}.

Inductive MarginType := Isolated | Cross.

Inductive AccountRiskMutationKind :=
  | MutCancel (orderIds : list string)
  | MutLeverage (leverage : number)
  | MutMargin (marginType : MarginType).

Record AccountRiskMutation := {
  mut_id : string;
  mut_symbol : string;
  mut_kind : AccountRiskMutationKind
}.

Record AccountRiskState := {
  ar_limits : AccountRiskLimits;
  ar_memory : option AccountRiskMemory;
  ar_blockedReasons : list string;
  ar_revision : Z;
  ar_mutation : option AccountRiskMutation
}.

Record RiskReservationState := {
  res_id : string;
  res_mode : TradingMode;
  res_symbol : string;
  res_notional : number;
  res_executionId : option string
}.

Inductive SettlementOutcome := Commit | Release.

#[export] Instance SettlementOutcome_eq_dec : EqDecision SettlementOutcome.
Proof. solve_decision. Defined.

Record Settlement := { set_outcome : SettlementOutcome; set_notional : number }.

Inductive AuditKind := RiskPause | RiskResume | RiskReset | RiskReconcile | ConfigChange | ExecutionEvent.

Record TradingAuditEvent := {
  ev_id : string;
  ev_at : string;
  ev_kind : AuditKind;
  ev_mode : TradingMode;
  ev_executionId : option string;
  ev_action : option string;
  ev_evidenceReference : option string;
  ev_settlement : option Settlement
}.

(** [TradingAuditState]; its [version] is the literal 1. *)
Record TradingAuditState := { au_events : list TradingAuditEvent }.

Definition AUDIT_HISTORY_LIMIT : nat := 500.

Record RiskUsageState := {
  u_date : string;
  u_usedDailyNotional : number;
  u_reservedDailyNotional : option number;
  u_reservations : option (obj RiskReservationState);
  u_executionBlocks : option (obj bool)
}.

Record TradingRiskState := {
  st_paper : RiskUsageState;
  st_live : RiskUsageState;
  st_audit : option TradingAuditState;
  st_accountRisk : option (obj AccountRiskState)
}.

(** [state[mode]] and its assignment. *)
Definition usage_of (m : TradingMode) (s : TradingRiskState) : RiskUsageState :=
  match m with Paper => st_paper s | Live => st_live s end.

Definition set_usage (m : TradingMode) (u : RiskUsageState) (s : TradingRiskState) : TradingRiskState :=
  match m with
  | Paper => {| st_paper := u; st_live := st_live s; st_audit := st_audit s;
                st_accountRisk := st_accountRisk s |}
  | Live => {| st_paper := st_paper s; st_live := u; st_audit := st_audit s;
               st_accountRisk := st_accountRisk s |}
  end.

Definition set_audit (a : option TradingAuditState) (s : TradingRiskState) : TradingRiskState :=
  {| st_paper := st_paper s; st_live := st_live s; st_audit := a;
     st_accountRisk := st_accountRisk s |}.

(** ** Errors *)

(** Why a persisted state is refused ([RiskReservationStateError]). *)
Inductive StateProblem :=
  | InvalidState
  | InvalidUsage
  | InvalidDate
  | InvalidBlocks
  | InvalidAuditHistory
  | InvalidAuditEvent
  | InvalidReservations
  | ReservationNotObject
  | ReservationKeyMismatch
  | ReservationMode
  | ReservationSymbol
  | ReservationExecution
  | NotFiniteNonNegative
  | NotFinitePositive
  | Overflowed
  | BelowReservation
  | MissingIdentities
  | SumMismatch
  | DuplicateReservation
  | EmptyReservationId
  | InBothModes
  | AlreadySettled
  | ExecutionLinked
  | Disappeared.

(** Why a caller is refused ([Error]). *)
Inductive Refusal :=
  | ConfigQuoteCurrency
  | ConfigMaxOrder
  | ConfigMaxDaily
  | ConfigDailyBelowOrder
  | ConfigSymbols
  | LedgerIdentity
  | BadSymbol
  | BadNotional
  | SymbolNotAllowed
  | AboveMaxOrder
  | AboveMaxDaily
  | UnresolvedExecutions
  | ResetUnresolved
  | ResetInFlight
  | RecordedNotional
  | InvalidClock
  | AccountStateInvalid.

Inductive RiskError :=
  | StateError (reservationId : string) (why : StateProblem)
  | PlainError (why : Refusal)
  | AccountError (e : AccountRiskError)
  | CommitError (reservationId : string) (cause : RiskError)
  | PersistenceError (cause : RiskError)
  | MutationAbort (cause : RiskError)
  | StoreFailure.

Definition STATE_ERROR_ID : string := "<state>".
Definition stateError (why : StateProblem) : RiskError := StateError STATE_ERROR_ID why.

(** ** Quota arithmetic *)

Definition EPSILON_MULTIPLIER : number := 8.

Definition finiteNonNegative (n : number) (id : string) : result RiskError number :=
  if negb (isFinite n) || (n <? 0) then Throw (StateError id NotFiniteNonNegative) else Ok n.

Definition finitePositive (n : number) (id : string) : result RiskError number :=
  if negb (isFinite n) || (n <=? 0) then Throw (StateError id NotFinitePositive) else Ok n.

Definition addition (current delta : number) (id : string) : result RiskError number :=
  _ ← finiteNonNegative current id;
  _ ← finiteNonNegative delta id;
  let r := current + delta in
  if negb (isFinite r) || (r <? 0) then Throw (StateError id Overflowed) else Ok r.

(** [Math.max(1, |current|, |delta|)] of three arguments, left to right. *)
Definition epsilon (current delta : number) : number :=
  EPSILON * EPSILON_MULTIPLIER * Math_max (Math_max 1 (Math_abs current)) (Math_abs delta).

Definition subtraction (current delta : number) (id : string) : result RiskError number :=
  _ ← finiteNonNegative current id;
  _ ← finitePositive delta id;
  let r := current - delta in
  if r <? 0 then
    if Math_abs r <=? epsilon current delta then Ok 0 else Throw (StateError id BelowReservation)
  else Ok (if r <=? epsilon current delta then 0 else r).

Definition approximatelyEqual (left right : number) : bool :=
  Math_abs (left - right) <=? epsilon left right.

(** ** Run-time objects *)

Definition reservation_value (r : RiskReservationState) : value :=
  VObj (("id", VStr (res_id r)) :: ("mode", VStr (mode_name (res_mode r)))
        :: ("symbol", VStr (res_symbol r)) :: ("notional", VNum (res_notional r))
        :: opt_field "executionId" VStr (res_executionId r))%string.

Definition obj_value {A} (f : A -> value) (o : obj A) : value :=
  VObj (map (fun p => (fst p, f (snd p))) o).

Definition usage_value (u : RiskUsageState) : value :=
  VObj (("date", VStr (u_date u)) :: ("usedDailyNotional", VNum (u_usedDailyNotional u))
        :: app (opt_field "reservedDailyNotional" VNum (u_reservedDailyNotional u))
           (app (opt_field "reservations" (obj_value reservation_value) (u_reservations u))
                (opt_field "executionBlocks" (obj_value VBool) (u_executionBlocks u))))%string.

Definition outcome_name (o : SettlementOutcome) : string :=
  match o with Commit => "commit" | Release => "release" end.

Definition settlement_value (s : Settlement) : value :=
  VObj [("outcome", VStr (outcome_name (set_outcome s))); ("notional", VNum (set_notional s))]%string.

Definition kind_name (k : AuditKind) : string :=
  match k with
  | RiskPause => "risk-pause" | RiskResume => "risk-resume" | RiskReset => "risk-reset"
  | RiskReconcile => "risk-reconcile" | ConfigChange => "config-change"
  | ExecutionEvent => "execution"
  end.

Definition event_value (e : TradingAuditEvent) : value :=
  VObj (("kind", VStr (kind_name (ev_kind e))) :: ("mode", VStr (mode_name (ev_mode e)))
        :: app (opt_field "executionId" VStr (ev_executionId e))
           (app (opt_field "action" VStr (ev_action e))
           (app (opt_field "evidenceReference" VStr (ev_evidenceReference e))
           (app (opt_field "settlement" settlement_value (ev_settlement e))
           [("id", VStr (ev_id e)); ("at", VStr (ev_at e))]))))%string.

Definition audit_value (a : TradingAuditState) : value :=
  VObj [("version", VNum 1); ("events", VArr (map event_value (au_events a)))]%string.

Definition mutation_value (mu : AccountRiskMutation) : value :=
  VObj (("symbol", VStr (mut_symbol mu))
        :: app (match mut_kind mu with
                | MutCancel ids => [("kind", VStr "cancel"); ("orderIds", VArr (map VStr ids))]
                | MutLeverage l => [("kind", VStr "leverage"); ("leverage", VNum l)]
                | MutMargin t =>
                    [("kind", VStr "margin");
                     ("marginType", VStr (match t with Isolated => "isolated" | Cross => "cross" end))]
                end) [("id", VStr (mut_id mu))])%string.

Definition accountRisk_value (a : AccountRiskState) : value :=
  VObj (("limits", limits_value (ar_limits a))
        :: app (opt_field "memory" memory_value (ar_memory a))
           (("blockedReasons", VArr (map VStr (ar_blockedReasons a)))
            :: ("revision", VNum (of_Z (ar_revision a)))
            :: opt_field "mutation" mutation_value (ar_mutation a)))%string.

Definition state_value (s : TradingRiskState) : value :=
  VObj (("paper", usage_value (st_paper s)) :: ("live", usage_value (st_live s))
        :: app (opt_field "audit" audit_value (st_audit s))
               (opt_field "accountRisk" (obj_value accountRisk_value) (st_accountRisk s)))%string.

(** ** Validators of unknown values *)

(** [for (const [id, x] of Object.entries(v)) ...] where the body may throw. *)
Definition forEntries {E : Type} (body : string -> value -> result E unit) (v : value) : result E unit :=
  foldM (fun _ p => body (fst p) (snd p)) tt (entries_of v).

Definition mutation_ok (v : value) : bool :=
  isRecord v && isString identifier (prop "id" v)
  && isString (fun s => negb (String.eqb s "")) (prop "symbol" v)
  && ((isLit "cancel" (prop "kind" v)
       && isArray (fun l => negb (Nat.eqb (length l) 0)
                            && forallb (isString (fun s => negb (String.eqb s ""))) l)
            (prop "orderIds" v))
      || (isLit "leverage" (prop "kind" v)
          && isNumber (fun n => isFinite n && (0 <? n)) (prop "leverage" v))
      || (isLit "margin" (prop "kind" v)
          && literal_in ["isolated"; "cross"]%string (prop "marginType" v))).

Definition accountEntry (id : string) (v : value) : result RiskError unit :=
  let bad := PlainError AccountStateInvalid in
  _ ← throwIf (negb (identifier id && isRecord v)) bad;
  _ ← mapError AccountError (validateAccountRiskLimits (prop "limits" v));
  _ ← (if defined (prop "memory" v)
       then mapError AccountError (validateAccountRiskMemory (prop "memory" v)) else Ok tt);
  _ ← throwIf (negb (isNumber (fun n => isSafeInteger n && (0 <=? n)) (prop "revision" v)
                     && isArray (forallb (isString (fun _ => true))) (prop "blockedReasons" v))) bad;
  throwIf (negb (optional mutation_ok (prop "mutation" v))) bad.

Definition validateAccountRiskStates (v : value) : result RiskError unit :=
  _ ← throwIf (negb (isRecord v)) (PlainError AccountStateInvalid);
  forEntries accountEntry v.

Definition auditKinds : list string :=
  ["risk-pause"; "risk-resume"; "risk-reset"; "risk-reconcile"; "config-change"; "execution"]%string.

Definition settlement_ok (v : value) : bool :=
  isRecord v && (isLit "commit" (prop "outcome" v) || isLit "release" (prop "outcome" v))
  && isNumber (fun n => isFinite n && (0 <=? n)
                        && (negb (isLit "release" (prop "outcome" v)) || (n =? 0)))
       (prop "notional" v)
  && only_keys ["outcome"; "notional"]%string v.

Definition event_ok (v : value) : bool :=
  isRecord v && isString identifier (prop "id" v) && isString iso (prop "at" v)
  && literal_in auditKinds (prop "kind" v)
  && (isLit "paper" (prop "mode" v) || isLit "live" (prop "mode" v))
  && optional (isString identifier) (prop "executionId" v)
  && optional (isString actionCode) (prop "action" v)
  && optional (isString identifier) (prop "evidenceReference" v)
  && optional settlement_ok (prop "settlement" v)
  && only_keys ["id"; "at"; "kind"; "mode"; "executionId"; "action"; "evidenceReference";
                "settlement"]%string v.

Definition isTradingAuditState (v : value) : bool :=
  isRecord v && isNumber (fun n => n =? 1) (prop "version" v)
  && isArray (fun l => (length l <=? AUDIT_HISTORY_LIMIT)%nat && forallb event_ok l)
       (prop "events" v).

(** [appendTradingAuditEvent(state, event, at)]; [id] is the [randomUUID()] drawn. *)
Definition appendTradingAuditEvent (id : string) (event : string -> string -> TradingAuditEvent)
    (at_ : string) (state : TradingRiskState) : result RiskError TradingRiskState :=
  _ ← throwIf (match st_audit state with
               | Some a => negb (isTradingAuditState (audit_value a)) | None => false end)
        (stateError InvalidAuditHistory);
  let events := match st_audit state with Some a => au_events a | None => [] end in
  let audit := {| au_events := lastN AUDIT_HISTORY_LIMIT (app events [event id at_]) |} in
  _ ← throwIf (negb (isTradingAuditState (audit_value audit))) (stateError InvalidAuditEvent);
  Ok (set_audit (Some audit) state).

(** ** Normalisation *)

(** The number or string a property holds, when it holds one. *)
Definition num_or (v : value) (n : number) : number := match v with VNum m => m | _ => n end.
Definition str_or (v : value) (s : string) : string := match v with VStr t => t | _ => s end.

(** [finiteNonNegative(value, ...)] and [finitePositive(value, ...)] of unknown values. *)
Definition nonNegative_value (v : value) (id : string) : result RiskError number :=
  match v with
  | VNum n => finiteNonNegative n id
  | _ => Throw (StateError id NotFiniteNonNegative)
  end.
Definition positive_value (v : value) (id : string) : result RiskError number :=
  match v with
  | VNum n => finitePositive n id
  | _ => Throw (StateError id NotFinitePositive)
  end.

Definition validateReservationState (v : value) (key : string) (mode : TradingMode) :
    result RiskError RiskReservationState :=
  _ ← throwIf (negb (isRecord v)) (StateError key ReservationNotObject);
  _ ← throwIf (negb (isString (fun s => negb (String.eqb s "") && String.eqb s key) (prop "id" v)))
        (StateError key ReservationKeyMismatch);
  _ ← throwIf (negb (isLit (mode_name mode) (prop "mode" v))) (StateError key ReservationMode);
  _ ← throwIf (negb (isString (fun s => negb (blank s)) (prop "symbol" v)))
        (StateError key ReservationSymbol);
  notional ← positive_value (prop "notional" v) key;
  _ ← throwIf (negb (optional (isString identifier) (prop "executionId" v)))
        (StateError key ReservationExecution);
  Ok {| res_id := str_or (prop "id" v) ""; res_mode := mode;
        res_symbol := str_or (prop "symbol" v) ""; res_notional := notional;
        res_executionId := match prop "executionId" v with VStr s => Some s | _ => None end |}.

(** [reservations[key] = validateReservationState(value, key, mode)] over the entries. *)
Definition readReservations (mode : TradingMode) (entries : list (string * value)) :
    result RiskError (obj RiskReservationState) :=
  foldM (fun acc p => r ← validateReservationState (snd p) (fst p) mode; Ok (o_set (fst p) r acc))
    [] entries.

(** The sum of the claims, in enumeration order. *)
Definition sumReservations (rs : obj RiskReservationState) : result RiskError number :=
  foldM (fun sum p => addition sum (res_notional (snd p)) (res_id (snd p))) 0 rs.

Definition blocks_ok (v : value) : bool :=
  isRecord v
  && forallb (fun p => identifier (fst p) && match snd p with VBool true => true | _ => false end)
       (entries_of v).

Definition read_blocks (v : value) : option (obj bool) :=
  if defined v then Some (map (fun p => (fst p, true)) (entries_of v)) else None.

Definition normalizedUsage (v : value) (mode : TradingMode) : result RiskError RiskUsageState :=
  _ ← throwIf (negb (isRecord v)) (stateError InvalidUsage);
  _ ← throwIf (negb (isString isoDay (prop "date" v))) (stateError InvalidDate);
  used ← nonNegative_value (prop "usedDailyNotional" v) STATE_ERROR_ID;
  _ ← throwIf (negb (optional blocks_ok (prop "executionBlocks" v))) (stateError InvalidBlocks);
  reserved ← (if defined (prop "reservedDailyNotional" v)
              then nonNegative_value (prop "reservedDailyNotional" v) STATE_ERROR_ID else Ok 0);
  let raw := prop "reservations" v in
  _ ← throwIf (defined raw && negb (isRecord raw)) (stateError InvalidReservations);
  reservations ← readReservations mode (entries_of raw);
  sum ← sumReservations reservations;
  _ ← throwIf (negb (defined raw) && negb (reserved =? 0)) (stateError MissingIdentities);
  _ ← throwIf (negb (approximatelyEqual sum reserved))
        (StateError (default STATE_ERROR_ID (head (o_keys reservations))) SumMismatch);
  Ok {| u_date := str_or (prop "date" v) "";
        u_usedDailyNotional := used;
        u_reservedDailyNotional := Some sum;
        u_reservations := Some reservations;
        u_executionBlocks := read_blocks (prop "executionBlocks" v) |}.

(** The audit history kept by [structuredClone]: it is the typed history whose
    object was validated. *)
Definition normalizedState (state : TradingRiskState) : result RiskError TradingRiskState :=
  let v := state_value state in
  _ ← throwIf (defined (prop "audit" v) && negb (isTradingAuditState (prop "audit" v)))
        (stateError InvalidAuditHistory);
  _ ← (if defined (prop "accountRisk" v) then validateAccountRiskStates (prop "accountRisk" v)
       else Ok tt);
  paper ← normalizedUsage (prop "paper" v) Paper;
  live ← normalizedUsage (prop "live" v) Live;
  Ok {| st_paper := paper; st_live := live; st_audit := st_audit state; st_accountRisk := None |}.

(** [cloneState] keeps paper, live and audit. *)
Definition cloneState (s : TradingRiskState) : TradingRiskState :=
  {| st_paper := st_paper s; st_live := st_live s; st_audit := st_audit s; st_accountRisk := None |}.

Definition copyStateInto (target source : TradingRiskState) : TradingRiskState :=
  {| st_paper := st_paper source; st_live := st_live source;
     st_audit := match st_audit source with Some a => Some a | None => st_audit target end;
     st_accountRisk := st_accountRisk target |}.

(** ** Symbols and configuration *)

(** [validateTradingSymbol(...) === null]. *)
Definition validateTradingSymbol (symbol : string) (marketType : MarketType) (quoteCurrency : string) : bool :=
  let futures := String.append quoteCurrency (String.append ":" quoteCurrency) in
  match split_on "/"%char symbol with
  | [base; quote] =>
      negb (String.eqb base "")
      && match marketType with
         | Both => String.eqb quote quoteCurrency || String.eqb quote futures
         | UsdmFutures => String.eqb quote futures
         | Spot => String.eqb quote quoteCurrency
         end
  | _ => false
  end.

Definition validateConfig (config : RiskConfig) : result RiskError RiskConfig :=
  let risk := rc_risk config in
  _ ← throwIf (negb (currencyCode (rc_quoteCurrency config))) (PlainError ConfigQuoteCurrency);
  _ ← match account risk with
      | Some l => mapError AccountError (validateAccountRiskLimits (limits_value l))
      | None => Ok tt
      end;
  _ ← throwIf (negb (isFinite (maxOrderNotional risk)) || (maxOrderNotional risk <=? 0))
        (PlainError ConfigMaxOrder);
  _ ← throwIf (negb (isFinite (maxDailyNotional risk)) || (maxDailyNotional risk <=? 0))
        (PlainError ConfigMaxDaily);
  _ ← throwIf (maxDailyNotional risk <? maxOrderNotional risk) (PlainError ConfigDailyBelowOrder);
  _ ← throwIf (negb (forallb (fun s => validateTradingSymbol s (rc_marketType config)
                                          (rc_quoteCurrency config)) (allowedSymbols risk)))
        (PlainError ConfigSymbols);
  Ok config.

(** ** Normal forms

    What a loaded state satisfies once [normalizedState] has returned it. *)

Definition claim_ok (mode : TradingMode) (key : string) (r : RiskReservationState) : bool :=
  String.eqb (res_id r) key && negb (String.eqb key "") && bool_decide (res_mode r = mode)
  && negb (blank (res_symbol r)) && positive (res_notional r)
  && opt_ok identifier (res_executionId r).

Definition claims_ok (mode : TradingMode) (rs : obj RiskReservationState) : Prop :=
  o_sorted rs /\ forall k r, In (k, r) rs -> claim_ok mode k r = true.

Definition blocks_valid (o : obj bool) : bool :=
  forallb (fun p => identifier (fst p) && snd p) o.

(** A usage record whose aggregate may not agree with its claims yet. *)
Definition usage_shape (mode : TradingMode) (u : RiskUsageState) (reserved : number)
    (rs : obj RiskReservationState) : Prop :=
  isoDay (u_date u) = true /\ nonneg (u_usedDailyNotional u) = true /\
  opt_ok blocks_valid (u_executionBlocks u) = true /\
  u_reservedDailyNotional u = Some reserved /\ nonneg reserved = true /\
  u_reservations u = Some rs /\ claims_ok mode rs.

(** A normalised usage record: the aggregate is the sum of the claims. *)
Definition usage_normal (mode : TradingMode) (u : RiskUsageState) : Prop :=
  exists reserved rs, usage_shape mode u reserved rs /\ sumReservations rs = Ok reserved.

Definition audit_normal (s : TradingRiskState) : Prop :=
  forall a, st_audit s = Some a -> isTradingAuditState (audit_value a) = true.

Definition state_normal (s : TradingRiskState) : Prop :=
  usage_normal Paper (st_paper s) /\ usage_normal Live (st_live s) /\ audit_normal s.

Lemma finiteNonNegative_Ok n id r : finiteNonNegative n id = Ok r <-> nonneg n = true /\ r = n.
Proof.
  unfold finiteNonNegative, nonneg. destruct (isFinite n) eqn:E; cbn [negb orb andb]; [|by split; [|intros []]].
  assert ((n <? 0) = false <-> (0 <=? n) = true) as H by (apply not_ltb_iff; eauto with ti).
  destruct (n <? 0); split; try done; intuition congruence.
Qed.

Lemma finitePositive_Ok n id r : finitePositive n id = Ok r <-> positive n = true /\ r = n.
Proof.
  unfold finitePositive, positive. destruct (isFinite n) eqn:E; cbn [negb orb andb]; [|by split; [|intros []]].
  assert ((n <=? 0) = false <-> (0 <? n) = true) as H by (apply not_leb_iff; eauto with ti).
  destruct (n <=? 0); split; try done; intuition congruence.
Qed.

(** [addition] returns the rounded sum of two finite non-negative numbers, or throws. *)
Lemma addition_Ok a b id r :
  addition a b id = Ok r <-> nonneg a = true /\ nonneg b = true /\ r = a + b /\ nonneg r = true.
Proof.
  unfold addition. split.
  - intros H. apply bind_Ok in H as (x & [Ha ->]%finiteNonNegative_Ok & H).
    apply bind_Ok in H as (y & [Hb ->]%finiteNonNegative_Ok & H). cbv zeta in H.
    destruct (negb (isFinite (a + b)) || (a + b <? 0)) eqn:E; [done|]. injection H as <-.
    bool_hyps. split_and!; [done..|]. unfold nonneg.
    apply andb_true_iff. split; [done|]. apply ltb_false_leb; eauto with ti.
  - intros (Ha & Hb & -> & Hr).
    apply bind_Ok. exists a. split; [by apply finiteNonNegative_Ok|].
    apply bind_Ok. exists b. split; [by apply finiteNonNegative_Ok|].
    unfold nonneg in Hr. apply andb_true_iff in Hr as [E Hr]. cbv zeta. rewrite E. cbn [negb orb].
    by rewrite (proj2 (not_ltb_iff (a + b) 0 ltac:(eauto with ti) finite_zero) Hr).
Qed.

Lemma positive_nonneg n : positive n = true -> nonneg n = true.
Proof.
  unfold positive, nonneg. intros H. bool_hyps. apply andb_true_iff. eauto with ti.
Qed.

(** A number is within the tolerance of itself. *)
Lemma approximatelyEqual_refl n : nonneg n = true -> approximatelyEqual n n = true.
Proof.
  unfold nonneg. intros H. bool_hyps. unfold approximatelyEqual, epsilon.
  assert ((Math_abs (n - n) <=? 0) = true) as H1.
  { unfold Math_abs. rewrite FloatAxioms.leb_spec, abs_spec, sub_self by done. reflexivity. }
  assert (isFinite (Math_max (Math_max 1 (Math_abs n)) (Math_abs n)) = true) as H2
    by (repeat apply Math_max_isFinite; rewrite ?abs_isFinite; done).
  eapply leb_trans; [exact H1|]. apply mul_nonneg; [reflexivity|done|reflexivity|].
  apply (leb_trans _ (Math_abs n)); [apply abs_nonneg; eauto with ti|].
  apply Math_max_r; auto using isFinite_notNaN.
  - apply isFinite_notNaN, Math_max_isFinite; rewrite ?abs_isFinite; done.
  - apply isFinite_notNaN. by rewrite abs_isFinite.
Qed.

(** ** The normalisers on run-time objects *)

(** The properties of a claim's object. *)
Lemma reservation_props r :
  prop "id" (reservation_value r) = VStr (res_id r) /\
  prop "mode" (reservation_value r) = VStr (mode_name (res_mode r)) /\
  prop "symbol" (reservation_value r) = VStr (res_symbol r) /\
  prop "notional" (reservation_value r) = VNum (res_notional r) /\
  prop "executionId" (reservation_value r) =
    match res_executionId r with Some x => VStr x | None => VUndefined end.
Proof. unfold reservation_value. by destruct (res_executionId r). Qed.

Lemma validateReservation_value mode key r :
  claim_ok mode key r = true -> validateReservationState (reservation_value r) key mode = Ok r.
Proof.
  unfold claim_ok. intros H. bool_hyps.
  repeat match goal with E : String.eqb _ _ = true |- _ => apply String.eqb_eq in E
    | E : bool_decide _ = true |- _ => apply bool_decide_eq_true in E end.
  unfold validateReservationState.
  destruct (reservation_props r) as (-> & -> & -> & -> & ->).
  destruct r as [i mo s n ex]; cbn [res_id res_mode res_symbol res_notional res_executionId] in *.
  subst i mo. cbn [isString isRecord reservation_value isLit str_or positive_value].
  rewrite throwIf_pass by reflexivity.
  rewrite throwIf_pass by (rewrite String.eqb_refl;
    match goal with E : String.eqb key "" = false |- _ => by rewrite E end).
  rewrite throwIf_pass by by rewrite String.eqb_refl.
  rewrite throwIf_pass by by match goal with E : blank s = false |- _ => rewrite E end.
  rewrite (Ok_pass _ n) by (by apply finitePositive_Ok).
  rewrite throwIf_pass by (destruct ex as [x|]; [|done]; cbn -[identifier] in *;
    match goal with E : identifier x = true |- _ => by rewrite E end).
  by destruct ex.
Qed.

Lemma validateReservation_Ok v key mode r :
  validateReservationState v key mode = Ok r -> claim_ok mode key r = true.
Proof.
  unfold validateReservationState. intros H. inv_ok. bool_hyps. unfold claim_ok.
  cbn [res_id res_mode res_symbol res_notional res_executionId].
  destruct (prop "id" v) as [| | | |i| |]; try discriminate.
  destruct (prop "symbol" v) as [| | | |s| |]; try discriminate.
  cbn [isString str_or] in *. bool_hyps.
  match goal with E : String.eqb i key = true |- _ =>
    pose proof E as E'; apply String.eqb_eq in E'; subst i end.
  destruct (prop "notional" v) as [| | |n| | |]; try discriminate. cbn [positive_value] in *.
  match goal with E : finitePositive n key = Ok _ |- _ =>
    apply finitePositive_Ok in E as [Hp ->] end.
  rewrite String.eqb_refl, Hp, bool_decide_eq_true_2 by done. cbn [andb].
  repeat match goal with E : _ = _ |- _ => rewrite E end. cbn [negb andb].
  destruct (prop "executionId" v) as [| | | |x| |]; try done.
Qed.

Lemma readReservations_acc mode rs acc :
  o_sorted (app acc rs) -> (forall k r, In (k, r) rs -> claim_ok mode k r = true) ->
  foldM (fun acc p => r ← validateReservationState (snd p) (fst p) mode; Ok (o_set (fst p) r acc))
    acc (map (fun p => (fst p, reservation_value (snd p))) rs) = Ok (app acc rs).
Proof.
  revert acc. induction rs as [|[k r] rs IH]; intros acc Hs Hc; cbn [map foldM fst snd].
  - by rewrite app_nil_r.
  - rewrite validateReservation_value by (apply Hc; by left). cbn [mbind result_bind].
    rewrite o_set_last.
    + rewrite IH; [by rewrite <- app_assoc|by rewrite <- app_assoc|].
      intros k' r' H. apply Hc. by right.
    + intros j Hj. split.
      * intros ->. destruct (o_sorted_app _ _ Hs k k Hj (or_introl eq_refl)). done.
      * by destruct (o_sorted_app _ _ Hs j k Hj (or_introl eq_refl)).
Qed.

Lemma readReservations_value mode rs :
  claims_ok mode rs -> readReservations mode (entries_of (obj_value reservation_value rs)) = Ok rs.
Proof. intros [Hs Hc]. apply (readReservations_acc mode rs []); done. Qed.

Lemma readReservations_Ok mode entries rs : readReservations mode entries = Ok rs -> claims_ok mode rs.
Proof.
  unfold readReservations. apply foldM_inv; [|split; [done|by intros]].
  intros acc [k v] acc' [Hs Hc] _ H. cbn [fst snd] in H. inv_ok. split; [by apply o_set_sorted|].
  intros k' r' [[= -> ->]|Hin]%o_set_In; [|auto]. by eapply validateReservation_Ok.
Qed.

Definition opt_value {A} (f : A -> value) (o : option A) : value :=
  match o with Some a => f a | None => VUndefined end.

Lemma usage_props u :
  prop "date" (usage_value u) = VStr (u_date u) /\
  prop "usedDailyNotional" (usage_value u) = VNum (u_usedDailyNotional u) /\
  prop "reservedDailyNotional" (usage_value u) = opt_value VNum (u_reservedDailyNotional u) /\
  prop "reservations" (usage_value u) = opt_value (obj_value reservation_value) (u_reservations u) /\
  prop "executionBlocks" (usage_value u) = opt_value (obj_value VBool) (u_executionBlocks u).
Proof.
  unfold usage_value.
  by destruct (u_reservedDailyNotional u), (u_reservations u), (u_executionBlocks u).
Qed.

Lemma blocks_ok_value o : blocks_ok (obj_value VBool o) = blocks_valid o.
Proof.
  unfold blocks_ok, blocks_valid, obj_value. cbn [isRecord entries_of andb].
  induction o as [|[k b] o IH]; cbn -[identifier]; [done|]. rewrite IH. by destruct b.
Qed.

Lemma read_blocks_value o :
  blocks_valid o = true -> read_blocks (obj_value VBool o) = Some o.
Proof.
  unfold blocks_valid, read_blocks, obj_value. cbn [defined entries_of]. intros H. f_equal.
  induction o as [|[k b] o IH]; cbn -[identifier] in *; [done|]. bool_hyps. subst b.
  f_equal. auto.
Qed.

(** The record a draft is normalised to: only its aggregate is recomputed. *)
Definition with_reserved (u : RiskUsageState) (sum : number) : RiskUsageState :=
  {| u_date := u_date u; u_usedDailyNotional := u_usedDailyNotional u;
     u_reservedDailyNotional := Some sum; u_reservations := u_reservations u;
     u_executionBlocks := u_executionBlocks u |}.

Lemma normalizedUsage_eval mode u reserved rs :
  usage_shape mode u reserved rs ->
  normalizedUsage (usage_value u) mode =
  (sum ← sumReservations rs;
   _ ← throwIf (negb (approximatelyEqual sum reserved))
         (StateError (default STATE_ERROR_ID (head (o_keys rs))) SumMismatch);
   Ok (with_reserved u sum)).
Proof.
  intros (Hd & Hu & Hb & Hr & Hn & Hrs & Hc). unfold normalizedUsage.
  destruct (usage_props u) as (-> & -> & -> & -> & ->). rewrite Hr, Hrs.
  cbn [isString opt_value defined isRecord str_or nonNegative_value obj_value negb].
  rewrite throwIf_pass by done. rewrite throwIf_pass by by rewrite Hd.
  rewrite (Ok_pass _ (u_usedDailyNotional u)) by (by apply finiteNonNegative_Ok).
  rewrite throwIf_pass by (destruct (u_executionBlocks u) as [o|]; [|done];
    cbn [optional opt_value defined negb orb opt_ok] in *; unfold optional; cbn [defined negb orb opt_value];
    by rewrite blocks_ok_value, Hb).
  rewrite (Ok_pass _ reserved) by (by apply finiteNonNegative_Ok).
  rewrite throwIf_pass by done.
  rewrite (Ok_pass _ rs) by (by apply readReservations_value).
  destruct (sumReservations rs) as [sum|e]; [|done]. cbn [mbind result_bind].
  rewrite throwIf_pass by done. destruct (throwIf _ _); [|done]. cbn.
  unfold with_reserved. rewrite Hrs. do 2 f_equal.
  destruct (u_executionBlocks u) as [o|]; [|done]. by apply read_blocks_value.
Qed.

Lemma sumReservations_nonneg rs sum : sumReservations rs = Ok sum -> nonneg sum = true.
Proof.
  unfold sumReservations. apply (foldM_inv (fun n => nonneg n = true)); [|reflexivity].
  intros a x b _ _ H. apply addition_Ok in H. tauto.
Qed.

(** Normal forms are fixed points. *)
Lemma normalizedUsage_normal mode u :
  usage_normal mode u -> normalizedUsage (usage_value u) mode = Ok u.
Proof.
  intros (reserved & rs & Hs & Hsum). rewrite (normalizedUsage_eval _ _ _ _ Hs), Hsum.
  cbn [mbind result_bind]. rewrite throwIf_pass
    by by rewrite approximatelyEqual_refl by by eapply sumReservations_nonneg.
  destruct Hs as (_ & _ & _ & Hr & _). unfold with_reserved. rewrite <- Hr. by destruct u.
Qed.

Lemma read_blocks_valid v o : blocks_ok v = true -> read_blocks v = Some o -> blocks_valid o = true.
Proof.
  unfold blocks_ok, read_blocks, blocks_valid. destruct v; try done. cbn. intros H [= <-].
  rewrite forallb_forall in H |- *. intros p (q & <- & Hq)%in_map_iff.
  specialize (H q Hq). bool_hyps. cbn. by rewrite andb_true_r.
Qed.

(** Whatever is normalised is in normal form. *)
Lemma normalizedUsage_Ok v mode u : normalizedUsage v mode = Ok u -> usage_normal mode u.
Proof.
  unfold normalizedUsage. intros H. inv_ok. bool_hyps.
  match goal with Hrs : readReservations _ _ = Ok ?rs, Hs : sumReservations ?rs = Ok ?s |- _ =>
    exists s, rs; split; [|exact Hs]; pose proof (sumReservations_nonneg _ _ Hs);
    pose proof (readReservations_Ok _ _ _ Hrs) end.
  destruct (prop "date" v) as [| | | |d| |]; try discriminate.
  destruct (prop "usedDailyNotional" v) as [| | |n| | |]; try discriminate.
  cbn [nonNegative_value isString] in *.
  match goal with E : finiteNonNegative n _ = Ok _ |- _ => apply finiteNonNegative_Ok in E as [? ->] end.
  unfold usage_shape. cbn -[isoDay nonneg identifier]. split_and!; try done.
  unfold optional in *. destruct (read_blocks _) as [o|] eqn:Eb; [|done]. cbn.
  destruct (defined (prop "executionBlocks" v)) eqn:Ed; cbn in *;
    [|unfold read_blocks in Eb; rewrite Ed in Eb; done].
  by eapply read_blocks_valid.
Qed.

(** ** What normalising a typed draft keeps *)

Lemma validateReservation_inv r key mode r' :
  validateReservationState (reservation_value r) key mode = Ok r' -> r' = r.
Proof.
  unfold validateReservationState. destruct (reservation_props r) as (-> & -> & -> & -> & ->).
  intros H. inv_ok. bool_hyps. cbn [str_or positive_value isLit isString] in *.
  match goal with E : finitePositive _ _ = Ok _ |- _ => apply finitePositive_Ok in E as [_ ->] end.
  destruct r as [i mo sy n ex]. cbn in *.
  assert (mo = mode) as -> by (destruct mo, mode; done). by destruct ex.
Qed.

Lemma readReservations_keeps mode rs acc rs' :
  o_sorted (app acc rs) ->
  foldM (fun acc p => r ← validateReservationState (snd p) (fst p) mode; Ok (o_set (fst p) r acc))
    acc (map (fun p => (fst p, reservation_value (snd p))) rs) = Ok rs' ->
  rs' = app acc rs.
Proof.
  revert acc. induction rs as [|[k r] rs IH]; intros acc Hs; cbn [map foldM fst snd].
  - intros [= <-]. by rewrite app_nil_r.
  - destruct (validateReservationState _ _ _) as [r'|e] eqn:E; [|done]. cbn [mbind result_bind].
    apply validateReservation_inv in E as ->. intros H. rewrite o_set_last in H.
    + apply IH in H; [by rewrite <- app_assoc in H|by rewrite <- app_assoc].
    + intros j Hj. by destruct (o_sorted_app _ _ Hs j k Hj (or_introl eq_refl)).
Qed.

(** The claims of a usage record, [usage.reservations ?? {}]. *)
Definition usage_claims (u : RiskUsageState) : obj RiskReservationState := default [] (u_reservations u).

Lemma normalizedUsage_keeps u mode u' :
  normalizedUsage (usage_value u) mode = Ok u' -> o_sorted (usage_claims u) ->
  u_date u' = u_date u /\ u_usedDailyNotional u' = u_usedDailyNotional u /\
  usage_claims u' = usage_claims u /\ u_executionBlocks u' = u_executionBlocks u.
Proof.
  unfold normalizedUsage. destruct (usage_props u) as (-> & -> & -> & -> & ->). intros H Hso. inv_ok.
  bool_hyps. cbn [u_date u_usedDailyNotional u_executionBlocks str_or nonNegative_value] in *.
  match goal with E : finiteNonNegative _ _ = Ok _ |- _ => apply finiteNonNegative_Ok in E as [_ ->] end.
  split_and!; try done.
  - unfold usage_claims in *. cbn [u_reservations default]. destruct (u_reservations u) as [rs|];
      cbn [opt_value default] in *;
      match goal with E : readReservations _ _ = Ok _ |- _ => unfold readReservations in E end.
    + by eapply (readReservations_keeps mode rs []).
    + match goal with E : foldM _ _ _ = Ok _ |- _ => by injection E end.
  - destruct (u_executionBlocks u) as [o|]; [|done]. cbn [opt_value]. apply read_blocks_value.
    unfold optional in *. cbn [opt_value] in *. rewrite <- blocks_ok_value.
    by match goal with E : orb _ (blocks_ok _) = true |- _ => apply orb_true_iff in E as [E|E] end.
Qed.

(** ** Normalising whole states *)

Lemma state_props s :
  prop "audit" (state_value s) = opt_value audit_value (st_audit s) /\
  prop "accountRisk" (state_value s) = opt_value (obj_value accountRisk_value) (st_accountRisk s) /\
  prop "paper" (state_value s) = usage_value (st_paper s) /\
  prop "live" (state_value s) = usage_value (st_live s).
Proof. unfold state_value. by destruct (st_audit s), (st_accountRisk s). Qed.

(** The account-risk part of a state passes its validator. *)
Definition accountRisk_valid (s : TradingRiskState) : Prop :=
  forall o, st_accountRisk s = Some o ->
    validateAccountRiskStates (obj_value accountRisk_value o) = Ok tt.

Definition without_account (s : TradingRiskState) : TradingRiskState := cloneState s.

Lemma normalizedState_eval s :
  audit_normal s -> accountRisk_valid s ->
  normalizedState s =
  (paper ← normalizedUsage (usage_value (st_paper s)) Paper;
   live ← normalizedUsage (usage_value (st_live s)) Live;
   Ok {| st_paper := paper; st_live := live; st_audit := st_audit s; st_accountRisk := None |}).
Proof.
  intros Ha Hr. unfold normalizedState. cbv zeta.
  destruct (state_props s) as (-> & -> & -> & ->).
  rewrite throwIf_pass
    by (destruct (st_audit s) as [a|] eqn:E; [|done]; cbn [opt_value]; by rewrite (Ha a E), andb_false_r).
  rewrite (Ok_pass _ tt); [done|].
  destruct (st_accountRisk s) as [o|] eqn:E; [|done]. cbn. by apply Hr.
Qed.

Lemma normalizedState_normal s :
  state_normal s -> accountRisk_valid s -> normalizedState s = Ok (cloneState s).
Proof.
  intros (Hp & Hl & Ha) Hr. rewrite normalizedState_eval by done.
  by rewrite (normalizedUsage_normal _ _ Hp), (normalizedUsage_normal _ _ Hl).
Qed.

Lemma normalizedState_Ok s s' :
  normalizedState s = Ok s' ->
  state_normal s' /\ accountRisk_valid s /\ st_audit s' = st_audit s /\ st_accountRisk s' = None.
Proof.
  unfold normalizedState. cbv zeta. destruct (state_props s) as (-> & -> & -> & ->).
  rewrite bind_Ok. intros (u & Ha%throwIf_Ok & H). apply bind_Ok in H as (u' & Hac & H).
  apply bind_Ok in H as (paper & Hp%normalizedUsage_Ok & H).
  apply bind_Ok in H as (live & Hl%normalizedUsage_Ok & H). injection H as <-.
  split_and!; [split_and!; [done..|]| |done|done].
  - intros a Ea. cbn [st_audit] in Ea. rewrite Ea in Ha. by apply negb_false_iff in Ha.
  - intros o Eo. rewrite Eo in Hac. destruct u'. exact Hac.
Qed.

Lemma normalizedState_usage s s' m :
  normalizedState s = Ok s' -> normalizedUsage (usage_value (usage_of m s)) m = Ok (usage_of m s').
Proof.
  unfold normalizedState. cbv zeta. destruct (state_props s) as (-> & -> & -> & ->).
  rewrite bind_Ok. intros (u & _ & H). apply bind_Ok in H as (u' & _ & H).
  apply bind_Ok in H as (paper & Hp & H). apply bind_Ok in H as (live & Hl & H). injection H as <-.
  by destruct m.
Qed.

(** ** The audit history *)

Definition settlement_valid (s : Settlement) : bool :=
  nonneg (set_notional s)
  && (negb (bool_decide (set_outcome s = Release)) || (set_notional s =? 0)).

Definition event_valid (e : TradingAuditEvent) : bool :=
  identifier (ev_id e) && iso (ev_at e) && opt_ok identifier (ev_executionId e)
  && opt_ok actionCode (ev_action e) && opt_ok identifier (ev_evidenceReference e)
  && opt_ok settlement_valid (ev_settlement e).

Definition audit_valid (a : TradingAuditState) : bool :=
  (length (au_events a) <=? AUDIT_HISTORY_LIMIT)%nat && forallb event_valid (au_events a).

Lemma event_props e :
  prop "id" (event_value e) = VStr (ev_id e) /\
  prop "at" (event_value e) = VStr (ev_at e) /\
  prop "kind" (event_value e) = VStr (kind_name (ev_kind e)) /\
  prop "mode" (event_value e) = VStr (mode_name (ev_mode e)) /\
  prop "executionId" (event_value e) = opt_value VStr (ev_executionId e) /\
  prop "action" (event_value e) = opt_value VStr (ev_action e) /\
  prop "evidenceReference" (event_value e) = opt_value VStr (ev_evidenceReference e) /\
  prop "settlement" (event_value e) = opt_value settlement_value (ev_settlement e).
Proof.
  unfold event_value.
  by destruct (ev_executionId e), (ev_action e), (ev_evidenceReference e), (ev_settlement e).
Qed.

Lemma settlement_ok_value s : settlement_ok (settlement_value s) = settlement_valid s.
Proof.
  unfold settlement_ok, settlement_valid, nonneg, settlement_value.
  destruct s as [[|] n]; cbn -[isFinite PrimFloat.leb PrimFloat.eqb]; by rewrite ?andb_true_r.
Qed.

Lemma event_keys e :
  only_keys ["id"; "at"; "kind"; "mode"; "executionId"; "action"; "evidenceReference";
             "settlement"]%string (event_value e) = true.
Proof.
  unfold event_value.
  by destruct (ev_executionId e), (ev_action e), (ev_evidenceReference e), (ev_settlement e).
Qed.

Lemma optional_value {A} (p : value -> bool) (q : A -> bool) (f : A -> value) (o : option A) :
  (forall a, defined (f a) = true) -> (forall a, p (f a) = q a) ->
  optional p (opt_value f o) = opt_ok q o.
Proof.
  intros Hd Hq. destruct o as [a|]; cbn; [|done]. unfold optional. by rewrite Hd, Hq.
Qed.

Lemma event_ok_value e : event_ok (event_value e) = event_valid e.
Proof.
  unfold event_ok, event_valid. rewrite event_keys.
  destruct (event_props e) as (-> & -> & -> & -> & -> & -> & -> & ->).
  rewrite (optional_value _ identifier), (optional_value _ actionCode),
    (optional_value _ identifier), (optional_value _ settlement_valid) by
    (done || apply settlement_ok_value).
  cbn [isRecord event_value isString andb].
  replace (literal_in auditKinds (VStr (kind_name (ev_kind e)))) with true by by destruct (ev_kind e).
  replace (isLit "paper" (VStr (mode_name (ev_mode e))) || isLit "live" (VStr (mode_name (ev_mode e))))
    with true by by destruct (ev_mode e).
  by rewrite !andb_true_r.
Qed.

Lemma isTradingAuditState_value a : isTradingAuditState (audit_value a) = audit_valid a.
Proof.
  unfold isTradingAuditState, audit_value, audit_valid.
  change (prop "version" _) with (VNum 1).
  change (prop "events" _) with (VArr (map event_value (au_events a))).
  cbn [isRecord isNumber isArray andb]. change (1 =? 1) with true. cbn [andb].
  rewrite length_map. f_equal. induction (au_events a) as [|e l IH]; cbn [map forallb]; [done|].
  by rewrite event_ok_value, IH.
Qed.

Definition events_of (s : TradingRiskState) : list TradingAuditEvent :=
  match st_audit s with Some a => au_events a | None => [] end.

(** A valid event is appended to a valid history, whose oldest events are dropped. *)
Lemma append_eval id event at_ s :
  audit_normal s -> event_valid (event id at_) = true ->
  let a := {| au_events := lastN AUDIT_HISTORY_LIMIT (app (events_of s) [event id at_]) |} in
  appendTradingAuditEvent id event at_ s = Ok (set_audit (Some a) s) /\ audit_valid a = true.
Proof.
  intros Ha He a.
  assert (forallb event_valid (events_of s) = true) as Hev.
  { unfold events_of. destruct (st_audit s) as [b|] eqn:E; [|done].
    specialize (Ha b E). rewrite isTradingAuditState_value in Ha. unfold audit_valid in Ha.
    by bool_hyps. }
  assert (audit_valid a = true) as Hv.
  { unfold audit_valid, a. cbn [au_events]. apply andb_true_iff. split.
    - apply Nat.leb_le. rewrite length_lastN. lia.
    - eapply forallb_incl; [apply lastN_incl|]. rewrite forallb_app, Hev. cbn. by rewrite He. }
  split; [|done]. unfold appendTradingAuditEvent. rewrite throwIf_pass
    by (destruct (st_audit s) as [b|] eqn:E; [|done]; by rewrite (Ha b E)).
  cbv zeta. fold (events_of s). fold a. rewrite throwIf_pass; [done|].
  by rewrite isTradingAuditState_value, Hv.
Qed.

Lemma append_Ok id event at_ s s' :
  appendTradingAuditEvent id event at_ s = Ok s' ->
  exists a, s' = set_audit (Some a) s /\ audit_valid a = true /\
    au_events a = lastN AUDIT_HISTORY_LIMIT (app (events_of s) [event id at_]).
Proof.
  unfold appendTradingAuditEvent. intros H. inv_ok. bool_hyps.
  eexists. split; [done|]. split; [|done]. by rewrite <- isTradingAuditState_value.
Qed.

(** Normalising is idempotent: a state in normal form whose account-risk part is
    valid is accepted and comes back unchanged (without that part), and whatever
    [normalizedState] returns is in normal form, with the audit history intact. *)
Theorem normal_form_is_kept s :
  (state_normal s -> accountRisk_valid s -> normalizedState s = Ok (cloneState s)) /\
  forall s', normalizedState s = Ok s' ->
    state_normal s' /\ st_audit s' = st_audit s /\ normalizedState s' = Ok s'.
Proof.
  split; [apply normalizedState_normal|]. intros s' (Hn & _ & Ha & Hc)%normalizedState_Ok.
  split_and!; [done..|]. rewrite normalizedState_normal; [|done|by intros o; rewrite Hc].
  destruct s'; cbn in *. by subst.
Qed.

Lemma normal_form_is_kept_witness :
  let u := {| u_date := "2024-01-01"; u_usedDailyNotional := 25; u_reservedDailyNotional := Some 0;
              u_reservations := Some []; u_executionBlocks := None |} in
  let s := {| st_paper := u; st_live := u; st_audit := None; st_accountRisk := None |} in
  normalizedState s = Ok s.
Proof.
  cbv zeta. refine (proj1 (normal_form_is_kept _) _ _); [|by intros o].
  split_and!; [| |by intros]; exists 0, []; (split; [|reflexivity]); split_and!; try reflexivity; by intros.
Defined.
