(* ===== verification/RiskLedger.v ===== *)
(** * The risk ledger (packages/trading-risk/src/risk.ts, class RiskLedger)

    Quota and in-flight reservation accounting over an atomic state store.  The
    store is the interface [RiskStateStore]; what the ledger relies on is the
    class [RiskStateStoreLaws], and the ledger's theorems are proved against it.
    Two stores discharge it: one that always commits, and one that follows a
    script of faults, among them a write that succeeds and still reports failure.

    The field [this.state] of the class is only ever assigned; it is left out. *)

From Stdlib Require Import ZArith Lia Bool Ascii Floats.
From stdpp Require Import base strings option list.
From S2P Require Import Prelude JsNumber JsObject JsDate JsValue AccountRisk RiskState.

Local Open Scope float_scope.

(** ** The store *)

(** [load()] and [transact(mutator)].  A mutator changes the state it is given
    in place and may throw: it is a function to a result and the changed state. *)
Class RiskStateStore (W : Type) := {
  store_load : W -> result RiskError TradingRiskState;
  store_transact : forall T : Type,
    (TradingRiskState -> result RiskError (T * TradingRiskState)) -> ST W RiskError T
}.
Arguments store_transact {W _ T}.

(** Errors a store raises on its own account. *)
Definition store_error (e : RiskError) : Prop := forall c, e <> MutationAbort c.

(** The outcomes of an atomic transaction over states of type [S]: the mutation is
    committed, or its exception aborts it, or the store refuses before or after
    writing, with an error of its [own]. *)
Inductive transacted {S E T : Type} (own : E -> Prop) (f : S -> result E (T * S))
    (before after : result E S) : result E T -> Prop :=
  | Committed s t s' :
      before = Ok s -> f s = Ok (t, s') -> after = Ok s' -> transacted own f before after (Ok t)
  | Aborted s e :
      before = Ok s -> f s = Throw e -> after = before -> transacted own f before after (Throw e)
  | Refused e : own e -> after = before -> transacted own f before after (Throw e)
  | Uncertain s t s' e :
      before = Ok s -> f s = Ok (t, s') -> after = Ok s' -> own e ->
      transacted own f before after (Throw e).

Class RiskStateStoreLaws (W : Type) {H : RiskStateStore W} := {
  transact_spec : forall (T : Type) (f : TradingRiskState -> result RiskError (T * TradingRiskState)) w,
    transacted store_error f (store_load w) (store_load (snd (store_transact f w))) (fst (store_transact f w))
}.

(** A store in memory. *)
#[export] Instance memory_store : RiskStateStore TradingRiskState := {
  store_load w := Ok w;
  store_transact T f w :=
    match f w with Ok (t, w') => (Ok t, w') | Throw e => (Throw e, w) end
}.

#[export] Instance memory_store_laws : RiskStateStoreLaws TradingRiskState.
Proof.
  constructor. intros T f w. cbn. destruct (f w) as [[t w']|e] eqn:E; cbn.
  - by eapply Committed.
  - by eapply Aborted.
Qed.

(** A store whose transactions fail as a script says. *)
Inductive Fault := NoFault | LockFails | WriteFails | FailsAfterWrite.
Record FaultyStore := { fs_disk : TradingRiskState; fs_script : list Fault }.

#[export] Instance faulty_store : RiskStateStore FaultyStore := {
  store_load w := Ok (fs_disk w);
  store_transact T f w :=
    let rest := {| fs_disk := fs_disk w; fs_script := tl (fs_script w) |} in
    match hd NoFault (fs_script w) with
    | LockFails => (Throw StoreFailure, rest)
    | fault =>
        match f (fs_disk w) with
        | Throw e => (Throw e, rest)
        | Ok (t, s') =>
            let done := {| fs_disk := s'; fs_script := tl (fs_script w) |} in
            match fault with
            | WriteFails => (Throw StoreFailure, rest)
            | FailsAfterWrite => (Throw StoreFailure, done)
            | _ => (Ok t, done)
            end
        end
    end
}.

#[export] Instance faulty_store_laws : RiskStateStoreLaws FaultyStore.
Proof.
  constructor. intros T f [d l]. cbn.
  assert (store_error StoreFailure) by (by intros c).
  destruct (hd NoFault l); cbn; [..|destruct (f d) as [[t s']|e] eqn:E; cbn];
    try (destruct (f d) as [[t s']|e] eqn:E; cbn);
    eauto using Committed, Aborted, Refused, Uncertain.
Qed.

(** ** The clock *)

(** [today()]; [now] is the clock's reading, a time value beyond the range of
    [Date] standing for an invalid date. *)
Definition today (now : Z) : result RiskError string :=
  _ ← throwIf (negb (validTime now)) (PlainError InvalidClock); Ok (isoDate now).

(** ** Transactions *)

Section Ledger.
Context {W : Type} `{RiskStateStore W}.

(** [apply]: normalise, mutate, normalise the draft, copy it into the raw state. *)
Definition apply {T : Type} (mutator : TradingRiskState -> result RiskError (T * TradingRiskState))
    (raw : TradingRiskState) : result RiskError (T * TradingRiskState) :=
  draft ← normalizedState raw;
  p ← mapError MutationAbort (mutator draft);
  normalized ← normalizedState (snd p);
  Ok (fst p, copyStateInto raw normalized).

Definition ledger_transact {T : Type}
    (mutator : TradingRiskState -> result RiskError (T * TradingRiskState)) : ST W RiskError T :=
  fun w =>
    match store_transact (apply mutator) w with
    | (Throw (MutationAbort cause), w') => (Throw cause, w')
    | (Throw (PersistenceError cause), w') => (Throw (PersistenceError cause), w')
    | (Throw e, w') => (Throw (PersistenceError e), w')
    | (Ok t, w') => (Ok t, w')
    end.

Definition loadLatest : ST W RiskError TradingRiskState :=
  reads (fun w => s ← store_load w; normalizedState s).

(** Live usage starts a new day with the in-flight claims carried over. *)
Definition refreshDraft (now : Z) (mode : TradingMode) (state : TradingRiskState) :
    result RiskError TradingRiskState :=
  match mode with
  | Paper => Ok state
  | Live =>
      date ← today now;
      let current := st_live state in
      if String.eqb (u_date current) date then Ok state
      else Ok (set_usage Live
                 {| u_date := date; u_usedDailyNotional := 0;
                    u_reservedDailyNotional := Some (default 0 (u_reservedDailyNotional current));
                    u_reservations := Some (default [] (u_reservations current));
                    u_executionBlocks := u_executionBlocks current |} state)
  end.

Definition refresh (now : Z) (mode : TradingMode) : ST W RiskError unit :=
  match mode with
  | Paper => mret tt
  | Live =>
      date ← lift (today now);
      s ← loadLatest;
      if String.eqb (u_date (st_live s)) date then mret tt
      else ledger_transact (fun s => s' ← refreshDraft now mode s; Ok (tt, s'))
  end.

(** ** Operations *)

(** [new RiskLedger(config, store)]: the configuration is validated, then the state is loaded. *)
Definition newLedger (config : RiskConfig) : ST W RiskError RiskConfig :=
  config ← lift (validateConfig config); _ ← loadLatest; mret config.

Definition setConfig (current config : RiskConfig) : result RiskError RiskConfig :=
  next ← validateConfig config;
  _ ← throwIf (negb (bool_decide (rc_mode next = rc_mode current))
               || negb (bool_decide (rc_marketType next = rc_marketType current))
               || negb (String.eqb (rc_quoteCurrency next) (rc_quoteCurrency current)))
        (PlainError LedgerIdentity);
  Ok next.

Definition block_ids (u : RiskUsageState) : list string :=
  o_keys (default [] (u_executionBlocks u)).

(** Some execution of either mode is unresolved. *)
Definition exposure_blocked (state : TradingRiskState) : bool :=
  existsb (fun u => (0 <? length (block_ids u))%nat) [st_paper state; st_live state].

Definition assertNewExposureAllowed (exceptExecutionId : option string) : ST W RiskError unit :=
  state ← loadLatest;
  lift (throwIf
    (existsb (fun u => existsb (fun id => negb (bool_decide (Some id = exceptExecutionId))) (block_ids u))
       [st_paper state; st_live state])
    (PlainError UnresolvedExecutions)).

Definition validateOrder (config : RiskConfig) (symbol : string) (notional : number) (increasing : bool) :
    option Refusal :=
  let risk := rc_risk config in
  if negb (validateTradingSymbol symbol (rc_marketType config) (rc_quoteCurrency config)) then Some BadSymbol
  else if negb (isFinite notional) || (notional <=? 0) then Some BadNotional
  else if negb increasing then None
  else if (0 <? length (allowedSymbols risk))%nat && negb (str_in (allowedSymbols risk) symbol)
  then Some SymbolNotAllowed
  else if maxOrderNotional risk <? notional then Some AboveMaxOrder
  else None.

(** The usage an order of this notional would bring. *)
Definition dailyTotal (usage : RiskUsageState) (notional : number) : result RiskError number :=
  current ← addition (u_usedDailyNotional usage) (default 0 (u_reservedDailyNotional usage)) STATE_ERROR_ID;
  addition current notional STATE_ERROR_ID.

Definition check (config : RiskConfig) (now : Z) (symbol : string) (notional : number) (count : bool) :
    ST W RiskError (option Refusal) :=
  match validateOrder config symbol notional count with
  | Some e => mret (Some e)
  | None =>
      if negb count then mret None else
      let mode := rc_mode config in
      _ ← refresh now mode;
      state ← loadLatest;
      if exposure_blocked state then mret (Some UnresolvedExecutions) else
      total ← lift (dailyTotal (usage_of mode state) notional);
      mret (if maxDailyNotional (rc_risk config) <? total then Some AboveMaxDaily else None)
  end.

(** The handle [reserve] returns: the closure's variables and its [finalized] flag. *)
Record RiskReservation := {
  h_id : string;
  h_mode : TradingMode;
  h_symbol : string;
  h_notional : number;
  h_count : bool;
  h_finalized : bool
}.

Definition createReservation (id : string) (mode : TradingMode) (symbol : string) (notional : number)
    (count : bool) : RiskReservation :=
  {| h_id := id; h_mode := mode; h_symbol := symbol; h_notional := notional; h_count := count;
     h_finalized := false |}.

(** The claim added to a usage record, with its aggregate. *)
Definition with_claims (u : RiskUsageState) (reserved : number) (rs : obj RiskReservationState) :
    RiskUsageState :=
  {| u_date := u_date u; u_usedDailyNotional := u_usedDailyNotional u;
     u_reservedDailyNotional := Some reserved; u_reservations := Some rs;
     u_executionBlocks := u_executionBlocks u |}.

Definition with_used (u : RiskUsageState) (used : number) : RiskUsageState :=
  {| u_date := u_date u; u_usedDailyNotional := used;
     u_reservedDailyNotional := u_reservedDailyNotional u; u_reservations := u_reservations u;
     u_executionBlocks := u_executionBlocks u |}.

Definition reserve_draft (config : RiskConfig) (now : Z) (id symbol : string) (notional : number)
    (executionId : option string) (state : TradingRiskState) :
    result RiskError (unit * TradingRiskState) :=
  let mode := rc_mode config in
  state ← refreshDraft now mode state;
  let usage := usage_of mode state in
  _ ← throwIf (exposure_blocked state) (PlainError UnresolvedExecutions);
  let reserved := default 0 (u_reservedDailyNotional usage) in
  total ← dailyTotal usage notional;
  _ ← throwIf (maxDailyNotional (rc_risk config) <? total) (PlainError AboveMaxDaily);
  let reservations := default [] (u_reservations usage) in
  _ ← throwIf (o_has id reservations) (StateError id DuplicateReservation);
  let claim := {| res_id := id; res_mode := mode; res_symbol := symbol; res_notional := notional;
                  res_executionId := match executionId with
                                     | Some x => if String.eqb x "" then None else Some x
                                     | None => None end |} in
  reserved' ← addition reserved notional id;
  Ok (tt, set_usage mode (with_claims usage reserved' (o_set id claim reservations)) state).

(** [reserve(symbol, notional, { countTowardsDailyLimit, executionId })]; [id] is the UUID drawn. *)
Definition reserve (config : RiskConfig) (now : Z) (id symbol : string) (notional : number)
    (count : bool) (executionId : option string) : ST W RiskError RiskReservation :=
  match validateOrder config symbol notional count with
  | Some e => lift (Throw (PlainError e))
  | None =>
      _ ← (if count then ledger_transact (reserve_draft config now id symbol notional executionId)
           else mret tt);
      mret (createReservation id (rc_mode config) symbol notional count)
  end.

(** The claim of this id in either mode. *)
Definition find_claim (id : string) (state : TradingRiskState) :
    result RiskError (option (TradingMode * RiskReservationState)) :=
  foldM (fun found mode =>
    match o_get id (default [] (u_reservations (usage_of mode state))) with
    | None => Ok found
    | Some claim =>
        match found with
        | Some _ => Throw (StateError id InBothModes)
        | None => Ok (Some (mode, claim))
        end
    end) None [Paper; Live].

Definition validateRecordNotional (notional : number) : result RiskError unit :=
  throwIf (negb (isFinite notional) || (notional <? 0)) (PlainError RecordedNotional).

Definition reconcile_event (mode : TradingMode) (outcome : SettlementOutcome) (executionId : option string)
    (id at_ : string) : TradingAuditEvent :=
  {| ev_id := id; ev_at := at_; ev_kind := RiskReconcile; ev_mode := mode; ev_executionId := executionId;
     ev_action := Some (outcome_name outcome); ev_evidenceReference := None; ev_settlement := None |}.

(** What settling a claim does to the usage of its mode. *)
Definition settle_usage (id : string) (outcome : SettlementOutcome) (committedNotional : option number)
    (claim : RiskReservationState) (usage : RiskUsageState) : result RiskError RiskUsageState :=
  reserved ← subtraction (default 0 (u_reservedDailyNotional usage)) (res_notional claim) id;
  used ← match outcome with
         | Commit =>
             let settledNotional := default (res_notional claim) committedNotional in
             _ ← validateRecordNotional settledNotional;
             addition (u_usedDailyNotional usage) settledNotional id
         | Release => Ok (u_usedDailyNotional usage)
         end;
  Ok (with_claims (with_used usage used) reserved (o_delete id (default [] (u_reservations usage)))).

Definition reconcile_draft (now : Z) (auditId at_ id : string) (outcome : SettlementOutcome)
    (committedNotional : option number) (executionId : option string) (state : TradingRiskState) :
    result RiskError (unit * TradingRiskState) :=
  state ← refreshDraft now Live state;
  found ← find_claim id state;
  match found with
  | None => Throw (StateError id AlreadySettled)
  | Some (mode, claim) =>
      _ ← throwIf (negb (bool_decide (res_executionId claim = executionId))) (StateError id ExecutionLinked);
      usage ← settle_usage id outcome committedNotional claim (usage_of mode state);
      state ← appendTradingAuditEvent auditId (reconcile_event mode outcome executionId) at_
                (set_usage mode usage state);
      Ok (tt, state)
  end.

(** [reconcileReservation]; [at_] is the system clock's reading and [auditId] the UUID of the event. *)
Definition reconcileReservation (now : Z) (auditId at_ id : string) (outcome : SettlementOutcome)
    (committedNotional : option number) (executionId : option string) : ST W RiskError unit :=
  _ ← lift (throwIf (String.eqb id "") (StateError id EmptyReservationId));
  ledger_transact (reconcile_draft now auditId at_ id outcome committedNotional executionId).

(** [listPendingReservations()]; [sort] is the ordering by [localeCompare] of the ids. *)
Definition listPendingReservations (sort : list RiskReservationState -> list RiskReservationState)
    (now : Z) : ST W RiskError (list RiskReservationState) :=
  _ ← refresh now Live;
  state ← loadLatest;
  mret (sort (app (o_values (default [] (u_reservations (st_paper state))))
                  (o_values (default [] (u_reservations (st_live state)))))).

Definition record (config : RiskConfig) (now : Z) (notional : number) (count : bool) : ST W RiskError unit :=
  _ ← lift (validateRecordNotional notional);
  if negb count then mret tt else
  let mode := rc_mode config in
  ledger_transact (fun state =>
    state ← refreshDraft now mode state;
    let usage := usage_of mode state in
    used ← addition (u_usedDailyNotional usage) notional STATE_ERROR_ID;
    Ok (tt, set_usage mode (with_used usage used) state)).

Definition reset_event (mode : TradingMode) (id at_ : string) : TradingAuditEvent :=
  {| ev_id := id; ev_at := at_; ev_kind := RiskReset; ev_mode := mode; ev_executionId := None;
     ev_action := None; ev_evidenceReference := None; ev_settlement := None |}.

Definition reset_draft (config : RiskConfig) (now : Z) (auditId at_ : string) (state : TradingRiskState) :
    result RiskError (unit * TradingRiskState) :=
  let mode := rc_mode config in
  state ← refreshDraft now mode state;
  let usage := usage_of mode state in
  _ ← throwIf (0 <? length (block_ids usage))%nat (PlainError ResetUnresolved);
  _ ← throwIf ((0 <? length (o_keys (default [] (u_reservations usage))))%nat
               || (0 <? default 0 (u_reservedDailyNotional usage))) (PlainError ResetInFlight);
  date ← today now;
  let cleared := {| u_date := date; u_usedDailyNotional := 0; u_reservedDailyNotional := Some 0;
                    u_reservations := Some []; u_executionBlocks := u_executionBlocks usage |} in
  state ← appendTradingAuditEvent auditId (reset_event mode) at_ (set_usage mode cleared state);
  Ok (tt, state).

Definition reset (config : RiskConfig) (now : Z) (auditId at_ : string) : ST W RiskError unit :=
  ledger_transact (reset_draft config now auditId at_).

Inductive ResetPolicy := DailyAuto | Manual.
Record UsageReport := {
  ur_date : string; ur_used : number; ur_reserved : number; ur_limit : number; ur_resetPolicy : ResetPolicy
}.

Definition usage (config : RiskConfig) (now : Z) : ST W RiskError UsageReport :=
  let mode := rc_mode config in
  _ ← refresh now mode;
  state ← loadLatest;
  let u := usage_of mode state in
  mret {| ur_date := u_date u; ur_used := u_usedDailyNotional u;
          ur_reserved := default 0 (u_reservedDailyNotional u);
          ur_limit := maxDailyNotional (rc_risk config);
          ur_resetPolicy := match mode with Paper => Manual | Live => DailyAuto end |}.

End Ledger.

(** ** The handle

    Its methods read and write the store and the handle's own flag. *)
Section Handle.
Context {W : Type} `{RiskStateStore W}.

Definition finalize (h : RiskReservation) : RiskReservation :=
  {| h_id := h_id h; h_mode := h_mode h; h_symbol := h_symbol h; h_notional := h_notional h;
     h_count := h_count h; h_finalized := true |}.

Definition handle_commit (now : Z) (auditId at_ : string) (committedNotional : option number) :
    ST (W * RiskReservation) RiskError unit :=
  fun '(w, h) =>
    if h_finalized h then (Ok tt, (w, h))
    else if negb (h_count h) then (Ok tt, (w, finalize h))
    else match reconcileReservation now auditId at_ (h_id h) Commit committedNotional None w with
         | (Throw e, w') => (Throw (CommitError (h_id h) e), (w', h))
         | (Ok _, w') => (Ok tt, (w', finalize h))
         end.

Definition handle_release (now : Z) (auditId at_ : string) : ST (W * RiskReservation) RiskError unit :=
  fun '(w, h) =>
    if h_finalized h then (Ok tt, (w, h))
    else if h_count h then
      match reconcileReservation now auditId at_ (h_id h) Release None None w with
      | (Throw e, w') => (Throw e, (w', h))
      | (Ok _, w') => (Ok tt, (w', finalize h))
      end
    else (Ok tt, (w, finalize h)).

End Handle.

(** ** Transactions: what is stored afterwards *)

Section TransactionFacts.
Context {W : Type} {HS : RiskStateStore W} {HL : RiskStateStoreLaws W}.

(** The store holds a state in normal form. *)
Definition stored (w : W) (s : TradingRiskState) : Prop :=
  store_load w = Ok s /\ state_normal s /\ accountRisk_valid s.

Lemma copy_normal s d n :
  normalizedState s = Ok d -> state_normal n ->
  let s' := copyStateInto s n in state_normal s' /\ accountRisk_valid s'.
Proof.
  intros (Hd & Ha & Had & _)%normalizedState_Ok (Hp & Hl & Hn). cbv zeta.
  split; [split_and!; [done..|]|exact Ha].
  unfold audit_normal, copyStateInto. cbn [st_audit]. destruct (st_audit n) eqn:E.
  - intros a [= <-]. by apply Hn.
  - intros a Es. destruct Hd as (_ & _ & Hd). apply Hd. congruence.
Qed.

Lemma apply_Ok {T} (f : TradingRiskState -> result RiskError (T * TradingRiskState)) s t s' :
  apply f s = Ok (t, s') ->
  exists d d' n, normalizedState s = Ok d /\ f d = Ok (t, d') /\ normalizedState d' = Ok n /\
    s' = copyStateInto s n.
Proof.
  unfold apply. intros (d & Hd & H)%bind_Ok. apply bind_Ok in H as ([t1 d'] & Hf & H).
  apply bind_Ok in H as (n & Hn & H). injection H as <- <-.
  destruct (f d) as [p|e] eqn:Ef; [|done]. injection Hf as ->. eauto 10.
Qed.

(** A transaction that returns has committed the normalised draft. *)
Lemma ledger_transact_Ok {T} (f : TradingRiskState -> result RiskError (T * TradingRiskState)) w t w' :
  ledger_transact f w = (Ok t, w') ->
  exists s d d' n, store_load w = Ok s /\ normalizedState s = Ok d /\ f d = Ok (t, d') /\
    normalizedState d' = Ok n /\ store_load w' = Ok (copyStateInto s n).
Proof.
  unfold ledger_transact. pose proof (transact_spec T (apply f) w) as Hs.
  destruct (store_transact (apply f) w) as [[x|e] w1]; cbn [fst snd] in Hs.
  - intros [= -> ->]. inversion Hs as [s t' s' Hb Ha Hw| | |]; subst.
    apply apply_Ok in Ha as (d & d' & n & ? & ? & ? & ->). eauto 10.
  - by destruct e.
Qed.

(** A transaction that throws leaves the stored state as it was, unless the
    store itself reports a failure after writing. *)
Lemma ledger_transact_Throw {T} (f : TradingRiskState -> result RiskError (T * TradingRiskState)) w e w' :
  ledger_transact f w = (Throw e, w') ->
  store_load w' = store_load w \/
  (exists c s t s', e = PersistenceError c /\ store_load w = Ok s /\ apply f s = Ok (t, s') /\
     store_load w' = Ok s').
Proof.
  unfold ledger_transact. pose proof (transact_spec T (apply f) w) as Hs.
  destruct (store_transact (apply f) w) as [[x|e1] w1]; cbn [fst snd] in Hs; [done|].
  intros Hr. assert (w1 = w') as -> by (by destruct e1; injection Hr).
  inversion Hs; subst; [by left|by left|]. right.
  assert (exists c, e = PersistenceError c) as [c ->].
  { destruct e1; injection Hr; intros; subst; eauto.
    match goal with E : store_error (MutationAbort ?c) |- _ => by destruct (E c) end. }
  eauto 10.
Qed.

(** Whatever the outcome, the store ends with the state it had or with a normal one. *)
Lemma ledger_transact_stored {T} (f : TradingRiskState -> result RiskError (T * TradingRiskState)) w s r w' :
  ledger_transact f w = (r, w') -> stored w s ->
  exists s', stored w' s' /\ st_accountRisk s' = st_accountRisk s.
Proof.
  intros Hr (Hw & Hn & Ha).
  assert (forall t s', apply f s = Ok (t, s') -> store_load w' = Ok s' ->
            exists s', stored w' s' /\ st_accountRisk s' = st_accountRisk s) as Hc.
  { intros t s' (d & d' & n & Hd & _ & Hn' & ->)%apply_Ok Hw'. exists (copyStateInto s n).
    split; [|done]. split; [done|]. eapply copy_normal; [exact Hd|].
    by apply normalizedState_Ok in Hn' as [? _]. }
  destruct r as [t|e].
  - apply ledger_transact_Ok in Hr as (s1 & d & d' & n & Hw1 & Hd & Hf & Hn' & Hw').
    rewrite Hw in Hw1. injection Hw1 as <-. eapply Hc; [|exact Hw'].
    unfold apply. rewrite Hd. cbn [mbind result_bind]. rewrite Hf. cbn [mapError mbind result_bind snd].
    rewrite Hn'. reflexivity.
  - apply ledger_transact_Throw in Hr as [Hw'|(c & s1 & t & s' & _ & Hw1 & Hap & Hw')].
    + exists s. split; [|done]. split; [congruence|done].
    + rewrite Hw in Hw1. injection Hw1 as <-. eauto.
Qed.
End TransactionFacts.

(** ** The mutations on states in normal form *)

(** A clock reading in the years 0 to 9999, whose date the state's format can hold. *)
Definition clock_ok (now : Z) : bool :=
  validTime now && (let y := c_year (civil_of_days (now / MS_PER_DAY)%Z) in ((0 <=? y) && (y <=? 9999))%Z).

Lemma clock_today now : clock_ok now = true -> today now = Ok (isoDate now) /\ isoDay (isoDate now) = true.
Proof.
  unfold clock_ok, today. intros [Hv Hy]%andb_true_iff. rewrite Hv. split; [done|]. by apply isoDate_isoDay.
Qed.

(** The claims of a mode, [state\[mode\].reservations ?? {}]. *)
Definition claims (mode : TradingMode) (s : TradingRiskState) : obj RiskReservationState :=
  usage_claims (usage_of mode s).

Definition reserved_of (mode : TradingMode) (s : TradingRiskState) : number :=
  default 0 (u_reservedDailyNotional (usage_of mode s)).

(** The mode that is not this one. *)
Definition other (mode : TradingMode) : TradingMode :=
  match mode with Paper => Live | Live => Paper end.

Lemma usage_set_same m u s : usage_of m (set_usage m u s) = u.
Proof. by destruct m. Qed.
Lemma usage_set_other m m' u s : m <> m' -> usage_of m' (set_usage m u s) = usage_of m' s.
Proof. by destruct m, m'. Qed.
Lemma other_ne m : other m <> m.
Proof. by destruct m. Qed.
Lemma ne_other m : m <> other m.
Proof. by destruct m. Qed.

Lemma state_normal_usage s mode : state_normal s -> usage_normal mode (usage_of mode s).
Proof. intros (Hp & Hl & _). by destruct mode. Qed.

Lemma set_usage_normal s mode u :
  state_normal s -> usage_normal mode u -> state_normal (set_usage mode u s).
Proof. intros (Hp & Hl & Ha) Hu. destruct mode; (split_and!; [done..|exact Ha]). Qed.

(** A normal state's claims are sorted, well formed, and sum to its aggregate. *)
Lemma normal_claims s mode :
  state_normal s ->
  claims_ok mode (claims mode s) /\ sumReservations (claims mode s) = Ok (reserved_of mode s) /\
  nonneg (reserved_of mode s) = true /\ nonneg (u_usedDailyNotional (usage_of mode s)) = true.
Proof.
  intros (reserved & rs & (Hd & Hu & Hb & Hr & Hn & Hrs & Hc) & Hsum)%(state_normal_usage _ mode).
  unfold claims, usage_claims, reserved_of. rewrite Hr, Hrs. cbn. auto.
Qed.

Lemma refreshDraft_normal now mode s :
  state_normal s -> clock_ok now = true ->
  exists s1, refreshDraft now mode s = Ok s1 /\ state_normal s1.
Proof.
  intros Hs [Ht Hd]%clock_today. destruct mode; [by exists s|]. cbn [refreshDraft]. rewrite Ht.
  cbn [mbind result_bind]. destruct (String.eqb _ _); [by exists s|]. eexists. split; [done|].
  apply set_usage_normal; [done|].
  destruct (state_normal_usage _ Live Hs) as (reserved & rs & (Hd' & Hu & Hb & Hr & Hn & Hrs & Hc) & Hsum).
  exists reserved, rs. split; [|done]. unfold usage_shape. cbn [usage_of] in *. rewrite Hr, Hrs.
  cbn -[isoDay]. auto 10.
Qed.

(** What a rollover may change: the live date and the live amount used. *)
Lemma refreshDraft_keeps now mode s s1 :
  refreshDraft now mode s = Ok s1 -> state_normal s ->
  (forall m, claims m s1 = claims m s) /\ (forall m, reserved_of m s1 = reserved_of m s) /\
  st_paper s1 = st_paper s /\ st_audit s1 = st_audit s /\ st_accountRisk s1 = st_accountRisk s /\
  (forall m, u_executionBlocks (usage_of m s1) = u_executionBlocks (usage_of m s)).
Proof.
  intros H Hs. destruct mode; cbn [refreshDraft] in H; [injection H as <-; done|].
  apply bind_Ok in H as (d & Hd & H). cbv zeta in H. destruct (String.eqb _ _); injection H as <-; [done|].
  split_and!; try done; intros []; done.
Qed.

Lemma set_usage_audit m u s : st_audit (set_usage m u s) = st_audit s.
Proof. by destruct m. Qed.

Lemma refreshDraft_other now mode s s1 :
  refreshDraft now mode s = Ok s1 -> state_normal s -> usage_normal (other mode) (usage_of (other mode) s1).
Proof.
  intros H Hs. pose proof (state_normal_usage _ (other mode) Hs) as Hn.
  destruct mode; cbn [refreshDraft] in H; [injection H as <-; done|].
  apply bind_Ok in H as (d & Hd & H). cbv zeta in H. destruct (String.eqb _ _); by injection H as <-.
Qed.

(** [refreshDraft] changes nothing on a day it has already seen. *)
Lemma refreshDraft_same now s :
  clock_ok now = true -> u_date (st_live s) = isoDate now -> refreshDraft now Live s = Ok s.
Proof. intros [Ht _]%clock_today Hd. cbn [refreshDraft]. rewrite Ht. cbn. by rewrite Hd, String.eqb_refl. Qed.

Lemma refreshDraft_date now s s1 :
  clock_ok now = true -> refreshDraft now Live s = Ok s1 -> u_date (st_live s1) = isoDate now.
Proof.
  intros [Ht _]%clock_today. cbn [refreshDraft]. rewrite Ht. cbn [mbind result_bind].
  destruct (String.eqb_spec (u_date (st_live s)) (isoDate now)); intros [= <-]; done.
Qed.

Lemma sumReservations_snoc (rs : obj RiskReservationState) k r sum :
  sumReservations rs = Ok sum ->
  sumReservations (app rs [(k, r)]) = addition sum (res_notional r) (res_id r).
Proof.
  unfold sumReservations. intros H. rewrite foldM_app. rewrite H. cbn [mbind result_bind foldM snd].
  by destruct (addition _ _ _).
Qed.

(** An accepted symbol is not blank. *)
Lemma validSymbol_not_blank symbol m q : validateTradingSymbol symbol m q = true -> blank symbol = false.
Proof.
  unfold validateTradingSymbol. intros H. apply not_true_iff_false. intros Hb.
  by rewrite (split_on_none _ _ (blank_no_slash _ Hb)) in H.
Qed.

(** ** Reserving *)

(** The conditions under which a claim is admitted to a refreshed state. *)
Record admissible (config : RiskConfig) (symbol : string) (notional : number) (s : TradingRiskState) : Prop := {
  adm_symbol : validateTradingSymbol symbol (rc_marketType config) (rc_quoteCurrency config) = true;
  adm_allowed : allowedSymbols (rc_risk config) = [] \/ In symbol (allowedSymbols (rc_risk config));
  adm_notional : positive notional = true;
  adm_order : (maxOrderNotional (rc_risk config) <? notional) = false;
  adm_unblocked : exposure_blocked s = false;
  adm_daily : exists total, dailyTotal (usage_of (rc_mode config) s) notional = Ok total /\
                (maxDailyNotional (rc_risk config) <? total) = false
}.

Lemma validateOrder_None config symbol notional :
  validateOrder config symbol notional true = None ->
  validateTradingSymbol symbol (rc_marketType config) (rc_quoteCurrency config) = true /\
  (allowedSymbols (rc_risk config) = [] \/ In symbol (allowedSymbols (rc_risk config))) /\
  positive notional = true /\ (maxOrderNotional (rc_risk config) <? notional) = false.
Proof.
  unfold validateOrder. cbv zeta. destruct (validateTradingSymbol _ _ _); [|done]. cbn [negb].
  destruct (negb (isFinite notional) || (notional <=? 0)) eqn:E1; [done|].
  destruct (_ && negb (str_in _ _)) eqn:E2; [done|].
  destruct (_ <? notional) eqn:E3; [done|]. intros _. split_and!; try done.
  - apply andb_false_iff in E2 as [E2|E2].
    + left. destruct (allowedSymbols _); [done|]. cbn in E2. done.
    + right. apply negb_false_iff in E2. by apply str_in_In.
  - bool_hyps. apply (finitePositive_Ok notional STATE_ERROR_ID notional). unfold finitePositive.
    repeat match goal with E : _ = _ |- _ => rewrite E; clear E end. done.
Qed.

Definition new_claim (mode : TradingMode) (id symbol : string) (notional : number) (executionId : option string) :
    RiskReservationState :=
  {| res_id := id; res_mode := mode; res_symbol := symbol; res_notional := notional;
     res_executionId := match executionId with
                        | Some x => if String.eqb x "" then None else Some x
                        | None => None end |}.

Lemma reserve_draft_Ok config now id symbol notional executionId s u s' :
  reserve_draft config now id symbol notional executionId s = Ok (u, s') ->
  exists s1, let mode := rc_mode config in
    refreshDraft now mode s = Ok s1 /\ exposure_blocked s1 = false /\
    (exists total, dailyTotal (usage_of mode s1) notional = Ok total /\
       (maxDailyNotional (rc_risk config) <? total) = false) /\
    o_get id (claims mode s1) = None /\
    s' = set_usage mode (with_claims (usage_of mode s1) (reserved_of mode s1 + notional)
           (o_set id (new_claim mode id symbol notional executionId) (claims mode s1))) s1.
Proof.
  unfold reserve_draft. cbv zeta. intros (s1 & Hr & H)%bind_Ok. exists s1.
  apply bind_Ok in H as ([] & Hb%throwIf_Ok & H). apply bind_Ok in H as (total & Ht & H).
  apply bind_Ok in H as ([] & Hm%throwIf_Ok & H). apply bind_Ok in H as ([] & Hh%throwIf_Ok & H).
  apply bind_Ok in H as (r & (_ & _ & -> & _)%addition_Ok & H). injection H as _ <-.
  split_and!; eauto. unfold claims, usage_claims. unfold o_has in Hh. by destruct (o_get id _).
Qed.

(** On a normal state, with a fresh id, reserving succeeds exactly when the claim is admissible. *)
Lemma reserve_draft_admits config now id symbol notional executionId s1 s :
  refreshDraft now (rc_mode config) s = Ok s1 -> state_normal s1 ->
  admissible config symbol notional s1 -> o_get id (claims (rc_mode config) s1) = None ->
  isFinite (reserved_of (rc_mode config) s1 + notional) = true ->
  reserve_draft config now id symbol notional executionId s =
    Ok (tt, set_usage (rc_mode config) (with_claims (usage_of (rc_mode config) s1)
              (reserved_of (rc_mode config) s1 + notional)
              (o_set id (new_claim (rc_mode config) id symbol notional executionId)
                 (claims (rc_mode config) s1))) s1).
Proof.
  intros Hr Hn [_ _ Hpos _ Hb (total & Ht & Hm)] Hid Hfin. unfold reserve_draft. cbv zeta.
  rewrite (Ok_pass _ _ _ Hr), throwIf_pass by done. rewrite (Ok_pass _ _ _ Ht).
  rewrite !throwIf_pass by (done || (unfold o_has; fold (usage_claims (usage_of (rc_mode config) s1)); fold (claims (rc_mode config) s1); by rewrite Hid)).
  fold (reserved_of (rc_mode config) s1). fold (usage_claims (usage_of (rc_mode config) s1)).
  fold (claims (rc_mode config) s1).
  destruct (normal_claims s1 (rc_mode config) Hn) as (_ & _ & Hres & _).
  rewrite (Ok_pass _ (reserved_of (rc_mode config) s1 + notional)); [done|].
  apply positive_nonneg in Hpos. apply addition_Ok. split_and!; try done.
  unfold nonneg in *. bool_hyps. apply andb_true_iff. split; [done|]. by apply add_nonneg.
Qed.

(** The state with the new claim is in normal form: its aggregate is the sum of the claims. *)
Lemma reserved_normal mode id symbol notional executionId s :
  state_normal s -> o_get id (claims mode s) = None -> arrayIndex id = None -> id <> ""%string ->
  blank symbol = false -> positive notional = true ->
  opt_ok (fun x => String.eqb x "" || identifier x) executionId = true ->
  isFinite (reserved_of mode s + notional) = true ->
  state_normal (set_usage mode (with_claims (usage_of mode s) (reserved_of mode s + notional)
    (o_set id (new_claim mode id symbol notional executionId) (claims mode s))) s).
Proof.
  intros Hs Hid Hix Hne Hb Hp Hx Hfin. apply set_usage_normal; [done|].
  destruct (normal_claims s mode Hs) as ((Hso & Hcl) & Hsum & Hres & Hused).
  destruct (state_normal_usage _ mode Hs) as (_ & _ & (Hd & _ & Hbl & _) & _).
  assert (nonneg (reserved_of mode s + notional) = true) as Hnn.
  { apply positive_nonneg in Hp. unfold nonneg in *. bool_hyps. apply andb_true_iff.
    split; [done|]. by apply add_nonneg. }
  exists (reserved_of mode s + notional),
    (o_set id (new_claim mode id symbol notional executionId) (claims mode s)). split.
  - unfold usage_shape. cbn -[isoDay nonneg]. split_and!; try done. split; [by apply o_set_sorted|].
    intros k r [[= -> ->]|Hin]%o_set_In; [|auto]. unfold claim_ok. cbn -[identifier positive].
    rewrite String.eqb_refl, bool_decide_eq_true_2, Hb, Hp by done.
    destruct (String.eqb_spec id "") as [|_]; [done|]. cbn -[identifier].
    destruct executionId as [x|]; [|done]. cbn -[identifier] in *. by destruct (String.eqb x "").
  - rewrite o_set_fresh by done. rewrite (sumReservations_snoc _ _ _ _ Hsum).
    apply addition_Ok. split_and!; try done. by apply positive_nonneg.
Qed.

Lemma clone_normal s : state_normal s -> state_normal (cloneState s).
Proof. done. Qed.

Lemma normalizedState_draft d :
  state_normal d -> st_accountRisk d = None -> normalizedState d = Ok d.
Proof.
  intros Hd Ha. rewrite normalizedState_normal; [|done|by intros o; rewrite Ha].
  f_equal. destruct d; cbn in *. by subst.
Qed.

Lemma set_usage_account m u s : st_accountRisk (set_usage m u s) = st_accountRisk s.
Proof. by destruct m. Qed.

(** Transactions of the memory store. *)
Lemma memory_commits {T} (f : TradingRiskState -> result RiskError (T * TradingRiskState)) s t d' :
  state_normal s -> accountRisk_valid s -> f (cloneState s) = Ok (t, d') -> state_normal d' ->
  st_accountRisk d' = None -> ledger_transact f s = (Ok t, copyStateInto s d').
Proof.
  intros Hs Ha Hf Hd Hda. unfold ledger_transact. cbn [store_transact memory_store]. unfold apply.
  rewrite normalizedState_normal by done. cbn [mbind result_bind]. rewrite Hf.
  cbn [mapError mbind result_bind snd fst]. by rewrite normalizedState_draft.
Qed.

Lemma memory_aborts {T} (f : TradingRiskState -> result RiskError (T * TradingRiskState)) s e :
  state_normal s -> accountRisk_valid s -> f (cloneState s) = Throw e ->
  ledger_transact f s = (Throw e, s).
Proof.
  intros Hs Ha Hf. unfold ledger_transact. cbn [store_transact memory_store]. unfold apply.
  rewrite normalizedState_normal by done. cbn [mbind result_bind]. by rewrite Hf.
Qed.

Lemma memory_loads s :
  state_normal s -> accountRisk_valid s -> loadLatest s = (Ok (cloneState s), s).
Proof. intros. unfold loadLatest, reads. cbn. by rewrite normalizedState_normal. Qed.

(** The state a refreshed memory store holds. *)
Lemma memory_refresh now mode s :
  state_normal s -> accountRisk_valid s -> clock_ok now = true ->
  exists s1, refreshDraft now mode (cloneState s) = Ok s1 /\ state_normal s1 /\
    st_accountRisk s1 = None /\
    exists w, refresh now mode s = (Ok tt, w) /\ state_normal w /\ accountRisk_valid w /\ cloneState w = s1.
Proof.
  intros Hs Ha Hc. destruct (refreshDraft_normal now mode (cloneState s) Hs Hc) as (s1 & Hr & Hn).
  assert (st_accountRisk s1 = None) as Hac by (by apply refreshDraft_keeps in Hr as (_ & _ & _ & _ & -> & _)).
  exists s1. split_and!; try done. destruct mode.
  - injection Hr as <-. by exists s.
  - pose proof Hr as Hr'. destruct (clock_today _ Hc) as [Ht _]. cbn [refreshDraft] in Hr'. rewrite Ht in Hr'.
    cbn [mbind result_bind cloneState st_live] in Hr'.
    unfold refresh, lift. unfold mbind at 1, ST_bind at 1. rewrite Ht. unfold mbind at 1, ST_bind at 1.
    rewrite memory_loads by done. cbn [cloneState st_live].
    destruct (String.eqb _ _) eqn:E.
    + exists s. injection Hr' as <-. done.
    + exists (copyStateInto s s1). split_and!.
      * apply memory_commits; [done|done| |done|done]. by rewrite Hr.
      * eapply (copy_normal s (cloneState s)); [|done]. by apply normalizedState_normal.
      * eapply (copy_normal s (cloneState s)); [|done]. by apply normalizedState_normal.
      * apply refreshDraft_keeps in Hr as (_ & _ & _ & Hau & _); [|done].
        unfold copyStateInto, cloneState. cbn. destruct s1; cbn in *. subst.
        by destruct (st_audit s).
Qed.

(** The outcome of a check as the outcome of reserving. *)
Definition as_reserve {A} (r : result RiskError (option Refusal)) (a : A) : result RiskError A :=
  match r with
  | Ok None => Ok a
  | Ok (Some e) => Throw (PlainError e)
  | Throw e => Throw e
  end.

(** The refusals of the transaction of [reserve]. *)
Lemma reserve_aborts config now id symbol notional executionId s s1 :
  state_normal s -> accountRisk_valid s -> refreshDraft now (rc_mode config) (cloneState s) = Ok s1 ->
  forall e, (exposure_blocked s1 = true /\ e = PlainError UnresolvedExecutions) \/
    (exposure_blocked s1 = false /\
      (dailyTotal (usage_of (rc_mode config) s1) notional = Throw e \/
       exists t, dailyTotal (usage_of (rc_mode config) s1) notional = Ok t /\
         (maxDailyNotional (rc_risk config) <? t) = true /\ e = PlainError AboveMaxDaily)) ->
  ledger_transact (reserve_draft config now id symbol notional executionId) s = (Throw e, s).
Proof.
  intros Hs Ha Hr e He. apply memory_aborts; [done..|]. unfold reserve_draft. cbv zeta.
  rewrite (Ok_pass _ _ _ Hr). destruct He as [[Hb ->]|[Hb [Ht|(t & Ht & Hm & ->)]]].
  - by rewrite throwIf_stop.
  - rewrite throwIf_pass by done. by rewrite Ht.
  - rewrite throwIf_pass by done. rewrite (Ok_pass _ _ _ Ht). by rewrite throwIf_stop.
Qed.

(** What [check] answers is what [reserve] does: on a state in normal form and
    with a fresh id, an order that passes the check is reserved, and an order
    that fails it is refused for the same reason, on every branch. *)
Theorem check_agrees_with_reserve config now id symbol notional executionId s :
  state_normal s -> accountRisk_valid s -> clock_ok now = true ->
  o_get id (claims (rc_mode config) s) = None -> arrayIndex id = None -> id <> ""%string ->
  opt_ok (fun x => String.eqb x "" || identifier x) executionId = true ->
  isFinite (reserved_of (rc_mode config) s + notional) = true ->
  fst (reserve config now id symbol notional true executionId s) =
  as_reserve (fst (check config now symbol notional true s))
    (createReservation id (rc_mode config) symbol notional true).
Proof.
  intros Hs Ha Hc Hid Hix Hne Hx Hfin. unfold reserve, check.
  destruct (validateOrder config symbol notional true) as [e|] eqn:Ev; [done|].
  destruct (validateOrder_None _ _ _ Ev) as (Hsym & Hal & Hpos & Hord). cbn [negb]. cbv zeta.
  destruct (memory_refresh now (rc_mode config) s Hs Ha Hc) as (s1 & Hr & Hn1 & Hac & w & Hw & Hwn & Hwa & Hcw).
  destruct (refreshDraft_keeps _ _ _ _ Hr Hs) as (Hcl & Hre & _).
  unfold mbind, ST_bind at 2 3. rewrite Hw, memory_loads, Hcw by done. unfold mbind, ST_bind, lift.
  pose proof (reserve_aborts config now id symbol notional executionId s s1 Hs Ha Hr) as Habort.
  destruct (exposure_blocked s1) eqn:Hb; [by rewrite (Habort (PlainError UnresolvedExecutions)) by auto|].
  destruct (dailyTotal _ _) as [t|e] eqn:Ht; [|by rewrite (Habort e) by auto].
  destruct (maxDailyNotional _ <? t) eqn:Hm; [by rewrite (Habort (PlainError AboveMaxDaily)) by (right; split; [done|]; right; by exists t)|].
  erewrite memory_commits; [done|done|done|..].
  - apply (reserve_draft_admits config now id symbol notional executionId s1); [done|done| | |].
    + split; eauto.
    + by rewrite Hcl.
    + by rewrite Hre.
  - apply reserved_normal; try done; [by rewrite Hcl|by eapply validSymbol_not_blank|by rewrite Hre].
  - by rewrite set_usage_account.
Qed.

(** Normalising a draft keeps what the mutation left, the aggregates apart. *)
Lemma draft_keeps d n m :
  normalizedState d = Ok n -> o_sorted (claims m d) ->
  u_usedDailyNotional (usage_of m n) = u_usedDailyNotional (usage_of m d) /\
  u_date (usage_of m n) = u_date (usage_of m d) /\
  claims m n = claims m d /\ u_executionBlocks (usage_of m n) = u_executionBlocks (usage_of m d).
Proof.
  intros H%(normalizedState_usage _ _ m) Hs. apply normalizedUsage_keeps in H; [|done]. tauto.
Qed.

Lemma draft_keeps_normal d n m :
  normalizedState d = Ok n -> usage_normal m (usage_of m d) -> usage_of m n = usage_of m d.
Proof.
  intros H%(normalizedState_usage _ _ m) Hn. rewrite normalizedUsage_normal in H by done. by injection H.
Qed.

Lemma copy_usage m s n : usage_of m (copyStateInto s n) = usage_of m n.
Proof. by destruct m. Qed.

Lemma copy_claims m s n : claims m (copyStateInto s n) = claims m n.
Proof. by destruct m. Qed.

(** What a reservation that returns has done. *)
Lemma reserve_returned {W} {HS : RiskStateStore W} {HL : RiskStateStoreLaws W}
    config now id symbol notional executionId (w : W) h w' :
  reserve config now id symbol notional true executionId w = (Ok h, w') ->
  let mode := rc_mode config in
  exists s d s1 s',
    store_load w = Ok s /\ normalizedState s = Ok d /\ refreshDraft now mode d = Ok s1 /\
    admissible config symbol notional s1 /\ o_get id (claims mode s1) = None /\
    stored w' s' /\
    claims mode s' = o_set id (new_claim mode id symbol notional executionId) (claims mode s1) /\
    u_usedDailyNotional (usage_of mode s') = u_usedDailyNotional (usage_of mode s1) /\
    sumReservations (claims mode s') = Ok (reserved_of mode s') /\
    usage_of (other mode) s' = usage_of (other mode) s1 /\
    st_audit s' = st_audit s /\ st_accountRisk s' = st_accountRisk s /\
    h = createReservation id mode symbol notional true /\
    (forall m, u_executionBlocks (usage_of m s') = u_executionBlocks (usage_of m s1)).
Proof.
  unfold reserve. destruct (validateOrder _ _ _ _) eqn:Ev; [done|].
  apply validateOrder_None in Ev as (Hsym & Hal & Hpos & Hord).
  rewrite st_bind_Ok. intros ([] & w1 & Htr & [= <- <-]). cbv zeta.
  apply ledger_transact_Ok in Htr as (s & d & d' & n & Hw & Hd & Hf & Hn & Hw').
  pose proof (normalizedState_Ok _ _ Hd) as (Hdn & Hsa & Hda & _).
  apply reserve_draft_Ok in Hf as (s1 & Hr & Hb & Ht & Hid & ->).
  pose proof (normalizedState_Ok _ _ Hn) as (Hnn & _ & Hna & _).
  destruct (refreshDraft_keeps _ _ _ _ Hr Hdn) as (Hcl & _ & _ & Hau & _).
  set (u1 := with_claims _ _ _) in *.
  destruct (normal_claims _ (rc_mode config) Hdn) as ((Hso & _) & _).
  assert (o_sorted (claims (rc_mode config) (set_usage (rc_mode config) u1 s1))) as Hso1.
  { unfold claims. rewrite usage_set_same. apply o_set_sorted. by rewrite Hcl. }
  destruct (draft_keeps _ _ _ Hn Hso1) as (Hused & _ & Hcl' & _).
  assert (state_normal (copyStateInto s n) /\ accountRisk_valid (copyStateInto s n)) as [Hsn' Hsa']
    by (by eapply copy_normal).
  exists s, d, s1, (copyStateInto s n). rewrite !copy_claims, !copy_usage.
  split_and!; try done.
  - rewrite Hcl'. unfold claims at 1. by rewrite usage_set_same.
  - by rewrite Hused, usage_set_same.
  - rewrite <- (copy_claims _ s). by apply normal_claims.
  - rewrite (draft_keeps_normal _ _ _ Hn).
    + apply usage_set_other, ne_other.
    + rewrite usage_set_other by apply ne_other. by eapply refreshDraft_other.
  - unfold copyStateInto. cbn [st_audit]. rewrite Hna, set_usage_audit, Hau, Hda. by destruct (st_audit s).
  - intros m. rewrite copy_usage. destruct (draft_keeps _ _ m Hn) as (_ & _ & _ & ->).
    + destruct (decide (m = rc_mode config)) as [->|Hm]; [done|]. unfold claims. rewrite usage_set_other by done.
      fold (claims m s1). rewrite Hcl. by apply (normal_claims d m).
    + destruct (decide (m = rc_mode config)) as [->|Hm]; [by rewrite usage_set_same|by rewrite usage_set_other].
Qed.

(** C32: A reservation that returns has admitted the order under the configured
    limits: the refreshed usage is unblocked, used + reserved + notional does not
    exceed the daily limit nor the notional the order limit, and the new state
    differs from it by exactly the new claim, whose mode's aggregate is again the
    sum of its claims; the other mode, the audit and the amounts used are kept. *)
Theorem reserve_claims_quota {W} {HS : RiskStateStore W} {HL : RiskStateStoreLaws W}
    config now id symbol notional executionId (w : W) h w' :
  reserve config now id symbol notional true executionId w = (Ok h, w') ->
  let mode := rc_mode config in
  exists s d s1 s',
    store_load w = Ok s /\ normalizedState s = Ok d /\ refreshDraft now mode d = Ok s1 /\
    admissible config symbol notional s1 /\ o_get id (claims mode s1) = None /\
    stored w' s' /\
    claims mode s' = o_set id (new_claim mode id symbol notional executionId) (claims mode s1) /\
    u_usedDailyNotional (usage_of mode s') = u_usedDailyNotional (usage_of mode s1) /\
    sumReservations (claims mode s') = Ok (reserved_of mode s') /\
    usage_of (other mode) s' = usage_of (other mode) s1 /\
    st_audit s' = st_audit s /\ st_accountRisk s' = st_accountRisk s /\
    h = createReservation id mode symbol notional true.
Proof.
  intros (s & d & s1 & s' & H)%reserve_returned. exists s, d, s1, s'. tauto.
Qed.

(** ** Settling *)

Lemma find_claim_Some id s mode claim :
  find_claim id s = Ok (Some (mode, claim)) ->
  o_get id (claims mode s) = Some claim /\ o_get id (claims (other mode) s) = None.
Proof.
  unfold find_claim, claims, usage_claims. cbn [foldM usage_of other].
  destruct (o_get id (default [] (u_reservations (st_paper s)))) eqn:E1;
    destruct (o_get id (default [] (u_reservations (st_live s)))) eqn:E2; intros [= <- <-]; done.
Qed.

Lemma find_claim_absent id s :
  (forall m, o_get id (claims m s) = None) -> find_claim id s = Ok None.
Proof.
  intros H. unfold find_claim. cbn [foldM]. pose proof (H Paper) as H1. pose proof (H Live) as H2.
  unfold claims, usage_claims in *. by rewrite H1, H2.
Qed.

(** What settling adds to the amount used. *)
Definition settled_used (outcome : SettlementOutcome) (committedNotional : option number)
    (claim : RiskReservationState) (used : number) : number :=
  match outcome with
  | Commit => used + default (res_notional claim) committedNotional
  | Release => used
  end.

Lemma settle_usage_Ok id outcome committedNotional claim u u' :
  settle_usage id outcome committedNotional claim u = Ok u' ->
  usage_claims u' = o_delete id (usage_claims u) /\
  u_usedDailyNotional u' = settled_used outcome committedNotional claim (u_usedDailyNotional u) /\
  u_date u' = u_date u /\ u_executionBlocks u' = u_executionBlocks u.
Proof.
  unfold settle_usage. intros (reserved & _ & H)%bind_Ok. apply bind_Ok in H as (used & Hu & H).
  injection H as <-. split_and!; try done. cbn [with_claims with_used u_usedDailyNotional].
  destruct outcome; cbn [settled_used]; [|by injection Hu].
  cbv zeta in Hu. apply bind_Ok in Hu as ([] & _ & (_ & _ & -> & _)%addition_Ok). done.
Qed.

Lemma reconcile_draft_Ok now auditId at_ id outcome committedNotional executionId s u s' :
  reconcile_draft now auditId at_ id outcome committedNotional executionId s = Ok (u, s') ->
  exists s1 mode claim usage a,
    refreshDraft now Live s = Ok s1 /\
    o_get id (claims mode s1) = Some claim /\ o_get id (claims (other mode) s1) = None /\
    res_executionId claim = executionId /\
    settle_usage id outcome committedNotional claim (usage_of mode s1) = Ok usage /\
    s' = set_audit (Some a) (set_usage mode usage s1) /\
    au_events a = lastN AUDIT_HISTORY_LIMIT
      (app (events_of s1) [reconcile_event mode outcome executionId auditId at_]).
Proof.
  unfold reconcile_draft. intros (s1 & Hr & H)%bind_Ok. apply bind_Ok in H as (found & Hf & H).
  destruct found as [[mode claim]|]; [|done]. apply find_claim_Some in Hf as [Hg Ho].
  apply bind_Ok in H as ([] & Hx%throwIf_Ok & H). apply bind_Ok in H as (usage & Hu & H).
  apply bind_Ok in H as (s2 & Hs2 & H). injection H as _ <-.
  apply append_Ok in Hs2 as (a & -> & _ & Ha).
  apply negb_false_iff, bool_decide_eq_true in Hx.
  exists s1, mode, claim, usage, a. split_and!; try done.
  rewrite Ha. f_equal. f_equal. unfold events_of. by rewrite set_usage_audit.
Qed.

Lemma usage_set_audit m a s : usage_of m (set_audit a s) = usage_of m s.
Proof. by destruct m. Qed.

(** The claims a settling draft leaves. *)
Lemma reconcile_draft_claims now auditId at_ id outcome committedNotional executionId d u d' n s :
  state_normal d ->
  reconcile_draft now auditId at_ id outcome committedNotional executionId d = Ok (u, d') ->
  normalizedState d' = Ok n ->
  forall m, claims m (copyStateInto s n) = claims m d' /\ o_get id (claims m d') = None.
Proof.
  intros Hd (s1 & mode & claim & us & a & Hr & _ & Ho & _ & Hu & -> & _)%reconcile_draft_Ok Hn m.
  destruct (refreshDraft_keeps _ _ _ _ Hr Hd) as (Hcl & _).
  apply settle_usage_Ok in Hu as (Huc & _).
  rewrite copy_claims. assert (o_sorted (claims m (set_audit (Some a) (set_usage mode us s1))) /\
    o_get id (claims m (set_audit (Some a) (set_usage mode us s1))) = None) as [Hso Hg].
  { unfold claims. rewrite usage_set_audit. destruct (decide (m = mode)) as [->|Hm].
    - rewrite usage_set_same, Huc. split; [|by rewrite o_get_delete_eq].
      apply o_delete_sorted. fold (claims mode s1). rewrite Hcl. by apply (normal_claims d mode).
    - rewrite usage_set_other by done. fold (claims m s1). split; [rewrite Hcl; by apply (normal_claims d m)|].
      by destruct mode, m. }
  by destruct (draft_keeps _ _ m Hn Hso) as (_ & _ & -> & _).
Qed.

(** A reconciliation that returns leaves no claim of its id. *)
Lemma reconcile_removes {W} {HS : RiskStateStore W} {HL : RiskStateStoreLaws W}
    now auditId at_ id outcome committedNotional executionId (w w' : W) :
  reconcileReservation now auditId at_ id outcome committedNotional executionId w = (Ok tt, w') ->
  exists s', stored w' s' /\ forall m, o_get id (claims m s') = None.
Proof.
  unfold reconcileReservation. rewrite st_bind_Ok. intros ([] & w1 & [= _ <-] & Htr).
  apply ledger_transact_Ok in Htr as (s & d & d' & n & Hw & Hd & Hf & Hn & Hw').
  pose proof (normalizedState_Ok _ _ Hd) as (Hdn & _).
  exists (copyStateInto s n). split.
  - split; [done|]. eapply copy_normal; [done|]. by apply normalizedState_Ok in Hn as [? _].
  - intros m. by destruct (reconcile_draft_claims _ _ _ _ _ _ _ _ _ _ _ s Hdn Hf Hn m) as [-> ?].
Qed.

(** Without a claim of its id, a reconciliation throws. *)
Lemma reconcile_absent {W} {HS : RiskStateStore W} {HL : RiskStateStoreLaws W}
    now auditId at_ id outcome committedNotional executionId (w : W) s :
  stored w s -> (forall m, o_get id (claims m s) = None) ->
  isOk (fst (reconcileReservation now auditId at_ id outcome committedNotional executionId w)) = false.
Proof.
  intros (Hl & Hn & Ha) Hg.
  destruct (reconcileReservation now auditId at_ id outcome committedNotional executionId w)
    as [[[]|e] w'] eqn:E; [|done]. exfalso.
  unfold reconcileReservation in E. apply st_bind_Ok in E as ([] & w1 & [= _ <-] & E).
  apply ledger_transact_Ok in E as (s1 & d & d' & n & Hl1 & Hd & Hf & _ & _).
  rewrite Hl in Hl1. injection Hl1 as <-. rewrite normalizedState_normal in Hd by done. injection Hd as <-.
  apply reconcile_draft_Ok in Hf as (s1 & mode & claim & u & a & Hr & Hg' & _).
  destruct (refreshDraft_keeps _ _ _ _ Hr Hn) as (Hcl & _). rewrite Hcl in Hg'.
  specialize (Hg mode).
  replace (claims mode (cloneState s)) with (claims mode s) in Hg' by by destruct mode. congruence.
Qed.

(** What a reconciliation that returns has done. *)
Lemma reconcile_returned {W} {HS : RiskStateStore W} {HL : RiskStateStoreLaws W}
    now auditId at_ id outcome committedNotional executionId (w w' : W) :
  reconcileReservation now auditId at_ id outcome committedNotional executionId w = (Ok tt, w') ->
  exists s d s1 s' mode claim,
    store_load w = Ok s /\ normalizedState s = Ok d /\ refreshDraft now Live d = Ok s1 /\ stored w' s' /\
    o_get id (claims mode s1) = Some claim /\ o_get id (claims (other mode) s1) = None /\
    res_executionId claim = executionId /\
    claims mode s' = o_delete id (claims mode s1) /\
    u_usedDailyNotional (usage_of mode s') =
      settled_used outcome committedNotional claim (u_usedDailyNotional (usage_of mode s1)) /\
    claims (other mode) s' = claims (other mode) s1 /\
    u_usedDailyNotional (usage_of (other mode) s') = u_usedDailyNotional (usage_of (other mode) s1) /\
    (forall m, sumReservations (claims m s') = Ok (reserved_of m s')) /\
    events_of s' = lastN AUDIT_HISTORY_LIMIT
      (app (events_of s) [reconcile_event mode outcome executionId auditId at_]) /\
    st_accountRisk s' = st_accountRisk s /\
    (forall m, u_executionBlocks (usage_of m s') = u_executionBlocks (usage_of m s1)).
Proof.
  unfold reconcileReservation. rewrite st_bind_Ok. intros ([] & w1 & [= _ <-] & Htr).
  apply ledger_transact_Ok in Htr as (s & d & d' & n & Hw & Hd & Hf & Hn & Hw').
  pose proof (normalizedState_Ok _ _ Hd) as (Hdn & Hsa & Hda & _).
  apply reconcile_draft_Ok in Hf as (s1 & mode & claim & u & a & Hr & Hg & Ho & Hx & Hu & -> & Ha).
  destruct (refreshDraft_keeps _ _ _ _ Hr Hdn) as (Hcl & _ & _ & Hau & _).
  apply settle_usage_Ok in Hu as (Huc & Hused & _ & Hub).
  assert (forall m, o_sorted (claims m (set_audit (Some a) (set_usage mode u s1)))) as Hso.
  { intros m. unfold claims. rewrite usage_set_audit. destruct (decide (m = mode)) as [->|Hm].
    - rewrite usage_set_same, Huc. apply o_delete_sorted. fold (claims mode s1). rewrite Hcl.
      by apply (normal_claims d mode).
    - rewrite usage_set_other by done. fold (claims m s1). rewrite Hcl. by apply (normal_claims d m). }
  destruct (draft_keeps _ _ mode Hn (Hso _)) as (Hused' & _ & Hcl' & _).
  destruct (draft_keeps _ _ (other mode) Hn (Hso _)) as (Hused2 & _ & Hcl2 & _).
  pose proof (normalizedState_Ok _ _ Hn) as (Hnn & _ & Hna & _).
  unfold claims in Hcl', Hcl2. rewrite usage_set_audit in *. rewrite usage_set_same in Hused', Hcl'.
  rewrite usage_set_other in Hused2, Hcl2 by apply ne_other.
  exists s, d, s1, (copyStateInto s n), mode, claim. rewrite !copy_claims, !copy_usage.
  split_and!; try done.
  - split; [done|]. by eapply copy_normal.
  - unfold claims. by rewrite Hcl'.
  - by rewrite Hused'.
  - intros m. destruct (normal_claims (copyStateInto s n) m) as (_ & ? & _); [|done].
    by eapply (copy_normal s d).
  - unfold events_of at 1, copyStateInto. cbn [st_audit]. rewrite Hna. cbn [set_audit st_audit].
    rewrite Ha. f_equal. f_equal. unfold events_of. by rewrite Hau, Hda.
  - intros m. rewrite copy_usage. destruct (draft_keeps _ _ m Hn (Hso m)) as (_ & _ & _ & ->).
    rewrite usage_set_audit. destruct (decide (m = mode)) as [->|Hm]; [by rewrite usage_set_same|by rewrite usage_set_other].
Qed.

(** Settling is exact: a reconciliation that returns found the claim in one
    mode only and with the stated execution, removed that claim and no other,
    added to the amount used of its mode the committed notional (or the claim's)
    on a commit and nothing on a release, left the other mode alone, re-established
    the aggregate as the sum of the remaining claims and recorded the settlement in
    the audit history, which stays within its bound. *)
Theorem reconcile_settles_claim {W} {HS : RiskStateStore W} {HL : RiskStateStoreLaws W}
    now auditId at_ id outcome committedNotional executionId (w w' : W) :
  reconcileReservation now auditId at_ id outcome committedNotional executionId w = (Ok tt, w') ->
  exists s d s1 s' mode claim,
    store_load w = Ok s /\ normalizedState s = Ok d /\ refreshDraft now Live d = Ok s1 /\ stored w' s' /\
    o_get id (claims mode s1) = Some claim /\ o_get id (claims (other mode) s1) = None /\
    res_executionId claim = executionId /\
    claims mode s' = o_delete id (claims mode s1) /\
    u_usedDailyNotional (usage_of mode s') =
      settled_used outcome committedNotional claim (u_usedDailyNotional (usage_of mode s1)) /\
    claims (other mode) s' = claims (other mode) s1 /\
    u_usedDailyNotional (usage_of (other mode) s') = u_usedDailyNotional (usage_of (other mode) s1) /\
    (forall m, sumReservations (claims m s') = Ok (reserved_of m s')) /\
    events_of s' = lastN AUDIT_HISTORY_LIMIT
      (app (events_of s) [reconcile_event mode outcome executionId auditId at_]) /\
    st_accountRisk s' = st_accountRisk s.
Proof.
  intros (s & d & s1 & s' & mode & claim & H)%reconcile_returned. exists s, d, s1, s', mode, claim. tauto.
Qed.

(** ** Histories *)

Inductive ledger_call :=
  | CCheck (symbol : string) (notional : number) (count : bool)
  | CReserve (id symbol : string) (notional : number) (count : bool) (executionId : option string)
  | CReconcile (auditId at_ id : string) (outcome : SettlementOutcome) (committed : option number)
      (executionId : option string)
  | CRecord (notional : number) (count : bool)
  | CReset (auditId at_ : string)
  | CUsage
  | CList
  | CAssert (exceptExecutionId : option string).

Section Histories.
Context {W : Type} {HS : RiskStateStore W} {HL : RiskStateStoreLaws W}.
Context (config : RiskConfig) (sort : list RiskReservationState -> list RiskReservationState).

(** The store after one call, whether it returned or threw. *)
Definition run_call (c : Z * ledger_call) (w : W) : W :=
  let now := fst c in
  match snd c with
  | CCheck symbol notional count => snd (check config now symbol notional count w)
  | CReserve id symbol notional count ex => snd (reserve config now id symbol notional count ex w)
  | CReconcile auditId at_ id outcome committed ex =>
      snd (reconcileReservation now auditId at_ id outcome committed ex w)
  | CRecord notional count => snd (record config now notional count w)
  | CReset auditId at_ => snd (reset config now auditId at_ w)
  | CUsage => snd (usage config now w)
  | CList => snd (listPendingReservations sort now w)
  | CAssert ex => snd (assertNewExposureAllowed ex w)
  end.

Definition run_calls (cs : list (Z * ledger_call)) (w : W) : W := fold_left (fun w c => run_call c w) cs w.

(** A property of the claims that a mutation keeps is kept by its transaction,
    whatever its outcome. *)
Lemma transaction_keeps {T} (Q : obj RiskReservationState -> Prop)
    (f : TradingRiskState -> result RiskError (T * TradingRiskState)) w s :
  (forall d t d', state_normal d -> (forall m, Q (claims m d)) -> f d = Ok (t, d') ->
     forall m, o_sorted (claims m d') /\ Q (claims m d')) ->
  stored w s -> (forall m, Q (claims m s)) ->
  exists s', stored (snd (ledger_transact f w)) s' /\ (forall m, Q (claims m s')) /\
    st_accountRisk s' = st_accountRisk s.
Proof.
  intros Hf Hs HQ. destruct (ledger_transact f w) as [r w'] eqn:E.
  assert (forall d d' n t, normalizedState s = Ok d -> f d = Ok (t, d') -> normalizedState d' = Ok n ->
            forall m, Q (claims m (copyStateInto s n))) as Hc.
  { intros d d' n t Hd Hfd Hn m. destruct Hs as (_ & Hsn & Hsa).
    rewrite normalizedState_normal in Hd by done. injection Hd as <-.
    destruct (Hf (cloneState s) t d' Hsn (fun m => HQ m) Hfd m) as [Hso Hq].
    rewrite copy_claims. by destruct (draft_keeps _ _ m Hn Hso) as (_ & _ & -> & _). }
  destruct (ledger_transact_stored f w s r w' E Hs) as (s' & Hs' & Ha).
  exists s'. split_and!; [done| |done].
  destruct Hs' as (Hl' & _), Hs as (Hl & Hsn & Hsa). destruct r as [t|e].
  - apply ledger_transact_Ok in E as (s1 & d & d' & n & Hl1 & Hd & Hfd & Hn & Hl2).
    rewrite Hl in Hl1. injection Hl1 as <-. rewrite Hl' in Hl2. injection Hl2 as ->. eauto.
  - apply ledger_transact_Throw in E as [Heq|(c & s1 & t & s2 & _ & Hl1 & Hap & Hl2)].
    + rewrite Hl', Hl in Heq. by injection Heq as ->.
    + rewrite Hl in Hl1. injection Hl1 as <-. rewrite Hl' in Hl2. injection Hl2 as ->.
      apply apply_Ok in Hap as (d & d' & n & Hd & Hfd & Hn & ->). eauto.
Qed.

(** Sets of claims closed under what the ledger does to claims; [may] are the ids it may add. *)
Context (Q : obj RiskReservationState -> Prop) (may : string -> Prop).
Context (Qnil : Q []) (Qdelete : forall j cl, Q cl -> Q (o_delete j cl))
        (Qset : forall j r cl, may j -> Q cl -> Q (o_set j r cl)).

(** The store holds a normal state with such claims and this account-risk part. *)
Definition holds (acc : option (obj AccountRiskState)) (w : W) : Prop :=
  exists s, stored w s /\ (forall m, Q (claims m s)) /\ st_accountRisk s = acc.

Lemma transact_holds acc {T} (f : TradingRiskState -> result RiskError (T * TradingRiskState)) :
  (forall d t d', state_normal d -> (forall m, Q (claims m d)) -> f d = Ok (t, d') ->
     forall m, o_sorted (claims m d') /\ Q (claims m d')) ->
  preserves (holds acc) (ledger_transact f).
Proof.
  intros Hf w (s & Hs & HQ & <-). destruct (transaction_keeps Q f w s Hf Hs HQ) as (s' & ? & ? & ?).
  by exists s'.
Qed.

Lemma normal_sorted m s : state_normal s -> o_sorted (claims m s).
Proof. intros Hs. by apply (normal_claims s m). Qed.

Lemma refreshed_claims now mode d d1 m :
  state_normal d -> (forall m, Q (claims m d)) -> refreshDraft now mode d = Ok d1 ->
  o_sorted (claims m d1) /\ Q (claims m d1).
Proof.
  intros Hd HQ Hr. destruct (refreshDraft_keeps _ _ _ _ Hr Hd) as (-> & _).
  split; [by apply normal_sorted|done].
Qed.

Lemma replaced_claims mode u d m :
  (forall m, o_sorted (claims m d) /\ Q (claims m d)) -> o_sorted (usage_claims u) -> Q (usage_claims u) ->
  o_sorted (claims m (set_usage mode u d)) /\ Q (claims m (set_usage mode u d)).
Proof.
  intros H Hs Hq. unfold claims. destruct (decide (mode = m)) as [<-|Hm].
  - by rewrite usage_set_same.
  - rewrite usage_set_other by done. apply H.
Qed.

Lemma refresh_holds acc now mode : preserves (holds acc) (refresh now mode).
Proof.
  destruct mode; [apply preserves_ret|]. cbn [refresh].
  apply preserves_bind; [apply preserves_lift|intros date].
  apply preserves_bind; [apply preserves_reads|intros s].
  apply preserves_if; [apply preserves_ret|]. apply transact_holds.
  intros d t d' Hd HQ (d1 & Hr & [= _ <-])%bind_Ok m. by eapply refreshed_claims.
Qed.

Lemma reserve_holds acc now id symbol notional count ex :
  may id -> preserves (holds acc) (reserve config now id symbol notional count ex).
Proof.
  intros Hmay. unfold reserve. destruct (validateOrder _ _ _ _); [apply preserves_lift|].
  apply preserves_bind; [|intros; apply preserves_ret].
  apply preserves_if; [|apply preserves_ret]. apply transact_holds.
  intros d t d' Hd HQ (d1 & Hr & _ & _ & _ & ->)%reserve_draft_Ok m.
  assert (forall m, o_sorted (claims m d1) /\ Q (claims m d1)) as Hc
    by (intros; by eapply refreshed_claims).
  apply replaced_claims; [done|..]; unfold usage_claims; cbn [with_claims u_reservations default].
  - by apply o_set_sorted, Hc.
  - apply Qset; [done|]. apply Hc.
Qed.

Lemma reconcile_holds acc now auditId at_ id outcome committed ex :
  preserves (holds acc) (reconcileReservation now auditId at_ id outcome committed ex).
Proof.
  apply preserves_bind; [apply preserves_lift|intros _]. apply transact_holds.
  intros d t d' Hd HQ (d1 & mode & claim & u & a & Hr & _ & _ & _ & Hu & -> & _)%reconcile_draft_Ok m.
  assert (forall m, o_sorted (claims m d1) /\ Q (claims m d1)) as Hc
    by (intros; by eapply refreshed_claims).
  apply settle_usage_Ok in Hu as (Hu & _). unfold claims. rewrite usage_set_audit.
  apply replaced_claims; [done|rewrite Hu; by apply o_delete_sorted, Hc|rewrite Hu; by apply Qdelete, Hc].
Qed.

Lemma record_holds acc now notional count : preserves (holds acc) (record config now notional count).
Proof.
  apply preserves_bind; [apply preserves_lift|intros _]. apply preserves_if; [apply preserves_ret|].
  cbv zeta. apply transact_holds. intros d t d' Hd HQ (d1 & Hr & H)%bind_Ok m.
  apply bind_Ok in H as (used & _ & [= _ <-]).
  assert (forall m, o_sorted (claims m d1) /\ Q (claims m d1)) as Hc
    by (intros; by eapply refreshed_claims).
  by apply replaced_claims; [done|apply (Hc (rc_mode config))..].
Qed.

Lemma reset_draft_Ok now auditId at_ s u s' :
  reset_draft config now auditId at_ s = Ok (u, s') ->
  exists s1 date a, let mode := rc_mode config in
    refreshDraft now mode s = Ok s1 /\ block_ids (usage_of mode s1) = [] /\ claims mode s1 = [] /\
    (0 <? reserved_of mode s1) = false /\ today now = Ok date /\
    s' = set_audit (Some a) (set_usage mode
           {| u_date := date; u_usedDailyNotional := 0; u_reservedDailyNotional := Some 0;
              u_reservations := Some []; u_executionBlocks := u_executionBlocks (usage_of mode s1) |} s1) /\
    au_events a = lastN AUDIT_HISTORY_LIMIT (app (events_of s1) [reset_event mode auditId at_]).
Proof.
  unfold reset_draft. cbv zeta. intros (s1 & Hr & H)%bind_Ok.
  apply bind_Ok in H as ([] & Hb%throwIf_Ok & H). apply bind_Ok in H as ([] & Hc%throwIf_Ok & H).
  apply bind_Ok in H as (date & Hd & H). apply bind_Ok in H as (s2 & Hs2 & H). injection H as _ <-.
  apply append_Ok in Hs2 as (a & -> & _ & Ha). apply orb_false_iff in Hc as [Hc1 Hc2].
  exists s1, date, a. split_and!; try done.
  - by destruct (block_ids _).
  - unfold claims, usage_claims. unfold o_keys in Hc1. rewrite length_map in Hc1.
    by destruct (default [] _).
  - rewrite Ha. f_equal. f_equal. unfold events_of. by rewrite set_usage_audit.
Qed.

Lemma reset_holds acc now auditId at_ : preserves (holds acc) (reset config now auditId at_).
Proof.
  apply transact_holds. intros d t d' Hd HQ (d1 & date & a & Hr & _ & _ & _ & _ & -> & _)%reset_draft_Ok m.
  assert (forall m, o_sorted (claims m d1) /\ Q (claims m d1)) as Hc
    by (intros; by eapply refreshed_claims).
  unfold claims. rewrite usage_set_audit. by apply replaced_claims.
Qed.

Lemma run_call_holds acc c w :
  (forall id symbol notional count ex, snd c = CReserve id symbol notional count ex -> may id) ->
  holds acc w -> holds acc (run_call c w).
Proof.
  intros Hc Hw. destruct c as [now c]. unfold run_call. cbn [fst snd] in *. destruct c.
  - revert w Hw. change (preserves (holds acc) (check config now symbol notional count)).
    unfold check. destruct (validateOrder _ _ _ _); [apply preserves_ret|]. apply preserves_if; [apply preserves_ret|].
    cbv zeta. apply preserves_bind; [apply refresh_holds|intros _].
    apply preserves_bind; [apply preserves_reads|intros s]. apply preserves_if; eauto with ti.
  - refine (reserve_holds acc _ _ _ _ _ _ _ w Hw). by eapply Hc.
  - exact (reconcile_holds acc _ _ _ _ _ _ _ w Hw).
  - exact (record_holds acc _ _ _ w Hw).
  - exact (reset_holds acc _ _ _ w Hw).
  - revert w Hw. change (preserves (holds acc) (usage config now)).
    apply preserves_bind; [apply refresh_holds|intros _].
    apply preserves_bind; [apply preserves_reads|intros s]. apply preserves_ret.
  - revert w Hw. change (preserves (holds acc) (listPendingReservations sort now)).
    apply preserves_bind; [apply refresh_holds|intros _].
    apply preserves_bind; [apply preserves_reads|intros s]. apply preserves_ret.
  - revert w Hw. change (preserves (holds acc) (assertNewExposureAllowed exceptExecutionId)).
    apply preserves_bind; [apply preserves_reads|intros s]. apply preserves_lift.
Qed.

Lemma run_calls_holds acc cs w :
  (forall c, In c cs -> forall id symbol notional count ex, snd c = CReserve id symbol notional count ex -> may id) ->
  holds acc w -> holds acc (run_calls cs w).
Proof.
  unfold run_calls. revert w. induction cs as [|c cs IH]; cbn [fold_left]; intros w Hc Hw; [done|].
  apply IH; [intros x Hx; apply Hc; by right|]. apply run_call_holds; [apply Hc; by left|done].
Qed.
End Histories.

(** Over any history of calls, whatever the store's faults, the stored state
    stays in normal form -- every claim well formed and each aggregate the sum of
    its claims -- and the account-risk part is never touched. *)
Theorem ledger_history_normal {W} {HS : RiskStateStore W} {HL : RiskStateStoreLaws W} config sort cs (w : W) s :
  stored w s ->
  exists s', stored (run_calls config sort cs w) s' /\ st_accountRisk s' = st_accountRisk s /\
    forall m, sumReservations (claims m s') = Ok (reserved_of m s').
Proof.
  intros Hs. destruct (run_calls_holds config sort (fun _ => True) (fun _ => True) I
    (fun _ _ _ => I) (fun _ _ _ _ _ => I) (st_accountRisk s) cs w) as (s' & Hs' & _ & Ha); [done| |].
  - by exists s.
  - exists s'. split_and!; [done..|]. intros m. by apply normal_claims, Hs'.
Qed.

(** A claim is settled at most once: after a reconciliation that returned,
    through any further history that does not draw the same id again, every
    reconciliation of that id, whatever its outcome and clock, throws. *)
Theorem settled_at_most_once {W} {HS : RiskStateStore W} {HL : RiskStateStoreLaws W}
    config sort now auditId at_ id outcome committed ex (w w1 : W) cs :
  reconcileReservation now auditId at_ id outcome committed ex w = (Ok tt, w1) ->
  (forall c, In c cs -> forall i symbol notional count e, snd c = CReserve i symbol notional count e -> i <> id) ->
  forall now' auditId' at_' outcome' committed' ex',
    isOk (fst (reconcileReservation now' auditId' at_' id outcome' committed' ex'
                 (run_calls config sort cs w1))) = false.
Proof.
  intros (s1 & Hs1 & Hg)%reconcile_removes Hcs now' auditId' at_' outcome' committed' ex'.
  destruct (run_calls_holds config sort (fun cl => o_get id cl = None) (fun j => j <> id) eq_refl)
    with (acc := st_accountRisk s1) (cs := cs) (w := w1) as (s2 & Hs2 & Hg2 & _).
  - intros j cl Hcl. destruct (decide (j = id)) as [->|Hj]; [apply o_get_delete_eq|by rewrite o_get_delete_ne].
  - intros j r cl Hj Hcl. by rewrite o_get_set_ne.
  - eauto.
  - by exists s1.
  - by eapply reconcile_absent.
Qed.

(** ** Days, resets, failures, handles *)

Section Days.
Context {W : Type} {HS : RiskStateStore W} {HL : RiskStateStoreLaws W}.

Lemma copy_draft s d :
  state_normal s -> st_audit d = st_audit s -> st_accountRisk d = None ->
  cloneState (copyStateInto s d) = d.
Proof.
  intros _ Ha Hc. destruct d as [p l a c]; cbn in *. subst. unfold cloneState, copyStateInto. cbn.
  by destruct (st_audit s).
Qed.

Lemma stored_loads w s : stored w s -> loadLatest w = (Ok (cloneState s), w).
Proof.
  intros (Hl & Hn & Ha). unfold loadLatest, reads. rewrite Hl. cbn [mbind result_bind].
  by rewrite normalizedState_normal.
Qed.

(** What a refresh that returns leaves in the store. *)
Lemma refresh_Ok now mode w s w' :
  stored w s -> clock_ok now = true -> refresh now mode w = (Ok tt, w') ->
  exists s', stored w' s' /\ refreshDraft now mode (cloneState s) = Ok (cloneState s').
Proof.
  intros Hs Hc. destruct mode; cbn [refresh].
  { intros [= <-]. by exists s. }
  destruct (clock_today _ Hc) as [Ht _]. unfold lift. unfold mbind at 1, ST_bind at 1. rewrite Ht.
  unfold mbind at 1, ST_bind at 1. rewrite (stored_loads _ _ Hs).
  destruct (String.eqb _ _) eqn:E.
  { intros [= <-]. exists s. split; [done|]. cbn [refreshDraft]. rewrite Ht. cbn [mbind result_bind]. by rewrite E. }
  intros (s1 & d & d' & n & Hl1 & Hd & Hf & Hn & Hw')%ledger_transact_Ok.
  destruct Hs as (Hl & Hsn & Hsa). rewrite Hl in Hl1. injection Hl1 as <-.
  pose proof Hd as Hd0. rewrite normalizedState_normal in Hd by done. injection Hd as <-.
  apply bind_Ok in Hf as (d1 & Hr & [= ->]).
  destruct (refreshDraft_normal now Live (cloneState s) Hsn Hc) as (d2 & Hr2 & Hn2).
  rewrite Hr in Hr2. injection Hr2 as <-.
  destruct (refreshDraft_keeps _ _ _ _ Hr Hsn) as (_ & _ & _ & Hau & Hac & _).
  rewrite normalizedState_draft in Hn by done. injection Hn as <-.
  exists (copyStateInto s d'). split; [split; [done|by eapply copy_normal]|].
  by rewrite copy_draft.
Qed.

(** The daily policy: a live ledger's usage starts at zero on a new date, with
    every in-flight claim carried over; on the same date, and always in paper
    mode, the amount used is what was stored. *)
Theorem usage_follows_the_day config now (w : W) s r w' :
  stored w s -> clock_ok now = true -> usage config now w = (Ok r, w') ->
  ur_reserved r = reserved_of (rc_mode config) s /\
  ur_limit r = maxDailyNotional (rc_risk config) /\
  match rc_mode config with
  | Paper => ur_date r = u_date (st_paper s) /\ ur_used r = u_usedDailyNotional (st_paper s) /\
             ur_resetPolicy r = Manual
  | Live => ur_date r = isoDate now /\ ur_resetPolicy r = DailyAuto /\
            ur_used r = if String.eqb (u_date (st_live s)) (isoDate now)
                        then u_usedDailyNotional (st_live s) else 0
  end /\
  exists s', stored w' s' /\ forall m, claims m s' = claims m s.
Proof.
  intros Hs Hc H. unfold usage in H. cbv zeta in H. apply st_bind_Ok in H as ([] & w1 & Hr & H).
  destruct (refresh_Ok _ _ _ _ _ Hs Hc Hr) as (s' & Hs' & Hd).
  apply st_bind_Ok in H as (s2 & w2 & Hl & [= <- <-]). rewrite (stored_loads _ _ Hs') in Hl.
  injection Hl as <- <-. cbn [ur_reserved ur_limit ur_date ur_used ur_resetPolicy].
  destruct Hs as (_ & Hn & _). destruct (refreshDraft_keeps _ _ _ _ Hd Hn) as (Hcl & Hre & Hp & _).
  assert (forall m, claims m s' = claims m s) as Hcl'
    by (intros m; specialize (Hcl m); by destruct m).
  split_and!; [specialize (Hre (rc_mode config)); by destruct (rc_mode config)|done| |by exists s'].
  destruct (clock_today _ Hc) as [Ht _]. destruct (rc_mode config); cbn [usage_of cloneState st_paper st_live] in *.
  - injection Hd as Hd _ _. by rewrite Hd.
  - cbn [refreshDraft] in Hd. rewrite Ht in Hd. cbn [mbind result_bind cloneState st_live] in Hd.
    destruct (String.eqb_spec (u_date (st_live s)) (isoDate now)) as [E|E]; injection Hd as _ <- _; done.
Qed.

(** A reset that returns found nothing in flight and nothing unresolved in the
    ledger's mode, cleared that mode's usage and no other, and is audited. *)
Theorem reset_only_at_rest config now auditId at_ (w w' : W) s :
  stored w s -> reset config now auditId at_ w = (Ok tt, w') ->
  let mode := rc_mode config in
  claims mode s = [] /\ block_ids (usage_of mode s) = [] /\
  exists s', stored w' s' /\ claims mode s' = [] /\ u_usedDailyNotional (usage_of mode s') = 0 /\
    u_date (usage_of mode s') = isoDate now /\ reserved_of mode s' = 0 /\
    usage_of (other mode) s' = usage_of (other mode) s /\
    events_of s' = lastN AUDIT_HISTORY_LIMIT (app (events_of s) [reset_event mode auditId at_]) /\
    st_accountRisk s' = st_accountRisk s.
Proof.
  intros (Hl & Hsn & Hsa) (s1 & d & d' & n & Hl1 & Hd & Hf & Hn & Hw')%ledger_transact_Ok. cbv zeta.
  rewrite Hl in Hl1. injection Hl1 as <-. pose proof Hd as Hd0.
  rewrite normalizedState_normal in Hd by done. injection Hd as <-.
  apply (reset_draft_Ok config) in Hf as (s1 & date & a & Hr & Hb & Hcl & _ & Ht & -> & Ha).
  destruct (refreshDraft_keeps _ _ _ _ Hr Hsn) as (Hcl1 & _ & _ & Hau & _ & Hbl).
  pose proof (refreshDraft_other _ _ _ _ Hr Hsn) as Hon.
  set (mode := rc_mode config) in *. set (u := {| u_date := date |}) in *.
  assert (o_sorted (claims mode (set_audit (Some a) (set_usage mode u s1)))) as Hso
    by (unfold claims; by rewrite usage_set_audit, usage_set_same).
  destruct (draft_keeps _ _ mode Hn Hso) as (Hused & Hdate & Hcl2 & _).
  pose proof (normalizedState_Ok _ _ Hn) as (Hnn & _ & Hna & _).
  assert (stored w' (copyStateInto s n)) as Hst by (split; [done|by eapply copy_normal]).
  unfold claims in Hcl2. rewrite usage_set_audit, usage_set_same in Hused, Hdate, Hcl2.
  split; [rewrite Hcl1 in Hcl; by destruct mode|].
  split; [unfold block_ids in *; rewrite Hbl in Hb; by destruct mode|].
  exists (copyStateInto s n). rewrite copy_claims, !copy_usage. split_and!; try done.
  - rewrite Hdate. cbn. unfold today in Ht. by apply bind_Ok in Ht as (_ & _ & [= <-]).
  - destruct (normal_claims n mode Hnn) as (_ & Hsum & _). unfold claims in Hsum. rewrite Hcl2 in Hsum.
    injection Hsum as Hsum. unfold reserved_of in *. by rewrite copy_usage.
  - assert (usage_of (other mode) s1 = usage_of (other mode) s) as E.
    { unfold mode in *. destruct (rc_mode config); cbn [refreshDraft] in Hr; [by injection Hr as <-|].
      by destruct (refreshDraft_keeps _ Live _ _ Hr Hsn) as (_ & _ & ? & _). }
    rewrite (draft_keeps_normal _ _ _ Hn);
      rewrite usage_set_audit, usage_set_other by apply ne_other; done.
  - unfold events_of at 1, copyStateInto. cbn [st_audit]. rewrite Hna. cbn [set_audit st_audit].
    rewrite Ha. f_equal. f_equal. unfold events_of. by rewrite Hau.
Qed.
End Days.

(** A refused call changes nothing: when a reservation, settlement, record or
    reset throws anything but a persistence error, the store is as it was; and a
    persistence error leaves it as it was or with the whole mutation applied. *)
Theorem failed_transaction_is_atomic {W T} {HS : RiskStateStore W} {HL : RiskStateStoreLaws W}
    (f : TradingRiskState -> result RiskError (T * TradingRiskState)) (w w' : W) e :
  ledger_transact f w = (Throw e, w') ->
  match e with
  | PersistenceError _ =>
      store_load w' = store_load w \/
      exists s d t d' n, store_load w = Ok s /\ normalizedState s = Ok d /\ f d = Ok (t, d') /\
        normalizedState d' = Ok n /\ store_load w' = Ok (copyStateInto s n)
  | _ => store_load w' = store_load w
  end.
Proof.
  intros [H|(c & s & t & s' & -> & Hs & Hap & Hw')]%ledger_transact_Throw; [destruct e; auto|].
  right. apply apply_Ok in Hap as (d & d' & n & Hd & Hf & Hn & ->). by exists s, d, t, d', n.
Qed.

(** The calls on a reservation's handle. *)
Inductive handle_call :=
  | HCommit (committedNotional : option number)
  | HRelease.

Definition run_handle {W} {HS : RiskStateStore W} (now : Z) (auditId at_ : string) (c : handle_call) :
    ST (W * RiskReservation) RiskError unit :=
  match c with
  | HCommit n => handle_commit now auditId at_ n
  | HRelease => handle_release now auditId at_
  end.

(** A handle settles once: its first commit or release that returns has settled
    a counted claim, whose id is then in no mode, or had nothing to settle; every
    later commit or release returns and leaves the store and the handle alone. A
    call that throws leaves the handle as it was, so it can be tried again. *)
Theorem handle_settles_once {W} {HS : RiskStateStore W} {HL : RiskStateStoreLaws W}
    now auditId at_ c (w w' : W) h h' r :
  run_handle now auditId at_ c (w, h) = (r, (w', h')) ->
  match r with
  | Ok _ => (forall now' auditId' at_' c', run_handle now' auditId' at_' c' (w', h') = (Ok tt, (w', h'))) /\
      (h_finalized h = true \/ h_count h = false -> w' = w) /\
      (h_finalized h = false -> h_count h = true ->
       exists s', stored w' s' /\ forall m, o_get (h_id h) (claims m s') = None)
  | Throw _ => h' = h /\ h_finalized h = false /\ h_count h = true
  end.
Proof.
  assert (forall now' auditId' at_' c' (v : W) k, h_finalized k = true ->
            run_handle now' auditId' at_' c' (v, k) = (Ok tt, (v, k))) as Hfin.
  { intros now' auditId' at_' c' v k Hk. destruct c'; cbn; by rewrite Hk. }
  destruct c as [n|]; cbn [run_handle handle_commit handle_release];
    (destruct (h_finalized h) eqn:Ef; [intros [= <- <- <-]; split_and!; auto; done|]);
    (destruct (h_count h) eqn:Ec; cbn [negb];
      [|intros [= <- <- <-]; split_and!; [by intros; apply Hfin|done|done]]).
  - destruct (reconcileReservation _ _ _ _ _ _ _ _) as [[[]|e] w1] eqn:E; intros [= <- <- <-]; [|done].
    split_and!; [by intros; apply Hfin|by intros [?|?]|]. intros _ _. by eapply reconcile_removes.
  - destruct (reconcileReservation _ _ _ _ _ _ _ _) as [[[]|e] w1] eqn:E; intros [= <- <- <-]; [|done].
    split_and!; [by intros; apply Hfin|by intros [?|?]|]. intros _ _. by eapply reconcile_removes.
Qed.

(** ** Concrete runs *)

Definition example_usage : RiskUsageState :=
  {| u_date := "2024-01-01"; u_usedDailyNotional := 25; u_reservedDailyNotional := Some 0;
     u_reservations := Some []; u_executionBlocks := None |}.

Definition example_state : TradingRiskState :=
  {| st_paper := example_usage; st_live := example_usage; st_audit := None; st_accountRisk := None |}.

Definition example_config : RiskConfig :=
  {| rc_mode := Live; rc_marketType := Spot; rc_quoteCurrency := "USDT";
     rc_risk := {| maxOrderNotional := 1000000; maxDailyNotional := 5000000; allowedSymbols := [];
                   account := None |} |}.

(** Midnight of the first and of the second of January 2024. *)
Definition example_now : Z := 1704067200000.
Definition example_tomorrow : Z := 1704153600000.

Lemma example_normal : state_normal example_state.
Proof.
  assert (forall m, usage_normal m example_usage) as Hu.
  { intros m. exists 0, []. split; [|reflexivity]. split_and!; try reflexivity; by intros. }
  split_and!; [apply Hu|apply Hu|by intros].
Qed.

Lemma example_account : accountRisk_valid example_state.
Proof. by intros o. Qed.

Lemma example_stored : stored example_state example_state.
Proof. split; [done|]. split; [exact example_normal|exact example_account]. Qed.

(** A claim of one million, then a small one. *)
Definition example_claimed : TradingRiskState :=
  snd (reserve example_config example_now "claim-a" "BTC/USDT" 1000000 true None example_state).

Definition example_claimed_twice : TradingRiskState :=
  snd (reserve example_config example_now "claim-b" "BTC/USDT" 0x1.999999999999ap-4 true None example_claimed).

Definition example_settled : TradingRiskState :=
  snd (reconcileReservation example_now "audit-1" "2024-01-01T00:00:00.000Z" "claim-a" Commit None None
         example_claimed).

(** Rounding can block a settlement: with claims of one million and of one tenth
    in flight, releasing or committing the large one leaves an aggregate that
    differs from the remaining claim by more than the tolerance, and the ledger
    refuses its own draft. *)
Theorem settlement_refused_by_rounding :
  (forall id, id = "claim-a" \/ id = "claim-b" -> is_Some (o_get id (claims Live example_claimed_twice)))%string /\
  forall outcome,
    reconcileReservation example_now "audit-1" "2024-01-01T00:00:00.000Z" "claim-a" outcome None None
      example_claimed_twice =
    (Throw (PersistenceError (StateError "claim-b" SumMismatch)), example_claimed_twice).
Proof.
  split.
  - intros id [->| ->]; eexists; vm_compute; reflexivity.
  - intros []; vm_compute; reflexivity.
Qed.

Lemma check_agrees_with_reserve_witness :
  fst (reserve example_config example_now "claim-a" "BTC/USDT" 100 true None example_state) =
  as_reserve (fst (check example_config example_now "BTC/USDT" 100 true example_state))
    (createReservation "claim-a" Live "BTC/USDT" 100 true).
Proof.
  apply (check_agrees_with_reserve example_config example_now "claim-a" "BTC/USDT" 100 None example_state);
    [apply example_normal|apply example_account|vm_compute; reflexivity|reflexivity|reflexivity|done
    |reflexivity|vm_compute; reflexivity].
Defined.

Lemma reserve_claims_quota_witness :
  exists s', stored example_claimed s' /\ o_keys (claims Live s') = ["claim-a"%string] /\
    sumReservations (claims Live s') = Ok (reserved_of Live s').
Proof.
  destruct (reserve_claims_quota example_config example_now "claim-a" "BTC/USDT" 1000000 None
    example_state (createReservation "claim-a" Live "BTC/USDT" 1000000 true) example_claimed)
    as (s & d & s1 & s' & Hs & Hd & Hr & _ & _ & Hst & Hcl & _ & Hsum & _);
    [vm_compute; reflexivity|].
  exists s'. split; [done|]. split; [|done].
  injection Hs as <-. rewrite normalizedState_normal in Hd by (apply example_normal || apply example_account).
  injection Hd as <-. cbn [rc_mode example_config] in *. rewrite Hcl.
  destruct (refreshDraft_keeps _ _ _ _ Hr example_normal) as (-> & _). reflexivity.
Defined.

Lemma reconcile_settles_claim_witness :
  exists s', stored example_settled s' /\ length (events_of s') = 1%nat.
Proof.
  destruct (reconcile_settles_claim example_now "audit-1" "2024-01-01T00:00:00.000Z" "claim-a" Commit None None
    example_claimed example_settled) as (s & d & s1 & s' & mode & claim & Hs & _ & _ & Hst & H);
    [vm_compute; reflexivity|].
  exists s'. split; [done|]. decompose [and] H. injection Hs as <-.
  match goal with E : events_of s' = _ |- _ => rewrite E end. reflexivity.
Defined.

Lemma settled_at_most_once_witness :
  isOk (fst (reconcileReservation example_now "audit-3" "2024-01-01T00:00:00.000Z" "claim-a" Release None None
    (run_calls example_config (fun l => l)
       [(example_now, CReserve "claim-c" "BTC/USDT" 5 true None); (example_tomorrow, CUsage)]
       example_settled))) = false.
Proof.
  apply (settled_at_most_once example_config (fun l => l) example_now "audit-1" "2024-01-01T00:00:00.000Z"
    "claim-a" Commit None None example_claimed example_settled).
  - vm_compute; reflexivity.
  - intros c [<-|[<-|[]]]; cbn; [|done]. by intros i symbol notional count e [= <- _ _ _ _].
Defined.

Lemma ledger_history_normal_witness :
  exists s', stored (run_calls example_config (fun l => l)
      [(example_now, CReserve "claim-c" "BTC/USDT" 5 true None); (example_tomorrow, CUsage);
       (example_tomorrow, CReset "audit-2" "2024-01-02T00:00:00.000Z")]
      {| fs_disk := example_state; fs_script := [NoFault; FailsAfterWrite; LockFails] |}) s' /\
    st_accountRisk s' = None.
Proof.
  destruct (ledger_history_normal example_config (fun l => l)
    [(example_now, CReserve "claim-c" "BTC/USDT" 5 true None); (example_tomorrow, CUsage);
     (example_tomorrow, CReset "audit-2" "2024-01-02T00:00:00.000Z")]
    {| fs_disk := example_state; fs_script := [NoFault; FailsAfterWrite; LockFails] |} example_state)
    as (s' & Hs' & Ha & _); [|by exists s'].
  split; [done|]. split; [apply example_normal|apply example_account].
Defined.

Lemma usage_follows_the_day_witness :
  exists r, fst (usage example_config example_tomorrow example_state) = Ok r /\
    ur_used r = 0 /\ ur_date r = "2024-01-02"%string.
Proof.
  exists {| ur_date := "2024-01-02"; ur_used := 0; ur_reserved := 0; ur_limit := 5000000; ur_resetPolicy := DailyAuto |}.
  split; [vm_compute; reflexivity|].
  destruct (usage_follows_the_day example_config example_tomorrow example_state example_state
    {| ur_date := "2024-01-02"; ur_used := 0; ur_reserved := 0; ur_limit := 5000000; ur_resetPolicy := DailyAuto |}
    (snd (usage example_config example_tomorrow example_state)))
    as (_ & _ & (Hd & _ & Hu) & _);
    [apply example_stored|vm_compute; reflexivity|vm_compute; reflexivity|].
  split; [exact Hu|vm_compute; reflexivity].
Defined.

Lemma reset_only_at_rest_witness :
  claims Live example_state = [] /\
  exists s', stored (snd (reset example_config example_now "audit-1" "2024-01-01T00:00:00.000Z" example_state)) s' /\
    u_usedDailyNotional (usage_of Live s') = 0.
Proof.
  destruct (reset_only_at_rest example_config example_now "audit-1" "2024-01-01T00:00:00.000Z" example_state
    (snd (reset example_config example_now "audit-1" "2024-01-01T00:00:00.000Z" example_state)) example_state)
    as (Hc & _ & s' & Hs' & _ & Hu & _);
    [apply example_stored|vm_compute; reflexivity|].
  split; [exact Hc|]. by exists s'.
Defined.

Lemma failed_transaction_is_atomic_witness :
  let f := reserve_draft example_config example_now "claim-a" "BTC/USDT" 100 None in
  fst (ledger_transact f example_claimed) = Throw (StateError "claim-a" DuplicateReservation) /\
  store_load (snd (ledger_transact f example_claimed)) = store_load example_claimed.
Proof.
  cbv zeta. split; [vm_compute; reflexivity|].
  refine (failed_transaction_is_atomic
    (reserve_draft example_config example_now "claim-a" "BTC/USDT" 100 None) example_claimed
    (snd (ledger_transact (reserve_draft example_config example_now "claim-a" "BTC/USDT" 100 None) example_claimed))
    (StateError "claim-a" DuplicateReservation) _).
  vm_compute; reflexivity.
Defined.

Lemma handle_settles_once_witness :
  run_handle example_now "audit-2" "2024-01-01T00:00:00.000Z" HRelease
    (example_settled, finalize (createReservation "claim-a" Live "BTC/USDT" 1000000 true)) =
  (Ok tt, (example_settled, finalize (createReservation "claim-a" Live "BTC/USDT" 1000000 true))).
Proof.
  destruct (handle_settles_once example_now "audit-1" "2024-01-01T00:00:00.000Z" (HCommit None)
    example_claimed example_settled (createReservation "claim-a" Live "BTC/USDT" 1000000 true)
    (finalize (createReservation "claim-a" Live "BTC/USDT" 1000000 true)) (Ok tt)) as (H & _);
    [vm_compute; reflexivity|].
  apply H.
Defined.
