(* ===== verification/Triggers.v ===== *)
(** * Triggers (packages/triggers/src: model.ts, evaluator.ts, schema.ts)

    Conditions over observed facts, their three-valued evaluation with the timers
    of [stable_for], the transition of a trigger, and the validators.  Times are
    JavaScript numbers.  [Date.parse] is a parameter: its result on texts that are
    not in the standard format is up to the engine.  The condition schemas of
    schema.ts are data for the typebox package and are not modelled. *)

From Stdlib Require Import ZArith Lia Bool Ascii Floats.
From stdpp Require Import base strings option list pretty.
From S2P Require Import Prelude JsNumber JsObject JsValue.

Local Open Scope float_scope.

(** ** Data (model.ts) *)

Inductive TriState := TTrue | TFalse | TUnknown.
Inductive CompareOperator := OpEq | OpNeq | OpGt | OpGte | OpLt | OpLte.

#[export] Instance TriState_eq_dec : EqDecision TriState.
Proof. solve_decision. Defined.

Definition MAX_CHANGE_WINDOW_SEC : number := 60 * 60.
Definition CHANGE_WINDOW_BASELINE_TOLERANCE_MS : number := 15000.

(** [number | string | boolean] *)
Inductive scalar := SNum (n : number) | SStr (s : string) | SBool (b : bool).

Inductive Direction := Above | Below.
Inductive ChangeUnit := Absolute | Percent.

(** The kinds of a condition; [Unsupported] is any other object, which only
    reaches the evaluator unvalidated. *)
Inductive Condition :=
  | CTime (at_ : string)
  | CCompare (fact : string) (operator : CompareOperator) (v : scalar)
  | CCross (fact : string) (direction : Direction) (v : number)
  | CChange (fact : string) (windowSec : number) (operator : CompareOperator) (v : number) (unit : ChangeUnit)
  | CAll (conditions : list Condition)
  | CAny (conditions : list Condition)
  | CNot (condition : Condition)
  | CStableFor (condition : Condition) (durationSec : number)
  | Unsupported (kind : string).

(** [mode] is the text found there: the evaluator checks it again. *)
Record TriggerPolicy := { p_mode : option string; p_cooldownSec : option number; p_expiresAt : option string }.

Inductive TriggerActionKind := Notify | WakeAgent.

Record TriggerDefinition := {
  td_id : string;
  td_name : string;
  td_when : Condition;
  td_then : TriggerActionKind * string;
  td_policy : option TriggerPolicy
}.

Inductive TriggerStatus := Active | Fired | Expired.

Abbreviation StableState := (obj number).

Record RuntimeState := {
  rs_status : TriggerStatus;
  rs_armed : bool;
  rs_baseline : option number;
  rs_stableSince : option number;
  rs_stableSinceByPath : option StableState;
  rs_lastFiredAt : option number;
  rs_lastEvaluationAt : option number
}.

Record FactHistorySample := { hs_value : number; hs_observedAt : number }.

Inductive FactQuality := QLive | QDelayed | QRecovered.

Record FactValue := {
  f_value : scalar;
  f_observedAt : number;
  f_previousValue : option number;
  f_previousObservedAt : option number;
  f_history : option (list FactHistorySample);
  f_quality : option FactQuality
}.

Definition FactSnapshot := obj FactValue.

(** An evaluation; its [reason] text is left out. *)
Record Evaluated := { e_state : TriState; e_states : StableState }.

Record TransitionResult := { t_state : RuntimeState; t_evaluation : TriState; t_shouldFire : bool }.

Inductive TriggerError := BadOption | BadTime.

(** ** Evaluation (evaluator.ts) *)

Record Options := {
  maxAgeMs : number;
  futureToleranceMs : number;
  maxChangeWindowSec : number;
  changeBaselineToleranceMs : number
}.

(** [EvaluatorOptions]: every field may be absent. *)
Record EvaluatorOptions := {
  o_maxAgeMs : option number;
  o_futureToleranceMs : option number;
  o_maxChangeWindowSec : option number;
  o_changeBaselineToleranceMs : option number
}.

Definition no_options : EvaluatorOptions :=
  {| o_maxAgeMs := None; o_futureToleranceMs := None; o_maxChangeWindowSec := None;
     o_changeBaselineToleranceMs := None |}.

Definition DEFAULT_OPTIONS : Options :=
  {| maxAgeMs := 5 * 60000; futureToleranceMs := 5000; maxChangeWindowSec := MAX_CHANGE_WINDOW_SEC;
     changeBaselineToleranceMs := CHANGE_WINDOW_BASELINE_TOLERANCE_MS |}.

Definition of_bool (b : bool) : TriState := if b then TTrue else TFalse.

(** [left === right] *)
Definition strict_eq (l r : scalar) : bool :=
  match l, r with
  | SNum a, SNum b => a =? b
  | SStr a, SStr b => String.eqb a b
  | SBool a, SBool b => Bool.eqb a b
  | _, _ => false
  end.

Definition compare (left : scalar) (operator : CompareOperator) (right : scalar) : TriState :=
  if (match left with SNum n => negb (isFinite n) | _ => false end) then TUnknown else
  match operator with
  | OpEq => of_bool (strict_eq left right)
  | OpNeq => of_bool (negb (strict_eq left right))
  | _ =>
      match left, right with
      | SNum l, SNum r =>
          if negb (isFinite r) then TUnknown else
          match operator with
          | OpGt => of_bool (r <? l)
          | OpGte => of_bool (r <=? l)
          | OpLt => of_bool (l <? r)
          | _ => of_bool (l <=? r)
          end
      | _, _ => TUnknown
      end
  end.

Definition validObservation (fact : option FactValue) (now : number) (options : Options) : bool :=
  match fact with
  | Some f =>
      isFinite (f_observedAt f) && (0 <=? f_observedAt f)
      && (f_observedAt f <=? now + futureToleranceMs options)
      && (now - f_observedAt f <=? maxAgeMs options)
  | None => false
  end.

Definition finite_opt (o : option number) : bool := match o with Some n => isFinite n | None => false end.

Definition validPreviousObservation (fact : FactValue) (now : number) (options : Options) : bool :=
  finite_opt (f_previousValue fact)
  && match f_previousObservedAt fact with
     | Some p => isFinite p && (0 <=? p) && (p <? f_observedAt fact)
                 && (p <=? now + futureToleranceMs options) && (now - p <=? maxAgeMs options)
     | None => false
     end.

(** The samples a change is measured from, in the order they are examined. *)
Definition change_samples (fact : FactValue) : list FactHistorySample :=
  app (match f_previousValue fact, f_previousObservedAt fact with
       | Some v, Some p => if isFinite v && isFinite p then [{| hs_value := v; hs_observedAt := p |}] else []
       | _, _ => []
       end)
      (default [] (f_history fact)).

Definition usable_sample (fact : FactValue) (targetAt : number) (options : Options)
    (sample : FactHistorySample) : bool :=
  negb (negb (isFinite (hs_value sample)) || negb (isFinite (hs_observedAt sample))
        || (hs_observedAt sample <? 0) || (f_observedAt fact <=? hs_observedAt sample)
        || (targetAt <? hs_observedAt sample)
        || (changeBaselineToleranceMs options <? targetAt - hs_observedAt sample)).

Definition changeBaseline (fact : FactValue) (windowSec : number) (options : Options) :
    option FactHistorySample :=
  if negb (isFinite windowSec) || (windowSec <=? 0) || (maxChangeWindowSec options <? windowSec) then None else
  let targetAt := f_observedAt fact - windowSec * 1000 in
  fold_left (fun baseline sample =>
    if negb (usable_sample fact targetAt options sample) then baseline else
    match baseline with
    | None => Some sample
    | Some b => if hs_observedAt b <? hs_observedAt sample then Some sample else baseline
    end) (change_samples fact) None.

(** [{ ...DEFAULT_OPTIONS, ...options }]; an option that is present is validated. *)
Definition normalizeOptions (options : EvaluatorOptions) : result TriggerError Options :=
  let next := {| maxAgeMs := default (maxAgeMs DEFAULT_OPTIONS) (o_maxAgeMs options);
                 futureToleranceMs := default (futureToleranceMs DEFAULT_OPTIONS) (o_futureToleranceMs options);
                 maxChangeWindowSec := default (maxChangeWindowSec DEFAULT_OPTIONS) (o_maxChangeWindowSec options);
                 changeBaselineToleranceMs :=
                   default (changeBaselineToleranceMs DEFAULT_OPTIONS) (o_changeBaselineToleranceMs options) |} in
  let bad n := negb (isFinite n) || (n <? 0) in
  _ ← throwIf (bad (maxAgeMs next) || bad (futureToleranceMs next) || bad (maxChangeWindowSec next)
               || bad (changeBaselineToleranceMs next)) BadOption;
  Ok next.

Definition tri_not (s : TriState) : TriState :=
  match s with TUnknown => TUnknown | TTrue => TFalse | TFalse => TTrue end.

Definition includes_state (s : TriState) (l : list TriState) : bool := existsb (fun x => bool_decide (x = s)) l.
Definition every_state (s : TriState) (l : list TriState) : bool := forallb (fun x => bool_decide (x = s)) l.

Definition tri_all (results : list TriState) : TriState :=
  if includes_state TFalse results then TFalse
  else if every_state TTrue results then TTrue else TUnknown.
Definition tri_any (results : list TriState) : TriState :=
  if includes_state TTrue results then TTrue
  else if every_state TFalse results then TFalse else TUnknown.

(** [`${path}.${index}`] and [`${path}.condition`] *)
Definition sub_path (path : string) (index : nat) : string :=
  String.append path (String.append "." (pretty (N.of_nat index))).
Definition condition_path (path : string) : string := String.append path ".condition".

Section Evaluate.
Variable parseDate : string -> number.
Variable facts : FactSnapshot.
Variable now : number.
Variable options : Options.

Definition number_of (v : scalar) : option number := match v with SNum n => Some n | _ => None end.

(** The atomic conditions, which read no timer. *)
Definition evaluate_cross (f : option FactValue) (direction : Direction) (v : number) : TriState :=
  match f with
  | Some fact =>
      if negb (validObservation f now options) then TUnknown else
      match f_value fact with
      | SNum n =>
          if negb (isFinite n) || negb (validPreviousObservation fact now options) then TUnknown else
          let previousValue := default 0 (f_previousValue fact) in
          of_bool (match direction with
                   | Above => (previousValue <=? v) && (v <? n)
                   | Below => (v <=? previousValue) && (n <? v)
                   end)
      | _ => TUnknown
      end
  | None => TUnknown
  end.

Definition evaluate_change (f : option FactValue) (windowSec : number) (operator : CompareOperator)
    (v : number) (unit : ChangeUnit) : TriState :=
  match f with
  | Some fact =>
      if negb (validObservation f now options) then TUnknown else
      match f_value fact with
      | SNum n =>
          if negb (isFinite n) || negb (isFinite windowSec) || (windowSec <=? 0)
             || (maxChangeWindowSec options <? windowSec) then TUnknown else
          match changeBaseline fact windowSec options with
          | None => TUnknown
          | Some b =>
              match unit with
              | Percent =>
                  if hs_value b =? 0 then TUnknown
                  else compare (SNum ((n - hs_value b) / Math_abs (hs_value b) * 100)) operator (SNum v)
              | Absolute => compare (SNum (n - hs_value b)) operator (SNum v)
              end
          end
      | _ => TUnknown
      end
  | None => TUnknown
  end.

Definition evaluate_compare (f : option FactValue) (operator : CompareOperator) (v : scalar) : TriState :=
  match f with
  | Some fact => if validObservation f now options then compare (f_value fact) operator v else TUnknown
  | None => TUnknown
  end.

Definition evaluate_time (at_ : string) : TriState :=
  let at_ := parseDate at_ in
  if isFinite at_ then of_bool (at_ <=? now) else TUnknown.

(** [conditions.map((child, index) => ...)], threading the timers. *)
Definition evaluate_children (evaluate : Condition -> StableState -> string -> Evaluated) (path : string) :=
  fix children (l : list Condition) (index : nat) (next : StableState) : list TriState * StableState :=
    match l with
    | [] => ([], next)
    | child :: rest =>
        let evaluated := evaluate child next (sub_path path index) in
        let r := children rest (S index) (e_states evaluated) in
        (e_state evaluated :: fst r, snd r)
    end.

(** The timer of a [stable_for] after its condition has been evaluated. *)
Definition stable_since (inner : Evaluated) (path : string) : option number :=
  match e_state inner with
  | TTrue => Some (default now (o_get path (e_states inner)))
  | _ => None
  end.

Definition stable_result (inner : Evaluated) (path : string) (durationSec : number) : Evaluated :=
  let since := stable_since inner path in
  {| e_state := if (match since with Some t => durationSec * 1000 <=? now - t | None => false end) then TTrue
                else match e_state inner with TUnknown => TUnknown | _ => TFalse end;
     e_states := match since with
                 | None => o_delete path (e_states inner)
                 | Some t => o_set path t (e_states inner)
                 end |}.

Fixpoint evaluate (condition : Condition) (states : StableState) (path : string) : Evaluated :=
  let leaf s := {| e_state := s; e_states := states |} in
  match condition with
  | CTime at_ => leaf (evaluate_time at_)
  | CCompare fact operator v => leaf (evaluate_compare (o_get fact facts) operator v)
  | CCross fact direction v => leaf (evaluate_cross (o_get fact facts) direction v)
  | CChange fact windowSec operator v unit =>
      leaf (evaluate_change (o_get fact facts) windowSec operator v unit)
  | CNot c =>
      let inner := evaluate c states (sub_path path 0) in
      {| e_state := tri_not (e_state inner); e_states := e_states inner |}
  | CAll cs =>
      let r := evaluate_children evaluate path cs 0 states in
      {| e_state := tri_all (fst r); e_states := snd r |}
  | CAny cs =>
      let r := evaluate_children evaluate path cs 0 states in
      {| e_state := tri_any (fst r); e_states := snd r |}
  | CStableFor c durationSec => stable_result (evaluate c states (condition_path path)) path durationSec
  | Unsupported _ => leaf TUnknown
  end.
End Evaluate.

(** [evaluateCondition]: the timers start from [stableSinceByPath], with the
    deprecated root timer added when it has no entry. *)
Definition initial_states (stableSince : option number) (stableSinceByPath : option StableState) : StableState :=
  let initial := default [] stableSinceByPath in
  match stableSince with
  | Some t => if o_has "$" initial then initial else o_set "$" t initial
  | None => initial
  end.

Definition evaluateCondition (parseDate : string -> number) (condition : Condition) (facts : FactSnapshot)
    (now : number) (stableSince : option number) (options : EvaluatorOptions)
    (stableSinceByPath : option StableState) : result TriggerError Evaluated :=
  _ ← throwIf (negb (isFinite now)) BadTime;
  options ← normalizeOptions options;
  Ok (evaluate parseDate facts now options condition (initial_states stableSince stableSinceByPath) "$").

(** ** Transitions *)

Definition with_evaluation (previous : RuntimeState) (status : TriggerStatus) (now : number) : RuntimeState :=
  {| rs_status := status; rs_armed := rs_armed previous; rs_baseline := rs_baseline previous;
     rs_stableSince := rs_stableSince previous; rs_stableSinceByPath := rs_stableSinceByPath previous;
     rs_lastFiredAt := rs_lastFiredAt previous; rs_lastEvaluationAt := Some now |}.

Definition policy_of {A} (f : TriggerPolicy -> option A) (d : TriggerDefinition) : option A :=
  match td_policy d with Some p => f p | None => None end.

Definition mode_of (d : TriggerDefinition) : string := default "on_edge"%string (policy_of p_mode d).
Definition cooldown_of (d : TriggerDefinition) : number := default 0 (policy_of p_cooldownSec d).

(** [definition.policy?.expiresAt ? Date.parse(...) : undefined] *)
Definition expiry_of (parseDate : string -> number) (d : TriggerDefinition) : option number :=
  match policy_of p_expiresAt d with
  | Some s => if String.eqb s "" then None else Some (parseDate s)
  | None => None
  end.

Definition valid_mode (mode : string) : bool :=
  String.eqb mode "once" || String.eqb mode "on_edge" || String.eqb mode "while_true".

Definition transitionTrigger (parseDate : string -> number) (definition : TriggerDefinition)
    (previous : RuntimeState) (facts : FactSnapshot) (now : number) (options : EvaluatorOptions) :
    result TriggerError TransitionResult :=
  let keep s evaluation := Ok {| t_state := s; t_evaluation := evaluation; t_shouldFire := false |} in
  _ ← throwIf (negb (isFinite now)) BadTime;
  match rs_status previous with
  | Expired => keep previous TFalse
  | Fired => keep previous TUnknown
  | Active =>
      let expiresAt := expiry_of parseDate definition in
      if (match expiresAt with Some t => negb (isFinite t) | None => false end)
      then keep (with_evaluation previous Active now) TUnknown
      else if (match expiresAt with Some t => t <=? now | None => false end)
      then keep (with_evaluation previous Expired now) TFalse
      else
        evaluation ← evaluateCondition parseDate (td_when definition) facts now (rs_stableSince previous)
                       options (rs_stableSinceByPath previous);
        let mode := mode_of definition in
        let cooldownSec := cooldown_of definition in
        if negb (valid_mode mode) then keep (with_evaluation previous Active now) TUnknown
        else if negb (isFinite cooldownSec) || (cooldownSec <? 0)
        then keep (with_evaluation previous Active now) TUnknown
        else
          let cooled := match rs_lastFiredAt previous with
                        | None => true
                        | Some t => cooldownSec * 1000 <=? now - t
                        end in
          let state := e_state evaluation in
          let shouldFire := bool_decide (state = TTrue) && cooled
                            && (String.eqb mode "once" || String.eqb mode "while_true" || rs_armed previous) in
          let next :=
            {| rs_status := if shouldFire && String.eqb mode "once" then Fired else Active;
               rs_armed := match state with TUnknown => rs_armed previous | TTrue => false | TFalse => true end;
               rs_baseline := rs_baseline previous;
               rs_stableSince := o_get "$" (e_states evaluation);
               rs_stableSinceByPath := Some (e_states evaluation);
               rs_lastFiredAt := if shouldFire then Some now else rs_lastFiredAt previous;
               rs_lastEvaluationAt := Some now |} in
          Ok {| t_state := next; t_evaluation := state; t_shouldFire := shouldFire |}
  end.

(** ** Validation (schema.ts) *)

Inductive SchemaError :=
  | TooDeep | NotRecord | NoKind | BadDate | BadFact | BadOperator | BadCompareValue | NotFinite
  | BadDirection | BadWindow | WindowTooLong | BadUnit | BadChildren | BadDuration | UnsupportedKind
  | TooManyAtoms | BadId | BadName | BadAction | BadMessage | BadMode | BadCooldown.

Definition compareOperators : list string := ["eq"; "neq"; "gt"; "gte"; "lt"; "lte"]%string.

Section Validate.
Variable parseDate : string -> number.

Definition record (v : value) : result SchemaError unit := throwIf (negb (isRecord v)) NotRecord.

Definition finite (v : value) : result SchemaError number :=
  match v with VNum n => if isFinite n then Ok n else Throw NotFinite | _ => Throw NotFinite end.

Definition nonblank (v : value) : bool := isString (fun s => negb (blank s)) v.

Definition fact (v : value) : result SchemaError unit :=
  _ ← record v; throwIf (negb (nonblank (prop "key" v))) BadFact.

Definition date (v : value) : result SchemaError unit :=
  throwIf (negb (isString (fun s => negb (blank s) && isFinite (parseDate s)) v)) BadDate.

Definition isOperator (v : value) : bool := isString (str_in compareOperators) v.

Definition compare_value (v : value) : result SchemaError unit :=
  match v with
  | VNum n => throwIf (negb (isFinite n)) NotFinite
  | VStr _ | VBool _ => Ok tt
  | _ => Throw BadCompareValue
  end.

(** An atomic condition, by its kind. *)
Definition validate_atom (kind : string) (v : value) : result SchemaError unit :=
  if String.eqb kind "time" then date (prop "at" v)
  else if String.eqb kind "compare" then
    _ ← fact (prop "fact" v);
    _ ← throwIf (negb (isOperator (prop "operator" v))) BadOperator;
    compare_value (prop "value" v)
  else if String.eqb kind "cross" then
    _ ← fact (prop "fact" v);
    _ ← finite (prop "value" v);
    throwIf (negb (isLit "above" (prop "direction" v) || isLit "below" (prop "direction" v))) BadDirection
  else if String.eqb kind "change" then
    _ ← fact (prop "fact" v);
    _ ← finite (prop "value" v);
    _ ← throwIf (negb (isNumber (fun n => isFinite n && negb (n <=? 0)) (prop "windowSec" v))) BadWindow;
    _ ← throwIf (isNumber (fun n => MAX_CHANGE_WINDOW_SEC <? n) (prop "windowSec" v)) WindowTooLong;
    _ ← throwIf (negb (isLit "absolute" (prop "unit" v) || isLit "percent" (prop "unit" v))) BadUnit;
    throwIf (negb (isOperator (prop "operator" v))) BadOperator
  else Throw UnsupportedKind.

(** [validateCondition(value, depth, atoms)]; [levels] is 6 - depth, and the count of
    atoms is threaded. *)
Fixpoint validate (levels : nat) (v : value) (atoms : Z) : result SchemaError Z :=
  match levels with
  | O => Throw TooDeep
  | S levels =>
      _ ← record v;
      match prop "kind" v with
      | VStr kind =>
          if String.eqb kind "all" || String.eqb kind "any" then
            match prop "conditions" v with
            | VArr l =>
                _ ← throwIf (Nat.eqb (length l) 0 || (10 <? length l)%nat) BadChildren;
                foldM (fun atoms child => validate levels child atoms) atoms l
            | _ => Throw BadChildren
            end
          else if String.eqb kind "not" then validate levels (prop "condition" v) atoms
          else if String.eqb kind "stable_for" then
            d ← finite (prop "durationSec" v);
            _ ← throwIf (d <=? 0) BadDuration;
            validate levels (prop "condition" v) atoms
          else
            _ ← validate_atom kind v;
            let atoms := (atoms + 1)%Z in
            _ ← throwIf (30 <? atoms)%Z TooManyAtoms;
            Ok atoms
      | _ => Throw NoKind
      end
  end.

Definition validateCondition (v : value) : result SchemaError unit := _ ← validate 6 v 0; Ok tt.

Definition validateTriggerDefinition (v : value) : result SchemaError unit :=
  _ ← record v;
  _ ← throwIf (negb (nonblank (prop "id" v))) BadId;
  _ ← throwIf (negb (nonblank (prop "name" v))) BadName;
  _ ← validateCondition (prop "when" v);
  let action := prop "then" v in
  _ ← record action;
  _ ← throwIf (negb (isLit "notify" (prop "kind" action) || isLit "wake_agent" (prop "kind" action))) BadAction;
  _ ← throwIf (negb (nonblank (prop "message" action))) BadMessage;
  let policy := prop "policy" v in
  if negb (defined policy) then Ok tt else
  _ ← record policy;
  _ ← throwIf (negb (optional (literal_in ["once"; "on_edge"; "while_true"]%string) (prop "mode" policy))) BadMode;
  _ ← (if defined (prop "cooldownSec" policy)
       then n ← finite (prop "cooldownSec" policy); throwIf (n <? 0) BadCooldown else Ok tt);
  if defined (prop "expiresAt" policy) then date (prop "expiresAt" policy) else Ok tt.
End Validate.

(** ** Outcomes of a transition *)

Section Transitions.
Variable parseDate : string -> number.
Variable definition : TriggerDefinition.
Variable options : EvaluatorOptions.

(** A transition leaves a settled trigger alone, or only notes the evaluation, or
    evaluates the condition and perhaps fires. *)
Inductive outcome (previous : RuntimeState) (now : number) (r : TransitionResult) : Prop :=
  | Settled :
      rs_status previous <> Active -> t_state r = previous -> t_shouldFire r = false ->
      outcome previous now r
  | Noted status :
      rs_status previous = Active -> t_state r = with_evaluation previous status now ->
      t_shouldFire r = false -> (t_evaluation r = TFalse -> status = Expired) -> outcome previous now r
  | Decided :
      rs_status previous = Active ->
      rs_status (t_state r) =
        (if t_shouldFire r && String.eqb (mode_of definition) "once" then Fired else Active) ->
      rs_lastFiredAt (t_state r) = (if t_shouldFire r then Some now else rs_lastFiredAt previous) ->
      rs_armed (t_state r) = match t_evaluation r with
                             | TUnknown => rs_armed previous | TTrue => false | TFalse => true end ->
      (t_shouldFire r = true ->
         t_evaluation r = TTrue /\
         (forall t, rs_lastFiredAt previous = Some t -> (cooldown_of definition * 1000 <=? now - t) = true) /\
         (mode_of definition = "on_edge"%string -> rs_armed previous = true)) ->
      outcome previous now r.

Lemma transition_outcome previous facts now r :
  transitionTrigger parseDate definition previous facts now options = Ok r -> outcome previous now r.
Proof.
  unfold transitionTrigger. intros ([] & _ & H)%bind_Ok.
  destruct (rs_status previous) eqn:Es; [|injection H as <-; by apply Settled; rewrite ?Es..].
  cbv zeta in H. destruct (match expiry_of _ _ with Some t => negb (isFinite t) | None => false end);
    [injection H as <-; by apply (Noted _ _ _ Active)|].
  destruct (match expiry_of _ _ with Some t => t <=? now | None => false end);
    [injection H as <-; by apply (Noted _ _ _ Expired)|].
  apply bind_Ok in H as (ev & _ & H).
  destruct (negb (valid_mode _)); [injection H as <-; by apply (Noted _ _ _ Active)|].
  destruct (negb _ || _); [injection H as <-; by apply (Noted _ _ _ Active)|].
  injection H as <-. apply Decided; cbn -[mode_of]; try done. intros Hf. bool_hyps.
  match goal with E : bool_decide _ = true |- _ => apply bool_decide_eq_true in E end.
  split_and!; [done| |].
  - intros t Ht. by rewrite Ht in *.
  - intros Hm. rewrite Hm in *. done.
Qed.

(** A run: every observation is evaluated at its time; one that throws leaves the state. *)
Fixpoint run (previous : RuntimeState) (obs : list (FactSnapshot * number)) : list TransitionResult :=
  match obs with
  | [] => []
  | (facts, now) :: rest =>
      match transitionTrigger parseDate definition previous facts now options with
      | Ok r => r :: run (t_state r) rest
      | Throw _ => run previous rest
      end
  end.

(** The states a run passes through. *)
Lemma run_split previous obs l1 r l2 :
  run previous obs = l1 ++ r :: l2 ->
  exists p facts now obs2, transitionTrigger parseDate definition p facts now options = Ok r /\
    l2 = run (t_state r) obs2 /\
    p = match last l1 with Some q => t_state q | None => previous end.
Proof.
  revert previous l1. induction obs as [|[facts now] obs IH]; intros previous l1; cbn [run].
  { intros H. by destruct l1. }
  destruct (transitionTrigger _ _ previous facts now options) as [q|e] eqn:E; [|apply IH].
  destruct l1 as [|q' l1]; cbn [app]; intros [= <- H].
  - exists previous, facts, now, obs. done.
  - apply IH in H as (p & f & n & o & Ht & Hl & ->). exists (match last l1 with Some x => t_state x | None => t_state q end), f, n, o.
    split_and!; [done..|]. destruct l1 as [|x l1]; [done|]. rewrite !last_cons. by destruct (last l1).
Qed.

Lemma run_ind (P : RuntimeState -> list TransitionResult -> Prop) :
  (forall s, P s []) ->
  (forall s facts now r o, transitionTrigger parseDate definition s facts now options = Ok r ->
     outcome s now r -> P (t_state r) (run (t_state r) o) -> P s (r :: run (t_state r) o)) ->
  forall obs s, P s (run s obs).
Proof.
  intros Hn Hc obs. induction obs as [|[facts now] obs IH]; intros s; cbn [run]; [apply Hn|].
  destruct (transitionTrigger _ _ s facts now options) as [r|e] eqn:E; [|apply IH].
  eapply Hc; [exact E|by eapply transition_outcome|apply IH].
Qed.

(** A settled trigger never moves again. *)
Lemma settled_run s obs :
  rs_status s <> Active -> Forall (fun r => t_state r = s /\ t_shouldFire r = false) (run s obs).
Proof.
  apply (run_ind (fun s l => rs_status s <> Active ->
    Forall (fun r => t_state r = s /\ t_shouldFire r = false) l)); [by constructor|].
  intros s1 facts now r o _ Ho IH Hs. destruct Ho as [_ He Hf| |]; [|congruence..].
  constructor; [done|]. rewrite He in *. by apply IH.
Qed.

Definition fires (l : list TransitionResult) : nat := length (List.filter t_shouldFire l).

Lemma no_fires l : Forall (fun r => t_shouldFire r = false) l -> fires l = 0%nat.
Proof. unfold fires. induction 1 as [|r l H _ IH]; cbn; [done|]. by rewrite H. Qed.

(** The last firing of a run is remembered. *)
Lemma silent_keeps_fired_at l s obs r rest :
  run s obs = l ++ r :: rest -> Forall (fun x => t_shouldFire x = false) l ->
  match last l with Some q => rs_lastFiredAt (t_state q) | None => rs_lastFiredAt s end = rs_lastFiredAt s.
Proof.
  revert s obs. induction l as [|q l IH]; [done|]. intros s obs H Hf. apply Forall_cons in Hf as [Hq Hf].
  assert (exists facts now o, transitionTrigger parseDate definition s facts now options = Ok q /\
            l ++ r :: rest = run (t_state q) o) as (facts & now & o & Ht & Hr).
  { destruct (run_split s obs [] q (l ++ r :: rest) H) as (p & f & n & o & Ht & Hr & ->).
    by exists f, n, o. }
  symmetry in Hr. specialize (IH _ _ Hr Hf). apply transition_outcome in Ht.
  rewrite last_cons. assert (rs_lastFiredAt (t_state q) = rs_lastFiredAt s) as Hs.
  { destruct Ht as [_ -> _|st _ -> _ _|_ _ Hl _ _]; [done|done|]. by rewrite Hl, Hq. }
  destruct (last l); congruence.
Qed.

(** C37: A trigger in mode [once] fires at most once, whatever is observed, and is
    settled by the firing: every later transition leaves it fired. *)
Theorem once_fires_at_most_once s obs :
  mode_of definition = "once"%string ->
  fires (run s obs) <= 1 /\
  forall l1 r l2, run s obs = l1 ++ r :: l2 -> t_shouldFire r = true ->
    rs_status (t_state r) = Fired /\ Forall (fun x => t_state x = t_state r) l2.
Proof.
  intros Hm. assert (forall p facts now r, transitionTrigger parseDate definition p facts now options = Ok r ->
    t_shouldFire r = true -> rs_status (t_state r) = Fired) as Hfired.
  { intros p facts now r Ht Hf. apply transition_outcome in Ht as [|? ? ? ? ?|_ Hs _ _ _]; [congruence..|].
    by rewrite Hs, Hf, Hm. }
  split.
  - apply (run_ind (fun s l => (fires l <= 1)%nat)); [unfold fires; cbn; lia|].
    intros s1 facts now r o Ht _ IH. unfold fires in *. cbn [List.filter].
    destruct (t_shouldFire r) eqn:Ef; [|done]. cbn [length].
    assert (fires (run (t_state r) o) = 0%nat) as H0.
    { apply no_fires. eapply Forall_impl; [apply settled_run|by intros x [_ ?]].
      by rewrite (Hfired _ _ _ _ Ht Ef). }
    unfold fires in H0. by rewrite H0.
  - intros l1 r l2 H Hf. destruct (run_split _ _ _ _ _ H) as (p & facts & now & o & Ht & -> & _).
    specialize (Hfired _ _ _ _ Ht Hf). split; [done|].
    eapply Forall_impl; [apply settled_run; by rewrite Hfired|by intros x [? _]].
Qed.

(** In mode [on_edge] two firings are separated by an evaluation that came out
    false: the trigger re-arms only when its condition is known not to hold. *)
Theorem on_edge_rearms s obs l1 r1 l2 r2 l3 :
  mode_of definition = "on_edge"%string ->
  run s obs = l1 ++ r1 :: l2 ++ r2 :: l3 -> t_shouldFire r1 = true -> t_shouldFire r2 = true ->
  Exists (fun x => t_evaluation x = TFalse) l2.
Proof.
  intros Hm H Hf1 Hf2. destruct (run_split _ _ _ _ _ H) as (p & facts & now & o & Ht & Hr & _).
  assert (rs_armed (t_state r1) = false) as Ha.
  { apply transition_outcome in Ht as [|? ? ? ? ?|_ _ _ Ha Hfire]; [congruence..|].
    destruct (Hfire Hf1) as (He & _). by rewrite Ha, He. }
  symmetry in Hr. clear H Ht p facts now. revert Ha o Hr. generalize (t_state r1) as p. clear r1 Hf1.
  induction l2 as [|q l2 IH]; intros p Ha o Hr; cbn [app] in Hr.
  - destruct (run_split p o [] r2 l3 Hr) as (p' & facts & now & o2 & Ht & _ & ->). cbn in Ht.
    apply transition_outcome in Ht as [|? ? ? ? ?|_ _ _ _ Hfire]; [congruence..|].
    destruct (Hfire Hf2) as (_ & _ & Harm). rewrite (Harm Hm) in Ha. done.
  - destruct (run_split p o [] q _ Hr) as (p' & facts & now & o2 & Ht & Hr2 & ->). cbn in Ht.
    destruct (decide (t_evaluation q = TFalse)) as [Hq|Hq]; [by left|right].
    symmetry in Hr2. apply (IH (t_state q)) with (o := o2); [|done].
    apply transition_outcome in Ht as [_ -> _|st _ -> _ _|_ _ _ -> _]; [done|done|].
    by destruct (t_evaluation q).
Qed.

(** Two firings with none in between are at least the cooldown apart, in every mode. *)
Theorem firings_respect_cooldown s obs l1 r1 l2 r2 l3 :
  run s obs = l1 ++ r1 :: l2 ++ r2 :: l3 -> t_shouldFire r1 = true -> t_shouldFire r2 = true ->
  Forall (fun x => t_shouldFire x = false) l2 ->
  exists t1 t2, rs_lastFiredAt (t_state r1) = Some t1 /\ rs_lastFiredAt (t_state r2) = Some t2 /\
    (cooldown_of definition * 1000 <=? t2 - t1) = true.
Proof.
  intros H Hf1 Hf2 Hsil. destruct (run_split _ _ _ _ _ H) as (p & facts & now & o & Ht & Hr & _).
  apply transition_outcome in Ht as [|? ? ? ? ?|_ _ Hl1 _ _]; [congruence..|]. rewrite Hf1 in Hl1.
  symmetry in Hr. pose proof (silent_keeps_fired_at _ _ _ _ _ Hr Hsil) as Hk.
  destruct (run_split _ _ _ _ _ Hr) as (p2 & facts2 & now2 & o2 & Ht2 & _ & ->).
  apply transition_outcome in Ht2 as [|? ? ? ? ?|_ _ Hl2 _ Hfire]; [congruence..|]. rewrite Hf2 in Hl2.
  exists now, now2. split_and!; [done..|]. destruct (Hfire Hf2) as (_ & Hc & _). apply Hc.
  rewrite Hl1 in Hk. by destruct (last l2).
Qed.
End Transitions.

(** ** Timers *)

Section ConditionInd.
Variable P : Condition -> Prop.
Hypothesis Htime : forall a, P (CTime a).
Hypothesis Hcompare : forall f o v, P (CCompare f o v).
Hypothesis Hcross : forall f d v, P (CCross f d v).
Hypothesis Hchange : forall f w o v u, P (CChange f w o v u).
Hypothesis Hall : forall l, Forall P l -> P (CAll l).
Hypothesis Hany : forall l, Forall P l -> P (CAny l).
Hypothesis Hnot : forall c, P c -> P (CNot c).
Hypothesis Hstable : forall c d, P c -> P (CStableFor c d).
Hypothesis Hother : forall k, P (Unsupported k).

(** Induction on conditions, through the lists of children. *)
Fixpoint condition_ind (c : Condition) : P c :=
  let fix children l : Forall P l :=
    match l with [] => Forall_nil_2 _ | c :: r => Forall_cons_2 _ _ _ (condition_ind c) (children r) end in
  match c with
  | CTime a => Htime a
  | CCompare f o v => Hcompare f o v
  | CCross f d v => Hcross f d v
  | CChange f w o v u => Hchange f w o v u
  | CAll l => Hall l (children l)
  | CAny l => Hany l (children l)
  | CNot c => Hnot c (condition_ind c)
  | CStableFor c d => Hstable c d (condition_ind c)
  | Unsupported k => Hother k
  end.
End ConditionInd.

(** The keys of the timers a condition at [path] may own. *)
Definition under (path k : string) : Prop :=
  k = path \/ exists r, k = String.append path (String "." r).

Lemma append_cancel p a b : String.append p a = String.append p b -> a = b.
Proof. induction p as [|c p IH]; cbn; [done|]. intros [= H]. auto. Qed.

Lemma append_longer p r : String.append p (String "." r) <> p.
Proof. induction p as [|c p IH]; cbn; [done|]. by intros [= H]. Qed.

Lemma append_assoc a b c : String.append (String.append a b) c = String.append a (String.append b c).
Proof. induction a as [|x a IH]; [done|]. apply (f_equal (String x)), IH. Qed.

Lemma sub_path_eq p i : sub_path p i = String.append p (String "." (pretty (N.of_nat i))).
Proof. done. Qed.

Lemma under_child p q k : under (String.append p (String "." q)) k -> under p k /\ k <> p.
Proof.
  intros [->|[r ->]].
  - split; [right; eauto|apply append_longer].
  - rewrite append_assoc. cbn. split; [right; eauto|apply append_longer].
Qed.

(** The decimal numerals contain no dot. *)
Lemma pretty_no_dot (n : N) : includes_char "."%char (pretty n) = false.
Proof.
  assert (forall (x : N) s, includes_char "."%char s = false -> includes_char "."%char (pretty_N_go x s) = false) as Hgo.
  { intros x. induction (N.lt_wf_0 x) as [x _ IH]. intros s Hs.
    destruct (decide (0 < x)%N) as [Hx|Hx].
    - rewrite pretty_N_go_step by done. apply IH; [by apply N.div_lt|].
      unfold includes_char in *. cbn [all_chars]. apply negb_false_iff in Hs. rewrite Hs, andb_true_r.
      apply negb_false_iff, negb_true_iff, Ascii.eqb_neq. unfold pretty_N_char.
      by repeat case_match.
    - assert (x = 0)%N as -> by lia. done. }
  unfold pretty, pretty_N. destruct (decide _); [done|]. by apply Hgo.
Qed.

Lemma numeral_suffix a b r1 r2 :
  includes_char "."%char a = false -> includes_char "."%char b = false ->
  (r1 = ""%string \/ exists s, r1 = String "." s) -> (r2 = ""%string \/ exists s, r2 = String "." s) ->
  String.append a r1 = String.append b r2 -> a = b.
Proof.
  unfold includes_char. intros Ha%negb_false_iff Hb%negb_false_iff H1 H2. revert b Hb.
  induction a as [|c a IH]; intros b Hb; destruct b as [|d b]; cbn in *; intros H.
  - done.
  - destruct H1 as [->|[s ->]]; [done|]. injection H as <- _. bool_hyps. done.
  - destruct H2 as [->|[s ->]]; [done|]. injection H as -> _. bool_hyps. done.
  - injection H as -> H. bool_hyps. f_equal. by apply IH.
Qed.

(** Timers of siblings do not collide. *)
Lemma under_sibling p i j k : under (sub_path p i) k -> under (sub_path p j) k -> i = j.
Proof.
  intros Hi Hj.
  assert (forall n, under (sub_path p n) k -> exists r, (r = ""%string \/ exists s, r = String "." s) /\
            k = String.append p (String "." (String.append (pretty (N.of_nat n)) r))) as Hk.
  { intros n [->|[s ->]].
    - exists ""%string. split; [by left|]. rewrite sub_path_eq. do 2 f_equal. symmetry.
      induction (pretty (N.of_nat n)) as [|c q IH]; [done|]. apply (f_equal (String c)), IH.
    - exists (String "." s). split; [eauto|]. by rewrite sub_path_eq, append_assoc. }
  destruct (Hk i Hi) as (r1 & Hr1 & E1), (Hk j Hj) as (r2 & Hr2 & E2).
  rewrite E1 in E2. apply append_cancel in E2. injection E2 as E2.
  apply numeral_suffix in E2; [|apply pretty_no_dot..|done|done].
  apply (inj pretty) in E2. lia.
Qed.

Section Frame.
Variable parseDate : string -> number.
Variable facts : FactSnapshot.
Variable now : number.
Variable options : Options.
Let evaluate := evaluate parseDate facts now options.

(** A condition touches only the timers under its path. *)
Lemma evaluate_frame c states path k :
  ~ under path k -> o_get k (e_states (evaluate c states path)) = o_get k states.
Proof.
  revert states path. induction c as [| | | |l IH|l IH|c IH|c d IH|] using condition_ind;
    intros states path Hk; try done.
  1-2: cbn; assert (forall i s, o_get k (snd (evaluate_children evaluate path l i s)) = o_get k s) as Hc;
    [|by apply Hc]; clear -IH Hk; induction IH as [|c l Hc _ IHl]; intros i s; [done|]; cbn; rewrite IHl;
    apply Hc; intros Hu; by apply Hk, (under_child path (pretty (N.of_nat i))).
  - apply IH. intros Hu. by apply Hk, (under_child path (pretty (N.of_nat 0))).
  - assert (k <> path) as Hne by (intros ->; apply Hk; by left).
    assert (o_get k (e_states (evaluate c states (condition_path path))) = o_get k states) as Hi
      by (apply IH; intros Hu; by apply Hk, (under_child path "condition")).
    cbn. fold evaluate. destruct (stable_since _ _ _); [rewrite o_get_set_ne by done|rewrite o_get_delete_ne by done]; done.
Qed.

Lemma stable_inner_timer c states path :
  o_get path (e_states (evaluate c states (condition_path path))) = o_get path states.
Proof. apply evaluate_frame. intros Hu. by apply (under_child path "condition") in Hu as [_ ?]. Qed.
End Frame.

(** One more evaluation of a [stable_for]: the time, the verdict on its
    condition and its own verdict are noted, and the timers are threaded. *)
Section StableFor.
Variable parseDate : string -> number.
Variable options : Options.
Variable c : Condition.
Variable d : number.
Variable path : string.

Definition stable_step (acc : list (number * TriState * TriState) * StableState) (obs : FactSnapshot * number) :=
  let inner := evaluate parseDate (fst obs) (snd obs) options c (snd acc) (condition_path path) in
  let outer := evaluate parseDate (fst obs) (snd obs) options (CStableFor c d) (snd acc) path in
  (app (fst acc) [(snd obs, e_state inner, e_state outer)], e_states outer).

Definition stable_run (obs : list (FactSnapshot * number)) (states : StableState) :=
  fold_left stable_step obs ([], states).

(** A running timer was started when the condition became true, and it has been
    true at every evaluation since. *)
Lemma stable_timer obs states t :
  o_get path states = None -> o_get path (snd (stable_run obs states)) = Some t ->
  exists l1 o l2, fst (stable_run obs states) = l1 ++ (t, TTrue, o) :: l2 /\
    Forall (fun x => snd (fst x) = TTrue) l2.
Proof.
  intros Hn. induction obs as [|[facts now] obs IH] using rev_ind; [by cbn; rewrite Hn|].
  unfold stable_run in *. rewrite fold_left_app. cbn [fold_left].
  destruct (fold_left stable_step obs ([], states)) as [l s]. unfold stable_step. cbn [fst snd] in *.
  cbn [evaluate]. set (inner := evaluate parseDate facts now options c s (condition_path path)).
  pose proof (stable_inner_timer parseDate facts now options c s path) as Hin. fold inner in Hin.
  unfold stable_result, stable_since. cbn [e_states].
  destruct (e_state inner) eqn:Ei; [|by rewrite o_get_delete_eq..].
  rewrite o_get_set_eq, Hin. intros [= <-]. destruct (o_get path s) as [t|]; cbn [default].
  - destruct (IH eq_refl) as (l1 & o & l2 & -> & Hf). eexists l1, o, (l2 ++ [_]).
    rewrite <- app_assoc. split; [reflexivity|]. apply Forall_app. split; [done|by constructor].
  - eexists l, _, []. split; [reflexivity|done].
Qed.

(** [stable_for] means stable: over any sequence of evaluations starting without
    a timer, when it comes out true its condition was true at an evaluation at
    least the duration earlier and at every evaluation since, the last included. *)
Theorem stable_for_is_stable obs states l n i :
  o_get path states = None -> fst (stable_run obs states) = l ++ [(n, i, TTrue)] ->
  exists l1 t o l2, l ++ [(n, i, TTrue)] = l1 ++ (t, TTrue, o) :: l2 /\
    Forall (fun x => snd (fst x) = TTrue) l2 /\ (d * 1000 <=? n - t) = true.
Proof.
  intros Hn. destruct obs as [|[facts now] obs _] using rev_ind; [by destruct l|].
  pose proof (stable_timer (obs ++ [(facts, now)]) states) as Ht.
  intros H. specialize (fun t => Ht t Hn). revert Ht H. unfold stable_run. rewrite fold_left_app.
  cbn [fold_left]. destruct (fold_left stable_step obs ([], states)) as [l' s]. unfold stable_step. cbn [fst snd].
  cbn [evaluate]. set (inner := evaluate parseDate facts now options c s (condition_path path)).
  intros Ht [-> [= <- <- Ho]]%app_inj_tail. clear Hn. revert Ho Ht.
  unfold stable_result. cbn [e_state e_states].
  destruct (stable_since now inner path) as [t|] eqn:Es; [|by destruct (e_state inner)].
  destruct (d * 1000 <=? now - t) eqn:Ed; [|by destruct (e_state inner)]. intros _ Ht.
  destruct (Ht t) as (l1 & o & l2 & E & Hf); [by rewrite o_get_set_eq|].
  by exists l1, t, o, l2.
Qed.
End StableFor.

(** ** Unknown facts *)

(** [a] is unknown or is [b]. *)
Definition tri_le (a b : TriState) : Prop := a = TUnknown \/ a = b.

Lemma tri_all_mono l l' : Forall2 tri_le l l' -> tri_le (tri_all l) (tri_all l').
Proof.
  intros H. unfold tri_all, tri_le.
  assert (includes_state TFalse l = true -> includes_state TFalse l' = true) as Hf.
  { unfold includes_state. induction H as [|a b l l' Hab H IH]; [done|]. cbn. intros [Ha|Ha]%orb_true_iff.
    - apply bool_decide_eq_true in Ha as ->. by destruct Hab as [|<-].
    - by rewrite IH, orb_true_r. }
  assert (every_state TTrue l = true -> every_state TTrue l' = true /\ includes_state TFalse l' = false) as Ht.
  { unfold every_state, includes_state. clear Hf. induction H as [|a b l l' Hab H IH]; [done|]. cbn.
    intros [Ha Hl]%andb_true_iff. apply bool_decide_eq_true in Ha as ->. destruct (IH Hl) as [-> ->].
    destruct Hab as [|<-]; done. }
  destruct (includes_state TFalse l); [rewrite Hf by done; auto|].
  destruct (every_state TTrue l); [|auto]. destruct Ht as [-> ->]; auto.
Qed.

Lemma tri_not_all l : tri_any l = tri_not (tri_all (map tri_not l)).
Proof.
  unfold tri_any, tri_all, includes_state, every_state.
  assert (existsb (fun x => bool_decide (x = TFalse)) (map tri_not l) = existsb (fun x => bool_decide (x = TTrue)) l) as ->
    by (induction l as [|[] l IH]; cbn; rewrite ?IH; done).
  assert (forallb (fun x => bool_decide (x = TTrue)) (map tri_not l) = forallb (fun x => bool_decide (x = TFalse)) l) as ->
    by (induction l as [|[] l IH]; cbn; rewrite ?IH; done).
  by destruct (existsb (fun x => bool_decide (x = TTrue)) l), (forallb (fun x => bool_decide (x = TFalse)) l).
Qed.

Lemma tri_not_mono a b : tri_le a b -> tri_le (tri_not a) (tri_not b).
Proof. intros [-> | ->]; [by left|by right]. Qed.

Lemma tri_any_mono l l' : Forall2 tri_le l l' -> tri_le (tri_any l) (tri_any l').
Proof.
  intros H. rewrite !tri_not_all. apply tri_not_mono, tri_all_mono.
  induction H; constructor; auto using tri_not_mono.
Qed.

Section Refinement.
Variable parseDate : string -> number.
Variables facts facts' : FactSnapshot.
Variable now : number.
Variable options : Options.

(** Every observation that is current in [facts] is the same in [facts']. *)
Definition completes : Prop :=
  forall k f, o_get k facts = Some f -> validObservation (Some f) now options = true -> o_get k facts' = Some f.

Hypothesis Hcompletes : completes.

(** An atom reads its fact only when the observation is current. *)
Lemma atom_refines (atom : option FactValue -> TriState) k :
  atom None = TUnknown ->
  (forall f, validObservation (Some f) now options = false -> atom (Some f) = TUnknown) ->
  tri_le (atom (o_get k facts)) (atom (o_get k facts')).
Proof.
  intros Hn Hs. destruct (o_get k facts) as [f|] eqn:Ef; [|by left].
  destruct (validObservation (Some f) now options) eqn:Ev; [|left; by apply Hs].
  right. by rewrite (Hcompletes _ _ Ef Ev).
Qed.

Let ev := evaluate parseDate facts now options.
Let ev' := evaluate parseDate facts' now options.

Lemma children_refine l :
  Forall (fun c => forall s s' path, (forall k, under path k -> o_get k s = o_get k s') ->
            tri_le (e_state (ev c s path)) (e_state (ev' c s' path))) l ->
  forall i s s' path, (forall j k, i <= j -> under (sub_path path j) k -> o_get k s = o_get k s')%nat ->
    Forall2 tri_le (fst (evaluate_children ev path l i s)) (fst (evaluate_children ev' path l i s')).
Proof.
  induction 1 as [|c l Hc _ IH]; intros i s s' path Hs; [constructor|]. cbn. constructor.
  - apply Hc. intros k. by apply Hs.
  - apply IH. intros j k Hj Hk. unfold ev, ev'. rewrite !evaluate_frame; [apply (Hs j k); [lia|done]|..];
      intros Hu; pose proof (under_sibling _ _ _ _ Hu Hk); lia.
Qed.

(** Evaluation is monotone in the knowledge of facts. *)
Lemma evaluate_refines c s s' path :
  (forall k, under path k -> o_get k s = o_get k s') ->
  tri_le (e_state (ev c s path)) (e_state (ev' c s' path)).
Proof.
  revert s s' path. induction c as [a|f o v|f di v|f w o v u|l IH|l IH|c IH|c d IH|k] using condition_ind;
    intros s s' path Hs.
  - by right.
  - apply (atom_refines (fun x => evaluate_compare now options x o v)); [done|].
    intros g Hg. unfold evaluate_compare. by rewrite Hg.
  - apply (atom_refines (fun x => evaluate_cross now options x di v)); [done|].
    intros g Hg. unfold evaluate_cross. by rewrite Hg.
  - apply (atom_refines (fun x => evaluate_change now options x w o v u)); [done|].
    intros g Hg. unfold evaluate_change. by rewrite Hg.
  - apply tri_all_mono, children_refine; [done|]. intros j k _ Hk. apply Hs. by eapply under_child.
  - apply tri_any_mono, children_refine; [done|]. intros j k _ Hk. apply Hs. by eapply under_child.
  - apply tri_not_mono, IH. intros k Hk. apply Hs. by eapply under_child.
  - assert (tri_le (e_state (ev c s (condition_path path))) (e_state (ev' c s' (condition_path path)))) as Hi.
    { apply IH. intros k Hk. apply Hs. by apply (under_child path "condition"). }
    unfold ev, ev' in *. cbn [evaluate].
    pose proof (stable_inner_timer parseDate facts now options c s path) as H1.
    pose proof (stable_inner_timer parseDate facts' now options c s' path) as H2.
    rewrite <- (Hs path) in H2 by by left.
    unfold stable_result, stable_since. cbn [e_state]. destruct Hi as [-> | ->]; [by left|].
    right. by rewrite H1, H2.
  - by right.
Qed.

(** Evaluation fails closed: completing missing or stale observations never
    changes a verdict that was already decided. In particular a condition that
    evaluates to true, or to false, does so on current observations alone. *)
Theorem stale_facts_decide_nothing c states path :
  e_state (evaluate parseDate facts now options c states path) <> TUnknown ->
  e_state (evaluate parseDate facts' now options c states path) =
  e_state (evaluate parseDate facts now options c states path).
Proof. intros H. by destruct (evaluate_refines c states states path ltac:(done)) as [|E]. Qed.
End Refinement.

(** ** What the validator accepts *)

Section Accepted.
Variable parseDate : string -> number.

Definition scalar_ok (v : scalar) : bool := match v with SNum n => isFinite n | _ => true end.

(** The conditions the evaluator supports in full. *)
Fixpoint wf_condition (c : Condition) : bool :=
  match c with
  | CTime a => negb (blank a) && isFinite (parseDate a)
  | CCompare f _ v => negb (blank f) && scalar_ok v
  | CCross f _ v => negb (blank f) && isFinite v
  | CChange f w _ v _ =>
      negb (blank f) && isFinite v && isFinite w && negb (w <=? 0) && negb (MAX_CHANGE_WINDOW_SEC <? w)
  | CAll l | CAny l => (1 <=? length l)%nat && (length l <=? 10)%nat && forallb wf_condition l
  | CNot c => wf_condition c
  | CStableFor c d => isFinite d && negb (d <=? 0) && wf_condition c
  | Unsupported _ => false
  end.

Fixpoint nesting (c : Condition) : nat :=
  match c with
  | CAll l | CAny l => S (list_max (map nesting l))
  | CNot c | CStableFor c _ => S (nesting c)
  | _ => 0
  end.

Fixpoint atom_count (c : Condition) : Z :=
  match c with
  | CAll l | CAny l => fold_right (fun c n => atom_count c + n)%Z 0%Z l
  | CNot c | CStableFor c _ => atom_count c
  | _ => 1
  end.

(** What the evaluator sees of an object of unknown shape. *)
Definition as_number (v : value) : number := match v with VNum n => n | _ => nan end.
Definition as_string (v : value) : string := match v with VStr s => s | _ => "" end.
Definition as_scalar (v : value) : scalar :=
  match v with VNum n => SNum n | VBool b => SBool b | VStr s => SStr s | _ => SNum nan end.
Definition as_operator (v : value) : CompareOperator :=
  if isLit "eq" v then OpEq else if isLit "neq" v then OpNeq else if isLit "gt" v then OpGt
  else if isLit "gte" v then OpGte else if isLit "lt" v then OpLt else OpLte.

Definition as_atom (kind : string) (v : value) : Condition :=
  if String.eqb kind "time" then CTime (as_string (prop "at" v))
  else if String.eqb kind "compare" then
    CCompare (as_string (prop "key" (prop "fact" v))) (as_operator (prop "operator" v)) (as_scalar (prop "value" v))
  else if String.eqb kind "cross" then
    CCross (as_string (prop "key" (prop "fact" v)))
      (if isLit "above" (prop "direction" v) then Above else Below) (as_number (prop "value" v))
  else if String.eqb kind "change" then
    CChange (as_string (prop "key" (prop "fact" v))) (as_number (prop "windowSec" v))
      (as_operator (prop "operator" v)) (as_number (prop "value" v))
      (if isLit "percent" (prop "unit" v) then Percent else Absolute)
  else Unsupported kind.

Fixpoint as_condition (levels : nat) (v : value) : Condition :=
  match levels with
  | O => Unsupported ""
  | S levels =>
      match prop "kind" v with
      | VStr kind =>
          let children := match prop "conditions" v with VArr l => map (as_condition levels) l | _ => [] end in
          if String.eqb kind "all" then CAll children
          else if String.eqb kind "any" then CAny children
          else if String.eqb kind "not" then CNot (as_condition levels (prop "condition" v))
          else if String.eqb kind "stable_for" then
            CStableFor (as_condition levels (prop "condition" v)) (as_number (prop "durationSec" v))
          else as_atom kind v
      | _ => Unsupported ""
      end
  end.

Lemma finite_Ok v n : finite v = Ok n -> v = VNum n /\ isFinite n = true.
Proof. destruct v as [| | |m| | |]; cbn -[isFinite]; try done. destruct (isFinite m) eqn:E; [|done]. intros [= <-]. auto. Qed.

Lemma fact_Ok v u : fact v = Ok u -> blank (as_string (prop "key" v)) = false.
Proof.
  unfold fact, nonblank. intros ([] & _ & H%throwIf_Ok)%bind_Ok. apply negb_false_iff in H.
  destruct (prop "key" v); try done. cbn in *. by apply negb_true_iff in H.
Qed.

Lemma date_Ok v u : date parseDate v = Ok u -> wf_condition (CTime (as_string v)) = true.
Proof. unfold date. intros H%throwIf_Ok%negb_false_iff. by destruct v. Qed.

Lemma compare_value_Ok v u : compare_value v = Ok u -> scalar_ok (as_scalar v) = true.
Proof. destruct v as [| | |n| | |]; cbn -[isFinite]; try done. by intros H%throwIf_Ok%negb_false_iff. Qed.

Lemma validate_atom_sound kind v u :
  validate_atom parseDate kind v = Ok u ->
  wf_condition (as_atom kind v) = true /\ nesting (as_atom kind v) = 0%nat /\ atom_count (as_atom kind v) = 1%Z.
Proof.
  unfold validate_atom, as_atom.
  destruct (String.eqb kind "time"); [intros H; split; [by eapply date_Ok|done]|].
  destruct (String.eqb kind "compare").
  { intros (? & Hf%fact_Ok & H)%bind_Ok. apply bind_Ok in H as (? & _ & H%compare_value_Ok).
    split; [|done]. cbn [wf_condition]. by rewrite Hf, H. }
  destruct (String.eqb kind "cross").
  { intros (? & Hf%fact_Ok & H)%bind_Ok. apply bind_Ok in H as (n & [Hv Hn]%finite_Ok & _).
    split; [|done]. cbn [wf_condition]. rewrite Hf, Hv. cbn [as_number]. by rewrite Hn. }
  destruct (String.eqb kind "change"); [|done].
  intros (? & Hf%fact_Ok & H)%bind_Ok. apply bind_Ok in H as (n & [Hv Hn]%finite_Ok & H).
  apply bind_Ok in H as (? & Hw%throwIf_Ok%negb_false_iff & H). apply bind_Ok in H as (? & Hm%throwIf_Ok & _).
  split; [|done]. cbn [wf_condition]. rewrite Hf, Hv.
  destruct (prop "windowSec" v) as [| | |w| | |]; try done. cbn [as_number isNumber] in *.
  apply andb_true_iff in Hw as [-> ->]. by rewrite Hn, Hm.
Qed.

(** An accepted value is seen as a supported condition within the budgets. *)
Lemma validate_sound levels v a n :
  validate parseDate levels v a = Ok n -> (a <= 30)%Z ->
  let c := as_condition levels v in
  wf_condition c = true /\ (nesting c < levels)%nat /\ n = (a + atom_count c)%Z /\ (n <= 30)%Z.
Proof.
  revert v a n. induction levels as [|levels IH]; intros v a n; [done|]. cbn [validate as_condition].
  intros ([] & _ & H)%bind_Ok Ha. destruct (prop "kind" v) as [| | | |kind| |]; try done. cbv zeta.
  assert (String.eqb kind "all" || String.eqb kind "any" = true ->
    exists l, prop "conditions" v = VArr l /\ (1 <=? length l)%nat && (length l <=? 10)%nat = true /\
      forallb wf_condition (map (as_condition levels) l) = true /\
      (list_max (map nesting (map (as_condition levels) l)) < levels)%nat /\ (n <= 30)%Z /\
      n = (a + fold_right (fun c n => atom_count c + n)%Z 0%Z (map (as_condition levels) l))%Z) as Hlist.
  { intros Hk. rewrite Hk in H. destruct (prop "conditions" v) as [| | | | |l|]; try done.
    apply bind_Ok in H as ([] & Hlen%throwIf_Ok & H). exists l. split; [done|].
    apply orb_false_iff in Hlen as [H0%Nat.eqb_neq H10%Nat.ltb_ge].
    assert (0 < levels)%nat as Hpos.
    { destruct levels as [|k]; [|lia]. destruct l as [|x l]; [done|]. done. }
    split; [apply andb_true_iff; split; apply Nat.leb_le; lia|].
    clear H0 H10 Hk. revert a n Ha H. induction l as [|x l IHl]; intros a n Ha; cbn [foldM map forallb fold_right list_max].
    - intros [= <-]. split_and!; [done|done|done|lia].
    - destruct (validate parseDate levels x a) as [a'|e] eqn:Ex; [|done]. intros H.
      destruct (IH _ _ _ Ex Ha) as (Hw & Hd & -> & Ha'). destruct (IHl _ _ Ha' H) as (-> & Hm & Hn & ->).
      rewrite Hw. split_and!; [done| |done|lia]. unfold list_max in *. cbn [fold_right map]. lia. }
  destruct (String.eqb kind "all") eqn:Eall; cbn [orb] in *.
  { destruct (Hlist eq_refl) as (l & -> & Hl & Hw & Hd & Hn & ->). cbn [wf_condition nesting atom_count].
    rewrite length_map, Hl, Hw. split_and!; [done|lia|done|done]. }
  destruct (String.eqb kind "any") eqn:Eany.
  { destruct (Hlist eq_refl) as (l & -> & Hl & Hw & Hd & Hn & ->). cbn [wf_condition nesting atom_count].
    rewrite length_map, Hl, Hw. split_and!; [done|lia|done|done]. }
  clear Hlist. destruct (String.eqb kind "not") eqn:Enot.
  { destruct (IH _ _ _ H Ha) as (Hw & Hd & -> & Hn). cbn [wf_condition nesting atom_count]. split_and!; [done|lia|done|done]. }
  destruct (String.eqb kind "stable_for") eqn:Est.
  { apply bind_Ok in H as (d & [Hd0 Hdf]%finite_Ok & H). apply bind_Ok in H as ([] & Hdp%throwIf_Ok & H).
    destruct (IH _ _ _ H Ha) as (Hw & Hd & -> & Hn). cbn [wf_condition nesting atom_count]. rewrite Hd0.
    cbn [as_number]. rewrite Hdf, Hdp, Hw. split_and!; [done|lia|done|done]. }
  apply bind_Ok in H as (u & Hv%validate_atom_sound & H). apply bind_Ok in H as ([] & H30%throwIf_Ok & [= <-]).
  destruct Hv as (-> & -> & ->). apply Z.ltb_ge in H30. split_and!; [done|lia|done|done].
Qed.

(** The object of a condition. *)
Definition operator_name (o : CompareOperator) : string :=
  match o with OpEq => "eq" | OpNeq => "neq" | OpGt => "gt" | OpGte => "gte" | OpLt => "lt" | OpLte => "lte" end.
Definition scalar_value (v : scalar) : value :=
  match v with SNum n => VNum n | SStr s => VStr s | SBool b => VBool b end.
Definition fact_value (k : string) : value := VObj [("key"%string, VStr k)].

Fixpoint condition_value (c : Condition) : value :=
  VObj match c with
  | CTime a => [("kind", VStr "time"); ("at", VStr a)]
  | CCompare f o v => [("kind", VStr "compare"); ("fact", fact_value f); ("operator", VStr (operator_name o));
                       ("value", scalar_value v)]
  | CCross f di v => [("kind", VStr "cross"); ("fact", fact_value f);
                      ("direction", VStr (match di with Above => "above" | Below => "below" end)); ("value", VNum v)]
  | CChange f w o v u => [("kind", VStr "change"); ("fact", fact_value f); ("windowSec", VNum w);
                          ("operator", VStr (operator_name o)); ("value", VNum v);
                          ("unit", VStr (match u with Absolute => "absolute" | Percent => "percent" end))]
  | CAll l => [("kind", VStr "all"); ("conditions", VArr (map condition_value l))]
  | CAny l => [("kind", VStr "any"); ("conditions", VArr (map condition_value l))]
  | CNot c => [("kind", VStr "not"); ("condition", condition_value c)]
  | CStableFor c d => [("kind", VStr "stable_for"); ("condition", condition_value c); ("durationSec", VNum d)]
  | Unsupported k => [("kind", VStr k)]
  end%string.

Lemma fact_value_Ok f : blank f = false -> fact (fact_value f) = Ok tt.
Proof. intros H. change (throwIf (negb (negb (blank f))) BadFact = Ok tt). by rewrite H. Qed.

Lemma isOperator_name o : isOperator (VStr (operator_name o)) = true.
Proof. by destruct o. Qed.

Lemma finite_value n : isFinite n = true -> finite (VNum n) = Ok n.
Proof. unfold finite. by intros ->. Qed.

(** The kind of an atom's object, which [validate_atom] accepts. *)
Definition atom_kind (c : Condition) : option string :=
  match c with
  | CTime _ => Some "time" | CCompare _ _ _ => Some "compare" | CCross _ _ _ => Some "cross"
  | CChange _ _ _ _ _ => Some "change" | _ => None
  end%string.

Lemma validate_atom_complete c kind :
  wf_condition c = true -> atom_kind c = Some kind -> validate_atom parseDate kind (condition_value c) = Ok tt.
Proof.
  intros Hw Hk. destruct c as [t|f o v|f di v|f w o v u| | | | |]; try done; injection Hk as <-;
    cbn [wf_condition] in Hw; bool_hyps.
  - change (date parseDate (VStr t) = Ok tt). unfold date, isString.
    by repeat match goal with E : _ = _ |- _ => rewrite E; clear E end.
  - change ((_ ← fact (fact_value f); _ ← throwIf (negb (isOperator (VStr (operator_name o)))) BadOperator;
             compare_value (scalar_value v)) = Ok tt).
    rewrite (Ok_pass _ _ _ (fact_value_Ok _ ltac:(done))), isOperator_name, throwIf_pass by done.
    destruct v; try done. unfold scalar_value, compare_value, scalar_ok in *.
    by match goal with E : isFinite _ = true |- _ => rewrite E end.
  - change ((_ ← fact (fact_value f); _ ← finite (VNum v);
             throwIf (negb (isLit "above" (VStr (match di with Above => "above" | Below => "below" end))
                            || isLit "below" (VStr (match di with Above => "above" | Below => "below" end))))
               BadDirection) = Ok tt).
    rewrite (Ok_pass _ _ _ (fact_value_Ok _ ltac:(done))), (Ok_pass _ _ _ (finite_value v ltac:(done))). by destruct di.
  - change ((_ ← fact (fact_value f); _ ← finite (VNum v);
             _ ← throwIf (negb (isFinite w && negb (w <=? 0))) BadWindow;
             _ ← throwIf (MAX_CHANGE_WINDOW_SEC <? w) WindowTooLong;
             _ ← throwIf (negb (isLit "absolute" (VStr (match u with Absolute => "absolute" | Percent => "percent" end))
                                || isLit "percent" (VStr (match u with Absolute => "absolute" | Percent => "percent" end))))
                   BadUnit;
             throwIf (negb (isOperator (VStr (operator_name o)))) BadOperator) = Ok tt).
    rewrite (Ok_pass _ _ _ (fact_value_Ok _ ltac:(done))), (Ok_pass _ _ _ (finite_value v ltac:(done))).
    rewrite !throwIf_pass, isOperator_name; [done|by destruct u|done|].
    by repeat match goal with E : _ = _ |- _ => rewrite E; clear E end.
Qed.

Lemma validate_kind levels v kind a :
  isRecord v = true -> prop "kind" v = VStr kind ->
  String.eqb kind "all" || String.eqb kind "any" = false -> String.eqb kind "not" = false ->
  String.eqb kind "stable_for" = false -> validate_atom parseDate kind v = Ok tt -> (a + 1 <= 30)%Z ->
  validate parseDate (S levels) v a = Ok (a + 1)%Z.
Proof.
  intros Hr Hk H1 H2 H3 Hv Ha. cbn [validate]. unfold record. rewrite Hr, throwIf_pass by done.
  rewrite Hk, H1, H2, H3, (Ok_pass _ _ _ Hv). cbv zeta. rewrite throwIf_pass; [done|]. by apply Z.ltb_ge.
Qed.

Lemma atom_count_nonneg c : (0 <= atom_count c)%Z.
Proof.
  induction c as [| | | |l IH|l IH|c IH|c d IH|] using condition_ind; cbn [atom_count]; try lia;
    induction IH; cbn [fold_right]; lia.
Qed.

Lemma validate_list_complete levels l a :
  Forall (fun c => wf_condition c = true -> forall a, (nesting c < levels)%nat -> (a + atom_count c <= 30)%Z ->
            validate parseDate levels (condition_value c) a = Ok (a + atom_count c)%Z) l ->
  forallb wf_condition l = true -> (list_max (map nesting l) < levels)%nat ->
  (a + fold_right (fun c n => atom_count c + n)%Z 0%Z l <= 30)%Z ->
  foldM (fun atoms child => validate parseDate levels child atoms) a (map condition_value l) =
    Ok (a + fold_right (fun c n => atom_count c + n)%Z 0%Z l)%Z.
Proof.
  intros Hl. revert a. induction Hl as [|c l Hc _ IH]; cbn [forallb fold_right map foldM]; intros a Hw Hn Ha.
  - f_equal. lia.
  - apply andb_true_iff in Hw as [Hw1 Hw2]. unfold list_max in *. cbn [fold_right] in Hn.
    assert (0 <= fold_right (fun c n => atom_count c + n)%Z 0%Z l)%Z
      by (clear; induction l as [|x l IH]; cbn [fold_right]; [lia|]; pose proof (atom_count_nonneg x); lia).
    rewrite (Hc Hw1) by lia. rewrite IH by (done || lia). f_equal. lia.
Qed.

Lemma children_bounds n : (1 <=? n)%nat && (n <=? 10)%nat = true -> Nat.eqb n 0 || (10 <? n)%nat = false.
Proof.
  intros [H1%Nat.leb_le H2%Nat.leb_le]%andb_true_iff. apply orb_false_iff.
  split; [apply Nat.eqb_neq|apply Nat.ltb_ge]; lia.
Qed.

Lemma validate_complete c :
  wf_condition c = true -> forall levels a, (nesting c < levels)%nat -> (a + atom_count c <= 30)%Z ->
  validate parseDate levels (condition_value c) a = Ok (a + atom_count c)%Z.
Proof.
  induction c as [t|f o v|f di v|f w o v u|l IH|l IH|c IH|c d IH|k] using condition_ind;
    intros Hw levels a Hn Ha; (destruct levels as [|levels]; [cbn in Hn; lia|]).
  1-4: eapply validate_kind; [done|reflexivity|done|done|done|by apply validate_atom_complete|cbn in Ha; lia].
  1-2: cbn [wf_condition nesting atom_count] in *; apply andb_true_iff in Hw as [Hlen Hw];
    change (((_ ← throwIf (Nat.eqb (length (map condition_value l)) 0 || (10 <? length (map condition_value l))%nat)
                    BadChildren;
              foldM (fun atoms child => validate parseDate levels child atoms) a (map condition_value l))
             : result SchemaError Z) = Ok (a + fold_right (fun c n => atom_count c + n)%Z 0%Z l)%Z);
    rewrite throwIf_pass by (rewrite length_map; by apply children_bounds);
    apply validate_list_complete; [|done|lia|done]; clear -IH;
    induction IH as [|x l Hx _ IH]; constructor; auto.
  - change (validate parseDate (S levels) (condition_value (CNot c)) a)
      with (validate parseDate levels (condition_value c) a).
    apply IH; cbn in *; [done|lia|done].
  - cbn [wf_condition nesting atom_count] in *. bool_hyps.
    change (validate parseDate (S levels) (condition_value (CStableFor c d)) a)
      with (d0 ← finite (VNum d); _ ← throwIf (d0 <=? 0) BadDuration; validate parseDate levels (condition_value c) a).
    rewrite (Ok_pass _ d) by by apply finite_value. rewrite throwIf_pass by done. apply IH; [done|lia|done].
  - done.
Qed.

(** The validator accepts exactly what the evaluator supports: a value it accepts
    is seen by the evaluator as a condition of supported kinds, with finite
    numbers, nested at most five deep and with at most thirty atoms; and every
    such condition is accepted. *)
Theorem validator_accepts_supported :
  (forall v, validateCondition parseDate v = Ok tt ->
     let c := as_condition 6 v in
     wf_condition c = true /\ (nesting c <= 5)%nat /\ (atom_count c <= 30)%Z) /\
  (forall c, wf_condition c = true -> (nesting c <= 5)%nat -> (atom_count c <= 30)%Z ->
     validateCondition parseDate (condition_value c) = Ok tt).
Proof.
  split.
  - intros v (n & H & _)%bind_Ok. apply validate_sound in H as (Hw & Hd & -> & Hn); [|lia].
    cbv zeta. split_and!; [done|lia|lia].
  - intros c Hw Hd Ha. unfold validateCondition. rewrite (validate_complete c Hw 6 0) by lia. done.
Qed.
End Accepted.

(** ** Concrete runs *)

Definition no_dates (s : string) : number := nan.

Definition price_fact (v at_ : number) : FactSnapshot :=
  [("price"%string, {| f_value := SNum v; f_observedAt := at_; f_previousValue := None;
                       f_previousObservedAt := None; f_history := None; f_quality := None |})].

Definition example_trigger (mode : string) : TriggerDefinition :=
  {| td_id := "t1"; td_name := "price above 100"; td_when := CCompare "price" OpGt (SNum 100);
     td_then := (Notify, "price above 100"%string);
     td_policy := Some {| p_mode := Some mode; p_cooldownSec := Some 1; p_expiresAt := None |} |}.

Definition fresh_trigger : RuntimeState :=
  {| rs_status := Active; rs_armed := true; rs_baseline := None; rs_stableSince := None;
     rs_stableSinceByPath := None; rs_lastFiredAt := None; rs_lastEvaluationAt := None |}.

(** Above, below, above again, a second apart. *)
Definition example_observations : list (FactSnapshot * number) :=
  [(price_fact 101 1000, 1000); (price_fact 99 2000, 2000); (price_fact 102 3000, 3000)].

Definition example_run (mode : string) : list TransitionResult :=
  run no_dates (example_trigger mode) no_options fresh_trigger example_observations.

Lemma once_fires_at_most_once_witness : fires (example_run "once") = 1%nat.
Proof.
  destruct (once_fires_at_most_once no_dates (example_trigger "once") no_options fresh_trigger
    example_observations eq_refl) as [H _].
  apply Nat.le_antisymm; [exact H|]. vm_compute. apply Nat.le_refl.
Defined.

(** The parts of the example run: a firing, an evaluation to false, a firing. *)
Definition example_nth (mode : string) (n : nat) : TransitionResult :=
  nth n (example_run mode) {| t_state := fresh_trigger; t_evaluation := TUnknown; t_shouldFire := false |}.

Lemma on_edge_rearms_witness :
  map t_shouldFire (example_run "on_edge") = [true; false; true] /\
  Exists (fun x => t_evaluation x = TFalse) [example_nth "on_edge" 1].
Proof.
  split; [vm_compute; reflexivity|].
  apply (on_edge_rearms no_dates (example_trigger "on_edge") no_options fresh_trigger example_observations
    [] (example_nth "on_edge" 0) [example_nth "on_edge" 1] (example_nth "on_edge" 2) []);
    vm_compute; reflexivity.
Defined.

Lemma firings_respect_cooldown_witness :
  exists t1 t2, rs_lastFiredAt (t_state (example_nth "on_edge" 0)) = Some t1 /\
    rs_lastFiredAt (t_state (example_nth "on_edge" 2)) = Some t2 /\ (1 * 1000 <=? t2 - t1) = true.
Proof.
  apply (firings_respect_cooldown no_dates (example_trigger "on_edge") no_options fresh_trigger example_observations
    [] (example_nth "on_edge" 0) [example_nth "on_edge" 1] (example_nth "on_edge" 2) []);
    [vm_compute; reflexivity..|]. by repeat constructor.
Defined.

Lemma stable_for_is_stable_witness :
  exists l1 t o l2,
    [(1000, TTrue, TFalse)] ++ [(2500, TTrue, TTrue)] = l1 ++ (t, TTrue, o) :: l2 /\
    Forall (fun x : number * TriState * TriState => snd (fst x) = TTrue) l2 /\ (1 * 1000 <=? 2500 - t) = true.
Proof.
  apply (stable_for_is_stable no_dates DEFAULT_OPTIONS (CCompare "price" OpGt (SNum 100)) 1 "$"
    [(price_fact 101 1000, 1000); (price_fact 103 2000, 2500)] []); [reflexivity|].
  vm_compute. reflexivity.
Defined.

Lemma stale_facts_decide_nothing_witness :
  let c := CAny [CCompare "price" OpGt (SNum 100); CCompare "volume" OpGt (SNum 5)] in
  let volume := ("volume"%string, {| f_value := SNum 3; f_observedAt := 1000; f_previousValue := None;
                   f_previousObservedAt := None; f_history := None; f_quality := None |}) in
  e_state (evaluate no_dates (price_fact 101 1000 ++ [volume]) 1000 DEFAULT_OPTIONS c [] "$") = TTrue.
Proof.
  cbv zeta.
  rewrite (stale_facts_decide_nothing no_dates (price_fact 101 1000)); [vm_compute; reflexivity| |].
  - intros k f. cbn. destruct (String.eqb k "price"); [|done]. intros [= <-] _. done.
  - vm_compute. discriminate.
Defined.
