(* ===== verification/JsFloat.v ===== *)
(** * Integers and bit patterns of numbers

    The exact embedding of the safe integers into the JavaScript numbers, and
    the binary64 layout that [DataView.setFloat64] and [getFloat64] use, with
    its round trip. *)

From Stdlib Require Import ZArith Lia Bool Floats.
From stdpp Require Import base option list.
From S2P Require Import Prelude JsNumber JsObject JsValue.

Local Open Scope Z_scope.

(** ** Widths of mantissas *)

Lemma digits2_log2 m : Zpos (digits2_pos m) = Z.log2 (Zpos m) + 1.
Proof.
  induction m as [m IH|m IH|]; cbn [digits2_pos]; [| |reflexivity].
  - rewrite Pos2Z.inj_succ, IH. rewrite (Pos2Z.inj_xI m), Z.log2_succ_double by lia. lia.
  - rewrite Pos2Z.inj_succ, IH. rewrite (Pos2Z.inj_xO m), Z.log2_double by lia. lia.
Qed.

Lemma digits2_bounds m : 2 ^ (Zpos (digits2_pos m) - 1) <= Zpos m < 2 ^ Zpos (digits2_pos m).
Proof.
  rewrite digits2_log2. pose proof (Z.log2_spec (Zpos m) ltac:(lia)) as [H1 H2].
  replace (Z.log2 (Zpos m) + 1 - 1) with (Z.log2 (Zpos m)) by lia. split; [done|].
  by replace (Z.log2 (Zpos m) + 1) with (Z.succ (Z.log2 (Zpos m))) by lia.
Qed.

Lemma digits2_lt m n : 0 <= n -> Zpos m < 2 ^ n -> Zpos (digits2_pos m) <= n.
Proof.
  intros Hn H. destruct (digits2_bounds m) as [Hb _].
  destruct (Z.le_gt_cases (Zpos (digits2_pos m)) n) as [|Hc]; [done|].
  assert (2 ^ n <= 2 ^ (Zpos (digits2_pos m) - 1)) by (apply Z.pow_le_mono_r; lia). lia.
Qed.

Lemma digits2_unique m d : 0 < d -> 2 ^ (d - 1) <= Zpos m < 2 ^ d -> Zpos (digits2_pos m) = d.
Proof.
  intros Hd Hm. rewrite digits2_log2. rewrite (Z.log2_unique (Zpos m) (d - 1)); [lia|lia|].
  by replace (Z.succ (d - 1)) with d by lia.
Qed.

Lemma iter_xO m p : Zpos (Pos.iter xO m p) = Zpos m * 2 ^ Zpos p.
Proof.
  revert m. induction p as [|p IH] using Pos.peano_ind; intros m.
  - cbn. lia.
  - rewrite Pos.iter_succ. cbn [Z.pow_pos]. rewrite Pos2Z.inj_xO, IH, Pos2Z.inj_succ, Z.pow_succ_r by lia. lia.
Qed.

(** Canonical finite numbers, by width of mantissa and exponent. *)
Lemma bounded_iff m e :
  bounded prec emax m e = true <->
  Z.max (Zpos (digits2_pos m) + e - 53) (-1074) = e /\ e <= 971.
Proof.
  unfold bounded, canonical_mantissa, fexp. change prec with 53. change emax with 1024.
  change (SpecFloat.emin 53 1024) with (-1074). rewrite andb_true_iff, Z.eqb_eq, Z.leb_le. reflexivity.
Qed.

Lemma finite_bounded x s m e : Prim2SF x = S754_finite s m e -> bounded prec emax m e = true.
Proof. intros H. pose proof (Prim2SF_valid x) as Hv. by rewrite H in Hv. Qed.

Lemma shr_fexp_canonical m e :
  bounded prec emax m e = true -> shr_fexp prec emax (Zpos m) e loc_Exact = (Build_shr_record (Zpos m) false false, e).
Proof.
  intros [Hc _]%bounded_iff. unfold shr_fexp. cbn [Zdigits2 shr_record_of_loc]. unfold fexp.
  change prec with 53. change emax with 1024. change (SpecFloat.emin 53 1024) with (-1074).
  rewrite Hc. by rewrite Z.sub_diag.
Qed.

Lemma round_canonical s m e :
  bounded prec emax m e = true -> binary_round_aux prec emax s (Zpos m) e loc_Exact = S754_finite s m e.
Proof.
  intros H. pose proof H as [_ He]%bounded_iff. unfold binary_round_aux.
  rewrite (shr_fexp_canonical _ _ H). cbn [shr_m loc_of_shr_record round_nearest_even].
  rewrite (shr_fexp_canonical _ _ H). cbn [shr_m]. change (emax - prec) with 971.
  by rewrite (proj2 (Z.leb_le _ _) He).
Qed.

(** ** Safe integers *)

(** The canonical form of a positive integer below 2^53. *)
Definition int_mantissa (m : positive) : positive :=
  Pos.shiftl m (Z.to_N (53 - Zpos (digits2_pos m))).

Lemma binary_round_int s m :
  Zpos m < 2 ^ 53 ->
  exists mz, Zpos mz = Zpos m * 2 ^ (53 - Zpos (digits2_pos m)) /\
    binary_round prec emax s m 0 = S754_finite s mz (Zpos (digits2_pos m) - 53) /\
    bounded prec emax mz (Zpos (digits2_pos m) - 53) = true.
Proof.
  intros Hm. pose proof (digits2_lt m 53 ltac:(lia) Hm) as Hd. set (d := Zpos (digits2_pos m)) in *.
  assert (1 <= d) by (unfold d; lia).
  assert (exists mz, Zpos mz = Zpos m * 2 ^ (53 - d) /\
    shl_align m 0 (fexp prec emax (d + 0)) = (mz, d - 53)) as (mz & Hmz & Hsh).
  { unfold shl_align, fexp. change prec with 53. change emax with 1024.
    change (SpecFloat.emin 53 1024) with (-1074). rewrite Z.add_0_r, Z.max_l, Z.sub_0_r by lia.
    destruct (d - 53) as [|p|p] eqn:E; [|lia|].
    - exists m. replace (53 - d) with 0 by lia. split; [lia|done].
    - exists (Pos.iter xO m p). split; [|done]. rewrite iter_xO. f_equal. f_equal. lia. }
  assert (bounded prec emax mz (d - 53) = true) as Hb.
  { apply bounded_iff. rewrite (digits2_unique mz 53); [lia|lia|]. rewrite Hmz.
    destruct (digits2_bounds m) as [H1 H2]. fold d in H1, H2.
    replace (2 ^ (53 - 1)) with (2 ^ (d - 1) * 2 ^ (53 - d)) by (rewrite <- Z.pow_add_r by lia; f_equal; lia).
    replace (2 ^ 53) with (2 ^ d * 2 ^ (53 - d)) by (rewrite <- Z.pow_add_r by lia; f_equal; lia).
    assert (0 < 2 ^ (53 - d)) by (apply Z.pow_pos_nonneg; lia). nia. }
  exists mz. split; [done|]. split; [|done]. unfold binary_round. fold d. rewrite Hsh. by apply round_canonical.
Qed.

Lemma of_Z_pos m :
  Zpos m < 2 ^ 53 ->
  exists mz, Zpos mz = Zpos m * 2 ^ (53 - Zpos (digits2_pos m)) /\
    Prim2SF (of_Z (Zpos m)) = S754_finite false mz (Zpos (digits2_pos m) - 53) /\
    Prim2SF (of_Z (Zneg m)) = S754_finite true mz (Zpos (digits2_pos m) - 53).
Proof.
  intros Hm. destruct (binary_round_int false m Hm) as (mz & Hmz & Hr & Hb).
  destruct (binary_round_int true m Hm) as (mz' & Hmz' & Hr' & _).
  assert (mz' = mz) as -> by lia. exists mz. split; [done|]. unfold of_Z. cbn [binary_normalize].
  rewrite Hr, Hr'. by rewrite !Prim2SF_SF2Prim.
Qed.

Lemma of_Z_0 : Prim2SF (of_Z 0) = S754_zero false.
Proof. reflexivity. Qed.

Lemma scaled_back m d : 0 < Zpos m -> d <= 53 ->
  (if 0 <=? d - 53 then Zpos m * 2 ^ (53 - d) * 2 ^ (d - 53) else Zpos m * 2 ^ (53 - d) / 2 ^ (- (d - 53))) = Zpos m.
Proof.
  intros Hm Hd. replace (- (d - 53)) with (53 - d) by lia. destruct (0 <=? d - 53) eqn:E.
  - apply Z.leb_le in E. assert (d = 53) as -> by lia. cbn. lia.
  - apply Z.div_mul. assert (0 < 2 ^ (53 - d)) by (apply Z.pow_pos_nonneg; lia). lia.
Qed.

(** The embedding of the integers below 2^53 is exact. *)
Lemma trunc_of_Z n : Z.abs n < 2 ^ 53 -> trunc (of_Z n) = n.
Proof.
  unfold trunc. destruct n as [|m|m]; intros Hn; [by rewrite of_Z_0| |];
    (destruct (of_Z_pos m ltac:(lia)) as (mz & Hmz & Hp & Hq);
     pose proof (digits2_lt m 53 ltac:(lia) ltac:(lia)) as Hd); rewrite ?Hp, ?Hq, Hmz, scaled_back by lia; lia.
Qed.

Lemma of_Z_finite n : Z.abs n < 2 ^ 53 -> isFinite (of_Z n) = true.
Proof.
  intros Hn. apply isFinite_key. unfold fkey. destruct n as [|m|m]; [by exists 0, 0, 0| |];
    destruct (of_Z_pos m ltac:(lia)) as (mz & Hmz & Hp & Hq); rewrite ?Hp, ?Hq; cbn; eexists _, _, _; split; eauto; lia.
Qed.

Lemma safe_bound n : safe n = true <-> Z.abs n < 2 ^ 53.
Proof. unfold safe, MAX_SAFE_INTEGER. rewrite Z.leb_le. change (2 ^ 53) with 9007199254740992. lia. Qed.

Lemma eqb_refl x : isFinite x = true -> (x =? x)%float = true.
Proof. intros H. by apply notNaN_eqb, isFinite_notNaN. Qed.

Lemma of_Z_safe n : safe n = true -> isSafeInteger (of_Z n) = true /\ trunc (of_Z n) = n.
Proof.
  intros Hs. pose proof Hs as Hn%safe_bound. unfold isSafeInteger, isInteger.
  rewrite trunc_of_Z, (of_Z_finite _ Hn), eqb_refl, Hs by (done || by apply of_Z_finite). done.
Qed.

Lemma eqb_SF x y s m e :
  (x =? y)%float = true -> Prim2SF y = S754_finite s m e -> x = y.
Proof.
  intros H Hy. apply Prim2SF_inj. rewrite FloatAxioms.eqb_spec in H. rewrite Hy in *.
  unfold SFeqb in H. destruct (Prim2SF x) as [s'|[|]| |s' m' e']; cbn in H; try done; [by destruct s|].
  destruct s', s; try done; destruct (e' ?= e) eqn:Ee; try done; apply Z.compare_eq in Ee as ->;
    destruct (Pos.compare_cont Eq m' m) eqn:E; try done; apply Pos.compare_eq in E; by subst.
Qed.

(** A safe integer other than -0 is the embedding of its integer. *)
Lemma safe_integer_of_Z x :
  isSafeInteger x = true -> Prim2SF x <> S754_zero true -> of_Z (trunc x) = x.
Proof.
  unfold isSafeInteger, isInteger. intros [Hi Hs%safe_bound]%andb_true_iff Hz.
  assert (isFinite x = true) as Hf by (destruct (isFinite x); [done|by cbn in Hi]).
  destruct (isFinite_sf x Hf) as [[s Hx]|(s & m & e & Hx)].
  { destruct s; [by rewrite Hx in Hz|]. unfold trunc. rewrite Hx. apply Prim2SF_inj. by rewrite of_Z_0, Hx. }
  apply orb_true_iff in Hi as [[_ Hi]%andb_true_iff|[_ Hi]%andb_true_iff]; [by eapply eqb_SF|].
  pose proof (finite_bounded _ _ _ _ Hx) as Hb. apply bounded_iff in Hb as [Hc _].
  assert (0 <= e) as He.
  { rewrite FloatAxioms.leb_spec in Hi. unfold Math_abs in Hi. rewrite abs_spec, Hx in Hi.
    change (Prim2SF 4503599627370496) with (S754_finite false 4503599627370496 0) in Hi.
    unfold SFleb in Hi. cbn in Hi. destruct e; done. }
  assert (Zpos (digits2_pos m) = 53) as Hd by lia.
  pose proof (digits2_bounds m) as [Hlo Hhi]. rewrite Hd in Hlo, Hhi.
  assert (e = 0) as ->.
  { unfold trunc in Hs. rewrite Hx, (proj2 (Z.leb_le 0 e)) in Hs by done.
    destruct (Z.eq_dec e 0) as [|Hne]; [done|]. exfalso.
    assert (2 ^ 1 <= 2 ^ e) by (apply Z.pow_le_mono_r; lia).
    change (2 ^ (53 - 1)) with 4503599627370496 in *. change (2 ^ 53) with 9007199254740992 in *.
    change (2 ^ 1) with 2 in *. destruct s; nia. }
  destruct (of_Z_pos m Hhi) as (mz & Hmz & Hp & Hq). rewrite Hd in *.
  assert (mz = m) as -> by (cbn in Hmz; lia).
  apply Prim2SF_inj. unfold trunc. rewrite Hx. cbn [Z.leb Z.compare]. rewrite Z.pow_0_r, Z.mul_1_r.
  destruct s; [change (- Zpos m) with (Zneg m); by rewrite Hq|by rewrite Hp].
Qed.

(** ** The binary64 layout *)

(** The 64 bits of a number, [NaN] being the quiet one. *)
Definition sf_bits (x : spec_float) : Z :=
  let sign (s : bool) := if s then 2 ^ 63 else 0 in
  match x with
  | S754_zero s => sign s
  | S754_infinity s => sign s + 2047 * 2 ^ 52
  | S754_nan => 2047 * 2 ^ 52 + 2 ^ 51
  | S754_finite s m e =>
      if 2 ^ 52 <=? Zpos m then sign s + (e + 1075) * 2 ^ 52 + (Zpos m - 2 ^ 52) else sign s + Zpos m
  end.

Definition float_bits (x : number) : Z := sf_bits (Prim2SF x).

(** The number 64 bits stand for. *)
Definition bits_sf (b : Z) : spec_float :=
  let s := 2 ^ 63 <=? b in
  let r := b mod 2 ^ 63 in
  let field := r / 2 ^ 52 in
  let m := r mod 2 ^ 52 in
  if field =? 2047 then if m =? 0 then S754_infinity s else S754_nan
  else if field =? 0 then
    match m with Zpos p => S754_finite s p (-1074) | _ => S754_zero s end
  else match m + 2 ^ 52 with Zpos p => S754_finite s p (field - 1075) | _ => S754_nan end.

Definition bits_float (b : Z) : number := SF2Prim (bits_sf b).

Lemma sf_bits_range x : valid_binary x = true -> 0 <= sf_bits x < 2 ^ 64.
Proof.
  destruct x as [[|]|[|]| |s m e]; cbn -[bounded]; [lia..|]. intros [Hc He]%bounded_iff.
  pose proof (digits2_bounds m) as [Hlo Hhi].
  assert (Zpos (digits2_pos m) <= 53) by lia.
  assert (2 ^ Zpos (digits2_pos m) <= 2 ^ 53) by (apply Z.pow_le_mono_r; lia).
  change (2 ^ 53) with 9007199254740992 in *. change (2 ^ 52) with 4503599627370496.
  change (2 ^ 63) with 9223372036854775808. change (2 ^ 64) with 18446744073709551616.
  destruct (Z.leb_spec 4503599627370496 (Zpos m)); destruct s; lia.
Qed.

Lemma bits_sf_inv x : valid_binary x = true -> bits_sf (sf_bits x) = x.
Proof.
  destruct x as [[|]|[|]| |s m e]; [reflexivity..|]. cbn [valid_binary]. intros [Hc He]%bounded_iff.
  pose proof (digits2_bounds m) as [Hlo Hhi].
  assert (Zpos (digits2_pos m) <= 53) by lia.
  assert (Hm : 2 ^ Zpos (digits2_pos m) <= 2 ^ 53) by (apply Z.pow_le_mono_r; lia).
  unfold sf_bits, bits_sf. cbv zeta. change (2 ^ 53) with 9007199254740992 in *.
  change (2 ^ 52) with 4503599627370496. change (2 ^ 63) with 9223372036854775808.
  destruct (Z.leb_spec 4503599627370496 (Zpos m)) as [Hn|Hn].
  - assert (-1074 <= e) by lia.
    set (r := (e + 1075) * 4503599627370496 + (Zpos m - 4503599627370496)).
    assert (0 <= r < 9223372036854775808) by (unfold r; lia).
    assert (((if s then 9223372036854775808 else 0) + (e + 1075) * 4503599627370496 + (Zpos m - 4503599627370496))
      mod 9223372036854775808 = r) as ->.
    { symmetry. apply (Z.mod_unique _ _ (if s then 1 else 0)); [lia|]. unfold r. destruct s; lia. }
    assert (r / 4503599627370496 = e + 1075) as ->
      by (symmetry; apply (Z.div_unique _ _ _ (Zpos m - 4503599627370496)); unfold r; lia).
    assert (r mod 4503599627370496 = Zpos m - 4503599627370496) as ->
      by (symmetry; apply (Z.mod_unique _ _ (e + 1075)); unfold r; lia).
    rewrite (proj2 (Z.eqb_neq _ _)), (proj2 (Z.eqb_neq _ _)) by lia.
    replace (Zpos m - 4503599627370496 + 4503599627370496) with (Zpos m) by lia.
    f_equal; [destruct s; [apply Z.leb_le|apply Z.leb_gt]; unfold r in *; lia|lia].
  - assert (Zpos (digits2_pos m) <= 52) by (apply digits2_lt; [lia|change (2 ^ 52) with 4503599627370496; lia]).
    assert (e = -1074) as -> by lia.
    assert (((if s then 9223372036854775808 else 0) + Zpos m) mod 9223372036854775808 = Zpos m) as ->
      by (symmetry; apply (Z.mod_unique _ _ (if s then 1 else 0)); [lia|destruct s; lia]).
    rewrite (Z.div_small (Zpos m)), (Z.mod_small (Zpos m)) by lia.
    cbn [Z.eqb]. f_equal. destruct s; [apply Z.leb_le|apply Z.leb_gt]; lia.
Qed.

(** Writing a number and reading it back gives the same number, the sign of zero included. *)
Lemma bits_float_inv x : bits_float (float_bits x) = x.
Proof.
  unfold bits_float, float_bits. rewrite bits_sf_inv by apply Prim2SF_valid. apply SF2Prim_Prim2SF.
Qed.

Lemma float_bits_range x : 0 <= float_bits x < 2 ^ 64.
Proof. apply sf_bits_range, Prim2SF_valid. Qed.

(** The sign of an embedded integer. *)
Lemma of_Z_sign z : Z.abs z < 2 ^ 53 -> (0 <=? of_Z z)%float = (0 <=? z).
Proof.
  intros Hz. apply eq_true_iff_eq. rewrite leb_zero_nonneg.
  destruct z as [|m|m]; [by rewrite of_Z_0| |]; destruct (of_Z_pos m ltac:(lia)) as (mz & _ & Hp & Hq);
    rewrite ?Hp, ?Hq; cbn; split; done.
Qed.

(** ** Sums of non-negative numbers that vanish *)

Lemma shr_1_half r : 0 <= shr_m r -> shr_m (shr_1 r) = shr_m r / 2.
Proof.
  destruct r as [[|[p|p|]|p] rr s]; cbn [shr_m shr_1]; intros H; try lia; try done.
  - by rewrite Pos2Z.inj_xI, (Z.mul_comm 2), Z.div_add_l, Z.add_0_r by lia.
  - by rewrite Pos2Z.inj_xO, (Z.mul_comm 2), Z.div_mul by lia.
Qed.

Lemma iter_shr_div p r :
  0 <= shr_m r -> shr_m (SpecFloat.iter_pos shr_1 p r) = shr_m r / 2 ^ Zpos p.
Proof.
  revert r. induction p as [p IH|p IH|]; intros r H; cbn [SpecFloat.iter_pos].
  - pose proof (shr_1_nonneg r H). rewrite !IH, shr_1_half by auto using iter_shr_nonneg.
    rewrite !Z.div_div by (try apply Z.pow_pos_nonneg; lia).
    f_equal. rewrite Pos2Z.inj_xI, Z.pow_add_r, Z.pow_twice_r by lia. lia.
  - rewrite !IH by auto using iter_shr_nonneg. rewrite Z.div_div by (try apply Z.pow_pos_nonneg; lia).
    f_equal. rewrite (Pos2Z.inj_xO p), Z.pow_twice_r by lia. lia.
  - by apply shr_1_half.
Qed.

(** Rounding at or above the smallest exponent keeps a positive mantissa positive. *)
Lemma shr_fexp_positive m e l :
  1 <= m -> -1074 <= e ->
  1 <= shr_m (fst (shr_fexp prec emax m e l)) /\ -1074 <= snd (shr_fexp prec emax m e l).
Proof.
  intros Hm He. unfold shr_fexp, fexp. change prec with 53. change emax with 1024.
  change (SpecFloat.emin 53 1024) with (-1074). destruct m as [|m|m]; [lia| |lia]. cbn [Zdigits2].
  assert (shr_m (shr_record_of_loc (Zpos m) l) = Zpos m) as Hr by (by destruct l as [|[]]).
  destruct (Z.max (Zpos (digits2_pos m) + e - 53) (-1074) - e) as [|p|p] eqn:E; cbn [shr fst snd]; rewrite ?Hr; try lia.
  split; [|lia]. rewrite iter_shr_div, Hr by (rewrite Hr; lia).
  assert (Zpos p = Zpos (digits2_pos m) - 53) as Hp by lia.
  destruct (digits2_bounds m) as [Hlo _]. apply Z.div_le_lower_bound; [apply Z.pow_pos_nonneg; lia|].
  assert (2 ^ Zpos p <= 2 ^ (Zpos (digits2_pos m) - 1)) by (apply Z.pow_le_mono_r; lia). lia.
Qed.

Lemma round_even_ge m l : m <= round_nearest_even m l.
Proof. destruct l as [|[]]; cbn; try destruct (Z.even m); lia. Qed.

Lemma binary_round_positive p e :
  -1074 <= e -> (exists m' e', binary_round prec emax false p e = S754_finite false m' e')
                \/ binary_round prec emax false p e = S754_infinity false.
Proof.
  intros He. unfold binary_round.
  destruct (shl_align p e (fexp prec emax (Zpos (digits2_pos p) + e))) as [mz ez] eqn:Es.
  assert (-1074 <= ez) as Hez.
  { unfold shl_align, fexp in Es. change (SpecFloat.emin prec emax) with (-1074) in Es.
    destruct (Z.max _ _ - e) eqn:E; injection Es as _ <-; lia. }
  unfold binary_round_aux.
  destruct (shr_fexp_positive (Zpos mz) ez loc_Exact ltac:(lia) Hez) as [H1 H1e].
  destruct (shr_fexp prec emax (Zpos mz) ez loc_Exact) as [mrs' e'] eqn:E1. cbn [fst snd] in *.
  pose proof (round_even_ge (shr_m mrs') (loc_of_shr_record mrs')) as Hr.
  destruct (shr_fexp_positive (round_nearest_even (shr_m mrs') (loc_of_shr_record mrs')) e' loc_Exact
              ltac:(lia) H1e) as [H2 _].
  destruct (shr_fexp prec emax _ e' loc_Exact) as [mrs'' e'']. cbn [fst] in H2.
  destruct (shr_m mrs'') as [|m|m]; [lia| |lia]. destruct (e'' <=? emax - prec); [left; eauto|by right].
Qed.

Lemma nonneg_zero_inv x : (0 <=? x)%float = true -> (x =? 0)%float = true <-> exists s, Prim2SF x = S754_zero s.
Proof.
  intros H%leb_zero_nonneg. rewrite FloatAxioms.eqb_spec. change (Prim2SF 0) with (S754_zero false).
  destruct (Prim2SF x) as [s|[]| |[] m e]; try done; cbn; split; try done; try (intros [? ?]; done); eauto.
Qed.

Lemma add_zero_inv x y :
  (0 <=? x)%float = true -> (0 <=? y)%float = true -> (x + y =? 0)%float = true ->
  (x =? 0)%float = true /\ (y =? 0)%float = true.
Proof.
  intros Hx Hy Hs. pose proof (add_nonneg x y Hx Hy) as Hn. apply (nonneg_zero_inv _ Hn) in Hs as [s Hs].
  rewrite (nonneg_zero_inv _ Hx), (nonneg_zero_inv _ Hy). rewrite add_spec in Hs. unfold SF64add in Hs.
  apply leb_zero_nonneg in Hx, Hy.
  destruct (Prim2SF x) as [sx|[]| |[] m e] eqn:Ex, (Prim2SF y) as [sy|[]| |[] m' e'] eqn:Ey;
    try done; cbn -[binary_round prec emax] in Hs; eauto; try (by destruct sx); try (by destruct sy).
  exfalso. apply finite_bounded, bounded_iff in Ex as [Ex _], Ey as [Ey _].
  match type of Hs with binary_normalize _ _ (Zpos ?a + Zpos ?b) ?ez _ = _ =>
    change (binary_round prec emax false (a + b) ez = S754_zero s) in Hs;
    destruct (binary_round_positive (a + b) ez ltac:(lia)) as [(? & ? & Hb)|Hb]; congruence
  end.
Qed.
