(* ===== verification/JsMath.v ===== *)
(** * Rounding functions of [Math]

    [Math.floor], [Math.ceil] and [Math.round], exactly, by the integers the number
    lies between. *)

From Stdlib Require Import ZArith Lia Bool Floats.
From stdpp Require Import base option list.
From S2P Require Import Prelude JsNumber JsObject JsValue JsFloat.

Local Open Scope Z_scope.

(** The value of a finite number is [fst (ratio x) / 2 ^ snd (ratio x)]. *)
Definition ratio (x : number) : Z * Z :=
  match Prim2SF x with
  | S754_finite s m e =>
      let a := if s then Zneg m else Zpos m in
      if 0 <=? e then (a * 2 ^ e, 0) else (a, - e)
  | _ => (0, 0)
  end.

Definition floorZ (x : number) : Z := let (a, k) := ratio x in a / 2 ^ k.
Definition roundZ (x : number) : Z := let (a, k) := ratio x in (2 * a + 2 ^ k) / 2 ^ (k + 1).

(** An integer of the model as the result of rounding [x], with the sign of zero [x] had. *)
Definition rounded (x : number) (z : Z) : number :=
  if (z =? 0) && (x <? 0)%float then neg_zero else of_Z z.

(** Infinities, [NaN] and integers are their own roundings. *)
Definition own_rounding (x : number) : bool := negb (isFinite x) || isInteger x.

Definition Math_floor (x : number) : number := if own_rounding x then x else of_Z (floorZ x).
Definition Math_ceil (x : number) : number := if own_rounding x then x else rounded x (floorZ x + 1).
Definition Math_round (x : number) : number := if own_rounding x then x else rounded x (roundZ x).

Lemma ratio_nonneg_exponent x : 0 <= snd (ratio x).
Proof. unfold ratio. destruct (Prim2SF x); cbn; try lia. destruct (0 <=? e) eqn:E; cbn; lia. Qed.

(** Rounding is to a nearest integer, upwards at the midpoint. *)
Lemma roundZ_spec x :
  let (a, k) := ratio x in 2 * (roundZ x * 2 ^ k) - 2 ^ k <= 2 * a < 2 * (roundZ x * 2 ^ k) + 2 ^ k.
Proof.
  pose proof (ratio_nonneg_exponent x) as Hk. unfold roundZ. destruct (ratio x) as [a k]. cbn in Hk.
  assert (0 < 2 ^ k) as Hp by (apply Z.pow_pos_nonneg; lia).
  rewrite Z.pow_add_r by lia. change (2 ^ 1) with 2.
  pose proof (Z.div_mod (2 * a + 2 ^ k) (2 ^ k * 2) ltac:(lia)) as Hd.
  pose proof (Z.mod_pos_bound (2 * a + 2 ^ k) (2 ^ k * 2) ltac:(lia)) as Hm. lia.
Qed.

Example rounds_half_up : map Math_round [2.5; -2.5; 0x1.fffffffffffffp-2; 7]%float = [3; -2; 0; 7]%float.
Proof. vm_compute. reflexivity. Qed.
Example rounds_keep_sign : map Math_ceil [-0.5; 1.25]%float = [neg_zero; 2]%float.
Proof. vm_compute. reflexivity. Qed.
