(* ===== verification/JsText.v ===== *)
(** * The text of numbers

    [String(x)], [x.toFixed(d)] and [Number(text)], exactly as the language defines
    them: decimal text is compared with binary64 values in exact integer arithmetic,
    and [String(x)] is the shortest decimal that reads back as [x]. *)

From Stdlib Require Import ZArith Lia Bool Ascii Floats.
From stdpp Require Import base strings option list pretty.
From S2P Require Import Prelude JsNumber JsObject JsValue JsFloat JsMath.

#[local] Set Warnings "-inexact-float".

Local Open Scope Z_scope.

(** [s.trim()]: the shortest suffix after white space, cut where only white space is left. *)
Fixpoint trimEnd (s : string) : string :=
  if blank s then EmptyString
  else match s with EmptyString => EmptyString | String c r => String c (trimEnd r) end.

(** Bytes of the white-space character [s] starts with, 0 when it starts with none. *)
Definition space_width (s : string) : nat :=
  if negb (String.eqb s "") && blank (String.substring 0 1 s) then 1
  else if blank (String.substring 0 2 s) then 2
  else if blank (String.substring 0 3 s) then 3 else 0.

Fixpoint trimStart_in (fuel : nat) (s : string) : string :=
  match fuel with
  | O => s
  | S fuel =>
      match s, space_width s with
      | EmptyString, _ | _, O => s
      | _, k => trimStart_in fuel (String.substring k (String.length s - k) s)
      end
  end.
Definition trim (s : string) : string := trimEnd (trimStart_in (String.length s) s).

(** ** Rounding a ratio *)

(** The quotient [n / d] is scaled by the power of two that gives it 53 bits, or fewer
    below the least normal number, and rounded to even. *)
Definition scaled (n d e : Z) : Z * Z := if 0 <=? e then (n, d * 2 ^ e) else (n * 2 ^ (- e), d).

Definition ratio_exponent (n d : Z) : Z :=
  let e := Z.log2 n - Z.log2 d - 53 in
  let (a, b) := scaled n d e in
  Z.max (-1074) (if 2 ^ 53 <=? a / b then e + 1 else e).

Definition half_even (a b : Z) : Z :=
  let q := a / b in
  match Z.compare (2 * (a mod b)) b with
  | Lt => q
  | Gt => q + 1
  | Eq => if Z.even q then q else q + 1
  end.

(** The number nearest to [n / d], for [0 <= n] and [0 < d]. *)
Definition of_ratio (n d : Z) : number :=
  if n =? 0 then 0%float
  else
    let e := ratio_exponent n d in
    let (a, b) := scaled n d e in
    SF2Prim (binary_normalize prec emax (half_even a b) e false).

(** The number nearest to [s * 10 ^ e]. *)
Definition of_decimal (s e : Z) : number :=
  if 0 <=? e then of_ratio (s * 10 ^ e) 1 else of_ratio s (10 ^ (- e)).

(** ** [Number(text)] *)

Definition digits (s : string) : Z := default 0 (digits_value 0 s).

Fixpoint span_digits (s : string) : string * string :=
  match s with
  | String c r => if isDigit c then let (d, r') := span_digits r in (String c d, r') else (EmptyString, s)
  | EmptyString => (EmptyString, EmptyString)
  end.

(** A decimal literal without sign: the digits before and after the point and the
    exponent, in the grammar [d+ (. d star)? | . d+] with [(e sign? d+)?]. *)
Record DecimalLiteral := { dl_whole : string; dl_fraction : string; dl_exponent : Z }.

Definition read_exponent (s : string) : option Z :=
  match s with
  | EmptyString => Some 0
  | String c r =>
      if Ascii.eqb c "e"%char || Ascii.eqb c "E"%char then
        let '(sign, r) := match r with
          | String "+" r => (1, r)
          | String "-" r => (-1, r)
          | _ => (1, r)
          end in
        if negb (String.eqb r "") && all_chars isDigit r then Some (sign * digits r) else None
      else None
  end.

Definition read_literal (s : string) : option DecimalLiteral :=
  let (whole, r) := span_digits s in
  match r with
  | String "." r =>
      let (fraction, r) := span_digits r in
      if String.eqb whole "" && String.eqb fraction "" then None
      else e ← read_exponent r; Some {| dl_whole := whole; dl_fraction := fraction; dl_exponent := e |}
  | _ =>
      if String.eqb whole "" then None
      else e ← read_exponent r; Some {| dl_whole := whole; dl_fraction := ""; dl_exponent := e |}
  end.

(** The value of a literal is [literal_digits * 10 ^ literal_scale]. *)
Definition literal_digits (l : DecimalLiteral) : Z := digits (String.append (dl_whole l) (dl_fraction l)).
Definition literal_scale (l : DecimalLiteral) : Z := dl_exponent l - lengthZ (dl_fraction l).

(** A sign and the rest. *)
Definition read_sign (s : string) : bool * string :=
  match s with
  | String "-" r => (true, r)
  | String "+" r => (false, r)
  | _ => (false, s)
  end.

Definition unsigned_number (s : string) : number :=
  if String.eqb s "Infinity" then infinity
  else match read_literal s with
  | Some l => of_decimal (literal_digits l) (literal_scale l)
  | None => nan
  end.

Definition hex_value (c : ascii) : Z :=
  if isDigit c then code c - 48 else if between 97 102 c then code c - 87
  else if between 65 70 c then code c - 55 else 99.

Fixpoint radix_digits (radix acc : Z) (s : string) : option Z :=
  match s with
  | EmptyString => Some acc
  | String c r => if hex_value c <? radix then radix_digits radix (acc * radix + hex_value c) r else None
  end.

(** The digits of a literal with a prefix [0x], [0o] or [0b]. *)
Definition read_radix (s : string) : option number :=
  match s with
  | String "0" (String p r) =>
      let radix := if Ascii.eqb p "x"%char || Ascii.eqb p "X"%char then 16
                   else if Ascii.eqb p "o"%char || Ascii.eqb p "O"%char then 8
                   else if Ascii.eqb p "b"%char || Ascii.eqb p "B"%char then 2 else 0 in
      if (radix =? 0) then None
      else Some (if String.eqb r "" then nan
                 else match radix_digits radix 0 r with Some n => of_ratio n 1 | None => nan end)
  | _ => None
  end.

Definition stringToNumber (s : string) : number :=
  let s := trim s in
  if String.eqb s "" then 0%float
  else match read_radix s with
  | Some n => n
  | None => let (neg, r) := read_sign s in if neg then (- unsigned_number r)%float else unsigned_number r
  end.

(** ** [String(x)] *)

Definition show_digits (z : Z) : string := pretty z.

Fixpoint zeros (n : nat) : string := match n with O => EmptyString | S n => String "0" (zeros n) end.

(** The [n] with [10 ^ (n - 1) <= x < 10 ^ n], where [x = a / b > 0]. *)
Fixpoint find_exponent (fuel : nat) (a b n : Z) : Z :=
  match fuel with
  | O => n
  | S fuel =>
      if 10 * b * 10 ^ Z.max 0 (n - 1) <=? 10 * a * 10 ^ Z.max 0 (1 - n) then n else find_exponent fuel a b (n - 1)
  end.

Definition decimal_exponent (a b : Z) : Z := find_exponent 700 a b 309.

(** The [k]-digit decimals [s * 10 ^ (n - k)] next to [x = a / b], the nearer first, as
    pairs of [s] and [n]. *)
Definition candidates (a b n k : Z) : list (Z * Z) :=
  let '(a', b') := if 0 <=? n - k then (a, b * 10 ^ (n - k)) else (a * 10 ^ (k - n), b) in
  let low := a' / b' in
  let up := if low + 1 =? 10 ^ k then (10 ^ (k - 1), n + 1) else (low + 1, n) in
  if 2 * (a' mod b') <=? b' then [(low, n); up] else [up; (low, n)].

Fixpoint shortest (fuel : nat) (x : number) (a b n k : Z) : Z * Z * Z :=
  let reads_back p := (of_decimal (fst p) (snd p - k) =? x)%float in
  match fuel with
  | O => (0, k, n)
  | S fuel =>
      match find reads_back (candidates a b n k) with
      | Some (s, m) => (s, k, m)
      | None => shortest fuel x a b n (k + 1)
      end
  end.

(** [Number::toString]: the digits [s], their number [k] and the exponent [n]. *)
Definition show_positive (s k n : Z) : string :=
  let ds := show_digits s in
  if (k <=? n) && (n <=? 21) then String.append ds (zeros (Z.to_nat (n - k)))
  else if (0 <? n) && (n <=? 21) then
    String.append (String.substring 0 (Z.to_nat n) ds)
      (String "." (String.substring (Z.to_nat n) (Z.to_nat (k - n)) ds))
  else if (-6 <? n) && (n <=? 0) then String.append "0." (String.append (zeros (Z.to_nat (- n))) ds)
  else
    let e := n - 1 in
    let mantissa := if k =? 1 then ds
      else String.append (String.substring 0 1 ds) (String "." (String.substring 1 (Z.to_nat (k - 1)) ds)) in
    String.append mantissa (String.append (if e <? 0 then "e-" else "e+") (show_digits (Z.abs e))).

Definition numberToString (x : number) : string :=
  if is_nan x then "NaN"
  else if (x =? 0)%float then "0"
  else
    let body y :=
      if negb (isFinite y) then "Infinity"
      else
        let (a, p) := ratio y in
        let '(s, k, n) := shortest 17 y a (2 ^ p) (decimal_exponent a (2 ^ p)) 1 in
        show_positive s k n in
    if (x <? 0)%float then String "-" (body (- x)%float) else body x.

(** ** [x.toFixed(d)] *)

(** The larger of the integers nearest to [x * 10 ^ d]. *)
Definition fixed_digits (x : number) (d : Z) : Z :=
  let (a, p) := ratio x in (2 * a * 10 ^ d + 2 ^ p) / (2 * 2 ^ p).

Definition pad_zeros (width : nat) (s : string) : string := String.append (zeros (width - String.length s)) s.

Definition toFixed (d : nat) (x : number) : string :=
  if negb (isFinite x) || (0x1.b1ae4d6e2ef5p+69 <=? Math_abs x)%float then numberToString x
  else
    let s := pad_zeros (S d) (show_digits (fixed_digits (Math_abs x) (Z.of_nat d))) in
    let w := (String.length s - d)%nat in
    let m := if (d =? 0)%nat then s
             else String.append (String.substring 0 w s) (String "." (String.substring w d s)) in
    if (x <? 0)%float then String "-" m else m.

Example numbers_as_text :
  map numberToString [0.1; 1e21; 123456789; 1.5e-7; 0.000001; 5e-324; 1.7976931348623157e308; 1e23; -0.30000000000000004;
                      neg_zero; nan; neg_infinity; 9007199254740993; 100]%float =
  ["0.1"; "1e+21"; "123456789"; "1.5e-7"; "0.000001"; "5e-324"; "1.7976931348623157e+308"; "1e+23";
   "-0.30000000000000004"; "0"; "NaN"; "-Infinity"; "9007199254740992"; "100"]%string.
Proof. vm_compute. reflexivity. Qed.

Example texts_as_numbers :
  map stringToNumber [" 12 "; ""; "0x1F"; "1e3"; ".5"; "5."; "-Infinity"; "1e400"; "4.35"; "2.2250738585072011e-308"]%string =
  [12; 0; 31; 1000; 0.5; 5; neg_infinity; infinity; 4.35; 2.2250738585072011e-308]%float
  /\ forallb (fun s => is_nan (stringToNumber s)) ["1 2"; "."; "e5"; "0x"; "liquidation-3"; "1_0"; "--1"]%string = true.
Proof. vm_compute. split; reflexivity. Qed.

Example fixed_texts :
  map (toFixed 2) [1.005; 0.125; -1.5; 0; 1e21; 999.999]%float
  = ["1.00"; "0.13"; "-1.50"; "0.00"; "1e+21"; "1000.00"]%string /\ toFixed 16 0.1 = "0.1000000000000000"%string.
Proof. vm_compute. split; reflexivity. Qed.
