(* ===== verification/Cbor.v ===== *)
(** * CBOR codec (packages/protocol/src/cbor: options.ts, encoder.ts, decoder.ts)

    The strict, definite-length subset of RFC 8949 of the wire protocol.  A byte
    is an integer of [0..255] and a buffer a list of bytes; a JavaScript string is
    the string of its WTF-8 bytes, so [TextEncoder] followed by the fatal
    [TextDecoder] returns the text exactly when those bytes are valid UTF-8.
    Values are finite trees: cyclic values, holes and exotic prototypes, which the
    encoder refuses, are not represented. *)

From Stdlib Require Import ZArith Lia Bool Ascii Floats.
From stdpp Require Import base strings option list.
From S2P Require Import Prelude JsNumber JsObject JsValue JsFloat.

Local Open Scope Z_scope.

(** ** Values and options *)

Abbreviation bytes := (list Z).

Inductive cvalue :=
  | CNull
  | CUndefined
  | CBool (b : bool)
  | CNum (n : number)
  | CText (s : string)
  | CBytes (b : bytes)
  | CArr (l : list cvalue)
  | CObj (o : list (string * cvalue)).

Inductive CborError :=
  | BadOptions | ByteLimit | DepthLimit | TextLimit | BytesLimit | ArrayLimit | MapLimit
  | NotUnicode | NotFiniteNumber | UnsafeInteger | HoleOrUndefined | UnsupportedValue
  | Truncated | TrailingData | OutOfRange | InvalidUtf8 | KeyNotString | DuplicateKey
  | TagsUnsupported | BreakMarker | UnsupportedSimple | Indefinite | MalformedInfo.

Definition UINT32_BASE : Z := 2 ^ 32.
Definition MAX_UINT32 : Z := 2 ^ 32 - 1.
Definition MAX_CONFIGURED_DEPTH : Z := 512.
Definition DEFAULT_MAX_CBOR_BYTE_LENGTH : number := 16777216%float.
Definition DEFAULT_MAX_CBOR_CONTAINER_LENGTH : number := 1000000%float.
Definition DEFAULT_MAX_CBOR_DEPTH : number := 64%float.

Record CborOptions := {
  co_maxByteLength : option number;
  co_maxContainerLength : option number;
  co_maxDepth : option number
}.

Record ResolvedCborOptions := { maxByteLength : Z; maxContainerLength : Z; maxDepth : Z }.

Definition resolveLimit (v : number) (maximum : Z) : result CborError Z :=
  _ ← throwIf (negb (isSafeInteger v) || (trunc v <? 0) || (maximum <? trunc v)) BadOptions;
  Ok (trunc v).

Definition resolveOptions (options : CborOptions) : result CborError ResolvedCborOptions :=
  b ← resolveLimit (default DEFAULT_MAX_CBOR_BYTE_LENGTH (co_maxByteLength options)) MAX_UINT32;
  c ← resolveLimit (default DEFAULT_MAX_CBOR_CONTAINER_LENGTH (co_maxContainerLength options)) MAX_UINT32;
  d ← resolveLimit (default DEFAULT_MAX_CBOR_DEPTH (co_maxDepth options)) MAX_CONFIGURED_DEPTH;
  Ok {| maxByteLength := b; maxContainerLength := c; maxDepth := d |}.

(** ** Texts and bytes *)

Definition lenZ {A} (l : list A) : Z := Z.of_nat (length l).

Definition textEncode (s : string) : bytes := map code (String.list_ascii_of_string s).

Definition byte_char (b : Z) : ascii := ascii_of_N (Z.to_N b).
Definition text_of (b : bytes) : string := String.string_of_list_ascii (map byte_char b).

Definition inRange (lo hi b : Z) : bool := (lo <=? b) && (b <=? hi).
Definition continuation : Z -> bool := inRange 128 191.

(** What the fatal UTF-8 decoder accepts. *)
Fixpoint utf8 (l : bytes) : bool :=
  match l with
  | [] => true
  | a :: r =>
      if a <? 128 then utf8 r
      else match r with
      | [] => false
      | b :: r2 =>
          if inRange 194 223 a && continuation b then utf8 r2
          else match r2 with
          | [] => false
          | c :: r3 =>
              if ((a =? 224) && inRange 160 191 b || inRange 225 236 a && continuation b
                  || (a =? 237) && inRange 128 159 b || inRange 238 239 a && continuation b)
                 && continuation c then utf8 r3
              else match r3 with
              | [] => false
              | d :: r4 =>
                  if ((a =? 240) && inRange 144 191 b || inRange 241 243 a && continuation b
                      || (a =? 244) && inRange 128 143 b)
                     && continuation c && continuation d then utf8 r4 else false
              end
          end
      end
  end.

(** [textDecoder.decode(bytes)] *)
Definition textDecode (b : bytes) : result CborError string :=
  _ ← throwIf (negb (utf8 b)) InvalidUtf8; Ok (text_of b).

(** ** The encoder *)

Section Encoder.
Variable options : ResolvedCborOptions.

(** The writer's buffer; every write is refused beyond the byte limit. *)
Definition write (bs : bytes) (buffer : bytes) : result CborError bytes :=
  _ ← throwIf (maxByteLength options <? lenZ buffer + lenZ bs) ByteLimit;
  Ok (app buffer bs).

Definition writeByte (b : Z) : bytes -> result CborError bytes := write [Z.land b 255].

Definition byte_at (v shift : Z) : Z := Z.land (Z.shiftr v shift) 255.
Definition writeUint16 (v : Z) : bytes -> result CborError bytes := write [byte_at v 8; byte_at v 0].
Definition writeUint32 (v : Z) : bytes -> result CborError bytes :=
  write [byte_at v 24; byte_at v 16; byte_at v 8; byte_at v 0].
Definition writeUint64 (v : Z) (buffer : bytes) : result CborError bytes :=
  let high := v / UINT32_BASE in
  let low := v - high * UINT32_BASE in
  buffer ← writeUint32 high buffer; writeUint32 low buffer.

(** [DataView.setFloat64(offset, value, false)]: the eight bytes, most significant first. *)
Definition float64_bytes (n : number) : bytes :=
  let b := float_bits n in
  [byte_at b 56; byte_at b 48; byte_at b 40; byte_at b 32; byte_at b 24; byte_at b 16; byte_at b 8; byte_at b 0].
Definition writeFloat64 (n : number) : bytes -> result CborError bytes := write (251 :: float64_bytes n).

Definition writeArgument (majorType v : Z) (buffer : bytes) : result CborError bytes :=
  let prefix := Z.shiftl majorType 5 in
  if v <? 24 then writeByte (Z.lor prefix v) buffer
  else if v <=? 255 then buffer ← writeByte (Z.lor prefix 24) buffer; writeByte v buffer
  else if v <=? 65535 then buffer ← writeByte (Z.lor prefix 25) buffer; writeUint16 v buffer
  else if v <=? MAX_UINT32 then buffer ← writeByte (Z.lor prefix 26) buffer; writeUint32 v buffer
  else buffer ← writeByte (Z.lor prefix 27) buffer; writeUint64 v buffer.

Definition encodeText (s : string) (buffer : bytes) : result CborError bytes :=
  let b := textEncode s in
  _ ← throwIf (maxByteLength options <? lenZ b) TextLimit;
  _ ← throwIf (negb (utf8 b)) NotUnicode;
  buffer ← writeArgument 3 (lenZ b) buffer;
  write b buffer.

(** [Object.is(n, -0)] *)
Definition is_neg_zero (n : number) : bool := (n =? 0)%float && get_sign n.

Definition encodeNumber (n : number) (buffer : bytes) : result CborError bytes :=
  _ ← throwIf (negb (isFinite n)) NotFiniteNumber;
  if isInteger n && negb (is_neg_zero n) then
    _ ← throwIf (negb (isSafeInteger n)) UnsafeInteger;
    if (0 <=? n)%float then writeArgument 0 (trunc n) buffer
    else writeArgument 1 (-1 - trunc n) buffer
  else writeFloat64 n buffer.

Definition is_undefined (v : cvalue) : bool := match v with CUndefined => true | _ => false end.

(** The loop over the elements of an array. *)
Definition encodeItems (encodeValue : cvalue -> Z -> bytes -> result CborError bytes) (depth : Z) :=
  fix items (l : list cvalue) (buffer : bytes) : result CborError bytes :=
    match l with
    | [] => Ok buffer
    | v :: r =>
        _ ← throwIf (is_undefined v) HoleOrUndefined;
        buffer ← encodeValue v (depth + 1) buffer;
        items r buffer
    end.

(** The loop over the entries of a map, those that are undefined left out. *)
Definition encodeEntries (encodeValue : cvalue -> Z -> bytes -> result CborError bytes) (depth : Z) :=
  fix entries (l : list (string * cvalue)) (buffer : bytes) : result CborError bytes :=
    match l with
    | [] => Ok buffer
    | (key, v) :: r =>
        if is_undefined v then entries r buffer else
        buffer ← encodeText key buffer;
        buffer ← encodeValue v (depth + 1) buffer;
        entries r buffer
    end.

Definition defined_entries {A} (undef : A -> bool) (o : list (string * A)) : list (string * A) :=
  List.filter (fun p => negb (undef (snd p))) o.

Fixpoint encodeValue (v : cvalue) (depth : Z) (buffer : bytes) : result CborError bytes :=
  _ ← throwIf (maxDepth options <? depth) DepthLimit;
  match v with
  | CNull => writeByte 246 buffer
  | CBool b => writeByte (if b then 245 else 244) buffer
  | CNum n => encodeNumber n buffer
  | CText s => encodeText s buffer
  | CBytes b =>
      _ ← throwIf (maxByteLength options <? lenZ b) BytesLimit;
      buffer ← writeArgument 2 (lenZ b) buffer;
      write b buffer
  | CArr l =>
      _ ← throwIf (maxContainerLength options <? lenZ l) ArrayLimit;
      buffer ← writeArgument 4 (lenZ l) buffer;
      encodeItems encodeValue depth l buffer
  | CObj o =>
      let count := lenZ (defined_entries is_undefined o) in
      _ ← throwIf (maxContainerLength options <? count) MapLimit;
      buffer ← writeArgument 5 count buffer;
      encodeEntries encodeValue depth o buffer
  | CUndefined => Throw UnsupportedValue
  end.
End Encoder.

Definition encodeCbor (v : cvalue) (options : CborOptions) : result CborError bytes :=
  resolved ← resolveOptions options;
  encodeValue resolved v 0 [].

(** ** The decoder

    A reader is the list of the bytes not read yet. *)

Section Decoder.
Variable options : ResolvedCborOptions.

Definition readByte (b : bytes) : result CborError (Z * bytes) :=
  match b with [] => Throw Truncated | v :: r => Ok (v, r) end.

Definition readBytes (n : Z) (b : bytes) : result CborError (bytes * bytes) :=
  if lenZ b <? n then Throw Truncated else Ok (take (Z.to_nat n) b, drop (Z.to_nat n) b).

Definition be_value (b : bytes) : Z := fold_left (fun acc x => acc * 256 + x) b 0.

(** [readArgument(26)] *)
Definition readUint32 (b : bytes) : result CborError (Z * bytes) :=
  p ← readBytes 4 b; Ok (be_value (fst p), snd p).

Definition readArgument (info : Z) (b : bytes) : result CborError (Z * bytes) :=
  if info <? 24 then Ok (info, b)
  else if info =? 24 then readByte b
  else if info =? 25 then p ← readBytes 2 b; Ok (be_value (fst p), snd p)
  else if info =? 26 then readUint32 b
  else if info =? 27 then
    high ← readUint32 b;
    low ← readUint32 (snd high);
    _ ← throwIf (2097151 <? fst high) OutOfRange;
    Ok (fst high * UINT32_BASE + fst low, snd low)
  else if info =? 31 then Throw Indefinite
  else Throw MalformedInfo.

Definition readLength (info limit : Z) (tooLong : CborError) (b : bytes) : result CborError (Z * bytes) :=
  _ ← throwIf (info =? 31) Indefinite;
  p ← readArgument info b;
  _ ← throwIf (limit <? fst p) tooLong;
  Ok p.

Definition readSimple (info : Z) (b : bytes) : result CborError (cvalue * bytes) :=
  if info =? 20 then Ok (CBool false, b)
  else if info =? 21 then Ok (CBool true, b)
  else if info =? 22 then Ok (CNull, b)
  else if info =? 27 then
    p ← readBytes 8 b;
    let n := bits_float (be_value (fst p)) in
    _ ← throwIf (negb (isFinite n)) NotFiniteNumber;
    _ ← throwIf (isInteger n && negb (isSafeInteger n)) UnsafeInteger;
    Ok (CNum n, snd p)
  else if info =? 31 then Throw BreakMarker
  else Throw UnsupportedSimple.

Definition readItems (readItem : bytes -> result CborError (cvalue * bytes)) :=
  fix items (count : nat) (b : bytes) : result CborError (list cvalue * bytes) :=
    match count with
    | O => Ok ([], b)
    | S count =>
        p ← readItem b;
        q ← items count (snd p);
        Ok (fst p :: fst q, snd q)
    end.

Definition readEntries (readItem : bytes -> result CborError (cvalue * bytes)) :=
  fix entries (count : nat) (o : list (string * cvalue)) (b : bytes) :
      result CborError (list (string * cvalue) * bytes) :=
    match count with
    | O => Ok (o, b)
    | S count =>
        p ← readItem b;
        match fst p with
        | CText key =>
            _ ← throwIf (o_has key o) DuplicateKey;
            q ← readItem (snd p);
            entries count (o_set key (fst q) o) (snd q)
        | _ => Throw KeyNotString
        end
    end.

(** [readItem(depth)]; [levels] is maxDepth + 1 - depth. *)
Fixpoint readItem (levels : nat) (b : bytes) : result CborError (cvalue * bytes) :=
  match levels with
  | O => Throw DepthLimit
  | S levels =>
      first ← readByte b;
      let majorType := Z.shiftr (fst first) 5 in
      let info := Z.land (fst first) 31 in
      let b := snd first in
      if majorType =? 0 then p ← readArgument info b; Ok (CNum (of_Z (fst p)), snd p)
      else if majorType =? 1 then
        p ← readArgument info b;
        let v := -1 - fst p in
        _ ← throwIf (negb (safe v)) OutOfRange;
        Ok (CNum (of_Z v), snd p)
      else if majorType =? 2 then
        p ← readLength info (maxByteLength options) BytesLimit b;
        q ← readBytes (fst p) (snd p);
        Ok (CBytes (fst q), snd q)
      else if majorType =? 3 then
        p ← readLength info (maxByteLength options) TextLimit b;
        q ← readBytes (fst p) (snd p);
        s ← textDecode (fst q);
        Ok (CText s, snd q)
      else if majorType =? 4 then
        p ← readLength info (maxContainerLength options) ArrayLimit b;
        q ← readItems (readItem levels) (Z.to_nat (fst p)) (snd p);
        Ok (CArr (fst q), snd q)
      else if majorType =? 5 then
        p ← readLength info (maxContainerLength options) MapLimit b;
        q ← readEntries (readItem levels) (Z.to_nat (fst p)) [] (snd p);
        Ok (CObj (fst q), snd q)
      else if majorType =? 6 then Throw TagsUnsupported
      else readSimple info b
  end.

Definition decode (b : bytes) : result CborError cvalue :=
  p ← readItem (Z.to_nat (maxDepth options + 1)) b;
  _ ← throwIf (negb (Nat.eqb (length (snd p)) 0)) TrailingData;
  Ok (fst p).
End Decoder.

Definition decodeCbor (b : bytes) (options : CborOptions) : result CborError cvalue :=
  resolved ← resolveOptions options;
  _ ← throwIf (maxByteLength resolved <? lenZ b) ByteLimit;
  decode resolved b.

(** ** Bytes *)

Definition is_byte (b : Z) : bool := inRange 0 255 b.
Definition are_bytes (l : bytes) : Prop := forallb is_byte l = true.

Lemma are_bytes_app a b : are_bytes (a ++ b) <-> are_bytes a /\ are_bytes b.
Proof. unfold are_bytes. by rewrite forallb_app, andb_true_iff. Qed.

Lemma byte_at_div v s : 0 <= s -> byte_at v s = v / 2 ^ s mod 256.
Proof.
  intros Hs. unfold byte_at. rewrite Z.shiftr_div_pow2 by done.
  change 255 with (Z.ones 8). by rewrite Z.land_ones.
Qed.

Lemma byte_at_byte v s : is_byte (byte_at v s) = true.
Proof.
  unfold byte_at. change 255 with (Z.ones 8). rewrite Z.land_ones by lia. change (2 ^ 8) with 256.
  pose proof (Z.mod_pos_bound (Z.shiftr v s) 256). unfold is_byte, inRange. lia.
Qed.

Lemma be_value_app a b : be_value (a ++ b) = be_value a * 256 ^ lenZ b + be_value b.
Proof.
  unfold be_value, lenZ. rewrite fold_left_app. generalize (fold_left (fun acc x => acc * 256 + x) a 0) as n.
  induction b as [|x b IH] using rev_ind; intros n; [cbn; lia|].
  rewrite !fold_left_app, length_app. cbn [fold_left length]. rewrite IH.
  rewrite Nat2Z.inj_add, Z.pow_add_r by lia. change (256 ^ Z.of_nat 1) with 256. lia.
Qed.

Lemma be_value_range b : are_bytes b -> 0 <= be_value b < 256 ^ lenZ b.
Proof.
  induction b as [|x b IH] using rev_ind; [by cbn|]. rewrite are_bytes_app, be_value_app.
  intros [Hb Hx]. specialize (IH Hb). unfold are_bytes, is_byte, inRange in Hx. cbn [forallb] in Hx.
  unfold lenZ in *. rewrite length_app, Nat2Z.inj_add, Z.pow_add_r by lia. cbn [length].
  change (256 ^ Z.of_nat 1) with 256. cbn [be_value fold_left]. lia.
Qed.

Lemma be_uint16 v : 0 <= v < 65536 -> be_value [byte_at v 8; byte_at v 0] = v.
Proof.
  intros Hv. rewrite !byte_at_div by lia. unfold be_value. cbn [fold_left]. change (2 ^ 8) with 256. change (2 ^ 0) with 1.
  rewrite Z.div_1_r. Z.to_euclidean_division_equations; lia.
Qed.

Lemma be_uint32 v :
  0 <= v < 2 ^ 32 -> be_value [byte_at v 24; byte_at v 16; byte_at v 8; byte_at v 0] = v.
Proof.
  change (2 ^ 32) with 4294967296. intros Hv. rewrite !byte_at_div by lia. unfold be_value. cbn [fold_left].
  change (2 ^ 24) with 16777216. change (2 ^ 16) with 65536. change (2 ^ 8) with 256. change (2 ^ 0) with 1.
  rewrite Z.div_1_r. Z.to_euclidean_division_equations; lia.
Qed.

Lemma byte_at_high v s : 0 <= s -> byte_at v (s + 32) = byte_at (v / UINT32_BASE) s.
Proof.
  intros Hs. rewrite !byte_at_div by lia. unfold UINT32_BASE.
  by rewrite Z.div_div, <- Z.pow_add_r, (Z.add_comm 32) by lia.
Qed.

Lemma byte_at_low v s : 0 <= s -> s <= 24 -> byte_at v s = byte_at (v mod UINT32_BASE) s.
Proof.
  intros Hs H24. unfold byte_at. apply Z.bits_inj'. intros n Hn. rewrite !Z.land_spec, !Z.shiftr_spec by done.
  change 255 with (Z.ones 8). destruct (Z.le_gt_cases 8 n).
  - by rewrite Z.ones_spec_high, !andb_false_r by lia.
  - unfold UINT32_BASE. by rewrite Z.mod_pow2_bits_low by lia.
Qed.

Lemma be_float64 n : be_value (float64_bytes n) = float_bits n.
Proof.
  pose proof (float_bits_range n) as Hb. unfold float64_bytes. cbv zeta. set (b := float_bits n) in *.
  change [byte_at b 56; byte_at b 48; byte_at b 40; byte_at b 32; byte_at b 24; byte_at b 16; byte_at b 8; byte_at b 0]
    with ([byte_at b (24 + 32); byte_at b (16 + 32); byte_at b (8 + 32); byte_at b (0 + 32)] ++
          [byte_at b 24; byte_at b 16; byte_at b 8; byte_at b 0]).
  rewrite !byte_at_high by lia. rewrite (byte_at_low b 24), (byte_at_low b 16), (byte_at_low b 8), (byte_at_low b 0) by lia.
  rewrite be_value_app, !be_uint32; unfold UINT32_BASE; change (2 ^ 64) with 18446744073709551616 in *;
    change (2 ^ 32) with 4294967296; [|apply Z.mod_pos_bound; lia|].
  - change (256 ^ lenZ _) with 4294967296. pose proof (Z_div_mod_eq_full b 4294967296). lia.
  - split; [apply Z.div_pos; lia|apply Z.div_lt_upper_bound; lia].
Qed.

(** ** Texts *)

Lemma code_range c : 0 <= code c <= 255.
Proof. unfold code. pose proof (N_ascii_bounded c). lia. Qed.

Lemma byte_char_code c : byte_char (code c) = c.
Proof. unfold byte_char, code. by rewrite N2Z.id, ascii_N_embedding. Qed.

Lemma code_byte_char b : is_byte b = true -> code (byte_char b) = b.
Proof.
  unfold is_byte, inRange, byte_char, code. intros H. rewrite N_ascii_embedding by lia. lia.
Qed.

Lemma text_of_textEncode s : text_of (textEncode s) = s.
Proof.
  unfold text_of, textEncode. rewrite map_map. rewrite (map_ext _ id) by apply byte_char_code.
  rewrite map_id. apply String.string_of_list_ascii_of_string.
Qed.

Lemma textEncode_text_of b : are_bytes b -> textEncode (text_of b) = b.
Proof.
  unfold text_of, textEncode, are_bytes. rewrite String.list_ascii_of_string_of_list_ascii, map_map.
  induction b as [|x b IH]; cbn; [done|]. intros H. bool_hyps. rewrite code_byte_char by done. f_equal; auto.
Qed.

Lemma textEncode_bytes s : are_bytes (textEncode s).
Proof.
  unfold are_bytes, textEncode. rewrite forallb_forall. intros x (c & <- & _)%in_map_iff.
  pose proof (code_range c). unfold is_byte, inRange. lia.
Qed.

(** ** Arguments *)

Section Arguments.
Variable options : ResolvedCborOptions.

Lemma write_Ok bs buffer buffer' :
  write options bs buffer = Ok buffer' <->
  buffer' = buffer ++ bs /\ lenZ buffer + lenZ bs <= maxByteLength options.
Proof.
  unfold write. split.
  - intros ([] & H%throwIf_Ok & [= <-])%bind_Ok. split; [done|]. by apply Z.ltb_ge.
  - intros [-> H%Z.ltb_ge]. by rewrite H.
Qed.

Lemma lenZ_app {A} (a b : list A) : lenZ (a ++ b) = lenZ a + lenZ b.
Proof. unfold lenZ. rewrite length_app. lia. Qed.

Lemma lenZ_nonneg {A} (a : list A) : 0 <= lenZ a.
Proof. unfold lenZ. lia. Qed.

(** The bytes of an argument after its initial byte. *)
Definition argument_info (v : Z) : Z :=
  if v <? 24 then v else if v <=? 255 then 24 else if v <=? 65535 then 25 else if v <=? MAX_UINT32 then 26 else 27.
Definition argument_bytes (v : Z) : bytes :=
  if v <? 24 then [] else if v <=? 255 then [byte_at v 0]
  else if v <=? 65535 then [byte_at v 8; byte_at v 0]
  else if v <=? MAX_UINT32 then [byte_at v 24; byte_at v 16; byte_at v 8; byte_at v 0]
  else let high := v / UINT32_BASE in let low := v - high * UINT32_BASE in
       [byte_at high 24; byte_at high 16; byte_at high 8; byte_at high 0;
        byte_at low 24; byte_at low 16; byte_at low 8; byte_at low 0].

Definition initial_byte (majorType v : Z) : Z := Z.land (Z.lor (Z.shiftl majorType 5) (argument_info v)) 255.

Lemma writeArgument_Ok majorType v buffer buffer' :
  writeArgument options majorType v buffer = Ok buffer' <->
  buffer' = buffer ++ initial_byte majorType v :: argument_bytes v /\
  lenZ buffer + (1 + lenZ (argument_bytes v)) <= maxByteLength options.
Proof.
  unfold writeArgument, argument_bytes, initial_byte, argument_info, writeByte, writeUint16, writeUint32, writeUint64.
  assert (forall a b c c', (buffer0 ← write options [a] c; write options b buffer0) = Ok c' <->
            c' = c ++ a :: b /\ lenZ c + (1 + lenZ b) <= maxByteLength options) as H2.
  { intros a b c c'. rewrite bind_Ok. split.
    - intros (c1 & [-> H1]%write_Ok & [-> H2]%write_Ok). rewrite <- app_assoc. split; [done|].
      rewrite lenZ_app in H2. unfold lenZ in *. cbn [length] in *. lia.
    - intros [-> H]. pose proof (lenZ_nonneg b). exists (c ++ [a]). rewrite !write_Ok.
      unfold lenZ in *. rewrite <- app_assoc, length_app. cbn [length app] in *. split_and!; (done || lia). }
  cbv zeta. destruct (v <? 24).
  { rewrite write_Ok. unfold lenZ. cbn [length]. split; intros [-> H]; split; (done || lia). }
  destruct (v <=? 255); [apply H2|]. destruct (v <=? 65535); [apply H2|].
  destruct (v <=? MAX_UINT32); [apply H2|].
  set (high := v / UINT32_BASE). set (low := v - high * UINT32_BASE).
  rewrite bind_Ok. split.
  - intros (c1 & H1 & H3). specialize (proj1 (bind_Ok _ _ _) H3) as (c2 & H4 & H5).
    apply write_Ok in H1 as [-> H1]. apply write_Ok in H4 as [-> H4]. apply write_Ok in H5 as [-> H5].
    rewrite <- !app_assoc. split; [done|]. rewrite !lenZ_app in *. unfold lenZ in *. cbn [length] in *. lia.
  - intros [-> H]. unfold lenZ in H. cbn [length] in H. eexists. split; [apply write_Ok; split; [reflexivity|]|].
    + unfold lenZ. cbn [length]. lia.
    + apply bind_Ok. eexists. split; [apply write_Ok; split; [reflexivity|]|apply write_Ok; split].
      * unfold lenZ. rewrite length_app. cbn [length]. lia.
      * by rewrite <- !app_assoc.
      * unfold lenZ. rewrite !length_app. cbn [length]. lia.
Qed.

Lemma argument_bytes_bytes v : are_bytes (argument_bytes v).
Proof.
  unfold argument_bytes, are_bytes. cbv zeta.
  repeat match goal with |- context [if ?c then _ else _] => destruct c end; cbn [forallb];
    by rewrite ?byte_at_byte.
Qed.
End Arguments.

(** ** Reading back *)

Lemma argument_info_range v : 0 <= v -> 0 <= argument_info v <= 27.
Proof. intros H. unfold argument_info. repeat case_match; lia. Qed.

Lemma initial_byte_parts majorType v :
  0 <= majorType < 8 -> 0 <= v ->
  Z.shiftr (initial_byte majorType v) 5 = majorType /\ Z.land (initial_byte majorType v) 31 = argument_info v /\
  is_byte (initial_byte majorType v) = true.
Proof.
  intros Hm Hv. unfold initial_byte. pose proof (argument_info_range v Hv) as Hi.
  generalize dependent (argument_info v). intros i Hi.
  assert (In majorType [0; 1; 2; 3; 4; 5; 6; 7]) as HM by (cbn; lia).
  assert (In i (map Z.of_nat (seq 0 28))) as HI.
  { apply in_map_iff. exists (Z.to_nat i). split; [lia|]. apply in_seq. lia. }
  cbn in HM, HI. repeat destruct HM as [<-|HM]; try done; repeat destruct HI as [<-|HI]; done.
Qed.

Lemma readBytes_app a rest : readBytes (lenZ a) (a ++ rest) = Ok (a, rest).
Proof.
  unfold readBytes. rewrite lenZ_app, (proj2 (Z.ltb_ge _ _)) by (pose proof (lenZ_nonneg rest); lia).
  unfold lenZ. rewrite Nat2Z.id, take_app_length, drop_app_length. done.
Qed.

Lemma readUint32_app v rest :
  0 <= v < 2 ^ 32 ->
  readUint32 ([byte_at v 24; byte_at v 16; byte_at v 8; byte_at v 0] ++ rest) = Ok (v, rest).
Proof.
  intros Hv. unfold readUint32. pose proof (readBytes_app [byte_at v 24; byte_at v 16; byte_at v 8; byte_at v 0] rest) as H.
  change (lenZ [byte_at v 24; byte_at v 16; byte_at v 8; byte_at v 0]) with 4 in H.
  rewrite (Ok_pass _ _ _ H). cbn [fst snd]. by rewrite be_uint32.
Qed.

Lemma readArgument_bytes v rest :
  0 <= v < 2 ^ 53 -> readArgument (argument_info v) (argument_bytes v ++ rest) = Ok (v, rest).
Proof.
  intros Hv. unfold argument_info, argument_bytes.
  destruct (Z.ltb_spec v 24) as [H1|H1].
  { unfold readArgument. by rewrite (proj2 (Z.ltb_lt _ _) H1). }
  destruct (Z.leb_spec v 255) as [H2|H2].
  { change (Ok (byte_at v 0, rest) = Ok (E := CborError) (v, rest)). do 2 f_equal.
    rewrite byte_at_div, Z.pow_0_r, Z.div_1_r, Z.mod_small; lia. }
  destruct (Z.leb_spec v 65535) as [H3|H3].
  { change ((p ← readBytes 2 ([byte_at v 8; byte_at v 0] ++ rest); Ok (be_value (fst p), snd p)) = Ok (E := CborError) (v, rest)).
    pose proof (readBytes_app [byte_at v 8; byte_at v 0] rest) as H. change (lenZ [byte_at v 8; byte_at v 0]) with 2 in H.
    rewrite (Ok_pass _ _ _ H). cbn [fst snd]. rewrite be_uint16 by lia. done. }
  unfold MAX_UINT32. change (2 ^ 32) with 4294967296. destruct (Z.leb_spec v (4294967296 - 1)) as [H4|H4].
  { apply readUint32_app. change (2 ^ 32) with 4294967296. lia. }
  cbv zeta. set (high := v / UINT32_BASE). set (low := v - high * UINT32_BASE).
  assert (0 <= low < 2 ^ 32 /\ 0 <= high <= 2097151 /\ v = high * UINT32_BASE + low) as (Hl & Hh & Hvv).
  { unfold low, high, UINT32_BASE. change (2 ^ 32) with 4294967296. change (2 ^ 53) with 9007199254740992 in Hv.
    Z.to_euclidean_division_equations; lia. }
  change ((p ← readUint32 ([byte_at high 24; byte_at high 16; byte_at high 8; byte_at high 0] ++
            ([byte_at low 24; byte_at low 16; byte_at low 8; byte_at low 0] ++ rest));
           q ← readUint32 (snd p); _ ← throwIf (2097151 <? fst p) OutOfRange;
           Ok (fst p * UINT32_BASE + fst q, snd q)) = Ok (E := CborError) (v, rest)).
  rewrite (Ok_pass _ _ _ (readUint32_app high _ ltac:(change (2 ^ 32) with 4294967296; lia))). cbn [fst snd].
  rewrite (Ok_pass _ _ _ (readUint32_app low _ Hl)). cbn [fst snd].
  rewrite throwIf_pass by (apply Z.ltb_ge; lia). by rewrite <- Hvv.
Qed.

(** ** Round trip *)

Section CvalueInd.
Variable P : cvalue -> Prop.
Hypothesis Hnull : P CNull.
Hypothesis Hundef : P CUndefined.
Hypothesis Hbool : forall b, P (CBool b).
Hypothesis Hnum : forall n, P (CNum n).
Hypothesis Htext : forall s, P (CText s).
Hypothesis Hbytes : forall b, P (CBytes b).
Hypothesis Harr : forall l, Forall P l -> P (CArr l).
Hypothesis Hobj : forall o, Forall (fun p => P (snd p)) o -> P (CObj o).

Fixpoint cvalue_induction (v : cvalue) : P v :=
  let fix items l : Forall P l :=
    match l with [] => Forall_nil_2 _ | v :: r => Forall_cons_2 _ _ _ (cvalue_induction v) (items r) end in
  let fix entries (o : list (string * cvalue)) : Forall (fun p => P (snd p)) o :=
    match o with
    | [] => Forall_nil_2 _
    | p :: r => Forall_cons_2 _ _ _ (cvalue_induction (snd p)) (entries r)
    end in
  match v with
  | CNull => Hnull
  | CUndefined => Hundef
  | CBool b => Hbool b
  | CNum n => Hnum n
  | CText s => Htext s
  | CBytes b => Hbytes b
  | CArr l => Harr l (items l)
  | CObj o => Hobj o (entries o)
  end.
End CvalueInd.

(** The run-time values: byte arrays hold bytes, and the keys of an object come in
    the order in which [Object.keys] gives them. *)
Fixpoint wf_cvalue (v : cvalue) : Prop :=
  match v with
  | CBytes b => are_bytes b
  | CArr l => fold_right (fun v P => wf_cvalue v /\ P) True l
  | CObj o => o_sorted o /\ fold_right (fun p P => wf_cvalue (snd p) /\ P) True o
  | _ => True
  end.

(** The value without the undefined entries of its objects. *)
Fixpoint clean (v : cvalue) : cvalue :=
  match v with
  | CArr l => CArr (map clean l)
  | CObj o => CObj (defined_entries is_undefined (map (fun p => (fst p, clean (snd p))) o))
  | _ => v
  end.

Lemma is_undefined_clean v : is_undefined (clean v) = is_undefined v.
Proof. by destruct v. Qed.

Lemma defined_entries_clean o :
  defined_entries is_undefined (map (fun p => (fst p, clean (snd p))) o) =
  map (fun p => (fst p, clean (snd p))) (defined_entries is_undefined o).
Proof.
  unfold defined_entries. induction o as [|[k v] o IH]; cbn; [done|]. rewrite is_undefined_clean.
  destruct (negb (is_undefined v)); cbn; by rewrite IH.
Qed.

Lemma o_sorted_filter {A} (f : string * A -> bool) (o : obj A) : o_sorted o -> o_sorted (List.filter f o).
Proof.
  induction o as [|[k v] o IH]; [done|]. intros [H1 H2]. cbn [List.filter]. destruct (f (k, v)); [|by apply IH].
  split; [|by apply IH]. intros j (p & <- & Hp)%in_map_iff. apply H1. apply in_map_iff. exists p.
  split; [done|]. by apply filter_In in Hp as [? _].
Qed.

Lemma o_sorted_map {A B} (f : A -> B) (o : obj A) :
  o_sorted o -> o_sorted (map (fun p => (fst p, f (snd p))) o).
Proof.
  induction o as [|[k v] o IH]; [done|]. intros [H1 H2]. cbn [map fst snd o_sorted]. split; [|by apply IH].
  unfold o_keys. rewrite map_map. cbn [fst]. exact H1.
Qed.

Section RoundTrip.
Variable options : ResolvedCborOptions.

(** The levels left at a depth. *)
Definition levels_at (depth : Z) : nat := Z.to_nat (maxDepth options + 1 - depth).

Lemma levels_succ depth : 0 <= depth -> depth <= maxDepth options -> levels_at depth = S (levels_at (depth + 1)).
Proof. intros H1 H2. unfold levels_at. lia. Qed.

(** [bs] is read back as [v]. *)
Definition reads_as (levels : nat) (bs : bytes) (v : cvalue) : Prop :=
  forall rest, readItem options levels (bs ++ rest) = Ok (v, rest).

Lemma readItem_initial levels majorType v (args rest : bytes) :
  0 <= majorType < 8 -> 0 <= v ->
  readItem options (S levels) ((initial_byte majorType v :: args) ++ rest) =
  (let info := argument_info v in let b := args ++ rest in
   if majorType =? 0 then p ← readArgument info b; Ok (CNum (of_Z (fst p)), snd p)
   else if majorType =? 1 then
     p ← readArgument info b;
     let v := -1 - fst p in
     _ ← throwIf (negb (safe v)) OutOfRange;
     Ok (CNum (of_Z v), snd p)
   else if majorType =? 2 then
     p ← readLength info (maxByteLength options) BytesLimit b;
     q ← readBytes (fst p) (snd p);
     Ok (CBytes (fst q), snd q)
   else if majorType =? 3 then
     p ← readLength info (maxByteLength options) TextLimit b;
     q ← readBytes (fst p) (snd p);
     s ← textDecode (fst q);
     Ok (CText s, snd q)
   else if majorType =? 4 then
     p ← readLength info (maxContainerLength options) ArrayLimit b;
     q ← readItems (readItem options levels) (Z.to_nat (fst p)) (snd p);
     Ok (CArr (fst q), snd q)
   else if majorType =? 5 then
     p ← readLength info (maxContainerLength options) MapLimit b;
     q ← readEntries (readItem options levels) (Z.to_nat (fst p)) [] (snd p);
     Ok (CObj (fst q), snd q)
   else if majorType =? 6 then Throw TagsUnsupported
   else readSimple info b).
Proof.
  intros Hm Hv. destruct (initial_byte_parts majorType v Hm Hv) as (H1 & H2 & _).
  cbn [readItem app readByte mbind result_bind fst snd]. cbv zeta. by rewrite H1, H2.
Qed.

Lemma readLength_bytes v limit err rest :
  0 <= v < 2 ^ 53 -> v <= limit -> readLength (argument_info v) limit err (argument_bytes v ++ rest) = Ok (v, rest).
Proof.
  intros Hv Hl. unfold readLength. pose proof (argument_info_range v (proj1 Hv)).
  rewrite throwIf_pass by (apply Z.eqb_neq; lia). rewrite (Ok_pass _ _ _ (readArgument_bytes _ _ Hv)).
  cbn [fst]. by rewrite throwIf_pass by (by apply Z.ltb_ge).
Qed.

Hypothesis Hlimits : 0 <= maxByteLength options <= MAX_UINT32 /\ 0 <= maxContainerLength options <= MAX_UINT32.

Lemma text_reads levels s buffer buffer' :
  encodeText options s buffer = Ok buffer' ->
  exists e, buffer' = buffer ++ e /\ reads_as (S levels) e (CText s).
Proof.
  unfold encodeText. cbv zeta. intros ([] & Hl%throwIf_Ok & H)%bind_Ok. apply bind_Ok in H as ([] & Hu%throwIf_Ok & H).
  apply bind_Ok in H as (b1 & [-> _]%writeArgument_Ok & [-> _]%write_Ok). apply Z.ltb_ge in Hl.
  apply negb_false_iff in Hu. unfold MAX_UINT32 in Hlimits. change (2 ^ 32) with 4294967296 in Hlimits.
  assert (0 <= lenZ (textEncode s) < 2 ^ 53)
    by (change (2 ^ 53) with 9007199254740992; pose proof (lenZ_nonneg (textEncode s)); lia).
  rewrite <- app_assoc. eexists. split; [reflexivity|]. intros rest.
  rewrite <- app_assoc, readItem_initial by lia. cbv zeta. cbn [Z.eqb Pos.eqb].
  rewrite (Ok_pass _ _ _ (readLength_bytes _ _ _ _ H Hl)). cbn [fst snd].
  rewrite (Ok_pass _ _ _ (readBytes_app _ _)). cbn [fst snd]. unfold textDecode. rewrite Hu, throwIf_pass by done.
  cbn [mbind result_bind fst snd]. by rewrite text_of_textEncode.
Qed.

Lemma number_reads levels n buffer buffer' :
  encodeNumber options n buffer = Ok buffer' ->
  exists e, buffer' = buffer ++ e /\ reads_as (S levels) e (CNum n).
Proof.
  unfold encodeNumber. intros ([] & Hf%throwIf_Ok%negb_false_iff & H)%bind_Ok.
  destruct (isInteger n && negb (is_neg_zero n)) eqn:Ei.
  - apply andb_true_iff in Ei as [Hi Hz%negb_true_iff]. apply bind_Ok in H as ([] & Hs%throwIf_Ok%negb_false_iff & H).
    assert (Prim2SF n <> S754_zero true) as Hnz.
    { intros E. assert (n = neg_zero) as -> by (apply Prim2SF_inj; by rewrite E). by vm_compute in Hz. }
    pose proof (safe_integer_of_Z n Hs Hnz) as Hof.
    assert (Z.abs (trunc n) < 2 ^ 53) as Hb.
    { apply safe_bound. unfold isSafeInteger in Hs. by apply andb_true_iff in Hs as [_ ?]. }
    pose proof (of_Z_sign _ Hb) as Hsign. rewrite Hof in Hsign. rewrite Hsign in H.
    destruct (Z.leb_spec 0 (trunc n)) as [H0|H0]; apply writeArgument_Ok in H as [-> _];
      (eexists; split; [reflexivity|]); intros rest; rewrite readItem_initial by lia; cbv zeta.
    +cbn [Z.eqb Pos.eqb]. rewrite (Ok_pass _ _ _ (readArgument_bytes (trunc n) _ ltac:(lia))).
      cbn [fst snd]. by rewrite Hof.
    +cbn [Z.eqb Pos.eqb].
      rewrite (Ok_pass _ _ _ (readArgument_bytes (-1 - trunc n) _ ltac:(lia))). cbn [fst snd].
      replace (-1 - (-1 - trunc n)) with (trunc n) by lia.
      rewrite throwIf_pass by (apply negb_false_iff; by apply safe_bound). by rewrite Hof.
  - apply write_Ok in H as [-> _]. eexists. split; [reflexivity|]. intros rest.
    change (readSimple 27 (float64_bytes n ++ rest) = Ok (CNum n, rest)).
    change ((p ← readBytes 8 (float64_bytes n ++ rest);
             let n := bits_float (be_value (fst p)) in
             _ ← throwIf (negb (isFinite n)) NotFiniteNumber;
             _ ← throwIf (isInteger n && negb (isSafeInteger n)) UnsafeInteger;
             Ok (CNum n, snd p)) = Ok (E := CborError) (CNum n, rest)).
    rewrite (Ok_pass _ _ _ (readBytes_app (float64_bytes n) rest)). cbn [fst snd]. cbv zeta.
    rewrite be_float64, bits_float_inv, Hf, throwIf_pass by done. rewrite throwIf_pass; [done|].
    apply andb_false_iff in Ei as [->|Hz%negb_false_iff]; [done|]. apply andb_false_iff. right.
    apply negb_false_iff. unfold isSafeInteger. unfold is_neg_zero in Hz. apply andb_true_iff in Hz as [Hz _].
    rewrite FloatAxioms.eqb_spec in Hz. change (Prim2SF 0) with (S754_zero false) in Hz.
    assert (exists s, Prim2SF n = S754_zero s) as [s Hs].
    { destruct (Prim2SF n) as [s|[|]| |[] m e]; try done. by exists s. }
    assert (n = (if s then neg_zero else zero)) as -> by (apply Prim2SF_inj; rewrite Hs; by destruct s).
    by destruct s.
Qed.

Lemma fold_right_Forall {A} (P : A -> Prop) l : fold_right (fun x Q => P x /\ Q) True l <-> Forall P l.
Proof.
  induction l as [|x l IH]; cbn [fold_right]; [by split|]. rewrite IH, Forall_cons. reflexivity.
Qed.

Lemma encodeValue_depth v depth buffer buffer' :
  encodeValue options v depth buffer = Ok buffer' -> depth <= maxDepth options.
Proof. destruct v; cbn [encodeValue]; intros ([] & H%throwIf_Ok%Z.ltb_ge & _)%bind_Ok; done. Qed.

(** What a value is written as is read back, at its depth. *)
Definition round_trips (v : cvalue) : Prop :=
  forall depth buffer buffer', wf_cvalue v -> 0 <= depth -> encodeValue options v depth buffer = Ok buffer' ->
    exists e, buffer' = buffer ++ e /\ reads_as (levels_at depth) e (clean v).

Lemma items_read depth l buffer buffer' :
  Forall round_trips l -> Forall wf_cvalue l -> 0 <= depth ->
  encodeItems (encodeValue options) depth l buffer = Ok buffer' ->
  exists e, buffer' = buffer ++ e /\
    forall rest, readItems (readItem options (levels_at (depth + 1))) (length l) (e ++ rest) =
      Ok (map clean l, rest).
Proof.
  intros Hr Hw Hd. revert buffer. induction Hr as [|v l Hv _ IH]; intros buffer; cbn [encodeItems].
  - intros [= <-]. exists []. rewrite app_nil_r. done.
  - apply Forall_cons in Hw as [Hw1 Hw2]. intros ([] & _ & H)%bind_Ok. apply bind_Ok in H as (b1 & H1 & H2).
    apply Hv in H1 as (e1 & -> & He1); [|done|lia]. apply (IH Hw2) in H2 as (e2 & -> & He2).
    exists (e1 ++ e2). rewrite app_assoc. split; [done|]. intros rest. cbn [length readItems map].
    rewrite <- app_assoc, (Ok_pass _ _ _ (He1 _)). cbn [fst snd]. rewrite (Ok_pass _ _ _ (He2 _)). done.
Qed.

Lemma entries_read depth o acc buffer buffer' :
  Forall (fun p => round_trips (snd p)) o -> Forall (fun p => wf_cvalue (snd p)) o ->
  o_sorted (acc ++ map (fun p => (fst p, clean (snd p))) (defined_entries is_undefined o)) ->
  0 <= depth ->
  encodeEntries options (encodeValue options) depth o buffer = Ok buffer' ->
  exists e, buffer' = buffer ++ e /\
    forall rest, readEntries (readItem options (levels_at (depth + 1)))
      (length (defined_entries is_undefined o)) acc (e ++ rest) =
      Ok (acc ++ map (fun p => (fst p, clean (snd p))) (defined_entries is_undefined o), rest).
Proof.
  intros Hr Hw Hs Hd. revert buffer acc Hs. induction Hr as [|[k v] o Hv _ IH]; intros buffer acc Hs; cbn [encodeEntries].
  - intros [= <-]. exists []. rewrite app_nil_r. split; [done|]. intros rest. cbn. by rewrite app_nil_r.
  - apply Forall_cons in Hw as [Hw1 Hw2]. cbn [snd] in Hv, Hw1. unfold defined_entries in *. cbn [List.filter snd] in *.
    destruct (is_undefined v); cbn [negb] in *; [by apply IH|]. cbn [map fst snd] in Hs.
    intros (b1 & H1 & H)%bind_Ok. apply bind_Ok in H as (b2 & H2 & H3).
    pose proof (encodeValue_depth _ _ _ _ H2) as Hm. apply (text_reads (levels_at (depth + 1 + 1))) in H1 as (e1 & -> & He1).
    rewrite <- levels_succ in He1 by lia.
    apply Hv in H2 as (e2 & -> & He2); [|done|lia].
    apply (IH Hw2) with (acc := acc ++ [(k, clean v)]) in H3 as (e3 & -> & He3); [|by rewrite <- app_assoc].
    exists (e1 ++ e2 ++ e3). rewrite !app_assoc. split; [done|]. intros rest. cbn [length readEntries].
    rewrite <- !app_assoc, (Ok_pass _ _ _ (He1 _)). cbn [fst snd].
    assert (forall j, In j (o_keys acc) -> j <> k /\ key_before k j = false) as Hlast.
    { intros j Hj. destruct (o_sorted_app _ _ Hs j k Hj (or_introl eq_refl)) as [? ?]. done. }
    rewrite throwIf_pass.
    + rewrite (Ok_pass _ _ _ (He2 _)). cbn [fst snd]. rewrite (o_set_last _ _ _ Hlast), He3.
      by rewrite <- app_assoc.
    + unfold o_has. replace (o_get k acc) with (@None cvalue); [done|]. symmetry. apply o_get_None.
      intros Hk. by destruct (Hlast k Hk).
Qed.

Lemma encode_reads v : round_trips v.
Proof.
  induction v as [| |b|n|s|b|l IH|o IH] using cvalue_induction; intros depth buffer buffer' Hw Hd;
    cbn [encodeValue]; intros ([] & Hdep%throwIf_Ok%Z.ltb_ge & H)%bind_Ok;
    rewrite (levels_succ depth Hd Hdep).
  - apply write_Ok in H as [-> _]. eexists. split; [reflexivity|]. by intros rest.
  - done.
  - apply write_Ok in H as [-> _]. eexists. split; [reflexivity|]. intros rest. by destruct b.
  - by apply number_reads.
  - by apply text_reads.
  - apply bind_Ok in H as ([] & Hl%throwIf_Ok%Z.ltb_ge & H). apply bind_Ok in H as (b1 & [-> _]%writeArgument_Ok & [-> _]%write_Ok).
    rewrite <- app_assoc. eexists. split; [reflexivity|]. intros rest.
    pose proof (lenZ_nonneg b). unfold MAX_UINT32 in Hlimits.
    rewrite <- app_assoc, readItem_initial by lia. cbv zeta. cbn [Z.eqb Pos.eqb].
    rewrite (Ok_pass _ _ _ (readLength_bytes (lenZ b) _ _ _ ltac:(lia) Hl)). cbn [fst snd].
    by rewrite (Ok_pass _ _ _ (readBytes_app _ _)).
  - apply bind_Ok in H as ([] & Hl%throwIf_Ok%Z.ltb_ge & H). apply bind_Ok in H as (b1 & [-> _]%writeArgument_Ok & H).
    cbn [wf_cvalue] in Hw. apply fold_right_Forall in Hw.
    destruct (items_read _ _ _ _ IH Hw Hd H) as (e & -> & He). rewrite <- app_assoc. eexists. split; [reflexivity|].
    intros rest. pose proof (lenZ_nonneg l). unfold MAX_UINT32 in Hlimits.
    rewrite <- app_assoc, readItem_initial by lia. cbv zeta. cbn [Z.eqb Pos.eqb].
    rewrite (Ok_pass _ _ _ (readLength_bytes (lenZ l) _ _ _ ltac:(lia) Hl)). cbn [fst snd].
    unfold lenZ at 1. rewrite Nat2Z.id, (Ok_pass _ _ _ (He _)). done.
  - apply bind_Ok in H as ([] & Hl%throwIf_Ok%Z.ltb_ge & H). apply bind_Ok in H as (b1 & [-> _]%writeArgument_Ok & H).
    cbn [wf_cvalue] in Hw. destruct Hw as [Hso Hw]. apply (fold_right_Forall (fun p => wf_cvalue (snd p))) in Hw.
    set (ds := defined_entries is_undefined o) in *.
    assert (o_sorted ([] ++ map (fun p => (fst p, clean (snd p))) ds)) as Hsc
      by (apply o_sorted_map, o_sorted_filter; done).
    destruct (entries_read _ _ _ _ _ IH Hw Hsc Hd H) as (e & -> & He). rewrite <- app_assoc.
    eexists. split; [reflexivity|]. intros rest. pose proof (lenZ_nonneg ds). unfold MAX_UINT32 in Hlimits.
    rewrite <- app_assoc, readItem_initial by lia. cbv zeta. cbn [Z.eqb Pos.eqb].
    rewrite (Ok_pass _ _ _ (readLength_bytes (lenZ ds) _ _ _ ltac:(lia) Hl)). cbn [fst snd].
    unfold lenZ at 1. rewrite Nat2Z.id. fold ds in He. rewrite (Ok_pass _ _ _ (He _)).
    cbn [fst snd clean app]. by rewrite defined_entries_clean.
Qed.

(** ** Limits *)

Lemma encodeText_length s buffer buffer' :
  encodeText options s buffer = Ok buffer' -> lenZ buffer' <= maxByteLength options.
Proof.
  unfold encodeText. cbv zeta. intros ([] & _ & H)%bind_Ok. apply bind_Ok in H as ([] & _ & H).
  apply bind_Ok in H as (b1 & _ & [-> H]%write_Ok). by rewrite lenZ_app.
Qed.

Lemma writeArgument_length majorType v buffer buffer' :
  writeArgument options majorType v buffer = Ok buffer' -> lenZ buffer' <= maxByteLength options.
Proof.
  intros [-> H]%writeArgument_Ok. rewrite lenZ_app. unfold lenZ in *. cbn [length]. lia.
Qed.

Lemma write_length bs buffer buffer' :
  write options bs buffer = Ok buffer' -> lenZ buffer' <= maxByteLength options.
Proof. intros [-> H]%write_Ok. by rewrite lenZ_app. Qed.

(** The encoder never exceeds the byte limit. *)
Lemma encode_length v : forall depth buffer buffer',
  encodeValue options v depth buffer = Ok buffer' -> lenZ buffer' <= maxByteLength options.
Proof.
  induction v as [| |b|n|s|b|l IH|o IH] using cvalue_induction; intros depth buffer buffer';
    cbn [encodeValue]; intros ([] & _ & H)%bind_Ok.
  - by eapply write_length.
  - done.
  - by eapply write_length.
  - unfold encodeNumber in H. apply bind_Ok in H as ([] & _ & H). destruct (_ && _); [|by eapply write_length].
    apply bind_Ok in H as ([] & _ & H). destruct (0 <=? n)%float; by eapply writeArgument_length.
  - by eapply encodeText_length.
  - apply bind_Ok in H as ([] & _ & H). apply bind_Ok in H as (b1 & _ & H). by eapply write_length.
  - apply bind_Ok in H as ([] & _ & H). apply bind_Ok in H as (b1 & H1%writeArgument_length & H).
    revert b1 H1 H. induction IH as [|v l Hv _ IHl]; intros b1 H1; cbn [encodeItems]; [by intros [= <-]|].
    intros ([] & _ & H)%bind_Ok. apply bind_Ok in H as (b2 & H2%Hv & H). by eapply IHl.
  - apply bind_Ok in H as ([] & _ & H). apply bind_Ok in H as (b1 & H1%writeArgument_length & H).
    revert b1 H1 H. generalize (lenZ (defined_entries is_undefined o)). intros _.
    induction IH as [|[k v] o Hv _ IHo]; intros b1 H1; cbn [encodeEntries]; [by intros [= <-]|].
    destruct (is_undefined v); [by apply IHo|]. intros (b2 & _ & H)%bind_Ok. apply bind_Ok in H as (b3 & H3%Hv & H).
    by eapply IHo.
Qed.

(** ** What the decoder accepts can be written again *)

Lemma readBytes_Ok n b x rest :
  readBytes n b = Ok (x, rest) -> 0 <= n -> b = x ++ rest /\ lenZ x = n.
Proof.
  unfold readBytes. destruct (Z.ltb_spec (lenZ b) n) as [|H]; [done|]. intros [= <- <-] Hn.
  rewrite take_drop. split; [done|]. unfold lenZ in *. rewrite length_take. lia.
Qed.

Lemma readUint32_Ok b n rest :
  readUint32 b = Ok (n, rest) -> are_bytes b ->
  exists x, b = x ++ rest /\ lenZ x = 4 /\ 0 <= n < 4294967296.
Proof.
  unfold readUint32. intros ([x r] & H & [= <- <-])%bind_Ok Hb. apply readBytes_Ok in H as [-> Hl]; [|lia].
  exists x. split_and!; [done|done|..]; apply are_bytes_app in Hb as [Hx _];
    pose proof (be_value_range x Hx) as Hr; rewrite Hl in Hr; change (256 ^ 4) with 4294967296 in Hr; cbn [fst]; lia.
Qed.

(** An argument that is read is safe, and its shortest form is not longer. *)
Lemma readArgument_Ok info b n rest :
  readArgument info b = Ok (n, rest) -> are_bytes b -> 0 <= info ->
  exists x, b = x ++ rest /\ 0 <= n < 2 ^ 53 /\ lenZ (argument_bytes n) <= lenZ x.
Proof.
  change (2 ^ 53) with 9007199254740992. intros H Hb Hi. unfold readArgument in H.
  destruct (Z.ltb_spec info 24) as [H24|_].
  { injection H as <- <-. exists []. unfold argument_bytes. rewrite (proj2 (Z.ltb_lt _ _) H24).
    split_and!; [done|lia|lia|done]. }
  assert (forall k x r, readBytes k b = Ok (x, r) -> 0 <= k -> b = x ++ r /\ lenZ x = k /\ 0 <= be_value x < 256 ^ k) as Hrb.
  { intros k x r Hr Hk. apply readBytes_Ok in Hr as [-> <-]; [|done]. apply are_bytes_app in Hb as [Hx _].
    split_and!; [done|done|..]; by apply be_value_range. }
  destruct (info =? 24).
  { destruct b as [|v r]; [done|]. injection H as <- <-. exists [v].
    unfold are_bytes, is_byte, inRange in Hb. cbn [forallb] in Hb. apply andb_true_iff in Hb as [Hv _].
    split_and!; [done|lia|lia|]. unfold argument_bytes. destruct (v <? 24); [done|].
    rewrite (proj2 (Z.leb_le v 255)) by lia. done. }
  destruct (info =? 25).
  { apply bind_Ok in H as ([x r] & H & [= <- <-]). apply Hrb in H as (-> & Hl & Hv); [|lia]. exists x.
    change (256 ^ 2) with 65536 in Hv. cbn [fst snd]. split_and!; [done|lia|lia|]. unfold argument_bytes. rewrite Hl.
    destruct (_ <? 24); [done|]. destruct (_ <=? 255); [done|]. rewrite (proj2 (Z.leb_le _ 65535)) by lia. done. }
  destruct (info =? 26).
  { apply readUint32_Ok in H as (x & -> & Hl & Hv); [|done]. exists x. split_and!; [done|lia|lia|]. unfold argument_bytes. rewrite Hl.
    destruct (_ <? 24); [done|]. destruct (_ <=? 255); [done|]. destruct (_ <=? 65535); [done|].
    unfold MAX_UINT32. change (2 ^ 32) with 4294967296. rewrite (proj2 (Z.leb_le n (4294967296 - 1))) by lia. done. }
  destruct (info =? 27); [|by destruct (info =? 31)].
  apply bind_Ok in H as ([high r1] & H1 & H). apply bind_Ok in H as ([low r2] & H2 & H).
  apply bind_Ok in H as ([] & Hh%throwIf_Ok%Z.ltb_ge & [= <- <-]). cbn [fst snd] in *.
  apply readUint32_Ok in H1 as (x1 & -> & Hl1 & Hv1); [|done]. apply are_bytes_app in Hb as [_ Hb].
  apply readUint32_Ok in H2 as (x2 & -> & Hl2 & Hv2); [|done]. exists (x1 ++ x2).
  rewrite lenZ_app, Hl1, Hl2, <- app_assoc. unfold UINT32_BASE. change (2 ^ 32) with 4294967296.
  split_and!; [done|lia|lia|]. unfold argument_bytes. cbv zeta. repeat case_match; unfold lenZ; cbn; lia.
Qed.

(** [v] is written as [e] at the depths with these levels. *)
Definition writes_as (levels : nat) (v : cvalue) (e : bytes) : Prop :=
  forall depth buffer, levels_at depth = levels -> 0 <= depth -> lenZ buffer + lenZ e <= maxByteLength options ->
    encodeValue options v depth buffer = Ok (buffer ++ e).

Lemma depth_ok depth levels : levels_at depth = S levels -> (maxDepth options <? depth) = false.
Proof. unfold levels_at. intros H. apply Z.ltb_ge. lia. Qed.

(** The outcome of a read: a well-formed value that can be written in no more bytes. *)
Definition rewritable (levels : nat) (b : bytes) (v : cvalue) (rest : bytes) : Prop :=
  wf_cvalue v /\ clean v = v /\ is_undefined v = false /\
  exists x e, b = x ++ rest /\ lenZ e <= lenZ x /\ writes_as levels v e.

Lemma writeArgument_writes majorType v buffer :
  lenZ buffer + (1 + lenZ (argument_bytes v)) <= maxByteLength options ->
  writeArgument options majorType v buffer = Ok (buffer ++ initial_byte majorType v :: argument_bytes v).
Proof. intros H. by apply writeArgument_Ok. Qed.

Lemma number_writes levels z :
  safe z = true ->
  let m := if 0 <=? z then z else -1 - z in
  writes_as (S levels) (CNum (of_Z z)) (initial_byte (if 0 <=? z then 0 else 1) m :: argument_bytes m).
Proof.
  intros Hs. cbv zeta. intros depth buffer Hd _ Hb. cbn [encodeValue]. rewrite throwIf_pass by by eapply depth_ok.
  destruct (of_Z_safe z Hs) as [Hsafe Ht]. pose proof (proj1 (safe_bound z) Hs) as Hz.
  unfold encodeNumber. rewrite throwIf_pass by (by rewrite of_Z_finite).
  assert (is_neg_zero (of_Z z) = false) as ->.
  { unfold is_neg_zero. destruct (get_sign (of_Z z)) eqn:Es; [|by rewrite andb_false_r].
    rewrite andb_true_r. rewrite FloatAxioms.eqb_spec. change (Prim2SF 0) with (S754_zero false).
    destruct z as [|m|m]; [by vm_compute in Es| |];
      destruct (of_Z_pos m ltac:(lia)) as (mz & _ & Hp & Hq); rewrite ?Hp, ?Hq; done. }
  assert (isInteger (of_Z z) = true) as -> by (unfold isSafeInteger in Hsafe; by apply andb_true_iff in Hsafe as [? _]).
  cbn [negb andb]. rewrite Hsafe, throwIf_pass by done. rewrite of_Z_sign, Ht by done.
  unfold lenZ in Hb. cbn [length] in Hb.
  destruct (0 <=? z); apply writeArgument_writes; unfold lenZ; lia.
Qed.

Lemma float_writes levels n :
  isFinite n = true -> isInteger n && negb (isSafeInteger n) = false ->
  exists e, lenZ e <= 9 /\ writes_as (S levels) (CNum n) e.
Proof.
  intros Hf Hi. destruct (isInteger n && negb (is_neg_zero n)) eqn:Ez.
  - apply andb_true_iff in Ez as [Hint Hz%negb_true_iff]. rewrite Hint in Hi. apply negb_false_iff in Hi.
    assert (Prim2SF n <> S754_zero true) as Hnz.
    { intros E. assert (n = neg_zero) as -> by (apply Prim2SF_inj; by rewrite E). by vm_compute in Hz. }
    rewrite <- (safe_integer_of_Z n Hi Hnz). eexists. split; [|apply number_writes].
    + unfold argument_bytes. cbv zeta. repeat case_match; unfold lenZ; cbn; lia.
    + unfold isSafeInteger in Hi. by apply andb_true_iff in Hi as [_ ?].
  - exists (251 :: float64_bytes n). split; [by unfold lenZ; cbn|].
    intros depth buffer Hd _ Hb. cbn [encodeValue]. rewrite throwIf_pass by by eapply depth_ok.
    unfold encodeNumber. rewrite Hf, throwIf_pass by done. rewrite Ez. by apply write_Ok.
Qed.

Lemma text_writes levels s :
  utf8 (textEncode s) = true -> lenZ (textEncode s) <= maxByteLength options ->
  (forall buffer, lenZ buffer + (1 + lenZ (argument_bytes (lenZ (textEncode s))) + lenZ (textEncode s)) <= maxByteLength options ->
     encodeText options s buffer =
     Ok (buffer ++ initial_byte 3 (lenZ (textEncode s)) :: argument_bytes (lenZ (textEncode s)) ++ textEncode s)) /\
  writes_as (S levels) (CText s) (initial_byte 3 (lenZ (textEncode s)) :: argument_bytes (lenZ (textEncode s)) ++ textEncode s).
Proof.
  intros Hu Hl.
  assert (forall buffer, lenZ buffer + (1 + lenZ (argument_bytes (lenZ (textEncode s))) + lenZ (textEncode s)) <= maxByteLength options ->
     encodeText options s buffer =
     Ok (buffer ++ initial_byte 3 (lenZ (textEncode s)) :: argument_bytes (lenZ (textEncode s)) ++ textEncode s)) as He.
  { intros buffer Hb. unfold encodeText. cbv zeta. rewrite throwIf_pass by (by apply Z.ltb_ge).
    rewrite Hu, throwIf_pass by done. pose proof (lenZ_nonneg (textEncode s)).
    rewrite (Ok_pass _ _ _ (writeArgument_writes 3 (lenZ (textEncode s)) buffer ltac:(lia))).
    apply write_Ok. rewrite <- app_assoc, lenZ_app. split; [done|]. unfold lenZ in *. cbn [length]. lia. }
  split; [done|]. intros depth buffer Hd _ Hb. cbn [encodeValue]. rewrite throwIf_pass by by eapply depth_ok.
  apply He. unfold lenZ in *. cbn [length] in Hb. rewrite length_app in Hb. lia.
Qed.

(** The writing of a list of values or entries, with the bytes of each. *)
Definition total (es : list bytes) : Z := lenZ (concat es).

Lemma total_cons e es : total (e :: es) = lenZ e + total es.
Proof. unfold total. cbn [concat]. apply lenZ_app. Qed.

Lemma items_write levels l es depth buffer :
  Forall2 (fun v e => is_undefined v = false /\ writes_as levels v e) l es ->
  levels_at (depth + 1) = levels -> 0 <= depth -> lenZ buffer + total es <= maxByteLength options ->
  encodeItems (encodeValue options) depth l buffer = Ok (buffer ++ concat es).
Proof.
  intros H Hlv Hd. revert buffer. induction H as [|v e l es [Hu Hv] _ IH]; intros buffer Hb; cbn [encodeItems concat].
  - by rewrite app_nil_r.
  - rewrite total_cons in Hb. assert (0 <= total es) by apply lenZ_nonneg.
    rewrite Hu, throwIf_pass by done. rewrite (Ok_pass _ _ _ (Hv (depth + 1) buffer Hlv ltac:(lia) ltac:(lia))).
    rewrite IH, <- app_assoc; [done|]. rewrite lenZ_app. lia.
Qed.

Definition entry_writes (levels : nat) (p : string * cvalue) (e : bytes) : Prop :=
  is_undefined (snd p) = false /\
  exists ek ev, e = ek ++ ev /\
    (forall buffer, lenZ buffer + lenZ ek <= maxByteLength options -> encodeText options (fst p) buffer = Ok (buffer ++ ek)) /\
    writes_as levels (snd p) ev.

Lemma entries_write levels o es depth buffer :
  Forall2 (entry_writes levels) o es ->
  levels_at (depth + 1) = levels -> 0 <= depth -> lenZ buffer + total es <= maxByteLength options ->
  encodeEntries options (encodeValue options) depth o buffer = Ok (buffer ++ concat es).
Proof.
  intros H Hlv Hd. revert buffer.
  induction H as [|[k v] e o es (Hu & ek & ev & -> & Hk & Hv) _ IH]; intros buffer Hb; cbn [encodeEntries concat].
  - by rewrite app_nil_r.
  - rewrite total_cons, lenZ_app in Hb. cbn [fst snd] in *.
    assert (0 <= total es) by apply lenZ_nonneg. pose proof (lenZ_nonneg ev).
    rewrite Hu, (Ok_pass _ _ _ (Hk buffer ltac:(lia))).
    rewrite (Ok_pass _ _ _ (Hv (depth + 1) (buffer ++ ek) Hlv ltac:(lia) ltac:(rewrite lenZ_app; lia))).
    rewrite IH, <- !app_assoc; [done|]. rewrite !lenZ_app. lia.
Qed.

Lemma insert_writes levels k v e o es :
  Forall2 (entry_writes levels) o es -> entry_writes levels (k, v) e ->
  exists es', Forall2 (entry_writes levels) (o_insert k v o) es' /\ total es' = lenZ e + total es.
Proof.
  intros H He. induction H as [|[j w] f o es Hf Hr (es' & IH & Ht)]; cbn [o_insert].
  - exists [e]. split; [constructor; [done|constructor]|]. by rewrite total_cons.
  - destruct (key_before k j).
    + exists (e :: f :: es). split; [|by rewrite !total_cons].
      constructor; [done|]. by constructor.
    + exists (f :: es'). split; [by constructor|]. rewrite !total_cons. lia.
Qed.

Lemma length_insert {A} k (v : A) o : length (o_insert k v o) = S (length o).
Proof. induction o as [|[j w] o IH]; cbn [o_insert length]; [done|]. destruct (key_before k j); cbn [length]; auto. Qed.

Lemma readItems_rewritable levels :
  (forall b v rest, are_bytes b -> readItem options levels b = Ok (v, rest) -> rewritable levels b v rest) ->
  forall count b l rest, are_bytes b -> readItems (readItem options levels) count b = Ok (l, rest) ->
    length l = count /\ Forall wf_cvalue l /\ map clean l = l /\
    exists x es, b = x ++ rest /\ total es <= lenZ x /\
      Forall2 (fun v e => is_undefined v = false /\ writes_as levels v e) l es.
Proof.
  intros IH count. induction count as [|count IHc]; intros b l rest Hb; cbn [readItems].
  - intros [= <- <-]. split_and!; [done|done|done|]. by exists [], [].
  - intros ([v r] & H1 & H)%bind_Ok. apply bind_Ok in H as ([l' r'] & H2 & [= <- <-]). cbn [fst snd] in *.
    destruct (IH _ _ _ Hb H1) as (Hw & Hc & Hu & x & e & -> & He & Hwr). apply are_bytes_app in Hb as [_ Hb].
    destruct (IHc _ _ _ Hb H2) as (Hl & Hws & Hcs & x' & es & -> & Hes & Hf).
    split_and!; [cbn [length]; by f_equal|by constructor|cbn [map]; by rewrite Hc, Hcs|].
    exists (x ++ x'), (e :: es). rewrite <- app_assoc, total_cons, lenZ_app. split_and!; [done|lia|by constructor].
Qed.

Lemma readEntries_rewritable levels :
  (forall b v rest, are_bytes b -> readItem options levels b = Ok (v, rest) -> rewritable levels b v rest) ->
  (forall b s rest, are_bytes b -> readItem options levels b = Ok (CText s, rest) ->
     exists x e, b = x ++ rest /\ lenZ e <= lenZ x /\
       forall buffer, lenZ buffer + lenZ e <= maxByteLength options -> encodeText options s buffer = Ok (buffer ++ e)) ->
  forall count b acc aes o rest, are_bytes b -> o_sorted acc -> Forall (fun p => wf_cvalue (snd p) /\ clean (snd p) = snd p) acc ->
    Forall2 (entry_writes levels) acc aes ->
    readEntries (readItem options levels) count acc b = Ok (o, rest) ->
    length o = (length acc + count)%nat /\ o_sorted o /\ Forall (fun p => wf_cvalue (snd p) /\ clean (snd p) = snd p) o /\
    exists x es, b = x ++ rest /\ total es <= total aes + lenZ x /\ Forall2 (entry_writes levels) o es.
Proof.
  intros IH IHt count. induction count as [|count IHc]; intros b acc aes o rest Hb Hso Hwf Hf; cbn [readEntries].
  - intros [= <- <-]. split_and!; [lia|done|done|]. exists [], aes. split_and!; [done|change (lenZ (@nil Z)) with 0; lia|done].
  - intros ([kv r] & H1 & H)%bind_Ok. cbn [fst snd] in H. destruct kv as [| | | |k| | |]; try done.
    apply bind_Ok in H as ([] & Hdup%throwIf_Ok & H). apply bind_Ok in H as ([v r2] & H2 & H3). cbn [fst snd] in *.
    destruct (IHt _ _ _ Hb H1) as (x1 & ek & -> & Hek & Hk). apply are_bytes_app in Hb as [_ Hb].
    destruct (IH _ _ _ Hb H2) as (Hw & Hc & Hu & x2 & ev & -> & Hev & Hwr). apply are_bytes_app in Hb as [_ Hb].
    assert (o_set k v acc = o_insert k v acc) as Hset by (unfold o_set; by rewrite Hdup).
    destruct (insert_writes levels k v (ek ++ ev) acc aes Hf) as (aes' & Hf' & Ht').
    { split; [done|]. exists ek, ev. done. }
    rewrite <- Hset in Hf'.
    destruct (IHc r2 (o_set k v acc) aes' o rest Hb) as (Hlen & Hso' & Hwf' & x3 & es & -> & Hes & Hf3); [by apply o_set_sorted| |done|done|].
    { apply Forall_forall. intros [k' v'] Hin%list_elem_of_In. apply o_set_In in Hin as [[= -> ->]|Hin]; [done|].
      rewrite Forall_forall in Hwf. apply Hwf. by apply list_elem_of_In. }
    rewrite Hset, length_insert in Hlen. split_and!; [lia|done|done|].
    exists (x1 ++ x2 ++ x3), es. rewrite <- !app_assoc, !lenZ_app in *. split_and!; [done|lia|done].
Qed.

Lemma readLength_Ok info limit err b n rest :
  readLength info limit err b = Ok (n, rest) -> are_bytes b -> 0 <= info ->
  exists x, b = x ++ rest /\ 0 <= n < 2 ^ 53 /\ n <= limit /\ lenZ (argument_bytes n) <= lenZ x /\ are_bytes rest.
Proof.
  unfold readLength. intros ([] & _ & H)%bind_Ok Hb Hi. apply bind_Ok in H as ([m r] & H & Hlim).
  apply bind_Ok in Hlim as ([] & Hlim%throwIf_Ok%Z.ltb_ge & [= <- <-]).
  apply readArgument_Ok in H as (x & -> & Hm & Hx); [|done..]. exists x.
  apply are_bytes_app in Hb as [_ Hr]. done.
Qed.

(** A text that is read has been read from the bytes it is written as, or more. *)
Lemma read_text info b s rest :
  (p ← readLength info (maxByteLength options) TextLimit b;
   q ← readBytes (fst p) (snd p);
   s ← textDecode (fst q);
   Ok (CText s, snd q)) = Ok (CText s, rest) ->
  are_bytes b -> 0 <= info ->
  exists x, b = x ++ rest /\ utf8 (textEncode s) = true /\ lenZ (textEncode s) <= maxByteLength options /\
    lenZ (argument_bytes (lenZ (textEncode s))) + lenZ (textEncode s) <= lenZ x.
Proof.
  intros ([n r] & H1 & H)%bind_Ok Hb Hi. apply bind_Ok in H as ([t r2] & H2 & H). apply bind_Ok in H as (s' & H3 & [= -> <-]).
  apply readLength_Ok in H1 as (x & -> & Hn & Hl & Hx & Hr); [|done..]. cbn [fst snd] in *.
  apply readBytes_Ok in H2 as [-> <-]; [|lia]. apply are_bytes_app in Hr as [Ht _].
  unfold textDecode in H3. apply bind_Ok in H3 as ([] & Hu%throwIf_Ok%negb_false_iff & [= <-]).
  exists (x ++ t). rewrite textEncode_text_of, <- app_assoc, lenZ_app by done. split_and!; [done|done|done|lia].
Qed.

Lemma info_nonneg b : is_byte b = true -> 0 <= Z.land b 31.
Proof. intros H. apply Z.land_nonneg. lia. Qed.

Lemma first_byte b r : are_bytes (b :: r) -> is_byte b = true /\ are_bytes r.
Proof. unfold are_bytes. cbn [forallb]. by rewrite andb_true_iff. Qed.

(** A read that consumed an initial byte and then [x]. *)
Lemma rewritable_cons levels (first : Z) x v e (rest : bytes) :
  wf_cvalue v -> clean v = v -> is_undefined v = false -> lenZ e <= 1 + lenZ x -> writes_as levels v e ->
  rewritable levels (first :: x ++ rest) v rest.
Proof.
  intros Hw Hc Hu He Hwr. split_and!; [done..|]. exists (first :: x), e. split_and!; [done| |done].
  unfold lenZ in *. cbn [length]. lia.
Qed.

Lemma readSimple_rewritable levels info b v rest :
  readSimple info b = Ok (v, rest) ->
  wf_cvalue v /\ clean v = v /\ is_undefined v = false /\ (forall s, v <> CText s) /\
  exists x e, b = x ++ rest /\ lenZ e <= 1 + lenZ x /\ writes_as (S levels) v e.
Proof.
  unfold readSimple. intros H.
  assert (forall k w, (forall depth buffer, levels_at depth = S levels -> encodeValue options w depth buffer = write options [k] buffer) ->
            writes_as (S levels) w [k]) as Hone.
  { intros k w Hk depth buffer Hd _ Hb. rewrite Hk by done. by apply write_Ok. }
  destruct (info =? 20).
  { injection H as <- <-. split_and!; try done. exists [], [244]. split_and!; [done|unfold lenZ; cbn; lia|].
    apply Hone. intros depth buffer Hd. cbn [encodeValue]. by rewrite throwIf_pass by by eapply depth_ok. }
  destruct (info =? 21).
  { injection H as <- <-. split_and!; try done. exists [], [245]. split_and!; [done|unfold lenZ; cbn; lia|].
    apply Hone. intros depth buffer Hd. cbn [encodeValue]. by rewrite throwIf_pass by by eapply depth_ok. }
  destruct (info =? 22).
  { injection H as <- <-. split_and!; try done. exists [], [246]. split_and!; [done|unfold lenZ; cbn; lia|].
    apply Hone. intros depth buffer Hd. cbn [encodeValue]. by rewrite throwIf_pass by by eapply depth_ok. }
  destruct (info =? 27); [|by destruct (info =? 31)].
  apply bind_Ok in H as ([x r] & H1 & H). apply bind_Ok in H as ([] & Hf%throwIf_Ok%negb_false_iff & H).
  apply bind_Ok in H as ([] & Hi%throwIf_Ok & [= <- <-]). apply readBytes_Ok in H1 as [-> Hl]; [|lia].
  split_and!; try done. destruct (float_writes levels _ Hf Hi) as (e & He & Hw). exists x, e. split_and!; [done|lia|done].
Qed.

(** A key that is read can be written in no more bytes. *)
Lemma readItem_text levels b s rest :
  are_bytes b -> readItem options levels b = Ok (CText s, rest) ->
  exists x e, b = x ++ rest /\ lenZ e <= lenZ x /\
    (forall buffer, lenZ buffer + lenZ e <= maxByteLength options -> encodeText options s buffer = Ok (buffer ++ e)) /\
    writes_as levels (CText s) e.
Proof.
  intros Hb. destruct levels as [|levels]; [done|]. cbn [readItem].
  intros ([first r] & H1 & H)%bind_Ok. destruct b as [|first' r']; [done|]. injection H1 as <- <-.
  destruct (first_byte _ _ Hb) as [Hfb Hr]. pose proof (info_nonneg _ Hfb) as Hi. cbn [fst snd] in H. cbv zeta in H.
  destruct (_ =? 0); [apply bind_Ok in H as (? & _ & [=])|].
  destruct (_ =? 1); [apply bind_Ok in H as (? & _ & H); by apply bind_Ok in H as (? & _ & [=])|].
  destruct (_ =? 2); [apply bind_Ok in H as (? & _ & H); by apply bind_Ok in H as (? & _ & [=])|].
  destruct (_ =? 3).
  - destruct (read_text _ _ _ _ H Hr Hi) as (x & -> & Hu & Hl & Hx).
    destruct (text_writes levels s Hu Hl) as [He Hw].
    exists (first' :: x). eexists. split_and!; [done| | |exact Hw].
    + unfold lenZ in *. cbn [length]. rewrite length_app. lia.
    + intros buffer Hbuf. apply He. unfold lenZ in *. cbn [length] in Hbuf. rewrite length_app in Hbuf. lia.
  - destruct (_ =? 4); [apply bind_Ok in H as (? & _ & H); by apply bind_Ok in H as (? & _ & [=])|].
    destruct (_ =? 5); [apply bind_Ok in H as (? & _ & H); by apply bind_Ok in H as (? & _ & [=])|].
    destruct (_ =? 6); [done|]. apply (readSimple_rewritable levels) in H as (_ & _ & _ & Hn & _). by destruct (Hn s).
Qed.

Lemma bytes_writes levels t :
  lenZ t <= maxByteLength options ->
  writes_as (S levels) (CBytes t) (initial_byte 2 (lenZ t) :: argument_bytes (lenZ t) ++ t).
Proof.
  intros Hl depth buffer Hd _ Hb. cbn [encodeValue]. rewrite throwIf_pass by by eapply depth_ok.
  rewrite throwIf_pass by by apply Z.ltb_ge. unfold lenZ in Hb. cbn [length] in Hb. rewrite length_app in Hb.
  rewrite (Ok_pass _ _ _ (writeArgument_writes 2 (lenZ t) buffer ltac:(unfold lenZ; lia))).
  apply write_Ok. rewrite <- app_assoc, lenZ_app. split; [done|]. unfold lenZ. cbn [length]. lia.
Qed.

Lemma array_writes levels l es :
  Forall2 (fun v e => is_undefined v = false /\ writes_as levels v e) l es -> lenZ l <= maxContainerLength options ->
  writes_as (S levels) (CArr l) (initial_byte 4 (lenZ l) :: argument_bytes (lenZ l) ++ concat es).
Proof.
  intros Hf Hl depth buffer Hd H0 Hb. cbn [encodeValue]. rewrite throwIf_pass by by eapply depth_ok.
  rewrite throwIf_pass by by apply Z.ltb_ge. unfold lenZ in Hb. cbn [length] in Hb. rewrite length_app in Hb.
  rewrite (Ok_pass _ _ _ (writeArgument_writes 4 (lenZ l) buffer ltac:(unfold lenZ; lia))).
  rewrite (items_write levels l es); [by rewrite <- app_assoc|done|unfold levels_at in *; lia|done|].
  rewrite lenZ_app. unfold total, lenZ. cbn [length]. lia.
Qed.

Lemma defined_all levels o es :
  Forall2 (entry_writes levels) o es -> defined_entries is_undefined o = o.
Proof.
  unfold defined_entries. induction 1 as [|p e o es (Hu & _) _ IH]; cbn [List.filter]; [done|]. by rewrite Hu, IH.
Qed.

Lemma map_writes levels o es :
  Forall2 (entry_writes levels) o es -> lenZ o <= maxContainerLength options ->
  writes_as (S levels) (CObj o) (initial_byte 5 (lenZ o) :: argument_bytes (lenZ o) ++ concat es).
Proof.
  intros Hf Hl depth buffer Hd H0 Hb. cbn [encodeValue]. rewrite throwIf_pass by by eapply depth_ok.
  rewrite (defined_all _ _ _ Hf). cbv zeta.
  rewrite throwIf_pass by by apply Z.ltb_ge. unfold lenZ in Hb. cbn [length] in Hb. rewrite length_app in Hb.
  rewrite (Ok_pass _ _ _ (writeArgument_writes 5 (lenZ o) buffer ltac:(unfold lenZ; lia))).
  rewrite (entries_write levels o es); [by rewrite <- app_assoc|done|unfold levels_at in *; lia|done|].
  rewrite lenZ_app. unfold total, lenZ. cbn [length]. lia.
Qed.

Lemma readItem_rewritable levels b v rest :
  are_bytes b -> readItem options levels b = Ok (v, rest) -> rewritable levels b v rest.
Proof.
  revert b v rest. induction levels as [|levels IH]; intros b v rest Hb; [done|]. intros H0. pose proof H0 as H.
  cbn [readItem] in H. apply bind_Ok in H as ([first r] & H1 & H). destruct b as [|first' r']; [done|]. injection H1 as <- <-.
  destruct (first_byte _ _ Hb) as [Hfb Hr]. pose proof (info_nonneg _ Hfb) as Hi. cbn [fst snd] in H. cbv zeta in H.
  destruct (_ =? 0).
  { apply bind_Ok in H as ([n r] & H1 & [= <- <-]). apply readArgument_Ok in H1 as (x & -> & Hn & Hx); [|done..].
    cbn [fst snd]. assert (safe n = true) as Hs by (apply safe_bound; lia).
    pose proof (number_writes levels n Hs) as Hw. cbv zeta in Hw. rewrite (proj2 (Z.leb_le 0 n)) in Hw by lia.
    eapply rewritable_cons; [done|done|done| |exact Hw]. unfold lenZ in *. cbn [length]. lia. }
  destruct (_ =? 1).
  { apply bind_Ok in H as ([n r] & H1 & H). apply bind_Ok in H as ([] & Hs%throwIf_Ok%negb_false_iff & [= <- <-]).
    apply readArgument_Ok in H1 as (x & -> & Hn & Hx); [|done..]. cbn [fst snd] in *.
    pose proof (number_writes levels _ Hs) as Hw. cbv zeta in Hw. rewrite (proj2 (Z.leb_gt 0 _)) in Hw by lia.
    replace (-1 - (-1 - n)) with n in Hw by lia.
    eapply rewritable_cons; [done|done|done| |exact Hw]. unfold lenZ in *. cbn [length]. lia. }
  destruct (_ =? 2).
  { apply bind_Ok in H as ([n r] & H1 & H). apply bind_Ok in H as ([t r2] & H2 & [= <- <-]). cbn [fst snd] in *.
    apply readLength_Ok in H1 as (x & -> & Hn & Hl & Hx & Hbr); [|done..]. apply readBytes_Ok in H2 as [-> <-]; [|lia].
    apply are_bytes_app in Hbr as [Ht _]. rewrite app_assoc.
    eapply rewritable_cons; [exact Ht|done|done| |by apply bytes_writes]. rewrite lenZ_app in *.
    unfold lenZ in *. cbn [length]. rewrite length_app. lia. }
  destruct (_ =? 3).
  { assert (exists s, v = CText s) as [s ->].
    { apply bind_Ok in H as (? & _ & H). apply bind_Ok in H as (? & _ & H). apply bind_Ok in H as (s & _ & [= <- _]). eauto. }
    apply readItem_text in H0 as (x & e & Hx & He & _ & Hw); [|done]. split_and!; [done..|]. by exists x, e. }
  destruct (_ =? 4).
  { apply bind_Ok in H as ([n r] & H1 & H). apply bind_Ok in H as ([l r2] & H2 & [= <- <-]). cbn [fst snd] in *.
    apply readLength_Ok in H1 as (x & -> & Hn & Hl & Hx & Hbr); [|done..].
    apply (readItems_rewritable levels IH) in H2 as (Hlen & Hws & Hcs & x2 & es & -> & Hes & Hf); [|done].
    assert (lenZ l = n) as <- by (unfold lenZ; rewrite Hlen; lia). rewrite app_assoc.
    eapply rewritable_cons; [cbn [wf_cvalue]; by apply fold_right_Forall|cbn [clean]; by rewrite Hcs|done| |by eapply array_writes].
    unfold total in Hes. rewrite lenZ_app in *. unfold lenZ in *. cbn [length]. rewrite length_app. lia. }
  destruct (_ =? 5).
  { apply bind_Ok in H as ([n r] & H1 & H). apply bind_Ok in H as ([o r2] & H2 & [= <- <-]). cbn [fst snd] in *.
    apply readLength_Ok in H1 as (x & -> & Hn & Hl & Hx & Hbr); [|done..].
    apply (readEntries_rewritable levels IH) with (aes := []) in H2 as (Hlen & Hso & Hwf & x2 & es & -> & Hes & Hf); try done.
    2: { intros b' s' rest' Hb' H'. destruct (readItem_text _ _ _ _ Hb' H') as (y & e & ? & ? & ? & _). by exists y, e. }
    cbn [length] in Hlen. assert (lenZ o = n) as <- by (unfold lenZ; rewrite Hlen; lia). rewrite app_assoc.
    eapply rewritable_cons; [|cbn [clean]|done| |by eapply map_writes].
    - cbn [wf_cvalue]. split; [done|]. apply (fold_right_Forall (fun p => wf_cvalue (snd p))).
      eapply Forall_impl; [exact Hwf|]. by intros p [? _].
    - rewrite defined_entries_clean, (defined_all _ _ _ Hf). f_equal. clear -Hwf.
      induction Hwf as [|[k v] o [_ Hc] _ IH]; [done|]. cbn [map fst snd] in *. by rewrite Hc, IH.
    - unfold total in Hes. change (lenZ (concat (@nil bytes))) with 0 in Hes.
      rewrite lenZ_app in *. unfold lenZ in *. cbn [length]. rewrite length_app. lia. }
  destruct (_ =? 6); [done|].
  apply (readSimple_rewritable levels) in H as (Hw & Hc & Hu & _ & x & e & -> & He & Hwr).
  by eapply rewritable_cons.
Qed.
End RoundTrip.

(** ** Reads look at no more than they consume *)

Section Extension.
Variable options : ResolvedCborOptions.

Definition extends {A} (read : bytes -> result CborError (A * bytes)) : Prop :=
  forall b v r x, read b = Ok (v, r) -> read (b ++ x) = Ok (v, r ++ x).

Lemma extends_ret {A} (v : A) : extends (fun b => Ok (v, b)).
Proof. by intros b w r x [= <- <-]. Qed.

Lemma extends_throw {A} e : extends (fun _ => Throw e : result CborError (A * bytes)).
Proof. by intros b w r x. Qed.

Lemma extends_bind {A B} (m : bytes -> result CborError (A * bytes)) (k : A -> bytes -> result CborError (B * bytes)) :
  extends m -> (forall a, extends (k a)) -> extends (fun b => p ← m b; k (fst p) (snd p)).
Proof.
  intros Hm Hk b v r x ([a r1] & H1 & H2)%bind_Ok. cbn [fst snd] in H2.
  rewrite (Ok_pass _ _ _ (Hm _ _ _ x H1)). cbn [fst snd]. by apply Hk.
Qed.

Lemma extends_guard {A} c e (m : bytes -> result CborError (A * bytes)) :
  extends m -> extends (fun b => _ ← throwIf c e; m b).
Proof. intros Hm b v r x ([] & Hc%throwIf_Ok & H)%bind_Ok. rewrite Hc. by apply Hm. Qed.

Lemma extends_pure {A B} (m : result CborError A) (f : A -> B) :
  extends (fun b => s ← m; Ok (f s, b)).
Proof. intros b v r x (s & -> & [= <- <-])%bind_Ok. done. Qed.

Lemma readByte_extends : extends readByte.
Proof. intros [|v b] w r x; [done|]. by intros [= <- <-]. Qed.

Lemma readBytes_extends n : extends (readBytes n).
Proof.
  intros b v r x. unfold readBytes. destruct (Z.ltb_spec (lenZ b) n) as [|H]; [done|]. intros [= <- <-].
  rewrite lenZ_app, (proj2 (Z.ltb_ge _ _)) by (pose proof (lenZ_nonneg x); lia).
  unfold lenZ in H. rewrite take_app_le, drop_app_le by lia. done.
Qed.

Lemma readUint32_extends : extends readUint32.
Proof. apply (extends_bind (readBytes 4) (fun v b => Ok (be_value v, b))); [apply readBytes_extends|intros; apply extends_ret]. Qed.

Lemma readArgument_extends info : extends (readArgument info).
Proof.
  unfold readArgument. destruct (info <? 24); [apply extends_ret|]. destruct (info =? 24); [apply readByte_extends|].
  destruct (info =? 25).
  { apply (extends_bind (readBytes 2) (fun v b => Ok (be_value v, b))); [apply readBytes_extends|intros; apply extends_ret]. }
  destruct (info =? 26); [apply readUint32_extends|]. destruct (info =? 27).
  { apply (extends_bind readUint32 (fun high b => p ← readUint32 b; _ ← throwIf (2097151 <? high) OutOfRange;
      Ok (high * UINT32_BASE + fst p, snd p))); [apply readUint32_extends|]. intros high.
    apply (extends_bind readUint32 (fun low b => _ ← throwIf (2097151 <? high) OutOfRange; Ok (high * UINT32_BASE + low, b)));
      [apply readUint32_extends|]. intros low. apply extends_guard, extends_ret. }
  destruct (info =? 31); apply extends_throw.
Qed.

Lemma readLength_extends info limit err : extends (readLength info limit err).
Proof.
  apply extends_guard. intros b v r x ([n r1] & H1 & H2)%bind_Ok. rewrite (Ok_pass _ _ _ (readArgument_extends _ _ _ _ x H1)).
  apply bind_Ok in H2 as ([] & Hl%throwIf_Ok & [= <- <-]). cbn [fst] in *. by rewrite Hl.
Qed.

Lemma readSimple_extends info : extends (readSimple info).
Proof.
  unfold readSimple. repeat (match goal with |- context [if ?c then _ else _] => destruct c end; try apply extends_ret; try apply extends_throw).
  all: apply (extends_bind (readBytes 8) (fun v b => let n := bits_float (be_value v) in
      _ ← throwIf (negb (isFinite n)) NotFiniteNumber; _ ← throwIf (isInteger n && negb (isSafeInteger n)) UnsafeInteger;
      Ok (CNum n, b))); [apply readBytes_extends|]; intros v; cbv zeta; do 2 apply extends_guard; apply extends_ret.
Qed.

Lemma readItems_extends read count : extends read -> extends (readItems read count).
Proof.
  intros Hr. induction count as [|count IH]; cbn [readItems]; [apply extends_ret|].
  apply (extends_bind read (fun v b => q ← readItems read count b; Ok (v :: fst q, snd q))); [done|]. intros v.
  apply (extends_bind (readItems read count) (fun l b => Ok (v :: l, b))); [done|]. intros l. apply extends_ret.
Qed.

Lemma readEntries_extends read count o : extends read -> extends (readEntries read count o).
Proof.
  intros Hr. revert o. induction count as [|count IH]; intros o; cbn [readEntries]; [apply extends_ret|].
  apply (extends_bind read (fun k b => match k with
    | CText key => _ ← throwIf (o_has key o) DuplicateKey; q ← read b; readEntries read count (o_set key (fst q) o) (snd q)
    | _ => Throw KeyNotString end)); [done|]. intros k. destruct k as [| | | |key| | |]; try apply extends_throw.
  apply extends_guard. apply (extends_bind read (fun v b => readEntries read count (o_set key v o) b)); [done|]. intros v. apply IH.
Qed.

Lemma readItem_extends levels : extends (readItem options levels).
Proof.
  induction levels as [|levels IH]; [apply extends_throw|]. intros b v r x H.
  revert b v r x H. change (extends (readItem options (S levels))).
  apply (extends_bind readByte (fun first b =>
      let majorType := Z.shiftr first 5 in
      let info := Z.land first 31 in
      if majorType =? 0 then p ← readArgument info b; Ok (CNum (of_Z (fst p)), snd p)
      else if majorType =? 1 then
        p ← readArgument info b; let v := -1 - fst p in _ ← throwIf (negb (safe v)) OutOfRange; Ok (CNum (of_Z v), snd p)
      else if majorType =? 2 then
        p ← readLength info (maxByteLength options) BytesLimit b; q ← readBytes (fst p) (snd p); Ok (CBytes (fst q), snd q)
      else if majorType =? 3 then
        p ← readLength info (maxByteLength options) TextLimit b; q ← readBytes (fst p) (snd p);
        s ← textDecode (fst q); Ok (CText s, snd q)
      else if majorType =? 4 then
        p ← readLength info (maxContainerLength options) ArrayLimit b;
        q ← readItems (readItem options levels) (Z.to_nat (fst p)) (snd p); Ok (CArr (fst q), snd q)
      else if majorType =? 5 then
        p ← readLength info (maxContainerLength options) MapLimit b;
        q ← readEntries (readItem options levels) (Z.to_nat (fst p)) [] (snd p); Ok (CObj (fst q), snd q)
      else if majorType =? 6 then Throw TagsUnsupported
      else readSimple info b)); [apply readByte_extends|]. intros first. cbv zeta. set (info := Z.land first 31).
  destruct (_ =? 0).
  { apply (extends_bind (readArgument info) (fun n b => Ok (CNum (of_Z n), b))); [apply readArgument_extends|intros; apply extends_ret]. }
  destruct (_ =? 1).
  { apply (extends_bind (readArgument info) (fun n b => _ ← throwIf (negb (safe (-1 - n))) OutOfRange; Ok (CNum (of_Z (-1 - n)), b)));
      [apply readArgument_extends|intros; apply extends_guard, extends_ret]. }
  destruct (_ =? 2).
  { apply (extends_bind (readLength info _ _) (fun n b => q ← readBytes n b; Ok (CBytes (fst q), snd q))); [apply readLength_extends|].
    intros n. apply (extends_bind (readBytes n) (fun t b => Ok (CBytes t, b))); [apply readBytes_extends|intros; apply extends_ret]. }
  destruct (_ =? 3).
  { apply (extends_bind (readLength info _ _) (fun n b => q ← readBytes n b; s ← textDecode (fst q); Ok (CText s, snd q)));
      [apply readLength_extends|].
    intros n. apply (extends_bind (readBytes n) (fun t b => s ← textDecode t; Ok (CText s, b))); [apply readBytes_extends|].
    intros t. apply extends_pure. }
  destruct (_ =? 4).
  { apply (extends_bind (readLength info _ _) (fun n b => q ← readItems (readItem options levels) (Z.to_nat n) b; Ok (CArr (fst q), snd q)));
      [apply readLength_extends|]. intros n.
    apply (extends_bind (readItems _ _) (fun l b => Ok (CArr l, b))); [by apply readItems_extends|intros; apply extends_ret]. }
  destruct (_ =? 5).
  { apply (extends_bind (readLength info _ _) (fun n b => q ← readEntries (readItem options levels) (Z.to_nat n) [] b; Ok (CObj (fst q), snd q)));
      [apply readLength_extends|]. intros n.
    apply (extends_bind (readEntries _ _ _) (fun o b => Ok (CObj o, b))); [by apply readEntries_extends|intros; apply extends_ret]. }
  destruct (_ =? 6); [apply extends_throw|apply readSimple_extends].
Qed.
End Extension.

(** ** Properties *)

Lemma resolve_bounds options r :
  resolveOptions options = Ok r ->
  0 <= maxByteLength r <= MAX_UINT32 /\ 0 <= maxContainerLength r <= MAX_UINT32 /\ 0 <= maxDepth r.
Proof.
  assert (forall v m z, resolveLimit v m = Ok z -> 0 <= z <= m) as Hl.
  { unfold resolveLimit. intros v m z ([] & H%throwIf_Ok & [= <-])%bind_Ok. bool_hyps. lia. }
  unfold resolveOptions. intros (b & Hb%Hl & H)%bind_Ok. apply bind_Ok in H as (c & Hc%Hl & H).
  apply bind_Ok in H as (d & Hd%Hl & [= <-]). cbn. lia.
Qed.

Lemma encoded_reads v options r b :
  resolveOptions options = Ok r -> encodeValue r v 0 [] = Ok b -> wf_cvalue v ->
  reads_as r (Z.to_nat (maxDepth r + 1)) b (clean v) /\ lenZ b <= maxByteLength r.
Proof.
  intros Hr H Hw. destruct (resolve_bounds _ _ Hr) as (H1 & H2 & H3).
  destruct (encode_reads r (conj H1 H2) v 0 [] b Hw ltac:(lia) H) as (e & -> & He).
  split; [|by eapply encode_length]. unfold levels_at in He. by rewrite Z.sub_0_r in He.
Qed.

(** What is encoded is within the byte limit and decodes to the value. *)
Lemma encoded_decodes v options r b :
  resolveOptions options = Ok r -> encodeValue r v 0 [] = Ok b -> wf_cvalue v ->
  lenZ b <= maxByteLength r /\ decodeCbor b options = Ok (clean v).
Proof.
  intros Hr H Hw. destruct (encoded_reads v options r b Hr H Hw) as [He Hl]. split; [done|].
  unfold decodeCbor, decode. rewrite (Ok_pass _ _ _ Hr), throwIf_pass by (by apply Z.ltb_ge).
  specialize (He []). rewrite app_nil_r in He. rewrite (Ok_pass _ _ _ He). cbn [fst snd]. by rewrite throwIf_pass.
Qed.

(** Round trip: what [encodeCbor] writes is within the byte limit, and under the
    same options [decodeCbor] reads it back as the value it was given, with the
    undefined entries of its objects left out. *)
Theorem cbor_round_trip v options b :
  wf_cvalue v -> encodeCbor v options = Ok b -> decodeCbor b options = Ok (clean v).
Proof. unfold encodeCbor. intros Hw (r & Hr & H)%bind_Ok. by eapply encoded_decodes. Qed.

(** Whatever [decodeCbor] accepts, [encodeCbor] can write again under the same
    options, in no more bytes, and the shorter form decodes to the same value: the
    encoder's output is the shortest of the encodings the decoder accepts. *)
Theorem cbor_reencodes b options v :
  are_bytes b -> decodeCbor b options = Ok v ->
  exists b', encodeCbor v options = Ok b' /\ lenZ b' <= lenZ b /\ decodeCbor b' options = Ok v.
Proof.
  unfold encodeCbor, decodeCbor, decode. intros Hb (r & Hr & H)%bind_Ok. rewrite (Ok_pass _ _ _ Hr).
  apply bind_Ok in H as ([] & Hl%throwIf_Ok%Z.ltb_ge & H). apply bind_Ok in H as ([w rest] & H & Ht).
  apply bind_Ok in Ht as ([] & Hz%throwIf_Ok%negb_false_iff%Nat.eqb_eq & [= <-]). cbn [fst snd] in *.
  destruct rest; [|done]. clear Hz. apply readItem_rewritable in H as (Hw & Hc & _ & x & e & -> & He & Hwr); [|done].
  rewrite app_nil_r in *. destruct (resolve_bounds _ _ Hr) as (_ & _ & H3).
  specialize (Hwr 0 []). unfold levels_at in Hwr. rewrite Z.sub_0_r in Hwr.
  change (lenZ (@nil Z)) with 0 in Hwr. specialize (Hwr eq_refl ltac:(lia) ltac:(lia)). cbn [app] in Hwr.
  exists e. split_and!; [done|done|]. destruct (encoded_reads w options r e Hr Hwr Hw) as [Hread Hle].
  rewrite (Ok_pass _ _ _ Hr), throwIf_pass by (by apply Z.ltb_ge). specialize (Hread []). rewrite app_nil_r in Hread.
  rewrite (Ok_pass _ _ _ Hread). cbn [fst snd]. by rewrite Hc, throwIf_pass.
Qed.

(** The codec is prefix-free: a truncated encoding is rejected, and so is one with
    trailing bytes. *)
Theorem cbor_prefix_free v options b :
  wf_cvalue v -> encodeCbor v options = Ok b ->
  (forall p q, b = p ++ q -> q <> [] -> isOk (decodeCbor p options) = false) /\
  (forall x, x <> [] -> isOk (decodeCbor (b ++ x) options) = false).
Proof.
  unfold encodeCbor, decodeCbor, decode. intros Hw (r & Hr & H)%bind_Ok.
  destruct (encoded_reads v options r b Hr H Hw) as [He _]. split.
  - intros p q -> Hq. rewrite (Ok_pass _ _ _ Hr). destruct (throwIf _ _); [|done]. cbn [mbind result_bind].
    destruct (readItem r _ p) as [[w rest]|e] eqn:Ep; [|done]. cbn [fst snd].
    destruct rest as [|c rest]; [|done]. exfalso. apply (readItem_extends r _ _ _ _ q) in Ep.
    specialize (He []). rewrite app_nil_r in He. rewrite He in Ep. injection Ep as _ Ep. by apply Hq.
  - intros x Hx. rewrite (Ok_pass _ _ _ Hr). destruct (throwIf _ _); [|done]. cbn [mbind result_bind].
    rewrite He. cbn [fst snd]. by destruct x.
Qed.

(** ** Concrete values *)

Definition default_options : CborOptions :=
  {| co_maxByteLength := None; co_maxContainerLength := None; co_maxDepth := None |}.

Definition example_value : cvalue :=
  CObj [("price"%string, CNum 0x1.8p-1%float); ("tags"%string, CArr [CText "a"; CNull; CBool true]);
        ("note"%string, CUndefined); ("qty"%string, CNum (of_Z (-3)))].

Lemma example_value_wf : wf_cvalue example_value.
Proof. split; [apply o_sortedb_ok; vm_compute; reflexivity|]. cbn. tauto. Qed.

Lemma cbor_round_trip_witness :
  exists b, encodeCbor example_value default_options = Ok b /\
    decodeCbor b default_options = Ok (clean example_value).
Proof.
  eexists. split; [vm_compute; reflexivity|].
  apply cbor_round_trip; [exact example_value_wf|vm_compute; reflexivity].
Defined.

(** A number written in three bytes is written again in one. *)
Lemma cbor_reencodes_witness :
  exists b', encodeCbor (CNum (of_Z 5)) default_options = Ok b' /\ lenZ b' <= 3 /\
    decodeCbor b' default_options = Ok (CNum (of_Z 5)).
Proof.
  apply (cbor_reencodes [25; 0; 5] default_options (CNum (of_Z 5))); vm_compute; reflexivity.
Defined.

Lemma cbor_prefix_free_witness :
  exists b, encodeCbor (CText "hi") default_options = Ok (b ++ [105]) /\
    isOk (decodeCbor b default_options) = false.
Proof.
  exists [98; 104]. split; [vm_compute; reflexivity|].
  apply (proj1 (cbor_prefix_free (CText "hi") default_options ([98; 104] ++ [105]) I ltac:(vm_compute; reflexivity))
    [98; 104] [105]); [reflexivity|discriminate].
Defined.
