(* ===== verification/Framing.v ===== *)
(** * Framing (packages/protocol/src/framing.ts)

    Length-prefixed frames and their incremental decoder, with its block-wise
    payload buffers; the decoder is proved to implement a specification that
    does not mention chunks. *)

From Stdlib Require Import ZArith Lia Bool Ascii Floats.
From stdpp Require Import base strings option list.
From S2P Require Import Prelude JsNumber JsObject JsValue JsFloat Cbor.

Local Open Scope Z_scope.

Definition FRAME_HEADER_LENGTH : Z := 4.
Definition PAYLOAD_BLOCK_SIZE : Z := 64 * 1024.
Definition DEFAULT_MAX_FRAME_LENGTH : number := 16777216%float.

Inductive FrameError := BadLimit | PayloadTooLong | NoHeader | LengthExceeds | NotOneFrame | HasEnded | HasFailed | TruncatedFrame.

(** [options?.maxFrameLength ?? DEFAULT], validated. *)
Definition resolveMaxFrameLength (maxFrameLength : option number) : result FrameError Z :=
  let v := default DEFAULT_MAX_FRAME_LENGTH maxFrameLength in
  _ ← throwIf (negb (isSafeInteger v) || (trunc v <? 0) || (MAX_UINT32 <? trunc v)) BadLimit;
  Ok (trunc v).

(** The four bytes of a length. *)
Definition header_bytes (n : Z) : bytes := [byte_at n 24; byte_at n 16; byte_at n 8; byte_at n 0].

Definition encodeFrame (payload : bytes) : result FrameError bytes :=
  _ ← throwIf (MAX_UINT32 <? lenZ payload) PayloadTooLong;
  Ok (app (header_bytes (lenZ payload)) payload).

Definition assertCompleteFrame (frame : bytes) (maxFrameLength : option number) : result FrameError unit :=
  _ ← throwIf (lenZ frame <? FRAME_HEADER_LENGTH) NoHeader;
  let length := be_value (take 4 frame) in
  maxFrameLength ← resolveMaxFrameLength maxFrameLength;
  _ ← throwIf (maxFrameLength <? length) LengthExceeds;
  throwIf (negb (lenZ frame =? FRAME_HEADER_LENGTH + length)) NotOneFrame.

(** ** The decoder *)

Inductive DecoderState := Open | Ended | Failed.

#[export] Instance DecoderState_eq_dec : EqDecision DecoderState.
Proof. solve_decision. Defined.

(** A block of the payload: its size and the bytes set so far. *)
Record Block := { bk_byteLength : Z; bk_bytes : bytes }.

(** [headerLength] is the length of [fd_header]; [currentPayloadBlock] is the last
    of [payloadBlocks], or [undefined] when there is none, and its length the
    number of its bytes that are set. *)
Record FrameDecoder := {
  fd_header : bytes;
  fd_maxFrameLength : Z;
  fd_payloadBlocks : list Block;
  fd_expectedPayloadLength : option Z;
  fd_payloadLength : Z;
  fd_state : DecoderState
}.

Definition newFrameDecoder (maxFrameLength : option number) : result FrameError FrameDecoder :=
  m ← resolveMaxFrameLength maxFrameLength;
  Ok {| fd_header := []; fd_maxFrameLength := m; fd_payloadBlocks := [];
        fd_expectedPayloadLength := None; fd_payloadLength := 0; fd_state := Open |}.

Definition with_header (h : bytes) (d : FrameDecoder) : FrameDecoder :=
  {| fd_header := h; fd_maxFrameLength := fd_maxFrameLength d; fd_payloadBlocks := fd_payloadBlocks d;
     fd_expectedPayloadLength := fd_expectedPayloadLength d; fd_payloadLength := fd_payloadLength d;
     fd_state := fd_state d |}.

Definition with_payload (blocks : list Block) (expected : option Z) (n : Z) (d : FrameDecoder) : FrameDecoder :=
  {| fd_header := fd_header d; fd_maxFrameLength := fd_maxFrameLength d; fd_payloadBlocks := blocks;
     fd_expectedPayloadLength := expected; fd_payloadLength := n; fd_state := fd_state d |}.

Definition with_state (s : DecoderState) (d : FrameDecoder) : FrameDecoder :=
  {| fd_header := fd_header d; fd_maxFrameLength := fd_maxFrameLength d; fd_payloadBlocks := fd_payloadBlocks d;
     fd_expectedPayloadLength := fd_expectedPayloadLength d; fd_payloadLength := fd_payloadLength d;
     fd_state := s |}.

(** [fail(message)] *)
Definition failed (d : FrameDecoder) : FrameDecoder :=
  with_state Failed (with_payload [] None 0 (with_header [] d)).

(** The block the next bytes go to: the last one, or a new one when it is full. *)
Definition current_block (blocks : list Block) (left : Z) : list Block * Block :=
  match last blocks with
  | Some b =>
      if lenZ (bk_bytes b) =? bk_byteLength b
      then (blocks, {| bk_byteLength := Z.min PAYLOAD_BLOCK_SIZE left; bk_bytes := [] |})
      else (removelast blocks, b)
  | None => ([], {| bk_byteLength := Z.min PAYLOAD_BLOCK_SIZE left; bk_bytes := [] |})
  end.

(** The inner loop: bytes of the chunk are set into blocks until the payload is
    complete or the chunk is used up; every round takes at least one byte. *)
Fixpoint fill (rounds : nat) (expected : Z) (blocks : list Block) (payloadLength : Z) (chunk : bytes) :
    list Block * Z * bytes :=
  match rounds with
  | O => (blocks, payloadLength, chunk)
  | S rounds =>
      if negb (Nat.eqb (length chunk) 0) && (payloadLength <? expected) then
        let '(before, block) := current_block blocks (expected - payloadLength) in
        let payloadBytes := Z.min (bk_byteLength block - lenZ (bk_bytes block)) (lenZ chunk) in
        let block := {| bk_byteLength := bk_byteLength block;
                        bk_bytes := app (bk_bytes block) (take (Z.to_nat payloadBytes) chunk) |} in
        fill rounds expected (app before [block]) (payloadLength + payloadBytes)
          (drop (Z.to_nat payloadBytes) chunk)
      else (blocks, payloadLength, chunk)
  end.

(** The frame the blocks make up. *)
Definition assemble (blocks : list Block) : bytes :=
  match blocks with
  | [b] => bk_bytes b
  | _ => concat (map bk_bytes blocks)
  end.

(** The second half of the loop's body: payload bytes, and the frame they complete. *)
Definition push_payload (expected : Z) (d : FrameDecoder) (frames : list bytes) (chunk : bytes) :
    FrameDecoder * list bytes * bytes :=
  let '(blocks, n, chunk) := fill (length chunk) expected (fd_payloadBlocks d) (fd_payloadLength d) chunk in
  if n =? expected
  then (with_payload [] None 0 d, app frames [assemble blocks], chunk)
  else (with_payload blocks (Some expected) n d, frames, chunk).

(** One round of the outer loop on a chunk that is not used up. *)
Definition push_round (d : FrameDecoder) (frames : list bytes) (chunk : bytes) :
    result FrameError (FrameDecoder * list bytes * bytes) :=
  match fd_expectedPayloadLength d with
  | Some expected => Ok (push_payload expected d frames chunk)
  | None =>
      let headerBytes := Z.min (FRAME_HEADER_LENGTH - lenZ (fd_header d)) (lenZ chunk) in
      let header := app (fd_header d) (take (Z.to_nat headerBytes) chunk) in
      let chunk := drop (Z.to_nat headerBytes) chunk in
      if lenZ header <? FRAME_HEADER_LENGTH then Ok (with_header header d, frames, chunk)
      else
        let frameLength := be_value header in
        _ ← throwIf (fd_maxFrameLength d <? frameLength) LengthExceeds;
        let d := with_header [] d in
        if frameLength =? 0 then Ok (d, app frames [[]], chunk)
        else Ok (push_payload frameLength (with_payload [] (Some frameLength) 0 d) frames chunk)
  end.

(** The outer loop; every round takes at least one byte. *)
Fixpoint push_loop (rounds : nat) (d : FrameDecoder) (frames : list bytes) (chunk : bytes) :
    result FrameError (list bytes) * FrameDecoder :=
  match chunk, rounds with
  | [], _ | _, O => (Ok frames, d)
  | _, S rounds =>
      match push_round d frames chunk with
      | Ok (d, frames, chunk) => push_loop rounds d frames chunk
      | Throw e => (Throw e, failed d)
      end
  end.

Definition push (chunk : bytes) : ST FrameDecoder FrameError (list bytes) := fun d =>
  match fd_state d with
  | Ended => (Throw HasEnded, d)
  | Failed => (Throw HasFailed, d)
  | Open => push_loop (length chunk) d [] chunk
  end.

Definition end_ : ST FrameDecoder FrameError unit := fun d =>
  match fd_state d with
  | Ended => (Throw HasEnded, d)
  | Failed => (Throw HasFailed, d)
  | Open =>
      if negb (Nat.eqb (length (fd_header d)) 0)
         || (match fd_expectedPayloadLength d with Some _ => true | None => false end)
      then (Throw TruncatedFrame, failed d)
      else (Ok tt, with_state Ended d)
  end.

(** The chunks of a stream, one after the other, and all their frames. *)
Fixpoint push_all (chunks : list bytes) : ST FrameDecoder FrameError (list bytes) :=
  match chunks with
  | [] => mret []
  | c :: rest => frames ← push c; more ← push_all rest; mret (app frames more)
  end.

(** ** Specification

    [parse m b frames o]: the bytes [b] split into these frames and, with
    [Some r], an incomplete frame [r], or a frame longer than [m] follows. *)

Definition incomplete (m : Z) (b : bytes) : Prop :=
  lenZ b < 4 \/ exists n p, b = header_bytes n ++ p /\ 0 <= n <= m /\ lenZ p < n.

Inductive parse (m : Z) : bytes -> list bytes -> option bytes -> Prop :=
  | parse_stop b : incomplete m b -> parse m b [] (Some b)
  | parse_broken n b : m < n < 2 ^ 32 -> parse m (header_bytes n ++ b) [] None
  | parse_frame p b fs o :
      lenZ p <= m -> parse m b fs o -> parse m (header_bytes (lenZ p) ++ p ++ b) (p :: fs) o.

(** What a decoder has received of the frame it is in. *)
Definition pending (d : FrameDecoder) : bytes :=
  match fd_expectedPayloadLength d with
  | None => fd_header d
  | Some n => header_bytes n ++ concat (map bk_bytes (fd_payloadBlocks d))
  end.

(** Every block but the last is full, and no block is longer than its size. *)
Definition blocks_ok (blocks : list Block) (n : Z) : Prop :=
  Forall (fun b => lenZ (bk_bytes b) <= bk_byteLength b) blocks /\
  lenZ (concat (map bk_bytes blocks)) = n.

Definition decoder_ok (d : FrameDecoder) : Prop :=
  0 <= fd_maxFrameLength d < 2 ^ 32 /\ fd_state d = Open /\ are_bytes (fd_header d) /\
  match fd_expectedPayloadLength d with
  | None => lenZ (fd_header d) < 4
  | Some n =>
      fd_header d = [] /\ fd_payloadLength d < n <= fd_maxFrameLength d /\
      blocks_ok (fd_payloadBlocks d) (fd_payloadLength d) /\
      forall b, last (fd_payloadBlocks d) = Some b -> bk_byteLength b - lenZ (bk_bytes b) <= n - fd_payloadLength d
  end.

(** ** Filling blocks *)

Definition last_fits (blocks : list Block) (left : Z) : Prop :=
  forall b, last blocks = Some b -> bk_byteLength b - lenZ (bk_bytes b) <= left.

Lemma blocks_ok_snoc blocks b n :
  blocks_ok (blocks ++ [b]) n <->
  blocks_ok blocks (n - lenZ (bk_bytes b)) /\ lenZ (bk_bytes b) <= bk_byteLength b.
Proof.
  unfold blocks_ok. rewrite Forall_app, map_app, concat_app, lenZ_app, Forall_singleton.
  cbn [map concat]. rewrite app_nil_r. split; [intros [[? ?] ?]|intros [[? ?] ?]]; split_and!; (done || lia).
Qed.

Lemma removelast_snoc {A} (l : list A) x : last l = Some x -> l = removelast l ++ [x].
Proof.
  induction l as [|a l IH]; [done|]. destruct l as [|b l]; [by intros [= ->]|].
  intros H. change (a :: b :: l = a :: (removelast (b :: l) ++ [x])). f_equal. by apply IH.
Qed.

(** The block chosen has room, no more than the payload still needs. *)
Lemma current_block_spec blocks n left before block :
  current_block blocks left = (before, block) -> blocks_ok blocks n -> last_fits blocks left -> 0 < left ->
  blocks_ok (before ++ [block]) n /\ concat (map bk_bytes (before ++ [block])) = concat (map bk_bytes blocks) /\
  0 < bk_byteLength block - lenZ (bk_bytes block) <= left.
Proof.
  intros H Hok Hfit Hleft.
  assert (forall before', blocks_ok before' n ->
    let new := {| bk_byteLength := Z.min PAYLOAD_BLOCK_SIZE left; bk_bytes := [] |} in
    blocks_ok (before' ++ [new]) n /\ concat (map bk_bytes (before' ++ [new])) = concat (map bk_bytes before') /\
    0 < bk_byteLength new - lenZ (bk_bytes new) <= left) as Hnew.
  { intros before' Hb. cbv zeta. rewrite blocks_ok_snoc, map_app, concat_app. cbn [map concat bk_bytes bk_byteLength].
    rewrite !app_nil_r. change (lenZ (@nil Z)) with 0. unfold PAYLOAD_BLOCK_SIZE. rewrite Z.sub_0_r.
    split_and!; (done || lia). }
  unfold current_block in H. destruct (last blocks) as [b|] eqn:El.
  - destruct (lenZ (bk_bytes b) =? bk_byteLength b) eqn:Ef; injection H as <- <-; [by apply Hnew|].
    specialize (Hfit b El). pose proof (removelast_snoc _ _ El) as Hb. rewrite <- Hb.
    pose proof Hok as Hok'. rewrite Hb in Hok'. apply blocks_ok_snoc in Hok' as [_ Hle].
    apply Z.eqb_neq in Ef. split_and!; (done || lia).
  - apply last_None in El as ->. injection H as <- <-. by apply (Hnew []).
Qed.

Lemma lenZ_take n (l : bytes) : 0 <= n -> lenZ (take (Z.to_nat n) l) = Z.min n (lenZ l).
Proof. intros Hn. unfold lenZ. rewrite length_take. lia. Qed.

Lemma lenZ_drop n (l : bytes) : 0 <= n -> lenZ (drop (Z.to_nat n) l) = Z.max 0 (lenZ l - n).
Proof. intros Hn. unfold lenZ. rewrite length_drop. lia. Qed.

(** The inner loop sets exactly the bytes the payload still needs, as far as the chunk goes. *)
Lemma fill_spec rounds expected blocks n chunk :
  (length chunk <= rounds)%nat -> blocks_ok blocks n -> last_fits blocks (expected - n) -> n <= expected ->
  let k := Z.min (expected - n) (lenZ chunk) in
  exists blocks', fill rounds expected blocks n chunk = (blocks', n + k, drop (Z.to_nat k) chunk) /\
    concat (map bk_bytes blocks') = concat (map bk_bytes blocks) ++ take (Z.to_nat k) chunk /\
    blocks_ok blocks' (n + k) /\ last_fits blocks' (expected - (n + k)).
Proof.
  revert blocks n chunk. induction rounds as [|rounds IH]; intros blocks n chunk Hr Hok Hfit Hn; cbv zeta.
  { destruct chunk; [|cbn in Hr; lia]. change (lenZ (@nil Z)) with 0. rewrite Z.min_r, Z.add_0_r by lia.
    exists blocks. cbn [fill Z.to_nat drop take]. rewrite app_nil_r. done. }
  cbn [fill]. destruct (negb _ && _) eqn:Ec.
  2: { exists blocks. assert (Z.min (expected - n) (lenZ chunk) = 0) as ->.
       { apply andb_false_iff in Ec as [E%negb_false_iff%Nat.eqb_eq|E%Z.ltb_ge]; unfold lenZ; lia. }
       rewrite Z.add_0_r. cbn [Z.to_nat drop take]. rewrite app_nil_r. done. }
  apply andb_true_iff in Ec as [E%negb_true_iff%Nat.eqb_neq Hlt%Z.ltb_lt].
  destruct (current_block blocks (expected - n)) as [before block] eqn:Eb.
  destruct (current_block_spec _ _ _ _ _ Eb Hok Hfit ltac:(lia)) as (Hok1 & Hc1 & Hroom).
  set (j := Z.min (bk_byteLength block - lenZ (bk_bytes block)) (lenZ chunk)).
  assert (1 <= j /\ j <= lenZ chunk /\ j <= expected - n) as (Hj1 & Hj2 & Hj3) by (unfold j, lenZ in *; lia).
  set (block' := {| bk_byteLength := bk_byteLength block; bk_bytes := bk_bytes block ++ take (Z.to_nat j) chunk |}).
  assert (lenZ (bk_bytes block') = lenZ (bk_bytes block) + j) as Hlen
    by (unfold block'; cbn [bk_bytes]; rewrite lenZ_app, lenZ_take; lia).
  destruct (IH (before ++ [block']) (n + j) (drop (Z.to_nat j) chunk)) as (blocks' & Hf & Hc & Hok' & Hfit').
  - rewrite length_drop. unfold lenZ in *. lia.
  - apply blocks_ok_snoc in Hok1 as [Hb Hle]. apply blocks_ok_snoc. rewrite Hlen.
    split; [by replace (n + j - (lenZ (bk_bytes block) + j)) with (n - lenZ (bk_bytes block)) by lia|].
    unfold block', j in *; cbn [bk_byteLength]. lia.
  - intros b Hb. rewrite last_snoc in Hb. injection Hb as <-. rewrite Hlen. unfold block'. cbn [bk_byteLength].
    destruct Hroom. lia.
  - lia.
  - cbv zeta in Hf. set (k' := Z.min (expected - (n + j)) (lenZ (drop (Z.to_nat j) chunk))) in *.
    assert (Z.min (expected - n) (lenZ chunk) = j + k') as -> by (unfold k'; rewrite lenZ_drop; lia).
    assert (0 <= k') by (unfold k', lenZ; lia).
    exists blocks'. rewrite Z.add_assoc. split_and!; [| |done|done].
    + rewrite Hf. f_equal. rewrite drop_drop. f_equal. lia.
    + rewrite Hc, <- Hc1, !map_app, !concat_app. cbn [map concat]. unfold block'. cbn [bk_bytes].
      rewrite !app_nil_r, <- !app_assoc. do 2 f_equal. rewrite Z2Nat.inj_add by lia. apply take_take_drop.
Qed.

(** ** The loop implements the specification *)

Lemma header_value n : 0 <= n < 2 ^ 32 -> be_value (header_bytes n) = n.
Proof. exact (be_uint32 n). Qed.

Lemma byte_div_mod x hi a lo w :
  x = (hi * 256 + a) * w + lo -> 0 <= lo < w -> 0 <= a < 256 -> a = (x / w) mod 256.
Proof.
  intros -> Hlo Ha. rewrite Z.div_add_l, (Z.div_small lo), Z.add_0_r by lia. apply (Z.mod_unique _ _ hi); lia.
Qed.

(** Four bytes are the header of their value. *)
Lemma header_of_bytes h : are_bytes h -> lenZ h = 4 -> h = header_bytes (be_value h) /\ 0 <= be_value h < 2 ^ 32.
Proof.
  intros Hb Hl. destruct h as [|a [|b [|c [|d [|? ?]]]]]; unfold lenZ in Hl; cbn [length] in Hl; try lia.
  unfold are_bytes, is_byte, inRange in Hb. cbn [forallb] in Hb. bool_hyps.
  unfold header_bytes, be_value. cbn [fold_left]. rewrite !byte_at_div by lia.
  change (2 ^ 32) with 4294967296. change (2 ^ 24) with 16777216. change (2 ^ 16) with 65536.
  change (2 ^ 8) with 256. change (2 ^ 0) with 1. rewrite Z.div_1_r.
  split; [|lia]. f_equal; [|f_equal; [|f_equal; [|f_equal]]].
  - apply (byte_div_mod _ 0 a (b * 65536 + c * 256 + d) 16777216); lia.
  - apply (byte_div_mod _ a b (c * 256 + d) 65536); lia.
  - apply (byte_div_mod _ (a * 256 + b) c d 256); lia.
  - apply (Z.mod_unique _ _ ((a * 256 + b) * 256 + c)); lia.
Qed.

Lemma assemble_concat blocks : assemble blocks = concat (map bk_bytes blocks).
Proof. destruct blocks as [|b [|c l]]; [done| |done]. cbn. by rewrite app_nil_r. Qed.

(** Progress of one round: the frames it adds, the decoder it leaves and the bytes
    left describe the same stream. *)
Definition round_ok (d d' : FrameDecoder) (chunk chunk' : bytes) (added : list bytes) : Prop :=
  decoder_ok d' /\ fd_maxFrameLength d' = fd_maxFrameLength d /\ (length chunk' < length chunk)%nat /\
  are_bytes chunk' /\
  forall fs o, parse (fd_maxFrameLength d) (pending d' ++ chunk') fs o ->
    parse (fd_maxFrameLength d) (pending d ++ chunk) (added ++ fs) o.

Lemma are_bytes_take_drop n b : are_bytes b -> are_bytes (take n b) /\ are_bytes (drop n b).
Proof. intros H. apply are_bytes_app. by rewrite take_drop. Qed.
Lemma are_bytes_drop n b : are_bytes b -> are_bytes (drop n b).
Proof. by intros [_ H]%(are_bytes_take_drop n). Qed.
Lemma are_bytes_take n b : are_bytes b -> are_bytes (take n b).
Proof. by intros [H _]%(are_bytes_take_drop n). Qed.

(** The payload half of a round, from a decoder that expects [n] bytes. *)
Lemma push_payload_spec n d frames chunk :
  0 <= fd_maxFrameLength d < 2 ^ 32 -> fd_state d = Open -> fd_header d = [] ->
  fd_payloadLength d < n <= fd_maxFrameLength d ->
  blocks_ok (fd_payloadBlocks d) (fd_payloadLength d) -> last_fits (fd_payloadBlocks d) (n - fd_payloadLength d) ->
  are_bytes chunk ->
  exists d' added k, push_payload n d frames chunk = (d', frames ++ added, drop k chunk) /\
    k = Z.to_nat (Z.min (n - fd_payloadLength d) (lenZ chunk)) /\
    decoder_ok d' /\ fd_maxFrameLength d' = fd_maxFrameLength d /\
    forall fs o, parse (fd_maxFrameLength d) (pending d' ++ drop k chunk) fs o ->
      parse (fd_maxFrameLength d) (header_bytes n ++ concat (map bk_bytes (fd_payloadBlocks d)) ++ chunk) (added ++ fs) o.
Proof.
  intros Hmax Hst Hh Hn Hok Hfit Hb. unfold push_payload.
  destruct (fill_spec (length chunk) n (fd_payloadBlocks d) (fd_payloadLength d) chunk) as (blocks' & Hf & Hc & Hok' & Hfit');
    [lia|done|done|lia|]. rewrite Hf. set (k := Z.min (n - fd_payloadLength d) (lenZ chunk)) in *.
  assert (0 <= fd_payloadLength d) by (destruct Hok as [_ <-]; apply lenZ_nonneg).
  destruct (Z.eqb_spec (fd_payloadLength d + k) n) as [E|E].
  - exists (with_payload [] None 0 d), [concat (map bk_bytes blocks')], (Z.to_nat k).
    rewrite assemble_concat. split_and!; [done|done| |done|].
    + unfold decoder_ok. cbn. rewrite Hh. change (lenZ (@nil Z)) with 0. split_and!; (done || lia).
    + intros fs o Hp. unfold pending in Hp. cbn in Hp. rewrite Hh in Hp. cbn [app] in Hp |- *.
      assert (lenZ (concat (map bk_bytes blocks')) = n) as Hl by (destruct Hok' as [_ ->]; lia).
      apply (parse_frame _ (concat (map bk_bytes blocks'))) in Hp; [|lia]. rewrite Hl, Hc, <- app_assoc in Hp.
      rewrite take_drop in Hp. cbn [app]. rewrite Hc. exact Hp.
  - exists (with_payload blocks' (Some n) (fd_payloadLength d + k) d), [], (Z.to_nat k). rewrite app_nil_r.
    split_and!; [done|done| |done|].
    + unfold decoder_ok. cbn. rewrite Hh. split_and!; try done; lia.
    + intros fs o Hp. unfold pending in Hp. cbn in Hp. rewrite Hc, <- !app_assoc, take_drop in Hp. done.
Qed.

Lemma push_round_spec d frames chunk :
  decoder_ok d -> are_bytes chunk -> chunk <> [] ->
  (exists d' added chunk', push_round d frames chunk = Ok (d', frames ++ added, chunk') /\
     round_ok d d' chunk chunk' added) \/
  (push_round d frames chunk = Throw LengthExceeds /\ parse (fd_maxFrameLength d) (pending d ++ chunk) [] None).
Proof.
  intros (Hmax & Hst & Hhb & Hd) Hb Hne. unfold push_round, round_ok.
  assert (0 < lenZ chunk) as Hlc by (destruct chunk; [done|unfold lenZ; cbn; lia]).
  destruct (fd_expectedPayloadLength d) as [n|] eqn:Ee.
  - destruct Hd as (Hh & Hn & Hok & Hfit). left.
    destruct (push_payload_spec n d frames chunk) as (d' & added & k & -> & -> & Hd' & Hm & Hp); try done.
    exists d', added, (drop (Z.to_nat (Z.min (n - fd_payloadLength d) (lenZ chunk))) chunk). split; [done|].
    split_and!; [done|done| |by apply are_bytes_drop|].
    + rewrite length_drop. unfold lenZ in *. lia.
    + intros fs o H%Hp. unfold pending. rewrite Ee, <- app_assoc. done.
  - cbv zeta. set (k := Z.min (FRAME_HEADER_LENGTH - lenZ (fd_header d)) (lenZ chunk)).
    set (header := fd_header d ++ take (Z.to_nat k) chunk).
    assert (1 <= k) by (unfold k, FRAME_HEADER_LENGTH; lia).
    assert (lenZ header = lenZ (fd_header d) + k) as Hlh
      by (unfold header; rewrite lenZ_app, lenZ_take; unfold k; lia).
    assert (are_bytes header) as Hbh by (apply are_bytes_app; split; [done|by apply are_bytes_take]).
    assert (pending d ++ chunk = header ++ drop (Z.to_nat k) chunk) as Hpend
      by (unfold pending, header; rewrite Ee, <- app_assoc, take_drop; done).
    assert (length (drop (Z.to_nat k) chunk) < length chunk)%nat as Hshort
      by (rewrite length_drop; unfold lenZ in *; lia).
    unfold FRAME_HEADER_LENGTH in *. destruct (Z.ltb_spec (lenZ header) 4) as [H4|H4].
    + left. exists (with_header header d), [], (drop (Z.to_nat k) chunk). rewrite app_nil_r. split; [done|].
      split_and!; [|done|done|by apply are_bytes_drop|].
      * unfold decoder_ok. cbn. rewrite Ee. done.
      * intros fs o Hp. rewrite Hpend. unfold pending in Hp. cbn in Hp. rewrite Ee in Hp. done.
    + destruct (header_of_bytes header Hbh ltac:(unfold k in *; lia)) as [Hh Hrange].
      destruct (Z.ltb_spec (fd_maxFrameLength d) (be_value header)) as [Hlong|Hshortframe].
      { right. split; [done|]. rewrite Hpend, Hh. apply parse_broken. lia. }
      left. cbn [mbind result_bind throwIf]. destruct (Z.eqb_spec (be_value header) 0) as [E0|E0].
      * exists (with_header [] d), [[]], (drop (Z.to_nat k) chunk). split; [done|].
        split_and!; [|done|done|by apply are_bytes_drop|].
        -- unfold decoder_ok. cbn. rewrite Ee. change (lenZ (@nil Z)) with 0. split_and!; (done || lia).
        -- intros fs o Hp. unfold pending in Hp. cbn in Hp. rewrite Ee in Hp. cbn [app] in Hp.
           rewrite Hpend, Hh, E0. apply (parse_frame _ []); [change (lenZ (@nil Z)) with 0; lia|done].
      * destruct (push_payload_spec (be_value header) (with_payload [] (Some (be_value header)) 0 (with_header [] d)) frames
          (drop (Z.to_nat k) chunk)) as (d' & added & j & -> & _ & Hd' & Hm & Hp).
        { done. } { done. } { done. } { cbn. lia. } { split; [constructor|done]. } { by intros b. } { by apply are_bytes_drop. }
        exists d', added, (drop j (drop (Z.to_nat k) chunk)). split; [done|].
        split_and!; [done|done| |by do 2 apply are_bytes_drop|].
        -- rewrite length_drop. lia.
        -- intros fs o H'%Hp. rewrite Hpend, Hh. exact H'.
Qed.

Lemma decoder_pending_incomplete d : decoder_ok d -> incomplete (fd_maxFrameLength d) (pending d).
Proof.
  intros (Hmax & _ & _ & Hd). unfold pending, incomplete. destruct (fd_expectedPayloadLength d) as [n|]; [right|by left].
  destruct Hd as (_ & Hn & [_ Hl] & _). exists n, (concat (map bk_bytes (fd_payloadBlocks d))).
  pose proof (lenZ_nonneg (concat (map bk_bytes (fd_payloadBlocks d)))). split_and!; (done || lia).
Qed.

(** The loop with enough rounds. *)
Lemma push_loop_spec rounds d frames chunk :
  decoder_ok d -> are_bytes chunk -> (length chunk <= rounds)%nat ->
  exists fs o, parse (fd_maxFrameLength d) (pending d ++ chunk) fs o /\
    match o with
    | Some rest => exists d', push_loop rounds d frames chunk = (Ok (frames ++ fs), d') /\ decoder_ok d' /\
        fd_maxFrameLength d' = fd_maxFrameLength d /\ pending d' = rest
    | None => exists d', push_loop rounds d frames chunk = (Throw LengthExceeds, d') /\ fd_state d' = Failed
    end.
Proof.
  revert d frames chunk. induction rounds as [|rounds IH]; intros d frames chunk Hd Hb Hr.
  { destruct chunk; [|cbn in Hr; lia]. exists [], (Some (pending d)). rewrite !app_nil_r.
    split; [by apply parse_stop, decoder_pending_incomplete|]. by exists d. }
  destruct chunk as [|c chunk].
  { exists [], (Some (pending d)). rewrite !app_nil_r.
    split; [by apply parse_stop, decoder_pending_incomplete|]. by exists d. }
  change (push_loop (S rounds) d frames (c :: chunk)) with
    (match push_round d frames (c :: chunk) with
     | Ok (d, frames, chunk) => push_loop rounds d frames chunk
     | Throw e => (Throw e, failed d)
     end).
  destruct (push_round_spec d frames (c :: chunk) Hd Hb ltac:(done)) as
    [(d' & added & chunk' & -> & Hd' & Hm & Hl & Hb' & Hp)|[-> Hp]].
  - destruct (IH d' (frames ++ added) chunk' Hd' Hb' ltac:(cbn in *; lia)) as (fs & o & Hpar & Ho).
    rewrite Hm in Hpar, Ho. exists (added ++ fs), o. split; [by apply Hp|].
    rewrite <- app_assoc in Ho. exact Ho.
  - exists [], None. split; [done|]. by exists (failed d).
Qed.

(** ** Streams *)

Lemma parse_app m b fs r b' fs' o :
  parse m b fs (Some r) -> parse m (r ++ b') fs' o -> parse m (b ++ b') (fs ++ fs') o.
Proof.
  remember (Some r) as o0 eqn:E. intros H. revert E.
  induction H; intros E H'; simplify_eq; [done|]. rewrite <- !app_assoc. cbn [app]. constructor; auto.
Qed.

Lemma parse_broken_app m b fs b' : parse m b fs None -> parse m (b ++ b') fs None.
Proof.
  remember None as o eqn:E. intros H. induction H; simplify_eq; rewrite <- ?app_assoc; constructor; auto.
Qed.

Lemma parse_some_incomplete m b fs r : parse m b fs (Some r) -> incomplete m r.
Proof. remember (Some r) as o eqn:E. intros H. induction H; simplify_eq; auto. Qed.

(** The frames of a stream, however it is cut into chunks. *)
Lemma push_all_spec chunks d :
  decoder_ok d -> Forall are_bytes chunks ->
  exists fs o, parse (fd_maxFrameLength d) (pending d ++ concat chunks) fs o /\
    match o with
    | Some rest => exists d', push_all chunks d = (Ok fs, d') /\ decoder_ok d' /\ pending d' = rest
    | None => exists d', push_all chunks d = (Throw LengthExceeds, d') /\ fd_state d' = Failed
    end.
Proof.
  revert d. induction chunks as [|c chunks IH]; intros d Hd Hb.
  { exists [], (Some (pending d)). cbn [concat]. rewrite app_nil_r.
    split; [by apply parse_stop, decoder_pending_incomplete|]. by exists d. }
  apply Forall_cons in Hb as [Hc Hb].
  destruct (push_loop_spec (length c) d [] c Hd Hc (le_n _)) as (fs & o & Hp & Ho).
  assert (push c d = push_loop (length c) d [] c) as Hpush by (unfold push; by destruct Hd as (_ & -> & _)).
  cbn [concat push_all]. unfold mbind, ST_bind. rewrite Hpush.
  destruct o as [rest|]; destruct Ho as (d' & -> & Hd').
  - destruct Hd' as (Hok & Hm & <-). destruct (IH d' Hok Hb) as (fs' & o & Hp' & Ho). rewrite Hm in Hp'.
    exists (fs ++ fs'), o. rewrite app_assoc. split; [by eapply parse_app|].
    destruct o; destruct Ho as (d'' & -> & H''); by exists d''.
  - exists fs, None. rewrite app_assoc. split; [by apply parse_broken_app|]. by exists d'.
Qed.

Lemma pending_nil d :
  decoder_ok d -> pending d = [] <-> fd_header d = [] /\ fd_expectedPayloadLength d = None.
Proof.
  intros _. unfold pending. destruct (fd_expectedPayloadLength d); cbn; naive_solver.
Qed.

Lemma resolve_range limit m : resolveMaxFrameLength limit = Ok m -> 0 <= m < 2 ^ 32.
Proof.
  unfold resolveMaxFrameLength, MAX_UINT32. change (2 ^ 32) with 4294967296. intros H. inv_ok. bool_hyps. lia.
Qed.

Lemma new_decoder_ok limit d :
  newFrameDecoder limit = Ok d ->
  decoder_ok d /\ pending d = [] /\ resolveMaxFrameLength limit = Ok (fd_maxFrameLength d).
Proof.
  unfold newFrameDecoder. intros H. inv_ok. pose proof (resolve_range _ _ ltac:(eassumption)).
  split; [|done]. unfold decoder_ok. cbn. change (lenZ (@nil Z)) with 0. split_and!; (done || lia).
Qed.

(** The frames of a stream are determined by its bytes. *)
Lemma header_app_inj n n' a b :
  0 <= n < 2 ^ 32 -> 0 <= n' < 2 ^ 32 -> header_bytes n ++ a = header_bytes n' ++ b -> n = n' /\ a = b.
Proof.
  intros Hn Hn' H. apply app_inj_1 in H as [Hh ->]; [|done].
  split; [|done]. by rewrite <- (header_value n), <- (header_value n'), Hh.
Qed.

Lemma incomplete_no_frame m b n p :
  0 <= m < 2 ^ 32 -> incomplete m b -> b = header_bytes n ++ p -> 0 <= n < 2 ^ 32 -> n <= m /\ lenZ p < n.
Proof.
  intros Hm [Hs|(n' & p' & -> & Hn' & Hl)] H Hn.
  - subst b. rewrite lenZ_app in Hs. change (lenZ (header_bytes n)) with 4 in Hs. pose proof (lenZ_nonneg p). lia.
  - apply header_app_inj in H as [<- <-]; lia.
Qed.

Lemma parse_cases m b fs o :
  parse m b fs o ->
  (fs = [] /\ o = Some b /\ incomplete m b) \/
  (exists n r, b = header_bytes n ++ r /\ m < n < 2 ^ 32 /\ fs = [] /\ o = None) \/
  (exists p r fs', b = header_bytes (lenZ p) ++ p ++ r /\ lenZ p <= m /\ fs = p :: fs' /\ parse m r fs' o).
Proof. destruct 1; [left|right; left|right; right]; eauto 10. Qed.

Lemma parse_det m b fs o fs' o' :
  0 <= m < 2 ^ 32 -> parse m b fs o -> parse m b fs' o' -> fs = fs' /\ o = o'.
Proof.
  intros Hm H. revert fs' o'. pose proof (@lenZ_nonneg Z) as Hpos.
  assert (forall p r, lenZ (p ++ r) < lenZ p -> False) as Hlt
    by (intros p r Hl; rewrite lenZ_app in Hl; specialize (Hpos r); lia).
  induction H as [b Hi|n b Hn|p b fs o Hp H IH];
    intros fs' o' [(-> & -> & Hi')|[(n' & r & E & Hn' & -> & ->)|(p' & r & fs1 & E & Hp' & -> & H1)]]%parse_cases;
    try done.
  - destruct (incomplete_no_frame _ _ _ _ Hm Hi E); lia.
  - pose proof (Hpos p'). destruct (incomplete_no_frame _ _ _ _ Hm Hi E) as [_ []%Hlt]. lia.
  - destruct (incomplete_no_frame _ _ _ _ Hm Hi' eq_refl); lia.
  - pose proof (Hpos p'). apply header_app_inj in E as [E _]; lia.
  - pose proof (Hpos p). destruct (incomplete_no_frame _ _ _ _ Hm Hi' eq_refl) as [_ []%Hlt]. lia.
  - pose proof (Hpos p). apply header_app_inj in E as [E _]; lia.
  - pose proof (Hpos p). pose proof (Hpos p'). apply header_app_inj in E as [E1 E2]; [|lia..].
    apply app_inj_1 in E2 as [-> ->]; [|unfold lenZ in E1; lia]. by destruct (IH _ _ H1) as [-> ->].
Qed.

Lemma encodeFrame_Ok p f : encodeFrame p = Ok f <-> lenZ p <= MAX_UINT32 /\ f = header_bytes (lenZ p) ++ p.
Proof.
  unfold encodeFrame, throwIf. destruct (Z.ltb_spec MAX_UINT32 (lenZ p)); cbn [mbind result_bind].
  - split; [done|lia].
  - split; [intros [= <-]; split; [lia|done]|by intros [_ ->]].
Qed.

(** The stream of some payloads is parsed back into them. *)
Lemma parse_payloads m payloads frames :
  0 <= m < 2 ^ 32 -> Forall2 (fun p f => encodeFrame p = Ok f) payloads frames ->
  Forall (fun p => lenZ p <= m) payloads -> parse m (concat frames) payloads (Some []).
Proof.
  intros Hm H. induction H as [|p f ps fs Hf H IH]; intros Hl.
  - apply parse_stop. left. change (lenZ (@nil Z)) with 0. lia.
  - apply Forall_cons in Hl as [Hp Hl]. apply encodeFrame_Ok in Hf as [_ ->]. cbn [concat].
    rewrite <- (app_assoc (header_bytes (lenZ p))). constructor; auto.
Qed.

(** Frames cut into chunks anywhere come out as they were, and the stream ends cleanly. *)
Lemma stream_of_frames limit d payloads frames chunks :
  newFrameDecoder limit = Ok d -> Forall are_bytes chunks ->
  Forall2 (fun p f => encodeFrame p = Ok f) payloads frames ->
  Forall (fun p => lenZ p <= fd_maxFrameLength d) payloads ->
  concat chunks = concat frames ->
  exists d', push_all chunks d = (Ok payloads, d') /\ fst (end_ d') = Ok tt.
Proof.
  intros (Hd & Hp & Hlim)%new_decoder_ok Hb Hf Hl Hcut.
  pose proof (resolve_range _ _ Hlim) as Hm.
  destruct (push_all_spec chunks d Hd Hb) as (fs & o & Hpar & Ho). rewrite Hp, Hcut in Hpar.
  destruct (parse_det _ _ _ _ _ _ Hm (parse_payloads _ _ _ Hm Hf Hl) Hpar) as [<- <-].
  destruct Ho as (d' & Hall & Hok & Hrest). exists d'. split; [done|].
  apply pending_nil in Hrest as [Hh He]; [|done]. unfold end_. destruct Hok as (_ & -> & _). by rewrite Hh, He.
Qed.

(** ** Properties *)

(** C35: the decoder implements the framing specification: however a stream of
    bytes is cut into chunks, the frames the pushes return are the ones its
    concatenation splits into, [end] succeeds exactly when nothing is left over,
    and a header above the limit fails the decoder for good. *)
Theorem decoder_implements_framing limit d chunks :
  newFrameDecoder limit = Ok d -> Forall are_bytes chunks ->
  exists fs o, parse (fd_maxFrameLength d) (concat chunks) fs o /\
    (forall fs' o', parse (fd_maxFrameLength d) (concat chunks) fs' o' -> fs' = fs /\ o' = o) /\
    match o with
    | Some rest => exists d', push_all chunks d = (Ok fs, d') /\
        fst (end_ d') = (match rest with [] => Ok tt | _ => Throw TruncatedFrame end)
    | None => exists d', push_all chunks d = (Throw LengthExceeds, d') /\
        (forall c, push c d' = (Throw HasFailed, d')) /\ end_ d' = (Throw HasFailed, d')
    end.
Proof.
  intros (Hd & Hp & Hlim)%new_decoder_ok Hb. destruct (push_all_spec chunks d Hd Hb) as (fs & o & Hpar & Ho).
  rewrite Hp in Hpar. exists fs, o. split; [done|].
  split; [by intros fs' o' H'; apply (parse_det _ _ _ _ _ _ (resolve_range _ _ Hlim) H')|].
  destruct o as [rest|]; destruct Ho as (d' & Hall & Hd'); exists d'; split; try done.
  - destruct Hd' as [Hok <-]. unfold end_. destruct Hok as (_ & -> & _). unfold pending.
    by destruct (fd_expectedPayloadLength d'), (fd_header d').
  - unfold push, end_. by rewrite Hd'.
Qed.

(** A complete frame is accepted exactly when it is the frame of one payload
    within the limit. *)
Theorem complete_frames limit m frame :
  resolveMaxFrameLength limit = Ok m -> are_bytes frame ->
  (assertCompleteFrame frame limit = Ok tt <-> exists payload, lenZ payload <= m /\ encodeFrame payload = Ok frame).
Proof.
  intros Hlim Hb. pose proof (resolve_range _ _ Hlim) as Hm. unfold assertCompleteFrame. rewrite Hlim.
  change (2 ^ 32) with 4294967296 in Hm. unfold FRAME_HEADER_LENGTH. split.
  - intros H. inv_ok. bool_hyps.
    assert (lenZ (take 4 frame) = 4) as H4 by (unfold lenZ in *; rewrite length_take; lia).
    destruct (header_of_bytes (take 4 frame) (are_bytes_take _ _ Hb) H4) as [Hh Hr].
    exists (drop 4 frame). assert (lenZ (drop 4 frame) = be_value (take 4 frame)) as Hlen
      by (unfold lenZ in *; rewrite length_drop; lia).
    split; [lia|]. apply encodeFrame_Ok. rewrite Hlen, <- Hh, take_drop. split; [unfold MAX_UINT32; lia|done].
  - intros (p & Hp & Hf). apply encodeFrame_Ok in Hf as [_ ->]. pose proof (lenZ_nonneg p).
    rewrite lenZ_app. change (lenZ (header_bytes (lenZ p))) with 4.
    rewrite throwIf_pass by lia. change (take 4 (header_bytes (lenZ p) ++ p)) with (header_bytes (lenZ p)).
    rewrite header_value by (change (2 ^ 32) with 4294967296; lia). cbn [mbind result_bind].
    rewrite throwIf_pass by lia. by rewrite Z.eqb_refl.
Qed.

(** ** Witnesses *)

Definition sample_decoder : FrameDecoder :=
  {| fd_header := []; fd_maxFrameLength := 4; fd_payloadBlocks := []; fd_expectedPayloadLength := None;
     fd_payloadLength := 0; fd_state := Open |}.

Lemma decoder_implements_framing_witness :
  newFrameDecoder (Some 4%float) = Ok sample_decoder /\
  fst (push_all [[0; 0]; [0; 2; 7]; [8; 0]] sample_decoder) = Ok [[7; 8]] /\
  exists fs o, parse 4 [0; 0; 0; 2; 7; 8; 0] fs o.
Proof.
  split; [vm_compute; reflexivity|]. split; [vm_compute; reflexivity|].
  destruct (decoder_implements_framing (Some 4%float) sample_decoder [[0; 0]; [0; 2; 7]; [8; 0]]) as (fs & o & H & _).
  - vm_compute. reflexivity.
  - repeat constructor.
  - exists fs, o. exact H.
Defined.

Lemma complete_frames_witness :
  assertCompleteFrame [0; 0; 0; 2; 7; 8] (Some 4%float) = Ok tt /\
  assertCompleteFrame [0; 0; 0; 2; 7] (Some 4%float) = Throw NotOneFrame /\
  exists payload, lenZ payload <= 4 /\ encodeFrame payload = Ok [0; 0; 0; 2; 7; 8].
Proof.
  split; [vm_compute; reflexivity|]. split; [vm_compute; reflexivity|].
  apply (complete_frames (Some 4%float) 4 [0; 0; 0; 2; 7; 8]); vm_compute; reflexivity.
Defined.
