(* ===== verification/Codec.v ===== *)
(** * Messages (packages/protocol/src/codec.ts)

    Messages are values checked against a schema, encoded as CBOR and framed; the
    incremental decoder splits a stream into frames, decodes and checks them. The
    schema check of the [typebox] package is a parameter. *)

From Stdlib Require Import ZArith Lia Bool Ascii Floats.
From stdpp Require Import base strings option list.
From S2P Require Import Prelude JsNumber JsObject JsValue JsFloat Cbor Framing.

Local Open Scope Z_scope.

Inductive CodecError := InvalidMessage | UnableToEncode | InvalidFrame | InvalidFraming | DecoderHasFailed.

(** Values are trees: no value is its own ancestor. The prototype of a byte array is
    not [Object.prototype]. *)
Fixpoint isProtocolValue (value : cvalue) (optionalProperty : bool) : bool :=
  match value with
  | CUndefined => optionalProperty
  | CNull | CBool _ | CNum _ | CText _ => true
  | CArr l => forallb (fun item => isProtocolValue item false) l
  | CObj o => forallb (fun p => isProtocolValue (snd p) true) o
  | CBytes _ => false
  end.

Section Codec.
(** [Check(schema, value)] for the message schema of this direction. *)
Variable Check : cvalue -> bool.

(** [parseClientMessage] and [parseServerMessage] *)
Definition parseMessage (value : cvalue) : result CodecError cvalue :=
  _ ← throwIf (negb (isProtocolValue value false) || negb (Check value)) InvalidMessage;
  Ok value.

Definition cbor_options (maxFrameLength : number) : CborOptions :=
  {| co_maxByteLength := Some maxFrameLength; co_maxContainerLength := None; co_maxDepth := None |}.

Definition encodeProtocolMessage (value : cvalue) (maxFrameLength : option number) : result CodecError bytes :=
  validated ← parseMessage value;
  let maxFrameLength := default DEFAULT_MAX_FRAME_LENGTH maxFrameLength in
  payload ← mapError (fun _ => UnableToEncode) (encodeCbor validated (cbor_options maxFrameLength));
  mapError (fun _ => UnableToEncode)
    (frame ← encodeFrame payload;
     _ ← assertCompleteFrame frame (Some maxFrameLength);
     Ok frame).

Record MessageDecoder := { md_failed : bool; md_frames : FrameDecoder; md_maxFrameLength : number }.

Definition newMessageDecoder (maxFrameLength : option number) : result FrameError MessageDecoder :=
  frames ← newFrameDecoder maxFrameLength;
  Ok {| md_failed := false; md_frames := frames; md_maxFrameLength := default DEFAULT_MAX_FRAME_LENGTH maxFrameLength |}.

(** The loop over the frames of a chunk. *)
Fixpoint decodeFrames (maxFrameLength : number) (frames : list bytes) : result CodecError (list cvalue) :=
  match frames with
  | [] => Ok []
  | frame :: rest =>
      value ← mapError (fun _ => InvalidFrame) (decodeCbor frame (cbor_options maxFrameLength));
      message ← parseMessage value;
      messages ← decodeFrames maxFrameLength rest;
      Ok (message :: messages)
  end.

Definition after (d : MessageDecoder) (failed : bool) (frames : FrameDecoder) : MessageDecoder :=
  {| md_failed := failed; md_frames := frames; md_maxFrameLength := md_maxFrameLength d |}.

Definition pushMessages (chunk : bytes) : ST MessageDecoder CodecError (list cvalue) := fun d =>
  if md_failed d then (Throw DecoderHasFailed, d)
  else
    match push chunk (md_frames d) with
    | (Throw _, frames) => (Throw InvalidFrame, after d true frames)
    | (Ok fs, frames) =>
        match decodeFrames (md_maxFrameLength d) fs with
        | Ok messages => (Ok messages, after d false frames)
        | Throw e => (Throw e, after d true frames)
        end
    end.

Definition endMessages : ST MessageDecoder CodecError unit := fun d =>
  if md_failed d then (Throw DecoderHasFailed, d)
  else
    match end_ (md_frames d) with
    | (Throw _, frames) => (Throw InvalidFraming, after d true frames)
    | (Ok _, frames) => (Ok tt, after d false frames)
    end.

Fixpoint pushAllMessages (chunks : list bytes) : ST MessageDecoder CodecError (list cvalue) :=
  match chunks with
  | [] => mret []
  | c :: rest => messages ← pushMessages c; more ← pushAllMessages rest; mret (app messages more)
  end.

(** A reader that keeps pushing chunks whatever happens: what each push gave. *)
Fixpoint session (chunks : list bytes) (d : MessageDecoder) : list (result CodecError (list cvalue)) :=
  match chunks with
  | [] => []
  | c :: rest => let (r, d') := pushMessages c d in r :: session rest d'
  end.

(** ** Lemmas *)

Lemma parseMessage_Ok v w : parseMessage v = Ok w <-> w = v /\ isProtocolValue v false = true /\ Check v = true.
Proof.
  unfold parseMessage. destruct (isProtocolValue v false), (Check v); cbn; naive_solver.
Qed.

Lemma isProtocolValue_clean v b : isProtocolValue v b = true -> isProtocolValue (clean v) b = true.
Proof.
  revert b. induction v as [| | | | | |l IH|o IH] using cvalue_induction; intros opt; try done; cbn [clean isProtocolValue];
    rewrite !forallb_forall; rewrite List.Forall_forall in IH; intros H x Hx.
  - apply in_map_iff in Hx as (y & <- & Hy). auto.
  - unfold defined_entries in Hx. apply filter_In in Hx as [(y & <- & Hy)%in_map_iff _]. cbn [snd]. auto.
Qed.

Lemma decodeFrames_app m fs gs ms ns :
  decodeFrames m fs = Ok ms -> decodeFrames m gs = Ok ns -> decodeFrames m (fs ++ gs) = Ok (ms ++ ns).
Proof.
  revert ms. induction fs as [|f fs IH]; intros ms Hf Hg; [by injection Hf as <-|].
  cbn [decodeFrames app] in *. inv_ok.
  match goal with E : mapError _ _ = _ |- _ => rewrite (Ok_pass _ _ _ E) end.
  match goal with E : parseMessage _ = _ |- _ => rewrite (Ok_pass _ _ _ E) end.
  by rewrite (Ok_pass _ _ _ (IH _ ltac:(eassumption) Hg)).
Qed.

Definition encoded (maxFrameLength : option number) (v : cvalue) (frame : bytes) : Prop :=
  encodeProtocolMessage v maxFrameLength = Ok frame.

Lemma limits_agree limit m :
  resolveMaxFrameLength limit = Ok m ->
  exists r, resolveOptions (cbor_options (default DEFAULT_MAX_FRAME_LENGTH limit)) = Ok r /\ maxByteLength r = m.
Proof.
  unfold resolveMaxFrameLength, resolveOptions, resolveLimit. cbv zeta. cbn [cbor_options co_maxByteLength default id].
  intros ([] & H%throwIf_Ok & [= <-])%bind_Ok. eexists. unfold throwIf. rewrite H. split; [reflexivity|done].
Qed.

(** An encoded message is one frame whose payload is within the limit and decodes to it. *)
Lemma encoded_frame (Hclean : forall v, Check v = true -> Check (clean v) = true) limit m v frame :
  resolveMaxFrameLength limit = Ok m -> wf_cvalue v -> encoded limit v frame ->
  exists payload, encodeFrame payload = Ok frame /\ lenZ payload <= m /\
    decodeFrames (default DEFAULT_MAX_FRAME_LENGTH limit) [payload] = Ok [clean v].
Proof.
  intros (r & Hr & <-)%limits_agree Hw (v' & (-> & Hpv & Hcheck)%parseMessage_Ok & H)%bind_Ok.
  apply bind_Ok in H as (payload & Hp & H). unfold mapError in Hp. case_in Hp; [|done]. injection Hp as ->.
  match goal with E : encodeCbor _ _ = _ |- _ => rename E into Henc end.
  unfold encodeCbor in Henc. rewrite (Ok_pass _ _ _ Hr) in Henc.
  destruct (encoded_decodes v _ r payload Hr Henc Hw) as [Hl Hd]. unfold mapError in H. case_in H; [|done].
  injection H as ->. inv_ok. exists payload. split_and!; [done|done|]. cbn [decodeFrames]. unfold mapError. rewrite Hd.
  cbn [mbind result_bind]. rewrite (Ok_pass (parseMessage (clean v)) (clean v)); [done|]. apply parseMessage_Ok.
  auto using isProtocolValue_clean.
Qed.

Lemma encoded_frames (Hclean : forall v, Check v = true -> Check (clean v) = true) limit m vs frames :
  resolveMaxFrameLength limit = Ok m -> Forall wf_cvalue vs -> Forall2 (encoded limit) vs frames ->
  exists payloads, Forall2 (fun p f => encodeFrame p = Ok f) payloads frames /\
    Forall (fun p => lenZ p <= m) payloads /\
    decodeFrames (default DEFAULT_MAX_FRAME_LENGTH limit) payloads = Ok (map clean vs).
Proof.
  intros Hm Hw H. induction H as [|v f vs fs Hv H IH]; [by exists []|]. apply Forall_cons in Hw as [Hv' Hw].
  destruct (IH Hw) as (ps & Hps & Hl & Hd). destruct (encoded_frame Hclean _ _ _ _ Hm Hv' Hv) as (p & Hp & Hpl & Hpd).
  exists (p :: ps). split_and!; [by constructor|by constructor|]. by apply (decodeFrames_app _ [p] ps [clean v]).
Qed.

(** Pushing frames that all decode. *)
Lemma push_all_messages chunks d fs frames ms :
  md_failed d = false -> push_all chunks (md_frames d) = (Ok fs, frames) ->
  decodeFrames (md_maxFrameLength d) fs = Ok ms -> pushAllMessages chunks d = (Ok ms, after d false frames).
Proof.
  revert d fs ms. induction chunks as [|c chunks IH]; intros d fs ms Hd Hp Hm.
  { injection Hp as <- <-. injection Hm as <-. destruct d; cbn in *. by subst. }
  cbn [push_all] in Hp. apply st_bind_Ok in Hp as (fs1 & d1 & Hp1 & Hp).
  apply st_bind_Ok in Hp as (fs2 & d2 & Hp2 & [= <- <-]).
  assert (exists ms1 ms2, decodeFrames (md_maxFrameLength d) fs1 = Ok ms1 /\
    decodeFrames (md_maxFrameLength d) fs2 = Ok ms2 /\ ms = ms1 ++ ms2) as (ms1 & ms2 & E1 & E2 & ->).
  { clear -Hm. revert ms Hm. induction fs1 as [|f fs1 IH]; intros ms Hm; [by exists [], ms|].
    cbn [decodeFrames app] in Hm. inv_ok. destruct (IH _ ltac:(eassumption)) as (a & b & Ha & Hb & ->).
    do 2 eexists. cbn [decodeFrames]. split_and!; [|exact Hb|].
    - match goal with E : mapError _ _ = _ |- _ => rewrite (Ok_pass _ _ _ E) end.
      match goal with E : parseMessage _ = _ |- _ => rewrite (Ok_pass _ _ _ E) end.
      by rewrite (Ok_pass _ _ _ Ha).
    - done. }
  cbn [pushAllMessages]. unfold pushMessages, mbind, ST_bind. rewrite Hd, Hp1, E1.
  rewrite (IH (after d false d1) fs2 ms2); done.
Qed.

(** Delivered messages are checked ones. *)
Lemma decodeFrames_valid m fs ms :
  decodeFrames m fs = Ok ms -> Forall (fun v => isProtocolValue v false = true /\ Check v = true) ms.
Proof.
  revert ms. induction fs as [|f fs IH]; intros ms H; [by injection H as <-|].
  cbn [decodeFrames] in H. inv_ok. constructor; [|by apply IH].
  match goal with E : parseMessage _ = _ |- _ => apply parseMessage_Ok in E as (-> & ? & ?) end. done.
Qed.

Lemma session_failed chunks d :
  md_failed d = true -> Forall (fun r => r = Throw DecoderHasFailed) (session chunks d).
Proof.
  intros Hd. induction chunks as [|c chunks IH]; [done|]. cbn [session]. unfold pushMessages. rewrite Hd.
  by constructor.
Qed.

(** ** Properties *)

(** C36: end to end: messages that were encoded, sent one after the other over a
    connection that may cut the bytes anywhere, are delivered in order, each as it
    was given but for the undefined entries of its objects, and the connection ends
    cleanly. The schema check must not tell an undefined entry from a missing one. *)
Theorem messages_round_trip (Hclean : forall v, Check v = true -> Check (clean v) = true) limit d vs frames chunks :
  newMessageDecoder limit = Ok d -> Forall wf_cvalue vs -> Forall2 (encoded limit) vs frames ->
  Forall are_bytes chunks -> concat chunks = concat frames ->
  exists d', pushAllMessages chunks d = (Ok (map clean vs), d') /\ fst (endMessages d') = Ok tt.
Proof.
  intros (fd & Hfd & [= <-])%bind_Ok Hw Henc Hb Hcut. pose proof (new_decoder_ok _ _ Hfd) as (Hok & Hpend & Hlim).
  destruct (encoded_frames Hclean _ _ _ _ Hlim Hw Henc) as (ps & Hps & Hl & Hd).
  destruct (stream_of_frames limit fd ps frames chunks Hfd Hb Hps Hl Hcut) as (fd' & Hall & Hend).
  eexists. split; [by eapply push_all_messages|]. unfold endMessages. cbn.
  destruct (end_ fd') as [r fd'']. cbn in Hend. by subst r.
Qed.

(** The decoder fails closed: whatever bytes arrive, every message delivered has
    passed the check, and from the first push that throws on, every push throws
    and none delivers. *)
Theorem decoder_fails_closed chunks d :
  md_failed d = false ->
  exists good bad, session chunks d = map Ok good ++ bad /\
    Forall (Forall (fun v => isProtocolValue v false = true /\ Check v = true)) good /\
    match bad with
    | [] => True
    | first :: rest => isOk first = false /\ Forall (fun r => r = Throw DecoderHasFailed) rest
    end.
Proof.
  revert d. induction chunks as [|c chunks IH]; intros d Hd; [by exists [], []|].
  cbn [session]. destruct (pushMessages c d) as [[ms|e] d'] eqn:Ep; unfold pushMessages in Ep; rewrite Hd in Ep.
  - destruct (push c (md_frames d)) as [[fs|] fd']; [|done].
    destruct (decodeFrames _ fs) as [ms'|] eqn:Em; [|done]. injection Ep as -> <-.
    destruct (IH (after d false fd') eq_refl) as (good & bad & -> & Hg & Hbad).
    exists (ms :: good), bad. split_and!; [done| |done]. constructor; [|done]. by eapply decodeFrames_valid.
  - exists [], (Throw e :: session chunks d'). split_and!; [done|done|done|]. apply session_failed.
    destruct (push c (md_frames d)) as [[fs|] fd2]; [destruct (decodeFrames _ fs)|]; by simplify_eq.
Qed.
End Codec.

(** ** Witnesses *)

(** A schema that accepts every object. *)
Definition sample_check (v : cvalue) : bool := match v with CObj _ => true | _ => false end.

Definition sample_message : cvalue := CObj [("type"%string, CText "ping"); ("note"%string, CUndefined)].
Definition sample_frame : bytes := [0; 0; 0; 11; 161; 100; 116; 121; 112; 101; 100; 112; 105; 110; 103].
Definition sample_receiver : MessageDecoder :=
  {| md_failed := false; md_frames := {| fd_header := []; fd_maxFrameLength := 64; fd_payloadBlocks := [];
       fd_expectedPayloadLength := None; fd_payloadLength := 0; fd_state := Open |};
     md_maxFrameLength := 64%float |}.

Lemma messages_round_trip_witness :
  encoded sample_check (Some 64%float) sample_message sample_frame /\
  exists d', pushAllMessages sample_check [[0]; [0; 0; 11; 161; 100; 116; 121]; [112; 101; 100; 112; 105; 110; 103]]
      sample_receiver = (Ok [CObj [("type"%string, CText "ping")]], d') /\
    fst (endMessages d') = Ok tt.
Proof.
  assert (encoded sample_check (Some 64%float) sample_message sample_frame) as He by (vm_compute; reflexivity).
  split; [exact He|].
  apply (messages_round_trip sample_check) with (limit := Some 64%float) (vs := [sample_message]) (frames := [sample_frame]).
  - intros [] H; exact H.
  - vm_compute. reflexivity.
  - constructor; [|constructor]. split; [apply o_sortedb_ok; vm_compute; reflexivity|]. cbn. tauto.
  - constructor; [exact He|constructor].
  - repeat constructor.
  - reflexivity.
Defined.

Lemma decoder_fails_closed_witness :
  session sample_check [sample_frame; [0; 0; 0; 1; 246]; sample_frame] sample_receiver =
    [Ok [CObj [("type"%string, CText "ping")]]; Throw InvalidMessage; Throw DecoderHasFailed] /\
  exists good bad, session sample_check [sample_frame; [0; 0; 0; 1; 246]; sample_frame] sample_receiver = map Ok good ++ bad.
Proof.
  split; [vm_compute; reflexivity|].
  destruct (decoder_fails_closed sample_check [sample_frame; [0; 0; 0; 1; 246]; sample_frame] sample_receiver eq_refl)
    as (good & bad & H & _).
  exists good, bad. exact H.
Defined.
