(* ===== verification/Json.v ===== *)
(** * JSON.stringify

    The text of a value, as the sources hash and compare it. Strings are quoted as the well-formed [JSON.stringify]
    does, lone surrogates escaped. *)

From Stdlib Require Import ZArith Lia Bool Ascii Floats.
From stdpp Require Import base strings option list.
From S2P Require Import Prelude JsNumber JsObject JsValue JsText.

Local Open Scope Z_scope.

Definition hex_digit (n : Z) : ascii := ascii_of_N (Z.to_N (if n <? 10 then 48 + n else 87 + n)).

(** The escape of a UTF-16 code unit. *)
Definition unicode_escape (n : Z) (rest : string) : string :=
  String.append "\u" (String (hex_digit (n / 4096)) (String (hex_digit (n / 256 mod 16))
    (String (hex_digit (n / 16 mod 16)) (String (hex_digit (n mod 16)) rest)))).

Definition backslash : ascii := "\"%char.
Definition quote_mark : ascii := ascii_of_N 34.

Fixpoint quote_chars (s : string) : string :=
  match s with
  | EmptyString => EmptyString
  | String c r =>
      let n := code c in
      let esc k := String backslash (String k (quote_chars r)) in
      if n =? 34 then esc quote_mark
      else if n =? 92 then esc backslash
      else if n =? 8 then esc "b"%char
      else if n =? 9 then esc "t"%char
      else if n =? 10 then esc "n"%char
      else if n =? 12 then esc "f"%char
      else if n =? 13 then esc "r"%char
      else if n <? 32 then unicode_escape n (quote_chars r)
      else
        match r with
        | String d (String e r') =>
            if (n =? 237) && (160 <=? code d)
            then unicode_escape (53248 + (code d - 128) * 64 + (code e - 128)) (quote_chars r')
            else String c (quote_chars r)
        | _ => String c (quote_chars r)
        end
  end.

Definition JSON_quote (s : string) : string :=
  String quote_mark (String.append (quote_chars s) (String quote_mark "")).

Fixpoint join (sep : string) (l : list string) : string :=
  match l with
  | [] => ""
  | [x] => x
  | x :: r => String.append x (String.append sep (join sep r))
  end.

(** [JSON.stringify(v)]; [None] is [undefined]. *)
Fixpoint JSON_stringify (v : value) : option string :=
  match v with
  | VUndefined => None
  | VNull => Some "null"
  | VBool b => Some (if b then "true" else "false")
  | VNum n => Some (if isFinite n then numberToString n else "null")
  | VStr s => Some (JSON_quote s)
  | VArr l =>
      let items := map (fun x => default "null" (JSON_stringify x)) l in
      Some (String.append "[" (String.append (join "," items) "]"))
  | VObj o =>
      let entries := omap (fun p => t ← JSON_stringify (snd p);
                                    Some (String.append (JSON_quote (fst p)) (String.append ":" t))) o in
      Some (String.append "{" (String.append (join "," entries) "}"))
  end%string.
