(* ===== verification/Execution.v ===== *)
(** * Executions (packages/trading-engine/src/execution-journal.ts, data and validation)

    The execution journal kept inside the risk state: its records, the objects they
    are at run time, the validator of unknown journals, and the invariants tying
    records to quota claims and blocks that every load and commit checks. *)

From Stdlib Require Import ZArith Lia Bool Ascii Floats.
From stdpp Require Import base strings option list.
From S2P Require Import Prelude JsNumber JsObject JsDate JsValue AccountRisk RiskState.

Local Open Scope float_scope.

(** ** Orders (packages/trading-engine/src/types.ts) *)


Inductive OrderType :=
  | Market | Limit | Stop | StopMarket | TakeProfit | TakeProfitMarket | TrailingStopMarket | Oco | UnknownType.
Inductive OrderStatus := OpenOrder | ClosedOrder | CanceledOrder | RejectedOrder | ExpiredOrder | UnknownOrder.
Inductive PositionSide := BothSides | LongSide | ShortSide.
Inductive PositionMode := OneWay | Hedge.

#[export] Instance OrderSide_eq_dec : EqDecision OrderSide.
Proof. solve_decision. Defined.
#[export] Instance OrderType_eq_dec : EqDecision OrderType.
Proof. solve_decision. Defined.
#[export] Instance OrderStatus_eq_dec : EqDecision OrderStatus.
Proof. solve_decision. Defined.
#[export] Instance PositionSide_eq_dec : EqDecision PositionSide.
Proof. solve_decision. Defined.
#[export] Instance PositionMode_eq_dec : EqDecision PositionMode.
Proof. solve_decision. Defined.

Definition side_name (s : OrderSide) : string := match s with Buy => "buy" | Sell => "sell" end.
Definition type_name (t : OrderType) : string :=
  match t with
  | Market => "market" | Limit => "limit" | Stop => "stop" | StopMarket => "stop_market"
  | TakeProfit => "take_profit" | TakeProfitMarket => "take_profit_market"
  | TrailingStopMarket => "trailing_stop_market" | Oco => "oco" | UnknownType => "unknown"
  end.
Definition order_status_name (s : OrderStatus) : string :=
  match s with
  | OpenOrder => "open" | ClosedOrder => "closed" | CanceledOrder => "canceled"
  | RejectedOrder => "rejected" | ExpiredOrder => "expired" | UnknownOrder => "unknown"
  end.
Definition position_side_name (s : PositionSide) : string :=
  match s with BothSides => "BOTH" | LongSide => "LONG" | ShortSide => "SHORT" end.

(** The types a caller may place ([PlaceOrderType] is the enumeration without the last two). *)
Definition ORDER_TYPES : list string :=
  ["market"; "limit"; "stop"; "stop_market"; "take_profit"; "take_profit_market"; "trailing_stop_market"]%string.

Inductive FeeSource := ExchangeFees | PaperLedgerFees.
Inductive FeeCompleteness := CompleteFees | PartialFees.

#[export] Instance FeeSource_eq_dec : EqDecision FeeSource.
Proof. solve_decision. Defined.
#[export] Instance FeeCompleteness_eq_dec : EqDecision FeeCompleteness.
Proof. solve_decision. Defined.

Record FeeCharge := { fc_currency : string; fc_cost : number }.
Record OrderFeeObservation := {
  fo_source : FeeSource;
  fo_completeness : FeeCompleteness;
  fo_charges : list FeeCharge
}.

Definition fee_source_name (s : FeeSource) : string :=
  match s with ExchangeFees => "exchange" | PaperLedgerFees => "paper-ledger" end.
Definition completeness_name (c : FeeCompleteness) : string :=
  match c with CompleteFees => "complete" | PartialFees => "partial" end.

Definition feeObservation_value (f : OrderFeeObservation) : value :=
  VObj [("source", VStr (fee_source_name (fo_source f)));
        ("completeness", VStr (completeness_name (fo_completeness f)));
        ("charges", VArr (map (fun c => VObj [("currency", VStr (fc_currency c)); ("cost", VNum (fc_cost c))])
                            (fo_charges f)))]%string.

(** [new Set(list).size === list.length]. *)
Fixpoint distinct (l : list string) : bool :=
  match l with [] => true | x :: r => negb (str_in r x) && distinct r end.

Definition charge_ok (v : value) : bool :=
  isRecord v && isString (class_len isCurrencyChar 1 80) (prop "currency" v)
  && isNumber isFinite (prop "cost" v) && only_keys ["currency"; "cost"]%string v.

Definition str_of (v : value) : string := match v with VStr s => s | _ => "" end.

Definition isOrderFeeObservation (v : value) : bool :=
  isRecord v
  && (isLit "exchange" (prop "source" v) || isLit "paper-ledger" (prop "source" v))
  && (isLit "complete" (prop "completeness" v) || isLit "partial" (prop "completeness" v))
  && only_keys ["source"; "completeness"; "charges"]%string v
  && isArray (fun l => (0 <? length l)%nat && (length l <=? 32)%nat && forallb charge_ok l
                       && distinct (map (fun c => str_of (prop "currency" c)) l))
       (prop "charges" v).

(** [PlaceOrderInput] *)
Record PlaceOrderInput := {
  in_symbol : string;
  in_side : OrderSide;
  in_type : OrderType;
  in_amount : number;
  in_price : option number;
  in_reduceOnly : option bool;
  in_positionSide : option PositionSide;
  in_stopPrice : option number;
  in_trailingPercent : option number;
  in_closePosition : option bool;
  in_clientOrderId : option string
}.

Record PlaceOcoOrderInput := {
  oco_symbol : string;
  oco_side : OrderSide;
  oco_amount : number;
  oco_stopLossPrice : number;
  oco_takeProfitPrice : number;
  oco_listClientOrderId : option string;
  oco_aboveClientOrderId : option string;
  oco_belowClientOrderId : option string
}.

(** ** Journal data *)

Inductive ExecutionStatus :=
  | Prepared | SubmissionStarted | Acknowledged | DefiniteRejection | UnknownOutcome | Reconciled.
Inductive ExecutionIssue :=
  | SubmissionUnknown | LookupUnavailable | LookupUnsupported | EvidenceConflict | AccountMismatch | AttemptsExhausted.

#[export] Instance ExecutionStatus_eq_dec : EqDecision ExecutionStatus.
Proof. solve_decision. Defined.
#[export] Instance ExecutionIssue_eq_dec : EqDecision ExecutionIssue.
Proof. solve_decision. Defined.

Definition status_name (s : ExecutionStatus) : string :=
  match s with
  | Prepared => "prepared" | SubmissionStarted => "submission-started" | Acknowledged => "acknowledged"
  | DefiniteRejection => "definite-rejection" | UnknownOutcome => "unknown" | Reconciled => "reconciled"
  end.
Definition issue_name (i : ExecutionIssue) : string :=
  match i with
  | SubmissionUnknown => "submission-unknown" | LookupUnavailable => "lookup-unavailable"
  | LookupUnsupported => "lookup-unsupported" | EvidenceConflict => "evidence-conflict"
  | AccountMismatch => "account-mismatch" | AttemptsExhausted => "attempts-exhausted"
  end.

Record ExecutionScope := {
  sc_accountId : string;
  sc_exchange : string;
  sc_mode : TradingMode;
  sc_marketType : MarketType;
  sc_quoteCurrency : string;
  sc_positionMode : PositionMode
}.

#[export] Instance ExecutionScope_eq_dec : EqDecision ExecutionScope.
Proof. solve_decision. Defined.

Inductive EvidenceSource := FromSubmission | FromLookup | FromOperator.

#[export] Instance EvidenceSource_eq_dec : EqDecision EvidenceSource.
Proof. solve_decision. Defined.

Definition source_name (s : EvidenceSource) : string :=
  match s with FromSubmission => "submission" | FromLookup => "client-id-lookup" | FromOperator => "operator" end.

(** The fields of an order that evidence keeps. *)
Record EvidenceOrder := {
  eo_id : string;
  eo_clientOrderId : option string;
  eo_symbol : string;
  eo_side : OrderSide;
  eo_amount : number;
  eo_filled : number;
  eo_remaining : number;
  eo_cost : number;
  eo_status : OrderStatus;
  eo_orderListId : option string;
  eo_listClientOrderId : option string;
  eo_type : option OrderType;
  eo_price : option number;
  eo_stopPrice : option number;
  eo_reduceOnly : option bool;
  eo_positionSide : option PositionSide;
  eo_closePosition : option bool;
  eo_trailingPercent : option number;
  eo_activationPrice : option number;
  eo_callbackRate : option number;
  eo_feeObservation : option OrderFeeObservation
}.

Record ExecutionEvidence := {
  evd_source : EvidenceSource;
  evd_observedAt : string;
  evd_orders : list EvidenceOrder;
  evd_reference : option string;
  evd_fee : option number
}.

Record ExecutionReference := { ref_kind : string; ref_id : string; ref_version : Z }.

Inductive ExecutionIntent :=
  | OrderIntent (input : PlaceOrderInput) (replacementIds : option (list string))
  | OcoIntent (input : PlaceOcoOrderInput).

(** [intent.input.symbol], [intent.input.side] and [intent.input.amount]. *)
Definition intent_symbol (i : ExecutionIntent) : string :=
  match i with OrderIntent input _ => in_symbol input | OcoIntent input => oco_symbol input end.
Definition intent_side (i : ExecutionIntent) : OrderSide :=
  match i with OrderIntent input _ => in_side input | OcoIntent input => oco_side input end.
Definition intent_amount (i : ExecutionIntent) : number :=
  match i with OrderIntent input _ => in_amount input | OcoIntent input => oco_amount input end.

Record ExecutionRecord := {
  ex_id : string;
  ex_intentId : option string;
  ex_reference : option ExecutionReference;
  ex_archiveAcknowledgedRevision : option Z;
  ex_admissionGeneration : option Z;
  ex_scope : ExecutionScope;
  ex_intent : ExecutionIntent;
  ex_notional : number;
  ex_reservationId : option string;
  ex_status : ExecutionStatus;
  ex_revision : Z;
  ex_createdAt : string;
  ex_updatedAt : string;
  ex_attempts : Z;
  ex_nextAttemptAt : option string;
  ex_issue : option ExecutionIssue;
  ex_evidence : option ExecutionEvidence;
  ex_settlement : option Settlement
}.

(** [stopPrice] is required; an update from an order without one leaves it [undefined]
    in a draft that validation then refuses. *)
Record ProtectionTarget := {
  pt_id : string;
  pt_scope : ExecutionScope;
  pt_executionId : string;
  pt_symbol : string;
  pt_positionSide : option PositionSide;
  pt_side : OrderSide;
  pt_stopPrice : option number;
  pt_generation : Z;
  pt_failures : option Z;
  pt_lastRepairIntentId : option string
}.

Inductive MaintenanceAction := PaperReset | RuntimeReplacement.

Definition action_name (a : MaintenanceAction) : string :=
  match a with PaperReset => "paper-reset" | RuntimeReplacement => "runtime-replacement" end.

Record ExecutionMaintenance := {
  mt_id : string;
  mt_scope : ExecutionScope;
  mt_action : MaintenanceAction;
  mt_createdAt : string;
  mt_nextGeneration : option Z
}.

Record IntentKey := { ik_executionId : string; ik_fingerprint : string }.

(** [version] is the literal 1. *)
Record ExecutionJournalState := {
  js_records : list ExecutionRecord;
  js_admissionGeneration : option Z;
  js_maintenance : option ExecutionMaintenance;
  js_intentKeys : option (obj IntentKey);
  js_protections : option (list ProtectionTarget)
}.

Record ExecutionRiskState := {
  es_risk : TradingRiskState;
  es_executions : option ExecutionJournalState
}.

Definition EXECUTION_HISTORY_LIMIT : nat := 200.
Definition REFERENCED_EXECUTION_LIMIT : nat := 1000.
Definition UNRESOLVED_EXECUTION_LIMIT : nat := 100.
Definition MAX_RECOVERY_ATTEMPTS : Z := 9.

(** ** Run-time objects *)

Definition market_name (m : MarketType) : string :=
  match m with Spot => "spot" | UsdmFutures => "usdm-futures" | Both => "both" end.
Definition position_mode_name (m : PositionMode) : string :=
  match m with OneWay => "one-way" | Hedge => "hedge" end.

Definition num_Z (n : Z) : value := VNum (of_Z n).

Definition scope_value (s : ExecutionScope) : value :=
  VObj [("accountId", VStr (sc_accountId s)); ("exchange", VStr (sc_exchange s));
        ("mode", VStr (mode_name (sc_mode s))); ("marketType", VStr (market_name (sc_marketType s)));
        ("quoteCurrency", VStr (sc_quoteCurrency s));
        ("positionMode", VStr (position_mode_name (sc_positionMode s)))]%string.

Definition input_value (i : PlaceOrderInput) : value :=
  VObj (concat [field "symbol" (VStr (in_symbol i)); field "side" (VStr (side_name (in_side i)));
    field "type" (VStr (type_name (in_type i))); field "amount" (VNum (in_amount i));
    opt_field "price" VNum (in_price i); opt_field "reduceOnly" VBool (in_reduceOnly i);
    opt_field "positionSide" (fun s => VStr (position_side_name s)) (in_positionSide i);
    opt_field "stopPrice" VNum (in_stopPrice i); opt_field "trailingPercent" VNum (in_trailingPercent i);
    opt_field "closePosition" VBool (in_closePosition i);
    opt_field "clientOrderId" VStr (in_clientOrderId i)])%string.

Definition oco_value (i : PlaceOcoOrderInput) : value :=
  VObj (concat [field "symbol" (VStr (oco_symbol i)); field "side" (VStr (side_name (oco_side i)));
    field "amount" (VNum (oco_amount i)); field "stopLossPrice" (VNum (oco_stopLossPrice i));
    field "takeProfitPrice" (VNum (oco_takeProfitPrice i));
    opt_field "listClientOrderId" VStr (oco_listClientOrderId i);
    opt_field "aboveClientOrderId" VStr (oco_aboveClientOrderId i);
    opt_field "belowClientOrderId" VStr (oco_belowClientOrderId i)])%string.

Definition intent_value (i : ExecutionIntent) : value :=
  match i with
  | OrderIntent input ids =>
      VObj (concat [field "kind" (VStr "order"); field "input" (input_value input);
        opt_field "replacementIds" (fun l => VArr (map VStr l)) ids])
  | OcoIntent input => VObj [("kind", VStr "oco"); ("input", oco_value input)]
  end%string.

Definition order_value (o : EvidenceOrder) : value :=
  VObj (concat [field "id" (VStr (eo_id o)); opt_field "clientOrderId" VStr (eo_clientOrderId o);
    field "symbol" (VStr (eo_symbol o)); field "side" (VStr (side_name (eo_side o)));
    field "amount" (VNum (eo_amount o)); field "filled" (VNum (eo_filled o));
    field "remaining" (VNum (eo_remaining o)); field "cost" (VNum (eo_cost o));
    field "status" (VStr (order_status_name (eo_status o)));
    opt_field "orderListId" VStr (eo_orderListId o);
    opt_field "listClientOrderId" VStr (eo_listClientOrderId o);
    opt_field "type" (fun t => VStr (type_name t)) (eo_type o); opt_field "price" VNum (eo_price o);
    opt_field "stopPrice" VNum (eo_stopPrice o); opt_field "reduceOnly" VBool (eo_reduceOnly o);
    opt_field "positionSide" (fun s => VStr (position_side_name s)) (eo_positionSide o);
    opt_field "closePosition" VBool (eo_closePosition o);
    opt_field "trailingPercent" VNum (eo_trailingPercent o);
    opt_field "activationPrice" VNum (eo_activationPrice o);
    opt_field "callbackRate" VNum (eo_callbackRate o);
    opt_field "feeObservation" feeObservation_value (eo_feeObservation o)])%string.

Definition orders_value (l : list EvidenceOrder) : value := VArr (map order_value l).

Definition evidence_value (e : ExecutionEvidence) : value :=
  VObj (concat [field "source" (VStr (source_name (evd_source e)));
    field "observedAt" (VStr (evd_observedAt e)); field "orders" (orders_value (evd_orders e));
    opt_field "reference" VStr (evd_reference e); opt_field "fee" VNum (evd_fee e)])%string.

Definition reference_value (r : ExecutionReference) : value :=
  VObj [("kind", VStr (ref_kind r)); ("id", VStr (ref_id r)); ("version", num_Z (ref_version r))]%string.

Definition record_value (r : ExecutionRecord) : value :=
  VObj (concat [field "id" (VStr (ex_id r)); opt_field "intentId" VStr (ex_intentId r);
    opt_field "reference" reference_value (ex_reference r);
    opt_field "archiveAcknowledgedRevision" num_Z (ex_archiveAcknowledgedRevision r);
    opt_field "admissionGeneration" num_Z (ex_admissionGeneration r);
    field "scope" (scope_value (ex_scope r)); field "intent" (intent_value (ex_intent r));
    field "notional" (VNum (ex_notional r)); opt_field "reservationId" VStr (ex_reservationId r);
    field "status" (VStr (status_name (ex_status r))); field "revision" (num_Z (ex_revision r));
    field "createdAt" (VStr (ex_createdAt r)); field "updatedAt" (VStr (ex_updatedAt r));
    field "attempts" (num_Z (ex_attempts r)); opt_field "nextAttemptAt" VStr (ex_nextAttemptAt r);
    opt_field "issue" (fun i => VStr (issue_name i)) (ex_issue r);
    opt_field "evidence" evidence_value (ex_evidence r);
    opt_field "settlement" settlement_value (ex_settlement r)])%string.

Definition target_value (t : ProtectionTarget) : value :=
  VObj (concat [field "id" (VStr (pt_id t)); field "scope" (scope_value (pt_scope t));
    field "executionId" (VStr (pt_executionId t)); field "symbol" (VStr (pt_symbol t));
    opt_field "positionSide" (fun s => VStr (position_side_name s)) (pt_positionSide t);
    field "side" (VStr (side_name (pt_side t))); opt_field "stopPrice" VNum (pt_stopPrice t);
    field "generation" (num_Z (pt_generation t)); opt_field "failures" num_Z (pt_failures t);
    opt_field "lastRepairIntentId" VStr (pt_lastRepairIntentId t)])%string.

Definition maintenance_value (m : ExecutionMaintenance) : value :=
  VObj (concat [field "id" (VStr (mt_id m)); field "scope" (scope_value (mt_scope m));
    field "action" (VStr (action_name (mt_action m))); field "createdAt" (VStr (mt_createdAt m));
    opt_field "nextGeneration" num_Z (mt_nextGeneration m)])%string.

Definition intentKey_value (k : IntentKey) : value :=
  VObj [("executionId", VStr (ik_executionId k)); ("fingerprint", VStr (ik_fingerprint k))]%string.

Definition journal_value (j : ExecutionJournalState) : value :=
  VObj (concat [field "version" (VNum 1); field "records" (VArr (map record_value (js_records j)));
    opt_field "admissionGeneration" num_Z (js_admissionGeneration j);
    opt_field "maintenance" maintenance_value (js_maintenance j);
    opt_field "intentKeys" (obj_value intentKey_value) (js_intentKeys j);
    opt_field "protections" (fun l => VArr (map target_value l)) (js_protections j)])%string.

(** ** The validator of unknown journals *)

Definition nonnegative (v : value) : bool := isNumber (fun n => isFinite n && (0 <=? n)) v.
Definition above_zero (v : value) : bool := isNumber (fun n => isFinite n && (0 <? n)) v.

(** [Number.isSafeInteger(v) && Number(v) >= m]. *)
Definition safeAtLeast (m : number) (v : value) : bool := isNumber (fun n => isSafeInteger n && (m <=? n)) v.

Definition identifier_value : value -> bool := isString identifier.

Definition referenceValid (v : value) : bool :=
  isRecord v && identifier_value (prop "kind" v) && identifier_value (prop "id" v)
  && isNumber (fun n => isSafeInteger n && (0 <? n)) (prop "version" v)
  && only_keys ["kind"; "id"; "version"]%string v.

Definition scopeValid (v : value) : bool :=
  isRecord v && identifier_value (prop "accountId" v) && identifier_value (prop "exchange" v)
  && (isLit "paper" (prop "mode" v) || isLit "live" (prop "mode" v))
  && literal_in ["spot"; "usdm-futures"; "both"]%string (prop "marketType" v)
  && literal_in ["one-way"; "hedge"]%string (prop "positionMode" v)
  && isString currencyCode (prop "quoteCurrency" v)
  && only_keys ["accountId"; "exchange"; "mode"; "marketType"; "quoteCurrency"; "positionMode"]%string v.

(** [/^[A-Z0-9_-]+\/[A-Z0-9_-]+(?::[A-Z0-9_-]+)?$/] *)
Definition symbolShape (s : string) : bool :=
  match split_on "/"%char s with
  | [base; rest] =>
      currencyCode base
      && match split_on ":"%char rest with
         | [quote] => currencyCode quote
         | [quote; settle] => currencyCode quote && currencyCode settle
         | _ => false
         end
  | _ => false
  end.

Definition positionSide_ok (v : value) : bool := optional (literal_in ["BOTH"; "LONG"; "SHORT"]%string) v.

Definition each_prop (p : value -> bool) (ks : list string) (v : value) : bool :=
  forallb (fun k => p (prop k v)) ks.

Definition oco_ok (input : value) : bool :=
  above_zero (prop "stopLossPrice" input) && above_zero (prop "takeProfitPrice" input)
  && each_prop identifier_value ["listClientOrderId"; "aboveClientOrderId"; "belowClientOrderId"]%string input
  && distinct (map (fun k => str_of (prop k input))
       ["listClientOrderId"; "aboveClientOrderId"; "belowClientOrderId"]%string)
  && only_keys ["symbol"; "side"; "amount"; "stopLossPrice"; "takeProfitPrice"; "listClientOrderId";
                "aboveClientOrderId"; "belowClientOrderId"]%string input.

Definition order_input_ok (input : value) : bool :=
  isString (str_in ORDER_TYPES) (prop "type" input)
  && identifier_value (prop "clientOrderId" input)
  && each_prop (optional above_zero) ["price"; "stopPrice"; "trailingPercent"]%string input
  && each_prop (optional isBoolean) ["reduceOnly"; "closePosition"]%string input
  && positionSide_ok (prop "positionSide" input)
  && only_keys ["symbol"; "side"; "amount"; "type"; "clientOrderId"; "price"; "stopPrice"; "trailingPercent";
                "reduceOnly"; "closePosition"; "positionSide"]%string input.

Definition intentValid (v : value) : bool :=
  let input := prop "input" v in
  isRecord v && only_keys ["kind"; "input"; "replacementIds"]%string v && isRecord input
  && optional (fun ids => isLit "order" (prop "kind" v)
       && isArray (fun l => (0 <? length l)%nat && forallb identifier_value l && distinct (map str_of l)) ids)
       (prop "replacementIds" v)
  && isString symbolShape (prop "symbol" input)
  && (isLit "buy" (prop "side" input) || isLit "sell" (prop "side" input))
  && above_zero (prop "amount" input)
  && (if isLit "oco" (prop "kind" v) then oco_ok input
      else isLit "order" (prop "kind" v) && order_input_ok input).

Definition evidence_order_ok (o : value) : bool :=
  isRecord o && identifier_value (prop "id" o) && isString (fun _ => true) (prop "symbol" o)
  && (isLit "buy" (prop "side" o) || isLit "sell" (prop "side" o))
  && each_prop nonnegative ["amount"; "filled"; "remaining"; "cost"]%string o
  && literal_in ["open"; "closed"; "canceled"; "rejected"; "expired"]%string (prop "status" o)
  && each_prop (optional identifier_value) ["clientOrderId"; "orderListId"; "listClientOrderId"]%string o
  && optional isOrderFeeObservation (prop "feeObservation" o)
  && optional (isString (str_in (app ORDER_TYPES ["oco"; "unknown"]%string))) (prop "type" o)
  && each_prop (optional above_zero)
       ["price"; "stopPrice"; "trailingPercent"; "activationPrice"; "callbackRate"]%string o
  && each_prop (optional isBoolean) ["reduceOnly"; "closePosition"]%string o
  && positionSide_ok (prop "positionSide" o)
  && only_keys ["id"; "clientOrderId"; "symbol"; "side"; "amount"; "filled"; "remaining"; "cost"; "feeObservation";
                "status"; "orderListId"; "listClientOrderId"; "type"; "price"; "stopPrice"; "reduceOnly";
                "positionSide"; "closePosition"; "trailingPercent"; "activationPrice"; "callbackRate"]%string o.

Definition evidenceValid (v : value) : bool :=
  isRecord v && literal_in ["submission"; "client-id-lookup"; "operator"]%string (prop "source" v)
  && isString iso (prop "observedAt" v) && optional identifier_value (prop "reference" v)
  && optional (isNumber isFinite) (prop "fee" v)
  && only_keys ["source"; "observedAt"; "orders"; "reference"; "fee"]%string v
  && isArray (fun l => (length l <=? 2)%nat && forallb evidence_order_ok l) (prop "orders" v).

Definition states : list string :=
  ["prepared"; "submission-started"; "acknowledged"; "definite-rejection"; "unknown"; "reconciled"]%string.
Definition issues : list string :=
  ["submission-unknown"; "lookup-unavailable"; "lookup-unsupported"; "evidence-conflict"; "account-mismatch";
   "attempts-exhausted"]%string.

Definition settlement_shape (v : value) : bool :=
  isRecord v && literal_in ["commit"; "release"]%string (prop "outcome" v) && nonnegative (prop "notional" v)
  && only_keys ["outcome"; "notional"]%string v.

(** The order of two ISO times is the order of their texts, which are ASCII. *)
Definition not_before (a b : value) : bool :=
  match a, b with VStr s, VStr t => String.leb t s | _, _ => false end.

(** [Number(x) <= Number(y)], read only for numbers: the record is refused otherwise. *)
Definition num_le (x y : value) : bool :=
  match x, y with VNum n, VNum m => n <=? m | _, _ => false end.

(** The checks on a record whose id is new. *)
Definition record_ok (r : value) : bool :=
  scopeValid (prop "scope" r) && optional identifier_value (prop "intentId" r)
  && optional (fun f => referenceValid f && identifier_value (prop "intentId" r)) (prop "reference" r)
  && optional (fun a => defined (prop "reference" r) && safeAtLeast 0 a && num_le a (prop "revision" r))
       (prop "archiveAcknowledgedRevision" r)
  && optional (safeAtLeast 0) (prop "admissionGeneration" r)
  && intentValid (prop "intent" r) && above_zero (prop "notional" r)
  && optional identifier_value (prop "reservationId" r)
  && isString (str_in states) (prop "status" r)
  && safeAtLeast 0 (prop "revision" r)
  && isString iso (prop "createdAt" r) && isString iso (prop "updatedAt" r)
  && not_before (prop "updatedAt" r) (prop "createdAt" r)
  && isNumber (fun n => isSafeInteger n && (0 <=? n) && (n <=? of_Z MAX_RECOVERY_ATTEMPTS)) (prop "attempts" r)
  && optional (isString iso) (prop "nextAttemptAt" r)
  && optional (isString (str_in issues)) (prop "issue" r)
  && optional evidenceValid (prop "evidence" r)
  && optional settlement_shape (prop "settlement" r)
  && only_keys ["id"; "intentId"; "reference"; "archiveAcknowledgedRevision"; "admissionGeneration"; "scope";
                "intent"; "notional"; "reservationId"; "status"; "revision"; "createdAt"; "updatedAt"; "attempts";
                "nextAttemptAt"; "issue"; "evidence"; "settlement"]%string r.

(** The records, with the set of the ids seen so far. *)
Fixpoint records_ok (ids : list string) (l : list value) : bool :=
  match l with
  | [] => true
  | r :: rest =>
      isRecord r && isString (fun id => identifier id && negb (str_in ids id)) (prop "id" r)
      && record_ok r && records_ok (str_of (prop "id" r) :: ids) rest
  end.

Definition target_ok (t : value) : bool :=
  isRecord t && identifier_value (prop "id" t) && identifier_value (prop "executionId" t)
  && scopeValid (prop "scope" t) && isString (fun _ => true) (prop "symbol" t)
  && above_zero (prop "stopPrice" t)
  && (isLit "buy" (prop "side" t) || isLit "sell" (prop "side" t))
  && safeAtLeast 0 (prop "generation" t) && optional (safeAtLeast 0) (prop "failures" t)
  && optional identifier_value (prop "lastRepairIntentId" t) && positionSide_ok (prop "positionSide" t).

Definition maintenance_ok (m : value) : bool :=
  isRecord m && identifier_value (prop "id" m) && scopeValid (prop "scope" m)
  && isString iso (prop "createdAt" m)
  && literal_in ["paper-reset"; "runtime-replacement"]%string (prop "action" m)
  && optional (safeAtLeast 1) (prop "nextGeneration" m)
  && only_keys ["id"; "scope"; "action"; "createdAt"; "nextGeneration"]%string m.

Definition intentKeys_ok (v : value) : bool :=
  isRecord v
  && forallb (fun p => identifier (fst p) && isRecord (snd p) && identifier_value (prop "executionId" (snd p))
                       && isString hex64 (prop "fingerprint" (snd p))) (entries_of v).

Definition isExecutionJournalState (v : value) : bool :=
  isRecord v && isNumber (fun n => n =? 1) (prop "version" v)
  && only_keys ["version"; "records"; "maintenance"; "admissionGeneration"; "intentKeys"; "protections"]%string v
  && optional (safeAtLeast 0) (prop "admissionGeneration" v)
  && optional intentKeys_ok (prop "intentKeys" v)
  && optional (isArray (forallb target_ok)) (prop "protections" v)
  && optional maintenance_ok (prop "maintenance" v)
  && isArray (fun l => (length l <=? EXECUTION_HISTORY_LIMIT + UNRESOLVED_EXECUTION_LIMIT + REFERENCED_EXECUTION_LIMIT)%nat
                       && records_ok [] l) (prop "records" v).

(** ** Status of a record *)

Definition isUnresolvedExecution (r : ExecutionRecord) : bool :=
  match ex_status r with Prepared | SubmissionStarted | UnknownOutcome => true | _ => false end.

(** [value.evidence?.orders ?? []] *)
Definition evidence_orders (r : ExecutionRecord) : list EvidenceOrder :=
  match ex_evidence r with Some e => evd_orders e | None => [] end.

Definition is_open (o : EvidenceOrder) : bool := bool_decide (eo_status o = OpenOrder).

Definition retainReference (r : ExecutionRecord) : bool :=
  match ex_reference r with
  | None => false
  | Some _ => negb (bool_decide (ex_archiveAcknowledgedRevision r = Some (ex_revision r)))
              || existsb is_open (evidence_orders r)
  end.

Definition closed_record (r : ExecutionRecord) : bool := negb (isUnresolvedExecution r) && negb (retainReference r).

(** [trimExecutionHistory(journal)] on the records. *)
Definition trimExecutionHistory (records : list ExecutionRecord) : list ExecutionRecord :=
  let keep := map ex_id (lastN EXECUTION_HISTORY_LIMIT (List.filter closed_record records)) in
  List.filter (fun r => isUnresolvedExecution r || retainReference r || str_in keep (ex_id r)) records.

(** ** Fees *)

Definition expectedFeeSource (m : TradingMode) : FeeSource :=
  match m with Paper => PaperLedgerFees | Live => ExchangeFees end.

Definition terminal_order (s : OrderStatus) : bool :=
  match s with ClosedOrder | CanceledOrder | RejectedOrder | ExpiredOrder => true | _ => false end.

Definition fee_complete (scope : ExecutionScope) (o : EvidenceOrder) : bool :=
  terminal_order (eo_status o)
  && match eo_feeObservation o with
     | Some f => isOrderFeeObservation (feeObservation_value f)
                 && bool_decide (fo_source f = expectedFeeSource (sc_mode scope))
                 && bool_decide (fo_completeness f = CompleteFees)
                 && forallb (fun c => String.eqb (fc_currency c) (sc_quoteCurrency scope)) (fo_charges f)
     | None => false
     end.

Definition charges_total (o : EvidenceOrder) : number :=
  fold_left (fun subtotal c => subtotal + fc_cost c)
    (match eo_feeObservation o with Some f => fo_charges f | None => [] end) 0.

Definition observedExecutionFee (scope : ExecutionScope) (evidence : option ExecutionEvidence) : option number :=
  match evidence with
  | None => None
  | Some e =>
      if Nat.eqb (length (evd_orders e)) 0 || bool_decide (evd_source e = FromOperator)
         || negb (distinct (map eo_id (evd_orders e))) || negb (forallb (fee_complete scope) (evd_orders e))
      then None
      else let fee := fold_left (fun sum o => sum + charges_total o) (evd_orders e) 0 in
           if isFinite fee then Some fee else None
  end.

(** ** The invariants checked at every load and commit *)

Inductive JournalProblem :=
  | InvalidJournal | MaintenanceGeneration | RetentionLimits | MaintenanceConflict | BlockWithoutRecord
  | ClaimWithoutRecord | FeeInvariant | SettlementInvariant | OutcomeInvariant | ReservationCorrelation.

Definition records_of (s : ExecutionRiskState) : list ExecutionRecord :=
  match es_executions s with Some j => js_records j | None => [] end.

Definition maintenance_of (s : ExecutionRiskState) : option ExecutionMaintenance :=
  match es_executions s with Some j => js_maintenance j | None => None end.

(** [state.executions?.admissionGeneration ?? 0] *)
Definition generation_of (s : ExecutionRiskState) : Z :=
  match es_executions s with Some j => default 0%Z (js_admissionGeneration j) | None => 0%Z end.

(** Claims are in flight in some mode. *)
Definition in_flight (s : TradingRiskState) : bool :=
  existsb (fun u => (0 <? length (o_keys (default [] (u_reservations u))))%nat
                    || (0 <? default 0 (u_reservedDailyNotional u))) [st_paper s; st_live s].

Definition in_mode (m : TradingMode) (r : ExecutionRecord) : bool := bool_decide (sc_mode (ex_scope r) = m).

Definition block_known (m : TradingMode) (records : list ExecutionRecord) (id : string) : bool :=
  existsb (fun r => String.eqb (ex_id r) id && in_mode m r && isUnresolvedExecution r) records.

Definition claim_known (m : TradingMode) (records : list ExecutionRecord) (c : RiskReservationState) : bool :=
  match res_executionId c with
  | None => true
  | Some id => existsb (fun r => String.eqb (ex_id r) id && bool_decide (ex_reservationId r = Some (res_id c))
                                 && in_mode m r && isUnresolvedExecution r) records
  end.

Definition check_mode (s : ExecutionRiskState) (m : TradingMode) : result JournalProblem unit :=
  let usage := usage_of m (es_risk s) in
  _ ← throwIf (negb (forallb (block_known m (records_of s)) (o_keys (default [] (u_executionBlocks usage)))))
        BlockWithoutRecord;
  throwIf (negb (forallb (claim_known m (records_of s)) (o_values (default [] (u_reservations usage)))))
    ClaimWithoutRecord.

Definition fees_ok (r : ExecutionRecord) : bool :=
  let feeOrders := evidence_orders r in
  forallb (fun o => match eo_feeObservation o with
                    | Some f => bool_decide (fo_source f = expectedFeeSource (sc_mode (ex_scope r)))
                    | None => true end) feeOrders
  && match ex_evidence r with
     | Some e =>
         match evd_fee e with
         | Some fee =>
             negb (existsb (fun o => match eo_feeObservation o with Some _ => true | None => false end) feeOrders)
             || match observedExecutionFee (ex_scope r) (ex_evidence r) with Some f => f =? fee | None => false end
         | None => true
         end
     | None => true
     end.

(** [state[mode].executionBlocks?.[id] === true] *)
Definition blocked (s : TradingRiskState) (m : TradingMode) (id : string) : bool :=
  match o_get id (default [] (u_executionBlocks (usage_of m s))) with Some true => true | _ => false end.

Definition settled (r : ExecutionRecord) : bool := match ex_settlement r with Some _ => true | None => false end.

Definition settlement_consistent (s : ExecutionRiskState) (r : ExecutionRecord) : bool :=
  Bool.eqb (isUnresolvedExecution r) (blocked (es_risk s) (sc_mode (ex_scope r)) (ex_id r))
  && negb (Bool.eqb (isUnresolvedExecution r) (settled r)).

(** [symbol.split("/")[1]?.split(":")[0] === quoteCurrency] *)
Definition quote_matches (symbol quote : string) : bool :=
  match split_on "/"%char symbol with
  | _ :: rest :: _ => match split_on ":"%char rest with q :: _ => String.eqb q quote | [] => false end
  | _ => false
  end.

Definition released (r : ExecutionRecord) : bool :=
  match ex_settlement r with Some s => bool_decide (set_outcome s = Release) | None => false end.

Definition evidence_from (src : EvidenceSource) (r : ExecutionRecord) : bool :=
  match ex_evidence r with Some e => bool_decide (evd_source e = src) | None => false end.

Definition has_evidence (r : ExecutionRecord) : bool := match ex_evidence r with Some _ => true | None => false end.

Definition outcome_ok (r : ExecutionRecord) : bool :=
  let symbol := intent_symbol (ex_intent r) in let quote := sc_quoteCurrency (ex_scope r) in
  quote_matches symbol quote
  && negb (bool_decide (sc_marketType (ex_scope r) = Spot) && includes_char ":"%char symbol)
  && negb (bool_decide (sc_marketType (ex_scope r) = UsdmFutures) && negb (endsWith (String ":"%char quote) symbol))
  && match ex_settlement r with
     | Some s => negb (bool_decide (set_outcome s = Release)) || (set_notional s =? 0)
     | None => true
     end
  && negb (bool_decide (ex_status r = DefiniteRejection) && negb (released r))
  && negb (bool_decide (ex_status r = Acknowledged) && negb (evidence_from FromSubmission r))
  && negb (bool_decide (ex_status r = Reconciled) && negb (has_evidence r)
           && (negb (released r) || negb (Z.eqb (ex_revision r) 1) || negb (Z.eqb (ex_attempts r) 0)))
  && negb (evidence_from FromOperator r
           && match ex_evidence r with
              | Some e => match evd_reference e with Some f => String.eqb f "" | None => true end
                          || negb (Nat.eqb (length (evd_orders e)) 0)
              | None => false
              end)
  && negb (isUnresolvedExecution r && has_evidence r).

Definition reservation_matches (s : ExecutionRiskState) (r : ExecutionRecord) : bool :=
  match ex_reservationId r with
  | Some id =>
      negb (isUnresolvedExecution r && negb (String.eqb id ""))
      || match o_get id (default [] (u_reservations (usage_of (sc_mode (ex_scope r)) (es_risk s)))) with
         | Some c => bool_decide (res_executionId c = Some (ex_id r))
                     && String.eqb (res_symbol c) (intent_symbol (ex_intent r))
                     && (res_notional c =? ex_notional r)
         | None => false
         end
  | None => true
  end.

Definition check_record (s : ExecutionRiskState) (r : ExecutionRecord) : result JournalProblem unit :=
  _ ← throwIf (negb (fees_ok r)) FeeInvariant;
  _ ← throwIf (negb (settlement_consistent s r)) SettlementInvariant;
  _ ← throwIf (negb (outcome_ok r)) OutcomeInvariant;
  throwIf (negb (reservation_matches s r)) ReservationCorrelation.

Definition count (p : ExecutionRecord -> bool) (l : list ExecutionRecord) : nat := length (List.filter p l).

Definition validateExecutionRiskState (s : ExecutionRiskState) : result JournalProblem unit :=
  _ ← throwIf (match es_executions s with
               | Some j => negb (isExecutionJournalState (journal_value j)) | None => false end) InvalidJournal;
  let records := records_of s in
  _ ← throwIf (match maintenance_of s with
               | Some m => match mt_nextGeneration m with
                           | Some g => negb (Z.eqb g (generation_of s + 1)) | None => false end
               | None => false end) MaintenanceGeneration;
  let pending := count isUnresolvedExecution records in
  _ ← throwIf ((UNRESOLVED_EXECUTION_LIMIT <? pending)%nat
        || (EXECUTION_HISTORY_LIMIT <? count closed_record records)%nat
        || (REFERENCED_EXECUTION_LIMIT <? count (fun r => negb (isUnresolvedExecution r) && retainReference r) records)%nat)
        RetentionLimits;
  _ ← throwIf (match maintenance_of s with
               | Some _ => (0 <? pending)%nat || in_flight (es_risk s) | None => false end) MaintenanceConflict;
  _ ← foldM (fun _ m => check_mode s m) tt [Paper; Live];
  foldM (fun _ r => check_record s r) tt records.
