(* ===== verification/Venues.v ===== *)
(** * Live venue policies (packages/trading-engine/src/venues)

    What each venue supports and how its adapter is to be driven: the profiles of
    binance, okx and bybit, and the experimental profile of every other id.  The
    functions of a profile that talk to a ccxt exchange are not modelled. *)

From Stdlib Require Import ZArith Lia Bool Ascii Floats.
From stdpp Require Import base strings option list.
From S2P Require Import Prelude JsNumber JsObject JsDate JsValue AccountRisk RiskState Json Execution.

Local Open Scope Z_scope.
Local Open Scope bool_scope.

(** ** Types (venues/types.ts) *)

Inductive MarketFamily := SpotFamily | FuturesFamily | MixedFamily | InvalidFamily.

#[export] Instance MarketFamily_eq_dec : EqDecision MarketFamily.
Proof. solve_decision. Defined.
#[export] Instance MarketType_eq_dec : EqDecision MarketType.
Proof. solve_decision. Defined.

Definition family_name (f : MarketFamily) : string :=
  match f with SpotFamily => "spot" | FuturesFamily => "futures" | MixedFamily => "mixed" | InvalidFamily => "invalid" end.

Inductive CredentialPasswordPolicy := PasswordRequired | PasswordOptional | PasswordUnused.
Inductive OrderHistoryMode := ClosedAndCanceled | FetchOrdersBySymbol.
Inductive ClientOrderIdParam := ClientOrderIdField | NewClientOrderIdField.

Record VenueLiveCapability := {
  vl_id : string;
  vl_label : string;
  vl_marketFamily : MarketFamily;
  vl_orderTypes : list OrderType;
  vl_ocoSides : list OrderSide;
  vl_limitations : list string;
  vl_references : list string
}.

(** A row of the capability matrix: a live capability with its mode and exchange. *)
Record CapabilityProfile := {
  cp_row : VenueLiveCapability;
  cp_mode : TradingMode;
  cp_exchangeId : string
}.

Record VenueWireMapping := {
  wm_omitExchangeQuantity : bool;
  wm_omitReduceOnly : bool;
  wm_constraints : list string
}.

Record VenueOrderListParams := {
  ol_open : list value;
  ol_history : list value;
  ol_closed : list value;
  ol_canceled : list value
}.

Record VenueWireContext := {
  wc_marketFamily : MarketFamily;
  wc_positionMode : option PositionMode;
  wc_type : OrderType;
  wc_reduceOnly : option bool;
  wc_closePosition : option bool
}.

Record ExchangeCredentials := { cr_apiKey : string; cr_secret : string; cr_password : option string }.

(** The policy half of [LiveVenueProfile].  [validateClientOrderId] says which
    client ids the venue refuses. *)
Record LiveVenueProfile := {
  v_id : string;
  v_password : CredentialPasswordPolicy;
  v_liveCapabilities : list VenueLiveCapability;
  v_orderHistoryMode : OrderHistoryMode;
  v_orderHistoryRequiresSymbol : bool;
  v_skipGenericSpotAmountCostLimits : bool;
  v_ccxtOptions : MarketType -> value;
  v_extraOrderListParams : MarketType -> VenueOrderListParams;
  v_cancelRetryParams : list value;
  v_clientOrderIdParam : MarketType -> ClientOrderIdParam;
  v_supportsNativeOrderList : MarketType -> bool;
  v_validateClientOrderId : option (string -> bool);
  v_wireMapping : VenueWireContext -> VenueWireMapping;
  v_futuresNativeIdAmbiguous : option OrderType -> bool;
  v_clientIdLookupNotes : MarketFamily -> list string;
  v_closePositionQuantityConstraint : MarketFamily -> OrderType -> string;
  v_hedgeReductionConstraint : option PositionMode -> option string;
  v_trailingSpotConstraints : list string;
  v_orderTypeMetadataNames : MarketFamily -> OrderType -> list string;
  v_unsupportedOcoSideReason : OrderSide -> option string;
  v_quantityClosePositionNote : string
}.

Definition emptyOrderListParams : VenueOrderListParams :=
  {| ol_open := []; ol_history := []; ol_closed := []; ol_canceled := [] |}.

Definition defaultWireMapping : VenueWireMapping :=
  {| wm_omitExchangeQuantity := false; wm_omitReduceOnly := false; wm_constraints := [] |}.

(** The [type], [reduceOnly] and [closePosition] of the input. *)
Definition venueWireContextFromOrder (marketFamily : MarketFamily) (positionMode : option PositionMode)
    (type : OrderType) (reduceOnly closePosition : option bool) : VenueWireContext :=
  {| wc_marketFamily := marketFamily; wc_positionMode := positionMode; wc_type := type;
     wc_reduceOnly := reduceOnly; wc_closePosition := closePosition |}.

(** ** Constants (venues/constants.ts) *)

Definition LIVE_ADAPTER_LIMITATIONS : list string :=
  ["Offline adapter contracts are not live/testnet certification; no externally verified evidence is recorded";
   "Exchange permissions, market filters and availability must still be checked at submission"]%string.

Definition CLOSE_USES_POSITION_SNAPSHOT : string :=
  "Close uses the matching position snapshot as an explicit base quantity".

Definition ALGO_ORDER_RETRY_PARAMS : list value :=
  [VObj [("ordType", VStr "conditional")]; VObj [("trigger", VBool true)]; VObj [("trailing", VBool true)];
   VObj [("ordType", VStr "oco")]]%string.

(** ** Experimental venues (venues/experimental.ts) *)

Definition experimentalLiveVenue (id : string) (password : option CredentialPasswordPolicy)
    (liveCapabilities : option (list VenueLiveCapability))
    (extraOrderListParams : option (MarketType -> VenueOrderListParams)) : LiveVenueProfile :=
  {| v_id := id;
     v_password := default PasswordOptional password;
     v_liveCapabilities := default [] liveCapabilities;
     v_orderHistoryMode := ClosedAndCanceled;
     v_orderHistoryRequiresSymbol := false;
     v_skipGenericSpotAmountCostLimits := false;
     v_ccxtOptions := fun _ => VObj [];
     v_extraOrderListParams := default (fun _ => emptyOrderListParams) extraOrderListParams;
     v_cancelRetryParams := ALGO_ORDER_RETRY_PARAMS;
     v_clientOrderIdParam := fun _ => ClientOrderIdField;
     v_supportsNativeOrderList := fun _ => false;
     v_validateClientOrderId := None;
     v_wireMapping := fun _ => defaultWireMapping;
     v_futuresNativeIdAmbiguous := fun _ => false;
     v_clientIdLookupNotes := fun _ => [];
     v_closePositionQuantityConstraint := fun _ _ => CLOSE_USES_POSITION_SNAPSHOT;
     v_hedgeReductionConstraint := fun _ => None;
     v_trailingSpotConstraints := [];
     v_orderTypeMetadataNames := fun _ type => [type_name type];
     v_unsupportedOcoSideReason := fun _ => None;
     v_quantityClosePositionNote := "matching_position_snapshot; native trigger closes may omit wire quantity" |}.

Definition missingApiKeyOrSecret (exchangeId : string) (credentials : ExchangeCredentials) : option string :=
  if blank (cr_apiKey credentials) || blank (cr_secret credentials)
  then Some (String.append "Credentials for "
               (String.append exchangeId " must include non-empty apiKey and secret"))
  else None.

(** ** Binance (venues/binance.ts) *)

Definition BINANCE_HEDGE_REDUCTION : string :=
  "Binance hedge mode omits reduceOnly; the opposing side plus positionSide enforces the reducing direction".
Definition BINANCE_CLOSE_ALL : string :=
  "Binance close-all triggers use closePosition and omit wire-level reduceOnly and exchange quantity".
Definition BINANCE_OCO_BUY_UNSUPPORTED : string :=
  "Binance Spot native OCO buy brackets are not supported safely".
Definition BINANCE_QUANTITY_CLOSE_NOTE : string :=
  "matching_position_snapshot; native Binance trigger closes may omit wire quantity".

Definition BINANCE_ORDER_TYPES : list OrderType :=
  [Market; Limit; Stop; StopMarket; TakeProfit; TakeProfitMarket; TrailingStopMarket].

Definition FUTURES_TRIGGER : value := VObj [("trigger", VBool true)]%string.

(** [flag === true] *)
Definition isTrue (b : option bool) : bool := bool_decide (b = Some true).

Definition binanceWireMapping (input : VenueWireContext) : VenueWireMapping :=
  let futures := bool_decide (wc_marketFamily input = FuturesFamily) in
  let omitExchangeQuantity := futures && isTrue (wc_closePosition input)
    && (bool_decide (wc_type input = StopMarket) || bool_decide (wc_type input = TakeProfitMarket)) in
  let hedgeReduction := futures && bool_decide (wc_positionMode input = Some Hedge)
    && (isTrue (wc_reduceOnly input) || isTrue (wc_closePosition input)) in
  {| wm_omitExchangeQuantity := omitExchangeQuantity;
     wm_omitReduceOnly := omitExchangeQuantity || hedgeReduction;
     wm_constraints := app (if hedgeReduction then [BINANCE_HEDGE_REDUCTION] else [])
                           (if omitExchangeQuantity then [BINANCE_CLOSE_ALL] else []) |}.

(** [/^[A-Za-z0-9_-]{1,36}$/] (ccxt-map.ts) *)
Definition validateBinanceClientOrderId (id : string) : bool := class_len isWordDash 1 36 id.

Definition BINANCE_LIVE_VENUE : LiveVenueProfile :=
  {| v_id := "binance";
     v_password := PasswordUnused;
     v_liveCapabilities :=
       [{| vl_id := "binance-spot"; vl_label := "Binance Spot"; vl_marketFamily := SpotFamily;
           vl_orderTypes := BINANCE_ORDER_TYPES; vl_ocoSides := [Sell]; vl_limitations := LIVE_ADAPTER_LIMITATIONS;
           vl_references := ["src/capabilities.test.ts"; "src/ccxt-client.test.ts"; "src/ccxt-binance-spot.ts"] |};
        {| vl_id := "binance-usdm"; vl_label := "Binance USDⓈ-M futures"; vl_marketFamily := FuturesFamily;
           vl_orderTypes := BINANCE_ORDER_TYPES; vl_ocoSides := []; vl_limitations := LIVE_ADAPTER_LIMITATIONS;
           vl_references := ["src/capabilities.test.ts"; "src/ccxt-client.test.ts"; "src/contract-size.test.ts"] |}];
     v_orderHistoryMode := FetchOrdersBySymbol;
     v_orderHistoryRequiresSymbol := true;
     v_skipGenericSpotAmountCostLimits := true;
     v_ccxtOptions := fun _ => VObj [("adjustForTimeDifference", VBool true); ("recvWindow", VNum 10000)];
     v_extraOrderListParams := fun marketType =>
       if bool_decide (marketType = UsdmFutures)
       then {| ol_open := [FUTURES_TRIGGER]; ol_history := [FUTURES_TRIGGER]; ol_closed := []; ol_canceled := [] |}
       else emptyOrderListParams;
     v_cancelRetryParams := ALGO_ORDER_RETRY_PARAMS;
     v_clientOrderIdParam := fun marketType =>
       if bool_decide (marketType = Spot) then NewClientOrderIdField else ClientOrderIdField;
     v_supportsNativeOrderList := fun marketType => bool_decide (marketType = Spot);
     v_validateClientOrderId := Some validateBinanceClientOrderId;
     v_wireMapping := binanceWireMapping;
     v_futuresNativeIdAmbiguous := fun orderType =>
       negb (bool_decide (orderType = Some Market)) && negb (bool_decide (orderType = Some Limit));
     v_clientIdLookupNotes := fun marketFamily =>
       if bool_decide (marketFamily = FuturesFamily)
       then ["Ordinary orders use origClientOrderId; conditional/trailing Algo orders use clientAlgoId";
             "Offline Algo lookup contracts cover correlated parent orders, not terminal child fills; missing fill evidence must remain unresolved"]
       else [];
     v_closePositionQuantityConstraint := fun marketFamily type =>
       if bool_decide (marketFamily = FuturesFamily) && negb (bool_decide (type = Market))
       then BINANCE_CLOSE_ALL else CLOSE_USES_POSITION_SNAPSHOT;
     v_hedgeReductionConstraint := fun positionMode =>
       if bool_decide (positionMode = Some Hedge) then Some BINANCE_HEDGE_REDUCTION else None;
     v_trailingSpotConstraints :=
       ["Binance trailingPercent must convert to integer BIPS within the market TRAILING_DELTA filter"];
     v_orderTypeMetadataNames := fun marketFamily type =>
       if bool_decide (marketFamily = SpotFamily) && bool_decide (type = TrailingStopMarket)
       then ["trailing_stop_market"; "take_profit_market"] else [type_name type];
     v_unsupportedOcoSideReason := fun side =>
       if bool_decide (side = Buy) then Some BINANCE_OCO_BUY_UNSUPPORTED else None;
     v_quantityClosePositionNote := BINANCE_QUANTITY_CLOSE_NOTE |}%string.

(** ** OKX (venues/okx.ts) and the registry (venues/index.ts) *)

Definition OKX_CLOSED_EXTRAS : list value :=
  [VObj [("ordType", VStr "conditional"); ("trigger", VBool true)]; VObj [("trigger", VBool true)];
   VObj [("trailing", VBool true)]; VObj [("ordType", VStr "oco"); ("trigger", VBool true)]]%string.
Definition OKX_CANCELED_EXTRAS : list value :=
  [VObj [("ordType", VStr "conditional"); ("trigger", VBool true)];
   VObj [("ordType", VStr "trigger"); ("trigger", VBool true)];
   VObj [("trailing", VBool true)]; VObj [("ordType", VStr "oco"); ("trigger", VBool true)]]%string.

Definition OKX_LIVE_VENUE : LiveVenueProfile :=
  experimentalLiveVenue "okx" (Some PasswordRequired) None
    (Some (fun _ => {| ol_open := ALGO_ORDER_RETRY_PARAMS; ol_history := [];
                       ol_closed := OKX_CLOSED_EXTRAS; ol_canceled := OKX_CANCELED_EXTRAS |})).

Definition KNOWN_LIVE_VENUES : obj LiveVenueProfile :=
  [("binance", BINANCE_LIVE_VENUE); ("okx", OKX_LIVE_VENUE);
   ("bybit", experimentalLiveVenue "bybit" None None None)]%string.

(** The table is read by its own keys: an id that is also the name of a member of
    [Object.prototype] (such as [constructor]) is outside the model. *)
Definition resolveLiveVenue (id : string) : LiveVenueProfile :=
  default (experimentalLiveVenue id None None None) (o_get id KNOWN_LIVE_VENUES).

Definition liveCapabilityMatrixRows : list CapabilityProfile :=
  concat (map (fun venue =>
    map (fun row => {| cp_row := row; cp_mode := Live; cp_exchangeId := v_id venue |}) (v_liveCapabilities venue))
    (o_values KNOWN_LIVE_VENUES)).

(** [Some message] is the error thrown. *)
Definition validateLiveVenueCredentials (exchangeId : string) (credentials : ExchangeCredentials) : option string :=
  match missingApiKeyOrSecret exchangeId credentials with
  | Some missing => Some missing
  | None =>
      match v_password (resolveLiveVenue exchangeId) with
      | PasswordRequired =>
          if match cr_password credentials with Some p => blank p | None => true end
          then Some (String.append "Live mode requires a passphrase for "
                       (String quote_mark (String.append exchangeId (String quote_mark EmptyString))))
          else None
      | _ => None
      end
  end.
