(* ===== verification/Capabilities.v ===== *)
(** * Trading capabilities (packages/trading-engine/src/capabilities.ts)

    Which orders, lookups and settings an exchange is known to support: the profile
    matrix, the contracts of one market and the wire rules of one order. *)

From Stdlib Require Import ZArith Lia Bool Ascii Floats.
From stdpp Require Import base strings option list.
From S2P Require Import Prelude JsNumber JsObject JsDate JsValue JsText AccountRisk RiskState Json Execution Venues.

Local Open Scope Z_scope.
Local Open Scope bool_scope.

(** ** Markets (types.ts) *)

Inductive ContractType := SpotContract | PerpetualContract | DeliveryContract | UnknownContract.
Inductive MarketKind := SpotMarket | SwapMarket.
Inductive AmountUnit := BaseUnit | ContractUnit.

#[export] Instance MarketKind_eq_dec : EqDecision MarketKind.
Proof. solve_decision. Defined.
#[export] Instance AmountUnit_eq_dec : EqDecision AmountUnit.
Proof. solve_decision. Defined.

(** [{ min?: number; max?: number }] *)
Record Bounds := { b_min : option number; b_max : option number }.

Record MarketLimits := { ml_amount : option Bounds; ml_cost : option Bounds }.

Record MarketInfo := {
  mi_symbol : string;
  mi_base : string;
  mi_quote : string;
  mi_settle : option string;
  mi_marketType : MarketKind;
  mi_contract : bool;
  mi_contractType : option ContractType;
  mi_pair : option string;
  mi_marginAsset : option string;
  mi_status : option string;
  mi_onboardDate : option number;
  mi_deliveryDate : option number;
  mi_orderTypes : option (list string);
  mi_timeInForce : option (list string);
  mi_linear : option bool;
  mi_inverse : option bool;
  mi_active : option bool;
  mi_amountUnit : option AmountUnit;
  mi_contractSize : option number;
  mi_pricePrecision : option number;
  mi_amountPrecision : option number;
  mi_amountStep : option number;
  mi_minAmount : option number;
  mi_minNotional : option number;
  mi_limits : option MarketLimits
}.

(** ** Capabilities *)

Inductive CapabilityStatus := Supported | Unsupported | Unknown.
Inductive CapabilityEvidenceLevel := OfflineContract | Experimental | ExternallyVerified.

#[export] Instance CapabilityStatus_eq_dec : EqDecision CapabilityStatus.
Proof. solve_decision. Defined.
#[export] Instance CapabilityEvidenceLevel_eq_dec : EqDecision CapabilityEvidenceLevel.
Proof. solve_decision. Defined.

Record Capability := {
  c_status : CapabilityStatus;
  c_reason : string;
  c_level : CapabilityEvidenceLevel;
  c_references : list string;
  c_constraints : list string
}.

Definition capability (status : CapabilityStatus) (reason : string) (level : CapabilityEvidenceLevel)
    (references constraints : list string) : Capability :=
  {| c_status := status; c_reason := reason; c_level := level; c_references := references;
     c_constraints := constraints |}.

(** [{ ...c, constraints }], [{ ...c, constraints: [...c.constraints, ...extra] }] and
    [{ ...c, status: "unsupported", reason }] *)
Definition with_constraints (l : list string) (c : Capability) : Capability :=
  {| c_status := c_status c; c_reason := c_reason c; c_level := c_level c; c_references := c_references c;
     c_constraints := l |}.
Definition constrained (extra : list string) (c : Capability) : Capability :=
  with_constraints (app (c_constraints c) extra) c.
Definition refused (reason : string) (c : Capability) : Capability :=
  {| c_status := Unsupported; c_reason := reason; c_level := c_level c; c_references := c_references c;
     c_constraints := c_constraints c |}.

Record TradingCapabilityContext := {
  tc_exchangeId : string;
  tc_mode : TradingMode;
  tc_marketFamily : MarketFamily;
  tc_positionMode : option PositionMode;
  tc_marketInfo : option MarketInfo;
  tc_metadataValid : option bool;
  tc_orderType : option OrderType
}.

(** ** Order type names *)

Definition ORDER_TYPE_ALIASES : obj string :=
  [("STOP_LOSS_LIMIT", "stop"); ("STOP_LOSS", "stop_market"); ("TAKE_PROFIT_LIMIT", "take_profit");
   ("TAKE_PROFIT", "take_profit_market"); ("TRAILING", "trailing_stop_market");
   ("TRAILING_STOP", "trailing_stop_market")]%string.

(** [s.replaceAll("-", "_")] *)
Fixpoint dashes_to_underscores (s : string) : string :=
  match s with
  | EmptyString => EmptyString
  | String c r => String (if Ascii.eqb c "-"%char then "_"%char else c) (dashes_to_underscores r)
  end.

Definition isSwap (info : option MarketInfo) : bool :=
  match info with Some i => bool_decide (mi_marketType i = SwapMarket) | None => false end.

Section CaseMapping.
(** [String.prototype.toUpperCase] and [toLowerCase] over all of Unicode. *)
Variables toUpperCase toLowerCase : string -> string.

(** TAKE_PROFIT is a market trigger on Spot, but a limit trigger on USD-M. *)
Definition normalizedOrderType (info : MarketInfo) (type : string) : string :=
  let normalized := toUpperCase (dashes_to_underscores (trim type)) in
  if bool_decide (mi_marketType info = SwapMarket) && String.eqb normalized "TAKE_PROFIT" then "take_profit"%string
  else default (toLowerCase normalized) (o_get normalized ORDER_TYPE_ALIASES).

Definition normalizedOrderTypes (info : option MarketInfo) : option (list string) :=
  match info with
  | Some i => option_map (map (normalizedOrderType i)) (mi_orderTypes i)
  | None => None
  end.

Definition canonical_name (name : string) : string :=
  let normalized := dashes_to_underscores (toLowerCase (trim name)) in
  if String.eqb normalized "trailing" || String.eqb normalized "trailing_stop"
  then "trailing_stop_market"%string else normalized.

Definition orderTypeFromMarketInfo (info : option MarketInfo) (names : list string) : option CapabilityStatus :=
  match normalizedOrderTypes info with
  | None => None
  | Some types => Some (if existsb (fun name => str_in types (canonical_name name)) names
                        then Supported else Unsupported)
  end.

(** ** The profile matrix *)

Definition PAPER_LIMITATIONS : list string :=
  ["Paper fills do not model partial fills, order-book slippage or live execution quality";
   "Paper futures do not simulate funding payments or exchange-specific liquidation rules"]%string.

Definition PLACE_ORDER_TYPES : list OrderType :=
  [Market; Limit; Stop; StopMarket; TakeProfit; TakeProfitMarket; TrailingStopMarket].

Definition PAPER_CAPABILITY_MATRIX : list CapabilityProfile :=
  [{| cp_row := {| vl_id := "paper-spot"; vl_label := "Paper spot"; vl_marketFamily := SpotFamily;
                   vl_orderTypes := PLACE_ORDER_TYPES; vl_ocoSides := [Buy; Sell];
                   vl_limitations := PAPER_LIMITATIONS;
                   vl_references := ["src/capabilities.test.ts"; "src/paper-client.test.ts"] |};
      cp_mode := Paper; cp_exchangeId := "*" |};
   {| cp_row := {| vl_id := "paper-futures"; vl_label := "Paper futures"; vl_marketFamily := FuturesFamily;
                   vl_orderTypes := PLACE_ORDER_TYPES; vl_ocoSides := [];
                   vl_limitations := PAPER_LIMITATIONS;
                   vl_references := ["src/capabilities.test.ts"; "src/paper-client.test.ts"] |};
      cp_mode := Paper; cp_exchangeId := "*" |}]%string.

Definition TRADING_CAPABILITY_MATRIX : list CapabilityProfile := app PAPER_CAPABILITY_MATRIX liveCapabilityMatrixRows.

Definition invalidFamily : Capability :=
  capability Unsupported "The symbol is not enabled by the configured market type or quote currency" Experimental [] [].

Definition unavailableMarketCapability (family : MarketFamily) (metadataValid : bool) (marketInfo : option MarketInfo) :
    option Capability :=
  if bool_decide (family = InvalidFamily) then Some invalidFamily
  else match marketInfo with
       | Some i =>
           if bool_decide (mi_active i = Some false)
           then Some (capability Unsupported
                        (String.append "Market " (String.append (mi_symbol i) " is inactive")) Experimental [] [])
           else if negb metadataValid
           then Some (capability Unknown "Market metadata is unavailable or does not match the requested symbol"
                        Experimental [] [])
           else None
       | None =>
           if negb metadataValid
           then Some (capability Unknown "Market metadata is unavailable or does not match the requested symbol"
                        Experimental [] [])
           else None
       end.

Record QuantityContract := {
  q_inputUnit : AmountUnit;
  q_exchangeUnit : option AmountUnit;
  q_quoteAmount : string;
  q_futuresConversion : string;
  q_closePosition : string
}.

(** The tables over order types, sides and position modes are functions. *)
Record TradingCapabilities := {
  cap_profile : string;
  cap_orderTypes : OrderType -> Capability;
  cap_oco : OrderSide -> Capability;
  cap_queryOrderById : Capability;
  cap_queryOrderByClientId : Capability;
  cap_queryOrderListById : Capability;
  cap_queryOrderListByClientId : Capability;
  cap_cancelOrder : Capability;
  cap_cancelOrderList : Capability;
  cap_positionModes : PositionMode -> Capability;
  cap_reduceOnly : Capability;
  cap_closePosition : OrderType -> Capability;
  cap_quantity : QuantityContract;
  cap_fundingRates : Capability;
  cap_limitations : list string
}.

(** ** The contracts of one market *)

Section Context.
Variable context : TradingCapabilityContext.

Definition family : MarketFamily := tc_marketFamily context.
Definition is_family (f : MarketFamily) : bool := bool_decide (family = f).

Definition liveVenue : option LiveVenueProfile :=
  if bool_decide (tc_mode context = Live) then Some (resolveLiveVenue (tc_exchangeId context)) else None.

Definition row_matches (row : CapabilityProfile) : bool :=
  bool_decide (cp_mode row = tc_mode context) && bool_decide (vl_marketFamily (cp_row row) = family)
  && (String.eqb (cp_exchangeId row) "*" || String.eqb (cp_exchangeId row) (tc_exchangeId context)).

Definition profile : option VenueLiveCapability := option_map cp_row (find row_matches TRADING_CAPABILITY_MATRIX).

Definition constraints : list string :=
  match profile with
  | Some p => vl_limitations p
  | None => if bool_decide (tc_mode context = Paper) then PAPER_LIMITATIONS else LIVE_ADAPTER_LIMITATIONS
  end.

Definition contract (status : CapabilityStatus) (reason : list string) (extra : list string) : Capability :=
  capability status (String.concat "" reason)
    (match profile with Some _ => OfflineContract | None => Experimental end)
    (match profile with Some p => vl_references p | None => [] end) (app constraints extra).

Definition unavailable : option Capability :=
  unavailableMarketCapability family (negb (bool_decide (tc_metadataValid context = Some false)))
    (tc_marketInfo context).

Definition unresolvedFamily : option Capability :=
  if is_family MixedFamily
  then Some (contract Unknown ["Specify a symbol to distinguish spot and futures support"] [])%string else None.

Definition blocked_market : option Capability :=
  match unavailable with Some c => Some c | None => unresolvedFamily end.

Definition experimental : Capability :=
  contract Unknown ["Live "; tc_exchangeId context; " "; family_name family;
    " remains experimental; market metadata alone does not prove adapter support"]%string [].

(** An early [return c] before the rest of a body. *)
Definition unlisted_type (type : OrderType) : option Capability :=
  match profile with
  | Some p =>
      if bool_decide (type ∈ vl_orderTypes p) then None
      else Some (contract Unsupported [vl_label p; " does not support "; type_name type; " orders"]%string [])
  | None => None
  end.

Definition metadata_refuses (names : list string) : bool :=
  bool_decide (orderTypeFromMarketInfo (tc_marketInfo context) names = Some Unsupported).

Definition submission (type : OrderType) : Capability :=
  if is_family InvalidFamily then default invalidFamily unavailable
  else default (
    let metadataTypes := match liveVenue with
                         | Some v => v_orderTypeMetadataNames v family type
                         | None => [type_name type]
                         end in
    if metadata_refuses metadataTypes
    then contract Unsupported ["The exchange market metadata does not support "; type_name type; " orders"]%string []
    else match profile with
    | Some p =>
        contract Supported [vl_label p; " "; type_name type; " submission has offline adapter contract coverage"]%string
          (app (if bool_decide (type = TrailingStopMarket) && bool_decide (tc_mode context = Paper)
                then ["Paper trailing stops accept trailingPercent only, not activation stopPrice"]%string else [])
               (if bool_decide (type = TrailingStopMarket) && is_family SpotFamily
                then match liveVenue with Some v => v_trailingSpotConstraints v | None => [] end else []))
    | None => experimental
    end)
    (match unlisted_type type with Some c => Some c | None => blocked_market end).

Definition unlisted_side (side : OrderSide) : option Capability :=
  match profile with
  | Some p =>
      if bool_decide (side ∈ vl_ocoSides p) then None
      else Some (contract Unsupported
             [default (String.concat "" ["OCO "; side_name side; " orders are not supported"])
                (match liveVenue with Some v => v_unsupportedOcoSideReason v side | None => None end)]%string [])
  | None => None
  end.

Definition oco (side : OrderSide) : Capability :=
  if is_family InvalidFamily then default invalidFamily unavailable
  else if is_family FuturesFamily
  then contract Unsupported ["OCO orders are supported only for spot markets"]%string []
  else default (
    match profile with
    | None =>
        if metadata_refuses ["oco"]%string
        then contract Unsupported ["The exchange market metadata does not support OCO orders"]%string []
        else experimental
    | Some p => contract Supported [vl_label p; " "; side_name side; " OCO has offline contract coverage"]%string []
    end)
    (match unlisted_side side with Some c => Some c | None => blocked_market end).

Definition native_list_missing : bool :=
  match liveVenue with Some v => negb (v_supportsNativeOrderList v Spot) | None => false end.

Definition readContract (isList : bool) (operation : string) : Capability :=
  if is_family InvalidFamily then default invalidFamily unavailable
  else default (
    if isList && is_family FuturesFamily
    then contract Unsupported ["Futures order-list "; operation; " is not implemented"]%string []
    else if isList && native_list_missing
    then contract Unsupported
           ["Live "; tc_exchangeId context; " order-list "; operation; " is not implemented"]%string []
    else match profile with
    | Some p =>
        contract Supported [vl_label p; " "; operation; " has offline correlated adapter contract coverage"]%string
          ["Only the persisted native/client ID and original symbol/account scope establish identity";
           "Not-found, missing, conflicting or incomplete evidence never proves a submission was rejected"]%string
    | None => experimental
    end) unresolvedFamily.

Definition positionControls : Capability :=
  if is_family SpotFamily
  then contract Unsupported ["reduceOnly, positionSide and closePosition are futures-only parameters"]%string []
  else default (match profile with
    | Some p => contract Supported [vl_label p; " validates matching position reductions"]%string []
    | None => experimental
    end) blocked_market.

Definition hedgeReductionConstraints : list string :=
  match liveVenue with
  | Some v => match v_hedgeReductionConstraint v (tc_positionMode context) with Some c => [c] | None => [] end
  | None => []
  end.

Definition closes_position (type : OrderType) : bool :=
  bool_decide (type ∈ [Market; StopMarket; TakeProfitMarket]).

Definition closePosition (type : OrderType) : Capability :=
  if negb (closes_position type)
  then contract Unsupported
         ["closePosition is supported only for market, stop_market or take_profit_market orders"]%string []
  else
    let order := submission type in
    let result := if bool_decide (c_status positionControls = Unsupported) || bool_decide (c_status order = Supported)
                  then positionControls else order in
    constrained ["closePosition omits user amount/quoteAmount and requires a matching open position"%string;
                 match liveVenue with
                 | Some v => v_closePositionQuantityConstraint v family type
                 | None => CLOSE_USES_POSITION_SNAPSHOT
                 end] result.

Definition ambiguousFuturesNativeId : bool :=
  is_family FuturesFamily
  && match liveVenue with Some v => v_futuresNativeIdAmbiguous v (tc_orderType context) | None => false end.

Definition nativeIdCapability (operation : string) : Capability :=
  if ambiguousFuturesNativeId
  then capability Unknown
         (String.concat "" [tc_exchangeId context; " futures "; operation;
            " by native ID cannot distinguish overlapping ordinary/Algo ID spaces without order-type routing"]%string)
         Experimental ["src/ccxt-client.ts"]%string
         ["Use correlated client-ID lookup for recovery; conditional native-ID cancellation is not proven"]%string
  else readContract false operation.

Definition getTradingCapabilities : TradingCapabilities :=
  {| cap_profile := match profile with Some p => vl_id p | None => "experimental" end;
     cap_orderTypes := submission;
     cap_oco := oco;
     cap_queryOrderById := nativeIdCapability "native order-ID lookup";
     cap_queryOrderByClientId :=
       constrained (match liveVenue with Some v => v_clientIdLookupNotes v family | None => [] end)
         (readContract false "client order-ID lookup");
     cap_queryOrderListById := readContract true "native list-ID lookup";
     cap_queryOrderListByClientId := readContract true "client list-ID lookup";
     cap_cancelOrder :=
       with_constraints (app constraints
         ["Cancellation applies only to an open order; an already filled order cannot be recalled"])
         (nativeIdCapability "cancellation");
     cap_cancelOrderList := readContract true "cancellation";
     cap_positionModes := fun mode => match mode with
       | OneWay => constrained ["positionSide must be BOTH or omitted"] positionControls
       | Hedge => constrained
           ["positionSide LONG or SHORT is required; reductions use the opposing order side"] positionControls
       end;
     cap_reduceOnly :=
       constrained ("Reduction amount cannot exceed the matching open position" :: hedgeReductionConstraints)
         positionControls;
     cap_closePosition := closePosition;
     cap_quantity :=
       {| q_inputUnit := BaseUnit;
          q_exchangeUnit := if is_family FuturesFamily then Some ContractUnit
                            else if is_family SpotFamily then Some BaseUnit else None;
          q_quoteAmount := "reference_price_conversion_not_fixed_spend";
          q_futuresConversion := "base_amount_divided_by_confirmed_contract_size";
          q_closePosition := match liveVenue with
            | Some v => v_quantityClosePositionNote v
            | None => "matching_position_snapshot; native trigger closes may omit wire quantity" end |};
     cap_fundingRates :=
       if is_family SpotFamily then contract Unsupported ["Funding rates are unavailable for spot markets"] []
       else default (if bool_decide (tc_mode context = Paper)
         then contract Unknown ["Paper futures do not simulate funding; no market rate is observed"] []
         else contract Unknown ["Live funding availability requires an exchange observation"] []) blocked_market;
     cap_limitations := constraints |}%string.

(** ** One order *)

Record OrderCapability := {
  oc_capability : Capability;
  oc_omitExchangeQuantity : bool;
  oc_omitReduceOnly : bool;
  oc_constraints : list string
}.

Definition unless (c : bool) (reason : string) (r : Capability) : Capability := if c then refused reason r else r.

(** [!input.positionSide || input.positionSide === "BOTH"] *)
Definition both_sides (side : option PositionSide) : bool :=
  match side with None | Some BothSides => true | _ => false end.

(** [o !== undefined] *)
Definition present {A} (o : option A) : bool := match o with Some _ => true | None => false end.

(** [flag] read as a condition *)
Definition truthy (b : option bool) : bool := default false b.

Definition wrong_reduction (input : PlaceOrderInput) : bool :=
  (truthy (in_reduceOnly input) || truthy (in_closePosition input))
  && ((bool_decide (in_positionSide input = Some LongSide) && negb (bool_decide (in_side input = Sell)))
      || (bool_decide (in_positionSide input = Some ShortSide) && negb (bool_decide (in_side input = Buy)))).

Definition evaluateOrderCapability (input : PlaceOrderInput) : OrderCapability :=
  let matrix := getTradingCapabilities in
  let futures := is_family FuturesFamily in
  let hedge := futures && bool_decide (tc_positionMode context = Some Hedge) in
  let result := cap_orderTypes matrix (in_type input) in
  let result := unless (negb futures && (present (in_reduceOnly input) || present (in_closePosition input)
                          || present (in_positionSide input)))
      "reduceOnly, positionSide and closePosition are futures-only parameters" result in
  let result := unless (truthy (in_closePosition input)
                        && bool_decide (c_status (cap_closePosition matrix (in_type input)) = Unsupported))
      (c_reason (cap_closePosition matrix (in_type input))) result in
  let result := unless (truthy (in_closePosition input) && bool_decide (in_reduceOnly input = Some false))
      "closePosition is always reduceOnly" result in
  let result := unless (hedge && both_sides (in_positionSide input))
      "Hedge mode futures orders require positionSide LONG or SHORT" result in
  let result := unless (hedge && wrong_reduction input)
      (String.concat "" ["Hedge mode "; if truthy (in_reduceOnly input) then "reduceOnly" else "closePosition";
         " orders must use the opposing side for positionSide ";
         match in_positionSide input with Some s => position_side_name s | None => "undefined" end]) result in
  let result := unless (futures && bool_decide (tc_positionMode context = Some OneWay)
                        && negb (both_sides (in_positionSide input)))
      "One-way mode futures orders must use positionSide BOTH or omit it" result in
  let mapping := match liveVenue with
    | Some v => v_wireMapping v (venueWireContextFromOrder family (tc_positionMode context)
                  (in_type input) (in_reduceOnly input) (in_closePosition input))
    | None => defaultWireMapping
    end in
  {| oc_capability := result;
     oc_omitExchangeQuantity := wm_omitExchangeQuantity mapping;
     oc_omitReduceOnly := wm_omitReduceOnly mapping;
     oc_constraints := wm_constraints mapping |}%string.

End Context.
End CaseMapping.

Definition supportsCorrelatedLookup (value : Capability) : bool :=
  bool_decide (c_status value = Supported) && negb (bool_decide (c_level value = Experimental))
  && (0 <? length (c_references value))%nat.

(** ** What is supported *)

Section Support.
Variables toUpperCase toLowerCase : string -> string.
Implicit Types (context : TradingCapabilityContext) (input : PlaceOrderInput).

(** The markets an adapter contract covers. *)
Definition covered context : Prop :=
  (tc_marketFamily context = SpotFamily \/ tc_marketFamily context = FuturesFamily)
  /\ (tc_mode context = Paper \/ tc_exchangeId context = "binance"%string).

(** The market of the context can be traded, as far as its metadata tell. *)
Definition tradable context : Prop :=
  tc_metadataValid context <> Some false
  /\ forall info, tc_marketInfo context = Some info -> mi_active info <> Some false.

(** The names under which the venue may publish an order type. *)
Definition published_names context (type : OrderType) : list string :=
  match liveVenue context with
  | Some v => v_orderTypeMetadataNames v (tc_marketFamily context) type
  | None => [type_name type]
  end.

Lemma profile_covered context :
  match profile context with
  | Some p => covered context /\ vl_orderTypes p = PLACE_ORDER_TYPES /\ vl_references p <> []
  | None => ~ covered context
  end.
Proof.
  unfold profile, covered, row_matches, family, TRADING_CAPABILITY_MATRIX, PAPER_CAPABILITY_MATRIX,
    liveCapabilityMatrixRows.
  destruct context as [e m f ? ? ? ?].
  destruct m, f; cbn -[String.eqb]; rewrite ?String.eqb_refl; cbn -[String.eqb];
    rewrite ?(eq_refl : String.eqb "binance" "*" = false); cbn -[String.eqb];
    try (split; [auto | done]); try (intros [[?|?] _]; congruence).
  all: destruct (String.eqb_spec "binance" e) as [<-|Hne];
    [split; [auto|done] | intros [_ [?|?]]; congruence].
Qed.

Lemma unavailable_None context :
  tc_marketFamily context <> InvalidFamily -> unavailable context = None <-> tradable context.
Proof.
  intros Hf. unfold unavailable, unavailableMarketCapability, family, tradable.
  rewrite bool_decide_false by done.
  destruct (tc_marketInfo context) as [i|]; repeat case_bool_decide; cbn; split; try done.
  all: try (intros [? Hi]; naive_solver).
  all: intros _; split; [done|]; intros ? [= <-]; done.
Qed.

Lemma covered_family context : covered context -> tc_marketFamily context <> InvalidFamily /\ tc_marketFamily context <> MixedFamily.
Proof. intros [[->| ->] _]; done. Qed.

Lemma unresolved_covered context : covered context -> unresolvedFamily context = None.
Proof.
  intros [? ?]%covered_family. unfold unresolvedFamily, is_family, family. by rewrite bool_decide_false.
Qed.

Lemma blocked_status context c : blocked_market context = Some c -> c_status c <> Supported.
Proof.
  unfold blocked_market, unavailable, unavailableMarketCapability, unresolvedFamily, is_family.
  destruct (tc_marketInfo context) as [i|]; repeat case_bool_decide; cbn; intros ?; by simplify_eq.
Qed.

Lemma blocked_None context : covered context -> blocked_market context = None <-> tradable context.
Proof.
  intros Hc. rewrite <- unavailable_None by (by apply covered_family).
  unfold blocked_market. rewrite unresolved_covered by done. by destruct (unavailable context).
Qed.

Lemma experimental_status context : c_status (experimental context) <> Supported.
Proof. done. Qed.

(** An order type is supported exactly on a covered, tradable market whose metadata,
    where it lists order types, lists it. *)
Lemma submission_supported context type :
  c_status (submission toUpperCase toLowerCase context type) = Supported <->
  covered context /\ tradable context /\ type ∈ PLACE_ORDER_TYPES
  /\ metadata_refuses toUpperCase toLowerCase context (published_names context type) = false.
Proof.
  unfold submission, is_family, unlisted_type, published_names. fold (family context).
  pose proof (profile_covered context) as Hp.
  destruct (bool_decide_reflect (family context = InvalidFamily)) as [Hf|Hf].
  { unfold unavailable, unavailableMarketCapability. rewrite bool_decide_true by done.
    split; [done|]. intros [Hc _]. by apply covered_family in Hc as [? _]. }
  destruct (profile context) as [p|].
  - destruct Hp as (Hc & -> & _). rewrite <- blocked_None by done.
    destruct (bool_decide_reflect (type ∈ PLACE_ORDER_TYPES)) as [Hm|Hm];
      [|split; [done | by intros (_ & _ & ? & _)]].
    destruct (blocked_market context) as [c|] eqn:Eb.
    + split; [intros Hs | by intros (_ & [=] & _)]. by apply blocked_status in Eb.
    + cbn [default]. by destruct (metadata_refuses _ _ _ _); split; intuition.
  - split; [|by intros [? _]]. destruct (blocked_market context) as [c|] eqn:Eb; cbn [default].
    + by intros ?%(blocked_status context).
    + by destruct (metadata_refuses _ _ _ _).
Qed.

Lemma unless_supported c reason r : c_status (unless c reason r) = Supported <-> c = false /\ c_status r = Supported.
Proof. by destruct c; split; [|intros [? _]|intros|intros [_ ?]]. Qed.

Lemma positionControls_covered context :
  covered context -> tradable context ->
  c_status (positionControls context) = if bool_decide (tc_marketFamily context = SpotFamily) then Unsupported else Supported.
Proof.
  intros Hc Ht. unfold positionControls, is_family, family. rewrite (proj2 (blocked_None _ Hc) Ht).
  pose proof (profile_covered context) as Hp. by case_bool_decide; destruct (profile context).
Qed.

(** Closing the whole position fails exactly for the other order types. *)
Lemma closePosition_unsupported context type :
  tc_marketFamily context = FuturesFamily ->
  c_status (submission toUpperCase toLowerCase context type) = Supported ->
  c_status (closePosition toUpperCase toLowerCase context type) = Unsupported <-> closes_position type = false.
Proof.
  intros Hf Hs. pose proof Hs as (Hc & Ht & _)%submission_supported. unfold closePosition.
  destruct (closes_position type); cbn -[submission positionControls]; [|done].
  rewrite Hs, positionControls_covered, Hf by done. rewrite (bool_decide_true (Supported = Supported)) by done.
  by rewrite orb_true_r, positionControls_covered, Hf by done.
Qed.

(** An order in hedge mode names its side, and reduces it with the opposing one. *)
Definition hedged input : Prop :=
  let reducing := in_reduceOnly input = Some true \/ in_closePosition input = Some true in
  match in_positionSide input with
  | Some LongSide => reducing -> in_side input = Sell
  | Some ShortSide => reducing -> in_side input = Buy
  | _ => False
  end.

(** The parameters a market of the context accepts with an order. *)
Definition parameters_ok context input : Prop :=
  (tc_marketFamily context = SpotFamily ->
     in_reduceOnly input = None /\ in_closePosition input = None /\ in_positionSide input = None)
  /\ (in_closePosition input = Some true ->
     closes_position (in_type input) = true /\ in_reduceOnly input <> Some false)
  /\ (tc_marketFamily context = FuturesFamily -> tc_positionMode context = Some Hedge ->
     hedged input)
  /\ (tc_marketFamily context = FuturesFamily -> tc_positionMode context = Some OneWay ->
     in_positionSide input = None \/ in_positionSide input = Some BothSides).

(** Hedge and one-way rules, as the code tests them. *)
Definition side_refused context input : bool :=
  let hedge := bool_decide (tc_positionMode context = Some Hedge) in
  (hedge && both_sides (in_positionSide input)) || (hedge && wrong_reduction input)
  || (bool_decide (tc_positionMode context = Some OneWay) && negb (both_sides (in_positionSide input))).

Lemma wrong_reduction_iff input side :
  in_positionSide input = Some side -> side <> BothSides -> wrong_reduction input = false <-> hedged input.
Proof.
  unfold wrong_reduction, hedged, truthy. intros -> Hs.
  destruct (in_reduceOnly input) as [[]|], (in_closePosition input) as [[]|], (in_side input), side;
    cbn; split; intros Hr; try done; try (by intros [[=]|[=]]);
    solve [discriminate (Hr (or_introl eq_refl)) | discriminate (Hr (or_intror eq_refl))].
Qed.

Lemma side_refused_iff context input :
  side_refused context input = false <->
  (tc_positionMode context = Some Hedge -> hedged input)
  /\ (tc_positionMode context = Some OneWay ->
      in_positionSide input = None \/ in_positionSide input = Some BothSides).
Proof.
  unfold side_refused.
  destruct (tc_positionMode context) as [[]|]; cbn; [| |intuition congruence].
  - destruct (in_positionSide input) as [[]|]; cbn; naive_solver.
  - rewrite orb_false_r. destruct (in_positionSide input) as [side|] eqn:E.
    + destruct (decide (side = BothSides)) as [->|Hs].
      * cbn. unfold hedged. rewrite E. naive_solver.
      * rewrite <- (wrong_reduction_iff _ _ E Hs). destruct side; cbn; naive_solver.
    + cbn. unfold hedged. rewrite E. naive_solver.
Qed.

Lemma futures_only context input :
  negb (is_family context FuturesFamily)
  && (present (in_reduceOnly input) || present (in_closePosition input) || present (in_positionSide input)) = false <->
  (tc_marketFamily context <> FuturesFamily ->
   in_reduceOnly input = None /\ in_closePosition input = None /\ in_positionSide input = None).
Proof.
  unfold is_family, family. case_bool_decide; cbn; [intuition|].
  destruct (in_reduceOnly input), (in_closePosition input), (in_positionSide input); cbn; intuition congruence.
Qed.

Lemma parameters_spot context input :
  tc_marketFamily context = SpotFamily ->
  parameters_ok context input <->
  in_reduceOnly input = None /\ in_closePosition input = None /\ in_positionSide input = None.
Proof.
  intros Hf. unfold parameters_ok. rewrite Hf. split; [by intros [H _]; apply H|].
  intros (-> & -> & ->). repeat split; try done; by intros.
Qed.

Lemma parameters_futures context input :
  tc_marketFamily context = FuturesFamily ->
  parameters_ok context input <->
  (in_closePosition input = Some true -> closes_position (in_type input) = true /\ in_reduceOnly input <> Some false)
  /\ side_refused context input = false.
Proof.
  intros Hf. rewrite side_refused_iff. unfold parameters_ok. rewrite Hf.
  split; [intros (_ & ? & ? & ?); split; auto | intros (? & ? & ?); split; [done|auto]].
Qed.

Lemma close_conditions context input :
  tc_marketFamily context = FuturesFamily ->
  c_status (submission toUpperCase toLowerCase context (in_type input)) = Supported ->
  (truthy (in_closePosition input)
    && bool_decide (c_status (closePosition toUpperCase toLowerCase context (in_type input)) = Unsupported)) = false
  /\ (truthy (in_closePosition input) && bool_decide (in_reduceOnly input = Some false)) = false <->
  (in_closePosition input = Some true -> closes_position (in_type input) = true /\ in_reduceOnly input <> Some false).
Proof.
  intros Hf Hs. pose proof (closePosition_unsupported _ _ Hf Hs) as Hc.
  destruct (in_closePosition input) as [[]|]; cbn -[closePosition]; [|by split..].
  rewrite !bool_decide_eq_false, Hc, not_false_iff_true. by split; [intros [? ?] _ | intros H; apply H].
Qed.

(** An order is found supported exactly when an adapter contract covers the
    venue, mode and market family, the market can be traded, the order type is one
    the contract and the published metadata list, and the futures parameters are
    consistent with the market family and the position mode; nothing else is ever
    reported as supported. *)
Theorem order_supported_iff context input :
  c_status (oc_capability (evaluateOrderCapability toUpperCase toLowerCase context input)) = Supported <->
  covered context /\ tradable context /\ in_type input ∈ PLACE_ORDER_TYPES
  /\ metadata_refuses toUpperCase toLowerCase context (published_names context (in_type input)) = false
  /\ parameters_ok context input.
Proof.
  unfold evaluateOrderCapability. cbn [oc_capability cap_orderTypes cap_closePosition getTradingCapabilities].
  rewrite !unless_supported, futures_only.
  transitivity (c_status (submission toUpperCase toLowerCase context (in_type input)) = Supported
                /\ parameters_ok context input); [|by rewrite submission_supported; tauto].
  split.
  - intros (H6 & H5 & H4 & H3 & H2 & H1 & Hs). split; [done|].
    pose proof Hs as ([[Hf|Hf] _] & _)%submission_supported.
    + apply parameters_spot, H1; [done|]. by rewrite Hf.
    + apply parameters_futures; [done|]. split; [by apply (close_conditions _ _ Hf Hs)|].
      unfold is_family, family in *. rewrite Hf in *. by apply orb_false_iff; split; [apply orb_false_iff|].
  - intros [Hs Hp]. pose proof Hs as ([[Hf|Hf] _] & _)%submission_supported.
    + apply (parameters_spot _ _ Hf) in Hp as (-> & -> & ->). unfold is_family, family. rewrite Hf. cbn. done.
    + apply (parameters_futures _ _ Hf) in Hp as [Hc Hside]. apply (close_conditions _ _ Hf Hs) in Hc as [? ?].
      unfold side_refused in Hside. apply orb_false_iff in Hside as [[? ?]%orb_false_iff ?].
      unfold is_family, family. rewrite Hf. by repeat (split; [done|]).
Qed.

(** Correlated lookups depend on the adapter contract alone, never on present metadata. *)
Lemma contract_correlated context p reason extra :
  profile context = Some p -> supportsCorrelatedLookup (contract context Supported reason extra) = true.
Proof.
  intros Hp. pose proof (profile_covered context) as H. rewrite Hp in H. destruct H as (_ & _ & Hr).
  unfold supportsCorrelatedLookup, contract. cbn. rewrite Hp. by destruct (vl_references p).
Qed.

Lemma correlated_supported c : supportsCorrelatedLookup c = true -> c_status c = Supported.
Proof. unfold supportsCorrelatedLookup. intros [[H _]%andb_true_iff _]%andb_true_iff. by apply bool_decide_eq_true in H. Qed.

Lemma readContract_covered context operation :
  supportsCorrelatedLookup (readContract context false operation) = true <-> covered context.
Proof.
  pose proof (profile_covered context) as Hp. unfold readContract. cbn [andb].
  split.
  - intros H%correlated_supported. destruct (profile context) as [p|] eqn:E; [by destruct Hp|].
    unfold is_family, unavailable, unavailableMarketCapability, unresolvedFamily, is_family in H.
    by repeat case_bool_decide.
  - intros Hc. pose proof (covered_family _ Hc) as [Hi _]. unfold is_family. rewrite bool_decide_false by done.
    rewrite (unresolved_covered _ Hc). cbn [default].
    destruct (profile context) as [p|] eqn:E; [by eapply contract_correlated|done].
Qed.

Lemma order_lookup_covered context :
  supportsCorrelatedLookup (cap_queryOrderByClientId (getTradingCapabilities toUpperCase toLowerCase context)) = true
  <-> covered context.
Proof. apply (readContract_covered context "client order-ID lookup"). Qed.

Lemma list_lookup_covered context :
  supportsCorrelatedLookup (cap_queryOrderListByClientId (getTradingCapabilities toUpperCase toLowerCase context)) = true
  <-> covered context /\ tc_marketFamily context = SpotFamily.
Proof.
  cbn [cap_queryOrderListByClientId getTradingCapabilities].
  pose proof (profile_covered context) as Hp. unfold readContract. cbn [andb].
  split.
  - intros H%correlated_supported. destruct (profile context) as [p|] eqn:E.
    + destruct Hp as [Hc _]. split; [done|]. destruct Hc as [[?|Hf] _]; [done|]. unfold is_family, family in H. rewrite Hf in H. cbn in H.
      unfold unresolvedFamily, is_family, family in H. by rewrite Hf in H.
    + unfold is_family, unavailable, unavailableMarketCapability, unresolvedFamily, is_family in H.
      repeat case_bool_decide; try done. by destruct (native_list_missing context).
  - intros [Hc Hf]. unfold is_family, family. rewrite Hf, (unresolved_covered _ Hc). cbn.
    assert (native_list_missing context = false) as ->.
    { destruct Hc as [_ [Hm|He]]; unfold native_list_missing, liveVenue; [by rewrite Hm|].
      rewrite He. by case_bool_decide. }
    destruct (profile context) as [p|] eqn:E; [by eapply contract_correlated|done].
Qed.
End Support.
