(* ===== verification/SpotFilters.v ===== *)
(** * Symbol filters of Binance Spot (packages/trading-engine/src/binance-spot-filters.ts)

    The decimals of amounts, prices and filters are compared exactly, as big integers
    with a scale.  The file proves that the filters decide what the exchange documents
    of the rational numbers these texts denote. *)

From Stdlib Require Import ZArith Lia Bool Ascii Floats QArith Qround.
From stdpp Require Import base strings option list.
From S2P Require Import Prelude JsNumber JsObject JsValue JsText.

Local Open Scope Z_scope.

Record Decimal := { d_value : Z; d_scale : Z }.

(** A filter is an object of unknown fields. *)
Abbreviation Filter := value.

Record BinanceSpotPriceInput := { bp_label : string; bp_value : number; bp_notionalReference : option bool }.

Inductive AmountKind := MarketAmount | LotAmount.

Record FilterOptions := { fo_marketOrder : option bool; fo_marketReference : option number }.

(** What the thrown error says; the values it prints are not kept. *)
Inductive FilterError :=
  | AmountNotPositive
  | NotPositive (label : string)
  | BelowMinimum (label : string)
  | AboveMaximum (label : string)
  | OffGrid (label : string)
  | NotionalBelow
  | NotionalAbove.

(** ** Decimals *)

Definition decimal_of_text (text : string) : option Decimal :=
  let (neg, r) := read_sign text in
  l ← read_literal r;
  let scale := - literal_scale l in
  let v := literal_digits l * (if scale <? 0 then 10 ^ (- scale) else 1) in
  Some {| d_value := if neg then - v else v; d_scale := Z.max 0 scale |}.

Definition decimal (v : value) : option Decimal :=
  match v with
  | VNum n => decimal_of_text (numberToString n)
  | VStr s => decimal_of_text s
  | _ => None
  end.

Definition compare (left right : Decimal) : Z :=
  let scale := Z.max (d_scale left) (d_scale right) in
  let a := d_value left * 10 ^ (scale - d_scale left) in
  let b := d_value right * 10 ^ (scale - d_scale right) in
  if a <? b then -1 else if b <? a then 1 else 0.

Definition positive (o : option Decimal) : option Decimal :=
  d ← o; if 0 <? d_value d then Some d else None.

Definition positiveFilter (filter : Filter) (key : string) : option Decimal := positive (decimal (prop key filter)).

Definition filtersFromInfo (info : value) : list Filter :=
  match prop "filters" info with VArr l => List.filter isObject l | _ => [] end.

(** ** Checks *)

Definition validateRange (v : Decimal) (filter : Filter) (minKey maxKey label : string) : result FilterError unit :=
  _ ← throwIf (match positiveFilter filter minKey with Some min => compare v min <? 0 | None => false end)
        (BelowMinimum label);
  throwIf (match positiveFilter filter maxKey with Some max => 0 <? compare v max | None => false end)
    (AboveMaximum label).

Definition validateGrid (v step : Decimal) (label : string) : result FilterError unit :=
  let scale := Z.max (d_scale v) (d_scale step) in
  let a := d_value v * 10 ^ (scale - d_scale v) in
  let b := d_value step * 10 ^ (scale - d_scale step) in
  throwIf ((0 <? b) && negb (Z.rem a b =? 0)) (OffGrid label).

Definition check_grid (v : Decimal) (filter : Filter) (stepKey label : string) : result FilterError unit :=
  match positiveFilter filter stepKey with Some step => validateGrid v step label | None => mret tt end.

(** [for (const x of l) body(x)] *)
Definition for_each {A E} (body : A -> result E unit) (l : list A) : result E unit := foldM (fun _ x => body x) tt l.

Definition find_filter (type : string) (filters : list Filter) : option Filter :=
  find (fun filter => isLit type (prop "filterType" filter)) filters.

Definition is_notional (filter : Filter) : bool :=
  isLit "NOTIONAL" (prop "filterType" filter) || isLit "MIN_NOTIONAL" (prop "filterType" filter).

Definition is_true (v : value) : bool := match v with VBool b => b | _ => false end.

Definition times (a b : Decimal) : Decimal :=
  {| d_value := d_value a * d_value b; d_scale := d_scale a + d_scale b |}.

Record PricedLabel := { pl_label : string; pl_reference : bool; pl_parsed : Decimal }.

Definition parse_price (price : BinanceSpotPriceInput) : result FilterError PricedLabel :=
  match positive (decimal (VNum (bp_value price))) with
  | Some parsed => Ok {| pl_label := bp_label price; pl_reference := default false (bp_notionalReference price);
                         pl_parsed := parsed |}
  | None => Throw (NotPositive (bp_label price))
  end.

Fixpoint parse_prices (prices : list BinanceSpotPriceInput) : result FilterError (list PricedLabel) :=
  match prices with
  | [] => Ok []
  | p :: rest => x ← parse_price p; xs ← parse_prices rest; Ok (x :: xs)
  end.

Definition check_price (priceFilter : Filter) (price : PricedLabel) : result FilterError unit :=
  _ ← validateRange (pl_parsed price) priceFilter "minPrice" "maxPrice" (pl_label price);
  check_grid (pl_parsed price) priceFilter "tickSize" (pl_label price).

Definition minimum_applies (filter : Filter) : bool :=
  if isLit "MIN_NOTIONAL" (prop "filterType" filter) then is_true (prop "applyToMarket" filter)
  else is_true (prop "applyMinToMarket" filter).

Definition maximum_applies (filter : Filter) : bool :=
  isLit "NOTIONAL" (prop "filterType" filter) && is_true (prop "applyMaxToMarket" filter).

Definition check_notional (marketOrder : bool) (amount : Decimal) (price : Decimal) (filter : Filter) :
    result FilterError unit :=
  let product := times amount price in
  if marketOrder then
    if negb (minimum_applies filter) && negb (maximum_applies filter) then mret tt else
    _ ← throwIf (minimum_applies filter
                 && match positiveFilter filter "minNotional" with Some min => compare product min <? 0 | None => false end)
          NotionalBelow;
    throwIf (maximum_applies filter
             && match positiveFilter filter "maxNotional" with Some max => 0 <? compare product max | None => false end)
      NotionalAbove
  else validateRange product filter "minNotional" "maxNotional" "Order notional".

Definition amount_filter (kind : AmountKind) : string :=
  match kind with MarketAmount => "MARKET_LOT_SIZE" | LotAmount => "LOT_SIZE" end.

Definition market_reference (options : FilterOptions) : list Decimal :=
  match default false (fo_marketOrder options), fo_marketReference options with
  | true, Some reference => option_list (positive (decimal (VNum reference)))
  | _, _ => []
  end.

Definition validateBinanceSpotFilters (info : value) (amount : number) (amountKind : AmountKind)
    (prices : list BinanceSpotPriceInput) (options : FilterOptions) : result FilterError unit :=
  match positive (decimal (VNum amount)) with
  | None => Throw AmountNotPositive
  | Some amountDecimal =>
      let filters := filtersFromInfo info in
      _ ← match find_filter (amount_filter amountKind) filters with
          | Some filter =>
              _ ← validateRange amountDecimal filter "minQty" "maxQty" "Amount";
              check_grid amountDecimal filter "stepSize" "Amount"
          | None => mret tt
          end;
      parsedPrices ← parse_prices prices;
      _ ← match find_filter "PRICE_FILTER" filters with
          | Some priceFilter => for_each (check_price priceFilter) parsedPrices
          | None => mret tt
          end;
      let notionalFilters := List.filter is_notional filters in
      let notionalPrices := app (map pl_parsed (List.filter pl_reference parsedPrices)) (market_reference options) in
      for_each (fun price =>
        for_each (check_notional (default false (fo_marketOrder options)) amountDecimal price) notionalFilters)
        notionalPrices
  end.

(** ** The rational numbers the texts denote *)

Definition ratio_of (d : Decimal) : Q := Qmake (d_value d) (Z.to_pos (10 ^ d_scale d)).

Definition scale_ok (d : Decimal) : Prop := 0 <= d_scale d.

Lemma pow10_pos n : 0 < 10 ^ Z.max 0 n.
Proof. apply Z.pow_pos_nonneg; lia. Qed.

Lemma decimal_of_text_scale s d : decimal_of_text s = Some d -> scale_ok d.
Proof.
  unfold decimal_of_text, scale_ok. destruct (read_sign s) as [neg r]. destruct (read_literal r); [|done].
  intros [= <-]. cbn. lia.
Qed.

Lemma decimal_scale v d : decimal v = Some d -> scale_ok d.
Proof. destruct v; [done..| | |done|done]; apply decimal_of_text_scale. Qed.

Lemma positive_Some o d : positive o = Some d <-> o = Some d /\ 0 < d_value d.
Proof.
  destruct o as [x|]; cbn; [|by split; [|intros []]]. destruct (0 <? d_value x) eqn:E.
  - apply Z.ltb_lt in E. split; [by intros [= <-]|by intros [[= ->] _]].
  - apply Z.ltb_ge in E. split; [done|]. intros [[= ->] ?]. lia.
Qed.

Lemma positive_filter_scale filter key d : positiveFilter filter key = Some d -> scale_ok d /\ 0 < d_value d.
Proof. intros [H ?]%positive_Some. split; [by eapply decimal_scale|done]. Qed.

(** Both decimals on the common scale. *)
Lemma rescaled a b : scale_ok a -> scale_ok b ->
  let s := Z.max (d_scale a) (d_scale b) in
  10 ^ s = 10 ^ (s - d_scale a) * 10 ^ d_scale a /\ 10 ^ s = 10 ^ (s - d_scale b) * 10 ^ d_scale b
  /\ 0 < 10 ^ d_scale a /\ 0 < 10 ^ d_scale b /\ 0 < 10 ^ (s - d_scale a) /\ 0 < 10 ^ (s - d_scale b).
Proof.
  intros Ha Hb s. unfold scale_ok in *. rewrite <- !Z.pow_add_r by lia.
  repeat split; try (f_equal; lia); apply Z.pow_pos_nonneg; lia.
Qed.

Lemma ratio_le a b : scale_ok a -> scale_ok b ->
  (ratio_of a <= ratio_of b)%Q <-> d_value a * 10 ^ d_scale b <= d_value b * 10 ^ d_scale a.
Proof.
  intros Ha Hb. unfold Qle, ratio_of, scale_ok in *. cbn [Qnum Qden].
  by rewrite !Z2Pos.id by (apply Z.pow_pos_nonneg; lia).
Qed.

Lemma cross_lt a b x y p q : 0 < x -> 0 < y -> 0 < p -> 0 < q -> x * p = y * q -> a * x < b * y <-> a * q < b * p.
Proof.
  intros Hx Hy Hp Hq E.
  assert (a * x * (p * q) = (a * q) * (x * p)) as E1 by ring.
  assert (b * y * (p * q) = (b * p) * (x * p)) as E2 by (rewrite E; ring).
  assert (0 < p * q) by nia. assert (0 < x * p) by nia.
  split; intros Hlt.
  - apply (Zmult_gt_0_lt_reg_r _ _ (x * p)); [lia|]. rewrite <- E1, <- E2. by apply Z.mul_lt_mono_pos_r.
  - apply (Zmult_gt_0_lt_reg_r _ _ (p * q)); [lia|]. rewrite E1, E2. by apply Z.mul_lt_mono_pos_r.
Qed.

Lemma cross_eq a b x y p q : 0 < x -> 0 < y -> 0 < p -> 0 < q -> x * p = y * q -> a * x = b * y <-> a * q = b * p.
Proof.
  intros Hx Hy Hp Hq E. pose proof (cross_lt a b x y p q Hx Hy Hp Hq E).
  pose proof (cross_lt b a y x q p Hy Hx Hq Hp (eq_sym E)). lia.
Qed.

Lemma compare_spec a b : scale_ok a -> scale_ok b ->
  (compare a b <? 0) = false <-> (ratio_of b <= ratio_of a)%Q.
Proof.
  intros Ha Hb. rewrite ratio_le by done. destruct (rescaled a b Ha Hb) as (E1 & E2 & ? & ? & ? & ?).
  unfold compare. set (s := Z.max _ _) in *.
  pose proof (cross_lt (d_value a) (d_value b) (10 ^ (s - d_scale a)) (10 ^ (s - d_scale b)) (10 ^ d_scale a)
                (10 ^ d_scale b)) as Hc.
  destruct (d_value a * 10 ^ (s - _) <? _) eqn:E; [apply Z.ltb_lt in E|apply Z.ltb_ge in E; destruct (d_value b * _ <? _)].
  all: split; intros H'; try done; lia.
Qed.

Lemma compare_flip a b : (0 <? compare a b) = (compare b a <? 0).
Proof.
  unfold compare. rewrite (Z.max_comm (d_scale b)).
  destruct (Z.ltb_spec (d_value a * 10 ^ (Z.max (d_scale a) (d_scale b) - d_scale a))
              (d_value b * 10 ^ (Z.max (d_scale a) (d_scale b) - d_scale b))),
           (Z.ltb_spec (d_value b * 10 ^ (Z.max (d_scale a) (d_scale b) - d_scale b))
              (d_value a * 10 ^ (Z.max (d_scale a) (d_scale b) - d_scale a))); try done; lia.
Qed.

(** A value is a whole number of steps. *)
Definition multiple_of (step x : Q) : Prop := exists k : Z, (x == inject_Z k * step)%Q.

Lemma grid_spec v step : scale_ok v -> scale_ok step -> 0 < d_value step ->
  forall label, validateGrid v step label = Ok tt <-> multiple_of (ratio_of step) (ratio_of v).
Proof.
  intros Ha Hb Hs label. destruct (rescaled v step Ha Hb) as (E1 & E2 & ? & ? & ? & ?).
  unfold validateGrid, multiple_of. set (s := Z.max _ _) in *.
  rewrite (proj2 (Z.ltb_lt 0 (d_value step * _))) by nia. cbn [andb]. rewrite throwIf_Ok.
  rewrite negb_false_iff, Z.eqb_eq, Z.rem_divide by nia.
  unfold ratio_of, Qeq, scale_ok in *. cbn [Qnum Qden inject_Z Qmult].
  pose proof (fun k => cross_eq (d_value v) (k * d_value step) (10 ^ (s - d_scale v)) (10 ^ (s - d_scale step))
                (10 ^ d_scale v) (10 ^ d_scale step)) as Hc.
  split; intros [k Hk]; exists k; rewrite ?Pos.mul_1_l, ?Z2Pos.id in * by done.
  - apply Hc; (done || lia).
  - rewrite Z.mul_assoc. apply Hc; (done || lia).
Qed.

Lemma ratio_times a b : scale_ok a -> scale_ok b -> (ratio_of (times a b) == ratio_of a * ratio_of b)%Q.
Proof.
  intros Ha Hb. unfold ratio_of, Qeq, scale_ok in *. cbn.
  rewrite Pos2Z.inj_mul, Z.pow_add_r, !Z2Pos.id by (try apply Z.mul_pos_pos; try apply Z.pow_pos_nonneg; lia). lia.
Qed.

Lemma times_scale a b : scale_ok a -> scale_ok b -> scale_ok (times a b).
Proof. unfold scale_ok. cbn. lia. Qed.

(** ** What the filters ask for *)

(** A bound or step that is missing, unreadable or not positive asks for nothing. *)
Definition at_least (filter : Filter) (key : string) (x : Q) : Prop :=
  forall m, positiveFilter filter key = Some m -> (ratio_of m <= x)%Q.
Definition at_most (filter : Filter) (key : string) (x : Q) : Prop :=
  forall m, positiveFilter filter key = Some m -> (x <= ratio_of m)%Q.
Definition on_grid (filter : Filter) (key : string) (x : Q) : Prop :=
  forall m, positiveFilter filter key = Some m -> multiple_of (ratio_of m) x.

Definition amount_allowed (filter : Filter) (x : Q) : Prop :=
  at_least filter "minQty" x /\ at_most filter "maxQty" x /\ on_grid filter "stepSize" x.
Definition price_allowed (filter : Filter) (x : Q) : Prop :=
  at_least filter "minPrice" x /\ at_most filter "maxPrice" x /\ on_grid filter "tickSize" x.
Definition notional_allowed (marketOrder : bool) (filter : Filter) (x : Q) : Prop :=
  if marketOrder then
    (minimum_applies filter = true -> at_least filter "minNotional" x)
    /\ (maximum_applies filter = true -> at_most filter "maxNotional" x)
  else at_least filter "minNotional" x /\ at_most filter "maxNotional" x.

(** The decimal a positive number is written as. *)
Definition denotes (n : number) (d : Decimal) : Prop := positive (decimal (VNum n)) = Some d.

Lemma denotes_scale n d : denotes n d -> scale_ok d.
Proof. intros [H _]%positive_Some. by eapply decimal_scale. Qed.

Lemma min_spec v filter key : scale_ok v ->
  match positiveFilter filter key with Some min => compare v min <? 0 | None => false end = false
  <-> at_least filter key (ratio_of v).
Proof.
  intros Hv. unfold at_least. destruct (positiveFilter filter key) as [m|] eqn:E; [|by split; [intros _ m|]].
  destruct (positive_filter_scale _ _ _ E). rewrite compare_spec by done.
  split; [by intros ? ? [= <-]|by auto].
Qed.

Lemma max_spec v filter key : scale_ok v ->
  match positiveFilter filter key with Some max => 0 <? compare v max | None => false end = false
  <-> at_most filter key (ratio_of v).
Proof.
  intros Hv. unfold at_most. destruct (positiveFilter filter key) as [m|] eqn:E; [|by split; [intros _ m|]].
  destruct (positive_filter_scale _ _ _ E). rewrite compare_flip, compare_spec by done.
  split; [by intros ? ? [= <-]|by auto].
Qed.

Lemma range_spec v filter lo hi label : scale_ok v ->
  validateRange v filter lo hi label = Ok tt <-> at_least filter lo (ratio_of v) /\ at_most filter hi (ratio_of v).
Proof.
  intros Hv. rewrite <- min_spec, <- max_spec by done. unfold validateRange.
  rewrite bind_Ok. setoid_rewrite throwIf_Ok. split; [by intros ([] & ? & ?)|by exists tt].
Qed.

Lemma check_grid_spec v filter key label : scale_ok v ->
  check_grid v filter key label = Ok tt <-> on_grid filter key (ratio_of v).
Proof.
  intros Hv. unfold check_grid, on_grid. destruct (positiveFilter filter key) as [m|] eqn:E; [|by split; [intros _ m|]].
  destruct (positive_filter_scale _ _ _ E). rewrite grid_spec by done. split; [by intros ? ? [= <-]|by auto].
Qed.

Lemma for_each_Ok {A E} (body : A -> result E unit) l :
  for_each body l = Ok tt <-> forall x, In x l -> body x = Ok tt.
Proof.
  unfold for_each. induction l as [|x l IH]; [by split; [intros _ x []|]|]. cbn [foldM].
  destruct (body x) as [[]|e] eqn:Ex.
  - rewrite IH. split; intros H y; [intros [<-|Hy]; auto|intros Hy; apply H; by right].
  - split; [done|]. intros H. rewrite <- Ex. apply H. by left.
Qed.

Lemma check_price_spec filter price : scale_ok (pl_parsed price) ->
  check_price filter price = Ok tt <-> price_allowed filter (ratio_of (pl_parsed price)).
Proof.
  intros Hv. unfold check_price, price_allowed. rewrite bind_Ok.
  split; [intros ([] & H1 & H2)|intros (? & ? & ?); exists tt].
  - apply range_spec in H1; [|done]. apply check_grid_spec in H2; [|done]. tauto.
  - rewrite range_spec, check_grid_spec by done. tauto.
Qed.

#[export] Instance at_least_proper filter key : Proper (Qeq ==> iff) (at_least filter key).
Proof. intros x y E. unfold at_least. split; intros H m Hm; [rewrite <- E|rewrite E]; auto. Qed.
#[export] Instance at_most_proper filter key : Proper (Qeq ==> iff) (at_most filter key).
Proof. intros x y E. unfold at_most. split; intros H m Hm; [rewrite <- E|rewrite E]; auto. Qed.
#[export] Instance notional_proper m filter : Proper (Qeq ==> iff) (notional_allowed m filter).
Proof. intros x y E. unfold notional_allowed. destruct m; by rewrite !E. Qed.

Lemma check_notional_spec m a p filter : scale_ok a -> scale_ok p ->
  check_notional m a p filter = Ok tt <-> notional_allowed m filter (ratio_of a * ratio_of p).
Proof.
  intros Ha Hp. rewrite <- (ratio_times a p) by done.
  pose proof (times_scale _ _ Ha Hp) as Ht. unfold check_notional, notional_allowed.
  destruct m; [|by apply range_spec]. rewrite <- min_spec, <- max_spec by done.
  destruct (minimum_applies filter), (maximum_applies filter); cbn [negb andb]; rewrite ?bind_Ok; try setoid_rewrite throwIf_Ok.
  all: naive_solver.
Qed.

(** ** The contract *)

Lemma parse_prices_Ok prices l :
  parse_prices prices = Ok l <->
  Forall2 (fun p x => denotes (bp_value p) (pl_parsed x) /\ pl_label x = bp_label p
                      /\ pl_reference x = default false (bp_notionalReference p)) prices l.
Proof.
  revert l. induction prices as [|p prices IH]; intros l.
  - split; [intros [= <-]; constructor|by inversion 1].
  - cbn [parse_prices]. rewrite bind_Ok. setoid_rewrite bind_Ok. split.
    + intros (x & Hx & xs & Hxs & [= <-]). constructor; [|by apply IH].
      unfold parse_price, denotes in *. destruct (positive _) as [d|]; [|done]. by injection Hx as <-.
    + inversion 1 as [|? x ? xs (Hd & Hl & Hr) Hxs]; subst. exists x. split; [|exists xs; split; [by apply IH|done]].
      unfold parse_price, denotes in *. rewrite Hd. destruct x; cbn in *. by subst.
Qed.

(** The prices an order's notional is measured with. *)
Definition reference_prices (parsed : list PricedLabel) (options : FilterOptions) : list Decimal :=
  app (map pl_parsed (List.filter pl_reference parsed)) (market_reference options).

Lemma market_reference_scale options d : In d (market_reference options) -> scale_ok d.
Proof.
  unfold market_reference. destruct (default false _), (fo_marketReference options) as [n|]; try done.
  intros H. destruct (positive _) as [x|] eqn:E; cbn in H; [|done]. destruct H as [<-|[]]. by eapply denotes_scale.
Qed.

Lemma parsed_scale prices parsed x : parse_prices prices = Ok parsed -> In x parsed -> scale_ok (pl_parsed x).
Proof.
  intros H%parse_prices_Ok Hx%list_elem_of_In. apply list_elem_of_lookup in Hx as [i Hi].
  destruct (Forall2_lookup_r _ _ _ _ _ H Hi) as (p & _ & Hd & _). by eapply denotes_scale.
Qed.

(** C38: an order passes the Binance filters exactly when, in exact rational
    arithmetic on the decimals its numbers are written as, the amount and every price
    are positive, within the bounds and on the grid of the first filter of their
    kind, and every notional the filters apply to is within its bounds; binary
    rounding never lets an order through or stops one. What a decimal text denotes is
    read off its characters, by the reader of the specification. *)
Theorem filters_decide_exactly info amount kind prices options :
  validateBinanceSpotFilters info amount kind prices options = Ok tt <->
  exists a parsed,
    denotes amount a /\ parse_prices prices = Ok parsed
    /\ (forall f, find_filter (amount_filter kind) (filtersFromInfo info) = Some f -> amount_allowed f (ratio_of a))
    /\ (forall f p, find_filter "PRICE_FILTER" (filtersFromInfo info) = Some f -> In p parsed ->
          price_allowed f (ratio_of (pl_parsed p)))
    /\ (forall f p, In f (filtersFromInfo info) -> is_notional f = true -> In p (reference_prices parsed options) ->
          notional_allowed (default false (fo_marketOrder options)) f (ratio_of a * ratio_of p)).
Proof.
  unfold validateBinanceSpotFilters, denotes. destruct (positive (decimal (VNum amount))) as [a|] eqn:Ea;
    [|split; [done|by intros (? & ? & ? & _)]].
  pose proof (denotes_scale _ _ Ea) as Ha. cbv zeta. rewrite bind_Ok. setoid_rewrite bind_Ok. setoid_rewrite bind_Ok.
  setoid_rewrite for_each_Ok. setoid_rewrite for_each_Ok.
  assert (Hnotional : forall parsed, parse_prices prices = Ok parsed ->
    (forall p, In p (reference_prices parsed options) -> forall f, In f (List.filter is_notional (filtersFromInfo info)) ->
       check_notional (default false (fo_marketOrder options)) a p f = Ok tt) <->
    (forall f p, In f (filtersFromInfo info) -> is_notional f = true -> In p (reference_prices parsed options) ->
       notional_allowed (default false (fo_marketOrder options)) f (ratio_of a * ratio_of p))).
  { intros parsed Hp. assert (forall p, In p (reference_prices parsed options) -> scale_ok p) as Hs.
    { intros p [(x & <- & [Hx _]%filter_In)%in_map_iff|Hx]%in_app_or; [by eapply parsed_scale|by eapply market_reference_scale]. }
    split; intros H; [intros f p Hf Hn Hin|intros p Hin f [Hf Hn]%filter_In].
    - apply check_notional_spec; auto. apply H; [done|]. by apply filter_In.
    - apply check_notional_spec; auto. }
  split.
  - intros ([] & Hamount & parsed & Hp & [] & Hprice & Hn). exists a, parsed. split_and!; [done|done|..|by apply Hnotional].
    + intros f Hf. rewrite Hf, bind_Ok in Hamount. destruct Hamount as ([] & H1%range_spec & H2%check_grid_spec); [|done..].
      unfold amount_allowed. tauto.
    + intros f p Hf Hin. rewrite Hf, for_each_Ok in Hprice. apply check_price_spec; [by eapply parsed_scale|auto].
  - intros (? & parsed & [= <-] & Hp & Hamount & Hprice & Hn). exists tt. split; [|exists parsed; split; [done|exists tt; split]].
    + destruct (find_filter (amount_filter kind) _) as [f|]; [|done]. destruct (Hamount f eq_refl) as (? & ? & ?).
      rewrite bind_Ok. exists tt. by rewrite range_spec, check_grid_spec.
    + destruct (find_filter "PRICE_FILTER" _) as [f|]; [|done]. apply for_each_Ok. intros x Hx.
      apply check_price_spec; [by eapply parsed_scale|auto].
    + by apply Hnotional.
Qed.

Definition example_info : value :=
  VObj [("filters", VArr
    [VObj [("filterType", VStr "LOT_SIZE"); ("minQty", VStr "0.10000000"); ("maxQty", VStr "9000"); ("stepSize", VStr "0.10000000")];
     VNull;
     VObj [("filterType", VStr "PRICE_FILTER"); ("minPrice", VStr "0.01"); ("maxPrice", VStr "1e6"); ("tickSize", VStr "0.01")];
     VObj [("filterType", VStr "NOTIONAL"); ("minNotional", VStr "5"); ("maxNotional", VStr "0.00")]])]%string.
Definition example_price (n : number) : BinanceSpotPriceInput :=
  {| bp_label := "price"; bp_value := n; bp_notionalReference := Some true |}.
Definition no_options : FilterOptions := {| fo_marketOrder := None; fo_marketReference := None |}.

(** 0.3 is three steps of 0.1, which the quotient of the binary numbers is not. *)
Example decimals_not_binaries :
  map (fun a => validateBinanceSpotFilters example_info a LotAmount [example_price 100.07] no_options) [0.3; 0.35; 0.05; 9000.1]%float
  = [Ok tt; Throw (OffGrid "Amount"); Throw (BelowMinimum "Amount"); Throw (AboveMaximum "Amount")]
  /\ validateBinanceSpotFilters example_info 0.1 LotAmount [example_price 49.99] no_options
     = Throw (BelowMinimum "Order notional").
Proof. vm_compute. split; reflexivity. Qed.
