(* ===== verification/ExecutionJournal.v ===== *)
(** * The execution journal (packages/trading-engine/src/execution-journal.ts, class ExecutionJournal)

    The write-ahead record of every submission, kept in the same atomic store as the
    quota state: an execution is prepared with its quota claim, begun, and settled
    once, whatever fails in between.  The operations are programs on a draft of the
    state; a transaction validates the draft before and after and commits it whole. *)

From Stdlib Require Import ZArith Lia Bool Ascii Floats.
From stdpp Require Import base strings option list pretty.
From S2P Require Import Prelude JsNumber JsObject JsDate JsValue AccountRisk RiskState RiskLedger Json Execution.

Local Open Scope float_scope.

(** ** Errors *)

Inductive RecoveryPhase := StalePreparation | RecordMissing | IntentRecorded | IntentReused.

Inductive JournalRefusal :=
  | BadJournalScope | BadGeneration | MaintenanceActive | GenerationChanged | MaintenanceAlreadyActive
  | GenerationExhausted | MaintenanceInFlight | NotMaintenanceOwner | MaintenanceChanged | UnsafeReference
  | BadReference | ArchiveCapacity | BadIntentId | RiskRevisionChanged | AccountRiskBlocks | UnresolvedLimit
  | BadProtectionTarget | ArchiveRevisionChanged | ExecutionChanged | TargetMissing | AdmissionChanged
  | FinalAdmissionChanged | EvidenceRequired.

(** What the account guard, which shares the store, refuses (account-risk.ts); [ClientFailed]
    is a failing call of the exchange client and [TypeErrorThrown] a read of a missing object. *)
Inductive GuardError :=
  | PositionMarkUnavailable (symbol : string) | OpenOrderUnavailable | OrderPriceUnavailable (symbol : string)
  | AssessmentFailed (e : AccountRiskError) | LimitsDiffer | LimitsNotConfigured | FactsUnavailable | AccountChanged
  | ReductionMisfit | ReplacementMismatch | ReplacementType | PartialProtectedClose | StaleReduction
  | ProtectionTargetRisk (reasons : list string) | TargetStopDistance | InsufficientReplacement
  | AccountRiskRejected (reasons : list string) | ReferencePriceUnavailable | ProtectionStopRequired | OpeningStopDistance
  | ExecutionRiskRejected (reasons : list string) | LeverageUnknown | LeverageAboveLimit | MarginSettingsUnavailable
  | CrossMarginUnsupported | ProjectionUnavailable | FeeBoundUnavailable | PostActionRejected (reasons : list string)
  | CancellationIdentity | CancellationProtection | CancellationWeakens | ObservationStale | MutationPending
  | MutationIdentityChanged | ClientFailed | TypeErrorThrown.

Inductive JournalError :=
  | RiskFailure (e : RiskError)
  | GuardFailure (e : GuardError)
  | StateInvalid (p : JournalProblem)
  | RecoveryRequired (executionId : string) (phase : RecoveryPhase)
  | Refusal (why : JournalRefusal)
  | InvalidTime
  | StoreDown.

(** ** The store *)

Class ExecutionStore (W : Type) := {
  exec_load : W -> result JournalError ExecutionRiskState;
  exec_transact : forall T : Type,
    (ExecutionRiskState -> result JournalError (T * ExecutionRiskState)) -> ST W JournalError T
}.
Arguments exec_transact {W _ T}.

Definition store_down (e : JournalError) : Prop := e = StoreDown.

Class ExecutionStoreLaws (W : Type) {H : ExecutionStore W} := {
  exec_transact_spec : forall (T : Type) (f : ExecutionRiskState -> result JournalError (T * ExecutionRiskState)) w,
    transacted store_down f (exec_load w) (exec_load (snd (exec_transact f w))) (fst (exec_transact f w))
}.

#[export] Instance memory_exec : ExecutionStore ExecutionRiskState := {
  exec_load w := Ok w;
  exec_transact T f w :=
    match f w with Ok (t, w') => (Ok t, w') | Throw e => (Throw e, w) end
}.

#[export] Instance memory_exec_laws : ExecutionStoreLaws ExecutionRiskState.
Proof.
  constructor. intros T f w. cbn. destruct (f w) as [[t w']|e] eqn:E; cbn.
  - by eapply Committed.
  - by eapply Aborted.
Qed.

(** A store whose transactions fail as a script says. *)
Record FaultyExec := { fe_disk : ExecutionRiskState; fe_script : list Fault }.

#[export] Instance faulty_exec : ExecutionStore FaultyExec := {
  exec_load w := Ok (fe_disk w);
  exec_transact T f w :=
    let rest := {| fe_disk := fe_disk w; fe_script := tl (fe_script w) |} in
    match hd NoFault (fe_script w) with
    | LockFails => (Throw StoreDown, rest)
    | fault =>
        match f (fe_disk w) with
        | Throw e => (Throw e, rest)
        | Ok (t, s') =>
            let done := {| fe_disk := s'; fe_script := tl (fe_script w) |} in
            match fault with
            | WriteFails => (Throw StoreDown, rest)
            | FailsAfterWrite => (Throw StoreDown, done)
            | _ => (Ok t, done)
            end
        end
    end
}.

#[export] Instance faulty_exec_laws : ExecutionStoreLaws FaultyExec.
Proof.
  constructor. intros T f [d l]. cbn. assert (store_down StoreDown) by done.
  destruct (hd NoFault l); cbn; [..|destruct (f d) as [[t s']|e] eqn:E; cbn];
    try (destruct (f d) as [[t s']|e] eqn:E; cbn);
    eauto using Committed, Aborted, Refused, Uncertain.
Qed.

(** ** Record updates *)

Definition set_risk (k : TradingRiskState) (s : ExecutionRiskState) : ExecutionRiskState :=
  {| es_risk := k; es_executions := es_executions s |}.
Definition set_executions (j : option ExecutionJournalState) (s : ExecutionRiskState) : ExecutionRiskState :=
  {| es_risk := es_risk s; es_executions := j |}.

Definition set_records (l : list ExecutionRecord) (j : ExecutionJournalState) : ExecutionJournalState :=
  {| js_records := l; js_admissionGeneration := js_admissionGeneration j; js_maintenance := js_maintenance j;
     js_intentKeys := js_intentKeys j; js_protections := js_protections j |}.
Definition set_maintenance (m : option ExecutionMaintenance) (j : ExecutionJournalState) : ExecutionJournalState :=
  {| js_records := js_records j; js_admissionGeneration := js_admissionGeneration j; js_maintenance := m;
     js_intentKeys := js_intentKeys j; js_protections := js_protections j |}.
Definition set_generation (g : option Z) (j : ExecutionJournalState) : ExecutionJournalState :=
  {| js_records := js_records j; js_admissionGeneration := g; js_maintenance := js_maintenance j;
     js_intentKeys := js_intentKeys j; js_protections := js_protections j |}.
Definition set_intentKeys (k : option (obj IntentKey)) (j : ExecutionJournalState) : ExecutionJournalState :=
  {| js_records := js_records j; js_admissionGeneration := js_admissionGeneration j;
     js_maintenance := js_maintenance j; js_intentKeys := k; js_protections := js_protections j |}.
Definition set_protections (p : option (list ProtectionTarget)) (j : ExecutionJournalState) : ExecutionJournalState :=
  {| js_records := js_records j; js_admissionGeneration := js_admissionGeneration j;
     js_maintenance := js_maintenance j; js_intentKeys := js_intentKeys j; js_protections := p |}.

(** The mutable part of a record. *)
Definition update_record (status : ExecutionStatus) (revision : Z) (updatedAt : string) (attempts : Z)
    (nextAttemptAt : option string) (issue : option ExecutionIssue) (evidence : option ExecutionEvidence)
    (settlement : option Settlement) (r : ExecutionRecord) : ExecutionRecord :=
  {| ex_id := ex_id r; ex_intentId := ex_intentId r; ex_reference := ex_reference r;
     ex_archiveAcknowledgedRevision := ex_archiveAcknowledgedRevision r;
     ex_admissionGeneration := ex_admissionGeneration r; ex_scope := ex_scope r; ex_intent := ex_intent r;
     ex_notional := ex_notional r; ex_reservationId := ex_reservationId r; ex_createdAt := ex_createdAt r;
     ex_status := status; ex_revision := revision; ex_updatedAt := updatedAt; ex_attempts := attempts;
     ex_nextAttemptAt := nextAttemptAt; ex_issue := issue; ex_evidence := evidence; ex_settlement := settlement |}.

Definition set_status (status : ExecutionStatus) (updatedAt : string) (r : ExecutionRecord) : ExecutionRecord :=
  update_record status (ex_revision r + 1) updatedAt (ex_attempts r) (ex_nextAttemptAt r) (ex_issue r)
    (ex_evidence r) (ex_settlement r) r.
Definition set_issue (i : option ExecutionIssue) (r : ExecutionRecord) : ExecutionRecord :=
  update_record (ex_status r) (ex_revision r) (ex_updatedAt r) (ex_attempts r) (ex_nextAttemptAt r) i
    (ex_evidence r) (ex_settlement r) r.
Definition set_evidence (e : ExecutionEvidence) (r : ExecutionRecord) : ExecutionRecord :=
  update_record (ex_status r) (ex_revision r) (ex_updatedAt r) (ex_attempts r) (ex_nextAttemptAt r) (ex_issue r)
    (Some e) (ex_settlement r) r.
Definition set_attempt (nextAttemptAt updatedAt : string) (r : ExecutionRecord) : ExecutionRecord :=
  update_record (ex_status r) (ex_revision r + 1) updatedAt (ex_attempts r + 1) (Some nextAttemptAt) (ex_issue r)
    (ex_evidence r) (ex_settlement r) r.
(** The settlement of a record: its evidence, if any, kept; issue and next attempt deleted. *)
Definition set_settlement (s : Settlement) (e : option ExecutionEvidence) (r : ExecutionRecord) : ExecutionRecord :=
  update_record (ex_status r) (ex_revision r) (ex_updatedAt r) (ex_attempts r) None None
    (match e with Some e => Some e | None => ex_evidence r end) (Some s) r.
Definition set_acknowledged (revision : Z) (r : ExecutionRecord) : ExecutionRecord :=
  {| ex_id := ex_id r; ex_intentId := ex_intentId r; ex_reference := ex_reference r;
     ex_archiveAcknowledgedRevision := Some revision;
     ex_admissionGeneration := ex_admissionGeneration r; ex_scope := ex_scope r; ex_intent := ex_intent r;
     ex_notional := ex_notional r; ex_reservationId := ex_reservationId r; ex_createdAt := ex_createdAt r;
     ex_status := ex_status r; ex_revision := ex_revision r; ex_updatedAt := ex_updatedAt r;
     ex_attempts := ex_attempts r; ex_nextAttemptAt := ex_nextAttemptAt r; ex_issue := ex_issue r;
     ex_evidence := ex_evidence r; ex_settlement := ex_settlement r |}.

(** The mutated record takes the place of the one it was found as. *)
Fixpoint put_record (r : ExecutionRecord) (l : list ExecutionRecord) : list ExecutionRecord :=
  match l with
  | [] => []
  | x :: rest => if String.eqb (ex_id x) (ex_id r) then r :: rest else x :: put_record r rest
  end.

Definition store_record (r : ExecutionRecord) (s : ExecutionRiskState) : ExecutionRiskState :=
  set_executions (option_map (fun j => set_records (put_record r (js_records j)) j) (es_executions s)) s.

(** [state[mode].executionBlocks = { ...state[mode].executionBlocks, [id]: true }] and
    [delete state[mode].executionBlocks?.[id]] *)
Definition with_blocks (b : option (obj bool)) (u : RiskUsageState) : RiskUsageState :=
  {| u_date := u_date u; u_usedDailyNotional := u_usedDailyNotional u;
     u_reservedDailyNotional := u_reservedDailyNotional u; u_reservations := u_reservations u;
     u_executionBlocks := b |}.
Definition add_block (m : TradingMode) (id : string) (k : TradingRiskState) : TradingRiskState :=
  let u := usage_of m k in
  set_usage m (with_blocks (Some (o_set id true (default [] (u_executionBlocks u)))) u) k.
Definition delete_block (m : TradingMode) (id : string) (k : TradingRiskState) : TradingRiskState :=
  let u := usage_of m k in set_usage m (with_blocks (option_map (o_delete id) (u_executionBlocks u)) u) k.

Definition set_accountRisk (a : option (obj AccountRiskState)) (k : TradingRiskState) : TradingRiskState :=
  {| st_paper := st_paper k; st_live := st_live k; st_audit := st_audit k; st_accountRisk := a |}.

Definition bump_revision (a : AccountRiskState) : AccountRiskState :=
  {| ar_limits := ar_limits a; ar_memory := ar_memory a; ar_blockedReasons := ar_blockedReasons a;
     ar_revision := ar_revision a + 1; ar_mutation := ar_mutation a |}.

(** ** A journal and what an operation draws *)

(** The fields of the object, its set of owned maintenances included. *)
Record Journal := {
  jn_config : RiskConfig;
  jn_scope : ExecutionScope;
  jn_admissionGeneration : Z;
  jn_ownedMaintenance : list string
}.

(** Clock readings in the order they are made, the ledger's among them; the system
    clock's text; and the identities drawn. *)
Record Draws := {
  d_now : Z;
  d_later : Z;
  d_ledgerNow : Z;
  d_system : string;
  d_id : string;
  d_reservationId : string;
  d_auditId : string;
  d_riskAuditId : string
}.

Section Journal.
Variable sha256 : string -> string.

Definition stringify (v : value) : string := default "undefined"%string (JSON_stringify v).

Definition accountRiskKey (scope : ExecutionScope) : string :=
  sha256 (stringify (VArr [VStr (mode_name (sc_mode scope)); VStr (sc_exchange scope); VStr (sc_accountId scope);
    VStr (market_name (sc_marketType scope)); VStr (sc_quoteCurrency scope)])).

(** A program on the draft. *)
Abbreviation Op := (ST ExecutionRiskState JournalError).

(** A call of the ledger of the transaction: its store is the draft itself. *)
Definition risk {A} (m : ST TradingRiskState RiskError A) : Op A := fun s =>
  let (r, k) := m (es_risk s) in (mapError RiskFailure r, set_risk k s).

Definition refuse {A} (c : bool) (why : JournalRefusal) (k : Op A) : Op A :=
  if c then lift (Throw (Refusal why)) else k.

Definition get : Op ExecutionRiskState := fun s => (Ok s, s).
Definition modify (f : ExecutionRiskState -> ExecutionRiskState) : Op unit := fun s => (Ok tt, f s).

(** [clock.now().toISOString()] *)
Definition isoTime (t : Z) : Op string := lift (if validTime t then Ok (toISOString t) else Throw InvalidTime).

Definition append_event (id : string) (event : string -> string -> TradingAuditEvent) (at_ : string) : Op unit :=
  fun s => match appendTradingAuditEvent id event at_ (es_risk s) with
           | Ok k => (Ok tt, set_risk k s)
           | Throw e => (Throw (RiskFailure e), s)
           end.

Section Operations.
Context {W : Type} `{ExecutionStore W}.
Variable J : Journal.

Definition run_op {T} (op : Op T) (state : ExecutionRiskState) : result JournalError (T * ExecutionRiskState) :=
  _ ← mapError StateInvalid (validateExecutionRiskState state);
  _ ← mapError RiskFailure (fst (newLedger (jn_config J) (es_risk state)));
  match op state with
  | (Throw e, _) => Throw e
  | (Ok t, state') =>
      _ ← mapError StateInvalid (validateExecutionRiskState state');
      Ok (t, state')
  end.

Definition journal_transact {T} (op : Op T) : ST W JournalError T := exec_transact (run_op op).

(** [store.load()] followed by validation. *)
Definition load_valid : ST W JournalError ExecutionRiskState :=
  reads (fun w => s ← exec_load w; _ ← mapError StateInvalid (validateExecutionRiskState s); Ok s).

Definition list_records : ST W JournalError (list ExecutionRecord) := s ← load_valid; mret (records_of s).

Definition getMaintenance : ST W JournalError (option ExecutionMaintenance) :=
  s ← load_valid;
  mret (option_map (fun m => {| mt_id := mt_id m; mt_scope := mt_scope m; mt_action := mt_action m;
    mt_createdAt := mt_createdAt m;
    mt_nextGeneration := Some (default (generation_of s + 1)%Z (mt_nextGeneration m)) |}) (maintenance_of s)).

Record AdmissionStatus := { as_generation : Z; as_currentGeneration : Z; as_stale : bool }.

Definition getAdmissionStatus : ST W JournalError AdmissionStatus :=
  s ← load_valid;
  mret {| as_generation := jn_admissionGeneration J; as_currentGeneration := generation_of s;
          as_stale := negb (Z.eqb (generation_of s) (jn_admissionGeneration J)) |}.

Definition assertAdmission : Op unit :=
  s ← get;
  refuse (match maintenance_of s with Some _ => true | None => false end) MaintenanceActive
    (refuse (negb (Z.eqb (generation_of s) (jn_admissionGeneration J))) GenerationChanged (mret tt)).

Definition config_event (mode : TradingMode) (action : string) (executionId evidenceReference : option string)
    (id at_ : string) : TradingAuditEvent :=
  {| ev_id := id; ev_at := at_; ev_kind := ConfigChange; ev_mode := mode; ev_executionId := executionId;
     ev_action := Some action; ev_evidenceReference := evidenceReference; ev_settlement := None |}.

(** [journal ?? { version: 1, records: [], admissionGeneration: this.admissionGeneration }] *)
Definition journal_of (s : ExecutionRiskState) : ExecutionJournalState :=
  default {| js_records := []; js_admissionGeneration := Some (jn_admissionGeneration J); js_maintenance := None;
             js_intentKeys := None; js_protections := None |} (es_executions s).

(** *** Maintenance *)

Definition beginMaintenance_op (d : Draws) (action : MaintenanceAction) : Op ExecutionMaintenance :=
  s ← get;
  refuse (match maintenance_of s with Some _ => true | None => false end) MaintenanceAlreadyActive (
  _ ← assertAdmission;
  let nextGeneration := (jn_admissionGeneration J + 1)%Z in
  refuse (negb (safe nextGeneration)) GenerationExhausted (
  refuse (existsb isUnresolvedExecution (records_of s) || in_flight (es_risk s)) MaintenanceInFlight (
  createdAt ← isoTime (d_now d);
  let m := {| mt_id := d_id d; mt_scope := jn_scope J; mt_action := action; mt_createdAt := createdAt;
              mt_nextGeneration := Some nextGeneration |} in
  _ ← modify (set_executions (Some (set_maintenance (Some m) (journal_of s))));
  _ ← append_event (d_auditId d) (config_event (sc_mode (jn_scope J))
        (String.append (action_name action) "-started") None None) (d_system d);
  mret m))).

(** The maintenance, and the journal that now owns it. *)
Definition beginMaintenance (d : Draws) (action : MaintenanceAction) : ST W JournalError (ExecutionMaintenance * Journal) :=
  maintenance ← journal_transact (beginMaintenance_op d action);
  mret (maintenance, {| jn_config := jn_config J; jn_scope := jn_scope J;
                        jn_admissionGeneration := jn_admissionGeneration J;
                        jn_ownedMaintenance := mt_id maintenance :: jn_ownedMaintenance J |}).

(** The journal and its maintenance, when it has this id. *)
Definition current_maintenance (id : string) : Op (ExecutionJournalState * ExecutionMaintenance) :=
  s ← get;
  match es_executions s with
  | Some j =>
      match js_maintenance j with
      | Some m => if String.eqb (mt_id m) id then mret (j, m) else lift (Throw (Refusal MaintenanceChanged))
      | None => lift (Throw (Refusal MaintenanceChanged))
      end
  | None => lift (Throw (Refusal MaintenanceChanged))
  end.

Definition disown (id : string) : Journal :=
  {| jn_config := jn_config J; jn_scope := jn_scope J; jn_admissionGeneration := jn_admissionGeneration J;
     jn_ownedMaintenance := List.filter (fun i => negb (String.eqb id i)) (jn_ownedMaintenance J) |}.

Definition cancelMaintenance_op (d : Draws) (id : string) : Op unit :=
  p ← current_maintenance id;
  let m := snd p in
  _ ← append_event (d_auditId d) (config_event (sc_mode (mt_scope m))
        (String.append (action_name (mt_action m)) "-cancelled") (Some id) None) (d_system d);
  modify (set_executions (Some (set_maintenance None (fst p)))).

Definition cancelMaintenance (d : Draws) (id : string) : ST W JournalError Journal :=
  if negb (str_in (jn_ownedMaintenance J) id) then lift (Throw (Refusal NotMaintenanceOwner))
  else _ ← journal_transact (cancelMaintenance_op d id); mret (disown id).

(** A reference that is present and not empty. *)
Definition given (s : option string) : bool := match s with Some s => negb (String.eqb s "") | None => false end.

Definition completeMaintenance_op (d : Draws) (id : string) (evidenceReference : option string) : Op unit :=
  p ← current_maintenance id;
  let j := fst p in
  let m := snd p in
  let next := default (default 0 (js_admissionGeneration j) + 1)%Z (mt_nextGeneration m) in
  refuse (match evidenceReference with Some r => negb (identifier r) | None => false end) UnsafeReference (
  refuse (negb (given evidenceReference) && negb (str_in (jn_ownedMaintenance J) id)
          && negb (Z.eqb (jn_admissionGeneration J) next)) NotMaintenanceOwner (
  _ ← append_event (d_auditId d) (config_event (sc_mode (mt_scope m))
        (if given evidenceReference then "maintenance-manually-released"
         else String.append (action_name (mt_action m)) "-completed") (Some id)
        (if given evidenceReference then evidenceReference else None)) (d_system d);
  modify (set_executions (Some (set_maintenance None (set_generation (Some next) j)))))).

Definition completeMaintenance (d : Draws) (id : string) (evidenceReference : option string) :
    ST W JournalError Journal :=
  _ ← journal_transact (completeMaintenance_op d id evidenceReference); mret (disown id).

Definition configurationChange_op (d : Draws) (action : string) : Op unit :=
  append_event (d_auditId d) (config_event (sc_mode (jn_scope J)) action None None) (d_system d).

Definition recordConfigurationChange (d : Draws) (action : string) : ST W JournalError unit :=
  journal_transact (configurationChange_op d action).

(** *** Records *)

Definition find_record (id : string) (s : ExecutionRiskState) : option ExecutionRecord :=
  find (fun r => String.eqb (ex_id r) id) (records_of s).

Definition find_ (id : string) : Op ExecutionRecord :=
  s ← get;
  match find_record id s with Some r => mret r | None => lift (Throw (RecoveryRequired id RecordMissing)) end.

Definition execution_event (r : ExecutionRecord) (id at_ : string) : TradingAuditEvent :=
  {| ev_id := id; ev_at := at_; ev_kind := ExecutionEvent; ev_mode := sc_mode (ex_scope r);
     ev_executionId := Some (ex_id r); ev_action := Some (status_name (ex_status r));
     ev_evidenceReference := match ex_evidence r with
                             | Some e => if evidence_from FromOperator r then evd_reference e else None
                             | None => None end;
     ev_settlement := if evidence_from FromOperator r then ex_settlement r else None |}.

Definition audit (d : Draws) (r : ExecutionRecord) : Op unit :=
  append_event (d_auditId d) (execution_event r) (ex_updatedAt r).

(** The record takes its new status and is put back. *)
Definition transition (d : Draws) (r : ExecutionRecord) (status : ExecutionStatus) : Op ExecutionRecord :=
  at_ ← isoTime (d_later d);
  let r := set_status status at_ r in
  _ ← modify (store_record r);
  _ ← audit d r;
  mret r.

Definition intentKey (intentId : string) : string :=
  sha256 (String.append (accountRiskKey (jn_scope J)) (String.append ":" intentId)).

Definition fingerprint (intent : ExecutionIntent) (reference : option ExecutionReference) : string :=
  sha256 (stringify (match reference with
                     | Some r => VObj [("intent", intent_value intent); ("reference", reference_value r)]%string
                     | None => intent_value intent
                     end)).

Record PrepareOptions := {
  po_intentId : option string;
  po_reference : option ExecutionReference;
  po_riskRevision : option Z;
  po_protectionStopPrice : option number
}.

(** [accountRisk.blockedReasons.length || accountRisk.memory?.lossTrip || accountRisk.mutation] *)
Definition account_blocked (a : AccountRiskState) : bool :=
  (0 <? length (ar_blockedReasons a))%nat
  || (match ar_memory a with Some m => match m_lossTrip m with Some _ => true | None => false end | None => false end)
  || (match ar_mutation a with Some _ => true | None => false end).

(** The account-risk entry of the journal's account. *)
Definition account_of (k : TradingRiskState) : option AccountRiskState :=
  match st_accountRisk k with Some o => o_get (accountRiskKey (jn_scope J)) o | None => None end.

(** A stable intent may be prepared again only after its execution was released. *)
Definition check_intent (j : ExecutionJournalState) (print : string) (intentId : option string) : Op unit :=
  match intentId with
  | None => mret tt
  | Some intentId =>
      refuse (negb (identifier intentId)) BadIntentId
        match o_get (intentKey intentId) (default [] (js_intentKeys j)) with
        | None => mret tt
        | Some known =>
            let same := String.eqb (ik_fingerprint known) print in
            let prior := find (fun r => String.eqb (ex_id r) (ik_executionId known)) (js_records j) in
            if same && match prior with Some r => negb (isUnresolvedExecution r) && released r | None => false end
            then mret tt
            else lift (Throw (RecoveryRequired (ik_executionId known) (if same then IntentRecorded else IntentReused)))
        end
  end.

Definition check_account (riskRevision : option Z) (countTowards : bool) : Op unit :=
  s ← get;
  match account_of (es_risk s) with
  | None => mret tt
  | Some a =>
      refuse (negb (bool_decide (riskRevision = Some (ar_revision a)))) RiskRevisionChanged (
      refuse (countTowards && account_blocked a) AccountRiskBlocks (
      modify (fun s => set_risk (set_accountRisk
        (option_map (o_set (accountRiskKey (jn_scope J)) (bump_revision a)) (st_accountRisk (es_risk s)))
        (es_risk s)) s)))
  end.

Definition protection_target (id : string) (intent : ExecutionIntent) (stopPrice : number) : ProtectionTarget :=
  {| pt_id := id; pt_scope := jn_scope J; pt_executionId := id; pt_symbol := intent_symbol intent;
     pt_positionSide := match intent with OrderIntent input _ => in_positionSide input | OcoIntent _ => None end;
     pt_side := match intent_side intent with Buy => Sell | Sell => Buy end;
     pt_stopPrice := Some stopPrice; pt_generation := 0; pt_failures := None; pt_lastRepairIntentId := None |}.

Definition new_record (d : Draws) (intent : ExecutionIntent) (notional : number) (countTowards : bool)
    (options : PrepareOptions) (now : string) : ExecutionRecord :=
  {| ex_id := d_id d; ex_intentId := po_intentId options; ex_reference := po_reference options;
     ex_archiveAcknowledgedRevision := None; ex_admissionGeneration := Some (jn_admissionGeneration J);
     ex_scope := jn_scope J; ex_intent := intent; ex_notional := notional;
     ex_reservationId := if countTowards then Some (d_reservationId d) else None;
     ex_status := Prepared; ex_revision := 0; ex_createdAt := now; ex_updatedAt := now; ex_attempts := 0;
     ex_nextAttemptAt := None; ex_issue := None; ex_evidence := None; ex_settlement := None |}.

Definition archived_reference (r : ExecutionRecord) : bool :=
  match ex_reference r with Some _ => isUnresolvedExecution r || retainReference r | None => false end.

Definition add_protection (t : option ProtectionTarget) (j : ExecutionJournalState) : ExecutionJournalState :=
  match t with
  | Some t => set_protections (Some (app (default [] (js_protections j)) [t])) j
  | None => j
  end.

Definition add_intentKey (key : option string) (k : IntentKey) (j : ExecutionJournalState) : ExecutionJournalState :=
  match key with
  | Some key => set_intentKeys (Some (o_set key k (default [] (js_intentKeys j)))) j
  | None => j
  end.

Definition prepare_op (d : Draws) (intent : ExecutionIntent) (notional : number) (countTowards : bool)
    (options : PrepareOptions) : Op ExecutionRecord :=
  _ ← assertAdmission;
  s ← get;
  let j := journal_of s in
  refuse (match po_reference options with
          | Some r => negb (referenceValid (reference_value r))
                      || match po_intentId options with Some i => negb (identifier i) | None => true end
          | None => false end) BadReference (
  refuse (match po_reference options with
          | Some _ => (REFERENCED_EXECUTION_LIMIT <=? count archived_reference (js_records j))%nat
          | None => false end) ArchiveCapacity (
  let print := fingerprint intent (po_reference options) in
  _ ← check_intent j print (po_intentId options);
  _ ← check_account (po_riskRevision options) countTowards;
  refuse (UNRESOLVED_EXECUTION_LIMIT <=? count isUnresolvedExecution (js_records j))%nat UnresolvedLimit (
  now ← isoTime (d_now d);
  _ ← risk (reserve (jn_config J) (d_ledgerNow d) (d_reservationId d) (intent_symbol intent) notional countTowards
        (Some (d_id d)));
  let entry := new_record d intent notional countTowards options now in
  refuse (match po_protectionStopPrice options with
          | Some p => negb countTowards || negb (isFinite p) || (p <=? 0)
          | None => false end) BadProtectionTarget (
  let j := set_records (app (js_records j) [entry]) j in
  let j := add_protection (option_map (protection_target (d_id d) intent) (po_protectionStopPrice options)) j in
  let j := add_intentKey (option_map intentKey (po_intentId options))
             {| ik_executionId := d_id d; ik_fingerprint := print |} j in
  _ ← modify (fun s => set_risk (add_block (sc_mode (jn_scope J)) (d_id d) (es_risk s)) (set_executions (Some j) s));
  _ ← audit d entry;
  mret entry)))).

Definition prepare (d : Draws) (intent : ExecutionIntent) (notional : number) (countTowards : bool)
    (options : PrepareOptions) : ST W JournalError ExecutionRecord :=
  journal_transact (prepare_op d intent notional countTowards options).

Definition findIntent (intentId : string) : ST W JournalError (option string) :=
  reads (fun w => s ← exec_load w;
    Ok (match es_executions s with
        | Some j => option_map ik_executionId (o_get (intentKey intentId) (default [] (js_intentKeys j)))
        | None => None end)).

(** The records after trimming, put in place of the journal's. *)
Definition trim (s : ExecutionRiskState) : ExecutionRiskState :=
  set_executions (option_map (fun j => set_records (trimExecutionHistory (js_records j)) j) (es_executions s)) s.

Definition acknowledge_op (id : string) (revision : Z) : Op unit :=
  entry ← find_ id;
  refuse (match ex_reference entry with Some _ => negb (Z.eqb (ex_revision entry) revision) | None => true end)
    ArchiveRevisionChanged (
  _ ← modify (store_record (set_acknowledged revision entry));
  modify trim).

Definition acknowledgeExecutionArchive (id : string) (revision : Z) : ST W JournalError unit :=
  journal_transact (acknowledge_op id revision).

Definition fee_eqb (a b : option number) : bool :=
  match a, b with Some x, Some y => x =? y | None, None => true | _, _ => false end.

Definition same_evidence (old : option ExecutionEvidence) (evidence : ExecutionEvidence) : bool :=
  match old with
  | Some e => String.eqb (stringify (orders_value (evd_orders e))) (stringify (orders_value (evd_orders evidence)))
              && fee_eqb (evd_fee e) (evd_fee evidence)
  | None => false
  end.

Definition updateEvidence_op (d : Draws) (id : string) (revision : Z) (evidence : ExecutionEvidence) : Op unit :=
  entry ← find_ id;
  refuse (negb (Z.eqb (ex_revision entry) revision) || isUnresolvedExecution entry) ExecutionChanged (
  if same_evidence (ex_evidence entry) evidence then mret tt
  else _ ← transition d (set_evidence evidence entry) Reconciled; mret tt).

Definition updateEvidence (d : Draws) (id : string) (revision : Z) (evidence : ExecutionEvidence) :
    ST W JournalError unit :=
  journal_transact (updateEvidence_op d id revision evidence).

(** *** Protection targets *)

Definition protections_of (s : ExecutionRiskState) : list ProtectionTarget :=
  match es_executions s with Some j => default [] (js_protections j) | None => [] end.

Definition same_account (a b : ExecutionScope) : bool := String.eqb (accountRiskKey a) (accountRiskKey b).

Definition protectionTargets : ST W JournalError (list ProtectionTarget) :=
  reads (fun w => s ← exec_load w;
    Ok (List.filter (fun t => same_account (pt_scope t) (jn_scope J)) (protections_of s))).

Definition set_repair (generation : Z) (failures : option Z) (last : option string) (t : ProtectionTarget) :
    ProtectionTarget :=
  {| pt_id := pt_id t; pt_scope := pt_scope t; pt_executionId := pt_executionId t; pt_symbol := pt_symbol t;
     pt_positionSide := pt_positionSide t; pt_side := pt_side t; pt_stopPrice := pt_stopPrice t;
     pt_generation := generation; pt_failures := failures; pt_lastRepairIntentId := last |}.

Fixpoint put_target (t : ProtectionTarget) (l : list ProtectionTarget) : list ProtectionTarget :=
  match l with
  | [] => []
  | x :: rest => if String.eqb (pt_id x) (pt_id t) then t :: rest else x :: put_target t rest
  end.

Definition store_targets (l : list ProtectionTarget) (s : ExecutionRiskState) : ExecutionRiskState :=
  set_executions (option_map (set_protections (Some l)) (es_executions s)) s.

Definition find_target (id : string) : Op ProtectionTarget :=
  s ← get;
  match find (fun t => String.eqb (pt_id t) id) (protections_of s) with
  | Some t => mret t
  | None => lift (Throw (Refusal TargetMissing))
  end.

Definition store_target (t : ProtectionTarget) : Op unit :=
  modify (fun s => store_targets (put_target t (protections_of s)) s).

Definition claimRepair_op (id : string) : Op string :=
  t ← find_target id;
  if given (pt_lastRepairIntentId t) then mret (default ""%string (pt_lastRepairIntentId t))
  else
    let intent := sha256 (String.append id (String.append ":protection:" (pretty (pt_generation t)))) in
    _ ← store_target (set_repair (pt_generation t) (pt_failures t) (Some intent) t);
    mret intent.

Definition claimProtectionRepair (id : string) : ST W JournalError string := journal_transact (claimRepair_op id).

Definition finishRepair_op (id : string) (succeeded : bool) : Op unit :=
  t ← find_target id;
  store_target (set_repair (pt_generation t + 1)
    (Some (if succeeded then 0 else default 0 (pt_failures t) + 1)) None t)%Z.

Definition finishProtectionRepair (id : string) (succeeded : bool) : ST W JournalError unit :=
  journal_transact (finishRepair_op id succeeded).

Definition retire_op (id : string) : Op unit :=
  s ← get;
  refuse (negb (existsb (fun t => String.eqb (pt_id t) id && same_account (pt_scope t) (jn_scope J))
            (protections_of s))) TargetMissing
    (modify (fun s => store_targets (List.filter (fun t => negb (String.eqb (pt_id t) id)) (protections_of s)) s)).

Definition retireProtectionTarget (id : string) : ST W JournalError unit := journal_transact (retire_op id).

(** *** Submission *)

Definition begin_op (d : Draws) (id : string) (riskRevision : option Z) : Op ExecutionRecord :=
  _ ← assertAdmission;
  entry ← find_ id;
  if negb (bool_decide (ex_status entry = Prepared)) then lift (Throw (RecoveryRequired id StalePreparation)) else
  refuse (negb (Z.eqb (default 0%Z (ex_admissionGeneration entry)) (jn_admissionGeneration J))) AdmissionChanged (
  _ ← (if given (ex_reservationId entry) then risk (assertNewExposureAllowed (Some id)) else mret tt);
  s ← get;
  refuse (match account_of (es_risk s) with
          | Some a => negb (bool_decide (riskRevision = Some (ar_revision a)))
                      || given (ex_reservationId entry) && account_blocked a
          | None => false end) FinalAdmissionChanged
    (transition d entry SubmissionStarted)).

Definition begin_ (d : Draws) (id : string) (riskRevision : option Z) : ST W JournalError ExecutionRecord :=
  journal_transact (begin_op d id riskRevision).

(** [revision !== undefined && entry.revision !== revision] *)
Definition revision_differs (revision : option Z) (r : ExecutionRecord) : bool :=
  match revision with Some n => negb (Z.eqb (ex_revision r) n) | None => false end.

Definition unknown_op (d : Draws) (id : string) (issue : ExecutionIssue) (revision : option Z) : Op unit :=
  entry ← find_ id;
  if negb (isUnresolvedExecution entry) || revision_differs revision entry then mret tt
  else _ ← transition d (set_issue (Some issue) entry) UnknownOutcome; mret tt.

Definition unknown (d : Draws) (id : string) (issue : ExecutionIssue) (revision : option Z) : ST W JournalError unit :=
  journal_transact (unknown_op d id issue revision).

(** [entry.nextAttemptAt && entry.nextAttemptAt > now], on ISO times. *)
Definition too_early (next : option string) (now : string) : bool :=
  match next with Some t => negb (String.eqb t "") && String.ltb now t | None => false end.

Definition claimAttempt_op (d : Draws) (id nextAttemptAt : string) : Op (option ExecutionRecord) :=
  entry ← find_ id;
  if negb (isUnresolvedExecution entry) || bool_decide (ex_status entry = Prepared) then mret None
  else if (MAX_RECOVERY_ATTEMPTS <=? ex_attempts entry)%Z then
    if bool_decide (ex_issue entry = Some AttemptsExhausted) then mret None
    else _ ← transition d (set_issue (Some AttemptsExhausted) entry) UnknownOutcome; mret None
  else
    now ← (if given (ex_nextAttemptAt entry) then isoTime (d_now d) else mret ""%string);
    if too_early (ex_nextAttemptAt entry) now then mret None
    else
      at_ ← isoTime (d_later d);
      let entry := set_attempt nextAttemptAt at_ entry in
      _ ← modify (store_record entry);
      mret (Some entry).

Definition claimAttempt (d : Draws) (id nextAttemptAt : string) : ST W JournalError (option ExecutionRecord) :=
  journal_transact (claimAttempt_op d id nextAttemptAt).

(** *** Settlement *)

(** Older targets of the same position give way to the settled one. *)
Definition supersede (executionId : string) (l : list ProtectionTarget) : list ProtectionTarget :=
  match find (fun t => String.eqb (pt_executionId t) executionId) l with
  | None => l
  | Some t =>
      List.filter (fun c => String.eqb (pt_id c) (pt_id t) || negb (same_account (pt_scope c) (pt_scope t))
        || negb (String.eqb (pt_symbol c) (pt_symbol t)) || negb (bool_decide (pt_side c = pt_side t))
        || negb (bool_decide (pt_positionSide c = pt_positionSide t))) l
  end.

(** A replaced stop moves the targets it protects. *)
Definition move_stop (r : ExecutionRecord) (l : list ProtectionTarget) : list ProtectionTarget :=
  match ex_intent r with
  | OrderIntent input (Some _) =>
      if bool_decide (in_type input = StopMarket) then
        map (fun t =>
          if same_account (pt_scope t) (ex_scope r) && String.eqb (pt_symbol t) (in_symbol input)
             && bool_decide (pt_side t = in_side input)
          then {| pt_id := pt_id t; pt_scope := pt_scope t; pt_executionId := pt_executionId t;
                  pt_symbol := pt_symbol t; pt_positionSide := pt_positionSide t; pt_side := pt_side t;
                  pt_stopPrice := in_stopPrice input; pt_generation := pt_generation t;
                  pt_failures := Some 0%Z; pt_lastRepairIntentId := pt_lastRepairIntentId t |}
          else t) l
      else l
  | _ => l
  end.

Definition settle_targets (r : ExecutionRecord) (outcome : SettlementOutcome) (s : ExecutionRiskState) :
    ExecutionRiskState :=
  match outcome with
  | Release => s
  | Commit =>
      set_executions (option_map (fun j =>
        match js_protections j with
        | Some l => set_protections (Some (move_stop r (supersede (ex_id r) l))) j
        | None => j
        end) (es_executions s)) s
  end.

(** The settled record goes last, so that the order of the records is that of settlement. *)
Definition move_last (r : ExecutionRecord) (s : ExecutionRiskState) : ExecutionRiskState :=
  set_executions (option_map (fun j =>
    set_records (trimExecutionHistory
      (app (List.filter (fun x => negb (String.eqb (ex_id x) (ex_id r))) (js_records j)) [r])) j)
    (es_executions s)) s.

Definition settle_op (d : Draws) (id : string) (outcome : SettlementOutcome) (notional : number)
    (status : ExecutionStatus) (evidence : option ExecutionEvidence) (revision : option Z) : Op bool :=
  entry ← find_ id;
  if negb (isUnresolvedExecution entry) then mret false
  else if revision_differs revision entry then mret false
  else
    refuse (bool_decide (status = Reconciled) && match evidence with Some _ => false | None => true end
            && negb (bool_decide (ex_status entry = Prepared))) EvidenceRequired (
    _ ← (match ex_reservationId entry with
         | Some claim =>
             if String.eqb claim "" then mret tt
             else risk (reconcileReservation (d_ledgerNow d) (d_riskAuditId d) (d_system d) claim outcome
                          (Some notional) (Some (ex_id entry)))
         | None => mret tt
         end);
    let entry := set_settlement {| set_outcome := outcome;
                                   set_notional := match outcome with Commit => notional | Release => 0 end |}
                   evidence entry in
    _ ← modify (settle_targets entry outcome);
    _ ← modify (fun s => set_risk (delete_block (sc_mode (ex_scope entry)) (ex_id entry) (es_risk s)) s);
    entry ← transition d entry status;
    _ ← modify (move_last entry);
    mret true).

Definition settle (d : Draws) (id : string) (outcome : SettlementOutcome) (notional : number)
    (status : ExecutionStatus) (evidence : option ExecutionEvidence) (revision : option Z) : ST W JournalError bool :=
  journal_transact (settle_op d id outcome notional status evidence revision).

End Operations.

(** [new ExecutionJournal(store, config, scope, clock, admissionGeneration)] *)
Definition newJournal {W} `{ExecutionStore W} (config : RiskConfig) (scope : ExecutionScope)
    (admissionGeneration : option Z) : ST W JournalError Journal :=
  _ ← lift (throwIf (negb (scopeValid (scope_value scope))) (Refusal BadJournalScope));
  s ← load_valid;
  let g := default (generation_of s) admissionGeneration in
  _ ← lift (throwIf (negb (safe g) || (g <? 0)%Z) (Refusal BadGeneration));
  mret {| jn_config := config; jn_scope := scope; jn_admissionGeneration := g; jn_ownedMaintenance := [] |}.

Definition setJournalConfig (config : RiskConfig) (J : Journal) : Journal :=
  {| jn_config := config; jn_scope := jn_scope J; jn_admissionGeneration := jn_admissionGeneration J;
     jn_ownedMaintenance := jn_ownedMaintenance J |}.

(** [listAuditEvents()] *)
Definition listAuditEvents {W} `{ExecutionStore W} : ST W JournalError (list TradingAuditEvent) :=
  reads (fun w => s ← exec_load w; Ok (match st_audit (es_risk s) with Some a => au_events a | None => [] end)).

(** ** Client ids *)

Record ClientIds := {
  ci_clientOrderId : string; ci_listClientOrderId : string; ci_aboveClientOrderId : string; ci_belowClientOrderId : string
}.

Fixpoint without_dashes (s : string) : string :=
  match s with
  | EmptyString => EmptyString
  | String c r => if Ascii.eqb c "-"%char then without_dashes r else String c (without_dashes r)
  end.

Definition executionClientIds (uuid : string) (intentId : option string) : ClientIds :=
  let id := String.substring 0 30 (match intentId with
                                   | Some i => if String.eqb i "" then without_dashes uuid else sha256 i
                                   | None => without_dashes uuid end) in
  {| ci_clientOrderId := String.append "ti" id; ci_listClientOrderId := String.append "tl" id;
     ci_aboveClientOrderId := String.append "ta" id; ci_belowClientOrderId := String.append "tb" id |}.

End Journal.
