(* ===== verification/JournalHistory.v ===== *)
(** * Histories of the execution journal

    What the transactions of any number of runtimes sharing one store do to it:
    the status machine every record follows, and the safety of submission. *)

From Stdlib Require Import ZArith Lia Bool Ascii Floats.
From stdpp Require Import base strings option list pretty relations.
From S2P Require Import Prelude JsNumber JsObject JsDate JsValue AccountRisk RiskState RiskLedger Json Execution.
From S2P Require Import ExecutionJournal.

Local Open Scope Z_scope.

(** ** Programs on the draft *)

Section ProgramFacts.
Context {A B : Type}.

Lemma refuse_Ok c why (k : ST ExecutionRiskState JournalError A) s a s' :
  refuse c why k s = (Ok a, s') <-> c = false /\ k s = (Ok a, s').
Proof. unfold refuse. destruct c; split; intuition (done || congruence). Qed.

Lemma lift_Ok (r : result JournalError A) (s : ExecutionRiskState) a s' :
  lift r s = (Ok a, s') <-> r = Ok a /\ s' = s.
Proof. unfold lift. split; [by intros [= -> ->]|by intros [-> ->]]. Qed.

Lemma ret_Ok (a b : A) (s s' : ExecutionRiskState) :
  (mret a : ST ExecutionRiskState JournalError A) s = (Ok b, s') <-> a = b /\ s' = s.
Proof. unfold mret, ST_ret. split; [by intros [= -> ->]|by intros [-> ->]]. Qed.

Lemma get_bind (k : ExecutionRiskState -> ST ExecutionRiskState JournalError A) s a s' :
  (get ≫= k) s = (Ok a, s') <-> k s s = (Ok a, s').
Proof. done. Qed.

Lemma modify_bind f (k : unit -> ST ExecutionRiskState JournalError A) s a s' :
  (modify f ≫= k) s = (Ok a, s') <-> k tt (f s) = (Ok a, s').
Proof. done. Qed.

Lemma risk_Ok (m : ST TradingRiskState RiskError A) s a s' :
  risk m s = (Ok a, s') <-> exists k, m (es_risk s) = (Ok a, k) /\ s' = set_risk k s.
Proof.
  unfold risk. destruct (m (es_risk s)) as [[b|e] k]; cbn; split.
  - intros [= -> <-]. eauto.
  - by intros (k' & [= -> ->] & ->).
  - done.
  - by intros (k' & ? & _).
Qed.
End ProgramFacts.

Lemma modify_Ok f s u s' : modify f s = (Ok u, s') <-> s' = f s.
Proof. destruct u. unfold modify. split; [by intros [= <-]|by intros ->]. Qed.

Lemma isoTime_Ok t s a s' : isoTime t s = (Ok a, s') <-> validTime t = true /\ a = toISOString t /\ s' = s.
Proof.
  unfold isoTime. rewrite lift_Ok. destruct (validTime t); intuition congruence.
Qed.

Lemma append_event_Ok id event at_ s u s' :
  append_event id event at_ s = (Ok u, s') ->
  exists a, s' = set_risk (set_audit a (es_risk s)) s.
Proof.
  unfold append_event. destruct (appendTradingAuditEvent _ _ _ _) as [k|e] eqn:E; [|done]. intros [= _ <-].
  unfold appendTradingAuditEvent in E. apply bind_Ok in E as (_ & _ & E).
  apply bind_Ok in E as (_ & _ & [= <-]). eauto.
Qed.

(** Splits a sequence: the run of its first program, and [H] for the rest. *)
Ltac bind_inv H E :=
  apply st_bind_Ok in H; let a := fresh "a" in let s := fresh "s" in destruct H as (a & s & E & H); cbn beta in H.

(** Inverts hypotheses that programs returned. *)
Ltac op_inv :=
  repeat match goal with
  | H : (get ≫= _) _ = (Ok _, _) |- _ => rewrite get_bind in H; cbn beta in H
  | H : (modify _ ≫= _) _ = (Ok _, _) |- _ => rewrite modify_bind in H; cbn beta in H
  | H : refuse _ _ _ _ = (Ok _, _) |- _ => let E := fresh "G" in apply refuse_Ok in H as [E H]
  | H : (isoTime _ ≫= _) _ = (Ok _, _) |- _ =>
      let E := fresh "T" in bind_inv H E; apply isoTime_Ok in E as (E & -> & ->)
  | H : (risk _ ≫= _) _ = (Ok _, _) |- _ =>
      let E := fresh "K" in bind_inv H E; apply risk_Ok in E as (? & E & ->)
  | H : (append_event _ _ _ ≫= _) _ = (Ok _, _) |- _ =>
      let E := fresh in bind_inv H E; apply append_event_Ok in E as [? ->]
  | H : append_event _ _ _ _ = (Ok _, _) |- _ => apply append_event_Ok in H as [? ->]
  | H : modify _ _ = (Ok _, _) |- _ => apply modify_Ok in H as ->
  | H : mret _ _ = (Ok _, _) |- _ => apply ret_Ok in H as [? ->]
  | H : lift (Throw _) _ = (Ok _, _) |- _ => apply lift_Ok in H as [? _]; discriminate
  | H : (lift (Throw _) ≫= _) _ = (Ok _, _) |- _ => discriminate H
  end.

(** ** Transactions *)

Section TransactionFacts.
Context {W : Type} {HS : ExecutionStore W} {HL : ExecutionStoreLaws W}.

Lemma run_op_Ok {T} J (op : ST ExecutionRiskState JournalError T) s t s' :
  run_op J op s = Ok (t, s') ->
  validateExecutionRiskState s = Ok tt /\ op s = (Ok t, s') /\ validateExecutionRiskState s' = Ok tt.
Proof.
  unfold run_op. intros ([] & Hv & H)%bind_Ok. apply bind_Ok in H as (c & Hc & H).
  destruct (op s) as [[t1|e] s1]; [|done]. apply bind_Ok in H as ([] & Hv' & [= -> ->]).
  unfold mapError in Hv, Hv'. split_and!; [by destruct (validateExecutionRiskState s) as [[]|]|done|].
  by destruct (validateExecutionRiskState s') as [[]|].
Qed.

(** A transaction leaves the state as it was, or commits the run of its program. *)
Lemma journal_transact_cases {T} J (op : ST ExecutionRiskState JournalError T) w r w' :
  journal_transact J op w = (r, w') ->
  (exec_load w' = exec_load w /\ isOk r = false) \/
  (exists s t s', exec_load w = Ok s /\ run_op J op s = Ok (t, s') /\ exec_load w' = Ok s' /\
     (r = Ok t \/ r = Throw StoreDown)).
Proof.
  unfold journal_transact. pose proof (exec_transact_spec T (run_op J op) w) as Hs.
  intros E. rewrite E in Hs. cbn [fst snd] in Hs. destruct Hs as [s t s'|s e|e|s t s' e He]; subst.
  - right. eauto 10.
  - by left.
  - by left.
  - right. unfold store_down in *. subst. eauto 10.
Qed.

Lemma journal_transact_Ok {T} J (op : ST ExecutionRiskState JournalError T) w t w' :
  journal_transact J op w = (Ok t, w') ->
  exists s s', exec_load w = Ok s /\ run_op J op s = Ok (t, s') /\ exec_load w' = Ok s'.
Proof.
  intros [[_ H]|(s & t' & s' & Hs & Hr & Hs' & [[= <-]|H])]%journal_transact_cases; [done|eauto|done].
Qed.
End TransactionFacts.

(** ** What a valid state satisfies *)

Lemma records_ok_ids ids l :
  records_ok ids (map record_value l) = true ->
  NoDup (map ex_id l) /\ (forall r, In r l -> str_in ids (ex_id r) = false).
Proof.
  revert ids. induction l as [|r l IH]; intros ids H; [split; [constructor|by intros ? []]|].
  cbn [map records_ok] in H. bool_hyps.
  match goal with E : records_ok _ _ = true |- _ => apply IH in E as [Hnd Hall] end.
  match goal with E : isString _ _ = true |- _ => cbn -[identifier str_in] in E; apply andb_true_iff in E as [_ Hnew] end.
  apply negb_true_iff in Hnew. cbn -[str_in] in Hall.
  assert (forall r', In r' l -> ex_id r' <> ex_id r /\ str_in ids (ex_id r') = false) as Hsep.
  { intros r' Hr'. specialize (Hall r' Hr'). cbn in Hall. apply orb_false_iff in Hall as [Hne Hin].
    apply String.eqb_neq in Hne. auto. }
  split.
  - cbn. constructor; [|done]. rewrite list_elem_of_In, in_map_iff. intros (r' & He & Hr'). by destruct (Hsep r' Hr').
  - intros r' [<-|Hr']; [done|]. by apply Hsep.
Qed.

Lemma valid_ids s : validateExecutionRiskState s = Ok tt -> NoDup (map ex_id (records_of s)).
Proof.
  unfold validateExecutionRiskState, records_of. intros ([] & Hj%throwIf_Ok & _)%bind_Ok.
  destruct (es_executions s) as [j|]; [|constructor]. apply negb_false_iff in Hj.
  unfold isExecutionJournalState in Hj. bool_hyps.
  match goal with E : isArray _ (prop "records" (journal_value j)) = true |- _ =>
    change (prop "records" (journal_value j)) with (VArr (map record_value (js_records j))) in E;
    cbn [isArray] in E; apply andb_true_iff in E as [_ E]; by apply records_ok_ids in E as [? _] end.
Qed.

Lemma foldM_unit {Er A} (f : A -> result Er unit) l :
  foldM (fun _ a => f a) tt l = Ok tt <-> forall a, In a l -> f a = Ok tt.
Proof.
  induction l as [|a l IH]; cbn [foldM]; [split; [by intros _ ? []|done]|].
  destruct (f a) as [[]|e] eqn:E; [rewrite IH|]; cbn [In]; split.
  - intros H b [<-|Hb]; auto.
  - auto.
  - done.
  - intros H. specialize (H a (or_introl eq_refl)). congruence.
Qed.

(** The checks a valid state passes. *)
Lemma valid_checks s :
  validateExecutionRiskState s = Ok tt ->
  (forall m, check_mode s m = Ok tt) /\ (forall r, In r (records_of s) -> check_record s r = Ok tt) /\
  (forall m, maintenance_of s = Some m ->
     count isUnresolvedExecution (records_of s) = 0%nat /\ in_flight (es_risk s) = false) /\
  (count isUnresolvedExecution (records_of s) <= UNRESOLVED_EXECUTION_LIMIT)%nat /\
  (count closed_record (records_of s) <= EXECUTION_HISTORY_LIMIT)%nat.
Proof.
  unfold validateExecutionRiskState. intros (_ & _ & H)%bind_Ok. cbv zeta in H.
  apply bind_Ok in H as (_ & _ & H). apply bind_Ok in H as ([] & Hb%throwIf_Ok & H).
  apply bind_Ok in H as ([] & Hm%throwIf_Ok & H). apply bind_Ok in H as ([] & Hc & Hr).
  rewrite foldM_unit in Hr. apply orb_false_iff in Hb as [Hb _]. apply orb_false_iff in Hb as [Hb1%Nat.ltb_ge Hb2%Nat.ltb_ge].
  split_and!; try done.
  - intros m. apply (proj1 (foldM_unit (check_mode s) [Paper; Live]) Hc). destruct m; cbn; auto.
  - intros m E. rewrite E in Hm. apply orb_false_iff in Hm as [Hm1%Nat.ltb_ge ->]. split; [lia|done].
Qed.

Lemma valid_settled s :
  validateExecutionRiskState s = Ok tt ->
  forall r, In r (records_of s) -> settled r = true -> isUnresolvedExecution r = false.
Proof.
  intros (_ & Hr & _)%valid_checks r Hin Hs. apply Hr in Hin. unfold check_record in Hin. inv_ok.
  match goal with E : negb (settlement_consistent _ _) = false |- _ => rename E into Hc end.
  apply negb_false_iff in Hc. unfold settlement_consistent in Hc. rewrite Hs in Hc.
  destruct (isUnresolvedExecution r); [|done]. by rewrite andb_false_r in Hc.
Qed.

(** ** The specification: how a record may evolve *)

(** [settling] is the settlement the operation is asked to make, and of which record. *)
Inductive evolves (settling : option (string * Settlement)) : ExecutionRecord -> ExecutionRecord -> Prop :=
  | ev_same r : evolves settling r r
  | ev_begin r at_ : ex_status r = Prepared -> evolves settling r (set_status SubmissionStarted at_ r)
  | ev_unknown r i at_ :
      isUnresolvedExecution r = true -> evolves settling r (set_status UnknownOutcome at_ (set_issue (Some i) r))
  | ev_attempt r next at_ :
      isUnresolvedExecution r = true -> ex_status r <> Prepared -> ex_attempts r < MAX_RECOVERY_ATTEMPTS ->
      evolves settling r (set_attempt next at_ r)
  | ev_settle r st e status at_ :
      settling = Some (ex_id r, st) ->
      isUnresolvedExecution r = true ->
      isUnresolvedExecution (set_status status at_ (set_settlement st e r)) = false ->
      evolves settling r (set_status status at_ (set_settlement st e r))
  | ev_update r e at_ :
      isUnresolvedExecution r = false -> evolves settling r (set_status Reconciled at_ (set_evidence e r))
  | ev_archive r f : ex_reference r = Some f -> evolves settling r (set_acknowledged (ex_revision r) r).

(** A record as [prepare] writes it. *)
Definition newborn (r : ExecutionRecord) : Prop :=
  ex_status r = Prepared /\ ex_revision r = 0 /\ ex_attempts r = 0 /\ ex_settlement r = None /\ ex_evidence r = None.

(** The records before and after an operation that may draw one new identity. *)
Record records_step (drawn : option string) (settling : option (string * Settlement)) (l l' : list ExecutionRecord) : Prop := {
  step_back : forall r', In r' l' ->
    (exists r, In r l /\ evolves settling r r') \/ (drawn = Some (ex_id r') /\ newborn r');
  step_forth : forall r, In r l -> exists r', evolves settling r r' /\ (In r' l' \/ closed_record r' = true)
}.

Lemma evolves_id settling r r' : evolves settling r r' -> ex_id r' = ex_id r.
Proof. by destruct 1. Qed.

Lemma step_same drawn settling l : records_step drawn settling l l.
Proof. split; [intros r' H; left|intros r H]; eauto using ev_same. Qed.

Section Puts.
Context (l : list ExecutionRecord) (Hnd : NoDup (map ex_id l)).

Lemma find_unique id r :
  find (fun r => String.eqb (ex_id r) id) l = Some r -> In r l /\ ex_id r = id /\ forall x, In x l -> ex_id x = id -> x = r.
Proof.
  revert Hnd. induction l as [|a m IH]; [done|]. cbn [map find]. intros [Hna Hnd']%NoDup_cons.
  rewrite list_elem_of_In, in_map_iff in Hna. destruct (String.eqb_spec (ex_id a) id) as [E|E].
  - intros [= <-]. split_and!; [by left|done|]. intros x [<-|Hx] Ex; [done|]. exfalso. apply Hna. exists x. split; [congruence|done].
  - intros Hf. destruct (IH Hnd' Hf) as (H1 & H2 & H3). split_and!; [by right|done|].
    intros x [<-|Hx] Ex; [done|auto].
Qed.

Lemma put_In r x : In x (put_record r l) <-> (In x l /\ ex_id x <> ex_id r) \/ (x = r /\ exists y, In y l /\ ex_id y = ex_id r).
Proof.
  revert Hnd. induction l as [|a m IH]; [cbn; naive_solver|]. cbn [map put_record]. intros [Hna Hnd']%NoDup_cons.
  rewrite list_elem_of_In, in_map_iff in Hna. destruct (String.eqb_spec (ex_id a) (ex_id r)) as [E|E].
  - cbn [In]. split.
    + intros [<-|Hx]; [right; eauto|]. left. split; [auto|]. intros Ex. apply Hna. exists x. split; [congruence|done].
    + intros [[[<-|Hx] Hne]|[-> _]]; [congruence|by right|by left].
  - cbn [In]. rewrite (IH Hnd'). naive_solver.
Qed.
End Puts.

Lemma inj_ids l x y : NoDup (map ex_id l) -> In x l -> In y l -> ex_id x = ex_id y -> x = y.
Proof.
  induction l as [|a m IH]; [done|]. cbn [map]. rewrite NoDup_cons, list_elem_of_In, in_map_iff.
  intros [Hna Hnd] [<-|Hx] [<-|Hy] E; [done| | |auto]; exfalso; apply Hna; eauto.
Qed.

(** Replacing the record of an id by one that evolves from it. *)
Lemma step_put drawn settling l r r' :
  NoDup (map ex_id l) -> In r l -> evolves settling r r' -> records_step drawn settling l (put_record r' l).
Proof.
  intros Hnd Hr He. pose proof (evolves_id _ _ _ He) as Hid. split.
  - intros x [[Hx _]|[-> _]]%put_In; [| |done]; left; eauto using ev_same.
  - intros x Hx. destruct (String.eqb_spec (ex_id x) (ex_id r)) as [E|E].
    + exists r'. assert (x = r) as ->.
      { by apply (inj_ids l). }
      split; [done|]. left. apply put_In; [done|]. right. eauto.
    + exists x. split; [apply ev_same|]. left. apply put_In; [done|]. left. split; [done|congruence].
Qed.

Lemma find_unique_In l id r : find (fun r => String.eqb (ex_id r) id) l = Some r -> In r l /\ ex_id r = id.
Proof. intros [H1 H2%String.eqb_eq]%find_some. done. Qed.

Lemma put_member l x r : In x l -> ex_id r = ex_id x -> In r (put_record r l).
Proof.
  induction l as [|a m IH]; [done|]. cbn [put_record]. intros Hx He. destruct (String.eqb_spec (ex_id a) (ex_id r)); [by left|].
  right. destruct Hx as [->|Hx]; [congruence|auto].
Qed.

(** The last record survives trimming. *)
Lemma trim_snoc l r : exists l', trimExecutionHistory (l ++ [r]) = l' ++ [r].
Proof.
  unfold trimExecutionHistory. cbv zeta. rewrite (List.filter_app _ l [r]). eexists. f_equal. cbn [List.filter].
  destruct (isUnresolvedExecution r) eqn:Eu; [done|]. destruct (retainReference r) eqn:Er; [done|]. cbn [orb].
  assert (str_in (map ex_id (lastN EXECUTION_HISTORY_LIMIT (List.filter closed_record (l ++ [r])))) (ex_id r) = true) as ->; [|done].
  apply str_in_In, in_map. rewrite List.filter_app. cbn [List.filter].
  unfold closed_record at 2. rewrite Eu, Er. cbn [negb andb].
  destruct (lastN_snoc EXECUTION_HISTORY_LIMIT (List.filter closed_record l) r) as [l' ->]; [unfold EXECUTION_HISTORY_LIMIT; lia|].
  apply in_app_iff. right. by left.
Qed.

Lemma trim_last l r : In r (trimExecutionHistory (l ++ [r])).
Proof. destruct (trim_snoc l r) as [l' ->]. apply in_app_iff. right. by left. Qed.

(** Trimming keeps everything but closed records. *)
Lemma trim_In l r : In r (trimExecutionHistory l) -> In r l.
Proof. unfold trimExecutionHistory. intros H. by apply filter_In in H as [? _]. Qed.

Lemma trim_keeps l r : In r l -> In r (trimExecutionHistory l) \/ closed_record r = true.
Proof.
  intros Hr. destruct (closed_record r) eqn:E; [by right|]. left. apply filter_In. split; [done|].
  unfold closed_record in E. apply andb_false_iff in E as [E|E]; apply negb_false_iff in E; rewrite E;
    by rewrite ?orb_true_r.
Qed.

Lemma step_trim drawn settling l l' : records_step drawn settling l l' -> records_step drawn settling l (trimExecutionHistory l').
Proof.
  intros [Hb Hf]. split.
  - intros r' Hr%trim_In. auto.
  - intros r Hr. destruct (Hf r Hr) as (r' & He & [Hin|Hc]); exists r'; split; [done| |done|by right].
    by apply trim_keeps.
Qed.

(** The settled record moved to the end. *)
Lemma step_move_last drawn settling l r r' :
  NoDup (map ex_id l) -> In r l -> evolves settling r r' ->
  records_step drawn settling l (List.filter (fun x => negb (String.eqb (ex_id x) (ex_id r'))) (put_record r' l) ++ [r']).
Proof.
  intros Hnd Hr He. pose proof (evolves_id _ _ _ He) as Hid. pose proof (step_put drawn settling l r r' Hnd Hr He) as [Hb Hf]. split.
  - intros x [[Hx _]%filter_In|[<-|[]]]%in_app_iff; [auto|left; eauto].
  - intros x Hx. destruct (Hf x Hx) as (x' & Hx' & [Hin|Hc]); exists x'; split; [done| |done|by right].
    left. apply in_app_iff. destruct (String.eqb_spec (ex_id x') (ex_id r')) as [E|E].
    + right. left. apply put_In in Hin as [[_ Hne]|[-> _]]; [by destruct Hne|done|done].
    + left. apply filter_In. split; [done|]. by apply negb_true_iff, String.eqb_neq.
Qed.

Lemma step_new drawn settling l r : drawn = Some (ex_id r) -> newborn r -> records_step drawn settling l (l ++ [r]).
Proof.
  intros Hd Hn. split.
  - intros r' [Hr|[<-|[]]]%in_app_iff; [left; eauto using ev_same|by right].
  - intros r' Hr. exists r'. split; [apply ev_same|]. left. apply in_app_iff. by left.
Qed.

(** ** The programs *)

Section Programs.
Variable sha256 : string -> string.

Lemma records_set_risk k s : records_of (set_risk k s) = records_of s.
Proof. done. Qed.
Lemma records_store r s : records_of (store_record r s) = put_record r (records_of s).
Proof. unfold records_of. by destruct s as [k [j|]]. Qed.
Lemma records_trim s : records_of (trim s) = trimExecutionHistory (records_of s).
Proof. unfold records_of. by destruct s as [k [j|]]. Qed.
Lemma records_targets l s : records_of (store_targets l s) = records_of s.
Proof. unfold records_of. by destruct s as [k [j|]]. Qed.
Lemma records_settle_targets r o s : records_of (settle_targets sha256 r o s) = records_of s.
Proof. unfold records_of. destruct s as [k [j|]], o; cbn; try done. by destruct (js_protections j). Qed.
Lemma records_move_last r x s :
  In x (records_of s) -> records_of (move_last r s) =
  trimExecutionHistory (List.filter (fun x => negb (String.eqb (ex_id x) (ex_id r))) (records_of s) ++ [r]).
Proof. unfold records_of. by destruct s as [k [j|]]. Qed.

Lemma find_Ok id s r s' :
  find_ id s = (Ok r, s') -> s' = s /\ find_record id s = Some r.
Proof.
  unfold find_. rewrite get_bind. destruct (find_record id s) as [x|]; intros H; op_inv. by subst.
Qed.

Lemma transition_Ok d r status s r' s' :
  transition d r status s = (Ok r', s') ->
  r' = set_status status (toISOString (d_later d)) r /\
  exists a, s' = set_risk (set_audit a (es_risk s)) (store_record r' s).
Proof.
  unfold transition, audit. intros H. op_inv. subst. split; [done|]. eexists. reflexivity.
Qed.

Lemma assertAdmission_Ok J s u s' :
  assertAdmission J s = (Ok u, s') -> s' = s /\ maintenance_of s = None /\ generation_of s = jn_admissionGeneration J.
Proof.
  unfold assertAdmission. intros H. op_inv. split; [done|].
  destruct (maintenance_of s); [done|]. match goal with E : negb _ = false |- _ => apply negb_false_iff, Z.eqb_eq in E end. done.
Qed.

Lemma current_maintenance_Ok id s j m s' :
  current_maintenance id s = (Ok (j, m), s') ->
  s' = s /\ es_executions s = Some j /\ js_maintenance j = Some m /\ mt_id m = id.
Proof.
  unfold current_maintenance. rewrite get_bind. destruct (es_executions s) as [j'|]; [|intros H; op_inv].
  destruct (js_maintenance j') as [m'|] eqn:Em; [|intros H; op_inv].
  destruct (String.eqb_spec (mt_id m') id); intros H; op_inv. by simplify_eq.
Qed.

(** A found record evolves and is put back. *)
Lemma step_of_put drawn settling s id r r' s' :
  NoDup (map ex_id (records_of s)) -> find_record id s = Some r -> evolves settling r r' ->
  records_of s' = put_record r' (records_of s) -> records_step drawn settling (records_of s) (records_of s').
Proof.
  intros Hnd Hf He ->. destruct (find_unique _ Hnd _ _ Hf) as (Hin & _). by apply (step_put _ _ _ r).
Qed.
(** What [begin] requires and does. *)
Lemma begin_Ok J d id riskRevision s r' s' :
  begin_op sha256 J d id riskRevision s = (Ok r', s') ->
  maintenance_of s = None /\ generation_of s = jn_admissionGeneration J /\
  exists r, find_record id s = Some r /\ ex_status r = Prepared /\
    default 0 (ex_admissionGeneration r) = jn_admissionGeneration J /\
    r' = set_status SubmissionStarted (toISOString (d_later d)) r /\
    records_of s' = put_record r' (records_of s).
Proof.
  unfold begin_op. intros H. bind_inv H Ha. apply assertAdmission_Ok in Ha as (-> & Hm & Hg).
  bind_inv H Hf. apply find_Ok in Hf as [-> Hf]. case_bool_decide as Hs; cbn [negb] in H; [|op_inv].
  op_inv. split_and!; [done|done|]. exists a0. bind_inv H Hx.
  assert (exists k, s0 = set_risk k s) as [k ->].
  { destruct (given _); [by apply risk_Ok in Hx as (k & _ & ->); eauto|]. op_inv. exists (es_risk s). by destruct s. }
  op_inv. apply transition_Ok in H as [-> [b ->]]. apply negb_false_iff, Z.eqb_eq in G.
  split_and!; try done. by rewrite records_set_risk, records_store.
Qed.

Lemma begin_step J d id riskRevision s r' s' :
  NoDup (map ex_id (records_of s)) -> begin_op sha256 J d id riskRevision s = (Ok r', s') ->
  records_step None None (records_of s) (records_of s').
Proof.
  intros Hnd (_ & _ & r & Hf & Hs & _ & -> & Hr)%begin_Ok. eapply step_of_put; eauto using ev_begin.
Qed.

Lemma unknown_step d id issue revision s u s' :
  NoDup (map ex_id (records_of s)) -> unknown_op d id issue revision s = (Ok u, s') ->
  records_step None None (records_of s) (records_of s').
Proof.
  intros Hnd. unfold unknown_op. intros H. bind_inv H Hf. apply find_Ok in Hf as [-> Hf].
  destruct (negb (isUnresolvedExecution a) || revision_differs revision a) eqn:Eu; [op_inv; apply step_same|].
  bool_hyps. bind_inv H Ht. apply transition_Ok in Ht as [-> [b ->]]. op_inv.
  eapply step_of_put; [done|exact Hf|by apply ev_unknown|]. by rewrite records_set_risk, records_store.
Qed.

Lemma claimAttempt_step d id next s o s' :
  NoDup (map ex_id (records_of s)) -> claimAttempt_op d id next s = (Ok o, s') ->
  records_step None None (records_of s) (records_of s').
Proof.
  intros Hnd. unfold claimAttempt_op. intros H. bind_inv H Hf. apply find_Ok in Hf as [-> Hf].
  destruct (_ || _) eqn:Eu; [op_inv; apply step_same|]. apply orb_false_iff in Eu as [Eu1%negb_false_iff Eu2%bool_decide_eq_false].
  destruct (_ <=? _) eqn:Em.
  - case_bool_decide; [op_inv; apply step_same|]. bind_inv H Ht. apply transition_Ok in Ht as [-> [b ->]]. op_inv.
    eapply step_of_put; [done|exact Hf|by apply ev_unknown|]. by rewrite records_set_risk, records_store.
  - bind_inv H Hn. assert (s0 = s) as ->.
    { destruct (given _); [by apply isoTime_Ok in Hn as (_ & _ & ->)|by op_inv]. }
    destruct (too_early _ _); [op_inv; apply step_same|]. op_inv. subst.
    apply Z.leb_gt in Em. eapply step_of_put; [done|exact Hf|by apply ev_attempt|]. by rewrite records_store.
Qed.

Lemma acknowledge_step id revision s u s' :
  NoDup (map ex_id (records_of s)) -> acknowledge_op id revision s = (Ok u, s') ->
  records_step None None (records_of s) (records_of s').
Proof.
  intros Hnd. unfold acknowledge_op. intros H. bind_inv H Hf. apply find_Ok in Hf as [-> Hf]. op_inv.
  destruct (ex_reference a) as [f|] eqn:Er; [|done]. apply negb_false_iff, Z.eqb_eq in G. subst revision.
  rewrite records_trim, records_store. apply step_trim. destruct (find_unique _ Hnd _ _ Hf) as (Hin & _).
  eapply step_put; eauto using ev_archive.
Qed.

Lemma updateEvidence_step d id revision evidence s u s' :
  NoDup (map ex_id (records_of s)) -> updateEvidence_op d id revision evidence s = (Ok u, s') ->
  records_step None None (records_of s) (records_of s').
Proof.
  intros Hnd. unfold updateEvidence_op. intros H. bind_inv H Hf. apply find_Ok in Hf as [-> Hf]. op_inv. bool_hyps.
  destruct (same_evidence _ _); [op_inv; apply step_same|].
  bind_inv H Ht. apply transition_Ok in Ht as [-> [b ->]]. op_inv.
  eapply step_of_put; [done|exact Hf|by apply ev_update|]. by rewrite records_set_risk, records_store.
Qed.
(** The quota call of a settlement. *)
Definition settles_claim (d : Draws) (r : ExecutionRecord) (outcome : SettlementOutcome) (notional : number)
    (k k' : TradingRiskState) : Prop :=
  if given (ex_reservationId r)
  then exists u, reconcileReservation (d_ledgerNow d) (d_riskAuditId d) (d_system d) (default ""%string (ex_reservationId r))
         outcome (Some notional) (Some (ex_id r)) k = (Ok u, k')
  else k' = k.

Definition settlement_of (outcome : SettlementOutcome) (notional : number) : Settlement :=
  {| set_outcome := outcome; set_notional := match outcome with Commit => notional | Release => 0%float end |}.

(** What [settle] requires and does. *)
Lemma settle_Ok d id outcome notional status evidence revision s b s' :
  settle_op sha256 d id outcome notional status evidence revision s = (Ok b, s') ->
  exists r, find_record id s = Some r /\
    if b then
      isUnresolvedExecution r = true /\ revision_differs revision r = false /\
      (status = Reconciled -> evidence = None -> ex_status r = Prepared) /\
      exists k a, settles_claim d r outcome notional (es_risk s) k /\
        let r' := set_status status (toISOString (d_later d)) (set_settlement (settlement_of outcome notional) evidence r) in
        es_risk s' = set_audit a (delete_block (sc_mode (ex_scope r)) (ex_id r) k) /\
        records_of s' = trimExecutionHistory
          (List.filter (fun x => negb (String.eqb (ex_id x) (ex_id r))) (put_record r' (records_of s)) ++ [r'])
    else s' = s /\ (isUnresolvedExecution r = false \/ revision_differs revision r = true).
Proof.
  unfold settle_op. intros H. bind_inv H Hf. apply find_Ok in Hf as [-> Hf]. exists a. split; [done|].
  destruct (isUnresolvedExecution a) eqn:Eu; cbn [negb] in H; [|op_inv; subst; auto].
  destruct (revision_differs revision a) eqn:Ev; [op_inv; subst; auto|]. op_inv. bind_inv H Hk.
  assert (exists k, settles_claim d a outcome notional (es_risk s) k /\ s0 = set_risk k s) as (k & Hcl & ->).
  { unfold settles_claim, given. destruct (ex_reservationId a) as [c|]; [|op_inv; exists (es_risk s); by destruct s].
    destruct (String.eqb c ""); cbn [negb]; [op_inv; exists (es_risk s); by destruct s|].
    apply risk_Ok in Hk as (k & Hk & ->). eauto. }
  op_inv. bind_inv H Ht. apply transition_Ok in Ht as [-> [x ->]]. op_inv. subst b.
  split_and!; [done|done| |].
  - intros -> ->. apply andb_false_iff in G as [G|G]; [by rewrite bool_decide_true in G|].
    by apply negb_false_iff, bool_decide_eq_true in G.
  - exists k, x. split; [done|]. cbv zeta. split; [by destruct outcome|].
    destruct (find_unique_In _ _ _ Hf) as [Hin Hid].
    rewrite (records_move_last _ (set_status status (toISOString (d_later d)) (set_settlement (settlement_of outcome notional) evidence a))).
    + rewrite records_set_risk, records_store, records_set_risk, records_settle_targets, records_set_risk. done.
    + rewrite records_set_risk, records_store, records_set_risk, records_settle_targets, records_set_risk.
      by apply (put_member _ a).
Qed.

Lemma settle_step d id outcome notional status evidence revision s b s' :
  NoDup (map ex_id (records_of s)) -> validateExecutionRiskState s' = Ok tt ->
  settle_op sha256 d id outcome notional status evidence revision s = (Ok b, s') ->
  records_step None (Some (id, settlement_of outcome notional)) (records_of s) (records_of s').
Proof.
  intros Hnd Hv (r & Hf & H)%settle_Ok. destruct b; [|destruct H as [-> _]; apply step_same].
  destruct H as (Hu & _ & _ & k & x & _ & H). cbv zeta in H. destruct H as [_ Hr].
  destruct (find_unique _ Hnd _ _ Hf) as (Hin & Hid & _).
  match type of Hr with context [_ ++ [?r']] =>
    assert (isUnresolvedExecution r' = false) as Hu' by
      (apply (valid_settled s' Hv); [rewrite Hr; apply trim_last|done]) end.
  rewrite Hr. apply step_trim.
  refine (step_move_last None _ _ r _ Hnd Hin (ev_settle _ r _ evidence status _ _ Hu Hu')). by rewrite Hid.
Qed.
Definition intent_keys (s : ExecutionRiskState) : obj IntentKey :=
  match es_executions s with Some j => default [] (js_intentKeys j) | None => [] end.

Lemma journal_of_records J s : js_records (journal_of J s) = records_of s.
Proof. unfold journal_of, records_of. by destruct (es_executions s). Qed.
Lemma journal_of_keys J s : default [] (js_intentKeys (journal_of J s)) = intent_keys s.
Proof. unfold journal_of, intent_keys. by destruct (es_executions s). Qed.

(** A stable intent is free when it is new, or its execution was released. *)
Definition intent_free (s : ExecutionRiskState) (key print : string) : Prop :=
  forall known, o_get key (intent_keys s) = Some known ->
    ik_fingerprint known = print /\
    exists r, find_record (ik_executionId known) s = Some r /\ isUnresolvedExecution r = false /\ released r = true.

Lemma check_intent_Ok J s0 print intentId s u s' :
  check_intent sha256 J (journal_of J s0) print intentId s = (Ok u, s') ->
  s' = s /\ forall i, intentId = Some i -> intent_free s0 (intentKey sha256 J i) print.
Proof.
  unfold check_intent. destruct intentId as [i|]; [|intros H; op_inv; by split]. intros H. op_inv.
  rewrite journal_of_keys, journal_of_records in H.
  assert (forall i', Some i = Some i' -> intent_free s0 (intentKey sha256 J i') print <->
    intent_free s0 (intentKey sha256 J i) print) as Hi by (by intros i' [= <-]).
  destruct (o_get _ (intent_keys s0)) as [known|] eqn:Ek.
  - destruct (_ && _) eqn:Es; [|op_inv]. op_inv. split; [done|]. intros i' Hi'. apply Hi; [done|].
    intros known' Hk. rewrite Ek in Hk. injection Hk as <-. apply andb_true_iff in Es as [Hs%String.eqb_eq Hp].
    split; [done|]. fold (find_record (ik_executionId known) s0) in Hp. destruct (find_record _ s0) as [r|]; [|done].
    exists r. by apply andb_true_iff in Hp as [?%negb_true_iff ?].
  - op_inv. split; [done|]. intros i' Hi'. apply Hi; [done|]. intros known Hk. congruence.
Qed.

(** The account-risk check touches nothing but the account's revision. *)
Lemma check_account_Ok J riskRevision c s u s' :
  check_account sha256 J riskRevision c s = (Ok u, s') ->
  exists o, s' = set_risk (set_accountRisk o (es_risk s)) s.
Proof.
  unfold check_account. intros H. op_inv. destruct (account_of _ _ _); op_inv; [by eexists|].
  exists (st_accountRisk (es_risk s)). by destruct s as [[]].
Qed.

Definition prepared_keys (J : Journal) (d : Draws) (options : PrepareOptions) (print : string) (o : obj IntentKey) :
    obj IntentKey :=
  match po_intentId options with
  | Some i => o_set (intentKey sha256 J i) {| ik_executionId := d_id d; ik_fingerprint := print |} o
  | None => o
  end.

(** What [prepare] requires and does. *)
Lemma prepare_Ok J d intent notional c options s entry s' :
  prepare_op sha256 J d intent notional c options s = (Ok entry, s') ->
  let print := fingerprint sha256 intent (po_reference options) in
  maintenance_of s = None /\ generation_of s = jn_admissionGeneration J /\
  (forall i, po_intentId options = Some i -> intent_free s (intentKey sha256 J i) print) /\
  entry = new_record J d intent notional c options (toISOString (d_now d)) /\
  records_of s' = records_of s ++ [entry] /\
  intent_keys s' = prepared_keys J d options print (intent_keys s) /\
  exists o k h a,
    reserve (jn_config J) (d_ledgerNow d) (d_reservationId d) (intent_symbol intent) notional c (Some (d_id d))
      (set_accountRisk o (es_risk s)) = (Ok h, k) /\
    es_risk s' = set_audit a (add_block (sc_mode (jn_scope J)) (d_id d) k) /\
    maintenance_of s' = None /\ generation_of s' = generation_of s.
Proof.
  cbv zeta. unfold prepare_op. intros H. bind_inv H Ha. apply assertAdmission_Ok in Ha as (-> & Hm & Hg). op_inv.
  bind_inv H Hi. apply check_intent_Ok in Hi as [-> Hi]. bind_inv H Hk. apply check_account_Ok in Hk as [o ->]. op_inv.
  unfold audit in H. op_inv. cbv zeta in *. subst entry. split_and!; try done.
  - rewrite <- (journal_of_records J s). unfold records_of. cbn [es_executions set_risk set_executions].
    destruct (po_intentId options), (po_protectionStopPrice options); done.
  - rewrite <- (journal_of_keys J s). unfold intent_keys, prepared_keys. cbn [es_executions set_risk set_executions].
    destruct (po_intentId options), (po_protectionStopPrice options); done.
  - eexists o, _, _, _. split; [eassumption|]. split; [done|].
    unfold maintenance_of, generation_of in *. cbn [es_executions set_risk set_executions].
    destruct (po_intentId options), (po_protectionStopPrice options); cbn -[journal_of]; unfold journal_of;
      destruct (es_executions s); cbn; (split; congruence || done).
Qed.

Lemma prepare_step J d intent notional c options s entry s' :
  prepare_op sha256 J d intent notional c options s = (Ok entry, s') ->
  records_step (Some (d_id d)) None (records_of s) (records_of s').
Proof.
  intros H. apply prepare_Ok in H as (_ & _ & _ & -> & -> & _). by apply step_new.
Qed.
End Programs.

(** ** Histories *)

Inductive Call :=
  | CPrepare (d : Draws) (intent : ExecutionIntent) (notional : number) (countTowards : bool) (options : PrepareOptions)
  | CBegin (d : Draws) (id : string) (riskRevision : option Z)
  | CUnknown (d : Draws) (id : string) (issue : ExecutionIssue) (revision : option Z)
  | CClaimAttempt (d : Draws) (id nextAttemptAt : string)
  | CSettle (d : Draws) (id : string) (outcome : SettlementOutcome) (notional : number) (status : ExecutionStatus)
      (evidence : option ExecutionEvidence) (revision : option Z)
  | CUpdateEvidence (d : Draws) (id : string) (revision : Z) (evidence : ExecutionEvidence)
  | CArchive (id : string) (revision : Z)
  | CBeginMaintenance (d : Draws) (action : MaintenanceAction)
  | CCancelMaintenance (d : Draws) (id : string)
  | CCompleteMaintenance (d : Draws) (id : string) (evidenceReference : option string)
  | CConfigurationChange (d : Draws) (action : string)
  | CClaimRepair (id : string)
  | CFinishRepair (id : string) (succeeded : bool)
  | CRetire (id : string).

(** The identity an execution prepared by the call would get. *)
Definition drawn (c : Call) : option string :=
  match c with CPrepare d _ _ _ _ => Some (d_id d) | _ => None end.

(** The settlement the call asks for. *)
Definition settling (c : Call) : option (string * Settlement) :=
  match c with CSettle _ id outcome notional _ _ _ => Some (id, settlement_of outcome notional) | _ => None end.

(** A program run for its effect. *)
Definition effect {A} (op : ST ExecutionRiskState JournalError A) : ST ExecutionRiskState JournalError unit :=
  _ ← op; mret tt.

Section Histories.
Variable sha256 : string -> string.

Definition call_op (J : Journal) (c : Call) : ST ExecutionRiskState JournalError unit :=
  match c with
  | CPrepare d intent notional count options =>
      effect (prepare_op sha256 J d intent notional count options)
  | CBegin d id riskRevision => effect (begin_op sha256 J d id riskRevision)
  | CUnknown d id issue revision => unknown_op d id issue revision
  | CClaimAttempt d id next => effect (claimAttempt_op d id next)
  | CSettle d id outcome notional status evidence revision =>
      effect (settle_op sha256 d id outcome notional status evidence revision)
  | CUpdateEvidence d id revision evidence => updateEvidence_op d id revision evidence
  | CArchive id revision => acknowledge_op id revision
  | CBeginMaintenance d action => effect (beginMaintenance_op J d action)
  | CCancelMaintenance d id =>
      if str_in (jn_ownedMaintenance J) id then cancelMaintenance_op d id else lift (Throw (Refusal NotMaintenanceOwner))
  | CCompleteMaintenance d id reference => completeMaintenance_op J d id reference
  | CConfigurationChange d action => configurationChange_op J d action
  | CClaimRepair id => effect (claimRepair_op sha256 id)
  | CFinishRepair id succeeded => finishRepair_op id succeeded
  | CRetire id => retire_op sha256 J id
  end.

(** The transaction of a call commits. *)
Definition committed (J : Journal) (c : Call) (s s' : ExecutionRiskState) : Prop :=
  run_op J (call_op J c) s = Ok (tt, s').

Lemma effect_Ok {A} (op : ST ExecutionRiskState JournalError A) s u s' :
  effect op s = (Ok u, s') <-> exists a, op s = (Ok a, s').
Proof.
  unfold effect. split.
  - intros H. bind_inv H E. op_inv. eauto.
  - intros [a E]. apply st_bind_Ok. exists a, s'. split; [done|]. by destruct u.
Qed.

Lemma run_effect {A} J (op : ST ExecutionRiskState JournalError A) s a s' :
  run_op J op s = Ok (a, s') -> run_op J (effect op) s = Ok (tt, s').
Proof.
  unfold run_op. intros H. apply bind_Ok in H as (x & Hx & H). apply bind_Ok in H as (y & Hy & H).
  rewrite (Ok_pass _ _ _ Hx), (Ok_pass _ _ _ Hy). destruct (op s) as [[b|e] s1] eqn:E; [|done].
  apply bind_Ok in H as (z & Hz & [= -> ->]).
  rewrite (proj2 (effect_Ok op s tt s') (ex_intro _ a E)). by rewrite (Ok_pass _ _ _ Hz).
Qed.

(** The operations that leave the records alone. *)
Lemma beginMaintenance_Ok J d action s m s' :
  beginMaintenance_op J d action s = (Ok m, s') ->
  maintenance_of s = None /\ existsb isUnresolvedExecution (records_of s) = false /\
  records_of s' = records_of s /\ maintenance_of s' = Some m /\ generation_of s' = generation_of s /\
  generation_of s = jn_admissionGeneration J /\ intent_keys s' = intent_keys s.
Proof.
  unfold beginMaintenance_op. intros H. op_inv. bind_inv H Ha. apply assertAdmission_Ok in Ha as (-> & Hm & Hg).
  op_inv. subst. bool_hyps. unfold records_of, maintenance_of, generation_of, intent_keys, journal_of in *.
  cbn [es_executions set_risk set_executions]. destruct (es_executions s); cbn in *; split_and!; done.
Qed.

Lemma cancelMaintenance_Ok d id s u s' :
  cancelMaintenance_op d id s = (Ok u, s') ->
  records_of s' = records_of s /\ maintenance_of s' = None /\ generation_of s' = generation_of s /\
  intent_keys s' = intent_keys s.
Proof.
  unfold cancelMaintenance_op. intros H. bind_inv H Ha. destruct a as [j m].
  apply current_maintenance_Ok in Ha as (-> & Hj & _ & _). op_inv.
  unfold records_of, maintenance_of, generation_of, intent_keys. cbn. by rewrite Hj.
Qed.

Lemma completeMaintenance_Ok J d id reference s u s' :
  completeMaintenance_op J d id reference s = (Ok u, s') ->
  records_of s' = records_of s /\ maintenance_of s' = None /\ intent_keys s' = intent_keys s /\
  exists m, maintenance_of s = Some m /\ generation_of s' = default (generation_of s + 1) (mt_nextGeneration m).
Proof.
  unfold completeMaintenance_op. intros H. bind_inv H Ha. destruct a as [j m].
  apply current_maintenance_Ok in Ha as (-> & Hj & Hm & _). cbv zeta in H. op_inv. cbn [fst snd].
  unfold records_of, maintenance_of, generation_of, intent_keys. cbn. rewrite Hj. split_and!; try done.
  by exists m.
Qed.

(** Everything of the journal but its protection targets. *)
Definition same_journal (s s' : ExecutionRiskState) : Prop :=
  records_of s' = records_of s /\ maintenance_of s' = maintenance_of s /\ generation_of s' = generation_of s /\
  intent_keys s' = intent_keys s.

Lemma same_targets l s : same_journal s (store_targets l s).
Proof. unfold same_journal, records_of, maintenance_of, generation_of, intent_keys. by destruct s as [k [j|]]. Qed.

Lemma find_target_Ok id s t s' : find_target id s = (Ok t, s') -> s' = s.
Proof. unfold find_target. rewrite get_bind. destruct (find _ _); intros H; op_inv. done. Qed.

Lemma claimRepair_same id s i s' : claimRepair_op sha256 id s = (Ok i, s') -> same_journal s s'.
Proof.
  unfold claimRepair_op. intros H. bind_inv H Ht. apply find_target_Ok in Ht as ->.
  destruct (given _); [op_inv; done|]. unfold store_target in H. op_inv. apply same_targets.
Qed.

Lemma finishRepair_same id b s u s' : finishRepair_op id b s = (Ok u, s') -> same_journal s s'.
Proof.
  unfold finishRepair_op, store_target. intros H. bind_inv H Ht. apply find_target_Ok in Ht as ->. op_inv.
  apply same_targets.
Qed.

Lemma retire_same J id s u s' : retire_op sha256 J id s = (Ok u, s') -> same_journal s s'.
Proof. unfold retire_op. intros H. op_inv. apply same_targets. Qed.

Lemma configurationChange_same J d action s u s' : configurationChange_op J d action s = (Ok u, s') -> same_journal s s'.
Proof. unfold configurationChange_op. intros H. by op_inv. Qed.
(** ** What operations on records leave alone *)

(** Maintenance, generation and stable intents. *)
Definition same_rest (s s' : ExecutionRiskState) : Prop :=
  maintenance_of s' = maintenance_of s /\ generation_of s' = generation_of s /\ intent_keys s' = intent_keys s.

Definition keeps {A} (op : ST ExecutionRiskState JournalError A) : Prop := forall s, same_rest s (snd (op s)).

Lemma same_rest_trans a b c : same_rest a b -> same_rest b c -> same_rest a c.
Proof. unfold same_rest. intuition congruence. Qed.

Lemma keeps_bind {A B} (m : ST ExecutionRiskState JournalError A) (k : A -> ST ExecutionRiskState JournalError B) :
  keeps m -> (forall a, keeps (k a)) -> keeps (m ≫= k).
Proof.
  intros Hm Hk s. unfold mbind, ST_bind. specialize (Hm s). destruct (m s) as [[a|e] s1]; [|done].
  eapply same_rest_trans; [exact Hm|apply Hk].
Qed.
Lemma keeps_lift {A} (r : result JournalError A) : keeps (lift r).
Proof. by intros s. Qed.
Lemma keeps_ret {A} (a : A) : keeps (mret a).
Proof. by intros s. Qed.
Lemma keeps_get : keeps get.
Proof. by intros s. Qed.
Lemma keeps_refuse {A} c why (k : ST ExecutionRiskState JournalError A) : keeps k -> keeps (refuse c why k).
Proof. by destruct c. Qed.
Lemma keeps_risk {A} (m : ST TradingRiskState RiskError A) : keeps (risk m).
Proof. intros s. unfold risk. by destruct (m (es_risk s)). Qed.
Lemma keeps_modify f : (forall s, same_rest s (f s)) -> keeps (modify f).
Proof. by intros H s. Qed.
Lemma keeps_append id event at_ : keeps (append_event id event at_).
Proof. intros s. unfold append_event. by destruct (appendTradingAuditEvent _ _ _ _). Qed.

Lemma same_store r s : same_rest s (store_record r s).
Proof. by destruct s as [k [j|]]. Qed.
Lemma same_trim s : same_rest s (trim s).
Proof. by destruct s as [k [j|]]. Qed.
Lemma same_settle_targets r o s : same_rest s (settle_targets sha256 r o s).
Proof. destruct s as [k [j|]], o; try done. cbn. by destruct (js_protections j). Qed.
Lemma same_move_last r s : same_rest s (move_last r s).
Proof. by destruct s as [k [j|]]. Qed.
Lemma same_set_risk (f : ExecutionRiskState -> TradingRiskState) s : same_rest s (set_risk (f s) s).
Proof. done. Qed.

Ltac keeps_tac :=
  repeat match goal with
  | |- keeps (_ ≫= _) => apply keeps_bind; [|intros]
  | |- keeps (refuse _ _ _) => apply keeps_refuse
  | |- keeps (lift _) => apply keeps_lift
  | |- keeps (mret _) => apply keeps_ret
  | |- keeps get => apply keeps_get
  | |- keeps (risk _) => apply keeps_risk
  | |- keeps (append_event _ _ _) => apply keeps_append
  | |- keeps (modify (store_record _)) => apply keeps_modify, same_store
  | |- keeps (modify trim) => apply keeps_modify, same_trim
  | |- keeps (modify (settle_targets _ _ _)) => apply keeps_modify; intros; apply same_settle_targets
  | |- keeps (modify (move_last _)) => apply keeps_modify, same_move_last
  | |- keeps (modify _) => apply keeps_modify; intros; done
  | |- keeps (match _ with _ => _ end) => case_match
  | |- _ => solve [eauto with journal]
  end.

Create HintDb journal.

Lemma keeps_find id : keeps (find_ id).
Proof. unfold find_. keeps_tac. Qed.
Lemma keeps_transition d r status : keeps (transition d r status).
Proof. unfold transition, audit, isoTime. keeps_tac. Qed.
#[local] Hint Resolve keeps_find keeps_transition : journal.
Lemma keeps_begin J d id riskRevision : keeps (begin_op sha256 J d id riskRevision).
Proof. unfold begin_op, assertAdmission. keeps_tac. Qed.
Lemma keeps_unknown d id issue revision : keeps (unknown_op d id issue revision).
Proof. unfold unknown_op. keeps_tac. Qed.
Lemma keeps_claimAttempt d id next : keeps (claimAttempt_op d id next).
Proof. unfold claimAttempt_op, isoTime. keeps_tac. Qed.
Lemma keeps_acknowledge id revision : keeps (acknowledge_op id revision).
Proof. unfold acknowledge_op. keeps_tac. Qed.
Lemma keeps_update d id revision evidence : keeps (updateEvidence_op d id revision evidence).
Proof. unfold updateEvidence_op. keeps_tac. Qed.
Lemma keeps_settle d id outcome notional status evidence revision :
  keeps (settle_op sha256 d id outcome notional status evidence revision).
Proof. unfold settle_op. keeps_tac. Qed.

Lemma keeps_Ok {A} (op : ST ExecutionRiskState JournalError A) s a s' : keeps op -> op s = (Ok a, s') -> same_rest s s'.
Proof. intros H E. specialize (H s). by rewrite E in H. Qed.

(** *** Every call *)

(** The stable intent a call may register. *)
Definition registers (J : Journal) (c : Call) (key : string) : Prop :=
  exists d intent notional count options i, c = CPrepare d intent notional count options /\
    po_intentId options = Some i /\ intentKey sha256 J i = key.

Record call_effect (J : Journal) (c : Call) (s s' : ExecutionRiskState) : Prop := {
  eff_records : records_step (drawn c) (settling c) (records_of s) (records_of s');
  eff_generation : generation_of s <= generation_of s';
  eff_keys : forall key known, o_get key (intent_keys s) = Some known ->
    o_get key (intent_keys s') = Some known \/ registers J c key
}.

Lemma effect_same J c s s' : drawn c = None -> same_journal s s' -> call_effect J c s s'.
Proof.
  intros Hd (Hr & _ & Hg & Hk). split; [rewrite Hr; apply step_same|lia|rewrite Hk; by left].
Qed.

Lemma effect_rest J c s s' :
  records_step (drawn c) (settling c) (records_of s) (records_of s') -> same_rest s s' -> call_effect J c s s'.
Proof. intros Hr (_ & Hg & Hk). split; [done|lia|rewrite Hk; by left]. Qed.

Lemma maintenance_next s m g :
  validateExecutionRiskState s = Ok tt -> maintenance_of s = Some m -> mt_nextGeneration m = Some g ->
  g = generation_of s + 1.
Proof.
  unfold validateExecutionRiskState. intros (_ & _ & H)%bind_Ok Hm Hg.
  apply bind_Ok in H as ([] & H%throwIf_Ok & _). rewrite Hm, Hg in H. by apply negb_false_iff, Z.eqb_eq in H.
Qed.

Lemma committed_effect J c s s' : committed J c s s' -> call_effect J c s s'.
Proof.
  intros (Hv & H & Hv')%run_op_Ok. pose proof (valid_ids _ Hv) as Hnd.
  destruct c; cbn [call_op] in H; try apply effect_Ok in H as [a H].
  - pose proof (prepare_step _ _ _ _ _ _ _ _ _ _ H) as Hr.
    apply prepare_Ok in H as (_ & _ & _ & _ & _ & Hk & o & k & h & x & _ & _ & _ & Hg).
    split; [exact Hr|lia|]. rewrite Hk. unfold prepared_keys. intros key known Hkey.
    destruct (po_intentId options) as [i|] eqn:Ei; [|by left].
    destruct (String.eqb_spec (intentKey sha256 J i) key) as [E|E].
    + right. unfold registers. eauto 10.
    + left. by rewrite o_get_set_ne.
  - apply effect_rest; [by eapply begin_step|]. eapply keeps_Ok; [apply keeps_begin|exact H].
  - apply effect_rest; [by eapply unknown_step|]. eapply keeps_Ok; [apply keeps_unknown|exact H].
  - apply effect_rest; [by eapply claimAttempt_step|]. eapply keeps_Ok; [apply keeps_claimAttempt|exact H].
  - apply effect_rest; [by eapply (settle_step sha256)|]. eapply keeps_Ok; [apply keeps_settle|exact H].
  - apply effect_rest; [by eapply updateEvidence_step|]. eapply keeps_Ok; [apply keeps_update|exact H].
  - apply effect_rest; [by eapply acknowledge_step|]. eapply keeps_Ok; [apply keeps_acknowledge|exact H].
  - apply beginMaintenance_Ok in H as (_ & _ & Hr & _ & Hg & _ & Hk).
    split; [rewrite Hr; apply step_same|lia|rewrite Hk; by left].
  - destruct (str_in _ _); [|op_inv]. apply cancelMaintenance_Ok in H as (Hr & _ & Hg & Hk).
    split; [rewrite Hr; apply step_same|lia|rewrite Hk; by left].
  - apply completeMaintenance_Ok in H as (Hr & _ & Hk & m & Hm & Hg).
    split; [rewrite Hr; apply step_same| |rewrite Hk; by left].
    destruct (mt_nextGeneration m) as [g|] eqn:En; cbn in Hg; [|lia].
    rewrite (maintenance_next _ _ _ Hv Hm En) in Hg. lia.
  - apply effect_same; [done|]. by eapply configurationChange_same.
  - apply effect_same; [done|]. by eapply claimRepair_same.
  - apply effect_same; [done|]. by eapply finishRepair_same.
  - apply effect_same; [done|]. by eapply retire_same.
Qed.
End Histories.

(** ** The agreement of records, blocks and claims *)

Definition blocks_of (m : TradingMode) (s : ExecutionRiskState) : obj bool :=
  default [] (u_executionBlocks (usage_of m (es_risk s))).

Record consistent (s : ExecutionRiskState) : Prop := {
  con_block : forall r, In r (records_of s) ->
    isUnresolvedExecution r = true <-> o_get (ex_id r) (blocks_of (sc_mode (ex_scope r)) s) = Some true;
  con_settled : forall r, In r (records_of s) -> isUnresolvedExecution r = negb (settled r);
  con_claim : forall r id, In r (records_of s) -> isUnresolvedExecution r = true -> ex_reservationId r = Some id ->
    id <> ""%string ->
    exists c, o_get id (claims (sc_mode (ex_scope r)) (es_risk s)) = Some c /\ res_executionId c = Some (ex_id r) /\
      res_symbol c = intent_symbol (ex_intent r) /\ (res_notional c =? ex_notional r)%float = true;
  con_record : forall m id, In id (o_keys (blocks_of m s)) ->
    exists r, In r (records_of s) /\ ex_id r = id /\ sc_mode (ex_scope r) = m /\ isUnresolvedExecution r = true;
  con_owner : forall m c id, In c (o_values (claims m (es_risk s))) -> res_executionId c = Some id ->
    exists r, In r (records_of s) /\ ex_id r = id /\ sc_mode (ex_scope r) = m /\ isUnresolvedExecution r = true /\
      ex_reservationId r = Some (res_id c)
}.

Lemma valid_consistent s : validateExecutionRiskState s = Ok tt -> consistent s.
Proof.
  intros (Hm & Hr & _)%valid_checks.
  assert (forall r, In r (records_of s) -> settlement_consistent s r = true /\ reservation_matches s r = true) as Hrec.
  { intros r Hin. apply Hr in Hin. unfold check_record in Hin. inv_ok. bool_hyps. done. }
  split.
  - intros r Hin. destruct (Hrec r Hin) as [Hs _]. unfold settlement_consistent, blocked in Hs.
    apply andb_true_iff in Hs as [Hs _]. apply Bool.eqb_prop in Hs. rewrite Hs. unfold blocks_of.
    destruct (o_get _ _) as [[]|]; intuition congruence.
  - intros r Hin. destruct (Hrec r Hin) as [Hs _]. unfold settlement_consistent in Hs.
    apply andb_true_iff in Hs as [_ Hs]. by destruct (isUnresolvedExecution r), (settled r).
  - intros r id Hin Hu Hid Hne. destruct (Hrec r Hin) as [_ Hs]. unfold reservation_matches in Hs.
    rewrite Hid, Hu in Hs. destruct (String.eqb_spec id ""); [done|]. cbn [negb andb orb] in Hs.
    unfold claims, usage_claims. destruct (o_get id _) as [c|]; [|done]. exists c. bool_hyps.
    repeat match goal with E : bool_decide _ = true |- _ => apply bool_decide_eq_true in E
      | E : String.eqb _ _ = true |- _ => apply String.eqb_eq in E end. done.
  - intros m id Hid. specialize (Hm m). unfold check_mode in Hm. inv_ok. bool_hyps. unfold blocks_of in Hid.
    match goal with E : forallb (block_known _ _) _ = true |- _ => apply (forallb_In _ _ _ E) in Hid end.
    unfold block_known in Hid. apply existsb_exists in Hid as (r & Hin & Hid). bool_hyps. exists r.
    repeat match goal with E : String.eqb _ _ = true |- _ => apply String.eqb_eq in E end.
    unfold in_mode in *. split_and!; try done. by eapply bool_decide_eq_true.
  - intros m c id Hc Hid. specialize (Hm m). unfold check_mode in Hm. inv_ok. bool_hyps.
    unfold claims, usage_claims in Hc.
    match goal with E : forallb (claim_known _ _) _ = true |- _ => apply (forallb_In _ _ _ E) in Hc end.
    unfold claim_known in Hc. rewrite Hid in Hc. apply existsb_exists in Hc as (r & Hin & Hc). bool_hyps. exists r.
    repeat match goal with E : String.eqb _ _ = true |- _ => apply String.eqb_eq in E
      | E : bool_decide _ = true |- _ => apply bool_decide_eq_true in E end.
    unfold in_mode in *. split_and!; try done. by eapply bool_decide_eq_true.
Qed.

(** ** Histories on a store *)

Section Store.
Variable sha256 : string -> string.
Context {W : Type} {HS : ExecutionStore W} {HL : ExecutionStoreLaws W}.

Definition perform (J : Journal) (c : Call) : ST W JournalError unit :=
  journal_transact J (call_op sha256 J c).

(** Calls of any runtimes, one after the other, whatever they return. *)
Fixpoint run_history (h : list (Journal * Call)) (w : W) : W :=
  match h with [] => w | (J, c) :: rest => run_history rest (snd (perform J c w)) end.

Lemma perform_cases J c w s :
  exec_load w = Ok s ->
  exists s', exec_load (snd (perform J c w)) = Ok s' /\ (s' = s \/ committed sha256 J c s s').
Proof.
  intros Hs. destruct (perform J c w) as [r w'] eqn:E.
  apply journal_transact_cases in E as [[Hw _]|(s1 & [] & s' & Hs1 & Hr & Hs' & _)]; cbn [snd].
  - exists s. split; [congruence|by left].
  - exists s'. split; [done|]. right. congruence.
Qed.

(** What every commit preserves holds at the end of a history. *)
Lemma history_invariant (P : ExecutionRiskState -> Prop) h w s :
  (forall J c s s', In (J, c) h -> P s -> committed sha256 J c s s' -> P s') ->
  exec_load w = Ok s -> P s -> exists s', exec_load (run_history h w) = Ok s' /\ P s'.
Proof.
  revert w s. induction h as [|[J c] h IH]; intros w s Hstep Hs HP; [eauto|]. cbn [run_history].
  destruct (perform_cases J c w s Hs) as (s' & Hs' & Hc).
  apply (IH _ s'); [|done|].
  - intros J' c' t t' Hin. apply Hstep. by right.
  - destruct Hc as [->|Hc]; [done|]. eapply Hstep; [by left|exact HP|exact Hc].
Qed.

(** ** Properties *)

(** The journal implements the record status machine: whatever runtimes do to a
    shared store, and whenever it fails, the records move only by the machine's
    steps, and no unresolved or unarchived record is ever dropped. *)
Theorem journal_follows_status_machine h w s :
  exec_load w = Ok s ->
  exists s', exec_load (run_history h w) = Ok s' /\
    rtc (fun l l' => exists d settling, records_step d settling l l') (records_of s) (records_of s').
Proof.
  intros Hs. apply (history_invariant _ h w s); [|done|apply rtc_refl].
  intros J c t t' _ Ht Hc. eapply rtc_r; [exact Ht|]. exists (drawn c), (settling c).
  by destruct (committed_effect _ _ _ _ _ Hc).
Qed.

(** C34: in every state a store can hold, executions, blocks and quota claims agree:
    an execution is unresolved exactly while it blocks new exposure, it is settled
    exactly when it is resolved, its claim is the quota it asked for, and no block
    or claim outlives its execution. *)
Theorem committed_states_consistent h w s :
  exec_load w = Ok s -> validateExecutionRiskState s = Ok tt ->
  exists s', exec_load (run_history h w) = Ok s' /\ validateExecutionRiskState s' = Ok tt /\ consistent s'.
Proof.
  intros Hs Hv. destruct (history_invariant (fun s => validateExecutionRiskState s = Ok tt) h w s) as (s' & Hs' & Hv');
    [by intros J c t t' _ _ (_ & _ & ?)%run_op_Ok|done|done|]. eauto using valid_consistent.
Qed.

(** The execution of this id has left its prepared state, if there is one. *)
Definition begun (id : string) (s : ExecutionRiskState) : Prop :=
  forall r, In r (records_of s) -> ex_id r = id -> ex_status r <> Prepared.

Lemma evolves_not_prepared settling r r' : evolves settling r r' -> ex_status r <> Prepared -> ex_status r' <> Prepared.
Proof. destruct 1; cbn; try done. intros _. by destruct status. Qed.

Lemma begun_kept id J c s s' :
  drawn c <> Some id -> begun id s -> committed sha256 J c s s' -> begun id s'.
Proof.
  intros Hd Hb Hc r' Hr' Hid. destruct (committed_effect _ _ _ _ _ Hc) as [[Hback _] _ _].
  destruct (Hback r' Hr') as [(r & Hr & He)|[Hdr _]]; [|congruence].
  refine (evolves_not_prepared _ _ _ He _). apply Hb; [done|]. rewrite <- Hid. symmetry. by eapply evolves_id.
Qed.

(** C20: an execution is submitted at most once: after a call of [begin] has returned
    permission to submit it, no runtime is ever given it again, whatever happened
    in between, provided its identity is not drawn a second time. *)
Theorem begun_at_most_once J d id riskRevision w r w' h J' d' riskRevision' :
  begin_ sha256 J d id riskRevision w = (Ok r, w') ->
  (forall J c, In (J, c) h -> drawn c <> Some id) ->
  isOk (fst (begin_ sha256 J' d' id riskRevision' (run_history h w'))) = false.
Proof.
  unfold begin_ at 1. intros (s & s' & Hs & Hr & Hs')%journal_transact_Ok Hh.
  assert (begun id s') as Hb.
  { apply run_op_Ok in Hr as (Hv & Hr & _). pose proof (valid_ids _ Hv) as Hnd.
    apply begin_Ok in Hr as (_ & _ & r0 & Hf & _ & _ & -> & Hrec).
    destruct (find_unique_In _ _ _ Hf) as [_ <-]. intros x Hx Hid. rewrite Hrec in Hx.
    apply put_In in Hx as [[_ Hne]|[-> _]]; [by destruct Hne|done|done]. }
  destruct (history_invariant (begun id) h w' s') as (s2 & Hs2 & Hb2); [|done|done|].
  { intros J0 c t t' Hin. apply begun_kept. eauto. }
  destruct (begin_ _ J' d' id riskRevision' (run_history h w')) as [[r2|e] w2] eqn:E2; [|done]. exfalso.
  unfold begin_ in E2. apply journal_transact_Ok in E2 as (s3 & s4 & Hs3 & (_ & H & _)%run_op_Ok & _).
  assert (s3 = s2) as -> by congruence. apply begin_Ok in H as (_ & _ & r3 & Hf & Hst & _).
  destruct (find_unique_In _ _ _ Hf) as [Hin Hid]. by apply (Hb2 r3).
Qed.
End Store.

(** ** A concrete journal *)

(** A digest for the examples: 64 hexadecimal digits that depend on every character. *)
Definition toy_hash (s : string) : Z :=
  fold_left (fun acc c => (acc * 31 + code c) mod 4294967296) (String.list_ascii_of_string s) 7.
Definition toy_sha256 (s : string) : string :=
  let n := toy_hash s in
  let hex k := hex_digit (n / 16 ^ k mod 16) in
  let word := String (hex 7) (String (hex 6) (String (hex 5) (String (hex 4)
                (String (hex 3) (String (hex 2) (String (hex 1) (String (hex 0) ""))))))) in
  let two := String.append word word in let four := String.append two two in String.append four four.

Definition example_scope : ExecutionScope :=
  {| sc_accountId := "acct"; sc_exchange := "binance"; sc_mode := Live; sc_marketType := Spot;
     sc_quoteCurrency := "USDT"; sc_positionMode := OneWay |}.

Definition example_journal : Journal :=
  {| jn_config := example_config; jn_scope := example_scope; jn_admissionGeneration := 0; jn_ownedMaintenance := [] |}.

Definition example_exec : ExecutionRiskState := {| es_risk := example_state; es_executions := None |}.

Definition example_draws (id : string) : Draws :=
  {| d_now := example_now; d_later := example_now; d_ledgerNow := example_now; d_system := "2024-01-01T00:00:00.000Z";
     d_id := id; d_reservationId := String.append "res-" id; d_auditId := String.append "audit-" id;
     d_riskAuditId := String.append "risk-" id |}.

Definition example_input : PlaceOrderInput :=
  {| in_symbol := "BTC/USDT"; in_side := Buy; in_type := Limit; in_amount := 2%float; in_price := Some 10%float;
     in_reduceOnly := None; in_positionSide := None; in_stopPrice := None; in_trailingPercent := None;
     in_closePosition := None; in_clientOrderId := Some "ti0"%string |}.

Definition example_options : PrepareOptions :=
  {| po_intentId := Some "intent-1"%string; po_reference := None; po_riskRevision := None; po_protectionStopPrice := None |}.

Definition example_prepare (id : string) : ST ExecutionRiskState JournalError ExecutionRecord :=
  prepare toy_sha256 example_journal (example_draws id) (OrderIntent example_input None) 20%float true example_options.

Definition prepared_exec : ExecutionRiskState := Eval vm_compute in snd (example_prepare "exec-1" example_exec).
Definition example_begin : ST ExecutionRiskState JournalError ExecutionRecord :=
  begin_ toy_sha256 example_journal (example_draws "b") "exec-1" None.
Definition begun_exec : ExecutionRiskState := Eval vm_compute in snd (example_begin prepared_exec).

Lemma memory_load (s : ExecutionRiskState) : exec_load s = Ok s.
Proof. reflexivity. Qed.
Lemma faulty_load d l : exec_load {| fe_disk := d; fe_script := l |} = Ok d.
Proof. reflexivity. Qed.

(** Calls of two runtimes: one reports an unknown outcome, the other looks it up. *)
Definition example_history : list (Journal * Call) :=
  [(example_journal, CUnknown (example_draws "u") "exec-1" SubmissionUnknown None);
   (example_journal, CClaimAttempt (example_draws "c") "exec-1" "2024-01-01T00:00:01.000Z");
   (example_journal, CPrepare (example_draws "exec-2") (OrderIntent example_input None) 20%float true example_options);
   (example_journal, CConfigurationChange (example_draws "g") "limits-changed")].

Lemma example_valid : validateExecutionRiskState begun_exec = Ok tt.
Proof. vm_compute. reflexivity. Qed.

Lemma journal_follows_status_machine_witness :
  exists s', exec_load (run_history toy_sha256 example_history
      {| fe_disk := begun_exec; fe_script := [FailsAfterWrite; NoFault; NoFault; LockFails] |}) = Ok s' /\
    rtc (fun l l' => exists d settling, records_step d settling l l') (records_of begun_exec) (records_of s').
Proof. apply (journal_follows_status_machine toy_sha256), faulty_load. Defined.

Lemma committed_states_consistent_witness :
  exists s', exec_load (run_history toy_sha256 example_history begun_exec) = Ok s' /\ consistent s'.
Proof.
  destruct (committed_states_consistent toy_sha256 example_history begun_exec begun_exec (memory_load _) example_valid)
    as (s' & Hs & _ & Hc).
  exists s'. split; [exact Hs|exact Hc].
Defined.

(** The second preparation of the intent was refused, the lookup granted. *)
Example example_history_runs :
  map (fun r => (ex_id r, status_name (ex_status r), ex_attempts r))
    (records_of (run_history toy_sha256 example_history begun_exec)) = [("exec-1"%string, "unknown"%string, 1)].
Proof. vm_compute. reflexivity. Qed.

Lemma example_begins : exists r, example_begin prepared_exec = (Ok r, begun_exec).
Proof. eexists. vm_compute. reflexivity. Qed.

Lemma begun_at_most_once_witness :
  exists r, example_begin prepared_exec = (Ok r, begun_exec) /\
    isOk (fst (example_begin (run_history toy_sha256 example_history begun_exec))) = false.
Proof.
  destruct example_begins as [r Hr]. exists r. split; [exact Hr|].
  apply (begun_at_most_once toy_sha256 example_journal (example_draws "b") "exec-1" None prepared_exec r
    begun_exec example_history example_journal (example_draws "b") None Hr).
  intros J c [H|[H|[H|[H|[]]]]]; injection H as <- <-; discriminate.
Defined.
