(* ===== verification/JournalSafety.v ===== *)
(** * Safety of the execution journal

    Quota, stable intents, maintenance fences and recovery attempts over histories
    of the journal, with the concrete runs that show the hypotheses can hold. *)

From Stdlib Require Import ZArith Lia Bool Ascii Floats.
From stdpp Require Import base strings option list pretty relations.
From S2P Require Import Prelude JsNumber JsObject JsDate JsValue AccountRisk RiskState RiskLedger Json Execution.
From S2P Require Import ExecutionJournal JournalHistory.

Local Open Scope Z_scope.

(** ** The quota state around the journal's edits *)

Lemma claims_edit m a b id k : claims m (set_audit a (add_block b id k)) = claims m k.
Proof. unfold claims, usage_claims. by destruct m, b. Qed.
Lemma claims_edit_delete m a b id k : claims m (set_audit a (delete_block b id k)) = claims m k.
Proof. unfold claims, usage_claims. by destruct m, b. Qed.
Lemma used_edit m a b id k :
  u_usedDailyNotional (usage_of m (set_audit a (add_block b id k))) = u_usedDailyNotional (usage_of m k).
Proof. by destruct m, b. Qed.
Lemma used_edit_delete m a b id k :
  u_usedDailyNotional (usage_of m (set_audit a (delete_block b id k))) = u_usedDailyNotional (usage_of m k).
Proof. by destruct m, b. Qed.
Lemma reserved_edit m a b id k : reserved_of m (set_audit a (add_block b id k)) = reserved_of m k.
Proof. unfold reserved_of. by destruct m, b. Qed.

(** The blocks after one was added. *)
Lemma blocks_edit m a b id k :
  default [] (u_executionBlocks (usage_of m (set_audit a (add_block b id k)))) =
  (if decide (m = b) then o_set id true (default [] (u_executionBlocks (usage_of m k)))
   else default [] (u_executionBlocks (usage_of m k))).
Proof. by destruct m, b. Qed.

Lemma unblocked s m : exposure_blocked s = false -> default [] (u_executionBlocks (usage_of m s)) = [].
Proof.
  unfold exposure_blocked, block_ids. rewrite existsb_none. intros H.
  specialize (H (usage_of m s)). assert (In (usage_of m s) [st_paper s; st_live s]) as Hin by (destruct m; cbn; auto).
  apply H in Hin. apply Nat.ltb_ge in Hin. destruct (default [] _); [done|cbn in Hin; lia].
Qed.

(** The usage a transaction's ledger has loaded does not depend on the account-risk entries. *)
Lemma run_op_loaded {T} J (op : ST ExecutionRiskState JournalError T) s t s' :
  run_op J op s = Ok (t, s') -> exists d, normalizedState (es_risk s) = Ok d.
Proof.
  unfold run_op. intros (_ & _ & H)%bind_Ok. apply bind_Ok in H as (c & Hc & _).
  unfold newLedger, loadLatest, mbind, ST_bind, lift, reads in Hc.
  destruct (validateConfig _); [|done]. cbn [store_load memory_store mbind result_bind] in Hc.
  destruct (normalizedState (es_risk s)) as [d|]; [eauto|done].
Qed.

Lemma normalized_account o k d d' :
  normalizedState k = Ok d -> normalizedState (set_accountRisk o k) = Ok d' -> d = d'.
Proof.
  intros H H'. pose proof (normalizedState_Ok _ _ H) as (_ & _ & Ha & Hr).
  pose proof (normalizedState_Ok _ _ H') as (_ & _ & Ha' & Hr').
  assert (forall m, usage_of m d = usage_of m d') as Hu.
  { intros m. apply (normalizedState_usage _ _ m) in H, H'. replace (usage_of m (set_accountRisk o k)) with (usage_of m k) in H' by by destruct m.
    congruence. }
  pose proof (Hu Paper). pose proof (Hu Live). destruct d, d'. cbn in *. congruence.
Qed.

Section Safety.
Variable sha256 : string -> string.
Context {W : Type} {HS : ExecutionStore W} {HL : ExecutionStoreLaws W}.

(** Preparing an exposure claims its quota or nothing: when [prepare] of an order
    that counts returns, no execution of either mode was unresolved, the order was
    within the limits of the refreshed usage, and the new state has one more
    record, prepared, and one more claim, of its notional and tied to it, with the
    reserved amount again the sum of the claims. *)
Theorem prepare_claims_quota J d intent notional options (w : W) entry w' :
  prepare sha256 J d intent notional true options w = (Ok entry, w') ->
  let mode := rc_mode (jn_config J) in let symbol := intent_symbol intent in
  exists s s' usage s1,
    exec_load w = Ok s /\ exec_load w' = Ok s' /\
    (forall r, In r (records_of s) -> isUnresolvedExecution r = false) /\
    records_of s' = records_of s ++ [entry] /\ newborn entry /\ ex_id entry = d_id d /\
    ex_reservationId entry = Some (d_reservationId d) /\ ex_notional entry = notional /\
    normalizedState (es_risk s) = Ok usage /\ refreshDraft (d_ledgerNow d) mode usage = Ok s1 /\
    admissible (jn_config J) symbol notional s1 /\
    claims mode (es_risk s') = o_set (d_reservationId d)
      (new_claim mode (d_reservationId d) symbol notional (Some (d_id d))) (claims mode s1) /\
    u_usedDailyNotional (usage_of mode (es_risk s')) = u_usedDailyNotional (usage_of mode s1) /\
    sumReservations (claims mode (es_risk s')) = Ok (reserved_of mode (es_risk s')).
Proof.
  unfold prepare. intros (s & s' & Hs & Hr & Hs')%journal_transact_Ok. cbv zeta.
  destruct (run_op_loaded _ _ _ _ _ Hr) as [usage0 Hn0]. apply run_op_Ok in Hr as (Hv & Hr & Hv').
  apply prepare_Ok in Hr as (_ & _ & _ & -> & Hrec & _ & o & k & h & a & Hres & Hrisk & _).
  apply (reserve_returned (W := TradingRiskState)) in Hres
    as (s0 & usage & s1 & s2 & Hs0 & Hn & Hrf & Hadm & _ & Hst & Hcl & Hused & Hsum & _ & _ & _ & _ & Hbl).
  injection Hs0 as <-. destruct Hst as ([= <-] & _). exists s, s', usage, s1.
  pose proof (normalized_account _ _ _ _ Hn0 Hn) as ->.
  split_and!; try done.
  - intros r Hr. destruct (isUnresolvedExecution r) eqn:Eu; [|done]. exfalso.
    pose proof (valid_ids _ Hv') as Hnd. rewrite Hrec, map_app in Hnd. apply NoDup_app in Hnd as (_ & Hsep & _).
    apply (Hsep (ex_id r)); [by apply list_elem_of_In, in_map|]. apply list_elem_of_In. left. cbn [new_record ex_id].
    assert (In r (records_of s')) as Hr' by (rewrite Hrec; apply in_app_iff; by left).
    apply (con_block s' (valid_consistent _ Hv') r Hr') in Eu. unfold blocks_of in Eu.
    rewrite Hrisk, blocks_edit, Hbl, (unblocked s1) in Eu by apply Hadm.
    destruct (decide _); [|done]. cbn in Eu. destruct (String.eqb_spec (ex_id r) (d_id d)); [by subst|done].
  - by rewrite Hrisk, claims_edit.
  - by rewrite Hrisk, used_edit.
  - by rewrite Hrisk, claims_edit, reserved_edit.
Qed.

(** Settling returns the quota exactly once: when [settle] returns [true], the
    record was unresolved and is now the last one, resolved, with that settlement;
    its block is gone; its claim is gone from both modes, and the amount used of
    the claim's mode grew by the settled notional on a commit and not at all on a
    release. *)
Theorem settle_returns_quota J d id outcome notional status evidence revision (w w' : W) :
  settle sha256 J d id outcome notional status evidence revision w = (Ok true, w') ->
  exists s s' r r' before,
    exec_load w = Ok s /\ exec_load w' = Ok s' /\
    In r (records_of s) /\ ex_id r = id /\ isUnresolvedExecution r = true /\
    records_of s' = before ++ [r'] /\ ex_id r' = id /\ ex_status r' = status /\ isUnresolvedExecution r' = false /\
    ex_revision r' = ex_revision r + 1 /\ ex_settlement r' = Some (settlement_of outcome notional) /\
    o_get id (blocks_of (sc_mode (ex_scope r)) s') <> Some true /\
    (given (ex_reservationId r) = true ->
     exists claim mode usage s1,
       ex_reservationId r = Some claim /\ normalizedState (es_risk s) = Ok usage /\
       refreshDraft (d_ledgerNow d) Live usage = Ok s1 /\
       (forall m, o_get claim (claims m (es_risk s')) = None) /\
       exists c, o_get claim (claims mode s1) = Some c /\ res_executionId c = Some id /\
         u_usedDailyNotional (usage_of mode (es_risk s')) =
           settled_used outcome (Some notional) c (u_usedDailyNotional (usage_of mode s1)) /\
         u_usedDailyNotional (usage_of (other mode) (es_risk s')) =
           u_usedDailyNotional (usage_of (other mode) s1)).
Proof.
  unfold settle. intros (s & s' & Hs & Hr & Hs')%journal_transact_Ok.
  apply run_op_Ok in Hr as (Hv & Hr & Hv'). apply settle_Ok in Hr as (r & Hf & Hu & _ & _ & k & a & Hcl & H).
  cbv zeta in H. destruct H as [Hrisk Hrec]. destruct (find_unique_In _ _ _ Hf) as [Hin Hid].
  match type of Hrec with context [_ ++ [?r']] => set (x := r') in * end.
  match type of Hrec with context [?l ++ [x]] => destruct (trim_snoc l x) as [before Hb] end. rewrite Hb in Hrec.
  assert (In x (records_of s')) as Hx by (rewrite Hrec; apply in_app_iff; right; by left).
  pose proof (valid_settled s' Hv' x Hx eq_refl) as Hux.
  exists s, s', r, x, before. split_and!; try done.
  - intros Hblk. assert (isUnresolvedExecution x = true) as Hc; [|congruence].
    apply (con_block s' (valid_consistent _ Hv') x Hx). unfold x. cbn. by rewrite Hid.
  - intros Hg. unfold settles_claim in Hcl. rewrite Hg in Hcl. destruct Hcl as [[] Hrc].
    destruct (ex_reservationId r) as [claim|] eqn:Er; [|done]. cbn [default] in Hrc.
    apply (reconcile_returned (W := TradingRiskState)) in Hrc
      as (s0 & usage & s1 & s2 & mode & c & Hs0 & Hn & Hrf & Hst & Hget & Hother & Hex & Hdel & Hused & Hdel2 & Hused2 & _).
    injection Hs0 as <-. destruct Hst as ([= <-] & _). exists claim, mode, usage, s1. split_and!; try done.
    + intros m. rewrite Hrisk, claims_edit_delete. destruct (decide (m = mode)) as [->|Hm].
      * rewrite Hdel. apply o_get_delete_eq.
      * assert (m = other mode) as -> by (by destruct m, mode). by rewrite Hdel2.
    + exists c. rewrite Hrisk, !used_edit_delete, Hex, Hid. done.
Qed.
(** *** Stable intents *)

(** The intent of this key is recorded for an execution that was not released. *)
Definition spent (key id : string) (s : ExecutionRiskState) : Prop :=
  (exists known, o_get key (intent_keys s) = Some known /\ ik_executionId known = id) /\
  forall r, In r (records_of s) -> ex_id r = id -> isUnresolvedExecution r = false /\ released r = false.

Lemma evolves_spent settling r r' :
  evolves settling r r' -> isUnresolvedExecution r = false -> released r = false ->
  isUnresolvedExecution r' = false /\ released r' = false.
Proof. destruct 1; intros Hu Hr; try congruence; try done. unfold isUnresolvedExecution in *. by rewrite H in Hu. Qed.

Lemma spent_refuses key id J d i intent notional c options s entry s' :
  spent key id s -> po_intentId options = Some i -> intentKey sha256 J i = key ->
  prepare_op sha256 J d intent notional c options s = (Ok entry, s') -> False.
Proof.
  intros [(known & Hk & Hid) Hrel] Hi Hkey H. apply prepare_Ok in H as (_ & _ & Hfree & _).
  specialize (Hfree i Hi). rewrite Hkey in Hfree. destruct (Hfree known Hk) as (_ & r & Hf & _ & Hr).
  destruct (find_unique_In _ _ _ Hf) as [Hin Hri]. destruct (Hrel r Hin) as [_ Hr']; congruence.
Qed.

Lemma spent_kept key id J c s s' :
  drawn c <> Some id -> spent key id s -> committed sha256 J c s s' -> spent key id s'.
Proof.
  intros Hd Hs Hc. pose proof Hs as [(known & Hk & Hid) Hrel].
  destruct (committed_effect _ _ _ _ _ Hc) as [[Hback _] _ Hkeys]. split.
  - exists known. split; [|done]. destruct (Hkeys key known Hk) as [?|(d & intent & n & b & o & i & -> & Hi & Hkey)]; [done|].
    exfalso. apply run_op_Ok in Hc as (_ & Hc & _). apply effect_Ok in Hc as [a Hc]. by eapply spent_refuses.
  - intros r' Hr' He. destruct (Hback r' Hr') as [(r & Hr & Hev)|[Hdr _]]; [|congruence].
    destruct (Hrel r Hr) as [Hu Hrr]; [rewrite <- He; symmetry; by eapply evolves_id|]. by eapply evolves_spent.
Qed.

(** C21: a stable intent is executed at most once: when the execution recorded for it
    has been settled with a commit, no runtime of the account can ever prepare the
    intent again, even after the record itself was trimmed from the history. *)
Theorem intent_executes_once J d id notional status evidence revision (w w1 : W) i J' d' intent' notional' c' options h :
  settle sha256 J d id Commit notional status evidence revision w = (Ok true, w1) ->
  fst (findIntent sha256 J i w1) = Ok (Some id) ->
  (forall J c, In (J, c) h -> drawn c <> Some id) ->
  intentKey sha256 J' i = intentKey sha256 J i -> po_intentId options = Some i ->
  isOk (fst (prepare sha256 J' d' intent' notional' c' options (run_history sha256 h w1))) = false.
Proof.
  unfold settle. intros (s & s1 & Hs & Hr & Hs1)%journal_transact_Ok Hfind Hh Hkey Hi.
  assert (spent (intentKey sha256 J i) id s1) as Hsp.
  { split.
    - unfold findIntent, reads in Hfind. rewrite Hs1 in Hfind. cbn in Hfind. unfold intent_keys.
      destruct (es_executions s1) as [j|]; [|done]. destruct (o_get _ _) as [k|]; [|done]. injection Hfind as Hk. eauto.
    - apply run_op_Ok in Hr as (Hv & Hr & Hv'). apply settle_Ok in Hr as (r & Hf & _ & _ & _ & k & a & _ & H).
      cbv zeta in H. destruct H as [_ Hrec]. destruct (find_unique_In _ _ _ Hf) as [Hin Hid].
      intros x Hx Hxid. assert (x = set_status status (toISOString (d_later d)) (set_settlement (settlement_of Commit notional) evidence r)) as ->.
      { apply (inj_ids (records_of s1)); [by apply valid_ids|done|rewrite Hrec; apply trim_last|cbn; congruence]. }
      split; [|done]. by apply (valid_settled s1 Hv'). }
  destruct (history_invariant sha256 (spent (intentKey sha256 J i) id) h w1 s1) as (s2 & Hs2 & Hsp2);
    [intros J0 c0 t t' Hin; apply spent_kept; eauto|done|done|].
  destruct (prepare _ J' _ _ _ _ _ _) as [[e|x] w3] eqn:E; [|done]. exfalso. unfold prepare in E.
  apply journal_transact_Ok in E as (s3 & s4 & Hs3 & (_ & H & _)%run_op_Ok & _).
  assert (s3 = s2) as -> by congruence. by eapply spent_refuses.
Qed.

(** *** Maintenance *)

(** The admission generation has passed [g]. *)
Lemma generation_kept g J c s s' :
  g < generation_of s -> committed sha256 J c s s' -> g < generation_of s'.
Proof. intros Hg Hc. destruct (committed_effect _ _ _ _ _ Hc) as [_ ? _]. lia. Qed.

(** Completing a maintenance fences the runtimes admitted before it: none of them
    can prepare or begin a submission ever after. *)
Theorem stale_runtime_is_fenced J d id reference (w w1 : W) J2 s J' h d' intent notional c options id' riskRevision :
  exec_load w = Ok s -> completeMaintenance J d id reference w = (Ok J2, w1) ->
  jn_admissionGeneration J' <= generation_of s ->
  let w2 := run_history sha256 h w1 in
  isOk (fst (prepare sha256 J' d' intent notional c options w2)) = false /\
  isOk (fst (begin_ sha256 J' d' id' riskRevision w2)) = false.
Proof.
  intros Hs Hc Hg. unfold completeMaintenance in Hc. apply st_bind_Ok in Hc as (u & w0 & Hc & Hret). injection Hret as _ ->.
  apply journal_transact_Ok in Hc as (s0 & s1 & Hs0 & Hr & Hs1). assert (s0 = s) as -> by congruence.
  apply run_op_Ok in Hr as (Hv & Hr & _). apply completeMaintenance_Ok in Hr as (_ & _ & _ & m & Hm & Hgen).
  assert (jn_admissionGeneration J' < generation_of s1) as Hlt.
  { destruct (mt_nextGeneration m) as [g|] eqn:En; cbn in Hgen; [|lia]. rewrite (maintenance_next _ _ _ Hv Hm En) in Hgen. lia. }
  destruct (history_invariant sha256 (fun s => jn_admissionGeneration J' < generation_of s) h w1 s1)
    as (s2 & Hs2 & Hlt2); [intros ? ? ? ? _; apply generation_kept|done|done|]. cbv zeta. split.
  - destruct (prepare _ J' _ _ _ _ _ _) as [[e|x] w3] eqn:E; [|done]. exfalso. unfold prepare in E.
    apply journal_transact_Ok in E as (s3 & s4 & Hs3 & (_ & H & _)%run_op_Ok & _).
    assert (s3 = s2) as -> by congruence. apply prepare_Ok in H as (_ & H & _). lia.
  - destruct (begin_ _ J' _ _ _ _) as [[e|x] w3] eqn:E; [|done]. exfalso. unfold begin_ in E.
    apply journal_transact_Ok in E as (s3 & s4 & Hs3 & (_ & H & _)%run_op_Ok & _).
    assert (s3 = s2) as -> by congruence. apply begin_Ok in H as (_ & H & _). lia.
Qed.

(** *** Recovery attempts *)

Definition attempted (id : string) (n : Z) (s : ExecutionRiskState) : Prop :=
  forall r, In r (records_of s) -> ex_id r = id -> n <= ex_attempts r.

Lemma attempted_kept id n J c s s' :
  drawn c <> Some id -> attempted id n s -> committed sha256 J c s s' -> attempted id n s'.
Proof.
  intros Hd Ha Hc r' Hr' He. destruct (committed_effect _ _ _ _ _ Hc) as [[Hback _] _ _].
  destruct (Hback r' Hr') as [(r & Hr & Hev)|[Hdr _]]; [|congruence].
  assert (n <= ex_attempts r) by (apply Ha; [done|]; rewrite <- He; symmetry; by eapply evolves_id).
  destruct Hev; cbn; lia.
Qed.

(** What a granted attempt is. *)
Lemma claimAttempt_Some d id next s r s' :
  claimAttempt_op d id next s = (Ok (Some r), s') ->
  exists r0, find_record id s = Some r0 /\ isUnresolvedExecution r0 = true /\ ex_status r0 <> Prepared /\
    ex_attempts r0 < MAX_RECOVERY_ATTEMPTS /\ r = set_attempt next (toISOString (d_later d)) r0 /\
    (forall t, ex_nextAttemptAt r0 = Some t -> t <> ""%string -> String.ltb (toISOString (d_now d)) t = false) /\
    records_of s' = put_record r (records_of s).
Proof.
  unfold claimAttempt_op. intros H. bind_inv H Hf. apply find_Ok in Hf as [-> Hf]. exists a.
  destruct (_ || _) eqn:Eu; [op_inv; discriminate|]. apply orb_false_iff in Eu as [Eu1%negb_false_iff Eu2%bool_decide_eq_false].
  destruct (_ <=? _) eqn:Em.
  { case_bool_decide; [op_inv; discriminate|]. bind_inv H Ht. op_inv. discriminate. }
  bind_inv H Hn. unfold given, too_early in *.
  assert (s0 = s) as ->.
  { destruct (ex_nextAttemptAt a) as [t|]; [destruct (negb _)|]; [apply isoTime_Ok in Hn as (_ & _ & ->)| |]; by op_inv. }
  destruct (ex_nextAttemptAt a) as [t|] eqn:En.
  - destruct (negb (String.eqb t "")) eqn:Et; cbn [andb] in H.
    + apply isoTime_Ok in Hn as (_ & -> & _). destruct (String.ltb _ t) eqn:El; [op_inv; discriminate|]. op_inv. simplify_eq.
      split_and!; try done; [lia|by intros ? [= <-]|]. apply records_store.
    + op_inv. simplify_eq. split_and!; try done; [lia| |apply records_store].
      intros ? [= <-] Hne. apply negb_false_iff, String.eqb_eq in Et. done.
  - op_inv. simplify_eq. split_and!; try done; [lia|]. apply records_store.
Qed.

(** Recovery looks an execution up at most nine times, over all runtimes: every
    granted attempt carries a number of at most nine, greater than that of every
    attempt granted before it, and is granted only to a submission that has begun
    and is unresolved. *)
Theorem recovery_attempts_bounded J d id next (w : W) r w1 h J' d' next' r' w2 :
  claimAttempt J d id next w = (Ok (Some r), w1) ->
  (forall J c, In (J, c) h -> drawn c <> Some id) ->
  claimAttempt J' d' id next' (run_history sha256 h w1) = (Ok (Some r'), w2) ->
  ex_attempts r < ex_attempts r' <= MAX_RECOVERY_ATTEMPTS /\
  ex_status r' <> Prepared /\ isUnresolvedExecution r' = true.
Proof.
  unfold claimAttempt. intros (s & s1 & Hs & (Hv & Hr & Hv')%run_op_Ok & Hs1)%journal_transact_Ok Hh
    (s2 & s3 & Hs2 & (_ & Hr2 & _)%run_op_Ok & _)%journal_transact_Ok.
  apply claimAttempt_Some in Hr as (r0 & Hf & _ & _ & _ & -> & _ & Hrec).
  destruct (find_unique_In _ _ _ Hf) as [Hin Hid].
  assert (attempted id (ex_attempts r0 + 1) s1) as Ha.
  { intros x Hx Hxid. rewrite Hrec in Hx. apply put_In in Hx as [[_ Hne]|[-> _]]; [|done|by apply valid_ids].
    destruct Hne. by rewrite Hxid, <- Hid. }
  destruct (history_invariant sha256 (attempted id (ex_attempts r0 + 1)) h w1 s1) as (s4 & Hs4 & Ha4);
    [intros J0 c0 t t' Hi; apply attempted_kept; eauto|done|done|].
  assert (s4 = s2) as -> by congruence. apply claimAttempt_Some in Hr2 as (r2 & Hf2 & Hu & Hp & Hm & -> & _ & _).
  destruct (find_unique_In _ _ _ Hf2) as [Hin2 Hid2]. specialize (Ha4 r2 Hin2 Hid2). cbn. split_and!; try done; lia.
Qed.
End Safety.

(** ** Concrete runs *)

Definition example_order (filled cost : number) : EvidenceOrder :=
  {| eo_id := "order-1"; eo_clientOrderId := Some "ti0"%string; eo_symbol := "BTC/USDT"; eo_side := Buy;
     eo_amount := 2%float; eo_filled := filled; eo_remaining := (2 - filled)%float; eo_cost := cost;
     eo_status := ClosedOrder; eo_orderListId := None; eo_listClientOrderId := None; eo_type := Some Limit;
     eo_price := Some 10%float; eo_stopPrice := None; eo_reduceOnly := None; eo_positionSide := None;
     eo_closePosition := None; eo_trailingPercent := None; eo_activationPrice := None; eo_callbackRate := None;
     eo_feeObservation := None |}.

Definition example_evidence : ExecutionEvidence :=
  {| evd_source := FromSubmission; evd_observedAt := "2024-01-01T00:00:00.000Z";
     evd_orders := [example_order 2 19]; evd_reference := None; evd_fee := None |}.

Definition example_settle : ST ExecutionRiskState JournalError bool :=
  settle toy_sha256 example_journal (example_draws "s") "exec-1" Commit 19%float Acknowledged
    (Some example_evidence) None.
Definition settled_exec : ExecutionRiskState := Eval vm_compute in snd (example_settle begun_exec).

Lemma example_prepares : exists r, example_prepare "exec-1" example_exec = (Ok r, prepared_exec).
Proof. eexists. vm_compute. reflexivity. Qed.
Lemma example_settles : example_settle begun_exec = (Ok true, settled_exec).
Proof. vm_compute. reflexivity. Qed.

Lemma prepare_claims_quota_witness :
  exists s', exec_load prepared_exec = Ok s' /\
    sumReservations (claims Live (es_risk s')) = Ok (reserved_of Live (es_risk s')).
Proof.
  destruct example_prepares as [r Hr].
  destruct (prepare_claims_quota toy_sha256 example_journal (example_draws "exec-1")
    (OrderIntent example_input None) 20%float example_options example_exec r prepared_exec Hr)
    as (s & s' & usage & s1 & _ & Hs' & _ & _ & _ & _ & _ & _ & _ & _ & _ & _ & _ & Hsum).
  exists s'. split; [exact Hs'|exact Hsum].
Defined.

Lemma settle_returns_quota_witness :
  exists s', exec_load settled_exec = Ok s' /\ o_get "exec-1" (blocks_of Live s') <> Some true.
Proof.
  destruct (settle_returns_quota toy_sha256 example_journal (example_draws "s") "exec-1" Commit 19%float
    Acknowledged (Some example_evidence) None begun_exec settled_exec example_settles)
    as (s & s' & r & r' & before & Hs & Hs' & Hin & _ & _ & _ & _ & _ & _ & _ & _ & Hb & _).
  exists s'. split; [exact Hs'|]. rewrite memory_load in Hs. injection Hs as <-.
  destruct Hin as [<-|[]]. exact Hb.
Defined.

(** What the settlement did to the day's usage: 25 before, 44 after, nothing reserved. *)
Example settled_usage :
  (u_usedDailyNotional (st_live (es_risk settled_exec)), reserved_of Live (es_risk settled_exec)) = (44%float, 0%float).
Proof. reflexivity. Qed.

Lemma intent_executes_once_witness :
  fst (findIntent toy_sha256 example_journal "intent-1" settled_exec) = Ok (Some "exec-1"%string) /\
  isOk (fst (example_prepare "exec-3" settled_exec)) = false.
Proof.
  assert (fst (findIntent toy_sha256 example_journal "intent-1" settled_exec) = Ok (Some "exec-1"%string)) as Hf
    by (vm_compute; reflexivity).
  split; [exact Hf|].
  apply (intent_executes_once toy_sha256 example_journal (example_draws "s") "exec-1" 19%float Acknowledged
    (Some example_evidence) None begun_exec settled_exec "intent-1" example_journal (example_draws "exec-3")
    (OrderIntent example_input None) 20%float true example_options [] example_settles Hf);
    [by intros J c []|reflexivity|reflexivity].
Defined.

(** Maintenance of the settled store, and its completion by the owner. *)
Definition example_maintain : ST ExecutionRiskState JournalError (ExecutionMaintenance * Journal) :=
  beginMaintenance example_journal (example_draws "m-1") PaperReset.
Definition maintained_exec : ExecutionRiskState := Eval vm_compute in snd (example_maintain settled_exec).
Definition owner_journal : Journal :=
  {| jn_config := example_config; jn_scope := example_scope; jn_admissionGeneration := 0; jn_ownedMaintenance := ["m-1"%string] |}.
Definition example_complete : ST ExecutionRiskState JournalError Journal :=
  completeMaintenance owner_journal (example_draws "m-2") "m-1" None.
Definition completed_exec : ExecutionRiskState := Eval vm_compute in snd (example_complete maintained_exec).

Lemma example_completes : example_complete maintained_exec = (Ok example_journal, completed_exec).
Proof. vm_compute. reflexivity. Qed.

Lemma stale_runtime_is_fenced_witness :
  isOk (fst (example_complete maintained_exec)) = true /\
  isOk (fst (example_prepare "exec-4" completed_exec)) = false.
Proof.
  split; [rewrite example_completes; reflexivity|].
  apply (stale_runtime_is_fenced toy_sha256 owner_journal (example_draws "m-2") "m-1" None maintained_exec
    completed_exec example_journal maintained_exec example_journal [] (example_draws "exec-4")
    (OrderIntent example_input None) 20%float true example_options "exec-1" None (memory_load _) example_completes).
  discriminate.
Defined.

Definition example_claim (at_ : string) : ST ExecutionRiskState JournalError (option ExecutionRecord) :=
  claimAttempt example_journal (example_draws "c") "exec-1" at_.
Definition claimed_exec : ExecutionRiskState := Eval vm_compute in snd (example_claim "2024-01-01T00:00:00.000Z" begun_exec).
Definition claimed_twice : ExecutionRiskState := Eval vm_compute in snd (example_claim "2024-01-01T00:00:01.000Z" claimed_exec).

Lemma example_claims :
  exists r r', example_claim "2024-01-01T00:00:00.000Z" begun_exec = (Ok (Some r), claimed_exec) /\
    example_claim "2024-01-01T00:00:01.000Z" claimed_exec = (Ok (Some r'), claimed_twice).
Proof. do 2 eexists. split; vm_compute; reflexivity. Qed.

(** A third attempt comes too early. *)
Example example_too_early : fst (example_claim "2024-01-01T00:00:02.000Z" claimed_twice) = Ok None.
Proof. vm_compute. reflexivity. Qed.

Lemma recovery_attempts_bounded_witness :
  exists r r', fst (example_claim "2024-01-01T00:00:00.000Z" begun_exec) = Ok (Some r) /\
    fst (example_claim "2024-01-01T00:00:01.000Z" claimed_exec) = Ok (Some r') /\
    ex_attempts r < ex_attempts r' <= MAX_RECOVERY_ATTEMPTS.
Proof.
  destruct example_claims as (r & r' & Hr & Hr'). exists r, r'.
  split; [rewrite Hr; reflexivity|]. split; [rewrite Hr'; reflexivity|].
  apply (recovery_attempts_bounded toy_sha256 example_journal (example_draws "c") "exec-1"
    "2024-01-01T00:00:00.000Z" begun_exec r claimed_exec [] example_journal (example_draws "c")
    "2024-01-01T00:00:01.000Z" r' claimed_twice Hr); [by intros J c []|exact Hr'].
Defined.
