(* ===== verification/ExecutionRecovery.v ===== *)
(** * Recovery of uncertain executions (packages/trading-engine/src/execution-recovery.ts)

    What counts as evidence of an execution, the bounded recovery of unresolved
    records by correlated lookups, and their resolution by an operator. *)

From Stdlib Require Import ZArith Lia Bool Ascii Floats.
From stdpp Require Import base strings option list.
From S2P Require Import Prelude JsNumber JsObject JsDate JsValue AccountRisk RiskState RiskLedger JsFloat JsMath JsText Json Execution.
From S2P Require Import Venues Capabilities ExecutionJournal.

Local Open Scope float_scope.

(** ** Orders as exchanges report them (types.ts) *)

Record Order := {
  o_id : string;
  o_symbol : string;
  o_side : OrderSide;
  o_type : option OrderType;
  o_price : option number;
  o_stopPrice : option number;
  o_trailingPercent : option number;
  o_activationPrice : option number;
  o_callbackRate : option number;
  o_ocoGroup : option string;
  o_clientOrderId : option string;
  o_orderListId : option string;
  o_listClientOrderId : option string;
  o_listOrderStatus : option string;
  o_positionSide : option PositionSide;
  o_reduceOnly : option bool;
  o_closePosition : option bool;
  o_amount : number;
  o_filled : number;
  o_remaining : number;
  o_average : option number;
  o_cost : number;
  o_feeObservation : option OrderFeeObservation;
  o_status : OrderStatus;
  o_timestamp : number
}.

(** [PlaceOrderResult | PlaceOcoOrderResult] *)
Inductive PlaceResult := OrderResult (order : Order) | OcoResult (orders : list Order).

Definition result_orders (result : PlaceResult) : list Order :=
  match result with OrderResult o => [o] | OcoResult l => l end.

Definition sameExecutionScope (left right : ExecutionScope) : bool := bool_decide (left = right).

Inductive EvidenceProblem :=
  | IncompleteEvidence | ConflictingEvidence | EvidenceRegressed | IncompleteFill | UncorrelatedOrder
  | ConflictingPositionSide | UncorrelatedLeg | ConflictingList | OcoOverfilled | InvalidTotalCost.

(** [Number.MIN_VALUE] *)
Definition MIN_VALUE : number := 0x1p-1074.

Section Recovery.
Variable sha256 : string -> string.
(** The exponentiation operator, whose result the language leaves to the implementation. *)
Variable pow : number -> number -> number.
Variables toUpperCase toLowerCase : string -> string.

(** *** Amounts *)

(** [text.replace(/0+$/, "")] and [text.replace(/\.$/, "")] *)
Fixpoint drop_zeros (s : string) : string :=
  match s with
  | EmptyString => EmptyString
  | String c r =>
      if all_chars (Ascii.eqb "0"%char) s then EmptyString else String c (drop_zeros r)
  end.
Fixpoint drop_dot (s : string) : string :=
  match s with
  | EmptyString => EmptyString
  | String c EmptyString => if Ascii.eqb c "."%char then EmptyString else s
  | String c r => String c (drop_dot r)
  end.

(** The characters after the first dot. *)
Definition decimals_of (text : string) : Z :=
  match split_on "."%char text with
  | whole :: (_ :: _) as parts => (lengthZ text - lengthZ whole - 1)%Z
  | _ => 0%Z
  end.

Definition decimalStepOf (value : number) : option number :=
  if negb (isFinite value) || (value <? 0) then None
  else
    let decimals := decimals_of (drop_dot (drop_zeros (toFixed 16 value))) in
    if (16 <? decimals)%Z then None else Some (pow 10 (of_Z (- decimals))).

(** [Math.max(Number.MIN_VALUE, Math.abs(amount) * 1e-8)] *)
Definition tolerance_of (amount : number) : number := Math_max MIN_VALUE (Math_abs amount * 0x1.5798ee2308c3ap-27).

Definition requestedAmountAgreesWithReported (requested reported : number) : bool :=
  let tolerance := tolerance_of requested in
  if Math_abs (reported - requested) <=? tolerance then true
  else match decimalStepOf reported with
  | None => false
  | Some step =>
      if Math_abs requested * 0.5 <? step then false
      else
        let rounded := Math_round (requested / step) * step in
        Math_abs (reported - rounded) <=? Math_max tolerance (step * 0x1.0c6f7a0b5ed8dp-20)
  end.

(** *** Evidence *)

(** The identities seen so far in the loop over the orders. *)
Definition Seen : Type := list string * list string.

Definition closes_all (intent : ExecutionIntent) : bool :=
  match intent with OrderIntent input _ => isTrue (in_closePosition input) | OcoIntent _ => false end.

Definition known_status (s : OrderStatus) : bool := negb (bool_decide (s = UnknownOrder)).

Definition finite_nonnegative (n : number) : bool := isFinite n && (0 <=? n).

Definition opt_eqb (a b : option string) : bool := bool_decide (a = b).

Section Evidence.
Variable entry : ExecutionRecord.

Definition nativeOco : bool :=
  bool_decide (sc_mode (ex_scope entry) = Paper)
  || v_supportsNativeOrderList (resolveLiveVenue (sc_exchange (ex_scope entry))) Spot.

Definition is_oco : bool := match ex_intent entry with OcoIntent _ => true | OrderIntent _ _ => false end.

Definition expected_orders : nat := if is_oco && nativeOco then 2 else 1.

Definition saved_order (id : string) : option EvidenceOrder :=
  find (fun saved => String.eqb (eo_id saved) id) (evidence_orders entry).

Definition order_conflicts (ids : list string) (o : Order) : bool :=
  negb (identifier (o_id o)) || String.eqb (o_id o) "unknown" || str_in ids (o_id o)
  || negb (String.eqb (o_symbol o) (intent_symbol (ex_intent entry)))
  || negb (bool_decide (o_side o = intent_side (ex_intent entry)))
  || negb (forallb finite_nonnegative [o_amount o; o_filled o; o_remaining o; o_cost o])
  || negb (known_status (o_status o)).

Definition order_regressed (o : Order) : bool :=
  (0 <? length (evidence_orders entry))%nat
  && match saved_order (o_id o) with
     | None => true
     | Some previous =>
         (o_filled o <? eo_filled previous) || (o_cost o <? eo_cost previous)
         || (negb (is_open previous) && bool_decide (o_status o = OpenOrder))
     end.

Definition fill_incomplete (o : Order) : bool :=
  let amount := intent_amount (ex_intent entry) in
  let tolerance := tolerance_of amount in
  let closeAll := closes_all (ex_intent entry) in
  (negb closeAll && negb (requestedAmountAgreesWithReported amount (o_amount o)))
  || (Math_max amount (o_amount o) + tolerance <? o_filled o)
  || (negb closeAll && (tolerance <? Math_abs (o_filled o + o_remaining o - o_amount o)))
  || (bool_decide (o_status o = ClosedOrder) && ((o_filled o =? 0) || (tolerance <? o_remaining o)))
  || ((0 <? o_filled o) && (o_cost o =? 0))
  || ((o_filled o =? 0) && (0 <? o_cost o)).

Definition expected_client_ids (input : PlaceOcoOrderInput) : list (option string) :=
  if nativeOco then [oco_aboveClientOrderId input; oco_belowClientOrderId input] else [oco_listClientOrderId input].

(** Correlation by client ids; [first] is [orders[0].orderListId]. *)
Definition correlated (source : EvidenceSource) (first : option string) (clientIds : list string) (o : Order) :
    result EvidenceProblem (list string) :=
  match ex_intent entry with
  | OrderIntent input _ =>
      _ ← throwIf ((match o_clientOrderId o with
                    | Some _ => negb (opt_eqb (o_clientOrderId o) (in_clientOrderId input))
                    | None => false end)
                   || (bool_decide (source = FromLookup)
                       && negb (opt_eqb (o_clientOrderId o) (in_clientOrderId input)))) UncorrelatedOrder;
      _ ← throwIf (match in_positionSide input, o_positionSide o with
                   | Some a, Some b => negb (bool_decide (a = b))
                   | _, _ => false end) ConflictingPositionSide;
      Ok clientIds
  | OcoIntent input =>
      _ ← throwIf (negb (given (o_clientOrderId o))
                   || negb (bool_decide (o_clientOrderId o ∈ expected_client_ids input))
                   || str_in clientIds (default "" (o_clientOrderId o))%string) UncorrelatedLeg;
      _ ← throwIf (nativeOco && (negb (given (o_orderListId o)) || negb (opt_eqb (o_orderListId o) first)
                    || negb (opt_eqb (o_listClientOrderId o) (oco_listClientOrderId input)))) ConflictingList;
      Ok (app clientIds [default "" (o_clientOrderId o)]%string)
  end.

Definition check_order (source : EvidenceSource) (first : option string) (seen : Seen) (o : Order) :
    result EvidenceProblem Seen :=
  let (ids, clientIds) := seen in
  _ ← throwIf (order_conflicts ids o) ConflictingEvidence;
  _ ← throwIf (order_regressed o) EvidenceRegressed;
  _ ← throwIf (fill_incomplete o) IncompleteFill;
  clientIds ← correlated source first clientIds o;
  Ok (app ids [o_id o], clientIds).

(** The fee observation kept with the order: the new one, or the saved one while it is
    at least as complete. *)
Definition valid_fee (f : option OrderFeeObservation) : option OrderFeeObservation :=
  match f with
  | Some f => if isOrderFeeObservation (feeObservation_value f)
                 && bool_decide (fo_source f = expectedFeeSource (sc_mode (ex_scope entry)))
              then Some f else None
  | None => None
  end.

Definition partial_fee (f : OrderFeeObservation) : OrderFeeObservation :=
  {| fo_source := fo_source f; fo_completeness := PartialFees; fo_charges := fo_charges f |}.

Definition kept_fee (o : Order) : option OrderFeeObservation :=
  let new := valid_fee (o_feeObservation o) in
  match saved_order (o_id o) with
  | None => new
  | Some previous =>
      let unchanged := (o_filled o =? eo_filled previous) && (o_cost o =? eo_cost previous) in
      match valid_fee (eo_feeObservation previous) with
      | None => new
      | Some prior =>
          let use_prior := match new with
            | None => true
            | Some f => bool_decide (fo_completeness f = PartialFees)
                        && bool_decide (fo_completeness prior = CompleteFees) && unchanged
            end in
          if use_prior then Some (if unchanged then prior else partial_fee prior) else new
      end
  end.

Definition kept_order (o : Order) : EvidenceOrder :=
  {| eo_id := o_id o; eo_clientOrderId := o_clientOrderId o; eo_symbol := o_symbol o; eo_side := o_side o;
     eo_amount := o_amount o; eo_filled := o_filled o; eo_remaining := o_remaining o; eo_cost := o_cost o;
     eo_status := o_status o; eo_orderListId := o_orderListId o; eo_listClientOrderId := o_listClientOrderId o;
     eo_type := o_type o; eo_price := o_price o; eo_stopPrice := o_stopPrice o; eo_reduceOnly := o_reduceOnly o;
     eo_positionSide := o_positionSide o; eo_closePosition := o_closePosition o;
     eo_trailingPercent := o_trailingPercent o; eo_activationPrice := o_activationPrice o;
     eo_callbackRate := o_callbackRate o; eo_feeObservation := kept_fee o |}.

Definition with_fee (fee : option number) (e : ExecutionEvidence) : ExecutionEvidence :=
  {| evd_source := evd_source e; evd_observedAt := evd_observedAt e; evd_orders := evd_orders e;
     evd_reference := evd_reference e; evd_fee := fee |}.

Record Observation := { ob_evidence : ExecutionEvidence; ob_notional : number; ob_outcome : SettlementOutcome }.

(** [sum] of a field from 0, in order. *)
Definition total (f : Order -> number) (orders : list Order) : number := fold_left (fun sum o => sum + f o) orders 0.

Definition executionEvidence (now : string) (answer : PlaceResult) (source : EvidenceSource) :
    result EvidenceProblem Observation :=
  let orders := result_orders answer in
  let amount := intent_amount (ex_intent entry) in
  _ ← throwIf (negb (Nat.eqb (length orders) expected_orders)) IncompleteEvidence;
  _ ← foldM (check_order source (match orders with o :: _ => o_orderListId o | [] => None end)) ([], []) orders;
  _ ← throwIf (is_oco && (amount * 0x1.0000002af31dcp0 <? total o_filled orders)) OcoOverfilled;
  let cost := total o_cost orders in
  _ ← throwIf (negb (isFinite cost)) InvalidTotalCost;
  let final := forallb (fun o => negb (bool_decide (o_status o = OpenOrder))) orders in
  let notional := if final then cost else Math_max (ex_notional entry) cost in
  let evidence := {| evd_source := source; evd_observedAt := now; evd_orders := map kept_order orders;
                     evd_reference := None; evd_fee := None |} in
  Ok {| ob_evidence := with_fee (observedExecutionFee (ex_scope entry) (Some evidence)) evidence;
        ob_notional := notional;
        ob_outcome := if notional =? 0 then Release else Commit |}.
End Evidence.

(** *** Recovery *)

Record RecoveryOptions := {
  rp_unknownOnly : bool;
  rp_maxRecords : number;
  rp_attemptsPerRecord : number;
  rp_lookupTimeoutMs : number;
  rp_backoffMs : number
}.

(** The options with their defaults taken. *)
Definition default_options : RecoveryOptions :=
  {| rp_unknownOnly := false; rp_maxRecords := 10; rp_attemptsPerRecord := 3; rp_lookupTimeoutMs := 1500;
     rp_backoffMs := 100 |}.

Definition options_refused (o : RecoveryOptions) : bool :=
  negb (isInteger (rp_maxRecords o)) || (rp_maxRecords o <? 1) || (100 <? rp_maxRecords o)
  || negb (isInteger (rp_attemptsPerRecord o)) || (rp_attemptsPerRecord o <? 1) || (3 <? rp_attemptsPerRecord o)
  || negb (isFinite (rp_lookupTimeoutMs o)) || (rp_lookupTimeoutMs o <? 1) || (10000 <? rp_lookupTimeoutMs o)
  || negb (isFinite (rp_backoffMs o)) || (rp_backoffMs o <? 0) || (1000 <? rp_backoffMs o).

Record RecoveryReport := {
  rr_examined : Z;
  rr_reconciled : Z;
  rr_unresolved : Z;
  rr_issues : list (string * ExecutionIssue)
}.

Definition examine (r : RecoveryReport) : RecoveryReport :=
  {| rr_examined := rr_examined r + 1; rr_reconciled := rr_reconciled r; rr_unresolved := rr_unresolved r;
     rr_issues := rr_issues r |}%Z.
Definition reconcile (b : bool) (r : RecoveryReport) : RecoveryReport :=
  {| rr_examined := rr_examined r; rr_reconciled := if b then rr_reconciled r + 1 else rr_reconciled r;
     rr_unresolved := rr_unresolved r; rr_issues := rr_issues r |}%Z.
Definition report_issue (id : string) (i : ExecutionIssue) (r : RecoveryReport) : RecoveryReport :=
  {| rr_examined := rr_examined r; rr_reconciled := rr_reconciled r; rr_unresolved := rr_unresolved r;
     rr_issues := app (rr_issues r) [(id, i)] |}.

Inductive RecoveryError :=
  | InvalidRecoveryOptions
  | JournalFailure (e : JournalError)
  | AbsentOrResolved | AccountsMustMatch | ChangedDuringConfirmation | TerminalEvidenceRequired | NeverStarted.

(** What an exchange answers to the lookups of one attempt; [None] is a lookup that
    throws or runs out of time. *)
Record LookupClient := {
  getOrderByClientId : option string -> string -> option Order;
  getOrderListByClientId : option string -> option (list Order)
}.

Section Run.
Context {W : Type} `{ExecutionStore W}.
Variable J : Journal.

Abbreviation Run := (ST W RecoveryError).

(** What an attempt draws: the readings of [Date.now] and of the evidence clock, those of
    its transactions, the exchange, and what the rest of the world does to the store while
    the attempt awaits its lookup and, after a failed one, the next attempt. *)
Record Attempt := {
  at_now : Z;
  at_observedAt : string;
  at_claim : Draws;
  at_close : Draws;
  at_client : LookupClient;
  at_await : W -> W;
  at_pause : W -> W
}.

(** A call of the journal: its errors reject the run. *)
Definition journal {A} (m : ST W JournalError A) : Run A := fun w =>
  let (r, w') := m w in (mapError JournalFailure r, w').

Definition await (others : W -> W) : Run unit := fun w => (Ok tt, others w).

(** A lookup that a run has made: in which attempt and for which claim. *)
Definition Lookup : Type := Attempt * ExecutionRecord.

(** A recovery keeps beside the store the lookups it has made, in their order. *)
Abbreviation Recovering := (ST (W * list Lookup) RecoveryError).
Definition stored {A} (m : Run A) : Recovering A := fun '(w, made) =>
  let (r, w') := m w in (r, (w', made)).

Definition listed : Run (list ExecutionRecord) := journal list_records.

Definition lookup (c : LookupClient) (r : ExecutionRecord) : option PlaceResult :=
  match ex_intent r with
  | OrderIntent input _ => option_map OrderResult (getOrderByClientId c (in_clientOrderId input) (in_symbol input))
  | OcoIntent input => option_map OcoResult (getOrderListByClientId c (oco_listClientOrderId input))
  end.

(** The exchange of the attempt answers the lookup of the claim. *)
Definition look (a : Attempt) (claim : ExecutionRecord) : Recovering (option PlaceResult) := fun '(w, made) =>
  (Ok (lookup (at_client a) claim), (w, app made [(a, claim)])).

Definition lookup_context (r : ExecutionRecord) : TradingCapabilityContext :=
  {| tc_exchangeId := sc_exchange (ex_scope r);
     tc_mode := sc_mode (ex_scope r);
     tc_marketFamily := if includes_char ":"%char (intent_symbol (ex_intent r)) then FuturesFamily else SpotFamily;
     tc_positionMode := Some (sc_positionMode (ex_scope r));
     tc_marketInfo := None;
     tc_metadataValid := None;
     tc_orderType := match ex_intent r with OrderIntent input _ => Some (in_type input) | OcoIntent _ => Some Oco end |}.

Definition lookup_supported (r : ExecutionRecord) : bool :=
  let capabilities := getTradingCapabilities toUpperCase toLowerCase (lookup_context r) in
  supportsCorrelatedLookup
    (match ex_intent r with
     | OrderIntent _ _ => cap_queryOrderByClientId capabilities
     | OcoIntent _ => cap_queryOrderListByClientId capabilities
     end).

(** [new Date(now + waitMs).toISOString()] *)
Definition nextAttempt (now : Z) (waitMs : number) : Run string :=
  let t := of_Z now + waitMs in
  lift (if isFinite t && validTime (trunc t) then Ok (toISOString (trunc t)) else Throw (JournalFailure InvalidTime)).

Definition find_listed (id : string) (l : list ExecutionRecord) : option ExecutionRecord :=
  find (fun r => String.eqb (ex_id r) id) l.

(** The [budget] attempts from the [n]th on one record: the issue to report, and whether it was settled. *)
Fixpoint attempt_lookups (options : RecoveryOptions) (original : ExecutionRecord) (attempts : nat -> Attempt)
    (budget n : nat) (issue : ExecutionIssue) : Recovering (ExecutionIssue * bool) :=
  match budget with
  | O => mret (issue, false)
  | S budget =>
      let a := attempts n in
      let waitMs := rp_backoffMs options * pow 2 (of_Z (Z.of_nat n)) in
      next ← stored (nextAttempt (at_now a) waitMs);
      claim ← stored (journal (claimAttempt J (at_claim a) (ex_id original) next));
      match claim with
      | None =>
          l ← stored listed;
          mret (if bool_decide (option_map ex_attempts (find_listed (ex_id original) l) = Some MAX_RECOVERY_ATTEMPTS)
                then AttemptsExhausted else issue, false)
      | Some claim =>
          _ ← stored (await (at_await a));
          found ← look a claim;
          match found with
          | None =>
              _ ← stored (journal (unknown J (at_close a) (ex_id claim) LookupUnavailable (Some (ex_revision claim))));
              _ ← (if (0 <? budget)%nat && (0 <? waitMs) then stored (await (at_pause a)) else mret tt);
              attempt_lookups options original attempts budget (S n) LookupUnavailable
          | Some answer =>
              match executionEvidence claim (at_observedAt a) answer FromLookup with
              | Throw _ =>
                  _ ← stored (journal (unknown J (at_close a) (ex_id claim) EvidenceConflict (Some (ex_revision claim))));
                  mret (EvidenceConflict, false)
              | Ok ob =>
                  done ← stored (journal (settle sha256 J (at_close a) (ex_id claim) (ob_outcome ob)
                           (ob_notional ob) Reconciled (Some (ob_evidence ob)) (Some (ex_revision claim))));
                  mret (issue, done)
              end
          end
      end
  end.

(** One record: what its turn draws is the transaction of a revocation and its attempts. *)
Record Turn := { tn_draws : Draws; tn_attempts : nat -> Attempt }.

Definition recover_record (options : RecoveryOptions) (t : Turn) (original : ExecutionRecord) (report : RecoveryReport) :
    Recovering RecoveryReport :=
  let report := examine report in
  let id := ex_id original in
  if negb (sameExecutionScope (ex_scope original) (jn_scope J))
  then mret (report_issue id AccountMismatch report)
  else if bool_decide (ex_status original = Prepared) then
    done ← stored (journal (settle sha256 J (tn_draws t) id Release 0 Reconciled None (Some (ex_revision original))));
    mret (reconcile done report)
  else if negb (lookup_supported original) then
    _ ← stored (journal (unknown J (tn_draws t) id LookupUnsupported (Some (ex_revision original))));
    mret (report_issue id LookupUnsupported report)
  else
    o ← attempt_lookups options original (tn_attempts t) (Z.to_nat (trunc (rp_attemptsPerRecord options))) 0
          LookupUnavailable;
    l ← stored listed;
    let report := reconcile (snd o) report in
    mret (if existsb (fun r => String.eqb (ex_id r) id && isUnresolvedExecution r) l
          then report_issue id (fst o) report else report).

Fixpoint recover_records (options : RecoveryOptions) (turns : nat -> Turn) (n : nat) (pending : list ExecutionRecord)
    (report : RecoveryReport) : Recovering RecoveryReport :=
  match pending with
  | [] => mret report
  | original :: rest =>
      report ← recover_record options (turns n) original report;
      recover_records options turns (S n) rest report
  end.

(** The unresolved records in the order they are taken up: those of the journal's scope
    first (a stable sort on a two-valued key). *)
Definition pending_records (options : RecoveryOptions) (l : list ExecutionRecord) : list ExecutionRecord :=
  let l := List.filter (fun r => isUnresolvedExecution r
             && (negb (rp_unknownOnly options) || bool_decide (ex_status r = UnknownOutcome))) l in
  let own r := sameExecutionScope (ex_scope r) (jn_scope J) in
  take (Z.to_nat (trunc (rp_maxRecords options)))
    (app (List.filter own l) (List.filter (fun r => negb (own r)) l)).

Definition recoverJournal (options : RecoveryOptions) (turns : nat -> Turn) : Recovering RecoveryReport :=
  if options_refused options then lift (Throw InvalidRecoveryOptions)
  else
    l ← stored listed;
    report ← recover_records options turns 0 (pending_records options l)
               {| rr_examined := 0; rr_reconciled := 0; rr_unresolved := 0; rr_issues := [] |};
    l ← stored listed;
    mret {| rr_examined := rr_examined report; rr_reconciled := rr_reconciled report;
            rr_unresolved := Z.of_nat (count isUnresolvedExecution l); rr_issues := rr_issues report |}.

(** *** Resolution by an operator *)

(** [verifiedTerminal] is the operator's attestation. *)
Record ManualExecutionResolution := {
  mr_executionId : string;
  mr_expectedRevision : Z;
  mr_accountId : string;
  mr_outcome : SettlementOutcome;
  mr_notional : number;
  mr_evidenceReference : string;
  mr_verifiedTerminal : bool
}.

Definition manuallyResolveExecution (d : Draws) (now : string) (resolution : ManualExecutionResolution) : Run unit :=
  l ← listed;
  match find_listed (mr_executionId resolution) l with
  | None => lift (Throw AbsentOrResolved)
  | Some entry =>
      _ ← lift (throwIf (negb (isUnresolvedExecution entry)) AbsentOrResolved);
      _ ← lift (throwIf (negb (sameExecutionScope (ex_scope entry) (jn_scope J))
                         || negb (String.eqb (mr_accountId resolution) (sc_accountId (ex_scope entry))))
                  AccountsMustMatch);
      _ ← lift (throwIf (negb (Z.eqb (ex_revision entry) (mr_expectedRevision resolution))) ChangedDuringConfirmation);
      _ ← lift (throwIf (negb (identifier (mr_evidenceReference resolution))
                         || negb (isFinite (mr_notional resolution)) || (mr_notional resolution <? 0)
                         || negb (mr_verifiedTerminal resolution)
                         || (bool_decide (mr_outcome resolution = Release) && negb (mr_notional resolution =? 0)))
                  TerminalEvidenceRequired);
      _ ← lift (throwIf (bool_decide (ex_status entry = Prepared)
                         && negb (bool_decide (mr_outcome resolution = Release))) NeverStarted);
      done ← journal (settle sha256 J d (ex_id entry) (mr_outcome resolution) (mr_notional resolution)
               Reconciled
               (Some {| evd_source := FromOperator; evd_observedAt := now; evd_orders := [];
                        evd_reference := Some (mr_evidenceReference resolution); evd_fee := None |})
               (Some (mr_expectedRevision resolution)));
      lift (throwIf (negb done) ChangedDuringConfirmation)
  end.
End Run.
End Recovery.
