(* ===== verification/RecoverySafety.v ===== *)
(** * Safety of recovery

    What accepted evidence proves, that a run of recovery never releases a submission
    that may have filled, what its report says, and what an operator may decide. *)

From Stdlib Require Import ZArith Lia Bool Ascii Floats.
From stdpp Require Import base strings option list.
From S2P Require Import Prelude JsNumber JsObject JsDate JsValue AccountRisk RiskState RiskLedger JsFloat JsMath Json Execution.
From S2P Require Import Venues Capabilities ExecutionJournal JournalHistory JournalSafety ExecutionRecovery.

Local Open Scope Z_scope.

(** ** Totals *)

Lemma total_from f (l : list Order) acc :
  (0 <=? acc)%float = true -> (forall o, In o l -> (0 <=? f o)%float = true) ->
  (0 <=? fold_left (fun sum o => sum + f o)%float l acc)%float = true
  /\ ((fold_left (fun sum o => sum + f o)%float l acc =? 0)%float = true ->
      (acc =? 0)%float = true /\ forall o, In o l -> (f o =? 0)%float = true).
Proof.
  revert acc. induction l as [|a l IH]; intros acc Ha Hl; cbn [fold_left]; [by split|].
  assert (Hfa : (0 <=? f a)%float = true) by (apply Hl; by left).
  destruct (IH (acc + f a)%float) as [H1 H2]; [by apply add_nonneg | intros; apply Hl; by right |].
  split; [done|]. intros [Hz Hr]%H2. apply add_zero_inv in Hz as [Hacc Hf]; [|done..].
  split; [done|]. by intros o [<-|Ho]; [|apply Hr].
Qed.

Lemma total_nonneg f l : (forall o, In o l -> (0 <=? f o)%float = true) -> (0 <=? total f l)%float = true.
Proof. intros H. by apply total_from. Qed.

(** A total of non-negative numbers is zero only when all are. *)
Lemma total_zero f l o :
  (forall o, In o l -> (0 <=? f o)%float = true) -> (total f l =? 0)%float = true -> In o l -> (f o =? 0)%float = true.
Proof. intros H Hz Ho. by apply (total_from f l 0%float). Qed.

Lemma eqb_leb x y : (x =? y)%float = true -> (x <=? y)%float = true /\ (y <=? x)%float = true.
Proof. intros H. keys. split; apply leb_key; do 2 eexists; (split_and!; [eassumption..|key_lia]). Qed.

Lemma leb_antisym x y : (x <=? y)%float = true -> (y <=? x)%float = true -> (x =? y)%float = true.
Proof.
  intros H1 H2. keys. apply eqb_key. eexists. split; [eassumption|].
  match goal with H : fkey y = Some ?b |- fkey y = Some ?a => replace a with b; [done|] end.
  repeat match goal with k : key |- _ => destruct k as [[? ?] ?] end. cbn in *. repeat f_equal; lia.
Qed.

Lemma max_zero a b :
  (0 <=? b)%float = true -> (Math_max a b =? 0)%float = true -> (a <=? 0)%float = true /\ (b =? 0)%float = true.
Proof.
  intros Hb Hm. destruct (is_nan a) eqn:Ea.
  { unfold Math_max in Hm. rewrite Ea in Hm. by apply eqb_key in Hm as (? & ? & _). }
  apply is_nan_notNaN in Ea. pose proof (leb_notNaN _ _ Hb) as [_ Hn].
  apply eqb_leb in Hm as [Hm _]. pose proof (Math_max_l a b Ea Hn). pose proof (Math_max_r a b Ea Hn).
  split; [by eapply leb_trans|]. apply leb_antisym; [by eapply leb_trans|done].
Qed.

(** ** What evidence proves *)

Section Evidence.
Variable pow : number -> number -> number.

(** The order is the one the record's intent asked for. *)
Definition correlates (entry : ExecutionRecord) (source : EvidenceSource) (o : Order) : Prop :=
  match ex_intent entry with
  | OrderIntent input _ =>
      match o_clientOrderId o with
      | Some id => in_clientOrderId input = Some id
      | None => source = FromLookup -> in_clientOrderId input = None
      end
  | OcoIntent input =>
      exists id, o_clientOrderId o = Some id /\ Some id ∈ expected_client_ids entry input
  end.

(** The fills an order reports only grow over those saved, and it is not reopened. *)
Definition extends_saved (entry : ExecutionRecord) (o : Order) : Prop :=
  match saved_order entry (o_id o) with
  | Some previous =>
      (o_filled o <? eo_filled previous)%float = false /\ (o_cost o <? eo_cost previous)%float = false
      /\ (o_status o = OpenOrder -> eo_status previous = OpenOrder)
  | None => evidence_orders entry = []
  end.

Record order_evidenced (entry : ExecutionRecord) (source : EvidenceSource) (o : Order) : Prop := {
  oe_symbol : o_symbol o = intent_symbol (ex_intent entry);
  oe_side : o_side o = intent_side (ex_intent entry);
  oe_status : o_status o <> UnknownOrder;
  oe_filled : finite_nonnegative (o_filled o) = true;
  oe_cost : finite_nonnegative (o_cost o) = true;
  oe_costed : (o_filled o =? 0)%float = (o_cost o =? 0)%float;
  oe_correlates : correlates entry source o;
  oe_extends : extends_saved entry o
}.

Record evidenced (entry : ExecutionRecord) (source : EvidenceSource) (answer : PlaceResult) : Prop := {
  ev_count : length (result_orders answer) = expected_orders entry;
  ev_ids : NoDup (map o_id (result_orders answer));
  ev_orders : forall o, In o (result_orders answer) -> order_evidenced entry source o
}.

(** Nothing was filled, and nothing can still fill unless the record is worth nothing. *)
Definition never_filled (entry : ExecutionRecord) (answer : PlaceResult) : Prop :=
  (forall o, In o (result_orders answer) -> (o_filled o =? 0)%float = true /\ (o_cost o =? 0)%float = true)
  /\ ((forall o, In o (result_orders answer) -> o_status o <> OpenOrder) \/ (ex_notional entry <=? 0)%float = true).

Lemma correlated_correlates entry source first ids o ids' :
  correlated entry source first ids o = Ok ids' -> correlates entry source o.
Proof.
  unfold correlated, correlates, opt_eqb. destruct (ex_intent entry) as [input r|input]; intros H; inv_ok; bool_hyps.
  - destruct (o_clientOrderId o) as [id|]; bool_hyps.
    + match goal with E : bool_decide (Some id = _) = true |- _ => by apply bool_decide_eq_true in E end.
    + intros ->. cbn [andb] in *. rewrite (bool_decide_true (FromLookup = FromLookup)) in * by done. cbn [andb] in *.
      bool_hyps. match goal with E : bool_decide (None = _) = true |- _ => by apply bool_decide_eq_true in E end.
  - destruct (o_clientOrderId o) as [id|]; [|done]. exists id. split; [done|]. by eapply bool_decide_eq_true.
Qed.

(** A number that is not negative is zero or positive. *)
Lemma nonneg_cases x : (0 <=? x)%float = true -> (x =? 0)%float = false -> (0 <? x)%float = true.
Proof.
  intros H Hz. destruct (0 <? x)%float eqn:E; [done|]. exfalso.
  pose proof (leb_notNaN _ _ H) as [H0 Hx]. apply (ltb_false_leb _ _ H0 Hx) in E.
  by rewrite (leb_antisym _ _ E H) in Hz.
Qed.

Lemma check_order_Ok entry source first seen o seen' :
  check_order pow entry source first seen o = Ok seen' ->
  ~ In (o_id o) (fst seen) /\ fst seen' = app (fst seen) [o_id o] /\ order_evidenced entry source o.
Proof.
  destruct seen as [ids cids]. unfold check_order. intros H. inv_ok. cbn [fst].
  unfold order_conflicts, order_regressed, fill_incomplete, known_status in *. bool_hyps.
  match goal with E : forallb finite_nonnegative _ = true |- _ => cbn [forallb] in E end. bool_hyps.
  split; [|split; [done|]].
  { intros Hin%str_in_In. congruence. }
  split; try done.
  - by apply String.eqb_eq.
  - by eapply bool_decide_eq_true.
  - by eapply bool_decide_eq_false.
  - unfold finite_nonnegative in *. bool_hyps.
    destruct (o_filled o =? 0)%float eqn:Ef, (o_cost o =? 0)%float eqn:Ec; try done; exfalso.
    + rewrite (nonneg_cases (o_cost o)) in * by done. done.
    + rewrite (nonneg_cases (o_filled o)) in * by done. done.
  - by eapply correlated_correlates.
  - unfold extends_saved. destruct (saved_order entry (o_id o)) as [previous|] eqn:Es.
    + assert (0 < length (evidence_orders entry))%nat as Hl.
      { apply find_some in Es as [Hin _]. destruct (evidence_orders entry); [done|cbn; lia]. }
      rewrite (proj2 (Nat.ltb_lt _ _) Hl) in *. cbn [andb] in *. bool_hyps. split_and!; try done.
      intros Ho. rewrite Ho in *. unfold is_open in *. 
      repeat case_bool_decide; done.
    + destruct (evidence_orders entry); [done|]. cbn in *. done.
Qed.

Lemma check_orders_Ok entry source first orders seen seen' :
  foldM (check_order pow entry source first) seen orders = Ok seen' -> NoDup (fst seen) ->
  NoDup (fst seen ++ map o_id orders) /\ forall o, In o orders -> order_evidenced entry source o.
Proof.
  revert seen. induction orders as [|o l IH]; intros seen; cbn [foldM map]; [by rewrite app_nil_r|].
  destruct (check_order _ _ _ _ _ o) as [next|e] eqn:E; [|done]. intros H Hn.
  apply check_order_Ok in E as (Hni & Hids & Ho). destruct (IH next H) as [H1 H2].
  { rewrite Hids. apply NoDup_app. split_and!; [done| |apply NoDup_singleton].
    intros x Hx ->%list_elem_of_singleton. by apply Hni, list_elem_of_In. }
  rewrite Hids, <- app_assoc in H1. split; [done|]. by intros x [<-|Hx]; [|apply H2].
Qed.

Lemma evidence_Ok entry now answer source ob :
  executionEvidence pow entry now answer source = Ok ob ->
  evidenced entry source answer
  /\ map eo_filled (evd_orders (ob_evidence ob)) = map o_filled (result_orders answer)
  /\ (ob_outcome ob = Release -> (ob_notional ob =? 0)%float = true /\ never_filled entry answer)
  /\ (ob_outcome ob = Commit -> (ob_notional ob =? 0)%float = false).
Proof.
  unfold executionEvidence. intros H. inv_ok. bool_hyps.
  match goal with E : foldM _ _ _ = Ok _ |- _ => apply check_orders_Ok in E as [Hids Ho]; [|apply NoDup_nil_2] end.
  match goal with E : Nat.eqb _ _ = true |- _ => apply Nat.eqb_eq in E end.
  assert (Hcost : forall o, In o (result_orders answer) -> (0 <=? o_cost o)%float = true).
  { intros o Hin. pose proof (oe_cost _ _ _ (Ho o Hin)) as Hc. unfold finite_nonnegative in Hc. by bool_hyps. }
  split; [by split|]. cbn [ob_evidence ob_outcome ob_notional with_fee evd_orders]. split; [by rewrite map_map|].
  set (cost := total o_cost (result_orders answer)) in *.
  pose proof (total_nonneg _ _ Hcost) as Hn. fold cost in Hn.
  destruct (forallb _ _) eqn:Ef.
  - destruct (cost =? 0)%float eqn:Ez; (split; [|done]); [|done]. intros _. split; [done|].
    assert (forall o, In o (result_orders answer) -> (o_cost o =? 0)%float = true) as Hz
      by (intros o; by apply total_zero).
    split; [intros o Hin; rewrite (oe_costed _ _ _ (Ho o Hin)), Hz by done; done|]. left.
    intros o Hin. eapply forallb_In in Ef; [|exact Hin]. apply negb_true_iff in Ef. by eapply bool_decide_eq_false.
  - destruct (Math_max (ex_notional entry) cost =? 0)%float eqn:Ez; (split; [|done]); [|done]. intros _. split; [done|].
    apply max_zero in Ez as [He Hz]; [|done]. split; [|by right].
    intros o Hin. rewrite (oe_costed _ _ _ (Ho o Hin)), (total_zero o_cost (result_orders answer)) by done. done.
Qed.

(** Evidence is accepted only of the record's own orders: as many as the intent
    places, distinct, on its symbol and side, correlated by the client id it was
    submitted with, and with fills that only grow over the evidence saved before.
    It settles the record as a release only when nothing was filled and, unless the
    record is worth nothing, every order is terminal. *)
Theorem accepted_evidence_is_sound entry now answer source ob :
  executionEvidence pow entry now answer source = Ok ob ->
  evidenced entry source answer
  /\ map eo_filled (evd_orders (ob_evidence ob)) = map o_filled (result_orders answer)
  /\ (ob_outcome ob = Release -> (ob_notional ob =? 0)%float = true /\ never_filled entry answer)
  /\ (ob_outcome ob = Commit -> (ob_notional ob =? 0)%float = false).
Proof. apply evidence_Ok. Qed.
End Evidence.

(** ** A run of recovery *)

Lemma evolves_intent settling r r' : evolves settling r r' -> ex_intent r' = ex_intent r /\ ex_scope r' = ex_scope r.
Proof. by destruct 1. Qed.

Section Run.
Variable sha256 : string -> string.
Variable pow : number -> number -> number.
Variables toUpperCase toLowerCase : string -> string.
Context {W : Type} {HS : ExecutionStore W} {HL : ExecutionStoreLaws W}.

(** What others do to the store while recovery awaits: any calls of any runtimes that
    neither draw the identity anew nor release the execution themselves. *)
Definition bystander (id : string) (f : W -> W) : Prop :=
  forall w, exists h, f w = run_history sha256 h w /\
    forall J c, In (J, c) h -> drawn c <> Some id /\
      forall st, settling c = Some (id, st) -> set_outcome st <> Release.

#[local] Instance incl_preorder {A} : PreOrder (@incl A).
Proof. split; [intros l; apply incl_refl|intros l1 l2 l3; apply incl_tran]. Qed.

(** One of the lookups made proved that the submission of the record has not filled: it was made
    for a claim of the record, and what the exchange answered it is evidence that nothing filled. *)
Definition proven_unfilled (made : list (Lookup (W := W))) (r : ExecutionRecord) : Prop :=
  exists a claim answer, In (a, claim) made /\ lookup (at_client a) claim = Some answer /\
    ex_id claim = ex_id r /\ ex_intent claim = ex_intent r /\ ex_scope claim = ex_scope r /\
    evidenced claim FromLookup answer /\ never_filled claim answer.

Lemma proven_more made made' r : incl made made' -> proven_unfilled made r -> proven_unfilled made' r.
Proof. intros Hm (a & claim & answer & Ha & H). exists a, claim, answer. split; [by apply Hm|done]. Qed.

Section Tracking.
Variable r : ExecutionRecord.

Definition tracked (made : list Lookup) (s : ExecutionRiskState) : Prop :=
  forall x, In x (records_of s) -> ex_id x = ex_id r ->
    ex_intent x = ex_intent r /\ ex_scope x = ex_scope r /\ ex_status x <> Prepared /\
    (released x = true -> proven_unfilled made r).

Lemma tracked_more made made' s : incl made made' -> tracked made s -> tracked made' s.
Proof. intros Hm Ht x Hx Hid. destruct (Ht x Hx Hid) as (? & ? & ? & Hr). split_and!; try done. intros Hx'. by eapply proven_more, Hr. Qed.

Definition innocent (made : list Lookup) (c : Call) : Prop :=
  drawn c <> Some (ex_id r) /\
  forall st, settling c = Some (ex_id r, st) -> set_outcome st = Release -> proven_unfilled made r.

Lemma tracked_kept made J c s s' :
  innocent made c -> tracked made s -> committed sha256 J c s s' -> tracked made s'.
Proof.
  intros [Hd Hset] Ht Hc x' Hx' Hid. destruct (committed_effect _ _ _ _ _ Hc) as [[Hback _] _ _].
  destruct (Hback x' Hx') as [(x & Hx & He)|[Hdr _]]; [|congruence].
  pose proof (evolves_id _ _ _ He) as Hxid. pose proof (evolves_intent _ _ _ He) as [-> ->].
  destruct (Ht x Hx) as (Hi & Hsc & Hst & Hrel); [congruence|].
  split_and!; [done|done|by eapply evolves_not_prepared|]. intros Hr.
  destruct He; try (by apply Hrel). apply (Hset st); [congruence|].
  unfold released in Hr. cbn in Hr. by eapply bool_decide_eq_true.
Qed.

(** Once the lookups [known] are made, [m] keeps the store loadable and the record tracked, forgets
    no lookup, and returns only what satisfies [Q]. *)
Definition safe {A} (known : list Lookup) (m : ST (W * list Lookup) RecoveryError A) (Q : A -> Prop) : Prop :=
  forall w made s, incl known made -> exec_load w = Ok s -> tracked made s ->
    exists w' made' s', snd (m (w, made)) = (w', made') /\ incl made made' /\ exec_load w' = Ok s' /\ tracked made' s' /\
      forall a, fst (m (w, made)) = Ok a -> Q a.

(** Of a step that looks nothing up. *)
Definition safe_step {A} (known : list Lookup) (m : ST W RecoveryError A) (Q : A -> Prop) : Prop :=
  forall w made s, incl known made -> exec_load w = Ok s -> tracked made s ->
    exists s', exec_load (snd (m w)) = Ok s' /\ tracked made s' /\ forall a, fst (m w) = Ok a -> Q a.

Lemma safe_ret {A} known (a : A) (Q : A -> Prop) : Q a -> safe known (mret a) Q.
Proof. intros HQ w made s Hk Hs Ht. exists w, made, s. split_and!; [done|reflexivity|done..|by intros ? [= <-]]. Qed.

Lemma safe_lift {A} known (m : result RecoveryError A) (Q : A -> Prop) : (forall a, m = Ok a -> Q a) -> safe known (lift m) Q.
Proof. intros HQ w made s Hk Hs Ht. exists w, made, s. split_and!; [done|reflexivity|done..]. Qed.

Lemma safe_stored {A} known (m : ST W RecoveryError A) (Q : A -> Prop) : safe_step known m Q -> safe known (stored m) Q.
Proof.
  intros Hm w made s Hk Hs Ht. destruct (Hm w made s Hk Hs Ht) as (s' & Hs' & Ht' & HQ). unfold stored.
  destruct (m w) as [res w']. exists w', made, s'. split_and!; [done|reflexivity|done..].
Qed.

Lemma safe_bind {A B} known (m : ST (W * list Lookup) RecoveryError A) (k : A -> ST (W * list Lookup) RecoveryError B) P Q :
  safe known m P -> (forall a, P a -> safe known (k a) Q) -> safe known (m ≫= k) Q.
Proof.
  intros Hm Hk w made s Hkn Hs Ht. destruct (Hm w made s Hkn Hs Ht) as (w1 & made1 & s1 & E & Hi & Hs1 & Ht1 & HP).
  unfold mbind, ST_bind. destruct (m (w, made)) as [[a|e] w2]; cbn [snd fst] in *; subst w2.
  - destruct (Hk a (HP a eq_refl) w1 made1 s1) as (w2 & made2 & s2 & E & Hi2 & H); [by etrans|done..|].
    exists w2, made2, s2. split; [done|]. split; [by etrans|done].
  - exists w1, made1, s1. by split_and!.
Qed.

(** What follows a lookup knows that it was made. *)
Lemma safe_look {A} known a claim (k : option PlaceResult -> ST (W * list Lookup) RecoveryError A) Q :
  safe ((a, claim) :: known) (k (lookup (at_client a) claim)) Q -> safe known (look a claim ≫= k) Q.
Proof.
  intros Hk w made s Hkn Hs Ht. assert (incl made (app made [(a, claim)])) as Hi by (intros e He; apply in_app_iff; by left).
  destruct (Hk w (app made [(a, claim)]) s) as (w' & made' & s' & E & Hi' & H);
    [intros e [<-|He]; apply in_app_iff; [by right; left|left; by apply Hkn]|done|by eapply tracked_more|].
  exists w', made', s'. split; [done|]. split; [by etrans|done].
Qed.

Lemma safe_if {A} known (c : bool) (m n : ST (W * list Lookup) RecoveryError A) Q :
  (c = true -> safe known m Q) -> (c = false -> safe known n Q) -> safe known (if c then m else n) Q.
Proof. destruct c; auto. Qed.

(** The transaction of a call that is innocent of releasing the record. *)
Lemma safe_transact {A} known J (op : ST ExecutionRiskState JournalError A) c (Q : A -> Prop) :
  innocent known c -> (forall s a s', run_op J op s = Ok (a, s') -> committed sha256 J c s s') ->
  (forall made s a s', tracked made s -> NoDup (map ex_id (records_of s)) -> op s = (Ok a, s') -> Q a) ->
  safe_step known (journal (journal_transact J op)) Q.
Proof.
  intros [Hd Hset] Hop HQ w made s Hk Hs Ht. unfold journal. destruct (journal_transact J op w) as [res w'] eqn:E. cbn [fst snd].
  apply journal_transact_cases in E as [[Hw Hr]|(s1 & a & s' & Hs1 & Hrun & Hs' & Hr)].
  - exists s. split_and!; [congruence|done|]. by destruct res.
  - assert (s1 = s) as -> by congruence. exists s'. split_and!; [done| |].
    + refine (tracked_kept _ _ _ _ _ _ Ht (Hop _ _ _ Hrun)). split; [done|]. intros st Hst Hrel. by eapply proven_more, Hset.
    + pose proof Hrun as (Hv & Hrun' & _)%run_op_Ok. intros b Hb.
      destruct Hr as [->| ->]; [|done]. injection Hb as <-. eapply HQ; [exact Ht|by apply valid_ids|exact Hrun'].
Qed.

Lemma safe_listed known : safe_step known listed (fun l => exists made s, tracked made s /\ l = records_of s).
Proof.
  intros w made s Hk Hs Ht. exists s. unfold listed, journal, list_records, load_valid, reads, mbind, ST_bind.
  rewrite Hs. cbn. destruct (mapError _ _); cbn; split_and!; try done. intros l [= <-]. eauto.
Qed.

Lemma safe_await known f : bystander (ex_id r) f -> safe_step known (await f) (fun _ => True).
Proof.
  intros Hf w made s Hk Hs Ht. unfold await. cbn [fst snd]. destruct (Hf w) as (h & -> & Hh).
  destruct (history_invariant sha256 (tracked made) h w s) as (s' & Hs' & Ht'); [|done|done|eauto].
  intros J c t t' Hin. apply tracked_kept. destruct (Hh J c Hin) as [Hd Hst]. split; [done|].
  intros st Hset Hrel. by destruct (Hst st Hset).
Qed.

Lemma innocent_other known c : drawn c = None -> settling c = None -> innocent known c.
Proof. intros Hd Hset. split; rewrite ?Hd, ?Hset; [done|by intros]. Qed.

(** A copy of a record, as a run holds it between its transactions. *)
Definition faithful (x : ExecutionRecord) : Prop :=
  ex_id x = ex_id r -> ex_intent x = ex_intent r /\ ex_scope x = ex_scope r /\ ex_status x <> Prepared.

Lemma tracked_faithful made s x : tracked made s -> In x (records_of s) -> faithful x.
Proof. intros Ht Hx Hid. by destruct (Ht x Hx Hid) as (? & ? & ? & _). Qed.

Lemma safe_claim known J d id next :
  safe known (stored (journal (claimAttempt J d id next))) (fun o => forall c, o = Some c -> faithful c).
Proof.
  apply safe_stored, (safe_transact _ _ _ (CClaimAttempt d id next)); [by apply innocent_other|intros ???; apply run_effect|].
  intros made s o s' Ht _ H c ->. apply claimAttempt_Some in H as (r0 & Hf & _ & Hp & _ & -> & _ & _).
  destruct (find_unique_In _ _ _ Hf) as [Hin _]. intros Hid. destruct (tracked_faithful _ _ _ Ht Hin Hid) as (? & ? & _).
  done.
Qed.

Lemma safe_unknown known J d id issue revision : safe known (stored (journal (unknown J d id issue revision))) (fun _ => True).
Proof.
  apply safe_stored, (safe_transact _ _ _ (CUnknown d id issue revision)); [by apply innocent_other| |done].
  intros s [] s'. done.
Qed.

Lemma safe_settle known J d id outcome notional status evidence revision :
  (id = ex_id r -> outcome = Release -> proven_unfilled known r) ->
  safe known (stored (journal (settle sha256 J d id outcome notional status evidence revision))) (fun _ => True).
Proof.
  intros Hp. apply safe_stored, (safe_transact _ _ _ (CSettle d id outcome notional status evidence revision)); [| |done].
  - split; [done|]. intros st Hset Hrel. injection Hset as Hid Hst. subst st. by apply Hp.
  - intros ???. apply run_effect.
Qed.

Lemma safe_attempts known J options original attempts budget n issue :
  (forall k, bystander (ex_id r) (at_await (attempts k)) /\ bystander (ex_id r) (at_pause (attempts k))) ->
  safe known (attempt_lookups sha256 pow J options original attempts budget n issue) (fun _ => True).
Proof.
  intros Hb. revert known n issue. induction budget as [|budget IH]; intros known n issue; cbn [attempt_lookups]; [by apply safe_ret|].
  eapply safe_bind; [apply safe_stored; intros w made s Hk Hs Ht; exists s; split_and!; [exact Hs|exact Ht|by instantiate (1 := fun _ => True)]|]. intros next _. eapply safe_bind; [apply safe_claim|].
  intros [claim|] Hclaim; [|eapply safe_bind; [apply safe_stored, safe_listed|]; intros; by apply safe_ret].
  eapply safe_bind; [by apply safe_stored, safe_await, Hb|]. intros _ _. apply safe_look.
  destruct (lookup (at_client (attempts n)) claim) as [answer|] eqn:El.
  - destruct (executionEvidence _ _ _ _ _) as [ob|e] eqn:Ee.
    + eapply safe_bind; [apply safe_settle|intros; by apply safe_ret]. intros Hid Hrel.
      destruct (Hclaim claim eq_refl Hid) as (Hi & Hsc & _).
      apply evidence_Ok in Ee as (Hev & _ & Hrelease & _). destruct (Hrelease Hrel) as [_ Hnever].
      exists (attempts n), claim, answer. by split; [left|].
    + eapply safe_bind; [apply safe_unknown|]. intros. by apply safe_ret.
  - eapply safe_bind; [apply safe_unknown|]. intros _ _.
    eapply (safe_bind _ _ _ (fun _ => True)); [|intros; apply IH].
    apply safe_if; intros _; [by apply safe_stored, safe_await, Hb|by apply safe_ret].
Qed.

Lemma safe_record known J options t original report :
  (forall k, bystander (ex_id r) (at_await (tn_attempts t k)) /\ bystander (ex_id r) (at_pause (tn_attempts t k))) ->
  faithful original ->
  safe known (recover_record sha256 pow toUpperCase toLowerCase J options t original report)
    (fun _ => True).
Proof.
  intros Hb Hf. unfold recover_record. apply safe_if; intros _; [by apply safe_ret|]. apply safe_if; intros Hp.
  - eapply safe_bind; [apply safe_settle|intros; by apply safe_ret].
    intros Hid _. apply bool_decide_eq_true in Hp. by destruct (Hf Hid) as (_ & _ & ?).
  - apply safe_if; intros _; [eapply safe_bind; [apply safe_unknown|]; intros; by apply safe_ret|].
    eapply safe_bind; [by apply safe_attempts|]. intros o _. eapply safe_bind; [apply safe_stored, safe_listed|].
    intros; by apply safe_ret.
Qed.

Lemma safe_records known J options turns n pending report :
  (forall i k, bystander (ex_id r) (at_await (tn_attempts (turns i) k)) /\
               bystander (ex_id r) (at_pause (tn_attempts (turns i) k))) ->
  (forall x, In x pending -> faithful x) ->
  safe known (recover_records sha256 pow toUpperCase toLowerCase J options turns n pending report)
    (fun _ => True).
Proof.
  intros Hb. revert n report. induction pending as [|x l IH]; intros n report Hl; cbn [recover_records]; [by apply safe_ret|].
  eapply safe_bind; [apply safe_record; [apply Hb|apply Hl; by left]|]. intros report' _. apply IH.
  intros y Hy. apply Hl. by right.
Qed.

Lemma pending_In J options l x : In x (pending_records J options l) -> In x l.
Proof.
  unfold pending_records. intros Hx%list_elem_of_In%elem_of_take. destruct Hx as (i & Hx & _).
  apply list_elem_of_lookup_2, list_elem_of_In, in_app_iff in Hx.
  destruct Hx as [[Hx _]%filter_In|[Hx _]%filter_In]; by apply filter_In in Hx as [? _].
Qed.

Lemma safe_recovery known J options turns :
  (forall i k, bystander (ex_id r) (at_await (tn_attempts (turns i) k)) /\
               bystander (ex_id r) (at_pause (tn_attempts (turns i) k))) ->
  safe known (recoverJournal sha256 pow toUpperCase toLowerCase J options turns) (fun _ => True).
Proof.
  intros Hb. unfold recoverJournal. apply safe_if; intros _; [by apply safe_lift|].
  eapply safe_bind; [apply safe_stored, safe_listed|]. intros l (made & s & Ht & ->).
  eapply safe_bind; [apply safe_records; [exact Hb|]|].
  - intros x Hx%pending_In. by eapply tracked_faithful.
  - intros report _. eapply safe_bind; [apply safe_stored, safe_listed|]. intros; by apply safe_ret.
Qed.
End Tracking.

(** C19: recovery never frees a submission that may have reached the exchange: an
    execution that had begun and was not released is found released after a run only
    if one of the lookups the run made, for a claim of the execution, was answered
    with evidence that none of its orders filled, whatever the exchange answers,
    whenever the store fails and whatever other runtimes do meanwhile short of
    releasing it themselves. *)
Theorem recovery_frees_only_unfilled J options turns w s r :
  exec_load w = Ok s -> validateExecutionRiskState s = Ok tt ->
  In r (records_of s) -> ex_status r <> Prepared -> released r = false ->
  (forall i k, bystander (ex_id r) (at_await (tn_attempts (turns i) k)) /\
               bystander (ex_id r) (at_pause (tn_attempts (turns i) k))) ->
  exists w' made s',
    snd (recoverJournal sha256 pow toUpperCase toLowerCase J options turns (w, [])) = (w', made) /\ exec_load w' = Ok s' /\
    forall r', In r' (records_of s') -> ex_id r' = ex_id r ->
      ex_intent r' = ex_intent r /\ ex_status r' <> Prepared /\ (released r' = true -> proven_unfilled made r).
Proof.
  intros Hs Hv Hr Hp Hrel Hb.
  destruct (safe_recovery r [] J options turns Hb w [] s) as (w' & made & s' & E & _ & Hs' & Ht & _); [done|done| |].
  - intros x Hx Hid. assert (x = r) as -> by (by apply (inj_ids (records_of s)); [apply valid_ids|..]). 
    by rewrite Hrel.
  - exists w', made, s'. split_and!; [done..|]. intros r' Hr' Hid. by destruct (Ht r' Hr' Hid) as (? & _ & ? & ?).
Qed.

Lemma journal_Ok {A} (m : ST W JournalError A) w (a : A) w' : journal m w = (Ok a, w') -> m w = (Ok a, w').
Proof. unfold journal. destruct (m w) as [[x|e] w1]; cbn; [by intros [= <- <-]|done]. Qed.

Lemma listed_Ok w l w' : listed w = (Ok l, w') -> w' = w /\ exists s, exec_load w = Ok s /\ l = records_of s.
Proof.
  intros H%journal_Ok. unfold list_records, load_valid, reads, mbind, ST_bind in H.
  destruct (exec_load w) as [s|e]; cbn in H; [|done].
  destruct (mapError _ _); cbn in H; [|done]. injection H as <- <-. eauto.
Qed.

Lemma guard_Ok {A} c e (k : unit -> ST W RecoveryError A) w (a : A) w' :
  (lift (throwIf c e) ≫= k) w = (Ok a, w') -> c = false /\ k tt w = (Ok a, w').
Proof. unfold mbind, ST_bind, lift, throwIf. by destruct c. Qed.

(** An operator resolves an execution only on attested terminal evidence: the
    resolution returns only for an unresolved execution of the journal's own scope
    and account, at the revision the operator confirmed, with a safe reference and
    a finite settled notional, and never commits one that was not started; then the
    record is settled with exactly that outcome and reference. *)
Theorem operator_resolution_is_attested J d now resolution w w' :
  manuallyResolveExecution sha256 J d now resolution w = (Ok tt, w') ->
  exists s s' r r' before,
    exec_load w = Ok s /\ exec_load w' = Ok s' /\ In r (records_of s) /\ ex_id r = mr_executionId resolution /\
    isUnresolvedExecution r = true /\ ex_scope r = jn_scope J /\ sc_accountId (ex_scope r) = mr_accountId resolution /\
    ex_revision r = mr_expectedRevision resolution /\ mr_verifiedTerminal resolution = true /\
    identifier (mr_evidenceReference resolution) = true /\ isFinite (mr_notional resolution) = true /\
    (ex_status r = Prepared -> mr_outcome resolution = Release) /\
    (mr_outcome resolution = Release -> (mr_notional resolution =? 0)%float = true) /\
    records_of s' = before ++ [r'] /\ ex_id r' = ex_id r /\ ex_status r' = Reconciled /\
    ex_settlement r' = Some (settlement_of (mr_outcome resolution) (mr_notional resolution)) /\
    option_map evd_reference (ex_evidence r') = Some (Some (mr_evidenceReference resolution)).
Proof.
  unfold manuallyResolveExecution. intros H. bind_inv H E. apply listed_Ok in E as [-> (s & Hs & ->)].
  destruct (find_listed (mr_executionId resolution) (records_of s)) as [r|] eqn:Ef; [|done].
  destruct (find_unique_In _ _ _ Ef) as [Hin Hid].
  apply guard_Ok in H as [Hu H]. apply guard_Ok in H as [Hscope H]. apply guard_Ok in H as [Hrev H].
  apply guard_Ok in H as [Hbad H]. apply guard_Ok in H as [Hprep H].
  bind_inv H E. apply journal_Ok, journal_transact_Ok in E as (s1 & s' & Hs1 & Hrun & Hs').
  assert (s1 = s) as -> by congruence. destruct a; [|done]. injection H as <-.
  apply run_op_Ok in Hrun as (Hv & Hrun & _). apply settle_Ok in Hrun as (r1 & Hf & _ & _ & _ & k & x & _ & Hrec).
  cbv zeta in Hrec. destruct Hrec as [_ Hrec]. destruct (find_unique_In _ _ _ Hf) as [Hin1 Hid1].
  assert (r1 = r) as -> by (by apply (inj_ids (records_of s)); [apply valid_ids|..]).
  match type of Hrec with context [?l ++ [?r']] => destruct (trim_snoc l r') as [before Hb]; rewrite Hb in Hrec end.
  eexists s, s', r, _, before. unfold sameExecutionScope in Hscope. bool_hyps.
  repeat match goal with E : bool_decide _ = true |- _ => apply bool_decide_eq_true in E
    | E : String.eqb _ _ = true |- _ => apply String.eqb_eq in E | E : Z.eqb _ _ = true |- _ => apply Z.eqb_eq in E end.
  split_and!; try done.
  - intros Hp. rewrite Hp in Hprep. cbn in Hprep. by destruct (mr_outcome resolution).
  - intros Hr. rewrite Hr in *. cbn in *. by destruct (mr_notional resolution =? 0)%float.
Qed.
End Run.

(** ** Concrete runs *)

Definition canceled_order : Order :=
  {| o_id := "order-1"; o_symbol := "BTC/USDT"; o_side := Buy; o_type := Some Limit; o_price := Some 10%float;
     o_stopPrice := None; o_trailingPercent := None; o_activationPrice := None; o_callbackRate := None;
     o_ocoGroup := None; o_clientOrderId := Some "ti0"; o_orderListId := None; o_listClientOrderId := None;
     o_listOrderStatus := None; o_positionSide := None; o_reduceOnly := None; o_closePosition := None;
     o_amount := 2%float; o_filled := 0%float; o_remaining := 2%float; o_average := None; o_cost := 0%float;
     o_feeObservation := None; o_status := CanceledOrder; o_timestamp := 0%float |}%string.

(** Meanwhile another runtime records a change of its configuration. *)
Definition meanwhile : ExecutionRiskState -> ExecutionRiskState :=
  run_history toy_sha256 [(example_journal, CConfigurationChange (example_draws "g") "limits-changed")].

Definition example_attempt (i k : nat) : Attempt :=
  {| at_now := example_now; at_observedAt := "2024-01-01T00:00:01.000Z"; at_claim := example_draws "c";
     at_close := example_draws "e";
     at_client := {| getOrderByClientId := fun _ _ => Some canceled_order; getOrderListByClientId := fun _ => None |};
     at_await := meanwhile; at_pause := fun w => w |}.

Definition toy_pow (a b : number) : number := 1%float.

Definition example_recovery (s : ExecutionRiskState) : result RecoveryError RecoveryReport * (ExecutionRiskState * list Lookup) :=
  recoverJournal toy_sha256 toy_pow (fun s => s) (fun s => s) example_journal default_options
    (fun i => {| tn_draws := example_draws "t"; tn_attempts := example_attempt i |}) (s, []).

Definition recovered_exec : ExecutionRiskState := Eval vm_compute in fst (snd (example_recovery begun_exec)).

Lemma example_recovers : fst (snd (example_recovery begun_exec)) = recovered_exec.
Proof. vm_compute. reflexivity. Qed.

Lemma Ok_inj {E A : Type} (a b : A) : (Ok a : result E A) = Ok b -> a = b.
Proof. by intros [= ->]. Qed.

Lemma meanwhile_bystander id : bystander toy_sha256 id meanwhile.
Proof.
  intros w. exists [(example_journal, CConfigurationChange (example_draws "g") "limits-changed")]. split; [done|].
  intros J c [[= <- <-]|[]]. done.
Qed.

Lemma idle_bystander id : bystander toy_sha256 id (fun w : ExecutionRiskState => w).
Proof. intros w. exists []. split; [done|]. by intros J c []. Qed.

Definition begun_record : ExecutionRecord :=
  Eval vm_compute in match records_of begun_exec with r :: _ => r | [] => new_record example_journal (example_draws "") (OrderIntent example_input None) 0%float false example_options "" end.

Lemma recovery_frees_only_unfilled_witness :
  (exists r', In r' (records_of recovered_exec) /\ ex_id r' = "exec-1"%string /\ released r' = true) /\
  proven_unfilled (snd (snd (example_recovery begun_exec))) begun_record.
Proof.
  split.
  - eexists. split; [left; reflexivity|]. split; reflexivity.
  - destruct (recovery_frees_only_unfilled toy_sha256 toy_pow (fun s => s) (fun s => s) example_journal
      default_options (fun i => {| tn_draws := example_draws "t"; tn_attempts := example_attempt i |})
      begun_exec begun_exec begun_record (memory_load _) example_valid) as (w' & made & s' & E & Hs' & H).
    + left. reflexivity.
    + discriminate.
    + reflexivity.
    + intros i k. split; [apply meanwhile_bystander|apply idle_bystander].
    + change (snd (example_recovery begun_exec) = (w', made)) in E. pose proof (f_equal fst E) as Ew. rewrite example_recovers in Ew.
      cbn [fst] in Ew. subst w'. rewrite memory_load in Hs'. apply Ok_inj in Hs'. subst s'. rewrite E.
      destruct (H _ (or_introl eq_refl) eq_refl) as (_ & _ & Hp). by apply Hp.
Defined.

Definition example_observation : result EvidenceProblem Observation :=
  executionEvidence toy_pow begun_record "2024-01-01T00:00:01.000Z" (OrderResult canceled_order) FromLookup.
Definition observed : Observation :=
  Eval vm_compute in match example_observation with
    | Ok ob => ob
    | Throw _ => {| ob_evidence := example_evidence; ob_notional := 0%float; ob_outcome := Commit |} end.

Lemma accepted_evidence_is_sound_witness :
  ob_outcome observed = Release /\ evidenced begun_record FromLookup (OrderResult canceled_order) /\
  never_filled begun_record (OrderResult canceled_order).
Proof.
  assert (example_observation = Ok observed) as E by (vm_compute; reflexivity).
  destruct (accepted_evidence_is_sound _ _ _ _ _ _ E) as (Hev & _ & Hr & _).
  split; [reflexivity|]. split; [exact Hev|]. by apply Hr.
Defined.

Definition example_resolution : ManualExecutionResolution :=
  {| mr_executionId := "exec-1"; mr_expectedRevision := 1; mr_accountId := "acct"; mr_outcome := Commit;
     mr_notional := 19%float; mr_evidenceReference := "ticket-7"; mr_verifiedTerminal := true |}.
Definition example_resolve (s : ExecutionRiskState) :=
  manuallyResolveExecution toy_sha256 example_journal (example_draws "m") "2024-01-01T00:00:02.000Z"
    example_resolution s.
Definition resolved_exec : ExecutionRiskState := Eval vm_compute in snd (example_resolve begun_exec).

Lemma example_resolves : example_resolve begun_exec = (Ok tt, resolved_exec).
Proof. vm_compute. reflexivity. Qed.

Lemma operator_resolution_is_attested_witness :
  exists s' r', exec_load resolved_exec = Ok s' /\ In r' (records_of s') /\ ex_status r' = Reconciled /\
    ex_settlement r' = Some (settlement_of Commit 19%float).
Proof.
  destruct (operator_resolution_is_attested toy_sha256 example_journal (example_draws "m")
    "2024-01-01T00:00:02.000Z" example_resolution begun_exec resolved_exec example_resolves)
    as (s & s' & r & r' & before & _ & Hs' & _ & _ & _ & _ & _ & _ & _ & _ & _ & _ & _ & Hrec & _ & Hst & Hset & _).
  exists s', r'. split; [exact Hs'|]. split; [rewrite Hrec; apply in_app_iff; right; by left|]. by split.
Defined.
