(* ===== verification/PaperAccount.v ===== *)
(** * The paper account (packages/trading-engine/src/paper-account.ts)

    The persisted ledger of a simulated account, the validator that reads it back from
    JSON of unknown shape, and the round trip between the two. *)

From Stdlib Require Import ZArith Lia Bool Ascii Floats.
From stdpp Require Import base strings option list.
From S2P Require Import Prelude JsNumber JsObject JsValue JsFloat JsMath JsText AccountRisk RiskState Execution.

Local Open Scope float_scope.

(** ** Data *)

Inductive PaperStatus := PaperOpen | PaperClosed | PaperCanceled.
#[export] Instance PaperStatus_eq_dec : EqDecision PaperStatus.
Proof. solve_decision. Defined.
#[export] Instance MarginType_eq_dec : EqDecision MarginType.
Proof. solve_decision. Defined.

(** The fields of an order that the client reassigns while it works the order. *)
Record OrderState := {
  st_trailingExtreme : option number;
  st_triggered : option bool;
  st_reservePrice : option number;
  st_reservedMargin : option number;
  st_lastCheckedAt : option number;
  st_amount : number;
  st_filled : number;
  st_average : option number;
  st_cost : number;
  st_feeObservation : option OrderFeeObservation;
  st_status : PaperStatus
}.

(** [PaperOrder]: the fields fixed when the order is placed, and its state. *)
Record PaperOrder := {
  ord_id : string;
  ord_symbol : string;
  ord_side : OrderSide;
  ord_type : OrderType;
  ord_price : option number;
  ord_stopPrice : option number;
  ord_trailingPercent : option number;
  ord_ocoGroup : option string;
  ord_clientOrderId : option string;
  ord_listClientOrderId : option string;
  ord_positionSide : option PositionSide;
  ord_reduceOnly : option bool;
  ord_closePosition : option bool;
  ord_timestamp : number;
  ord_state : OrderState
}.

Definition ord_amount (o : PaperOrder) : number := st_amount (ord_state o).
Definition ord_filled (o : PaperOrder) : number := st_filled (ord_state o).
Definition ord_cost (o : PaperOrder) : number := st_cost (ord_state o).
Definition ord_status (o : PaperOrder) : PaperStatus := st_status (ord_state o).
Definition ord_reservePrice (o : PaperOrder) : option number := st_reservePrice (ord_state o).
Definition ord_feeObservation (o : PaperOrder) : option OrderFeeObservation := st_feeObservation (ord_state o).
(** [order.reservedMargin ?? 0] *)
Definition ord_margin (o : PaperOrder) : number := default 0 (st_reservedMargin (ord_state o)).
Definition is_open (o : PaperOrder) : bool := bool_decide (ord_status o = PaperOpen).

(** *** Assignments to an order *)

Definition on_state (f : OrderState -> OrderState) (o : PaperOrder) : PaperOrder :=
  {| ord_id := ord_id o; ord_symbol := ord_symbol o; ord_side := ord_side o; ord_type := ord_type o;
     ord_price := ord_price o; ord_stopPrice := ord_stopPrice o; ord_trailingPercent := ord_trailingPercent o;
     ord_ocoGroup := ord_ocoGroup o; ord_clientOrderId := ord_clientOrderId o;
     ord_listClientOrderId := ord_listClientOrderId o; ord_positionSide := ord_positionSide o;
     ord_reduceOnly := ord_reduceOnly o; ord_closePosition := ord_closePosition o;
     ord_timestamp := ord_timestamp o; ord_state := f (ord_state o) |}.

Definition set_status (x : PaperStatus) : PaperOrder -> PaperOrder := on_state (fun s =>
  {| st_trailingExtreme := st_trailingExtreme s; st_triggered := st_triggered s; st_reservePrice := st_reservePrice s;
     st_reservedMargin := st_reservedMargin s; st_lastCheckedAt := st_lastCheckedAt s; st_amount := st_amount s;
     st_filled := st_filled s; st_average := st_average s; st_cost := st_cost s;
     st_feeObservation := st_feeObservation s; st_status := x |}).
Definition set_checkedAt (x : number) : PaperOrder -> PaperOrder := on_state (fun s =>
  {| st_trailingExtreme := st_trailingExtreme s; st_triggered := st_triggered s; st_reservePrice := st_reservePrice s;
     st_reservedMargin := st_reservedMargin s; st_lastCheckedAt := Some x; st_amount := st_amount s;
     st_filled := st_filled s; st_average := st_average s; st_cost := st_cost s;
     st_feeObservation := st_feeObservation s; st_status := st_status s |}).
Definition set_triggered : PaperOrder -> PaperOrder := on_state (fun s =>
  {| st_trailingExtreme := st_trailingExtreme s; st_triggered := Some true; st_reservePrice := st_reservePrice s;
     st_reservedMargin := st_reservedMargin s; st_lastCheckedAt := st_lastCheckedAt s; st_amount := st_amount s;
     st_filled := st_filled s; st_average := st_average s; st_cost := st_cost s;
     st_feeObservation := st_feeObservation s; st_status := st_status s |}).
Definition set_extreme (x : number) : PaperOrder -> PaperOrder := on_state (fun s =>
  {| st_trailingExtreme := Some x; st_triggered := st_triggered s; st_reservePrice := st_reservePrice s;
     st_reservedMargin := st_reservedMargin s; st_lastCheckedAt := st_lastCheckedAt s; st_amount := st_amount s;
     st_filled := st_filled s; st_average := st_average s; st_cost := st_cost s;
     st_feeObservation := st_feeObservation s; st_status := st_status s |}).
Definition set_reservePrice (x : option number) : PaperOrder -> PaperOrder := on_state (fun s =>
  {| st_trailingExtreme := st_trailingExtreme s; st_triggered := st_triggered s; st_reservePrice := x;
     st_reservedMargin := st_reservedMargin s; st_lastCheckedAt := st_lastCheckedAt s; st_amount := st_amount s;
     st_filled := st_filled s; st_average := st_average s; st_cost := st_cost s;
     st_feeObservation := st_feeObservation s; st_status := st_status s |}).
Definition set_margin (x : number) : PaperOrder -> PaperOrder := on_state (fun s =>
  {| st_trailingExtreme := st_trailingExtreme s; st_triggered := st_triggered s; st_reservePrice := st_reservePrice s;
     st_reservedMargin := Some x; st_lastCheckedAt := st_lastCheckedAt s; st_amount := st_amount s;
     st_filled := st_filled s; st_average := st_average s; st_cost := st_cost s;
     st_feeObservation := st_feeObservation s; st_status := st_status s |}).
Definition set_fee (x : OrderFeeObservation) : PaperOrder -> PaperOrder := on_state (fun s =>
  {| st_trailingExtreme := st_trailingExtreme s; st_triggered := st_triggered s; st_reservePrice := st_reservePrice s;
     st_reservedMargin := st_reservedMargin s; st_lastCheckedAt := st_lastCheckedAt s; st_amount := st_amount s;
     st_filled := st_filled s; st_average := st_average s; st_cost := st_cost s;
     st_feeObservation := Some x; st_status := st_status s |}).
(** The fill of an order: its quantities, and that it is closed. *)
Definition set_fill (amount filled cost average : number) : PaperOrder -> PaperOrder := on_state (fun s =>
  {| st_trailingExtreme := st_trailingExtreme s; st_triggered := st_triggered s; st_reservePrice := st_reservePrice s;
     st_reservedMargin := st_reservedMargin s; st_lastCheckedAt := st_lastCheckedAt s; st_amount := amount;
     st_filled := filled; st_average := Some average; st_cost := cost;
     st_feeObservation := st_feeObservation s; st_status := PaperClosed |}).

Record FuturesLot := { lot_amount : number; lot_price : number; lot_leverage : number; lot_marginType : MarginType }.

Record FuturesEntry := {
  ent_amount : number;
  ent_cost : number;
  ent_leverage : option number;
  ent_marginType : option MarginType;
  ent_lots : option (list FuturesLot)
}.

Record PaperTrade := {
  trd_id : string;
  trd_symbol : string;
  trd_side : OrderSide;
  trd_price : number;
  trd_amount : number;
  trd_cost : number;
  trd_fee : number;
  trd_realizedPnl : option number;
  trd_positionSide : option PositionSide;
  trd_timestamp : number
}.

Record PaperAccount := {
  acc_quote : string;
  acc_balances : obj number;
  acc_entries : obj FuturesEntry;
  acc_orders : list PaperOrder;
  acc_trades : list PaperTrade;
  acc_realizedPnl : number;
  acc_leverage : option number;
  acc_marginType : option MarginType;
  acc_leverageBySymbol : option (obj number);
  acc_marginTypeBySymbol : option (obj MarginType);
  acc_positionMode : option PositionMode;
  acc_createdAt : number
}.

(** ** The objects these are at run time *)

Definition paper_status_name (s : PaperStatus) : string :=
  match s with PaperOpen => "open" | PaperClosed => "closed" | PaperCanceled => "canceled" end.
Definition margin_name (m : MarginType) : string := match m with Isolated => "isolated" | Cross => "cross" end.
Definition position_mode_name (m : PositionMode) : string := match m with OneWay => "one-way" | Hedge => "hedge" end.

Definition order_value (o : PaperOrder) : value :=
  let s := ord_state o in
  VObj (app (field "id" (VStr (ord_id o)))
    (app (field "symbol" (VStr (ord_symbol o)))
    (app (field "side" (VStr (side_name (ord_side o))))
    (app (field "type" (VStr (type_name (ord_type o))))
    (app (opt_field "price" VNum (ord_price o))
    (app (opt_field "stopPrice" VNum (ord_stopPrice o))
    (app (opt_field "trailingPercent" VNum (ord_trailingPercent o))
    (app (opt_field "trailingExtreme" VNum (st_trailingExtreme s))
    (app (opt_field "triggered" VBool (st_triggered s))
    (app (opt_field "reservePrice" VNum (st_reservePrice s))
    (app (opt_field "reservedMargin" VNum (st_reservedMargin s))
    (app (opt_field "lastCheckedAt" VNum (st_lastCheckedAt s))
    (app (opt_field "ocoGroup" VStr (ord_ocoGroup o))
    (app (opt_field "clientOrderId" VStr (ord_clientOrderId o))
    (app (opt_field "listClientOrderId" VStr (ord_listClientOrderId o))
    (app (opt_field "positionSide" (fun x => VStr (position_side_name x)) (ord_positionSide o))
    (app (opt_field "reduceOnly" VBool (ord_reduceOnly o))
    (app (opt_field "closePosition" VBool (ord_closePosition o))
    (app (field "amount" (VNum (st_amount s)))
    (app (field "filled" (VNum (st_filled s)))
    (app (opt_field "average" VNum (st_average s))
    (app (field "cost" (VNum (st_cost s)))
    (app (opt_field "feeObservation" feeObservation_value (st_feeObservation s))
    (app (field "status" (VStr (paper_status_name (st_status s))))
         (field "timestamp" (VNum (ord_timestamp o)))))))))))))))))))))))))))%string.

Definition lot_value (l : FuturesLot) : value :=
  VObj [("amount", VNum (lot_amount l)); ("price", VNum (lot_price l)); ("leverage", VNum (lot_leverage l));
        ("marginType", VStr (margin_name (lot_marginType l)))]%string.

Definition entry_value (e : FuturesEntry) : value :=
  VObj (app (field "amount" (VNum (ent_amount e))) (app (field "cost" (VNum (ent_cost e)))
    (app (opt_field "leverage" VNum (ent_leverage e))
    (app (opt_field "marginType" (fun x => VStr (margin_name x)) (ent_marginType e))
         (opt_field "lots" (fun l => VArr (map lot_value l)) (ent_lots e))))))%string.

Definition trade_value (t : PaperTrade) : value :=
  VObj (app [("id", VStr (trd_id t)); ("symbol", VStr (trd_symbol t)); ("side", VStr (side_name (trd_side t)));
             ("price", VNum (trd_price t)); ("amount", VNum (trd_amount t)); ("cost", VNum (trd_cost t));
             ("fee", VNum (trd_fee t))]
    (app (opt_field "realizedPnl" VNum (trd_realizedPnl t))
    (app (opt_field "positionSide" (fun x => VStr (position_side_name x)) (trd_positionSide t))
         (field "timestamp" (VNum (trd_timestamp t))))))%string.

Definition account_value (a : PaperAccount) : value :=
  VObj (app [("quote", VStr (acc_quote a)); ("balances", obj_value VNum (acc_balances a));
             ("entries", obj_value entry_value (acc_entries a)); ("orders", VArr (map order_value (acc_orders a)));
             ("trades", VArr (map trade_value (acc_trades a))); ("realizedPnl", VNum (acc_realizedPnl a))]
    (app (opt_field "leverage" VNum (acc_leverage a))
    (app (opt_field "marginType" (fun x => VStr (margin_name x)) (acc_marginType a))
    (app (opt_field "leverageBySymbol" (obj_value VNum) (acc_leverageBySymbol a))
    (app (opt_field "marginTypeBySymbol" (obj_value (fun x => VStr (margin_name x))) (acc_marginTypeBySymbol a))
    (app (opt_field "positionMode" (fun x => VStr (position_mode_name x)) (acc_positionMode a))
         (field "createdAt" (VNum (acc_createdAt a)))))))))%string.

(** ** Reading a persisted account *)

Inductive AccountProblem :=
  | MustBeFinite | MustBeNonNegative | MustBePositive | MustBeBoolean | MustBeString | MustBeSide | MustBePositionSide
  | MustBeMarginType | MustBeObject | MustBeLeverage | MustBeArray | MustBeZeroCost | LotAmountsDiffer | LotCostsDiffer
  | UnsupportedOrderType | UnsupportedStatus | FilledExceedsAmount | FeesNotActual | MustBePercent | MustContainNumbers
  | QuoteMissing | PartsMissing | MustBePositionMode | InvalidLedgerFee.

(** The field an error names, and what it says of it. *)
Inductive AccountError := BadAccount (label : string) (why : AccountProblem).

Abbreviation Parse := (result AccountError).

Definition dot (label name : string) : string := String.append label (String.append "." name).
Definition indexed (label : string) (i : nat) : string :=
  String.append label (String.append "[" (String.append (show_digits (Z.of_nat i)) "]")).

Definition isNonemptyString (v : value) : bool := isString (fun s => negb (String.eqb s "")) v.

Definition finiteNumber (v : value) (label : string) : Parse number :=
  match v with
  | VNum n => if isFinite n then Ok n else Throw (BadAccount label MustBeFinite)
  | _ => Throw (BadAccount label MustBeFinite)
  end.

Definition nonNegativeNumber (v : value) (label : string) : Parse number :=
  n ← finiteNumber v label; _ ← throwIf (n <? 0) (BadAccount label MustBeNonNegative); Ok n.

Definition positiveNumber (v : value) (label : string) : Parse number :=
  n ← finiteNumber v label; _ ← throwIf (n <=? 0) (BadAccount label MustBePositive); Ok n.

(** [value === undefined ? undefined : read(value)] *)
Definition unlessUndefined {A} (read : value -> string -> Parse A) (v : value) (label : string) : Parse (option A) :=
  if defined v then a ← read v label; Ok (Some a) else Ok None.

Definition optionalFinite : value -> string -> Parse (option number) := unlessUndefined finiteNumber.

Definition readBoolean (v : value) (label : string) : Parse bool :=
  match v with VBool b => Ok b | _ => Throw (BadAccount label MustBeBoolean) end.
Definition optionalBoolean : value -> string -> Parse (option bool) := unlessUndefined readBoolean.

Definition readString (v : value) (label : string) : Parse string :=
  match v with VStr s => Ok s | _ => Throw (BadAccount label MustBeString) end.
Definition optionalString : value -> string -> Parse (option string) := unlessUndefined readString.

(** The constructor whose name a string is. *)
Definition named {A} (name : A -> string) (all : list A) (v : value) : option A :=
  match v with VStr s => find (fun a => String.eqb (name a) s) all | _ => None end.

Definition readNamed {A} (name : A -> string) (all : list A) (why : AccountProblem) (v : value) (label : string) : Parse A :=
  match named name all v with Some a => Ok a | None => Throw (BadAccount label why) end.

Definition ORDER_SIDES : list OrderSide := [Buy; Sell].
Definition ORDER_STATUSES : list PaperStatus := [PaperOpen; PaperClosed; PaperCanceled].
Definition ALL_ORDER_TYPES : list OrderType :=
  [Market; Limit; Stop; StopMarket; TakeProfit; TakeProfitMarket; TrailingStopMarket; Oco; UnknownType].
Definition POSITION_SIDES : list PositionSide := [BothSides; LongSide; ShortSide].
Definition MARGIN_TYPES : list MarginType := [Isolated; Cross].
Definition POSITION_MODES : list PositionMode := [OneWay; Hedge].

Definition orderSide : value -> string -> Parse OrderSide := readNamed side_name ORDER_SIDES MustBeSide.
Definition positionSide : value -> string -> Parse (option PositionSide) :=
  unlessUndefined (readNamed position_side_name POSITION_SIDES MustBePositionSide).
Definition marginType : value -> string -> Parse MarginType := readNamed margin_name MARGIN_TYPES MustBeMarginType.

(** [Number.isInteger(leverage) && 1 <= leverage && leverage <= 125] *)
Definition leverage_ok (n : number) : bool := isInteger n && negb (n <? 1) && negb (125 <? n).

Definition parseLot (v : value) (label : string) : Parse FuturesLot :=
  _ ← throwIf (negb (isRecord v)) (BadAccount label MustBeObject);
  leverage ← finiteNumber (prop "leverage" v) (dot label "leverage");
  _ ← throwIf (negb (leverage_ok leverage)) (BadAccount (dot label "leverage") MustBeLeverage);
  amount ← positiveNumber (prop "amount" v) (dot label "amount");
  price ← positiveNumber (prop "price" v) (dot label "price");
  type ← marginType (prop "marginType" v) (dot label "marginType");
  Ok {| lot_amount := amount; lot_price := price; lot_leverage := leverage; lot_marginType := type |}.

(** [values.map((value, index) => read(value, `${label}[${index}]`))] *)
Fixpoint parse_items {A} (read : value -> string -> Parse A) (label : string) (i : nat) (l : list value) : Parse (list A) :=
  match l with
  | [] => Ok []
  | v :: rest => a ← read v (indexed label i); r ← parse_items read label (S i) rest; Ok (a :: r)
  end.

Definition parse_array {A} (read : value -> string -> Parse A) (v : value) (label : string) : Parse (list A) :=
  match v with VArr l => parse_items read label 0 l | _ => Throw (BadAccount label MustBeArray) end.

Definition sum (l : list number) : number := fold_left (fun a x => a + x) l 0.
Definition lots_amount (l : list FuturesLot) : number := sum (map lot_amount l).
Definition lots_cost (l : list FuturesLot) : number := sum (map (fun lot => lot_amount lot * lot_price lot) l).

Definition parseEntry (v : value) (label : string) : Parse FuturesEntry :=
  _ ← throwIf (negb (isRecord v)) (BadAccount label MustBeObject);
  leverage ← optionalFinite (prop "leverage" v) (dot label "leverage");
  _ ← throwIf (match leverage with Some n => negb (leverage_ok n) | None => false end)
        (BadAccount (dot label "leverage") MustBeLeverage);
  lots ← unlessUndefined (parse_array parseLot) (prop "lots" v) (dot label "lots");
  amount ← finiteNumber (prop "amount" v) (dot label "amount");
  cost ← nonNegativeNumber (prop "cost" v) (dot label "cost");
  _ ← throwIf ((amount =? 0) && negb (cost =? 0)) (BadAccount (dot label "cost") MustBeZeroCost);
  _ ← match lots with
      | None => Ok tt
      | Some lots =>
          let tolerance := Math_max (Math_max 0x1.19799812dea11p-40 (Math_abs amount * 0x1.12e0be826d695p-30))
                             (cost * 0x1.12e0be826d695p-30) in
          _ ← throwIf (tolerance <? Math_abs (lots_amount lots - Math_abs amount))
                (BadAccount (dot label "lots") LotAmountsDiffer);
          throwIf (tolerance <? Math_abs (lots_cost lots - cost)) (BadAccount (dot label "lots") LotCostsDiffer)
      end;
  type ← unlessUndefined marginType (prop "marginType" v) (dot label "marginType");
  Ok {| ent_amount := amount; ent_cost := cost; ent_leverage := leverage; ent_marginType := type; ent_lots := lots |}.

(** A value the fee validator accepts, as the observation it is. *)
Definition read_charge (v : value) : FeeCharge :=
  {| fc_currency := str_of (prop "currency" v); fc_cost := num_or (prop "cost" v) 0 |}.
Definition read_fee (v : value) : OrderFeeObservation :=
  {| fo_source := if isLit "exchange" (prop "source" v) then ExchangeFees else PaperLedgerFees;
     fo_completeness := if isLit "complete" (prop "completeness" v) then CompleteFees else PartialFees;
     fo_charges := match prop "charges" v with VArr l => map read_charge l | _ => [] end |}.

(** The charges of an order's ledger fees: one, in the quote currency, and 0 without fills. *)
Definition ledger_charge (quote : string) (filled : number) (c : FeeCharge) : bool :=
  String.eqb (fc_currency c) quote && negb (fc_cost c <? 0) && negb ((filled =? 0) && negb (fc_cost c =? 0)).
Definition ledger_fee (quote : string) (filled : number) (f : OrderFeeObservation) : bool :=
  bool_decide (fo_source f = PaperLedgerFees) && (length (fo_charges f) =? 1)%nat
  && forallb (ledger_charge quote filled) (fo_charges f).

Definition parseFee (quote : string) (filled : number) (v : value) (label : string) : Parse OrderFeeObservation :=
  if isOrderFeeObservation v && ledger_fee quote filled (read_fee v) then Ok (read_fee v)
  else Throw (BadAccount label FeesNotActual).

Definition some_nonpositive (o : option number) : bool := match o with Some n => n <=? 0 | None => false end.
Definition bad_percent (o : option number) : bool := match o with Some n => (n <=? 0) || (100 <=? n) | None => false end.

Definition parseOrder (quote : string) (v : value) (label : string) : Parse PaperOrder :=
  _ ← throwIf (negb (isRecord v)) (BadAccount label MustBeObject);
  _ ← throwIf (negb (isNonemptyString (prop "id" v))) (BadAccount (dot label "id") MustBeString);
  _ ← throwIf (negb (isNonemptyString (prop "symbol" v))) (BadAccount (dot label "symbol") MustBeString);
  type ← readNamed type_name ALL_ORDER_TYPES UnsupportedOrderType (prop "type" v) (dot label "type");
  status ← readNamed paper_status_name ORDER_STATUSES UnsupportedStatus (prop "status" v) (dot label "status");
  amount ← positiveNumber (prop "amount" v) (dot label "amount");
  filled ← nonNegativeNumber (prop "filled" v) (dot label "filled");
  _ ← throwIf (amount <? filled) (BadAccount (dot label "filled") FilledExceedsAmount);
  fee ← unlessUndefined (parseFee quote filled) (prop "feeObservation" v) (dot label "feeObservation");
  price ← optionalFinite (prop "price" v) (dot label "price");
  stopPrice ← optionalFinite (prop "stopPrice" v) (dot label "stopPrice");
  trailingPercent ← optionalFinite (prop "trailingPercent" v) (dot label "trailingPercent");
  trailingExtreme ← optionalFinite (prop "trailingExtreme" v) (dot label "trailingExtreme");
  reservePrice ← optionalFinite (prop "reservePrice" v) (dot label "reservePrice");
  average ← optionalFinite (prop "average" v) (dot label "average");
  _ ← throwIf (some_nonpositive price) (BadAccount (dot label "price") MustBePositive);
  _ ← throwIf (some_nonpositive stopPrice) (BadAccount (dot label "stopPrice") MustBePositive);
  _ ← throwIf (bad_percent trailingPercent) (BadAccount (dot label "trailingPercent") MustBePercent);
  _ ← throwIf (some_nonpositive trailingExtreme) (BadAccount (dot label "trailingExtreme") MustBePositive);
  _ ← throwIf (some_nonpositive reservePrice) (BadAccount (dot label "reservePrice") MustBePositive);
  _ ← throwIf (some_nonpositive average) (BadAccount (dot label "average") MustBePositive);
  reservedMargin ← unlessUndefined nonNegativeNumber (prop "reservedMargin" v) (dot label "reservedMargin");
  side ← orderSide (prop "side" v) (dot label "side");
  triggered ← optionalBoolean (prop "triggered" v) (dot label "triggered");
  lastCheckedAt ← optionalFinite (prop "lastCheckedAt" v) (dot label "lastCheckedAt");
  ocoGroup ← optionalString (prop "ocoGroup" v) (dot label "ocoGroup");
  clientOrderId ← optionalString (prop "clientOrderId" v) (dot label "clientOrderId");
  listClientOrderId ← optionalString (prop "listClientOrderId" v) (dot label "listClientOrderId");
  posSide ← positionSide (prop "positionSide" v) (dot label "positionSide");
  reduceOnly ← optionalBoolean (prop "reduceOnly" v) (dot label "reduceOnly");
  closePosition ← optionalBoolean (prop "closePosition" v) (dot label "closePosition");
  cost ← nonNegativeNumber (prop "cost" v) (dot label "cost");
  timestamp ← finiteNumber (prop "timestamp" v) (dot label "timestamp");
  Ok {| ord_id := str_of (prop "id" v); ord_symbol := str_of (prop "symbol" v); ord_side := side; ord_type := type;
        ord_price := price; ord_stopPrice := stopPrice; ord_trailingPercent := trailingPercent;
        ord_ocoGroup := ocoGroup; ord_clientOrderId := clientOrderId; ord_listClientOrderId := listClientOrderId;
        ord_positionSide := posSide; ord_reduceOnly := reduceOnly; ord_closePosition := closePosition;
        ord_timestamp := timestamp;
        ord_state := {| st_trailingExtreme := trailingExtreme; st_triggered := triggered;
          st_reservePrice := reservePrice; st_reservedMargin := reservedMargin; st_lastCheckedAt := lastCheckedAt;
          st_amount := amount; st_filled := filled; st_average := average; st_cost := cost;
          st_feeObservation := fee; st_status := status |} |}.

Definition parseTrade (v : value) (label : string) : Parse PaperTrade :=
  _ ← throwIf (negb (isRecord v)) (BadAccount label MustBeObject);
  _ ← throwIf (negb (isNonemptyString (prop "id" v))) (BadAccount (dot label "id") MustBeString);
  _ ← throwIf (negb (isNonemptyString (prop "symbol" v))) (BadAccount (dot label "symbol") MustBeString);
  price ← positiveNumber (prop "price" v) (dot label "price");
  amount ← positiveNumber (prop "amount" v) (dot label "amount");
  cost ← nonNegativeNumber (prop "cost" v) (dot label "cost");
  fee ← nonNegativeNumber (prop "fee" v) (dot label "fee");
  side ← orderSide (prop "side" v) (dot label "side");
  realizedPnl ← optionalFinite (prop "realizedPnl" v) (dot label "realizedPnl");
  posSide ← positionSide (prop "positionSide" v) (dot label "positionSide");
  timestamp ← finiteNumber (prop "timestamp" v) (dot label "timestamp");
  Ok {| trd_id := str_of (prop "id" v); trd_symbol := str_of (prop "symbol" v); trd_side := side; trd_price := price;
        trd_amount := amount; trd_cost := cost; trd_fee := fee; trd_realizedPnl := realizedPnl;
        trd_positionSide := posSide; trd_timestamp := timestamp |}.

(** [Object.fromEntries(Object.entries(o).map(([key, v]) => [key, read(v, label(key))]))] *)
Fixpoint parse_entries {A} (read : value -> string -> Parse A) (label : string) (o : list (string * value)) :
    Parse (obj A) :=
  match o with
  | [] => Ok []
  | (key, v) :: rest => a ← read v (dot label key); r ← parse_entries read label rest; Ok ((key, a) :: r)
  end.

Definition parseNumberRecord (v : value) (label : string) : Parse (obj number) :=
  _ ← throwIf (negb (isRecord v && forallb (fun p => isNumber isFinite (snd p)) (entries_of v)))
        (BadAccount label MustContainNumbers);
  Ok (map (fun p => (fst p, num_or (snd p) 0)) (entries_of v)).

Definition readLeverages (v : value) (label : string) : Parse (obj number) :=
  record ← parseNumberRecord v label;
  _ ← foldM (fun _ p => throwIf (negb (leverage_ok (snd p))) (BadAccount (dot label (fst p)) MustBeLeverage)) tt record;
  Ok record.
Definition parseLeverageBySymbol (v : value) : Parse (option (obj number)) :=
  unlessUndefined readLeverages v "leverageBySymbol".

Definition readMarginTypes (v : value) (label : string) : Parse (obj MarginType) :=
  _ ← throwIf (negb (isRecord v)) (BadAccount label MustBeObject);
  parse_entries marginType label (entries_of v).
Definition parseMarginTypeBySymbol (v : value) : Parse (option (obj MarginType)) :=
  unlessUndefined readMarginTypes v "marginTypeBySymbol".

(** *** Fees *)

(** Record the exact charged fee, keeping unknown earlier fills unknown. *)
Definition paperOrderFeeObservation (quote : string) (fee : number) (previous : option PaperOrder) :
    Parse OrderFeeObservation :=
  let bad := BadAccount "fee" InvalidLedgerFee in
  let prior := o ← previous; ord_feeObservation o in
  _ ← throwIf (negb (isFinite fee) || (fee <? 0)
               || match prior with
                  | Some f => negb (isOrderFeeObservation (feeObservation_value f))
                              || negb (bool_decide (fo_source f = PaperLedgerFees))
                              || existsb (fun c => negb (String.eqb (fc_currency c) quote) || (fc_cost c <? 0)) (fo_charges f)
                  | None => false
                  end) bad;
  let unknown_fills := match previous with
    | Some o => (0 <? ord_filled o)
                && negb (bool_decide (option_map fo_completeness prior = Some CompleteFees))
    | None => false
    end in
  let earlier := match prior with Some f => sum (map fc_cost (fo_charges f)) | None => 0 end in
  let observation := {| fo_source := PaperLedgerFees;
    fo_completeness := if unknown_fills then PartialFees else CompleteFees;
    fo_charges := [{| fc_currency := quote; fc_cost := fee + earlier |}] |} in
  _ ← throwIf (negb (isOrderFeeObservation (feeObservation_value observation))) bad;
  Ok observation.

(** The trade an id belongs to, when it is the only one of that id. *)
Definition unique_trade (trades : list PaperTrade) (id : string) : option PaperTrade :=
  match List.filter (fun t => String.eqb (trd_id t) id) trades with [t] => Some t | _ => None end.

Definition trade_matches (o : PaperOrder) (t : PaperTrade) : bool :=
  String.eqb (trd_symbol t) (ord_symbol o) && bool_decide (trd_side t = ord_side o)
  && bool_decide (trd_positionSide t = ord_positionSide o) && (trd_amount t =? ord_filled o) && (trd_cost t =? ord_cost o).

(** The fee of a filled legacy order, from its own trade. *)
Definition recover_fee (quote : string) (orders : list PaperOrder) (trades : list PaperTrade) (o : PaperOrder) :
    Parse PaperOrder :=
  if match ord_feeObservation o with Some _ => true | None => false end || (ord_filled o =? 0)
     || negb (length (List.filter (fun o' => String.eqb (ord_id o') (ord_id o)) orders) =? 1)%nat
  then Ok o
  else match unique_trade trades (ord_id o) with
  | Some t => if trade_matches o t
              then fee ← paperOrderFeeObservation quote (trd_fee t) None; Ok (set_fee fee o)
              else Ok o
  | None => Ok o
  end.

Fixpoint recover_fees (quote : string) (all : list PaperOrder) (trades : list PaperTrade) (orders : list PaperOrder) :
    Parse (list PaperOrder) :=
  match orders with
  | [] => Ok []
  | o :: rest => o' ← recover_fee quote all trades o; r ← recover_fees quote all trades rest; Ok (o' :: r)
  end.

Definition parsePaperAccount (v : value) : Parse PaperAccount :=
  _ ← throwIf (negb (isRecord v)) (BadAccount "" MustBeObject);
  _ ← throwIf (negb (isNonemptyString (prop "quote" v))) (BadAccount "quote" QuoteMissing);
  let quote := str_of (prop "quote" v) in
  _ ← throwIf (negb (isRecord (prop "entries" v) && isArray (fun _ => true) (prop "orders" v)
                     && isArray (fun _ => true) (prop "trades" v))) (BadAccount "" PartsMissing);
  leverage ← optionalFinite (prop "leverage" v) "leverage";
  _ ← throwIf (match leverage with Some n => negb (leverage_ok n) | None => false end) (BadAccount "leverage" MustBeLeverage);
  positionMode ← unlessUndefined (readNamed position_mode_name POSITION_MODES MustBePositionMode)
                   (prop "positionMode" v) "positionMode";
  orders ← parse_array (parseOrder quote) (prop "orders" v) "orders";
  trades ← parse_array parseTrade (prop "trades" v) "trades";
  orders ← recover_fees quote orders trades orders;
  balances ← parseNumberRecord (prop "balances" v) "balances";
  entries ← parse_entries parseEntry "entries" (entries_of (prop "entries" v));
  realizedPnl ← finiteNumber (prop "realizedPnl" v) "realizedPnl";
  type ← unlessUndefined marginType (prop "marginType" v) "marginType";
  leverageBySymbol ← parseLeverageBySymbol (prop "leverageBySymbol" v);
  marginTypeBySymbol ← parseMarginTypeBySymbol (prop "marginTypeBySymbol" v);
  createdAt ← finiteNumber (prop "createdAt" v) "createdAt";
  Ok {| acc_quote := quote; acc_balances := balances; acc_entries := entries; acc_orders := orders;
        acc_trades := trades; acc_realizedPnl := realizedPnl; acc_leverage := leverage; acc_marginType := type;
        acc_leverageBySymbol := leverageBySymbol; acc_marginTypeBySymbol := marginTypeBySymbol;
        acc_positionMode := positionMode; acc_createdAt := createdAt |}.

(** ** Fresh accounts and order numbers *)

Definition freshSpotAccount (quote : string) (startQuote now : number) : PaperAccount :=
  {| acc_quote := quote; acc_balances := [(quote, startQuote)]; acc_entries := []; acc_orders := []; acc_trades := [];
     acc_realizedPnl := 0; acc_leverage := None; acc_marginType := None; acc_leverageBySymbol := None;
     acc_marginTypeBySymbol := None; acc_positionMode := None; acc_createdAt := now |}.

Definition freshFuturesAccount (quote : string) (startQuote leverage : number) (type : MarginType)
    (positionMode : PositionMode) (now : number) : PaperAccount :=
  {| acc_quote := quote; acc_balances := [(quote, startQuote)]; acc_entries := []; acc_orders := []; acc_trades := [];
     acc_realizedPnl := 0; acc_leverage := Some leverage; acc_marginType := Some type; acc_leverageBySymbol := None;
     acc_marginTypeBySymbol := None; acc_positionMode := Some positionMode; acc_createdAt := now |}.

(** The number an id is, when it is one a client would give; ids such as
    [liquidation-1] are not. *)
Definition numeric_id (id : string) : option Z :=
  let n := stringToNumber id in
  if isSafeInteger n && negb (n <? 0) then Some (trunc n) else None.

Definition account_ids (a : PaperAccount) : list string := app (map ord_id (acc_orders a)) (map trd_id (acc_trades a)).

Definition maxPersistedOrderId (accounts : list PaperAccount) : Z :=
  (fold_left Z.max (omap numeric_id (concat (map account_ids accounts))) 0 + 1)%Z.
