(* ===== verification/PaperRoundTrip.v ===== *)
(** * Accepted accounts are fixed points of their validator

    The object of whatever [parsePaperAccount] accepts is read again as the same account,
    reader by reader; what its JSON text is read as is in PaperFiles. *)

From Stdlib Require Import ZArith Lia Bool Ascii Floats.
From stdpp Require Import base strings option list.
From S2P Require Import Prelude JsNumber JsObject JsValue JsText AccountRisk RiskState Execution PaperAccount.

Local Open Scope float_scope.

(** A reader returns from the value of its result, under any label, that result. *)
Definition reads_back {A} (read : value -> string -> Parse A) (f : A -> value) : Prop :=
  forall v l a, read v l = Ok a -> forall l', read (f a) l' = Ok a.

Create HintDb reads discriminated.

Lemma reads_finite : reads_back finiteNumber VNum.
Proof.
  intros v lb a H l'. unfold finiteNumber in *. destruct v as [| | |n| | |]; try done.
  destruct (isFinite n) eqn:E; [|done]. injection H as <-. by rewrite E.
Qed.

Lemma reads_nonNegative : reads_back nonNegativeNumber VNum.
Proof.
  intros v l a H l'. unfold nonNegativeNumber in *. inv_ok. rewrite (reads_finite _ _ _ ltac:(eassumption)). cbn.
  by rewrite throwIf_pass.
Qed.

Lemma reads_positive : reads_back positiveNumber VNum.
Proof.
  intros v l a H l'. unfold positiveNumber in *. inv_ok. rewrite (reads_finite _ _ _ ltac:(eassumption)). cbn.
  by rewrite throwIf_pass.
Qed.

Lemma reads_boolean : reads_back readBoolean VBool.
Proof. intros v lb a H l'. by destruct v. Qed.

Lemma reads_string : reads_back readString VStr.
Proof. intros v lb a H l'. by destruct v. Qed.

Lemma reads_named {A} (name : A -> string) all why :
  reads_back (readNamed name all why) (fun a => VStr (name a)).
Proof.
  intros v l a H l'. unfold readNamed, named in *. destruct v; try done.
  destruct (find _ all) as [b|] eqn:E; [|done]. injection H as ->.
  pose proof (find_some _ _ E) as [_ <-%String.eqb_eq]. by rewrite E.
Qed.

Lemma reads_optional {A} read (f : A -> value) :
  reads_back read f -> (forall a, defined (f a) = true) -> reads_back (unlessUndefined read) (opt_value f).
Proof.
  intros Hr Hd v l o H l'. unfold unlessUndefined in *. destruct (defined v); [|by injection H as <-].
  inv_ok. cbn [opt_value]. rewrite Hd. by rewrite (Hr _ _ _ ltac:(eassumption)).
Qed.

Lemma reads_items {A} read (f : A -> value) : reads_back read f ->
  forall l label i r, parse_items read label i l = Ok r -> forall label' i', parse_items read label' i' (map f r) = Ok r.
Proof.
  intros Hr l. induction l as [|v l IH]; intros label i r H label' i'; cbn in H; [by injection H as <-|].
  inv_ok. cbn. rewrite (Hr _ _ _ ltac:(eassumption)). cbn. by rewrite (IH _ _ _ ltac:(eassumption)).
Qed.

Lemma reads_array {A} read (f : A -> value) :
  reads_back read f -> reads_back (parse_array read) (fun l => VArr (map f l)).
Proof. intros Hr v label a H l'. destruct v; try done. by eapply reads_items. Qed.

Lemma reads_entries {A} read (f : A -> value) : reads_back read f ->
  forall o label r, parse_entries read label o = Ok r ->
  forall label', parse_entries read label' (map (fun p => (fst p, f (snd p))) r) = Ok r.
Proof.
  intros Hr o. induction o as [|[k v] o IH]; intros label r H label'; cbn in H; [by injection H as <-|].
  inv_ok. cbn. rewrite (Hr _ _ _ ltac:(eassumption)). cbn. by rewrite (IH _ _ ltac:(eassumption)).
Qed.

#[export] Hint Resolve reads_finite reads_nonNegative reads_positive reads_boolean reads_string reads_named
  reads_optional reads_array : reads.

#[export] Hint Extern 1 (forall _, defined _ = true) => intros []; reflexivity : reads.

(** Runs the chain of readers of a goal on the results in the context. *)
Ltac read_step :=
  match goal with
  | |- (throwIf _ _ ≫= _) = _ => rewrite throwIf_pass by (first [assumption | reflexivity])
  | |- (Ok ?a ≫= _) = _ => rewrite (Ok_pass (Ok a) a _ eq_refl)
  | |- (?read ?w ?label ≫= _) = _ =>
      match goal with
      | H : read ?v ?l = Ok ?a |- _ =>
          rewrite (Ok_pass (read w label) a)
            by (refine ((_ : reads_back read _) v l a H label); eauto 6 with reads)
      end
  end.
Ltac unfold_readers :=
  unfold optionalFinite, optionalBoolean, optionalString, orderSide, positionSide, marginType in *.
Ltac read_again := unfold_readers; repeat (read_step; cbn beta iota).

(** ** Properties of the values of records *)

Lemma get_field_eq k v r : o_get k (app (field k v) r) = Some v.
Proof. cbn. by rewrite String.eqb_refl. Qed.
Lemma get_field_ne k j v r : String.eqb k j = false -> o_get k (app (field j v) r) = o_get k r.
Proof. cbn. by intros ->. Qed.
Lemma get_opt_ne {A} k j (f : A -> value) o r :
  String.eqb k j = false -> o_get k (app (opt_field j f o) r) = o_get k r.
Proof. destruct o; cbn; [by intros ->|done]. Qed.
Lemma get_opt_eq {A} k (f : A -> value) o r :
  o_get k r = None -> default VUndefined (o_get k (app (opt_field k f o) r)) = opt_value f o.
Proof. destruct o; cbn; [by rewrite String.eqb_refl|by intros ->]. Qed.

(** Reads a property of the value of a record. *)
Ltac read_prop :=
  unfold prop;
  repeat first [rewrite get_field_eq | rewrite get_field_ne by reflexivity | rewrite get_opt_ne by reflexivity];
  first [ reflexivity
        | apply get_opt_eq;
          repeat first [rewrite get_field_ne by reflexivity | rewrite get_opt_ne by reflexivity]; reflexivity ].

Lemma reads_lot : reads_back parseLot lot_value.
Proof.
  intros v l a H l'. unfold parseLot in H. inv_ok. unfold parseLot, lot_value. cbn [isRecord negb].
  unfold prop. cbn -[finiteNumber positiveNumber marginType leverage_ok throwIf dot mbind result_bind].
  read_again. reflexivity.
Qed.

#[export] Hint Resolve reads_lot : reads.

Lemma entry_props e :
  prop "amount" (entry_value e) = VNum (ent_amount e) /\ prop "cost" (entry_value e) = VNum (ent_cost e) /\
  prop "leverage" (entry_value e) = opt_value VNum (ent_leverage e) /\
  prop "marginType" (entry_value e) = opt_value (fun x => VStr (margin_name x)) (ent_marginType e) /\
  prop "lots" (entry_value e) = opt_value (fun l => VArr (map lot_value l)) (ent_lots e).
Proof. unfold entry_value. by destruct (ent_leverage e), (ent_marginType e), (ent_lots e). Qed.

Lemma reads_entry : reads_back parseEntry entry_value.
Proof.
  intros v l a H l'. unfold parseEntry in H. inv_ok. unfold parseEntry.
  match goal with |- context [entry_value ?e] => pose proof (entry_props e) as (-> & -> & -> & -> & ->) end.
  cbn [ent_amount ent_cost ent_leverage ent_marginType ent_lots isRecord negb entry_value].
  match goal with H : match ?o with Some _ => _ | None => Ok tt end = Ok tt |- _ => destruct o; inv_ok end.
  all: read_again; try (rewrite throwIf_pass by assumption; read_again); reflexivity.
Qed.
#[export] Hint Resolve reads_entry : reads.

(** ** Fees *)

Lemma read_fee_value f : read_fee (feeObservation_value f) = f.
Proof.
  destruct f as [s c l]. unfold read_fee, feeObservation_value. cbn. f_equal; [by destruct s|by destruct c|].
  rewrite map_map. induction l as [|[cur cost] l IH]; [done|]. cbn [map]. by rewrite IH.
Qed.

Lemma charge_read v : charge_ok v = true ->
  charge_ok (VObj [("currency", VStr (fc_currency (read_charge v))); ("cost", VNum (fc_cost (read_charge v)))]%string) = true
  /\ str_of (prop "currency" v) = fc_currency (read_charge v).
Proof.
  unfold charge_ok. intros H. bool_hyps. split; [|done].
  unfold isString, isNumber in *. unfold read_charge. cbn -[isFinite class_len prop].
  destruct (prop "currency" v) as [| | | |s| |], (prop "cost" v) as [| | |x| | |]; try done.
  change (class_len isCurrencyChar 1 80 s && isFinite x && true = true). rewrite andb_true_r. by apply andb_true_iff.
Qed.

Lemma fee_shape s c l :
  isOrderFeeObservation (VObj [("source", VStr s); ("completeness", VStr c); ("charges", VArr l)]%string) =
  (String.eqb "exchange" s || String.eqb "paper-ledger" s) && (String.eqb "complete" c || String.eqb "partial" c) && true
  && ((0 <? length l)%nat && (length l <=? 32)%nat && forallb charge_ok l
      && distinct (map (fun c => str_of (prop "currency" c)) l)).
Proof. reflexivity. Qed.

Lemma fee_valid_again v : isOrderFeeObservation v = true -> isOrderFeeObservation (feeObservation_value (read_fee v)) = true.
Proof.
  unfold isOrderFeeObservation at 1. intros H. bool_hyps.
  unfold feeObservation_value. rewrite fee_shape. unfold read_fee. cbn [fo_source fo_completeness fo_charges].
  destruct (prop "charges" v) as [| | | | |l|]; try done. unfold isArray in *. bool_hyps.
  rewrite !length_map, !andb_true_r. repeat (apply andb_true_iff; split); try done.
  - by destruct (isLit "exchange" _).
  - by destruct (isLit "complete" _).
  - apply forallb_forall. intros x (y & <- & Hy)%in_map_iff.
    apply in_map_iff in Hy as (z & <- & Hz). apply charge_read. by eapply forallb_In.
  - rewrite !map_map. erewrite map_ext_in; [eassumption|]. intros z Hz. symmetry. apply charge_read. by eapply forallb_In.
Qed.

Lemma reads_fee quote filled : reads_back (parseFee quote filled) feeObservation_value.
Proof.
  intros v l f H l'. unfold parseFee in *. destruct (isOrderFeeObservation v && _) eqn:E; [|done].
  injection H as <-. bool_hyps. rewrite read_fee_value, fee_valid_again by done. cbn [andb]. by rewrite H0.
Qed.
#[export] Hint Resolve reads_fee : reads.

(** ** Orders, trades and accounts *)

Lemma order_props o :
  let s := ord_state o in let get k := prop k (order_value o) in
  (get "id" = VStr (ord_id o) /\ get "symbol" = VStr (ord_symbol o) /\ get "side" = VStr (side_name (ord_side o))
   /\ get "type" = VStr (type_name (ord_type o)) /\ get "price" = opt_value VNum (ord_price o)
   /\ get "stopPrice" = opt_value VNum (ord_stopPrice o)
   /\ get "trailingPercent" = opt_value VNum (ord_trailingPercent o)
   /\ get "trailingExtreme" = opt_value VNum (st_trailingExtreme s)
   /\ get "triggered" = opt_value VBool (st_triggered s) /\ get "reservePrice" = opt_value VNum (st_reservePrice s)
   /\ get "reservedMargin" = opt_value VNum (st_reservedMargin s)
   /\ get "lastCheckedAt" = opt_value VNum (st_lastCheckedAt s)) /\
  (get "ocoGroup" = opt_value VStr (ord_ocoGroup o) /\ get "clientOrderId" = opt_value VStr (ord_clientOrderId o)
   /\ get "listClientOrderId" = opt_value VStr (ord_listClientOrderId o)
   /\ get "positionSide" = opt_value (fun x => VStr (position_side_name x)) (ord_positionSide o)
   /\ get "reduceOnly" = opt_value VBool (ord_reduceOnly o) /\ get "closePosition" = opt_value VBool (ord_closePosition o)
   /\ get "amount" = VNum (st_amount s) /\ get "filled" = VNum (st_filled s)
   /\ get "average" = opt_value VNum (st_average s) /\ get "cost" = VNum (st_cost s)
   /\ get "feeObservation" = opt_value feeObservation_value (st_feeObservation s)
   /\ get "status" = VStr (paper_status_name (st_status s)) /\ get "timestamp" = VNum (ord_timestamp o))%string.
Proof. cbv zeta. unfold order_value. split; repeat split; read_prop. Qed.

Lemma str_of_nonempty v : isNonemptyString v = true -> isNonemptyString (VStr (str_of v)) = true.
Proof. by destruct v. Qed.

Lemma reads_order quote : reads_back (parseOrder quote) order_value.
Proof.
  intros v l o H l'. unfold parseOrder in H. inv_ok. unfold parseOrder.
  match goal with |- context [order_value ?o] => pose proof (order_props o) as [Hp1 Hp2] end.
  cbn -[prop order_value opt_value feeObservation_value] in Hp1, Hp2.
  destruct Hp1 as (-> & -> & -> & -> & -> & -> & -> & -> & -> & -> & -> & ->).
  destruct Hp2 as (-> & -> & -> & -> & -> & -> & -> & -> & -> & -> & -> & -> & ->).
  bool_hyps. rewrite !str_of_nonempty by done. cbn [isRecord order_value negb].
  read_again. reflexivity.
Qed.
#[export] Hint Resolve reads_order : reads.

Lemma trade_props t :
  let get k := prop k (trade_value t) in
  (get "id" = VStr (trd_id t) /\ get "symbol" = VStr (trd_symbol t) /\ get "side" = VStr (side_name (trd_side t))
   /\ get "price" = VNum (trd_price t) /\ get "amount" = VNum (trd_amount t) /\ get "cost" = VNum (trd_cost t)
   /\ get "fee" = VNum (trd_fee t) /\ get "realizedPnl" = opt_value VNum (trd_realizedPnl t)
   /\ get "positionSide" = opt_value (fun x => VStr (position_side_name x)) (trd_positionSide t)
   /\ get "timestamp" = VNum (trd_timestamp t))%string.
Proof. cbv zeta. unfold trade_value. by destruct (trd_realizedPnl t), (trd_positionSide t). Qed.

Lemma reads_trade : reads_back parseTrade trade_value.
Proof.
  intros v l t H l'. unfold parseTrade in H. inv_ok. unfold parseTrade.
  match goal with |- context [trade_value ?t] => pose proof (trade_props t) as Hp end.
  cbn -[prop trade_value opt_value] in Hp. destruct Hp as (-> & -> & -> & -> & -> & -> & -> & -> & -> & ->).
  bool_hyps. rewrite !str_of_nonempty by done. cbn [isRecord trade_value negb].
  read_again. reflexivity.
Qed.
#[export] Hint Resolve reads_trade : reads.

Lemma reads_numbers : reads_back parseNumberRecord (obj_value VNum).
Proof.
  intros v l r H l'. unfold parseNumberRecord in *. inv_ok. bool_hyps.
  unfold obj_value. cbn [isRecord entries_of]. rewrite throwIf_pass.
  - cbn beta. by rewrite !map_map.
  - apply negb_false_iff. cbn. apply forallb_forall. intros p (q & <- & Hq)%in_map_iff.
    apply in_map_iff in Hq as ([k x] & <- & Hx). cbn.
    match goal with H : forallb _ _ = true |- _ => apply (forallb_In _ _ _ H) in Hx end. by destruct x.
Qed.

Lemma reads_leverages : reads_back readLeverages (obj_value VNum).
Proof.
  intros v l r H l'. unfold readLeverages in *. inv_ok.
  rewrite (Ok_pass _ _ _ (reads_numbers _ _ _ ltac:(eassumption) l')).
  rewrite (Ok_pass _ tt); [done|].
  match goal with H : foldM _ _ _ = Ok tt |- _ => revert H end.
  clear. induction r as [|p r IH]; [done|]. cbn [foldM]. by destruct (leverage_ok (snd p)).
Qed.

Lemma reads_marginTypes : reads_back readMarginTypes (obj_value (fun x => VStr (margin_name x))).
Proof.
  intros v l r H l'. unfold readMarginTypes in *. inv_ok. cbn [isRecord negb obj_value entries_of].
  rewrite throwIf_pass by done. apply (reads_entries marginType (fun x => VStr (margin_name x)) (reads_named _ _ _) _ _ _ ltac:(eassumption)).
Qed.
#[export] Hint Resolve reads_numbers reads_leverages reads_marginTypes : reads.

Lemma leb_not_ltb x y : (x <=? y) = true -> (y <? x) = false.
Proof. intros H. apply not_true_iff_false. intros H'%ltb_not_leb. congruence. Qed.

Lemma ledger_fee_valid quote filled fee f :
  paperOrderFeeObservation quote fee None = Ok f -> (filled =? 0) = false ->
  isOrderFeeObservation (feeObservation_value f) = true /\ ledger_fee quote filled f = true.
Proof.
  unfold paperOrderFeeObservation. cbn [mbind option_bind]. intros H Hf. inv_ok. bool_hyps. split; [done|].
  unfold ledger_fee, ledger_charge. cbn. rewrite String.eqb_refl, Hf. cbn. rewrite !andb_true_r. rewrite bool_decide_true by done. apply negb_true_iff.
  apply leb_not_ltb, add_nonneg; [|done]. apply ltb_false_leb; auto with ti.
Qed.

Lemma reads_fee_set quote v l o f : parseOrder quote v l = Ok o ->
  isOrderFeeObservation (feeObservation_value f) = true -> ledger_fee quote (ord_filled o) f = true ->
  forall l', parseOrder quote (order_value (set_fee f o)) l' = Ok (set_fee f o).
Proof.
  intros H Hf Hq l'. unfold parseOrder in H. inv_ok. unfold parseOrder.
  match goal with |- context [order_value ?o] => pose proof (order_props o) as [Hp1 Hp2] end.
  cbn -[prop order_value opt_value feeObservation_value] in Hp1, Hp2.
  destruct Hp1 as (-> & -> & -> & -> & -> & -> & -> & -> & -> & -> & -> & ->).
  destruct Hp2 as (-> & -> & -> & -> & -> & -> & -> & -> & -> & -> & -> & -> & ->).
  bool_hyps. rewrite !str_of_nonempty by done. cbn [isRecord order_value negb].
  read_again. rewrite (Ok_pass _ (Some f)).
  - cbn beta. read_again. reflexivity.
  - unfold unlessUndefined, parseFee. cbn [opt_value]. change (defined (feeObservation_value f)) with true. cbn iota.
    unfold ord_filled in Hq. cbn [ord_state st_filled] in Hq. by rewrite read_fee_value, Hf, Hq.
Qed.

Lemma count_ids id l l' : map ord_id l = map ord_id l' ->
  length (List.filter (fun o => String.eqb (ord_id o) id) l) = length (List.filter (fun o => String.eqb (ord_id o) id) l').
Proof.
  revert l'. induction l as [|o l IH]; intros [|o' l']; try done. cbn. intros [= -> H].
  destruct (String.eqb (ord_id o') id); cbn; by rewrite (IH l').
Qed.

(** An order whose fee was recovered is read back with it, and nothing is recovered again. *)
Lemma recover_reads quote all trades v l o o' :
  parseOrder quote v l = Ok o -> recover_fee quote all trades o = Ok o' ->
  (forall l', parseOrder quote (order_value o') l' = Ok o') /\ ord_id o' = ord_id o
  /\ forall all', map ord_id all' = map ord_id all -> recover_fee quote all' trades o' = Ok o'.
Proof.
  intros Hv H.
  assert (o' = o -> (forall l', parseOrder quote (order_value o') l' = Ok o') /\ ord_id o' = ord_id o
    /\ forall all', map ord_id all' = map ord_id all -> recover_fee quote all' trades o' = Ok o') as Hsame.
  { intros ->. split_and!; [by eapply reads_order|done|]. intros all' Ha. unfold recover_fee in *. by rewrite (count_ids _ _ _ Ha). }
  unfold recover_fee in H. destruct (_ || _ || _) eqn:Ec; [by injection H as <-; apply Hsame|].
  destruct (unique_trade trades (ord_id o)) as [t|]; [|by injection H as <-; apply Hsame].
  destruct (trade_matches o t); [|by injection H as <-; apply Hsame]. inv_ok. bool_hyps.
  match goal with E : paperOrderFeeObservation _ _ _ = Ok _ |- _ => apply ledger_fee_valid with (filled := ord_filled o) in E as [??] end; [|done].
  split_and!; [by eapply reads_fee_set|done|]. intros all' _. done.
Qed.

Lemma recover_all_reads quote all trades label i l orders orders' :
  parse_items (parseOrder quote) label i l = Ok orders -> recover_fees quote all trades orders = Ok orders' ->
  (forall label' i', parse_items (parseOrder quote) label' i' (map order_value orders') = Ok orders')
  /\ map ord_id orders' = map ord_id orders
  /\ forall all', map ord_id all' = map ord_id all -> recover_fees quote all' trades orders' = Ok orders'.
Proof.
  revert i orders orders'. induction l as [|v l IH]; intros i orders orders' Hp Hr; cbn in Hp.
  { injection Hp as <-. cbn in Hr. by injection Hr as <-. }
  inv_ok. cbn in Hr. inv_ok.
  match goal with E : parse_items _ _ _ _ = Ok _, E' : recover_fees _ _ _ _ = Ok _ |- _ =>
    destruct (IH _ _ _ E E') as (R1 & R2 & R3) end.
  match goal with E : parseOrder _ _ _ = Ok _, E' : recover_fee _ _ _ _ = Ok _ |- _ =>
    destruct (recover_reads _ _ _ _ _ _ _ E E') as (G1 & G2 & G3) end.
  split_and!.
  - intros label' i'. cbn [map parse_items].
    rewrite (Ok_pass _ _ _ (G1 _)). cbn beta. by rewrite (Ok_pass _ _ _ (R1 _ _)).
  - cbn. by rewrite G2, R2.
  - intros all' Ha. cbn [recover_fees].
    rewrite (Ok_pass _ _ _ (G3 _ Ha)). cbn beta. by rewrite (Ok_pass _ _ _ (R3 _ Ha)).
Qed.

Lemma account_props a :
  let get k := prop k (account_value a) in
  (get "quote" = VStr (acc_quote a) /\ get "balances" = obj_value VNum (acc_balances a)
   /\ get "entries" = obj_value entry_value (acc_entries a) /\ get "orders" = VArr (map order_value (acc_orders a))
   /\ get "trades" = VArr (map trade_value (acc_trades a)) /\ get "realizedPnl" = VNum (acc_realizedPnl a)
   /\ get "leverage" = opt_value VNum (acc_leverage a)
   /\ get "marginType" = opt_value (fun x => VStr (margin_name x)) (acc_marginType a)
   /\ get "leverageBySymbol" = opt_value (obj_value VNum) (acc_leverageBySymbol a)
   /\ get "marginTypeBySymbol" = opt_value (obj_value (fun x => VStr (margin_name x))) (acc_marginTypeBySymbol a)
   /\ get "positionMode" = opt_value (fun x => VStr (position_mode_name x)) (acc_positionMode a)
   /\ get "createdAt" = VNum (acc_createdAt a))%string.
Proof.
  cbv zeta. unfold account_value.
  by destruct (acc_leverage a), (acc_marginType a), (acc_leverageBySymbol a), (acc_marginTypeBySymbol a), (acc_positionMode a).
Qed.

Lemma account_reads_back v a :
  parsePaperAccount v = Ok a -> parsePaperAccount (account_value a) = Ok a.
Proof.
  intros H. unfold parsePaperAccount in H. inv_ok. unfold parsePaperAccount.
  match goal with |- context [account_value ?a] => pose proof (account_props a) as Hp end.
  cbn -[prop account_value opt_value obj_value] in Hp.
  destruct Hp as (-> & -> & -> & -> & -> & -> & -> & -> & -> & -> & -> & ->).
  bool_hyps. rewrite !str_of_nonempty by done. cbn [isRecord account_value negb obj_value isArray andb entries_of str_of].
  unfold parse_array in *. destruct (prop "orders" v) as [| | | | |lo|]; try done. destruct (prop "trades" v) as [| | | | |lt|]; try done.
  match goal with E : parse_items _ _ _ lo = Ok _, E' : recover_fees _ _ _ _ = Ok _ |- _ =>
    destruct (recover_all_reads _ _ _ _ _ _ _ _ E E') as (R1 & R2 & R3) end.
  read_again. rewrite (Ok_pass _ _ _ (R1 _ _)). cbn beta.
  match goal with E : parse_items parseTrade _ _ lt = Ok _ |- _ =>
    rewrite (Ok_pass _ _ _ (reads_items _ _ reads_trade _ _ _ _ E _ _)) end.
  cbn beta. rewrite (Ok_pass _ _ _ (R3 _ R2)). cbn beta. read_again.
  match goal with E : parse_entries parseEntry _ _ = Ok _ |- _ =>
    rewrite (Ok_pass _ _ _ (reads_entries _ _ reads_entry _ _ _ E _)) end.
  cbn beta. unfold parseLeverageBySymbol, parseMarginTypeBySymbol in *. read_again. reflexivity.
Qed.
