(* ===== verification/PaperPath.v ===== *)
(** * The market path of an order (packages/trading-engine/src/paper-path.ts)

    How the price moved since an order was last checked, rebuilt from candles and the
    ticker, and where along it the order fills. *)

From Stdlib Require Import ZArith Lia Bool Ascii Floats.
From stdpp Require Import base strings option list.
From S2P Require Import Prelude JsNumber JsObject JsValue JsFloat JsMath JsText AccountRisk RiskState Execution.
From S2P Require Import ExecutionRecovery PaperAccount.

Local Open Scope float_scope.

(** [None] is the error that the symbol is not a market of the quote. *)
Definition baseAsset (symbol quote : string) : option string :=
  let suffix := String.append "/" quote in
  if endsWith suffix symbol
  then Some (String.substring 0 (String.length symbol - String.length suffix) symbol) else None.

Definition isTriggerType (type : OrderType) : bool :=
  bool_decide (type ∈ [Stop; StopMarket; TakeProfit; TakeProfitMarket]).

(** [type.startsWith("stop")] *)
Definition starts_with_stop (type : OrderType) : bool := bool_decide (type ∈ [Stop; StopMarket]).

(** Whether the trigger is reached by a falling price. *)
Definition falls_to (type : OrderType) (side : OrderSide) : bool :=
  if starts_with_stop type then bool_decide (side = Sell) else bool_decide (side = Buy).

Definition triggerFires (type : OrderType) (side : OrderSide) (price stopPrice : number) : bool :=
  if falls_to type side then price <=? stopPrice else stopPrice <=? price.

Definition trailingStopLevel (side : OrderSide) (extreme trailingPercent : number) : number :=
  match side with
  | Sell => extreme * (1 - trailingPercent / 100)
  | Buy => extreme * (1 + trailingPercent / 100)
  end.

Record PathSegment := { seg_high : number; seg_low : number; seg_tick : bool }.
Record MarketPath := { mp_segments : list PathSegment; mp_checkedAt : number }.
Record PathFire := { fire_index : nat; fire_price : number }.

Definition isFinitePositive (v : option number) : bool :=
  match v with Some n => isFinite n && (0 <? n) | None => false end.

(** ** Building the path *)

Record Kline := { k_timestamp : number; k_open : number; k_high : number; k_low : number; k_close : number; k_volume : number }.

(** A row of the exchange's answer; a missing cell reads as 0. *)
Abbreviation OhlcvRow := (list (option number)).
Definition cell (row : OhlcvRow) (i : nat) : number := default 0 (default None (row !! i)).
Definition kline_of (row : OhlcvRow) : Kline :=
  {| k_timestamp := cell row 0; k_open := cell row 1; k_high := cell row 2; k_low := cell row 3; k_close := cell row 4;
     k_volume := cell row 5 |}.

Inductive Timeframe := OneMinute | FifteenMinutes | OneHour.
Definition timeframe_of (gapMinutes : number) : Timeframe :=
  if gapMinutes <=? 400 then OneMinute else if gapMinutes <=? 6000 then FifteenMinutes else OneHour.
Definition minutesPerCandle (t : Timeframe) : number :=
  match t with OneMinute => 1 | FifteenMinutes => 15 | OneHour => 60 end.
Definition candleDurationMs (t : Timeframe) : number := minutesPerCandle t * 60000.
(** [Math.ceil(120_000 / candleDurationMs) + 1] *)
Definition tail_pages (t : Timeframe) : nat := Z.to_nat (trunc (Math_ceil (120000 / candleDurationMs t) + 1)).

(** A stable sort by timestamp. *)
Fixpoint insert_kline (k : Kline) (l : list Kline) : list Kline :=
  match l with
  | [] => [k]
  | j :: r => if k_timestamp k <=? k_timestamp j then k :: l else j :: insert_kline k r
  end.
Definition sort_klines (l : list Kline) : list Kline := foldr insert_kline [] l.

Definition candle_usable (since now : number) (k : Kline) : bool :=
  isFinite (k_timestamp k) && (since <=? k_timestamp k) && (k_timestamp k <=? now)
  && isFinite (k_high k) && isFinite (k_low k) && (0 <? k_high k) && (0 <? k_low k).

Section Build.
(** [exchange.fetchOHLCV(symbol, timeframe, since, limit)], the [n]th call of a build;
    [None] is a call that throws. *)
Variable fetchOHLCV : nat -> string -> Timeframe -> number -> number -> option (list OhlcvRow).
Variable order : PaperOrder.
Variables since now : number.
Variable t : Timeframe.

Definition candle_duration : number := candleDurationMs t.

(** The path so far: its segments and the cursor before each of them, latest first, the
    start of its latest candle, and its cursor. *)
Record Walk := {
  w_path : list PathSegment;
  w_checkpoints : list number;
  w_previous : option number;
  w_checkedAt : number
}.

Definition latestAllowedStart (previous : option number) : number :=
  match previous with
  | Some p => p + candle_duration
  | None => if since =? ord_timestamp order then since + candle_duration
            else Math_ceil (since / candle_duration) * candle_duration
  end.

(** The loop over the usable candles, up to the first gap. *)
Fixpoint walk_candles (l : list Kline) (w : Walk) : Walk :=
  match l with
  | [] => w
  | k :: rest =>
      if match w_previous w with Some p => k_timestamp k <=? p | None => false end then walk_candles rest w
      else if latestAllowedStart (w_previous w) <? k_timestamp k then w
      else walk_candles rest
        {| w_path := {| seg_high := k_high k; seg_low := k_low k; seg_tick := false |} :: w_path w;
           w_checkpoints := w_checkedAt w :: w_checkpoints w;
           w_previous := Some (k_timestamp k);
           w_checkedAt := Math_min now (k_timestamp k + candle_duration) |}
  end.

(** [Math.min(Math.ceil((now - cursor) / duration) + 2, 500)] *)
Definition page_limit (cursor : number) : number := Math_min (Math_ceil ((now - cursor) / candle_duration) + 2) 500.

(** One page: the candles known after it. *)
Definition fetch_page (n : nat) (cursor : option number) (candles : list Kline) : option (list Kline) :=
  match cursor with
  | None => Some candles
  | Some c =>
      ohlcv ← fetchOHLCV n (ord_symbol order) t c (page_limit c);
      Some (app candles (map kline_of ohlcv))
  end.

(** [while (true)]: at most one page more than [tailPages]. *)
Fixpoint walk_pages (tailPages n : nat) (cursor : option number) (candles : list Kline) (w : Walk) :
    option (Walk * list Kline) :=
  candles ← fetch_page n cursor candles;
  let w' := walk_candles (sort_klines (List.filter (candle_usable since now) candles)) w in
  let checkedAt := w_checkedAt w' in
  if (checkedAt =? now) || (120000 <? now - checkedAt) || (checkedAt =? w_checkedAt w) then Some (w', candles)
  else match tailPages with
  | O => Some (w', candles)
  | S tailPages => walk_pages tailPages (S n) (Some checkedAt) candles w'
  end.

(** An unavailable short tail is deferred, its segments with it. *)
Fixpoint defer_tail (path : list PathSegment) (checkpoints : list number) (checkedAt : number) :
    list PathSegment * number :=
  if (checkedAt <? now) && (now - checkedAt <=? 120000) then
    match checkpoints, path with
    | c :: checkpoints, _ :: path => defer_tail path checkpoints c
    | c :: checkpoints, [] => defer_tail [] checkpoints c
    | [], _ => (path, checkedAt)
    end
  else (path, checkedAt).
End Build.

(** The cursor of an order, [order.lastCheckedAt ?? order.timestamp]. *)
Definition cursor_of (o : PaperOrder) : number := default (ord_timestamp o) (st_lastCheckedAt (ord_state o)).

Definition has_gap (since now : number) : bool := 2 <? (now - since) / 60000.

(** The candles of a symbol that earlier orders fetched are [cached]; [minSince] is the
    earliest cursor among the symbol's orders.  The result carries the candles known
    afterwards; [None] is a fetch that throws. *)
Definition buildMarketPath (fetchOHLCV : nat -> string -> Timeframe -> number -> number -> option (list OhlcvRow))
    (order : PaperOrder) (last now : number) (minSince : option number) (cached : option (list Kline)) :
    option (MarketPath * option (list Kline)) :=
  let since := cursor_of order in
  let finish path checkedAt candles :=
    Some ({| mp_segments := if checkedAt =? now then app path [{| seg_high := last; seg_low := last; seg_tick := true |}]
                            else path;
             mp_checkedAt := checkedAt |}, candles) in
  if has_gap since now then
    let fetchSince := default since minSince in
    let t := timeframe_of ((now - fetchSince) / 60000) in
    let cursor := match cached with None => Some fetchSince | Some _ => None end in
    '(w, candles) ← walk_pages fetchOHLCV order since now t (tail_pages t) 0 cursor (default [] cached)
      {| w_path := []; w_checkpoints := []; w_previous := None; w_checkedAt := since |};
    let (path, checkedAt) := defer_tail now (w_path w) (w_checkpoints w) (w_checkedAt w) in
    finish (rev path) (Math_max since checkedAt) (Some candles)
  else finish [] now cached.

Definition advanceCheckedAt (checkedAt : number) (o : PaperOrder) : PaperOrder :=
  if isFinite checkedAt && (cursor_of o <? checkedAt) then set_checkedAt checkedAt o else o.

(** ** Where an order fills *)

Inductive Visit := Passed | GaveUp | Fired (price : number).

Definition is_triggered (o : PaperOrder) : bool := default false (st_triggered (ord_state o)).

Definition reaches (falling : bool) (seg : PathSegment) (price : number) : bool :=
  if falling then seg_low seg <=? price else price <=? seg_high seg.

(** The limit of the order is crossed by the segment. *)
Definition visit_limit (o : PaperOrder) (seg : PathSegment) : Visit :=
  match ord_price o with
  | None => Passed
  | Some price =>
      if isTriggerType (ord_type o) && negb (is_triggered o) then Passed
      else if reaches (bool_decide (ord_side o = Buy)) seg price then Fired price else Passed
  end.

Definition visit_trailing (o : PaperOrder) (seg : PathSegment) : PaperOrder * Visit :=
  match ord_trailingPercent o with
  | None => (o, GaveUp)
  | Some percent =>
      let extreme := default (seg_low seg) (st_trailingExtreme (ord_state o)) in
      let level := trailingStopLevel (ord_side o) extreme percent in
      if reaches (bool_decide (ord_side o = Sell)) seg level then (o, Fired level)
      else (set_extreme (match ord_side o with Sell => Math_max extreme (seg_high seg) | Buy => Math_min extreme (seg_low seg) end) o,
            Passed)
  end.

Definition waits_for_trigger (o : PaperOrder) : bool := isTriggerType (ord_type o) && negb (is_triggered o).

Definition visit (o : PaperOrder) (seg : PathSegment) : PaperOrder * Visit :=
  if bool_decide (ord_type o = TrailingStopMarket) then visit_trailing o seg
  else match waits_for_trigger o, ord_stopPrice o with
  | true, Some stopPrice =>
      if negb (reaches (falls_to (ord_type o) (ord_side o)) seg stopPrice) then (o, Passed)
      else if bool_decide (ord_type o ∈ [StopMarket; TakeProfitMarket]) then (o, Fired stopPrice)
      else
        let o := set_triggered o in
        if seg_tick seg then (o, visit_limit o seg) else (o, Passed)
  | _, _ => (o, visit_limit o seg)
  end.

Fixpoint evaluate_from (index : nat) (o : PaperOrder) (path : list PathSegment) : PaperOrder * option PathFire :=
  match path with
  | [] => (o, None)
  | seg :: rest =>
      let (o, v) := visit o seg in
      match v with
      | Passed => evaluate_from (S index) o rest
      | GaveUp => (o, None)
      | Fired price => (o, Some {| fire_index := index; fire_price := price |})
      end
  end.

Definition evaluatePath (o : PaperOrder) (path : list PathSegment) : PaperOrder * option PathFire := evaluate_from 0 o path.

Definition paper_order_status (s : PaperStatus) : OrderStatus :=
  match s with PaperOpen => OpenOrder | PaperClosed => ClosedOrder | PaperCanceled => CanceledOrder end.

Definition toOrder (o : PaperOrder) : Order :=
  {| o_id := ord_id o; o_symbol := ord_symbol o; o_side := ord_side o; o_type := Some (ord_type o);
     o_price := ord_price o; o_stopPrice := ord_stopPrice o; o_trailingPercent := ord_trailingPercent o;
     o_activationPrice := None; o_callbackRate := None; o_ocoGroup := ord_ocoGroup o;
     o_clientOrderId := ord_clientOrderId o; o_orderListId := ord_ocoGroup o;
     o_listClientOrderId := ord_listClientOrderId o;
     o_listOrderStatus := match ord_ocoGroup o with
       | Some group => if String.eqb group "" then None else Some (if is_open o then "EXECUTING" else "ALL_DONE")
       | None => None
       end;
     o_positionSide := ord_positionSide o; o_reduceOnly := ord_reduceOnly o; o_closePosition := ord_closePosition o;
     o_amount := ord_amount o; o_filled := ord_filled o; o_remaining := ord_amount o - ord_filled o;
     o_average := st_average (ord_state o); o_cost := ord_cost o; o_feeObservation := ord_feeObservation o;
     o_status := paper_order_status (ord_status o); o_timestamp := ord_timestamp o |}%string.

(** ** A reference for the fills *)

(** The first segment that has a property of its position and itself. *)
Fixpoint first_index (p : nat -> PathSegment -> bool) (path : list PathSegment) : option nat :=
  match path with
  | [] => None
  | seg :: rest => if p 0%nat seg then Some 0%nat else option_map S (first_index (fun i => p (S i)) rest)
  end.

Definition fire_at (price : number) (i : nat) : PathFire := {| fire_index := i; fire_price := price |}.
Definition shift_fire (n : nat) (f : PathFire) : PathFire := {| fire_index := n + fire_index f; fire_price := fire_price f |}.

(** A working limit fills at its price, at the first segment that crosses it. *)
Definition limit_fill (o : PaperOrder) (path : list PathSegment) : option PathFire :=
  price ← ord_price o;
  option_map (fire_at price) (first_index (fun _ seg => reaches (bool_decide (ord_side o = Buy)) seg price) path).

(** A trigger order that was not triggered yet: a market trigger fills at its trigger
    price where it is first reached; a limit trigger fills as a limit from the next
    segment on, or from the same one when that is a single price. *)
Definition trigger_fill (o : PaperOrder) (stopPrice : number) (path : list PathSegment) : option PathFire :=
  i ← first_index (fun _ seg => reaches (falls_to (ord_type o) (ord_side o)) seg stopPrice) path;
  if bool_decide (ord_type o ∈ [StopMarket; TakeProfitMarket]) then Some (fire_at stopPrice i)
  else
    let from := match path !! i with Some seg => if seg_tick seg then i else S i | None => i end in
    option_map (shift_fire from) (limit_fill o (drop from path)).

(** The extreme a trailing stop has seen before its [i]th segment. *)
Definition see_extreme (side : OrderSide) (extreme : option number) (seg : PathSegment) : option number :=
  Some (match side with
        | Sell => Math_max (default (seg_low seg) extreme) (seg_high seg)
        | Buy => Math_min (default (seg_low seg) extreme) (seg_low seg)
        end).
Definition extreme_before (o : PaperOrder) (path : list PathSegment) (i : nat) : option number :=
  fold_left (see_extreme (ord_side o)) (take i path) (st_trailingExtreme (ord_state o)).

(** Its level there: the extreme of the segments before, never of its own. *)
Definition level_at (o : PaperOrder) (percent : number) (path : list PathSegment) (i : nat) (seg : PathSegment) : number :=
  trailingStopLevel (ord_side o) (default (seg_low seg) (extreme_before o path i)) percent.

Definition trailing_fill (o : PaperOrder) (percent : number) (path : list PathSegment) : option PathFire :=
  i ← first_index (fun i seg => reaches (bool_decide (ord_side o = Sell)) seg (level_at o percent path i seg)) path;
  seg ← path !! i;
  Some (fire_at (level_at o percent path i seg) i).

Definition reference_fill (o : PaperOrder) (path : list PathSegment) : option PathFire :=
  if bool_decide (ord_type o = TrailingStopMarket) then
    percent ← ord_trailingPercent o; trailing_fill o percent path
  else if waits_for_trigger o then
    stopPrice ← ord_stopPrice o; trigger_fill o stopPrice path
  else limit_fill o path.

(** ** Lemmas *)

Lemma first_index_ext p q path : (forall i seg, p i seg = q i seg) -> first_index p path = first_index q path.
Proof.
  revert p q. induction path as [|seg rest IH]; intros p q E; [done|]. simpl. rewrite E. destruct (q 0%nat seg); [done|].
  f_equal. apply IH. auto.
Qed.

Lemma evaluate_shift n o path :
  evaluate_from n o path = prod_map id (option_map (shift_fire n)) (evaluate_from 0 o path).
Proof.
  cut (forall k, evaluate_from (n + k) o path = prod_map id (option_map (shift_fire n)) (evaluate_from k o path)).
  { intros E. rewrite <- E. by rewrite Nat.add_0_r. }
  revert o. induction path as [|seg rest IH]; intros o k; [done|]. simpl.
  destruct (visit o seg) as [o' [| |price]]; [|done|done]. rewrite <- Nat.add_succ_r. apply IH.
Qed.

(** An order that waits for nothing is a limit. *)
Lemma visit_working o seg :
  ord_type o <> TrailingStopMarket -> waits_for_trigger o = false -> visit o seg = (o, visit_limit o seg).
Proof. intros H W. unfold visit. rewrite bool_decide_eq_false_2 by done. by rewrite W. Qed.

Lemma visit_limit_working o seg :
  waits_for_trigger o = false ->
  visit_limit o seg =
    match ord_price o with
    | Some price => if reaches (bool_decide (ord_side o = Buy)) seg price then Fired price else Passed
    | None => Passed
    end.
Proof. unfold waits_for_trigger, visit_limit. by intros ->. Qed.

Lemma evaluate_working o path :
  ord_type o <> TrailingStopMarket -> waits_for_trigger o = false ->
  evaluate_from 0 o path = (o, limit_fill o path).
Proof.
  intros H W. induction path as [|seg rest IH]; simpl.
  { unfold limit_fill. by destruct (ord_price o). }
  rewrite visit_working, visit_limit_working by done. rewrite evaluate_shift, IH. unfold limit_fill.
  destruct (ord_price o) as [price|]; [|done]. simpl.
  destruct (reaches _ seg price); [done|]. simpl. by destruct (first_index _ rest).
Qed.

Lemma waiting_stuck o path :
  ord_type o <> TrailingStopMarket -> waits_for_trigger o = true -> ord_stopPrice o = None ->
  evaluate_from 0 o path = (o, None).
Proof.
  intros H W S. induction path as [|seg rest IH]; [done|]. simpl. unfold visit.
  rewrite bool_decide_eq_false_2, W, S by done. unfold visit_limit. unfold waits_for_trigger in W. rewrite W.
  rewrite evaluate_shift. destruct (ord_price o); by rewrite IH.
Qed.

Lemma triggered_works o : waits_for_trigger (set_triggered o) = false.
Proof. unfold waits_for_trigger, is_triggered. simpl. by rewrite andb_false_r. Qed.

Lemma option_map_compose {A B C} (f : A -> B) (g : B -> C) (x : option A) :
  option_map g (option_map f x) = option_map (fun a => g (f a)) x.
Proof. by destruct x. Qed.

Lemma trigger_fill_cons o stopPrice seg rest :
  trigger_fill o stopPrice (seg :: rest) =
    if reaches (falls_to (ord_type o) (ord_side o)) seg stopPrice then
      if bool_decide (ord_type o ∈ [StopMarket; TakeProfitMarket]) then Some (fire_at stopPrice 0)
      else if seg_tick seg then limit_fill o (seg :: rest) else option_map (shift_fire 1) (limit_fill o rest)
    else option_map (shift_fire 1) (trigger_fill o stopPrice rest).
Proof.
  unfold trigger_fill. simpl. destruct (reaches _ seg stopPrice); simpl.
  - destruct (bool_decide _); [done|]. destruct (seg_tick seg); simpl; [|done].
    destruct (limit_fill o (seg :: rest)) as [[]|]; done.
  - destruct (first_index _ rest) as [i|]; simpl; [|done]. destruct (bool_decide _); [done|]. simpl.
    rewrite option_map_compose. destruct (rest !! i) as [s|]; [destruct (seg_tick s)|]; simpl.
    all: by destruct (limit_fill o _).
Qed.

Lemma limit_fill_triggered o path : limit_fill (set_triggered o) path = limit_fill o path.
Proof. by destruct o. Qed.

Lemma evaluate_waiting o stopPrice path :
  ord_type o <> TrailingStopMarket -> waits_for_trigger o = true -> ord_stopPrice o = Some stopPrice ->
  snd (evaluate_from 0 o path) = trigger_fill o stopPrice path.
Proof.
  intros H W S. induction path as [|seg rest IH]; [done|]. rewrite trigger_fill_cons. simpl. unfold visit.
  rewrite bool_decide_eq_false_2, W, S by done.
  destruct (reaches (falls_to _ _) seg stopPrice); simpl.
  - destruct (bool_decide _); [done|].
    assert (T : ord_type (set_triggered o) <> TrailingStopMarket) by (by destruct o).
    pose proof (evaluate_working (set_triggered o) (seg :: rest) T (triggered_works o)) as E.
    simpl in E. rewrite visit_working in E by (done || apply triggered_works).
    destruct (seg_tick seg).
    + rewrite E. simpl. apply limit_fill_triggered.
    + rewrite evaluate_shift, evaluate_working by (done || apply triggered_works). simpl. by rewrite limit_fill_triggered.
  - rewrite evaluate_shift. simpl. by rewrite IH.
Qed.

(** The order after a segment its trailing stop survived. *)
Definition seen (o : PaperOrder) (seg : PathSegment) : PaperOrder :=
  let extreme := default (seg_low seg) (st_trailingExtreme (ord_state o)) in
  set_extreme (match ord_side o with Sell => Math_max extreme (seg_high seg) | Buy => Math_min extreme (seg_low seg) end) o.

Lemma level_at_cons o percent seg rest i s :
  level_at o percent (seg :: rest) (S i) s = level_at (seen o seg) percent rest i s.
Proof. by destruct o. Qed.

Lemma trailing_fill_cons o percent seg rest :
  trailing_fill o percent (seg :: rest) =
    let level := trailingStopLevel (ord_side o) (default (seg_low seg) (st_trailingExtreme (ord_state o))) percent in
    if reaches (bool_decide (ord_side o = Sell)) seg level then Some (fire_at level 0)
    else option_map (shift_fire 1) (trailing_fill (seen o seg) percent rest).
Proof.
  unfold trailing_fill. cbn [first_index].
  change (level_at o percent (seg :: rest) 0 seg)
    with (trailingStopLevel (ord_side o) (default (seg_low seg) (st_trailingExtreme (ord_state o))) percent).
  cbv zeta. destruct (reaches _ seg _); [done|].
  change (ord_side (seen o seg)) with (ord_side o).
  rewrite (first_index_ext _ (fun i s => reaches (bool_decide (ord_side o = Sell)) s (level_at (seen o seg) percent rest i s)))
    by (intros i s; by rewrite level_at_cons).
  destruct (first_index _ rest) as [i|]; [|done]. simpl. destruct (rest !! i); simpl; [|done].
  by rewrite level_at_cons.
Qed.

Lemma evaluate_trailing o percent path :
  ord_type o = TrailingStopMarket -> ord_trailingPercent o = Some percent ->
  snd (evaluate_from 0 o path) = trailing_fill o percent path.
Proof.
  revert o. induction path as [|seg rest IH]; intros o T P; [done|]. rewrite trailing_fill_cons. simpl.
  unfold visit, visit_trailing. rewrite bool_decide_eq_true_2, P by done. fold (seen o seg).
  destruct (reaches _ seg _); [done|]. rewrite evaluate_shift. simpl. by rewrite (IH (seen o seg)) by (by destruct o).
Qed.

(** Where an order fills is what a reference that looks at the whole path says: a
    working limit at its price on the first segment that crosses it; a market trigger at
    its trigger price on the first segment that reaches it; a limit trigger as a limit,
    but only from the segment after the one that reached its trigger unless that one is a
    single price; a trailing stop at the level its earlier segments set, never one its own
    segment has tightened. *)
Theorem fills_where_reference_says o path : snd (evaluatePath o path) = reference_fill o path.
Proof.
  unfold evaluatePath, reference_fill. destruct (decide (ord_type o = TrailingStopMarket)) as [T|T].
  - rewrite bool_decide_eq_true_2 by done. destruct (ord_trailingPercent o) as [percent|] eqn:P.
    + by apply evaluate_trailing.
    + destruct path as [|seg rest]; [done|]. simpl. unfold visit, visit_trailing. by rewrite bool_decide_eq_true_2, P.
  - rewrite bool_decide_eq_false_2 by done. destruct (waits_for_trigger o) eqn:W; [|by rewrite evaluate_working].
    destruct (ord_stopPrice o) as [stopPrice|] eqn:S; [by apply evaluate_waiting|by rewrite waiting_stuck].
Qed.

Lemma visit_gives_up o o' seg : visit o seg = (o', GaveUp) -> o' = o /\ forall s, visit o s = (o, GaveUp).
Proof.
  unfold visit, visit_trailing, visit_limit. intros E.
  repeat (first [case_match; simplify_eq | progress cbv zeta in E]).
  all: split; [done|]; intros s; by simplify_eq.
Qed.

(** Checking an order along a path in two reads, keeping the trigger and trailing
    state of the first, gives the order, the fill and the segment it fills on that one
    read of the whole path gives: how often the account is read does not matter. *)
Theorem path_split_immaterial o before after :
  evaluatePath o (app before after) =
    match evaluatePath o before with
    | (o', None) => prod_map id (option_map (shift_fire (length before))) (evaluatePath o' after)
    | fired => fired
    end.
Proof.
  unfold evaluatePath. revert o. induction before as [|seg rest IH]; intros o.
  - simpl. destruct (evaluate_from 0 o after) as [o' [[]|]]; done.
  - simpl. destruct (visit o seg) as [o' [| |price]] eqn:V; [|clear IH|done].
    + rewrite (evaluate_shift 1 o' (app rest after)), IH, (evaluate_shift 1 o' rest).
      destruct (evaluate_from 0 o' rest) as [o'' [f|]]; simpl; [done|].
      by destruct (evaluate_from 0 o'' after) as [? [[]|]].
    + apply visit_gives_up in V as [-> V]. destruct after as [|s after]; simpl; [done|]. by rewrite V.
Qed.

(** ** What a built path covers *)

Definition candle_segment (k : Kline) : PathSegment := {| seg_high := k_high k; seg_low := k_low k; seg_tick := false |}.

Section Covers.
Context (order : PaperOrder) (since now : number) (t : Timeframe).

(** How far the candles [ks] (latest first) reach. *)
Definition covered (ks : list Kline) : number :=
  match ks with [] => since | k :: _ => Math_min now (k_timestamp k + candle_duration t) end.

(** A candle may follow the ones before it: it starts later than the latest of them, and
    no later than that one ends, or than the first candle may start. *)
Definition follows (ks : list Kline) (k : Kline) : Prop :=
  let previous := option_map k_timestamp (head ks) in
  (match previous with Some p => k_timestamp k <=? p | None => false end) = false /\
  (latestAllowedStart order since t previous <? k_timestamp k) = false.

(** Candles of [known], latest first, with no gap between them. *)
Inductive Gapless (known : list Kline) : list Kline -> Prop :=
  | gapless_nil : Gapless known []
  | gapless_cons k ks :
      In k known -> candle_usable since now k = true -> follows ks k -> Gapless known ks -> Gapless known (k :: ks).

Fixpoint cursors (ks : list Kline) : list number :=
  match ks with [] => [] | _ :: r => covered r :: cursors r end.

(** The walk after the candles [ks]. *)
Definition walk_of (ks : list Kline) : Walk :=
  {| w_path := map candle_segment ks; w_checkpoints := cursors ks;
     w_previous := option_map k_timestamp (head ks); w_checkedAt := covered ks |}.

Lemma gapless_more known more ks : Gapless known ks -> Gapless (app known more) ks.
Proof. induction 1 as [|k ks I U F G IH]; constructor; auto. apply in_or_app. auto. Qed.

Lemma walk_candles_gapless known l ks :
  (forall k, In k l -> In k known /\ candle_usable since now k = true) -> Gapless known ks ->
  exists ks', walk_candles order since now t l (walk_of ks) = walk_of ks' /\ Gapless known ks'.
Proof.
  revert ks. induction l as [|k rest IH]; intros ks L G; [by exists ks|].
  assert (L' : forall k, In k rest -> In k known /\ candle_usable since now k = true) by (intros j J; apply L; by right).
  cbn [walk_candles].
  destruct (match w_previous (walk_of ks) with Some p => k_timestamp k <=? p | None => false end) eqn:P; [by apply IH|].
  destruct (latestAllowedStart order since t (w_previous (walk_of ks)) <? k_timestamp k) eqn:A; [by exists ks|].
  destruct (L k (or_introl eq_refl)) as [I U].
  apply (IH (k :: ks)); [done|]. constructor; try done.
Qed.

Lemma insert_kline_in k j l : In k (insert_kline j l) <-> k = j \/ In k l.
Proof.
  induction l as [|i l IH]; simpl; [intuition congruence|].
  destruct (_ <=? _); simpl; [intuition congruence|]. rewrite IH. intuition congruence.
Qed.

Lemma sort_klines_in k l : In k (sort_klines l) <-> In k l.
Proof. unfold sort_klines. induction l as [|j l IH]; [done|]. cbn [foldr]. rewrite insert_kline_in, IH. simpl. intuition congruence. Qed.

Lemma walk_pages_gapless fetch tailPages n cursor candles ks w known :
  walk_pages fetch order since now t tailPages n cursor candles (walk_of ks) = Some (w, known) ->
  Gapless candles ks -> exists ks', w = walk_of ks' /\ Gapless known ks'.
Proof.
  revert n cursor candles ks. induction tailPages as [|tailPages IH]; intros n cursor candles ks E G; cbn [walk_pages] in E.
  all: destruct (fetch_page fetch order now t n cursor candles) as [page|] eqn:F; [|done]; simpl in E.
  all: assert (Gp : Gapless page ks) by
    (destruct cursor as [c|]; simpl in F; [|by simplify_eq];
     destruct (fetch _ _ _ _ _); simpl in F; [simplify_eq; by apply gapless_more|done]).
  all: destruct (walk_candles_gapless page (sort_klines (List.filter (candle_usable since now) page)) ks) as (ks' & W & G');
    [intros k I; by rewrite sort_klines_in, filter_In in I|done|].
  all: rewrite W in E; destruct (_ || _ || _) in E; simplify_eq; eauto.
Qed.

(** The tail that was not covered is deferred with its segments. *)
Definition short_of (checkedAt : number) : bool := (checkedAt <? now) && (now - checkedAt <=? 120000).

Lemma defer_tail_gapless known ks : Gapless known ks ->
  exists ks', defer_tail now (map candle_segment ks) (cursors ks) (covered ks) = (map candle_segment ks', covered ks') /\
    Gapless known ks' /\ suffix ks' ks /\ (ks' = [] \/ short_of (covered ks') = false).
Proof.
  induction 1 as [|k ks I U F G IH].
  - exists []. simpl. repeat split; [|constructor|done|by left]. by destruct (_ && _).
  - cbn [cursors defer_tail map]. fold (short_of (covered (k :: ks))). destruct (short_of (covered (k :: ks))) eqn:S.
    + destruct IH as (ks' & E & G' & Su & Sh). exists ks'. split_and!; try done. by apply suffix_cons_r.
    + exists (k :: ks). split_and!; try done; [by constructor|by right].
Qed.
End Covers.

Definition path_timeframe (minSince : option number) (since now : number) : Timeframe :=
  timeframe_of ((now - default since minSince) / 60000).

Definition tick_of (last checkedAt now : number) : list PathSegment :=
  if checkedAt =? now then [{| seg_high := last; seg_low := last; seg_tick := true |}] else [].

(** The path of an order whose last check is more than two minutes old is made of the
    exchange's own candles, each usable, in the order of their start and without a gap
    between them; its cursor is the end of the last one and never before the order's; the
    ticker price is on it exactly when the candles reach the present; and a path that
    reaches neither the present nor a point more than two minutes before it is empty, so
    the next read still asks for the candles that were missing. *)
Theorem built_path_has_no_gap fetch order last now minSince cached mp known :
  buildMarketPath fetch order last now minSince cached = Some (mp, known) ->
  has_gap (cursor_of order) now = true ->
  let since := cursor_of order in
  let t := path_timeframe minSince since now in
  exists ks, Gapless order since now t (default [] known) ks /\
    mp_checkedAt mp = Math_max since (covered since now t ks) /\
    mp_segments mp = app (rev (map candle_segment ks)) (tick_of last (mp_checkedAt mp) now) /\
    (ks = [] \/ short_of now (covered since now t ks) = false).
Proof.
  unfold buildMarketPath. cbv zeta. intros B Gap. rewrite Gap in B. fold (path_timeframe minSince (cursor_of order) now) in B.
  set (since := cursor_of order) in *. set (t := path_timeframe minSince since now) in *.
  destruct (walk_pages _ _ _ _ _ _ _ _ _ _) as [[w page]|] eqn:W; [|done]. simpl in B.
  apply (walk_pages_gapless order since now t fetch _ _ _ _ []) in W as (ks & -> & G); [|constructor].
  destruct (defer_tail_gapless order since now t page ks G) as (ks' & D & G' & _ & Sh).
  simpl in B. rewrite D in B. simplify_eq. exists ks'. split_and!; try done. unfold tick_of. simpl.
  destruct (_ =? now); [done|]. by rewrite app_nil_r.
Qed.

Definition first_calls {A} (pages : nat) (fetch : nat -> string -> Timeframe -> number -> number -> option A) :
    nat -> string -> Timeframe -> number -> number -> option A :=
  fun n symbol t since limit => if (n <? pages)%nat then fetch n symbol t since limit else None.

Lemma tail_pages_few t : (tail_pages t < 4)%nat.
Proof. destruct t; vm_compute; lia. Qed.

Lemma walk_pages_bounded fetch order since now t pages tailPages n cursor candles w :
  (n + tailPages < pages)%nat -> (forall n s t c l, (n < pages)%nat -> is_Some (fetch n s t c l)) ->
  is_Some (walk_pages fetch order since now t tailPages n cursor candles w) /\
  walk_pages (first_calls pages fetch) order since now t tailPages n cursor candles w =
    walk_pages fetch order since now t tailPages n cursor candles w.
Proof.
  intros L Fe. revert n cursor candles w L. induction tailPages as [|tailPages IH]; intros n cursor candles w L; cbn [walk_pages].
  all: assert (E : fetch_page (first_calls pages fetch) order now t n cursor candles = fetch_page fetch order now t n cursor candles)
    by (destruct cursor; [|done]; unfold fetch_page, first_calls; by rewrite (proj2 (Nat.ltb_lt n pages)) by lia).
  all: rewrite E.
  all: assert (S : is_Some (fetch_page fetch order now t n cursor candles))
    by (destruct cursor as [c|]; simpl; [|by eexists];
        destruct (Fe n (ord_symbol order) t c (page_limit now t c) ltac:(lia)) as [v ->]; simpl; eauto).
  all: destruct S as [page ->]; simpl; destruct (_ || _ || _); [by eauto|]; eauto.
  apply IH. lia.
Qed.

(** The market path is built from at most four reads of the exchange: if those answer
    it is built, whatever the answers are, and no later read is ever made. *)
Theorem path_built_in_four_reads fetch order last now minSince cached :
  (forall n symbol t since limit, (n < 4)%nat -> is_Some (fetch n symbol t since limit)) ->
  is_Some (buildMarketPath fetch order last now minSince cached) /\
  buildMarketPath (first_calls 4 fetch) order last now minSince cached = buildMarketPath fetch order last now minSince cached.
Proof.
  intros F. unfold buildMarketPath. cbv zeta. destruct (has_gap _ _); [|eauto].
  pose proof (tail_pages_few (timeframe_of ((now - default (cursor_of order) minSince) / 60000))) as T.
  edestruct (walk_pages_bounded fetch) as [S E]; [|exact F|rewrite E; split; [|done]]; [done|].
  destruct S as [[w page] ->]. simpl. destruct (defer_tail _ _ _ _). eauto.
Qed.

(** ** Concrete paths *)

Definition order_at (type : OrderType) (price stopPrice percent : option number) : PaperOrder :=
  {| ord_id := "paper-1"; ord_symbol := "BTC/USDT"; ord_side := Sell; ord_type := type; ord_price := price;
     ord_stopPrice := stopPrice; ord_trailingPercent := percent; ord_ocoGroup := None; ord_clientOrderId := None;
     ord_listClientOrderId := None; ord_positionSide := None; ord_reduceOnly := None; ord_closePosition := None;
     ord_timestamp := 0;
     ord_state :=
       {| st_trailingExtreme := None; st_triggered := None; st_reservePrice := None; st_reservedMargin := None;
          st_lastCheckedAt := None; st_amount := 1; st_filled := 0; st_average := None; st_cost := 0;
          st_feeObservation := None; st_status := PaperOpen |} |}%string.

Definition row_at (timestamp high low : number) : OhlcvRow :=
  [Some timestamp; Some low; Some high; Some low; Some high; Some 1].
(** Five minutes of candles; the minute from 240000 on is served by the second read. *)
Definition five_minutes (n : nat) (symbol : string) (t : Timeframe) (since limit : number) : option (list OhlcvRow) :=
  match n with
  | 0%nat => Some [row_at 60000 110 100; row_at 0 104 99; row_at 120000 112 105; row_at 180000 111 101]
  | _ => Some [row_at 240000 103 96]
  end.
Definition five_minute_path : option (MarketPath * option (list Kline)) :=
  buildMarketPath five_minutes (order_at TrailingStopMarket None None (Some 10)) 97 300000 None None.

Definition seg_at (high low : number) (tick : bool) : PathSegment := {| seg_high := high; seg_low := low; seg_tick := tick |}.
Definition five_minute_segments : list PathSegment :=
  [seg_at 104 99 false; seg_at 110 100 false; seg_at 112 105 false; seg_at 111 101 false; seg_at 103 96 false; seg_at 97 97 true].

Example five_minutes_read : option_map fst five_minute_path = Some {| mp_segments := five_minute_segments; mp_checkedAt := 300000 |}.
Proof. vm_compute. reflexivity. Qed.

(** A trailing stop of 10% under the high of 112 fires at 100.8 in the candle that falls
    to 96; a limit trigger at 100 sells at its limit of 103 in the candle after. *)
Example trailing_fires : evaluatePath (order_at TrailingStopMarket None None (Some 10)) five_minute_segments
  = (set_extreme 112 (order_at TrailingStopMarket None None (Some 10)), Some (fire_at (112 * (1 - 10 / 100)) 4)).
Proof. vm_compute. reflexivity. Qed.
Example limit_trigger_waits : evaluatePath (order_at Stop (Some 103) (Some 100) None) five_minute_segments
  = (set_triggered (order_at Stop (Some 103) (Some 100) None), Some (fire_at 103 1)).
Proof. vm_compute. reflexivity. Qed.

Lemma built_path_has_no_gap_witness :
  five_minute_path <> None /\
  (forall mp known, five_minute_path = Some (mp, known) ->
   let o := order_at TrailingStopMarket None None (Some 10) in
   exists ks, Gapless o 0 300000 OneMinute (default [] known) ks /\ mp_checkedAt mp = Math_max 0 (covered 0 300000 OneMinute ks) /\
     mp_segments mp = app (rev (map candle_segment ks)) (tick_of 97 (mp_checkedAt mp) 300000) /\
     (ks = [] \/ short_of 300000 (covered 0 300000 OneMinute ks) = false)).
Proof.
  split; [by vm_compute|]. intros mp known E.
  apply (built_path_has_no_gap five_minutes (order_at TrailingStopMarket None None (Some 10)) 97 300000 None None mp known);
    [exact E|by vm_compute].
Defined.

Lemma path_built_in_four_reads_witness :
  is_Some five_minute_path /\
  buildMarketPath (first_calls 4 five_minutes) (order_at TrailingStopMarket None None (Some 10)) 97 300000 None None = five_minute_path.
Proof.
  apply (path_built_in_four_reads five_minutes). intros n symbol t since limit L. destruct n; simpl; eexists; reflexivity.
Defined.
