(* ===== verification/PaperStore.v ===== *)
(** * The files of the paper client (packages/trading-engine/src/paper-client.ts)

    The two account files, the transaction file that makes writing both of them one
    step, and what a crash at any point leaves to be read. *)

From Stdlib Require Import ZArith Lia Bool Ascii Floats.
From stdpp Require Import base strings option list.
From S2P Require Import Prelude JsNumber JsObject JsValue JsFloat JsText AccountRisk RiskState Execution PaperAccount.
From S2P Require Import PaperRoundTrip.

Local Open Scope float_scope.

(** ** JSON text *)

(** [-0] is written as [0], and a number that is not finite as [null]. *)
Definition json_number (n : number) : value := if isFinite n then VNum (if n =? 0 then 0 else n) else VNull.

(** [JSON.parse(JSON.stringify(v))]: what a file written with [v] is read as. *)
Fixpoint json_copy (v : value) : value :=
  match v with
  | VNum n => json_number n
  | VArr l => VArr (map (fun x => match json_copy x with VUndefined => VNull | y => y end) l)
  | VObj o => VObj (omap (fun p => match json_copy (snd p) with VUndefined => None | y => Some (fst p, y) end) o)
  | _ => v
  end.

(** A value that JSON text keeps. *)
Definition number_kept (n : number) : bool :=
  isFinite n && match Prim2SF n with S754_zero true => false | _ => true end.

Fixpoint json_kept (v : value) : bool :=
  match v with
  | VUndefined => false
  | VNum n => number_kept n
  | VArr l => forallb json_kept l
  | VObj o => forallb (fun p => json_kept (snd p)) o
  | _ => true
  end.

(** ** Files *)

Inductive AccountFile := SpotFile | FuturesFile | TransactionFile.
#[export] Instance AccountFile_eq_dec : EqDecision AccountFile.
Proof. solve_decision. Defined.

(** What [readJsonFile] answers for each of the files. *)
Definition Disk := AccountFile -> option value.

Inductive DiskStep := WriteJson (f : AccountFile) (v : value) | RemoveFile (f : AccountFile).

Definition set_file (f : AccountFile) (c : option value) (d : Disk) : Disk :=
  fun g => if decide (g = f) then c else d g.

(** [writeJsonFileDurable] and [removeFileDurable] take effect whole or not at all. *)
Definition disk_step (s : DiskStep) (d : Disk) : Disk :=
  match s with WriteJson f v => set_file f (Some (json_copy v)) d | RemoveFile f => set_file f None d end.
Definition run_steps (l : list DiskStep) (d : Disk) : Disk := fold_left (fun d s => disk_step s d) l d.

Definition transaction_value (account futures : PaperAccount) : value :=
  VObj [("version", VNum 1); ("account", account_value account); ("futuresAccount", account_value futures)]%string.

Definition persistAccounts (spot futures : bool) (account futuresAccount : PaperAccount) : list DiskStep :=
  if spot && futures then
    [WriteJson TransactionFile (transaction_value account futuresAccount); WriteJson SpotFile (account_value account);
     WriteJson FuturesFile (account_value futuresAccount); RemoveFile TransactionFile]
  else app (if spot then [WriteJson SpotFile (account_value account)] else [])
           (if futures then [WriteJson FuturesFile (account_value futuresAccount)] else []).

Inductive StoreError :=
  | InvalidTransaction | TransactionQuote | BadStoredAccount (e : AccountError) | SpotStateMissing.

Definition readAccount (v : value) : result StoreError PaperAccount := mapError BadStoredAccount (parsePaperAccount v).

(** The steps of [recoverTransactionUnlocked]. *)
Definition recoverTransaction (quote : string) (d : Disk) : result StoreError (list DiskStep) :=
  match d TransactionFile with
  | None => Ok []
  | Some raw =>
      _ ← throwIf (negb (isRecord raw) || negb (isNumber (fun n => n =? 1) (prop "version" raw))) InvalidTransaction;
      account ← readAccount (prop "account" raw);
      futuresAccount ← readAccount (prop "futuresAccount" raw);
      _ ← throwIf (negb (String.eqb (acc_quote account) quote) || negb (String.eqb (acc_quote futuresAccount) quote))
            TransactionQuote;
      Ok [WriteJson SpotFile (account_value account); WriteJson FuturesFile (account_value futuresAccount);
          RemoveFile TransactionFile]
  end.

Definition recovered (quote : string) (d : Disk) : result StoreError Disk :=
  steps ← recoverTransaction quote d; Ok (run_steps steps d).

(** ** What JSON text keeps *)

Lemma value_ind' (P : value -> Prop) :
  P VUndefined -> P VNull -> (forall b, P (VBool b)) -> (forall n, P (VNum n)) -> (forall s, P (VStr s)) ->
  (forall l, Forall P l -> P (VArr l)) -> (forall o, Forall (fun p => P (snd p)) o -> P (VObj o)) -> forall v, P v.
Proof.
  intros H1 H2 H3 H4 H5 H6 H7. fix IH 1. intros [| |b|n|s|l|o]; [exact H1|exact H2|apply H3|apply H4|apply H5|apply H6|apply H7].
  - induction l as [|v l IHl]; constructor; [apply IH|exact IHl].
  - induction o as [|[k v] o IHo]; constructor; [apply IH|exact IHo].
Qed.

Lemma json_number_kept n : number_kept n = true -> json_number n = VNum n.
Proof.
  unfold number_kept, json_number. intros [Hf Hz]%andb_true_iff. rewrite Hf. destruct (n =? 0) eqn:E; [|done].
  f_equal. apply Prim2SF_inj. rewrite FloatAxioms.eqb_spec in E.
  change (Prim2SF 0) with (S754_zero false) in *. destruct (Prim2SF n) as [[]|[]| |[] m e]; done.
Qed.

Lemma json_kept_copy v : json_kept v = true -> json_copy v = v.
Proof.
  induction v as [| |b|n|s|l IH|o IH] using value_ind'; cbn; try done.
  - apply json_number_kept.
  - intros H. f_equal. induction IH as [|v l E _ IHl]; [done|]. cbn in *. apply andb_true_iff in H as [Hv Hl].
    rewrite E, IHl by done. by destruct v.
  - intros H. f_equal. induction IH as [|[k v] o E _ IHo]; [done|]. cbn in *. apply andb_true_iff in H as [Hv Ho].
    rewrite E, IHo by done. by destruct v.
Qed.

Lemma json_number_clean n : json_kept (json_number n) = true.
Proof.
  unfold json_number. destruct (isFinite n) eqn:Hf; [|done]. destruct (n =? 0) eqn:E; [done|]. cbn. unfold number_kept.
  rewrite Hf. rewrite FloatAxioms.eqb_spec in E. destruct (Prim2SF n) as [[]|[]| |[] m e]; done.
Qed.

(** What is read from a file is kept when it is written again. *)
Lemma json_copy_kept v : json_kept (json_copy v) = defined v.
Proof.
  induction v as [| |b|n|s|l IH|o IH] using value_ind'; try done.
  - apply json_number_clean.
  - cbn. induction IH as [|v l E _ IHl]; [done|]. cbn. rewrite IHl, andb_true_r. destruct (json_copy v) eqn:C; try done; rewrite E; by destruct v.
  - cbn. induction IH as [|[k v] o E _ IHo]; [done|]. cbn [omap list_omap fst snd] in *.
    assert (D : json_copy v = VUndefined -> defined v = false) by (destruct v; try done; cbn; unfold json_number; by destruct (isFinite _)).
    destruct (json_copy v) eqn:C; cbn [forallb snd]; rewrite ?E, ?IHo, ?andb_true_r; try done.
    all: destruct v; try done.
Qed.

(** ** A parsed account is kept *)

(** A reader returns from a kept value a result whose value is kept. *)
Definition keeps {A} (read : value -> string -> Parse A) (f : A -> value) : Prop :=
  forall v l a, read v l = Ok a -> json_kept v || negb (defined v) = true -> json_kept (f a) = true.

Create HintDb keeps discriminated.

Lemma keeps_prop k v : json_kept v = true -> json_kept (prop k v) || negb (defined (prop k v)) = true.
Proof.
  destruct v as [| | | | | |o]; try done. cbn. intros H. induction o as [|[j v] o IH]; [done|]. cbn in *.
  apply andb_true_iff in H as [Hv Ho]. destruct (String.eqb k j); [cbn; by rewrite Hv|by apply IH].
Qed.

Lemma keeps_finite : keeps finiteNumber VNum.
Proof. intros v l a H K. unfold finiteNumber in H. destruct v as [| | |n| | |]; try done. destruct (isFinite n); [|done].
  injection H as <-. by rewrite orb_false_r in K. Qed.
Lemma keeps_nonNegative : keeps nonNegativeNumber VNum.
Proof. intros v l a H K. unfold nonNegativeNumber in H. inv_ok. eapply keeps_finite; eauto. Qed.
Lemma keeps_positive : keeps positiveNumber VNum.
Proof. intros v l a H K. unfold positiveNumber in H. inv_ok. eapply keeps_finite; eauto. Qed.

Lemma keeps_opt {A} read (f : A -> value) : keeps read f ->
  forall v l o, unlessUndefined read v l = Ok o -> json_kept v || negb (defined v) = true ->
  match o with Some a => json_kept (f a) | None => true end = true.
Proof.
  intros Hr v l o H K. unfold unlessUndefined in H. destruct (defined v) eqn:D; [|by injection H as <-].
  inv_ok. eapply Hr; [done|]. by rewrite D.
Qed.

Lemma keeps_text {A} read (f : A -> string) : keeps read (fun a => VStr (f a)).
Proof. by intros v l a _ _. Qed.
Lemma keeps_boolean : keeps readBoolean VBool.
Proof. by intros v l a _ _. Qed.

Lemma keeps_items {A} read (f : A -> value) : keeps read f ->
  forall l label i r, parse_items read label i l = Ok r -> forallb json_kept l = true -> forallb json_kept (map f r) = true.
Proof.
  intros Hr l. induction l as [|v l IH]; intros label i r H K; cbn in H; [by injection H as <-|].
  cbn in K. apply andb_true_iff in K as [Kv Kl]. inv_ok. cbn. rewrite (Hr _ _ _ ltac:(eassumption)) by (by rewrite Kv).
  eapply IH; eauto.
Qed.

Lemma keeps_array {A} read (f : A -> value) : keeps read f -> keeps (parse_array read) (fun l => VArr (map f l)).
Proof.
  intros Hr v label r H K. destruct v as [| | | | |l|]; try done. unfold parse_array in H. cbn.
  eapply keeps_items; eauto. by rewrite orb_false_r in K.
Qed.

Lemma keeps_entries {A} read (f : A -> value) : keeps read f ->
  forall o label r, parse_entries read label o = Ok r -> forallb (fun p => json_kept (snd p)) o = true ->
  json_kept (obj_value f r) = true.
Proof.
  intros Hr o. induction o as [|[k v] o IH]; intros label r H K; cbn in H; [by injection H as <-|].
  cbn in K. apply andb_true_iff in K as [Kv Ko]. inv_ok. cbn. rewrite (Hr _ _ _ ltac:(eassumption)) by (by rewrite Kv).
  eapply IH; eauto.
Qed.

Lemma kept_cons k v r : json_kept (VObj ((k, v) :: r)) = json_kept v && json_kept (VObj r).
Proof. done. Qed.
Lemma kept_field k v r : json_kept (VObj (app (field k v) r)) = json_kept v && json_kept (VObj r).
Proof. done. Qed.
Lemma kept_opt {A} k (f : A -> value) o r :
  json_kept (VObj (app (opt_field k f o) r)) = match o with Some a => json_kept (f a) | None => true end && json_kept (VObj r).
Proof. by destruct o. Qed.
Lemma kept_app l r : json_kept (VObj (app l r)) = json_kept (VObj l) && json_kept (VObj r).
Proof. apply forallb_app. Qed.
Lemma kept_opt_last {A} k (f : A -> value) o :
  json_kept (VObj (opt_field k f o)) = match o with Some a => json_kept (f a) | None => true end.
Proof. destruct o; [apply andb_true_r|done]. Qed.

#[export] Hint Resolve keeps_finite keeps_nonNegative keeps_positive keeps_text keeps_boolean keeps_array keeps_prop : keeps.

(** Discharges that a parsed field is kept, from the reader that gave it. *)
Ltac kept_number :=
  match goal with
  | H : ?read (prop ?k ?v) ?l = Ok ?a |- ?g = true =>
      solve [ refine ((_ : keeps read _) (prop k v) l a H _); eauto 6 with keeps
            | refine (keeps_opt _ _ _ (prop k v) l a H _); eauto 6 with keeps ]
  end.

Lemma record_kept v : negb (isRecord v) = false -> json_kept v || negb (defined v) = true -> json_kept v = true.
Proof. by destruct v; cbn; rewrite ?orb_false_r. Qed.

(** Splits the value of a record into those of its fields. *)
Ltac kept_record :=
  unfold lot_value, entry_value, trade_value, order_value, ord_amount, field;
  cbn -[json_kept app opt_field obj_value map prop str_of]; rewrite ?kept_app, ?kept_cons, ?kept_opt, ?kept_opt_last;
  repeat match goal with |- (_ && _) = true => apply andb_true_intro; split end; try reflexivity.

Lemma keeps_lot : keeps parseLot lot_value.
Proof.
  intros v l a H K. unfold parseLot in H. inv_ok. apply record_kept in K; [|done]. kept_record.
  all: kept_number.
Qed.
#[export] Hint Resolve keeps_lot : keeps.

Lemma keeps_entry : keeps parseEntry entry_value.
Proof.
  intros v l a H K. unfold parseEntry in H. inv_ok. apply record_kept in K; [|done]. unfold optionalFinite in *.
  kept_record; kept_number.
Qed.
#[export] Hint Resolve keeps_entry : keeps.

Lemma keeps_trade : keeps parseTrade trade_value.
Proof.
  intros v l a H K. unfold parseTrade in H. inv_ok. apply record_kept in K; [|done].
  unfold optionalFinite, positionSide in *. kept_record; kept_number.
Qed.

#[export] Hint Resolve keeps_trade : keeps.

Lemma charges_kept l : forallb charge_ok l = true -> forallb json_kept l = true ->
  json_kept (VArr (map (fun c => VObj [("currency", VStr (fc_currency c)); ("cost", VNum (fc_cost c))])
                     (map read_charge l)))%string = true.
Proof.
  intros C K. induction l as [|v l IH]; [done|]. cbn [forallb] in C. apply andb_true_iff in C as [Cv Cl].
  cbn [json_kept forallb] in K. apply andb_true_iff in K as [Kv Kl].
  cbn [map json_kept forallb snd]. apply andb_true_iff. split; [|by apply IH].
  unfold charge_ok in Cv. bool_hyps. pose proof (keeps_prop "cost" v Kv) as P. unfold read_charge. cbn [fc_cost].
  destruct (prop "cost" v) as [| | |n| | |]; try done.
Qed.

Lemma keeps_fee quote filled : keeps (parseFee quote filled) feeObservation_value.
Proof.
  intros v l a H K. unfold parseFee in H. destruct (isOrderFeeObservation v && ledger_fee quote filled (read_fee v)) eqn:E; [|done].
  injection H as <-. apply andb_true_iff in E as [E _]. unfold isOrderFeeObservation in E. bool_hyps.
  apply record_kept in K; [|by destruct v]. unfold read_fee, feeObservation_value. rewrite !kept_cons.
  pose proof (keeps_prop "charges" v K) as C. cbn [fo_charges].
  destruct (prop "charges" v) as [| | | | |cs|]; try done. rewrite orb_false_r in C. unfold isArray in *. bool_hyps.
  by rewrite charges_kept.
Qed.
#[export] Hint Resolve keeps_fee : keeps.

Lemma keeps_order quote : keeps (parseOrder quote) order_value.
Proof.
  intros v l a H K. unfold parseOrder in H. inv_ok. apply record_kept in K; [|done].
  unfold optionalFinite, optionalBoolean, optionalString, positionSide in *. kept_record; kept_number.
Qed.
#[export] Hint Resolve keeps_order : keeps.

Lemma add_zero_kept x : isFinite (x + 0) = true -> number_kept (x + 0) = true.
Proof.
  intros H. unfold number_kept. rewrite H. rewrite add_spec. change (Prim2SF 0) with (S754_zero false).
  unfold SF64add. pose proof (Prim2SF_valid (x + 0)) as V. rewrite add_spec in V. change (Prim2SF 0) with (S754_zero false) in V.
  by destruct (Prim2SF x) as [[]|[]| |[] m e].
Qed.

Lemma recovered_fee_kept quote fee f :
  paperOrderFeeObservation quote fee None = Ok f -> json_kept (feeObservation_value f) = true.
Proof.
  unfold paperOrderFeeObservation. cbn -[isFinite isOrderFeeObservation]. intros H.
  destruct (_ || _ || _) in H; [done|]. cbn -[isFinite isOrderFeeObservation] in H.
  match type of H with context [isOrderFeeObservation ?v] => destruct (isOrderFeeObservation v) eqn:E end; [|done].
  cbn in H. injection H as <-. change (sum []) with 0 in E |- *. unfold feeObservation_value in *. rewrite fee_shape in E.
  cbn -[isFinite class_len number_kept] in E |- *. bool_hyps. rewrite add_zero_kept; [done|].
  unfold charge_ok in *. cbn -[isFinite class_len] in *. bool_hyps. done.
Qed.

Lemma order_fee_kept o f :
  json_kept (order_value o) = true -> json_kept (feeObservation_value f) = true -> json_kept (order_value (set_fee f o)) = true.
Proof.
  destruct o as [? ? ? ? ? ? ? ? ? ? ? ? ? ? st]. unfold order_value, field. rewrite !kept_app.
  cbn -[json_kept opt_field]. intros H F. bool_hyps.
  repeat match goal with |- (_ && _) = true => apply andb_true_intro; split end; try assumption.
  by rewrite kept_opt_last.
Qed.

Lemma recover_fees_kept quote all trades l r :
  recover_fees quote all trades l = Ok r -> forallb json_kept (map order_value l) = true ->
  forallb json_kept (map order_value r) = true.
Proof.
  revert r. induction l as [|o l IH]; intros r H K; [by injection H as <-|]. cbn in H. inv_ok. cbn [map forallb] in *. bool_hyps.
  rewrite (IH _ ltac:(eassumption)), andb_true_r by done.
  match goal with E : recover_fee _ _ _ _ = Ok _ |- _ => unfold recover_fee in E; rename E into R end.
  destruct (_ || _ || _) in R; [by simplify_eq|]. destruct (unique_trade _ _) as [t|]; [|by simplify_eq].
  destruct (trade_matches o t); [|by simplify_eq]. inv_ok. apply order_fee_kept; [done|]. by eapply recovered_fee_kept.
Qed.

Lemma keeps_numbers : keeps parseNumberRecord (obj_value VNum).
Proof.
  intros v l a H K. unfold parseNumberRecord in H. inv_ok. bool_hyps. apply record_kept in K; [|by destruct v].
  destruct v as [| | | | | |o]; try done. cbn [entries_of] in *. cbn in K.
  match goal with E : forallb (fun p => isNumber _ _) _ = true |- _ => revert E end. clear - K. intros N.
  unfold obj_value. rewrite map_map. cbn. induction o as [|[k v] o IH]; [done|]. cbn in *. bool_hyps.
  rewrite IH by done. by destruct v as [| | |n| | |]; cbn in *; rewrite ?andb_true_r.
Qed.

Lemma keeps_leverages : keeps readLeverages (obj_value VNum).
Proof. intros v l a H K. unfold readLeverages in H. inv_ok. by eapply keeps_numbers. Qed.

Lemma keeps_marginTypes : keeps readMarginTypes (obj_value (fun x => VStr (margin_name x))).
Proof. intros v l a _ _. cbn. by induction a. Qed.
#[export] Hint Resolve keeps_numbers keeps_leverages keeps_marginTypes : keeps.

(** An account read from a file is written to it as it is. *)
Lemma account_kept v a : parsePaperAccount v = Ok a -> json_kept v = true -> json_kept (account_value a) = true.
Proof.
  intros H K. unfold parsePaperAccount in H. inv_ok.
  unfold account_value, optionalFinite, parseLeverageBySymbol, parseMarginTypeBySymbol in *. kept_record; try kept_number.
  - eapply keeps_entries; [apply keeps_entry|eassumption|]. pose proof (keeps_prop "entries" v K) as P.
    destruct (prop "entries" v); try done. by rewrite orb_false_r in P.
  - cbn. eapply recover_fees_kept; [eassumption|].
    match goal with E : parse_array (parseOrder _) _ _ = Ok _ |- _ =>
      refine (keeps_array _ _ (keeps_order _) _ _ _ E _); by apply keeps_prop end.
Qed.

(** ** Crashes *)

(** The accounts [reloadAccountsUnlocked] and the constructor would read. *)
Definition stored_account (f : AccountFile) (d : Disk) : option (result StoreError PaperAccount) :=
  option_map readAccount (d f).

(** Runs that recover and are cut off after so many steps, one after the other. *)
Fixpoint interrupted (quote : string) (cuts : list nat) (d : Disk) : Disk :=
  match cuts with
  | [] => d
  | n :: rest =>
      match recoverTransaction quote d with
      | Ok steps => interrupted quote rest (run_steps (take n steps) d)
      | Throw _ => d
      end
  end.

Lemma stored_after d x y b c : parsePaperAccount x = Ok b -> parsePaperAccount y = Ok c ->
  let d' := set_file TransactionFile None (set_file FuturesFile (Some y) (set_file SpotFile (Some x) d)) in
  d' TransactionFile = None /\ stored_account SpotFile d' = Some (Ok b) /\ stored_account FuturesFile d' = Some (Ok c).
Proof.
  intros Hx Hy. change (None = @None value /\ Some (mapError BadStoredAccount (parsePaperAccount x)) = Some (Ok b) /\
    Some (mapError BadStoredAccount (parsePaperAccount y)) = Some (Ok c)). by rewrite Hx, Hy.
Qed.

Section Crash.
Context (quote : string) (a f a' f' : PaperAccount).
Context (Ha : parsePaperAccount (json_copy (account_value a)) = Ok a') (Hf : parsePaperAccount (json_copy (account_value f)) = Ok f').
Context (Qa : acc_quote a' = quote) (Qf : acc_quote f' = quote).

(** The disk has the transaction of the accounts, or the accounts themselves. *)
Definition holds (d : Disk) : Prop :=
  d TransactionFile = Some (json_copy (transaction_value a f)) \/
  d TransactionFile = None /\ stored_account SpotFile d = Some (Ok a') /\ stored_account FuturesFile d = Some (Ok f').

Definition recovery_steps : list DiskStep :=
  [WriteJson SpotFile (account_value a'); WriteJson FuturesFile (account_value f'); RemoveFile TransactionFile].

Lemma transaction_parts :
  prop "account" (json_copy (transaction_value a f)) = json_copy (account_value a) /\
  prop "futuresAccount" (json_copy (transaction_value a f)) = json_copy (account_value f).
Proof. by unfold transaction_value, account_value. Qed.

Lemma recovery_of_transaction d :
  d TransactionFile = Some (json_copy (transaction_value a f)) -> recoverTransaction quote d = Ok recovery_steps.
Proof.
  intros E. unfold recoverTransaction. rewrite E. destruct transaction_parts as [-> ->].
  change (negb (isRecord (json_copy (transaction_value a f)))
    || negb (isNumber (fun n => n =? 1) (prop "version" (json_copy (transaction_value a f))))) with false.
  unfold readAccount. rewrite Ha, Hf. cbn. by rewrite Qa, Qf, String.eqb_refl.
Qed.

(** A file written with an account that was read is read as that account. *)
Lemma rewritten_account w b : parsePaperAccount (json_copy w) = Ok b -> parsePaperAccount (json_copy (account_value b)) = Ok b.
Proof.
  intros H. rewrite json_kept_copy.
  - by apply (account_reads_back (json_copy w)).
  - apply (account_kept (json_copy w)); [done|]. rewrite json_copy_kept. by destruct w.
Qed.

Lemma recovery_holds n d : holds d -> holds (run_steps (take n (match recoverTransaction quote d with Ok l => l | _ => [] end)) d).
Proof.
  intros [E|(E & S & F)].
  - rewrite (recovery_of_transaction d E). destruct n as [|[|[|n]]]; [by left..|]. right. cbn [take recovery_steps].
    rewrite take_nil. apply stored_after; [exact (rewritten_account _ _ Ha)|exact (rewritten_account _ _ Hf)].
  - unfold recoverTransaction. rewrite E. rewrite take_nil. right. by repeat split.
Qed.

Lemma interrupted_holds cuts d : holds d -> holds (interrupted quote cuts d).
Proof.
  revert d. induction cuts as [|n cuts IH]; intros d H; [done|]. cbn. pose proof (recovery_holds n d H) as R.
  destruct (recoverTransaction quote d); [by apply IH|done].
Qed.

Lemma recovered_holds d : holds d -> exists d', recovered quote d = Ok d' /\ d' TransactionFile = None /\
  stored_account SpotFile d' = Some (Ok a') /\ stored_account FuturesFile d' = Some (Ok f').
Proof.
  intros H. pose proof (recovery_holds 3 d H) as R. unfold recovered. destruct H as [E|(E & S & F)].
  - rewrite (recovery_of_transaction d E) in *. cbn in *. eexists. split; [done|]. destruct R as [R|R]; [done|exact R].
  - unfold recoverTransaction in *. rewrite E in *. cbn. by exists d.
Qed.
End Crash.

(** C33: writing both accounts is one step: a crash after any of the writes leaves a disk
    that the next load, however often it is itself cut off, reads either as the disk was
    before, when nothing was written, or with both new accounts and no transaction left;
    never one account new and the other old. *)
Theorem both_accounts_or_neither quote a f a' f' d n cuts :
  d TransactionFile = None ->
  parsePaperAccount (json_copy (account_value a)) = Ok a' -> parsePaperAccount (json_copy (account_value f)) = Ok f' ->
  acc_quote a' = quote -> acc_quote f' = quote ->
  let crashed := run_steps (take n (persistAccounts true true a f)) d in
  exists d', recovered quote (interrupted quote cuts crashed) = Ok d' /\ d' TransactionFile = None /\
    match n with
    | O => d' = d
    | S _ => stored_account SpotFile d' = Some (Ok a') /\ stored_account FuturesFile d' = Some (Ok f')
    end.
Proof.
  intros E Ha Hf Qa Qf crashed. destruct n as [|n].
  - exists d. assert (N : recoverTransaction quote d = Ok []) by (unfold recoverTransaction; by rewrite E).
    split; [|done]. unfold crashed. cbn. unfold recovered.
    assert (interrupted quote cuts d = d) as -> by (induction cuts as [|m cuts IH]; [done|]; cbn; rewrite N, take_nil; done).
    by rewrite N.
  - assert (H : holds a f a' f' crashed).
    { unfold crashed. destruct n as [|[|[|n]]]; [by left..|]. right. cbn [take persistAccounts andb].
      rewrite take_nil. by apply (stored_after _ _ _ a' f' Ha Hf). }
    destruct (recovered_holds quote a f a' f' Ha Hf Qa Qf _ (interrupted_holds quote a f a' f' Ha Hf Qa Qf cuts _ H)) as (d' & R & T & P).
    by exists d'.
Qed.

Definition example_spot : PaperAccount := freshSpotAccount "USDT" 10000 1700000000000.
Definition example_futures : PaperAccount := freshFuturesAccount "USDT" 5000 3 Isolated OneWay 1700000000000.

(** Cut off after the transaction and the spot account were written, and again after the
    recovery's first step. *)
Lemma both_accounts_or_neither_witness :
  let crashed := run_steps (take 2 (persistAccounts true true example_spot example_futures)) (fun _ => None) in
  stored_account FuturesFile crashed = None /\
  exists d', recovered "USDT" (interrupted "USDT" [1%nat] crashed) = Ok d' /\ d' TransactionFile = None /\
    stored_account SpotFile d' = Some (Ok example_spot) /\ stored_account FuturesFile d' = Some (Ok example_futures).
Proof.
  split; [reflexivity|].
  apply (both_accounts_or_neither "USDT" example_spot example_futures example_spot example_futures (fun _ => None) 2 [1%nat]);
    [reflexivity|vm_compute; reflexivity|vm_compute; reflexivity|reflexivity|reflexivity].
Defined.
