(* ===== verification/PaperFiles.v ===== *)
(** * Accounts through their files

    What an account is read back as once it was written to a file as JSON, which keeps
    every number but the sign of a zero. *)

From Stdlib Require Import ZArith Lia Bool Ascii Floats.
From stdpp Require Import base strings option list.
From S2P Require Import Prelude JsNumber JsObject JsValue JsFloat JsText AccountRisk RiskState Execution PaperAccount.
From S2P Require Import PaperRoundTrip PaperStore.

#[local] Set Warnings "-inexact-float".

Local Open Scope float_scope.

(** ** Zeros without their sign *)

Definition unsigned (n : number) : number := if n =? 0 then 0 else n.

Definition unsigned_fee (f : OrderFeeObservation) : OrderFeeObservation :=
  {| fo_source := fo_source f; fo_completeness := fo_completeness f;
     fo_charges := map (fun c => {| fc_currency := fc_currency c; fc_cost := unsigned (fc_cost c) |}) (fo_charges f) |}.

(** The other numbers of these records are positive. *)
Definition unsigned_order : PaperOrder -> PaperOrder := fun o =>
  let s := ord_state o in
  {| ord_id := ord_id o; ord_symbol := ord_symbol o; ord_side := ord_side o; ord_type := ord_type o;
     ord_price := ord_price o; ord_stopPrice := ord_stopPrice o; ord_trailingPercent := ord_trailingPercent o;
     ord_ocoGroup := ord_ocoGroup o; ord_clientOrderId := ord_clientOrderId o;
     ord_listClientOrderId := ord_listClientOrderId o; ord_positionSide := ord_positionSide o;
     ord_reduceOnly := ord_reduceOnly o; ord_closePosition := ord_closePosition o;
     ord_timestamp := unsigned (ord_timestamp o);
     ord_state := {| st_trailingExtreme := st_trailingExtreme s; st_triggered := st_triggered s;
       st_reservePrice := st_reservePrice s; st_reservedMargin := option_map unsigned (st_reservedMargin s);
       st_lastCheckedAt := option_map unsigned (st_lastCheckedAt s); st_amount := st_amount s;
       st_filled := unsigned (st_filled s); st_average := st_average s; st_cost := unsigned (st_cost s);
       st_feeObservation := option_map unsigned_fee (st_feeObservation s); st_status := st_status s |} |}.

Definition unsigned_trade (t : PaperTrade) : PaperTrade :=
  {| trd_id := trd_id t; trd_symbol := trd_symbol t; trd_side := trd_side t; trd_price := trd_price t;
     trd_amount := trd_amount t; trd_cost := unsigned (trd_cost t); trd_fee := unsigned (trd_fee t);
     trd_realizedPnl := option_map unsigned (trd_realizedPnl t); trd_positionSide := trd_positionSide t;
     trd_timestamp := unsigned (trd_timestamp t) |}.

Definition unsigned_entry (e : FuturesEntry) : FuturesEntry :=
  {| ent_amount := unsigned (ent_amount e); ent_cost := unsigned (ent_cost e); ent_leverage := ent_leverage e;
     ent_marginType := ent_marginType e; ent_lots := ent_lots e |}.

Definition values {A B} (f : A -> B) (o : obj A) : obj B := map (fun p => (fst p, f (snd p))) o.

(** The account with every zero a positive one, and nothing else changed. *)
Definition unsigned_account (a : PaperAccount) : PaperAccount :=
  {| acc_quote := acc_quote a; acc_balances := values unsigned (acc_balances a);
     acc_entries := values unsigned_entry (acc_entries a); acc_orders := map unsigned_order (acc_orders a);
     acc_trades := map unsigned_trade (acc_trades a); acc_realizedPnl := unsigned (acc_realizedPnl a);
     acc_leverage := acc_leverage a; acc_marginType := acc_marginType a;
     acc_leverageBySymbol := acc_leverageBySymbol a; acc_marginTypeBySymbol := acc_marginTypeBySymbol a;
     acc_positionMode := acc_positionMode a; acc_createdAt := unsigned (acc_createdAt a) |}.

Lemma unsigned_cases n : unsigned n = n \/ n = (-0) /\ unsigned n = 0.
Proof.
  unfold unsigned. destruct (n =? 0) eqn:E; [|by left]. rewrite FloatAxioms.eqb_spec in E. change (Prim2SF 0) with (S754_zero false) in E.
  destruct (Prim2SF n) as [[]|[]| |[] m e] eqn:P; try done.
  - right. split; [|done]. by apply Prim2SF_inj.
  - left. symmetry. by apply Prim2SF_inj.
Qed.

Ltac unsigned_case n := destruct (unsigned_cases n) as [->|[-> ->]].

Lemma unsigned_finite n : isFinite (unsigned n) = isFinite n.
Proof. by unsigned_case n. Qed.
Lemma unsigned_abs n : Math_abs (unsigned n) = Math_abs n.
Proof. by unsigned_case n. Qed.
Lemma unsigned_ltb_l n x : (unsigned n <? x) = (n <? x).
Proof. unsigned_case n; [done|]. rewrite !FloatAxioms.ltb_spec. by destruct (Prim2SF x) as [[]|[]| |[] m e]. Qed.
Lemma unsigned_ltb_r n x : (x <? unsigned n) = (x <? n).
Proof. unsigned_case n; [done|]. rewrite !FloatAxioms.ltb_spec. by destruct (Prim2SF x) as [[]|[]| |[] m e]. Qed.
Lemma unsigned_eqb_l n x : (unsigned n =? x) = (n =? x).
Proof. unsigned_case n; [done|]. rewrite !FloatAxioms.eqb_spec. by destruct (Prim2SF x) as [[]|[]| |[] m e]. Qed.
Lemma unsigned_eqb_r n x : (x =? unsigned n) = (x =? n).
Proof. unsigned_case n; [done|]. rewrite !FloatAxioms.eqb_spec. by destruct (Prim2SF x) as [[]|[]| |[] m e]. Qed.
Lemma unsigned_add_zero n : unsigned n + 0 = n + 0.
Proof. by unsigned_case n. Qed.
Create Rewrite HintDb unsigned.
#[export] Hint Rewrite unsigned_finite unsigned_abs unsigned_ltb_l unsigned_ltb_r unsigned_eqb_l unsigned_eqb_r : unsigned.

Lemma unsigned_positive n : (n <=? 0) = false -> unsigned n = n.
Proof. by unsigned_case n. Qed.
Lemma unsigned_leverage n : leverage_ok n = true -> unsigned n = n.
Proof. by unsigned_case n. Qed.
Lemma unsigned_priced o : some_nonpositive o = false -> option_map unsigned o = o.
Proof. destruct o as [n|]; [|done]. cbn. intros H. by rewrite unsigned_positive. Qed.
Lemma unsigned_percent o : bad_percent o = false -> option_map unsigned o = o.
Proof. destruct o as [n|]; [|done]. cbn. intros [H _]%orb_false_iff. by rewrite unsigned_positive. Qed.
Lemma unsigned_leveraged (o : option number) :
  match o with Some n => negb (leverage_ok n) | None => false end = false -> option_map unsigned o = o.
Proof. destruct o as [n|]; [|done]. cbn. intros H%negb_false_iff. by rewrite unsigned_leverage. Qed.

(** ** Copies *)

(** Nothing in it is [undefined]. *)
Fixpoint all_defined (v : value) : bool :=
  match v with
  | VUndefined => false
  | VArr l => forallb all_defined l
  | VObj o => forallb (fun p => all_defined (snd p)) o
  | _ => true
  end.
(** The value of a property: absent, or defined throughout. *)
Definition sound (v : value) : bool := all_defined v || negb (defined v).

Lemma copy_defined v : defined (json_copy v) = defined v.
Proof. destruct v; try done. cbn. unfold json_number. by destruct (isFinite _). Qed.

Lemma all_is_defined v : all_defined v = true -> defined v = true.
Proof. by destruct v. Qed.

Lemma copy_array l : forallb all_defined l = true -> json_copy (VArr l) = VArr (map json_copy l).
Proof.
  intros H. cbn. f_equal. induction l as [|v l IH]; [done|]. cbn in *. apply andb_true_iff in H as [Hv%all_is_defined Hl].
  rewrite (IH Hl). rewrite <- copy_defined in Hv. by destruct (json_copy v).
Qed.

Lemma copy_object o : forallb (fun p => all_defined (snd p)) o = true -> json_copy (VObj o) = VObj (values json_copy o).
Proof.
  intros H. cbn. f_equal. induction o as [|[k v] o IH]; [done|]. cbn in *. apply andb_true_iff in H as [Hv%all_is_defined Ho].
  rewrite (IH Ho). rewrite <- copy_defined in Hv. by destruct (json_copy v).
Qed.

Lemma o_get_values {A B} (f : A -> B) k o : o_get k (values f o) = option_map f (o_get k o).
Proof. induction o as [|[j v] o IH]; [done|]. cbn. by destruct (String.eqb k j). Qed.

Lemma prop_copy k v : all_defined v = true -> prop k (json_copy v) = json_copy (prop k v).
Proof.
  destruct v as [| | |n| |l|o]; intros H; try done; [cbn; unfold json_number; by destruct (isFinite n)|].
  rewrite copy_object by done. cbn [prop]. rewrite o_get_values. by destruct (o_get k o).
Qed.

Lemma prop_sound k v : all_defined v = true -> sound (prop k v) = true.
Proof.
  destruct v as [| | | | | |o]; try done. cbn. intros H. induction o as [|[j v] o IH]; [done|]. cbn in *.
  apply andb_true_iff in H as [Hv Ho]. destruct (String.eqb k j); [by unfold sound; cbn; rewrite Hv|by apply IH].
Qed.

Lemma copy_isRecord v : isRecord (json_copy v) = isRecord v.
Proof. destruct v; try done. cbn. unfold json_number. by destruct (isFinite _). Qed.
Lemma copy_isArray v : isArray (fun _ => true) (json_copy v) = isArray (fun _ => true) v.
Proof. destruct v; try done. cbn. unfold json_number. by destruct (isFinite _). Qed.
Lemma copy_isString p v : isString p (json_copy v) = isString p v.
Proof. destruct v; try done. cbn. unfold json_number. by destruct (isFinite _). Qed.
Lemma copy_str_of v : str_of (json_copy v) = str_of v.
Proof. destruct v; try done. cbn. unfold json_number. by destruct (isFinite _). Qed.
Lemma copy_isNumber v : isNumber isFinite v = true -> isNumber isFinite (json_copy v) = true /\ num_or (json_copy v) 0 = unsigned (num_or v 0).
Proof. destruct v as [| | |n| | |]; try done. cbn -[isFinite]. unfold json_number. intros H. rewrite H. split; [|done]. cbn -[isFinite]. change (isFinite (unsigned n) = true). by rewrite unsigned_finite. Qed.
Lemma record_sound v : negb (isRecord v) = false -> sound v = true -> all_defined v = true.
Proof. unfold sound. destruct v; try done. by rewrite orb_false_r. Qed.

(** *** Readers *)

(** A reader returns from the copy of a value what it returns from the value, up to [C]. *)
Class Copies {A} (read : value -> string -> Parse A) (C : A -> A) :=
  copies v l a : read v l = Ok a -> sound v = true -> forall l', read (json_copy v) l' = Ok (C a).
#[export] Hint Mode Copies - ! - : typeclass_instances.

Lemma opt_same {A} (o : option A) : option_map (fun a => a) o = o.
Proof. by destruct o. Qed.
Lemma opt_list_same {A} (o : option (list A)) : option_map (map (fun a => a)) o = o.
Proof. destruct o; cbn; [by rewrite map_id|done]. Qed.

#[export] Instance copies_finite : Copies finiteNumber unsigned.
Proof.
  intros v l a H _ l'. destruct v as [| | |n| | |]; try done. cbn -[isFinite] in *. unfold json_number. destruct (isFinite n) eqn:F; [|done].
  injection H as <-. change (finiteNumber (VNum (unsigned n)) l' = Ok (unsigned n)). cbn -[isFinite]. by rewrite unsigned_finite, F.
Qed.

#[export] Instance copies_nonNegative : Copies nonNegativeNumber unsigned.
Proof.
  intros v l a H S l'. unfold nonNegativeNumber in *. inv_ok. rewrite (Ok_pass _ _ _ (copies v _ a ltac:(eassumption) S l')).
  by rewrite throwIf_pass by (by rewrite unsigned_ltb_l).
Qed.

#[export] Instance copies_positive : Copies positiveNumber (fun n => n).
Proof.
  intros v l a H S l'. unfold positiveNumber in *. inv_ok. rewrite (Ok_pass _ _ _ (copies v _ a ltac:(eassumption) S l')).
  by rewrite unsigned_positive, throwIf_pass.
Qed.

#[export] Instance copies_boolean : Copies readBoolean (fun b => b).
Proof. intros v l a H _ l'. by destruct v. Qed.

#[export] Instance copies_string : Copies readString (fun s => s).
Proof. intros v l a H _ l'. by destruct v. Qed.

#[export] Instance copies_named {A} (name : A -> string) all why : Copies (readNamed name all why) (fun a => a).
Proof. intros v l a H _ l'. unfold readNamed, named in *. destruct v; try done. cbn. by destruct (find _ all). Qed.

#[export] Instance copies_optional {A} (read : value -> string -> Parse A) C : Copies read C -> Copies (unlessUndefined read) (option_map C).
Proof.
  intros R v l o H S l'. unfold unlessUndefined in *. rewrite copy_defined. destruct (defined v); [|by injection H as <-].
  inv_ok. by rewrite (Ok_pass _ _ _ (copies v _ _ ltac:(eassumption) S l')).
Qed.

Lemma copies_items {A} (read : value -> string -> Parse A) C : Copies read C ->
  forall l label i r, parse_items read label i l = Ok r -> forallb all_defined l = true ->
  forall label' i', parse_items read label' i' (map json_copy l) = Ok (map C r).
Proof.
  intros R l. induction l as [|v l IH]; intros label i r H S label' i'; cbn in H; [by injection H as <-|].
  cbn in S. apply andb_true_iff in S as [Sv Sl]. inv_ok. cbn [map parse_items].
  rewrite (Ok_pass _ _ _ (copies v _ _ ltac:(eassumption) ltac:(by unfold sound; rewrite Sv) _)).
  by rewrite (Ok_pass _ _ _ (IH _ _ _ ltac:(eassumption) Sl _ _)).
Qed.

#[export] Instance copies_array {A} (read : value -> string -> Parse A) C : Copies read C -> Copies (parse_array read) (map C).
Proof.
  intros R v label r H S l'. destruct v as [| | | | |l|]; try done. unfold sound in S. rewrite orb_false_r in S.
  rewrite copy_array by done. by eapply copies_items.
Qed.

Lemma copies_entries {A} (read : value -> string -> Parse A) C : Copies read C ->
  forall o label r, parse_entries read label o = Ok r -> forallb (fun p => all_defined (snd p)) o = true ->
  forall label', parse_entries read label' (values json_copy o) = Ok (values C r).
Proof.
  intros R o. induction o as [|[k v] o IH]; intros label r H S label'; cbn in H; [by injection H as <-|].
  cbn in S. apply andb_true_iff in S as [Sv So]. inv_ok. cbn [values map parse_entries fst snd].
  rewrite (Ok_pass _ _ _ (copies v _ _ ltac:(eassumption) ltac:(by unfold sound; rewrite Sv) _)). cbn beta.
  fold (values json_copy o). by rewrite (Ok_pass _ _ _ (IH _ _ ltac:(eassumption) So _)).
Qed.

(** Runs the readers of a goal on the copies of what the context read. *)
Ltac copy_step S :=
  match goal with
  | |- (throwIf _ _ ≫= _) = _ => rewrite throwIf_pass by (autorewrite with unsigned; first [assumption | reflexivity])
  | |- (?read (json_copy (prop ?k ?v)) ?label ≫= _) = _ =>
      match goal with
      | H : read (prop k v) ?l = Ok ?a |- _ => rewrite (Ok_pass _ _ _ (copies (prop k v) l a H (prop_sound k v S) label))
      end
  end;
  cbn beta iota; rewrite ?opt_same, ?opt_list_same;
  repeat match goal with
  | H : some_nonpositive ?o = false |- _ => progress rewrite (unsigned_priced o H)
  | H : bad_percent ?o = false |- _ => progress rewrite (unsigned_percent o H)
  end.
Ltac read_copies S := unfold_readers; rewrite ?(prop_copy _ _ S), ?copy_str_of; repeat copy_step S.

#[export] Instance copies_lot : Copies parseLot (fun l => l).
Proof.
  intros v l a H S l'. unfold parseLot in H. inv_ok. apply record_sound in S; [|done]. unfold parseLot.
  rewrite copy_isRecord, ?(prop_copy _ _ S). copy_step S. copy_step S. rewrite unsigned_leverage by (by apply negb_false_iff). read_copies S. reflexivity.
Qed.

(** The tolerance of a position's lots does not depend on the sign of a zero cost. *)
Lemma max_unsigned t cost : is_nan t = true \/ (0 <? t) = true ->
  Math_max t (unsigned cost * 0x1.12e0be826d695p-30) = Math_max t (cost * 0x1.12e0be826d695p-30).
Proof.
  intros T. unsigned_case cost; [done|]. unfold Math_max.
  change (0 * 0x1.12e0be826d695p-30) with 0. change (-0 * 0x1.12e0be826d695p-30) with (-0).
  change (is_nan 0) with false. change (is_nan (-0)) with false. destruct (is_nan t); [done|]. cbn [orb]. destruct T as [|T]; [done|].
  assert ((-0 <? t) = true /\ (t <? 0) = false /\ (t <? -0) = false) as (-> & -> & ->); [|by rewrite T].
  rewrite FloatAxioms.ltb_spec in T |- *. rewrite !FloatAxioms.ltb_spec. change (Prim2SF 0) with (S754_zero false) in *.
  change (Prim2SF (-0)) with (S754_zero true). by destruct (Prim2SF t) as [[]|[]| |[] m e].
Qed.

Lemma max_positive x : let c := 0x1.19799812dea11p-40 in is_nan (Math_max c x) = true \/ (0 <? Math_max c x) = true.
Proof.
  cbv zeta. unfold Math_max. destruct (_ || is_nan x); [by left|]. right. destruct (_ <? x) eqn:L; [|by destruct (x <? _)].
  eapply ltb_leb_trans; [|by apply ltb_leb, L]. reflexivity.
Qed.

Lemma lots_cost_unsigned x cost : Math_abs (x - unsigned cost) = Math_abs (x - cost).
Proof.
  unsigned_case cost; [done|]. unfold Math_abs. apply Prim2SF_inj. rewrite !FloatAxioms.abs_spec, !sub_spec.
  change (Prim2SF 0) with (S754_zero false). change (Prim2SF (-0)) with (S754_zero true). by destruct (Prim2SF x) as [[]|[]| |[] m e].
Qed.

#[export] Instance copies_entry : Copies parseEntry unsigned_entry.
Proof.
  intros v l a H S l'. unfold parseEntry in H. inv_ok. apply record_sound in S; [|done]. unfold parseEntry. rewrite copy_isRecord.
  match goal with E : match ?o with Some n => negb (leverage_ok n) | None => false end = false |- _ => pose proof (unsigned_leveraged o E) as U end.
  unfold_readers. rewrite ?(prop_copy _ _ S). do 2 copy_step S. rewrite U. do 5 copy_step S.
  match goal with |- (match ?o with Some _ => _ | None => _ end ≫= _) = _ => rewrite (Ok_pass _ tt) end; [read_copies S; reflexivity|].
  destruct r2 as [lots|]; [|done]. rewrite unsigned_abs, max_unsigned by (by apply max_positive). rewrite lots_cost_unsigned.
  inv_ok. rewrite throwIf_pass by done. unfold throwIf. by destruct (_ <? Math_abs (lots_cost _ - _)).
Qed.

(** *** Fees *)

Lemma values_keys {A B} (f : A -> B) (o : obj A) : o_keys (values f o) = o_keys o.
Proof. unfold o_keys, values. by rewrite map_map. Qed.

Lemma copy_keys v : all_defined v = true -> keys_of (json_copy v) = keys_of v.
Proof.
  destruct v as [| | |n| |l|o]; intros S; try done; [cbn; unfold json_number; by destruct (isFinite n)|].
  rewrite copy_object by done. apply values_keys.
Qed.

Lemma copy_isLit s v : isLit s (json_copy v) = isLit s v.
Proof. apply copy_isString. Qed.

Lemma copy_charge v : all_defined v = true -> charge_ok v = true ->
  charge_ok (json_copy v) = true /\
  read_charge (json_copy v) = {| fc_currency := fc_currency (read_charge v); fc_cost := unsigned (fc_cost (read_charge v)) |}.
Proof.
  unfold charge_ok, read_charge, only_keys. intros S H. bool_hyps. rewrite !prop_copy, copy_isRecord, copy_isString, copy_keys, copy_str_of by done.
  match goal with E : isNumber _ _ = true |- _ => destruct (copy_isNumber _ E) as [-> ->] end.
  split; [|done]. by repeat (apply andb_true_iff; split).
Qed.

Lemma copy_charges l : forallb all_defined l = true -> forallb charge_ok l = true ->
  forallb charge_ok (map json_copy l) = true /\ map (fun c => str_of (prop "currency" c)) (map json_copy l) = map (fun c => str_of (prop "currency" c)) l /\
  map read_charge (map json_copy l) = map (fun c => {| fc_currency := fc_currency c; fc_cost := unsigned (fc_cost c) |}) (map read_charge l).
Proof.
  induction l as [|v l IH]; [done|]. cbn. intros [Sv Sl]%andb_true_iff [Cv Cl]%andb_true_iff.
  destruct (copy_charge v Sv Cv) as [-> ->]. destruct (IH Sl Cl) as (-> & -> & ->). by rewrite prop_copy, copy_str_of.
Qed.

Lemma copy_fee v : all_defined v = true -> isOrderFeeObservation v = true ->
  isOrderFeeObservation (json_copy v) = true /\ read_fee (json_copy v) = unsigned_fee (read_fee v).
Proof.
  intros S H. unfold isOrderFeeObservation in H. bool_hyps. unfold isOrderFeeObservation, read_fee, unsigned_fee, only_keys in *.
  rewrite !prop_copy, copy_isRecord, !copy_isLit, copy_keys by done. cbn [fo_source fo_completeness fo_charges].
  pose proof (prop_sound "charges" v S) as P. destruct (prop "charges" v) as [| | | | |l|]; try done. unfold sound in P. rewrite orb_false_r in P.
  unfold isArray in *. bool_hyps. rewrite copy_array by done. destruct (copy_charges l) as (E1 & E2 & E3); [done..|].
  cbn iota. rewrite E1, E2, E3, length_map. split; [|done]. by repeat (apply andb_true_iff; split).
Qed.

Lemma ledger_fee_unsigned quote filled f : ledger_fee quote (unsigned filled) (unsigned_fee f) = ledger_fee quote filled f.
Proof.
  unfold ledger_fee, unsigned_fee. cbn [fo_source fo_charges]. rewrite length_map. f_equal. induction (fo_charges f) as [|c l IH]; [done|].
  cbn [map forallb]. rewrite IH. f_equal. unfold ledger_charge. cbn [fc_currency fc_cost]. by autorewrite with unsigned.
Qed.

Lemma copies_fee quote filled v l o : unlessUndefined (parseFee quote filled) v l = Ok o -> sound v = true ->
  forall l', unlessUndefined (parseFee quote (unsigned filled)) (json_copy v) l' = Ok (option_map unsigned_fee o).
Proof.
  intros H S l'. unfold unlessUndefined in *. rewrite copy_defined. destruct (defined v) eqn:D; [|by injection H as <-].
  inv_ok. unfold parseFee in *. destruct (isOrderFeeObservation v && _) eqn:E; [|done]. bool_hyps. unfold sound in S. rewrite D, orb_false_r in S.
  match goal with E : isOrderFeeObservation v = true |- _ => destruct (copy_fee v S E) as [-> ->] end. rewrite ledger_fee_unsigned.
  match goal with E : ledger_fee _ _ _ = true, E' : Ok _ = Ok _ |- _ => rewrite E; injection E' as <- end. done.
Qed.

(** *** Orders and trades *)

#[export] Instance copies_order quote : Copies (parseOrder quote) unsigned_order.
Proof.
  intros v l a H S l'. unfold parseOrder in H. inv_ok. apply record_sound in S; [|done]. unfold parseOrder, isNonemptyString in *.
  unfold_readers. rewrite ?(prop_copy _ _ S), copy_isRecord, !copy_isString, !copy_str_of.
  do 8 copy_step S.
  match goal with E : unlessUndefined (parseFee _ _) _ ?l = Ok _ |- context [dot l' "feeObservation"] =>
    rewrite (Ok_pass _ _ _ (copies_fee _ _ _ _ _ E (prop_sound _ _ S) _)) end.
  repeat copy_step S. reflexivity.
Qed.

#[export] Instance copies_trade : Copies parseTrade unsigned_trade.
Proof.
  intros v l a H S l'. unfold parseTrade in H. inv_ok. apply record_sound in S; [|done]. unfold parseTrade, isNonemptyString in *.
  unfold_readers. rewrite ?(prop_copy _ _ S), copy_isRecord, !copy_isString, !copy_str_of. repeat copy_step S. reflexivity.
Qed.

(** *** Records of numbers and of margin types *)

#[export] Instance copies_numbers : Copies parseNumberRecord (values unsigned).
Proof.
  intros v l r H S l'. unfold parseNumberRecord in *. inv_ok. bool_hyps. apply record_sound in S; [|by destruct v].
  destruct v as [| | | | | |o]; try done. cbn [entries_of] in *. rewrite copy_object by done. cbn [isRecord entries_of andb].
  match goal with E : forallb _ o = true |- _ => rename E into N end. clear S.
  assert (forallb (fun p => isNumber isFinite (snd p)) (values json_copy o) = true /\
          map (fun p => (fst p, num_or (snd p) 0)) (values json_copy o) = values unsigned (map (fun p => (fst p, num_or (snd p) 0)) o)) as [E1 E2].
  { induction o as [|[k v] o IH]; [done|]. cbn -[isFinite] in N. apply andb_true_iff in N as [Nv No]. destruct (IH eq_refl No) as [I1 I2].
    destruct (copy_isNumber _ Nv) as [C1 C2]. cbn [values map forallb fst snd]. fold (values json_copy o). by rewrite C1, C2, I1, I2. }
  rewrite throwIf_pass by (by rewrite E1). by rewrite E2.
Qed.

#[export] Instance copies_leverages : Copies readLeverages (fun r => r).
Proof.
  intros v l r H S l'. unfold readLeverages in *. inv_ok. rewrite (Ok_pass _ _ _ (copies v _ _ ltac:(eassumption) S l')).
  match goal with E : foldM _ _ _ = Ok _ |- _ => rename E into F end.
  assert (values unsigned r = r) as ->.
  { clear - F. induction r as [|[k n] r IH]; [done|]. cbn [foldM] in F. destruct (throwIf _ _) as [[]|] eqn:T in F; [|done].
    cbn [values map fst snd]. fold (values unsigned r). rewrite (IH F). unfold throwIf in T.
    destruct (leverage_ok n) eqn:L; [by rewrite unsigned_leverage|]. cbn in T. by rewrite L in T. }
  rewrite (Ok_pass _ tt); [done|]. revert F. clear. induction r as [|p r IH]; [done|]. cbn [foldM]. by destruct (leverage_ok (snd p)).
Qed.

#[export] Instance copies_marginTypes : Copies readMarginTypes (fun r => r).
Proof.
  intros v l r H S l'. unfold readMarginTypes in *. inv_ok. apply record_sound in S; [|done]. destruct v as [| | | | | |o]; try done.
  rewrite copy_object by done. rewrite throwIf_pass by done. cbn [entries_of] in *.
  rewrite (copies_entries marginType _ _ _ _ _ ltac:(eassumption) S). f_equal. unfold values. clear. by induction r as [|[k x] r IH]; [|cbn; rewrite IH].
Qed.

(** *** Fees of legacy orders *)

Lemma count_unsigned id l :
  length (List.filter (fun o => String.eqb (ord_id o) id) (map unsigned_order l)) = length (List.filter (fun o => String.eqb (ord_id o) id) l).
Proof. apply count_ids. by rewrite map_map. Qed.

Lemma unique_unsigned trades id : unique_trade (map unsigned_trade trades) id = option_map unsigned_trade (unique_trade trades id).
Proof.
  unfold unique_trade. assert (List.filter (fun t => String.eqb (trd_id t) id) (map unsigned_trade trades) =
    map unsigned_trade (List.filter (fun t => String.eqb (trd_id t) id) trades)) as ->.
  { induction trades as [|t l IH]; [done|]. cbn [map List.filter]. rewrite IH. cbn. by destruct (String.eqb (trd_id t) id). }
  by destruct (List.filter _ trades) as [|t [|]].
Qed.

Lemma matches_unsigned o t : trade_matches (unsigned_order o) (unsigned_trade t) = trade_matches o t.
Proof. unfold trade_matches, ord_filled, ord_cost. cbn. by autorewrite with unsigned. Qed.

Lemma ledger_fee_copy quote fee f : paperOrderFeeObservation quote fee None = Ok f ->
  paperOrderFeeObservation quote (unsigned fee) None = Ok f /\ unsigned_fee f = f.
Proof.
  unfold paperOrderFeeObservation. cbn [mbind option_bind]. change (sum []) with 0. rewrite unsigned_add_zero. autorewrite with unsigned.
  intros H. split; [exact H|]. inv_ok. unfold unsigned_fee. cbn [fo_source fo_completeness fo_charges map fc_currency fc_cost]. do 3 f_equal.
  destruct (unsigned_cases (fee + 0)) as [->|[E _]]; [done|]. exfalso. apply (f_equal Prim2SF) in E. rewrite add_spec in E.
  change (Prim2SF 0) with (S754_zero false) in E. change (Prim2SF (-0)) with (S754_zero true) in E.
  by destruct (Prim2SF fee) as [[]|[]| |[] m e].
Qed.

Lemma recover_copy quote all trades o r : recover_fee quote all trades o = Ok r ->
  recover_fee quote (map unsigned_order all) (map unsigned_trade trades) (unsigned_order o) = Ok (unsigned_order r).
Proof.
  unfold recover_fee. rewrite count_unsigned, unique_unsigned. intros H.
  assert (match ord_feeObservation (unsigned_order o) with Some _ => true | None => false end =
          match ord_feeObservation o with Some _ => true | None => false end) as ->
    by (unfold ord_feeObservation, unsigned_order; cbn; by destruct (st_feeObservation _)).
  assert ((ord_filled (unsigned_order o) =? 0) = (ord_filled o =? 0)) as -> by (unfold ord_filled; cbn; by autorewrite with unsigned).
  change (ord_id (unsigned_order o)) with (ord_id o).
  destruct (_ || _ || _); [by injection H as <-|]. destruct (unique_trade trades (ord_id o)) as [t|]; cbn [option_map]; [|by injection H as <-].
  rewrite matches_unsigned. destruct (trade_matches o t); [|by injection H as <-]. inv_ok.
  match goal with E : paperOrderFeeObservation _ _ _ = Ok ?f |- _ => destruct (ledger_fee_copy _ _ _ E) as [C U] end.
  change (trd_fee (unsigned_trade t)) with (unsigned (trd_fee t)). rewrite (Ok_pass _ _ _ C).
  unfold set_fee, on_state, unsigned_order. cbn. by rewrite U.
Qed.

Lemma recover_copies quote all trades l r : recover_fees quote all trades l = Ok r ->
  recover_fees quote (map unsigned_order all) (map unsigned_trade trades) (map unsigned_order l) = Ok (map unsigned_order r).
Proof.
  revert r. induction l as [|o l IH]; intros r H; cbn in H; [by injection H as <-|]. inv_ok. cbn [map recover_fees].
  rewrite (Ok_pass _ _ _ (recover_copy _ _ _ _ _ ltac:(eassumption))). by rewrite (Ok_pass _ _ _ (IH _ ltac:(eassumption))).
Qed.

(** *** Accounts *)

Lemma account_copied v a : parsePaperAccount v = Ok a -> all_defined v = true -> parsePaperAccount (json_copy v) = Ok (unsigned_account a).
Proof.
  intros H S. unfold parsePaperAccount in H. inv_ok. unfold parsePaperAccount, isNonemptyString, parseLeverageBySymbol, parseMarginTypeBySymbol in *.
  match goal with E : match ?o with Some n => negb (leverage_ok n) | None => false end = false |- _ => pose proof (unsigned_leveraged o E) as U end.
  unfold_readers. rewrite ?(prop_copy _ _ S), !copy_isRecord, !copy_isString, !copy_str_of, !copy_isArray.
  do 4 copy_step S. rewrite U. do 4 copy_step S.
  rewrite (Ok_pass _ _ _ (recover_copies _ _ _ _ _ ltac:(eassumption))). copy_step S.
  pose proof (prop_sound "entries" v S) as P. destruct (prop "entries" v) as [| | | | | |o]; try done.
  unfold sound in P. rewrite orb_false_r in P. rewrite copy_object by done. cbn [entries_of] in *.
  rewrite (Ok_pass _ _ _ (copies_entries parseEntry _ _ _ _ _ ltac:(eassumption) P _)). repeat copy_step S. reflexivity.
Qed.

Lemma defined_app l r : all_defined (VObj (app l r)) = all_defined (VObj l) && all_defined (VObj r).
Proof. apply forallb_app. Qed.
Lemma defined_cons k v r : all_defined (VObj ((k, v) :: r)) = all_defined v && all_defined (VObj r).
Proof. done. Qed.
Lemma defined_opt {A} k (f : A -> value) o : (forall a, all_defined (f a) = true) -> all_defined (VObj (opt_field k f o)) = true.
Proof. intros H. destruct o; [|done]. cbn. by rewrite H. Qed.
Lemma defined_array {A} (f : A -> value) l : (forall a, all_defined (f a) = true) -> all_defined (VArr (map f l)) = true.
Proof. intros H. cbn. induction l as [|a l IH]; [done|]. cbn. by rewrite H, IH. Qed.
Lemma defined_values {A} (f : A -> value) o : (forall a, all_defined (f a) = true) -> all_defined (obj_value f o) = true.
Proof. intros H. cbn. induction o as [|[k a] o IH]; [done|]. cbn. by rewrite H, IH. Qed.

Ltac defined_record :=
  rewrite ?defined_app; repeat (apply andb_true_iff; split); try reflexivity; try (apply defined_opt; intros; try reflexivity).

Lemma fee_defined f : all_defined (feeObservation_value f) = true.
Proof. unfold feeObservation_value. cbn [all_defined forallb snd]. rewrite andb_true_r. by apply (defined_array _ (fo_charges f)). Qed.
Lemma order_defined o : all_defined (order_value o) = true.
Proof. unfold order_value, field. defined_record. apply fee_defined. Qed.
Lemma trade_defined t : all_defined (trade_value t) = true.
Proof. unfold trade_value, field. defined_record. Qed.
Lemma entry_defined e : all_defined (entry_value e) = true.
Proof. unfold entry_value, field. defined_record. by apply defined_array. Qed.

Lemma account_defined a : all_defined (account_value a) = true.
Proof.
  unfold account_value, field. rewrite defined_app, !defined_cons. defined_record; try (by apply defined_values).
  - apply defined_values, entry_defined.
  - apply defined_array, order_defined.
  - apply defined_array, trade_defined.
Qed.

(** ** What is written is read *)

(** A reader returns from the copy of the value of [a] nothing but [a], up to [C]. *)
Class Inverts {A} (read : value -> string -> Parse A) (f : A -> value) (C : A -> A) :=
  inverts a l b : read (json_copy (f a)) l = Ok b -> b = C a.
#[export] Hint Mode Inverts - ! ! - : typeclass_instances.

#[export] Instance inverts_finite : Inverts finiteNumber VNum unsigned.
Proof.
  intros n l b. cbn. unfold json_number. destruct (isFinite n); [|done]. fold (unsigned n). cbn. by destruct (_ <? infinity); [intros [= <-]|].
Qed.
#[export] Instance inverts_nonNegative : Inverts nonNegativeNumber VNum unsigned.
Proof. intros n l b H. unfold nonNegativeNumber in H. inv_ok. by eapply inverts_finite. Qed.
#[export] Instance inverts_positive : Inverts positiveNumber VNum (fun n => n).
Proof.
  intros n l b H. unfold positiveNumber in H. inv_ok. match goal with E : finiteNumber _ _ = Ok _ |- _ => apply inverts_finite in E; subst b end.
  by unsigned_case n.
Qed.
#[export] Instance inverts_boolean : Inverts readBoolean VBool (fun b => b).
Proof. by intros a l b [= <-]. Qed.
#[export] Instance inverts_string : Inverts readString VStr (fun s => s).
Proof. by intros a l b [= <-]. Qed.

Lemma inverts_named {A} (name : A -> string) all why a l b : (forall x y, name x = name y -> x = y) ->
  readNamed name all why (json_copy (VStr (name a))) l = Ok b -> b = a.
Proof.
  unfold readNamed, named. cbn. intros I H. destruct (find _ all) as [x|] eqn:F; [|done]. injection H as <-.
  apply find_some in F as [_ F%String.eqb_eq]. by apply I.
Qed.

Ltac names := intros [] []; first [reflexivity | discriminate].
#[export] Instance inverts_side : Inverts orderSide (fun x => VStr (side_name x)) (fun x => x).
Proof. intros a l b. apply inverts_named. names. Qed.
#[export] Instance inverts_type why : Inverts (readNamed type_name ALL_ORDER_TYPES why) (fun x => VStr (type_name x)) (fun x => x).
Proof. intros a l b. apply inverts_named. names. Qed.
#[export] Instance inverts_status why : Inverts (readNamed paper_status_name ORDER_STATUSES why) (fun x => VStr (paper_status_name x)) (fun x => x).
Proof. intros a l b. apply inverts_named. names. Qed.
#[export] Instance inverts_margin : Inverts marginType (fun x => VStr (margin_name x)) (fun x => x).
Proof. intros a l b. apply inverts_named. names. Qed.
#[export] Instance inverts_mode why : Inverts (readNamed position_mode_name POSITION_MODES why) (fun x => VStr (position_mode_name x)) (fun x => x).
Proof. intros a l b. apply inverts_named. names. Qed.
#[export] Instance inverts_position why : Inverts (readNamed position_side_name POSITION_SIDES why) (fun x => VStr (position_side_name x)) (fun x => x).
Proof. intros a l b. apply inverts_named. names. Qed.

Lemma inverts_optional {A} read (f : A -> value) C : Inverts read f C -> (forall a, defined (f a) = true) ->
  forall o l r, unlessUndefined read (json_copy (opt_value f o)) l = Ok r -> r = option_map C o.
Proof.
  intros I D [a|] l r H; unfold unlessUndefined in H; rewrite copy_defined in H; cbn [opt_value] in H; [|by injection H as <-].
  rewrite D in H. inv_ok. cbn. f_equal. by eapply I.
Qed.

Lemma inverts_items {A} read (f : A -> value) C : Inverts read f C ->
  forall l label i r, parse_items read label i (map json_copy (map f l)) = Ok r -> r = map C l.
Proof.
  intros I l. induction l as [|a l IH]; intros label i r H; cbn [map parse_items] in H; [by injection H as <-|].
  inv_ok. cbn [map]. f_equal; [by eapply I|by eapply IH].
Qed.

Lemma inverts_array {A} read (f : A -> value) C : Inverts read f C -> (forall a, all_defined (f a) = true) ->
  Inverts (parse_array read) (fun l => VArr (map f l)) (map C).
Proof. intros I D l label r H. rewrite copy_array in H by (by apply defined_array). by eapply inverts_items. Qed.

Lemma inverts_entries {A} read (f : A -> value) C : Inverts read f C ->
  forall o label r, parse_entries read label (values json_copy (values f o)) = Ok r -> r = values C o.
Proof.
  intros I o. induction o as [|[k a] o IH]; intros label r H; cbn [values map parse_entries fst snd] in H; [by injection H as <-|].
  inv_ok. cbn [values map fst snd]. f_equal; [f_equal; by eapply I|by eapply IH].
Qed.

(** Names what the readers of a hypothesis have read. *)
Ltac invert_reads :=
  unfold_readers;
  repeat match goal with
  | H : readNamed ?name _ _ (json_copy (VStr (?name ?x))) _ = Ok ?b |- _ => apply inverts_named in H; [subst b|names]
  | H : ?read (json_copy (VNum ?n)) ?l = Ok ?b |- _ => apply (inverts (f := VNum) n l b) in H; subst b
  | H : unlessUndefined ?read (json_copy (opt_value ?f ?o)) ?l = Ok ?r |- _ =>
      apply (inverts_optional read f _ _ ltac:(intros; reflexivity) o l r) in H; subst r
  end.

(** *** Records *)

Lemma unsigned_lev n : leverage_ok (unsigned n) = true -> unsigned n = n.
Proof. by unsigned_case n. Qed.
Lemma unsigned_levered (o : option number) :
  match option_map unsigned o with Some n => negb (leverage_ok n) | None => false end = false -> option_map unsigned o = o.
Proof. destruct o as [n|]; [|done]. cbn. intros H%negb_false_iff. by rewrite unsigned_lev. Qed.
Lemma unsigned_above o : some_nonpositive (option_map unsigned o) = false -> option_map unsigned o = o.
Proof. destruct o as [n|]; [|done]. cbn. unsigned_case n; done. Qed.
Lemma unsigned_within o : bad_percent (option_map unsigned o) = false -> option_map unsigned o = o.
Proof. destruct o as [n|]; [|done]. cbn. unsigned_case n; done. Qed.

Ltac unsign :=
  repeat match goal with
  | H : some_nonpositive (option_map unsigned ?o) = false |- _ => pose proof (unsigned_above o H) as ->; clear H
  | H : bad_percent (option_map unsigned ?o) = false |- _ => pose proof (unsigned_within o H) as ->; clear H
  end.

#[export] Instance inverts_lot : Inverts parseLot lot_value (fun x => x).
Proof.
  intros x l b H. unfold parseLot, lot_value in H. rewrite !prop_copy in H by done.
  unfold prop in H. cbn -[finiteNumber positiveNumber marginType leverage_ok throwIf dot mbind result_bind json_copy] in H. inv_ok.
  invert_reads.
  match goal with E : negb _ = false |- _ => apply negb_false_iff, unsigned_lev in E; rewrite E end. by destruct x.
Qed.

Lemma lot_defined x : all_defined (lot_value x) = true.
Proof. done. Qed.

#[export] Instance inverts_entry : Inverts parseEntry entry_value unsigned_entry.
Proof.
  intros x l b H. unfold parseEntry in H. rewrite !prop_copy in H by apply entry_defined. destruct (entry_props x) as (Ea & Ec & El & Em & Eo).
  rewrite Ea, Ec, El, Em, Eo in H. inv_ok. invert_reads.
  match goal with E : unlessUndefined (parse_array _) _ _ = Ok _ |- _ =>
    apply (inverts_optional _ _ _ (inverts_array _ _ _ inverts_lot lot_defined) ltac:(intros; reflexivity)) in E; subst end.
  match goal with E : match option_map unsigned _ with _ => _ end = false |- _ => apply unsigned_levered in E; rewrite E end.
  rewrite opt_same, opt_list_same. by destruct x.
Qed.

Lemma fee_copy_props f : let v := json_copy (feeObservation_value f) in
  prop "source" v = VStr (fee_source_name (fo_source f)) /\ prop "completeness" v = VStr (completeness_name (fo_completeness f)) /\
  prop "charges" v = VArr (map json_copy (map (fun c => VObj [("currency", VStr (fc_currency c)); ("cost", VNum (fc_cost c))]%string) (fo_charges f))).
Proof.
  cbv zeta. rewrite !prop_copy by apply fee_defined. split_and!; [done|done|].
  change (prop "charges" (feeObservation_value f)) with
    (VArr (map (fun c => VObj [("currency", VStr (fc_currency c)); ("cost", VNum (fc_cost c))]%string) (fo_charges f))).
  apply copy_array. by apply (defined_array _ (fo_charges f)).
Qed.

#[export] Instance inverts_fee quote filled : Inverts (parseFee quote filled) feeObservation_value unsigned_fee.
Proof.
  intros f l b. pose proof (fee_copy_props f) as P. cbv zeta in P. revert P. generalize (json_copy (feeObservation_value f)) as v.
  intros v (Es & Em & Ec) H. unfold parseFee in H. destruct (_ && _) eqn:E in H; [|done]. injection H as <-. apply andb_true_iff in E as [E _].
  unfold isOrderFeeObservation in E. bool_hyps. unfold read_fee, unsigned_fee. rewrite Es, Em, Ec in *.
  cbn [isArray] in *. bool_hyps. f_equal; [by destruct (fo_source f)|by destruct (fo_completeness f)|].
  match goal with E : forallb charge_ok _ = true |- _ => revert E end. clear. induction (fo_charges f) as [|[cur cost] r IH]; [done|].
  cbn [map forallb]. intros [C R]%andb_true_iff. rewrite (IH R). f_equal. unfold charge_ok in C. bool_hyps. unfold read_charge.
  rewrite !prop_copy in * by done. match goal with E : isNumber _ _ = true |- _ => revert E end.
  cbn -[isFinite]. unfold json_number. destruct (isFinite cost); [done|]. cbn. done.
Qed.

#[export] Instance inverts_order quote : Inverts (parseOrder quote) order_value unsigned_order.
Proof.
  intros o l b H. unfold parseOrder in H. rewrite !prop_copy in H by apply order_defined.
  pose proof (order_props o) as [P1 P2]. cbn -[prop order_value opt_value feeObservation_value] in P1, P2.
  destruct P1 as (E1 & E2 & E3 & E4 & E5 & E6 & E7 & E8 & E9 & E10 & E11 & E12).
  destruct P2 as (F1 & F2 & F3 & F4 & F5 & F6 & F7 & F8 & F9 & F10 & F11 & F12 & F13).
  rewrite E1, E2, E3, E4, E5, E6, E7, E8, E9, E10, E11, E12, F1, F2, F3, F4, F5, F6, F7, F8, F9, F10, F11, F12, F13 in H.
  clear E1 E2 E3 E4 E5 E6 E7 E8 E9 E10 E11 E12 F1 F2 F3 F4 F5 F6 F7 F8 F9 F10 F11 F12 F13.
  inv_ok. invert_reads. unsign. by rewrite !opt_same.
Qed.

#[export] Instance inverts_trade : Inverts parseTrade trade_value unsigned_trade.
Proof.
  intros t l b H. unfold parseTrade in H. rewrite !prop_copy in H by apply trade_defined.
  pose proof (trade_props t) as P. cbn -[prop trade_value opt_value] in P. destruct P as (E1 & E2 & E3 & E4 & E5 & E6 & E7 & E8 & E9 & E10).
  rewrite E1, E2, E3, E4, E5, E6, E7, E8, E9, E10 in H. clear E1 E2 E3 E4 E5 E6 E7 E8 E9 E10.
  inv_ok. invert_reads. by rewrite !opt_same.
Qed.

Lemma copy_obj_value {A} (f : A -> value) o : (forall a, all_defined (f a) = true) ->
  json_copy (obj_value f o) = VObj (values json_copy (values f o)).
Proof. intros D. apply (copy_object (values f o)). by apply (defined_values f o). Qed.

#[export] Instance inverts_numbers : Inverts parseNumberRecord (obj_value VNum) (values unsigned).
Proof.
  intros o l b H. rewrite copy_obj_value in H by done. unfold parseNumberRecord in H. inv_ok. bool_hyps. cbn [entries_of] in *.
  match goal with E : forallb _ _ = true |- _ => revert E end. clear. unfold values. induction o as [|[k n] o IH]; [done|].
  cbn [map forallb fst snd]. intros [N R]%andb_true_iff. rewrite (IH R). do 2 f_equal. revert N. cbn -[isFinite]. unfold json_number.
  by destruct (isFinite n).
Qed.

#[export] Instance inverts_leverages : Inverts readLeverages (obj_value VNum) (fun o => o).
Proof.
  intros o l b H. unfold readLeverages in H. inv_ok. match goal with E : parseNumberRecord _ _ = Ok _ |- _ => apply inverts_numbers in E; subst b end.
  match goal with E : foldM _ _ _ = Ok _ |- _ => revert E end. clear. induction o as [|[k n] o IH]; [done|]. cbn [values map foldM fst snd].
  unfold throwIf at 1. destruct (leverage_ok (unsigned n)) eqn:L; [|done]. intros H. fold (values unsigned o). by rewrite (IH H), unsigned_lev.
Qed.

#[export] Instance inverts_marginTypes : Inverts readMarginTypes (obj_value (fun x => VStr (margin_name x))) (fun o => o).
Proof.
  intros o l b H. rewrite copy_obj_value in H by done. unfold readMarginTypes in H. inv_ok. cbn [entries_of] in *.
  match goal with E : parse_entries _ _ _ = Ok _ |- _ => apply (inverts_entries _ _ _ inverts_margin) in E; subst b end.
  unfold values. induction o as [|[k x] o IH]; [done|]. cbn. by rewrite IH.
Qed.

(** Orders, each as it was or with a fee where it had none. *)
Definition fees_added (l r : list PaperOrder) : Prop :=
  Forall2 (fun o o' => o' = o \/ ord_feeObservation o = None /\ exists f, o' = set_fee f o) l r.

Lemma recovered_added quote all trades l r : recover_fees quote all trades l = Ok r -> fees_added l r.
Proof.
  revert r. induction l as [|o l IH]; intros r H; cbn in H; [injection H as <-; constructor|]. inv_ok. constructor; [|by apply IH].
  match goal with E : recover_fee _ _ _ _ = Ok _ |- _ => unfold recover_fee in E; rename E into R end.
  destruct (ord_feeObservation o) eqn:F; [by left; injection R as <-|].
  destruct (_ || _ || _) in R; [by left; injection R as <-|]. destruct (unique_trade _ _) as [t|]; [|by left; injection R as <-].
  destruct (trade_matches o t); [|by left; injection R as <-]. inv_ok. right. split; [done|]. eauto.
Qed.

(** The account with other orders. *)
Definition holding (orders : list PaperOrder) (a : PaperAccount) : PaperAccount :=
  {| acc_quote := acc_quote a; acc_balances := acc_balances a; acc_entries := acc_entries a; acc_orders := orders;
     acc_trades := acc_trades a; acc_realizedPnl := acc_realizedPnl a; acc_leverage := acc_leverage a;
     acc_marginType := acc_marginType a; acc_leverageBySymbol := acc_leverageBySymbol a;
     acc_marginTypeBySymbol := acc_marginTypeBySymbol a; acc_positionMode := acc_positionMode a; acc_createdAt := acc_createdAt a |}.

(** [b] is the account [a], but for the fees of orders that had none. *)
Definition same_but_fees (a b : PaperAccount) : Prop :=
  exists orders, fees_added (acc_orders a) orders /\ b = holding orders a.

Lemma written_read a b : parsePaperAccount (json_copy (account_value a)) = Ok b -> same_but_fees (unsigned_account a) b.
Proof.
  intros H. unfold parsePaperAccount, parseLeverageBySymbol, parseMarginTypeBySymbol in H. rewrite !prop_copy in H by apply account_defined.
  pose proof (account_props a) as P. cbn -[prop account_value opt_value obj_value] in P.
  destruct P as (E1 & E2 & E3 & E4 & E5 & E6 & E7 & E8 & E9 & E10 & E11 & E12).
  rewrite E1, E2, E3, E4, E5, E6, E7, E8, E9, E10, E11, E12 in H. clear E1 E2 E3 E4 E5 E6 E7 E8 E9 E10 E11 E12.
  inv_ok. invert_reads.
  match goal with E : match option_map unsigned _ with _ => _ end = false |- _ => apply unsigned_levered in E; rewrite E end.
  repeat match goal with
  | E : parse_array (parseOrder ?q) _ _ = Ok _ |- _ => apply (inverts_array _ _ _ (inverts_order q) order_defined) in E; subst
  | E : parse_array parseTrade _ _ = Ok _ |- _ => apply (inverts_array _ _ _ inverts_trade trade_defined) in E; subst
  | E : parseNumberRecord _ _ = Ok _ |- _ => apply inverts_numbers in E; subst
  | E : parse_entries _ _ _ = Ok _ |- _ => rewrite copy_obj_value in E by apply entry_defined; apply (inverts_entries _ _ _ inverts_entry) in E; subst
  | E : recover_fees _ _ _ _ = Ok ?r |- _ => apply recovered_added in E; exists r; split; [exact E|]
  end.
  by rewrite !opt_same.
Qed.

(** ** Reading back *)

(** C39: an account written to its file as JSON is, when it is read, the same account but for the
    sign of its zeros and for fees recovered for orders that had none: every field is read as it
    was written, and what was read is from then on written and read as it is. Every account that
    the validator returned is read, with no further fee recovered; and it is read exactly as it
    is when it came from JSON text. *)
Theorem accounts_read_back a :
  (forall b, parsePaperAccount (json_copy (account_value a)) = Ok b ->
     same_but_fees (unsigned_account a) b /\ parsePaperAccount (json_copy (account_value b)) = Ok b) /\
  (forall v, parsePaperAccount v = Ok a ->
     parsePaperAccount (json_copy (account_value a)) = Ok (unsigned_account a) /\ (json_kept v = true -> unsigned_account a = a)).
Proof.
  split; [intros b H; split; [exact (written_read _ _ H)|exact (rewritten_account _ _ H)]|]. intros v H.
  pose proof (account_copied _ _ (account_reads_back _ _ H) (account_defined a)) as C. split; [exact C|]. intros K.
  rewrite (json_kept_copy _ (account_kept _ _ H K)), (account_reads_back _ _ H) in C. congruence.
Qed.

(** A ledger written before fees were recorded: its filled order has a trade of its own. *)
Definition legacy_json : value :=
  VObj [("quote", VStr "USDT"); ("balances", VObj [("USDT", VNum 899.9); ("BTC", VNum 1)]);
        ("entries", VObj [("BTC", VObj [("amount", VNum 1); ("cost", VNum 100.1); ("note", VStr "dropped")])]);
        ("orders", VArr [VObj [("id", VStr "1"); ("symbol", VStr "BTC/USDT"); ("side", VStr "buy"); ("type", VStr "market");
                               ("amount", VNum 1); ("filled", VNum 1); ("cost", VNum 100); ("status", VStr "closed");
                               ("timestamp", VNum 1700000000000)]]);
        ("trades", VArr [VObj [("id", VStr "1"); ("symbol", VStr "BTC/USDT"); ("side", VStr "buy"); ("price", VNum 100);
                               ("amount", VNum 1); ("cost", VNum 100); ("fee", VNum 0.125); ("timestamp", VNum 1700000000000)]]);
        ("realizedPnl", VNum 0); ("createdAt", VNum 1690000000000)]%string.

Definition legacy_account : option PaperAccount :=
  Eval vm_compute in match parsePaperAccount legacy_json with Ok a => Some a | Throw _ => None end.

(** A loss of nothing, which an operation may leave, comes back as nothing. *)
Definition negative_zero : PaperAccount :=
  {| acc_quote := "USDT"; acc_balances := [("USDT"%string, 100)]; acc_entries := []; acc_orders := []; acc_trades := [];
     acc_realizedPnl := -0; acc_leverage := None; acc_marginType := None; acc_leverageBySymbol := None; acc_marginTypeBySymbol := None;
     acc_positionMode := None; acc_createdAt := 1690000000000 |}.

Lemma accounts_read_back_witness :
  (exists a, legacy_account = Some a /\ parsePaperAccount (json_copy (account_value a)) = Ok a /\
     map (fun o => option_map fo_charges (ord_feeObservation o)) (acc_orders a) = [Some [{| fc_currency := "USDT"; fc_cost := 0.125 |}]]) /\
  parsePaperAccount (json_copy (account_value negative_zero)) = Ok (unsigned_account negative_zero) /\
  Prim2SF (acc_realizedPnl (unsigned_account negative_zero)) <> Prim2SF (acc_realizedPnl negative_zero) /\
  same_but_fees (unsigned_account negative_zero) (unsigned_account negative_zero).
Proof.
  split; [|split; [|split; [discriminate|]]].
  - eexists. split; [reflexivity|].
    match goal with |- parsePaperAccount (json_copy (account_value ?a)) = Ok ?a /\ _ =>
      assert (parsePaperAccount legacy_json = Ok a) as E by (vm_compute; reflexivity) end.
    destruct (proj2 (accounts_read_back _) _ E) as [R K]. split; [|reflexivity]. rewrite R, K by (vm_compute; reflexivity). reflexivity.
  - apply (proj2 (accounts_read_back negative_zero) (account_value negative_zero)). vm_compute. reflexivity.
  - apply (proj1 (accounts_read_back negative_zero) (unsigned_account negative_zero)). vm_compute. reflexivity.
Defined.
