(* ===== verification/PaperSession.v ===== *)
(** * The state of the paper client (packages/trading-engine/src/paper-client.ts)

    What the client holds between and during operations, the exchange and the clock it
    asks, how it loads its accounts and how an operation is run on freshly read files. *)

From Stdlib Require Import ZArith Lia Bool Ascii Floats.
From stdpp Require Import base strings option list.
From S2P Require Import Prelude JsNumber JsObject JsValue JsFloat JsMath JsText AccountRisk RiskState Execution.
From S2P Require Import ExecutionRecovery PaperAccount PaperPath PaperStore.

Local Open Scope float_scope.

(** ** Configuration and exchange *)

Inductive PaperMarkets := SpotMarkets | FuturesMarkets | BothMarkets.
#[export] Instance PaperMarkets_eq_dec : EqDecision PaperMarkets.
Proof. solve_decision. Defined.

(** The spot account and exchange, or those of the futures. *)
Inductive Book := SpotBook | FuturesBook.
#[export] Instance Book_eq_dec : EqDecision Book.
Proof. solve_decision. Defined.

Record PaperConfig := {
  pc_quote : string;
  pc_feeRate : number;
  pc_markets : PaperMarkets;
  pc_positionMode : PositionMode;
  pc_maintenance : number;
  pc_startQuote : number
}.

(** A raw ticker; [tk_mark] and [tk_index] are what [Number] makes of those properties of
    its [info]. *)
Record CcxtTicker := { tk_last : option number; tk_mark : number; tk_index : number; tk_timestamp : option number }.

Record CcxtMarket := {
  cm_quote : string;
  cm_settle : option string;
  cm_spot : option bool;
  cm_swap : option bool;
  cm_contract : option bool;
  cm_linear : option bool;
  cm_inverse : option bool;
  cm_active : option bool;
  cm_contractSize : option number;
  cm_minAmount : option number;
  cm_maxAmount : option number;
  cm_minCost : option number;
  cm_maxCost : option number
}.

(** The two exchanges and the clock, outside the program: the [n]th call of a session is
    answered with index [n], [None] is a call that throws. The precision functions stand for
    [Number(exchange.amountToPrecision(symbol, amount))] and its price counterpart. *)
Record PaperExchange := {
  px_now : nat -> number;
  px_ticker : nat -> Book -> string -> option CcxtTicker;
  px_ohlcv : nat -> Book -> string -> Timeframe -> number -> number -> option (list OhlcvRow);
  px_markets : nat -> Book -> option (string -> option CcxtMarket);
  px_amount : Book -> string -> number -> option number;
  px_price : Book -> string -> number -> option number
}.

Definition futuresReferencePrice (t : CcxtTicker) : option number :=
  if isFinitePositive (Some (tk_mark t)) then Some (tk_mark t)
  else if isFinitePositive (Some (tk_index t)) then Some (tk_index t)
  else if isFinitePositive (tk_last t) then tk_last t else None.

(** ** Errors *)

Inductive PaperError :=
  | NotAMarket (symbol : string) | MarketDisabled (book : Book) | UnsupportedMarket (symbol : string)
  | ContractSizeUnknown | AmountUnrepresentable | AmountBounds | CostBounds | ExchangeFailed | NoPrice
  | FuturesOnlyParameters | InsufficientFunds (asset : string) | NoReservePrice | FeeRefused (e : AccountError)
  | LimitNeedsPrice | TriggerNeedsStop | TriggerNeedsLimit | WouldTrigger | TrailingPercentRange | ActivationUnsupported
  | UnsupportedType | OcoOnFutures | OcoPriceOrder | BadOcoPrice | OrderNotFound | ReplacementChanged | NoReplacement
  | CloseIsReduceOnly | AmountNotPositive | CloseNeedsPosition | CloseUnsupportedType
  | ReduceExceeds | ReduceNeedsPosition | ReduceIncreases | CannotOpenSide | ExceedsSidePosition
  | HedgeNeedsSide | OneWayNeedsBoth | InsufficientMargin | NoFuturesReservePrice | MarginNotFinite
  | LiquidationNotFinite | CrossEquityNotFinite | InvalidLeverage | InvalidMarginMode | StartQuoteRange
  | ProjectionPrice | ProjectionLots | ProjectionNotOpening | PositionModeMismatch
  | StoreFailed (e : StoreError) | LimitRange | SnapshotPriceMissing (symbol : string) | EvidenceMissing (asset : string)
  | BalanceNotValued (symbol : string) | BalanceNotFinite | NotFuturesSymbol
  | SettleFailed (id : string) (e : PaperError).

(** [error.message === "Insufficient futures margin"] *)
Definition is_margin_error (e : PaperError) : bool := match e with InsufficientMargin => true | _ => false end.

(** [isStaleFuturesWorkingOrderError], by the messages it looks for. *)
Definition isStaleFuturesWorkingOrderError (e : PaperError) : bool :=
  match e with
  | ReduceExceeds | ReduceNeedsPosition | ReduceIncreases | CloseNeedsPosition | ExceedsSidePosition | HedgeNeedsSide
  | CannotOpenSide => true
  | _ => false
  end.

(** ** The session *)

(** What the client object holds, the files, and how often the outside was asked.  An order
    object is known by its id: the ids of open orders are unique in every account the
    client writes. *)
Record Session := {
  ss_spot : PaperAccount;
  ss_futures : PaperAccount;
  ss_nextOrderId : Z;
  ss_leverage : number;
  ss_marginType : MarginType;
  ss_disk : Disk;
  ss_calls : nat
}.

Abbreviation Op := (ST Session PaperError).

Definition fail {A} (e : PaperError) : Op A := lift (Throw e).
Definition check (c : bool) (e : PaperError) : Op unit := lift (throwIf c e).
Definition get : Op Session := fun s => (Ok s, s).
Definition put (f : Session -> Session) : Op unit := fun s => (Ok tt, f s).
Definition gets {A} (f : Session -> A) : Op A := fun s => (Ok (f s), s).

(** [try { m } catch (error) { h(error) }]: what [m] did before it threw stays done. *)
Definition tryCatch {A} (m : Op A) (h : PaperError -> Op A) : Op A :=
  fun s => match m s with (Ok a, s') => (Ok a, s') | (Throw e, s') => h e s' end.

Fixpoint forM {A} (l : list A) (body : A -> Op unit) : Op unit :=
  match l with [] => mret tt | x :: r => _ ← body x; forM r body end.

Definition book_account (b : Book) (s : Session) : PaperAccount :=
  match b with SpotBook => ss_spot s | FuturesBook => ss_futures s end.

Definition on_book (b : Book) (f : PaperAccount -> PaperAccount) (s : Session) : Session :=
  {| ss_spot := match b with SpotBook => f (ss_spot s) | FuturesBook => ss_spot s end;
     ss_futures := match b with SpotBook => ss_futures s | FuturesBook => f (ss_futures s) end;
     ss_nextOrderId := ss_nextOrderId s; ss_leverage := ss_leverage s; ss_marginType := ss_marginType s;
     ss_disk := ss_disk s; ss_calls := ss_calls s |}.
Definition with_next (n : Z) (s : Session) : Session :=
  {| ss_spot := ss_spot s; ss_futures := ss_futures s; ss_nextOrderId := n; ss_leverage := ss_leverage s;
     ss_marginType := ss_marginType s; ss_disk := ss_disk s; ss_calls := ss_calls s |}.
Definition with_disk (d : Disk) (s : Session) : Session :=
  {| ss_spot := ss_spot s; ss_futures := ss_futures s; ss_nextOrderId := ss_nextOrderId s; ss_leverage := ss_leverage s;
     ss_marginType := ss_marginType s; ss_disk := d; ss_calls := ss_calls s |}.
Definition with_settings (leverage : number) (type : MarginType) (s : Session) : Session :=
  {| ss_spot := ss_spot s; ss_futures := ss_futures s; ss_nextOrderId := ss_nextOrderId s; ss_leverage := leverage;
     ss_marginType := type; ss_disk := ss_disk s; ss_calls := ss_calls s |}.
Definition after_calls (n : nat) (s : Session) : Session :=
  {| ss_spot := ss_spot s; ss_futures := ss_futures s; ss_nextOrderId := ss_nextOrderId s; ss_leverage := ss_leverage s;
     ss_marginType := ss_marginType s; ss_disk := ss_disk s; ss_calls := ss_calls s + n |}.

(** *** Assignments to an account *)

Definition with_balances (x : obj number) (a : PaperAccount) : PaperAccount :=
  {| acc_quote := acc_quote a; acc_balances := x; acc_entries := acc_entries a; acc_orders := acc_orders a;
     acc_trades := acc_trades a; acc_realizedPnl := acc_realizedPnl a; acc_leverage := acc_leverage a;
     acc_marginType := acc_marginType a; acc_leverageBySymbol := acc_leverageBySymbol a;
     acc_marginTypeBySymbol := acc_marginTypeBySymbol a; acc_positionMode := acc_positionMode a; acc_createdAt := acc_createdAt a |}.
Definition with_entries (x : obj FuturesEntry) (a : PaperAccount) : PaperAccount :=
  {| acc_quote := acc_quote a; acc_balances := acc_balances a; acc_entries := x; acc_orders := acc_orders a;
     acc_trades := acc_trades a; acc_realizedPnl := acc_realizedPnl a; acc_leverage := acc_leverage a;
     acc_marginType := acc_marginType a; acc_leverageBySymbol := acc_leverageBySymbol a;
     acc_marginTypeBySymbol := acc_marginTypeBySymbol a; acc_positionMode := acc_positionMode a; acc_createdAt := acc_createdAt a |}.
Definition with_orders (x : list PaperOrder) (a : PaperAccount) : PaperAccount :=
  {| acc_quote := acc_quote a; acc_balances := acc_balances a; acc_entries := acc_entries a; acc_orders := x;
     acc_trades := acc_trades a; acc_realizedPnl := acc_realizedPnl a; acc_leverage := acc_leverage a;
     acc_marginType := acc_marginType a; acc_leverageBySymbol := acc_leverageBySymbol a;
     acc_marginTypeBySymbol := acc_marginTypeBySymbol a; acc_positionMode := acc_positionMode a; acc_createdAt := acc_createdAt a |}.
Definition add_trade (x : PaperTrade) (a : PaperAccount) : PaperAccount :=
  {| acc_quote := acc_quote a; acc_balances := acc_balances a; acc_entries := acc_entries a; acc_orders := acc_orders a;
     acc_trades := app (acc_trades a) [x]; acc_realizedPnl := acc_realizedPnl a; acc_leverage := acc_leverage a;
     acc_marginType := acc_marginType a; acc_leverageBySymbol := acc_leverageBySymbol a;
     acc_marginTypeBySymbol := acc_marginTypeBySymbol a; acc_positionMode := acc_positionMode a; acc_createdAt := acc_createdAt a |}.
Definition add_realized (x : number) (a : PaperAccount) : PaperAccount :=
  {| acc_quote := acc_quote a; acc_balances := acc_balances a; acc_entries := acc_entries a; acc_orders := acc_orders a;
     acc_trades := acc_trades a; acc_realizedPnl := acc_realizedPnl a + x; acc_leverage := acc_leverage a;
     acc_marginType := acc_marginType a; acc_leverageBySymbol := acc_leverageBySymbol a;
     acc_marginTypeBySymbol := acc_marginTypeBySymbol a; acc_positionMode := acc_positionMode a; acc_createdAt := acc_createdAt a |}.
Definition with_symbol_settings (leverages : option (obj number)) (types : option (obj MarginType)) (a : PaperAccount) : PaperAccount :=
  {| acc_quote := acc_quote a; acc_balances := acc_balances a; acc_entries := acc_entries a; acc_orders := acc_orders a;
     acc_trades := acc_trades a; acc_realizedPnl := acc_realizedPnl a; acc_leverage := acc_leverage a;
     acc_marginType := acc_marginType a; acc_leverageBySymbol := leverages; acc_marginTypeBySymbol := types;
     acc_positionMode := acc_positionMode a; acc_createdAt := acc_createdAt a |}.
Definition with_positionMode (x : PositionMode) (a : PaperAccount) : PaperAccount :=
  {| acc_quote := acc_quote a; acc_balances := acc_balances a; acc_entries := acc_entries a; acc_orders := acc_orders a;
     acc_trades := acc_trades a; acc_realizedPnl := acc_realizedPnl a; acc_leverage := acc_leverage a;
     acc_marginType := acc_marginType a; acc_leverageBySymbol := acc_leverageBySymbol a;
     acc_marginTypeBySymbol := acc_marginTypeBySymbol a; acc_positionMode := Some x; acc_createdAt := acc_createdAt a |}.

(** [account.balances[asset] ?? 0], and its assignment. *)
Definition balance (asset : string) (a : PaperAccount) : number := default 0 (o_get asset (acc_balances a)).
Definition set_balance (asset : string) (x : number) (a : PaperAccount) : PaperAccount :=
  with_balances (o_set asset x (acc_balances a)) a.

Definition push_order (o : PaperOrder) (a : PaperAccount) : PaperAccount := with_orders (app (acc_orders a) [o]) a.
(** Assignments to the order object of an id. *)
Definition update_order (id : string) (f : PaperOrder -> PaperOrder) (a : PaperAccount) : PaperAccount :=
  with_orders (map (fun o => if String.eqb (ord_id o) id then f o else o) (acc_orders a)) a.
Definition order_by_id (id : string) (a : PaperAccount) : option PaperOrder :=
  find (fun o => String.eqb (ord_id o) id) (acc_orders a).
Definition open_orders (a : PaperAccount) : list PaperOrder := List.filter is_open (acc_orders a).

(** [String(n)] of an order number, its decimal digits. *)
Definition id_text (n : Z) : string := show_digits n.

Section Client.
Context (cfg : PaperConfig) (px : PaperExchange).

Definition quote : string := pc_quote cfg.
Definition futures_quote : string := String.append quote (String.append ":" quote).

Definition isFuturesSymbol (symbol : string) : bool := endsWith (String.append "/" futures_quote) symbol.

(** *** Asking the outside *)

Definition ask {A} (answer : nat -> option A) : Op A :=
  fun s => (match answer (ss_calls s) with Some a => Ok a | None => Throw ExchangeFailed end, after_calls 1 s).
Definition now : Op number := ask (fun n => Some (px_now px n)).
Definition fetchTicker (b : Book) (symbol : string) : Op CcxtTicker := ask (fun n => px_ticker px n b symbol).
(** [loadMarkets()] and then [requireCcxtMarkets(exchange)]. *)
Definition loadMarkets (b : Book) : Op (string -> option CcxtMarket) := ask (fun n => px_markets px n b).

Definition base_of (symbol q : string) : result PaperError string :=
  match baseAsset symbol q with Some asset => Ok asset | None => Throw (NotAMarket symbol) end.

(** [exchangeFor] *)
Definition exchangeFor (symbol : string) : result PaperError Book :=
  let futures := isFuturesSymbol symbol in
  if bool_decide (pc_markets cfg = SpotMarkets) && futures then Throw (MarketDisabled FuturesBook)
  else if bool_decide (pc_markets cfg = FuturesMarkets) && negb futures then Throw (MarketDisabled SpotBook)
  else Ok (if futures then FuturesBook else SpotBook).

Definition accountForSymbol (symbol : string) : result PaperError Book :=
  if isFuturesSymbol symbol then
    if bool_decide (pc_markets cfg = SpotMarkets) then Throw (MarketDisabled FuturesBook)
    else _ ← base_of symbol futures_quote; Ok FuturesBook
  else if bool_decide (pc_markets cfg = FuturesMarkets) then Throw (MarketDisabled SpotBook)
  else _ ← base_of symbol quote; Ok SpotBook.

Definition enabledBooks : list Book :=
  match pc_markets cfg with SpotMarkets => [SpotBook] | FuturesMarkets => [FuturesBook] | BothMarkets => [SpotBook; FuturesBook] end.

(** *** Files *)

Definition persistAccountsUnlocked (spot futures : bool) : Op unit :=
  put (fun s => with_disk (run_steps (persistAccounts spot futures (ss_spot s) (ss_futures s)) (ss_disk s)) s).
Definition persistAll : Op unit := persistAccountsUnlocked true true.

Definition stored {A} (r : result StoreError A) : Op A := lift (mapError StoreFailed r).

Definition recoverTransactionUnlocked : Op unit :=
  s ← get;
  steps ← stored (recoverTransaction quote (ss_disk s));
  put (fun s => with_disk (run_steps steps (ss_disk s)) s).

(** *** Lots and settings of futures *)

(** The lots of an entry; a legacy entry is one lot under the account's own settings. *)
Definition snapshotFuturesLots (s : Session) (e : FuturesEntry) : list FuturesLot :=
  match ent_lots e with
  | Some lots => lots
  | None =>
      if ent_amount e =? 0 then []
      else [{| lot_amount := Math_abs (ent_amount e); lot_price := ent_cost e / Math_abs (ent_amount e);
               lot_leverage := default (default (ss_leverage s) (acc_leverage (ss_futures s))) (ent_leverage e);
               lot_marginType := default (default (ss_marginType s) (acc_marginType (ss_futures s))) (ent_marginType e) |}]
  end.

Definition upgraded_entry (s : Session) (e : FuturesEntry) : FuturesEntry :=
  if (ent_amount e =? 0) || match ent_lots e with Some _ => true | None => false end then e
  else {| ent_amount := ent_amount e; ent_cost := ent_cost e; ent_leverage := ent_leverage e;
          ent_marginType := ent_marginType e; ent_lots := Some (snapshotFuturesLots s e) |}.

(** [applyLoadedFuturesState]: the settings of the loaded futures account, with the given
    ones where it has none. *)
Definition applyLoadedFuturesState (positionMode : PositionMode) (defaultLeverage : number) (defaultMarginType : MarginType) : Op unit :=
  s ← get;
  let a := ss_futures s in
  _ ← check (negb (bool_decide (default OneWay (acc_positionMode a) = positionMode))
             && (existsb (fun e => negb (ent_amount e =? 0)) (o_values (acc_entries a)) || existsb is_open (acc_orders a)))
        PositionModeMismatch;
  _ ← put (with_settings (default defaultLeverage (acc_leverage a)) (default defaultMarginType (acc_marginType a)));
  _ ← put (on_book FuturesBook (with_positionMode positionMode));
  put (fun s => on_book FuturesBook (fun a =>
    with_entries (map (fun p => (fst p, upgraded_entry s (snd p))) (acc_entries a)) a) s).

Definition reset_next : Op unit := put (fun s => with_next (maxPersistedOrderId [ss_spot s; ss_futures s]) s).

Definition fresh_futures : Op unit :=
  s ← get; t ← now;
  _ ← put (on_book FuturesBook (fun _ => freshFuturesAccount quote (pc_startQuote cfg) (ss_leverage s) (ss_marginType s)
        (pc_positionMode cfg) t));
  applyLoadedFuturesState (pc_positionMode cfg) (ss_leverage s) (ss_marginType s).

(** [reloadAccountsUnlocked]: a file of another quote is as good as none. *)
Definition reloadAccountsUnlocked : Op unit :=
  _ ← recoverTransactionUnlocked;
  s ← get;
  account ← match ss_disk s SpotFile with
            | None => fail (StoreFailed SpotStateMissing)
            | Some v => stored (readAccount v)
            end;
  if negb (String.eqb (acc_quote account) quote) then
    t ← now;
    _ ← put (on_book SpotBook (fun a => freshSpotAccount quote (balance quote a) t));
    reset_next
  else
    futures ← match ss_disk s FuturesFile with
              | None => mret None
              | Some v => f ← stored (readAccount v);
                          mret (if String.eqb (acc_quote f) quote then Some f else None)
              end;
    match futures with
    | None =>
        _ ← (if negb (bool_decide (pc_markets cfg = SpotMarkets)) then fresh_futures else mret tt);
        _ ← put (on_book SpotBook (fun _ => account));
        reset_next
    | Some f =>
        _ ← put (on_book SpotBook (fun _ => account));
        _ ← put (on_book FuturesBook (fun _ => f));
        _ ← applyLoadedFuturesState (pc_positionMode cfg) (ss_leverage s) (ss_marginType s);
        reset_next
    end.

(** The checks of the constructor's arguments. *)
Definition quote_ok (q : string) : bool := negb (String.eqb q "") && all_chars isCurrencyChar q.
Definition in_unit (x : number) : bool := isFinite x && negb (x <=? 0) && negb (1 <=? x).
Definition constructor_accepts (id : string) (leverage : number) : bool :=
  negb (String.eqb id "") && quote_ok quote
  && isFinite (pc_startQuote cfg) && negb (pc_startQuote cfg <? 0)
  && isFinite (pc_feeRate cfg) && negb (pc_feeRate cfg <? 0) && negb (1 <=? pc_feeRate cfg)
  && leverage_ok leverage && in_unit (pc_maintenance cfg).

(** The constructor, once its arguments are accepted: a file of another quote is left alone,
    an absent one is created, both at once as one transaction. *)
Definition openAccounts (leverage : number) (type : MarginType) : Op unit :=
  _ ← put (with_settings leverage type);
  _ ← recoverTransactionUnlocked;
  s ← get;
  storedAccount ← match ss_disk s SpotFile with
                  | None => mret None
                  | Some v => a ← stored (readAccount v); mret (Some a)
                  end;
  account ← match storedAccount with
            | Some a => if String.eqb (acc_quote a) quote then mret a
                        else t ← now; mret (freshSpotAccount quote (pc_startQuote cfg) t)
            | None => t ← now; mret (freshSpotAccount quote (pc_startQuote cfg) t)
            end;
  _ ← put (on_book SpotBook (fun _ => account));
  storedFutures ← match ss_disk s FuturesFile with
                  | None => mret None
                  | Some v => a ← stored (readAccount v); mret (Some a)
                  end;
  futures ← match storedFutures with
            | Some a => if String.eqb (acc_quote a) quote then mret a
                        else t ← now; mret (freshFuturesAccount quote (pc_startQuote cfg) leverage type (pc_positionMode cfg) t)
            | None => t ← now; mret (freshFuturesAccount quote (pc_startQuote cfg) leverage type (pc_positionMode cfg) t)
            end;
  _ ← put (on_book FuturesBook (fun _ => futures));
  _ ← applyLoadedFuturesState (pc_positionMode cfg) leverage type;
  _ ← reset_next;
  let missing (o : option PaperAccount) := match o with None => true | Some _ => false end in
  let trades_futures := negb (bool_decide (pc_markets cfg = SpotMarkets)) in
  if missing storedAccount then
    if missing storedFutures && trades_futures then persistAll else persistAccountsUnlocked true false
  else if missing storedFutures && trades_futures then persistAccountsUnlocked false true
  else mret tt.

(** [runAccountOperation]: operations run one at a time, each on freshly read accounts. *)
Definition runAccountOperation {A} (operation : Op A) : Op A := _ ← reloadAccountsUnlocked; operation.
End Client.
