(* ===== verification/PaperLedger.v ===== *)
(** * The spot ledger of the paper client (packages/trading-engine/src/paper-client.ts)

    Reservations, fills and the prices of resting orders, and the checks of an order against
    its market (also packages/trading-engine/src/contract-size.ts). *)

From Stdlib Require Import ZArith Lia Bool Ascii Floats.
From stdpp Require Import base strings option list.
From S2P Require Import Prelude JsNumber JsObject JsValue JsFloat JsMath JsText AccountRisk RiskState Execution.
From S2P Require Import Capabilities ExecutionRecovery PaperAccount PaperPath PaperStore PaperSession.

#[local] Set Warnings "-inexact-float".

Local Open Scope float_scope.

(** ** Amounts of contracts *)

Definition futuresAmountsEqual (left right : number) : bool :=
  isFinite left && isFinite right
  && (Math_abs (left - right) <=? EPSILON * 8 * Math_max (Math_abs left) (Math_abs right)).

Definition is_true_opt (b : option bool) : bool := bool_decide (b = Some true).

Definition contractSizeForMarket (market : option CcxtMarket) : result PaperError number :=
  match market with
  | None => Throw ContractSizeUnknown
  | Some m =>
      if negb (truthy (cm_contract m)) then Ok 1
      else if negb (is_true_opt (cm_linear m)) || is_true_opt (cm_inverse m) then Throw ContractSizeUnknown
      else match cm_contractSize m with
      | Some size => if isFinite size && negb (size <=? 0) then Ok size else Throw ContractSizeUnknown
      | None => Throw ContractSizeUnknown
      end
  end.

(** ** Reservations *)

(** The group of an order, when it has a non-empty one. *)
Definition oco_group (o : PaperOrder) : option string :=
  match ord_ocoGroup o with Some g => if String.eqb g "" then None else Some g | None => None end.

Definition unit_price (o : PaperOrder) : option number :=
  match ord_reservePrice o with Some p => Some p | None => ord_price o end.

Definition remaining (o : PaperOrder) : number := ord_amount o - ord_filled o.

Section Ledger.
Context (cfg : PaperConfig) (px : PaperExchange).

Definition buy_cost (amount unitPrice : number) : number := amount * unitPrice * (1 + pc_feeRate cfg).

(** What an open order holds of an asset. *)
Definition held_by (asset : string) (o : PaperOrder) (used : number) : result PaperError number :=
  match ord_side o, unit_price o with
  | Buy, Some price => Ok (if String.eqb asset (quote cfg) then used + buy_cost (remaining o) price else used)
  | Buy, None => Ok used
  | Sell, _ =>
      base ← base_of (ord_symbol o) (quote cfg);
      Ok (if String.eqb base asset then used + remaining o else used)
  end.

(** The legs of a group share one reservation: the first of them counts. *)
Fixpoint reserved_in (asset : string) (orders : list PaperOrder) (seenGroups : list string) (used : number) :
    result PaperError number :=
  match orders with
  | [] => Ok used
  | o :: rest =>
      if negb (is_open o) then reserved_in asset rest seenGroups used
      else match oco_group o with
      | Some g =>
          if str_in seenGroups g then reserved_in asset rest seenGroups used
          else used ← held_by asset o used; reserved_in asset rest (g :: seenGroups) used
      | None => used ← held_by asset o used; reserved_in asset rest seenGroups used
      end
  end.
Definition reservedAmount (asset : string) (a : PaperAccount) : result PaperError number :=
  reserved_in asset (acc_orders a) [] 0.

Definition set_spot (asset : string) (x : number) : Op unit := put (on_book SpotBook (set_balance asset x)).
Definition free_spot (asset : string) : Op number := gets (fun s => balance asset (ss_spot s)).

Definition reserve (side : OrderSide) (symbol : string) (amount unitPrice : number) : Op unit :=
  match side with
  | Buy =>
      _ ← check (unitPrice <=? 0) NoReservePrice;
      let cost := buy_cost amount unitPrice in
      free ← free_spot (quote cfg);
      _ ← check (free <? cost) (InsufficientFunds (quote cfg));
      set_spot (quote cfg) (free - cost)
  | Sell =>
      asset ← lift (base_of symbol (quote cfg));
      free ← free_spot asset;
      _ ← check (free <? amount) (InsufficientFunds asset);
      set_spot asset (free - amount)
  end.

Definition credit (asset : string) (amount : number) : Op unit :=
  put (on_book SpotBook (fun a => set_balance asset (balance asset a + amount) a)).

(** The order of the book [b] gives back what it reserved. *)
Definition releaseReservation (b : Book) (o : PaperOrder) : Op unit :=
  if isFuturesSymbol cfg (ord_symbol o) then
    _ ← (if 0 <? ord_margin o
         then put (on_book FuturesBook (fun a => set_balance (quote cfg) (balance (quote cfg) a + ord_margin o) a))
         else mret tt);
    put (on_book b (update_order (ord_id o) (set_margin 0)))
  else match ord_side o with
  | Buy =>
      match unit_price o with
      | None => mret tt
      | Some price => credit (quote cfg) (buy_cost (remaining o) price)
      end
  | Sell => asset ← lift (base_of (ord_symbol o) (quote cfg)); credit asset (remaining o)
  end.

(** ** Fills *)

Definition set_entry (key : string) (e : FuturesEntry) (a : PaperAccount) : PaperAccount :=
  with_entries (o_set key e (acc_entries a)) a.
Definition delete_entry (key : string) (a : PaperAccount) : PaperAccount := with_entries (o_delete key (acc_entries a)) a.
Definition set_amounts (amount cost : number) (e : FuturesEntry) : FuturesEntry :=
  {| ent_amount := amount; ent_cost := cost; ent_leverage := ent_leverage e; ent_marginType := ent_marginType e;
     ent_lots := ent_lots e |}.
Definition no_entry : FuturesEntry :=
  {| ent_amount := 0; ent_cost := 0; ent_leverage := None; ent_marginType := None; ent_lots := None |}.

(** The cost basis after a purchase. *)
Definition bought (asset : string) (amount totalCost : number) (a : PaperAccount) : PaperAccount :=
  let e := default no_entry (o_get asset (acc_entries a)) in
  set_entry asset (set_amounts (ent_amount e + amount) (ent_cost e + totalCost) e) a.

(** The cost basis after a sale, and the profit it realized. *)
Definition sold (asset : string) (amount price fee : number) (a : PaperAccount) : PaperAccount * option number :=
  match o_get asset (acc_entries a) with
  | Some e =>
      if 0 <? ent_amount e then
        let entryPrice := ent_cost e / ent_amount e in
        let closing := Math_min amount (ent_amount e) in
        let realizedPnl := (price - entryPrice) * closing - fee in
        let e' := set_amounts (ent_amount e - closing) (ent_cost e - entryPrice * closing) e in
        let a := add_realized realizedPnl a in
        (if ent_amount e' <=? 0x1.19799812dea11p-40 then delete_entry asset a else set_entry asset e' a, Some realizedPnl)
      else (a, None)
  | None => (a, None)
  end.

Definition feeObservation (fee : number) (previous : option PaperOrder) : result PaperError OrderFeeObservation :=
  mapError FeeRefused (paperOrderFeeObservation (quote cfg) fee previous).

Definition filled_state (amount average cost : number) (fee : OrderFeeObservation) : OrderState :=
  {| st_trailingExtreme := None; st_triggered := None; st_reservePrice := None; st_reservedMargin := None;
     st_lastCheckedAt := None; st_amount := amount; st_filled := amount; st_average := Some average; st_cost := cost;
     st_feeObservation := Some fee; st_status := PaperClosed |}.

Record Fill := { fill_order : PaperOrder; fill_fee : number }.

Definition executeFill (symbol : string) (side : OrderSide) (amount price : number) (clientOrderId : option string)
    (persist : bool) : Op Fill :=
  asset ← lift (base_of symbol (quote cfg));
  let notional := amount * price in
  let fee := notional * pc_feeRate cfg in
  realizedPnl ← match side with
    | Buy =>
        let totalCost := notional + fee in
        free ← free_spot (quote cfg);
        _ ← check (free <? totalCost) (InsufficientFunds (quote cfg));
        _ ← set_spot (quote cfg) (free - totalCost);
        _ ← credit asset amount;
        _ ← put (on_book SpotBook (bought asset amount totalCost));
        mret None
    | Sell =>
        free ← free_spot asset;
        _ ← check (free <? amount) (InsufficientFunds asset);
        _ ← set_spot asset (free - amount);
        _ ← credit (quote cfg) (notional - fee);
        s ← get;
        _ ← put (on_book SpotBook (fun a => fst (sold asset amount price fee a)));
        mret (snd (sold asset amount price fee (ss_spot s)))
    end;
  n ← gets ss_nextOrderId;
  _ ← put (with_next (n + 1));
  observation ← lift (feeObservation fee None);
  timestamp ← now px;
  let order :=
    {| ord_id := id_text n; ord_symbol := symbol; ord_side := side; ord_type := Market; ord_price := None;
       ord_stopPrice := None; ord_trailingPercent := None; ord_ocoGroup := None; ord_clientOrderId := clientOrderId;
       ord_listClientOrderId := None; ord_positionSide := None; ord_reduceOnly := None; ord_closePosition := None;
       ord_timestamp := timestamp; ord_state := filled_state amount price notional observation |} in
  let trade :=
    {| trd_id := id_text n; trd_symbol := symbol; trd_side := side; trd_price := price; trd_amount := amount;
       trd_cost := notional; trd_fee := fee; trd_realizedPnl := realizedPnl; trd_positionSide := None;
       trd_timestamp := timestamp |} in
  _ ← put (on_book SpotBook (fun a => add_trade trade (push_order order a)));
  _ ← (if persist then persistAccountsUnlocked true false else mret tt);
  mret {| fill_order := order; fill_fee := fee |}.

(** ** Resting orders *)

(** The prices [configureRestingOrder] gives an order. *)
Record RestingPrices := {
  rs_price : option number;
  rs_stopPrice : option number;
  rs_trailingPercent : option number;
  rs_trailingExtreme : option number;
  rs_reservePrice : option number
}.

Definition positive_price (o : option number) : bool := match o with Some p => negb (p <=? 0) | None => false end.

Definition configureRestingOrder (input : PlaceOrderInput) (last : option number) : result PaperError RestingPrices :=
  match in_type input with
  | Limit =>
      if positive_price (in_price input)
      then Ok {| rs_price := in_price input; rs_stopPrice := None; rs_trailingPercent := None; rs_trailingExtreme := None;
                 rs_reservePrice := in_price input |}
      else Throw LimitNeedsPrice
  | type =>
      match last with
      | None => Throw NoPrice
      | Some price =>
          if negb (isFinitePositive last) then Throw NoPrice
          else if isTriggerType type then
            match in_stopPrice input with
            | None => Throw TriggerNeedsStop
            | Some stop =>
                let isLimit := bool_decide (type ∈ [Stop; TakeProfit]) in
                if stop <=? 0 then Throw TriggerNeedsStop
                else if isLimit && negb (positive_price (in_price input)) then Throw TriggerNeedsLimit
                else if triggerFires type (in_side input) price stop then Throw WouldTrigger
                else Ok {| rs_price := if isLimit then in_price input else None; rs_stopPrice := Some stop;
                           rs_trailingPercent := None; rs_trailingExtreme := None;
                           rs_reservePrice := if isLimit then in_price input else Some stop |}
            end
          else if bool_decide (type = TrailingStopMarket) then
            match in_trailingPercent input with
            | None => Throw TrailingPercentRange
            | Some percent =>
                if negb (isFinite percent) || (percent <=? 0) || (100 <=? percent) then Throw TrailingPercentRange
                else match in_stopPrice input with
                | Some _ => Throw ActivationUnsupported
                | None =>
                    Ok {| rs_price := None; rs_stopPrice := None; rs_trailingPercent := Some percent;
                          rs_trailingExtreme := Some price;
                          rs_reservePrice := Some (trailingStopLevel (in_side input) price percent) |}
                end
            end
          else Throw UnsupportedType
      end
  end.

(** ** An order against its market *)

Definition supported_spot (m : CcxtMarket) : bool :=
  String.eqb (cm_quote m) (quote cfg) && is_true_opt (cm_spot m) && negb (is_true_opt (cm_swap m))
  && negb (bool_decide (cm_active m = Some false)).
Definition supported_futures (m : CcxtMarket) : bool :=
  String.eqb (cm_quote m) (quote cfg) && bool_decide (cm_settle m = Some (quote cfg)) && is_true_opt (cm_swap m)
  && is_true_opt (cm_contract m) && is_true_opt (cm_active m).
Definition linear_market (m : CcxtMarket) : bool := is_true_opt (cm_linear m) && negb (is_true_opt (cm_inverse m)).

Definition precise {A} (o : option A) : result PaperError A := match o with Some a => Ok a | None => Throw ExchangeFailed end.
Definition positive_amount (n : number) : bool := isFinite n && negb (n <=? 0).

(** The number of contracts of an amount in base units, and the amount they are. *)
Definition baseAmountToContracts (symbol : string) (amount : number) (m : CcxtMarket) : result PaperError (number * number) :=
  contractSize ← contractSizeForMarket (Some m);
  if negb (truthy (cm_contract m)) then Ok (amount, amount)
  else
    let contracts := amount / contractSize in
    _ ← throwIf (negb (positive_amount contracts)) AmountUnrepresentable;
    preciseContracts ← precise (px_amount px FuturesBook symbol contracts);
    _ ← throwIf (negb (positive_amount preciseContracts)) AmountUnrepresentable;
    let baseAmount := preciseContracts * contractSize in
    let tolerance := Math_max 0x1.19799812dea11p-40 (Math_abs amount * 0x1.12e0be826d695p-30) in
    _ ← throwIf (tolerance <? Math_abs (baseAmount - amount)) AmountUnrepresentable;
    Ok (preciseContracts, baseAmount).

Definition below (n : number) (bound : option number) : bool := match bound with Some b => n <? b | None => false end.
Definition above (n : number) (bound : option number) : bool := match bound with Some b => b <? n | None => false end.

Definition with_prices (input : PlaceOrderInput) (amount : number) (price stopPrice : option number) : PlaceOrderInput :=
  {| in_symbol := in_symbol input; in_side := in_side input; in_type := in_type input; in_amount := amount;
     in_price := price; in_reduceOnly := in_reduceOnly input; in_positionSide := in_positionSide input;
     in_stopPrice := stopPrice; in_trailingPercent := in_trailingPercent input;
     in_closePosition := in_closePosition input; in_clientOrderId := in_clientOrderId input |}.

Definition precise_price (b : Book) (symbol : string) (p : option number) : result PaperError (option number) :=
  match p with None => Ok None | Some p => r ← precise (px_price px b symbol p); Ok (Some r) end.

Definition normalizeOrderInput (input : PlaceOrderInput) (ticker : option CcxtTicker) : Op PlaceOrderInput :=
  let symbol := in_symbol input in
  b ← lift (exchangeFor cfg symbol);
  _ ← check (negb (positive_amount (in_amount input))) AmountNotPositive;
  markets ← loadMarkets px b;
  let futures := isFuturesSymbol cfg symbol in
  m ← lift (match markets symbol with
            | Some m => if if futures then supported_futures m else supported_spot m then Ok m else Throw (UnsupportedMarket symbol)
            | None => Throw (UnsupportedMarket symbol)
            end);
  _ ← check (futures && negb (linear_market m)) (UnsupportedMarket symbol);
  converted ← lift (if futures then baseAmountToContracts symbol (in_amount input) m
                    else n ← precise (px_amount px b symbol (in_amount input)); Ok (n, n));
  let (exchangeAmount, amount) := (converted : number * number) in
  _ ← check (negb (positive_amount amount) || negb (positive_amount exchangeAmount)) AmountUnrepresentable;
  price ← lift (precise_price b symbol (in_price input));
  stopPrice ← lift (precise_price b symbol (in_stopPrice input));
  _ ← check (below exchangeAmount (cm_minAmount m) || above exchangeAmount (cm_maxAmount m)) AmountBounds;
  ticker ← match ticker with Some t => mret t | None => fetchTicker px b symbol end;
  let reference := match price, stopPrice with Some p, _ => Some p | None, Some p => Some p | None, None => tk_last ticker end in
  reference ← lift (match reference with
    | Some p => if isFinite p && negb (p <=? 0) then Ok p else Throw NoPrice
    | None => Throw NoPrice
    end);
  let cost := amount * reference in
  _ ← check (below cost (cm_minCost m) || above cost (cm_maxCost m)) CostBounds;
  mret (with_prices input amount price stopPrice).
End Ledger.
