(* ===== verification/PaperFutures.v ===== *)
(** * The futures ledger of the paper client (packages/trading-engine/src/paper-client.ts)

    What an order may do to a position, the margin it reserves, its fill lot by lot, and
    the liquidation of lots whose collateral no longer covers their maintenance. *)

From Stdlib Require Import ZArith Lia Bool Ascii Floats.
From stdpp Require Import base strings option list.
From S2P Require Import Prelude JsNumber JsObject JsValue JsFloat JsMath JsText AccountRisk RiskState Execution.
From S2P Require Import Capabilities ExecutionRecovery PaperAccount PaperPath PaperStore PaperSession PaperLedger.

Local Open Scope float_scope.

Definition Math_sign (x : number) : number := if 0 <? x then 1 else if x <? 0 then -1 else x.

Definition margin_of (l : FuturesLot) : number := lot_amount l * lot_price l / lot_leverage l.
Definition lot_cost (l : FuturesLot) : number := lot_amount l * lot_price l.
Definition resized (amount : number) (l : FuturesLot) : FuturesLot :=
  {| lot_amount := amount; lot_price := lot_price l; lot_leverage := lot_leverage l; lot_marginType := lot_marginType l |}.

(** The settings all the lots agree on, if they do. *)
Definition uniformFuturesLotSettings (lots : list FuturesLot) : option (number * MarginType) :=
  match lots with
  | [] => None
  | first :: _ =>
      if forallb (fun l => lot_leverage l =? lot_leverage first) lots
         && forallb (fun l => bool_decide (lot_marginType l = lot_marginType first)) lots
      then Some (lot_leverage first, lot_marginType first) else None
  end.

(** The entry of a position in the direction [sign] with these lots. *)
Definition entry_of_lots (sign : number) (lots : list FuturesLot) : FuturesEntry :=
  {| ent_amount := sign * lots_amount lots; ent_cost := lots_cost lots;
     ent_leverage := option_map fst (uniformFuturesLotSettings lots);
     ent_marginType := option_map snd (uniformFuturesLotSettings lots); ent_lots := Some lots |}.

(** Whether a side reduces a signed position. *)
Definition reduces (side : OrderSide) (signed : number) : bool :=
  match side with Buy => signed <? 0 | Sell => 0 <? signed end.

Record Prepared := {
  pr_positionSide : PositionSide;
  pr_entryKey : string;
  pr_current : FuturesEntry;
  pr_currentQty : number;
  pr_currentLots : list FuturesLot;
  pr_leverage : number;
  pr_marginType : MarginType;
  pr_requested : number;
  pr_reducing : bool
}.

Definition pr_closing (p : Prepared) : number := if pr_reducing p then Math_min (pr_currentQty p) (pr_requested p) else 0.
Definition pr_opening (p : Prepared) : number := pr_requested p - pr_closing p.

(** The input [prepareFuturesFill] and [executeFuturesFill] are given for a working order. *)
Definition order_input (o : PaperOrder) (clientOrderId : option string) : PlaceOrderInput :=
  {| in_symbol := ord_symbol o; in_side := ord_side o; in_type := Market; in_amount := remaining o; in_price := None;
     in_reduceOnly := ord_reduceOnly o; in_positionSide := ord_positionSide o; in_stopPrice := None;
     in_trailingPercent := None; in_closePosition := ord_closePosition o; in_clientOrderId := clientOrderId |}.

Definition reduce_only (o : PaperOrder) : bool := truthy (ord_reduceOnly o) || truthy (ord_closePosition o).

(** The prices known to a pass: [Some None] is a price that could not be read. *)
Abbreviation Prices := (obj (option number)).

Section Futures.
Context (cfg : PaperConfig) (px : PaperExchange).

Definition hedged : bool := bool_decide (pc_positionMode cfg = Hedge).

Definition resolveFuturesPositionSide (side : option PositionSide) : result PaperError PositionSide :=
  if hedged then
    match side with Some LongSide => Ok LongSide | Some ShortSide => Ok ShortSide | _ => Throw HedgeNeedsSide end
  else match side with None | Some BothSides => Ok BothSides | _ => Throw OneWayNeedsBoth end.

Definition futuresEntryKey (asset : string) (side : PositionSide) : string :=
  if hedged then String.append asset (String.append ":" (position_side_name side)) else asset.

Definition futuresSettings (symbol : string) (s : Session) : number * MarginType :=
  let a := ss_futures s in
  (default (default (ss_leverage s) (acc_leverage a)) (m ← acc_leverageBySymbol a; o_get symbol m),
   default (default (ss_marginType s) (acc_marginType a)) (m ← acc_marginTypeBySymbol a; o_get symbol m)).

Definition order_key (o : PaperOrder) : result PaperError string :=
  asset ← base_of (ord_symbol o) (futures_quote cfg);
  Ok (futuresEntryKey asset (default BothSides (ord_positionSide o))).

(** What an open order locks of the position of an entry. *)
Definition locked_by (entryKey : string) (liveQty signed : number) (exclude : option string) (locked : number) (o : PaperOrder) :
    result PaperError number :=
  if negb (is_open o) || bool_decide (Some (ord_id o) = exclude) then Ok locked
  else
    key ← order_key o;
    if negb (String.eqb key entryKey) then Ok locked
    else
      let reducing := negb (signed =? 0) && reduces (ord_side o) signed in
      if negb (reduce_only o) && negb (hedged && reducing) then Ok locked
      else Ok (locked + if truthy (ord_closePosition o) then liveQty else remaining o).

Definition futuresLockedAmount (entryKey : string) (exclude : option string) (a : PaperAccount) : result PaperError number :=
  let signed := match o_get entryKey (acc_entries a) with Some e => ent_amount e | None => 0 end in
  foldM (locked_by entryKey (Math_abs signed) signed exclude) 0 (acc_orders a).

(** The amount a fill would have: all of the position for a close, and clamped to the
    position, or to what other orders leave of it, when it differs by rounding only. *)
Definition requested_amount (input : PlaceOrderInput) (currentQty unlocked : number) (reducing : bool) : number :=
  let requested := if truthy (in_closePosition input) then currentQty else in_amount input in
  let requested := if reducing && futuresAmountsEqual requested currentQty then currentQty else requested in
  if (truthy (in_reduceOnly input) || truthy (in_closePosition input)) && futuresAmountsEqual requested unlocked
  then unlocked else requested.

Definition exceeds (requested bound : number) : bool := (bound <? requested) && negb (futuresAmountsEqual requested bound).

Definition prepareFuturesFill (input : PlaceOrderInput) (exclude : option string) (s : Session) : result PaperError Prepared :=
  let closes := truthy (in_closePosition input) in
  let a := ss_futures s in
  _ ← throwIf (closes && bool_decide (in_reduceOnly input = Some false)) CloseIsReduceOnly;
  _ ← throwIf (negb closes && negb (positive_amount (in_amount input))) AmountNotPositive;
  positionSide ← resolveFuturesPositionSide (in_positionSide input);
  asset ← base_of (in_symbol input) (futures_quote cfg);
  let entryKey := futuresEntryKey asset positionSide in
  let current := default no_entry (o_get entryKey (acc_entries a)) in
  let currentQty := Math_abs (ent_amount current) in
  let currentLots := snapshotFuturesLots s current in
  let settings := futuresSettings (in_symbol input) s in
  locked ← futuresLockedAmount entryKey exclude a;
  let unlocked := Math_max 0 (currentQty - locked) in
  let reducing := (0 <? currentQty) && reduces (in_side input) (ent_amount current) in
  let requested := requested_amount input currentQty unlocked reducing in
  _ ← throwIf (closes && (negb reducing || (currentQty =? 0))) CloseNeedsPosition;
  _ ← throwIf (closes && (0 <? locked) && negb (futuresAmountsEqual locked 0)) ReduceExceeds;
  _ ← (if truthy (in_reduceOnly input) then
         _ ← throwIf (currentQty =? 0) ReduceNeedsPosition;
         _ ← throwIf (negb reducing) ReduceIncreases;
         throwIf (exceeds requested unlocked) ReduceExceeds
       else Ok tt);
  _ ← (if hedged then
         let openingSide := if bool_decide (positionSide = LongSide) then Buy else Sell in
         _ ← throwIf ((currentQty =? 0) && negb (bool_decide (in_side input = openingSide))) CannotOpenSide;
         throwIf (reducing && (exceeds requested unlocked || exceeds requested currentQty)) ExceedsSidePosition
       else Ok tt);
  Ok {| pr_positionSide := positionSide; pr_entryKey := entryKey; pr_current := current; pr_currentQty := currentQty;
        pr_currentLots := currentLots; pr_leverage := fst settings; pr_marginType := snd settings;
        pr_requested := requested; pr_reducing := reducing |}.

(** ** Margin *)

Definition futures_free (s : Session) : number := balance (quote cfg) (ss_futures s).
Definition set_futures_free (x : number) : Op unit := put (on_book FuturesBook (set_balance (quote cfg) x)).

(** The margin of an order becomes [next]; the order is returned with it. *)
Definition applyFuturesReservation (o : PaperOrder) (next : number) : Op PaperOrder :=
  let delta := next - ord_margin o in
  _ ← (if negb (delta =? 0) then
         free ← gets futures_free;
         _ ← check ((0 <? delta) && (free <? delta)) InsufficientMargin;
         set_futures_free (free - delta)
       else mret tt);
  mret (set_margin next o).

Definition reserveFuturesOrder (o : PaperOrder) : Op PaperOrder :=
  if reduce_only o then applyFuturesReservation o 0
  else match ord_reservePrice o with
  | None => fail NoFuturesReservePrice
  | Some unitPrice =>
      if negb (isFinitePositive (Some unitPrice)) then fail NoFuturesReservePrice
      else if remaining o <=? 0 then applyFuturesReservation o 0
      else
        s ← get;
        prepared ← lift (prepareFuturesFill (order_input o None) (Some (ord_id o)) s);
        let leverage := fst (futuresSettings (ord_symbol o) s) in
        let reservedMargin := pr_opening prepared * unitPrice / leverage + remaining o * unitPrice * pc_feeRate cfg in
        _ ← check (negb (isFinite reservedMargin) || (reservedMargin <? 0)) MarginNotFinite;
        applyFuturesReservation o reservedMargin
  end.

Definition store_order (o : PaperOrder) : Op unit := put (on_book FuturesBook (update_order (ord_id o) (fun _ => o))).

(** The price an opening order must be margined for. *)
Definition next_reserve_price (o : PaperOrder) (fillPrice : option number) : option number :=
  if isFinitePositive fillPrice then fillPrice
  else match ord_trailingPercent o, st_trailingExtreme (ord_state o) with
  | Some percent, Some extreme =>
      if bool_decide (ord_type o = TrailingStopMarket) && isFinitePositive (Some extreme)
      then Some (trailingStopLevel (ord_side o) extreme percent) else ord_reservePrice o
  | _, _ => ord_reservePrice o
  end.

(** Whether the opening order is margined; when it cannot be it keeps what it had. *)
Definition syncFuturesOpeningReserve (o : PaperOrder) (fillPrice : option number) : Op bool :=
  if reduce_only o then mret true
  else
    let nextPrice := next_reserve_price o fillPrice in
    if negb (isFinitePositive nextPrice) then mret true
    else tryCatch (o' ← reserveFuturesOrder (set_reservePrice nextPrice o); _ ← store_order o'; mret true)
           (fun e => if is_margin_error e then mret false else fail e).

Definition futuresReservedMargin (a : PaperAccount) : number :=
  fold_left (fun sum o => if is_open o then sum + ord_margin o else sum) (acc_orders a) 0.

Definition cancel_order (b : Book) (o : PaperOrder) : Op unit :=
  _ ← put (on_book b (update_order (ord_id o) (set_status PaperCanceled)));
  releaseReservation cfg b o.

(** An order object of the futures account, by its id. *)
Definition futures_order (id : string) : Op (option PaperOrder) := gets (fun s => order_by_id id (ss_futures s)).

(** Whether a reduce-only order still fits the position it reduces. *)
Definition fits_position (o : PaperOrder) (e : option FuturesEntry) : bool :=
  match e with
  | None => false
  | Some e =>
      reduces (ord_side o) (ent_amount e)
      && (truthy (ord_closePosition o) || (remaining o <=? Math_abs (ent_amount e))
          || futuresAmountsEqual (remaining o) (Math_abs (ent_amount e)))
  end.

(** [for (const order of orders)] over the futures orders, with an accumulated flag. *)
Fixpoint each_order (ids : list string) (dirty : bool) (body : PaperOrder -> Op bool) : Op bool :=
  match ids with
  | [] => mret dirty
  | id :: rest =>
      o ← futures_order id;
      d ← match o with Some o => body o | None => mret false end;
      each_order rest (dirty || d) body
  end.
Definition order_ids (a : PaperAccount) : list string := map ord_id (acc_orders a).

Definition cancelOrphanedFuturesReduceOrders : Op bool :=
  ids ← gets (fun s => order_ids (ss_futures s));
  each_order ids false (fun o =>
    if negb (is_open o) || negb (reduce_only o) then mret false
    else
      key ← lift (order_key o);
      e ← gets (fun s => o_get key (acc_entries (ss_futures s)));
      if fits_position o e then mret false else _ ← cancel_order FuturesBook o; mret true).

Definition refreshFuturesOpeningReserves : Op unit :=
  ids ← gets (fun s => order_ids (ss_futures s));
  _ ← each_order ids false (fun o =>
    if negb (is_open o) then mret false
    else tryCatch (syncFuturesOpeningReserve o None)
           (fun e => if isStaleFuturesWorkingOrderError e then _ ← cancel_order FuturesBook o; mret false else fail e));
  mret tt.

(** ** Fills *)

(** Closing lots, oldest first: what remains to close, the margin released, the profit and
    the lots that remain. *)
Record Closing := { cl_toClose : number; cl_margin : number; cl_pnl : number; cl_lots : list FuturesLot }.

Definition close_lot (p : Prepared) (price : number) (c : Closing) (l : FuturesLot) : Closing :=
  let closedFromLot :=
    if (pr_closing p =? pr_currentQty p) || futuresAmountsEqual (lot_amount l) (cl_toClose c) then lot_amount l
    else Math_min (lot_amount l) (cl_toClose c) in
  let kept := if closedFromLot <? lot_amount l then app (cl_lots c) [resized (lot_amount l - closedFromLot) l] else cl_lots c in
  if 0 <? closedFromLot then
    {| cl_toClose := Math_max 0 (cl_toClose c - closedFromLot);
       cl_margin := cl_margin c + closedFromLot * lot_price l / lot_leverage l;
       cl_pnl := cl_pnl c + closedFromLot * (price - lot_price l) * Math_sign (ent_amount (pr_current p));
       cl_lots := kept |}
  else {| cl_toClose := cl_toClose c; cl_margin := cl_margin c; cl_pnl := cl_pnl c; cl_lots := kept |}.

Definition close_lots (p : Prepared) (price : number) : Closing :=
  fold_left (close_lot p price) (pr_currentLots p) {| cl_toClose := pr_closing p; cl_margin := 0; cl_pnl := 0; cl_lots := [] |}.

(** The lots after the fill, those it opens last. *)
Definition lots_after (p : Prepared) (price : number) : list FuturesLot :=
  let lots := cl_lots (close_lots p price) in
  if 0 <? pr_opening p
  then app lots [{| lot_amount := pr_opening p; lot_price := price; lot_leverage := pr_leverage p; lot_marginType := pr_marginType p |}]
  else lots.

Definition signed_request (side : OrderSide) (p : Prepared) : number :=
  match side with Buy => pr_requested p | Sell => - pr_requested p end.

(** The position after the fill. *)
Definition position_after (side : OrderSide) (p : Prepared) (price : number) (a : PaperAccount) : PaperAccount :=
  match lots_after p price with
  | [] => delete_entry (pr_entryKey p) a
  | lots => set_entry (pr_entryKey p)
              (entry_of_lots (Math_sign (ent_amount (pr_current p) + signed_request side p)) lots) a
  end.

Definition filled_order (n : Z) (input : PlaceOrderInput) (p : Prepared) (price notional timestamp : number)
    (fee : OrderFeeObservation) : PaperOrder :=
  {| ord_id := id_text n; ord_symbol := in_symbol input; ord_side := in_side input; ord_type := Market; ord_price := None;
     ord_stopPrice := None; ord_trailingPercent := None; ord_ocoGroup := None;
     ord_clientOrderId := Some (default (String.append "paper-" (id_text n)) (in_clientOrderId input));
     ord_listClientOrderId := None; ord_positionSide := Some (pr_positionSide p); ord_reduceOnly := in_reduceOnly input;
     ord_closePosition := in_closePosition input; ord_timestamp := timestamp;
     ord_state := filled_state (pr_requested p) price notional fee |}.

(** A working order after its fill. *)
Definition filled_existing (p : Prepared) (notional : number) (fee : OrderFeeObservation) (o : PaperOrder) : PaperOrder :=
  let amount := ord_filled o + pr_requested p in
  let cost := ord_cost o + notional in
  set_fee fee (set_margin 0 (set_fill amount amount cost (cost / amount) o)).

Definition executeFuturesFill (input : PlaceOrderInput) (price : number) (persist : bool) (existing : option PaperOrder) : Op Fill :=
  s ← get;
  p ← lift (prepareFuturesFill input (option_map ord_id existing) s);
  let notional := pr_requested p * price in
  let fee := notional * pc_feeRate cfg in
  observation ← lift (feeObservation cfg fee existing);
  let closed := close_lots p price in
  let openingMargin := pr_opening p * price / pr_leverage p in
  let available := futures_free s in
  _ ← check (available + cl_margin closed + cl_pnl closed <? fee + openingMargin) InsufficientMargin;
  _ ← set_futures_free (available + cl_margin closed + cl_pnl closed - fee - openingMargin);
  let realizedPnl := cl_pnl closed - fee in
  _ ← put (on_book FuturesBook (fun a => add_realized realizedPnl (position_after (in_side input) p price a)));
  order ← match existing with
    | Some o =>
        let o := filled_existing p notional observation o in
        _ ← put (on_book FuturesBook (update_order (ord_id o) (fun _ => o)));
        mret o
    | None =>
        timestamp ← now px;
        n ← gets ss_nextOrderId;
        let o := filled_order n input p price notional timestamp observation in
        _ ← put (with_next (n + 1));
        _ ← put (on_book FuturesBook (push_order o));
        mret o
    end;
  let trade :=
    {| trd_id := ord_id order; trd_symbol := in_symbol input; trd_side := in_side input; trd_price := price;
       trd_amount := pr_requested p; trd_cost := notional; trd_fee := fee; trd_realizedPnl := Some realizedPnl;
       trd_positionSide := Some (pr_positionSide p); trd_timestamp := ord_timestamp order |} in
  _ ← put (on_book FuturesBook (add_trade trade));
  _ ← cancelOrphanedFuturesReduceOrders;
  _ ← refreshFuturesOpeningReserves;
  _ ← (if persist then persistAll else mret tt);
  mret {| fill_order := order; fill_fee := fee |}.

(** An open order with the prices [configureRestingOrder] found, not yet reserved for. *)
Definition resting_order (n : Z) (input : PlaceOrderInput) (clientOrderId : option string) (positionSide : option PositionSide)
    (amount timestamp : number) (fee : OrderFeeObservation) (prices : RestingPrices) : PaperOrder :=
  {| ord_id := id_text n; ord_symbol := in_symbol input; ord_side := in_side input; ord_type := in_type input;
     ord_price := rs_price prices; ord_stopPrice := rs_stopPrice prices; ord_trailingPercent := rs_trailingPercent prices;
     ord_ocoGroup := None; ord_clientOrderId := clientOrderId; ord_listClientOrderId := None;
     ord_positionSide := positionSide; ord_reduceOnly := in_reduceOnly input; ord_closePosition := in_closePosition input;
     ord_timestamp := timestamp;
     ord_state :=
       {| st_trailingExtreme := rs_trailingExtreme prices; st_triggered := None; st_reservePrice := rs_reservePrice prices;
          st_reservedMargin := None; st_lastCheckedAt := None; st_amount := amount; st_filled := 0; st_average := None;
          st_cost := 0; st_feeObservation := Some fee; st_status := PaperOpen |} |}.

Definition close_type_ok (type : OrderType) : bool := bool_decide (type ∈ [Market; StopMarket; TakeProfitMarket]).

Definition placeFuturesOrder (input : PlaceOrderInput) (ticker : CcxtTicker) : Op (PaperOrder * option number) :=
  price ← lift (match tk_last ticker with
                | Some p => if isFinitePositive (Some p) then Ok p else Throw NoPrice
                | None => Throw NoPrice
                end);
  _ ← check (truthy (in_closePosition input) && negb (close_type_ok (in_type input))) CloseUnsupportedType;
  if bool_decide (in_type input = Market) then
    fill ← executeFuturesFill input price true None; mret (fill_order fill, Some (fill_fee fill))
  else
    s ← get;
    p ← lift (prepareFuturesFill input None s);
    let n := ss_nextOrderId s in
    observation ← lift (feeObservation cfg 0 None);
    timestamp ← now px;
    prices ← lift (configureRestingOrder input (Some price));
    order ← reserveFuturesOrder
      (resting_order n input (Some (default (String.append "paper-" (id_text n)) (in_clientOrderId input)))
         (Some (pr_positionSide p)) (pr_requested p) timestamp observation prices);
    let order := set_checkedAt timestamp order in
    _ ← put (with_next (n + 1));
    _ ← put (on_book FuturesBook (push_order order));
    _ ← persistAll;
    mret (order, None).

(** ** Liquidation *)

Record LiquidationGroup := {
  lq_entryKey : string;
  lq_symbol : string;
  lq_marginType : MarginType;
  lq_amount : number;
  lq_price : number;
  lq_margin : number;
  lq_pnl : number;
  lq_maintenance : number
}.

(** The text before and after the last colon of a key. *)
Definition last_colon (key : string) : string * string :=
  match rev (split_on ":"%char key) with
  | last :: first => (String.concat ":" (rev first), last)
  | [] => (key, "")
  end%string.
Definition key_asset (key : string) : string := if hedged && includes_char ":"%char key then fst (last_colon key) else key.
(** The side a hedge key names; [None] for the keys of the one-way mode. *)
Definition side_of_key (key : string) : option PositionSide :=
  if hedged && includes_char ":"%char key
  then if String.eqb (snd (last_colon key)) "LONG" then Some LongSide
       else if String.eqb (snd (last_colon key)) "SHORT" then Some ShortSide else None
  else Some BothSides.

Definition futures_symbol (asset : string) : string := String.append asset (String.append "/" (futures_quote cfg)).

Definition price_of (symbol : string) (prices : Prices) : Op (option number * Prices) :=
  match o_get symbol prices with
  | Some p => mret (p, prices)
  | None =>
      p ← tryCatch (t ← fetchTicker px FuturesBook symbol; mret (futuresReferencePrice t)) (fun _ => mret None);
      mret (p, o_set symbol p prices)
  end.

(** The lots of an entry in one margin mode, valued at a price. *)
Definition group_of (entryKey symbol : string) (signed price : number) (type : MarginType) (lots : list FuturesLot) :
    result PaperError (option LiquidationGroup) :=
  let lots := List.filter (fun l => bool_decide (lot_marginType l = type)) lots in
  match lots with
  | [] => Ok None
  | _ =>
      let amount := lots_amount lots in
      let margin := sum (map margin_of lots) in
      let pnl := sum (map (fun l => lot_amount l * (price - lot_price l) * Math_sign signed) lots) in
      let maintenance := amount * price * pc_maintenance cfg in
      _ ← throwIf (negb (forallb isFinite [amount; margin; pnl; maintenance; margin + pnl])) LiquidationNotFinite;
      Ok (Some {| lq_entryKey := entryKey; lq_symbol := symbol; lq_marginType := type; lq_amount := amount;
                  lq_price := price; lq_margin := margin; lq_pnl := pnl; lq_maintenance := maintenance |})
  end.

Definition option_list {A} (o : option A) : list A := match o with Some a => [a] | None => [] end.

Fixpoint liquidation_groups (markets : string -> option CcxtMarket) (entries : list (string * FuturesEntry)) (prices : Prices) :
    Op (list LiquidationGroup * bool * Prices) :=
  match entries with
  | [] => mret ([], true, prices)
  | (key, e) :: rest =>
      if ent_amount e =? 0 then liquidation_groups markets rest prices
      else
        let symbol := futures_symbol (key_asset key) in
        _ ← check (match markets symbol with
                   | Some m => negb (is_true_opt (cm_contract m)) || negb (is_true_opt (cm_swap m))
                   | None => true
                   end) (UnsupportedMarket symbol);
        s ← get;
        let lots := snapshotFuturesLots s e in
        found ← price_of symbol prices;
        let (price, prices) := (found : option number * Prices) in
        match price with
        | Some p =>
            if isFinitePositive (Some p) then
              isolated ← lift (group_of key symbol (ent_amount e) p Isolated lots);
              cross ← lift (group_of key symbol (ent_amount e) p Cross lots);
              others ← liquidation_groups markets rest prices;
              let '(groups, complete, prices) := (others : list LiquidationGroup * bool * Prices) in
              mret (app (option_list isolated) (app (option_list cross) groups), complete, prices)
            else
              others ← liquidation_groups markets rest prices;
              let '(groups, complete, prices) := (others : list LiquidationGroup * bool * Prices) in
              mret (groups, complete && negb (existsb (fun l => bool_decide (lot_marginType l = Cross)) lots), prices)
        | None =>
            others ← liquidation_groups markets rest prices;
            let '(groups, complete, prices) := (others : list LiquidationGroup * bool * Prices) in
            mret (groups, complete && negb (existsb (fun l => bool_decide (lot_marginType l = Cross)) lots), prices)
        end
  end.

Definition futuresLiquidationGroups (prices : Prices) : Op (list LiquidationGroup * bool * Prices) :=
  markets ← loadMarkets px FuturesBook;
  entries ← gets (fun s => acc_entries (ss_futures s));
  liquidation_groups markets entries prices.

Definition is_cross (g : LiquidationGroup) : bool := bool_decide (lq_marginType g = Cross).

(** The loss of an isolated group stops at its collateral. *)
Definition liquidation_pnl (g : LiquidationGroup) : number :=
  if is_cross g then lq_pnl g else Math_max (lq_pnl g) (- lq_margin g).

(** The account after the lots of a group were closed. *)
Definition without_group (s : Session) (g : LiquidationGroup) (a : PaperAccount) : PaperAccount :=
  let e := default no_entry (o_get (lq_entryKey g) (acc_entries a)) in
  match List.filter (fun l => negb (bool_decide (lot_marginType l = lq_marginType g))) (snapshotFuturesLots s e) with
  | [] => delete_entry (lq_entryKey g) a
  | lots => set_entry (lq_entryKey g) (entry_of_lots (Math_sign (ent_amount e)) lots) a
  end.

Definition liquidateFuturesGroup (g : LiquidationGroup) : Op unit :=
  s ← get;
  let e := default no_entry (o_get (lq_entryKey g) (acc_entries (ss_futures s))) in
  let side := if 0 <? Math_sign (ent_amount e) then Sell else Buy in
  let positionSide := side_of_key (lq_entryKey g) in
  let realizedPnl := liquidation_pnl g in
  _ ← set_futures_free (futures_free s + lq_margin g + realizedPnl);
  _ ← put (on_book FuturesBook (fun a => without_group s g (add_realized realizedPnl a)));
  let id := String.append "liquidation-" (id_text (ss_nextOrderId s)) in
  _ ← put (with_next (ss_nextOrderId s + 1));
  timestamp ← now px;
  observation ← lift (feeObservation cfg 0 None);
  let cost := lq_amount g * lq_price g in
  let order :=
    {| ord_id := id; ord_symbol := lq_symbol g; ord_side := side; ord_type := Market; ord_price := None;
       ord_stopPrice := None; ord_trailingPercent := None; ord_ocoGroup := None; ord_clientOrderId := None;
       ord_listClientOrderId := None; ord_positionSide := positionSide; ord_reduceOnly := Some true;
       ord_closePosition := None; ord_timestamp := timestamp;
       ord_state := filled_state (lq_amount g) (lq_price g) cost observation |} in
  let trade :=
    {| trd_id := id; trd_symbol := lq_symbol g; trd_side := side; trd_price := lq_price g; trd_amount := lq_amount g;
       trd_cost := cost; trd_fee := 0; trd_realizedPnl := Some realizedPnl; trd_positionSide := positionSide;
       trd_timestamp := timestamp |} in
  put (on_book FuturesBook (fun a => add_trade trade (push_order order a))).

(** What cross positions are worth together with the free and reserved balance, and the
    maintenance they need. *)
Definition cross_equity (s : Session) (groups : list LiquidationGroup) : number :=
  fold_left (fun sum g => sum + lq_margin g + lq_pnl g) (List.filter is_cross groups)
    (futures_free s + futuresReservedMargin (ss_futures s)).
Definition cross_maintenance (groups : list LiquidationGroup) : number := sum (map lq_maintenance (List.filter is_cross groups)).

Definition to_liquidate (crossLiquidation : bool) (g : LiquidationGroup) : bool :=
  if is_cross g then crossLiquidation else lq_margin g + lq_pnl g <=? lq_maintenance g.

Definition settleFuturesLiquidationsUnlocked (prices : Prices) : Op Prices :=
  found ← futuresLiquidationGroups prices;
  let '(groups, crossPricesComplete, prices) := (found : list LiquidationGroup * bool * Prices) in
  s ← get;
  let equity := cross_equity s groups in
  let maintenance := cross_maintenance groups in
  _ ← check (negb (isFinite equity) || negb (isFinite maintenance)) CrossEquityNotFinite;
  let liquidations := List.filter (to_liquidate (crossPricesComplete && (equity <=? maintenance))) groups in
  match liquidations with
  | [] => mret prices
  | _ =>
      _ ← forM liquidations liquidateFuturesGroup;
      _ ← persistAccountsUnlocked false true;
      mret prices
  end.
End Futures.
