(* ===== verification/PaperClient.v ===== *)
(** * The operations of the paper client (packages/trading-engine/src/paper-client.ts)

    Settlement of the resting orders along the market path, and the operations an account
    has: placing, protecting, replacing and cancelling orders, settings and reset. *)

From Stdlib Require Import ZArith Lia Bool Ascii Floats.
From stdpp Require Import base strings option list.
From S2P Require Import Prelude JsNumber JsObject JsValue JsFloat JsMath JsText AccountRisk RiskState Execution.
From S2P Require Import Capabilities ExecutionRecovery PaperAccount PaperPath PaperStore PaperSession PaperLedger PaperFutures.

Local Open Scope float_scope.

Definition same_group (a b : PaperOrder) : bool := bool_decide (ord_ocoGroup a = ord_ocoGroup b).

Section Client.
Context (cfg : PaperConfig) (px : PaperExchange).

(** ** Settling one order *)

Definition cancel_siblings (b : Book) (o : PaperOrder) (keep : PaperOrder -> bool) : Op unit :=
  match oco_group o with
  | None => mret tt
  | Some _ => put (on_book b (fun a => with_orders
      (map (fun sibling => if same_group sibling o && negb (keep sibling) && is_open sibling
                           then set_status PaperCanceled sibling else sibling) (acc_orders a)) a))
  end.

Definition order_in (b : Book) (id : string) : Op (option PaperOrder) := gets (fun s => order_by_id id (book_account b s)).

(** A futures fill that was refused: for want of margin the order keeps working with the
    margin it can have; an order its position no longer allows is cancelled. *)
Definition futures_fill_refused (o : PaperOrder) (previouslyReserved : number) (e : PaperError) : Op unit :=
  if is_margin_error e then
    now_ ← futures_order (ord_id o);
    let current := default o now_ in
    tryCatch (o' ← reserveFuturesOrder cfg current; store_order o')
      (fun _ => tryCatch (o' ← applyFuturesReservation cfg current previouslyReserved; store_order o')
        (fun _ => put (on_book FuturesBook (update_order (ord_id o) (set_margin 0)))))
  else if isStaleFuturesWorkingOrderError e then
    put (on_book FuturesBook (update_order (ord_id o) (set_status PaperCanceled)))
  else fail e.

(** A resting spot order after its fill. *)
Definition filled_resting (cost : number) (fee : OrderFeeObservation) (o : PaperOrder) : PaperOrder :=
  let total := ord_cost o + cost in
  set_fee fee (set_fill (ord_amount o) (ord_amount o) total (total / ord_amount o) o).

Definition fillRestingOrder (b : Book) (o : PaperOrder) (fillPrice : number) : Op unit :=
  let previouslyReserved := ord_margin o in
  _ ← releaseReservation cfg b o;
  _ ← cancel_siblings b o (fun sibling => String.eqb (ord_id sibling) (ord_id o));
  match b with
  | FuturesBook =>
      current ← futures_order (ord_id o);
      tryCatch (_ ← executeFuturesFill cfg px (order_input o (ord_clientOrderId o)) fillPrice false (Some (default o current)); mret tt)
        (futures_fill_refused o previouslyReserved)
  | SpotBook =>
      fill ← executeFill cfg px (ord_symbol o) (ord_side o) (remaining o) fillPrice None false;
      _ ← put (on_book SpotBook (fun a => with_orders
            (List.filter (fun x => negb (String.eqb (ord_id x) (ord_id (fill_order fill)))) (acc_orders a)) a));
      observation ← lift (feeObservation cfg (fill_fee fill) (Some o));
      let o := filled_resting (ord_cost (fill_order fill)) observation o in
      put (on_book SpotBook (fun a => with_orders
        (app (List.filter (fun x => negb (String.eqb (ord_id x) (ord_id o))) (acc_orders a)) [o]) a))
  end.

(** ** Settling an account *)

(** What a pass over an account has read: tickers and candles by symbol. *)
Record Seen := { sn_tickers : obj CcxtTicker; sn_candles : obj (list Kline) }.

Definition ticker_of (b : Book) (symbol : string) (seen : Seen) : Op (CcxtTicker * Seen) :=
  match o_get symbol (sn_tickers seen) with
  | Some t => mret (t, seen)
  | None => t ← fetchTicker px b symbol;
            mret (t, {| sn_tickers := o_set symbol t (sn_tickers seen); sn_candles := sn_candles seen |})
  end.

(** The path of an order; it takes at most four reads. *)
Definition path_of (b : Book) (o : PaperOrder) (last time : number) (minSince : obj number) (seen : Seen) : Op (MarketPath * Seen) :=
  fun s =>
    let fetch n := px_ohlcv px (ss_calls s + n) b in
    (match buildMarketPath fetch o last time (o_get (ord_symbol o) minSince) (o_get (ord_symbol o) (sn_candles seen)) with
     | Some (path, candles) =>
         Ok (path, {| sn_tickers := sn_tickers seen;
                      sn_candles := match candles with Some c => o_set (ord_symbol o) c (sn_candles seen)
                                                     | None => sn_candles seen end |})
     | None => Throw ExchangeFailed
     end, after_calls 4 s).

Definition store_in (b : Book) (o : PaperOrder) : Op unit := put (on_book b (update_order (ord_id o) (fun _ => o))).

(** Evaluates the legs of a group; the one that fires on the earliest segment wins, the
    first of them when several do. *)
Fixpoint evaluate_legs (b : Book) (path : MarketPath) (legs : list PaperOrder) (winner : option (PaperOrder * PathFire)) :
    Op (option (PaperOrder * PathFire)) :=
  match legs with
  | [] => mret winner
  | leg :: rest =>
      let (leg, fire) := evaluatePath leg (mp_segments path) in
      let leg := advanceCheckedAt (mp_checkedAt path) leg in
      _ ← store_in b leg;
      evaluate_legs b path rest
        match fire, winner with
        | None, _ => winner
        | Some f, None => Some (leg, f)
        | Some f, Some (_, w) => if (fire_index f <? fire_index w)%nat then Some (leg, f) else winner
        end
  end.

(** The open orders of a pass that are still open, as they are now. *)
Definition still_open (b : Book) (ids : list string) : Op (list PaperOrder) :=
  gets (fun s => List.filter is_open (omap (fun id => order_by_id id (book_account b s)) ids)).

Definition settle_order (b : Book) (ids : list string) (time : number) (minSince : obj number) (o : PaperOrder) (seen : Seen) :
    Op Seen :=
  found ← ticker_of b (ord_symbol o) seen;
  let (ticker, seen) := (found : CcxtTicker * Seen) in
  last ← lift (match tk_last ticker with
               | Some p => if isFinitePositive (Some p) then Ok p else Throw NoPrice
               | None => Throw NoPrice
               end);
  built ← path_of b o last time minSince seen;
  let (path, seen) := (built : MarketPath * Seen) in
  match oco_group o with
  | Some _ =>
      open ← still_open b ids;
      winner ← evaluate_legs b path (List.filter (same_group o) open) None;
      _ ← match winner with
          | Some (leg, fire) => fillRestingOrder b leg (fire_price fire)
          | None => mret tt
          end;
      mret seen
  | None =>
      let (o, fire) := evaluatePath o (mp_segments path) in
      let o := advanceCheckedAt (mp_checkedAt path) o in
      _ ← store_in b o;
      margined ← match b with
                 | SpotBook => mret true
                 | FuturesBook => syncFuturesOpeningReserve cfg o (option_map fire_price fire)
                 end;
      match fire with
      | Some f =>
          if negb margined then mret seen
          else current ← order_in b (ord_id o);
               _ ← fillRestingOrder b (default o current) (fire_price f); mret seen
      | None => mret seen
      end
  end.

Fixpoint settle_orders (b : Book) (all : list string) (time : number) (minSince : obj number) (ids : list string) (seen : Seen) : Op unit :=
  match ids with
  | [] => mret tt
  | id :: rest =>
      o ← order_in b id;
      seen ← match o with
             | Some o =>
                 if is_open o
                 then tryCatch (settle_order b all time minSince o seen) (fun e => fail (SettleFailed id e))
                 else mret seen
             | None => mret seen
             end;
      settle_orders b all time minSince rest seen
  end.

(** The earliest cursor of each symbol. *)
Definition min_since (orders : list PaperOrder) : obj number :=
  fold_left (fun m o => o_set (ord_symbol o) (Math_min (default (cursor_of o) (o_get (ord_symbol o) m)) (cursor_of o)) m) orders [].

Definition settleAccountOpenOrders (b : Book) : Op bool :=
  open ← gets (fun s => open_orders (book_account b s));
  match open with
  | [] => mret false
  | _ =>
      time ← now px;
      let ids := map ord_id open in
      _ ← settle_orders b ids time (min_since open) ids {| sn_tickers := []; sn_candles := [] |};
      mret true
  end.

(** What the futures need before the resting orders are looked at. *)
Definition settleFuturesRisk (prices : Prices) : Op unit :=
  if negb (bool_decide (pc_markets cfg = SpotMarkets)) then
    _ ← settleFuturesLiquidationsUnlocked cfg px prices;
    canceled ← cancelOrphanedFuturesReduceOrders cfg;
    _ ← (if (canceled : bool) then persistAccountsUnlocked false true else mret tt);
    refreshFuturesOpeningReserves cfg
  else mret tt.

(** The pass over the resting orders; nothing is written unless all of it succeeds. *)
Definition settle_accounts : Op unit :=
  spotDirty ← (if negb (bool_decide (pc_markets cfg = FuturesMarkets)) then settleAccountOpenOrders SpotBook else mret false);
  futuresDirty ← (if negb (bool_decide (pc_markets cfg = SpotMarkets)) then settleAccountOpenOrders FuturesBook else mret false);
  persistAccountsUnlocked spotDirty futuresDirty.

(** Runs an operation; when it fails the accounts are as they were. *)
Definition rolled_back {A} (m : Op A) : Op A :=
  before ← (get : Op Session);
  tryCatch m
    (fun e =>
       _ ← put (on_book SpotBook (fun _ => ss_spot before));
       _ ← put (on_book FuturesBook (fun _ => ss_futures before));
       _ ← put (with_next (ss_nextOrderId before));
       fail e).

(** Liquidations are kept whatever follows; the pass over the resting orders is rolled
    back as a whole when any of it fails. *)
Definition settleOpenOrdersUnlocked (prices : Prices) : Op unit := _ ← settleFuturesRisk prices; rolled_back settle_accounts.

(** ** Placing and replacing orders *)

Definition replaced_order (a : PaperAccount) (input : PlaceOrderInput) (id : string) : result PaperError PaperOrder :=
  match find (fun o => String.eqb (ord_id o) id && String.eqb (ord_symbol o) (in_symbol input) && is_open o) (acc_orders a) with
  | Some o => if bool_decide (ord_side o = in_side input) then Ok o else Throw ReplacementChanged
  | None => Throw ReplacementChanged
  end.

(** [order.ocoGroup ?? order.id] *)
Definition group_or_id (o : PaperOrder) : string := default (ord_id o) (ord_ocoGroup o).

Fixpoint cancel_replaced (b : Book) (orders : list PaperOrder) (groups : list string) : Op unit :=
  match orders with
  | [] => mret tt
  | o :: rest =>
      if str_in groups (group_or_id o) then cancel_replaced b rest groups
      else
        _ ← releaseReservation cfg b o;
        _ ← put (on_book b (update_order (ord_id o) (set_status PaperCanceled)));
        _ ← cancel_siblings b o (fun _ => false);
        cancel_replaced b rest (group_or_id o :: groups)
  end.

Definition cancelForReplacement (input : PlaceOrderInput) (orderIds : list string) : Op unit :=
  b ← lift (accountForSymbol cfg (in_symbol input));
  a ← gets (book_account b);
  orders ← lift (all_ok (replaced_order a input) orderIds);
  cancel_replaced b orders [].

Definition lastPrice (symbol : string) : Op number :=
  t ← fetchTicker px SpotBook symbol;
  lift (match tk_last t with
        | Some p => if isFinitePositive (Some p) then Ok p else Throw NoPrice
        | None => Throw NoPrice
        end).

Definition with_clientOrderId (id : string) (input : PlaceOrderInput) : PlaceOrderInput :=
  {| in_symbol := in_symbol input; in_side := in_side input; in_type := in_type input; in_amount := in_amount input;
     in_price := in_price input; in_reduceOnly := in_reduceOnly input; in_positionSide := in_positionSide input;
     in_stopPrice := in_stopPrice input; in_trailingPercent := in_trailingPercent input;
     in_closePosition := in_closePosition input; in_clientOrderId := Some id |}.

Definition replace_if (input : PlaceOrderInput) (replacementIds : option (list string)) : Op unit :=
  match replacementIds with Some ids => cancelForReplacement input ids | None => mret tt end.

Definition submitSpotOrder (input : PlaceOrderInput) (replacementIds : option (list string)) : Op (PaperOrder * option number) :=
  _ ← settleOpenOrdersUnlocked [];
  _ ← replace_if input replacementIds;
  _ ← check (bool_decide (pc_markets cfg = FuturesMarkets)) (MarketDisabled SpotBook);
  input ← normalizeOrderInput cfg px input None;
  n ← gets ss_nextOrderId;
  let input := with_clientOrderId (default (String.append "paper-" (id_text n)) (in_clientOrderId input)) input in
  _ ← lift (base_of (in_symbol input) (quote cfg));
  _ ← check (in_amount input <=? 0) AmountNotPositive;
  _ ← check (present (in_reduceOnly input) || present (in_positionSide input) || present (in_closePosition input))
        FuturesOnlyParameters;
  if bool_decide (in_type input = Market) then
    price ← lastPrice (in_symbol input);
    fill ← executeFill cfg px (in_symbol input) (in_side input) (in_amount input) price (in_clientOrderId input) true;
    mret (fill_order fill, Some (fill_fee fill))
  else
    observation ← lift (feeObservation cfg 0 None);
    timestamp ← now px;
    last ← (if bool_decide (in_type input = Limit) then mret None else p ← lastPrice (in_symbol input); mret (Some p));
    prices ← lift (configureRestingOrder input last);
    let order := resting_order n input (in_clientOrderId input) None (in_amount input) timestamp observation prices in
    _ ← reserve cfg (in_side input) (in_symbol input) (in_amount input) (default 0 (ord_reservePrice order));
    let order := set_checkedAt timestamp order in
    _ ← put (with_next (n + 1));
    _ ← put (on_book SpotBook (push_order order));
    _ ← persistAccountsUnlocked true false;
    mret (order, None).

(** The risk of the position is settled at the price the order will be filled at. *)
Definition submitFuturesOrder (input : PlaceOrderInput) (replacementIds : option (list string)) : Op (PaperOrder * option number) :=
  _ ← check (bool_decide (pc_markets cfg = SpotMarkets)) (MarketDisabled FuturesBook);
  ticker ← fetchTicker px FuturesBook (in_symbol input);
  _ ← settleOpenOrdersUnlocked [(in_symbol input, futuresReferencePrice ticker)];
  _ ← replace_if input replacementIds;
  input ← normalizeOrderInput cfg px input (Some ticker);
  placeFuturesOrder cfg px input ticker.

Definition submitPaperOrder (input : PlaceOrderInput) (replacementIds : option (list string)) : Op (PaperOrder * option number) :=
  runAccountOperation cfg px
    (if isFuturesSymbol cfg (in_symbol input) then submitFuturesOrder input replacementIds
     else submitSpotOrder input replacementIds).

Definition placeOrder (input : PlaceOrderInput) : Op (PaperOrder * option number) := submitPaperOrder input None.
Definition replaceProtectiveOrders (input : PlaceOrderInput) (orderIds : list string) : Op (PaperOrder * option number) :=
  match orderIds with [] => fail NoReplacement | _ => submitPaperOrder input (Some orderIds) end.

(** *** OCO orders *)

Definition oco_leg (n : Z) (input : PlaceOcoOrderInput) (type : OrderType) (stopPrice reservePrice amount time : number)
    (group list_id : string) (clientOrderId : option string) (fee : OrderFeeObservation) : PaperOrder :=
  {| ord_id := id_text n; ord_symbol := oco_symbol input; ord_side := oco_side input; ord_type := type; ord_price := None;
     ord_stopPrice := Some stopPrice; ord_trailingPercent := None; ord_ocoGroup := Some group;
     ord_clientOrderId := clientOrderId; ord_listClientOrderId := Some list_id; ord_positionSide := None;
     ord_reduceOnly := None; ord_closePosition := None; ord_timestamp := time;
     ord_state :=
       {| st_trailingExtreme := None; st_triggered := None; st_reservePrice := Some reservePrice; st_reservedMargin := None;
          st_lastCheckedAt := Some time; st_amount := amount; st_filled := 0; st_average := None; st_cost := 0;
          st_feeObservation := Some fee; st_status := PaperOpen |} |}.

Definition oco_market_input (input : PlaceOcoOrderInput) : PlaceOrderInput :=
  {| in_symbol := oco_symbol input; in_side := oco_side input; in_type := Market; in_amount := oco_amount input;
     in_price := None; in_reduceOnly := None; in_positionSide := None; in_stopPrice := None; in_trailingPercent := None;
     in_closePosition := None; in_clientOrderId := None |}.

(** The stop loss is on the losing side of the price, the take profit on the other. *)
Definition oco_prices_ordered (side : OrderSide) (stopLoss takeProfit last : number) : bool :=
  match side with
  | Sell => negb (last <=? stopLoss) && negb (takeProfit <=? last)
  | Buy => negb (stopLoss <=? last) && negb (last <=? takeProfit)
  end.

Definition oco_order (input : PlaceOcoOrderInput) : Op (list PaperOrder) :=
  _ ← check (isFuturesSymbol cfg (oco_symbol input)) OcoOnFutures;
  _ ← lift (base_of (oco_symbol input) (quote cfg));
  _ ← check (oco_amount input <=? 0) AmountNotPositive;
  normalized ← normalizeOrderInput cfg px (oco_market_input input) None;
  let amount := in_amount normalized in
  stopLossPrice ← lift (precise (px_price px SpotBook (oco_symbol input) (oco_stopLossPrice input)));
  takeProfitPrice ← lift (precise (px_price px SpotBook (oco_symbol input) (oco_takeProfitPrice input)));
  _ ← check (negb (positive_amount stopLossPrice) || negb (positive_amount takeProfitPrice)) BadOcoPrice;
  last ← lastPrice (oco_symbol input);
  _ ← check (negb (oco_prices_ordered (oco_side input) stopLossPrice takeProfitPrice last)) OcoPriceOrder;
  n ← gets ss_nextOrderId;
  time ← now px;
  let group := String.append "oco-" (id_text n) in
  let list_id := default (String.append "paper-list-" (id_text n)) (oco_listClientOrderId input) in
  let reservePrice := Math_max stopLossPrice takeProfitPrice in
  observation ← lift (feeObservation cfg 0 None);
  let stopLeg := oco_leg n input StopMarket stopLossPrice reservePrice amount time group list_id
                   (oco_belowClientOrderId input) observation in
  let profitLeg := oco_leg (n + 1) input TakeProfitMarket takeProfitPrice reservePrice amount time group list_id
                     (oco_aboveClientOrderId input) observation in
  _ ← put (with_next (n + 2));
  _ ← reserve cfg (oco_side input) (oco_symbol input) amount reservePrice;
  _ ← put (on_book SpotBook (fun a => push_order profitLeg (push_order stopLeg a)));
  _ ← persistAccountsUnlocked true false;
  mret [stopLeg; profitLeg].
Definition placeOcoOrder (input : PlaceOcoOrderInput) : Op (list PaperOrder) :=
  runAccountOperation cfg px (_ ← settleOpenOrdersUnlocked []; oco_order input).

(** ** Cancelling *)

Definition cancel_by_id (id symbol : string) : Op unit :=
  b ← lift (accountForSymbol cfg symbol);
  _ ← settleOpenOrdersUnlocked [];
  a ← gets (book_account b);
  o ← lift (match find (fun o => String.eqb (ord_id o) id && String.eqb (ord_symbol o) symbol && is_open o) (acc_orders a) with
            | Some o => Ok o
            | None => Throw OrderNotFound
            end);
  _ ← put (on_book b (update_order (ord_id o) (set_status PaperCanceled)));
  _ ← releaseReservation cfg b o;
  _ ← cancel_siblings b o (fun _ => false);
  persistAll.
Definition cancelOrder (id symbol : string) : Op unit := runAccountOperation cfg px (cancel_by_id id symbol).

Definition cancel_list_by_id (orderListId symbol : string) : Op unit :=
  b ← lift (accountForSymbol cfg symbol);
  _ ← settleOpenOrdersUnlocked [];
  a ← gets (book_account b);
  match List.filter (fun o => bool_decide (ord_ocoGroup o = Some orderListId) && String.eqb (ord_symbol o) symbol && is_open o)
          (acc_orders a) with
  | [] => fail OrderNotFound
  | (first :: _) as orders =>
      _ ← releaseReservation cfg b first;
      _ ← forM orders (fun o => put (on_book b (update_order (ord_id o) (set_status PaperCanceled))));
      persistAll
  end.
Definition cancelOrderList (orderListId symbol : string) : Op unit :=
  runAccountOperation cfg px (cancel_list_by_id orderListId symbol).

(** ** Settings *)

Definition validateFuturesMarket (symbol : string) : Op unit :=
  _ ← check (negb (isFuturesSymbol cfg symbol)) NotFuturesSymbol;
  _ ← lift (accountForSymbol cfg symbol);
  markets ← loadMarkets px FuturesBook;
  match markets symbol with
  | Some m =>
      _ ← check (negb (supported_futures cfg m && linear_market m)) (UnsupportedMarket symbol);
      _ ← lift (contractSizeForMarket (Some m));
      mret tt
  | None => fail (UnsupportedMarket symbol)
  end.

(** Runs an operation; when it fails the futures account is as it was. *)
Definition futures_rolled_back {A} (m : Op A) : Op A :=
  before ← (get : Op Session);
  tryCatch m (fun e => _ ← put (on_book FuturesBook (fun _ => ss_futures before)); fail e).

Definition change_leverage (symbol : string) (leverage : number) : Op unit :=
  _ ← check (negb (leverage_ok leverage)) InvalidLeverage;
  _ ← validateFuturesMarket symbol;
  _ ← futures_rolled_back
        (_ ← put (on_book FuturesBook (fun a => with_symbol_settings
             (Some (o_set symbol leverage (default [] (acc_leverageBySymbol a)))) (acc_marginTypeBySymbol a) a));
         ids ← gets (fun s => order_ids (ss_futures s));
         _ ← each_order ids false (fun o =>
           if negb (is_open o) || negb (String.eqb (ord_symbol o) symbol) then mret false
           else o' ← reserveFuturesOrder cfg o; _ ← store_order o'; mret false);
         mret tt);
  persistAll.
Definition setLeverage (symbol : string) (leverage : number) : Op unit := runAccountOperation cfg px (change_leverage symbol leverage).

Definition setMarginMode (symbol : string) (type : MarginType) : Op unit :=
  runAccountOperation cfg px
    (_ ← validateFuturesMarket symbol;
     _ ← put (on_book FuturesBook (fun a => with_symbol_settings (acc_leverageBySymbol a)
           (Some (o_set symbol type (default [] (acc_marginTypeBySymbol a)))) a));
     persistAll).

Definition getRiskSettings (symbol : string) : Op (number * MarginType) :=
  runAccountOperation cfg px (_ ← validateFuturesMarket symbol; gets (futuresSettings symbol)).

(** The liquidation distance of a position after an opening order, in percent of the price. *)
Definition projectOpeningRisk (input : PlaceOrderInput) (referencePrice : number) : Op number :=
  runAccountOperation cfg px
    (_ ← validateFuturesMarket (in_symbol input);
     _ ← check (negb (isFinitePositive (Some referencePrice))) ProjectionPrice;
     s ← get;
     p ← lift (prepareFuturesFill cfg input None s);
     _ ← check (negb (bool_decide (pr_marginType p = Isolated))
                || (negb (pr_reducing p)
                    && existsb (fun l => negb (bool_decide (lot_marginType l = Isolated)) || negb (lot_leverage l =? pr_leverage p))
                         (pr_currentLots p))) ProjectionLots;
     let opening := pr_opening p in
     _ ← check (opening <=? 0) ProjectionNotOpening;
     let retainedAmount := if pr_reducing p then 0 else pr_currentQty p in
     let retainedCost := if pr_reducing p then 0 else ent_cost (pr_current p) in
     let average := (retainedCost + opening * referencePrice) / (retainedAmount + opening) in
     let liquidation := average * match in_side input with
       | Buy => 1 + pc_maintenance cfg - 1 / pr_leverage p
       | Sell => 1 - pc_maintenance cfg + 1 / pr_leverage p
       end in
     mret (match in_side input with Buy => referencePrice - liquidation | Sell => liquidation - referencePrice end
           / referencePrice * 100)).

Definition reset_account (startQuote : number) (t : number) (futures : option (number * MarginType)) : PaperAccount :=
  {| acc_quote := quote cfg; acc_balances := [(quote cfg, startQuote)]; acc_entries := []; acc_orders := []; acc_trades := [];
     acc_realizedPnl := 0; acc_leverage := option_map fst futures; acc_marginType := option_map snd futures;
     acc_leverageBySymbol := option_map (fun _ => []) futures; acc_marginTypeBySymbol := option_map (fun _ => []) futures;
     acc_positionMode := option_map (fun _ => pc_positionMode cfg) futures; acc_createdAt := t |}.

Definition resetAccount (startQuote : number) : Op unit :=
  runAccountOperation cfg px
    (_ ← check (negb (isFinite startQuote) || (startQuote <=? 0)) StartQuoteRange;
     t ← now px;
     _ ← put (on_book SpotBook (fun _ => reset_account startQuote t None));
     t ← now px;
     s ← get;
     _ ← put (on_book FuturesBook (fun _ => reset_account startQuote t (Some (ss_leverage s, ss_marginType s))));
     _ ← put (with_next 1);
     persistAll).

(** ** Reading orders *)

Definition symbol_matches (symbol : option string) (o : PaperOrder) : bool :=
  match symbol with Some s => String.eqb s "" || String.eqb (ord_symbol o) s | None => true end.

Definition books_for (symbol : option string) : result PaperError (list Book) :=
  match symbol with None => Ok (enabledBooks cfg) | Some s => b ← accountForSymbol cfg s; Ok [b] end.
Definition orders_of (books : list Book) : Op (list PaperOrder) :=
  gets (fun s => concat (map (fun b => acc_orders (book_account b s)) books)).

Definition getOpenOrders (symbol : option string) : Op (list Order) :=
  runAccountOperation cfg px
    (books ← lift (books_for symbol);
     _ ← settleOpenOrdersUnlocked [];
     orders ← orders_of books;
     mret (map toOrder (List.filter (fun o => is_open o && symbol_matches symbol o) orders))).

(** A stable sort by time, latest first. *)
Fixpoint insert_latest (o : PaperOrder) (l : list PaperOrder) : list PaperOrder :=
  match l with
  | [] => [o]
  | x :: r => if ord_timestamp x <=? ord_timestamp o then o :: l else x :: insert_latest o r
  end.
Definition latest_first (l : list PaperOrder) : list PaperOrder := foldr insert_latest [] l.

Definition getOrderHistory (symbol : option string) (limit : number) : Op (list Order) :=
  _ ← check (negb (isInteger limit) || (limit <=? 0)) LimitRange;
  runAccountOperation cfg px
    (books ← lift (books_for symbol);
     _ ← settleOpenOrdersUnlocked [];
     orders ← orders_of books;
     mret (map toOrder (take (Z.to_nat (trunc limit))
       (latest_first (List.filter (fun o => negb (is_open o) && symbol_matches symbol o) orders))))).

Definition find_order (p : PaperOrder -> bool) (symbol : string) : Op Order :=
  runAccountOperation cfg px
    (b ← lift (accountForSymbol cfg symbol);
     _ ← settleOpenOrdersUnlocked [];
     a ← gets (book_account b);
     lift (match find (fun o => p o && String.eqb (ord_symbol o) symbol) (acc_orders a) with
           | Some o => Ok (toOrder o)
           | None => Throw OrderNotFound
           end)).
Definition getOrderByClientId (clientOrderId symbol : string) : Op Order :=
  find_order (fun o => bool_decide (ord_clientOrderId o = Some clientOrderId)) symbol.
Definition getOrder (id symbol : string) : Op Order := find_order (fun o => String.eqb (ord_id o) id) symbol.

Record OrderList := { ol_id : string; ol_status : PaperStatus; ol_orders : list Order }.
Definition orderListFromOrders (id : string) (orders : list PaperOrder) : OrderList :=
  {| ol_id := id;
     ol_status := if existsb is_open orders then PaperOpen
                  else if existsb (fun o => bool_decide (ord_status o = PaperClosed)) orders then PaperClosed else PaperCanceled;
     ol_orders := map toOrder orders |}.
Definition find_list (p : PaperOrder -> bool) (id : string) : Op OrderList :=
  runAccountOperation cfg px
    (_ ← settleOpenOrdersUnlocked [];
     orders ← orders_of (enabledBooks cfg);
     match List.filter p orders with [] => fail OrderNotFound | l => mret (orderListFromOrders id l) end).
Definition getOrderListByClientId (id : string) : Op OrderList :=
  find_list (fun o => bool_decide (ord_listClientOrderId o = Some id)) id.
Definition getOrderList (id : string) : Op OrderList := find_list (fun o => bool_decide (ord_ocoGroup o = Some id)) id.

(** Whether either account, also that of a market that is not traded now, holds anything. *)
Definition exposed (a : PaperAccount) : bool :=
  existsb is_open (acc_orders a)
  || ((0 <? length (acc_orders a))%nat || (0 <? length (acc_trades a))%nat || negb (acc_realizedPnl a =? 0))
  || existsb (fun e => negb (ent_amount e =? 0)) (o_values (acc_entries a))
  || existsb (fun p => negb (String.eqb (fst p) (quote cfg)) && isFinite (snd p) && negb (snd p =? 0)) (acc_balances a).
Definition hasAnyAccountExposure : Op bool :=
  runAccountOperation cfg px
    (_ ← settleOpenOrdersUnlocked []; gets (fun s => exposed (ss_spot s) || exposed (ss_futures s))).
End Client.
