(* ===== verification/PaperLife.v ===== *)
(** * The life of a paper order

    What every operation of the paper client does to the orders and trades of its accounts:
    orders are never lost or reopened, a finished order never changes again, of the legs of
    a group at most one is filled, and trades are only added. *)

From Stdlib Require Import ZArith Lia Bool Ascii Floats.
From stdpp Require Import base strings option list pretty.
From S2P Require Import Prelude JsNumber JsObject JsValue JsFloat JsMath JsText AccountRisk RiskState Execution.
From S2P Require Import Capabilities ExecutionRecovery PaperAccount PaperPath PaperStore PaperSession PaperLedger PaperFutures.
From S2P Require Import PaperClient.

Local Open Scope Z_scope.

(** ** One order *)

Definition is_closed (o : PaperOrder) : bool := bool_decide (ord_status o = PaperClosed).

(** What the fills of an order have made of it. *)
Definition fills (o : PaperOrder) : number * number * option number * number * option OrderFeeObservation :=
  (ord_amount o, ord_filled o, st_average (ord_state o), ord_cost o, ord_feeObservation o).

(** The margin of an order given back: all that may still happen to a finished one. *)
Definition unreserved (o : PaperOrder) : PaperOrder := set_margin 0 o.

(** The steps of an order: a finished one stays as it is, an open one keeps its fields and,
    unless it is filled, its amounts; a filled one is filled whole. *)
Record OrderStep (o o' : PaperOrder) : Prop := {
  step_fields : o' = on_state (fun _ => ord_state o') o;
  step_finished : is_open o = false -> unreserved o' = unreserved o;
  step_unfilled : is_closed o' = false -> fills o' = fills o;
  step_filled : is_open o = true -> is_closed o' = true -> ord_filled o' = ord_amount o'
}.

Lemma step_refl o : OrderStep o o.
Proof. constructor; try done; [by destruct o|]. intros Ho Hc. unfold is_open, is_closed in *. apply bool_decide_eq_true in Ho, Hc. congruence. Qed.

Lemma open_not_closed o : is_open o = true -> is_closed o = false.
Proof. unfold is_open, is_closed. intros H%bool_decide_eq_true. rewrite H. done. Qed.

Lemma step_id o o' : OrderStep o o' -> ord_id o' = ord_id o.
Proof. intros [E _ _ _]. by rewrite E. Qed.
Lemma step_group o o' : OrderStep o o' -> ord_ocoGroup o' = ord_ocoGroup o.
Proof. intros [E _ _ _]. by rewrite E. Qed.
Lemma unreserved_status a b : unreserved a = unreserved b -> ord_status a = ord_status b.
Proof. intros E. change (ord_status (unreserved a) = ord_status (unreserved b)). by rewrite E. Qed.
Lemma step_status o o' : OrderStep o o' -> is_open o = false -> ord_status o' = ord_status o.
Proof. intros S H. by apply unreserved_status, S. Qed.
Lemma step_open o o' : OrderStep o o' -> is_open o' = true -> is_open o = true.
Proof.
  intros S H. destruct (is_open o) eqn:Ho; [done|]. pose proof (step_status _ _ S Ho) as E. unfold is_open in *. rewrite E in H. congruence.
Qed.

Lemma step_trans o o1 o2 : OrderStep o o1 -> OrderStep o1 o2 -> OrderStep o o2.
Proof.
  intros S1 S2. pose proof (step_open _ _ S1) as Op. pose proof (step_status _ _ S1) as St1. pose proof (step_status _ _ S2) as St2.
  destruct S1 as [E1 F1 U1 C1], S2 as [E2 F2 U2 C2]. constructor.
  - rewrite E2, E1. by destruct o.
  - intros H. rewrite F2; [by apply F1|]. destruct (is_open o1); [by rewrite Op in H|done].
  - intros H. rewrite U2 by done. apply U1. destruct (is_open o1) eqn:O1; [by apply open_not_closed|].
    unfold is_closed in *. by rewrite <- St2.
  - intros H C. destruct (is_open o1) eqn:O1; [by apply C2|]. unfold is_closed in *. rewrite St2 in C by done.
    specialize (C1 H C). pose proof (F2 eq_refl) as E. change (ord_filled (unreserved o2) = ord_amount (unreserved o2)). by rewrite E.
Qed.

(** Assignments that leave the fills alone are steps of an open order. *)
Lemma step_assign f o :
  is_open o = true -> is_closed (on_state f o) = false -> fills (on_state f o) = fills o -> OrderStep o (on_state f o).
Proof. intros H C E. constructor; [done|intros ?; congruence|done|intros ? ?; congruence]. Qed.

(** ** Lists of orders *)

Definition Evolves (l l' : list PaperOrder) : Prop := forall o, In o l -> exists o', In o' l' /\ OrderStep o o'.

Lemma evolves_refl l : Evolves l l.
Proof. intros o H. exists o. split; [done|apply step_refl]. Qed.
Lemma evolves_trans l l1 l2 : Evolves l l1 -> Evolves l1 l2 -> Evolves l l2.
Proof.
  intros H1 H2 o Ho. destruct (H1 o Ho) as (o1 & I1 & S1). destruct (H2 o1 I1) as (o2 & I2 & S2).
  exists o2. split; [done|by eapply step_trans].
Qed.
Lemma evolves_push l r : Evolves l (app l r).
Proof. intros o H. exists o. split; [apply in_or_app; by left|apply step_refl]. Qed.
#[export] Hint Resolve step_refl evolves_refl evolves_push : ti.

(** The orders a client works on: the id of an open order is no other's, the numbers from
    [n] on are no order's and name no group, and when a leg of a group is filled the others
    are cancelled. *)
Definition liquidation_id (n : Z) : string := String.append "liquidation-" (id_text n).
Definition group_name (n : Z) : string := String.append "oco-" (id_text n).

Definition legs (a b : PaperOrder) : Prop := exists g, oco_group a = Some g /\ oco_group b = Some g.

Record Orderly (n : Z) (l : list PaperOrder) : Prop := {
  ord_unique : forall o o', In o l -> In o' l -> ord_id o = ord_id o' -> is_open o = true -> o' = o;
  ord_fresh : forall o m, In o l -> n <= m -> ord_id o <> id_text m;
  ord_live : forall o m, In o l -> is_open o = true -> n <= m -> ord_id o <> liquidation_id m;
  ord_groups : forall o m, In o l -> n <= m -> ord_ocoGroup o <> Some (group_name m);
  ord_legs : forall o o', In o l -> In o' l -> legs o o' -> is_closed o = true -> ord_id o' <> ord_id o ->
    ord_status o' = PaperCanceled
}.

Lemma orderly_later n m l : Orderly n l -> n <= m -> Orderly m l.
Proof. intros [U F L G O] H. constructor; try done; intros o k Ho; intros; [apply F|apply L|apply G]; (done || lia). Qed.

Lemma legs_sym a b : legs a b -> legs b a.
Proof. intros (g & H1 & H2). by exists g. Qed.

Lemma id_text_inj m n : id_text m = id_text n -> m = n.
Proof. apply (inj (pretty (A := Z))). Qed.

Lemma digits_not_l x s s' : (forall r, s <> String "l" r) -> pretty_N_go x s <> String "l" s'.
Proof.
  revert s. induction (N.lt_wf_0 x) as [x _ IH]; intros s Hs.
  assert (x = 0 \/ 0 < x)%N as [->|Hx] by lia; [rewrite pretty_N_go_0; apply Hs|].
  rewrite pretty_N_go_step by done. apply IH; [by apply N.div_lt|]. intros r. unfold pretty_N_char. by repeat case_match.
Qed.

Lemma id_not_liquidation m n : id_text m <> liquidation_id n.
Proof.
  unfold id_text, show_digits, liquidation_id. generalize (id_text n). intros r. cbn.
  destruct m as [|p|p]; cbn; [done| |done]. unfold pretty, pretty_positive, pretty, pretty_N.
  destruct (decide _); [done|]. by apply digits_not_l.
Qed.

(** *** Assignments to one order *)

Definition assigned (id : string) (f : PaperOrder -> PaperOrder) (l : list PaperOrder) : list PaperOrder :=
  map (fun o => if String.eqb (ord_id o) id then f o else o) l.

Lemma in_assigned id f l x : In x (assigned id f l) <-> exists o, In o l /\ x = if String.eqb (ord_id o) id then f o else o.
Proof. unfold assigned. rewrite in_map_iff. split; intros (o & H); exists o; intuition congruence. Qed.

(** A list whose every member made a step is as orderly as before, as long as no order was
    filled, or the other legs of the filled one are cancelled. *)
Lemma orderly_steps n l (f : PaperOrder -> PaperOrder) :
  Orderly n l -> (forall o, In o l -> OrderStep o (f o)) ->
  (forall o o', In o l -> In o' l -> legs o o' -> is_open o = true -> is_closed (f o) = true -> ord_id o' <> ord_id o ->
     ord_status (f o') = PaperCanceled) ->
  Orderly n (map f l) /\ Evolves l (map f l).
Proof.
  intros [U F L G O] S C. split; [constructor|].
  - intros x y (o & <- & Ho)%in_map_iff (o' & <- & Ho')%in_map_iff E Op.
    rewrite (step_id _ _ (S o Ho)), (step_id _ _ (S o' Ho')) in E. f_equal. apply U; try done. by eapply step_open; [apply S|].
  - intros x m (o & <- & Ho)%in_map_iff Hm. rewrite (step_id _ _ (S o Ho)). by apply F.
  - intros x m (o & <- & Ho)%in_map_iff Op Hm. rewrite (step_id _ _ (S o Ho)). apply L; try done. by eapply step_open; [apply S|].
  - intros x m (o & <- & Ho)%in_map_iff Hm. rewrite (step_group _ _ (S o Ho)). by apply G.
  - intros x y (o & <- & Ho)%in_map_iff (o' & <- & Ho')%in_map_iff Lg Cl Ne.
    rewrite (step_id _ _ (S o Ho)), (step_id _ _ (S o' Ho')) in Ne.
    assert (legs o o') as Lg' by (destruct Lg as (g & H1 & H2); exists g; unfold oco_group in *;
      rewrite (step_group _ _ (S o Ho)) in H1; by rewrite (step_group _ _ (S o' Ho')) in H2).
    destruct (is_open o) eqn:Op; [by apply (C o o')|].
    assert (is_closed o = true) as Cl' by (unfold is_closed in *; by rewrite <- (step_status _ _ (S o Ho) Op)).
    pose proof (O o o' Ho Ho' Lg' Cl' Ne) as E. assert (is_open o' = false) as N by (unfold is_open; by rewrite E).
    by rewrite (step_status _ _ (S o' Ho') N).
  - intros o Ho. exists (f o). split; [by apply in_map|by apply S].
Qed.

(** The order that is read is the one its id is assigned to. *)
Lemma orderly_assign n l o f :
  Orderly n l -> In o l -> is_open o = true -> OrderStep o (f o) ->
  (is_closed (f o) = true -> forall o', In o' l -> legs o o' -> ord_id o' <> ord_id o -> ord_status o' = PaperCanceled) ->
  Orderly n (assigned (ord_id o) f l) /\ Evolves l (assigned (ord_id o) f l).
Proof.
  intros W Ho Op S C. pose proof W as [U _ _ _ _].
  assert (T : forall x, In x l -> (if String.eqb (ord_id x) (ord_id o) then f x else x) = if String.eqb (ord_id x) (ord_id o) then f o else x).
  { intros x Hx. destruct (String.eqb_spec (ord_id x) (ord_id o)) as [E|]; [|done]. by rewrite (U o x Ho Hx (eq_sym E) Op). }
  apply orderly_steps; [done| |].
  - intros x Hx. rewrite (T x Hx). destruct (String.eqb_spec (ord_id x) (ord_id o)) as [E|]; [|apply step_refl].
    rewrite (U o x Ho Hx (eq_sym E) Op). done.
  - intros x y Hx Hy Lg Opx Cl Ne. rewrite (T x Hx) in Cl. rewrite (T y Hy).
    destruct (String.eqb_spec (ord_id x) (ord_id o)) as [E|E].
    + assert (x = o) as -> by (by apply (U o x Ho Hx (eq_sym E) Op)).
      destruct (String.eqb_spec (ord_id y) (ord_id o)); [done|]. by apply C.
    + rewrite open_not_closed in Cl by done. done.
Qed.

(** Only membership matters. *)
Lemma orderly_ext n l l' : (forall o, In o l' -> In o l) -> Orderly n l -> Orderly n l'.
Proof. intros H [U F L G O]. constructor; eauto. Qed.

Lemma orderly_push n m l o :
  Orderly n l -> n <= m ->
  (forall x, In x l -> ord_id x = ord_id o -> is_open x = false /\ is_open o = false) ->
  (forall k, m <= k -> ord_id o <> id_text k) ->
  (is_open o = true -> forall k, m <= k -> ord_id o <> liquidation_id k) ->
  (forall k, m <= k -> ord_ocoGroup o <> Some (group_name k)) ->
  (forall x, In x l -> legs x o -> is_closed x = false /\ is_closed o = false) ->
  Orderly m (app l [o]).
Proof.
  intros W Hm Id Fr Lq Gr Lg. apply (orderly_later _ m) in W as [U F L G O]; [|done].
  assert (I : forall x, In x (app l [o]) -> In x l \/ x = o) by (intros x [|[|[]]]%in_app_or; auto).
  constructor.
  - intros x y [Hx| ->]%I [Hy| ->]%I E Op; [by apply U| | |done]; exfalso.
    + destruct (Id x Hx E). congruence.
    + destruct (Id y Hy (eq_sym E)). congruence.
  - intros x k [Hx| ->]%I; [by apply F|apply Fr].
  - intros x k [Hx| ->]%I; [by apply L|auto].
  - intros x k [Hx| ->]%I; [by apply G|apply Gr].
  - intros x y [Hx| ->]%I [Hy| ->]%I K Cl Ne; [by apply (O x y)| | |done].
    + destruct (Lg x Hx K). congruence.
    + destruct (Lg y Hy (legs_sym _ _ K)). congruence.
Qed.

(** A filled order goes to the end of the list. *)
Definition moved (o' : PaperOrder) (l : list PaperOrder) : list PaperOrder :=
  app (List.filter (fun x => negb (String.eqb (ord_id x) (ord_id o'))) l) [o'].

Lemma moved_assigned o o' l x :
  In o l -> ord_id o = ord_id o' -> In x (moved o' l) <-> In x (assigned (ord_id o') (fun _ => o') l).
Proof.
  intros Ho E. unfold moved. rewrite in_app_iff, filter_In, in_assigned. split.
  - intros [[Hx N]|[<-|[]]].
    + exists x. apply negb_true_iff in N. by rewrite N.
    + exists o. by rewrite E, String.eqb_refl.
  - intros (y & Hy & ->). destruct (String.eqb_spec (ord_id y) (ord_id o')); [right; by left|left].
    split; [done|]. apply negb_true_iff. by apply String.eqb_neq.
Qed.

(** ** Open orders that are still worked *)

(** The same open order in two states of its work. *)
Record Same (o o' : PaperOrder) : Prop := {
  same_open : is_open o = true;
  same_open' : is_open o' = true;
  same_fields : o' = on_state (fun _ => ord_state o') o;
  same_fills : fills o' = fills o
}.

Lemma same_refl o : is_open o = true -> Same o o.
Proof. intros H. constructor; try done. by destruct o. Qed.
Lemma same_sym a b : Same a b -> Same b a.
Proof. intros [H1 H2 E F]. constructor; try done. rewrite E. by destruct a. Qed.
Lemma same_trans a b c : Same a b -> Same b c -> Same a c.
Proof. intros [A1 A2 A3 A4] [B1 B2 B3 B4]. constructor; try done; [|congruence]. rewrite B3, A3. by destruct a. Qed.
Lemma same_step a b : Same a b -> OrderStep a b.
Proof. intros [H1 H2 E F]. constructor; [done|intros ?; congruence|done|]. intros _ H. apply open_not_closed in H2. congruence. Qed.
Lemma same_id a b : Same a b -> ord_id b = ord_id a.
Proof. intros H. by apply step_id, same_step. Qed.
Lemma same_group_of a b : Same a b -> ord_ocoGroup b = ord_ocoGroup a.
Proof. intros H. by apply step_group, same_step. Qed.
#[export] Hint Resolve same_refl same_step : ti.

(** A step of an order is one of the same order in another state of its work. *)
Lemma same_then_step a b c : Same a b -> OrderStep a c -> OrderStep b c.
Proof. intros H S. eapply step_trans; [|done]. apply same_step. by apply same_sym. Qed.

Lemma evaluate_same o path : is_open o = true -> Same o (fst (evaluatePath o path)).
Proof.
  unfold evaluatePath. generalize 0%nat. revert o. induction path as [|seg rest IH]; intros o i H; cbn; [by apply same_refl|].
  assert (V : Same o (fst (visit o seg))).
  { unfold visit, visit_trailing. repeat (case_match; cbn [fst]; try (by apply same_refl)). all: constructor; done. }
  destruct (visit o seg) as [o' [| |price]]; cbn [fst] in *; [|done|done].
  eapply same_trans; [exact V|]. apply IH. apply V.
Qed.

Lemma advance_same t o : is_open o = true -> Same o (advanceCheckedAt t o).
Proof. intros H. unfold advanceCheckedAt. destruct (_ && _); [|by apply same_refl]. constructor; done. Qed.

Lemma margin_step x o : OrderStep o (set_margin x o).
Proof. constructor; try done. intros H C%bool_decide_eq_true. apply bool_decide_eq_true in H. change (ord_status o = PaperClosed) in C. congruence. Qed.
Lemma margin_same x o : is_open o = true -> Same o (set_margin x o).
Proof. intros H. constructor; done. Qed.
Lemma reservePrice_same x o : is_open o = true -> Same o (set_reservePrice x o).
Proof. intros H. constructor; done. Qed.
Lemma cancel_step o : OrderStep o (if is_open o then set_status PaperCanceled o else o).
Proof. destruct (is_open o) eqn:H; [|apply step_refl]. apply step_assign; done. Qed.

(** ** Sessions *)

(** An account in which orders only made steps and trades were only added. *)
Definition Grows (a a' : PaperAccount) : Prop :=
  Evolves (acc_orders a) (acc_orders a') /\ acc_trades a `prefix_of` acc_trades a'.

Definition file_of (b : Book) : AccountFile := match b with SpotBook => SpotFile | FuturesBook => FuturesFile end.

Record Ordered (s : Session) : Prop := {
  ordered_book b : Orderly (ss_nextOrderId s) (acc_orders (book_account b s))
}.

(** The accounts have grown, and their files are as they were or hold a grown account. *)
Record Later (s s' : Session) : Prop := {
  later_book b : Grows (book_account b s) (book_account b s');
  later_file b : ss_disk s' (file_of b) = ss_disk s (file_of b) \/
    exists a, ss_disk s' (file_of b) = Some (json_copy (account_value a)) /\ Grows (book_account b s) a
}.

Lemma grows_refl a : Grows a a.
Proof. split; [apply evolves_refl|done]. Qed.
Lemma grows_trans a b c : Grows a b -> Grows b c -> Grows a c.
Proof. intros [E1 P1] [E2 P2]. split; [by eapply evolves_trans|by etrans]. Qed.
Lemma later_refl s : Later s s.
Proof. constructor; intros b; [apply grows_refl|by left]. Qed.
Lemma later_trans s s1 s2 : Later s s1 -> Later s1 s2 -> Later s s2.
Proof.
  intros [B1 F1] [B2 F2]. constructor; intros b; [by eapply grows_trans|].
  destruct (F2 b) as [E|(a & E & G)]; [|right; exists a; split; [done|by eapply grows_trans]].
  rewrite E. apply F1.
Qed.
#[export] Hint Resolve grows_refl later_refl : ti.

Section Triples.
Context {A : Type}.

(** [m] keeps accounts orderly and lets them grow; with [P] before, it returns with [Q] or
    throws with [E]. *)
Definition triple (P : Session -> Prop) (m : Op A) (Q : A -> Session -> Prop) (E : PaperError -> Session -> Prop) : Prop :=
  forall s, Ordered s -> P s ->
  Ordered (snd (m s)) /\ Later s (snd (m s)) /\ match fst (m s) with Ok a => Q a (snd (m s)) | Throw e => E e (snd (m s)) end.

(** [m] touches no order, trade, number or file. *)
Definition money (m : Op A) : Prop :=
  forall s, (forall b, acc_orders (book_account b (snd (m s))) = acc_orders (book_account b s) /\
                       acc_trades (book_account b (snd (m s))) = acc_trades (book_account b s)) /\
            ss_nextOrderId (snd (m s)) = ss_nextOrderId s /\ ss_disk (snd (m s)) = ss_disk s.
End Triples.

Abbreviation always := (fun _ => True).
Abbreviation whatever := (fun _ _ => True).
Abbreviation orderly_op m := (triple always m whatever whatever).

(** A property of the orders and the order number only. *)
Definition about_orders (P : Session -> Prop) : Prop :=
  forall s s', (forall b, acc_orders (book_account b s') = acc_orders (book_account b s)) ->
  ss_nextOrderId s' = ss_nextOrderId s -> P s -> P s'.

Section Rules.
Context {A B : Type}.

Lemma triple_ret P (a : A) Q E : (forall s, P s -> Q a s) -> triple P (mret a) Q E.
Proof. intros H s W HP. cbn. auto with ti. Qed.

Lemma triple_lift P (r : result PaperError A) Q E :
  (forall s, P s -> match r with Ok a => Q a s | Throw e => E e s end) -> triple P (lift r) Q E.
Proof. intros H s W HP. split; [done|]. split; [apply later_refl|by apply H]. Qed.

Lemma triple_gets P (f : Session -> A) Q E : (forall s, Ordered s -> P s -> Q (f s) s) -> triple P (gets f) Q E.
Proof. intros H s W HP. cbn. auto with ti. Qed.

Lemma triple_bind P (m : Op A) (k : A -> Op B) Q R E :
  triple P m R E -> (forall a, triple (R a) (k a) Q E) -> triple P (m ≫= k) Q E.
Proof.
  intros Hm Hk s W HP. specialize (Hm s W HP). unfold mbind, ST_bind. destruct (m s) as [[a|e] s1]; cbn in *; [|done].
  destruct Hm as (W1 & L1 & H1). destruct (Hk a s1 W1 H1) as (W2 & L2 & H2). split; [done|]. split; [by eapply later_trans|done].
Qed.

Lemma triple_conseq (P P' : Session -> Prop) (m : Op A) (Q Q' : A -> Session -> Prop) (E E' : PaperError -> Session -> Prop) :
  triple P' m Q' E' -> (forall s, P s -> P' s) -> (forall a s, Q' a s -> Q a s) -> (forall e s, E' e s -> E e s) -> triple P m Q E.
Proof. intros H HP HQ HE s W Hs. destruct (H s W (HP s Hs)) as (W' & L & R). split_and!; try done. destruct (fst (m s)); auto. Qed.

Lemma triple_try P (m : Op A) h Q E E1 :
  triple P m Q E1 -> (forall e, triple (E1 e) (h e) Q E) -> triple P (tryCatch m h) Q E.
Proof.
  intros Hm Hh s W HP. specialize (Hm s W HP). unfold tryCatch. destruct (m s) as [[a|e] s1]; cbn in *; [done|].
  destruct Hm as (W1 & L1 & H1). destruct (Hh e s1 W1 H1) as (W2 & L2 & H2). split; [done|]. split; [by eapply later_trans|done].
Qed.

Lemma triple_if P (c : bool) (m m' : Op A) Q E : triple P m Q E -> triple P m' Q E -> triple P (if c then m else m') Q E.
Proof. by destruct c. Qed.

(** An operation on money keeps every property of the orders. *)
Lemma triple_money P (m : Op A) (E : PaperError -> Session -> Prop) :
  money m -> about_orders P -> (forall e s, P s -> E e s) -> triple P m (fun _ => P) E.
Proof.
  intros M K HE s W HP. destruct (M s) as (O & N & D). split; [|split].
  - constructor. intros b. destruct (O b) as [-> _]. rewrite N. apply W.
  - constructor; intros b; destruct (O b) as [O1 O2]; [|left; by rewrite D]. split; [rewrite O1; apply evolves_refl|by rewrite O2].
  - assert (P (snd (m s))) by (eapply K; [|exact N|done]; intros b; apply O). destruct (fst (m s)); auto.
Qed.
End Rules.

Lemma triple_put P f (Q : unit -> Session -> Prop) E :
  (forall s, Ordered s -> P s -> Ordered (f s) /\ Later s (f s) /\ Q tt (f s)) -> triple P (put f) Q E.
Proof. intros H s W HP. cbn. auto. Qed.

(** *** Money *)

Section Money.
Context {A B : Type}.
Lemma money_ret (a : A) : money (mret a).
Proof. by intros s. Qed.
Lemma money_lift (r : result PaperError A) : money (lift r).
Proof. by intros s. Qed.
Lemma money_gets (f : Session -> A) : money (gets f).
Proof. by intros s. Qed.
Lemma money_bind (m : Op A) (k : A -> Op B) : money m -> (forall a, money (k a)) -> money (m ≫= k).
Proof.
  intros Hm Hk s. destruct (Hm s) as (O & N & D). unfold mbind, ST_bind. destruct (m s) as [[a|e] s1]; [|done]. cbn [snd] in *.
  destruct (Hk a s1) as (O1 & N1 & D1). split; [|by rewrite N1, D1]. intros b. destruct (O b), (O1 b). split; congruence.
Qed.
Lemma money_try (m : Op A) h : money m -> (forall e, money (h e)) -> money (tryCatch m h).
Proof.
  intros Hm Hh s. destruct (Hm s) as (O & N & D). unfold tryCatch. destruct (m s) as [[a|e] s1]; [done|]. cbn [snd] in *.
  destruct (Hh e s1) as (O1 & N1 & D1). split; [|by rewrite N1, D1]. intros b. destruct (O b), (O1 b). split; congruence.
Qed.
Lemma money_if (c : bool) (m m' : Op A) : money m -> money m' -> money (if c then m else m').
Proof. by destruct c. Qed.
Lemma money_ask (f : nat -> option A) : money (ask f).
Proof. intros s. unfold ask. cbn. split; [intros []|]; done. Qed.
Lemma money_get : money get.
Proof. by intros s. Qed.
Lemma money_fail e : money (fail e : Op A).
Proof. by intros s. Qed.
Lemma money_check c e : money (check c e).
Proof. by intros s. Qed.
End Money.

Lemma money_put b g :
  (forall a, acc_orders (g a) = acc_orders a /\ acc_trades (g a) = acc_trades a) -> money (put (on_book b g)).
Proof. intros H s. split; [|done]. intros []; destruct b; cbn; auto. Qed.

Create HintDb money discriminated.
#[export] Hint Resolve money_ret money_lift money_gets money_ask money_get money_fail money_check : money.

(** Walks an operation that only moves money. *)
Ltac money_step :=
  lazymatch goal with
  | |- money (_ ≫= _) => apply money_bind; [|intros ?]
  | |- money (tryCatch _ _) => apply money_try; [|intros ?]
  | |- money (match ?x with _ => _ end) => destruct x
  | |- money (put (on_book _ _)) => apply money_put; intros ?; done
  | |- money (let _ := _ in _) => cbv zeta
  | |- money _ => solve [auto with money]
  end.
Ltac money := repeat money_step.

Section Client.
Context (cfg : PaperConfig) (px : PaperExchange).

Lemma money_free asset : money (free_spot asset).
Proof. unfold free_spot. money. Qed.
Lemma money_set_spot asset x : money (set_spot asset x).
Proof. unfold set_spot. money. Qed.
Lemma money_credit asset x : money (credit asset x).
Proof. unfold credit. money. Qed.
Lemma money_reserve side symbol amount price : money (reserve cfg side symbol amount price).
Proof. unfold reserve. pose proof money_free. pose proof money_set_spot. money; eauto. Qed.
Lemma money_set_futures x : money (set_futures_free cfg x).
Proof. unfold set_futures_free. money. Qed.
Lemma money_now : money (now px).
Proof. unfold now. money. Qed.
Lemma money_ticker b symbol : money (fetchTicker px b symbol).
Proof. unfold fetchTicker. money. Qed.
Lemma money_markets b : money (loadMarkets px b).
Proof. unfold loadMarkets. money. Qed.
#[local] Hint Resolve money_free money_set_spot money_credit money_reserve money_set_futures money_now money_ticker
  money_markets : money.

Lemma money_apply o next : money (applyFuturesReservation cfg o next).
Proof. unfold applyFuturesReservation. money. Qed.
#[local] Hint Resolve money_apply : money.
Lemma money_reserve_futures o : money (reserveFuturesOrder cfg o).
Proof. unfold reserveFuturesOrder. money. Qed.
Lemma money_normalize input ticker : money (normalizeOrderInput cfg px input ticker).
Proof. unfold normalizeOrderInput. money. Qed.
Lemma money_lastPrice symbol : money (lastPrice px symbol).
Proof. unfold lastPrice. money. Qed.
Lemma money_validate symbol : money (validateFuturesMarket cfg px symbol).
Proof. unfold validateFuturesMarket. money. Qed.
Lemma money_ticker_of b symbol seen : money (ticker_of px b symbol seen).
Proof. unfold ticker_of. money. Qed.
Lemma money_path_of b o last time since seen : money (path_of px b o last time since seen).
Proof. intros s. unfold path_of. cbn. split; [intros []|]; done. Qed.
Lemma money_price_of symbol prices : money (price_of px symbol prices).
Proof. unfold price_of. money. Qed.
#[local] Hint Resolve money_reserve_futures money_normalize money_lastPrice money_validate money_ticker_of money_path_of
  money_price_of : money.
Lemma money_groups markets entries prices : money (liquidation_groups cfg px markets entries prices).
Proof. revert prices. induction entries as [|[key e] rest IH]; intros prices; cbn [liquidation_groups]; money; eauto. Qed.
#[local] Hint Resolve money_groups : money.
Lemma money_liquidation_groups prices : money (futuresLiquidationGroups cfg px prices).
Proof. unfold futuresLiquidationGroups. money. Qed.
#[local] Hint Resolve money_liquidation_groups : money.

(** What a reservation returns is the order it was asked for. *)
Lemma apply_returns o x s o' : fst (applyFuturesReservation cfg o x s) = Ok o' -> o' = set_margin x o.
Proof.
  unfold applyFuturesReservation, mbind, ST_bind. cbn. destruct (negb _); cbn; [|by intros [= <-]].
  unfold throwIf. destruct (_ && _); cbn; [done|by intros [= <-]].
Qed.

Lemma bind_fst {X Y} (m : Op X) (k : X -> Op Y) s y :
  fst ((m ≫= k) s) = Ok y -> exists x s', fst (k x s') = Ok y.
Proof. unfold mbind, ST_bind. destruct (m s) as [[x|e] s']; [by eauto|done]. Qed.

Lemma reserve_returns o s o' : fst (reserveFuturesOrder cfg o s) = Ok o' -> exists x, o' = set_margin x o.
Proof.
  unfold reserveFuturesOrder. destruct (reduce_only o); [intros H%apply_returns; eauto|].
  destruct (ord_reservePrice o) as [p|]; [|done]. destruct (negb _); [done|]. destruct (remaining o <=? 0)%float;
    [intros H%apply_returns; eauto|].
  do 3 (intros (? & ? & H)%bind_fst; revert H). intros H%apply_returns. eauto.
Qed.

Lemma reserve_triple P o (E : PaperError -> Session -> Prop) :
  about_orders P -> (forall e s, P s -> E e s) ->
  triple P (reserveFuturesOrder cfg o) (fun o' s => P s /\ exists x, o' = set_margin x o) E.
Proof.
  intros K HE s W HP. destruct (triple_money P _ E (money_reserve_futures o) K HE s W HP) as (W' & L & H).
  split_and!; try done. destruct (fst (reserveFuturesOrder cfg o s)) as [o'|e] eqn:R; [|done].
  split; [done|by eapply reserve_returns].
Qed.

End Client.
#[export] Hint Resolve money_free money_set_spot money_credit money_reserve money_set_futures money_now money_ticker
  money_markets money_apply money_reserve_futures money_normalize money_lastPrice money_validate money_ticker_of money_path_of
  money_price_of money_groups money_liquidation_groups : money.

(** *** Orders of a book *)

Definition orders (b : Book) (s : Session) : list PaperOrder := acc_orders (book_account b s).

(** The order [o] was read from is still there and open. *)
Definition Alive (b : Book) (o : PaperOrder) (s : Session) : Prop := exists o1, In o1 (orders b s) /\ Same o o1.

(** Every other leg of the order's group is cancelled. *)
Definition Alone (b : Book) (o : PaperOrder) (s : Session) : Prop :=
  forall x, In x (orders b s) -> legs x o -> ord_id x <> ord_id o -> ord_status x = PaperCanceled.

Lemma about_alive b o : about_orders (Alive b o).
Proof. intros s s' E _ (o1 & H & S). exists o1. split; [|done]. unfold orders. by rewrite E. Qed.
Lemma about_alone b o : about_orders (Alone b o).
Proof. intros s s' E _ H x. unfold orders. rewrite E. apply H. Qed.
Lemma about_always : about_orders always.
Proof. done. Qed.
Lemma about_and P Q : about_orders P -> about_orders Q -> about_orders (fun s => P s /\ Q s).
Proof. intros HP HQ s s' E N [H1 H2]. split; [by eapply HP|by eapply HQ]. Qed.
Lemma about_next n : about_orders (fun s => ss_nextOrderId s = n).
Proof. intros s s' _ -> H. done. Qed.
Lemma about_in b o : about_orders (fun s => In o (orders b s)).
Proof. intros s s' E _ H. unfold orders in *. by rewrite E. Qed.
#[export] Hint Resolve about_alive about_alone about_always about_and about_next about_in : ti.

Lemma alive_here b o s : In o (orders b s) -> is_open o = true -> Alive b o s.
Proof. intros H Op. exists o. split; [done|by apply same_refl]. Qed.

Lemma alive_same b o o' s : Same o o' -> Alive b o s -> Alive b o' s.
Proof. intros S (o1 & H & S1). exists o1. split; [done|]. eapply same_trans; [by apply same_sym|done]. Qed.

(** The open order of an id is the one that is looked up. *)
Lemma alive_lookup b o s : Ordered s -> Alive b o s ->
  exists o1, order_by_id (ord_id o) (book_account b s) = Some o1 /\ In o1 (orders b s) /\ Same o o1.
Proof.
  intros W (o1 & H & S). pose proof (ordered_book s W b) as [U _ _ _ _]. exists o1. split; [|done].
  unfold order_by_id. destruct (find _ _) as [x|] eqn:F.
  - apply find_some in F as [Hx E%String.eqb_eq]. f_equal. apply (U o1 x H Hx); [|apply S].
    rewrite E. by rewrite (same_id _ _ S).
  - exfalso. apply (find_none _ _ F) in H. rewrite (same_id _ _ S), String.eqb_refl in H. done.
Qed.

Lemma lookup_in b id s o : order_by_id id (book_account b s) = Some o -> In o (orders b s) /\ ord_id o = id.
Proof. intros [H E%String.eqb_eq]%find_some. done. Qed.

(** Changing the orders of one book. *)
Lemma change_orders b g s :
  Ordered s -> (forall a, acc_trades (g a) = acc_trades a) ->
  Orderly (ss_nextOrderId s) (acc_orders (g (book_account b s))) -> Evolves (orders b s) (acc_orders (g (book_account b s))) ->
  Ordered (on_book b g s) /\ Later s (on_book b g s).
Proof.
  intros W T O Ev. split; constructor; intros c.
  - destruct b, c; cbn in *; try done; [apply (ordered_book s W FuturesBook)|apply (ordered_book s W SpotBook)].
  - destruct b, c; cbn in *; try apply grows_refl; by (split; [done|rewrite T]).
  - left. by destruct b.
Qed.

Lemma orders_on b g s : orders b (on_book b g s) = acc_orders (g (book_account b s)).
Proof. by destruct b. Qed.
Lemma next_on b g s : ss_nextOrderId (on_book b g s) = ss_nextOrderId s.
Proof. done. Qed.

(** A new state of an order that is alive. *)
Lemma assign_alive b o f s :
  Ordered s -> Alive b o s -> (forall o1, Same o o1 -> OrderStep o1 (f o1)) ->
  (forall o1, Same o o1 -> is_closed (f o1) = true -> Alone b o s) ->
  Ordered (on_book b (update_order (ord_id o) f) s) /\ Later s (on_book b (update_order (ord_id o) f) s) /\
  exists o1, In o1 (orders b s) /\ Same o o1 /\ In (f o1) (orders b (on_book b (update_order (ord_id o) f) s)).
Proof.
  intros W (o1 & H & S) St Al. pose proof (ordered_book s W b) as Or.
  destruct (orderly_assign _ _ o1 f Or H (same_open' _ _ S) (St o1 S)) as [O' E'].
  { intros C x Hx Lg Ne. apply (Al o1 S C x Hx); [|by rewrite <- (same_id _ _ S)].
    destruct Lg as (g & H1 & H2). exists g. split; [done|]. unfold oco_group in *. by rewrite <- (same_group_of _ _ S). }
  rewrite (same_id _ _ S) in O', E'.
  destruct (change_orders b (update_order (ord_id o) f) s W) as [W' L]; [done|exact O'|exact E'|].
  split; [done|]. split; [done|]. exists o1. split; [done|]. split; [done|]. rewrite orders_on. apply in_assigned.
  exists o1. split; [done|]. by rewrite (same_id _ _ S), String.eqb_refl.
Qed.

(** *** What idle steps keep *)

(** No order of this id is filled. *)
Definition Unfilled (b : Book) (id : string) (s : Session) : Prop :=
  forall x, In x (orders b s) -> ord_id x = id -> is_closed x = false.

Lemma alive_unfilled b o s : Ordered s -> Alive b o s -> Unfilled b (ord_id o) s.
Proof.
  intros W (o1 & H & S) x Hx E. pose proof (ordered_book s W b) as [U _ _ _ _].
  assert (x = o1) as -> by (apply (U o1 x H Hx); [by rewrite E, (same_id _ _ S)|apply S]). apply open_not_closed, S.
Qed.

Record Idle (s s' : Session) : Prop := {
  idle_alive b x : Alive b x s -> Alive b x s';
  idle_alone b x : Alone b x s -> Alone b x s';
  idle_unfilled b id : Unfilled b id s -> Unfilled b id s'
}.

(** What idle steps keep. *)
Definition Stable (P : Session -> Prop) : Prop := forall s s', Idle s s' -> P s -> P s'.

Lemma stable_always : Stable always.
Proof. done. Qed.
Lemma stable_alive b o : Stable (Alive b o).
Proof. intros s s' I. apply I. Qed.
Lemma stable_alone b o : Stable (Alone b o).
Proof. intros s s' I. apply I. Qed.
Lemma stable_unfilled b id : Stable (Unfilled b id).
Proof. intros s s' I. apply I. Qed.
Lemma stable_and P Q : Stable P -> Stable Q -> Stable (fun s => P s /\ Q s).
Proof. intros HP HQ s s' I [H1 H2]. split; [by eapply HP|by eapply HQ]. Qed.
Lemma stable_all {A} (l : list A) (P : A -> Session -> Prop) : (forall x, Stable (P x)) -> Stable (fun s => Forall (fun x => P x s) l).
Proof. intros H s s' I F. eapply Forall_impl; [exact F|]. intros x. by apply H. Qed.
#[export] Hint Resolve stable_always stable_alive stable_alone stable_unfilled stable_and stable_all : ti.

(** Orders that are only cancelled or moved about, by book. *)
Lemma idle_orders s s' :
  (forall b x, In x (orders b s') -> In x (orders b s)) -> (forall b x, In x (orders b s) -> In x (orders b s')) -> Idle s s'.
Proof.
  intros I1 I2. constructor; intros b.
  - intros x (o1 & H & S). exists o1. auto.
  - intros x H y Hy. apply H. auto.
  - intros id H y Hy. apply H. auto.
Qed.

Lemma stable_about P : Stable P -> about_orders P.
Proof. intros H s s' E _. apply H. apply idle_orders; intros b x; unfold orders; by rewrite E. Qed.
#[export] Hint Resolve stable_about : ti.

Lemma idle_map b f g s :
  (forall a, acc_orders (g a) = map f (acc_orders a)) ->
  (forall o, In o (orders b s) -> OrderStep o (f o)) -> (forall o, In o (orders b s) -> is_open o = true -> is_closed (f o) = false) ->
  let s' := on_book b g s in
  (forall b' x, Alone b' x s -> Alone b' x s') /\ (forall b' id, Unfilled b' id s -> Unfilled b' id s') /\
  (forall b' x, (b' = b -> forall o1, In o1 (orders b s) -> Same x o1 -> is_open (f o1) = true) -> Alive b' x s -> Alive b' x s').
Proof.
  intros G St Cl s'.
  assert (Or : forall b', orders b' s' = if decide (b' = b) then map f (orders b s) else orders b' s).
  { intros b'. unfold orders, s'. destruct b, b'; cbn; rewrite ?G; done. }
  split_and!; intros b' x.
  - intros H y Hy Lg Ne. rewrite Or in Hy. destruct (decide (b' = b)) as [->|]; [|by apply H].
    apply in_map_iff in Hy as (o & <- & Ho). rewrite (step_id _ _ (St o Ho)) in Ne.
    assert (Lg' : legs o x) by (destruct Lg as (k & H1 & H2); exists k; unfold oco_group in *; by rewrite (step_group _ _ (St o Ho)) in H1).
    pose proof (H o Ho Lg' Ne) as C. rewrite (step_status _ _ (St o Ho)); [done|]. unfold is_open. by rewrite C.
  - intros H y Hy E. rewrite Or in Hy. destruct (decide (b' = b)) as [->|]; [|by apply (H y)].
    apply in_map_iff in Hy as (o & <- & Ho). rewrite (step_id _ _ (St o Ho)) in E. destruct (is_open o) eqn:Op; [by apply Cl|].
    unfold is_closed. rewrite (step_status _ _ (St o Ho) Op). by apply H.
  - intros Hx (o1 & H1 & S1). unfold Alive. rewrite Or. destruct (decide (b' = b)) as [->|]; [|by exists o1].
    exists (f o1). split; [by apply in_map|]. pose proof (same_open' _ _ S1) as Op1. eapply same_trans; [exact S1|].
    constructor; [done|by apply Hx|by apply St|]. apply (St o1 H1). by apply Cl.
Qed.

(** Steps of the orders of a book, none of which is a fill. *)
Lemma map_orders b f g s :
  Ordered s -> (forall a, acc_orders (g a) = map f (acc_orders a) /\ acc_trades (g a) = acc_trades a) ->
  (forall o, In o (orders b s) -> OrderStep o (f o)) -> (forall o, In o (orders b s) -> is_open o = true -> is_closed (f o) = false) ->
  Ordered (on_book b g s) /\ Later s (on_book b g s).
Proof.
  intros W G St Cl. pose proof (ordered_book s W b) as Or.
  destruct (orderly_steps _ _ f Or St) as [O' E'].
  { intros o o' Ho _ _ Op C. rewrite Cl in C by done. done. }
  assert (T : forall a, acc_trades (g a) = acc_trades a) by (intros a; apply G).
  apply change_orders; try done; destruct (G (book_account b s)) as [-> _]; done.
Qed.
