(* ===== verification/PaperSteps.v ===== *)
(** * What the operations of the paper client do to orders

    The steps of the ledgers, of the settlement pass and of the operations, each as a
    triple over the orders of the two books. *)

From Stdlib Require Import ZArith Lia Bool Ascii Floats.
From stdpp Require Import base strings option list pretty.
From S2P Require Import Prelude JsNumber JsObject JsValue JsFloat JsMath JsText AccountRisk RiskState Execution.
From S2P Require Import Capabilities ExecutionRecovery PaperAccount PaperPath PaperStore PaperSession PaperLedger PaperFutures.
From S2P Require Import PaperClient PaperLife.

Local Open Scope Z_scope.

(** An error that is neither of the two a settlement pass recovers from. *)
Definition calm (e : PaperError) : Prop := is_margin_error e = false /\ isStaleFuturesWorkingOrderError e = false.

Lemma base_calm symbol q : match base_of symbol q with Ok _ => True | Throw e => calm e end.
Proof. unfold base_of. by destruct (baseAsset symbol q). Qed.

(** *** Idle steps *)

Lemma triple_idle P f (E : PaperError -> Session -> Prop) :
  Stable P -> (forall s, Ordered s -> P s -> Ordered (f s) /\ Later s (f s) /\ Idle s (f s)) ->
  triple P (put f) (fun _ => P) E.
Proof. intros K H. apply triple_put. intros s W HP. destruct (H s W HP) as (? & ? & I). split_and!; try done. by eapply K. Qed.

Lemma unreserved_idle b id s :
  Ordered s -> let s' := on_book b (update_order id (set_margin 0)) s in Ordered s' /\ Later s s' /\ Idle s s'.
Proof.
  intros W s'. set (f := fun o => if String.eqb (ord_id o) id then set_margin 0 o else o).
  assert (St : forall o, OrderStep o (f o)) by (intros o; unfold f; destruct (String.eqb _ _); [apply margin_step|apply step_refl]).
  assert (Cl : forall o, is_open o = true -> is_closed (f o) = false)
    by (intros o H%open_not_closed; unfold f; by destruct (String.eqb _ _)).
  destruct (map_orders b f (update_order id (set_margin 0)) s W) as [W' L]; [done| |auto|].
  { intros o _. apply St. }
  destruct (idle_map b f (update_order id (set_margin 0)) s) as (A1 & A2 & A3); [done|auto|auto|].
  split_and!; try done. constructor; auto. intros b' x. apply A3. intros _ o1 _ S1. unfold f. destruct (String.eqb _ _); apply S1.
Qed.

(** An order that is stored as it now is. *)
Lemma stored_idle b o s :
  Ordered s -> Alive b o s -> let s' := on_book b (update_order (ord_id o) (fun _ => o)) s in Ordered s' /\ Later s s' /\ Idle s s'.
Proof.
  intros W Al s'. pose proof Al as (o1 & H1 & S1). set (f := fun x => if String.eqb (ord_id x) (ord_id o) then o else x).
  assert (T : forall x, In x (orders b s) -> f x = x \/ (x = o1 /\ f x = o)).
  { intros x Hx. unfold f. destruct (String.eqb_spec (ord_id x) (ord_id o)) as [E|]; [right|by left].
    pose proof (ordered_book s W b) as [U _ _ _ _]. split; [|done]. apply (U o1 x H1 Hx); [|apply S1]. by rewrite (same_id _ _ S1). }
  assert (S1' : Same o1 o) by (by apply same_sym).
  assert (St : forall x, In x (orders b s) -> OrderStep x (f x)).
  { intros x Hx. destruct (T x Hx) as [->|[-> ->]]; [apply step_refl|by apply same_step]. }
  assert (Op : forall x, In x (orders b s) -> is_open x = true -> is_open (f x) = true).
  { intros x Hx Hop. destruct (T x Hx) as [->|[-> ->]]; [done|apply S1']. }
  assert (Cl : forall x, In x (orders b s) -> is_open x = true -> is_closed (f x) = false) by (intros; apply open_not_closed; auto).
  destruct (map_orders b f (update_order (ord_id o) (fun _ => o)) s W) as [W' L]; [done|auto|auto|].
  destruct (idle_map b f (update_order (ord_id o) (fun _ => o)) s) as (A1 & A2 & A3); [done|auto|auto|].
  split_and!; try done. constructor; auto. intros b' x. apply A3. intros _ y Hy S. apply Op; [done|apply S].
Qed.

Lemma store_triple b o P (E : PaperError -> Session -> Prop) :
  Stable P -> (forall s, P s -> Alive b o s) -> triple P (put (on_book b (update_order (ord_id o) (fun _ => o)))) (fun _ => P) E.
Proof. intros K H. apply triple_idle; [done|]. intros s W HP. apply stored_idle; auto. Qed.

Lemma trades_idle b t s : Ordered s -> let s' := on_book b (add_trade t) s in Ordered s' /\ Later s s' /\ Idle s s'.
Proof.
  intros W s'. assert (O : forall b', orders b' s' = orders b' s) by (intros b'; by destruct b, b'). split_and!.
  - constructor. intros b'. change (Orderly (ss_nextOrderId s) (orders b' s')). rewrite O. apply W.
  - constructor; intros b'; [|by left]. split; [change (Evolves (orders b' s) (orders b' s')); rewrite O; apply evolves_refl|].
    destruct b, b'; cbn; try done; by apply prefix_app_r.
  - apply idle_orders; intros b' x; by rewrite O.
Qed.

Lemma put_money_triple P b g (E : PaperError -> Session -> Prop) :
  Stable P -> (forall a, acc_orders (g a) = acc_orders a /\ acc_trades (g a) = acc_trades a) ->
  triple P (put (on_book b g)) (fun _ => P) E.
Proof.
  intros K G. apply triple_put. intros s W HP.
  by destruct (triple_money P _ whatever (money_put b g G) (stable_about _ K) (fun _ _ _ => I) s W HP).
Qed.

Section Steps.
Context (cfg : PaperConfig) (px : PaperExchange).

Lemma release_triple b o P :
  Stable P -> triple P (releaseReservation cfg b o) (fun _ => P) (fun e s => calm e /\ P s).
Proof.
  intros K. unfold releaseReservation, credit. destruct (isFuturesSymbol cfg (ord_symbol o)).
  - apply (triple_bind _ _ _ _ (fun _ => P)).
    + destruct (0 <? ord_margin o)%float; [by apply put_money_triple|by apply triple_ret].
    + intros _. apply triple_idle; [done|]. intros s W _. by apply unreserved_idle.
  - destruct (ord_side o).
    + destruct (unit_price o); [by apply put_money_triple|by apply triple_ret].
    + apply (triple_bind _ _ _ _ (fun _ => P)); [|intros a; by apply put_money_triple].
      apply triple_lift. intros s HP. pose proof (base_calm (ord_symbol o) (quote cfg)) as C. by destruct (base_of _ _).
Qed.

(** Cancelling the orders of an id. *)
Lemma cancel_unfilled b id P (E : PaperError -> Session -> Prop) :
  (forall s, P s -> Unfilled b id s) ->
  (forall s s', (forall b' id', Unfilled b' id' s -> Unfilled b' id' s') -> P s -> P s') ->
  triple P (put (on_book b (update_order id (set_status PaperCanceled)))) (fun _ => P) E.
Proof.
  intros HU HP. apply triple_put. intros s W Hs. specialize (HU s Hs).
  set (f := fun o => if String.eqb (ord_id o) id then set_status PaperCanceled o else o).
  assert (St : forall o, In o (orders b s) -> OrderStep o (f o)).
  { intros o Ho. unfold f. destruct (String.eqb_spec (ord_id o) id) as [E1|]; [|apply step_refl].
    pose proof (HU o Ho E1) as C. pose proof (cancel_step o) as S. destruct (is_open o) eqn:Op; [done|].
    assert (set_status PaperCanceled o = o) as ->; [|apply step_refl]. unfold is_open, is_closed in *.
    destruct o as [?????????????? []]; cbn in *. by destruct st_status. }
  assert (Cl : forall o, In o (orders b s) -> is_open o = true -> is_closed (f o) = false).
  { intros o _ Op%open_not_closed. unfold f. by destruct (String.eqb _ _). }
  destruct (map_orders b f (update_order id (set_status PaperCanceled)) s W) as [W' L]; try done.
  destruct (idle_map b f (update_order id (set_status PaperCanceled)) s) as (A1 & A2 & A3); try done.
  split_and!; try done. eapply HP; [|exact Hs]. auto.
Qed.

Lemma cancel_order_triple b o :
  triple (Unfilled b (ord_id o)) (cancel_order cfg b o) whatever (fun e _ => calm e).
Proof.
  unfold cancel_order. apply (triple_bind _ _ _ _ (fun _ => Unfilled b (ord_id o))).
  - apply cancel_unfilled; auto.
  - intros _. eapply triple_conseq; [apply (release_triple b o always); auto with ti| | |]; try done. by intros ? ? [].
Qed.

(** Cancelling the other legs of an order's group. *)
Lemma siblings_map b o keep s :
  oco_group o <> None ->
  let f := fun x => if same_group x o && negb (keep x) && is_open x then set_status PaperCanceled x else x in
  let s' := on_book b (fun a => with_orders (map f (acc_orders a)) a) s in
  Ordered s -> Ordered s' /\ Later s s' /\ (forall b' id, Unfilled b' id s -> Unfilled b' id s') /\
  (forall x, (forall o1, Same x o1 -> is_open (f o1) = true) -> Alive b x s -> Alive b x s').
Proof.
  intros _ f s' W.
  assert (St : forall o, OrderStep o (f o)).
  { intros x. pose proof (cancel_step x) as S. unfold f. destruct (same_group x o && negb (keep x)); cbn; [done|apply step_refl]. }
  assert (Cl : forall x, is_open x = true -> is_closed (f x) = false).
  { intros x Op%open_not_closed. unfold f. by destruct (_ && _). }
  set (g := fun a => with_orders (map f (acc_orders a)) a).
  destruct (map_orders b f g s W) as [W' L]; try done; try (intros; by apply St); try (intros; by apply Cl).
  destruct (idle_map b f g s) as (A1 & A2 & A3); try done; try (intros; by apply St); try (intros; by apply Cl).
  split_and!; try done. intros x Hx. apply A3. intros _ o1 _. apply Hx.
Qed.

Lemma siblings_triple b o keep P (E : PaperError -> Session -> Prop) :
  (forall s s', (forall b' id', Unfilled b' id' s -> Unfilled b' id' s') -> P s -> P s') ->
  triple P (cancel_siblings b o keep) (fun _ => P) E.
Proof.
  intros HP. unfold cancel_siblings. destruct (oco_group o) as [g|] eqn:G; [|by apply triple_ret].
  apply triple_put. intros s W Hs. destruct (siblings_map b o keep s) as (? & ? & U & _); [congruence|done|]. split_and!; try done.
  by eapply HP.
Qed.

(** The order that is filled is left alone in its group. *)
Lemma siblings_alone b o (E : PaperError -> Session -> Prop) :
  triple (Alive b o) (cancel_siblings b o (fun sibling => String.eqb (ord_id sibling) (ord_id o)))
    (fun _ s => Alive b o s /\ Alone b o s) E.
Proof.
  unfold cancel_siblings. destruct (oco_group o) as [g|] eqn:G.
  - apply triple_put. intros s W Al. destruct (siblings_map b o (fun x => String.eqb (ord_id x) (ord_id o)) s) as (? & ? & _ & A); [congruence|done|].
    split_and!; try done.
    + apply A; [|done]. intros o1 S. rewrite (same_id _ _ S), String.eqb_refl, andb_false_r. apply S.
    + intros y Hy Lg Ne. destruct Al as (o1 & H1 & S1).
      assert (exists x, In x (orders b s) /\ y = if same_group x o && negb (String.eqb (ord_id x) (ord_id o)) && is_open x then set_status PaperCanceled x else x)
        as (x & Hx & ->) by (destruct b; apply in_map_iff in Hy as (x & <- & Hx); eauto).
      assert (Ix : ord_id x <> ord_id o) by (intros Eq; apply Ne; by destruct (_ && _)).
      assert (Lx : legs x o) by (destruct Lg as (k & L1 & L2); exists k; by destruct (_ && _)).
      assert (same_group x o = true) as ->.
      { unfold same_group. apply bool_decide_eq_true. destruct Lx as (k & L1 & L2). unfold oco_group in *.
        destruct (ord_ocoGroup x) as [gx|], (ord_ocoGroup o) as [go|]; try done.
        destruct (String.eqb gx ""), (String.eqb go ""); congruence. }
      assert (String.eqb (ord_id x) (ord_id o) = false) as -> by (by apply String.eqb_neq). cbn.
      destruct (is_open x) eqn:Ox; [done|]. destruct (is_closed x) eqn:Cx; [exfalso|].
      * assert (ord_status o1 = PaperCanceled) as C.
        { apply (ord_legs _ _ (ordered_book s W b) x o1); try done; [|by rewrite (same_id _ _ S1); congruence].
          destruct Lx as (k & L1 & L2). exists k. split; [done|]. unfold oco_group in *. by rewrite (same_group_of _ _ S1). }
        pose proof (same_open' _ _ S1) as Op. unfold is_open in Op. by rewrite C in Op.
      * unfold is_open, is_closed in *. by destruct (ord_status x).
  - apply triple_ret. intros s Al. split; [done|]. intros y _ (k & _ & L). congruence.
Qed.

(** ** Futures orders *)

Lemma alive_open b o s : Alive b o s -> is_open o = true.
Proof. by intros (? & ? & []). Qed.

(** A new margin is stored in the order it was found for. *)
Lemma margined_stored (m : Op PaperOrder) o P (E : PaperError -> Session -> Prop) :
  money m -> (forall s o', fst (m s) = Ok o' -> exists x, o' = set_margin x o) ->
  Stable P -> (forall e s, P s -> E e s) -> (forall s, P s -> Alive FuturesBook o s) ->
  triple P (o' ← m; store_order o') (fun _ => P) E.
Proof.
  intros M R K HE HA. apply (triple_bind _ _ _ _ (fun o' s => P s /\ exists x, o' = set_margin x o)).
  - intros s W HP. destruct (triple_money P m E M (stable_about _ K) HE s W HP) as (W' & L & H). split_and!; try done.
    destruct (fst (m s)) as [o'|e] eqn:F; [|done]. split; [done|by eapply R].
  - intros o'. intros s W [HP (x & ->)]. revert s W HP. apply store_triple; [done|]. intros s HP.
    apply (alive_same _ o); [|auto]. apply margin_same. by eapply alive_open, HA.
Qed.

Lemma reserved_stored o P (E : PaperError -> Session -> Prop) :
  Stable P -> (forall e s, P s -> E e s) -> (forall s, P s -> Alive FuturesBook o s) ->
  triple P (o' ← reserveFuturesOrder cfg o; store_order o') (fun _ => P) E.
Proof. intros. apply (margined_stored _ o); auto with money. intros s o'. apply reserve_returns. Qed.

Lemma sync_triple o fillPrice P :
  Stable P -> (forall s, P s -> Alive FuturesBook o s) ->
  triple P (syncFuturesOpeningReserve cfg o fillPrice) (fun _ => P) (fun e s => is_margin_error e = false /\ P s).
Proof.
  intros K HA. unfold syncFuturesOpeningReserve. destruct (reduce_only o); [by apply triple_ret|]. cbv zeta.
  destruct (negb _); [by apply triple_ret|]. set (o1 := set_reservePrice _ o).
  apply (triple_try _ _ _ _ _ (fun _ => P)).
  - intros s W HP. assert (Op : is_open o = true) by (by eapply alive_open, HA).
    assert (A1 : forall s, P s -> Alive FuturesBook o1 s) by (intros s1 H; apply (alive_same _ o); [by apply reservePrice_same|auto]).
    revert s W HP. eapply triple_conseq with (P' := P) (Q' := fun _ => P) (E' := fun _ => P); try done.
    intros s W HP. pose proof (reserved_stored o1 P (fun _ => P) K (fun _ _ H => H) A1 s W HP) as T. revert T.
    unfold mbind, ST_bind. destruct (reserveFuturesOrder cfg o1 s) as [[o'|e] s']; cbn; [|done]. done.
  - intros e. destruct (is_margin_error e) eqn:M; [by apply triple_ret|].
    apply triple_lift. done.
Qed.

Lemma each_order_triple (body : PaperOrder -> Op bool) ids dirty E :
  (forall o, triple (fun s => In o (orders FuturesBook s)) (body o) whatever E) ->
  triple always (each_order ids dirty body) whatever E.
Proof.
  intros H. revert dirty. induction ids as [|id rest IH]; intros dirty; cbn [each_order]; [by apply triple_ret|].
  apply (triple_bind _ _ _ _ (fun r s => match r with Some o => In o (orders FuturesBook s) | None => True end)).
  - apply triple_gets. intros s _ _. destruct (order_by_id id (ss_futures s)) as [o|] eqn:F; [|done].
    by apply (lookup_in FuturesBook) in F as [].
  - intros r. apply (triple_bind _ _ _ _ whatever); [|intros d; apply IH]. destruct r as [o|]; [apply H|by apply triple_ret].
Qed.

Lemma order_key_calm o : match order_key cfg o with Ok _ => True | Throw e => calm e end.
Proof. unfold order_key, mbind, result_bind. pose proof (base_calm (ord_symbol o) (futures_quote cfg)) as C. by destruct (base_of _ _). Qed.

Lemma orphaned_triple : triple always (cancelOrphanedFuturesReduceOrders cfg) whatever (fun e _ => calm e).
Proof.
  unfold cancelOrphanedFuturesReduceOrders. apply (triple_bind _ _ _ _ whatever); [by apply triple_gets|]. intros ids.
  apply each_order_triple. intros o. destruct (is_open o) eqn:Op; [|by apply triple_ret]. cbn [negb orb].
  destruct (negb _); [by apply triple_ret|]. set (P := fun s => In o (orders FuturesBook s)).
  apply (triple_bind _ _ _ _ (fun _ => P)).
  { apply triple_lift. intros s HP. pose proof (order_key_calm o) as C. by destruct (order_key cfg o). }
  intros key. apply (triple_bind _ _ _ _ (fun _ => P)); [by apply triple_gets|]. intros e.
  destruct (fits_position o e); [by apply triple_ret|]. apply (triple_bind _ _ _ _ whatever); [|intros; by apply triple_ret].
  intros s W HP. apply (cancel_order_triple FuturesBook o s W). apply alive_unfilled; [done|]. by apply alive_here.
Qed.

Lemma refresh_triple : triple always (refreshFuturesOpeningReserves cfg) whatever (fun e _ => calm e).
Proof.
  unfold refreshFuturesOpeningReserves. apply (triple_bind _ _ _ _ whatever); [by apply triple_gets|]. intros ids.
  apply (triple_bind _ _ _ _ whatever); [|intros; by apply triple_ret]. apply each_order_triple. intros o.
  destruct (is_open o) eqn:Op; [|by apply triple_ret]. cbn [negb].
  eapply triple_conseq with (P' := Alive FuturesBook o) (Q' := whatever) (E' := fun e _ => calm e); try done.
  2: { intros s H. by apply alive_here. }
  eapply (triple_try _ _ _ _ _ (fun e s => is_margin_error e = false /\ Alive FuturesBook o s)).
  - eapply triple_conseq; [apply sync_triple with (P := Alive FuturesBook o); auto with ti| | |]; done.
  - intros e. destruct (isStaleFuturesWorkingOrderError e) eqn:S.
    + apply (triple_bind _ _ _ _ whatever); [|intros; by apply triple_ret]. intros s W [_ A].
      apply (cancel_order_triple FuturesBook o s W). by apply alive_unfilled.
    + apply triple_lift. by intros s [].
Qed.

(** ** New orders *)

(** The numbers from [n] on are not in use yet. *)
Definition Early (n m : Z) (s : Session) : Prop := (forall b, Orderly n (orders b s)) /\ ss_nextOrderId s = m.

Lemma about_early n m : about_orders (Early n m).
Proof. intros s s' O N [H1 H2]. split; [|by rewrite N]. intros b. unfold orders. rewrite O. apply H1. Qed.

Lemma next_triple n m P (E : PaperError -> Session -> Prop) :
  n <= m -> Stable P -> triple (fun s => ss_nextOrderId s = n /\ P s) (put (with_next m)) (fun _ s => Early n m s /\ P s) E.
Proof.
  intros Hm K. apply triple_put. intros s W [<- HP].
  assert (O : forall b, orders b (with_next m s) = orders b s) by (by intros []).
  split; [|split; [|split; [split; [|done]|]]].
  - constructor. intros b. eapply orderly_later; [|exact Hm]. unfold orders in O. rewrite O. apply W.
  - constructor; intros b; [destruct b; apply grows_refl|by left].
  - intros b. rewrite O. apply W.
  - eapply K; [|exact HP]. apply idle_orders; intros b x; by rewrite O.
Qed.

(** An order under a number that was not in use, in no group. *)
Lemma numbered_push n m l o :
  Orderly n l -> n < m -> ord_id o = id_text n -> ord_ocoGroup o = None -> Orderly m (app l [o]).
Proof.
  intros W Hm I G. apply (orderly_push n); try done; try lia; rewrite ?I.
  - intros x Hx Ex. by destruct (ord_fresh _ _ W x n Hx (Z.le_refl n)).
  - intros k Hk Ek. apply id_text_inj in Ek. lia.
  - intros _ k _. apply id_not_liquidation.
  - intros k _. by rewrite G.
  - intros x _ (g & _ & L). unfold oco_group in L. by rewrite G in L.
Qed.

Lemma push_later b l n m s :
  Early n m s -> n <= m -> Orderly m (app (orders b s) l) ->
  let s' := on_book b (fun a => with_orders (app (acc_orders a) l) a) s in Ordered s' /\ Later s s'.
Proof.
  intros [W N] Hm O s'.
  assert (Or : forall b', orders b' s' = if decide (b' = b) then app (orders b s) l else orders b' s) by (intros b'; by destruct b, b').
  split.
  - constructor. intros b'. change (Orderly (ss_nextOrderId s) (orders b' s')). rewrite N, Or.
    destruct (decide (b' = b)); [done|]. eapply orderly_later; [apply W|done].
  - constructor; intros b'; [|by left]. split; [|by destruct b, b'].
    change (Evolves (orders b' s) (orders b' s')). rewrite Or. destruct (decide (b' = b)) as [->|]; auto with ti.
Qed.

Lemma push_triple b n o (E : PaperError -> Session -> Prop) :
  ord_id o = id_text n -> ord_ocoGroup o = None ->
  triple (fun s => Early n (n + 1) s /\ True) (put (on_book b (push_order o))) whatever E.
Proof.
  intros I G. apply triple_put. intros s W [H _]. destruct (push_later b [o] n (n + 1) s H) as [W' L]; [lia| |done].
  apply (numbered_push n); try done; [|lia]. by destruct H.
Qed.

(** The two legs of a new group. *)
Lemma oco_push n l a c :
  Orderly n l -> ord_id a = id_text n -> ord_id c = id_text (n + 1) -> is_open a = true -> is_open c = true ->
  ord_ocoGroup a = Some (group_name n) -> ord_ocoGroup c = Some (group_name n) -> Orderly (n + 2) (app l [a; c]).
Proof.
  intros W Ia Ic Oa Oc Ga Gc.
  assert (N : forall x o, In x l -> ord_ocoGroup o = Some (group_name n) -> ~ legs x o).
  { intros x o Hx Go (g & L1 & L2). unfold oco_group in *. rewrite Go in L2. cbn in L2. injection L2 as <-.
    destruct (ord_ocoGroup x) as [gx|] eqn:Gx; [|done]. destruct (String.eqb gx ""); [done|]. injection L1 as ->.
    by apply (ord_groups _ _ W x n Hx (Z.le_refl n)). }
  assert (Gn : forall k, n + 1 <= k -> Some (group_name n) <> Some (group_name k)).
  { intros k Hk [= E]. apply id_text_inj in E. lia. }
  assert (W1 : Orderly (n + 1) (app l [a])).
  { apply (orderly_push n); try done; try lia; rewrite ?Ia, ?Ga.
    - intros x Hx Ex. by destruct (ord_fresh _ _ W x n Hx (Z.le_refl n)).
    - intros k Hk Ek. apply id_text_inj in Ek. lia.
    - intros _ k _. apply id_not_liquidation.
    - done.
    - intros x Hx L. by destruct (N x a Hx Ga). }
  change (app l [a; c]) with (app l (app [a] [c])). rewrite app_assoc. apply (orderly_push (n + 1)); try done; try lia; rewrite ?Ic, ?Gc.
  - intros x Hx Ex. by destruct (ord_fresh _ _ W1 x (n + 1) Hx (Z.le_refl _)).
  - intros k Hk Ek. apply id_text_inj in Ek. lia.
  - intros _ k _. apply id_not_liquidation.
  - intros k Hk. apply Gn. lia.
  - intros x [Hx|[<-|[]]]%in_app_or L; [by destruct (N x c Hx Gc)|]. by rewrite !open_not_closed.
Qed.

Lemma persist_triple spot futures P (E : PaperError -> Session -> Prop) :
  Stable P -> triple P (persistAccountsUnlocked spot futures) (fun _ => P) E.
Proof.
  intros K. apply triple_idle; [done|]. intros s W _. split_and!.
  - constructor. intros b. destruct b; [apply (ordered_book s W SpotBook)|apply (ordered_book s W FuturesBook)].
  - constructor; intros b; [by destruct b; apply grows_refl|].
    unfold persistAccounts. destruct spot, futures, b; cbn; try (by left); right; eexists; (split; [reflexivity|]); apply grows_refl.
  - apply idle_orders; by intros [].
Qed.

(** ** Futures fills *)

Lemma filled_existing_step p notional fee o o1 : Same o o1 -> OrderStep o1 (filled_existing p notional fee o).
Proof.
  intros S. constructor; try done.
  - rewrite (same_fields _ _ S). by destruct o.
  - intros H. by rewrite (same_open' _ _ S) in H.
Qed.

(** The order of a fill: the working one, or a new one. *)
Definition filling (existing : option PaperOrder) (s : Session) : Prop :=
  match existing with Some o => Alive FuturesBook o s /\ Alone FuturesBook o s | None => True end.
Lemma stable_filling existing : Stable (filling existing).
Proof. destruct existing as [o|]; unfold filling; [apply stable_and; auto with ti|done]. Qed.

Lemma executeFuturesFill_triple input price persist existing :
  triple (filling existing) (executeFuturesFill cfg px input price persist existing) whatever
    (fun e s => calm e \/ filling existing s).
Proof.
  pose proof (stable_filling existing) as K. set (P := filling existing) in *. unfold executeFuturesFill.
  apply (triple_bind _ _ _ _ (fun _ => P)); [by apply triple_money; auto with money ti|]. intros s0.
  apply (triple_bind _ _ _ _ (fun _ => P)); [by apply triple_money; auto with money ti|]. intros p.
  apply (triple_bind _ _ _ _ (fun _ => P)); [by apply triple_money; auto with money ti|]. intros observation. cbv zeta.
  apply (triple_bind _ _ _ _ (fun _ => P)); [by apply triple_money; auto with money ti|]. intros _.
  apply (triple_bind _ _ _ _ (fun _ => P)); [by apply triple_money; auto with money ti|]. intros _.
  apply (triple_bind _ _ _ _ (fun _ => P)).
  { apply put_money_triple; [done|]. intros a. unfold position_after. by destruct (lots_after _ _). }
  intros _. apply (triple_bind _ _ _ _ whatever).
  - destruct existing as [o|]; subst P.
    + apply (triple_bind _ _ _ _ whatever); [|intros; by apply triple_ret]. apply triple_put. intros s W [A1 A2].
      destruct (assign_alive FuturesBook o (fun _ => filled_existing p (pr_requested p * price)%float observation o) s) as (W' & L & _); try done.
      intros o1 S. by apply filled_existing_step.
    + apply (triple_bind _ _ _ _ whatever); [by apply triple_money; auto with money ti|]. intros timestamp.
      apply (triple_bind _ _ _ _ (fun n s => ss_nextOrderId s = n /\ True)); [by apply triple_gets|]. intros n.
      apply (triple_bind _ _ _ _ (fun _ s => Early n (n + 1) s /\ True)); [apply next_triple; [lia|auto with ti]|]. intros _.
      apply (triple_bind _ _ _ _ whatever); [by apply push_triple|intros; by apply triple_ret].
  - intros order. apply (triple_bind _ _ _ _ whatever).
    { apply triple_put. intros s W _. by destruct (trades_idle FuturesBook
        {| trd_id := ord_id order; trd_symbol := in_symbol input; trd_side := in_side input; trd_price := price;
           trd_amount := pr_requested p; trd_cost := (pr_requested p * price)%float; trd_fee := (pr_requested p * price * pc_feeRate cfg)%float;
           trd_realizedPnl := Some (cl_pnl (close_lots p price) - pr_requested p * price * pc_feeRate cfg)%float;
           trd_positionSide := Some (pr_positionSide p); trd_timestamp := ord_timestamp order |} s W) as (? & ? & ?). }
    intros _. apply (triple_bind _ _ _ _ whatever).
    { eapply triple_conseq; [apply orphaned_triple| | |]; auto. }
    intros _. apply (triple_bind _ _ _ _ whatever).
    { eapply triple_conseq; [apply refresh_triple| | |]; auto. }
    intros _. apply (triple_bind _ _ _ _ whatever); [|intros; by apply triple_ret].
    destruct persist; [apply persist_triple; auto with ti|by apply triple_ret].
Qed.
End Steps.
#[export] Hint Resolve about_early : ti.
