(* ===== verification/PaperSettle.v ===== *)
(** * What the settlement of the paper client does to orders

    The fill of a resting order, the evaluation of the orders of a book along the market
    path and the settlement pass with its roll-back, as triples over the orders. *)

From Stdlib Require Import ZArith Lia Bool Ascii Floats.
From stdpp Require Import base strings option list pretty.
From S2P Require Import Prelude JsNumber JsObject JsValue JsFloat JsMath JsText AccountRisk RiskState Execution.
From S2P Require Import Capabilities ExecutionRecovery PaperAccount PaperPath PaperStore PaperSession PaperLedger PaperFutures.
From S2P Require Import PaperClient PaperLife PaperSteps.

Local Open Scope Z_scope.

Lemma triple_assoc {A B C} P (m : Op A) (k : A -> Op B) (h : B -> Op C) Q E :
  triple P (m ≫= fun x => k x ≫= h) Q E -> triple P ((m ≫= k) ≫= h) Q E.
Proof.
  intros H s W HP. specialize (H s W HP). revert H. unfold mbind, ST_bind. destruct (m s) as [[a|e] s']; [|done]. done.
Qed.

Lemma triple_assoc' {A B C} P (m : Op A) (k : A -> Op B) (h : B -> Op C) Q E :
  triple P ((m ≫= k) ≫= h) Q E -> triple P (m ≫= fun x => k x ≫= h) Q E.
Proof.
  intros H s W HP. specialize (H s W HP). revert H. unfold mbind, ST_bind. destruct (m s) as [[a|e] s']; [|done]. done.
Qed.

Lemma triple_get P Q (E : PaperError -> Session -> Prop) : (forall s, P s -> Q s s) -> triple P get Q E.
Proof. intros H s W HP. cbn. auto with ti. Qed.

Lemma triple_ok {A B} P (x : A) (k : A -> Op B) Q E : triple P (k x) Q E -> triple P (mret x ≫= k) Q E.
Proof. done. Qed.

Lemma triple_put2 {A} P f g (k : unit -> Op A) Q E :
  triple P (put (fun s => g (f s)) ≫= k) Q E -> triple P (put f ≫= fun _ => put g ≫= k) Q E.
Proof. done. Qed.

Lemma triple_from {A} P P' (m : Op A) Q E : (forall s, Ordered s -> P s -> P' s) -> triple P' m Q E -> triple P m Q E.
Proof. intros HP H s W Hs. apply H; auto. Qed.

Section Settle.
Context (cfg : PaperConfig) (px : PaperExchange).

(** ** The fill of a spot order *)

(** The record [executeFill] makes of its fill is taken back; the trade stays. *)
Lemma forget_triple n o t P (E : PaperError -> Session -> Prop) :
  ord_id o = id_text n -> Stable P ->
  triple (fun s => Early n (n + 1) s /\ P s)
    (put (fun s => on_book SpotBook (fun a => with_orders
       (List.filter (fun x => negb (String.eqb (ord_id x) (ord_id o))) (acc_orders a)) a)
       (on_book SpotBook (fun a => add_trade t (push_order o a)) s)))
    (fun _ => P) E.
Proof.
  intros I K. apply triple_put. intros s W [[Or N] HP]. set (s' := on_book SpotBook _ _).
  assert (O : forall b, orders b s' = orders b s).
  { intros []; [|done]. change (List.filter (fun x => negb (String.eqb (ord_id x) (ord_id o))) (app (orders SpotBook s) [o]) = orders SpotBook s).
    rewrite List.filter_app. cbn [List.filter]. rewrite String.eqb_refl. cbn. rewrite app_nil_r. specialize (Or SpotBook).
    apply forallb_filter_id, forallb_forall. intros x Hx. apply negb_true_iff, String.eqb_neq. rewrite I. apply (ord_fresh _ _ Or); [done|lia]. }
  split_and!.
  - constructor. intros b. change (Orderly (ss_nextOrderId s) (orders b s')). rewrite O. apply W.
  - constructor; intros b; [|by left]. split; [change (Evolves (orders b s) (orders b s')); rewrite O; auto with ti|].
    destruct b; [|done]. by apply prefix_app_r.
  - eapply K; [|exact HP]. apply idle_orders; intros b x; by rewrite O.
Qed.

Lemma executeFill_triple {B} symbol side amount price cid (k : Fill -> Op B) P Q :
  Stable P -> (forall fill, triple P (k fill) Q whatever) ->
  triple P (fill ← executeFill cfg px symbol side amount price cid false;
            _ ← put (on_book SpotBook (fun a => with_orders
                  (List.filter (fun x => negb (String.eqb (ord_id x) (ord_id (fill_order fill)))) (acc_orders a)) a));
            k fill) Q whatever.
Proof.
  intros K Hk. pose proof (stable_about _ K) as K'. unfold executeFill.
  apply triple_assoc, (triple_bind _ _ _ _ (fun _ => P)); [by apply triple_money; auto with money|]. intros asset. cbv zeta.
  apply triple_assoc, (triple_bind _ _ _ _ (fun _ => P)).
  { apply triple_money; [|done|done]. money. all: apply money_put; intros ?; unfold sold; repeat case_match; done. }
  intros realizedPnl.
  apply triple_assoc, (triple_bind _ _ _ _ (fun n s => ss_nextOrderId s = n /\ P s)); [by apply triple_gets|]. intros n.
  apply triple_assoc, (triple_bind _ _ _ _ (fun _ s => Early n (n + 1) s /\ P s)); [apply next_triple; [lia|done]|]. intros _.
  apply triple_assoc, (triple_bind _ _ _ _ (fun _ s => Early n (n + 1) s /\ P s)); [apply triple_money; auto with money ti|]. intros observation.
  apply triple_assoc, (triple_bind _ _ _ _ (fun _ s => Early n (n + 1) s /\ P s)); [apply triple_money; auto with money ti|]. intros time.
  apply triple_assoc, triple_put2. apply (triple_bind _ _ _ _ (fun _ => P)); [by apply (forget_triple n)|]. intros _. apply Hk.
Qed.

(** The filled order replaces the working one, at the end of the list. *)
Lemma moved_triple o o' (E : PaperError -> Session -> Prop) :
  ord_id o' = ord_id o -> (forall o1, Same o o1 -> OrderStep o1 o') ->
  triple (fun s => Alive SpotBook o s /\ Alone SpotBook o s)
    (put (on_book SpotBook (fun a => with_orders
       (app (List.filter (fun x => negb (String.eqb (ord_id x) (ord_id o'))) (acc_orders a)) [o']) a))) whatever E.
Proof.
  intros I St. apply triple_put. intros s W [Al Ne]. pose proof Al as (o1 & H1 & S1).
  destruct (assign_alive SpotBook o (fun _ => o') s) as (W' & L & _); auto.
  assert (T : forall x, In x (moved o' (orders SpotBook s)) <-> In x (assigned (ord_id o) (fun _ => o') (orders SpotBook s))).
  { intros x. rewrite (moved_assigned o1), I; [done|done|]. by rewrite (same_id _ _ S1). }
  split; [|split; [|done]].
  - constructor. intros []; [|apply (ordered_book _ W' FuturesBook)].
    apply (orderly_ext _ (assigned (ord_id o) (fun _ => o') (orders SpotBook s))); [|apply (ordered_book _ W' SpotBook)].
    intros x Hx. by apply T.
  - constructor; intros []; try (by left); [|apply grows_refl]. split; [|done].
    destruct (later_book _ _ L SpotBook) as [Ev _]. intros x Hx. destruct (Ev x Hx) as (x' & Hx' & S). exists x'. split; [by apply T|done].
Qed.

Lemma filled_resting_step cost fee o o1 : Same o o1 -> OrderStep o1 (filled_resting cost fee o).
Proof.
  intros S. constructor; try done.
  - rewrite (same_fields _ _ S). by destruct o.
  - intros H. by rewrite (same_open' _ _ S) in H.
Qed.

(** ** The fill of a futures order *)

Lemma lookup_triple b o P (E : PaperError -> Session -> Prop) :
  (forall s, P s -> Alive b o s) ->
  triple P (order_in b (ord_id o)) (fun r s => P s /\ exists o1, r = Some o1 /\ Same o o1 /\ Alive b o1 s) E.
Proof.
  intros HA. apply triple_gets. intros s W HP. split; [done|]. destruct (alive_lookup b o s W (HA s HP)) as (o1 & -> & H1 & S1).
  exists o1. split_and!; try done. apply alive_here; [done|apply S1].
Qed.

Lemma found_triple {A} b o P r (m : option PaperOrder -> Op A) Q (E : PaperError -> Session -> Prop) :
  (forall o1, Same o o1 -> triple (fun s => P s /\ Alive b o1 s) (m (Some o1)) Q E) ->
  triple (fun s => P s /\ exists o1, r = Some o1 /\ Same o o1 /\ Alive b o1 s) (m r) Q E.
Proof. intros H s W [HP (o1 & -> & S & A1)]. by apply (H o1). Qed.

Lemma alone_same b o o' s : Same o o' -> Alone b o s -> Alone b o' s.
Proof.
  intros S H x Hx (g & L1 & L2) Ne. apply H; [done| |by rewrite <- (same_id _ _ S)]. exists g. split; [done|].
  unfold oco_group in *. by rewrite <- (same_group_of _ _ S).
Qed.

Lemma refused_triple o previous e :
  triple (fun s => calm e \/ Alive FuturesBook o s) (futures_fill_refused cfg o previous e) whatever whatever.
Proof.
  unfold futures_fill_refused. destruct (is_margin_error e) eqn:M; [|destruct (isStaleFuturesWorkingOrderError e) eqn:St].
  - eapply triple_conseq with (P' := Alive FuturesBook o) (Q' := whatever) (E' := whatever); try done.
    2: { intros s [[H _]|H]; [congruence|done]. }
    eapply triple_bind; [apply (lookup_triple FuturesBook o (Alive FuturesBook o)); done|]. intros r.
    apply (found_triple FuturesBook o _ r (fun r => tryCatch (o' ← reserveFuturesOrder cfg (default o r); store_order o') _)).
    intros o1 S1. cbn [default]. eapply triple_conseq with (P' := Alive FuturesBook o1) (Q' := whatever) (E' := whatever); try done.
    2: { by intros s []. }
    apply (triple_try _ _ _ _ _ (fun _ => Alive FuturesBook o1)); [|intros e1].
    + eapply triple_conseq; [apply (reserved_stored cfg px o1 (Alive FuturesBook o1) (fun _ => Alive FuturesBook o1)); auto with ti| | |]; done.
    + apply (triple_try _ _ _ _ _ whatever); [|intros e2].
      * eapply triple_conseq; [apply (margined_stored (applyFuturesReservation cfg o1 previous) o1 (Alive FuturesBook o1) whatever); auto with money ti| | |]; try done.
        intros s o' F. by eapply ex_intro, apply_returns.
      * eapply triple_conseq; [apply (triple_idle always _ whatever)| | |]; try done. intros s W _. by apply unreserved_idle.
  - apply (triple_from _ (Unfilled FuturesBook (ord_id o))).
    { intros s W [[_ H]|H]; [congruence|by apply alive_unfilled]. }
    eapply triple_conseq; [apply (cancel_unfilled FuturesBook (ord_id o) (Unfilled FuturesBook (ord_id o)) whatever); auto| | |]; done.
  - by apply triple_lift.
Qed.

Lemma fillRestingOrder_triple b o price :
  triple (Alive b o) (fillRestingOrder cfg px b o price) whatever whatever.
Proof.
  unfold fillRestingOrder. cbv zeta. apply (triple_bind _ _ _ _ (fun _ => Alive b o)).
  { eapply triple_conseq; [apply release_triple with (P := Alive b o)| | |]; auto with ti. }
  intros _. eapply triple_bind; [apply siblings_alone|]. intros u. destruct b.
  - apply executeFill_triple; [auto with ti|]. intros fill.
    apply (triple_bind _ _ _ _ (fun _ s => Alive SpotBook o s /\ Alone SpotBook o s)); [apply triple_money; auto with money ti|].
    intros observation. apply moved_triple; [done|]. intros o1. apply filled_resting_step.
  - eapply triple_bind; [apply (lookup_triple FuturesBook o (fun s => Alive FuturesBook o s /\ Alone FuturesBook o s)); by intros s []|].
    intros r. apply (found_triple FuturesBook o _ r (fun r => tryCatch (_ ← executeFuturesFill cfg px _ price false (Some (default o r)); mret tt) _)).
    intros o1 S1. cbn [default].
    apply (triple_try _ _ _ _ _ (fun e s => calm e \/ Alive FuturesBook o s)); [|intros e; apply refused_triple].
      apply (triple_bind _ _ _ _ whatever); [|intros _; by apply triple_ret].
      eapply triple_conseq; [apply (executeFuturesFill_triple cfg px _ price false (Some o1))| | |]; try done.
      + intros s [[_ A1] A2]. split; [done|by apply (alone_same _ _ _ _ S1)].
      + intros e s [H|[H _]]; [by left|right]. apply (alive_same _ o1); [by apply same_sym|done].
Qed.

(** ** The settlement pass *)

Definition winning (b : Book) (winner : option (PaperOrder * PathFire)) (s : Session) : Prop :=
  match winner with Some (leg, _) => Alive b leg s | None => True end.

Lemma evaluate_legs_triple b path legs winner :
  triple (fun s => winning b winner s /\ Forall (fun leg => Alive b leg s) legs) (evaluate_legs b path legs winner)
    (fun r => winning b r) whatever.
Proof.
  revert winner. induction legs as [|leg rest IH]; intros winner; cbn [evaluate_legs].
  { apply triple_ret. by intros s []. }
  pose proof (evaluate_same leg (mp_segments path)) as V. destruct (evaluatePath leg (mp_segments path)) as [leg1 fire]. cbn [fst] in V. cbv zeta.
  set (leg2 := advanceCheckedAt (mp_checkedAt path) leg1).
  assert (S : forall s, Alive b leg s -> Alive b leg2 s).
  { intros s A. pose proof (alive_open _ _ _ A) as Op. apply (alive_same _ leg); [|done]. eapply same_trans; [by apply V|].
    apply advance_same. by apply V. }
  set (P := fun s => winning b winner s /\ Alive b leg2 s /\ Forall (fun leg => Alive b leg s) rest).
  apply (triple_bind _ _ _ _ (fun _ => P)).
  - eapply triple_conseq with (P' := P); [apply (store_triple b leg2 P whatever)| | |]; try done.
    + unfold P. repeat apply stable_and; auto with ti. unfold winning. destruct winner as [[]|]; auto with ti.
    + by intros s (_ & ? & _).
    + intros s [H [H1 H2]%Forall_cons_iff]. unfold P. auto.
  - intros _. eapply triple_conseq; [apply IH| | |]; try done. intros s (H & A2 & R). split; [|done].
    destruct fire as [f|]; [|done]. destruct winner as [[l w]|]; [|done]. by destruct (fire_index f <? fire_index w)%nat.
Qed.

Lemma settle_order_triple b ids time minSince o seen :
  triple (Alive b o) (settle_order cfg px b ids time minSince o seen) whatever whatever.
Proof.
  unfold settle_order.
  apply (triple_bind _ _ _ _ (fun _ => Alive b o)); [apply triple_money; auto with money ti|]. intros [ticker seen1].
  apply (triple_bind _ _ _ _ (fun _ => Alive b o)); [apply triple_money; auto with money ti|]. intros last.
  apply (triple_bind _ _ _ _ (fun _ => Alive b o)); [apply triple_money; auto with money ti|]. intros [path seen2].
  destruct (oco_group o) as [g|].
  - apply (triple_bind _ _ _ _ (fun open s => Forall (fun leg => Alive b leg s) open)).
    { apply triple_gets. intros s W _. apply List.Forall_forall. intros x [Hx Op]%filter_In.
      apply list_elem_of_In, list_elem_of_omap in Hx as (id & _ & F). apply lookup_in in F as [Hx _]. by apply alive_here. }
    intros open. apply (triple_bind _ _ _ _ (fun r => winning b r)).
    { eapply triple_conseq; [apply evaluate_legs_triple| | |]; try done. intros s F. split; [done|].
      apply List.Forall_forall. intros x [Hx _]%filter_In. by apply (proj1 (List.Forall_forall _ _) F). }
    intros winner. apply (triple_bind _ _ _ _ whatever); [|intros _; by apply triple_ret].
    destruct winner as [[leg fire]|]; [apply fillRestingOrder_triple|by apply triple_ret].
  - pose proof (evaluate_same o (mp_segments path)) as V. destruct (evaluatePath o (mp_segments path)) as [o1 fire]. cbn [fst] in V. cbv zeta.
    set (o2 := advanceCheckedAt (mp_checkedAt path) o1). apply (triple_bind _ _ _ _ (fun _ => Alive b o2)).
    { eapply triple_conseq with (P' := Alive b o2); [apply (store_triple b o2 (Alive b o2) whatever); auto with ti| | |]; try done.
      intros s A. pose proof (alive_open _ _ _ A) as Op. apply (alive_same _ o); [|done]. eapply same_trans; [by apply V|].
      apply advance_same. by apply V. }
    intros _. apply (triple_bind _ _ _ _ (fun _ => Alive b o2)).
    { destruct b; [by apply triple_ret|]. eapply triple_conseq; [apply sync_triple with (P := Alive FuturesBook o2); auto with ti| | |]; done. }
    intros margined. destruct fire as [f|]; [|by apply triple_ret]. destruct (negb margined); [by apply triple_ret|].
    eapply triple_bind; [apply (lookup_triple b o2 (Alive b o2)); done|]. intros r.
    apply (found_triple b o2 _ r (fun r => _ ← fillRestingOrder cfg px b (default o2 r) (fire_price f); mret seen2)).
    intros o3 _. cbn [default]. apply (triple_bind _ _ _ _ whatever); [|intros _; by apply triple_ret].
    eapply triple_conseq; [apply fillRestingOrder_triple| | |]; try done. by intros s [].
Qed.

Lemma settle_orders_triple b all time minSince ids seen :
  triple always (settle_orders cfg px b all time minSince ids seen) whatever whatever.
Proof.
  revert seen. induction ids as [|id rest IH]; intros seen; cbn [settle_orders]; [by apply triple_ret|].
  apply (triple_bind _ _ _ _ (fun r s => match r with Some o => In o (orders b s) | None => True end)).
  { apply triple_gets. intros s _ _. destruct (order_by_id id _) as [o|] eqn:F; [|done]. by apply lookup_in in F as []. }
  intros r. apply (triple_bind _ _ _ _ whatever); [|intros seen1; apply IH]. destruct r as [o|]; [|by apply triple_ret].
  destruct (is_open o) eqn:Op; [|by apply triple_ret]. apply (triple_from _ (Alive b o)); [intros s _ H; by apply alive_here|].
  apply (triple_try _ _ _ _ _ whatever); [apply settle_order_triple|]. intros e. by apply triple_lift.
Qed.

Lemma settleAccount_triple b : triple always (settleAccountOpenOrders cfg px b) whatever whatever.
Proof.
  unfold settleAccountOpenOrders. apply (triple_bind _ _ _ _ whatever); [by apply triple_gets|]. intros [|o open]; [by apply triple_ret|].
  apply (triple_bind _ _ _ _ whatever); [apply triple_money; auto with money ti|]. intros time. cbv zeta.
  apply (triple_bind _ _ _ _ whatever); [apply settle_orders_triple|intros _; by apply triple_ret].
Qed.

(** ** Liquidation *)

(** A liquidation is recorded as an order of its own, filled from the start. *)
Lemma liquidation_push n l o :
  Orderly n l -> ord_id o = liquidation_id n -> ord_ocoGroup o = None -> is_open o = false -> Orderly (n + 1) (app l [o]).
Proof.
  intros W I G Cl. apply (orderly_push n); try done; try lia; rewrite ?I.
  - intros x Hx Ex. split; [|done]. destruct (is_open x) eqn:Op; [|done]. by destruct (ord_live _ _ W x n Hx Op (Z.le_refl n)).
  - intros k Hk Ek. symmetry in Ek. by apply id_not_liquidation in Ek.
  - congruence.
  - intros k _. by rewrite G.
  - intros x _ (g & _ & L). unfold oco_group in L. by rewrite G in L.
Qed.

Lemma record_triple b n o t (E : PaperError -> Session -> Prop) :
  (forall l, Orderly n l -> Orderly (n + 1) (app l [o])) ->
  triple (fun s => Early n (n + 1) s /\ True) (put (on_book b (fun a => add_trade t (push_order o a)))) whatever E.
Proof.
  intros H. apply triple_put. intros s W [Ea _]. destruct (push_later b [o] n (n + 1) s Ea) as [W1 L1]; [lia|apply H; by destruct Ea|].
  destruct (trades_idle b t _ W1) as (W2 & L2 & _). split; [|split; [|done]].
  - constructor. intros b'. pose proof (ordered_book _ W2 b') as O. by destruct b, b'.
  - pose proof (later_trans _ _ _ L1 L2) as [B F]. constructor; intros b'; [specialize (B b')|specialize (F b')]; by destruct b, b'.
Qed.

Lemma liquidate_triple g : triple always (liquidateFuturesGroup cfg px g) whatever whatever.
Proof.
  unfold liquidateFuturesGroup. apply (triple_bind _ _ _ _ (fun s0 s => ss_nextOrderId s = ss_nextOrderId s0 /\ True)).
  { by apply triple_get. }
  intros s0. cbv zeta. set (n := ss_nextOrderId s0).
  apply (triple_bind _ _ _ _ (fun _ s => ss_nextOrderId s = n /\ True)); [apply triple_money; auto with money ti|]. intros _.
  apply (triple_bind _ _ _ _ (fun _ s => ss_nextOrderId s = n /\ True)).
  { apply triple_money; [|auto with ti|done]. apply money_put. intros a. unfold without_group. by destruct (List.filter _ _). }
  intros _. apply (triple_bind _ _ _ _ (fun _ s => Early n (n + 1) s /\ True)); [apply next_triple; [lia|done]|]. intros _.
  apply (triple_bind _ _ _ _ (fun _ s => Early n (n + 1) s /\ True)); [apply triple_money; auto with money ti|]. intros time.
  apply (triple_bind _ _ _ _ (fun _ s => Early n (n + 1) s /\ True)); [apply triple_money; auto with money ti|]. intros observation.
  apply (record_triple FuturesBook n). intros l W. by apply (liquidation_push n).
Qed.

Lemma forM_triple {A} (l : list A) (body : A -> Op unit) P E :
  (forall x, triple P (body x) (fun _ => P) E) -> triple P (forM l body) (fun _ => P) E.
Proof.
  intros H. induction l as [|x r IH]; cbn [forM]; [by apply triple_ret|]. apply (triple_bind _ _ _ _ (fun _ => P)); [apply H|done].
Qed.

Lemma liquidations_triple prices : triple always (settleFuturesLiquidationsUnlocked cfg px prices) whatever whatever.
Proof.
  unfold settleFuturesLiquidationsUnlocked. apply (triple_bind _ _ _ _ whatever); [apply triple_money; auto with money ti|].
  intros [[groups complete] prices1]. apply (triple_bind _ _ _ _ whatever); [by apply triple_get|]. intros s0. cbv zeta.
  apply (triple_bind _ _ _ _ whatever); [apply triple_money; auto with money ti|]. intros _.
  destruct (List.filter _ groups) as [|g l]; [by apply triple_ret|].
  apply (triple_bind _ _ _ _ whatever); [apply (forM_triple _ _ always); apply liquidate_triple|]. intros _.
  apply (triple_bind _ _ _ _ whatever); [apply persist_triple; auto with ti|intros _; by apply triple_ret].
Qed.

Lemma risk_triple prices : triple always (settleFuturesRisk cfg px prices) whatever whatever.
Proof.
  unfold settleFuturesRisk. destruct (negb _); [|by apply triple_ret].
  apply (triple_bind _ _ _ _ whatever); [apply liquidations_triple|]. intros _.
  apply (triple_bind _ _ _ _ whatever); [eapply triple_conseq; [apply orphaned_triple| | |]; done|]. intros canceled.
  apply (triple_bind _ _ _ _ whatever); [destruct canceled; [apply persist_triple; auto with ti|by apply triple_ret]|]. intros _.
  eapply triple_conseq; [apply refresh_triple| | |]; done.
Qed.

(** ** Rolling back *)

Definition restored {A} (s : Session) (r : result PaperError A * Session) : Prop :=
  match fst r with
  | Ok _ => True
  | Throw _ => ss_spot (snd r) = ss_spot s /\ ss_futures (snd r) = ss_futures s /\ ss_nextOrderId (snd r) = ss_nextOrderId s
  end.

Lemma rolled_back_restores {A} (m : Op A) s : restored s (rolled_back m s).
Proof. unfold restored, rolled_back, mbind, ST_bind, tryCatch. cbn. destruct (m s) as [[a|e] s1]; done. Qed.

Lemma rolled_back_triple {A} (m : Op A) : orderly_op m -> orderly_op (rolled_back m).
Proof.
  intros H s W _. specialize (H s W I). unfold rolled_back, mbind, ST_bind, tryCatch. cbn. destruct (m s) as [[a|e] s1]; [done|].
  cbn in *. destruct H as (W1 & L1 & _). split; [|split; [|done]].
  - constructor. intros []; [apply (ordered_book s W SpotBook)|apply (ordered_book s W FuturesBook)].
  - constructor; intros b; [destruct b; apply grows_refl|]. pose proof (later_file _ _ L1 b) as F. by destruct b.
Qed.

Lemma futures_rolled_back_triple {A} (m : Op A) : orderly_op m -> (forall s, ss_nextOrderId (snd (m s)) = ss_nextOrderId s) -> orderly_op (futures_rolled_back m).
Proof.
  intros H N s W _. specialize (H s W I). specialize (N s). unfold futures_rolled_back, mbind, ST_bind, tryCatch. cbn.
  destruct (m s) as [[a|e] s1]; [done|]. cbn in *. destruct H as (W1 & L1 & _). split; [|split; [|done]].
  - constructor. intros []; [apply (ordered_book s1 W1 SpotBook)|]. cbn. rewrite N. apply (ordered_book s W FuturesBook).
  - constructor; intros b; [destruct b; [apply (later_book _ _ L1 SpotBook)|apply grows_refl]|].
    pose proof (later_file _ _ L1 b) as F. by destruct b.
Qed.

Lemma settle_triple prices : triple always (settleOpenOrdersUnlocked cfg px prices) whatever whatever.
Proof.
  unfold settleOpenOrdersUnlocked. apply (triple_bind _ _ _ _ whatever); [apply risk_triple|]. intros _. apply rolled_back_triple.
  unfold settle_accounts.
  apply (triple_bind _ _ _ _ whatever); [destruct (negb _); [apply settleAccount_triple|by apply triple_ret]|]. intros spotDirty.
  apply (triple_bind _ _ _ _ whatever); [destruct (negb _); [apply settleAccount_triple|by apply triple_ret]|]. intros futuresDirty.
  apply persist_triple; auto with ti.
Qed.
End Settle.
