(* ===== verification/PaperFate.v ===== *)
(** * The fate of paper orders

    Every operation of the paper client only advances the orders of its accounts, and at most
    one leg of a group is ever filled. *)

From Stdlib Require Import ZArith Lia Bool Ascii Floats.
From stdpp Require Import base strings option list pretty.
From S2P Require Import Prelude JsNumber JsObject JsValue JsFloat JsMath JsText AccountRisk RiskState Execution.
From S2P Require Import Capabilities ExecutionRecovery PaperAccount PaperPath PaperStore PaperSession PaperLedger PaperFutures.
From S2P Require Import PaperClient PaperLife PaperSteps PaperSettle.

#[local] Set Warnings "-inexact-float".

Local Open Scope Z_scope.

(** Operations that take no number. *)
Definition steady {A} (m : Op A) : Prop := forall s, ss_nextOrderId (snd (m s)) = ss_nextOrderId s.
Lemma steady_bind {A B} (m : Op A) (k : A -> Op B) : steady m -> (forall a, steady (k a)) -> steady (m ≫= k).
Proof.
  intros Hm Hk s. specialize (Hm s). unfold mbind, ST_bind. destruct (m s) as [[a|e] s1]; [|done]. cbn in *. by rewrite Hk.
Qed.
Lemma steady_money {A} (m : Op A) : money m -> steady m.
Proof. intros H s. apply H. Qed.
Lemma steady_each ids dirty (body : PaperOrder -> Op bool) : (forall o, steady (body o)) -> steady (each_order ids dirty body).
Proof.
  intros H. revert dirty. induction ids as [|id rest IH]; intros dirty; cbn [each_order]; [done|].
  apply steady_bind; [done|]. intros [o|]; (apply steady_bind; [|done]); [apply H|done].
Qed.

Section Fate.
Context (cfg : PaperConfig) (px : PaperExchange).

(** ** Placing orders *)

Lemma cancel_replaced_triple b orders groups :
  triple (fun s => Forall (fun o => Unfilled b (ord_id o) s) orders) (cancel_replaced cfg b orders groups) whatever whatever.
Proof.
  revert groups. induction orders as [|o rest IH]; intros groups; cbn [cancel_replaced]; [by apply triple_ret|].
  destruct (str_in groups (group_or_id o)).
  { eapply triple_conseq; [apply IH| | |]; try done. by intros s [_ F]%Forall_cons_iff. }
  set (P := fun s => Forall (fun o => Unfilled b (ord_id o) s) (o :: rest)).
  assert (K : Stable P) by (unfold P; auto with ti).
  assert (U : forall s s', (forall b' id', Unfilled b' id' s -> Unfilled b' id' s') -> P s -> P s').
  { intros s s' H F. eapply Forall_impl; [exact F|]. intros x. apply H. }
  apply (triple_bind _ _ _ _ (fun _ => P)); [eapply triple_conseq; [apply (release_triple cfg b o P K)| | |]; done|]. intros _.
  apply (triple_bind _ _ _ _ (fun _ => P)).
  { eapply triple_conseq; [apply (cancel_unfilled b (ord_id o) P whatever)| | |]; try done. by intros s [? _]%Forall_cons_iff. }
  intros _. apply (triple_bind _ _ _ _ (fun _ => P)).
  { eapply triple_conseq; [apply (siblings_triple b o (fun _ => false) P whatever)| | |]; done. }
  intros _. eapply triple_conseq; [apply IH| | |]; try done. by intros s [_ F]%Forall_cons_iff.
Qed.

Lemma all_ok_in {A B E} (f : A -> result E B) l ys : all_ok f l = Ok ys -> forall y, In y ys -> exists x, f x = Ok y.
Proof.
  revert ys. induction l as [|x r IH]; intros ys H y Hy; cbn [all_ok] in H; [by injection H as <-|].
  inv_ok. destruct Hy as [<-|Hy]; [by exists x|]. by eapply IH.
Qed.

Lemma replace_triple input ids : triple always (cancelForReplacement cfg input ids) whatever whatever.
Proof.
  unfold cancelForReplacement. apply (triple_bind _ _ _ _ whatever); [apply triple_money; auto with money ti|]. intros b.
  apply (triple_bind _ _ _ _ (fun a s => a = book_account b s)); [by apply triple_gets|]. intros a.
  apply (triple_bind _ _ _ _ (fun orders s => forall o, In o orders -> In o (PaperLife.orders b s) /\ is_open o = true)).
  { apply triple_lift. intros s ->. destruct (all_ok _ ids) as [os|e] eqn:F; [|done]. intros o Ho.
    apply (all_ok_in _ _ _ F) in Ho as (id & Ho). unfold replaced_order in Ho.
    destruct (find _ _) as [x|] eqn:G; [|done]. destruct (bool_decide _); [|done]. injection Ho as ->.
    apply find_some in G as [H1 H2]. split; [done|]. by apply andb_true_iff in H2 as [_ H2]. }
  intros os. eapply triple_from; [|apply cancel_replaced_triple]. intros s W H. apply List.Forall_forall. intros o Ho.
  destruct (H o Ho) as [H1 H2]. apply alive_unfilled; [done|]. by apply alive_here.
Qed.

Lemma replace_if_triple input ids : triple always (replace_if cfg input ids) whatever whatever.
Proof. unfold replace_if. destruct ids; [apply replace_triple|by apply triple_ret]. Qed.

(** A new order is numbered, stored and written. *)
Lemma place_triple {A} b n o (k : unit -> Op A) :
  ord_id o = id_text n -> ord_ocoGroup o = None -> (forall u, triple always (k u) whatever whatever) ->
  triple (fun s => ss_nextOrderId s = n /\ True) (_ ← put (with_next (n + 1)); put (on_book b (push_order o)) ≫= k) whatever whatever.
Proof.
  intros I G Hk. apply (triple_bind _ _ _ _ (fun _ s => Early n (n + 1) s /\ True)); [apply next_triple; [lia|done]|]. intros _.
  apply (triple_bind _ _ _ _ whatever); [by apply push_triple|]. intros u. apply Hk.
Qed.

Lemma placeFutures_triple input ticker : triple always (placeFuturesOrder cfg px input ticker) whatever whatever.
Proof.
  unfold placeFuturesOrder. apply (triple_bind _ _ _ _ whatever); [apply triple_money; auto with money ti|]. intros price.
  apply (triple_bind _ _ _ _ whatever); [apply triple_money; auto with money ti|]. intros _. destruct (bool_decide _).
  - apply (triple_bind _ _ _ _ whatever); [|intros; by apply triple_ret].
    eapply triple_conseq; [apply (executeFuturesFill_triple cfg px input price true None)| | |]; done.
  - apply (triple_bind _ _ _ _ (fun s0 s => ss_nextOrderId s = ss_nextOrderId s0 /\ True)); [by apply triple_get|]. intros s0.
    set (P := fun s => ss_nextOrderId s = ss_nextOrderId s0 /\ True). assert (K : about_orders P) by (unfold P; auto with ti).
    apply (triple_bind _ _ _ _ (fun _ => P)); [by apply triple_money; auto with money|]. intros p. cbv zeta.
    apply (triple_bind _ _ _ _ (fun _ => P)); [by apply triple_money; auto with money|]. intros observation.
    apply (triple_bind _ _ _ _ (fun _ => P)); [by apply triple_money; auto with money|]. intros time.
    apply (triple_bind _ _ _ _ (fun _ => P)); [by apply triple_money; auto with money|]. intros prices.
    set (r := resting_order _ _ _ _ _ _ _ _). eapply triple_bind; [by apply (reserve_triple cfg px P r whatever)|]. intros o.
    apply (triple_from _ (fun s => (exists x, o = set_margin x r) /\ P s)); [by intros s _ []|].
    intros s W [(x & ->) HP]. revert s W HP.
    apply (place_triple FuturesBook (ss_nextOrderId s0) (set_checkedAt time (set_margin x r)) (fun _ => _ ← persistAll; mret (set_checkedAt time (set_margin x r), None)));
      try done. intros _. apply (triple_bind _ _ _ _ whatever); [apply persist_triple; auto with ti|intros; by apply triple_ret].
Qed.

Lemma market_fill_triple symbol side amount price cid :
  triple always (executeFill cfg px symbol side amount price cid true) whatever whatever.
Proof.
  unfold executeFill. apply (triple_bind _ _ _ _ whatever); [apply triple_money; auto with money ti|]. intros asset. cbv zeta.
  apply (triple_bind _ _ _ _ whatever).
  { apply triple_money; auto with ti. money. all: apply money_put; intros ?; unfold sold; repeat case_match; done. }
  intros realizedPnl. apply (triple_bind _ _ _ _ (fun n s => ss_nextOrderId s = n /\ True)); [by apply triple_gets|]. intros n.
  apply (triple_bind _ _ _ _ (fun _ s => Early n (n + 1) s /\ True)); [apply next_triple; [lia|done]|]. intros _.
  apply (triple_bind _ _ _ _ (fun _ s => Early n (n + 1) s /\ True)); [apply triple_money; auto with money ti|]. intros observation.
  apply (triple_bind _ _ _ _ (fun _ s => Early n (n + 1) s /\ True)); [apply triple_money; auto with money ti|]. intros time.
  apply (triple_bind _ _ _ _ whatever).
  { apply (record_triple SpotBook n). intros l W. apply (numbered_push n); try done. lia. }
  intros _. apply (triple_bind _ _ _ _ whatever); [apply persist_triple; auto with ti|intros; by apply triple_ret].
Qed.

Lemma submitSpot_triple input ids : triple always (submitSpotOrder cfg px input ids) whatever whatever.
Proof.
  unfold submitSpotOrder. apply (triple_bind _ _ _ _ whatever); [apply settle_triple|]. intros _.
  apply (triple_bind _ _ _ _ whatever); [apply replace_if_triple|]. intros _.
  apply (triple_bind _ _ _ _ whatever); [apply triple_money; auto with money ti|]. intros _.
  apply (triple_bind _ _ _ _ whatever); [apply triple_money; auto with money ti|]. intros input1.
  apply (triple_bind _ _ _ _ (fun n s => ss_nextOrderId s = n /\ True)); [by apply triple_gets|]. intros n. cbv zeta.
  set (input2 := with_clientOrderId _ _). set (P := fun s => ss_nextOrderId s = n /\ True). assert (K : about_orders P) by (unfold P; auto with ti).
  do 3 (apply (triple_bind _ _ _ _ (fun _ => P)); [by apply triple_money; auto with money|]; intros _).
  destruct (bool_decide _).
  - apply (triple_bind _ _ _ _ (fun _ => P)); [by apply triple_money; auto with money|]. intros price. apply (triple_from _ always); [done|].
    apply (triple_bind _ _ _ _ whatever); [apply market_fill_triple|intros; by apply triple_ret].
  - do 2 (apply (triple_bind _ _ _ _ (fun _ => P)); [by apply triple_money; auto with money|]; intros ?).
    apply (triple_bind _ _ _ _ (fun _ => P)); [apply triple_money; [money|done|done]|]. intros last.
    do 2 (apply (triple_bind _ _ _ _ (fun _ => P)); [by apply triple_money; auto with money|]; intros ?).
    unfold P. set (o := set_checkedAt _ _).
    apply (place_triple SpotBook n o (fun _ => _ ← persistAccountsUnlocked true false; mret (o, None))); try done.
    intros _. apply (triple_bind _ _ _ _ whatever); [apply persist_triple; auto with ti|intros; by apply triple_ret].
Qed.

Lemma submitFutures_triple input ids : triple always (submitFuturesOrder cfg px input ids) whatever whatever.
Proof.
  unfold submitFuturesOrder. do 2 (apply (triple_bind _ _ _ _ whatever); [apply triple_money; auto with money ti|]; intros ?).
  apply (triple_bind _ _ _ _ whatever); [apply settle_triple|]. intros _.
  apply (triple_bind _ _ _ _ whatever); [apply replace_if_triple|]. intros _.
  apply (triple_bind _ _ _ _ whatever); [apply triple_money; auto with money ti|]. intros input1. apply placeFutures_triple.
Qed.

Lemma legs_triple n (a c : PaperOrder) (E : PaperError -> Session -> Prop) :
  ord_id a = id_text n -> ord_id c = id_text (n + 1) -> is_open a = true -> is_open c = true ->
  ord_ocoGroup a = Some (group_name n) -> ord_ocoGroup c = Some (group_name n) ->
  triple (fun s => Early n (n + 2) s /\ True) (put (on_book SpotBook (fun x => push_order c (push_order a x)))) whatever E.
Proof.
  intros Ia Ic Oa Oc Ga Gc. apply triple_put. intros s W [Ea _].
  assert (T : on_book SpotBook (fun x => push_order c (push_order a x)) s = on_book SpotBook (fun x => with_orders (app (acc_orders x) [a; c]) x) s).
  { unfold on_book, push_order, with_orders. cbn. by rewrite <- (app_assoc (acc_orders (ss_spot s)) [a] [c]). }
  rewrite T. destruct (push_later SpotBook [a; c] n (n + 2) s Ea) as [W1 L1]; [lia| |done]. apply oco_push; try done. by destruct Ea.
Qed.

Lemma oco_triple input :
  triple always
    (_ ← settleOpenOrdersUnlocked cfg px []; oco_order cfg px input) whatever whatever.
Proof.
  apply (triple_bind _ _ _ _ whatever); [apply settle_triple|]. intros _. unfold oco_order.
  do 3 (apply (triple_bind _ _ _ _ whatever); [apply triple_money; auto with money ti|]; intros _).
  apply (triple_bind _ _ _ _ whatever); [apply triple_money; auto with money ti|]; intros normalized. cbv zeta.
  do 2 (apply (triple_bind _ _ _ _ whatever); [apply triple_money; auto with money ti|]; intros ?).
  apply (triple_bind _ _ _ _ whatever); [apply triple_money; auto with money ti|]; intros _.
  apply (triple_bind _ _ _ _ whatever); [apply triple_money; auto with money ti|]; intros last.
  apply (triple_bind _ _ _ _ whatever); [apply triple_money; auto with money ti|]; intros _.
  apply (triple_bind _ _ _ _ (fun n s => ss_nextOrderId s = n /\ True)); [by apply triple_gets|]. intros n. cbv zeta.
  do 2 (apply (triple_bind _ _ _ _ (fun _ s => ss_nextOrderId s = n /\ True)); [by apply triple_money; auto with money ti|]; intros ?).
  apply (triple_bind _ _ _ _ (fun _ s => Early n (n + 2) s /\ True)); [apply next_triple; [lia|done]|]. intros _.
  apply (triple_bind _ _ _ _ (fun _ s => Early n (n + 2) s /\ True)); [apply triple_money; auto with money ti|]. intros _.
  apply (triple_bind _ _ _ _ whatever); [by apply (legs_triple n)|]. intros _.
  apply (triple_bind _ _ _ _ whatever); [apply persist_triple; auto with ti|intros; by apply triple_ret].
Qed.

(** ** Cancelling and settings *)

Lemma cancelOrder_triple id symbol :
  triple always (cancel_by_id cfg px id symbol) whatever whatever.
Proof.
  unfold cancel_by_id. apply (triple_bind _ _ _ _ whatever); [apply triple_money; auto with money ti|]. intros b.
  apply (triple_bind _ _ _ _ whatever); [apply settle_triple|]. intros _.
  apply (triple_bind _ _ _ _ (fun a s => a = book_account b s)); [by apply triple_gets|]. intros a.
  apply (triple_bind _ _ _ _ (fun o s => Alive b o s)).
  { apply triple_lift. intros s ->. destruct (find _ _) as [o|] eqn:F; [|done]. apply find_some in F as [H1 H2].
    apply andb_true_iff in H2 as [_ H2]. by apply alive_here. }
  intros o. apply (triple_bind _ _ _ _ whatever).
  { apply (triple_from _ (Unfilled b (ord_id o))); [intros s W; by apply alive_unfilled|].
    eapply triple_conseq; [apply (cancel_unfilled b (ord_id o) (Unfilled b (ord_id o)) whatever); auto| | |]; done. }
  intros _. apply (triple_bind _ _ _ _ whatever); [eapply triple_conseq; [apply (release_triple cfg b o always); auto with ti| | |]; done|].
  intros _. apply (triple_bind _ _ _ _ whatever); [by apply siblings_triple|]. intros _. apply persist_triple; auto with ti.
Qed.

Lemma cancelList_triple id symbol :
  triple always (cancel_list_by_id cfg px id symbol) whatever whatever.
Proof.
  unfold cancel_list_by_id. apply (triple_bind _ _ _ _ whatever); [apply triple_money; auto with money ti|]. intros b.
  apply (triple_bind _ _ _ _ whatever); [apply settle_triple|]. intros _.
  apply (triple_bind _ _ _ _ (fun a s => a = book_account b s)); [by apply triple_gets|]. intros a.
  destruct (List.filter _ (acc_orders a)) as [|first rest] eqn:F; [by apply triple_lift|].
  set (P := fun s => Forall (fun o => Unfilled b (ord_id o) s) (first :: rest)). assert (K : Stable P) by (unfold P; auto with ti).
  apply (triple_from _ P).
  { intros s W ->. apply List.Forall_forall. intros o Ho. rewrite <- F in Ho. apply filter_In in Ho as [H1 H2].
    apply andb_true_iff in H2 as [_ H2]. apply alive_unfilled; [done|]. by apply alive_here. }
  apply (triple_bind _ _ _ _ (fun _ => P)); [eapply triple_conseq; [apply (release_triple cfg b first P K)| | |]; done|]. intros _.
  apply (triple_bind _ _ _ _ (fun _ => P)); [|intros _; eapply triple_conseq; [apply (persist_triple true true always whatever); auto with ti| | |]; done].
  assert (G : forall l, (forall o, In o l -> In o (first :: rest)) -> triple P (forM l (fun o => put (on_book b (update_order (ord_id o) (set_status PaperCanceled))))) (fun _ => P) whatever).
  { induction l as [|o l IH]; intros Hl; cbn [forM]; [by apply triple_ret|].
    apply (triple_bind _ _ _ _ (fun _ => P)); [|intros _; apply IH; intros x Hx; apply Hl; by right].
    eapply triple_conseq; [apply (cancel_unfilled b (ord_id o) P whatever)| | |]; try done.
    - intros s H. apply (proj1 (List.Forall_forall _ _) H). apply Hl. by left.
    - intros s s' H X. eapply Forall_impl; [exact X|]. intros x. apply H. }
  by apply G.
Qed.

Lemma steady_leverage symbol leverage s :
  ss_nextOrderId (snd ((_ ← put (on_book FuturesBook (fun a => with_symbol_settings
    (Some (o_set symbol leverage (default [] (acc_leverageBySymbol a)))) (acc_marginTypeBySymbol a) a));
   ids ← gets (fun s => order_ids (ss_futures s));
   _ ← each_order ids false (fun o =>
     if negb (is_open o) || negb (String.eqb (ord_symbol o) symbol) then mret false
     else o' ← reserveFuturesOrder cfg o; _ ← store_order o'; mret false);
   mret tt) s)) = ss_nextOrderId s.
Proof.
  revert s. change (steady (_ ← put (on_book FuturesBook (fun a => with_symbol_settings
    (Some (o_set symbol leverage (default [] (acc_leverageBySymbol a)))) (acc_marginTypeBySymbol a) a));
   ids ← gets (fun s => order_ids (ss_futures s));
   _ ← each_order ids false (fun o =>
     if negb (is_open o) || negb (String.eqb (ord_symbol o) symbol) then mret false
     else o' ← reserveFuturesOrder cfg o; _ ← store_order o'; mret false);
   mret tt)).
  apply steady_bind; [done|]. intros _. apply steady_bind; [done|]. intros ids. apply steady_bind; [|done].
  apply steady_each. intros o. destruct (_ || _); [done|]. apply steady_bind; [apply steady_money; auto with money|]. intros o'. by apply steady_bind.
Qed.

Lemma leverage_triple symbol leverage :
  triple always (change_leverage cfg px symbol leverage) whatever whatever.
Proof.
  unfold change_leverage. do 2 (apply (triple_bind _ _ _ _ whatever); [apply triple_money; auto with money ti|]; intros _).
  apply (triple_bind _ _ _ _ whatever); [|intros _; apply persist_triple; auto with ti].
  apply futures_rolled_back_triple; [|intros s; apply steady_leverage].
  apply (triple_bind _ _ _ _ (fun _ => always)); [by apply put_money_triple|]. intros _.
  apply (triple_bind _ _ _ _ whatever); [by apply triple_gets|]. intros ids.
  apply (triple_bind _ _ _ _ whatever); [|intros; by apply triple_ret]. apply each_order_triple. intros o.
  destruct (is_open o) eqn:Op; [|by apply triple_ret]. cbn [negb orb]. destruct (negb _); [by apply triple_ret|].
  apply triple_assoc', (triple_bind _ _ _ _ whatever); [|intros; by apply triple_ret].
  apply (triple_from _ (Alive FuturesBook o)); [intros s _ H; by apply alive_here|].
  eapply triple_conseq; [apply (reserved_stored cfg px o (Alive FuturesBook o) whatever); auto with ti| | |]; done.
Qed.

(** ** The operations *)

(** The operations of the client on existing accounts; [resetAccount] starts new ones. *)
Inductive Command :=
  | PlaceOrder (input : PlaceOrderInput)
  | ReplaceProtectiveOrders (input : PlaceOrderInput) (orderIds : list string)
  | PlaceOcoOrder (input : PlaceOcoOrderInput)
  | CancelOrder (id symbol : string)
  | CancelOrderList (orderListId symbol : string)
  | SetLeverage (symbol : string) (leverage : number)
  | SetMarginMode (symbol : string) (type : MarginType)
  | GetRiskSettings (symbol : string)
  | ProjectOpeningRisk (input : PlaceOrderInput) (referencePrice : number)
  | GetOpenOrders (symbol : option string)
  | GetOrderHistory (symbol : option string) (limit : number)
  | GetOrder (id symbol : string)
  | GetOrderByClientId (clientOrderId symbol : string)
  | GetOrderList (orderListId : string)
  | GetOrderListByClientId (listClientOrderId : string)
  | HasAnyAccountExposure.

Definition ignore {A} (m : Op A) : Op unit := _ ← m; mret tt.

Definition perform (c : Command) : Op unit :=
  match c with
  | PlaceOrder input => ignore (placeOrder cfg px input)
  | ReplaceProtectiveOrders input ids => ignore (replaceProtectiveOrders cfg px input ids)
  | PlaceOcoOrder input => ignore (placeOcoOrder cfg px input)
  | CancelOrder id symbol => cancelOrder cfg px id symbol
  | CancelOrderList id symbol => cancelOrderList cfg px id symbol
  | SetLeverage symbol leverage => setLeverage cfg px symbol leverage
  | SetMarginMode symbol type => setMarginMode cfg px symbol type
  | GetRiskSettings symbol => ignore (getRiskSettings cfg px symbol)
  | ProjectOpeningRisk input price => ignore (projectOpeningRisk cfg px input price)
  | GetOpenOrders symbol => ignore (getOpenOrders cfg px symbol)
  | GetOrderHistory symbol limit => ignore (getOrderHistory cfg px symbol limit)
  | GetOrder id symbol => ignore (getOrder cfg px id symbol)
  | GetOrderByClientId id symbol => ignore (getOrderByClientId cfg px id symbol)
  | GetOrderList id => ignore (getOrderList cfg px id)
  | GetOrderListByClientId id => ignore (getOrderListByClientId cfg px id)
  | HasAnyAccountExposure => ignore (hasAnyAccountExposure cfg px)
  end.

(** The session once an operation has read the accounts. *)
Definition loaded (s : Session) : Session := snd (reloadAccountsUnlocked cfg px s).

(** What an operation that runs on loaded accounts makes of them. *)
Definition advances {A} (m : Op A) : Prop :=
  forall s, Ordered (loaded s) ->
  snd (m s) = s \/ (Ordered (snd (m s)) /\ Later (loaded s) (snd (m s))).

Lemma run_advances {A} (m : Op A) : orderly_op m -> advances (runAccountOperation cfg px m).
Proof.
  intros H s W. right. unfold runAccountOperation, mbind, ST_bind, loaded in *.
  destruct (reloadAccountsUnlocked cfg px s) as [[u|e] s1]; cbn in *; [|auto with ti]. by destruct (H s1 W I) as (? & ? & _).
Qed.

Lemma ignore_advances {A} (m : Op A) : advances m -> advances (ignore m).
Proof.
  intros H s W. specialize (H s W). revert H. unfold ignore, mbind, ST_bind. destruct (m s) as [[a|e] s']; done.
Qed.

Lemma refused_advances {A} c e (m : Op A) : advances m -> advances (_ ← check c e; m).
Proof. intros H s W. destruct c; [by left|]. apply (H s W). Qed.

Lemma read_triple {A} (m : Op A) P : money m -> triple P m whatever whatever.
Proof. intros M. eapply triple_conseq with (P' := always); [apply (triple_money always m whatever); auto with ti| | |]; done. Qed.

Lemma settled_read_triple {A B C} (f : result PaperError A) (k : A -> Session -> B) (l : A -> B -> Op C) :
  (forall a b, money (l a b)) ->
  triple always (a ← lift f; _ ← settleOpenOrdersUnlocked cfg px []; b ← gets (k a); l a b) whatever whatever.
Proof.
  intros M. apply (triple_bind _ _ _ _ whatever); [apply read_triple; auto with money|]. intros a.
  apply (triple_bind _ _ _ _ whatever); [apply settle_triple|]. intros _.
  apply (triple_bind _ _ _ _ whatever); [by apply triple_gets|]. intros b. by apply read_triple.
Qed.

Lemma settled_list_triple {B C} (k : Session -> B) (l : B -> Op C) :
  (forall b, money (l b)) ->
  triple always (_ ← settleOpenOrdersUnlocked cfg px []; b ← gets k; l b) whatever whatever.
Proof.
  intros M. apply (triple_bind _ _ _ _ whatever); [apply settle_triple|]. intros _.
  apply (triple_bind _ _ _ _ whatever); [by apply triple_gets|]. intros b. by apply read_triple.
Qed.

Lemma margin_mode_triple symbol type :
  triple always
    (_ ← validateFuturesMarket cfg px symbol;
     _ ← put (on_book FuturesBook (fun a => with_symbol_settings (acc_leverageBySymbol a)
           (Some (o_set symbol type (default [] (acc_marginTypeBySymbol a)))) a));
     persistAll) whatever whatever.
Proof.
  apply (triple_bind _ _ _ _ whatever); [apply read_triple; auto with money|]. intros _.
  apply (triple_bind _ _ _ _ (fun _ => always)); [by apply put_money_triple|]. intros _. apply persist_triple; auto with ti.
Qed.

Lemma perform_advances c : advances (perform c).
Proof.
  assert (G : forall A (a : A), money (mret (M := Op) a)) by (intros; apply money_ret).
  destruct c; cbn [perform]; try apply ignore_advances.
  - apply run_advances. destruct (isFuturesSymbol _ _); [apply submitFutures_triple|apply submitSpot_triple].
  - unfold replaceProtectiveOrders. destruct orderIds; [by left|]. apply run_advances.
    destruct (isFuturesSymbol _ _); [apply submitFutures_triple|apply submitSpot_triple].
  - apply run_advances, oco_triple.
  - apply run_advances, cancelOrder_triple.
  - apply run_advances, cancelList_triple.
  - apply run_advances, leverage_triple.
  - apply run_advances, margin_mode_triple.
  - apply run_advances, read_triple. money.
  - apply run_advances, read_triple. money.
  - apply run_advances, settled_read_triple. intros; money.
  - apply refused_advances, run_advances, settled_read_triple. intros; money.
  - apply run_advances, settled_read_triple. intros; money.
  - apply run_advances, settled_read_triple. intros; money.
  - apply run_advances, settled_list_triple. intros; money.
  - apply run_advances, settled_list_triple. intros; money.
  - apply run_advances. apply (triple_bind _ _ _ _ whatever); [apply settle_triple|]. intros _. by apply triple_gets.
Qed.

(** C22: An operation only advances the orders of the accounts it loaded: no order is lost
    or reopened, a finished one keeps its status and its fills, a fill is of the whole
    order, trades are only added, and a file holds what it held or an account that has
    advanced in the same way; whether the operation returns or throws. The accounts it
    loads are [Ordered]: their open orders have ids of their own and the ids and groups of
    later numbers are unused. *)
Theorem operations_advance_orders c s :
  Ordered (loaded s) ->
  let s' := snd (perform c s) in
  s' = s \/
  forall b,
    (forall o, In o (orders b (loaded s)) -> exists o', In o' (orders b s') /\ OrderStep o o') /\
    acc_trades (book_account b (loaded s)) `prefix_of` acc_trades (book_account b s') /\
    (ss_disk s' (file_of b) = ss_disk (loaded s) (file_of b) \/
     exists a, ss_disk s' (file_of b) = Some (json_copy (account_value a)) /\ Grows (book_account b (loaded s)) a).
Proof.
  intros W s'. destruct (perform_advances c s W) as [E|[_ [B F]]]; [by left|right]. intros b. destruct (B b) as [Ev Tr].
  split; [exact Ev|split; [exact Tr|apply F]].
Qed.

(** C23: Of the legs of a group at most one is filled, after any operation that changed
    anything; a step of the invariant [Ordered], which the accounts it loaded satisfy and
    those it leaves satisfy again. *)
Theorem one_leg_is_filled c s b o o' :
  Ordered (loaded s) -> snd (perform c s) <> s ->
  In o (orders b (snd (perform c s))) -> In o' (orders b (snd (perform c s))) -> legs o o' ->
  ord_status o = PaperClosed -> ord_status o' = PaperClosed -> ord_id o = ord_id o'.
Proof.
  intros W Ne Ho Ho' L C C'. destruct (perform_advances c s W) as [E|[W' _]]; [done|].
  destruct (decide (ord_id o' = ord_id o)) as [|N]; [done|].
  pose proof (ord_legs _ _ (ordered_book _ W' b) o o' Ho Ho' L) as X. unfold is_closed in X. rewrite C in X.
  specialize (X (bool_decide_eq_true_2 _ eq_refl) N). congruence.
Qed.
End Fate.
