(* ===== verification/PaperFaults.v ===== *)
(** * Failures of the paper client

    A settlement pass that fails changes nothing, and a resting purchase whose refund rounds below its cost stops every operation
    of the account. *)

From Stdlib Require Import ZArith Lia Bool Ascii Floats.
From stdpp Require Import base strings option list.
From S2P Require Import Prelude JsNumber JsObject JsValue JsFloat JsMath JsText AccountRisk RiskState Execution.
From S2P Require Import Capabilities ExecutionRecovery PaperAccount PaperPath PaperStore PaperSession PaperLedger PaperFutures.
From S2P Require Import PaperClient PaperLife PaperSteps PaperSettle PaperFate.

#[local] Set Warnings "-inexact-float".

(** ** Operations that write no file *)

Definition offline {A} (m : Op A) : Prop := forall s, ss_disk (snd (m s)) = ss_disk s.

Section Offline.
Context {A B : Type}.
Lemma offline_money (m : Op A) : money m -> offline m.
Proof. intros H s. apply H. Qed.
Lemma offline_bind (m : Op A) (k : A -> Op B) : offline m -> (forall a, offline (k a)) -> offline (m ≫= k).
Proof. intros Hm Hk s. specialize (Hm s). unfold mbind, ST_bind. destruct (m s) as [[a|e] s1]; [|done]. cbn in *. by rewrite Hk. Qed.
Lemma offline_try (m : Op A) h : offline m -> (forall e, offline (h e)) -> offline (tryCatch m h).
Proof. intros Hm Hh s. specialize (Hm s). unfold tryCatch. destruct (m s) as [[a|e] s1]; [done|]. cbn in *. by rewrite Hh. Qed.
Lemma offline_book b g : offline (put (on_book b g)).
Proof. done. Qed.
Lemma offline_next n : offline (put (with_next n)).
Proof. done. Qed.
End Offline.

Create HintDb offline discriminated.
#[export] Hint Resolve offline_book offline_next : offline.

Ltac offline_step :=
  lazymatch goal with
  | |- offline (_ ≫= _) => apply offline_bind; [|intros ?]
  | |- offline (tryCatch _ _) => apply offline_try; [|intros ?]
  | |- offline (match ?x with _ => _ end) => destruct x
  | |- offline (let _ := _ in _) => cbv zeta
  | |- offline _ => first [solve [auto with offline]|apply offline_money; solve [auto with money]]
  end.
Ltac offline := repeat offline_step.

Section Faults.
Context (cfg : PaperConfig) (px : PaperExchange).

Lemma offline_each ids dirty (body : PaperOrder -> Op bool) : (forall o, offline (body o)) -> offline (each_order ids dirty body).
Proof.
  intros H. revert dirty. induction ids as [|id rest IH]; intros dirty; cbn [each_order]; [done|].
  apply offline_bind; [done|]. intros r. apply offline_bind; [destruct r; [apply H|done]|]. intros d. apply IH.
Qed.

Lemma offline_release b o : offline (releaseReservation cfg b o).
Proof. unfold releaseReservation. offline. Qed.
#[local] Hint Resolve offline_release : offline.
Lemma offline_cancel b o : offline (cancel_order cfg b o).
Proof. unfold cancel_order. offline. Qed.
#[local] Hint Resolve offline_cancel : offline.
Lemma offline_siblings b o keep : offline (cancel_siblings b o keep).
Proof. unfold cancel_siblings. offline. Qed.
Lemma offline_store o : offline (store_order o).
Proof. done. Qed.
Lemma offline_store_in b o : offline (store_in b o).
Proof. done. Qed.
#[local] Hint Resolve offline_siblings offline_store offline_store_in : offline.
Lemma offline_sync o p : offline (syncFuturesOpeningReserve cfg o p).
Proof. unfold syncFuturesOpeningReserve. offline. Qed.
#[local] Hint Resolve offline_sync : offline.
Lemma offline_orphaned : offline (cancelOrphanedFuturesReduceOrders cfg).
Proof. unfold cancelOrphanedFuturesReduceOrders. apply offline_bind; [done|]. intros ids. apply offline_each. intros o. offline. Qed.
Lemma offline_refresh : offline (refreshFuturesOpeningReserves cfg).
Proof.
  unfold refreshFuturesOpeningReserves. apply offline_bind; [done|]. intros ids. apply offline_bind; [|done].
  apply offline_each. intros o. offline.
Qed.
#[local] Hint Resolve offline_orphaned offline_refresh : offline.
Lemma offline_futures_fill input price existing : offline (executeFuturesFill cfg px input price false existing).
Proof. unfold executeFuturesFill. offline. Qed.
Lemma offline_fill symbol side amount price cid : offline (executeFill cfg px symbol side amount price cid false).
Proof. unfold executeFill. offline. Qed.
Lemma offline_refused o previous e : offline (futures_fill_refused cfg o previous e).
Proof. unfold futures_fill_refused. offline. Qed.
#[local] Hint Resolve offline_futures_fill offline_fill offline_refused : offline.
Lemma offline_resting b o price : offline (fillRestingOrder cfg px b o price).
Proof. unfold fillRestingOrder. offline. Qed.
#[local] Hint Resolve offline_resting : offline.
Lemma offline_legs b path legs winner : offline (evaluate_legs b path legs winner).
Proof. revert winner. induction legs as [|leg rest IH]; intros winner; cbn [evaluate_legs]; offline. Qed.
#[local] Hint Resolve offline_legs : offline.
Lemma offline_order b ids time since o seen : offline (settle_order cfg px b ids time since o seen).
Proof. unfold settle_order. offline. Qed.
#[local] Hint Resolve offline_order : offline.
Lemma offline_orders b all time since ids seen : offline (settle_orders cfg px b all time since ids seen).
Proof. revert seen. induction ids as [|id rest IH]; intros seen; cbn [settle_orders]; offline. Qed.
#[local] Hint Resolve offline_orders : offline.
Lemma offline_account b : offline (settleAccountOpenOrders cfg px b).
Proof. unfold settleAccountOpenOrders. offline. Qed.

(** A pass fails before it writes. *)
Lemma last_writes {A B} (m1 : Op A) (m2 : Op B) f s e :
  offline m1 -> offline m2 -> fst ((x ← m1; y ← m2; put (f x y)) s) = Throw e ->
  ss_disk (snd ((x ← m1; y ← m2; put (f x y)) s)) = ss_disk s.
Proof.
  intros H1 H2. specialize (H1 s). unfold mbind, ST_bind. destruct (m1 s) as [[x|e1] s1]; [|done]. cbn in H1.
  specialize (H2 s1). destruct (m2 s1) as [[y|e2] s2]; [done|]. cbn in *. congruence.
Qed.

Lemma failed_accounts_offline s e : fst (settle_accounts cfg px s) = Throw e -> ss_disk (snd (settle_accounts cfg px s)) = ss_disk s.
Proof.
  pose proof (offline_account SpotBook) as O1. pose proof (offline_account FuturesBook) as O2.
  unfold settle_accounts, persistAccountsUnlocked. apply last_writes; by destruct (negb _).
Qed.

(** C24: A settlement pass over the resting orders that fails leaves both accounts, the order
    number and every file as they were after the liquidations, which are kept. *)
Theorem failed_pass_changes_nothing prices s e s' :
  settleOpenOrdersUnlocked cfg px prices s = (Throw e, s') ->
  let (r, s1) := settleFuturesRisk cfg px prices s in
  match r with
  | Throw e1 => e = e1 /\ s' = s1
  | Ok _ => ss_spot s' = ss_spot s1 /\ ss_futures s' = ss_futures s1 /\ ss_nextOrderId s' = ss_nextOrderId s1 /\ ss_disk s' = ss_disk s1
  end.
Proof.
  unfold settleOpenOrdersUnlocked. unfold mbind at 1, ST_bind at 1. destruct (settleFuturesRisk cfg px prices s) as [[u|e1] s1]; [|by intros [= <- <-]].
  intros H. pose proof (rolled_back_restores (settle_accounts cfg px) s1) as R. unfold restored in R. rewrite H in R. cbn in R.
  split; [apply R|]. split; [apply R|]. split; [apply R|]. revert H. unfold rolled_back, mbind, ST_bind, tryCatch. cbn.
  pose proof (failed_accounts_offline s1) as O. destruct (settle_accounts cfg px s1) as [[a|e2] s2]; [done|].
  intros [= <- <-]. by apply (O e2).
Qed.
End Faults.

(** ** A purchase that cannot be settled *)

Definition jam_config : PaperConfig :=
  {| pc_quote := "USDT"; pc_feeRate := 0.001; pc_markets := SpotMarkets; pc_positionMode := OneWay; pc_maintenance := 0.005;
     pc_startQuote := 23.66175812 |}.

Definition spot_market : CcxtMarket :=
  {| cm_quote := "USDT"; cm_settle := None; cm_spot := Some true; cm_swap := None; cm_contract := None; cm_linear := None;
     cm_inverse := None; cm_active := Some true; cm_contractSize := None; cm_minAmount := None; cm_maxAmount := None;
     cm_minCost := None; cm_maxCost := None |}.

(** An exchange at one price, without candles. *)
Definition exchange_at (last : number) : PaperExchange :=
  {| px_now n := (1700000000000 + of_Z (Z.of_nat n))%float;
     px_ticker _ _ _ := Some {| tk_last := Some last; tk_mark := nan; tk_index := nan; tk_timestamp := None |};
     px_ohlcv _ _ _ _ _ _ := Some []; px_markets _ _ := Some (fun _ => Some spot_market);
     px_amount _ _ x := Some x; px_price _ _ x := Some x |}.

Definition no_session : Session :=
  {| ss_spot := freshSpotAccount "" 0 0; ss_futures := freshSpotAccount "" 0 0; ss_nextOrderId := 0; ss_leverage := 1;
     ss_marginType := Isolated; ss_disk := fun _ => None; ss_calls := 0 |}.
Definition opened : Session := snd (openAccounts jam_config (exchange_at 800) 1 Isolated no_session).

Definition jam_order : PlaceOrderInput :=
  {| in_symbol := "BTC/USDT"; in_side := Buy; in_type := Limit; in_amount := 0.031; in_price := Some 762.52%float;
     in_reduceOnly := None; in_positionSide := None; in_stopPrice := None; in_trailingPercent := None;
     in_closePosition := None; in_clientOrderId := None |}.
Definition with_order : Session := snd (placeOrder jam_config (exchange_at 800) jam_order opened).

Definition jam : PaperError := SettleFailed "1" (InsufficientFunds "USDT").
Definition falling : PaperExchange := exchange_at 760.

Definition jam_loaded : Session := loaded jam_config falling with_order.

Lemma jam_reads : reloadAccountsUnlocked jam_config falling with_order = (Ok tt, jam_loaded).
Proof. vm_compute. reflexivity. Qed.

Lemma jam_settles : fst (settleOpenOrdersUnlocked jam_config falling [] jam_loaded) = Throw jam.
Proof. vm_compute. reflexivity. Qed.

Lemma jammed {A} (m : unit -> Op A) : fst ((settleOpenOrdersUnlocked jam_config falling [] ≫= m) jam_loaded) = Throw jam.
Proof. pose proof jam_settles as H. unfold mbind, ST_bind. destruct (settleOpenOrdersUnlocked _ _ _ _) as [[u|e] s]; cbn in *; congruence. Qed.

Lemma jammed_run {A} (m : unit -> Op A) :
  fst (runAccountOperation jam_config falling (settleOpenOrdersUnlocked jam_config falling [] ≫= m) with_order) = Throw jam.
Proof. unfold runAccountOperation, mbind at 1, ST_bind at 1. rewrite jam_reads. apply jammed. Qed.

(** The client accepts a purchase that reserves the whole balance and then, once its
    price is reached, cannot settle it: the refund is rounded below the cost of the fill.
    From then on no spot order can be placed, no order can be read and this one cannot be
    cancelled: each of these operations throws the same error. *)
Theorem resting_purchase_jams_account :
  (exists r, fst (placeOrder jam_config (exchange_at 800) jam_order opened) = Ok r) /\
  (forall input, isFuturesSymbol jam_config (in_symbol input) = false ->
     fst (placeOrder jam_config falling input with_order) = Throw jam) /\
  (forall id, fst (cancelOrder jam_config falling id "BTC/USDT" with_order) = Throw jam) /\
  (forall id, fst (getOrder jam_config falling id "BTC/USDT" with_order) = Throw jam) /\
  fst (getOpenOrders jam_config falling None with_order) = Throw jam /\
  fst (hasAnyAccountExposure jam_config falling with_order) = Throw jam.
Proof.
  split; [eexists; vm_compute; reflexivity|]. split.
  - intros input E. unfold placeOrder, submitPaperOrder. rewrite E. apply jammed_run.
  - split; [|split; [|split]].
    + intros id. unfold cancelOrder, cancel_by_id, runAccountOperation, mbind at 1, ST_bind at 1. rewrite jam_reads. apply jammed.
    + intros id. unfold getOrder, find_order, runAccountOperation, mbind at 1, ST_bind at 1. rewrite jam_reads. apply jammed.
    + unfold getOpenOrders, runAccountOperation, mbind at 1, ST_bind at 1. rewrite jam_reads. apply jammed.
    + apply jammed_run.
Qed.

Lemma failed_pass_changes_nothing_witness :
  exists s', settleOpenOrdersUnlocked jam_config falling [] jam_loaded = (Throw jam, s') /\
    ss_spot s' = ss_spot jam_loaded /\ ss_disk s' = ss_disk jam_loaded.
Proof.
  exists (snd (settleOpenOrdersUnlocked jam_config falling [] jam_loaded)).
  assert (E : settleOpenOrdersUnlocked jam_config falling [] jam_loaded
              = (Throw jam, snd (settleOpenOrdersUnlocked jam_config falling [] jam_loaded))) by (vm_compute; reflexivity).
  split; [exact E|]. pose proof (failed_pass_changes_nothing jam_config falling [] jam_loaded jam _ E) as H.
  cbn [settleFuturesRisk] in H. split; [apply H|apply H].
Defined.

(** ** A group of two legs *)

Definition market_buy : PlaceOrderInput :=
  {| in_symbol := "BTC/USDT"; in_side := Buy; in_type := Market; in_amount := 0.02; in_price := None; in_reduceOnly := None;
     in_positionSide := None; in_stopPrice := None; in_trailingPercent := None; in_closePosition := None; in_clientOrderId := None |}.
Definition protection : PlaceOcoOrderInput :=
  {| oco_symbol := "BTC/USDT"; oco_side := Sell; oco_amount := 0.02; oco_takeProfitPrice := 900; oco_stopLossPrice := 700;
     oco_listClientOrderId := None; oco_aboveClientOrderId := None; oco_belowClientOrderId := None |}.
Definition protected : Session :=
  snd (placeOcoOrder jam_config (exchange_at 800) protection (snd (placeOrder jam_config (exchange_at 800) market_buy opened))).

Definition crash : PaperExchange := exchange_at 690.

Lemma protected_orders :
  exists o c d, acc_orders (ss_spot (loaded jam_config crash protected)) = [o; c; d] /\
    map ord_id [o; c; d] = ["1"; "2"; "3"]%string /\ ord_ocoGroup o = None /\ is_open c = true /\ is_open d = true /\
    ord_ocoGroup c = Some "oco-2"%string /\ ord_ocoGroup d = Some "oco-2"%string.
Proof. do 3 eexists. vm_compute. split_and!; reflexivity. Qed.

Lemma orderly_nil n : Orderly n [].
Proof. constructor; try done; by intros ? ? []. Qed.

Lemma orderly_group o c d :
  map ord_id [o; c; d] = ["1"; "2"; "3"]%string -> ord_ocoGroup o = None -> is_open c = true -> is_open d = true ->
  ord_ocoGroup c = Some "oco-2"%string -> ord_ocoGroup d = Some "oco-2"%string -> Orderly 4 [o; c; d].
Proof.
  intros I G Oc Od Gc Gd. injection I as Io Ic Id. apply (oco_push 2 [o]); try assumption.
  apply (numbered_push 1 2 []); [apply orderly_nil|lia|assumption|assumption].
Qed.

Lemma protected_ordered : Ordered (loaded jam_config crash protected).
Proof.
  constructor. intros [].
  - assert (N : ss_nextOrderId (loaded jam_config crash protected) = 4%Z) by (vm_compute; reflexivity). rewrite N. clear N.
    destruct protected_orders as (o & c & d & E & I & G & Oc & Od & Gc & Gd). cbn [book_account]. rewrite E. by apply orderly_group.
  - assert (N : acc_orders (book_account FuturesBook (loaded jam_config crash protected)) = []) by (vm_compute; reflexivity).
    rewrite N. apply orderly_nil.
Qed.

Lemma protected_loaded :
  exists o c d, orders SpotBook (loaded jam_config crash protected) = [o; c; d] /\ map ord_id [o; c; d] = ["1"; "2"; "3"]%string.
Proof. pose proof protected_orders as (o & c & d & E & I & _). exists o, c, d. split; [exact E|exact I]. Qed.

Local Abbreviation settled := (snd (perform jam_config crash (GetOpenOrders None) protected)).

Lemma settled_changed : settled <> protected.
Proof.
  assert (N : Nat.eqb (length (acc_trades (ss_spot settled))) (length (acc_trades (ss_spot protected))) = false) by (vm_compute; reflexivity).
  intros F. rewrite F in N. revert N. generalize (length (acc_trades (ss_spot protected))). intros n N. by rewrite Nat.eqb_refl in N.
Qed.

Lemma settled_orders :
  exists x y z, orders SpotBook settled = [x; y; z] /\ legs z y /\ ord_status z = PaperClosed /\ ord_status y = PaperCanceled.
Proof. do 3 eexists. split; [vm_compute; reflexivity|]. split; [by exists "oco-2"%string|]. split; reflexivity. Qed.

(** The price falls below the stop: that leg is filled and the other cancelled. *)
Lemma operations_advance_orders_witness :
  Ordered (loaded jam_config crash protected) /\
  map ord_status (orders SpotBook settled) = [PaperClosed; PaperCanceled; PaperClosed] /\
  exists o o', In o (orders SpotBook (loaded jam_config crash protected)) /\ ord_id o = "2"%string /\
    In o' (orders SpotBook settled) /\ OrderStep o o'.
Proof.
  split; [exact protected_ordered|]. split; [vm_compute; reflexivity|].
  pose proof (operations_advance_orders jam_config crash (GetOpenOrders None) protected protected_ordered) as H. cbv zeta in H.
  pose proof settled_changed as N. pose proof protected_loaded as (o & c & d & E & I).
  revert H N E. generalize settled (loaded jam_config crash protected) protected. intros s' s1 s0 H N E.
  destruct H as [H|H]; [contradiction|]. destruct (H SpotBook) as [Ev _]. destruct (Ev c) as (c' & Hc' & S); [rewrite E; right; by left|].
  injection I as _ Ic _. exists c, c'. split; [rewrite E; right; by left|done].
Defined.

Lemma one_leg_is_filled_witness :
  exists o o', In o (orders SpotBook settled) /\ In o' (orders SpotBook settled) /\ legs o o' /\ ord_status o = PaperClosed /\
    (ord_status o' = PaperClosed -> ord_id o = ord_id o').
Proof.
  pose proof (fun o o' => one_leg_is_filled jam_config crash (GetOpenOrders None) protected SpotBook o o' protected_ordered settled_changed) as H.
  pose proof settled_orders as (x & y & z & E & L & C & _). revert H E. generalize settled. intros s' H E.
  assert (Hz : In z (orders SpotBook s')) by (rewrite E; right; right; by left).
  assert (Hy : In y (orders SpotBook s')) by (rewrite E; right; by left).
  exists z, y. split; [done|]. split; [done|]. split; [done|]. split; [done|]. intros C'. by apply H.
Defined.
