(* ===== verification/Positions.v ===== *)
(** * Positions, tickers and balances (packages/trading-engine/src: types.ts, protection.ts)

    What a client reports of an account and a market, and which orders protect a position. *)

From Stdlib Require Import ZArith Lia Bool Ascii Floats.
From stdpp Require Import base strings option list.
From S2P Require Import Prelude JsNumber JsObject JsValue AccountRisk RiskState Execution Capabilities ExecutionRecovery.

Local Open Scope float_scope.

(** ** Data (types.ts) *)

Inductive ValuationStatus := CompleteValuation | UnavailableValuation.
Inductive CostBasisStatus := CompleteBasis | PartialBasis | UnavailableBasis.
#[export] Instance ValuationStatus_eq_dec : EqDecision ValuationStatus.
Proof. solve_decision. Defined.

Record Position := {
  po_symbol : string;
  po_asset : string;
  po_amount : number;
  po_quoteValue : option number;
  po_valuationStatus : option ValuationStatus;
  po_valuationReason : option string;
  po_positionSide : option PositionSide;
  po_leverage : option number;
  po_marginType : option MarginType;
  po_markPrice : option number;
  po_liquidationPrice : option number;
  po_margin : option number;
  po_avgEntryPrice : option number;
  po_unrealizedPnl : option number;
  po_unrealizedPnlPct : option number;
  po_costBasisStatus : option CostBasisStatus;
  po_costBasisReason : option string
}.

Record Ticker := {
  ti_symbol : string;
  ti_last : option number;
  ti_bid : option number;
  ti_ask : option number;
  ti_high24h : option number;
  ti_low24h : option number;
  ti_changePct24h : option number;
  ti_volume24h : option number;
  ti_quoteVolume24h : option number;
  ti_timestamp : number;
  ti_sourceTimestampKnown : option bool
}.

Record Balance := {
  ba_asset : string;
  ba_free : number;
  ba_used : number;
  ba_total : number;
  ba_quoteValue : option number
}.

(** ** Protection (protection.ts) *)

Definition reduceSide (p : Position) : OrderSide :=
  if bool_decide (po_positionSide p = Some ShortSide) || (po_amount p <? 0) then Buy else Sell.

Definition hasStopComponent (o : Order) : bool :=
  match o_type o with
  | Some type => bool_decide (type = Oco) || bool_decide (type ∈ [Stop; StopMarket; TrailingStopMarket])
  | None => false
  end.

Inductive Coverage := Protected | PartlyProtected | Unprotected.
#[export] Instance Coverage_eq_dec : EqDecision Coverage.
Proof. solve_decision. Defined.

Definition protectionCoverage (o : Order) (p : Position) (coveragePct : number) (mode : PositionMode) : Coverage :=
  if bool_decide (mode = Hedge) && negb (bool_decide (o_positionSide o = po_positionSide p)) then Unprotected
  else if negb (String.eqb (o_symbol o) (po_symbol p)) || negb (bool_decide (o_side o = reduceSide p)) || negb (hasStopComponent o)
  then Unprotected
  else
    let amount := Math_abs (po_amount p) in
    if amount <=? 0 then Unprotected
    else if bool_decide (o_closePosition o = Some true) then Protected
    else
      let remaining := Math_max 0 (Math_abs (o_amount o) - Math_max 0 (o_filled o)) in
      if remaining <=? 0 then Unprotected
      else if amount * (coveragePct / 100) <=? remaining then Protected else PartlyProtected.

Definition isProtection (o : Order) (p : Position) (coveragePct : number) (mode : PositionMode) : bool :=
  bool_decide (protectionCoverage o p coveragePct mode = Protected).
