(* ===== verification/OrderPlan.v ===== *)
(** * Order plans (packages/trading-engine/src: order-plan.ts, ccxt-precision.ts)

    How an intent becomes an order: its checks, the price it is valued at, the amount in
    the lots of its market and the plan the user confirms. *)

From Stdlib Require Import ZArith Lia Bool Ascii Floats.
From stdpp Require Import base strings option list.
From S2P Require Import Prelude JsNumber JsObject JsValue JsFloat JsMath JsText AccountRisk RiskState Execution.
From S2P Require Import Venues Capabilities ExecutionRecovery PaperAccount PaperPath PaperStore PaperSession PaperLedger Positions.

#[local] Set Warnings "-inexact-float".

Local Open Scope float_scope.

(** ** Lots (ccxt-precision.ts) *)

Definition CCXT_DECIMAL_PLACES : number := 2.
Definition CCXT_TICK_SIZE : number := 4.

Definition remove_trailing (c : ascii) (s : string) : string :=
  String.string_of_list_ascii (rev ((fix drop l := match l with x :: r => if Ascii.eqb x c then drop r else l | [] => [] end)
    (rev (String.list_ascii_of_string s)))).
(** [s.replace(/\.$/, "")] *)
Definition remove_final (c : ascii) (s : string) : string :=
  match rev (String.list_ascii_of_string s) with
  | x :: r => if Ascii.eqb x c then String.string_of_list_ascii (rev r) else s
  | [] => s
  end.

Definition amountStepDecimals (step : number) : option nat :=
  if negb (isFinite step) || (step <=? 0) then None
  else
    let text := remove_final "."%char (remove_trailing "0"%char (toFixed 16 step)) in
    let decimals := match String.index 0 "." text with
                    | Some dot => (String.length text - dot - 1)%nat
                    | None => 0%nat
                    end in
    if (16 <? decimals)%nat then None else Some decimals.

Definition truncateToAmountStep (amount step : number) : option number :=
  match amountStepDecimals step with
  | Some decimals =>
      if negb (isFinite amount) || (amount <=? 0) then None
      else
        let units := Math_floor (amount / step + 1e-12) in
        if negb (isFinite units) || (units <=? 0) then None
        else
          let snapped := stringToNumber (toFixed decimals (units * step)) in
          if isFinite snapped && (0 <? snapped) then Some snapped else None
  | None => None
  end.

(** ** Intents and plans *)

Record OrderPlanningConfig := {
  pl_marketType : MarketType;
  pl_quoteCurrency : string;
  pl_positionMode : PositionMode
}.

(** What the client answers a preparation: it is asked for each of these once at most;
    [None] is a call that throws. *)
Record MarketDataClient := {
  md_id : string;
  md_ticker : string -> option Ticker;
  md_market : string -> option MarketInfo;
  md_positions : option (list Position)
}.

Record OrderPlanningContext := {
  ct_config : OrderPlanningConfig;
  ct_mode : TradingMode;
  ct_exchange : MarketDataClient
}.

Record OrderIntent := {
  it_symbol : string;
  it_type : OrderType;
  it_amount : option number;
  it_quoteAmount : option number;
  it_price : option number;
  it_reduceOnly : option bool;
  it_positionSide : option PositionSide;
  it_stopPrice : option number;
  it_trailingPercent : option number;
  it_closePosition : option bool
}.

Inductive ReferencePriceSource := LimitPrice | StopPrice | AskPrice | BidPrice | LastPrice.
#[export] Instance ReferencePriceSource_eq_dec : EqDecision ReferencePriceSource.
Proof. solve_decision. Defined.

Record PreparedOrder := {
  pd_input : PlaceOrderInput;
  pd_capabilityContext : TradingCapabilityContext;
  pd_side : OrderSide;
  pd_amount : number;
  pd_notional : number;
  pd_referencePrice : number;
  pd_referencePriceSource : ReferencePriceSource;
  pd_referenceTimestamp : number;
  pd_countTowardsDailyLimit : bool;
  pd_closePosition : option Position;
  pd_reducingPosition : option Position;
  pd_reduceOnlyRequested : bool;
  pd_reduceOnlyApplied : bool;
  pd_exchangeConstraint : option string;
  pd_summary : string
}.

Record OcoIntent := {
  oi_symbol : string;
  oi_side : OrderSide;
  oi_amount : number;
  oi_stopLossPrice : number;
  oi_takeProfitPrice : number
}.

Record PreparedOco := {
  px_input : PlaceOcoOrderInput;
  px_capabilityContext : TradingCapabilityContext;
  px_observedNotional : number;
  px_riskNotional : number;
  px_notional : number;
  px_referencePrice : number;
  px_referenceTimestamp : number;
  px_countTowardsDailyLimit : bool;
  px_summary : string
}.

Inductive PlanError :=
  | WrongSymbol | CapabilityRefused (reason : string) | PriceNotAccepted | PricePositive | StopPricePositive | StopPriceNotAccepted
  | TrailingPercentMissing | PaperTrailingActivation | TrailingPercentNotAccepted | CloseWithAmount | AmountChoice
  | AmountInvalid | QuoteAmountInvalid | NoCurrentPrice | TriggersAtOnce | StopLimitDirection | TrailingActivationSide
  | NoPositionToClose | ManyPositionsToClose | NoReferencePrice | PlannedAmountNotPositive | RoundsToZero | BelowMinimum
  | NotRepresentable | ExceedsPosition | NotionalInvalid | OcoPriceInvalid | OcoPricesEqual | OcoRange | OcoNotionalInvalid
  | MarketUnavailable | SpotStepUnavailable | NotALinearContract | ContractSizeMissing | ContractStepUnavailable
  | ClientThrew.

(** [OrderPreparationError.uncertain]: external metadata is missing. *)
Definition uncertain_plan (e : PlanError) : bool :=
  match e with
  | MarketUnavailable | SpotStepUnavailable | NotALinearContract | ContractSizeMissing | ContractStepUnavailable => true
  | _ => false
  end.

Definition isStopType (t : OrderType) : bool := bool_decide (t ∈ [Stop; StopMarket; TakeProfit; TakeProfitMarket]).
Definition takesPrice (t : OrderType) : bool := bool_decide (t ∈ [Limit; Stop; TakeProfit]).
Definition positive_opt (o : option number) : bool := match o with Some x => isFinite x && negb (x <=? 0) | None => false end.

Definition side_upper (s : OrderSide) : string := match s with Buy => "BUY" | Sell => "SELL" end.
Definition some_text (f : string -> string) (o : option number) : string :=
  match o with Some x => f (numberToString x) | None => "" end.

Section Plans.
Variables toUpperCase toLowerCase : string -> string.
(** [Math.pow], whose result the language leaves to the implementation. *)
Variable pow : number -> number -> number.

Definition amountStepFromCcxtPrecision (precisionAmount precisionMode : option number) : option number :=
  match precisionAmount with
  | Some p =>
      if negb (isFinite p) || (p <? 0) then None
      else match precisionMode with
      | Some mode =>
          if mode =? CCXT_TICK_SIZE then if 0 <? p then Some p else None
          else if mode =? CCXT_DECIMAL_PLACES then if negb (isInteger p) then None else Some (pow 10 (- p))
          else None
      | None => None
      end
  | None => None
  end.

(** ** Futures lots *)

Definition isFuturesSymbol (symbol quoteCurrency : string) : bool :=
  endsWith (String.append "/" (String.append quoteCurrency (String.append ":" quoteCurrency))) symbol.

Definition futuresContractLotStep (precision : option number) : option number :=
  match precision with
  | Some p =>
      if negb (isFinite p) || (p <? 0) then None
      else if isInteger p then Some (pow 10 (- p))
      else if (0 <? p) && (p <? 1) then Some p else None
  | None => None
  end.

Definition futuresAmountStep (m : MarketInfo) : option number :=
  match mi_amountStep m with
  | Some step => if isFinite step && (0 <? step) then Some step else futuresContractLotStep (mi_amountPrecision m)
  | None => futuresContractLotStep (mi_amountPrecision m)
  end.

Definition ceilToStep (x step : number) : number := Math_ceil (x / step - 1e-12) * step.
Definition isMultipleOfStep (x step : number) : bool :=
  let units := x / step in isFinite units && (Math_abs (units - Math_round units) <=? 1e-9).

Definition requireFuturesContract (m : MarketInfo) : result PlanError number :=
  _ ← throwIf (negb (mi_contract m) || negb (is_true_opt (mi_linear m))
               || match mi_amountUnit m with Some unit => negb (bool_decide (unit = ContractUnit)) | None => false end) NotALinearContract;
  match mi_contractSize m with
  | Some size => if isFinite size && negb (size <=? 0) then Ok size else Throw ContractSizeMissing
  | None => Throw ContractSizeMissing
  end.

Definition requireFuturesLot (m : MarketInfo) : result PlanError (number * number) :=
  contractSize ← requireFuturesContract m;
  match futuresAmountStep m with
  | Some step => if isFinite step && negb (step <=? 0) then Ok (contractSize, step) else Throw ContractStepUnavailable
  | None => Throw ContractStepUnavailable
  end.

Definition limits_min (b : MarketLimits -> option Bounds) (m : MarketInfo) : option number :=
  l ← mi_limits m; x ← b l; b_min x.
Definition limits_max (b : MarketLimits -> option Bounds) (m : MarketInfo) : option number :=
  l ← mi_limits m; x ← b l; b_max x.
(** [market.minAmount ?? market.limits?.amount?.min] *)
Definition minAmount (m : MarketInfo) : option number :=
  match mi_minAmount m with Some x => Some x | None => limits_min ml_amount m end.
Definition minNotional (m : MarketInfo) : option number :=
  match mi_minNotional m with Some x => Some x | None => limits_min ml_cost m end.

Definition snapQuoteAmountToFuturesLot (amount : number) (m : MarketInfo) (referencePrice : number) : result PlanError number :=
  lot ← requireFuturesLot m;
  let '(contractSize, step) := (lot : number * number) in
  let contracts := amount / contractSize in
  _ ← throwIf (negb (isFinite contracts) || (contracts <=? 0)) PlannedAmountNotPositive;
  let contracts := ceilToStep contracts step in
  let contracts := match minAmount m with
    | Some least => if isFinite least && (contracts <? least) then ceilToStep least step else contracts
    | None => contracts
    end in
  let contracts := match minNotional m with
    | Some least =>
        if isFinite least && (0 <? least) then
          let minContracts := least / (referencePrice * contractSize) in
          if isFinite minContracts && (contracts <? minContracts) then ceilToStep minContracts step else contracts
        else contracts
    | None => contracts
    end in
  let snapped := contracts * contractSize in
  _ ← throwIf (negb (isFinite snapped) || (snapped <=? 0)) PlannedAmountNotPositive;
  Ok snapped.

Definition snapSpotLot (amount : number) (m : MarketInfo) (requireStep : bool) : result PlanError number :=
  match mi_amountStep m with
  | Some step =>
      if negb (isFinite step) || (step <=? 0) then if requireStep then Throw SpotStepUnavailable else Ok amount
      else match truncateToAmountStep amount step with
      | None => Throw RoundsToZero
      | Some snapped =>
          _ ← throwIf (match minAmount m with Some least => isFinite least && (snapped <? least) | None => false end) BelowMinimum;
          Ok snapped
      end
  | None => if requireStep then Throw SpotStepUnavailable else Ok amount
  end.

Definition assertFuturesAmountRepresentable (amount : number) (m : MarketInfo) : result PlanError unit :=
  contractSize ← requireFuturesContract m;
  match futuresAmountStep m with
  | Some step =>
      if negb (isFinite step) || (step <=? 0) then Ok tt
      else
        let contracts := amount / contractSize in
        let tolerance := Math_max 1e-12 (Math_abs amount * 1e-9) in
        throwIf (negb (isMultipleOfStep contracts step) || (tolerance <? Math_abs (contracts * contractSize - amount))) NotRepresentable
  | None => Ok tt
  end.

(** ** The checks of an intent *)

Definition countsTowardsDailyLimit (config : OrderPlanningConfig) (side : OrderSide) (params : OrderIntent) : bool :=
  if negb (isFuturesSymbol (it_symbol params) (pl_quoteCurrency config)) then bool_decide (side = Buy)
  else if truthy (it_reduceOnly params) || truthy (it_closePosition params) then false
  else if bool_decide (pl_positionMode config = Hedge)
          && ((bool_decide (it_positionSide params = Some LongSide) && bool_decide (side = Sell))
              || (bool_decide (it_positionSide params = Some ShortSide) && bool_decide (side = Buy))) then false
  else true.

Definition closes (config : OrderPlanningConfig) (side : OrderSide) (params : OrderIntent) (p : Position) : bool :=
  String.eqb (po_symbol p) (it_symbol params) && (0 <? Math_abs (po_amount p)) && bool_decide (reduceSide p = side)
  && (negb (bool_decide (pl_positionMode config = Hedge)) || bool_decide (po_positionSide p = it_positionSide params)).

Definition findClosePosition (ct : OrderPlanningContext) (side : OrderSide) (params : OrderIntent) : result PlanError Position :=
  match md_positions (ct_exchange ct) with
  | None => Throw ClientThrew
  | Some positions =>
      match List.filter (closes (ct_config ct) side params) positions with
      | [] => Throw NoPositionToClose
      | [p] => Ok p
      | _ => Throw ManyPositionsToClose
      end
  end.

(** [type.startsWith("stop") ? side === "sell" : side === "buy"], for the trigger types. *)
Definition fallsToTrigger (side : OrderSide) (type : OrderType) : bool :=
  if bool_decide (type ∈ [Stop; StopMarket]) then bool_decide (side = Sell) else bool_decide (side = Buy).

Definition trigger_waits (side : OrderSide) (type : OrderType) (currentPrice stopPrice : number) : bool :=
  if fallsToTrigger side type then stopPrice <? currentPrice else currentPrice <? stopPrice.

Definition stop_limit_ordered (side : OrderSide) (type : OrderType) (price stopPrice : number) : bool :=
  match type, side with
  | Stop, Sell => price <=? stopPrice
  | Stop, Buy => stopPrice <=? price
  | _, Sell => stopPrice <=? price
  | _, Buy => price <=? stopPrice
  end.

(** The checks that need no market data. *)
Definition check_intent (mode : TradingMode) (params : OrderIntent) : result PlanError unit :=
  let type := it_type params in
  let closing := truthy (it_closePosition params) in
  _ ← throwIf (negb (takesPrice type) && present (it_price params)) PriceNotAccepted;
  _ ← throwIf (takesPrice type && negb (positive_opt (it_price params))) PricePositive;
  _ ← throwIf (isStopType type && negb (positive_opt (it_stopPrice params))) StopPricePositive;
  _ ← throwIf (negb (isStopType type) && negb (bool_decide (type = TrailingStopMarket)) && present (it_stopPrice params)) StopPriceNotAccepted;
  _ ← (if bool_decide (type = TrailingStopMarket) then
         _ ← throwIf (match it_trailingPercent params with
                      | Some p => negb (isFinite p) || (p <=? 0) || (100 <=? p)
                      | None => true
                      end) TrailingPercentMissing;
         throwIf (present (it_stopPrice params) && bool_decide (mode = Paper)) PaperTrailingActivation
       else throwIf (present (it_trailingPercent params)) TrailingPercentNotAccepted);
  _ ← throwIf (closing && (present (it_amount params) || present (it_quoteAmount params))) CloseWithAmount;
  _ ← throwIf (negb closing && Bool.eqb (present (it_amount params)) (present (it_quoteAmount params))) AmountChoice;
  _ ← throwIf (negb closing && present (it_amount params) && negb (positive_opt (it_amount params))) AmountInvalid;
  throwIf (negb closing && present (it_quoteAmount params) && negb (positive_opt (it_quoteAmount params))) QuoteAmountInvalid.

(** The checks against the current price. *)
Definition check_trigger (side : OrderSide) (params : OrderIntent) (last : option number) : result PlanError unit :=
  let type := it_type params in
  let trailing := bool_decide (type = TrailingStopMarket) && present (it_stopPrice params) in
  let stop := default 0 (it_stopPrice params) in
  let current := default 0 last in
  _ ← throwIf ((isStopType type || trailing) && negb (positive_opt last)) NoCurrentPrice;
  _ ← throwIf (isStopType type && negb (trigger_waits side type current stop)) TriggersAtOnce;
  _ ← throwIf (bool_decide (type ∈ [Stop; TakeProfit]) && negb (stop_limit_ordered side type (default 0 (it_price params)) stop)) StopLimitDirection;
  throwIf (trailing && negb (match side with Sell => current <? stop | Buy => stop <? current end)) TrailingActivationSide.

(** What the order is valued at. *)
Definition reference_price (side : OrderSide) (params : OrderIntent) (t : Ticker) : option number * ReferencePriceSource :=
  match it_price params, it_stopPrice params with
  | Some p, _ => (Some p, LimitPrice)
  | None, Some p => (Some p, StopPrice)
  | None, None =>
      match side, ti_ask t, ti_bid t with
      | Buy, Some ask, _ => (Some ask, AskPrice)
      | Sell, _, Some bid => (Some bid, BidPrice)
      | _, _, _ => (ti_last t, LastPrice)
      end
  end.

Definition capability_context (ct : OrderPlanningContext) (futures : bool) : TradingCapabilityContext :=
  {| tc_exchangeId := md_id (ct_exchange ct); tc_mode := ct_mode ct;
     tc_marketFamily := if futures then FuturesFamily else SpotFamily;
     tc_positionMode := Some (pl_positionMode (ct_config ct)); tc_marketInfo := None; tc_metadataValid := None;
     tc_orderType := None |}.

(** [{ ...params, side }] as the capability check reads it; it reads no amount. *)
Definition intent_input (side : OrderSide) (params : OrderIntent) : PlaceOrderInput :=
  {| in_symbol := it_symbol params; in_side := side; in_type := it_type params; in_amount := default 0 (it_amount params);
     in_price := it_price params; in_reduceOnly := it_reduceOnly params; in_positionSide := it_positionSide params;
     in_stopPrice := it_stopPrice params; in_trailingPercent := it_trailingPercent params;
     in_closePosition := it_closePosition params; in_clientOrderId := None |}.

Definition formatPreparedOrderSummary (side : OrderSide) (amount : number) (input : PlaceOrderInput) (context : TradingCapabilityContext)
    (quoteCurrency : string) (notional : number) : string :=
  String.concat "" [side_upper side; " "; numberToString amount; " "; in_symbol input; " ("; type_name (in_type input); ")";
    some_text (fun s => String.append " @ " s) (in_price input);
    some_text (fun s => String.append " trigger " s) (in_stopPrice input);
    some_text (fun s => String.append " trail " (String.append s "%")) (in_trailingPercent input);
    if truthy (in_closePosition input) then " (close entire matching position)" else "";
    if oc_omitExchangeQuantity (evaluateOrderCapability toUpperCase toLowerCase context input)
    then " (Binance close-all; exchange may omit quantity)" else "";
    " ≈ "; toFixed 2 notional; " "; quoteCurrency]%string.

(** The amount in the lots of the market. *)
Definition lot_amount_of (ct : OrderPlanningContext) (params : OrderIntent) (futures closing : bool) (amount referencePrice : number) :
    result PlanError number :=
  let quoted := present (it_quoteAmount params) in
  if closing then Ok amount
  else match md_market (ct_exchange ct) (it_symbol params) with
  | Some m =>
      if futures then
        if quoted then snapQuoteAmountToFuturesLot amount m referencePrice
        else _ ← assertFuturesAmountRepresentable amount m; Ok amount
      else snapSpotLot amount m quoted
  | None => if futures || quoted then Throw MarketUnavailable else Ok amount
  end.

Definition planned_notional (params : OrderIntent) (futures : bool) (closePosition : option Position) (amount referencePrice : number) : number :=
  match closePosition with
  | Some p => match po_quoteValue p with
              | Some v => if isFinite v && (0 <? v) then v else amount * referencePrice
              | None => amount * referencePrice
              end
  | None => match it_quoteAmount params with
            | Some q => if futures then amount * referencePrice else q
            | None => amount * referencePrice
            end
  end.

Definition planned_input (side : OrderSide) (params : OrderIntent) (amount : number) : PlaceOrderInput :=
  {| in_symbol := it_symbol params; in_side := side; in_type := it_type params; in_amount := amount;
     in_price := if takesPrice (it_type params) then it_price params else None;
     in_reduceOnly := if truthy (it_closePosition params) then Some true else it_reduceOnly params;
     in_positionSide := it_positionSide params; in_stopPrice := it_stopPrice params;
     in_trailingPercent := it_trailingPercent params; in_closePosition := it_closePosition params; in_clientOrderId := None |}.

Definition position_exceeded (amount : number) (p : option Position) : bool :=
  match p with
  | Some p => (Math_abs (po_amount p) <? amount) && negb (futuresAmountsEqual amount (Math_abs (po_amount p)))
  | None => false
  end.

(** The amount the intent asks for, before it is fitted to the lots of the market. *)
Definition asked_amount (params : OrderIntent) (closePosition : option Position) (referencePrice : number) : result PlanError number :=
  match closePosition, it_amount params, it_quoteAmount params with
  | Some p, _, _ => Ok (Math_abs (po_amount p))
  | None, Some a, _ => Ok a
  | None, None, Some q => Ok (q / referencePrice)
  | None, None, None => Throw AmountChoice
  end.

(** The position a futures order that does not open exposure reduces. *)
Definition reducing_position (ct : OrderPlanningContext) (side : OrderSide) (params : OrderIntent) (reduces : bool) :
    result PlanError (option Position) :=
  if reduces then p ← findClosePosition ct side params; Ok (Some p) else Ok None.

Definition prepareOrder (side : OrderSide) (params : OrderIntent) (ct : OrderPlanningContext) : result PlanError PreparedOrder :=
  let config := ct_config ct in
  _ ← throwIf (negb (validateTradingSymbol (it_symbol params) (pl_marketType config) (pl_quoteCurrency config))) WrongSymbol;
  let futures := isFuturesSymbol (it_symbol params) (pl_quoteCurrency config) in
  let context := capability_context ct futures in
  let cap := evaluateOrderCapability toUpperCase toLowerCase context (intent_input side params) in
  _ ← throwIf (bool_decide (c_status (oc_capability cap) = Unsupported)) (CapabilityRefused (c_reason (oc_capability cap)));
  _ ← check_intent (ct_mode ct) params;
  ticker ← match md_ticker (ct_exchange ct) (it_symbol params) with Some t => Ok t | None => Throw ClientThrew end;
  _ ← check_trigger side params (ti_last ticker);
  let counts := countsTowardsDailyLimit config side params in
  reducing ← reducing_position ct side params (futures && negb counts);
  let closePosition := if truthy (it_closePosition params) then reducing else None in
  let '(price, source) := reference_price side params ticker in
  _ ← throwIf (negb (positive_opt price)) NoReferencePrice;
  let referencePrice := default 0 price in
  amount ← asked_amount params closePosition referencePrice;
  _ ← throwIf (negb (isFinite amount) || (amount <=? 0)) PlannedAmountNotPositive;
  amount ← lot_amount_of ct params futures (present closePosition) amount referencePrice;
  _ ← throwIf (position_exceeded amount reducing) ExceedsPosition;
  let notional := planned_notional params futures closePosition amount referencePrice in
  _ ← throwIf (negb (isFinite notional) || (notional <=? 0)) NotionalInvalid;
  let requested := bool_decide (it_reduceOnly params = Some true) || bool_decide (it_closePosition params = Some true) in
  let input := planned_input side params amount in
  Ok {| pd_input := input; pd_capabilityContext := context; pd_side := side; pd_amount := amount; pd_notional := notional;
        pd_referencePrice := referencePrice; pd_referencePriceSource := source; pd_referenceTimestamp := ti_timestamp ticker;
        pd_countTowardsDailyLimit := counts; pd_closePosition := closePosition; pd_reducingPosition := reducing;
        pd_reduceOnlyRequested := requested;
        pd_reduceOnlyApplied := requested && match oc_constraints cap with [] => true | _ => false end;
        pd_exchangeConstraint := match oc_constraints cap with [] => None | l => Some (String.concat "; " l) end;
        pd_summary := formatPreparedOrderSummary side amount input context (pl_quoteCurrency config) notional |}.

(** ** OCO plans *)

Definition formatPreparedOcoSummary (input : PlaceOcoOrderInput) (quoteCurrency : string) (observedNotional riskNotional : number) : string :=
  String.concat "" ["OCO "; side_upper (oco_side input); " "; numberToString (oco_amount input); " "; oco_symbol input; " SL ";
    numberToString (oco_stopLossPrice input); " / TP "; numberToString (oco_takeProfitPrice input); " ≈ ";
    toFixed 2 observedNotional; " "; quoteCurrency;
    match oco_side input with
    | Buy => String.concat "" [" (risk ≤ "; toFixed 2 riskNotional; " "; quoteCurrency; ")"]
    | Sell => ""
    end]%string.

Definition oco_input (params : OcoIntent) (amount : number) : PlaceOcoOrderInput :=
  {| oco_symbol := oi_symbol params; oco_side := oi_side params; oco_amount := amount; oco_stopLossPrice := oi_stopLossPrice params;
     oco_takeProfitPrice := oi_takeProfitPrice params; oco_listClientOrderId := None; oco_aboveClientOrderId := None;
     oco_belowClientOrderId := None |}.

Definition oco_range_ok (side : OrderSide) (stopLoss takeProfit price : number) : bool :=
  match side with
  | Sell => negb (price <=? stopLoss) && negb (takeProfit <=? price)
  | Buy => negb (stopLoss <=? price) && negb (price <=? takeProfit)
  end.

Definition prepareOcoOrder (params : OcoIntent) (ct : OrderPlanningContext) : result PlanError PreparedOco :=
  let config := ct_config ct in
  let side := oi_side params in
  _ ← throwIf (negb (validateTradingSymbol (oi_symbol params) (pl_marketType config) (pl_quoteCurrency config))) WrongSymbol;
  let futures := isFuturesSymbol (oi_symbol params) (pl_quoteCurrency config) in
  let context := capability_context ct futures in
  let cap := cap_oco (getTradingCapabilities toUpperCase toLowerCase context) side in
  _ ← throwIf (bool_decide (c_status cap = Unsupported)) (CapabilityRefused (c_reason cap));
  _ ← throwIf (negb (positive_opt (Some (oi_amount params)))) AmountInvalid;
  _ ← throwIf (negb (positive_opt (Some (oi_stopLossPrice params)))) OcoPriceInvalid;
  _ ← throwIf (negb (positive_opt (Some (oi_takeProfitPrice params)))) OcoPriceInvalid;
  _ ← throwIf (oi_stopLossPrice params =? oi_takeProfitPrice params) OcoPricesEqual;
  amount ← (if futures then Ok (oi_amount params)
            else match md_market (ct_exchange ct) (oi_symbol params) with
            | Some m => snapSpotLot (oi_amount params) m false
            | None => Throw MarketUnavailable
            end);
  ticker ← match md_ticker (ct_exchange ct) (oi_symbol params) with Some t => Ok t | None => Throw ClientThrew end;
  _ ← throwIf (negb (positive_opt (ti_last ticker))) NoReferencePrice;
  let referencePrice := default 0 (ti_last ticker) in
  _ ← throwIf (negb (oco_range_ok side (oi_stopLossPrice params) (oi_takeProfitPrice params) referencePrice)) OcoRange;
  let observedNotional := amount * referencePrice in
  let riskPrice := match side with Buy => Math_max (oi_stopLossPrice params) (oi_takeProfitPrice params) | Sell => referencePrice end in
  let riskNotional := amount * riskPrice in
  _ ← throwIf (negb (isFinite observedNotional) || (observedNotional <=? 0)) OcoNotionalInvalid;
  _ ← throwIf (negb (isFinite riskNotional) || (riskNotional <=? 0)) OcoNotionalInvalid;
  let input := oco_input params amount in
  Ok {| px_input := input; px_capabilityContext := context; px_observedNotional := observedNotional; px_riskNotional := riskNotional;
        px_notional := observedNotional; px_referencePrice := referencePrice; px_referenceTimestamp := ti_timestamp ticker;
        px_countTowardsDailyLimit := bool_decide (side = Buy);
        px_summary := formatPreparedOcoSummary input (pl_quoteCurrency config) observedNotional riskNotional |}.

(** [isBinanceCloseAllTrigger] *)
Definition isBinanceCloseAllTrigger (ct : OrderPlanningContext) (plan : PreparedOrder) : bool :=
  oc_omitExchangeQuantity (evaluateOrderCapability toUpperCase toLowerCase
    (capability_context ct (isFuturesSymbol (in_symbol (pd_input plan)) (pl_quoteCurrency (ct_config ct)))) (pd_input plan)).
End Plans.
