(* ===== verification/OrderPreflight.v ===== *)
(** * Order preflight (packages/trading-engine/src/order-preflight.ts)

    The last checks of a confirmed plan against fresh market data, positions and balances,
    and when the evidence they return has drifted from what was confirmed. *)

From Stdlib Require Import ZArith Lia Bool Ascii Floats.
From stdpp Require Import base strings option list.
From S2P Require Import Prelude JsNumber JsObject JsValue JsFloat JsMath JsText AccountRisk RiskState Execution.
From S2P Require Import Venues Capabilities ExecutionRecovery PaperAccount PaperPath PaperStore PaperSession PaperLedger Positions OrderPlan.

#[local] Set Warnings "-inexact-float".

Local Open Scope float_scope.

Inductive PreflightError :=
  | PreflightMarketUnavailable | MarketInactive | MarketMismatch | PreflightCapability (reason : string) | SpotMisaligned
  | PreflightContractSize | PreflightConversion | ContractsMisaligned | LimitViolated (reason : string)
  | TickerUnavailable | TickerMismatch | PriceUnavailable | StopPriceMissing | TriggerInvalidated
  | PositionsUnavailable | ReducingPositionGone | PositionTooSmall | ClosePositionChanged
  | BalancesUnavailable | BalanceMissing | LeverageUnavailable | FeeRateUnavailable | InsufficientBalance | OcoRangeInvalidated
  | OcoAmountLimit | OcoNotionalLimit.

Definition uncertain_preflight (e : PreflightError) : bool :=
  match e with
  | PreflightMarketUnavailable | MarketMismatch | PreflightContractSize | PreflightConversion | TickerUnavailable | TickerMismatch
  | PriceUnavailable | StopPriceMissing | PositionsUnavailable | BalancesUnavailable | BalanceMissing | LeverageUnavailable
  | FeeRateUnavailable => true
  | _ => false
  end.

Record OrderConfirmationEvidence := {
  ev_referencePrice : number;
  ev_amount : number;
  ev_notional : number;
  ev_riskNotional : number;
  ev_priceStep : number
}.

Record OrderPreflightResult := { pr_warnings : list string; pr_evidence : OrderConfirmationEvidence }.

Record OcoPreflightResult := {
  po_result : OrderPreflightResult;
  po_market : MarketInfo;
  po_balance : Balance;
  po_balanceAsset : string;
  po_requiredBalance : number;
  po_estimatedFee : option number
}.

(** What a preflight asks, each at most once, but the leverage. *)
Record PreflightDependencies := {
  df_market : string -> option MarketInfo;
  df_balances : option (list Balance);
  df_ticker : option (string -> option Ticker);
  df_positions : option (list Position);
  df_quoteCurrency : string;
  df_marketType : MarketType;
  df_leverage : string -> number;
  df_feeRate : option number
}.

Section Preflight.
Variables toUpperCase toLowerCase : string -> string.
Variable pow : number -> number -> number.

(** ** The market *)

Definition marketMatches (m : MarketInfo) (symbol quote : string) (futures : bool) : bool :=
  String.eqb (mi_symbol m) symbol && String.eqb (mi_quote m) quote
  && if futures then
       bool_decide (mi_marketType m = SwapMarket) && mi_contract m && is_true_opt (mi_linear m) && negb (is_true_opt (mi_inverse m))
       && match mi_settle m with Some s => String.eqb s quote | None => true end
     else bool_decide (mi_marketType m = SpotMarket) && negb (mi_contract m).

Definition unit_name (u : AmountUnit) : string := match u with BaseUnit => "base" | ContractUnit => "contracts" end.

Definition exchangeAmount (plan : PreparedOrder) (m : MarketInfo) (futures : bool) : result PreflightError (number * AmountUnit) :=
  if negb futures then
    _ ← throwIf (match mi_amountStep m with
                 | Some step =>
                     isFinite step && (0 <? step)
                     && (let units := pd_amount plan / step in negb (isFinite units) || (1e-9 <? Math_abs (units - Math_round units)))
                 | None => false
                 end) SpotMisaligned;
    Ok (pd_amount plan, BaseUnit)
  else match mi_contractSize m with
  | Some contractSize =>
      _ ← throwIf (negb (isFinite contractSize) || (contractSize <=? 0)) PreflightContractSize;
      let amount := pd_amount plan / contractSize in
      _ ← throwIf (negb (isFinite amount) || (amount <=? 0)) PreflightConversion;
      _ ← throwIf (match futuresAmountStep pow m with
                   | Some step => 1e-9 <? Math_abs (amount / step - Math_round (amount / step))
                   | None => false
                   end) ContractsMisaligned;
      Ok (amount, ContractUnit)
  | None => Throw PreflightContractSize
  end.

Definition violation (c : bool) (text : list string) : list string := if c then [String.concat "" text] else [].
Definition opt_number (o : option number) : string := match o with Some x => numberToString x | None => "undefined" end.

Definition marketLimitViolations (m : MarketInfo) (amount : option (number * AmountUnit)) (notional : number) : list string :=
  let text := match amount with Some (a, u) => [numberToString a; " "; unit_name u] | None => [] end in
  concat
    [violation (match amount with Some (a, _) => below a (minAmount m) | None => false end)
       (app ("Exchange amount " :: text) [" is below market minimum "; opt_number (minAmount m)]);
     violation (match amount with Some (a, _) => above a (limits_max ml_amount m) | None => false end)
       (app ("Exchange amount " :: text) [" exceeds market maximum "; opt_number (limits_max ml_amount m)]);
     violation (below notional (mi_minNotional m))
       ["Estimated notional "; numberToString notional; " is below market minimum "; opt_number (mi_minNotional m)];
     violation (above notional (limits_max ml_cost m))
       ["Estimated notional "; numberToString notional; " exceeds market maximum "; opt_number (limits_max ml_cost m)]]%string.

(** [symbol.split("/")[1]?.split(":")[0] ?? ""] *)
Definition quote_of (symbol : string) : string :=
  match split_on "/"%char symbol with _ :: q :: _ => hd "" (split_on ":"%char q) | _ => "" end%string.
(** [symbol.split("/")[0]] *)
Definition base_part (symbol : string) : string := hd "" (split_on "/"%char symbol).

Definition with_market (m : MarketInfo) (c : TradingCapabilityContext) : TradingCapabilityContext :=
  {| tc_exchangeId := tc_exchangeId c; tc_mode := tc_mode c; tc_marketFamily := tc_marketFamily c;
     tc_positionMode := tc_positionMode c; tc_marketInfo := Some m; tc_metadataValid := tc_metadataValid c;
     tc_orderType := tc_orderType c |}.

Definition plan_capability (plan : PreparedOrder) (m : MarketInfo) : OrderCapability :=
  evaluateOrderCapability toUpperCase toLowerCase (with_market m (pd_capabilityContext plan)) (pd_input plan).

Definition checkMarketLimits (plan : PreparedOrder) (m : MarketInfo) (futures : bool) : result PreflightError unit :=
  _ ← throwIf (bool_decide (mi_active m = Some false)) MarketInactive;
  _ ← throwIf (negb (marketMatches m (in_symbol (pd_input plan)) (quote_of (in_symbol (pd_input plan))) futures)) MarketMismatch;
  let cap := plan_capability plan m in
  _ ← throwIf (bool_decide (c_status (oc_capability cap) = Unsupported)) (PreflightCapability (c_reason (oc_capability cap)));
  if oc_omitExchangeQuantity cap then Ok tt
  else
    amount ← exchangeAmount plan m futures;
    match marketLimitViolations m (Some amount) (pd_notional plan) with
    | first :: _ => Throw (LimitViolated first)
    | [] => Ok tt
    end.

(** ** The balance *)

Definition requiredBalance (plan : PreparedOrder) (quote : string) (futures : bool) (marketType : MarketType) : option string :=
  match pd_reducingPosition plan with
  | Some _ => None
  | None =>
      if futures then Some (if bool_decide (marketType = Both) then String.append "futures:" quote else quote)
      else if bool_decide (pd_side plan = Buy) then Some quote
      else Some (base_part (in_symbol (pd_input plan)))
  end.

Definition find_balance (asset : string) (balances : list Balance) : option Balance :=
  find (fun b => String.eqb (ba_asset b) asset) balances.

(** What the order takes of the asset, margin and fee on futures. *)
Definition required_amount (plan : PreparedOrder) (futures : bool) (leverage : number) (feeRate : option number) : result PreflightError number :=
  if futures then
    _ ← throwIf (negb (isFinite leverage) || (leverage <? 1)) LeverageUnavailable;
    match feeRate with
    | Some fee =>
        _ ← throwIf (negb (isFinite fee) || (fee <? 0) || (1 <=? fee)) FeeRateUnavailable;
        Ok (pd_notional plan / leverage + pd_notional plan * fee)
    | None => Ok (pd_notional plan / leverage)
    end
  else Ok (match pd_side plan with Sell => pd_amount plan | Buy => pd_notional plan end).

Definition lacks (required free : number) : bool :=
  EPSILON * Math_max 1 (Math_max required (Math_abs free)) * 8 <? required - free.

Definition checkBalance (plan : PreparedOrder) (balances : list Balance) (quote : string) (futures : bool) (marketType : MarketType)
    (leverage : string -> number) (feeRate : option number) : result PreflightError unit :=
  match requiredBalance plan quote futures marketType with
  | None => Ok tt
  | Some asset =>
      match find_balance asset balances with
      | Some b =>
          _ ← throwIf (negb (isFinite (ba_free b))) BalanceMissing;
          required ← required_amount plan futures (leverage (in_symbol (pd_input plan))) feeRate;
          throwIf (lacks required (ba_free b)) InsufficientBalance
      | None => Throw BalanceMissing
      end
  end.

(** ** The price *)

Definition loadTicker (symbol : string) (getTicker : string -> option Ticker) : result PreflightError Ticker :=
  match getTicker symbol with
  | None => Throw TickerUnavailable
  | Some t => _ ← throwIf (negb (String.eqb (ti_symbol t) symbol)) TickerMismatch; Ok t
  end.

Definition finitePrice (o : option number) : result PreflightError number :=
  match o with
  | Some x => if negb (isFinite x) || (x <=? 0) then Throw PriceUnavailable else Ok x
  | None => Throw PriceUnavailable
  end.

Definition MAX_CONFIRMED_PRICE_DRIFT_RATIO : number := 0.01.

Definition priceStep (m : MarketInfo) : number :=
  match mi_pricePrecision m with
  | Some p => if negb (isFinite p) || (p <? 0) then 0 else if isInteger p then pow 10 (- p) else p
  | None => 0
  end.

Definition materiallyChangedPrice (prepared current step : number) : bool :=
  Math_max (prepared * MAX_CONFIRMED_PRICE_DRIFT_RATIO) step <? Math_abs (current - prepared).
Definition materiallyChangedNotional (prepared current : number) : bool :=
  prepared * MAX_CONFIRMED_PRICE_DRIFT_RATIO <? Math_abs (current - prepared).

Definition marketEvidenceChanged (previous evidence : OrderConfirmationEvidence) : bool :=
  materiallyChangedPrice (ev_referencePrice previous) (ev_referencePrice evidence) (ev_priceStep evidence)
  || materiallyChangedNotional (ev_notional previous) (ev_notional evidence)
  || materiallyChangedNotional (ev_riskNotional previous) (ev_riskNotional evidence)
  || negb (futuresAmountsEqual (ev_amount previous) (ev_amount evidence)).

Definition confirmationSnapshotChanged (warnings : list string) (previous : OrderConfirmationEvidence) (next : OrderPreflightResult) : bool :=
  negb (bool_decide (warnings = pr_warnings next)) || marketEvidenceChanged previous (pr_evidence next).

Definition confirmationEvidence (m : MarketInfo) (referencePrice amount notional riskNotional : number) : OrderConfirmationEvidence :=
  {| ev_referencePrice := referencePrice; ev_amount := amount; ev_notional := notional; ev_riskNotional := riskNotional;
     ev_priceStep := priceStep m |}.

Definition dynamicReference (plan : PreparedOrder) : bool :=
  bool_decide (pd_referencePriceSource plan ∈ [AskPrice; BidPrice; LastPrice]).

Definition currentReferencePrice (plan : PreparedOrder) (t : Ticker) : option number :=
  match pd_referencePriceSource plan with
  | AskPrice => ti_ask t | BidPrice => ti_bid t | LastPrice => ti_last t | LimitPrice | StopPrice => None
  end.

(** The orders whose trigger is checked again. *)
Definition triggerOrder (plan : PreparedOrder) : bool :=
  isStopType (in_type (pd_input plan))
  || (bool_decide (in_type (pd_input plan) = TrailingStopMarket) && present (in_stopPrice (pd_input plan))).

Definition validateTrigger (plan : PreparedOrder) (t : Ticker) : result PreflightError unit :=
  if negb (triggerOrder plan) then Ok tt
  else
    let type := in_type (pd_input plan) in
    current ← finitePrice (ti_last t);
    match in_stopPrice (pd_input plan) with
    | None => Throw StopPriceMissing
    | Some stop =>
        if bool_decide (type = TrailingStopMarket) then
          throwIf (negb (match pd_side plan with Sell => current <? stop | Buy => stop <? current end)) TriggerInvalidated
        else throwIf (negb (trigger_waits (pd_side plan) type current stop)) TriggerInvalidated
    end.

Definition revalidateOrderPrice (plan : PreparedOrder) (getTicker : string -> option Ticker) : result PreflightError number :=
  if negb (dynamicReference plan) && negb (triggerOrder plan) then Ok (pd_referencePrice plan)
  else
    t ← loadTicker (in_symbol (pd_input plan)) getTicker;
    _ ← validateTrigger plan t;
    if negb (dynamicReference plan) then Ok (pd_referencePrice plan) else finitePrice (currentReferencePrice plan t).

(** ** The reducing position *)

Definition same_position (plan : PreparedOrder) (prepared p : Position) : bool :=
  String.eqb (po_symbol p) (po_symbol prepared) && (0 <? Math_abs (po_amount p))
  && bool_decide (po_positionSide p = po_positionSide prepared) && bool_decide (reduceSide p = pd_side plan).

Definition revalidateReducingPosition (plan : PreparedOrder) (getPositions : option (list Position)) : result PreflightError (option number) :=
  match pd_reducingPosition plan with
  | None => Ok None
  | Some prepared =>
      match getPositions with
      | None => Throw PositionsUnavailable
      | Some positions =>
          match List.filter (same_position plan prepared) positions with
          | [current] =>
              let currentAmount := Math_abs (po_amount current) in
              _ ← throwIf ((currentAmount <? pd_amount plan) && negb (futuresAmountsEqual currentAmount (pd_amount plan))) PositionTooSmall;
              if negb (present (pd_closePosition plan)) then Ok None
              else
                _ ← throwIf (negb (futuresAmountsEqual currentAmount (pd_amount plan))) ClosePositionChanged;
                Ok (Some (match po_quoteValue current with
                          | Some v => if isFinite v && (0 <? v) then v else currentAmount * pd_referencePrice plan
                          | None => currentAmount * pd_referencePrice plan
                          end))
          | _ => Throw ReducingPositionGone
          end
      end
  end.

(** ** The preflight *)

(** A capability that is not known is a warning. *)
Definition warnings_of (c : Capability) : list string := if bool_decide (c_status c = Unknown) then [c_reason c] else [].

Definition preflightOrder (plan : PreparedOrder) (d : PreflightDependencies) : result PreflightError OrderPreflightResult :=
  let futures := isFuturesSymbol (in_symbol (pd_input plan)) (df_quoteCurrency d) in
  market ← match df_market d (in_symbol (pd_input plan)) with Some m => Ok m | None => Throw PreflightMarketUnavailable end;
  _ ← checkMarketLimits plan market futures;
  referencePrice ← revalidateOrderPrice plan (default (fun _ => None) (df_ticker d));
  closeNotional ← revalidateReducingPosition plan (df_positions d);
  balances ← match df_balances d with Some l => Ok l | None => Throw BalancesUnavailable end;
  _ ← checkBalance plan balances (df_quoteCurrency d) futures (df_marketType d) (df_leverage d) (df_feeRate d);
  let notional := match closeNotional with
                  | Some n => n
                  | None => if dynamicReference plan then pd_amount plan * referencePrice else pd_notional plan
                  end in
  Ok {| pr_warnings := warnings_of (oc_capability (plan_capability plan market));
        pr_evidence := confirmationEvidence market referencePrice (pd_amount plan) notional notional |}.

(** ** The preflight of an OCO plan *)

Definition oco_inside (input : PlaceOcoOrderInput) (price : number) : bool :=
  match oco_side input with
  | Sell => (oco_stopLossPrice input <? price) && (price <? oco_takeProfitPrice input)
  | Buy => (oco_takeProfitPrice input <? price) && (price <? oco_stopLossPrice input)
  end.

Definition revalidateOcoPrice (plan : PreparedOco) (getTicker : string -> option Ticker) : result PreflightError number :=
  t ← loadTicker (oco_symbol (px_input plan)) getTicker;
  price ← finitePrice (ti_last t);
  _ ← throwIf (negb (oco_inside (px_input plan) price)) OcoRangeInvalidated;
  Ok price.

Definition preflightOco (plan : PreparedOco) (d : PreflightDependencies) : result PreflightError OcoPreflightResult :=
  let input := px_input plan in
  market ← match df_market d (oco_symbol input) with Some m => Ok m | None => Throw PreflightMarketUnavailable end;
  _ ← throwIf (bool_decide (mi_active market = Some false)) MarketInactive;
  _ ← throwIf (negb (marketMatches market (oco_symbol input) (df_quoteCurrency d) false)) MarketMismatch;
  referencePrice ← match df_ticker d with Some getTicker => revalidateOcoPrice plan getTicker | None => Ok (px_referencePrice plan) end;
  let cap := cap_oco (getTradingCapabilities toUpperCase toLowerCase (with_market market (px_capabilityContext plan))) (oco_side input) in
  _ ← throwIf (bool_decide (c_status cap = Unsupported)) (PreflightCapability (c_reason cap));
  _ ← throwIf (below (oco_amount input) (minAmount market)) OcoAmountLimit;
  _ ← throwIf (above (oco_amount input) (limits_max ml_amount market)) OcoAmountLimit;
  _ ← throwIf (below (px_riskNotional plan) (mi_minNotional market)) OcoNotionalLimit;
  _ ← throwIf (above (px_riskNotional plan) (limits_max ml_cost market)) OcoNotionalLimit;
  balances ← match df_balances d with Some l => Ok l | None => Throw BalancesUnavailable end;
  let asset := match oco_side input with Sell => base_part (oco_symbol input) | Buy => df_quoteCurrency d end in
  balance ← match find_balance asset balances with
            | Some b => if isFinite (ba_free b) then Ok b else Throw BalanceMissing
            | None => Throw BalanceMissing
            end;
  let estimatedFee := option_map (fun rate => px_riskNotional plan * rate) (df_feeRate d) in
  let worstCaseQuote := oco_amount input * Math_max (oco_stopLossPrice input) (oco_takeProfitPrice input) in
  let required := match oco_side input with Sell => oco_amount input | Buy => worstCaseQuote + default 0 estimatedFee end in
  _ ← throwIf (ba_free balance <? required) InsufficientBalance;
  let observedNotional := oco_amount input * referencePrice in
  let riskNotional := match oco_side input with Buy => px_riskNotional plan | Sell => observedNotional end in
  Ok {| po_result := {| pr_warnings := warnings_of cap;
                        pr_evidence := confirmationEvidence market referencePrice (oco_amount input) observedNotional riskNotional |};
        po_market := market; po_balance := balance; po_balanceAsset := asset; po_requiredBalance := required;
        po_estimatedFee := estimatedFee |}.
End Preflight.
