(* ===== verification/PlanSafety.v ===== *)
(** * What a plan promises

    A prepared order is sound on the market data it was prepared from and fits the paper
    client that would hold it, and a confirmed plan that passes its preflight with evidence
    that has not changed is executed near what was confirmed. *)

From Stdlib Require Import ZArith Lia Bool Ascii Floats.
From stdpp Require Import base strings option list.
From S2P Require Import Prelude JsNumber JsObject JsValue JsFloat JsMath JsText AccountRisk RiskState Execution.
From S2P Require Import Venues Capabilities ExecutionRecovery PaperAccount PaperPath PaperStore PaperSession PaperLedger PaperFutures PaperClient.
From S2P Require Import Positions OrderPlan OrderPreflight.

#[local] Set Warnings "-inexact-float".

Local Open Scope float_scope.

(** Finite and above zero. *)
Definition positive_number (x : number) : Prop := isFinite x = true /\ (0 <? x) = true.

Lemma positive_of x : isFinite x = true -> (x <=? 0) = false -> positive_number x.
Proof. intros F L. split; [done|]. apply leb_false_ltb; [by apply isFinite_notNaN| |done]. by apply isFinite_notNaN. Qed.

Lemma guard_positive x : negb (isFinite x) || (x <=? 0) = false -> positive_number x.
Proof. intros H. bool_hyps. by apply positive_of. Qed.

Lemma positive_opt_inv o : positive_opt o = true -> exists x, o = Some x /\ positive_number x.
Proof. destruct o as [x|]; [|done]. intros H. cbn in H. bool_hyps. exists x. split; [done|by apply positive_of]. Qed.

Lemma positive_not_leb x : positive_number x -> (x <=? 0) = false.
Proof. intros [_ P]. by apply ltb_not_leb. Qed.

Lemma positive_price_of x : positive_number x -> positive_price (Some x) = true.
Proof. intros P. cbn. by rewrite positive_not_leb. Qed.

Lemma finite_positive_of x : positive_number x -> isFinitePositive (Some x) = true.
Proof. intros [F P]. unfold isFinitePositive. by rewrite F, P. Qed.

Section Plans.
Variables toUpperCase toLowerCase : string -> string.
Variable pow : number -> number -> number.

(** The amount of a reduction is covered by its position, up to rounding. *)
Definition covered_by (amount : number) (p : Position) : Prop :=
  (amount <=? Math_abs (po_amount p)) = true \/ futuresAmountsEqual amount (Math_abs (po_amount p)) = true.

(** What holds of a plan and the snapshot it was prepared from. *)
Record SoundPlan (side : OrderSide) (params : OrderIntent) (ct : OrderPlanningContext) (plan : PreparedOrder) : Prop := {
  sound_amount : positive_number (pd_amount plan);
  sound_notional : positive_number (pd_notional plan);
  sound_price : positive_number (pd_referencePrice plan);
  sound_input : pd_input plan = planned_input side params (pd_amount plan) /\ pd_side plan = side;
  sound_capability : c_status (oc_capability (evaluateOrderCapability toUpperCase toLowerCase (pd_capabilityContext plan)
                                                (intent_input side params))) <> Unsupported;
  sound_trigger : isStopType (it_type params) = true ->
    exists t last stop, md_ticker (ct_exchange ct) (it_symbol params) = Some t /\ ti_last t = Some last /\ positive_number last /\
      it_stopPrice params = Some stop /\ positive_number stop /\ trigger_waits side (it_type params) last stop = true;
  sound_reduction : isFuturesSymbol (it_symbol params) (pl_quoteCurrency (ct_config ct)) = true -> pd_countTowardsDailyLimit plan = false ->
    exists p positions, md_positions (ct_exchange ct) = Some positions /\
      List.filter (closes (ct_config ct) side params) positions = [p] /\ pd_reducingPosition plan = Some p /\ covered_by (pd_amount plan) p;
  sound_close : forall p, pd_closePosition plan = Some p -> pd_amount plan = Math_abs (po_amount p)
}.

Lemma truncate_positive amount step x : truncateToAmountStep amount step = Some x -> positive_number x.
Proof.
  unfold truncateToAmountStep. destruct (amountStepDecimals step); [|done]. destruct (_ || _); [done|]. cbv zeta.
  destruct (_ || _); [done|]. destruct (isFinite _ && _) eqn:E; [|done]. intros [= <-]. by bool_hyps.
Qed.

Lemma snap_positive amount m req x : positive_number amount -> snapSpotLot amount m req = Ok x -> positive_number x.
Proof.
  intros P. unfold snapSpotLot. destruct (mi_amountStep m) as [step|]; [|by destruct req; intros [= <-]].
  destruct (_ || _); [by destruct req; intros [= <-]|]. destruct (truncateToAmountStep amount step) as [y|] eqn:E; [|done].
  intros H. inv_ok. by eapply truncate_positive.
Qed.

Lemma lot_positive ct params futures closing amount price x :
  positive_number amount -> lot_amount_of pow ct params futures closing amount price = Ok x ->
  positive_number x /\ (closing = true -> x = amount).
Proof.
  intros P. unfold lot_amount_of. destruct closing; [intros [= <-]; done|]. intros H. split; [|done]. revert H.
  destruct (md_market _ _) as [m|]; [destruct futures|].
  - destruct (present _).
    + unfold snapQuoteAmountToFuturesLot. intros H. inv_ok. destruct r as [contractSize step]. inv_ok. by apply guard_positive.
    + intros H. by inv_ok.
  - by apply snap_positive.
  - destruct (futures || present (it_quoteAmount params)); [done|by intros [= <-]].
Qed.

Lemma check_intent_price mode params :
  check_intent mode params = Ok tt -> takesPrice (it_type params) = true -> exists p, it_price params = Some p /\ positive_number p.
Proof. unfold check_intent. intros H T. inv_ok. rewrite T in *. cbn in *. bool_hyps. by apply positive_opt_inv. Qed.

Lemma check_intent_no_price mode params :
  check_intent mode params = Ok tt -> takesPrice (it_type params) = false -> it_price params = None.
Proof. unfold check_intent. intros H T. inv_ok. rewrite T in *. cbn in *. by destruct (it_price params). Qed.

Lemma check_intent_stop mode params :
  check_intent mode params = Ok tt -> isStopType (it_type params) = true -> exists p, it_stopPrice params = Some p /\ positive_number p.
Proof. unfold check_intent. intros H T. inv_ok. rewrite T in *. cbn in *. bool_hyps. by apply positive_opt_inv. Qed.

Lemma check_intent_trailing mode params :
  check_intent mode params = Ok tt -> it_type params = TrailingStopMarket ->
  (exists p, it_trailingPercent params = Some p /\ isFinite p = true /\ (p <=? 0) = false /\ (100 <=? p) = false) /\
  (mode = Paper -> it_stopPrice params = None).
Proof.
  unfold check_intent. intros H T. rewrite T, (bool_decide_eq_true_2 (TrailingStopMarket = TrailingStopMarket)) in H by done.
  inv_ok. split.
  - destruct (it_trailingPercent params) as [p|]; [|done]. bool_hyps. by exists p.
  - intros ->. by destruct (it_stopPrice params).
Qed.

Lemma check_trigger_waits side params last :
  check_trigger side params last = Ok tt -> isStopType (it_type params) = true ->
  exists x, last = Some x /\ positive_number x /\ trigger_waits side (it_type params) x (default 0 (it_stopPrice params)) = true.
Proof.
  unfold check_trigger. intros H T. inv_ok. rewrite T in *. cbn in *. bool_hyps.
  match goal with E : positive_opt last = true |- _ => apply positive_opt_inv in E as (x & -> & P) end. by exists x.
Qed.

Lemma closes_amount config side params p : closes config side params p = true -> notNaN (Math_abs (po_amount p)).
Proof. unfold closes. intros H. bool_hyps. match goal with E : (0 <? _) = true |- _ => by apply ltb_notNaN in E as [_ ?] end. Qed.

(** What preparing an order has established when it returns. *)
Record Prepared (side : OrderSide) (params : OrderIntent) (ct : OrderPlanningContext) (plan : PreparedOrder) (t : Ticker) (asked : number) : Prop := {
  prep_capability : c_status (oc_capability (evaluateOrderCapability toUpperCase toLowerCase (pd_capabilityContext plan)
                                               (intent_input side params))) <> Unsupported;
  prep_intent : check_intent (ct_mode ct) params = Ok tt;
  prep_ticker : md_ticker (ct_exchange ct) (it_symbol params) = Some t;
  prep_trigger : check_trigger side params (ti_last t) = Ok tt;
  prep_counts : pd_countTowardsDailyLimit plan = countsTowardsDailyLimit (ct_config ct) side params;
  prep_reducing : reducing_position ct side params
                    (isFuturesSymbol (it_symbol params) (pl_quoteCurrency (ct_config ct)) && negb (pd_countTowardsDailyLimit plan))
                  = Ok (pd_reducingPosition plan);
  prep_close : pd_closePosition plan = if truthy (it_closePosition params) then pd_reducingPosition plan else None;
  prep_reference : reference_price side params t = (Some (pd_referencePrice plan), pd_referencePriceSource plan);
  prep_price : positive_number (pd_referencePrice plan);
  prep_asked : asked_amount params (pd_closePosition plan) (pd_referencePrice plan) = Ok asked;
  prep_lot : lot_amount_of pow ct params (isFuturesSymbol (it_symbol params) (pl_quoteCurrency (ct_config ct)))
               (present (pd_closePosition plan)) asked (pd_referencePrice plan) = Ok (pd_amount plan);
  prep_asked_positive : positive_number asked;
  prep_covered : position_exceeded (pd_amount plan) (pd_reducingPosition plan) = false;
  prep_notional : positive_number (pd_notional plan);
  prep_input : pd_input plan = planned_input side params (pd_amount plan) /\ pd_side plan = side
}.

Lemma prepareOrder_inv side params ct plan :
  prepareOrder toUpperCase toLowerCase pow side params ct = Ok plan -> exists t asked, Prepared side params ct plan t asked.
Proof.
  unfold prepareOrder. intros H. inv_ok. destruct (reference_price _ _ _) as [price source] eqn:RP. inv_ok.
  match goal with E : negb (positive_opt price) = false |- _ => bool_hyps; apply positive_opt_inv in E as (ref & -> & Pref) end.
  cbn [default] in *.
  match goal with
  | T : match md_ticker _ _ with _ => _ end = Ok ?t, A : asked_amount _ _ _ = Ok ?asked |- _ =>
      exists t, asked; destruct (md_ticker _ _) eqn:?; [|done]; injection T as ->
  end.
  constructor; cbn [pd_amount pd_notional pd_referencePrice pd_input pd_side pd_capabilityContext pd_countTowardsDailyLimit
                    pd_reducingPosition pd_closePosition pd_referencePriceSource default] in *; try done; try by apply positive_of.
  match goal with E : bool_decide (_ = Unsupported) = false |- _ => by apply bool_decide_eq_false in E end.
Qed.

Lemma prep_amount side params ct plan t asked : Prepared side params ct plan t asked -> positive_number (pd_amount plan).
Proof. intros P. by destruct (lot_positive _ _ _ _ _ _ _ (prep_asked_positive _ _ _ _ _ _ P) (prep_lot _ _ _ _ _ _ P)). Qed.

(** C29: A prepared order has a finite positive amount, value and price, a capability that is
    not refused, a trigger the last price has not reached, and, when it reduces, exactly one
    position it reduces, that covers its amount; closing takes the whole of it. *)
Theorem plan_is_sound side params ct plan :
  prepareOrder toUpperCase toLowerCase pow side params ct = Ok plan -> SoundPlan side params ct plan.
Proof.
  intros (t & asked & P)%prepareOrder_inv. pose proof (prep_amount _ _ _ _ _ _ P) as Pa. destruct P. constructor; try done.
  - intros St. destruct (check_trigger_waits _ _ _ prep_trigger0 St) as (last & E & Pl & W).
    destruct (check_intent_stop _ _ prep_intent0 St) as (stop & Es & Ps). rewrite Es in W. by exists t, last, stop.
  - intros F C. rewrite F, C in prep_reducing0. cbn in prep_reducing0. inv_ok. unfold findClosePosition in *.
    destruct (md_positions _) as [positions|]; [|done]. destruct (List.filter _ positions) as [|p [|]] eqn:Fl; try done. inv_ok.
    exists r, positions. split_and!; try done. rewrite <- prep_reducing0 in prep_covered0. cbn in prep_covered0. unfold covered_by.
    destruct (futuresAmountsEqual _ _); [by right|left]. rewrite andb_true_r in *. apply ltb_false_leb; [| |done].
    + apply (closes_amount (ct_config ct) side params). apply (proj1 (filter_In _ _ positions)). rewrite Fl. by left.
    + apply isFinite_notNaN, Pa.
  - intros p E. rewrite E in *. cbn in prep_asked0, prep_lot0. by simplify_eq.
Qed.

(** ** A paper plan can rest *)

(** A limit order, a trigger or a trailing stop. *)
Definition rests (type : OrderType) : bool := bool_decide (type ∈ [Limit; Stop; StopMarket; TakeProfit; TakeProfitMarket; TrailingStopMarket]).

Lemma waits_not_fires side type price stop :
  isTriggerType type = true -> trigger_waits side type price stop = true -> triggerFires type side price stop = false.
Proof.
  unfold trigger_waits, triggerFires, fallsToTrigger, falls_to, starts_with_stop. intros _.
  case_match; apply ltb_not_leb.
Qed.

(** An input rests, and holds funds at [ref]. *)
Definition can_rest (input : PlaceOrderInput) (last : number) (ref : option number) : Prop :=
  exists r, configureRestingOrder input (Some last) = Ok r /\ rs_reservePrice r = ref.

Lemma limit_can_rest input last p :
  in_type input = Limit -> in_price input = Some p -> positive_number p -> can_rest input last (Some p).
Proof. intros T P Pp. unfold can_rest, configureRestingOrder. rewrite T, P, (positive_price_of _ Pp). eauto. Qed.

Lemma trigger_can_rest input last stop ref :
  isTriggerType (in_type input) = true -> positive_number last -> in_stopPrice input = Some stop -> positive_number stop ->
  trigger_waits (in_side input) (in_type input) last stop = true ->
  (if bool_decide (in_type input ∈ [Stop; TakeProfit]) then in_price input = Some ref /\ positive_number ref else ref = stop) ->
  can_rest input last (Some ref).
Proof.
  intros T Pl S Ps W Ref. pose proof (waits_not_fires _ _ _ _ T W) as NF. pose proof (finite_positive_of _ Pl) as FP.
  unfold can_rest, configureRestingOrder. destruct (in_type input) eqn:Ty; try discriminate T;
    rewrite S, (positive_not_leb _ Ps), FP, NF, T; cbn [negb];
    (destruct (bool_decide (_ ∈ [Stop; TakeProfit])); [destruct Ref as [-> Pr]; rewrite (positive_price_of _ Pr)|subst ref]; cbn; eauto).
Qed.

Lemma trailing_can_rest input last p :
  in_type input = TrailingStopMarket -> positive_number last -> in_stopPrice input = None -> in_trailingPercent input = Some p ->
  isFinite p = true -> (p <=? 0) = false -> (100 <=? p) = false ->
  can_rest input last (Some (trailingStopLevel (in_side input) last p)).
Proof.
  intros T Pl S P F L U. pose proof (finite_positive_of _ Pl) as FP. unfold can_rest, configureRestingOrder.
  rewrite T, FP, P, S, F, L, U. cbn. eauto.
Qed.

Lemma reference_of_price side params t p ref source :
  it_price params = Some p -> reference_price side params t = (ref, source) -> ref = Some p.
Proof. unfold reference_price. by intros -> [= <- _]. Qed.

Lemma reference_of_stop side params t p ref source :
  it_price params = None -> it_stopPrice params = Some p -> reference_price side params t = (ref, source) -> ref = Some p.
Proof. unfold reference_price. by intros -> -> [= <- _]. Qed.

Lemma trigger_stops mode side params last :
  check_intent mode params = Ok tt -> check_trigger side params (Some last) = Ok tt -> isStopType (it_type params) = true ->
  exists stop, it_stopPrice params = Some stop /\ positive_number stop /\ trigger_waits side (it_type params) last stop = true.
Proof.
  intros I T S. destruct (check_intent_stop _ _ I S) as (stop & E & P). destruct (check_trigger_waits _ _ _ T S) as (x & [= <-] & _ & W).
  rewrite E in W. by exists stop.
Qed.

(** Whatever a plan for a paper account asks to rest, the paper client accepts at the
    price the plan was prepared at, and a limit or a trigger holds the funds at exactly the
    price the plan was valued at. *)
Theorem planned_order_can_rest side params ct plan t last :
  prepareOrder toUpperCase toLowerCase pow side params ct = Ok plan -> ct_mode ct = Paper -> rests (it_type params) = true ->
  md_ticker (ct_exchange ct) (it_symbol params) = Some t -> ti_last t = Some last -> positive_number last ->
  exists ref, can_rest (pd_input plan) last (Some ref) /\
    (it_type params <> TrailingStopMarket -> ref = pd_referencePrice plan).
Proof.
  intros (t' & asked & P)%prepareOrder_inv M R Ht Hl Pl. destruct P.
  rewrite Ht in prep_ticker0. injection prep_ticker0 as <-. destruct prep_input0 as [-> _]. rewrite Hl in prep_trigger0.
  pose proof (check_intent_trailing _ _ prep_intent0) as Ct. pose proof (trigger_stops _ _ _ _ prep_intent0 prep_trigger0) as W.
  destruct (decide (it_type params = TrailingStopMarket)) as [T|NT].
  { destruct (Ct T) as [(p & E & F & L & U) S]. exists (trailingStopLevel side last p). split; [|done].
    apply trailing_can_rest; cbn; try done. by apply S. }
  destruct (takesPrice (it_type params)) eqn:TP.
  - destruct (check_intent_price _ _ prep_intent0 TP) as (p & E & Pp). exists p.
    pose proof (reference_of_price _ _ _ _ _ _ E prep_reference0) as [= ->]. split; [|done].
    destruct (decide (it_type params = Limit)) as [T|NL]; [apply limit_can_rest; cbn; try done; by rewrite TP|].
    destruct W as (stop & Es & Ps & W); [by destruct (it_type params)|].
    apply (trigger_can_rest _ _ stop); cbn; try done; [by destruct (it_type params)|].
    rewrite TP. by destruct (it_type params).
  - pose proof (check_intent_no_price _ _ prep_intent0 TP) as NP.
    destruct W as (stop & Es & Ps & W); [by destruct (it_type params)|]. exists stop.
    pose proof (reference_of_stop _ _ _ _ _ _ NP Es prep_reference0) as [= ->]. split; [|done].
    apply (trigger_can_rest _ _ stop); cbn; try done; by destruct (it_type params).
Qed.

(** An OCO plan is ordered around the price it was prepared at the way the paper client
    asks, with a positive amount and positive values. *)
Theorem planned_oco_is_ordered params ct plan :
  prepareOcoOrder toUpperCase toLowerCase params ct = Ok plan ->
  oco_prices_ordered (oco_side (px_input plan)) (oco_stopLossPrice (px_input plan)) (oco_takeProfitPrice (px_input plan))
    (px_referencePrice plan) = true /\
  positive_number (oco_amount (px_input plan)) /\ positive_number (px_referencePrice plan) /\
  positive_number (oco_stopLossPrice (px_input plan)) /\ positive_number (oco_takeProfitPrice (px_input plan)) /\
  positive_number (px_observedNotional plan) /\ positive_number (px_riskNotional plan).
Proof.
  unfold prepareOcoOrder. intros H. inv_ok. cbn. bool_hyps.
  repeat match goal with E : positive_opt _ = true |- _ => apply positive_opt_inv in E as (? & E & ?) end. simplify_eq.
  match goal with E : ti_last _ = Some ?x |- _ => rewrite E in *; cbn [default] in * end.
  split_and!; try done; try by apply positive_of.
  match goal with E : (if _ then Ok _ else _) = Ok _ |- _ => revert E end. destruct (isFuturesSymbol _ _); [by intros [= <-]|].
  destruct (md_market _ _); [|done]. by apply snap_positive.
Qed.

(** ** A preflight on fresh data *)

Section Fresh.
Variable d : PreflightDependencies.

(** The ticker a preflight asks for. *)
Definition fresh_ticker (plan : PreparedOrder) : option Ticker :=
  default (fun _ => None) (df_ticker d) (in_symbol (pd_input plan)).
Definition plan_futures (plan : PreparedOrder) : bool := isFuturesSymbol (in_symbol (pd_input plan)) (df_quoteCurrency d).

(** The amount of a reduction is covered by the position as it now is, up to rounding. *)
Definition still_covers (now : Position) (amount : number) : Prop :=
  (amount <=? Math_abs (po_amount now)) = true \/ futuresAmountsEqual (Math_abs (po_amount now)) amount = true.

(** The position that is reduced, as it now is: the only one of its symbol and side that the
    order still reduces, and as large as the order up to rounding, or exactly when it closes it. *)
Definition reduces_now (plan : PreparedOrder) (p now : Position) : Prop :=
  exists positions, df_positions d = Some positions /\ List.filter (same_position plan p) positions = [now] /\
    po_symbol now = po_symbol p /\ po_positionSide now = po_positionSide p /\ reduceSide now = pd_side plan /\
    still_covers now (pd_amount plan) /\
    (pd_closePosition plan <> None -> futuresAmountsEqual (Math_abs (po_amount now)) (pd_amount plan) = true).

(** The balance an order draws on: on futures the quote currency's, of the futures account when
    there are two, on spot the quote currency's for a purchase and the base asset's for a sale. *)
Definition funding_asset (plan : PreparedOrder) : string :=
  let symbol := in_symbol (pd_input plan) in
  if plan_futures plan
  then match df_marketType d with Both => String.append "futures:" (df_quoteCurrency d) | _ => df_quoteCurrency d end
  else match pd_side plan with Buy => df_quoteCurrency d | Sell => hd ""%string (split_on "/"%char symbol) end.

(** What it takes of it: on futures the margin at the leverage of the symbol and the fee when
    it is known, on spot the value of a purchase or the amount of a sale. *)
Definition takes (plan : PreparedOrder) (required : number) : Prop :=
  if plan_futures plan then
    let leverage := df_leverage d (in_symbol (pd_input plan)) in
    isFinite leverage = true /\ (leverage <? 1) = false /\
    match df_feeRate d with
    | Some fee => isFinite fee = true /\ (fee <? 0) = false /\ (1 <=? fee) = false /\
        required = pd_notional plan / leverage + pd_notional plan * fee
    | None => required = pd_notional plan / leverage
    end
  else required = match pd_side plan with Buy => pd_notional plan | Sell => pd_amount plan end.

(** What the exchange is given as the amount of the order, in contracts on futures. *)
Definition amount_on_exchange (plan : PreparedOrder) (m : MarketInfo) (amount : number) : Prop :=
  if plan_futures plan
  then exists size, mi_contractSize m = Some size /\ isFinite size = true /\ (size <=? 0) = false /\ amount = pd_amount plan / size
  else amount = pd_amount plan.

(** The price of the fresh ticker that the plan's reference follows. *)
Definition followed_price (plan : PreparedOrder) (t : Ticker) : option number :=
  match pd_referencePriceSource plan with
  | AskPrice => ti_ask t | BidPrice => ti_bid t | LastPrice => ti_last t | LimitPrice | StopPrice => None
  end.
Definition follows_market (plan : PreparedOrder) : bool :=
  match pd_referencePriceSource plan with AskPrice | BidPrice | LastPrice => true | LimitPrice | StopPrice => false end.

(** What a passed preflight has established, on the data it asked for. *)
Record FreshlyChecked (plan : PreparedOrder) (m : MarketInfo) (evidence : OrderConfirmationEvidence) : Prop := {
  fc_market : df_market d (in_symbol (pd_input plan)) = Some m /\ mi_active m <> Some false;
  fc_matches : marketMatches m (in_symbol (pd_input plan)) (quote_of (in_symbol (pd_input plan))) (plan_futures plan) = true;
  fc_capability : c_status (oc_capability (plan_capability toUpperCase toLowerCase plan m)) <> Unsupported;
  fc_limits : oc_omitExchangeQuantity (plan_capability toUpperCase toLowerCase plan m) = false ->
    (exists amount, amount_on_exchange plan m amount /\
       below amount (minAmount m) = false /\ above amount (limits_max ml_amount m) = false) /\
    below (pd_notional plan) (mi_minNotional m) = false /\ above (pd_notional plan) (limits_max ml_cost m) = false;
  fc_trigger : isStopType (in_type (pd_input plan)) = true ->
    exists t last stop, fresh_ticker plan = Some t /\ ti_symbol t = in_symbol (pd_input plan) /\
      ti_last t = Some last /\ positive_number last /\ in_stopPrice (pd_input plan) = Some stop /\
      trigger_waits (pd_side plan) (in_type (pd_input plan)) last stop = true;
  fc_activation : in_type (pd_input plan) = TrailingStopMarket -> forall stop, in_stopPrice (pd_input plan) = Some stop ->
    exists t last, fresh_ticker plan = Some t /\ ti_symbol t = in_symbol (pd_input plan) /\ ti_last t = Some last /\
      positive_number last /\ match pd_side plan with Sell => (last <? stop) = true | Buy => (stop <? last) = true end;
  fc_price : if follows_market plan
             then exists t, fresh_ticker plan = Some t /\ followed_price plan t = Some (ev_referencePrice evidence) /\
                    positive_number (ev_referencePrice evidence)
             else ev_referencePrice evidence = pd_referencePrice plan;
  fc_reducing : forall p, pd_reducingPosition plan = Some p -> exists now, reduces_now plan p now;
  fc_funds : pd_reducingPosition plan = None ->
    exists balances b required, df_balances d = Some balances /\
      find (fun b => String.eqb (ba_asset b) (funding_asset plan)) balances = Some b /\ takes plan required /\
      isFinite (ba_free b) = true /\ (EPSILON * Math_max 1 (Math_max required (Math_abs (ba_free b))) * 8 <? required - ba_free b) = false;
  fc_amount : ev_amount evidence = pd_amount plan;
  fc_notional : match pd_reducingPosition plan, pd_closePosition plan with
    | Some p, Some _ =>
        exists now, reduces_now plan p now /\
          ev_notional evidence =
            match po_quoteValue now with
            | Some v => if isFinite v && (0 <? v) then v else Math_abs (po_amount now) * pd_referencePrice plan
            | None => Math_abs (po_amount now) * pd_referencePrice plan
            end
    | _, _ => ev_notional evidence =
        if follows_market plan then pd_amount plan * ev_referencePrice evidence else pd_notional plan
    end;
  fc_risk : ev_riskNotional evidence = ev_notional evidence
}.

Lemma finitePrice_inv o x : finitePrice o = Ok x -> o = Some x /\ positive_number x.
Proof.
  destruct o as [y|]; [|done]. cbn. destruct (_ || _) eqn:E; [done|]. intros [= <-]. split; [done|]. by apply guard_positive.
Qed.

Lemma loadTicker_inv symbol get t : loadTicker symbol get = Ok t -> get symbol = Some t /\ ti_symbol t = symbol.
Proof. unfold loadTicker. destruct (get symbol) as [u|]; [|done]. intros H. inv_ok. bool_hyps. split; [done|]. by apply String.eqb_eq. Qed.

Lemma trigger_checked plan t :
  validateTrigger plan t = Ok tt -> isStopType (in_type (pd_input plan)) = true ->
  exists last stop, ti_last t = Some last /\ positive_number last /\ in_stopPrice (pd_input plan) = Some stop /\
    trigger_waits (pd_side plan) (in_type (pd_input plan)) last stop = true.
Proof.
  unfold validateTrigger, triggerOrder. intros H S. rewrite S in H. cbn [orb negb] in H. inv_ok.
  match goal with E : finitePrice _ = Ok _ |- _ => apply finitePrice_inv in E as [E P] end.
  destruct (in_stopPrice _) as [stop|]; [|done]. exists r, stop. split_and!; try done. revert H.
  destruct (bool_decide (in_type (pd_input plan) = TrailingStopMarket)) eqn:T.
  - apply bool_decide_eq_true in T. by rewrite T in S.
  - intros H. inv_ok. by bool_hyps.
Qed.

Lemma activation_checked plan x :
  revalidateOrderPrice plan (default (fun _ => None) (df_ticker d)) = Ok x ->
  in_type (pd_input plan) = TrailingStopMarket -> forall stop, in_stopPrice (pd_input plan) = Some stop ->
  exists t last, fresh_ticker plan = Some t /\ ti_symbol t = in_symbol (pd_input plan) /\ ti_last t = Some last /\
    positive_number last /\ match pd_side plan with Sell => (last <? stop) = true | Buy => (stop <? last) = true end.
Proof.
  intros H T stop S. assert (O : triggerOrder plan = true) by (unfold triggerOrder; by rewrite T, S).
  unfold revalidateOrderPrice in H. rewrite O, andb_false_r in H. inv_ok.
  match goal with E : loadTicker _ _ = Ok _ |- _ => apply loadTicker_inv in E as [Ft Es] end.
  match goal with E : validateTrigger _ _ = Ok _ |- _ => unfold validateTrigger in E; rewrite O, T, S in E; cbn [negb] in E; inv_ok end.
  match goal with E : finitePrice _ = Ok _ |- _ => apply finitePrice_inv in E as [El P] end.
  eexists _, _. split_and!; [exact Ft|done|exact El|done|]. rewrite bool_decide_true in * by done. inv_ok. bool_hyps. by destruct (pd_side plan).
Qed.

Lemma price_checked plan x :
  revalidateOrderPrice plan (default (fun _ => None) (df_ticker d)) = Ok x ->
  (isStopType (in_type (pd_input plan)) = true ->
   exists t last stop, fresh_ticker plan = Some t /\ ti_symbol t = in_symbol (pd_input plan) /\
     ti_last t = Some last /\ positive_number last /\ in_stopPrice (pd_input plan) = Some stop /\
     trigger_waits (pd_side plan) (in_type (pd_input plan)) last stop = true) /\
  (if dynamicReference plan
   then exists t, fresh_ticker plan = Some t /\ currentReferencePrice plan t = Some x /\ positive_number x
   else x = pd_referencePrice plan).
Proof.
  unfold revalidateOrderPrice. destruct (negb (dynamicReference plan) && negb (triggerOrder plan)) eqn:G.
  - bool_hyps. intros [= <-]. split; [|by match goal with E : dynamicReference _ = false |- _ => rewrite E end].
    intros S. unfold triggerOrder in *. by rewrite S in *.
  - intros H. inv_ok. match goal with E : loadTicker _ _ = Ok _ |- _ => apply loadTicker_inv in E as [Ft Es] end. split.
    + intros S. destruct (trigger_checked _ _ ltac:(eassumption) S) as (last & stop & ?). by exists r, last, stop.
    + destruct (dynamicReference plan); cbn [negb] in H; [|by inv_ok].
      apply finitePrice_inv in H as [E P]. by exists r.
Qed.

Lemma dynamic_follows plan : dynamicReference plan = follows_market plan.
Proof. unfold dynamicReference, follows_market. by destruct (pd_referencePriceSource plan). Qed.

Lemma reducing_checked plan p r :
  pd_reducingPosition plan = Some p -> isFinite (pd_amount plan) = true ->
  revalidateReducingPosition plan (df_positions d) = Ok r ->
  exists now, reduces_now plan p now /\
    r = match pd_closePosition plan with
        | Some _ => Some (match po_quoteValue now with
                          | Some v => if isFinite v && (0 <? v) then v else Math_abs (po_amount now) * pd_referencePrice plan
                          | None => Math_abs (po_amount now) * pd_referencePrice plan
                          end)
        | None => None
        end.
Proof.
  unfold revalidateReducingPosition, reduces_now. intros -> F H. destruct (df_positions d) as [positions|]; [|done].
  destruct (List.filter _ positions) as [|now [|]] eqn:Fl; try done. inv_ok. exists now.
  assert (S : same_position plan p now = true) by (apply (proj1 (filter_In _ _ positions)); rewrite Fl; by left).
  unfold same_position in S. bool_hyps. split; [exists positions; split_and!; try done|].
  - by apply String.eqb_eq.
  - by eapply bool_decide_eq_true.
  - by eapply bool_decide_eq_true.
  - unfold still_covers. destruct (futuresAmountsEqual _ _); [by right|left]. rewrite andb_true_r in *.
    apply ltb_false_leb; [| |done]; [|by apply isFinite_notNaN].
    match goal with E : (0 <? _) = true |- _ => by apply ltb_notNaN in E as [_ ?] end.
  - intros C. destruct (pd_closePosition plan); [|done]. cbn in H. inv_ok. by bool_hyps.
  - destruct (pd_closePosition plan); cbn in H; by inv_ok.
Qed.

Lemma funds_checked plan balances :
  pd_reducingPosition plan = None ->
  checkBalance plan balances (df_quoteCurrency d) (plan_futures plan) (df_marketType d) (df_leverage d) (df_feeRate d) = Ok tt ->
  exists b required, find (fun b => String.eqb (ba_asset b) (funding_asset plan)) balances = Some b /\ takes plan required /\
    isFinite (ba_free b) = true /\ (EPSILON * Math_max 1 (Math_max required (Math_abs (ba_free b))) * 8 <? required - ba_free b) = false.
Proof.
  intros R H. unfold checkBalance in H.
  assert (A : requiredBalance plan (df_quoteCurrency d) (plan_futures plan) (df_marketType d) = Some (funding_asset plan)).
  { unfold requiredBalance, funding_asset. rewrite R. by destruct (plan_futures plan), (df_marketType d), (pd_side plan). }
  rewrite A in H. unfold find_balance in H. destruct (find _ balances) as [b|] eqn:B; [|done]. inv_ok. bool_hyps.
  match goal with E : required_amount _ _ _ _ = Ok ?x |- _ => exists b, x; rename E into Q end. split_and!; try done.
  unfold required_amount, takes in *. destruct (plan_futures plan); [|by inv_ok; destruct (pd_side plan)].
  inv_ok. bool_hyps. destruct (df_feeRate d); inv_ok; bool_hyps; by split_and!.
Qed.

Lemma amount_checked plan m amount :
  exchangeAmount pow plan m (plan_futures plan) = Ok amount -> amount_on_exchange plan m (fst amount).
Proof.
  unfold exchangeAmount, amount_on_exchange. destruct (plan_futures plan); cbn [negb]; intros H; [|by inv_ok].
  destruct (mi_contractSize m) as [size|]; [|done]. inv_ok. bool_hyps. exists size. by split_and!.
Qed.

Lemma no_violation c text : violation c text = [] -> c = false.
Proof. by destruct c. Qed.

(** The limits of the market are kept when none is found violated. *)
Lemma limits_checked plan m :
  oc_omitExchangeQuantity (plan_capability toUpperCase toLowerCase plan m) = false ->
  checkMarketLimits toUpperCase toLowerCase pow plan m (plan_futures plan) = Ok tt ->
  (exists amount, amount_on_exchange plan m amount /\
     below amount (minAmount m) = false /\ above amount (limits_max ml_amount m) = false) /\
  below (pd_notional plan) (mi_minNotional m) = false /\ above (pd_notional plan) (limits_max ml_cost m) = false.
Proof.
  unfold checkMarketLimits. intros O H. rewrite O in H. inv_ok.
  match goal with E : exchangeAmount _ _ _ _ = Ok ?x |- _ => destruct x as [amount unit]; apply amount_checked in E; rename E into A end.
  destruct (marketLimitViolations m _ _) eqn:V; [|done]. unfold marketLimitViolations in V. cbn [concat] in V.
  repeat match goal with E : app _ _ = [] |- _ => apply app_eq_nil in E as [?%no_violation E] end.
  split; [by exists amount|by split].
Qed.

(** C30: An order that passes its preflight is checked on the fresh data: its market is active,
    the one asked for and able to take the order, its exchange amount and value are within the
    market's limits unless the order carries no amount, its trigger or activation price waits
    at the fresh last price, and either the one position it reduces still covers it or the free balance of the
    asset that funds it - the base asset of a spot sale, the quote currency otherwise - holds
    the amount, value or margin and fee it takes. The evidence quotes the order's amount, the
    fresh price its reference follows and the value at that price, or the position it closes. *)
Theorem preflight_is_sound plan res :
  preflightOrder toUpperCase toLowerCase pow plan d = Ok res -> isFinite (pd_amount plan) = true ->
  exists m, FreshlyChecked plan m (pr_evidence res).
Proof.
  unfold preflightOrder. intros H F. inv_ok. cbn [pr_evidence].
  match goal with E : match df_market d _ with _ => _ end = Ok ?m |- _ => exists m; destruct (df_market d _) eqn:Hm; [|done]; injection E as -> end.
  match goal with E : revalidateOrderPrice _ _ = Ok _ |- _ => pose proof (activation_checked _ _ E) as A; apply price_checked in E as [T P] end. rewrite dynamic_follows in *.
  match goal with E : checkMarketLimits _ _ _ _ _ _ = Ok _ |- _ => pose proof (fun O => limits_checked _ _ O E) as L; unfold checkMarketLimits in E; inv_ok end.
  match goal with E : revalidateReducingPosition _ _ = Ok _ |- _ => rename E into Q end.
  bool_hyps. constructor; cbn [confirmationEvidence ev_amount ev_notional ev_riskNotional ev_referencePrice]; try done.
  - split; [done|]. match goal with E : bool_decide (mi_active _ = _) = false |- _ => by apply bool_decide_eq_false in E end.
  - match goal with E : bool_decide (_ = Unsupported) = false |- _ => by apply bool_decide_eq_false in E end.
  - intros p Hp. destruct (reducing_checked _ _ _ Hp F Q) as (now & Hn & _). by exists now.
  - intros Hp. destruct (df_balances d) as [balances|]; [|done]. inv_ok.
    match goal with E : checkBalance _ ?l _ _ _ _ _ = Ok _ |- _ => destruct (funds_checked plan l Hp E) as (b & required & ?); by exists l, b, required end.
  - destruct (pd_reducingPosition plan) as [p|] eqn:Hp.
    + destruct (reducing_checked _ _ _ Hp F Q) as (now & Hn & ->). destruct (pd_closePosition plan); [|done]. by exists now.
    + unfold revalidateReducingPosition in Q. rewrite Hp in Q. by injection Q as <-.
Qed.
End Fresh.

(** ** From confirmation to submission *)

(** [b] is within a hundredth of [a], or within [slack]. *)
Definition near (a b slack : number) : Prop := (Math_abs (b - a) <=? Math_max (a * MAX_CONFIRMED_PRICE_DRIFT_RATIO) slack) = true.
Definition near_value (a b : number) : Prop := (Math_abs (b - a) <=? a * MAX_CONFIRMED_PRICE_DRIFT_RATIO) = true.

Definition finite_evidence (e : OrderConfirmationEvidence) : Prop :=
  isFinite (ev_referencePrice e) = true /\ isFinite (ev_notional e) = true /\ isFinite (ev_riskNotional e) = true.
Definition number_evidence (e : OrderConfirmationEvidence) : Prop :=
  notNaN (ev_referencePrice e) /\ notNaN (ev_notional e) /\ notNaN (ev_riskNotional e) /\ notNaN (ev_priceStep e).

Lemma unchanged_is_near previous next :
  finite_evidence previous -> number_evidence next -> marketEvidenceChanged previous next = false ->
  near (ev_referencePrice previous) (ev_referencePrice next) (ev_priceStep next) /\
  near_value (ev_notional previous) (ev_notional next) /\ near_value (ev_riskNotional previous) (ev_riskNotional next) /\
  futuresAmountsEqual (ev_amount previous) (ev_amount next) = true.
Proof.
  intros (Fp & Fn & Fr) (Np & Nn & Nr & Ns). unfold marketEvidenceChanged, materiallyChangedPrice, materiallyChangedNotional. intros H.
  bool_hyps. unfold near, near_value. split_and!; try done; (apply ltb_false_leb; [|apply abs_notNaN, sub_finite_r|]; auto using mul_notNaN, Math_max_notNaN).
Qed.

Lemma opp_isFinite x : isFinite (- x) = isFinite x.
Proof.
  unfold isFinite, Math_abs. rewrite !FloatAxioms.ltb_spec, !abs_spec, opp_spec. by destruct (Prim2SF x) as [|[]| |[] ? ?].
Qed.

Lemma priceStep_number (pow_is_number : forall x, isFinite x = true -> notNaN (pow 10 x)) m : notNaN (priceStep pow m).
Proof.
  unfold priceStep. destruct (mi_pricePrecision m) as [p|]; [|apply finite_zero]. destruct (_ || _) eqn:E; [apply finite_zero|].
  bool_hyps. destruct (isInteger p); [apply pow_is_number; by rewrite opp_isFinite|by apply isFinite_notNaN].
Qed.

(** A close-all order is valued at the position as it now is. *)
Lemma closing_number plan positions closing :
  revalidateReducingPosition plan positions = Ok closing -> positive_number (pd_referencePrice plan) ->
  (forall n, closing = Some n -> notNaN n) /\ (pd_closePosition plan = None -> closing = None).
Proof.
  unfold revalidateReducingPosition. intros H [Fr _]. destruct (pd_reducingPosition plan) as [p|]; [|by inv_ok].
  destruct positions as [positions|]; [|done]. destruct (List.filter _ positions) as [|now [|]]; try done. inv_ok.
  destruct (pd_closePosition plan); cbn in H; inv_ok; [|done]. split; [|done]. intros n [= <-].
  assert (F : isFinite (Math_abs (po_amount now)) = true).
  { bool_hyps. match goal with E : futuresAmountsEqual _ _ = true |- _ => unfold futuresAmountsEqual in E; bool_hyps; done end. }
  destruct (po_quoteValue now) as [v|]; [|by apply mul_notNaN].
  destruct ((abs v <? infinity) && (0 <? v)) eqn:V; [|by apply mul_notNaN]. bool_hyps. by apply isFinite_notNaN.
Qed.

(** The evidence of a passed preflight. *)
Lemma preflight_numbers (pow_is_number : forall x, isFinite x = true -> notNaN (pow 10 x)) plan d res :
  preflightOrder toUpperCase toLowerCase pow plan d = Ok res ->
  positive_number (pd_amount plan) -> positive_number (pd_referencePrice plan) -> positive_number (pd_notional plan) ->
  number_evidence (pr_evidence res) /\ isFinite (ev_referencePrice (pr_evidence res)) = true /\
  ev_amount (pr_evidence res) = pd_amount plan /\ ev_riskNotional (pr_evidence res) = ev_notional (pr_evidence res) /\
  (dynamicReference plan = false -> pd_closePosition plan = None ->
   ev_referencePrice (pr_evidence res) = pd_referencePrice plan /\ ev_notional (pr_evidence res) = pd_notional plan).
Proof.
  unfold preflightOrder. intros H Pa Pp Pn. inv_ok.
  match goal with E : revalidateOrderPrice _ _ = Ok ?x |- _ => rename x into price; apply price_checked in E as [_ P] end.
  match goal with E : revalidateReducingPosition _ _ = Ok ?x |- _ => rename x into closing; rename E into R end.
  assert (Fp : isFinite price = true).
  { destruct (dynamicReference plan); [destruct P as (t & _ & _ & ?)|subst price]; [by destruct H|by destruct Pp]. }
  pose proof (closing_number _ _ _ R Pp) as [Cn Cs].
  cbn [pr_evidence ev_referencePrice ev_amount ev_notional ev_riskNotional confirmationEvidence].
  assert (Nn : notNaN (match closing with Some n => n | None => if dynamicReference plan then pd_amount plan * price else pd_notional plan end)).
  { destruct closing as [n|]; [by apply Cn|]. destruct (dynamicReference plan); [apply mul_notNaN; [apply Pa|done]|apply isFinite_notNaN, Pn]. }
  split_and!; try done.
  - unfold number_evidence. cbn. split_and!; try done; [by apply isFinite_notNaN|by apply priceStep_number].
  - intros D C. rewrite D in *. rewrite (Cs C). by subst price.
Qed.

(** C31: A plan confirmed on one preflight and accepted on a later one is submitted for the
    confirmed amount, at a price within a hundredth or a price step of the confirmed one and
    for a value within a hundredth of it; an order with a price of its own is submitted at
    exactly that price and value, unless it closes a position. *)
Theorem confirmed_plan_stays_near (pow_is_number : forall x, isFinite x = true -> notNaN (pow 10 x)) side params ct plan d d' confirmed fresh :
  prepareOrder toUpperCase toLowerCase pow side params ct = Ok plan ->
  preflightOrder toUpperCase toLowerCase pow plan d = Ok confirmed ->
  preflightOrder toUpperCase toLowerCase pow plan d' = Ok fresh ->
  isFinite (ev_notional (pr_evidence confirmed)) = true ->
  confirmationSnapshotChanged (pr_warnings confirmed) (pr_evidence confirmed) fresh = false ->
  pr_warnings fresh = pr_warnings confirmed /\ ev_amount (pr_evidence fresh) = pd_amount plan /\
  near (ev_referencePrice (pr_evidence confirmed)) (ev_referencePrice (pr_evidence fresh)) (ev_priceStep (pr_evidence fresh)) /\
  near_value (ev_notional (pr_evidence confirmed)) (ev_notional (pr_evidence fresh)) /\
  (dynamicReference plan = false -> pd_closePosition plan = None ->
   ev_referencePrice (pr_evidence fresh) = pd_referencePrice plan /\ ev_notional (pr_evidence fresh) = pd_notional plan).
Proof.
  intros (t & asked & P)%prepareOrder_inv C F Fn H. pose proof (prep_amount _ _ _ _ _ _ P) as Pa. destruct P.
  destruct (preflight_numbers pow_is_number _ _ _ C Pa prep_price0 prep_notional0) as (_ & Fp & _ & Er & _).
  destruct (preflight_numbers pow_is_number _ _ _ F Pa prep_price0 prep_notional0) as (Nf & _ & Ea & _ & Ex).
  unfold confirmationSnapshotChanged in H. bool_hyps. match goal with E : bool_decide _ = true |- _ => apply bool_decide_eq_true in E end.
  destruct (unchanged_is_near (pr_evidence confirmed) (pr_evidence fresh)) as (? & ? & _); [|done..|done].
  unfold finite_evidence. by rewrite Er.
Qed.
End Plans.

(** ** Runs *)

Definition same_text (s : string) : string := s.
Definition a_pow (_ _ : number) : number := 0.01.

Lemma a_pow_number x : isFinite x = true -> notNaN (a_pow 10 x).
Proof. intros _. by apply isFinite_notNaN. Qed.

Definition btc : MarketInfo :=
  {| mi_symbol := "BTC/USDT"; mi_base := "BTC"; mi_quote := "USDT"; mi_settle := None; mi_marketType := SpotMarket; mi_contract := false;
     mi_contractType := None; mi_pair := None; mi_marginAsset := None; mi_status := None; mi_onboardDate := None; mi_deliveryDate := None;
     mi_orderTypes := None; mi_timeInForce := None; mi_linear := None; mi_inverse := None; mi_active := Some true; mi_amountUnit := None;
     mi_contractSize := None; mi_pricePrecision := Some 2; mi_amountPrecision := None; mi_amountStep := Some 0.001;
     mi_minAmount := Some 0.001; mi_minNotional := Some 5; mi_limits := None |}.
Definition ticker_at (symbol : string) (last : number) : Ticker :=
  {| ti_symbol := symbol; ti_last := Some last; ti_bid := Some (last - 1); ti_ask := Some (last + 1); ti_high24h := None;
     ti_low24h := None; ti_changePct24h := None; ti_volume24h := None; ti_quoteVolume24h := None; ti_timestamp := 1000;
     ti_sourceTimestampKnown := None |}.
Definition long_btc : Position :=
  {| po_symbol := "BTC/USDT:USDT"; po_asset := "BTC"; po_amount := 2; po_quoteValue := Some 1600; po_valuationStatus := None;
     po_valuationReason := None; po_positionSide := Some LongSide; po_leverage := None; po_marginType := None; po_markPrice := None;
     po_liquidationPrice := None; po_margin := None; po_avgEntryPrice := None; po_unrealizedPnl := None; po_unrealizedPnlPct := None;
     po_costBasisStatus := None; po_costBasisReason := None |}.
Definition planning : OrderPlanningContext :=
  {| ct_config := {| pl_marketType := Both; pl_quoteCurrency := "USDT"; pl_positionMode := OneWay |}; ct_mode := Paper;
     ct_exchange := {| md_id := "paper"; md_ticker := fun symbol => Some (ticker_at symbol 800); md_market := fun _ => Some btc;
                       md_positions := Some [long_btc] |} |}.
Definition intent_of (symbol : string) (type : OrderType) (amount stop : option number) (closing : option bool) : OrderIntent :=
  {| it_symbol := symbol; it_type := type; it_amount := amount; it_quoteAmount := None; it_price := None; it_reduceOnly := None;
     it_positionSide := None; it_stopPrice := stop; it_trailingPercent := None; it_closePosition := closing |}.
Definition stop_loss : OrderIntent := intent_of "BTC/USDT" StopMarket (Some 0.5) (Some 700) None.
Definition close_all : OrderIntent := intent_of "BTC/USDT:USDT" Market None None (Some true).
Definition market_buying : OrderIntent := intent_of "BTC/USDT" Market (Some 0.5) None None.

Definition no_plan : PreparedOrder :=
  {| pd_input := planned_input Buy close_all 0; pd_capabilityContext := capability_context planning false; pd_side := Buy; pd_amount := 0;
     pd_notional := 0; pd_referencePrice := 0; pd_referencePriceSource := LastPrice; pd_referenceTimestamp := 0;
     pd_countTowardsDailyLimit := true; pd_closePosition := None; pd_reducingPosition := None; pd_reduceOnlyRequested := false;
     pd_reduceOnlyApplied := false; pd_exchangeConstraint := None; pd_summary := "" |}.
Definition plan_of (side : OrderSide) (params : OrderIntent) : PreparedOrder :=
  match prepareOrder same_text same_text a_pow side params planning with Ok plan => plan | Throw _ => no_plan end.

Lemma close_all_planned : prepareOrder same_text same_text a_pow Sell close_all planning = Ok (plan_of Sell close_all).
Proof. vm_compute. reflexivity. Qed.
Lemma stop_loss_planned : prepareOrder same_text same_text a_pow Sell stop_loss planning = Ok (plan_of Sell stop_loss).
Proof. vm_compute. reflexivity. Qed.
Lemma market_buying_planned : prepareOrder same_text same_text a_pow Buy market_buying planning = Ok (plan_of Buy market_buying).
Proof. vm_compute. reflexivity. Qed.

Lemma plan_is_sound_witness : pd_amount (plan_of Sell close_all) = 2 /\ SoundPlan same_text same_text Sell close_all planning (plan_of Sell close_all).
Proof. split; [vm_compute; reflexivity|]. apply (plan_is_sound same_text same_text a_pow). apply close_all_planned. Defined.

Lemma planned_order_can_rest_witness : exists ref, can_rest (pd_input (plan_of Sell stop_loss)) 800 (Some ref) /\ ref = 700.
Proof.
  destruct (planned_order_can_rest same_text same_text a_pow Sell stop_loss planning _ (ticker_at "BTC/USDT" 800) 800 stop_loss_planned)
    as (ref & R & E); try reflexivity; [by split|]. exists ref. split; [exact R|]. rewrite E by done. vm_compute. reflexivity.
Defined.

Definition protection_pair : OcoIntent :=
  {| oi_symbol := "BTC/USDT"; oi_side := Sell; oi_amount := 0.5; oi_stopLossPrice := 700; oi_takeProfitPrice := 900 |}.
Definition no_pair : PreparedOco :=
  {| px_input := oco_input protection_pair 0; px_capabilityContext := capability_context planning false; px_observedNotional := 0;
     px_riskNotional := 0; px_notional := 0; px_referencePrice := 0; px_referenceTimestamp := 0; px_countTowardsDailyLimit := true;
     px_summary := "" |}.
Definition pair_plan : PreparedOco :=
  match prepareOcoOrder same_text same_text protection_pair planning with Ok plan => plan | Throw _ => no_pair end.
Lemma pair_planned : prepareOcoOrder same_text same_text protection_pair planning = Ok pair_plan.
Proof. vm_compute. reflexivity. Qed.

Lemma planned_oco_is_ordered_witness : px_referencePrice pair_plan = 800 /\ positive_number (oco_amount (px_input pair_plan)).
Proof.
  split; [vm_compute; reflexivity|]. apply (planned_oco_is_ordered same_text same_text protection_pair planning pair_plan pair_planned).
Defined.

Definition funds (free : number) : Balance := {| ba_asset := "USDT"; ba_free := free; ba_used := 0; ba_total := free; ba_quoteValue := None |}.
Definition market_at (last : number) : PreflightDependencies :=
  {| df_market := fun _ => Some btc; df_balances := Some [funds 1000]; df_ticker := Some (fun symbol => Some (ticker_at symbol last));
     df_positions := Some []; df_quoteCurrency := "USDT"; df_marketType := Both; df_leverage := fun _ => 1; df_feeRate := None |}.
Definition checked_at (last : number) : result PreflightError OrderPreflightResult :=
  preflightOrder same_text same_text a_pow (plan_of Buy market_buying) (market_at last).
Definition no_result : OrderPreflightResult :=
  {| pr_warnings := []; pr_evidence := {| ev_referencePrice := 0; ev_amount := 0; ev_notional := 0; ev_riskNotional := 0; ev_priceStep := 0 |} |}.
Definition result_at (last : number) : OrderPreflightResult := match checked_at last with Ok r => r | Throw _ => no_result end.

Lemma preflight_is_sound_witness :
  exists m, FreshlyChecked same_text same_text (market_at 800) (plan_of Buy market_buying) m (pr_evidence (result_at 800)).
Proof. apply (preflight_is_sound same_text same_text a_pow); vm_compute; reflexivity. Defined.

(** A fresh price of 805 is accepted, one of 820 is not. *)
Lemma confirmed_plan_stays_near_witness :
  near_value (ev_notional (pr_evidence (result_at 800))) (ev_notional (pr_evidence (result_at 805))) /\
  confirmationSnapshotChanged (pr_warnings (result_at 800)) (pr_evidence (result_at 800)) (result_at 820) = true.
Proof.
  split; [|vm_compute; reflexivity].
  apply (confirmed_plan_stays_near same_text same_text a_pow a_pow_number Buy market_buying planning _ (market_at 800) (market_at 805)
           (result_at 800) (result_at 805) market_buying_planned); vm_compute; reflexivity.
Defined.
