(* ===== verification/AccountFacts.v ===== *)
(** * Account facts (packages/trading-engine/src/account-risk.ts, the functions)

    The exposures, protection and liquidation distances of an account, computed from the
    complete snapshot of its client, as the rules of AccountRisk assess them. *)

From Stdlib Require Import ZArith Lia Bool Ascii Floats.
From stdpp Require Import base strings option list.
From S2P Require Import Prelude JsNumber JsObject JsValue JsText AccountRisk RiskState Execution ExecutionJournal.
From S2P Require Import Capabilities ExecutionRecovery PaperFutures Positions.
Import AccountRisk.

Local Open Scope float_scope.

(** ** Snapshots (types.ts) *)

Record PriceObservation := { pob_price : number; pob_timestamp : number }.

Record AccountSnapshot := {
  sn_source : string;
  sn_epoch : string;
  sn_observedAt : number;
  sn_oldestPriceAt : number;
  sn_equity : number;
  sn_netExternalFlows : number;
  sn_marginUsed : number;
  sn_positions : list Position;
  sn_orders : list Order;
  sn_prices : obj PriceObservation;
  sn_limitations : list string
}.

Definition with_orders (orders : list Order) (s : AccountSnapshot) : AccountSnapshot :=
  {| sn_source := sn_source s; sn_epoch := sn_epoch s; sn_observedAt := sn_observedAt s; sn_oldestPriceAt := sn_oldestPriceAt s;
     sn_equity := sn_equity s; sn_netExternalFlows := sn_netExternalFlows s; sn_marginUsed := sn_marginUsed s;
     sn_positions := sn_positions s; sn_orders := orders; sn_prices := sn_prices s; sn_limitations := sn_limitations s |}.

(** [snapshot.prices[symbol]?.price] *)
Definition mark_of (s : AccountSnapshot) (symbol : string) : option number := option_map pob_price (o_get symbol (sn_prices s)).
(** A usable mark. *)
Definition usable_mark (s : AccountSnapshot) (symbol : string) : option number :=
  match mark_of s symbol with Some x => if isFinite x && negb (x <=? 0) then Some x else None | None => None end.

Definition is_futures (symbol : string) : bool := includes_char ":"%char symbol.
(** [symbol.split("/")[0]] *)
Definition first_asset (symbol : string) : string := hd "" (split_on "/"%char symbol).

(** ** Reducing orders *)

(** [Pick<Order, "symbol" | "side" | "reduceOnly" | "closePosition" | "positionSide">], of an
    order or of an input. *)
Record Reduction := {
  rd_symbol : string;
  rd_side : OrderSide;
  rd_reduceOnly : option bool;
  rd_closePosition : option bool;
  rd_positionSide : option PositionSide
}.
Definition order_reduction (o : Order) : Reduction :=
  {| rd_symbol := o_symbol o; rd_side := o_side o; rd_reduceOnly := o_reduceOnly o; rd_closePosition := o_closePosition o;
     rd_positionSide := o_positionSide o |}.
Definition input_reduction (i : PlaceOrderInput) : Reduction :=
  {| rd_symbol := in_symbol i; rd_side := in_side i; rd_reduceOnly := in_reduceOnly i; rd_closePosition := in_closePosition i;
     rd_positionSide := in_positionSide i |}.

Definition verifiedReducingOrder (r : Reduction) (p : Position) (mode : PositionMode) : bool :=
  let hedge := bool_decide (mode = Hedge) in
  String.eqb (rd_symbol r) (po_symbol p) && bool_decide (rd_side r = reduceSide p)
  && (negb (is_futures (rd_symbol r))
      || ((bool_decide (rd_reduceOnly r = Some true) || bool_decide (rd_closePosition r = Some true) || hedge)
          && (negb hedge || bool_decide (rd_positionSide r = po_positionSide p)))).

Definition isProtectiveExit (o : Order) (p : Position) (mode : PositionMode) : bool :=
  verifiedReducingOrder (order_reduction o) p mode && hasStopComponent o.

Definition protectiveStopDistancePct (o : Order) (mark : number) (reduce : OrderSide) : option number :=
  let trailing :=
    if bool_decide (o_type o = Some TrailingStopMarket) then
      match o_trailingPercent o with Some p => if isFinite p && (0 <? p) then Some p else None | None => None end
    else None in
  match o_stopPrice o with
  | Some stop =>
      if isFinite stop && (0 <? stop) then
        if match reduce with Sell => mark <=? stop | Buy => stop <=? mark end then None
        else Some (Math_abs (stop / mark - 1) * 100)
      else trailing
  | None => trailing
  end.

Definition exposureIdentity (ex : RiskExposure) : string :=
  String.concat ":" [ex_symbol ex; if ex_pending ex then "pending" else "open"; numberToString (Math_sign (ex_notional ex))]%string.

(** ** Facts *)

(** [order.ocoGroup ?? order.id] *)
Definition group_of_order (o : Order) : string := default (o_id o) (o_ocoGroup o).

(** The first order of each group. *)
Fixpoint one_per_group (seen : list string) (orders : list Order) : list Order :=
  match orders with
  | [] => []
  | o :: rest => if str_in seen (group_of_order o) then one_per_group seen rest
                 else o :: one_per_group (group_of_order o :: seen) rest
  end.

Definition protecting (s : AccountSnapshot) (mode : PositionMode) (p : Position) (mark : number) (o : Order) : bool :=
  bool_decide (o_status o = OpenOrder) && hasStopComponent o && verifiedReducingOrder (order_reduction o) p mode
  && match protectiveStopDistancePct o mark (reduceSide p) with Some _ => true | None => false end.

Record Cover := { cv_amount : number; cv_distance : option number }.

Definition cover_with (amount mark : number) (reduce : OrderSide) (c : Cover) (o : Order) : Cover :=
  {| cv_amount := cv_amount c + (if truthy (o_closePosition o) then amount else Math_max 0 (o_remaining o));
     cv_distance := Some (Math_max (default 0 (cv_distance c)) (default 0 (protectiveStopDistancePct o mark reduce))) |}.

Definition position_cover (s : AccountSnapshot) (mode : PositionMode) (p : Position) (mark : number) : Cover :=
  fold_left (cover_with (Math_abs (po_amount p)) mark (reduceSide p))
    (one_per_group [] (List.filter (protecting s mode p mark) (sn_orders s))) {| cv_amount := 0; cv_distance := None |}.

Definition position_exposure (s : AccountSnapshot) (mode : PositionMode) (p : Position) : result GuardError RiskExposure :=
  match usable_mark s (po_symbol p) with
  | None => Throw (PositionMarkUnavailable (po_symbol p))
  | Some mark =>
      _ ← throwIf (negb (isFinite (po_amount p))) (PositionMarkUnavailable (po_symbol p));
      let amount := Math_abs (po_amount p) in
      let cover := position_cover s mode p mark in
      let futures := is_futures (po_symbol p) in
      Ok {| ex_asset := po_asset p; ex_symbol := po_symbol p;
            ex_notional := amount * mark * (match reduceSide p with Buy => -1 | Sell => 1 end);
            ex_pending := false;
            ex_liquidationDistancePct :=
              if futures then option_map (fun l => (Math_abs (mark - l) / mark) * 100) (po_liquidationPrice p) else None;
            ex_protectionCoveragePct := if 0 <? amount then Math_min 100 ((cv_amount cover / amount) * 100) else 100;
            ex_stopDistancePct := cv_distance cover; ex_futures := futures; ex_projected := None |}
  end.

(** An order that only closes what is held is no exposure of its own. *)
Definition contained (s : AccountSnapshot) (mode : PositionMode) (o : Order) : bool :=
  match find (fun p => verifiedReducingOrder (order_reduction o) p mode) (sn_positions s) with
  | Some p => truthy (o_closePosition o) || (o_remaining o <=? Math_abs (po_amount p))
  | None => false
  end
  || (negb (is_futures (o_symbol o)) && bool_decide (o_side o = Sell)).

Definition order_exposure (s : AccountSnapshot) (o : Order) : result GuardError RiskExposure :=
  match usable_mark s (o_symbol o) with
  | None => Throw (OrderPriceUnavailable (o_symbol o))
  | Some mark =>
      let price := Math_max (Math_max mark (default 0 (o_price o))) (default 0 (o_stopPrice o)) in
      Ok {| ex_asset := first_asset (o_symbol o); ex_symbol := o_symbol o;
            ex_notional := o_remaining o * price * (match o_side o with Buy => 1 | Sell => -1 end);
            ex_pending := true; ex_liquidationDistancePct := None; ex_protectionCoveragePct := 0;
            ex_stopDistancePct := None; ex_futures := is_futures (o_symbol o); ex_projected := None |}
  end.

(** The loop over the open orders; [groups] are the groups already counted. *)
Fixpoint order_exposures (s : AccountSnapshot) (mode : PositionMode) (groups : list string) (orders : list Order) :
    result GuardError (list RiskExposure) :=
  match orders with
  | [] => Ok []
  | o :: rest =>
      _ ← throwIf (negb (bool_decide (o_status o = OpenOrder)) || negb (isFinite (o_remaining o)) || (o_remaining o <? 0))
            OpenOrderUnavailable;
      if contained s mode o || str_in groups (group_of_order o) then order_exposures s mode groups rest
      else
        ex ← order_exposure s o;
        l ← order_exposures s mode (group_of_order o :: groups) rest;
        Ok (ex :: l)
  end.

Definition accountRiskFacts (s : AccountSnapshot) (mode : PositionMode) : result GuardError AccountRiskFacts :=
  held ← all_ok (position_exposure s mode) (sn_positions s);
  pending ← order_exposures s mode [] (sn_orders s);
  Ok {| f_source := sn_source s; f_epoch := sn_epoch s; f_observedAt := sn_observedAt s; f_oldestPriceAt := sn_oldestPriceAt s;
        f_equity := sn_equity s; f_netExternalFlows := sn_netExternalFlows s; f_marginUsed := sn_marginUsed s;
        f_exposures := app held pending |}.
