(* ===== verification/AccountGuard.v ===== *)
(** * The account guard (packages/trading-engine/src/account-risk.ts, class AccountRiskGuard)

    The account-risk entry of the shared store: its observation, the decisions about a reduction,
    an opening and a cancellation on a snapshot of the account, and the mutations that claim it.
    What a method asks of the client is an argument of its decision; the Engine file composes
    them with the calls. *)

From Stdlib Require Import ZArith Lia Bool Ascii Floats.
From stdpp Require Import base strings option list.
From S2P Require Import Prelude JsNumber JsObject JsValue JsText AccountRisk RiskState RiskLedger Execution ExecutionJournal.
From S2P Require Import Capabilities ExecutionRecovery Positions AccountFacts.
Import AccountRisk.

#[local] Set Warnings "-inexact-float".

Local Open Scope float_scope.

(** [AccountRiskError]: an error the account's rules give, not a failure around them. *)
Definition is_account_risk (e : GuardError) : bool :=
  match e with
  | ProtectionTargetRisk _ | AccountRiskRejected _ | ProtectionStopRequired | OpeningStopDistance | ExecutionRiskRejected _
  | LeverageAboveLimit | MarginSettingsUnavailable | CrossMarginUnsupported | ProjectionUnavailable | PostActionRejected _
  | CancellationIdentity | MutationPending => true
  | _ => false
  end.

Definition assess (limits : AccountRiskLimits) (facts : AccountRiskFacts) (memory : option AccountRiskMemory) (now : number) :
    result GuardError AccountRiskAssessment :=
  mapError AssessmentFailed (assessAccountRisk limits facts memory now).

(** [reasons.some((reason) => reason.startsWith(p))] *)
Definition any_reason (p : string) (reasons : list string) : bool := existsb (String.prefix p) reasons.

(** ** What the client answers *)

(** What the client answers an opening; [None] is a call that throws. *)
Record OrderBookLevel := { lv_price : number; lv_amount : number }.
Record OrderBook := { ob_symbol : string; ob_timestamp : number; ob_bids : list OrderBookLevel; ob_asks : list OrderBookLevel }.

(** A method the adapter may lack: absent, or what its call returns. *)
Inductive Optional (A : Type) := Lacking | Failing | Answer (a : A).
Arguments Lacking {A}.
Arguments Failing {A}.
Arguments Answer {A} a.

Record OpeningAnswers := {
  oa_ticker : option Ticker;
  oa_book : option OrderBook;
  (** [client.getEffectiveLeverage?.(symbol)] *)
  oa_leverage : option number;
  (** [client.getRiskSettings], of which the margin type is read *)
  oa_marginType : Optional MarginType;
  (** [client.projectOpeningRisk]: the liquidation distance *)
  oa_projection : Optional number;
  oa_feeRate : option number
}.

(** ** The store *)

Section Guard.
Variable sha256 : string -> string.
Context {W : Type} `{ExecutionStore W}.

Record Guard := { gd_scope : ExecutionScope }.
Variable G : Guard.
Definition key : string := accountRiskKey sha256 (gd_scope G).
Definition mode : PositionMode := sc_positionMode (gd_scope G).

(** Programs on the entries of the draft. *)
Abbreviation GOp := (ST (obj AccountRiskState) JournalError).
Definition guard_fail {A} (e : GuardError) : GOp A := fun s => (Throw (GuardFailure e), s).
Definition guard_lift {A} (r : result GuardError A) : GOp A := fun s => (mapError GuardFailure r, s).

Definition validate_states (states : obj AccountRiskState) : result JournalError unit :=
  mapError RiskFailure (validateAccountRiskStates (obj_value accountRisk_value states)).

Definition guard_run {T} (op : GOp T) (s : ExecutionRiskState) : result JournalError (T * ExecutionRiskState) :=
  let states := default [] (st_accountRisk (es_risk s)) in
  _ ← validate_states states;
  match op states with
  | (Throw e, _) => Throw e
  | (Ok t, states') =>
      _ ← validate_states states';
      Ok (t, set_risk (set_accountRisk (Some states') (es_risk s)) s)
  end.
Definition transact {T} (op : GOp T) : ST W JournalError T := exec_transact (guard_run op).

Definition state_of (s : ExecutionRiskState) : result JournalError (option AccountRiskState) :=
  match st_accountRisk (es_risk s) with
  | None => Ok None
  | Some states => _ ← validate_states states; Ok (o_get key states)
  end.
Definition state : ST W JournalError (option AccountRiskState) := reads (fun w => s ← exec_load w; state_of s).

(** [states[this.key]] *)
Definition current (missing : GuardError) : GOp AccountRiskState := fun s =>
  match o_get key s with Some a => (Ok a, s) | None => (Throw (GuardFailure missing), s) end.
Definition store (a : AccountRiskState) : GOp unit := fun s => (Ok tt, o_set key a s).

#[export] Instance MarginType_eq_dec : EqDecision MarginType.
Proof. solve_decision. Defined.

Definition with_reasons (reasons : list string) (a : AccountRiskState) : AccountRiskState :=
  {| ar_limits := ar_limits a; ar_memory := ar_memory a; ar_blockedReasons := reasons; ar_revision := ar_revision a;
     ar_mutation := ar_mutation a |}.
Definition with_memory (memory : AccountRiskMemory) (a : AccountRiskState) : AccountRiskState :=
  {| ar_limits := ar_limits a; ar_memory := Some memory; ar_blockedReasons := ar_blockedReasons a; ar_revision := ar_revision a;
     ar_mutation := ar_mutation a |}.
(** Assigns the pending mutation and starts a new revision. *)
Definition with_mutation (mutation : option AccountRiskMutation) (a : AccountRiskState) : AccountRiskState :=
  {| ar_limits := ar_limits a; ar_memory := ar_memory a; ar_blockedReasons := ar_blockedReasons a;
     ar_revision := ar_revision a + 1; ar_mutation := mutation |}.

(** [JSON.stringify(previous.limits) !== JSON.stringify(limits)]; the limits are records, whose
    keys have one order. *)
Definition limits_differ (a b : AccountRiskLimits) : bool :=
  negb (String.eqb (stringify (limits_value a)) (stringify (limits_value b))).

Definition configure_op (limits : AccountRiskLimits) : GOp unit := fun states =>
  match o_get key states with
  | Some previous => if limits_differ (ar_limits previous) limits then (Throw (GuardFailure LimitsDiffer), states) else (Ok tt, states)
  | None =>
      (Ok tt, o_set key {| ar_limits := limits; ar_memory := None; ar_blockedReasons := []; ar_revision := 0; ar_mutation := None |} states)
  end.
Definition configure (limits : option AccountRiskLimits) : ST W JournalError unit :=
  match limits with
  | None => mret tt
  | Some l => fun w =>
      match validateAccountRiskLimits (limits_value l) with
      | Ok _ => transact (configure_op l) w
      | Throw e => (Throw (GuardFailure (AssessmentFailed e)), w)
      end
  end.

Definition block_op (reason : string) : GOp unit := a ← current LimitsNotConfigured; store (with_reasons [reason] a).
Definition block (reason : string) : ST W JournalError unit := transact (block_op reason).

(** A pending mutation blocks whatever the assessment allows. *)
Definition with_pending (a : AccountRiskState) (next : AccountRiskAssessment) : AccountRiskAssessment :=
  match ar_mutation a with
  | Some _ =>
      {| a_allowed := false; a_reasons := app (a_reasons next) ["account-mutation-pending"%string];
         a_grossExposure := a_grossExposure next; a_netExposure := a_netExposure next; a_assetExposure := a_assetExposure next;
         a_leverage := a_leverage next; a_marginUsagePct := a_marginUsagePct next; a_dailyLoss := a_dailyLoss next;
         a_drawdown := a_drawdown next; a_memory := a_memory next |}
  | None => next
  end.

(** The transaction of [inspect]. *)
Definition observe_op (revision : Z) (snapshot : AccountSnapshot) (now : number) : GOp AccountRiskAssessment :=
  a ← current TypeErrorThrown;
  if negb (Z.eqb (ar_revision a) revision) then guard_fail AccountChanged
  else
    facts ← guard_lift (accountRiskFacts snapshot mode);
    next ← guard_lift (assess (ar_limits a) facts (ar_memory a) now);
    let next := with_pending a next in
    _ ← store (with_reasons (a_reasons next) (with_memory (a_memory next) a));
    mret next.
Definition observe (revision : Z) (snapshot : AccountSnapshot) (now : number) : ST W JournalError AccountRiskAssessment :=
  transact (observe_op revision snapshot now).

Definition claim_op (revision : Z) (symbol : string) (kind : AccountRiskMutationKind) (id : string) : GOp string := fun states =>
  match o_get key states with
  | Some a =>
      if negb (Z.eqb (ar_revision a) revision) then (Throw (GuardFailure ObservationStale), states)
      else match ar_mutation a with
      | Some _ => (Throw (GuardFailure MutationPending), states)
      | None =>
          (Ok id, o_set key (with_mutation (Some {| mut_id := id; mut_symbol := symbol; mut_kind := kind |}) a) states)
      end
  | None => (Throw (GuardFailure ObservationStale), states)
  end.
(** [id] is [intentId ?? randomUUID()]. *)
Definition claim (revision : Z) (symbol : string) (kind : AccountRiskMutationKind) (id : string) : ST W JournalError string :=
  transact (claim_op revision symbol kind id).

Definition finish_op (id : string) : GOp unit :=
  a ← current TypeErrorThrown;
  match ar_mutation a with
  | Some m => if String.eqb (mut_id m) id then store (with_mutation None a) else guard_fail MutationIdentityChanged
  | None => guard_fail MutationIdentityChanged
  end.
Definition finishMutation (id : string) : ST W JournalError unit := transact (finish_op id).

(** ** Decisions on a snapshot *)

Definition listed (ids : list string) (o : Order) : bool := str_in ids (o_id o).

(** The groups of the orders of these ids. *)
Definition groups_of (ids : list string) (orders : list Order) : list string :=
  flat_map (fun o => match o_ocoGroup o with Some g => [g] | None => [] end) (List.filter (listed ids) orders).

(** The orders that stay when these are removed, with the legs of their groups. *)
Definition remaining_orders (ids : list string) (orders : list Order) : list Order :=
  let groups := groups_of ids orders in
  List.filter (fun o => negb (listed ids o)
                        && match o_ocoGroup o with Some g => String.eqb g "" || negb (str_in groups g) | None => true end) orders.

Definition proposed_order (input : PlaceOrderInput) (now : number) : Order :=
  {| o_id := "proposed-protection"; o_symbol := in_symbol input; o_side := in_side input; o_type := Some (in_type input);
     o_price := in_price input; o_stopPrice := in_stopPrice input; o_trailingPercent := in_trailingPercent input;
     o_activationPrice := None; o_callbackRate := None; o_ocoGroup := None; o_clientOrderId := in_clientOrderId input;
     o_orderListId := None; o_listClientOrderId := None; o_listOrderStatus := None; o_positionSide := in_positionSide input;
     o_reduceOnly := in_reduceOnly input; o_closePosition := in_closePosition input; o_amount := in_amount input; o_filled := 0;
     o_remaining := in_amount input; o_average := None; o_cost := 0; o_feeObservation := None; o_status := OpenOrder;
     o_timestamp := now |}.

(** [Math.abs(amount)] and a rounding error. *)
Definition fits (amount : number) (p : Position) : bool :=
  negb (Math_abs (po_amount p) + EPSILON * Math_max 1 amount * 8 <? amount).

(** The orders an atomic replacement removes are reducing orders of this position. *)
Definition replacement_ok (snapshot : AccountSnapshot) (input : PlaceOrderInput) (p : Position) (ids : list string) :
    result GuardError unit :=
  _ ← throwIf (match ids with [] => true | _ => false end || negb (distinct ids)
               || negb (forallb (fun id => existsb (fun o => String.eqb (o_id o) id
                                                          && verifiedReducingOrder (order_reduction o) p mode) (sn_orders snapshot)) ids))
        ReplacementMismatch;
  _ ← throwIf (negb (bool_decide (in_type input ∈ [Market; StopMarket]))) ReplacementType;
  throwIf (bool_decide (in_type input = Market) && negb (in_amount input =? Math_abs (po_amount p))) PartialProtectedClose.

Definition not_a_number : number := nan.

Definition stop_type (t : OrderType) : bool := bool_decide (t ∈ [StopMarket; Stop; TrailingStopMarket]).

(** What a proposed stop does to the protection of the account. *)
Definition protection_ok (a : AccountRiskState) (snapshot : AccountSnapshot) (input : PlaceOrderInput) (replaces : bool)
    (timestamp now : number) : result GuardError unit :=
  targetReasons ← mapError AssessmentFailed
    (assessProtectionTarget (ar_limits a) (in_side input) (default not_a_number (mark_of snapshot (in_symbol input)))
       (default not_a_number (in_stopPrice input)));
  _ ← throwIf (match targetReasons with [] => false | _ => true end) (ProtectionTargetRisk targetReasons);
  facts ← accountRiskFacts (with_orders (app (sn_orders snapshot) [proposed_order input timestamp]) snapshot) mode;
  protection ← assess (ar_limits a) facts (ar_memory a) now;
  _ ← throwIf (str_in (a_reasons protection) (String.append "stopDistance:" (in_symbol input))) TargetStopDistance;
  throwIf (replaces && str_in (a_reasons protection) (String.append "protection:" (in_symbol input))) InsufficientReplacement.

Definition matching_positions (snapshot : AccountSnapshot) (input : PlaceOrderInput) : list Position :=
  List.filter (fun p => verifiedReducingOrder (input_reduction input) p mode) (sn_positions snapshot).

(** The decision about an order that does not increase exposure, and its value. *)
Definition reduction_allowed (a : AccountRiskState) (observed : AccountRiskAssessment) (snapshot : AccountSnapshot)
    (input : PlaceOrderInput) (replacementIds : option (list string)) (timestamp now : number) : result GuardError number :=
  p ← match matching_positions snapshot input with
      | [p] => if fits (in_amount input) p then Ok p else Throw ReductionMisfit
      | _ => Throw ReductionMisfit
      end;
  snapshot ← match replacementIds with
             | None => Ok snapshot
             | Some ids =>
                 _ ← replacement_ok snapshot input p ids;
                 Ok (with_orders (remaining_orders ids (sn_orders snapshot)) snapshot)
             end;
  _ ← throwIf (any_reason "stale:" (a_reasons observed)) StaleReduction;
  _ ← (if stop_type (in_type input)
       then protection_ok a snapshot input (match replacementIds with Some _ => true | None => false end) timestamp now else Ok tt);
  match mark_of snapshot (in_symbol input) with
  | Some mark => Ok (in_amount input * mark)
  | None => Throw TypeErrorThrown
  end.

(** The depth within the allowed deviation of the last price. *)
Definition bounded_depth (limits : AccountRiskLimits) (last : number) (levels : list OrderBookLevel) : number :=
  fold_left (fun sum l => sum + lv_amount l)
    (List.filter (fun l => Math_abs (lv_price l / last - 1) * 100 <=? maxPriceDeviationPct limits) levels) 0.

(** The price an opening is valued at. *)
Definition opening_price (input : PlaceOrderInput) (last : number) : number :=
  Math_max (Math_max last (default 0 (in_price input))) (default 0 (in_stopPrice input)).

(** The stop the model chose for the exposure it opens. *)
Definition protection_stop_ok (limits : AccountRiskLimits) (side : OrderSide) (last : number) (protectionStopPrice : option number) :
    result GuardError unit :=
  match protectionStopPrice with
  | None => throwIf (0 <? minProtectionCoveragePct limits) ProtectionStopRequired
  | Some stop =>
      reasons ← mapError AssessmentFailed
        (assessProtectionTarget limits (match side with Buy => Sell | Sell => Buy end) last stop);
      throwIf (match reasons with [] => false | _ => true end) OpeningStopDistance
  end.

(** The leverage and the settings of a futures opening. *)
Definition leverage_ok (limits : AccountRiskLimits) (futures : bool) (answers : OpeningAnswers) : result GuardError number :=
  match (if futures then oa_leverage answers else Some 1) with
  | Some leverage =>
      _ ← throwIf (negb (isFinite leverage) || (leverage <=? 0)) LeverageUnknown;
      if negb futures then Ok leverage
      else
        reasons ← mapError AssessmentFailed (assessLeverageSetting limits leverage);
        _ ← throwIf (match reasons with [] => false | _ => true end) LeverageAboveLimit;
        match oa_marginType answers with
        | Lacking => Throw MarginSettingsUnavailable
        | Failing => Throw ClientFailed
        | Answer marginType =>
            match marginType with Isolated => Ok leverage | Cross => Throw CrossMarginUnsupported end
        end
  | None => Throw LeverageUnknown
  end.

Definition projected_distance (futures : bool) (answers : OpeningAnswers) : result GuardError (option number) :=
  if negb futures then Ok None
  else match oa_projection answers with
  | Lacking => Throw ProjectionUnavailable
  | Failing => Throw ClientFailed
  | Answer distance => Ok (Some distance)
  end.

Definition opening_exposure (input : PlaceOrderInput) (notional : number) (distance : option number) : RiskExposure :=
  {| ex_asset := first_asset (in_symbol input); ex_symbol := in_symbol input;
     ex_notional := notional * (match in_side input with Buy => 1 | Sell => -1 end); ex_pending := true;
     ex_liquidationDistancePct := distance; ex_protectionCoveragePct := 0; ex_stopDistancePct := None;
     ex_futures := is_futures (in_symbol input); ex_projected := Some (is_futures (in_symbol input)) |}.

(** The facts of the account with the order in it, its fee paid and its margin used. *)
Definition facts_after (facts : AccountRiskFacts) (input : PlaceOrderInput) (notional leverage feeRate : number) (distance : option number) :
    AccountRiskFacts :=
  {| f_source := f_source facts; f_epoch := f_epoch facts; f_observedAt := f_observedAt facts; f_oldestPriceAt := f_oldestPriceAt facts;
     f_equity := f_equity facts - notional * feeRate; f_netExternalFlows := f_netExternalFlows facts;
     f_marginUsed := if is_futures (in_symbol input) then f_marginUsed facts + notional / leverage else f_marginUsed facts;
     f_exposures := app (f_exposures facts) [opening_exposure input notional distance] |}.

(** The decision about an order that increases exposure, its assessment and its value;
    [priceAt] and [now] are the two readings of the clock. *)
Definition opening_allowed (a : AccountRiskState) (observed : AccountRiskAssessment) (snapshot : AccountSnapshot)
    (input : PlaceOrderInput) (protectionStopPrice : option number) (answers : OpeningAnswers) (priceAt now : number) :
    result GuardError (AccountRiskAssessment * number) :=
  let limits := ar_limits a in
  let futures := is_futures (in_symbol input) in
  _ ← throwIf (negb (a_allowed observed)) (AccountRiskRejected (a_reasons observed));
  ticker ← match oa_ticker answers with Some t => Ok t | None => Throw ClientFailed end;
  book ← match oa_book answers with Some b => Ok b | None => Throw ClientFailed end;
  last ← match ti_last ticker with
         | Some last => if isFinite last && negb (last <=? 0) then Ok last else Throw ReferencePriceUnavailable
         | None => Throw ReferencePriceUnavailable
         end;
  _ ← protection_stop_ok limits (in_side input) last protectionStopPrice;
  let price := opening_price input last in
  priceReasons ← mapError AssessmentFailed (assessExecutionPrice limits
    {| x_now := priceAt; x_observedAt := Math_min (ob_timestamp book) (ti_timestamp ticker); x_referencePrice := last;
       x_orderPrice := default last (in_price input);
       x_availableDepth := bounded_depth limits last (match in_side input with Buy => ob_asks book | Sell => ob_bids book end);
       x_amount := in_amount input |});
  _ ← throwIf (match priceReasons with [] => false | _ => true end) (ExecutionRiskRejected priceReasons);
  facts ← accountRiskFacts snapshot mode;
  leverage ← leverage_ok limits futures answers;
  let notional := in_amount input * price in
  distance ← projected_distance futures answers;
  feeRate ← match oa_feeRate answers with Some rate => Ok rate | None => Throw FeeBoundUnavailable end;
  assessment ← assess limits (facts_after facts input notional leverage feeRate distance) (ar_memory a) now;
  _ ← throwIf (negb (a_allowed assessment)) (PostActionRejected (a_reasons assessment));
  Ok (assessment, notional).

(** ** Cancellations *)

(** [new Map(...).get(identity) ?? 0]: the last exposure of an identity counts. *)
Definition coverage_of (old : list RiskExposure) (ex : RiskExposure) : number :=
  default 0 (option_map ex_protectionCoveragePct (find (fun o => String.eqb (exposureIdentity o) (exposureIdentity ex)) (rev old))).

(** The orders asked to be cancelled are not all open on the symbol, or not named once each. *)
Definition unidentified (snapshot : AccountSnapshot) (ids : list string) (symbol : string) : bool :=
  match ids with [] => true | _ => false end || negb (distinct ids)
  || negb (forallb (fun id => existsb (fun o => String.eqb (o_id o) id && String.eqb (o_symbol o) symbol) (sn_orders snapshot)) ids).

(** The decision about a cancellation; the states are what the store held when each
    assessment was made. *)
Definition cancellation_allowed (before after : AccountRiskState) (snapshot : AccountSnapshot) (ids : list string) (symbol : string)
    (now later : number) : result GuardError unit :=
  _ ← throwIf (unidentified snapshot ids symbol) CancellationIdentity;
  old ← accountRiskFacts snapshot mode;
  oldAssessment ← assess (ar_limits before) old (ar_memory before) now;
  let rest := with_orders (remaining_orders ids (sn_orders snapshot)) snapshot in
  new ← accountRiskFacts rest mode;
  newAssessment ← assess (ar_limits after) new (ar_memory after) later;
  _ ← throwIf (existsb (fun reason => String.prefix "protection:" reason && negb (str_in (a_reasons oldAssessment) reason))
                 (a_reasons newAssessment)) CancellationProtection;
  throwIf (existsb (fun ex => ex_protectionCoveragePct ex <? coverage_of (f_exposures old) ex) (f_exposures new)) CancellationWeakens.

(** ** Pending mutations *)

Definition finished_status (s : OrderStatus) : bool :=
  bool_decide (s ∈ [CanceledOrder; ClosedOrder; ExpiredOrder; RejectedOrder]).

Fixpoint cancelled_all (symbol : string) (ids : list string) (orders : list Order) : bool :=
  match ids, orders with
  | id :: ids, o :: orders =>
      String.eqb (o_id o) id && String.eqb (o_symbol o) symbol && finished_status (o_status o) && cancelled_all symbol ids orders
  | _, _ => true
  end.

(** Whether what the client reports shows the mutation took effect. *)
Definition mutation_resolved (m : AccountRiskMutation) (orders : list Order) (settings : number * MarginType) : bool :=
  match mut_kind m with
  | MutCancel ids => cancelled_all (mut_symbol m) ids orders
  | MutLeverage leverage => fst settings =? leverage
  | MutMargin marginType => bool_decide (snd settings = marginType)
  end.
End Guard.
