(* ===== verification/GuardSafety.v ===== *)
(** * Safety of the account guard

    Whatever runtimes do to a shared store, an observation of the account is acted on at most
    once and a pending mutation bars every other; an admitted opening is within every limit and
    an admitted cancellation weakens no protection. *)

From Stdlib Require Import ZArith Lia Bool Ascii Floats.
From stdpp Require Import base strings option list.
From S2P Require Import Prelude JsNumber JsObject JsValue JsText AccountRisk RiskState RiskLedger Execution ExecutionJournal.
From S2P Require Import JournalHistory Capabilities ExecutionRecovery Positions AccountFacts AccountGuard.
Import AccountRisk.

#[local] Set Warnings "-inexact-float".

Local Open Scope Z_scope.

(** ** What the journal leaves of the account entries *)

Definition accounts (s : ExecutionRiskState) : obj AccountRiskState := default [] (st_accountRisk (es_risk s)).

Definition same_accounts {A} (op : ST ExecutionRiskState JournalError A) : Prop := forall s, accounts (snd (op s)) = accounts s.

Section SameAccounts.
Context {A B : Type}.
Lemma accounts_bind (m : ST ExecutionRiskState JournalError A) (k : A -> ST ExecutionRiskState JournalError B) :
  same_accounts m -> (forall a, same_accounts (k a)) -> same_accounts (m ≫= k).
Proof.
  intros Hm Hk s. unfold mbind, ST_bind. specialize (Hm s). destruct (m s) as [[a|e] s1]; [|done]. by rewrite (Hk a s1).
Qed.
Lemma accounts_lift (r : result JournalError A) : same_accounts (lift r).
Proof. by intros s. Qed.
Lemma accounts_ret (a : A) : same_accounts (mret a).
Proof. by intros s. Qed.
Lemma accounts_refuse c why (k : ST ExecutionRiskState JournalError A) : same_accounts k -> same_accounts (refuse c why k).
Proof. by destruct c. Qed.
Lemma accounts_risk (m : ST TradingRiskState RiskError A) :
  (forall k, st_accountRisk (snd (m k)) = st_accountRisk k) -> same_accounts (risk m).
Proof. intros H s. unfold risk, accounts. specialize (H (es_risk s)). destruct (m (es_risk s)). cbn in *. by rewrite H. Qed.
End SameAccounts.

Lemma accounts_get : same_accounts get.
Proof. by intros s. Qed.
Lemma accounts_modify f : (forall s, st_accountRisk (es_risk (f s)) = st_accountRisk (es_risk s)) -> same_accounts (modify f).
Proof. intros H s. unfold modify, accounts. cbn. by rewrite H. Qed.
Lemma accounts_append id event at_ : same_accounts (append_event id event at_).
Proof.
  intros s. unfold append_event. destruct (appendTradingAuditEvent _ _ _ _) as [k|] eqn:E; [|done].
  unfold appendTradingAuditEvent in E. inv_ok. done.
Qed.

Lemma accounts_store r s : st_accountRisk (es_risk (store_record r s)) = st_accountRisk (es_risk s).
Proof. by destruct s as [k [j|]]. Qed.
Lemma accounts_trim s : st_accountRisk (es_risk (trim s)) = st_accountRisk (es_risk s).
Proof. by destruct s as [k [j|]]. Qed.
Lemma accounts_settle_targets sha256 r o s : st_accountRisk (es_risk (settle_targets sha256 r o s)) = st_accountRisk (es_risk s).
Proof. by destruct o. Qed.
Lemma accounts_move_last r s : st_accountRisk (es_risk (move_last r s)) = st_accountRisk (es_risk s).
Proof. by destruct s as [k [j|]]. Qed.
Lemma accounts_store_targets l s : st_accountRisk (es_risk (store_targets l s)) = st_accountRisk (es_risk s).
Proof. by destruct s as [k [j|]]. Qed.

Lemma ledger_keeps_accounts {T} (f : TradingRiskState -> result RiskError (T * TradingRiskState)) k :
  st_accountRisk (snd (ledger_transact f k)) = st_accountRisk k.
Proof.
  unfold ledger_transact, store_transact. cbn. unfold apply.
  destruct (normalizedState k) as [d|e]; cbn; [|by destruct e].
  destruct (mapError _ _) as [p|e]; cbn; [|by destruct e]. destruct (normalizedState (snd p)) as [n|e]; cbn; [done|by destruct e].
Qed.

Lemma reserve_keeps_accounts config now id symbol notional count executionId k :
  st_accountRisk (snd (reserve config now id symbol notional count executionId k)) = st_accountRisk k.
Proof.
  unfold reserve. destruct (validateOrder _ _ _ _); [done|]. destruct count; [|done].
  unfold mbind, ST_bind. pose proof (ledger_keeps_accounts (reserve_draft config now id symbol notional executionId) k) as H.
  by destruct (ledger_transact _ k) as [[?|?] ?].
Qed.

Lemma reconcile_keeps_accounts now auditId at_ id outcome notional executionId k :
  st_accountRisk (snd (reconcileReservation now auditId at_ id outcome notional executionId k)) = st_accountRisk k.
Proof.
  unfold reconcileReservation, mbind, ST_bind, lift. destruct (throwIf _ _); [|done]. apply ledger_keeps_accounts.
Qed.

Lemma assert_keeps_accounts id k : st_accountRisk (snd (assertNewExposureAllowed id k)) = st_accountRisk k.
Proof. unfold assertNewExposureAllowed, loadLatest, reads, mbind, ST_bind, lift. cbn. by destruct (normalizedState k). Qed.

Ltac accounts_tac :=
  unfold transition, audit, isoTime, find_, find_target, store_target, assertAdmission, current_maintenance;
  repeat match goal with
  | |- same_accounts (_ ≫= _) => apply accounts_bind; [|intros]
  | |- same_accounts (refuse _ _ _) => apply accounts_refuse
  | |- same_accounts (lift _) => apply accounts_lift
  | |- same_accounts (mret _) => apply accounts_ret
  | |- same_accounts get => apply accounts_get
  | |- same_accounts (risk _) => apply accounts_risk; intros;
      first [apply reserve_keeps_accounts | apply reconcile_keeps_accounts | apply assert_keeps_accounts]
  | |- same_accounts (append_event _ _ _) => apply accounts_append
  | |- same_accounts (modify _) => apply accounts_modify; intros;
      first [apply accounts_store | apply accounts_trim | apply accounts_settle_targets | apply accounts_move_last
            | apply accounts_store_targets | done | apply set_usage_account]
  | |- same_accounts (match _ with _ => _ end) => case_match
  end.

Section Journal.
Variable sha256 : string -> string.

Lemma begin_accounts J d id revision : same_accounts (begin_op sha256 J d id revision).
Proof. unfold begin_op. accounts_tac. Qed.
Lemma unknown_accounts d id issue revision : same_accounts (unknown_op d id issue revision).
Proof. unfold unknown_op. accounts_tac. Qed.
Lemma settle_accounts d id outcome notional status evidence revision :
  same_accounts (settle_op sha256 d id outcome notional status evidence revision).
Proof. unfold settle_op. accounts_tac. Qed.
Lemma claimAttempt_accounts d id next : same_accounts (claimAttempt_op d id next).
Proof. unfold claimAttempt_op. accounts_tac. Qed.
Lemma update_accounts d id revision evidence : same_accounts (updateEvidence_op d id revision evidence).
Proof. unfold updateEvidence_op. accounts_tac. Qed.
Lemma acknowledge_accounts id revision : same_accounts (acknowledge_op id revision).
Proof. unfold acknowledge_op. accounts_tac. Qed.
Lemma beginMaintenance_accounts J d action : same_accounts (beginMaintenance_op J d action).
Proof. unfold beginMaintenance_op. accounts_tac. Qed.
Lemma cancelMaintenance_accounts d id : same_accounts (cancelMaintenance_op d id).
Proof. unfold cancelMaintenance_op. accounts_tac. Qed.
Lemma completeMaintenance_accounts J d id reference : same_accounts (completeMaintenance_op J d id reference).
Proof. unfold completeMaintenance_op. accounts_tac. Qed.
Lemma configurationChange_accounts J d action : same_accounts (configurationChange_op J d action).
Proof. unfold configurationChange_op. accounts_tac. Qed.
Lemma claimRepair_accounts id : same_accounts (claimRepair_op sha256 id).
Proof. unfold claimRepair_op. accounts_tac. Qed.
Lemma finishRepair_accounts id succeeded : same_accounts (finishRepair_op id succeeded).
Proof. unfold finishRepair_op. accounts_tac. Qed.
Lemma retire_accounts J id : same_accounts (retire_op sha256 J id).
Proof. unfold retire_op. accounts_tac. Qed.

(** Every call but a preparation. *)
Definition prepares (c : Call) : bool := match c with CPrepare _ _ _ _ _ => true | _ => false end.

Lemma call_accounts J c : prepares c = false -> same_accounts (call_op sha256 J c).
Proof.
  destruct c; try done; intros _; cbn [call_op]; unfold effect;
    try (apply accounts_bind; [|intros; apply accounts_ret]);
    auto using begin_accounts, unknown_accounts, settle_accounts, claimAttempt_accounts, update_accounts, acknowledge_accounts,
      beginMaintenance_accounts, completeMaintenance_accounts, configurationChange_accounts, claimRepair_accounts,
      finishRepair_accounts, retire_accounts.
  case_match; [apply cancelMaintenance_accounts|apply accounts_lift].
Qed.
End Journal.

(** ** One entry over the history of the store *)

Definition entry (K : string) (s : ExecutionRiskState) : option AccountRiskState := o_get K (accounts s).

(** Limits stay, revisions grow, and within a revision the pending mutation stays. *)
Definition advances (a b : AccountRiskState) : Prop :=
  ar_limits b = ar_limits a /\ ar_revision a <= ar_revision b /\ (ar_revision b = ar_revision a -> ar_mutation b = ar_mutation a).

Definition entry_advances (K : string) (s s' : ExecutionRiskState) : Prop :=
  forall a, entry K s = Some a -> exists b, entry K s' = Some b /\ advances a b.

Lemma advances_refl a : advances a a.
Proof. by split_and!. Qed.

Lemma entry_same K s s' : accounts s' = accounts s -> entry_advances K s s'.
Proof. unfold entry_advances, entry. intros -> a H. exists a. split; [done|apply advances_refl]. Qed.

Lemma entry_set K K' s s' a b :
  entry K' s = Some a -> accounts s' = o_set K' b (accounts s) -> advances a b -> entry_advances K s s'.
Proof.
  unfold entry_advances, entry. intros Ha E Hab x Hx. rewrite E. destruct (String.eqb_spec K' K) as [->|N].
  - exists b. rewrite o_get_set_eq. split; [done|]. congruence.
  - exists x. rewrite o_get_set_ne by done. split; [done|apply advances_refl].
Qed.

Lemma entry_added K K' s s' b : entry K' s = None -> accounts s' = o_set K' b (accounts s) -> entry_advances K s s'.
Proof.
  unfold entry_advances, entry. intros Ha E x Hx. rewrite E. destruct (String.eqb_spec K' K) as [->|N]; [congruence|].
  exists x. rewrite o_get_set_ne by done. split; [done|apply advances_refl].
Qed.

Section Shared.
Variable sha256 : string -> string.

Lemma same_accounts_run {A} (op : ST ExecutionRiskState JournalError A) s r s' :
  same_accounts op -> op s = (r, s') -> accounts s' = accounts s.
Proof. intros H E. specialize (H s). by rewrite E in H. Qed.

Lemma check_account_entry J revision c s u s' :
  check_account sha256 J revision c s = (Ok u, s') ->
  let K := accountRiskKey sha256 (jn_scope J) in
  (entry K s = None /\ accounts s' = accounts s) \/
  (exists a, entry K s = Some a /\ revision = Some (ar_revision a) /\ (c = true -> account_blocked a = false) /\
     accounts s' = o_set K (bump_revision a) (accounts s)).
Proof.
  unfold check_account, entry, accounts, account_of. intros H. op_inv.
  destruct (st_accountRisk (es_risk s)) as [o|] eqn:E; cbn [default id]; [|op_inv; left; by rewrite E].
  destruct (o_get _ o) as [a|] eqn:Ea; [|op_inv; left; by rewrite E]. right. exists a. op_inv.
  split; [done|]. rewrite negb_false_iff in *. match goal with G : bool_decide _ = true |- _ => apply bool_decide_eq_true in G end.
  split; [done|]. split; [by intros ->|]. cbn. by rewrite E.
Qed.

Lemma prepare_entry J d intent notional c options s r s' :
  prepare_op sha256 J d intent notional c options s = (Ok r, s') ->
  let K := accountRiskKey sha256 (jn_scope J) in
  (entry K s = None /\ accounts s' = accounts s) \/
  (exists a, entry K s = Some a /\ po_riskRevision options = Some (ar_revision a) /\ (c = true -> account_blocked a = false) /\
     accounts s' = o_set K (bump_revision a) (accounts s)).
Proof.
  unfold prepare_op. intros H. bind_inv H Ha. apply assertAdmission_Ok in Ha as (-> & _). op_inv.
  bind_inv H Hi. apply check_intent_Ok in Hi as [-> _]. bind_inv H Hk. apply check_account_entry in Hk.
  assert (accounts s' = accounts s0) as E by (eapply same_accounts_run; [|exact H]; accounts_tac). by rewrite <- E in Hk.
Qed.

(** ** Calls of any runtimes on one store *)

Inductive SharedCall :=
  | ByJournal (J : Journal) (c : Call)
  | Configures (G : Guard) (limits : AccountRiskLimits)
  | Blocks (G : Guard) (reason : string)
  | Observes (G : Guard) (revision : Z) (snapshot : AccountSnapshot) (now : number)
  | Claims (G : Guard) (revision : Z) (symbol : string) (kind : AccountRiskMutationKind) (id : string)
  | Finishes (G : Guard) (id : string).

(** The transaction of a call, for its effect. *)
Definition shared_op (c : SharedCall) (s : ExecutionRiskState) : result JournalError (unit * ExecutionRiskState) :=
  let drop {T} (r : result JournalError (T * ExecutionRiskState)) := p ← r; Ok (tt, snd p) in
  match c with
  | ByJournal J c => run_op J (call_op sha256 J c) s
  | Configures G limits => guard_run (configure_op sha256 G limits) s
  | Blocks G reason => guard_run (block_op sha256 G reason) s
  | Observes G revision snapshot now => drop (guard_run (observe_op sha256 G revision snapshot now) s)
  | Claims G revision symbol kind id => drop (guard_run (claim_op sha256 G revision symbol kind id) s)
  | Finishes G id => guard_run (finish_op sha256 G id) s
  end.

(** The observation of an account a call acts on. *)
Definition acts_on (K : string) (revision : Z) (c : SharedCall) : Prop :=
  match c with
  | Claims G r _ _ _ => key sha256 G = K /\ r = revision
  | ByJournal J (CPrepare _ _ _ _ options) => accountRiskKey sha256 (jn_scope J) = K /\ po_riskRevision options = Some revision
  | _ => False
  end.

Lemma guard_run_Ok {T} (op : ST (obj AccountRiskState) JournalError T) s t s' :
  guard_run op s = Ok (t, s') -> op (accounts s) = (Ok t, accounts s').
Proof.
  unfold guard_run. intros ([] & _ & H)%bind_Ok. unfold accounts. destruct (op _) as [[a|e] states]; [|done].
  apply bind_Ok in H as ([] & _ & [= <- <-]). done.
Qed.

Lemma current_Ok G missing o a o' : current sha256 G missing o = (Ok a, o') -> o' = o /\ o_get (key sha256 G) o = Some a.
Proof. unfold current. destruct (o_get _ o); [by intros [= <- <-]|done]. Qed.

(** What a transaction of the guard that starts no revision does to the entry. *)
Definition guard_step (K : string) (o o' : obj AccountRiskState) : Prop :=
  o' = o \/ (exists b, o_get K o = None /\ o' = o_set K b o) \/
  (exists a b, o_get K o = Some a /\ advances a b /\ ar_revision b = ar_revision a /\ o' = o_set K b o).

Lemma guard_lift_Ok {A} (r : result GuardError A) o a o' : guard_lift r o = (Ok a, o') -> r = Ok a /\ o' = o.
Proof. unfold guard_lift. destruct r; [by intros [= <- <-]|done]. Qed.

Lemma observe_step G revision snapshot now o r o' :
  observe_op sha256 G revision snapshot now o = (Ok r, o') -> guard_step (key sha256 G) o o'.
Proof.
  unfold observe_op. intros (a & o1 & [-> Ha]%current_Ok & H)%st_bind_Ok. destruct (negb _); [done|].
  apply st_bind_Ok in H as (facts & o2 & [_ ->]%guard_lift_Ok & H). apply st_bind_Ok in H as (next & o3 & [_ ->]%guard_lift_Ok & H).
  unfold store, mbind, ST_bind in H. injection H as _ <-. right; right. exists a. eexists. split; [done|]. split; [|split; [|reflexivity]]; done.
Qed.

Lemma configure_step G limits o r o' : configure_op sha256 G limits o = (Ok r, o') -> guard_step (key sha256 G) o o'.
Proof.
  unfold configure_op. destruct (o_get _ o) eqn:E; [destruct (limits_differ _ _); [done|]; intros [= _ <-]; by left|].
  intros [= _ <-]. right; left. eauto.
Qed.

Lemma block_step G reason o r o' : block_op sha256 G reason o = (Ok r, o') -> guard_step (key sha256 G) o o'.
Proof.
  unfold block_op. intros (a & o1 & [-> Ha]%current_Ok & H)%st_bind_Ok. injection H as _ <-.
  right; right. exists a. eexists. split; [done|]. split; [|split; [|reflexivity]]; done.
Qed.

Lemma claim_inv G revision symbol kind id o r o' :
  claim_op sha256 G revision symbol kind id o = (Ok r, o') ->
  r = id /\ exists a, o_get (key sha256 G) o = Some a /\ ar_revision a = revision /\ ar_mutation a = None /\
    o' = o_set (key sha256 G) (with_mutation (Some {| mut_id := id; mut_symbol := symbol; mut_kind := kind |}) a) o.
Proof.
  unfold claim_op. destruct (o_get _ o) as [a|]; [|done]. destruct (Z.eqb_spec (ar_revision a) revision); [|done].
  destruct (ar_mutation a) eqn:M; [done|]. cbn. intros [= <- <-]. eauto 10.
Qed.

Lemma finish_inv G id o r o' :
  finish_op sha256 G id o = (Ok r, o') ->
  exists a m, o_get (key sha256 G) o = Some a /\ ar_mutation a = Some m /\ mut_id m = id /\
    o' = o_set (key sha256 G) (with_mutation None a) o.
Proof.
  unfold finish_op. intros (a & o1 & [-> Ha]%current_Ok & H)%st_bind_Ok. destruct (ar_mutation a) as [m|] eqn:M; [|done].
  destruct (String.eqb_spec (mut_id m) id); [|done]. injection H as _ <-. eauto 10.
Qed.

Lemma mutation_advances m a : advances a (with_mutation m a).
Proof. split_and!; cbn; [done|lia|lia]. Qed.

Lemma guard_step_advances K K' s s' : guard_step K' (accounts s) (accounts s') -> entry_advances K s s'.
Proof.
  intros [E|[(b & N & E)|(a & b & Ha & Hab & _ & E)]]; [by apply entry_same|by eapply entry_added|by eapply entry_set].
Qed.

Lemma drop_Ok {T} (r : result JournalError (T * ExecutionRiskState)) s' :
  (p ← r; Ok (tt, snd p)) = Ok (tt, s') -> exists t, r = Ok (t, s').
Proof. destruct r as [[t s1]|]; [|done]. intros [= <-]. by exists t. Qed.

Lemma shared_advances K c s s' : shared_op c s = Ok (tt, s') -> entry_advances K s s'.
Proof.
  destruct c as [J c|G limits|G reason|G revision snapshot now|G revision symbol kind id|G id]; cbn [shared_op].
  - intros (_ & H & _)%run_op_Ok. destruct (prepares c) eqn:P.
    + destruct c; try done. cbn [call_op] in H. apply effect_Ok in H as [r H].
      apply prepare_entry in H as [[N E]|(a & Ha & _ & _ & E)]; [by apply entry_same|].
      eapply entry_set; [exact Ha|exact E|]. split_and!; cbn; [done|lia|lia].
    + apply entry_same. eapply same_accounts_run; [|exact H]. by apply call_accounts.
  - intros H%guard_run_Ok. by eapply guard_step_advances, configure_step.
  - intros H%guard_run_Ok. by eapply guard_step_advances, block_step.
  - intros [t H%guard_run_Ok]%drop_Ok. by eapply guard_step_advances, observe_step.
  - intros [t H%guard_run_Ok]%drop_Ok. apply claim_inv in H as (_ & a & Ha & _ & _ & E).
    eapply entry_set; [exact Ha|exact E|apply mutation_advances].
  - intros H%guard_run_Ok. apply finish_inv in H as (a & m & Ha & _ & _ & E).
    eapply entry_set; [exact Ha|exact E|apply mutation_advances].
Qed.

Lemma acts_on_inv K revision c s s' :
  acts_on K revision c -> shared_op c s = Ok (tt, s') ->
  (entry K s = None /\ entry K s' = None) \/
  (exists a b, entry K s = Some a /\ ar_revision a = revision /\ entry K s' = Some b /\ revision < ar_revision b).
Proof.
  destruct c as [J c|G limits|G reason|G r snapshot now|G r symbol kind id|G id]; try done; cbn [acts_on shared_op].
  - destruct c; try done. intros [<- E]. intros (_ & H & _)%run_op_Ok. cbn [call_op] in H. apply effect_Ok in H as [x H].
    apply prepare_entry in H as [[N Ea]|(a & Ha & R & _ & Ea)].
    + left. split; [done|]. unfold entry in *. by rewrite Ea.
    + right. exists a, (bump_revision a). split; [done|]. split; [congruence|]. unfold entry. rewrite Ea, o_get_set_eq.
      split; [done|]. cbn. assert (ar_revision a = revision) by congruence. lia.
  - intros [<- ->] [t H%guard_run_Ok]%drop_Ok. apply claim_inv in H as (_ & a & Ha & R & _ & E). right.
    eexists a, _. split; [exact Ha|]. split; [done|]. unfold entry. rewrite E, o_get_set_eq. split; [reflexivity|]. cbn. lia.
Qed.

Section Store.
Context {W : Type} {HS : ExecutionStore W} {HL : ExecutionStoreLaws W}.

Definition shared (c : SharedCall) : ST W JournalError unit := exec_transact (shared_op c).
Fixpoint run_shared (h : list SharedCall) (w : W) : W :=
  match h with [] => w | c :: rest => run_shared rest (snd (shared c w)) end.

Lemma shared_cases c w s :
  exec_load w = Ok s ->
  exists s', exec_load (snd (shared c w)) = Ok s' /\ (s' = s /\ isOk (fst (shared c w)) = false \/ shared_op c s = Ok (tt, s')).
Proof.
  intros Hs. unfold shared. pose proof (exec_transact_spec unit (shared_op c) w) as H.
  destruct (exec_transact (shared_op c) w) as [r w']. cbn [fst snd] in *. rewrite Hs in H.
  destruct H as [s0 [] s' [= <-] Hf Ha|s0 e [= <-] Hf Ha|e _ Ha|s0 [] s' e [= <-] Hf Ha _]; eauto 10.
Qed.

Lemma shared_Ok c w w' s :
  exec_load w = Ok s -> shared c w = (Ok tt, w') -> exists s', exec_load w' = Ok s' /\ shared_op c s = Ok (tt, s').
Proof.
  intros Hs E. destruct (shared_cases c w s Hs) as (s' & Hs' & C). rewrite E in *. cbn in *. destruct C as [[_ ?]|C]; [done|eauto].
Qed.

(** What every call preserves holds after any of them. *)
Lemma shared_invariant (P : ExecutionRiskState -> Prop) h w s :
  (forall c s s', In c h -> P s -> shared_op c s = Ok (tt, s') -> P s') -> exec_load w = Ok s -> P s ->
  exists s', exec_load (run_shared h w) = Ok s' /\ P s'.
Proof.
  revert w s. induction h as [|c h IH]; intros w s Hstep Hs HP; [eauto|]. cbn [run_shared].
  destruct (shared_cases c w s Hs) as (s' & Hs' & C). apply (IH _ s'); [|done|].
  - intros c' t t' Hin. apply Hstep. by right.
  - destruct C as [[-> _]|C]; [done|]. eapply Hstep; [by left|exact HP|exact C].
Qed.

(** C25: an observation of the account is acted on at most once: once a mutation was claimed or
    an execution prepared on a revision of the account, no runtime can claim or prepare on that
    revision again, whatever any of them did to the store in between. *)
Theorem observation_used_once K revision c w w' s h c' :
  exec_load w = Ok s -> entry K s <> None -> acts_on K revision c -> shared c w = (Ok tt, w') -> acts_on K revision c' ->
  isOk (fst (shared c' (run_shared h w'))) = false.
Proof.
  intros Hs He Ha Hc Ha'. destruct (shared_Ok _ _ _ _ Hs Hc) as (s1 & Hs1 & Ho).
  destruct (acts_on_inv _ _ _ _ _ Ha Ho) as [[N _]|(_ & b & _ & _ & Hb & Hr)]; [done|].
  destruct (shared_invariant (fun s => exists b, entry K s = Some b /\ revision < ar_revision b) h w' s1) as (s2 & Hs2 & b2 & Hb2 & Hr2);
    [|done|eauto|].
  { intros c0 t t' _ (x & Hx & Hrx) Ht. destruct (shared_advances K _ _ _ Ht x Hx) as (y & Hy & _ & Hxy & _).
    exists y. split; [done|lia]. }
  destruct (shared c' (run_shared h w')) as [[[]|e] w2] eqn:E; [|done]. exfalso.
  destruct (shared_Ok _ _ _ _ Hs2 E) as (s3 & _ & Ho3).
  destruct (acts_on_inv _ _ _ _ _ Ha' Ho3) as [[N _]|(x & _ & Hx & Hrx & _)]; [congruence|].
  assert (x = b2) as -> by congruence. lia.
Qed.

(** A call that finishes a mutation of this account with this identity. *)
Definition finishes (K id : string) (c : SharedCall) : Prop :=
  match c with Finishes G i => key sha256 G = K /\ i = id | _ => False end.

(** A call that would act on the account while a mutation is pending. *)
Definition needs_quiet (K : string) (c : SharedCall) : Prop :=
  match c with
  | Claims G _ _ _ _ => key sha256 G = K
  | ByJournal J (CPrepare _ _ _ count _) => accountRiskKey sha256 (jn_scope J) = K /\ count = true
  | _ => False
  end.

Definition pending (K id : string) (s : ExecutionRiskState) : Prop :=
  exists a m, entry K s = Some a /\ ar_mutation a = Some m /\ mut_id m = id.

Lemma pending_other K id K' s s' b :
  pending K id s -> accounts s' = o_set K' b (accounts s) -> (K' = K -> exists m, ar_mutation b = Some m /\ mut_id m = id) -> pending K id s'.
Proof.
  intros (a & m & Ha & Hm & Hi) E H. unfold pending, entry in *. rewrite E. destruct (String.eqb_spec K' K) as [->|N].
  - destruct (H eq_refl) as (m' & Hm' & Hi'). exists b, m'. by rewrite o_get_set_eq.
  - exists a, m. by rewrite o_get_set_ne.
Qed.

Lemma pending_guard K id K' s s' : pending K id s -> guard_step K' (accounts s) (accounts s') -> pending K id s'.
Proof.
  intros P [E|[(b & N & E)|(x & b & Hx & (_ & _ & Hm) & Hr & E)]].
  - destruct P as (a & m & Ha & ?). exists a, m. unfold entry. by rewrite E.
  - eapply pending_other; [exact P|exact E|]. intros ->. destruct P as (a & m & Ha & _). unfold entry in Ha. congruence.
  - eapply pending_other; [exact P|exact E|]. intros ->. destruct P as (a & m & Ha & Ma & Hi). unfold entry in Ha.
    assert (x = a) as -> by congruence. exists m. by rewrite (Hm Hr).
Qed.

Lemma pending_kept K id c s s' : ~ finishes K id c -> pending K id s -> shared_op c s = Ok (tt, s') -> pending K id s'.
Proof.
  intros Nf P. pose proof P as (a & m & Ha & Hm & Hi).
  destruct c as [J c|G limits|G reason|G revision snapshot now|G revision symbol kind i|G i]; cbn [shared_op].
  - intros (_ & H & _)%run_op_Ok. destruct (prepares c) eqn:Pc.
    + destruct c; try done. cbn [call_op] in H. apply effect_Ok in H as [r H].
      apply prepare_entry in H as [[N E]|(x & Hx & _ & _ & E)]; [unfold pending, entry; rewrite E; eauto|].
      eapply pending_other; [exact P|exact E|]. intros E'. rewrite E' in Hx. assert (x = a) as -> by congruence. eauto.
    + assert (accounts s' = accounts s) as E by (eapply same_accounts_run; [|exact H]; by apply call_accounts).
      unfold pending, entry. rewrite E. eauto.
  - intros H%guard_run_Ok. eapply pending_guard; [exact P|]. by eapply configure_step.
  - intros H%guard_run_Ok. eapply pending_guard; [exact P|]. by eapply block_step.
  - intros [t H%guard_run_Ok]%drop_Ok. eapply pending_guard; [exact P|]. by eapply observe_step.
  - intros [t H%guard_run_Ok]%drop_Ok. apply claim_inv in H as (_ & x & Hx & _ & Mx & E).
    eapply pending_other; [exact P|exact E|]. intros Ek. rewrite Ek in Hx. unfold entry in Ha. congruence.
  - intros H%guard_run_Ok. apply finish_inv in H as (x & mx & Hx & Mx & Ix & E).
    eapply pending_other; [exact P|exact E|]. intros Ek. rewrite Ek in Hx. unfold entry in Ha. destruct Nf. cbn. split; [done|congruence].
Qed.

(** C26: a claimed mutation of the account bars every other mutation and every execution that
    increases exposure, for all runtimes, until the mutation of that identity is finished. *)
Theorem mutation_bars_others G revision symbol kind id w w' s h c :
  exec_load w = Ok s -> shared (Claims G revision symbol kind id) w = (Ok tt, w') ->
  (forall c, In c h -> ~ finishes (key sha256 G) id c) -> needs_quiet (key sha256 G) c ->
  isOk (fst (shared c (run_shared h w'))) = false.
Proof.
  intros Hs Hc Hh Hq. destruct (shared_Ok _ _ _ _ Hs Hc) as (s1 & Hs1 & Ho).
  assert (P : pending (key sha256 G) id s1).
  { cbn [shared_op] in Ho. apply drop_Ok in Ho as [t Ho%guard_run_Ok]. apply claim_inv in Ho as (_ & a & _ & _ & _ & E).
    eexists _, _. unfold entry. rewrite E, o_get_set_eq. done. }
  destruct (shared_invariant (pending (key sha256 G) id) h w' s1) as (s2 & Hs2 & a & m & Ha & Hm & _); [|done|done|].
  { intros c0 t t' Hin. apply pending_kept. by apply Hh. }
  destruct (shared c (run_shared h w')) as [[[]|e] w2] eqn:E; [|done]. exfalso.
  destruct (shared_Ok _ _ _ _ Hs2 E) as (s3 & _ & H).
  destruct c as [J c|G' limits|G' reason|G' r snapshot now|G' r sym k i|G' i]; try done; cbn [shared_op needs_quiet] in *.
  - destruct c; try done. destruct Hq as [Hk ->]. apply run_op_Ok in H as (_ & H & _). cbn [call_op] in H. apply effect_Ok in H as [x H].
    apply prepare_entry in H as [[N _]|(y & Hy & _ & B & _)]; rewrite Hk in *; [congruence|].
    assert (y = a) as -> by congruence. specialize (B eq_refl). unfold account_blocked in B. rewrite Hm in B. by rewrite orb_true_r in B.
  - apply drop_Ok in H as [t H%guard_run_Ok]. apply claim_inv in H as (_ & y & Hy & _ & My & _). rewrite Hq in Hy.
    unfold entry in Ha. congruence.
Qed.
End Store.
End Shared.

(** ** Decisions *)

Local Open Scope float_scope.

Section Decisions.
Variable G : Guard.
Implicit Types (a : AccountRiskState) (snapshot : AccountSnapshot) (input : PlaceOrderInput).

Lemma assess_Ok limits facts memory now r :
  assess limits facts memory now = Ok r -> assessAccountRisk limits facts memory now = Ok r.
Proof. unfold assess, mapError. destruct (assessAccountRisk _ _ _ _); [by intros [= ->]|done]. Qed.

Lemma no_reasons (l : list string) : match l with [] => false | _ => true end = false -> l = [].
Proof. by destruct l. Qed.

(** *** What an account's limits bound *)

(** The sum of the notionals' magnitudes over the exposures that count. *)
Definition exposure_sum (counts : RiskExposure -> bool) (l : list RiskExposure) : number :=
  fold_left (fun sum ex => if counts ex then sum + Math_abs (ex_notional ex) else sum) l 0.
Definition held_net (l : list RiskExposure) : number :=
  fold_left (fun sum ex => if ex_pending ex then sum else sum + ex_notional ex) l 0.

Definition gross_exposure : list RiskExposure -> number := exposure_sum (fun _ => true).
Definition asset_exposure (asset : string) : list RiskExposure -> number := exposure_sum (fun ex => String.eqb (ex_asset ex) asset).
(** The farthest the net exposure may go when the pending orders of one side fill. *)
Definition net_exposure (l : list RiskExposure) : number :=
  Math_max (Math_abs (held_net l + exposure_sum (fun ex => ex_pending ex && (0 <? ex_notional ex)) l))
           (Math_abs (held_net l - exposure_sum (fun ex => ex_pending ex && negb (0 <? ex_notional ex)) l)).

(** An account with this equity, this margin in use and these exposures is within its limits. *)
Record account_within (limits : AccountRiskLimits) (equity margin : number) (l : list RiskExposure) : Prop := {
  aw_equity : (0 <? equity) = true;
  aw_gross : (gross_exposure l <=? maxGrossExposure limits) = true;
  aw_net : (maxNetExposure limits <? net_exposure l) = false;
  aw_assets : forall ex, In ex l -> (asset_exposure (ex_asset ex) l <=? maxAssetExposure limits) = true;
  aw_leverage : (maxLeverage limits <? gross_exposure l / equity) = false;
  aw_margin : (maxMarginUsagePct limits <? margin / equity * 100) = false;
  aw_safe : forall ex, In ex l -> exposure_safe limits ex
}.

(** Totals over a list of exposures, from any totals. *)
Lemma totals_sums limits l t t' :
  foldM (add_exposure limits) t l = Ok t' ->
  t_gross t' = fold_left (fun sum ex => sum + Math_abs (ex_notional ex)) l (t_gross t) /\
  t_net t' = fold_left (fun sum ex => if ex_pending ex then sum else sum + ex_notional ex) l (t_net t) /\
  t_buys t' = fold_left (fun sum ex => if ex_pending ex && (0 <? ex_notional ex) then sum + Math_abs (ex_notional ex) else sum) l (t_buys t) /\
  t_sells t' = fold_left (fun sum ex => if ex_pending ex && negb (0 <? ex_notional ex) then sum + Math_abs (ex_notional ex) else sum) l (t_sells t).
Proof.
  revert t. induction l as [|ex l IH]; intros t; cbn [foldM fold_left]; [by intros [= ->]|].
  destruct (add_exposure limits t ex) as [t1|] eqn:E; [|done]. intros (-> & -> & -> & ->)%IH. unfold add_exposure in E. by inv_ok.
Qed.

Lemma totals_assets limits asset l t t' :
  foldM (add_exposure limits) t l = Ok t' ->
  (exists ex, In ex l /\ ex_asset ex = asset) \/ is_Some (o_get asset (t_assets t)) ->
  o_get asset (t_assets t') =
    Some (fold_left (fun sum ex => if String.eqb (ex_asset ex) asset then sum + Math_abs (ex_notional ex) else sum) l
            (default 0 (o_get asset (t_assets t)))).
Proof.
  revert t. induction l as [|ex l IH]; intros t; cbn [foldM fold_left].
  - intros [= ->] [(x & [] & _)|[v ->]]. done.
  - destruct (add_exposure limits t ex) as [t1|] eqn:E; [|done]. intros H Ha.
    assert (t_assets t1 = o_set (ex_asset ex) (default 0 (o_get (ex_asset ex) (t_assets t)) + Math_abs (ex_notional ex)) (t_assets t)) as Ea
      by (unfold add_exposure in E; by inv_ok).
    destruct (String.eqb_spec (ex_asset ex) asset) as [<-|N].
    + rewrite (IH t1 H); rewrite Ea, o_get_set_eq; [done|]. right. by eexists.
    + rewrite (IH t1 H); rewrite Ea, o_get_set_ne by done; [done|]. destruct Ha as [(x & [->|Hx] & Hxa)|Ha]; [done|left; by exists x|by right].
Qed.

(** What an admitted assessment says of the facts it was made of. *)
Lemma allowed_account limits facts memory now r :
  assessAccountRisk limits facts memory now = Ok r -> a_allowed r = true ->
  account_within limits (f_equity facts) (f_marginUsed facts) (f_exposures facts).
Proof.
  intros H A. pose proof (proj1 (allowed_within_limits _ _ _ _ _ H) A) as W.
  apply assess_inv in H as (date & t & H). cbv zeta in H. destruct H as (_ & _ & _ & _ & _ & _ & T & _ & _ & _ & Eg0 & As & N & L & M & _).
  pose proof (totals_sums _ _ _ _ T) as (Tg & Tn & Tb & Ts). cbn [no_totals t_gross t_net t_buys t_sells] in Tg, Tn, Tb, Ts.
  assert (Eg : a_grossExposure r = gross_exposure (f_exposures facts)) by (by rewrite Eg0, Tg).
  assert (En : a_netExposure r = net_exposure (f_exposures facts)) by (by rewrite N, Tn, Tb, Ts).
  pose proof (wl_equity _ _ _ _ W) as E. rewrite E in L, M. split.
  - exact E.
  - rewrite <- Eg. apply (wl_gross _ _ _ _ W).
  - rewrite <- En. apply (wl_net _ _ _ _ W).
  - intros ex Hex. pose proof (totals_assets _ (ex_asset ex) _ _ _ T (or_introl (ex_intro _ ex (conj Hex eq_refl)))) as Ta.
    apply (wl_assets _ _ _ _ W (ex_asset ex)). rewrite As. by apply o_get_In in Ta.
  - rewrite <- Eg, Eg0, <- L. apply (wl_leverage _ _ _ _ W).
  - rewrite <- M. apply (wl_margin _ _ _ _ W).
  - apply (wl_exposures _ _ _ _ W).
Qed.

Lemma allowed_losses limits facts memory now r :
  assessAccountRisk limits facts memory now = Ok r -> a_allowed r = true ->
  let value := f_equity facts - f_netExternalFlows facts in
  stale limits now (f_observedAt facts) = false /\ stale limits now (f_oldestPriceAt facts) = false /\
  (Math_max 0 (m_dailyOpeningValue (a_memory r) - value) <? maxDailyLoss limits) = true /\
  (Math_max 0 (m_peakValue (a_memory r) - value) <? maxDrawdown limits) = true /\ m_lossTrip (a_memory r) = None.
Proof.
  intros H A. destruct (proj1 (allowed_within_limits _ _ _ _ _ H) A) as [F Fp D Dd T _ _ _ _ _ _ _].
  apply assess_inv in H as (date & t & H). cbv zeta in H. destruct H as (_ & _ & _ & _ & _ & _ & _ & M & Ed & Edd & _).
  rewrite M in *. rewrite latch_opening, latch_peak. rewrite Ed in D. rewrite Edd in Dd. by split_and!.
Qed.

(** C27: an opening the guard admits is within every limit of the account once it is in it. The
    account as observed was admitted, and so is the account with the order: its value at the
    greatest of the last price, its limit and its stop is added to the account's exposures on the
    order's side, its fee is taken from the equity and, on futures, its margin at the leverage
    the exchange reported is used besides; the gross exposure, the net exposure whichever orders
    fill, the exposure of each asset, the leverage and the margin usage computed from these are
    within the limits, each exposure keeps its distances, and no loss is above its limit. *)
Theorem opening_is_within_limits a observed snapshot input stop answers priceAt now assessment notional :
  opening_allowed G a observed snapshot input stop answers priceAt now = Ok (assessment, notional) ->
  a_allowed observed = true /\
  exists facts ticker last leverage feeRate distance,
    accountRiskFacts snapshot (mode G) = Ok facts /\ oa_ticker answers = Some ticker /\ ti_last ticker = Some last /\
    oa_feeRate answers = Some feeRate /\
    (if is_futures (in_symbol input)
     then oa_leverage answers = Some leverage /\ oa_marginType answers = Answer Isolated /\
       exists d, distance = Some d /\ oa_projection answers = Answer d
     else distance = None) /\
    notional = in_amount input * Math_max (Math_max last (default 0 (in_price input))) (default 0 (in_stopPrice input)) /\
    let order := {| ex_asset := first_asset (in_symbol input); ex_symbol := in_symbol input;
                    ex_notional := notional * (match in_side input with Buy => 1 | Sell => -1 end); ex_pending := true;
                    ex_liquidationDistancePct := distance; ex_protectionCoveragePct := 0; ex_stopDistancePct := None;
                    ex_futures := is_futures (in_symbol input); ex_projected := Some (is_futures (in_symbol input)) |} in
    let equity := f_equity facts - notional * feeRate in
    let margin := if is_futures (in_symbol input) then f_marginUsed facts + notional / leverage else f_marginUsed facts in
    account_within (ar_limits a) equity margin (app (f_exposures facts) [order]) /\
    stale (ar_limits a) now (f_observedAt facts) = false /\ stale (ar_limits a) now (f_oldestPriceAt facts) = false /\
    let value := equity - f_netExternalFlows facts in
    (Math_max 0 (m_dailyOpeningValue (a_memory assessment) - value) <? maxDailyLoss (ar_limits a)) = true /\
    (Math_max 0 (m_peakValue (a_memory assessment) - value) <? maxDrawdown (ar_limits a)) = true /\
    m_lossTrip (a_memory assessment) = None.
Proof.
  unfold opening_allowed. intros H. inv_ok. bool_hyps. split; [done|].
  match goal with E : accountRiskFacts _ _ = Ok ?f |- _ => exists f end.
  match goal with E : leverage_ok _ _ _ = Ok ?l |- _ => rename l into lev; rename E into L end.
  match goal with E : projected_distance _ _ = Ok ?x |- _ => rename x into dist; rename E into P end.
  destruct (oa_ticker answers) as [ticker|]; [|done]. destruct (oa_feeRate answers) as [rate|] eqn:R; [|done]. inv_ok.
  match goal with E : context [ti_last ?t] |- _ => destruct (ti_last t) as [last|] eqn:La; [|done] end. inv_ok.
  match goal with E : assess _ _ _ _ = Ok _ |- _ => apply assess_Ok in E end.
  do 2 eexists. exists lev. do 2 eexists. split; [done|]. split; [done|]. split; [exact La|]. split; [done|].
  split; [|split; [|split]].
  - destruct (is_futures (in_symbol input)); [|by injection P].
    unfold leverage_ok, projected_distance in *. cbn in L, P.
    destruct (oa_leverage answers) as [lev'|]; [|done]. inv_ok. destruct (oa_marginType answers) as [| |[]]; try done. inv_ok.
    destruct (oa_projection answers); try done. inv_ok. split_and!; try done. eauto.
  - destruct (isFinite last && negb (last <=? 0)); [|done]. by inv_ok.
  - by eapply (allowed_account _ _ _ _ _ ltac:(eassumption)).
  - by eapply (allowed_losses _ _ _ _ _ ltac:(eassumption)).
Qed.

(** ** Reductions *)

Lemma stop_missing limits side reference :
  forall l, assessProtectionTarget limits side reference not_a_number = Ok l -> l <> [].
Proof.
  unfold assessProtectionTarget. intros l H. apply bind_Ok in H as (_ & _ & H).
  assert (N : negb (isFinite reference && (0 <? reference) && (isFinite not_a_number && (0 <? not_a_number))) = true)
    by (by destruct (isFinite reference && (0 <? reference))). rewrite N in H. by injection H as <-.
Qed.

(** A trailing stop, which has no stop price on a paper account, is never admitted as a
    reduction once the account has hard limits, whatever it would protect: its missing stop
    price is assessed as if it were a stop order's. *)
Theorem trailing_stop_never_reduces a observed snapshot input replacementIds timestamp now :
  in_type input = TrailingStopMarket -> in_stopPrice input = None ->
  isOk (reduction_allowed G a observed snapshot input replacementIds timestamp now) = false.
Proof.
  intros T S. destruct (reduction_allowed _ _ _ _ _ _ _ _) as [n|e] eqn:H; [|done]. exfalso.
  unfold reduction_allowed in H. inv_ok. rewrite T in *.
  assert (ST : stop_type TrailingStopMarket = true) by reflexivity. rewrite ST in *. unfold protection_ok in *. rewrite S in *. cbn [default] in *. inv_ok.
  match goal with E : mapError _ (assessProtectionTarget _ _ _ _) = Ok ?l, N : match ?l with _ => _ end = false |- _ =>
    apply no_reasons in N; subst l; unfold mapError in E; destruct (assessProtectionTarget _ _ _ _) eqn:A; [|done]; injection E as -> end.
  by apply (stop_missing _ _ _ _ A).
Qed.

(** A reduction the guard admits fits exactly one position of the account, up to rounding,
    and replaces only reducing orders of that position. *)
Theorem reduction_fits_position a observed snapshot input replacementIds timestamp now notional :
  reduction_allowed G a observed snapshot input replacementIds timestamp now = Ok notional ->
  exists p, matching_positions G snapshot input = [p] /\ fits (in_amount input) p = true /\
    any_reason "stale:" (a_reasons observed) = false /\
    forall ids id, replacementIds = Some ids -> In id ids ->
      exists o, In o (sn_orders snapshot) /\ o_id o = id /\ verifiedReducingOrder (order_reduction o) p (mode G) = true.
Proof.
  unfold reduction_allowed. intros H. inv_ok.
  match goal with E : match matching_positions _ _ _ with _ => _ end = Ok ?x |- _ =>
    destruct (matching_positions G snapshot input) as [|p [|]] eqn:M; [done| |done]; destruct (fits _ p) eqn:F; [|done];
    injection E as <- end.
  exists p. split_and!; try done. intros ids id -> Hid. inv_ok. unfold replacement_ok in *. inv_ok. bool_hyps.
  match goal with E : forallb _ ids = true |- _ => rewrite forallb_forall in E; specialize (E id Hid); apply existsb_exists in E as (o & Ho & E) end.
  bool_hyps. exists o. split_and!; try done. by apply String.eqb_eq.
Qed.

(** ** Cancellations *)

Lemma exposure_without snapshot orders p e e' :
  position_exposure snapshot (mode G) p = Ok e -> position_exposure (with_orders orders snapshot) (mode G) p = Ok e' ->
  exposureIdentity e' = exposureIdentity e.
Proof.
  unfold position_exposure. change (usable_mark (with_orders orders snapshot)) with (usable_mark snapshot).
  destruct (usable_mark snapshot (po_symbol p)); [|done]. intros H H'. inv_ok. done.
Qed.

Lemma Forall2_In_l {A B} (R : A -> B -> Prop) l l' x : Forall2 R l l' -> In x l -> exists y, In y l' /\ R x y.
Proof.
  induction 1 as [|a b l l' Hab _ IH]; [done|]. intros [<-|H].
  - exists b. split; [by left|done].
  - destruct (IH H) as (y & Hy & Hxy). exists y. split; [by right|done].
Qed.

Lemma prefix_append p s : String.prefix p (String.append p s) = true.
Proof.
  induction p as [|c p IH]; [by destruct s|].
  change ((if ascii_dec c c then String.prefix p (String.append p s) else false) = true). by destruct (ascii_dec c c).
Qed.

Lemma position_held snapshot facts p mode_ :
  accountRiskFacts snapshot mode_ = Ok facts -> In p (sn_positions snapshot) ->
  exists e, position_exposure snapshot mode_ p = Ok e /\ In e (f_exposures facts).
Proof.
  unfold accountRiskFacts. intros H Hp. inv_ok. cbn [f_exposures].
  match goal with E : all_ok _ _ = Ok _ |- _ => apply all_ok_Forall2 in E end.
  match goal with E : Forall2 _ _ ?l |- _ => destruct (Forall2_In_l _ _ _ _ E Hp) as (e & He & Hpe) end.
  exists e. split; [done|]. apply in_or_app. by left.
Qed.

Lemma coverage_of_only old e ex :
  In e old -> exposureIdentity ex = exposureIdentity e -> (forall x, In x old -> exposureIdentity x = exposureIdentity e -> x = e) ->
  coverage_of old ex = ex_protectionCoveragePct e.
Proof.
  intros He Hi U. unfold coverage_of. destruct (find _ (rev old)) as [x|] eqn:F.
  - apply find_some in F as [Hx E%String.eqb_eq]. cbn. rewrite (U x); [done|by apply in_rev|congruence].
  - exfalso. apply in_rev in He. apply (find_none _ _ F) in He. rewrite Hi in He. by rewrite String.eqb_refl in He.
Qed.

(** C28: A cancellation the guard admits weakens no protection: after it, every position is
    covered by its stops at least as far as before, where no other exposure of the account has
    its symbol and direction, and no position newly lacks its protection. *)
Theorem cancellation_keeps_protection before after snapshot ids symbol now later :
  cancellation_allowed G before after snapshot ids symbol now later = Ok tt ->
  exists old new was is_,
    let rest := with_orders (remaining_orders ids (sn_orders snapshot)) snapshot in
    accountRiskFacts snapshot (mode G) = Ok old /\ accountRiskFacts rest (mode G) = Ok new /\
    assessAccountRisk (ar_limits before) old (ar_memory before) now = Ok was /\
    assessAccountRisk (ar_limits after) new (ar_memory after) later = Ok is_ /\
    (forall p e, In p (sn_positions snapshot) -> position_exposure snapshot (mode G) p = Ok e ->
       (forall x, In x (f_exposures old) -> exposureIdentity x = exposureIdentity e -> x = e) ->
       exists e', position_exposure rest (mode G) p = Ok e' /\ In e' (f_exposures new) /\
         (ex_protectionCoveragePct e' <? ex_protectionCoveragePct e) = false) /\
    (forall s, In (String.append "protection:" s) (a_reasons is_) -> In (String.append "protection:" s) (a_reasons was)).
Proof.
  unfold cancellation_allowed. intros H. inv_ok. cbv zeta in *.
  repeat match goal with E : assess _ _ _ _ = Ok _ |- _ => apply assess_Ok in E end.
  do 4 eexists. split; [eassumption|]. split; [eassumption|]. split; [eassumption|]. split; [eassumption|]. split.
  - intros p e Hp He U.
    match goal with E : accountRiskFacts (with_orders _ _) _ = Ok ?n |- _ => rename n into new; pose proof E as Fn end.
    match goal with E : accountRiskFacts snapshot _ = Ok ?o |- _ => rename o into old; pose proof E as Fo end.
    destruct (position_held _ _ _ _ Fn Hp) as (e' & He' & Hin'). destruct (position_held _ _ _ _ Fo Hp) as (e0 & He0 & Hin).
    assert (e0 = e) as -> by congruence. exists e'. split; [done|]. split; [done|].
    pose proof (exposure_without _ _ _ _ _ He He') as Hi.
    match goal with E : existsb _ (f_exposures new) = false |- _ => pose proof (proj1 (existsb_none _ _) E e' Hin') as C; cbn beta in C end.
    by rewrite (coverage_of_only (f_exposures old) e e' Hin Hi U) in C.
  - intros s Hs.
    match goal with E : existsb _ (a_reasons _) = false |- _ => pose proof (proj1 (existsb_none _ _) E _ Hs) as C; cbn beta in C end.
    apply andb_false_iff in C as [C|C]; [by rewrite prefix_append in C|]. apply negb_false_iff in C. by apply str_in_In in C.
Qed.
End Decisions.

(** ** Runs *)

Definition toy_guard : Guard := {| gd_scope := example_scope |}.
Definition toy_key : string := Eval vm_compute in key toy_sha256 toy_guard.
Definition guarded : ExecutionRiskState :=
  {| es_risk := set_accountRisk (Some [(toy_key, {| ar_limits := sample_limits; ar_memory := None; ar_blockedReasons := [];
                                                    ar_revision := 3; ar_mutation := None |})]) example_state;
     es_executions := None |}.
Definition leverage_claim (id : string) : SharedCall := Claims toy_guard 3 "BTC/USDT:USDT" (MutLeverage 2) id.
Definition claimed : ExecutionRiskState := Eval vm_compute in snd (shared toy_sha256 (leverage_claim "one") guarded).

Lemma toy_claims : shared toy_sha256 (leverage_claim "one") guarded = (Ok tt, claimed).
Proof. vm_compute. reflexivity. Qed.

(** A journal call and a block in between. *)
Definition between : list SharedCall :=
  [Blocks toy_guard "manual"; ByJournal example_journal (CConfigurationChange (example_draws "g") "limits-changed")].

Lemma observation_used_once_witness :
  isOk (fst (shared toy_sha256 (leverage_claim "two") (run_shared toy_sha256 between claimed))) = false.
Proof.
  apply (observation_used_once toy_sha256 toy_key 3 (leverage_claim "one") guarded claimed guarded between (leverage_claim "two"));
    [reflexivity|discriminate|split; [vm_compute; reflexivity|reflexivity]|exact toy_claims|split; [vm_compute; reflexivity|reflexivity]].
Defined.

Lemma mutation_bars_others_witness :
  isOk (fst (shared toy_sha256 (Claims toy_guard 4 "BTC/USDT:USDT" (MutLeverage 3) "two") (run_shared toy_sha256 between claimed))) = false.
Proof.
  apply (mutation_bars_others toy_sha256 toy_guard 3 "BTC/USDT:USDT" (MutLeverage 2) "one" guarded claimed guarded between);
    [reflexivity|exact toy_claims| |reflexivity].
  intros c [<-|[<-|[]]]; intros [].
Defined.

Definition half_bitcoin : Position :=
  {| po_symbol := "BTC/USDT:USDT"; po_asset := "BTC"; po_amount := 0.5; po_quoteValue := None; po_valuationStatus := None;
     po_valuationReason := None; po_positionSide := None; po_leverage := None; po_marginType := None; po_markPrice := None;
     po_liquidationPrice := Some 500; po_margin := None; po_avgEntryPrice := None; po_unrealizedPnl := None; po_unrealizedPnlPct := None;
     po_costBasisStatus := None; po_costBasisReason := None |}.
Definition stop_input (type : OrderType) (stop : option number) : PlaceOrderInput :=
  {| in_symbol := "BTC/USDT:USDT"; in_side := Sell; in_type := type; in_amount := 0.5; in_price := None; in_reduceOnly := Some true;
     in_positionSide := None; in_stopPrice := stop; in_trailingPercent := Some 3; in_closePosition := None; in_clientOrderId := None |}.
Definition stop_order (id : string) : Order :=
  let o := proposed_order (stop_input StopMarket (Some 970)) 0 in
  {| o_id := id; o_symbol := o_symbol o; o_side := o_side o; o_type := o_type o; o_price := None; o_stopPrice := o_stopPrice o;
     o_trailingPercent := None; o_activationPrice := None; o_callbackRate := None; o_ocoGroup := None; o_clientOrderId := None;
     o_orderListId := None; o_listClientOrderId := None; o_listOrderStatus := None; o_positionSide := None;
     o_reduceOnly := Some true; o_closePosition := None; o_amount := 0.5; o_filled := 0; o_remaining := 0.5; o_average := None;
     o_cost := 0; o_feeObservation := None; o_status := OpenOrder; o_timestamp := 0 |}.
Definition snapshot_with (orders : list Order) : AccountSnapshot :=
  {| sn_source := "exchange"; sn_epoch := "epoch"; sn_observedAt := day1; sn_oldestPriceAt := day1; sn_equity := 1000;
     sn_netExternalFlows := 1000; sn_marginUsed := 100; sn_positions := [half_bitcoin]; sn_orders := orders;
     sn_prices := [("BTC/USDT:USDT"%string, {| pob_price := 1000; pob_timestamp := day1 |})]; sn_limitations := [] |}.
Definition account_state : AccountRiskState :=
  {| ar_limits := sample_limits; ar_memory := None; ar_blockedReasons := []; ar_revision := 3; ar_mutation := None |}.

(** The assessment of the account as it is. *)
Definition observed_at (snapshot : AccountSnapshot) : AccountRiskAssessment :=
  match (facts ← accountRiskFacts snapshot OneWay; assess sample_limits facts None day1) with
  | Ok a => a
  | Throw _ => {| a_allowed := false; a_reasons := []; a_grossExposure := 0; a_netExposure := 0; a_assetExposure := []; a_leverage := 0;
                  a_marginUsagePct := 0; a_dailyLoss := 0; a_drawdown := 0; a_memory := good_memory |}
  end.
Definition covered : AccountSnapshot := snapshot_with [stop_order "a"; stop_order "b"].

Definition small_buy : PlaceOrderInput :=
  {| in_symbol := "BTC/USDT:USDT"; in_side := Buy; in_type := Limit; in_amount := 0.05; in_price := Some 1000; in_reduceOnly := None;
     in_positionSide := None; in_stopPrice := None; in_trailingPercent := None; in_closePosition := None; in_clientOrderId := None |}.
Definition small_answers : OpeningAnswers :=
  {| oa_ticker := Some {| ti_symbol := "BTC/USDT:USDT"; ti_last := Some 1000; ti_bid := None; ti_ask := None; ti_high24h := None;
                          ti_low24h := None; ti_changePct24h := None; ti_volume24h := None; ti_quoteVolume24h := None;
                          ti_timestamp := day1; ti_sourceTimestampKnown := None |};
     oa_book := Some {| ob_symbol := "BTC/USDT:USDT"; ob_timestamp := day1; ob_bids := [];
                        ob_asks := [{| lv_price := 1001; lv_amount := 2 |}] |};
     oa_leverage := Some 2; oa_marginType := Answer Isolated; oa_projection := Answer 40; oa_feeRate := Some 0.001 |}.
Definition small_opening : result GuardError (AccountRiskAssessment * number) :=
  opening_allowed toy_guard account_state (observed_at covered) covered small_buy (Some 970) small_answers day1 day1.

(** A purchase of 50 is admitted; ten times as much is above the limit of the asset. *)
Lemma opening_is_within_limits_witness :
  exists assessment notional facts order, small_opening = Ok (assessment, notional) /\ notional = 50 /\
    ex_notional order = 50 /\ account_within sample_limits (f_equity facts - 50 * 0.001) (f_marginUsed facts + 50 / 2) (app (f_exposures facts) [order]).
Proof.
  assert (E : exists a, small_opening = Ok (a, 50)) by (eexists; vm_compute; reflexivity). destruct E as [a E].
  destruct (opening_is_within_limits toy_guard account_state (observed_at covered) covered small_buy (Some 970) small_answers day1 day1 a 50 E)
    as (_ & facts & t & last & lev & fee & distance & _ & _ & _ & [= <-] & ([= <-] & _) & _ & Hw & _).
  exists a, 50, facts. eexists. split; [exact E|]. split; [reflexivity|]. split; [|exact Hw]. reflexivity.
Defined.

Lemma trailing_stop_never_reduces_witness :
  isOk (reduction_allowed toy_guard account_state (observed_at covered) covered (stop_input StopMarket (Some 970)) None day1 day1) = true /\
  isOk (reduction_allowed toy_guard account_state (observed_at covered) covered (stop_input TrailingStopMarket None) None day1 day1) = false.
Proof. split; [vm_compute; reflexivity|]. apply trailing_stop_never_reduces; reflexivity. Defined.

Lemma reduction_fits_position_witness :
  exists p, matching_positions toy_guard covered (stop_input StopMarket (Some 970)) = [p] /\ fits 0.5 p = true.
Proof.
  assert (E : exists n, reduction_allowed toy_guard account_state (observed_at covered) covered (stop_input StopMarket (Some 970))
                          (Some ["a"%string]) day1 day1 = Ok n) by (eexists; vm_compute; reflexivity). destruct E as [n E].
  destruct (reduction_fits_position toy_guard _ _ _ _ _ _ _ _ E) as (p & M & F & _). exists p. split; [exact M|exact F].
Defined.

(** One of two stops may be cancelled, the last may not. *)
Lemma cancellation_keeps_protection_witness :
  isOk (cancellation_allowed toy_guard account_state account_state (snapshot_with [stop_order "a"]) ["a"%string] "BTC/USDT:USDT" day1 day1) = false /\
  exists e', position_exposure (with_orders (remaining_orders ["a"%string] (sn_orders covered)) covered) OneWay half_bitcoin = Ok e' /\
    (ex_protectionCoveragePct e' <? 100) = false.
Proof.
  split; [vm_compute; reflexivity|].
  assert (E : cancellation_allowed toy_guard account_state account_state covered ["a"%string] "BTC/USDT:USDT" day1 day1 = Ok tt)
    by (vm_compute; reflexivity).
  destruct (cancellation_keeps_protection toy_guard _ _ _ _ _ _ _ E) as (old & new & was & is_ & Fo & _ & _ & _ & K & _).
  assert (P : exists e, position_exposure covered OneWay half_bitcoin = Ok e /\ ex_protectionCoveragePct e = 100 /\ f_exposures old = [e]).
  { vm_compute in Fo. injection Fo as <-. eexists. split; [vm_compute; reflexivity|split; reflexivity]. }
  destruct P as (e & He & Hc & Ho). destruct (K half_bitcoin e) as (e' & He' & _ & C).
  - by left.
  - exact He.
  - rewrite Ho. intros x [<-|[]] _. reflexivity.
  - exists e'. split; [exact He'|]. rewrite <- Hc. exact C.
Defined.
