(* ===== verification/Effects.v ===== *)
(** * Programs that wait

    An asynchronous function is a tree: it returns, throws, or makes a call of its environment
    and continues with the reply.  Calls are fields of an object, transactions of a store,
    clocks, callbacks and awaited requests; which of them are awaited matters to the
    interleavings only.  The file gives the sequencing of such programs, their runs against an
    environment, and a program logic that follows the calls with an observer. *)

From Stdlib Require Import Lia Bool.
From stdpp Require Import base list option.
From S2P Require Import Prelude.

(** ** Programs *)

Inductive Prog {C : Type} {reply : C -> Type} {X A : Type} :=
  | Ret (a : A)
  | Fail (e : X)
  | Do (c : C) (k : reply c -> Prog).
Arguments Prog {C} reply X A.

Section Programs.
Context {C : Type} {reply : C -> Type} {X : Type}.
Abbreviation P := (Prog reply X).

#[export] Instance Prog_ret : MRet P := fun A a => Ret a.
#[export] Instance Prog_bind : MBind P := fun A B f =>
  fix bind (m : P A) : P B :=
    match m with Ret a => f a | Fail e => Fail e | Do c k => Do c (fun r => bind (k r)) end.

(** A call and its reply. *)
Definition call (c : C) : P (reply c) := Do c Ret.

(** What the call replied, or the error of a synchronous function. *)
Definition of_result {E A} (f : E -> X) (r : result E A) : P A := match r with Ok a => Ret a | Throw e => Fail (f e) end.
Definition failIf (c : bool) (e : X) : P unit := if c then Fail e else Ret tt.

(** [try { } catch (error) { }] as a value. *)
Fixpoint attempt {A} (m : P A) : P (result X A) :=
  match m with Ret a => Ret (Ok a) | Fail e => Ret (Throw e) | Do c k => Do c (fun r => attempt (k r)) end.

Definition tryCatch {A} (m : P A) (h : X -> P A) : P A :=
  r ← attempt m; match r with Ok a => Ret a | Throw e => h e end.

Lemma bind_Do {A B} c k (f : A -> P B) : (Do c k ≫= f) = Do c (fun r => k r ≫= f).
Proof. done. Qed.
Lemma bind_Ret {A B} (a : A) (f : A -> P B) : (Ret a ≫= f) = f a.
Proof. done. Qed.
Lemma bind_Fail {A B} e (f : A -> P B) : (Fail e ≫= f) = Fail e.
Proof. done. Qed.

(** ** Runs *)

Definition Event : Type := {c : C & reply c}.

(** An environment replies to a call by what happened before. *)
Definition Environment : Type := list Event -> forall c : C, reply c.

(** The calls of a run, after those of [h], and what it ends with. *)
Fixpoint run {A} (env : Environment) (h : list Event) (m : P A) : list Event * result X A :=
  match m with
  | Ret a => (h, Ok a)
  | Fail e => (h, Throw e)
  | Do c k => let r := env h c in run env (app h [existT c r]) (k r)
  end.

Lemma run_bind {A B} env h (m : P A) (f : A -> P B) :
  run env h (m ≫= f) = match run env h m with (h', Ok a) => run env h' (f a) | (h', Throw e) => (h', Throw e) end.
Proof. revert h. induction m as [a|e|c k IH]; intros h; [done|done|]. rewrite bind_Do. cbn. apply IH. Qed.

(** A run continues what happened before. *)
Lemma run_extends {A} env h (m : P A) : exists h', fst (run env h m) = app h h'.
Proof.
  revert h. induction m as [a|e|c k IH]; cbn; intros h; [exists []; by rewrite app_nil_r..|].
  destruct (IH (env h c) (app h [existT c (env h c)])) as [h' ->]. exists (existT c (env h c) :: h'). by rewrite <- app_assoc.
Qed.

(** ** A logic of calls

    An observer of type [S] follows the calls: [may s c] is when the call [c] is made, and
    [next s e] what is known after it. *)
Section Logic.
Context {S : Type} (may : S -> C -> Prop) (next : S -> Event -> S).

Fixpoint wp {A} (m : P A) (Q : S -> result X A -> Prop) (s : S) : Prop :=
  match m with
  | Ret a => Q s (Ok a)
  | Fail e => Q s (Throw e)
  | Do c k => may s c /\ forall r, wp (k r) Q (next s (existT c r))
  end.

Lemma wp_mono {A} (m : P A) (Q R : S -> result X A -> Prop) s : (forall s r, Q s r -> R s r) -> wp m Q s -> wp m R s.
Proof.
  intros H. revert s. induction m as [a|e|c k IH]; cbn; intros s; [apply H|apply H|]. intros [Hm Hk]. split; [done|].
  intros r. by apply IH.
Qed.

Lemma wp_bind {A B} (m : P A) (f : A -> P B) Q s :
  wp m (fun s r => match r with Ok a => wp (f a) Q s | Throw e => Q s (Throw e) end) s -> wp (m ≫= f) Q s.
Proof.
  revert s. induction m as [a|e|c k IH]; intros s; [done|done|]. rewrite bind_Do. cbn. intros [Hm Hk]. split; [done|].
  intros r. by apply IH.
Qed.

Lemma wp_attempt {A} (m : P A) Q s : wp m (fun s r => Q s (Ok r)) s -> wp (attempt m) Q s.
Proof.
  revert s. induction m as [a|e|c k IH]; cbn; intros s; [done|done|]. intros [Hm Hk]. split; [done|]. intros r. by apply IH.
Qed.

Lemma wp_try {A} (m : P A) h Q s :
  wp m (fun s r => match r with Ok a => Q s (Ok a) | Throw e => wp (h e) Q s end) s -> wp (tryCatch m h) Q s.
Proof. intros H. apply wp_bind, wp_attempt. eapply wp_mono; [|exact H]. by intros s' [a|e]. Qed.

Lemma wp_call c (Q : S -> result X (reply c) -> Prop) s : may s c -> (forall r, Q (next s (existT c r)) (Ok r)) -> wp (call c) Q s.
Proof. done. Qed.

Lemma wp_call_bind {A} c (f : reply c -> P A) Q s :
  may s c -> (forall r, wp (f r) Q (next s (existT c r))) -> wp (call c ≫= f) Q s.
Proof. done. Qed.

Lemma wp_of_result {E A} (f : E -> X) (r : result E A) Q s :
  (forall a, r = Ok a -> Q s (Ok a)) -> (forall e, r = Throw e -> Q s (Throw (f e))) -> wp (of_result f r) Q s.
Proof. destruct r; cbn; auto. Qed.

Lemma wp_failIf c (e : X) (Q : S -> result X unit -> Prop) s :
  (c = false -> Q s (Ok tt)) -> (c = true -> Q s (Throw e)) -> wp (failIf c e) Q s.
Proof. destruct c; cbn; auto. Qed.

(** What the observer knows after a list of calls. *)
Definition observed (s : S) (h : list Event) : S := fold_left next h s.

(** Every call of a list is made when it may be. *)
Fixpoint lawful (s : S) (h : list Event) : Prop :=
  match h with [] => True | e :: rest => may s (projT1 e) /\ lawful (next s e) rest end.

Lemma observed_app s h h' : observed s (app h h') = observed (observed s h) h'.
Proof. apply fold_left_app. Qed.
Lemma lawful_app s h h' : lawful s (app h h') <-> lawful s h /\ lawful (observed s h) h'.
Proof. revert s. induction h as [|e h IH]; intros s; cbn; [tauto|]. rewrite IH. unfold observed. cbn. tauto. Qed.

(** A call of a lawful list is made when it may be. *)
Lemma lawful_at s h h' e : lawful s (app h (e :: h')) -> may (observed s h) (projT1 e).
Proof. rewrite lawful_app. cbn. tauto. Qed.

(** Runs of a verified program are lawful in every environment, and end as it says. *)
Lemma wp_run {A} (m : P A) (Q : S -> result X A -> Prop) s env h :
  wp m Q s -> exists h', fst (run env h m) = app h h' /\ lawful s h' /\ Q (observed s h') (snd (run env h m)).
Proof.
  revert s h. induction m as [a|e|c k IH]; cbn [run wp fst snd]; intros s h H; [exists []; by rewrite app_nil_r..|].
  destruct H as [Hm Hk]. destruct (IH _ _ (app h [existT c (env h c)]) (Hk (env h c))) as (h' & E & Hl & Hq).
  exists (existT c (env h c) :: h'). rewrite E, <- app_assoc. by split_and!.
Qed.
End Logic.

(** The number of calls of a kind in a list. *)
Definition calls (p : C -> bool) (h : list Event) : nat := length (List.filter (fun e => p (projT1 e)) h).

Lemma call_of_kind p h : calls p h <> 0 -> exists h1 c r h2, h = app h1 (existT c r :: h2) /\ p c = true.
Proof.
  induction h as [|[c r] h IH]; [done|]. unfold calls in *. cbn [List.filter projT1]. destruct (p c) eqn:Hc.
  - intros _. by exists [], c, r, h.
  - intros H. destruct (IH H) as (h1 & c' & r' & h2 & -> & Hp). by exists (existT c r :: h1), c', r', h2.
Qed.
End Programs.
Arguments Environment {C} reply.
Arguments Event {C} reply.
