(* ===== verification/Engine.v ===== *)
(** * The trading engine (packages/trading-engine/src/engine.ts, and the waiting methods of account-risk.ts)

    The facade through which everything that reaches an exchange goes: it prepares plans,
    validates them again, claims quota, asks for confirmation, submits once and settles what
    came of it, and it arbitrates cancellations and account settings.  The asynchronous methods
    are programs over the calls of their environment. *)

From Stdlib Require Import ZArith Lia Bool Ascii Floats.
From stdpp Require Import base strings option list.
From S2P Require Import Prelude Effects JsNumber JsObject JsDate JsValue JsText AccountRisk RiskState RiskLedger Execution ExecutionJournal.
From S2P Require Import Capabilities ExecutionRecovery Positions OrderPlan OrderPreflight AccountFacts AccountGuard.
Import AccountRisk.

#[local] Set Warnings "-inexact-float".

Local Open Scope float_scope.

(** ** Errors *)

(** What a client may throw; [None] as a cause is an error without one. *)
Inductive JsError :=
  | StatusUnknown (errors : list JsError)
  | SubmissionRejected (cause : option JsError)
  | AggregateError (errors : list JsError) (cause : option JsError)
  | OtherError (cause : option JsError)
  | NotAnError.

Fixpoint isSubmissionStatusUnknownError (e : JsError) : bool :=
  let caused cause := match cause with Some c => isSubmissionStatusUnknownError c | None => false end in
  match e with
  | StatusUnknown _ => true
  | AggregateError errors cause => existsb isSubmissionStatusUnknownError errors || caused cause
  | SubmissionRejected cause | OtherError cause => caused cause
  | NotAnError => false
  end.

Definition is_rejection (e : JsError) : bool := match e with SubmissionRejected _ => true | _ => false end.

(** [PreparedPlanError] *)
Inductive PlanRefusal :=
  | PlanUnknown | PlanSubmitted | PlanInFlight | EvidenceMoved | NotionalIncreased | EvidenceKeepsMoving | PlanExpired
  | QuotaRefused (why : RiskState.Refusal).

Inductive RecoveryReason := StaleSettlement | OutcomeNotPersisted | StatusIsUnknown | RejectionNotPersisted | ResponseNotSettled.

Inductive EngineError :=
  | PlanRejected (why : PlanRefusal)
  | PlanningFailed (e : PlanError)
  | OperationCancelled
  | CancelledByUser
  | NotConfigured
  | EngineReplaced
  | ReplacementRefused
  | ConfirmationThrew
  | ConfirmationRequired
  | ReferenceThrew
  | ReferenceAsynchronous
  | StoreFailed (e : JournalError)
  | LedgerFailed (e : RiskError)
  | PreflightFailed (e : PreflightError)
  | GuardRefused (e : GuardError)
  | SpotReductionExceeds
  | ReductionMisfits
  | ReduceOnlyRequired
  | ClientThrew
  | SubmissionFailed (e : JsError)
  | RecoveryError (executionId : string) (why : RecoveryReason)
  | Combined (first second : EngineError)
  | ReconcileFirst
  | LeverageExceeds
  | ExposureUnprojected
  | AccountNotAllowed (reasons : list string)
  | MultiAssetsProhibited
  | CancellationIdentityRequired
  | CancellationStripsProtection (ids : list string)
  | ExecutionNotFound
  | ExecutionUnresolved
  | LookupIsUnsupported
  | EvidenceFailed (e : EvidenceProblem)
  | ConfigurationRefused.

(** ** Plans and policies *)

(** The identity of a prepared plan, which is a frozen object. *)
Definition Plan : Type := nat.

Inductive PreparedPlan := AnOrder (plan : PreparedOrder) | AnOco (plan : PreparedOco).

Record PreparedPlanConfirmation := {
  cf_summary : string;
  cf_referencePrice : number;
  cf_amount : number;
  cf_notional : number;
  cf_riskNotional : number;
  cf_warnings : list string;
  cf_requote : bool
}.

(** [Pick<OrderConfirmationEvidence, ...>]: the figures without the price step. *)
Definition picked (referencePrice amount notional riskNotional : number) : OrderConfirmationEvidence :=
  {| ev_referencePrice := referencePrice; ev_amount := amount; ev_notional := notional; ev_riskNotional := riskNotional; ev_priceStep := 0 |}.
Definition confirmed_evidence (c : PreparedPlanConfirmation) : OrderConfirmationEvidence :=
  picked (cf_referencePrice c) (cf_amount c) (cf_notional c) (cf_riskNotional c).

(** Callbacks are given or not; what they answer is their call's reply. *)
Record TradingEngineSubmissionPolicy := {
  pl_intentId : option string;
  pl_reference : option ExecutionReference;
  pl_validates : bool;
  pl_timeoutMs : option number;
  pl_protectionStopPrice : option number;
  pl_replacementIds : option (list string);
  pl_confirms : bool;
  pl_allowUnconfirmedLive : option bool;
  pl_classifies : bool
}.

(** What is sent to the exchange. *)
Inductive Submission :=
  | SendOrder (input : PlaceOrderInput)
  | SendReplacement (input : PlaceOrderInput) (replacementIds : list string)
  | SendOco (input : PlaceOcoOrderInput).

(** ** Calls *)

(** The transactions and reads of the shared store. *)
Inductive StoreCall :=
  | LoadGuard
  | ObserveAccount (revision : Z) (snapshot : AccountSnapshot) (now : number)
  | BlockAccount (reason : string)
  | ClaimMutation (revision : Z) (symbol : string) (kind : AccountRiskMutationKind) (intentId : option string)
  | FinishMutation (id : string)
  | ListRecords
  | LoadAdmission
  | LoadMaintenance
  | AssertExposure (exceptExecutionId : option string)
  | PrepareExecution (intent : ExecutionIntent) (notional : number) (countTowards : bool) (options : PrepareOptions)
  | BeginExecution (id : string) (riskRevision : option Z)
  | SettleExecution (id : string) (outcome : SettlementOutcome) (notional : number) (status : ExecutionStatus)
      (evidence : option ExecutionEvidence) (revision : option Z)
  | MarkUnknown (id : string) (issue : ExecutionIssue)
  | UpdateEvidence (id : string) (revision : Z) (evidence : ExecutionEvidence)
  | ChangeConfiguration (action : string).

Definition store_reply (c : StoreCall) : Type :=
  match c with
  | LoadGuard => option AccountRiskState
  | ObserveAccount _ _ _ => AccountRiskAssessment
  | ClaimMutation _ _ _ _ => string
  | ListRecords => list ExecutionRecord
  | LoadAdmission => AdmissionStatus
  | LoadMaintenance => option ExecutionMaintenance
  | PrepareExecution _ _ _ _ | BeginExecution _ _ => ExecutionRecord
  | SettleExecution _ _ _ _ _ _ => bool
  | _ => unit
  end.

(** What the market answers a preflight, which asks for each at most once. *)
Record MarketAnswers := {
  ma_market : string -> option MarketInfo;
  ma_ticker : string -> option Ticker;
  ma_balances : option (list Balance);
  ma_positions : option (list Position);
  ma_leverage : string -> option number;
  ma_feeRate : option number
}.

Inductive Call :=
  | OnStore (c : StoreCall)
  (* the fields of the engine *)
  | KeptPlan (plan : Plan)
  | KeepPlan (prepared : PreparedPlan) (preparedAt : number)
  | PreparedAt (plan : Plan)
  | HasConsumed (plan : Plan)
  | HasInFlight (plan : Plan)
  | AddInFlight (plan : Plan)
  | DropInFlight (plan : Plan)
  | AddConsumed (plan : Plan)
  | SubmissionsRetired
  (* what else answers at once *)
  | Now
  | SystemTime
  | Aborted
  | RandomUUID
  | QuotaCheck (symbol : string) (notional : number) (countTowardsDailyLimit : bool)
  | ValidateReference
  | ClassifyFailure (e : JsError)
  | Issue (s : Submission)
  (* what is awaited *)
  | AskPlanning
  | AskMarket
  | AskBalances
  | AskPositions
  | AskSnapshot
  | AskOpening (input : PlaceOrderInput)
  | AskOpenOrders (symbol : string)
  | AskOrder (id symbol : string)
  | AskOrders (ids : list string) (symbol : string)
  | AskOrderList (id : string)
  | AskRiskSettings (symbol : string)
  | LookUp (intent : ExecutionIntent)
  | Confirm (c : PreparedPlanConfirmation)
  | Outcome
  | ClientCancel (id symbol : string)
  | ClientCancelList (id symbol : string)
  | ClientLeverage (symbol : string) (leverage : number)
  | ClientMarginMode (symbol : string) (marginType : MarginType)
  | ClientMultiAssets (enabled : bool).

(** [None] is a call that throws. *)
Definition reply (c : Call) : Type :=
  match c with
  | OnStore c => result JournalError (store_reply c)
  | KeptPlan _ => option PreparedPlan
  | KeepPlan _ _ => Plan
  | PreparedAt _ => option number
  | HasConsumed _ | HasInFlight _ | SubmissionsRetired | Aborted => bool
  | AddInFlight _ | DropInFlight _ | AddConsumed _ | Issue _ => unit
  | Now => number
  | SystemTime | RandomUUID => string
  | QuotaCheck _ _ _ => result RiskError (option RiskState.Refusal)
  | ValidateReference | ClassifyFailure _ | Confirm _ => option bool
  | AskPlanning => MarketDataClient
  | AskMarket => MarketAnswers
  | AskBalances => option (list Balance)
  | AskPositions => option (list Position)
  | AskSnapshot => Optional AccountSnapshot
  | AskOpening _ => OpeningAnswers
  | AskOpenOrders _ | AskOrders _ _ | AskOrderList _ => option (list Order)
  | AskOrder _ _ => option Order
  | AskRiskSettings _ => Optional (number * MarginType)
  | LookUp _ | Outcome => result JsError PlaceResult
  | ClientCancel _ _ | ClientCancelList _ _ | ClientLeverage _ _ | ClientMarginMode _ _ | ClientMultiAssets _ => bool
  end.

(** The calls at which other work of the process may run. *)
Definition awaited (c : Call) : bool :=
  match c with
  | AskPlanning | AskMarket | AskBalances | AskPositions | AskSnapshot | AskOpening _ | AskOpenOrders _ | AskOrder _ _ | AskOrders _ _
  | AskOrderList _ | AskRiskSettings _ | LookUp _ | Confirm _ | Outcome | ClientCancel _ _ | ClientCancelList _ _ | ClientLeverage _ _
  | ClientMarginMode _ _ | ClientMultiAssets _ => true
  | _ => false
  end.

Abbreviation P := (Prog reply EngineError).

Section Store.
Variable sha256 : string -> string.
Context {W : Type} `{ExecutionStore W}.

(** A store call of the engine that owns this journal, with what it draws. *)
Definition transaction (J : Journal) (d : Draws) (c : StoreCall) : ST W JournalError (store_reply c) :=
  let G := {| gd_scope := jn_scope J |} in
  match c with
  | LoadGuard => AccountGuard.state sha256 G
  | ObserveAccount revision snapshot now => AccountGuard.observe sha256 G revision snapshot now
  | BlockAccount reason => AccountGuard.block sha256 G reason
  | ClaimMutation revision symbol kind intentId => AccountGuard.claim sha256 G revision symbol kind (default (d_id d) intentId)
  | FinishMutation id => finishMutation sha256 G id
  | ListRecords => list_records
  | LoadAdmission => getAdmissionStatus J
  | LoadMaintenance => getMaintenance
  | AssertExposure id => reads (fun w => s ← exec_load w; fst (risk (assertNewExposureAllowed id) s))
  | PrepareExecution intent notional count options => prepare sha256 J d intent notional count options
  | BeginExecution id riskRevision => begin_ sha256 J d id riskRevision
  | SettleExecution id outcome notional status evidence revision => settle sha256 J d id outcome notional status evidence revision
  | MarkUnknown id issue => unknown J d id issue None
  | UpdateEvidence id revision evidence => updateEvidence J d id revision evidence
  | ChangeConfiguration action => recordConfigurationChange J d action
  end.
End Store.

(** ** The engine *)

Record Engine := {
  en_mode : TradingMode;
  (** [exchangeClient.id] *)
  en_exchangeId : string;
  en_config : OrderPlanningConfig;
  (** the scope of the journal, which exists exactly when execution is configured *)
  en_scope : option ExecutionScope;
  (** the client has [replaceProtectiveOrders] *)
  en_replaces : bool
}.

Definition PREPARED_PLAN_TTL_MS : number := 60000.
Definition PREPARED_PLAN_MAX_CONFIRMATIONS : nat := 4.

Section Engine.
Variable sha256 : string -> string.
Variables toUpperCase toLowerCase : string -> string.
Variable pow : number -> number -> number.
Variable E : Engine.

Definition quoteCurrency : string := pl_quoteCurrency (en_config E).
Definition configured : bool := match en_scope E with Some _ => true | None => false end.
(** The guard of the account, where there is one. *)
Definition with_guard {A} (k : Guard -> P A) : P A := match en_scope E with Some s => k {| gd_scope := s |} | None => Fail NotConfigured end.

Definition ask (c : Call) : P (reply c) := call c.
Definition store (c : StoreCall) : P (store_reply c) := r ← ask (OnStore c); of_result StoreFailed r.
Definition reject (c : bool) (e : EngineError) : P unit := failIf c e.
Definition refuse_if (c : bool) (e : GuardError) : P unit := reject c (GuardRefused e).
(** An awaited call of the client that may throw. *)
Definition answered {A} (o : option A) : P A := match o with Some a => Ret a | None => Fail ClientThrew end.
Definition client_does (c : Call) (ok : reply c -> bool) : P unit := r ← ask c; reject (negb (ok r)) ClientThrew.

(** *** The account guard *)

(** [this.accountRisk?.state()] *)
Definition guard_state : P (option AccountRiskState) := if configured then store LoadGuard else Ret None.
(** [this.state()!] *)
Definition guard_state_ : P AccountRiskState :=
  s ← store LoadGuard; match s with Some a => Ret a | None => Fail (GuardRefused TypeErrorThrown) end.

Definition ask_snapshot : P AccountSnapshot :=
  r ← (ask AskSnapshot : P (Optional AccountSnapshot));
  match r with Lacking => Fail (GuardRefused FactsUnavailable) | Failing => Fail ClientThrew | Answer s => Ret s end.

Record Inspection := { is_snapshot : AccountSnapshot; is_assessment : AccountRiskAssessment; is_revision : Z }.

(** The reading of the clock inside the transaction is made before it. *)
Definition inspect (G : Guard) : P Inspection :=
  s ← store LoadGuard;
  match s with
  | None => Fail (GuardRefused LimitsNotConfigured)
  | Some a =>
      snapshot ← tryCatch
        (snapshot ← ask_snapshot;
         facts ← of_result GuardRefused (accountRiskFacts snapshot (mode G));
         now ← ask Now;
         _ ← of_result GuardRefused (assess (ar_limits a) facts (ar_memory a) now);
         Ret snapshot)
        (fun error => _ ← store (BlockAccount "account-observation-unavailable"); Fail error);
      now ← ask Now;
      assessment ← store (ObserveAccount (ar_revision a) snapshot now);
      Ret {| is_snapshot := snapshot; is_assessment := assessment; is_revision := ar_revision a |}
  end.

Record AccountPreflight := { ap_revision : Z; ap_assessment : AccountRiskAssessment; ap_notional : number }.

(** The clock is read before the decision that uses it. *)
Definition guard_preflight (G : Guard) (input : PlaceOrderInput) (increasing : bool) (protectionStopPrice : option number)
    (replacementIds : option (list string)) : P AccountPreflight :=
  observed ← inspect G;
  a ← guard_state_;
  let snapshot := is_snapshot observed in
  if negb increasing then
    timestamp ← ask Now;
    now ← ask Now;
    notional ← of_result GuardRefused (reduction_allowed G a (is_assessment observed) snapshot input replacementIds timestamp now);
    Ret {| ap_revision := is_revision observed; ap_assessment := is_assessment observed; ap_notional := notional |}
  else
    _ ← refuse_if (negb (a_allowed (is_assessment observed))) (AccountRiskRejected (a_reasons (is_assessment observed)));
    answers ← ask (AskOpening input);
    priceAt ← ask Now;
    now ← ask Now;
    p ← of_result GuardRefused (opening_allowed G a (is_assessment observed) snapshot input protectionStopPrice answers priceAt now);
    Ret {| ap_revision := is_revision observed; ap_assessment := fst p; ap_notional := snd p |}.

(** The limits of one read of the store with the memory of another. *)
Definition limits_and_memory (limits memory : AccountRiskState) : AccountRiskState :=
  {| ar_limits := ar_limits limits; ar_memory := ar_memory memory; ar_blockedReasons := ar_blockedReasons memory;
     ar_revision := ar_revision memory; ar_mutation := ar_mutation memory |}.

(** The reads of the store and of the clock are made before the decision that uses them. *)
Definition checkCancellation (G : Guard) (ids : list string) (symbol : string) : P (option Z) :=
  s ← store LoadGuard;
  match s with
  | None => Ret None
  | Some _ =>
      observed ← inspect G;
      let snapshot := is_snapshot observed in
      _ ← refuse_if (unidentified snapshot ids symbol) CancellationIdentity;
      limits ← guard_state_;
      memory ← guard_state_;
      now ← ask Now;
      limits' ← guard_state_;
      memory' ← guard_state_;
      later ← ask Now;
      _ ← of_result GuardRefused
            (cancellation_allowed G (limits_and_memory limits memory) (limits_and_memory limits' memory') snapshot ids symbol now later);
      Ret (Some (is_revision observed))
  end.

Definition reconcileCurrentMutation : P unit :=
  s ← store LoadGuard;
  match s with
  | Some a =>
      match ar_mutation a with
      | None => Ret tt
      | Some m =>
          match mut_kind m with
          | MutCancel ids =>
              r ← ask (AskOrders ids (mut_symbol m));
              orders ← answered (r : option (list Order));
              if mutation_resolved m orders (0, Cross) then store (FinishMutation (mut_id m)) else Ret tt
          | _ =>
              r ← (ask (AskRiskSettings (mut_symbol m)) : P (Optional (number * MarginType)));
              match r with
              | Lacking => Ret tt
              | Failing => Fail ClientThrew
              | Answer settings => if mutation_resolved m [] settings then store (FinishMutation (mut_id m)) else Ret tt
              end
          end
      end
  | None => Ret tt
  end.

(** *** Preparation *)

Definition planning_context (exchange : MarketDataClient) : OrderPlanningContext :=
  {| ct_config := en_config E; ct_mode := en_mode E; ct_exchange := exchange |}.

Definition keep (prepared : PreparedPlan) : P Plan := at_ ← ask Now; ask (KeepPlan prepared at_).

Definition prepareOrder (side : OrderSide) (intent : OrderIntent) : P Plan :=
  exchange ← ask AskPlanning;
  plan ← of_result PlanningFailed (OrderPlan.prepareOrder toUpperCase toLowerCase pow side intent (planning_context exchange));
  keep (AnOrder plan).

Definition prepareOcoOrder (intent : OrderPlan.OcoIntent) : P Plan :=
  exchange ← ask AskPlanning;
  plan ← of_result PlanningFailed (OrderPlan.prepareOcoOrder toUpperCase toLowerCase intent (planning_context exchange));
  keep (AnOco plan).

(** *** Preflights *)

(** What the orders that are replaced hold of the asset, once for each group. *)
Definition released_by (ids : list string) (s : AccountSnapshot) : number :=
  fold_left (fun sum o => sum + o_remaining o) (one_per_group [] (List.filter (listed ids) (sn_orders s))) 0.
Definition with_released (asset : string) (released : number) (balances : list Balance) : list Balance :=
  map (fun b => if String.eqb (ba_asset b) asset
                then {| ba_asset := ba_asset b; ba_free := ba_free b + released; ba_used := ba_used b; ba_total := ba_total b;
                        ba_quoteValue := ba_quoteValue b |}
                else b) balances.

(** The [getBalances] of a preflight: a failure in it is the preflight's missing balances. *)
Definition preflight_balances (input : PlaceOrderInput) (replacementIds : option (list string)) (balances : option (list Balance)) :
    P (option (list Balance)) :=
  match balances, replacementIds with
  | Some l, Some ids =>
      if is_futures (in_symbol input) then Ret balances
      else
        r ← attempt ask_snapshot;
        match r with
        | Ok s => Ret (Some (with_released (first_asset (in_symbol input)) (released_by ids s) l))
        | Throw _ => Ret None
        end
  | _, _ => Ret balances
  end.

Definition dependencies (m : MarketAnswers) (balances : option (list Balance)) (feeRate : option number) : PreflightDependencies :=
  {| df_market := ma_market m; df_balances := balances; df_ticker := Some (ma_ticker m); df_positions := ma_positions m;
     df_quoteCurrency := quoteCurrency; df_marketType := pl_marketType (en_config E);
     df_leverage := fun symbol => default 1 (ma_leverage m symbol); df_feeRate := feeRate |}.

(** The position an order reduces, by its side. *)
Definition reducible (input : PlaceOrderInput) (p : Position) : bool :=
  String.eqb (po_symbol p) (in_symbol input)
  && match in_side input with
     | Buy => bool_decide (po_positionSide p = Some ShortSide) || (po_amount p <? 0)
     | Sell => negb (bool_decide (po_positionSide p = Some ShortSide)) && (0 <? po_amount p)
     end
  && (negb (bool_decide (pl_positionMode (en_config E) = Hedge)) || bool_decide (po_positionSide p = in_positionSide input)).

Definition spot_reduction_ok (input : PlaceOrderInput) (balances : list Balance) : bool :=
  match find_balance (first_asset (in_symbol input)) balances with
  | Some held => bool_decide (in_side input = Sell) && isFinite (ba_free held) && negb (lacks (in_amount input) (ba_free held))
  | None => false
  end.

Definition futures_reduction_ok (input : PlaceOrderInput) (positions : list Position) : bool :=
  match List.filter (reducible input) positions with
  | [p] => negb (Math_abs (po_amount p) * (1 + 1e-12) <? in_amount input)
  | _ => false
  end.

Definition reduce_only_missing (input : PlaceOrderInput) : bool :=
  bool_decide (pl_positionMode (en_config E) = OneWay) && negb (bool_decide (in_reduceOnly input = Some true))
  && negb (bool_decide (in_closePosition input = Some true)).

Definition verifyReduction (input : PlaceOrderInput) : P unit :=
  if negb (is_futures (in_symbol input)) then
    r ← ask AskBalances;
    balances ← answered r;
    reject (negb (spot_reduction_ok input balances)) SpotReductionExceeds
  else
    r ← ask AskPositions;
    positions ← answered r;
    _ ← reject (negb (futures_reduction_ok input positions)) ReductionMisfits;
    reject (reduce_only_missing input) ReduceOnlyRequired.

Definition preflightPreparedOrder (prepared : PreparedOrder) (replacementIds : option (list string)) : P OrderPreflightResult :=
  let input := pd_input prepared in
  m ← ask AskMarket;
  balances ← preflight_balances input replacementIds (ma_balances m);
  result ← of_result PreflightFailed (preflightOrder toUpperCase toLowerCase pow prepared (dependencies m balances (ma_feeRate m)));
  _ ← (if negb (pd_countTowardsDailyLimit prepared) && match replacementIds with None => true | Some _ => false end
       then verifyReduction input else Ret tt);
  Ret result.

(** An OCO order as the stop order it stands for. *)
Definition as_stop (input : PlaceOcoOrderInput) : PlaceOrderInput :=
  {| in_symbol := oco_symbol input; in_side := oco_side input; in_type := StopMarket; in_amount := oco_amount input; in_price := None;
     in_reduceOnly := None; in_positionSide := None; in_stopPrice := Some (oco_stopLossPrice input); in_trailingPercent := None;
     in_closePosition := None; in_clientOrderId := None |}.

Definition preflightPreparedOco (prepared : PreparedOco) : P OrderPreflightResult :=
  m ← ask AskMarket;
  result ← of_result PreflightFailed (preflightOco toUpperCase toLowerCase pow prepared (dependencies m (ma_balances m) None));
  _ ← (if negb (px_countTowardsDailyLimit prepared) then verifyReduction (as_stop (px_input prepared)) else Ret tt);
  Ret (po_result result).

Definition kept_order (plan : Plan) : P PreparedOrder :=
  r ← ask (KeptPlan plan); match r with Some (AnOrder o) => Ret o | _ => Fail (PlanRejected PlanUnknown) end.
Definition kept_oco (plan : Plan) : P PreparedOco :=
  r ← ask (KeptPlan plan); match r with Some (AnOco o) => Ret o | _ => Fail (PlanRejected PlanUnknown) end.

Definition check_quota (symbol : string) (notional : number) (count : bool) : P unit :=
  r ← ask (QuotaCheck symbol notional count);
  why ← of_result LedgerFailed r;
  match why with Some e => Fail (PlanRejected (QuotaRefused e)) | None => Ret tt end.

Definition previewOrder (plan : Plan) (policy : TradingEngineSubmissionPolicy) : P (OrderPreflightResult * option AccountPreflight) :=
  prepared ← kept_order plan;
  let symbol := in_symbol (pd_input prepared) in
  _ ← check_quota symbol (pd_notional prepared) (pd_countTowardsDailyLimit prepared);
  execution ← preflightPreparedOrder prepared (pl_replacementIds policy);
  s ← guard_state;
  account ← match s with
            | Some _ => a ← with_guard (fun G => guard_preflight G (pd_input prepared) (pd_countTowardsDailyLimit prepared)
                               (pl_protectionStopPrice policy) (pl_replacementIds policy)); Ret (Some a)
            | None => Ret None
            end;
  _ ← match account with
      | Some a => if pd_countTowardsDailyLimit prepared
                  then check_quota symbol (Math_max (pd_notional prepared) (ap_notional a)) true else Ret tt
      | None => Ret tt
      end;
  Ret (execution, account).

(** *** Submission *)

Record SubmissionRequest := {
  rq_plan : Plan;
  rq_notional : number;
  rq_countTowardsDailyLimit : bool;
  rq_preparedEvidence : OrderConfirmationEvidence;
  rq_summarize : OrderConfirmationEvidence -> list string -> string;
  rq_intent : ExecutionIntent;
  rq_submission : Submission;
  rq_preflight : P OrderPreflightResult;
  rq_policy : TradingEngineSubmissionPolicy
}.

Definition withConfirmationWarnings (summary : string) (warnings : list string) : string :=
  match warnings with
  | [] => summary
  | _ => String.concat "" [summary; String (ascii_of_nat 10) "Warnings: "; String.concat "; " warnings]
  end%string.

Definition toPreparedPlanConfirmation (preflight : OrderPreflightResult) (summarize : OrderConfirmationEvidence -> list string -> string)
    (requote : bool) : PreparedPlanConfirmation :=
  let evidence := pr_evidence preflight in
  {| cf_summary := summarize evidence (pr_warnings preflight); cf_referencePrice := ev_referencePrice evidence;
     cf_amount := ev_amount evidence; cf_notional := ev_notional evidence; cf_riskNotional := ev_riskNotional evidence;
     cf_warnings := pr_warnings preflight; cf_requote := requote |}.

Definition confirmation_changed (c : PreparedPlanConfirmation) (next : OrderPreflightResult) : bool :=
  confirmationSnapshotChanged (cf_warnings c) (confirmed_evidence c) next.

Definition throwIfAborted : P unit := a ← ask Aborted; reject a OperationCancelled.

Definition assertPreparedPlanFresh (plan : Plan) : P unit :=
  preparedAt ← ask (PreparedAt plan);
  match preparedAt with
  | None => Fail (PlanRejected PlanExpired)
  | Some at_ =>
      now ← ask Now;
      let age := now - at_ in
      reject (negb (isFinite age) || (age <? 0) || (PREPARED_PLAN_TTL_MS <? age)) (PlanRejected PlanExpired)
  end.

Definition intent_order (intent : ExecutionIntent) : PlaceOrderInput :=
  match intent with Execution.OrderIntent input _ => input | Execution.OcoIntent input => as_stop input end.

Definition preflightAccountRisk (intent : ExecutionIntent) (count : bool) (policy : TradingEngineSubmissionPolicy) : P (option AccountPreflight) :=
  s ← guard_state;
  match s with
  | None => Ret None
  | Some _ =>
      a ← with_guard (fun G => guard_preflight G (intent_order intent) count (pl_protectionStopPrice policy) (pl_replacementIds policy));
      Ret (Some a)
  end.

Definition revalidatePreparedPlan (rq : SubmissionRequest) : P (OrderPreflightResult * option AccountPreflight) :=
  _ ← throwIfAborted;
  _ ← assertPreparedPlanFresh (rq_plan rq);
  executionPreflight ← rq_preflight rq;
  _ ← throwIfAborted;
  account ← preflightAccountRisk (rq_intent rq) (rq_countTowardsDailyLimit rq) (rq_policy rq);
  _ ← throwIfAborted;
  _ ← assertPreparedPlanFresh (rq_plan rq);
  Ret (executionPreflight, account).

(** The notional the journal claims. *)
Definition claimed_notional (rq : SubmissionRequest) (preflight : OrderPreflightResult) (account : option AccountPreflight) : number :=
  if rq_countTowardsDailyLimit rq
  then Math_max (Math_max (rq_notional rq) (ev_notional (pr_evidence preflight))) (default 0 (option_map ap_notional account))
  else rq_notional rq.

Definition prepare_call (rq : SubmissionRequest) (preflight : OrderPreflightResult) (account : option AccountPreflight) : StoreCall :=
  PrepareExecution (rq_intent rq) (claimed_notional rq preflight account) (rq_countTowardsDailyLimit rq)
    {| po_intentId := pl_intentId (rq_policy rq); po_reference := pl_reference (rq_policy rq);
       po_riskRevision := option_map ap_revision account; po_protectionStopPrice := pl_protectionStopPrice (rq_policy rq) |}.

(** The first [try] block: the plan is validated and its execution prepared. *)
Definition prepare_execution (rq : SubmissionRequest) : P (OrderPreflightResult * ExecutionRecord * option Z) :=
  initial ← revalidatePreparedPlan rq;
  retired ← ask SubmissionsRetired;
  _ ← reject retired EngineReplaced;
  _ ← reject (negb (pl_confirms (rq_policy rq)) && marketEvidenceChanged (rq_preparedEvidence rq) (pr_evidence (fst initial)))
        (PlanRejected EvidenceMoved);
  execution ← (store (prepare_call rq (fst initial) (snd initial)) : P ExecutionRecord);
  s ← guard_state;
  Ret (fst initial, execution, option_map ar_revision s).

Definition releaseAndThrow {A} (plan : Plan) (execution : ExecutionRecord) (original : EngineError) : P A :=
  released ← attempt
    (ok ← store (SettleExecution (ex_id execution) Release 0 DefiniteRejection None (Some (ex_revision execution)));
     reject (negb ok) (RecoveryError (ex_id execution) StaleSettlement));
  match released with
  | Ok _ => _ ← ask (DropInFlight plan); Fail original
  | Throw releaseError =>
      _ ← ask (AddConsumed plan);
      _ ← ask (DropInFlight plan);
      Fail (Combined original releaseError)
  end.

(** A fresh preflight after a confirmation. *)
Definition reconfirm (rq : SubmissionRequest) (execution : ExecutionRecord) : P OrderPreflightResult :=
  current ← revalidatePreparedPlan rq;
  _ ← reject (rq_countTowardsDailyLimit rq
              && match snd current with Some a => Execution.ex_notional execution <? ap_notional a | None => false end)
        (PlanRejected NotionalIncreased);
  Ret (fst current).

(** The confirmation loop; [prompts] are those left. *)
Fixpoint confirm_plan (prompts : nat) (rq : SubmissionRequest) (execution : ExecutionRecord) (confirmation : PreparedPlanConfirmation) : P unit :=
  match prompts with
  | O => releaseAndThrow (rq_plan rq) execution (PlanRejected EvidenceKeepsMoving)
  | S prompts =>
      confirmed ← ask (Confirm confirmation);
      match confirmed with
      | None => releaseAndThrow (rq_plan rq) execution ConfirmationThrew
      | Some false => releaseAndThrow (rq_plan rq) execution CancelledByUser
      | Some true =>
          r ← attempt (reconfirm rq execution);
          match r with
          | Throw error => releaseAndThrow (rq_plan rq) execution error
          | Ok current =>
              if negb (confirmation_changed confirmation current) then Ret tt
              else confirm_plan prompts rq execution (toPreparedPlanConfirmation current (rq_summarize rq) true)
          end
      end
  end.

Definition confirm_policy (rq : SubmissionRequest) (preflight : OrderPreflightResult) (execution : ExecutionRecord) : P unit :=
  if pl_confirms (rq_policy rq) then
    confirm_plan PREPARED_PLAN_MAX_CONFIRMATIONS rq execution (toPreparedPlanConfirmation preflight (rq_summarize rq) false)
  else if bool_decide (en_mode E = Live) && negb (bool_decide (pl_allowUnconfirmedLive (rq_policy rq) = Some true))
  then releaseAndThrow (rq_plan rq) execution ConfirmationRequired
  else Ret tt.

(** The last checks and the journal's permission. *)
Definition begin_submission (rq : SubmissionRequest) (execution : ExecutionRecord) (riskRevision : option Z) : P unit :=
  _ ← throwIfAborted;
  _ ← (if pl_validates (rq_policy rq) then
         r ← ask ValidateReference;
         match r with None => Fail ReferenceThrew | Some returned => reject returned ReferenceAsynchronous end
       else Ret tt);
  _ ← (if rq_countTowardsDailyLimit rq then store (AssertExposure (Some (ex_id execution))) else Ret tt);
  _ ← store (BeginExecution (ex_id execution) riskRevision);
  Ret tt.

Definition bad_timeout (policy : TradingEngineSubmissionPolicy) : bool :=
  match pl_timeoutMs policy with Some t => negb (isFinite t) || (t <=? 0) | None => false end.

(** A submission that takes too long is an outcome with an error, as one that fails. *)
Definition submit (rq : SubmissionRequest) : P (result JsError PlaceResult) :=
  if bad_timeout (rq_policy rq) then Ret (Throw (OtherError None))
  else
    _ ← ask (Issue (rq_submission rq));
    ask Outcome.

Definition status_unknown (policy : TradingEngineSubmissionPolicy) (e : JsError) : P bool :=
  let statusUnknown := negb (is_rejection e) || isSubmissionStatusUnknownError e in
  if pl_classifies policy && negb statusUnknown
  then r ← ask (ClassifyFailure e); Ret (default true r)
  else Ret statusUnknown.

Definition failed_submission (policy : TradingEngineSubmissionPolicy) (execution : ExecutionRecord) (e : JsError) :
    P (PlaceResult * string) :=
  let id := ex_id execution in
  statusUnknown ← status_unknown policy e;
  if (statusUnknown : bool) then
    r ← attempt (store (MarkUnknown id SubmissionUnknown));
    match r with Throw _ => Fail (RecoveryError id OutcomeNotPersisted) | Ok _ => Fail (RecoveryError id StatusIsUnknown) end
  else
    r ← attempt (store (SettleExecution id Release 0 DefiniteRejection None None));
    match r with Throw _ => Fail (RecoveryError id RejectionNotPersisted) | Ok _ => Fail (SubmissionFailed e) end.

Definition acknowledge (execution : ExecutionRecord) (answer : PlaceResult) : P bool :=
  now ← ask SystemTime;
  observation ← of_result EvidenceFailed (executionEvidence pow execution now answer FromSubmission);
  store (SettleExecution (ex_id execution) (ob_outcome observation) (ob_notional observation) Acknowledged
           (Some (ob_evidence observation)) None).

Definition settle_result (execution : ExecutionRecord) (answer : PlaceResult) : P (PlaceResult * string) :=
  r ← attempt (acknowledge execution answer);
  match r with Throw _ => Fail (RecoveryError (ex_id execution) ResponseNotSettled) | Ok _ => Ret (answer, ex_id execution) end.

(** From here on an exchange call may happen. *)
Definition submit_and_settle (rq : SubmissionRequest) (execution : ExecutionRecord) : P (PlaceResult * string) :=
  _ ← ask (DropInFlight (rq_plan rq));
  _ ← ask (AddConsumed (rq_plan rq));
  r ← submit rq;
  match r with
  | Throw e => failed_submission (rq_policy rq) execution e
  | Ok answer => settle_result execution answer
  end.

Definition submitWithReservation (rq : SubmissionRequest) : P (PlaceResult * string) :=
  let plan := rq_plan rq in
  _ ← throwIfAborted;
  _ ← reject (negb configured) NotConfigured;
  consumed ← ask (HasConsumed plan);
  _ ← reject consumed (PlanRejected PlanSubmitted);
  inFlight ← ask (HasInFlight plan);
  _ ← reject inFlight (PlanRejected PlanInFlight);
  _ ← (if rq_countTowardsDailyLimit rq then store (AssertExposure None) else Ret tt);
  _ ← ask (AddInFlight plan);
  p ← tryCatch (prepare_execution rq) (fun error => _ ← ask (DropInFlight plan); Fail error);
  let '(preflight, execution, riskRevision) := p in
  _ ← confirm_policy rq preflight execution;
  begun ← attempt (begin_submission rq execution riskRevision);
  match begun with
  | Throw error => releaseAndThrow plan execution error
  | Ok _ => submit_and_settle rq execution
  end.

(** *** Placing *)

Definition with_client_id (id : string) (i : PlaceOrderInput) : PlaceOrderInput :=
  {| in_symbol := in_symbol i; in_side := in_side i; in_type := in_type i; in_amount := in_amount i; in_price := in_price i;
     in_reduceOnly := in_reduceOnly i; in_positionSide := in_positionSide i; in_stopPrice := in_stopPrice i;
     in_trailingPercent := in_trailingPercent i; in_closePosition := in_closePosition i; in_clientOrderId := Some id |}.
Definition with_list_ids (ids : ClientIds) (i : PlaceOcoOrderInput) : PlaceOcoOrderInput :=
  {| oco_symbol := oco_symbol i; oco_side := oco_side i; oco_amount := oco_amount i; oco_stopLossPrice := oco_stopLossPrice i;
     oco_takeProfitPrice := oco_takeProfitPrice i; oco_listClientOrderId := Some (ci_listClientOrderId ids);
     oco_aboveClientOrderId := Some (ci_aboveClientOrderId ids); oco_belowClientOrderId := Some (ci_belowClientOrderId ids) |}.

Definition order_request (plan : Plan) (prepared : PreparedOrder) (ids : ClientIds) (policy : TradingEngineSubmissionPolicy) :
    SubmissionRequest :=
  let input := with_client_id (ci_clientOrderId ids) (pd_input prepared) in
  {| rq_plan := plan; rq_notional := pd_notional prepared; rq_countTowardsDailyLimit := pd_countTowardsDailyLimit prepared;
     rq_preparedEvidence := picked (pd_referencePrice prepared) (pd_amount prepared) (pd_notional prepared) (pd_notional prepared);
     rq_summarize := fun evidence warnings => withConfirmationWarnings
       (formatPreparedOrderSummary toUpperCase toLowerCase (pd_side prepared) (pd_amount prepared) (pd_input prepared)
          (pd_capabilityContext prepared) quoteCurrency (ev_notional evidence)) warnings;
     rq_intent := Execution.OrderIntent input (pl_replacementIds policy);
     rq_submission := match pl_replacementIds policy with Some l => SendReplacement input l | None => SendOrder input end;
     rq_preflight := preflightPreparedOrder prepared (pl_replacementIds policy); rq_policy := policy |}.

(** The checks of [placeOrder] before the submission. *)
Definition placing_order (plan : Plan) (policy : TradingEngineSubmissionPolicy) : P SubmissionRequest :=
  prepared ← kept_order plan;
  uuid ← ask RandomUUID;
  _ ← (match pl_replacementIds policy with
       | None => Ret tt
       | Some _ =>
           if pd_countTowardsDailyLimit prepared then Fail ReplacementRefused
           else s ← guard_state; reject (match s with None => true | Some _ => negb (en_replaces E) end) ReplacementRefused
       end);
  Ret (order_request plan prepared (executionClientIds sha256 uuid (pl_intentId policy)) policy).

Definition placeOrder (plan : Plan) (policy : TradingEngineSubmissionPolicy) : P (PlaceResult * string) :=
  rq ← placing_order plan policy; submitWithReservation rq.

Definition oco_request (plan : Plan) (prepared : PreparedOco) (ids : ClientIds) (policy : TradingEngineSubmissionPolicy) : SubmissionRequest :=
  let input := with_list_ids ids (px_input prepared) in
  {| rq_plan := plan; rq_notional := px_riskNotional prepared; rq_countTowardsDailyLimit := px_countTowardsDailyLimit prepared;
     rq_preparedEvidence := picked (px_referencePrice prepared) (oco_amount (px_input prepared)) (px_observedNotional prepared)
       (px_riskNotional prepared);
     rq_summarize := fun evidence warnings => withConfirmationWarnings
       (formatPreparedOcoSummary (px_input prepared) quoteCurrency (ev_notional evidence) (ev_riskNotional evidence)) warnings;
     rq_intent := Execution.OcoIntent input; rq_submission := SendOco input; rq_preflight := preflightPreparedOco prepared;
     rq_policy := policy |}.

Definition placing_oco (plan : Plan) (policy : TradingEngineSubmissionPolicy) : P SubmissionRequest :=
  prepared ← kept_oco plan;
  uuid ← ask RandomUUID;
  Ret (oco_request plan prepared (executionClientIds sha256 uuid (pl_intentId policy)) policy).

Definition placeOco (plan : Plan) (policy : TradingEngineSubmissionPolicy) : P (PlaceResult * string) :=
  rq ← placing_oco plan policy; submitWithReservation rq.

(** *** Account settings *)

Definition recordConfigurationChange (action : string) : P unit :=
  _ ← reject (negb configured) NotConfigured; store (ChangeConfiguration action).

(** [getExecutionStatus().unresolved] *)
Definition unresolved_executions : P (list ExecutionRecord) :=
  records ← store ListRecords;
  _ ← store LoadAdmission;
  _ ← store LoadMaintenance;
  Ret (List.filter isUnresolvedExecution records).

Definition exposed (s : AccountSnapshot) : bool :=
  match sn_positions s with [] => false | _ => true end || match sn_orders s with [] => false | _ => true end.

(** The mutation a change of settings claims when the account is guarded; [check] is the rule of the setting. *)
Definition claim_setting (symbol : string) (kind : AccountRiskMutationKind) (check : P unit) (intentId : option string) :
    P (option string) :=
  s ← guard_state;
  match s with
  | None => Ret None
  | Some _ =>
      unresolved ← unresolved_executions;
      _ ← reject (match (unresolved : list ExecutionRecord) with [] => false | _ => true end) ReconcileFirst;
      observed ← with_guard inspect;
      _ ← check;
      _ ← reject (exposed (is_snapshot observed)) ExposureUnprojected;
      _ ← reject (negb (a_allowed (is_assessment observed))) (AccountNotAllowed (a_reasons (is_assessment observed)));
      _ ← throwIfAborted;
      id ← store (ClaimMutation (is_revision observed) symbol kind intentId);
      Ret (Some id)
  end.

Definition finish (mutationId : option string) : P unit :=
  match mutationId with Some id => if String.eqb id "" then Ret tt else store (FinishMutation id) | None => Ret tt end.

Definition leverage_within (leverage : number) : P unit :=
  a ← guard_state_;
  reasons ← of_result (fun e => GuardRefused (AssessmentFailed e)) (assessLeverageSetting (ar_limits a) leverage);
  reject (match (reasons : list string) with [] => false | _ => true end) LeverageExceeds.

Definition setLeverage (symbol : string) (leverage : number) (intentId : option string) : P unit :=
  _ ← throwIfAborted;
  mutationId ← claim_setting symbol (MutLeverage leverage) (leverage_within leverage) intentId;
  _ ← recordConfigurationChange "leverage-requested";
  ok ← ask (ClientLeverage symbol leverage);
  _ ← reject (negb ok) ClientThrew;
  _ ← finish mutationId;
  recordConfigurationChange "leverage-applied".

Definition setMarginMode (symbol : string) (marginType : MarginType) (intentId : option string) : P unit :=
  _ ← throwIfAborted;
  mutationId ← claim_setting symbol (MutMargin marginType) (Ret tt) intentId;
  _ ← recordConfigurationChange "margin-mode-requested";
  ok ← ask (ClientMarginMode symbol marginType);
  _ ← reject (negb ok) ClientThrew;
  _ ← finish mutationId;
  recordConfigurationChange "margin-mode-applied".

Definition setMultiAssetsMode (enabled : bool) : P unit :=
  s ← guard_state;
  _ ← reject (match s with Some _ => true | None => false end) MultiAssetsProhibited;
  _ ← recordConfigurationChange "multi-assets-requested";
  ok ← ask (ClientMultiAssets enabled);
  _ ← reject (negb ok) ClientThrew;
  recordConfigurationChange "multi-assets-applied".

(** *** Cancellations *)

Definition protective_exits (orders : list Order) (positions : list Position) : list Order :=
  List.filter (fun o => existsb (fun p => isProtectiveExit o p (pl_positionMode (en_config E))) positions) orders.

Definition assertLiveCancellationKeepsProtection (orders : list Order) : P unit :=
  r ← ask AskPositions;
  positions ← answered r;
  let protected := protective_exits orders positions in
  reject (match protected with [] => false | _ => true end) (CancellationStripsProtection (map o_id protected)).

(** A failing lookup proves nothing about the order. *)
Definition requireLiveOpenOrder (id symbol : string) : P Order :=
  r ← ask (AskOpenOrders symbol);
  orders ← answered r;
  match find (fun o => String.eqb (o_id o) id) orders with
  | Some listed => Ret listed
  | None =>
      lookedUp ← ask (AskOrder id symbol);
      match lookedUp with
      | Some o =>
          if String.eqb (o_id o) id && String.eqb (o_symbol o) symbol && bool_decide (o_status o = OpenOrder) then Ret o
          else Fail CancellationIdentityRequired
      | None => Fail CancellationIdentityRequired
      end
  end.

Definition claim_cancellation (revision : option Z) (symbol : string) (ids : list string) (intentId : option string) : P (option string) :=
  match revision with
  | Some revision => id ← store (ClaimMutation revision symbol (MutCancel ids) intentId); Ret (Some id)
  | None => Ret None
  end.

Definition cancelOrder (id symbol : string) (intentId : option string) : P unit :=
  _ ← throwIfAborted;
  _ ← (if bool_decide (en_mode E = Live) then
         s ← guard_state;
         match s with
         | Some _ => Ret tt
         | None => o ← requireLiveOpenOrder id symbol; assertLiveCancellationKeepsProtection [o]
         end
       else Ret tt);
  revision ← (if configured then with_guard (fun G => checkCancellation G [id] symbol) else Ret None);
  _ ← throwIfAborted;
  mutationId ← claim_cancellation revision symbol [id] intentId;
  ok ← ask (ClientCancel id symbol);
  _ ← reject (negb ok) ClientThrew;
  finish mutationId.

Definition cancelOrderList (orderListId symbol : string) : P unit :=
  _ ← throwIfAborted;
  s ← guard_state;
  mutationId ← match s with
               | Some _ =>
                   r ← ask (AskOrderList orderListId);
                   orders ← answered r;
                   let ids := map o_id orders in
                   revision ← with_guard (fun G => checkCancellation G ids symbol);
                   _ ← throwIfAborted;
                   claim_cancellation revision symbol ids None
               | None =>
                   if bool_decide (en_mode E = Live) then
                     r ← ask (AskOrderList orderListId);
                     orders ← answered r;
                     _ ← reject (match orders with [] => true | _ => false end) CancellationIdentityRequired;
                     _ ← assertLiveCancellationKeepsProtection orders;
                     Ret None
                   else Ret None
               end;
  ok ← ask (ClientCancelList orderListId symbol);
  _ ← reject (negb ok) ClientThrew;
  finish mutationId.

(** *** Evidence of settled executions *)

(** Evidence of an execution is complete when no order is open or lacks a fee. *)
Definition evidence_final (e : option ExecutionEvidence) : bool :=
  match e with
  | Some e => forallb (fun o => negb (bool_decide (eo_status o = OpenOrder))
                                && match eo_feeObservation o with Some f => bool_decide (fo_completeness f = CompleteFees) | None => false end)
                (evd_orders e)
  | None => true
  end.

Definition refreshExecutionEvidence (id : string) : P unit :=
  with_guard (fun G =>
    records ← store ListRecords;
    match find (fun r => String.eqb (ex_id r) id) (records : list ExecutionRecord) with
    | None => Fail ExecutionNotFound
    | Some entry =>
        _ ← reject (negb (sameExecutionScope (ex_scope entry) (gd_scope G))) ExecutionNotFound;
        _ ← reject (isUnresolvedExecution entry) ExecutionUnresolved;
        if evidence_final (ex_evidence entry) then Ret tt
        else
          _ ← reject (negb (lookup_supported toUpperCase toLowerCase entry)) LookupIsUnsupported;
          r ← ask (LookUp (ex_intent entry));
          answer ← of_result SubmissionFailed (r : result JsError PlaceResult);
          now ← ask SystemTime;
          observation ← of_result EvidenceFailed (executionEvidence pow entry now answer FromLookup);
          store (UpdateEvidence (ex_id entry) (ex_revision entry) (ob_evidence observation))
    end).
End Engine.

(** ** Configuration *)

Record TradingEngineConfig := { te_risk : RiskConfig; te_positionMode : PositionMode }.

(** The engine with the configuration of its ledger and its journal; what the client is. *)
Record Attached := {
  at_engine : Engine;
  at_ledger : RiskConfig;
  at_journal : option Journal
}.

Definition planning_of (c : TradingEngineConfig) : OrderPlanningConfig :=
  {| pl_marketType := rc_marketType (te_risk c); pl_quoteCurrency := rc_quoteCurrency (te_risk c); pl_positionMode := te_positionMode c |}.

(** The client's mode and quote currency are those the engine was constructed with. *)
Definition setConfig (config : TradingEngineConfig) (a : Attached) : result EngineError Attached :=
  let E := at_engine a in
  _ ← throwIf (negb (bool_decide (rc_mode (te_risk config) = en_mode E))) ConfigurationRefused;
  _ ← throwIf (negb (String.eqb (rc_quoteCurrency (te_risk config)) (pl_quoteCurrency (en_config E)))) ConfigurationRefused;
  _ ← throwIf (negb (bool_decide (rc_marketType (te_risk config) = pl_marketType (en_config E)))) ConfigurationRefused;
  _ ← throwIf (negb (bool_decide (te_positionMode config = pl_positionMode (en_config E)))) ConfigurationRefused;
  ledger ← mapError LedgerFailed (RiskLedger.setConfig (at_ledger a) (te_risk config));
  Ok {| at_engine := {| en_mode := en_mode E; en_exchangeId := en_exchangeId E; en_config := planning_of config; en_scope := en_scope E;
                        en_replaces := en_replaces E |};
        at_ledger := ledger; at_journal := option_map (setJournalConfig (te_risk config)) (at_journal a) |}.

(** [execution], the journal's options. *)
Record ExecutionOptions := { eo_accountId : string; eo_durable : bool; eo_admissionGeneration : option Z }.

Section Construction.
Variable sha256 : string -> string.
Context {W : Type} `{ExecutionStore W}.

(** The ledger is constructed on the stored state. *)
Definition new_ledger (config : RiskConfig) : ST W EngineError RiskConfig :=
  reads (fun w => s ← mapError StoreFailed (exec_load w); mapError LedgerFailed (fst (newLedger config (es_risk s)))).
Definition stored {A} (m : ST W JournalError A) : ST W EngineError A := fun w => let (r, w') := m w in (mapError StoreFailed r, w').

(** [new TradingEngine(config, exchange, stateStore, clock, execution)]; [mode], [quote], [exchangeId]
    and [replaces] are the client's. *)
Definition newEngine (config : TradingEngineConfig) (mode : TradingMode) (quote exchangeId : string) (replaces : bool)
    (execution : option ExecutionOptions) : ST W EngineError Attached :=
  _ ← lift (throwIf (negb (bool_decide (rc_mode (te_risk config) = mode))) ConfigurationRefused);
  _ ← lift (throwIf (negb (String.eqb (rc_quoteCurrency (te_risk config)) quote)) ConfigurationRefused);
  ledger ← new_ledger (te_risk config);
  let engine scope := {| en_mode := mode; en_exchangeId := exchangeId; en_config := planning_of config; en_scope := scope; en_replaces := replaces |} in
  match execution with
  | None => mret {| at_engine := engine None; at_ledger := ledger; at_journal := None |}
  | Some o =>
      _ ← lift (throwIf (eo_durable o && match eo_admissionGeneration o with None => true | Some _ => false end) ConfigurationRefused);
      let scope := {| sc_accountId := eo_accountId o; sc_exchange := exchangeId; sc_mode := mode; sc_marketType := rc_marketType (te_risk config);
                      sc_quoteCurrency := rc_quoteCurrency (te_risk config); sc_positionMode := te_positionMode config |} in
      J ← stored (newJournal (te_risk config) scope (eo_admissionGeneration o));
      _ ← stored (configure sha256 {| gd_scope := jn_scope J |} (account (rc_risk (te_risk config))));
      mret {| at_engine := engine (Some (jn_scope J)); at_ledger := ledger; at_journal := Some J |}
  end.
End Construction.
