(* ===== verification/EngineSafety.v ===== *)
(** * Safety of submission

    An observer follows the calls of one submission: the plan it holds, what it was told, the
    execution it prepared and began, and how that was closed.  The programs of the engine make
    each call only when the observer permits it, in every environment. *)

From Stdlib Require Import ZArith Lia Bool Ascii Floats.
From stdpp Require Import base strings option list.
From S2P Require Import Prelude Effects JsNumber JsObject JsDate JsValue JsText AccountRisk RiskState RiskLedger Execution ExecutionJournal.
From S2P Require Import Capabilities ExecutionRecovery Positions OrderPlan OrderPreflight PlanSafety AccountFacts AccountGuard Engine.

Local Open Scope nat_scope.

(** ** The observer *)

(** What a submission knows of its plan: [Unconsumed] and [Free] were just read, [Held] is in
    flight, [Dropped] no longer, and a [Spent] plan is consumed. *)
Inductive Hold := Away | Unconsumed | Free | Held | Dropped | SpentHeld | Spent.

(** How the execution was closed. *)
Inductive Closing := Unclosed | Settled (outcome : SettlementOutcome) (applied : bool) | MarkedUnknown.

Definition Ev : Type := Event reply.

Definition next_hold (h : Hold) (e : Ev) : Hold :=
  match e with existT c r =>
    match c return reply c -> Hold with
    | HasConsumed _ => fun b => if b then Away else Unconsumed
    | HasInFlight _ => fun b => match h with Unconsumed => if b then Away else Free | _ => h end
    | AddInFlight _ => fun _ => match h with Free => Held | _ => h end
    | DropInFlight _ => fun _ => match h with Held => Dropped | SpentHeld => Spent | _ => h end
    | AddConsumed _ => fun _ => match h with Dropped => Spent | Held => SpentHeld | _ => h end
    | _ => fun _ => h
    end r
  end.

Definition next_execution (o : option ExecutionRecord) (e : Ev) : option ExecutionRecord :=
  match e with existT c r =>
    match c return reply c -> option ExecutionRecord with
    | OnStore s => match s return result JournalError (store_reply s) -> _ with
                   | PrepareExecution _ _ _ _ => fun r => match r with Ok entry => Some entry | Throw _ => o end
                   | _ => fun _ => o
                   end
    | _ => fun _ => o
    end r
  end.

Definition next_begun (b : bool) (e : Ev) : bool :=
  match e with existT c r =>
    match c return reply c -> bool with
    | OnStore s => match s return result JournalError (store_reply s) -> _ with
                   | BeginExecution _ _ => fun r => isOk r
                   | _ => fun _ => b
                   end
    | _ => fun _ => b
    end r
  end.

Definition next_closing (k : Closing) (e : Ev) : Closing :=
  match e with existT c r =>
    match c return reply c -> Closing with
    | OnStore s => match s return result JournalError (store_reply s) -> _ with
                   | SettleExecution _ outcome _ _ _ _ => fun r => match r with Ok applied => Settled outcome applied | Throw _ => k end
                   | MarkUnknown _ _ => fun r => if isOk r then MarkedUnknown else k
                   | _ => fun _ => k
                   end
    | _ => fun _ => k
    end r
  end.

Definition next_issued (n : nat) (e : Ev) : nat := match projT1 e with Issue _ => S n | _ => n end.
Definition next_prompts (n : nat) (e : Ev) : nat := match projT1 e with Confirm _ => S n | _ => n end.

(** The last confirmation that was given. *)
Definition next_confirmed (o : option PreparedPlanConfirmation) (e : Ev) : option PreparedPlanConfirmation :=
  match e with existT c r =>
    match c return reply c -> _ with
    | Confirm c => fun b => match b with Some true => Some c | _ => None end
    | _ => fun _ => o
    end r
  end.

Definition next_market (o : option MarketAnswers) (e : Ev) : option MarketAnswers :=
  match e with existT c r => match c return reply c -> _ with AskMarket => fun m => Some m | _ => fun _ => o end r end.
Definition next_preparedAt (o : option number) (e : Ev) : option number :=
  match e with existT c r => match c return reply c -> _ with PreparedAt _ => fun t => t | _ => fun _ => o end r end.
Definition next_clock (o : option number) (e : Ev) : option number :=
  match e with existT c r => match c return reply c -> _ with Now => fun t => Some t | _ => fun _ => o end r end.
Definition next_aborted (b : bool) (e : Ev) : bool :=
  match e with existT c r =>
    match c return reply c -> bool with Aborted => fun a => a | _ => fun _ => if awaited c then true else b end r end.
Definition next_validated (b : bool) (e : Ev) : bool :=
  match e with existT c r =>
    match c return reply c -> bool with
    | ValidateReference => fun o => match o with Some false => true | _ => false end
    | _ => fun _ => if awaited c then false else b
    end r
  end.

Record Watch := {
  w_hold : Hold;
  w_execution : option ExecutionRecord;
  w_begun : bool;
  w_issued : nat;
  w_prompts : nat;
  w_closing : Closing;
  w_confirmed : option PreparedPlanConfirmation;
  w_market : option MarketAnswers;
  w_preparedAt : option number;
  w_clock : option number;
  (** unless it was read since the last await, the signal may be aborted and the reference invalid *)
  w_aborted : bool;
  w_validated : bool
}.

Definition unwatched : Watch :=
  {| w_hold := Away; w_execution := None; w_begun := false; w_issued := 0; w_prompts := 0; w_closing := Unclosed; w_confirmed := None;
     w_market := None; w_preparedAt := None; w_clock := None; w_aborted := true; w_validated := false |}.

Definition watch (w : Watch) (e : Ev) : Watch :=
  {| w_hold := next_hold (w_hold w) e; w_execution := next_execution (w_execution w) e; w_begun := next_begun (w_begun w) e;
     w_issued := next_issued (w_issued w) e; w_prompts := next_prompts (w_prompts w) e; w_closing := next_closing (w_closing w) e;
     w_confirmed := next_confirmed (w_confirmed w) e; w_market := next_market (w_market w) e;
     w_preparedAt := next_preparedAt (w_preparedAt w) e; w_clock := next_clock (w_clock w) e; w_aborted := next_aborted (w_aborted w) e;
     w_validated := next_validated (w_validated w) e |}.

(** What the observer knows after these calls. *)
Definition watched (h : list Ev) : Watch := observed watch unwatched h.

(** The plan's age at the last reading of the clock is within its time to live. *)
Definition fresh (w : Watch) : Prop :=
  exists at_ now, w_preparedAt w = Some at_ /\ w_clock w = Some now /\
    isFinite (now - at_)%float = true /\ ((now - at_) <? 0)%float = false /\ (PREPARED_PLAN_TTL_MS <? (now - at_))%float = false.

(** ** When calls are made *)

(** The calls that only read, of the store, the client or the clock. *)
Definition reading (c : Call) : bool :=
  match c with
  | OnStore (LoadGuard | ObserveAccount _ _ _ | BlockAccount _ | AssertExposure _) | PreparedAt _ | SubmissionsRetired | Now | SystemTime
  | Aborted | ValidateReference | ClassifyFailure _ | AskMarket | AskBalances | AskPositions | AskSnapshot | AskOpening _ => true
  | _ => false
  end.

(** Nothing else may run between a reading of the fields and the write that relies on it. *)
Definition settled_hold (h : Hold) : bool := match h with Away | Held | Spent => true | _ => false end.

Section Protocol.
Variable E : Engine.
Variable rq : SubmissionRequest.

(** What its preflight says of the market. *)
Variable checked : MarketAnswers -> OrderPreflightResult -> Prop.

(** The last confirmation shows what the market still says; without a callback the market says
    what the plan was prepared on. *)
Definition consented (w : Watch) : Prop :=
  exists m preflight, w_market w = Some m /\ checked m preflight /\
    if pl_confirms (rq_policy rq) then exists c, w_confirmed w = Some c /\ confirmation_changed c preflight = false
    else marketEvidenceChanged (rq_preparedEvidence rq) (pr_evidence preflight) = false /\
         (en_mode E = Live -> pl_allowUnconfirmedLive (rq_policy rq) = Some true).

(** Permission to send. *)
Record permitted (w : Watch) (s : Submission) : Prop := {
  is_the_submission : s = rq_submission rq;
  is_timed : bad_timeout (rq_policy rq) = false;
  is_consumed : w_hold w = Spent;
  is_first : w_issued w = 0;
  is_begun : w_begun w = true /\ exists execution, w_execution w = Some execution;
  is_open : w_closing w = Unclosed;
  is_fresh : fresh w;
  is_wanted : w_aborted w = false;
  is_referenced : pl_validates (rq_policy rq) = true -> w_validated w = true;
  is_consented : consented w
}.

Definition may (w : Watch) (c : Call) : Prop :=
  (awaited c = true -> settled_hold (w_hold w) = true) /\
  match c with
  | HasConsumed plan => plan = rq_plan rq /\ w_hold w = Away
  | HasInFlight plan => plan = rq_plan rq /\ w_hold w = Unconsumed
  | AddInFlight plan => plan = rq_plan rq /\ w_hold w = Free
  | DropInFlight plan => plan = rq_plan rq /\ (w_hold w = Held \/ w_hold w = SpentHeld)
  | AddConsumed plan => plan = rq_plan rq /\ (w_hold w = Held \/ w_hold w = Dropped)
  | OnStore (PrepareExecution intent _ _ _) => intent = rq_intent rq /\ w_hold w = Held /\ w_execution w = None
  | OnStore (BeginExecution id _) =>
      w_hold w = Held /\ w_begun w = false /\ w_closing w = Unclosed /\ exists r, w_execution w = Some r /\ id = ex_id r
  | OnStore (SettleExecution id outcome _ _ _ revision) =>
      w_closing w = Unclosed /\ exists r, w_execution w = Some r /\ id = ex_id r /\
        (w_issued w = 0 -> outcome = Release /\ revision = Some (ex_revision r))
  | OnStore (MarkUnknown id _) => w_closing w = Unclosed /\ w_begun w = true /\ exists r, w_execution w = Some r /\ id = ex_id r
  | Confirm c =>
      w_prompts w < PREPARED_PLAN_MAX_CONFIRMATIONS /\ w_hold w = Held /\ (exists r, w_execution w = Some r) /\ w_begun w = false /\
      exists m preflight requote, w_market w = Some m /\ checked m preflight /\ c = toPreparedPlanConfirmation preflight (rq_summarize rq) requote
  | Issue s => permitted w s
  | Outcome => w_issued w = 1
  | _ => reading c = true
  end.
End Protocol.

(** ** Programs that only read *)

(** What a reading does not change, and what only [AskMarket] and [PreparedAt] do. *)
Definition stage (w : Watch) :=
  (w_hold w, w_execution w, w_begun w, w_issued w, w_prompts w, w_closing w, w_confirmed w).
Definition told (w : Watch) := (w_market w, w_preparedAt w).

Definition silent (c : Call) : bool :=
  match c with
  | OnStore (LoadGuard | ObserveAccount _ _ _ | BlockAccount _ | AssertExposure _) | SubmissionsRetired | Now | SystemTime
  | ClassifyFailure _ | AskBalances | AskPositions | AskSnapshot | AskOpening _ => true
  | _ => false
  end.

Fixpoint silently {A} (m : P A) : Prop :=
  match m with Ret _ | Fail _ => True | Do c k => silent c = true /\ forall r, silently (k r) end.

Lemma silently_bind {A B} (m : P A) (f : A -> P B) : silently m -> (forall a, silently (f a)) -> silently (m ≫= f).
Proof.
  intros Hm Hf. induction m as [a|e|c k IH]; [apply Hf|done|]. rewrite bind_Do. destruct Hm as [Hc Hk]. split; [done|].
  intros r. by apply IH.
Qed.
Lemma silently_attempt {A} (m : P A) : silently m -> silently (attempt m).
Proof. induction m as [a|e|c k IH]; cbn; [done|done|]. intros [Hc Hk]. split; [done|]. intros r. by apply IH. Qed.
Lemma silently_try {A} (m : P A) h : silently m -> (forall e, silently (h e)) -> silently (tryCatch m h).
Proof. intros Hm Hh. apply silently_bind; [by apply silently_attempt|]. intros [a|e]; [done|apply Hh]. Qed.
Lemma silently_result {T A} (f : T -> EngineError) (r : result T A) : silently (of_result f r).
Proof. by destruct r. Qed.
Lemma silently_failIf c e : silently (failIf c e).
Proof. by destruct c. Qed.
Lemma silently_ask c : silent c = true -> silently (ask c).
Proof. done. Qed.

Ltac silently_tac :=
  unfold refuse_if, reject, guard_state, guard_state_, store, ask_snapshot, answered;
  repeat first
    [ done
    | apply silently_bind; [|intros]
    | apply silently_try; [|intros]
    | apply silently_attempt
    | apply silently_result
    | apply silently_failIf
    | (apply silently_ask; reflexivity)
    | case_match ].

Section Silent.
Variable E : Engine.

Lemma silently_guard_state : silently (guard_state E).
Proof. silently_tac. Qed.
Lemma silently_inspect G : silently (inspect G).
Proof. unfold inspect. silently_tac. Qed.
Lemma silently_guard_preflight G input increasing stop ids : silently (guard_preflight G input increasing stop ids).
Proof. unfold guard_preflight. apply silently_bind; [apply silently_inspect|intros]. silently_tac. Qed.
Lemma silently_verifyReduction input : silently (verifyReduction E input).
Proof. unfold verifyReduction. silently_tac. Qed.
Lemma silently_balances input ids balances : silently (preflight_balances input ids balances).
Proof. unfold preflight_balances. silently_tac. Qed.
Lemma silently_account intent count policy : silently (preflightAccountRisk E intent count policy).
Proof.
  unfold preflightAccountRisk, with_guard. apply silently_bind; [apply silently_guard_state|]. intros [a|]; [|done].
  apply silently_bind; [|done]. destruct (en_scope E); [apply silently_guard_preflight|done].
Qed.
End Silent.

Section Readings.
Context (E : Engine) (rq : SubmissionRequest) (checked : MarketAnswers -> OrderPreflightResult -> Prop).
Abbreviation legal := (wp (may E rq checked) watch).

Lemma silent_watch w c r : silent c = true -> stage (watch w (existT c r)) = stage w /\ told (watch w (existT c r)) = told w.
Proof. destruct c; try done. match goal with s : StoreCall |- _ => by destruct s end. Qed.

Lemma silent_may w c : settled_hold (w_hold w) = true -> silent c = true -> may E rq checked w c.
Proof. intros Hh Hc. split; [done|]. destruct c; try done. match goal with s : StoreCall |- _ => by destruct s end. Qed.

Lemma stage_hold w w' : stage w' = stage w -> w_hold w' = w_hold w.
Proof. unfold stage. congruence. Qed.

(** A silent program leaves the stage and what was told. *)
Lemma wp_silently {A} (m : P A) Q w :
  silently m -> settled_hold (w_hold w) = true ->
  (forall w' r, stage w' = stage w -> told w' = told w -> Q w' r) -> legal m Q w.
Proof.
  intros Hm Hh HQ. assert (G : forall w', stage w' = stage w -> told w' = told w -> legal m Q w'); [|by apply G].
  induction m as [a|e|c k IH]; cbn; intros w' Hs Ht; [by apply HQ|by apply HQ|]. destruct Hm as [Hc Hk].
  split; [apply silent_may; [by rewrite (stage_hold _ _ Hs)|done]|].
  intros r. destruct (silent_watch w' c r Hc) as [Es Et]. apply IH; [done|congruence|congruence].
Qed.

Lemma wp_ask {A} c (f : reply c -> P A) Q w :
  may E rq checked w c -> (forall r, legal (f r) Q (watch w (existT c r))) -> legal (ask c ≫= f) Q w.
Proof. done. Qed.

Lemma wp_store {A} c (f : store_reply c -> P A) Q w :
  may E rq checked w (OnStore c) -> (forall a, legal (f a) Q (watch w (existT (OnStore c) (Ok a)))) ->
  (forall e, Q (watch w (existT (OnStore c) (Throw e))) (Throw (StoreFailed e))) -> legal (store c ≫= f) Q w.
Proof. intros Hm H1 H2. split; [done|]. intros [a|e]; [apply H1|apply H2]. Qed.

(** Nothing that matters to a permission changed. *)
Definition same (w w' : Watch) : Prop := stage w' = stage w /\ told w' = told w /\ w_clock w' = w_clock w.

Lemma stage_same_trans w1 w2 w3 : same w1 w2 -> same w2 w3 -> same w1 w3.
Proof. unfold same. intuition congruence. Qed.
Lemma same_fresh w w' : same w w' -> fresh w -> fresh w'.
Proof. unfold same, told, fresh. intros (_ & [= _ ->] & ->). done. Qed.
Lemma same_consented w w' : same w w' -> consented E rq checked w -> consented E rq checked w'.
Proof. unfold same, stage, told, consented. intros ([= _ _ _ _ _ _ ->] & [= -> _] & _). done. Qed.

Lemma wp_guard_state Q w :
  settled_hold (w_hold w) = true -> (forall w' a, same w w' -> Q w' (Ok a)) -> (forall w' e, same w w' -> Q w' (Throw (StoreFailed e))) ->
  legal (guard_state E) Q w.
Proof.
  intros Hh H1 H2. unfold guard_state. destruct (configured E); [|by apply H1].
  split; [by split|]. intros [a|e]; [by apply H1|by apply H2].
Qed.

Lemma wp_aborted Q w :
  (forall w', stage w' = stage w -> told w' = told w -> w_aborted w' = false -> Q w' (Ok tt)) ->
  (forall w', stage w' = stage w -> told w' = told w -> Q w' (Throw OperationCancelled)) -> legal throwIfAborted Q w.
Proof. intros H1 H2. apply wp_ask; [by split|]. intros []; [by apply H2|by apply H1]. Qed.

Lemma wp_fresh plan Q w :
  (forall w', stage w' = stage w -> w_market w' = w_market w -> fresh w' -> Q w' (Ok tt)) ->
  (forall w' e, stage w' = stage w -> Q w' (Throw e)) -> legal (assertPreparedPlanFresh plan) Q w.
Proof.
  intros H1 H2. apply wp_ask; [by split|]. intros [at_|]; [|by apply H2]. apply wp_ask; [by split|]. intros now. unfold reject, failIf.
  cbv zeta. match goal with |- context [if ?b then _ else _] => destruct b eqn:F end; [by apply H2|]. apply H1; [done|done|]. bool_hyps. exists at_, now. by split_and!.
Qed.

(** The preflight of a request asks the market once and leaves the rest as it is. *)
Definition reads_market : Prop :=
  forall w, settled_hold (w_hold w) = true ->
    legal (rq_preflight rq) (fun w' r => stage w' = stage w /\
      match r with Ok preflight => exists m, w_market w' = Some m /\ checked m preflight | Throw _ => True end) w.

Context (Hreads : reads_market).

(** A validated plan is fresh and its preflight is what the market says. *)
Definition revalidated (w : Watch) (preflight : OrderPreflightResult) : Prop :=
  fresh w /\ exists m, w_market w = Some m /\ checked m preflight.

Lemma revalidated_same w w' preflight : same w w' -> revalidated w preflight -> revalidated w' preflight.
Proof.
  intros H [F (m & Hm & Hc)]. split; [by eapply same_fresh|]. exists m. split; [|done]. destruct H as (_ & [= -> _] & _). done.
Qed.

Lemma wp_revalidate Q w :
  settled_hold (w_hold w) = true ->
  (forall w' p, stage w' = stage w -> revalidated w' (fst p) -> Q w' (Ok p)) ->
  (forall w' e, stage w' = stage w -> Q w' (Throw e)) -> legal (revalidatePreparedPlan E rq) Q w.
Proof.
  intros Hh H1 H2. unfold revalidatePreparedPlan. apply wp_bind, wp_aborted; [|intros w1 E1 _; by apply H2]. intros w1 E1 _ _.
  apply wp_bind, wp_fresh; [|intros w2 e E2; apply H2; congruence]. intros w2 E2 _ _.
  apply wp_bind. eapply wp_mono; [|apply Hreads; by rewrite (stage_hold _ _ E2), (stage_hold _ _ E1)].
  cbv beta. intros w3 [preflight|e] [E3 Hp]; [|apply H2; congruence].
  apply wp_bind, wp_aborted; [|intros w4 E4 _; apply H2; congruence]. intros w4 E4 T4 _.
  apply wp_bind, wp_silently; [apply silently_account|by rewrite (stage_hold _ _ E4), (stage_hold _ _ E3), (stage_hold _ _ E2), (stage_hold _ _ E1)|].
  intros w5 [account|e] E5 T5; [|apply H2; congruence].
  apply wp_bind, wp_aborted; [|intros w6 E6 _; apply H2; congruence]. intros w6 E6 T6 _.
  apply wp_bind, wp_fresh; [|intros w7 e E7; apply H2; congruence]. intros w7 E7 M7 F.
  apply H1; [congruence|]. split; [done|]. destruct Hp as (m & Hm & Hc). exists m. split; [|done].
  unfold told in *. congruence.
Qed.
End Readings.

(** ** How a submission ends *)

Definition end_of (hold : Hold) (execution : option ExecutionRecord) (begun : bool) (issued : nat) (w : Watch) : Prop :=
  w_hold w = hold /\ w_execution w = execution /\ w_begun w = begun /\ w_issued w = issued.

Inductive accounted : Watch -> result EngineError (PlaceResult * string) -> Prop :=
  (** Nothing was claimed and the plan is not in flight. *)
  | refused w h e : end_of h None false 0 w -> settled_hold h = false \/ h = Away -> h <> SpentHeld -> accounted w (Throw e)
  (** The claim was released before anything was sent; the plan may be submitted again. *)
  | released w r e : end_of Dropped (Some r) false 0 w -> w_closing w = Settled Release true -> accounted w (Throw e)
  (** Reading the account after the claim failed: the claim stands. *)
  | unread w r e : end_of Dropped (Some r) false 0 w -> w_closing w = Unclosed -> accounted w (Throw (StoreFailed e))
  (** The claim could not be released: the plan is consumed and both errors are reported. *)
  | blocked w r e e' : end_of Spent (Some r) false 0 w -> accounted w (Throw (Combined e e'))
  (** Begun, and what came of it is not known or not recorded: recovery is asked for by name. *)
  | unresolved w r n why : end_of Spent (Some r) true n w -> accounted w (Throw (RecoveryError (ex_id r) why))
  (** The exchange rejected it, and the claim was released. *)
  | rejected w r e b :
      end_of Spent (Some r) true 1 w -> w_closing w = Settled Release b -> is_rejection e = true -> accounted w (Throw (SubmissionFailed e))
  (** The exchange answered, and the answer was settled. *)
  | acknowledged w r answer o b :
      end_of Spent (Some r) true 1 w -> w_closing w = Settled o b -> accounted w (Ok (answer, ex_id r)).

Section Submissions.
Context (E : Engine) (rq : SubmissionRequest) (checked : MarketAnswers -> OrderPreflightResult -> Prop).
Context (Hreads : reads_market E rq checked).
Variable pow : number -> number -> number.
Abbreviation legal := (wp (may E rq checked) watch).

(** The stage of a submission whose execution is prepared. *)
Definition prepared_stage (r : ExecutionRecord) (prompts : nat) (confirmed : option PreparedPlanConfirmation) (w : Watch) : Prop :=
  stage w = (Held, Some r, false, 0, prompts, Unclosed, confirmed).

Lemma prepared_watch r n c w w' : prepared_stage r n c w -> stage w' = stage w -> prepared_stage r n c w'.
Proof. unfold prepared_stage. congruence. Qed.
Lemma prepared_held r n c w : prepared_stage r n c w -> settled_hold (w_hold w) = true.
Proof. by intros [= -> _ _ _ _ _ _]. Qed.

(** Replaces an observer of known stage by its fields. *)
Ltac stage_in w H := destruct w; unfold prepared_stage, stage in H; cbn in H; simplify_eq H; intros; subst; clear H.

Lemma wp_release {A} r n c e (Q : Watch -> result EngineError A -> Prop) w :
  prepared_stage r n c w -> (forall w' e', accounted w' (Throw e') -> Q w' (Throw e')) ->
  legal (releaseAndThrow (rq_plan rq) r e) Q w.
Proof.
  intros H HQ. stage_in w H. split.
  { split; [done|]. split; [done|]. exists r. by split_and!. }
  intros [[]|x]; (split; [split; [done|]; cbn; split_and?; tauto|]); intros []; [|split; [split; [done|]; cbn; tauto|]; intros []..];
    apply HQ; [by eapply released|by eapply blocked..].
Qed.

(** The execution is prepared and the plan validated again, or nothing is in flight. *)
Lemma wp_prepare Q w :
  stage w = (Held, None, false, 0, 0, Unclosed, None) ->
  (forall w' preflight r revision, prepared_stage r 0 None w' -> revalidated checked w' preflight ->
     (pl_confirms (rq_policy rq) = false -> marketEvidenceChanged (rq_preparedEvidence rq) (pr_evidence preflight) = false) ->
     Q w' (Ok (preflight, r, revision))) ->
  (forall w' e, stage w' = stage w -> Q w' (Throw e)) ->
  (forall w' r e, prepared_stage r 0 None w' -> Q w' (Throw (StoreFailed e))) -> legal (prepare_execution E rq) Q w.
Proof.
  intros Hw H1 H2 H3. unfold prepare_execution.
  assert (Hh : settled_hold (w_hold w) = true) by (injection Hw as -> _ _ _ _ _ _; done).
  apply wp_bind, (wp_revalidate E rq checked Hreads); [done| |by auto]. intros w1 p E1 R1.
  apply wp_ask; [by split|]. intros []; [by apply H2|].
  apply wp_bind, wp_failIf; [intros _|intros _; by apply H2]. apply wp_bind, wp_failIf; [intros G|intros _; by apply H2].
  assert (S1 : stage w1 = (Held, None, false, 0, 0, Unclosed, None)) by congruence.
  apply wp_store; [stage_in w1 S1; by split| |intros e; by apply H2].
  cbn [store_reply prepare_call]. intros r. set (w2 := watch _ _).
  assert (S2 : prepared_stage r 0 None w2) by (stage_in w1 S1; done).
  assert (R2 : revalidated checked w2 (fst p)) by done. clearbody w2.
  apply wp_bind, wp_guard_state; [by eapply prepared_held| |].
  - intros w3 a E3. apply H1; [|by eapply revalidated_same|].
    + destruct E3 as [E3 _]. by eapply prepared_watch.
    + intros N. by rewrite N in G.
  - intros w3 e [E3 _]. eapply H3. by eapply prepared_watch.
Qed.

(** What a callback is shown. *)
Definition shows (w : Watch) (c : PreparedPlanConfirmation) : Prop :=
  exists m preflight requote, w_market w = Some m /\ checked m preflight /\ c = toPreparedPlanConfirmation preflight (rq_summarize rq) requote.

Lemma wp_reconfirm Q r w :
  settled_hold (w_hold w) = true ->
  (forall w' preflight, stage w' = stage w -> revalidated checked w' preflight -> Q w' (Ok preflight)) ->
  (forall w' e, stage w' = stage w -> Q w' (Throw e)) -> legal (reconfirm E rq r) Q w.
Proof.
  intros Hh H1 H2. apply wp_bind, (wp_revalidate E rq checked Hreads); [done| |by auto]. intros w1 p E1 R1.
  apply wp_bind, wp_failIf; intros _; [by apply H1|by apply H2].
Qed.

Lemma wp_confirm_plan Q prompts r c confirmation w :
  pl_confirms (rq_policy rq) = true -> prompts <= PREPARED_PLAN_MAX_CONFIRMATIONS ->
  prepared_stage r (PREPARED_PLAN_MAX_CONFIRMATIONS - prompts) c w -> shows w confirmation ->
  (forall w' n c', prepared_stage r n c' w' -> fresh w' -> consented E rq checked w' -> Q w' (Ok tt)) ->
  (forall w' e, accounted w' (Throw e) -> Q w' (Throw e)) -> legal (confirm_plan E prompts rq r confirmation) Q w.
Proof.
  intros Hp Hn Hw Hs H1 H2. revert c confirmation w Hn Hw Hs. induction prompts as [|prompts IH]; intros c confirmation w Hn Hw Hs.
  { by eapply wp_release. }
  cbn [confirm_plan]. apply wp_ask.
  { destruct Hs as (m & preflight & requote & Hm & Hc & Ec). stage_in w Hw. split; [done|]. cbn in *.
    split; [unfold PREPARED_PLAN_MAX_CONFIRMATIONS in *; lia|]. eauto 10. }
  intros b. set (w1 := watch w _).
  assert (S1 : prepared_stage r (PREPARED_PLAN_MAX_CONFIRMATIONS - prompts) (match b with Some true => Some confirmation | _ => None end) w1).
  { unfold w1. clear - Hw Hn. stage_in w Hw. unfold prepared_stage, stage. cbn. repeat f_equal.
    unfold PREPARED_PLAN_MAX_CONFIRMATIONS in *. lia. }
  clearbody w1. destruct b as [[]|]; [|by eapply wp_release..].
  apply wp_bind, wp_attempt, wp_reconfirm; [by eapply prepared_held| |].
  - intros w2 preflight E2 R2. cbn [result_rect]. apply (prepared_watch _ _ _ _ _ S1) in E2.
    destruct (confirmation_changed confirmation preflight) eqn:C; cbn [negb].
    + eapply IH; [lia|exact E2|]. destruct R2 as [_ (m & Hm & Hc)]. by exists m, preflight, true.
    + eapply H1; [exact E2|by destruct R2|]. destruct R2 as [_ (m & Hm & Hc)]. exists m, preflight. rewrite Hp.
      split; [done|]. split; [done|]. exists confirmation. split; [|done]. by injection E2.
  - intros w2 e E2. eapply wp_release; [|exact H2]. by eapply prepared_watch.
Qed.

Lemma wp_confirm_policy Q preflight r w :
  prepared_stage r 0 None w -> revalidated checked w preflight ->
  (pl_confirms (rq_policy rq) = false -> marketEvidenceChanged (rq_preparedEvidence rq) (pr_evidence preflight) = false) ->
  (forall w' n c', prepared_stage r n c' w' -> fresh w' -> consented E rq checked w' -> Q w' (Ok tt)) ->
  (forall w' e, accounted w' (Throw e) -> Q w' (Throw e)) -> legal (confirm_policy E rq preflight r) Q w.
Proof.
  intros Hw [F (m & Hm & Hc)] Hev H1 H2. unfold confirm_policy. destruct (pl_confirms (rq_policy rq)) eqn:Hp.
  - eapply wp_confirm_plan; [done|done|exact Hw| |done|done]. by exists m, preflight, false.
  - destruct (bool_decide (en_mode E = Live) && _) eqn:L; [by eapply wp_release|]. eapply H1; [done|done|].
    exists m, preflight. rewrite Hp. split; [done|]. split; [done|]. split; [by apply Hev|].
    intros Em. rewrite bool_decide_eq_true_2 in L by done. cbn in L. apply negb_false_iff in L. by apply bool_decide_eq_true in L.
Qed.

(** Begun, and permitted once the plan is consumed. *)
Record ready (w : Watch) (r : ExecutionRecord) : Prop := {
  ready_stage : exists n c, stage w = (Held, Some r, true, 0, n, Unclosed, c);
  ready_fresh : fresh w;
  ready_consented : consented E rq checked w;
  ready_wanted : w_aborted w = false;
  ready_validated : pl_validates (rq_policy rq) = true -> w_validated w = true
}.

Lemma wp_validate Q w :
  (forall w', same w w' -> w_aborted w' = w_aborted w -> (pl_validates (rq_policy rq) = true -> w_validated w' = true) -> Q w' (Ok tt)) ->
  (forall w' e, stage w' = stage w -> Q w' (Throw e)) ->
  legal (if pl_validates (rq_policy rq) then
           r ← ask ValidateReference;
           match r with None => Fail ReferenceThrew | Some returned => reject returned ReferenceAsynchronous end
         else Ret tt) Q w.
Proof.
  intros H1 H2. destruct (pl_validates _); [|by apply H1]. apply wp_ask; [by split|].
  intros [[]|]; [by apply H2|by apply H1|by apply H2].
Qed.

Lemma wp_assert_exposure (b : bool) id Q w :
  (forall w', same w w' -> w_aborted w' = w_aborted w -> w_validated w' = w_validated w -> Q w' (Ok tt)) ->
  (forall w' e, stage w' = stage w -> Q w' (Throw e)) ->
  legal (if b then store (AssertExposure id) else Ret tt) Q w.
Proof. intros H1 H2. destruct b; [|by apply H1]. split; [by split|]. intros [[]|e]; [by apply H1|by apply H2]. Qed.

Lemma wp_begin Q r n c revision w :
  prepared_stage r n c w -> fresh w -> consented E rq checked w ->
  (forall w', ready w' r -> Q w' (Ok tt)) ->
  (forall w' e, prepared_stage r n c w' -> Q w' (Throw e)) -> legal (begin_submission rq r revision) Q w.
Proof.
  intros Hw F C H1 H2. apply wp_ask; [by split|]. intros a. apply wp_bind, wp_failIf; [intros Ha|intros _; by apply H2].
  cbv beta in Ha. set (w1 := watch w _). assert (S1 : same w w1) by done. assert (A1 : w_aborted w1 = false) by (exact Ha). clearbody w1.
  apply wp_bind, wp_validate; [|intros w2 e E2; apply H2; eapply prepared_watch; [exact Hw|]; destruct S1; congruence].
  intros w2 S2 A2 V2.
  apply wp_bind, wp_assert_exposure; [|intros w3 e E3; apply H2; eapply prepared_watch; [exact Hw|]; destruct S1, S2; congruence].
  intros w3 S3 A3 V3. assert (S : same w w3) by eauto using stage_same_trans.
  assert (P3 : prepared_stage r n c w3) by (eapply prepared_watch; [exact Hw|apply S]).
  assert (F3 : fresh w3) by (by eapply same_fresh). assert (C3 : consented E rq checked w3) by (by eapply same_consented).
  rewrite A2, A1 in A3. rewrite <- V3 in V2. clear - P3 F3 C3 A3 V2 H1 H2.
  apply wp_store.
  - stage_in w3 P3. split; [done|]. split_and!; try done. by exists r.
  - intros r'. apply H1. constructor; [|done|done|done|done]. exists n, c. clear - P3. by stage_in w3 P3.
  - intros e. apply H2. clear - P3. by stage_in w3 P3.
Qed.

(** Consumed, and sent [issued] times. *)
Definition spent_stage (r : ExecutionRecord) (issued : nat) (w : Watch) : Prop :=
  exists n c, stage w = (Spent, Some r, true, issued, n, Unclosed, c).

Lemma spent_end r i w : spent_stage r i w -> end_of Spent (Some r) true i w.
Proof. intros (n & c & H). injection H. unfold end_of. by intros. Qed.

Lemma wp_failed r i e w :
  spent_stage r i w -> (i = 0 -> e = OtherError None) -> (i = 0 \/ i = 1) -> legal (failed_submission (rq_policy rq) r e) accounted w.
Proof.
  intros (n & c & Hw) He Hi. unfold failed_submission. apply wp_bind.
  assert (Unknown : forall w', stage w' = stage w -> legal (
    x ← attempt (store (MarkUnknown (ex_id r) SubmissionUnknown));
    match x with Throw _ => Fail (RecoveryError (ex_id r) OutcomeNotPersisted) | Ok _ => Fail (RecoveryError (ex_id r) StatusIsUnknown) end)
    (accounted) w').
  { intros w' E'. rewrite Hw in E'. stage_in w' E'. split.
    { split; [done|]. split; [done|]. split; [done|]. by exists r. }
    intros [[]|x]; by eapply unresolved. }
  assert (Rejected : is_rejection e = true -> forall w', stage w' = stage w -> legal (
    x ← attempt (store (SettleExecution (ex_id r) Release 0 DefiniteRejection None None));
    match x with Throw _ => Fail (RecoveryError (ex_id r) RejectionNotPersisted) | Ok _ => Fail (SubmissionFailed e) end)
    (accounted) w').
  { intros Hr w' E'. rewrite Hw in E'. assert (i = 1) as -> by (destruct Hi as [->|]; [by rewrite He in Hr|done]). stage_in w' E'. split.
    { split; [done|]. split; [done|]. exists r. by split_and!. }
    intros [b|x]; [by eapply rejected|by eapply unresolved]. }
  unfold status_unknown. destruct (is_rejection e) eqn:Hr; cbn [negb orb].
  - destruct (isSubmissionStatusUnknownError e); cbn [negb]; [rewrite andb_false_r; by apply Unknown|]. rewrite andb_true_r.
    destruct (pl_classifies (rq_policy rq)); [|by apply Rejected]. apply wp_ask; [by split|].
    intros [[]|]; [by apply Unknown|by apply Rejected|by apply Unknown].
  - rewrite andb_false_r. by apply Unknown.
Qed.

Lemma wp_settle r answer w : spent_stage r 1 w -> legal (settle_result pow r answer) accounted w.
Proof.
  intros (n & c & Hw). apply wp_bind, wp_attempt, wp_ask; [by split|]. intros now. apply wp_bind.
  apply wp_of_result; [intros ob _|intros x _; eapply unresolved, spent_end; by exists n, c].
  stage_in w Hw. split.
  { split; [done|]. split; [done|]. exists r. by split_and!. }
  intros [b|x]; [by eapply acknowledged|by eapply unresolved].
Qed.

Lemma wp_submit r w : ready w r -> legal (submit_and_settle pow rq r) accounted w.
Proof.
  intros [(n & c & Hw) F C A V]. apply wp_ask.
  { stage_in w Hw. split; [done|]. cbn. tauto. }
  intros []. set (w1 := watch w _).
  assert (H1 : stage w1 = (Dropped, Some r, true, 0, n, Unclosed, c) /\ told w1 = told w /\ w_clock w1 = w_clock w /\ w_aborted w1 = false /\
    w_validated w1 = w_validated w) by (clear - Hw A; stage_in w Hw; done). clearbody w1.
  destruct H1 as (S1 & T1 & K1 & A1 & V1). apply wp_ask.
  { clear - S1. stage_in w1 S1. split; [done|]. cbn. tauto. }
  intros []. set (w2 := watch w1 _).
  assert (H2 : stage w2 = (Spent, Some r, true, 0, n, Unclosed, c) /\ told w2 = told w1 /\ w_clock w2 = w_clock w1 /\ w_aborted w2 = false /\
    w_validated w2 = w_validated w1) by (clear - S1 A1; stage_in w1 S1; done). clearbody w2.
  destruct H2 as (S2 & T2 & K2 & A2 & V2).
  assert (P2 : bad_timeout (rq_policy rq) = false -> permitted E rq checked w2 (rq_submission rq)).
  { intros Ht. assert (Ec : w_confirmed w2 = w_confirmed w) by (injection Hw; injection S2; congruence).
    constructor; [done|done|by injection S2|by injection S2|split; [by injection S2|exists r; by injection S2]|by injection S2| |done| |].
    - unfold fresh, told in *. injection T1. injection T2. intros. destruct F as (a & k & F). exists a, k. destruct F as (? & ? & F).
      split; [congruence|]. split; [congruence|done].
    - intros Hv. rewrite V2, V1. auto.
    - unfold consented, told in *. injection T1. injection T2. intros. rewrite Ec. destruct C as (m & p & Hm & C). exists m, p.
      split; [congruence|done]. }
  unfold submit. apply wp_bind. destruct (bad_timeout (rq_policy rq)) eqn:Ht.
  - apply (wp_failed r 0); [by exists n, c|done|by left].
  - apply wp_ask; [split; [done|by apply P2]|]. intros []. set (w3 := watch w2 _).
    assert (S3 : stage w3 = (Spent, Some r, true, 1, n, Unclosed, c)) by (clear - S2; by stage_in w2 S2). clearbody w3.
    split; [split; [intros _; by injection S3 as -> _ _ _ _ _ _|by injection S3]|]. intros [answer|e].
    + apply wp_settle. exists n, c. clear - S3. by stage_in w3 S3.
    + apply (wp_failed r 1); [|done|by right]. exists n, c. clear - S3. by stage_in w3 S3.
Qed.

Lemma wp_submission w :
  stage w = (Away, None, false, 0, 0, Unclosed, None) -> legal (submitWithReservation pow E rq) accounted w.
Proof.
  assert (Away_refused : forall w e, stage w = (Away, None, false, 0, 0, Unclosed, None) -> accounted w (Throw e)).
  { intros w' e H. injection H. intros. eapply (refused w' Away); [by split_and!|by right|done]. }
  intros Hw. apply wp_bind, wp_aborted; [|intros w1 E1 _; apply Away_refused; congruence]. intros w1 E1 _ _. rewrite Hw in E1. clear Hw w.
  apply wp_bind, wp_failIf; [intros _|intros _; by apply Away_refused].
  apply wp_ask; [clear - E1; by stage_in w1 E1|]. intros consumed. apply wp_bind, wp_failIf; cbv beta; [intros ->|intros ->; apply Away_refused; clear - E1; by stage_in w1 E1].
  set (w2 := watch w1 _). assert (E2 : stage w2 = (Unconsumed, None, false, 0, 0, Unclosed, None)) by (clear - E1; by stage_in w1 E1). clearbody w2.
  apply wp_ask; [clear - E2; by stage_in w2 E2|]. intros inFlight. apply wp_bind, wp_failIf; cbv beta; [intros ->|intros ->; apply Away_refused; clear - E2; by stage_in w2 E2].
  set (w3 := watch w2 _). assert (E3 : stage w3 = (Free, None, false, 0, 0, Unclosed, None)) by (clear - E2; by stage_in w2 E2). clearbody w3.
  apply wp_bind, wp_assert_exposure; [|intros w4 e E4; eapply (refused w4 Free); [rewrite E3 in E4; injection E4; unfold end_of; by intros|by left|done]].
  intros w4 [E4 _] _ _. rewrite E3 in E4. apply wp_ask; [clear - E4; by stage_in w4 E4|]. intros [].
  set (w5 := watch w4 _). assert (E5 : stage w5 = (Held, None, false, 0, 0, Unclosed, None)) by (clear - E4; by stage_in w4 E4). clearbody w5.
  apply wp_bind, wp_try, wp_prepare; [done| | |].
  - intros w6 preflight r revision S6 R6 G6. apply wp_bind. eapply wp_confirm_policy; [done|done|done| |done].
    intros w7 n c S7 F7 C7. apply wp_bind, wp_attempt. eapply wp_begin; [done|done|done| |].
    + intros w8 R8. by apply wp_submit.
    + intros w8 e S8. by eapply wp_release.
  - intros w6 e E6. rewrite E5 in E6. stage_in w6 E6. split; [split; [done|]; cbn; tauto|]. intros []. eapply (refused _ Dropped); [by split_and!|by left|done].
  - intros w6 r e S6. stage_in w6 S6. split; [split; [done|]; cbn; tauto|]. intros []. by eapply unread.
Qed.
End Submissions.
