(* ===== verification/EngineRuns.v ===== *)
(** * Runs of the engine

    What every run of [placeOrder] and [placeOco] does, whatever their environment replies: how
    a submission is permitted, how it ends, and how often it asks and sends. *)

From Stdlib Require Import ZArith Lia Bool Ascii Floats.
From stdpp Require Import base strings option list.
From S2P Require Import JournalHistory RecoverySafety.
From S2P Require Import Prelude Effects JsNumber JsObject JsDate JsValue JsText AccountRisk RiskState RiskLedger Execution ExecutionJournal.
From S2P Require Import Capabilities ExecutionRecovery Positions OrderPlan OrderPreflight PlanSafety AccountFacts AccountGuard Engine EngineSafety.

Local Open Scope nat_scope.

Section Runs.
Variable sha256 : string -> string.
Variables toUpperCase toLowerCase : string -> string.
Variable pow : number -> number -> number.
Variable E : Engine.

(** ** Placing *)

Inductive Placement :=
  | PlacesOrder (plan : Plan) (policy : TradingEngineSubmissionPolicy)
  | PlacesOco (plan : Plan) (policy : TradingEngineSubmissionPolicy).

Definition plan_of_placement (p : Placement) : Plan := match p with PlacesOrder plan _ | PlacesOco plan _ => plan end.
Definition policy_of (p : Placement) : TradingEngineSubmissionPolicy := match p with PlacesOrder _ policy | PlacesOco _ policy => policy end.

Definition placing (p : Placement) : P SubmissionRequest :=
  match p with
  | PlacesOrder plan policy => placing_order sha256 toUpperCase toLowerCase pow E plan policy
  | PlacesOco plan policy => placing_oco sha256 toUpperCase toLowerCase pow E plan policy
  end.
Definition place (p : Placement) : P (PlaceResult * string) :=
  match p with
  | PlacesOrder plan policy => placeOrder sha256 toUpperCase toLowerCase pow E plan policy
  | PlacesOco plan policy => placeOco sha256 toUpperCase toLowerCase pow E plan policy
  end.

Lemma place_placing p : place p = (rq ← placing p; submitWithReservation pow E rq).
Proof. by destruct p. Qed.

(** What the preflight of a plan says of the market, on some balances. *)
Definition plan_checked (prepared : PreparedPlan) (m : MarketAnswers) (preflight : OrderPreflightResult) : Prop :=
  match prepared with
  | AnOrder plan => exists balances, preflightOrder toUpperCase toLowerCase pow plan (dependencies E m balances (ma_feeRate m)) = Ok preflight
  | AnOco plan =>
      exists r, preflightOco toUpperCase toLowerCase pow plan (dependencies E m (ma_balances m) None) = Ok r /\ preflight = po_result r
  end.

Definition plan_request (plan : Plan) (prepared : PreparedPlan) (ids : ClientIds) (policy : TradingEngineSubmissionPolicy) : SubmissionRequest :=
  match prepared with
  | AnOrder o => order_request toUpperCase toLowerCase pow E plan o ids policy
  | AnOco o => oco_request toUpperCase toLowerCase pow E plan o ids policy
  end.

(** The request of a placement on the plan that the engine kept. *)
Definition requested (env : Environment reply) (p : Placement) (prepared : PreparedPlan) (rq : SubmissionRequest) : Prop :=
  env [] (KeptPlan (plan_of_placement p)) = Some prepared /\ exists ids, rq = plan_request (plan_of_placement p) prepared ids (policy_of p).

Lemma request_plan plan prepared ids policy : rq_plan (plan_request plan prepared ids policy) = plan.
Proof. by destruct prepared. Qed.

Lemma reads_plan plan prepared ids policy : reads_market E (plan_request plan prepared ids policy) (plan_checked prepared).
Proof.
  intros w Hw. destruct prepared as [o|o]; cbn [plan_request order_request oco_request rq_preflight]; apply wp_ask; try by split; [|].
  - intros m. set (w1 := watch w _). assert (H1 : stage w1 = stage w) by done. assert (M1 : w_market w1 = Some m) by done. clearbody w1.
    apply wp_bind, wp_silently; [apply silently_balances|by rewrite (stage_hold _ _ H1)|]. intros w2 [balances|e] S2 T2; [|split; [congruence|done]].
    apply wp_bind, wp_of_result; [|intros e _; split; [congruence|done]]. intros preflight Hp.
    apply wp_bind. unshelve eapply wp_mono; [exact (fun w' r => stage w' = stage w /\ w_market w' = Some m)|..].
    + intros w3 [[]|e] [S3 M3]; split; try done. exists m. split; [done|]. by exists balances.
    + destruct (negb _ && _); [|split; [congruence|unfold told in T2; congruence]].
      apply wp_silently; [apply silently_verifyReduction|by rewrite (stage_hold _ _ S2), (stage_hold _ _ H1)|].
      intros w3 r S3 T3. unfold told in *. split; congruence.
  - intros m. set (w1 := watch w _). assert (H1 : stage w1 = stage w) by done. assert (M1 : w_market w1 = Some m) by done. clearbody w1.
    apply wp_bind, wp_of_result; [|intros e _; split; [congruence|done]]. intros result Hp.
    apply wp_bind. unshelve eapply wp_mono; [exact (fun w' r => stage w' = stage w /\ w_market w' = Some m)|..].
    + intros w3 [[]|e] [S3 M3]; split; try done. exists m. split; [done|]. by exists result.
    + destruct (negb _); [|split; congruence].
      apply wp_silently; [apply silently_verifyReduction|by rewrite (stage_hold _ _ H1)|].
      intros w3 r S3 T3. unfold told in *. split; congruence.
Qed.

(** The calls of a placement before its submission. *)
Definition opening_call (c : Call) : bool := match c with KeptPlan _ | RandomUUID | OnStore LoadGuard => true | _ => false end.

Lemma opening_stage h : Forall (fun e => opening_call (projT1 e) = true) h -> forall w, stage (observed watch w h) = stage w.
Proof.
  induction 1 as [|[c r] h Hc _ IH]; intros w; [done|]. unfold observed in *. cbn [fold_left]. rewrite IH.
  destruct c; try done. match goal with s : StoreCall |- _ => by destruct s end.
Qed.

Definition opening (p : Placement) (env : Environment reply) (o : list Ev * result EngineError SubmissionRequest) : Prop :=
  Forall (fun e => opening_call (projT1 e) = true) (fst o) /\
  match snd o with Ok rq => exists prepared, requested env p prepared rq | Throw _ => True end.

Lemma placing_run env p : opening p env (run env [] (placing p)).
Proof.
  destruct p as [plan policy|plan policy]; cbn [placing]; unfold opening, placing_order, placing_oco, kept_order, kept_oco;
    rewrite !run_bind; cbn [run ask call].
  - destruct (env [] (KeptPlan plan)) as [[o|o]|] eqn:K; cbn [run fst snd]; [|split; [by repeat constructor|done]..].
    assert (Done : forall h ids, Forall (fun e : Ev => opening_call (projT1 e) = true) h ->
      Forall (fun e : Ev => opening_call (projT1 e) = true) (fst (run env h (Ret (order_request toUpperCase toLowerCase pow E plan o ids policy) : P _))) /\
      exists prepared, requested env (PlacesOrder plan policy) prepared (order_request toUpperCase toLowerCase pow E plan o ids policy)).
    { intros h ids Hh. split; [done|]. exists (AnOrder o). split; [exact K|]. by exists ids. }
    rewrite run_bind. cbn [run ask call]. rewrite run_bind. destruct (pl_replacementIds policy) as [l|]; [|apply Done; by repeat constructor].
    destruct (pd_countTowardsDailyLimit o); cbn [run fst snd]; [split; [by repeat constructor|done]|].
    unfold guard_state. rewrite run_bind. destruct (configured E); cbn [run fst snd].
    + unfold store. rewrite run_bind. cbn [run ask call]. destruct (env _ (OnStore LoadGuard)) as [[a|]|e]; cbn [of_result run fst snd];
        [destruct (negb (en_replaces E))| |]; cbn [reject failIf run fst snd]; try (split; [by repeat constructor|done]).
      apply Done. by repeat constructor.
    + split; [by repeat constructor|done].
  - destruct (env [] (KeptPlan plan)) as [[o|o]|] eqn:K; cbn [run fst snd]; [split; [by repeat constructor|done]| |split; [by repeat constructor|done]].
    split; [by repeat constructor|]. exists (AnOco o). split; [exact K|]. by exists (executionClientIds sha256 (env [existT (KeptPlan plan) (Some (AnOco o))] RandomUUID) (pl_intentId policy)).
Qed.

(** What every run of a placement is. *)
Lemma place_run env p :
  exists h0 h', fst (run env [] (place p)) = app h0 h' /\ Forall (fun e => opening_call (projT1 e) = true) h0 /\
    accounted (watched (fst (run env [] (place p)))) (snd (run env [] (place p))) /\
    (h' = [] \/ exists prepared rq, requested env p prepared rq /\ lawful (may E rq (plan_checked prepared)) watch (watched h0) h').
Proof.
  rewrite place_placing, run_bind. pose proof (placing_run env p) as H. destruct (run env [] (placing p)) as [h0 [rq|e]].
  - destruct H as [Ho (prepared & Hr)]. cbn [fst] in Ho. pose proof Hr as [_ [ids ->]].
    destruct (wp_run _ watch _ _ (watched h0) env h0
      (wp_submission E _ _ (reads_plan (plan_of_placement p) prepared ids (policy_of p)) pow (watched h0) (opening_stage _ Ho unwatched)))
      as (h' & Eh & Hl & Ha).
    exists h0, h'. split; [exact Eh|]. split; [done|]. split; [|right; eauto]. rewrite Eh. unfold watched at 1. by rewrite observed_app.
  - destruct H as [Ho _]. cbn [fst snd] in *. exists h0, []. rewrite app_nil_r. split; [done|]. split; [done|]. split; [|by left].
    pose proof (opening_stage _ Ho unwatched) as Hs. unfold watched. injection Hs. intros.
    eapply (refused _ Away); [by unfold end_of|by right|done].
Qed.

(** A call that is not of the opening is lawful. *)
Lemma place_call env p h1 e h2 :
  fst (run env [] (place p)) = app h1 (e :: h2) -> opening_call (projT1 e) = false ->
  exists prepared rq, requested env p prepared rq /\ may E rq (plan_checked prepared) (watched h1) (projT1 e).
Proof.
  intros Hh He. destruct (place_run env p) as (h0 & h' & Eh & Ho & _ & C). rewrite Hh in Eh.
  assert (Split : exists h3, h1 = app h0 h3 /\ h' = app h3 (e :: h2)).
  { apply app_eq_app in Eh as (k & [[-> ->]|[-> Ek]]); [by exists k|].
    destruct k as [|x k]; cbn in Ek; [exists []; by rewrite !app_nil_r|]. injection Ek as -> _.
    apply Forall_app in Ho as [_ Ho]. inversion Ho. congruence. }
  destruct Split as (h3 & -> & ->). destruct C as [C|(prepared & rq & Hr & Hl)]; [by destruct h3|].
  exists prepared, rq. split; [done|]. apply lawful_at in Hl. unfold watched. by rewrite observed_app.
Qed.

Definition is_prompt (c : Call) : bool := match c with Confirm _ => true | _ => false end.
Definition is_issue (c : Call) : bool := match c with Issue _ => true | _ => false end.

Lemma watched_counts h w :
  w_prompts (observed watch w h) = w_prompts w + calls is_prompt h /\ w_issued (observed watch w h) = w_issued w + calls is_issue h.
Proof.
  revert w. induction h as [|[c r] h IH]; intros w; [cbn; lia|].
  change (observed watch w (existT c r :: h)) with (observed watch (watch w (existT c r)) h). destruct (IH (watch w (existT c r))) as [-> ->].
  unfold calls. cbn [List.filter projT1]. destruct c; cbn [is_prompt is_issue length]; cbn; lia.
Qed.

Lemma lawful_bounds rq checked w h :
  lawful (may E rq checked) watch w h -> w_prompts w <= PREPARED_PLAN_MAX_CONFIRMATIONS -> w_issued w <= 1 ->
  w_prompts (observed watch w h) <= PREPARED_PLAN_MAX_CONFIRMATIONS /\ w_issued (observed watch w h) <= 1.
Proof.
  revert w. induction h as [|[c r] h IH]; intros w; [by intros|]. cbn [lawful projT1]. intros [[_ Hm] Hl] Hp Hi.
  unfold observed. cbn [fold_left]. apply IH; [done|..]; destruct c; cbn in *; try lia.
  destruct Hm as [_ _ _ F _ _ _ _ _ _]. lia.
Qed.

(** ** Theorems *)

(** C1: Whatever its environment replies, an engine sends only the order of the plan it kept, and
    only when that plan is consumed, its execution is prepared and begun in the journal and not
    closed, nothing was sent before, the plan was fresh at the last reading of the clock, the
    caller has not aborted since the last wait, the reference was validated since then, and either
    the last confirmation that was given shows what the last market data still say or, without a
    callback, those are what the plan was prepared on and live submission was allowed. *)
Theorem submission_is_permitted env p h1 s u h2 :
  fst (run env [] (place p)) = app h1 (existT (Issue s) u :: h2) ->
  exists prepared rq, requested env p prepared rq /\ permitted E rq (plan_checked prepared) (watched h1) s.
Proof. intros H. destruct (place_call _ _ _ _ _ H eq_refl) as (prepared & rq & Hr & _ & Hm). eauto. Qed.

(** A callback is shown the figures of a preflight of the plan on the last market data, and it
    is asked before anything is begun. *)
Theorem confirmation_is_current env p h1 c b h2 :
  fst (run env [] (place p)) = app h1 (existT (Confirm c) b :: h2) ->
  exists prepared rq m preflight requote, requested env p prepared rq /\ w_market (watched h1) = Some m /\ plan_checked prepared m preflight /\
    c = toPreparedPlanConfirmation preflight (rq_summarize rq) requote /\ w_begun (watched h1) = false /\ w_hold (watched h1) = Held.
Proof.
  intros H. destruct (place_call _ _ _ _ _ H eq_refl) as (prepared & rq & Hr & _ & _ & Hh & _ & Hb & m & preflight & requote & Hm & Hc & Ec).
  exists prepared, rq, m, preflight, requote. by split_and!.
Qed.

(** C3: However a placement ends, no plan stays in flight and no claim is lost silently: nothing
    was claimed; or the claim was released before anything was sent; or it could not be released
    and the plan is consumed; or the execution was begun and is settled, rejected and released, or
    reported for recovery by its id.  The one exception is a failing read of the account right
    after the claim, which leaves it claimed. *)
Theorem every_end_is_accounted env p : accounted (watched (fst (run env [] (place p)))) (snd (run env [] (place p))).
Proof. by destruct (place_run env p) as (h0 & h' & _ & _ & Ha & _). Qed.

(** A placement terminates, asks for confirmation at most four times and sends at most once. *)
Theorem prompts_and_submissions_bounded env p :
  exists h r, run env [] (place p) = (h, r) /\ calls is_prompt h <= PREPARED_PLAN_MAX_CONFIRMATIONS /\ calls is_issue h <= 1.
Proof.
  destruct (place_run env p) as (h0 & h' & Eh & Ho & _ & C). exists (fst (run env [] (place p))), (snd (run env [] (place p))).
  split; [by destruct (run env [] (place p))|]. destruct (watched_counts (fst (run env [] (place p))) unwatched) as [Cp Ci]. cbn in Cp, Ci.
  rewrite <- Cp, <- Ci, Eh, observed_app. pose proof (opening_stage _ Ho unwatched) as Hs. injection Hs. intros _ _ Zp Zi _ _ _.
  destruct C as [->|(prepared & rq & _ & Hl)]; [cbn; rewrite Zp, Zi; cbn; lia|].
  eapply lawful_bounds; [exact Hl| |]; unfold watched; [rewrite Zp|rewrite Zi]; cbn; lia.
Qed.

Lemma issue_of_call (h : list Ev) : calls is_issue h <> 0 -> exists h1 s u h2, h = app h1 (existT (Issue s) u :: h2).
Proof. intros (h1 & c & r & h2 & -> & Hc)%call_of_kind. destruct c; try done. by exists h1, s, r, h2. Qed.
Lemma prompt_of_call (h : list Ev) : calls is_prompt h <> 0 -> exists h1 c b h2, h = app h1 (existT (Confirm c) b :: h2).
Proof. intros (h1 & c & r & h2 & -> & Hc)%call_of_kind. destruct c; try done. by exists h1, c, r, h2. Qed.

(** An invalid timeout sends nothing, but it is refused only after the execution is begun: the
    placement then ends as one whose outcome is unknown. *)
Theorem bad_timeout_sends_nothing env p :
  bad_timeout (policy_of p) = true ->
  calls is_issue (fst (run env [] (place p))) = 0 /\
  (w_begun (watched (fst (run env [] (place p)))) = true ->
   exists r why, w_execution (watched (fst (run env [] (place p)))) = Some r /\ snd (run env [] (place p)) = Throw (RecoveryError (ex_id r) why)).
Proof.
  intros Hb. assert (N : calls is_issue (fst (run env [] (place p))) = 0).
  { destruct (decide (calls is_issue (fst (run env [] (place p))) = 0)) as [|D]; [done|exfalso].
    destruct (issue_of_call _ D) as (h1 & s & u & h2 & Eh).
    destruct (place_call _ _ _ _ _ Eh eq_refl) as (prepared & rq & [_ (ids & ->)] & _ & Hm). destruct Hm as [_ Ht].
    destruct prepared; cbn in Ht; congruence. }
  split; [done|]. intros B. destruct (watched_counts (fst (run env [] (place p))) unwatched) as [_ Ci]. rewrite N in Ci. cbn in Ci.
  destruct (place_run env p) as (_ & _ & _ & _ & Ha & _). unfold watched in *.
  destruct Ha as [w h e D|w r e D|w r e D|w r e e' D|w r n why D|w r e b D|w r answer o b D]; destruct D as (D1 & D2 & D3 & D4);
    try congruence; eauto.
Qed.
End Runs.

(** ** Runs *)

Definition example_engine : Engine :=
  {| en_mode := Live; en_exchangeId := "binance"; en_config := ct_config planning; en_scope := Some example_scope; en_replaces := false |}.
Definition example_policy (timeout : option number) : TradingEngineSubmissionPolicy :=
  {| pl_intentId := Some "intent-1"%string; pl_reference := None; pl_validates := true; pl_timeoutMs := timeout; pl_protectionStopPrice := None;
     pl_replacementIds := None; pl_confirms := true; pl_allowUnconfirmedLive := None; pl_classifies := false |}.
Definition market_answers (last : number) : MarketAnswers :=
  {| ma_market := df_market (market_at last); ma_ticker := default (fun _ => None) (df_ticker (market_at last));
     ma_balances := df_balances (market_at last); ma_positions := df_positions (market_at last); ma_leverage := fun _ => None; ma_feeRate := None |}.

Definition is_prepare (e : Ev) : bool := match projT1 e with OnStore (PrepareExecution _ _ _ _) => true | _ => false end.

(** A store that works, or one that cannot be read after the claim. *)
Definition example_store (readable : bool) (h : list Ev) (c : StoreCall) : result JournalError (store_reply c) :=
  match c return result JournalError (store_reply c) with
  | LoadGuard => if existsb is_prepare h && negb readable then Throw StoreDown else Ok None
  | AssertExposure _ | MarkUnknown _ _ => Ok tt
  | PrepareExecution _ _ _ _ | BeginExecution _ _ => Ok begun_record
  | SettleExecution _ _ _ _ _ _ => Ok true
  | _ => Throw StoreDown
  end.

(** The market moves by a fiftieth before the second preflight and then stays. *)
Definition example_env (readable : bool) (kept : PreparedPlan) : Environment reply := fun h c =>
  match c return reply c with
  | OnStore c => example_store readable h c
  | KeptPlan _ => Some kept
  | KeepPlan _ _ => 0
  | PreparedAt _ => Some 0%float
  | HasConsumed _ | HasInFlight _ | SubmissionsRetired | Aborted => false
  | AddInFlight _ | DropInFlight _ | AddConsumed _ | Issue _ => tt
  | Now => 1000%float
  | SystemTime => "2024-01-01T00:00:01.000Z"%string
  | RandomUUID => "0f"%string
  | QuotaCheck _ _ _ => Ok None
  | ValidateReference => Some false
  | ClassifyFailure _ | AskBalances | AskPositions | AskOpenOrders _ | AskOrders _ _ | AskOrderList _ | AskOrder _ _ => None
  | Confirm _ => Some true
  | AskPlanning => ct_exchange planning
  | AskMarket => market_answers (match calls is_prompt h with 0 => 800%float | _ => 816%float end)
  | AskSnapshot | AskRiskSettings _ => AccountGuard.Failing
  | AskOpening _ => {| oa_ticker := None; oa_book := None; oa_leverage := None; oa_marginType := Failing; oa_projection := Failing; oa_feeRate := None |}
  | LookUp _ => Throw NotAnError
  | Outcome => Ok (OrderResult canceled_order)
  | ClientCancel _ _ | ClientCancelList _ _ | ClientLeverage _ _ | ClientMarginMode _ _ | ClientMultiAssets _ => true
  end.

Definition example_plan : PreparedPlan := AnOrder (plan_of Buy market_buying).
Definition example_run (readable : bool) (timeout : option number) : list Ev * result EngineError (PlaceResult * string) :=
  run (example_env readable example_plan) []
    (place toy_sha256 same_text same_text a_pow example_engine (PlacesOrder 0 (example_policy timeout))).

(** Asked twice, since the market moved, sent once, and settled. *)
Example example_run_ends :
  calls is_prompt (fst (example_run true None)) = 2 /\ calls is_issue (fst (example_run true None)) = 1 /\
  isOk (snd (example_run true None)) = true.
Proof. lazy. done. Qed.

(** A failing read of the account after the claim ends the placement with the claim unreleased and
    the plan free to be submitted again. *)
Theorem failed_read_keeps_claim :
  snd (example_run false None) = Throw (StoreFailed StoreDown) /\
  w_execution (watched (fst (example_run false None))) = Some begun_record /\
  w_closing (watched (fst (example_run false None))) = Unclosed /\ w_hold (watched (fst (example_run false None))) = Dropped.
Proof. lazy. done. Qed.

Lemma submission_is_permitted_witness :
  exists h1 s u h2 prepared rq, fst (example_run true None) = app h1 (existT (Issue s) u :: h2) /\
    permitted example_engine rq (plan_checked same_text same_text a_pow example_engine prepared) (watched h1) s.
Proof.
  destruct (issue_of_call (fst (example_run true None))) as (h1 & s & u & h2 & Hh); [lazy; discriminate|].
  unfold example_run in *. destruct (submission_is_permitted toy_sha256 same_text same_text a_pow example_engine (example_env true example_plan)
    (PlacesOrder 0 (example_policy None)) h1 s u h2 Hh) as (prepared & rq & _ & H). exists h1, s, u, h2, prepared, rq. split; [exact Hh|exact H].
Defined.

Lemma confirmation_is_current_witness :
  exists h1 c b h2 m, fst (example_run true None) = app h1 (existT (Confirm c) b :: h2) /\ w_market (watched h1) = Some m /\
    w_begun (watched h1) = false.
Proof.
  destruct (prompt_of_call (fst (example_run true None))) as (h1 & c & b & h2 & Hh); [lazy; discriminate|].
  unfold example_run in *. destruct (confirmation_is_current toy_sha256 same_text same_text a_pow example_engine (example_env true example_plan)
    (PlacesOrder 0 (example_policy None)) h1 c b h2 Hh) as (prepared & rq & m & preflight & requote & _ & Hm & _ & _ & Hb & _).
  exists h1, c, b, h2, m. split; [exact Hh|]. split; [exact Hm|exact Hb].
Defined.

(** An invalid timeout: nothing is sent, and the outcome is reported as unknown. *)
Lemma bad_timeout_sends_nothing_witness :
  calls is_issue (fst (example_run true (Some (-1)%float))) = 0 /\
  snd (example_run true (Some (-1)%float)) = Throw (RecoveryError (ex_id begun_record) StatusIsUnknown) /\
  w_closing (watched (fst (example_run true (Some (-1)%float)))) = MarkedUnknown.
Proof.
  split; [|lazy; done]. unfold example_run.
  apply (bad_timeout_sends_nothing toy_sha256 same_text same_text a_pow example_engine (example_env true example_plan)
           (PlacesOrder 0 (example_policy (Some (-1)%float)))). lazy. reflexivity.
Defined.
