(* ===== verification/EnginePool.v ===== *)
(** * Concurrent placements

    The placements of one engine share its fields and its single thread: one runs until it
    waits, and then any other may.  Whatever the schedule and whatever their calls reply, a plan
    is sent at most once, and none stays in flight. *)

From Stdlib Require Import ZArith Lia Bool Floats.
From stdpp Require Import base strings option list sets relations.
From S2P Require Import JournalHistory PlanSafety.
From S2P Require Import Prelude Effects Execution ExecutionJournal ExecutionRecovery OrderPlan OrderPreflight Engine EngineSafety EngineRuns.

Local Open Scope nat_scope.

(** ** The pool *)

(** [consumedPlans] and [inFlightPlans] *)
Record Fields := { fd_consumed : list Plan; fd_inFlight : list Plan }.

Record Thread := { th_placement : Placement; th_trace : list Ev; th_rest : P (PlaceResult * string) }.

(** [po_running] is the placement that has not waited since it last went on. *)
Record Pool := { po_fields : Fields; po_threads : list Thread; po_running : option nat }.

Definition answers (m : Fields) (e : Ev) : Prop :=
  match e with existT c r =>
    match c return reply c -> Prop with
    | HasConsumed p => fun b => b = bool_decide (p ∈ fd_consumed m)
    | HasInFlight p => fun b => b = bool_decide (p ∈ fd_inFlight m)
    | _ => fun _ => True
    end r
  end.

Definition writes (m : Fields) (c : Call) : Fields :=
  match c with
  | AddInFlight p => {| fd_consumed := fd_consumed m; fd_inFlight := p :: fd_inFlight m |}
  | DropInFlight p => {| fd_consumed := fd_consumed m; fd_inFlight := filter (fun q => q <> p) (fd_inFlight m) |}
  | AddConsumed p => {| fd_consumed := p :: fd_consumed m; fd_inFlight := fd_inFlight m |}
  | _ => m
  end.

Definition finished (t : Thread) : bool := match th_rest t with Do _ _ => false | _ => true end.
(** Returned, or waiting for a reply. *)
Definition waits (t : Thread) : bool := match th_rest t with Do c _ => awaited c | _ => true end.

Section Pool.
Variable sha256 : string -> string.
Variables toUpperCase toLowerCase : string -> string.
Variable pow : JsNumber.number -> JsNumber.number -> JsNumber.number.
Variable E : Engine.

Definition fresh_thread (p : Placement) : Thread :=
  {| th_placement := p; th_trace := []; th_rest := place sha256 toUpperCase toLowerCase pow E p |}.
Definition goes_on (t : Thread) (e : Ev) (rest : P (PlaceResult * string)) : Thread :=
  {| th_placement := th_placement t; th_trace := app (th_trace t) [e]; th_rest := rest |}.

Inductive step : Pool -> Pool -> Prop :=
  | starts m l p : step {| po_fields := m; po_threads := l; po_running := None |}
                        {| po_fields := m; po_threads := app l [fresh_thread p]; po_running := None |}
  | acts m l running i t c k r :
      l !! i = Some t -> th_rest t = Do c k -> answers m (existT c r) ->
      running = None \/ (running = Some i /\ awaited c = false) ->
      step {| po_fields := m; po_threads := l; po_running := running |}
           {| po_fields := writes m c; po_threads := <[i := goes_on t (existT c r) (k r)]> l; po_running := Some i |}
  | yields m l i t :
      l !! i = Some t -> waits t = true ->
      step {| po_fields := m; po_threads := l; po_running := Some i |} {| po_fields := m; po_threads := l; po_running := None |}.

Definition idle : Pool := {| po_fields := {| fd_consumed := []; fd_inFlight := [] |}; po_threads := []; po_running := None |}.
Definition reachable (s : Pool) : Prop := rtc step idle s.

(** ** What a placement does with its plan *)

Definition handles (plan : Plan) (w : Watch) (c : Call) : Prop :=
  (awaited c = true -> settled_hold (w_hold w) = true) /\
  match c with
  | HasConsumed p => p = plan /\ w_hold w = Away
  | HasInFlight p => p = plan /\ w_hold w = Unconsumed
  | AddInFlight p => p = plan /\ w_hold w = Free
  | DropInFlight p => p = plan /\ (w_hold w = Held \/ w_hold w = SpentHeld)
  | AddConsumed p => p = plan /\ (w_hold w = Held \/ w_hold w = Dropped)
  | Issue _ => w_hold w = Spent /\ w_issued w = 0
  | _ => True
  end.

(** A placement that has ended holds nothing. *)
Definition let_go {A} (w : Watch) (r : result EngineError A) : Prop := w_hold w <> Held /\ w_hold w <> SpentHeld.

Lemma may_handles rq checked w c : may E rq checked w c -> handles (rq_plan rq) w c.
Proof.
  intros [Hs Hm]. split; [done|]. destruct c; try done. destruct Hm. done.
Qed.

Lemma accounted_lets_go w r : accounted w r -> let_go w r.
Proof.
  unfold let_go. destruct 1 as [w h e (-> & _) [Hh| ->] N| w r e (-> & _)| w r e (-> & _)|w r e e' (-> & _)|w r n why (-> & _)|w r e b (-> & _)
    |w r answer o b (-> & _)]; try (by split).
  destruct h; by split.
Qed.

Lemma opens_silently p plan w :
  stage w = stage unwatched ->
  wp (handles plan) watch (placing sha256 toUpperCase toLowerCase pow E p)
    (fun w' r => stage w' = stage unwatched /\
       match r with Ok rq => exists prepared ids, rq = plan_request toUpperCase toLowerCase pow E (plan_of_placement p) prepared ids (policy_of p) | _ => True end) w.
Proof.
  intros Hw. destruct p as [q policy|q policy]; cbn [placing]; unfold placing_order, placing_oco, kept_order, kept_oco; apply wp_bind.
  - apply wp_call_bind; [by split|]. intros [[o|o]|]; cbn [wp]; [|by split..]. apply wp_call_bind; [by split|]. intros uuid.
    assert (Done : forall w' ids, stage w' = stage unwatched -> stage w' = stage unwatched /\ exists prepared ids0,
      order_request toUpperCase toLowerCase pow E q o ids policy = plan_request toUpperCase toLowerCase pow E q prepared ids0 policy)
      by (intros w' ids Hs; split; [done|]; by exists (AnOrder o), ids).
    destruct (pl_replacementIds policy); [|by apply Done]. apply wp_bind. destruct (pd_countTowardsDailyLimit o); [by split|].
    apply wp_bind. unfold guard_state. destruct (configured E); [|by split]. apply wp_call_bind; [by split|].
    intros [[a|]|e]; cbn [wp of_result]; [|by split..]. destruct (negb (en_replaces E)); [by split|]. by apply Done.
  - apply wp_call_bind; [by split|]. intros [[o|o]|]; cbn [wp]; [by split| |by split]. apply wp_call_bind; [by split|]. intros uuid.
    split; [done|]. by eexists (AnOco o), _.
Qed.

Lemma wp_handles {A} plan rq checked (m : P A) Q w :
  rq_plan rq = plan -> wp (may E rq checked) watch m Q w -> wp (handles plan) watch m Q w.
Proof.
  intros <-. revert w. induction m as [a|e|c k IH]; intros w; [done|done|]. intros [Hc Hk]. split; [by eapply may_handles|]. intros r. by apply IH.
Qed.

Lemma place_handles p w :
  stage w = stage unwatched -> wp (handles (plan_of_placement p)) watch (place sha256 toUpperCase toLowerCase pow E p) let_go w.
Proof.
  intros Hw. rewrite place_placing. apply wp_bind. eapply wp_mono; [|by apply opens_silently].
  intros w' [rq|e] [Hs Hr]; [|by injection Hs as H _; unfold let_go; rewrite H]. destruct Hr as (prepared & ids & ->).
  eapply wp_mono; [by apply accounted_lets_go|]. eapply wp_handles; [apply request_plan|]. by apply (wp_submission E _ _ (reads_plan _ _ _ _ _ _ _ _)).
Qed.

(** ** The invariant *)

Definition its_plan (t : Thread) : Plan := plan_of_placement (th_placement t).
Definition hold (t : Thread) : Hold := w_hold (watched (th_trace t)).
Definition issued (t : Thread) : nat := w_issued (watched (th_trace t)).

(** How a call moves what a placement knows of its plan. *)
Inductive moves (m : Fields) (plan : Plan) : Hold -> Hold -> Fields -> Prop :=
  | mv_stay h : moves m plan h h m
  | mv_spent : moves m plan Away Away m
  | mv_unconsumed : plan ∉ fd_consumed m -> moves m plan Away Unconsumed m
  | mv_taken : moves m plan Unconsumed Away m
  | mv_free : plan ∉ fd_inFlight m -> moves m plan Unconsumed Free m
  | mv_take : moves m plan Free Held (writes m (AddInFlight plan))
  | mv_drop : moves m plan Held Dropped (writes m (DropInFlight plan))
  | mv_done : moves m plan SpentHeld Spent (writes m (DropInFlight plan))
  | mv_spend : moves m plan Dropped Spent (writes m (AddConsumed plan))
  | mv_bar : moves m plan Held SpentHeld (writes m (AddConsumed plan)).

Lemma act_moves m plan w c r :
  handles plan w c -> answers m (existT c r) -> moves m plan (w_hold w) (w_hold (watch w (existT c r))) (writes m c).
Proof.
  intros [_ Hc] Ha. destruct c; cbn in *; try apply mv_stay.
  - destruct Hc as [-> ->]. subst r. case_bool_decide; constructor. done.
  - destruct Hc as [-> ->]. subst r. case_bool_decide; constructor. done.
  - destruct Hc as [-> ->]. apply mv_take.
  - destruct Hc as [-> [-> | ->]]; constructor.
  - destruct Hc as [-> [-> | ->]]; constructor.
Qed.

Lemma act_issued plan w c r :
  handles plan w c -> w_issued w <= 1 /\ (w_issued w = 1 -> w_hold w = Spent) ->
  w_issued (watch w (existT c r)) <= 1 /\ (w_issued (watch w (existT c r)) = 1 -> w_hold (watch w (existT c r)) = Spent).
Proof.
  intros [_ Hc] [H1 H2]. destruct c; cbn in *; try done.
  - destruct Hc as [_ Hc]. split; [done|]. intros H. rewrite (H2 H) in Hc. done.
  - destruct Hc as [_ Hc]. split; [done|]. intros H. rewrite (H2 H) in Hc. done.
  - destruct Hc as [_ Hc]. split; [done|]. intros H. rewrite (H2 H) in Hc. done.
  - destruct Hc as [_ Hc]. split; [done|]. intros H. rewrite (H2 H) in Hc. by destruct Hc.
  - destruct Hc as [_ Hc]. split; [done|]. intros H. rewrite (H2 H) in Hc. by destruct Hc.
  - destruct Hc as [Hc Z]. rewrite Z. split; [lia|done].
Qed.

Definition holding (h : Hold) : Prop := h = Held \/ h = SpentHeld.

Section Moves.
Context {m : Fields} {plan : Plan} {h h' : Hold} {m' : Fields} (M : moves m plan h h' m').

Lemma moves_consumed q : q ∈ fd_consumed m -> q ∈ fd_consumed m'.
Proof. destruct M; cbn; rewrite ?elem_of_cons; tauto. Qed.
(** Only who holds the plan takes it out of flight. *)
Lemma moves_in_flight q : q ∈ fd_inFlight m -> q <> plan \/ ~ holding h -> q ∈ fd_inFlight m'.
Proof.
  intros Hq D. destruct M; cbn; rewrite ?elem_of_cons, ?list_elem_of_filter; try tauto.
  - destruct D as [D|D]; [done|]. exfalso. apply D. by left.
  - destruct D as [D|D]; [done|]. exfalso. apply D. by right.
Qed.
Lemma moves_flight_back q : q ∈ fd_inFlight m' -> q = plan /\ holding h' \/ q ∈ fd_inFlight m /\ (q = plan -> ~ holding h).
Proof.
  unfold holding. destruct M; cbn; rewrite ?elem_of_cons, ?list_elem_of_filter; intros Hq;
    (destruct (decide (q = plan)) as [->|]; [|intuition congruence]).
  all: try (right; split; [tauto|]; intros _ [C|C]; discriminate C).
  all: try (left; tauto). all: try (by destruct Hq).
  destruct h; try (left; split; [done|]; tauto); right; (split; [done|]); intros _ [C|C]; discriminate C.
Qed.
Lemma moves_spent : h' = SpentHeld \/ h' = Spent -> (h = SpentHeld \/ h = Spent -> plan ∈ fd_consumed m) -> plan ∈ fd_consumed m'.
Proof. destruct M; intros [C|C] K; try discriminate C; cbn; rewrite ?elem_of_cons; tauto. Qed.
Lemma moves_held : holding h' -> (holding h -> plan ∈ fd_inFlight m) -> plan ∈ fd_inFlight m'.
Proof. unfold holding. destruct M; intros [C|C] K; try discriminate C; cbn; rewrite ?elem_of_cons; tauto. Qed.
End Moves.
#[local] Instance Hold_eq_dec : EqDecision Hold.
Proof. solve_decision. Defined.
#[local] Instance holding_dec h : Decision (holding h).
Proof. unfold holding. apply _. Defined.
Definition owns (t : Thread) : Prop := holding (hold t) \/ hold t = Spent \/ (hold t = Dropped /\ finished t = false).

Record thread_ok (m : Fields) (running : option nat) (i : nat) (t : Thread) : Prop := {
  ok_rest : wp (handles (its_plan t)) watch (th_rest t) let_go (watched (th_trace t));
  ok_alone : settled_hold (hold t) = false -> finished t = true \/ running = Some i;
  ok_spent : hold t = SpentHeld \/ hold t = Spent -> its_plan t ∈ fd_consumed m;
  ok_held : holding (hold t) -> its_plan t ∈ fd_inFlight m;
  ok_read : finished t = false -> hold t = Unconsumed \/ hold t = Free -> its_plan t ∉ fd_consumed m;
  ok_free : finished t = false -> hold t = Free -> its_plan t ∉ fd_inFlight m;
  ok_issued : issued t <= 1 /\ (issued t = 1 -> hold t = Spent)
}.

Record pool_ok (s : Pool) : Prop := {
  ok_threads : forall i t, po_threads s !! i = Some t -> thread_ok (po_fields s) (po_running s) i t;
  ok_one : forall i j t u, po_threads s !! i = Some t -> po_threads s !! j = Some u -> its_plan t = its_plan u -> owns t -> owns u -> i = j;
  ok_flight : forall p, p ∈ fd_inFlight (po_fields s) -> exists i t, po_threads s !! i = Some t /\ its_plan t = p /\ holding (hold t)
}.

Lemma idle_ok : pool_ok idle.
Proof. split; cbn; [intros i t H; by rewrite lookup_nil in H|intros i j t u H; by rewrite lookup_nil in H|set_solver]. Qed.

Lemma finished_holds_nothing m running i t : thread_ok m running i t -> finished t = true -> ~ holding (hold t).
Proof.
  intros H F. pose proof (ok_rest _ _ _ _ H) as Hw. unfold finished in F. destruct (th_rest t) as [a|e|c k]; [| |done];
    destruct Hw as [H1 H2]; (intros [C|C]; [by apply H1|by apply H2]).
Qed.

(** Which thread acts is the only one that may be between a reading and a write. *)
Lemma others_settled m running i j u : thread_ok m running j u -> running = None \/ running = Some i -> i <> j -> settled_hold (hold u) = false -> finished u = true.
Proof. intros H Hr N Hs. destruct (ok_alone _ _ _ _ H Hs) as [|Hj]; [done|]. destruct Hr; congruence. Qed.

Lemma starts_ok m l p :
  pool_ok {| po_fields := m; po_threads := l; po_running := None |} ->
  pool_ok {| po_fields := m; po_threads := app l [fresh_thread p]; po_running := None |}.
Proof.
  intros [Ht Ho Hf]. cbn in *.
  assert (New : forall i t, app l [fresh_thread p] !! i = Some t -> l !! i = Some t \/ t = fresh_thread p).
  { intros i t [H|[_ H]]%lookup_app_Some; [by left|]. right. by apply list_lookup_singleton_Some in H as [_ <-]. }
  assert (Away_new : hold (fresh_thread p) = Away) by done.
  split; cbn.
  - intros i t [H| ->]%New; [by apply Ht|]. split; try rewrite Away_new; unfold holding; try (by intros); try (by intros [|]); try (by intros _ [|]).
    + by apply place_handles.
    + split; cbn; lia.
  - intros i j t u Hi Hj E1 O1 O2. assert (N : ~ owns (fresh_thread p)) by (unfold owns, holding; rewrite Away_new; naive_solver).
    destruct (New _ _ Hi) as [Hi'| ->]; [|done]. destruct (New _ _ Hj) as [Hj'| ->]; [|done]. by eapply Ho.
  - intros q Hq. destruct (Hf q Hq) as (i & t & Hi & H). exists i, t. split; [by apply lookup_app_l_Some|done].
Qed.

Lemma yields_ok m l i t :
  pool_ok {| po_fields := m; po_threads := l; po_running := Some i |} -> l !! i = Some t -> waits t = true ->
  pool_ok {| po_fields := m; po_threads := l; po_running := None |}.
Proof.
  intros [Ht Ho Hf] Hi Hw. split; cbn in *; [|done|done]. intros j u Hj. destruct (Ht j u Hj) as [H1 H2 H3 H4 H5 H6 H7]. split; try done.
  intros Hs. destruct (H2 Hs) as [|[= <-]]; [by left|]. left. assert (u = t) as -> by congruence. unfold finished, waits in *.
  destruct (th_rest t) as [a|e|c k]; [done|done|]. destruct H1 as [[Hc _] _]. unfold hold in Hs. by rewrite Hc in Hs.
Qed.

Section Act.
Context (m : Fields) (l : list Thread) (running : option nat) (i : nat) (t : Thread) (c : Call)
  (k : reply c -> P (PlaceResult * string)) (r : reply c).
Context (Hok : pool_ok {| po_fields := m; po_threads := l; po_running := running |}).
Context (Hi : l !! i = Some t) (Hc : th_rest t = Do c k) (Ha : answers m (existT c r)).
Context (Hr : running = None \/ (running = Some i /\ awaited c = false)).

Abbreviation t' := (goes_on t (existT c r) (k r)).
Abbreviation m' := (writes m c).

Lemma act_unfinished : finished t = false.
Proof. unfold finished. by rewrite Hc. Qed.

Lemma act_handles : handles (its_plan t) (watched (th_trace t)) c.
Proof. pose proof (ok_rest _ _ _ _ (ok_threads _ Hok i t Hi)) as H. rewrite Hc in H. by destruct H. Qed.

Lemma act_watched : watched (th_trace t') = watch (watched (th_trace t)) (existT c r).
Proof. apply (observed_app watch unwatched (th_trace t) [_]). Qed.

Lemma act_hold : moves m (its_plan t) (hold t) (hold t') m'.
Proof. unfold hold. rewrite act_watched. apply act_moves; [apply act_handles|done]. Qed.

(** Another thread with the plan does not own what this one holds or may take. *)
Lemma act_others j u : l !! j = Some u -> i <> j -> its_plan u = its_plan t -> owns t \/ hold t = Free -> ~ owns u.
Proof.
  intros Hj N Ep [O|F] Ou; [by apply N, (ok_one _ Hok i j t u)|].
  pose proof (ok_threads _ Hok i t Hi) as Kt. pose proof (ok_threads _ Hok j u Hj) as Ku. cbn in *.
  destruct Ou as [Ou|[Ou|[Ou Fu]]].
  - apply (ok_free _ _ _ _ Kt act_unfinished F). rewrite <- Ep. by apply (ok_held _ _ _ _ Ku).
  - apply (ok_read _ _ _ _ Kt act_unfinished); [by right|]. rewrite <- Ep. apply (ok_spent _ _ _ _ Ku). by right.
  - assert (settled_hold (hold u) = false) as Hs by (by rewrite Ou).
    pose proof (others_settled _ _ i _ _ Ku ltac:(destruct Hr; tauto) N Hs). congruence.
Qed.

Lemma act_self : thread_ok m' (Some i) i t'.
Proof.
  pose proof (ok_threads _ Hok i t Hi) as [K1 K2 K3 K4 K5 K6 K7]. pose proof act_hold as M. cbn [po_fields] in *.
  specialize (K5 act_unfinished). specialize (K6 act_unfinished).
  split; change (its_plan t') with (its_plan t).
  - rewrite act_watched. revert K1. rewrite Hc. intros [_ K1]. apply K1.
  - by right.
  - intros C. by apply (moves_spent M).
  - intros C. by apply (moves_held M).
  - intros _. destruct M; intros [C|C]; try discriminate C; cbn; try done; by (apply K5; tauto).
  - intros _. destruct M; intros C; try discriminate C; cbn; try done; by apply K6.
  - unfold issued, hold. rewrite act_watched. eapply act_issued; [apply act_handles|done].
Qed.

Lemma act_other j u : l !! j = Some u -> i <> j -> thread_ok m' (Some i) j u.
Proof.
  intros Hj N. pose proof (ok_threads _ Hok j u Hj) as Ku. cbn in Ku.
  assert (Fin : settled_hold (hold u) = false -> finished u = true) by (apply (others_settled _ _ i _ _ Ku); [destruct Hr; tauto|done]).
  pose proof (act_others j u Hj N) as Others. destruct Ku as [K1 K2 K3 K4 K5 K6 K7]. pose proof act_hold as M.
  split; [done|by intros H; left; auto| | | | |done].
  - intros C. by apply (moves_consumed M), K3.
  - intros C. apply (moves_in_flight M _ (K4 C)). destruct (decide (its_plan u = its_plan t)) as [Ep|]; [right|by left].
    intros O. refine (Others Ep _ _); [left|]; by left.
  - intros F [C|C]; rewrite Fin in F; try done; by rewrite C.
  - intros F C; rewrite Fin in F; try done; by rewrite C.
Qed.

Lemma act_flight p : p ∈ fd_inFlight m' -> exists j u, <[i := t']> l !! j = Some u /\ its_plan u = p /\ holding (hold u).
Proof.
  intros Hp. pose proof act_hold as M. assert (Li : i < length l) by (by eapply lookup_lt_Some).
  apply (moves_flight_back M) in Hp as [[-> Hh]|Hp'].
  { exists i, t'. split; [by apply list_lookup_insert_eq|done]. }
  destruct Hp' as [Hp' Hn]. destruct (ok_flight _ Hok p Hp') as (j & u & Hj & Ep & Hh). cbn in Hj.
  exists j, u. split; [|done]. rewrite list_lookup_insert_ne; [done|]. intros <-. assert (u = t) as -> by congruence. by apply (Hn (eq_sym Ep)).
Qed.

Lemma acts_ok : pool_ok {| po_fields := m'; po_threads := <[i := t']> l; po_running := Some i |}.
Proof.
  assert (Li : i < length l) by (by eapply lookup_lt_Some). split; cbn.
  - intros j u Hj. destruct (decide (i = j)) as [<-|N].
    + rewrite list_lookup_insert_eq in Hj by done. injection Hj as <-. apply act_self.
    + rewrite list_lookup_insert_ne in Hj by done. by apply act_other.
  - assert (Gain : owns t' -> owns t \/ hold t = Free).
    { unfold owns, holding. pose proof act_hold as M. pose proof act_unfinished. destruct M; intuition congruence. }
    intros j1 j2 u1 u2 H1 H2 Ep O1 O2.
    destruct (decide (i = j1)) as [<-|N1], (decide (i = j2)) as [<-|N2]; [done|..].
    + rewrite list_lookup_insert_eq in H1 by done. rewrite list_lookup_insert_ne in H2 by done. injection H1 as <-. exfalso. by apply (act_others j2 u2 H2 N2 (eq_sym Ep) (Gain O1)).
    + rewrite list_lookup_insert_eq in H2 by done. rewrite list_lookup_insert_ne in H1 by done. injection H2 as <-.
      exfalso. by apply (act_others j1 u1 H1 N1 Ep (Gain O2)).
    + rewrite list_lookup_insert_ne in H1, H2 by done. by apply (ok_one _ Hok j1 j2 u1 u2).
  - apply act_flight.
Qed.
End Act.

Lemma step_ok s s' : step s s' -> pool_ok s -> pool_ok s'.
Proof.
  destruct 1 as [m l p|m l running i t c k r Hi Hc Ha Hr|m l i t Hi Hw]; intros H.
  - by apply starts_ok.
  - by eapply acts_ok.
  - by eapply yields_ok.
Qed.

Lemma reachable_induction (Q : Pool -> Prop) s : Q idle -> (forall s s', step s s' -> Q s -> Q s') -> reachable s -> Q s.
Proof. intros H0 Hs H. unfold reachable in H. remember idle as s0 eqn:E0. clear E0. induction H; eauto. Qed.

Lemma reachable_ok s : reachable s -> pool_ok s.
Proof. apply reachable_induction; [apply idle_ok|intros; by eapply step_ok]. Qed.

(** The placement that runs is one of the pool. *)
Lemma running_exists s : reachable s -> forall i, po_running s = Some i -> i < length (po_threads s).
Proof.
  apply (reachable_induction (fun s => forall i, po_running s = Some i -> i < length (po_threads s))); [done|].
  intros s1 s2 H _. destruct H as [|m l run i t c k r Hi|]; cbn; [done| |done]. intros j [= <-]. rewrite length_insert. by eapply lookup_lt_Some.
Qed.

(** ** Every placement can end *)

(** An environment that fails. *)
Definition no_answer (c : Call) : reply c :=
  match c return reply c with
  | OnStore _ => Throw StoreDown
  | KeptPlan _ | PreparedAt _ | ValidateReference | ClassifyFailure _ | Confirm _ | AskBalances | AskPositions | AskOpenOrders _ | AskOrders _ _
  | AskOrderList _ | AskOrder _ _ => None
  | KeepPlan _ _ => 0
  | HasConsumed _ | HasInFlight _ | SubmissionsRetired | Aborted => true
  | AddInFlight _ | DropInFlight _ | AddConsumed _ | Issue _ => tt
  | Now => PrimFloat.nan
  | SystemTime | RandomUUID => EmptyString
  | QuotaCheck _ _ _ => Ok None
  | AskPlanning => {| md_id := EmptyString; md_ticker := fun _ => None; md_market := fun _ => None; md_positions := None |}
  | AskMarket => {| ma_market := fun _ => None; ma_ticker := fun _ => None; ma_balances := None; ma_positions := None; ma_leverage := fun _ => None;
                    ma_feeRate := None |}
  | AskSnapshot | AskRiskSettings _ => AccountGuard.Failing
  | AskOpening _ => {| AccountGuard.oa_ticker := None; AccountGuard.oa_book := None; AccountGuard.oa_leverage := None;
                       AccountGuard.oa_marginType := AccountGuard.Failing; AccountGuard.oa_projection := AccountGuard.Failing;
                       AccountGuard.oa_feeRate := None |}
  | LookUp _ | Outcome => Throw NotAnError
  | ClientCancel _ _ | ClientCancelList _ _ | ClientLeverage _ _ | ClientMarginMode _ _ | ClientMultiAssets _ => false
  end.

(** What the fields say, and otherwise what an environment does. *)
Definition respond (env : Environment reply) (m : Fields) (h : list Ev) (c : Call) : reply c :=
  match c return reply c -> reply c with
  | HasConsumed p => fun _ => bool_decide (p ∈ fd_consumed m)
  | HasInFlight p => fun _ => bool_decide (p ∈ fd_inFlight m)
  | _ => fun r => r
  end (env h c).

Lemma respond_answers env m h c : answers m (existT c (respond env m h c)).
Proof. by destruct c. Qed.

(** A placement that runs to its end while the others wait. *)
Fixpoint drive (env : Environment reply) (p : Placement) (m : Fields) (h : list Ev) (rest : P (PlaceResult * string)) : Fields * Thread :=
  match rest with
  | Do c k => let r := respond env m h c in drive env p (writes m c) (app h [existT c r]) (k r)
  | _ => (m, {| th_placement := p; th_trace := h; th_rest := rest |})
  end.

Lemma drive_finished env p m h rest : finished (snd (drive env p m h rest)) = true.
Proof. revert m h. induction rest as [a|e|c k IH]; intros m h; [done|done|apply IH]. Qed.

Lemma drive_steps env i p m h rest l running :
  l !! i = Some {| th_placement := p; th_trace := h; th_rest := rest |} -> running = None \/ running = Some i ->
  rtc step {| po_fields := m; po_threads := l; po_running := running |}
           {| po_fields := fst (drive env p m h rest); po_threads := <[i := snd (drive env p m h rest)]> l; po_running := None |}.
Proof.
  revert h m l running. induction rest as [a|e|c k IH]; intros h m l running Hi Hr.
  1,2: cbn [drive fst snd]; rewrite (list_insert_id l i _ Hi); destruct Hr as [-> | ->]; [apply rtc_refl|apply rtc_once; by eapply yields].
  set (r := respond env m h c).
  assert (Go : forall run, run = None \/ (run = Some i /\ awaited c = false) -> rtc step {| po_fields := m; po_threads := l; po_running := run |}
    {| po_fields := fst (drive env p m h (Do c k)); po_threads := <[i := snd (drive env p m h (Do c k))]> l; po_running := None |}).
  { intros run Hrun. set (t1 := {| th_placement := p; th_trace := app h [existT c r]; th_rest := k r |}).
    pose proof (IH r (app h [existT c r]) (writes m c) (<[i := t1]> l) (Some i)) as S. rewrite list_insert_insert_eq in S.
    eapply rtc_l; [|apply S; [by apply list_lookup_insert_eq; eapply lookup_lt_Some|by right]].
    eapply (acts m l run i _ c k r Hi); [done|apply respond_answers|done]. }
  destruct Hr as [-> | ->]; [apply Go; by left|]. destruct (awaited c) eqn:A; [|apply Go; by right].
  eapply rtc_l; [by eapply yields|]. apply Go. by left.
Qed.

Lemma thread_ends i t m l running :
  l !! i = Some t -> running = None \/ running = Some i ->
  exists m' u, finished u = true /\
    rtc step {| po_fields := m; po_threads := l; po_running := running |} {| po_fields := m'; po_threads := <[i := u]> l; po_running := None |}.
Proof.
  destruct t as [p h rest]. intros Hi Hr. exists (fst (drive (fun _ => no_answer) p m h rest)), (snd (drive (fun _ => no_answer) p m h rest)).
  split; [apply drive_finished|by apply drive_steps].
Qed.

Lemma all_end n m l :
  n <= length l -> exists m' l', rtc step {| po_fields := m; po_threads := l; po_running := None |} {| po_fields := m'; po_threads := l'; po_running := None |} /\
    length l' = length l /\ forall i t, i < n -> l' !! i = Some t -> finished t = true.
Proof.
  induction n as [|n IH]; intros Hn; [exists m, l; split_and!; [apply rtc_refl|done|lia]|].
  destruct (IH ltac:(lia)) as (m1 & l1 & S1 & L1 & F1). destruct (lookup_lt_is_Some_2 l1 n ltac:(lia)) as [t Ht].
  destruct (thread_ends n t m1 l1 None Ht ltac:(by left)) as (m2 & u & Fu & S2). exists m2, (<[n := u]> l1).
  split; [by etrans|]. split; [by rewrite length_insert|]. intros i x Hi. destruct (decide (n = i)) as [<-|N].
  - rewrite list_lookup_insert_eq by lia. by intros [= <-].
  - rewrite list_lookup_insert_ne by done. apply F1. lia.
Qed.

Lemma may_yield s : reachable s -> exists s', rtc step s s' /\ po_running s' = None.
Proof.
  destruct s as [m l [i|]]; intros Hs; [|by eexists]. destruct (l !! i) as [t|] eqn:Hi.
  - destruct (thread_ends i t m l (Some i) Hi ltac:(by right)) as (m' & u & _ & S). by eexists.
  - exfalso. pose proof (running_exists _ Hs i eq_refl) as G. cbn in G. apply lookup_lt_is_Some_2 in G as [t Ht]. congruence.
Qed.

(** ** Theorems *)

Lemma issued_calls t : issued t = calls is_issue (th_trace t).
Proof. apply (watched_counts (th_trace t) unwatched). Qed.

(** C2: A plan is sent to the exchange at most once, whatever placements of it an engine is asked
    for, however they interleave and whatever their calls reply. *)
Theorem plan_is_sent_once s i j t u :
  reachable s -> po_threads s !! i = Some t -> po_threads s !! j = Some u -> its_plan t = its_plan u -> i <> j ->
  calls is_issue (th_trace t) + calls is_issue (th_trace u) <= 1.
Proof.
  intros H%reachable_ok Hi Hj Ep N. destruct (ok_issued _ _ _ _ (ok_threads _ H i t Hi)) as [T1 T2].
  destruct (ok_issued _ _ _ _ (ok_threads _ H j u Hj)) as [U1 U2]. rewrite <- !issued_calls.
  destruct (decide (issued t = 1 /\ issued u = 1)) as [[Et Eu]|]; [|lia]. exfalso. apply N, (ok_one _ H i j t u); try done; right; left; auto.
Qed.

(** C4: No plan stays in flight: a plan that is marked so is held by a placement that has not
    ended, and from every state the placements can all end, after which nothing is in flight. *)
Theorem nothing_stays_in_flight s :
  reachable s ->
  (forall p, p ∈ fd_inFlight (po_fields s) -> exists i t, po_threads s !! i = Some t /\ its_plan t = p /\ finished t = false) /\
  exists s', rtc step s s' /\ (forall i t, po_threads s' !! i = Some t -> finished t = true) /\ fd_inFlight (po_fields s') = [].
Proof.
  intros Hs. assert (Held_by : forall s, reachable s -> forall p, p ∈ fd_inFlight (po_fields s) ->
    exists i t, po_threads s !! i = Some t /\ its_plan t = p /\ finished t = false).
  { intros s0 H0%reachable_ok p Hp. destruct (ok_flight _ H0 p Hp) as (i & t & Hi & Ep & Hh). exists i, t. split_and!; [done|done|].
    destruct (finished t) eqn:F; [|done]. exfalso. by eapply finished_holds_nothing; [apply (ok_threads _ H0)|..]. }
  split; [by apply Held_by|]. destruct (may_yield s Hs) as ([m l run] & S1 & R1). cbn in R1. subst run.
  destruct (all_end (length l) m l) as (m' & l' & S2 & L & F); [done|]. exists {| po_fields := m'; po_threads := l'; po_running := None |}.
  assert (S : rtc step s {| po_fields := m'; po_threads := l'; po_running := None |}) by (by etrans).
  assert (Fin : forall i t, l' !! i = Some t -> finished t = true) by (intros i t Hi; apply (F i t); [rewrite <- L; by eapply lookup_lt_Some|done]).
  split; [done|]. split; [done|]. cbn. destruct (fd_inFlight m') as [|p rest] eqn:Hm; [done|exfalso]. assert (Hp : p ∈ fd_inFlight m') by (rewrite Hm; by left).
  destruct (Held_by {| po_fields := m'; po_threads := l'; po_running := None |} (transitivity Hs S) p Hp) as (i & t & Hi & _ & Hf). cbn in Hi. apply Fin in Hi. congruence.
Qed.
End Pool.

(** ** A run of two placements *)

Definition twice : Placement := PlacesOrder 0 (example_policy None).
Definition example_thread : Thread := fresh_thread toy_sha256 same_text same_text a_pow example_engine twice.
Definition no_fields : Fields := {| fd_consumed := []; fd_inFlight := [] |}.
Definition first_place : Fields * Thread := drive (example_env true example_plan) twice no_fields [] (th_rest example_thread).
Definition second_place : Fields * Thread := drive (example_env true example_plan) twice (fst first_place) [] (th_rest example_thread).
Definition example_pool : Pool :=
  {| po_fields := fst second_place; po_threads := [snd first_place; snd second_place]; po_running := None |}.

Lemma example_reachable : reachable toy_sha256 same_text same_text a_pow example_engine example_pool.
Proof.
  unfold reachable. etrans; [apply rtc_once, (starts _ _ _ _ _ no_fields [] twice)|].
  etrans; [apply rtc_once, (starts _ _ _ _ _ no_fields [example_thread] twice)|].
  etrans; [apply (drive_steps toy_sha256 same_text same_text a_pow example_engine (example_env true example_plan) 0 twice no_fields []
             (th_rest example_thread) [example_thread; example_thread] None); [done|by left]|].
  apply (drive_steps toy_sha256 same_text same_text a_pow example_engine (example_env true example_plan) 1 twice (fst first_place) []
           (th_rest example_thread) [snd first_place; example_thread] None); [done|by left].
Qed.

(** The first placement sends, the second is refused. *)
Lemma plan_is_sent_once_witness :
  calls is_issue (th_trace (snd first_place)) + calls is_issue (th_trace (snd second_place)) <= 1 /\
  calls is_issue (th_trace (snd first_place)) = 1.
Proof.
  split; [|lazy; reflexivity].
  apply (plan_is_sent_once toy_sha256 same_text same_text a_pow example_engine example_pool 0 1); [apply example_reachable|..]; try reflexivity.
  discriminate.
Defined.

(** Two placements of a plan that have not begun. *)
Lemma nothing_stays_in_flight_witness :
  exists s', rtc (step toy_sha256 same_text same_text a_pow example_engine)
    {| po_fields := no_fields; po_threads := [example_thread; example_thread]; po_running := None |} s' /\ fd_inFlight (po_fields s') = [].
Proof.
  destruct (nothing_stays_in_flight toy_sha256 same_text same_text a_pow example_engine
    {| po_fields := no_fields; po_threads := [example_thread; example_thread]; po_running := None |}) as [_ (s' & S & _ & H)].
  - unfold reachable. etrans; [apply rtc_once, (starts _ _ _ _ _ no_fields [] twice)|]. apply rtc_once, (starts _ _ _ _ _ no_fields [example_thread] twice).
  - by exists s'.
Defined.
