(* ===== verification/Transitions.v ===== *)
(** * Programs on a state

    The calls of a program as transitions of a state, which may be nondeterministic: a triple
    keeps an invariant at every call, so that it also speaks of runs that stop anywhere. *)

From stdpp Require Import base list relations.
From S2P Require Import Prelude Effects.

Section Transitions.
Context {C : Type} {reply : C -> Type} {X S : Type}.
Variable does : S -> forall c : C, reply c -> S -> Prop.
Abbreviation P := (Prog reply X).

(** A program makes a call. *)
Inductive acts {A} : S * P A -> S * P A -> Prop :=
  act s c k r s' : does s c r s' -> acts (s, Do c k) (s', k r).

(** [I] holds before and after every call, and [Q] at the end. *)
Fixpoint triple (I : S -> Prop) {A} (m : P A) (Q : S -> result X A -> Prop) (s : S) : Prop :=
  I s /\ match m with
         | Ret a => Q s (Ok a)
         | Fail e => Q s (Throw e)
         | Do c k => forall r s', does s c r s' -> triple I (k r) Q s'
         end.

Context (I : S -> Prop).

Lemma triple_now {A} (m : P A) Q s : triple I m Q s -> I s.
Proof. destruct m; by intros []. Qed.

Lemma triple_return {A} (a : A) (Q : S -> result X A -> Prop) s : I s -> Q s (Ok a) -> triple I (Ret a) Q s.
Proof. done. Qed.
Lemma triple_fail {A} e (Q : S -> result X A -> Prop) s : I s -> Q s (Throw e) -> triple I (Fail e) Q s.
Proof. done. Qed.

Lemma triple_mono {A} (m : P A) (Q R : S -> result X A -> Prop) s :
  (forall s r, I s -> Q s r -> R s r) -> triple I m Q s -> triple I m R s.
Proof. intros H. revert s. induction m as [a|e|c k IH]; intros s [Hs Hm]; split; auto. Qed.

Lemma triple_seq {A B} (m : P A) (f : A -> P B) Q s :
  triple I m (fun s r => match r with Ok a => triple I (f a) Q s | Throw e => Q s (Throw e) end) s -> triple I (m ≫= f) Q s.
Proof.
  revert s. induction m as [a|e|c k IH]; intros s [Hs Hm]; [done|done|]. rewrite bind_Do. split; [done|]. intros r s' D. by apply IH, Hm.
Qed.

Lemma triple_attempt {A} (m : P A) Q s : triple I m (fun s r => Q s (Ok r)) s -> triple I (attempt m) Q s.
Proof. revert s. induction m as [a|e|c k IH]; intros s [Hs Hm]; [done|done|]. split; [done|]. intros r s' D. by apply IH, Hm. Qed.

Lemma triple_catch {A} (m : P A) h Q s :
  triple I m (fun s r => match r with Ok a => Q s (Ok a) | Throw e => triple I (h e) Q s end) s -> triple I (tryCatch m h) Q s.
Proof. intros H. apply triple_seq, triple_attempt. eapply triple_mono; [|exact H]. by intros s' [a|e]. Qed.

Lemma triple_call {A} c (f : reply c -> P A) Q s :
  I s -> (forall r s', does s c r s' -> triple I (f r) Q s') -> triple I (call c ≫= f) Q s.
Proof. done. Qed.

(** A program that keeps a set of states and may end anyhow. *)
Definition keeps {A} (J : S -> Prop) (m : P A) : Prop := forall s, J s -> triple I m (fun s _ => J s) s.

Lemma kept_bind {A B} J (m : P A) (f : A -> P B) : keeps J m -> (forall a, keeps J (f a)) -> keeps J (m ≫= f).
Proof. intros Hm Hf s Hs. apply triple_seq. eapply triple_mono; [|by apply Hm]. intros s' [a|e] _ H; [by apply Hf|done]. Qed.
Lemma kept_attempt {A} J (m : P A) : keeps J m -> keeps J (attempt m).
Proof. intros Hm s Hs. by apply triple_attempt, Hm. Qed.
Lemma kept_try {A} J (m : P A) h : keeps J m -> (forall e, keeps J (h e)) -> keeps J (tryCatch m h).
Proof. intros Hm Hh s Hs. apply triple_catch. eapply triple_mono; [|by apply Hm]. intros s' [a|e] _ H; [done|by apply Hh]. Qed.

(** Wherever a run of the program has come, the invariant holds, and the end is as it says. *)
Lemma triple_acts {A} (m m' : P A) Q s s' : triple I m Q s -> rtc acts (s, m) (s', m') -> triple I m' Q s'.
Proof.
  intros H R. remember (s, m) as x eqn:Ex. remember (s', m') as y eqn:Ey. revert s m Ex H.
  induction R as [x|x y z Hxy _ IH]; intros s0 m0 -> H; [by simplify_eq|].
  inversion Hxy as [? c k r s1 D E1 E2]. simplify_eq. destruct H as [_ H]. by eapply IH; [done|done|apply H].
Qed.
End Transitions.
