(* ===== verification/FileSystem.v ===== *)
(** * The file system that persist.ts calls

    Files, directories and what a crash of the machine may leave of them: every directory entry
    and every file text has the value that reads see and older values that are on the disk until
    the next flush.  The calls of node:fs are relations between states, which may also fail. *)

From Stdlib Require Import ZArith Lia Bool Floats.
From stdpp Require Import base strings option list functions relations.
From S2P Require Import Prelude Effects Transitions JsNumber JsValue.

Local Open Scope nat_scope.

(** ** Values that a crash may lose *)

Record Async (A : Type) := { latest : A; older : list A }.
Arguments latest {A} _.
Arguments older {A} _.

Definition possible {A} (a : Async A) : list A := latest a :: older a.
Definition put {A} (x : A) (a : Async A) : Async A := {| latest := x; older := possible a |}.
Definition flush {A} (a : Async A) : Async A := {| latest := latest a; older := [] |}.

(** ** State *)

(** An absolute path, its last component first. *)
Definition Path : Type := list string.
Definition dirname (p : Path) : Path := tail p.
(** [`${path}suffix`] *)
Definition with_suffix (suffix : string) (p : Path) : Path :=
  match p with leaf :: d => String.append leaf suffix :: d | [] => [suffix] end.

(** The text of a file: the JSON value it parses to, or a text that does not parse. *)
Inductive Text := Json (v : value) | Torn.

Inductive Entry := FileAt (ino : nat) | DirectoryAt.

(** What a descriptor is open on. *)
Inductive Fd := OnFile (ino : nat) | OnDirectory (p : Path).

(** A process of a machine; its number is not given again while it is named. *)
Record Proc := { pr_host : string; pr_pid : number }.

Record System := {
  sy_entry : Path -> Async (option Entry);
  sy_text : nat -> Async Text;
  sy_mtime : nat -> number;
  (** the processes that have ended *)
  sy_dead : list Proc
}.

#[export] Instance Entry_dec : EqDecision Entry.
Proof. solve_decision. Defined.
#[export] Instance Fd_dec : EqDecision Fd.
Proof. solve_decision. Defined.

Definition entry (s : System) (p : Path) : option Entry := match p with [] => Some DirectoryAt | _ => latest (sy_entry s p) end.
Definition text (s : System) (i : nat) : Text := latest (sy_text s i).

(** The text that a read of the path finds: its directories must be there. *)
Definition directory_at (s : System) (p : Path) : Prop := entry s p = Some DirectoryAt.
Definition reads (s : System) (p : Path) (t : Text) : Prop :=
  exists i, entry s p = Some (FileAt i) /\ text s i = t /\ forall d, d `suffix_of` dirname p -> directory_at s d.

(** ** Effects *)

Definition set_entry (p : Path) (e : option Entry) (s : System) : System :=
  {| sy_entry := <[p := put e (sy_entry s p)]> (sy_entry s); sy_text := sy_text s; sy_mtime := sy_mtime s; sy_dead := sy_dead s |}.
Definition set_text (i : nat) (t : Text) (s : System) : System :=
  {| sy_entry := sy_entry s; sy_text := <[i := put t (sy_text s i)]> (sy_text s); sy_mtime := sy_mtime s; sy_dead := sy_dead s |}.
Definition set_mtime (i : nat) (at_ : number) (s : System) : System :=
  {| sy_entry := sy_entry s; sy_text := sy_text s; sy_mtime := <[i := at_]> (sy_mtime s); sy_dead := sy_dead s |}.

(** A file that begins empty; [i] may be a number that was used before. *)
Definition create (p : Path) (i : nat) (s : System) : System := set_text i Torn (set_entry p (Some (FileAt i)) s).

(** A text that is written in parts. *)
Definition write (i : nat) (v : value) (s : System) : System := set_text i (Json v) (set_text i Torn s).

Definition flush_file (i : nat) (s : System) : System :=
  {| sy_entry := sy_entry s; sy_text := <[i := flush (sy_text s i)]> (sy_text s); sy_mtime := sy_mtime s; sy_dead := sy_dead s |}.

(** The entries of a directory. *)
Definition flush_directory (d : Path) (s : System) : System :=
  {| sy_entry := fun p => match p with
                          | [] => sy_entry s p
                          | _ :: d' => if decide (d' = d) then flush (sy_entry s p) else sy_entry s p
                          end;
     sy_text := sy_text s; sy_mtime := sy_mtime s; sy_dead := sy_dead s |}.
Definition flush_fd (fd : Fd) : System -> System :=
  match fd with OnFile i => flush_file i | OnDirectory d => flush_directory d end.

(** [mkdir -p] *)
Fixpoint mkdirs (p : Path) (s : System) : System :=
  match p with
  | [] => s
  | _ :: d => let s := mkdirs d s in match entry s p with None => set_entry p (Some DirectoryAt) s | Some _ => s end
  end.

Definition rename (a b : Path) (s : System) : System := set_entry a None (set_entry b (entry s a) s).

(** A crash keeps for every entry and every text one of its possible values. *)
Definition crash (s s' : System) : Prop :=
  (forall p, latest (sy_entry s' p) ∈ possible (sy_entry s p)) /\ (forall i, text s' i ∈ possible (sy_text s i)).

(** A file number that no entry has, not even after a crash. *)
Definition unused (s : System) (i : nat) : Prop := forall p, Some (FileAt i) ∉ possible (sy_entry s p).

(** ** Calls *)

(** The [code] of an error of the system, if it has one. *)
Definition Code : Type := option string.

Inductive FsCall :=
  | ExistsSync (p : Path)
  | MkdirSync (p : Path)
  | OpenRead (p : Path)
  | OpenExclusive (p : Path)
  | WriteFd (fd : Fd) (v : value)
  | FsyncSync (fd : Fd)
  | FstatSync (fd : Fd)
  | CloseSync (fd : Fd)
  | WriteFileSync (p : Path) (v : value) (mode : option Z)
  | ReadFileSync (p : Path)
  | ChmodSync (p : Path) (mode : Z)
  | RenameSync (a b : Path)
  | UnlinkSync (p : Path)
  | StatSync (p : Path)
  | UtimesSync (p : Path) (at_ : number)
  | DateNow
  | Kill (pid : number)
  | Sleep (ms : number).

Record Stats := { st_mtimeMs : number; st_dev : number; st_ino : nat }.

Definition fs_reply (c : FsCall) : Type :=
  match c with
  | ExistsSync _ => bool
  | OpenRead _ => result Code Fd
  | OpenExclusive _ => result Code nat
  | FstatSync _ | StatSync _ => result Code Stats
  | ReadFileSync _ => result Code Text
  | DateNow => number
  | Sleep _ => unit
  | _ => result Code unit
  end.

(** One file system holds the files. *)
Definition device : number := 1%float.
Definition stats_of (s : System) (i : nat) : Stats := {| st_mtimeMs := sy_mtime s i; st_dev := device; st_ino := i |}.

(** A call that fails and changes nothing. *)
Definition fails {A} (s : System) (r : result Code A) (s' : System) : Prop := isOk r = false /\ s' = s.

(** What a call of process [q] may reply, and the state after it.  A text may be written in part,
    directories may be made in part, and any call may fail. *)
Definition does (q : Proc) (s : System) (c : FsCall) : fs_reply c -> System -> Prop :=
  match c with
  | ExistsSync p => fun b s' => s' = s /\ b = match entry s p with Some _ => true | None => false end
  | MkdirSync p => fun r s' =>
      match r with
      | Ok _ => s' = mkdirs p s /\ forall d, d `suffix_of` p -> directory_at s' d
      | Throw _ => exists d, d `suffix_of` p /\ s' = mkdirs d s
      end
  | OpenRead p => fun r s' =>
      fails s r s' \/ s' = s /\ ((exists i, entry s p = Some (FileAt i) /\ r = Ok (OnFile i)) \/ (directory_at s p /\ r = Ok (OnDirectory p)))
  | OpenExclusive p => fun r s' =>
      fails s r s' \/ exists i, entry s p = None /\ unused s i /\ p <> [] /\ r = Ok i /\
                                exists at_, s' = set_mtime i at_ (create p i s)
  | WriteFd fd v => fun r s' =>
      match fd, r with
      | OnFile i, Ok _ => s' = write i v s
      | OnFile i, Throw _ => s' = s \/ s' = set_text i Torn s
      | OnDirectory _, _ => fails s r s'
      end
  | FsyncSync fd => fun r s' => fails s r s' \/ (r = Ok tt /\ s' = flush_fd fd s)
  | FstatSync fd => fun r s' => fails s r s' \/ exists i, fd = OnFile i /\ r = Ok (stats_of s i) /\ s' = s
  | WriteFileSync p v _ => fun r s' =>
      fails s r s' \/
      (exists i, entry s p = Some (FileAt i) /\ ((r = Ok tt /\ s' = write i v s) \/ (isOk r = false /\ s' = set_text i Torn s))) \/
      (exists i, entry s p = None /\ unused s i /\ p <> [] /\
                 ((r = Ok tt /\ s' = write i v (create p i s)) \/ (isOk r = false /\ s' = create p i s)))
  | ReadFileSync p => fun r s' => fails s r s' \/ exists i, entry s p = Some (FileAt i) /\ r = Ok (text s i) /\ s' = s
  | RenameSync a b => fun r s' =>
      fails s r s' \/ exists i, entry s a = Some (FileAt i) /\ a <> [] /\ b <> [] /\ r = Ok tt /\ s' = rename a b s
  | UnlinkSync p => fun r s' => fails s r s' \/ exists i, entry s p = Some (FileAt i) /\ p <> [] /\ r = Ok tt /\ s' = set_entry p None s
  | StatSync p => fun r s' => fails s r s' \/ exists i, entry s p = Some (FileAt i) /\ r = Ok (stats_of s i) /\ s' = s
  | UtimesSync p at_ => fun r s' => fails s r s' \/ exists i, entry s p = Some (FileAt i) /\ r = Ok tt /\ s' = set_mtime i at_ s
  | Kill pid => fun r s' => s' = s /\ (r = Throw (Some "ESRCH"%string) -> {| pr_host := pr_host q; pr_pid := pid |} ∈ sy_dead s)
  | CloseSync _ | ChmodSync _ _ | DateNow | Sleep _ => fun _ s' => s' = s
  end.

(** ** Lemmas *)

Lemma suffix_cons_self {A} (x : A) (l : list A) : ~ (x :: l) `suffix_of` l.
Proof. intros [k E]. apply (f_equal length) in E. rewrite length_app in E. cbn in E. lia. Qed.

Lemma entry_set_eq p e s : p <> [] -> entry (set_entry p e s) p = e.
Proof. intros N. destruct p; [done|]. cbn. by rewrite fn_lookup_insert. Qed.
Lemma entry_set_ne p q e s : p <> q -> entry (set_entry p e s) q = entry s q.
Proof. intros N. destruct q; [done|]. cbn. by rewrite fn_lookup_insert_ne. Qed.
Lemma entry_set_text i t s p : entry (set_text i t s) p = entry s p.
Proof. by destruct p. Qed.
Lemma entry_set_mtime i t s p : entry (set_mtime i t s) p = entry s p.
Proof. by destruct p. Qed.
Lemma entry_write i v s p : entry (write i v s) p = entry s p.
Proof. by destruct p. Qed.
Lemma entry_flush_fd fd s p : entry (flush_fd fd s) p = entry s p.
Proof. destruct fd, p; cbn; try done. by destruct (decide _). Qed.
Lemma text_set_eq i t s : text (set_text i t s) i = t.
Proof. unfold text. cbn. by rewrite fn_lookup_insert. Qed.
Lemma text_set_ne i j t s : i <> j -> text (set_text i t s) j = text s j.
Proof. intros N. unfold text. cbn. by rewrite fn_lookup_insert_ne. Qed.
Lemma text_set_entry p e s i : text (set_entry p e s) i = text s i.
Proof. done. Qed.
Lemma text_flush_fd fd s i : text (flush_fd fd s) i = text s i.
Proof. destruct fd as [j|]; [|done]. unfold text. cbn. destruct (decide (j = i)) as [->|N]; [by rewrite fn_lookup_insert|by rewrite fn_lookup_insert_ne]. Qed.
Lemma text_write_eq i v s : text (write i v s) i = Json v.
Proof. apply text_set_eq. Qed.
Lemma text_write_ne i j v s : i <> j -> text (write i v s) j = text s j.
Proof. intros N. unfold write. by rewrite !text_set_ne. Qed.

Lemma append_extends s c r : String.append s (String c r) <> s.
Proof. induction s as [|a s IH]; [done|]. intros [= E]. by apply IH. Qed.

(** A suffix gives another file of the directory. *)
Lemma with_suffix_ne c r p : p <> [] -> with_suffix (String c r) p <> p.
Proof. destruct p as [|leaf d]; [done|]. cbn. intros _ [= E]. by eapply append_extends. Qed.
Lemma with_suffix_dirname s p : p <> [] -> dirname (with_suffix s p) = dirname p.
Proof. by destruct p. Qed.
Lemma with_suffix_root s p : with_suffix s p <> [].
Proof. by destruct p. Qed.

(** [mkdir -p] touches no file and nothing outside its path. *)
Lemma mkdirs_off p q s : ~ q `suffix_of` p -> sy_entry (mkdirs p s) q = sy_entry s q.
Proof.
  induction p as [|x d IH]; intros N; [done|]. cbn [mkdirs]. assert (Nd : ~ q `suffix_of` d) by (intros H; apply N; by apply suffix_cons_r).
  destruct (entry _ _); [by apply IH|]. cbn. rewrite fn_lookup_insert_ne; [by apply IH|]. intros E. apply N. by rewrite <- E.
Qed.
Lemma mkdirs_text p s : sy_text (mkdirs p s) = sy_text s.
Proof. induction p as [|x d IH]; [done|]. cbn [mkdirs]. by destruct (entry _ _). Qed.
Lemma mkdirs_dead p s : sy_dead (mkdirs p s) = sy_dead s.
Proof. induction p as [|x d IH]; [done|]. cbn [mkdirs]. by destruct (entry _ _). Qed.
Lemma mkdirs_entry p q s : entry (mkdirs p s) q = entry s q \/ (entry s q = None /\ entry (mkdirs p s) q = Some DirectoryAt).
Proof.
  induction p as [|x d IH]; [by left|]. cbn [mkdirs]. destruct (entry (mkdirs d s) (x :: d)) as [e|] eqn:E; [exact IH|].
  destruct (decide (x :: d = q)) as [Eq|N]; [|by rewrite entry_set_ne]. rewrite <- Eq in IH |- *.
  right. rewrite entry_set_eq by done. split; [|done]. destruct IH as [IH|[H _]]; congruence.
Qed.

Lemma suffix_dirname p q : q `suffix_of` p -> q = p \/ q `suffix_of` dirname p.
Proof.
  intros [k ->]. destruct k as [|x k]; [by left|right]. by exists k.
Qed.

(** ** Calls that succeed *)

(** The file numbers in use. *)
Definition below (n : nat) (s : System) : Prop := forall p i, Some (FileAt i) ∈ possible (sy_entry s p) -> i < n.

Definition ended_proc (s : System) (q : Proc) : bool :=
  existsb (fun d => String.eqb (pr_host d) (pr_host q) && PrimFloat.Leibniz.eqb (pr_pid d) (pr_pid q)) (sy_dead s).

(** The directories of a path and the path. *)
Fixpoint chain (p : Path) : list Path := match p with [] => [[]] | _ :: d => p :: chain d end.

(** A call of process [q] at a time that does not fail without a reason; a file that it makes has number [n]. *)
Definition perform (q : Proc) (at_ : number) (n : nat) (s : System) (c : FsCall) : fs_reply c * System :=
  match c return fs_reply c * System with
  | ExistsSync p => (match entry s p with Some _ => true | None => false end, s)
  | MkdirSync p =>
      let s' := mkdirs p s in
      if forallb (fun d => bool_decide (entry s' d = Some DirectoryAt)) (chain p) then (Ok tt, s') else (Throw None, s)
  | OpenRead p =>
      match entry s p with
      | Some (FileAt i) => (Ok (OnFile i), s)
      | Some DirectoryAt => (Ok (OnDirectory p), s)
      | None => (Throw (Some "ENOENT"%string), s)
      end
  | OpenExclusive p =>
      match entry s p with None => (Ok n, set_mtime n at_ (create p n s)) | Some _ => (Throw (Some "EEXIST"%string), s) end
  | WriteFd fd v => match fd with OnFile i => (Ok tt, write i v s) | OnDirectory _ => (Throw None, s) end
  | FsyncSync fd => (Ok tt, flush_fd fd s)
  | FstatSync fd => match fd with OnFile i => (Ok (stats_of s i), s) | OnDirectory _ => (Throw None, s) end
  | CloseSync _ | ChmodSync _ _ => (Ok tt, s)
  | WriteFileSync p v _ =>
      match entry s p with
      | Some (FileAt i) => (Ok tt, write i v s)
      | Some DirectoryAt => (Throw None, s)
      | None => (Ok tt, write n v (create p n s))
      end
  | ReadFileSync p => match entry s p with Some (FileAt i) => (Ok (text s i), s) | _ => (Throw (Some "ENOENT"%string), s) end
  | RenameSync a b =>
      match entry s a, b with Some (FileAt i), _ :: _ => (Ok tt, rename a b s) | _, _ => (Throw (Some "ENOENT"%string), s) end
  | UnlinkSync p => match entry s p with Some (FileAt i) => (Ok tt, set_entry p None s) | _ => (Throw (Some "ENOENT"%string), s) end
  | StatSync p => match entry s p with Some (FileAt i) => (Ok (stats_of s i), s) | _ => (Throw (Some "ENOENT"%string), s) end
  | UtimesSync p t => match entry s p with Some (FileAt i) => (Ok tt, set_mtime i t s) | _ => (Throw (Some "ENOENT"%string), s) end
  | DateNow => (at_, s)
  | Kill pid => (if ended_proc s {| pr_host := pr_host q; pr_pid := pid |} then Throw (Some "ESRCH"%string) else Ok tt, s)
  | Sleep _ => (tt, s)
  end.

Lemma chain_suffix p d : d `suffix_of` p -> d ∈ chain p.
Proof.
  induction p as [|x p IH]; intros H; [destruct H as [k E]; destruct k, d; try done; by left|].
  apply suffix_dirname in H as [->|H]; [by left|right; by apply IH].
Qed.

Lemma ended_dead s q : ended_proc s q = true -> q ∈ sy_dead s.
Proof.
  unfold ended_proc. rewrite existsb_exists. intros (d & Hd & [Hh%String.eqb_eq Hp%FloatAxioms.Leibniz.eqb_spec]%andb_prop).
  apply list_elem_of_In. destruct d, q. cbn in *. by subst.
Qed.

Lemma chain_directories s p :
  forallb (fun d => bool_decide (entry s d = Some DirectoryAt)) (chain p) = true -> forall d, d `suffix_of` p -> directory_at s d.
Proof.
  rewrite forallb_forall. intros H d Hd%chain_suffix%list_elem_of_In. by apply H, bool_decide_eq_true in Hd.
Qed.

Lemma entry_nonempty s p e : entry s p = e -> e <> Some DirectoryAt -> p <> [].
Proof. by intros <- N ->. Qed.

Lemma perform_does q at_ n s c : below n s -> does q s c (fst (perform q at_ n s c)) (snd (perform q at_ n s c)).
Proof.
  intros Hb. assert (U : unused s n) by (intros p Hin%Hb; lia).
  destruct c as [p|p|p|p|[i|p] v|fd|[i|p]|fd|p v mode|p|p mode|a b|p|p|p t| |pid|ms]; cbn [perform does fst snd].
  - done.
  - destruct (forallb _ _) eqn:H; cbn [fst snd]; [split; [done|by apply chain_directories]|]. exists []. split; [apply suffix_nil|done].
  - destruct (entry s p) as [[i|]|] eqn:E; [right..|by left]; (split; [done|]); [left; by exists i|by right].
  - destruct (entry s p) as [e|] eqn:E; [by left|right]. exists n. repeat (split; [done || by eapply entry_nonempty|]). by exists at_.
  - done.
  - by split.
  - by right.
  - right. by exists i.
  - by left.
  - done.
  - destruct (entry s p) as [[i|]|] eqn:E; [right; left|by left|right; right]; [exists i; by auto|].
    exists n. repeat (split; [done || by eapply entry_nonempty|]). by left.
  - destruct (entry s p) as [[i|]|] eqn:E; [right|by left..]. by exists i.
  - done.
  - destruct (entry s a) as [[i|]|] eqn:E; [|by left..]. destruct b; [by left|right]. exists i. split_and!; try done. by eapply entry_nonempty.
  - destruct (entry s p) as [[i|]|] eqn:E; [right|by left..]. exists i. split_and!; try done. by eapply entry_nonempty.
  - destruct (entry s p) as [[i|]|] eqn:E; [right|by left..]. by exists i.
  - destruct (entry s p) as [[i|]|] eqn:E; [right|by left..]. by exists i.
  - done.
  - split; [done|]. destruct (ended_proc _ _) eqn:H; [|done]. intros _. by apply ended_dead.
  - done.
Qed.

(** What the entries of a state may be after a call: those of before, none, a directory, one of
    the file numbers in use, or the new number. *)
Lemma below_set n p e s : below n s -> (forall i, e = Some (FileAt i) -> i < n) -> below n (set_entry p e s).
Proof.
  intros Hb He q i. cbn. destruct (decide (p = q)) as [->|N]; [rewrite fn_lookup_insert|rewrite fn_lookup_insert_ne by done; apply Hb].
  intros [E|Hin]%elem_of_cons; [by apply He|by apply (Hb q)].
Qed.
Lemma below_more n s : below n s -> below (S n) s.
Proof. intros Hb q i Hin%Hb. lia. Qed.
Lemma below_create n p s : below n s -> below (S n) (create p n s).
Proof. intros Hb. intros q i. apply (below_set (S n) p (Some (FileAt n)) s); [by apply below_more|]. intros j [= <-]. lia. Qed.
Lemma below_entry n s p i : below n s -> entry s p = Some (FileAt i) -> i < n.
Proof. intros Hb E. destruct p; [done|]. apply (Hb (s0 :: p)). rewrite <- E. by left. Qed.
Lemma below_mkdirs n p s : below n s -> below n (mkdirs p s).
Proof. intros Hb. induction p as [|x d IH]; [done|]. cbn [mkdirs]. destruct (entry _ _); [done|]. by apply below_set. Qed.
Lemma below_flush n fd s : below n s -> below n (flush_fd fd s).
Proof.
  intros Hb p i. destruct fd as [j|d]; [apply Hb|]. cbn. destruct p as [|x p]; [apply Hb|]. destruct (decide _); [|apply Hb].
  intros [E|[]%elem_of_nil]%elem_of_cons. apply (Hb (x :: p)). rewrite E. by left.
Qed.

Lemma perform_below q at_ n s c : below n s -> below (S n) (snd (perform q at_ n s c)).
Proof.
  intros Hb. pose proof (below_more _ _ Hb) as Hm.
  destruct c as [p|p|p|p|[i|p] v|fd|[i|p]|fd|p v mode|p|p mode|a b|p|p|p t| |pid|ms]; cbn [perform snd]; try exact Hm.
  - destruct (forallb _ _); [by apply below_mkdirs|exact Hm].
  - by destruct (entry s p) as [[i|]|].
  - destruct (entry s p) as [e|]; [exact Hm|by apply below_create].
  - by apply below_flush.
  - destruct (entry s p) as [[i|]|]; [exact Hm..|by apply below_create].
  - by destruct (entry s p) as [[i|]|].
  - destruct (entry s a) as [[i|]|] eqn:E; [destruct b; [exact Hm|]|exact Hm..]. cbn [snd]. unfold rename. apply below_set; [|done].
    apply below_set; [done|]. intros j Ej. eapply below_entry; [exact Hm|]. by rewrite E, <- Ej in *.
  - destruct (entry s p) as [[i|]|]; [by apply below_set|exact Hm..].
  - by destruct (entry s p) as [[i|]|].
  - by destruct (entry s p) as [[i|]|].
Qed.

(** A program to its end. *)
Fixpoint complete {X A} (q : Proc) (at_ : number) (n : nat) (s : System) (m : Prog fs_reply X A) : nat * System * Prog fs_reply X A :=
  match m with
  | Do c k => let '(r, s') := perform q at_ n s c in complete q at_ (S n) s' (k r)
  | _ => (n, s, m)
  end.

Lemma complete_acts {X A} q at_ n s (m : Prog fs_reply X A) :
  below n s -> rtc (acts (does q)) (s, m) (let '(_, s', m') := complete q at_ n s m in (s', m')).
Proof.
  revert n s. induction m as [a|e|c k IH]; intros n s Hb; cbn [complete]; [done|done|].
  pose proof (perform_does q at_ n s c Hb) as D. pose proof (perform_below q at_ n s c Hb) as B.
  destruct (perform q at_ n s c) as [r s1]. cbn in D, B. eapply rtc_l; [by apply act, D|]. by apply IH.
Qed.
