(* ===== verification/Persist.v ===== *)
(** * Files and locks (packages/trading-engine/src/persist.ts)

    Writes that a crash leaves whole, and locks that are files: a lock is taken by creating its
    file exclusively, and a lock whose owner died or is too old is reclaimed under a gate. *)

From Stdlib Require Import ZArith Lia Bool Floats.
From stdpp Require Import base strings option list functions.
From S2P Require Import Prelude Effects JsNumber JsObject JsValue JsText FileSystem.

Local Open Scope nat_scope.

(** ** Errors and options *)

Inductive DurableWritePhase := PhaseDirectory | PhaseWrite | PhaseFileFsync | PhaseRename | PhaseDirectoryFsync.
Inductive DurableWritePublication := NotPublished | PossiblyPublished.

Inductive PersistError :=
  | SystemError (code : Code)
  | SyntaxErrorThrown
  | DurableWriteError (path : Path) (phase : DurableWritePhase) (publication : DurableWritePublication) (cause : PersistError)
  | LockTimeout (path : Path)
  | OperationThrew.

Definition fsErrorCode (e : PersistError) : Code := match e with SystemError code => code | _ => None end.
Definition has_code (code : string) (e : PersistError) : bool := bool_decide (fsErrorCode e = Some code).

Record FileLock := { lk_fd : Fd; lk_path : Path; lk_device : number; lk_inode : nat }.

Record FileLockOptions := {
  fo_reclaimDeadOwner : option bool;
  fo_timeoutMs : option number;
  fo_staleMs : option number;
  fo_retryMs : option number
}.

Record ResolvedOptions := { ro_timeoutMs : number; ro_staleMs : number; ro_retryMs : number; ro_reclaimDeadOwner : bool }.

(** [DEFAULT_FILE_LOCK] is what is not given. *)
Definition resolvedLockOptions (o : FileLockOptions) : ResolvedOptions :=
  {| ro_timeoutMs := default 10000%float (fo_timeoutMs o); ro_staleMs := default 60000%float (fo_staleMs o);
     ro_retryMs := default 10%float (fo_retryMs o); ro_reclaimDeadOwner := default false (fo_reclaimDeadOwner o) |}.

(** ** Programs *)

Abbreviation F := (Prog fs_reply PersistError).

(** A call that throws what the system replies. *)
Definition thrown {A} (r : result Code A) : F A := of_result SystemError r.
(** [try { m } finally { h }] *)
Definition finally {A} (m : F A) (h : F unit) : F A := r ← attempt m; _ ← h; of_result id r.
(** [try { m } catch {}] *)
Definition quietly (m : F unit) : F unit := r ← attempt m; Ret tt.

Definition existsSync (p : Path) : F bool := call (ExistsSync p).
Definition mkdirSync (p : Path) : F unit := r ← call (MkdirSync p); thrown r.
Definition openRead (p : Path) : F Fd := r ← call (OpenRead p); thrown r.
Definition openExclusive (p : Path) : F Fd := r ← call (OpenExclusive p); i ← thrown r; Ret (OnFile i).
Definition writeFd (fd : Fd) (v : value) : F unit := r ← call (WriteFd fd v); thrown r.
Definition fsyncSync (fd : Fd) : F unit := r ← call (FsyncSync fd); thrown r.
Definition fstatSync (fd : Fd) : F Stats := r ← call (FstatSync fd); thrown r.
Definition closeSync (fd : Fd) : F unit := r ← call (CloseSync fd); thrown r.
Definition writeFileSync (p : Path) (v : value) (mode : option Z) : F unit := r ← call (WriteFileSync p v mode); thrown r.
Definition chmodSync (p : Path) (mode : Z) : F unit := r ← call (ChmodSync p mode); thrown r.
Definition renameSync (a b : Path) : F unit := r ← call (RenameSync a b); thrown r.
Definition unlinkSync (p : Path) : F unit := r ← call (UnlinkSync p); thrown r.
Definition statSync (p : Path) : F Stats := r ← call (StatSync p); thrown r.
Definition now_ : F number := call DateNow.

(** ** Reading and writing *)

Definition readJsonFile (path : Path) : F value :=
  there ← existsSync path;
  if negb there then Ret VUndefined
  else
    r ← call (ReadFileSync path);
    t ← thrown r;
    match t with Json v => Ret v | Torn => Fail SyntaxErrorThrown end.

Section Process.
(** [process.pid] and [hostname()] *)
Variable self : Proc.

Definition temporaryPath (path : Path) (now : number) : Path :=
  with_suffix (String.append "." (String.append (numberToString (pr_pid self)) (String.append "." (String.append (numberToString now) ".tmp")))) path.

Definition writeJsonFile (path : Path) (data : value) (mode : option Z) : F unit :=
  _ ← mkdirSync (dirname path);
  now ← now_;
  let temporary := temporaryPath path now in
  match mode with
  | None =>
      _ ← writeFileSync temporary data None;
      renameSync temporary path
  | Some m =>
      _ ← writeFileSync temporary data mode;
      _ ← chmodSync temporary m;
      _ ← renameSync temporary path;
      chmodSync path m
  end.

Definition syncPath (path : Path) : F unit := fd ← openRead path; finally (fsyncSync fd) (closeSync fd).

(** The directory and those it is in. *)
Fixpoint syncDirectoryTree (path : Path) : F unit :=
  _ ← syncPath path;
  match path with [] => Ret tt | _ :: d => syncDirectoryTree d end.

Definition ensureDirectoryDurable (path : Path) : F unit :=
  there ← existsSync path;
  _ ← mkdirSync path;
  if negb there then syncDirectoryTree path else Ret tt.

Definition syncFileAndDirectory (path : Path) : F unit := _ ← syncPath path; syncDirectoryTree (dirname path).

(** A phase of a durable write: its failure names the phase, after the temporary file was removed. *)
Definition in_phase (path : Path) (phase : DurableWritePhase) (publication : DurableWritePublication) (cleanup : F unit) (m : F unit) : F unit :=
  tryCatch m (fun error => _ ← cleanup; Fail (DurableWriteError path phase publication error)).
Definition discard (temporary : Path) : F unit := quietly (unlinkSync temporary).

Definition write_temporary (temporary : Path) (data : value) (mode : option Z) : F unit :=
  match mode with
  | None => writeFileSync temporary data None
  | Some m => _ ← writeFileSync temporary data mode; chmodSync temporary m
  end.

Definition writeJsonFileDurable (path : Path) (data : value) (mode : option Z) : F unit :=
  _ ← in_phase path PhaseDirectory NotPublished (Ret tt) (ensureDirectoryDurable (dirname path));
  now ← now_;
  let temporary := temporaryPath path now in
  _ ← in_phase path PhaseWrite NotPublished (discard temporary) (write_temporary temporary data mode);
  _ ← in_phase path PhaseFileFsync NotPublished (discard temporary) (syncPath temporary);
  _ ← in_phase path PhaseRename NotPublished (discard temporary) (renameSync temporary path);
  in_phase path PhaseDirectoryFsync PossiblyPublished (Ret tt) (syncDirectoryTree (dirname path)).

Definition removeFileDurable (path : Path) : F unit := _ ← unlinkSync path; syncDirectoryTree (dirname path).

(** ** Locks *)

Definition isStaleLock (path : Path) (staleMs : number) : F bool :=
  tryCatch
    (now ← now_; stats ← statSync path; Ret (staleMs <? now - st_mtimeMs stats)%float)
    (fun error => if has_code "ENOENT" error then Ret false else Fail error).

(** What a lock's file says: [JSON.stringify({ pid, host })]. *)
Definition owner_of (q : Proc) : value := VObj [("pid"%string, VNum (pr_pid q)); ("host"%string, VStr (pr_host q))].

Definition tryCreateLock (path : Path) : F FileLock :=
  fd ← openExclusive path;
  tryCatch
    (_ ← writeFd fd (owner_of self);
     _ ← fsyncSync fd;
     stats ← fstatSync fd;
     Ret {| lk_fd := fd; lk_path := path; lk_device := st_dev stats; lk_inode := st_ino stats |})
    (fun error => _ ← finally (closeSync fd) (quietly (unlinkSync path)); Fail error).

Definition releaseFileLock (lock : FileLock) : F unit :=
  closed ← attempt (closeSync (lk_fd lock));
  removed ← attempt
    (stats ← statSync (lk_path lock);
     if (st_dev stats =? lk_device lock)%float && Nat.eqb (st_ino stats) (lk_inode lock) then unlinkSync (lk_path lock) else Ret tt);
  match closed, removed with
  | Throw failure, _ => Fail failure
  | Ok _, Throw error => if has_code "ENOENT" error then Ret tt else Fail error
  | Ok _, Ok _ => Ret tt
  end.

Definition touchFileLock (lock : FileLock) : F unit :=
  quietly
    (stats ← statSync (lk_path lock);
     if negb (st_dev stats =? lk_device lock)%float || negb (Nat.eqb (st_ino stats) (lk_inode lock)) then Ret tt
     else now ← now_; r ← call (UtimesSync (lk_path lock) now); thrown r).

Definition gate_path (path : Path) : Path := with_suffix ".reclaim" path.

(** The gate, or nothing when another process has it. *)
Definition tryGate (path : Path) : F (option FileLock) :=
  tryCatch (gate ← tryCreateLock (gate_path path); Ret (Some gate))
    (fun error => if has_code "EEXIST" error then Ret None else Fail error).

(** An owner of this machine whose number can be asked for. *)
Definition owner_pid (owner : value) : option number :=
  match prop "pid" owner with
  | VNum pid => if isLit (pr_host self) (prop "host" owner) && isSafeInteger pid && negb (pid <=? 0)%float then Some pid else None
  | _ => None
  end.

(** Under the gate. *)
Definition reclaim_dead (path : Path) : F bool :=
  owner ← tryCatch (v ← readJsonFile path; Ret (Some v))
    (fun error => match error with
                  | SyntaxErrorThrown => Ret None
                  | _ => if has_code "ENOENT" error then Ret None else Fail error
                  end);
  match option_bind _ _ owner_pid owner with
  | None => Ret false
  | Some pid =>
      r ← call (Kill pid);
      match r with
      | Ok _ => Ret false
      | Throw code =>
          if negb (bool_decide (code = Some "ESRCH"%string)) then Fail (SystemError code)
          else _ ← removeFileDurable path; Ret true
      end
  end.

Definition under_gate (path : Path) (m : F bool) : F bool :=
  gate ← tryGate path;
  match gate with None => Ret false | Some gate => finally m (releaseFileLock gate) end.

Definition reclaimDeadOwner (path : Path) : F bool := under_gate path (reclaim_dead path).

(** Under the gate, the lock is looked at again. *)
Definition reclaim_stale (path : Path) (staleMs : number) : F bool :=
  stale ← isStaleLock path staleMs;
  if negb stale then Ret false
  else
    _ ← tryCatch (unlinkSync path) (fun error => if has_code "ENOENT" error then Ret tt else Fail error);
    Ret true.

Definition reclaimStaleLock (path : Path) (staleMs : number) : F bool :=
  stale ← isStaleLock path staleMs;
  if negb stale then Ret false else under_gate path (reclaim_stale path staleMs).

Inductive Verdict := Retry | Wait.

Definition reclaimOrWaitForLock (path : Path) (o : ResolvedOptions) (deadline : number) : F Verdict :=
  dead ← (if ro_reclaimDeadOwner o then reclaimDeadOwner path else Ret false);
  if (dead : bool) then Ret Retry
  else
    stale ← reclaimStaleLock path (ro_staleMs o);
    if (stale : bool) then Ret Retry
    else
      now ← now_;
      _ ← failIf (deadline <=? now)%float (LockTimeout path);
      Ret Wait.

(** A turn of the loop that acquires a lock; nothing is another turn. *)
Definition acquire_turn (path : Path) (o : ResolvedOptions) (deadline : number) : F (option FileLock) :=
  r ← attempt (tryCreateLock path);
  match r with
  | Ok lock => Ret (Some lock)
  | Throw error =>
      if negb (has_code "EEXIST" error) then Fail error
      else
        verdict ← reclaimOrWaitForLock path o deadline;
        match verdict with
        | Retry => Ret None
        | Wait => _ ← call (Sleep (ro_retryMs o)); Ret None
        end
  end.

(** What comes before the loop: the deadline. *)
Definition acquire_start (path : Path) (o : ResolvedOptions) : F number :=
  _ ← ensureDirectoryDurable (dirname path);
  now ← now_;
  Ret (now + ro_timeoutMs o)%float.

(** [acquireFileLockSync] and [acquireFileLock], which wait differently, for a number of turns. *)
Fixpoint acquire_loop (turns : nat) (path : Path) (o : ResolvedOptions) (deadline : number) : F (option FileLock) :=
  match turns with
  | O => Ret None
  | S turns =>
      r ← acquire_turn path o deadline;
      match r with Some lock => Ret (Some lock) | None => acquire_loop turns path o deadline end
  end.
Definition acquireFileLock (turns : nat) (path : Path) (options : FileLockOptions) : F (option FileLock) :=
  let o := resolvedLockOptions options in
  deadline ← acquire_start path o;
  acquire_loop turns path o deadline.

(** The operation's error is thrown rather than that of the release. *)
Definition release_after {A} (lock : FileLock) (operationResult : result PersistError A) : F A :=
  released ← attempt (releaseFileLock lock);
  match released, operationResult with
  | _, Throw error => Fail error
  | Throw error, _ => Fail error
  | Ok _, Ok a => Ret a
  end.

Definition withFileLockSync {A} (turns : nat) (path : Path) (operation : F A) (options : FileLockOptions) : F (option A) :=
  lock ← acquireFileLock turns path options;
  match lock with
  | None => Ret None
  | Some lock => r ← attempt operation; a ← release_after lock r; Ret (Some a)
  end.
End Process.
