(* ===== verification/CrashSafety.v ===== *)
(** * Durable writes survive crashes

    [writeJsonFileDurable] leaves the old content or the new one, whole, wherever the machine
    stops; when it returns, every crash leaves the new one; and an error says which of them the
    file has. *)

From Stdlib Require Import ZArith Lia Bool Floats.
From stdpp Require Import base strings option list functions relations.
From S2P Require Import Prelude Effects Transitions JsNumber JsValue JsText FileSystem Persist.

Local Open Scope nat_scope.

(** ** What a crash leaves at a path *)

(** The content of a path: no file, or a text. *)
Definition content (s : System) (p : Path) (o : option Text) : Prop :=
  match o with Some t => reads s p t | None => forall t, ~ reads s p t end.

(** The values an entry may have after a crash. *)
Definition entries (s : System) (p : Path) : list (option Entry) :=
  match p with [] => [Some DirectoryAt] | _ => possible (sy_entry s p) end.

Lemma entry_in_entries s p : entry s p ∈ entries s p.
Proof. destruct p; by left. Qed.
Lemma crash_entry s s' p : crash s s' -> entry s' p ∈ entries s p.
Proof. intros [H _]. destruct p as [|x d]; [by left|]. apply H. Qed.

Lemma directories_or s p : (forall d, d `suffix_of` p -> directory_at s d) \/ ~ (forall d, d `suffix_of` p -> directory_at s d).
Proof.
  assert (Self : forall q, directory_at s q \/ ~ directory_at s q) by (intros q; unfold directory_at; destruct (decide (entry s q = Some DirectoryAt)); auto).
  induction p as [|x d [IH|IH]].
  - left. intros d [k E]. destruct k, d; done.
  - destruct (Self (x :: d)) as [H|H]; [left|right; intros G; by apply H, G].
    intros e Se. apply suffix_dirname in Se as [->|Se]; [done|by apply IH].
  - right. intros G. apply IH. intros e Se. apply G. by apply suffix_cons_r.
Qed.

Section Write.
Variable self : Proc.
Variable path : Path.
Hypothesis not_root : path <> [].

(** The old content is on the disk. *)
Definition stored_text (s : System) (t : Text) (e : option Entry) : Prop :=
  exists i, e = Some (FileAt i) /\ forall x, x ∈ possible (sy_text s i) -> x = t.
Definition directories (s : System) : Prop := forall d, d `suffix_of` dirname path -> directory_at s d.
Definition stored_directories (s : System) : Prop :=
  forall d, d `suffix_of` dirname path -> forall e, e ∈ entries s d -> e = Some DirectoryAt.
Definition old_entry (o : option Text) (s : System) (e : option Entry) : Prop :=
  match o with Some t => stored_text s t e | None => e = None end.

Record on_disk (o : option Text) (s : System) : Prop := {
  od_directories : o <> None -> stored_directories s;
  od_entry : forall e, e ∈ entries s path -> old_entry o s e
}.

(** No other path leads to its files, and no two paths lead to one file. *)
Definition unshared (s : System) : Prop :=
  (forall q i, q <> path -> entry s q = Some (FileAt i) -> Some (FileAt i) ∉ entries s path) /\
  (forall q r i, entry s q = Some (FileAt i) -> entry s r = Some (FileAt i) -> q = r).

Lemma crash_old o s s' e :
  crash s s' -> (o <> None -> stored_directories s) -> entry s' path = e -> old_entry o s e -> content s' path o.
Proof.
  intros [Hp Ht] Hd E Ho. destruct o as [t|]; cbn in *.
  - destruct Ho as (i & -> & H). exists i. split; [done|]. split; [apply H, Ht|].
    intros d Sd. apply (Hd ltac:(done) d Sd). by apply crash_entry.
  - intros t (i & E' & _). congruence.
Qed.

Lemma on_disk_crash o s s' : on_disk o s -> crash s s' -> content s' path o.
Proof. intros [Hd He] Hc. eapply crash_old; [done|done|done|]. apply He. by apply crash_entry. Qed.

(** ** Before the file is renamed *)

(** What a step may change then. *)
Record aside (s s' : System) : Prop := {
  as_entry : entries s' path = entries s path;
  as_text : forall i, Some (FileAt i) ∈ entries s path -> possible (sy_text s' i) ⊆ possible (sy_text s i);
  as_directories : stored_directories s -> stored_directories s';
  as_present : directories s -> directories s';
  as_unshared : unshared s -> unshared s'
}.

Definition before (o : option Text) (s : System) : Prop := on_disk o s /\ unshared s.

Lemma before_aside o s s' : before o s -> aside s s' -> before o s'.
Proof.
  intros [[Hd He] Hu] A. split; [|by apply A]. split; [intros N; by apply A, Hd|].
  intros e. rewrite (as_entry _ _ A). intros Hin. pose proof (He e Hin) as Ho. destruct o as [t|]; [|done].
  destruct Ho as (i & -> & H). exists i. split; [done|]. intros x Hx. apply H. by apply (as_text _ _ A i Hin).
Qed.

Lemma aside_refl s : aside s s.
Proof. by split. Qed.
Lemma aside_trans s s1 s2 : aside s s1 -> aside s1 s2 -> aside s s2.
Proof.
  intros A B. split; [by rewrite (as_entry _ _ B), (as_entry _ _ A)| |by intros; apply B, A..].
  intros i Hi x Hx. apply (as_text _ _ A i Hi), (as_text _ _ B); [by rewrite (as_entry _ _ A)|done].
Qed.

(** Texts of other files. *)
Lemma aside_set_text i t s : Some (FileAt i) ∉ entries s path -> aside s (set_text i t s).
Proof.
  intros N. split; [done| |done..]. intros j Hj. cbn. rewrite fn_lookup_insert_ne; [done|]. by intros ->.
Qed.
Lemma aside_set_mtime i t s : aside s (set_mtime i t s).
Proof. by split. Qed.

(** Another entry of its directory. *)
Definition sibling (q : Path) : Prop := q <> path /\ q <> [] /\ dirname q = dirname path.

Lemma sibling_not_above q d : sibling q -> d `suffix_of` dirname path -> d <> q.
Proof. intros (_ & N & E) Sd ->. rewrite <- E in Sd. destruct q; [done|]. by eapply suffix_cons_self. Qed.

Lemma entries_set_ne q r e s : q <> r -> entries (set_entry q e s) r = entries s r.
Proof. intros N. destruct r; [done|]. cbn. by rewrite fn_lookup_insert_ne. Qed.

Lemma aside_set_entry q e s :
  sibling q -> (forall i, e = Some (FileAt i) -> Some (FileAt i) ∉ entries s path /\ forall r, entry s r <> Some (FileAt i)) ->
  aside s (set_entry q e s).
Proof.
  intros Hq He. pose proof Hq as (N & Nr & Ed). split; [by apply entries_set_ne|done| | |].
  - intros H d Sd. rewrite entries_set_ne by (intros ->; by eapply sibling_not_above). by apply H.
  - intros H d Sd. unfold directory_at. rewrite entry_set_ne by (intros ->; by eapply sibling_not_above). by apply H.
  - intros [H1 H2]. split; [intros r i Nr' E; rewrite entries_set_ne by done|intros r r' i E E'].
    + destruct (decide (q = r)) as [<-|D]; [apply He; by rewrite entry_set_eq in E|]. rewrite entry_set_ne in E by done. by apply (H1 r).
    + destruct (decide (q = r)) as [<-|D], (decide (q = r')) as [<-|D']; try done.
      * rewrite entry_set_eq in E by done. rewrite entry_set_ne in E' by done. destruct (He i E) as [_ He']. by destruct (He' r').
      * rewrite entry_set_eq in E' by done. rewrite entry_set_ne in E by done. destruct (He i E') as [_ He']. by destruct (He' r).
      * rewrite entry_set_ne in E, E' by done. by apply (H2 r r' i).
Qed.

Lemma aside_create q i s : sibling q -> unused s i -> aside s (create q i s).
Proof.
  intros Hq Hu. assert (Ni : Some (FileAt i) ∉ entries s path) by (destruct path; [done|apply Hu]). pose proof Hq as (N & _).
  eapply aside_trans; [apply aside_set_entry; [done|]|apply aside_set_text].
  - intros j [= <-]. split; [done|]. intros [|x d] E; [done|]. apply (Hu (x :: d)). rewrite <- E. by left.
  - by rewrite entries_set_ne.
Qed.

Lemma path_not_above : ~ path `suffix_of` dirname path.
Proof. destruct path; [done|]. apply suffix_cons_self. Qed.

Lemma entries_mkdirs d s q : ~ q `suffix_of` d -> entries (mkdirs d s) q = entries s q.
Proof. intros N. destruct q; [done|]. unfold entries. by rewrite mkdirs_off. Qed.

(** Directories that are there are not made again. *)
Lemma mkdirs_present d s q : entry s q = Some DirectoryAt -> entries (mkdirs d s) q = entries s q.
Proof.
  intros H. induction d as [|x d IH]; [done|]. cbn [mkdirs]. destruct (entry (mkdirs d s) (x :: d)) as [e|] eqn:E; [done|].
  rewrite entries_set_ne; [done|]. intros <-. destruct (mkdirs_entry d (x :: d) s) as [E'|[E' _]]; congruence.
Qed.

Lemma aside_mkdirs d s : d `suffix_of` dirname path -> aside s (mkdirs d s).
Proof.
  intros Sd. split.
  - apply entries_mkdirs. intros Sp. apply path_not_above. by etrans.
  - intros i _. by rewrite mkdirs_text.
  - intros H e Se. rewrite mkdirs_present; [by apply H|]. apply (H e Se). apply entry_in_entries.
  - intros H e Se. destruct (mkdirs_entry d e s) as [E|[_ E]]; [|done]. unfold directory_at. rewrite E. by apply H.
  - assert (Ef : forall q i, entry (mkdirs d s) q = Some (FileAt i) -> entry s q = Some (FileAt i))
      by (intros q i E; destruct (mkdirs_entry d q s) as [E'|[_ E']]; congruence).
    intros [H1 H2]. split; [|intros q r i Eq Er; apply (H2 q r i); by apply Ef]. intros q i N E. rewrite entries_mkdirs by (intros Sp; apply path_not_above; by etrans). apply (H1 q i N). by apply Ef.
Qed.

Lemma possible_flush {A} (a : Async A) : possible (flush a) ⊆ possible a.
Proof. intros x. cbn. intros [->|[]%elem_of_nil]%elem_of_cons. by left. Qed.

Lemma text_flush fd s i : possible (sy_text (flush_fd fd s) i) ⊆ possible (sy_text s i).
Proof.
  destruct fd as [j|d]; [|done]. cbn. destruct (decide (j = i)) as [->|N]; [rewrite fn_lookup_insert; apply possible_flush|by rewrite fn_lookup_insert_ne].
Qed.
Lemma entries_flush fd s p : entries (flush_fd fd s) p ⊆ entries s p.
Proof. destruct fd as [j|d], p as [|x p]; try done. unfold entries. cbn. destruct (decide _); [apply possible_flush|done]. Qed.

Lemma unshared_flush fd s : unshared s -> unshared (flush_fd fd s).
Proof.
  intros [H1 H2]. split.
  - intros q i N E Hin%entries_flush. rewrite entry_flush_fd in E. by apply (H1 q i).
  - intros q r i. rewrite !entry_flush_fd. apply H2.
Qed.

Lemma before_flush o fd s : before o s -> before o (flush_fd fd s).
Proof.
  intros [[Hd He] Hu]. split; [split|].
  - intros N d Sd e Hin. apply (Hd N d Sd). by apply entries_flush in Hin.
  - intros e Hin%entries_flush. pose proof (He e Hin) as Ho. destruct o as [t|]; [|done].
    destruct Ho as (i & -> & H). exists i. split; [done|]. intros x Hx%text_flush. by apply H.
  - by apply unshared_flush.
Qed.

(** ** Phases *)

Section Phases.
Variable data : value.
Variable o : option Text.

(** Wherever the machine stops, the old content or the new one. *)
Definition survives (s : System) : Prop := forall s', crash s s' -> content s' path o \/ content s' path (Some (Json data)).

Abbreviation triples := (triple (does self) survives).
Abbreviation keeping := (keeps (does self) survives).

Lemma before_survives s : before o s -> survives s.
Proof. intros [H _] s' Hc. left. by eapply on_disk_crash. Qed.

(** Calls that flush, in a set of states that every flush keeps. *)
Section Flushes.
Variable J : System -> Prop.
Hypothesis J_survives : forall s, J s -> survives s.
Hypothesis J_flush : forall fd s, J s -> J (flush_fd fd s).

Lemma keeps_fsync fd : keeping J (fsyncSync fd).
Proof.
  intros s Hs. apply triple_call; [by apply J_survives|]. intros r s' [[_ ->]|[-> ->]].
  - destruct r; (split; [by apply J_survives|done]).
  - split; [by apply J_survives, J_flush|by apply J_flush].
Qed.
Lemma keeps_close fd : keeping J (closeSync fd).
Proof. intros s Hs. apply triple_call; [by apply J_survives|]. intros r s' ->. destruct r; (split; [by apply J_survives|done]). Qed.
Lemma keeps_openRead q : keeping J (openRead q).
Proof.
  intros s Hs. apply triple_call; [by apply J_survives|]. intros r s' D. assert (s' = s) as -> by (by destruct D as [[_ ->]|[-> _]]).
  destruct r; (split; [by apply J_survives|done]).
Qed.
Lemma keeps_finally {A} (m : F A) h : keeping J m -> keeping J h -> keeping J (finally m h).
Proof.
  intros Hm Hh. apply kept_bind; [by apply kept_attempt|]. intros r. apply kept_bind; [done|]. intros _ s Hs.
  destruct r; (split; [by apply J_survives|done]).
Qed.
Lemma keeps_syncPath q : keeping J (syncPath q).
Proof. apply kept_bind; [apply keeps_openRead|]. intros fd. apply keeps_finally; [apply keeps_fsync|apply keeps_close]. Qed.
Lemma keeps_syncDirectoryTree q : keeping J (syncDirectoryTree q).
Proof.
  induction q as [|x d IH]; (apply kept_bind; [apply keeps_syncPath|]); [|done]. intros _ s Hs. split; [by apply J_survives|done].
Qed.
End Flushes.

(** *** Directories *)

Definition prepared (s : System) : Prop := before o s /\ directories s.

Lemma flush_directories fd s : directories s -> directories (flush_fd fd s).
Proof. intros H d Sd. unfold directory_at. rewrite entry_flush_fd. by apply H. Qed.

Lemma ensured s :
  before o s ->
  triples (ensureDirectoryDurable (dirname path)) (fun s' r => before o s' /\ match r with Ok _ => directories s' | Throw _ => True end) s.
Proof.
  intros Hs. apply triple_call; [by apply before_survives|]. intros there s1 [-> _]. apply triple_seq.
  apply triple_call; [by apply before_survives|]. intros [[]|e] s2; cbn; [intros [-> Hd]|intros (d & Sd & ->)].
  - assert (B : before o (mkdirs (dirname path) s)) by (eapply before_aside; [done|by apply aside_mkdirs]).
    split; [by apply before_survives|]. destruct (negb there); [|split; [by apply before_survives|done]].
    eapply triple_mono; [|apply (keeps_syncDirectoryTree prepared); [by intros ? [? _]; apply before_survives| |done]].
    + intros s' [[]|e] _ [B' D']; done.
    + intros fd s' [B' D']. split; [by apply before_flush|by apply flush_directories].
  - assert (B : before o (mkdirs d s)) by (eapply before_aside; [done|by apply aside_mkdirs]).
    split; [by apply before_survives|]. done.
Qed.

(** *** The temporary file *)

Section Temporary.
Variable temporary : Path.
Hypothesis beside : sibling temporary.

Definition written (s : System) : Prop := prepared s /\ exists k, entry s temporary = Some (FileAt k) /\ text s k = Json data.
(** The temporary file has the new content, on the disk. *)
Definition stored_new (s : System) (k : nat) : Prop :=
  entry s temporary = Some (FileAt k) /\ forall x, x ∈ possible (sy_text s k) -> x = Json data.
Definition ready (s : System) : Prop := prepared s /\ exists k, stored_new s k.

Lemma prepared_aside s s' : prepared s -> aside s s' -> prepared s'.
Proof. intros [B D] A. split; [by eapply before_aside|by apply A]. Qed.
Lemma prepared_flush fd s : prepared s -> prepared (flush_fd fd s).
Proof. intros [B D]. split; [by apply before_flush|by apply flush_directories]. Qed.
Lemma prepared_survives s : prepared s -> survives s.
Proof. intros [B _]. by apply before_survives. Qed.
#[local] Hint Resolve prepared_survives : core.

Lemma temporary_apart s i : before o s -> entry s temporary = Some (FileAt i) -> Some (FileAt i) ∉ entries s path.
Proof. intros [_ [Hu _]] E. apply (Hu temporary i); [apply beside|done]. Qed.

Lemma aside_write i v s : Some (FileAt i) ∉ entries s path -> aside s (write i v s).
Proof. intros N. eapply aside_trans; by apply aside_set_text. Qed.

Lemma write_file mode s :
  prepared s ->
  triples (writeFileSync temporary data mode) (fun s' r => match r with Ok _ => written s' | Throw _ => prepared s' end) s.
Proof.
  intros Hs. pose proof Hs as [B _]. apply triple_call; [by auto|]. pose proof beside as (_ & Nr & _).
  intros r s' [[Hr ->]|[(i & E & D)|(i & E & U & _ & D)]].
  - destruct r; [done|]. by split; auto.
  - pose proof (temporary_apart _ _ B E) as N. destruct D as [[-> ->]|[Hr ->]].
    + assert (P : prepared (write i data s)) by (eapply prepared_aside; [done|by apply aside_write]).
      split; [by auto|]. split; [done|]. exists i. rewrite entry_write. split; [done|]. apply text_write_eq.
    + assert (P : prepared (set_text i Torn s)) by (eapply prepared_aside; [done|by apply aside_set_text]).
      destruct r; [done|]. by split; auto.
  - assert (A : aside s (create temporary i s)) by (by apply aside_create).
    assert (P : prepared (create temporary i s)) by (by eapply prepared_aside).
    assert (E1 : entry (create temporary i s) temporary = Some (FileAt i)).
    { unfold create. rewrite entry_set_text. by apply entry_set_eq. }
    destruct D as [[-> ->]|[Hr ->]]; [|destruct r; [done|]; by split; auto].
    assert (N : Some (FileAt i) ∉ entries (create temporary i s) path) by (apply temporary_apart; [apply P|done]).
    assert (P1 : prepared (write i data (create temporary i s))) by (eapply prepared_aside; [exact P|by apply aside_write]).
    split; [by auto|]. split; [done|]. exists i. rewrite entry_write. split; [done|]. apply text_write_eq.
Qed.

Lemma write_phase mode s :
  prepared s ->
  triples (write_temporary temporary data mode) (fun s' r => match r with Ok _ => written s' | Throw _ => prepared s' end) s.
Proof.
  intros Hs. destruct mode as [m|]; [|by apply write_file]. apply triple_seq. eapply triple_mono; [|by apply write_file].
  intros s' [[]|e] _ H; [|done]. apply triple_call; [destruct H; by auto|]. intros r s2 ->.
  destruct r; (split; [destruct H; by auto|]); [done|by destruct H].
Qed.

Lemma unlinked s : prepared s -> prepared (set_entry temporary None s).
Proof. intros Hs. eapply prepared_aside; [done|]. by apply aside_set_entry. Qed.

Lemma discarded s : prepared s -> triples (discard temporary) (fun s' r => prepared s' /\ r = Ok tt) s.
Proof.
  intros Hs. apply triple_seq, triple_attempt. apply triple_call; [by auto|].
  intros r s' [[Hr ->]|(i & E & Nr & -> & ->)].
  - destruct r; [done|]. split; [by auto|]. by split; auto.
  - assert (prepared (set_entry temporary None s)) by (by apply unlinked). split; [by auto|]. by split; auto.
Qed.

Lemma sync_phase s : written s -> triples (syncPath temporary) (fun s' r => match r with Ok _ => ready s' | Throw _ => prepared s' end) s.
Proof.
  intros [Hs (k & E & T)]. apply triple_call; [by auto|]. intros r s' D.
  assert (D' : s' = s /\ (isOk r = false \/ r = Ok (OnFile k))).
  { destruct D as [[Hr ->]|[-> [(i & E' & ->)|[E' ->]]]]; [by auto| |unfold directory_at in E'; congruence].
    split; [done|right]. congruence. }
  destruct D' as [-> [Hr| ->]]; [destruct r; [done|]; by split; auto|]. split; [by auto|].
  intros r s' [[Hr ->]|[-> ->]].
  - destruct r as [|e]; [done|]. split; [by auto|]. intros r s' ->. by destruct r; (split; [by auto|]).
  - assert (P : prepared (flush_fd (OnFile k) s)) by (by apply prepared_flush).
    split; [by auto|]. intros r s' ->. destruct r; (split; [by auto|]); [|done]. split; [done|]. exists k.
    split; [by rewrite entry_flush_fd|]. cbn. rewrite fn_lookup_insert. intros x [->|[]%elem_of_nil]%elem_of_cons. exact T.
Qed.

(** *** After the rename *)

(** The entry leads to the new file, or to what it was. *)
Record after (s : System) : Prop := {
  af_directories : directories s;
  af_stored : o <> None -> stored_directories s;
  af_new : exists k, entry s path = Some (FileAt k) /\ (forall x, x ∈ possible (sy_text s k) -> x = Json data) /\
             forall e, e ∈ entries s path -> e = Some (FileAt k) \/ old_entry o s e;
  af_unshared : unshared s
}.

Lemma renamed_after s : ready s -> after (rename temporary path s).
Proof.
  intros [[[[Hd He] [U1 U2]] D] (k & E & T)]. pose proof beside as (Nt & Nr & Ed). unfold rename. rewrite E.
  set (s1 := set_entry path _ s).
  assert (Above : forall d, d `suffix_of` dirname path -> d <> path /\ d <> temporary).
  { intros d Sd. split; [intros ->; by apply path_not_above|by apply sibling_not_above]. }
  assert (E1 : forall q, q <> path -> q <> temporary -> entry (set_entry temporary None s1) q = entry s q).
  { intros q N1 N2. unfold s1. rewrite !entry_set_ne; congruence. }
  assert (Ep : entry (set_entry temporary None s1) path = Some (FileAt k)) by (rewrite entry_set_ne by done; by apply entry_set_eq).
  assert (Et : entry (set_entry temporary None s1) temporary = None) by (by rewrite entry_set_eq).
  split.
  - intros d Sd. destruct (Above d Sd). unfold directory_at. rewrite E1 by done. by apply D.
  - intros N d Sd. destruct (Above d Sd). unfold s1. rewrite !entries_set_ne by done. by apply (Hd N d Sd).
  - exists k. split; [exact Ep|]. split; [exact T|]. rewrite entries_set_ne by done. intros e Hin. unfold s1 in Hin.
    assert (Hin' : e = Some (FileAt k) \/ e ∈ entries s path).
    { unfold entries in *. destruct path; [done|]. cbn in Hin. rewrite fn_lookup_insert in Hin. by apply elem_of_cons in Hin. }
    destruct Hin' as [->|Hin']; [by left|right]. by apply He.
  - assert (Only : forall q, q <> path -> entry (set_entry temporary None s1) q <> Some (FileAt k)).
    { intros q N1 Eq. destruct (decide (q = temporary)) as [->|N2]; [congruence|]. rewrite E1 in Eq by done. apply N2. by eapply U2. }
    assert (Same : forall q i, q <> path -> entry (set_entry temporary None s1) q = Some (FileAt i) -> entry s q = Some (FileAt i)).
    { intros q i N1 Eq. destruct (decide (q = temporary)) as [->|N2]; [congruence|]. by rewrite <- E1. }
    split.
    + intros q i N1 Eq. rewrite entries_set_ne by done. intros Hin. unfold s1 in Hin.
      assert (Hin' : i = k \/ Some (FileAt i) ∈ entries s path).
      { unfold entries in *. destruct path; [done|]. cbn in Hin. rewrite fn_lookup_insert in Hin. apply elem_of_cons in Hin as [[= ->]|]; auto. }
      destruct Hin' as [->|Hin']; [by eapply Only|]. eapply U1; eauto.
    + intros q r i Eq Er. destruct (decide (q = path)) as [->|N1], (decide (r = path)) as [->|N2]; [done|..].
      * rewrite Ep in Eq. injection Eq as <-. by destruct (Only r).
      * rewrite Ep in Er. injection Er as <-. by destruct (Only q).
      * eapply U2; eauto.
Qed.

Lemma after_survives s : after s -> survives s.
Proof.
  intros [D Hd (k & E & T & He) _] s' Hc. destruct (He _ (crash_entry s s' path Hc)) as [Ep|Ho]; [|left; by eapply crash_old].
  destruct (directories_or s' (dirname path)) as [Dd|N].
  { right. exists k. split; [done|]. split; [|done]. apply T, Hc. }
  left. destruct o as [t|]; [|intros t (_ & _ & _ & Dd); done].
  exfalso. apply N. intros d Sd. apply (Hd ltac:(done) d Sd). by apply crash_entry.
Qed.

Lemma flush_entry s fd d : entries (flush_fd fd s) d ⊆ entries s d.
Proof. apply entries_flush. Qed.

Lemma after_flush fd s : after s -> after (flush_fd fd s).
Proof.
  intros [D Hd (k & E & T & He) U]. split; [by apply flush_directories| | |by apply unshared_flush].
  - intros N d Sd e Hin%entries_flush. by apply (Hd N d Sd).
  - exists k. rewrite entry_flush_fd. split; [done|]. split; [intros x Hx%text_flush; by apply T|].
    intros e Hin%entries_flush. destruct (He e Hin) as [->|Ho]; [by left|right]. destruct o as [t|]; [|done].
    destruct Ho as (i & -> & H). exists i. split; [done|]. intros x Hx%text_flush. by apply H.
Qed.

(** The entries of a directory are on the disk. *)
Definition flushed (s : System) (d : Path) : Prop := forall x, older (sy_entry s (x :: d)) = [].

Lemma flush_flushed fd s d : flushed s d -> flushed (flush_fd fd s) d.
Proof. intros H x. destruct fd as [j|a]; cbn; [apply H|]. destruct (decide _); [done|apply H]. Qed.

Lemma sync_directory (J : System -> Prop) d :
  (forall s, J s -> survives s) -> (forall fd s, J s -> J (flush_fd fd s)) -> (forall s, J s -> directory_at s d) ->
  forall s, J s -> triples (syncPath d) (fun s' r => J s' /\ match r with Ok _ => flushed s' d | Throw _ => True end) s.
Proof.
  intros Js Jf Jd s Hs. apply triple_call; [by auto|]. intros r s' D.
  assert (D' : s' = s /\ (isOk r = false \/ r = Ok (OnDirectory d))).
  { destruct D as [[Hr ->]|[-> [(i & E' & ->)|[_ ->]]]]; [by auto| |by auto].
    pose proof (Jd s Hs) as E. unfold directory_at in E. congruence. }
  destruct D' as [-> [Hr| ->]]; [destruct r; [done|]; split; auto|]. split; [by auto|]. intros r s' [[Hr ->]|[-> ->]].
  - destruct r as [|e]; [done|]. split; [by auto|]. intros r s' ->. destruct r; (split; [by auto|]); split; auto.
  - split; [by apply Js, Jf|]. intros r s' ->. destruct r; (split; [by apply Js, Jf|]); (split; [by apply Jf|]); [|done].
    intros x. cbn. by rewrite decide_True.
Qed.

Lemma sync_tree d (J : System -> Prop) :
  (forall s, J s -> survives s) -> (forall fd s, J s -> J (flush_fd fd s)) -> (forall s a, J s -> a `suffix_of` d -> directory_at s a) ->
  forall s, J s ->
  triples (syncDirectoryTree d) (fun s' r => J s' /\ match r with Ok _ => forall a, a `suffix_of` d -> flushed s' a | Throw _ => True end) s.
Proof.
  revert J. induction d as [|x d IH]; intros J Js Jf Jd s Hs.
  - apply triple_seq. eapply triple_mono; [|apply (sync_directory J []); auto].
    intros s' [[]|e] _ [Hj Hf]; [|by auto]. split; [by auto|]. split; [done|]. intros a [k E]. destruct k, a; done.
  - apply triple_seq. eapply triple_mono; [|apply (sync_directory J (x :: d)); auto].
    intros s' [[]|e] _ [Hj Hf]; [|by auto]. eapply triple_mono; [|apply (IH (fun s => J s /\ flushed s (x :: d)))].
    + intros s2 [[]|e] _ [[Hj2 Hf2] H]; (split; [done|]); [|done]. intros a Sa. apply suffix_dirname in Sa as [->|Sa]; [done|by apply H].
    + intros s2 [Hj2 _]. by apply Js.
    + intros fd s2 [Hj2 Hf2]. split; [by apply Jf|by apply flush_flushed].
    + intros s2 a [Hj2 _] Sa. apply Jd; [done|]. by apply suffix_cons_r.
    + done.
Qed.

Lemma after_on_disk s : after s -> (forall a, a `suffix_of` dirname path -> flushed s a) -> on_disk (Some (Json data)) s.
Proof.
  intros [D _ (k & E & T & _) _] Hf.
  assert (Only : forall q, dirname q `suffix_of` dirname path -> forall e, e ∈ entries s q -> e = entry s q).
  { intros [|x q] Sq e; cbn [entries]; [by intros ->%list_elem_of_singleton|]. unfold possible. rewrite (Hf q Sq x).
    by intros ->%list_elem_of_singleton. }
  split.
  - intros _ d Sd e Hin. assert (Sd' : dirname d `suffix_of` dirname path) by (destruct d; [apply suffix_nil|by eapply suffix_cons_l]).
    rewrite (Only d Sd' e Hin). by apply D.
  - intros e Hin. exists k. rewrite (Only path ltac:(done) e Hin). by split.
Qed.
End Temporary.

(** How a durable write ends. *)
Inductive ended (s : System) : result PersistError unit -> Prop :=
  | has_new u : on_disk (Some (Json data)) s -> unshared s -> ended s (Ok u)
  | has_old phase cause : on_disk o s -> unshared s -> ended s (Throw (DurableWriteError path phase NotPublished cause))
  | has_either cause : reads s path (Json data) -> ended s (Throw (DurableWriteError path PhaseDirectoryFsync PossiblyPublished cause)).

Lemma temporary_sibling now : sibling (temporaryPath self path now).
Proof. split_and!; [by apply with_suffix_ne|apply with_suffix_root|by apply with_suffix_dirname]. Qed.

Lemma write_triple mode s : before o s -> triples (writeJsonFileDurable self path data mode) ended s.
Proof.
  intros Hs. apply triple_seq, triple_catch. eapply triple_mono; [|by apply ensured].
  intros s1 [[]|e] _ [B D]; [|split; [by apply before_survives|]; destruct B; by constructor].
  apply triple_call; [by apply before_survives|]. intros now s2 ->. set (temporary := temporaryPath self path now).
  assert (beside : sibling temporary) by apply temporary_sibling.
  assert (Old : forall phase e (Q : System -> result PersistError unit -> Prop) s', (forall s e, ended s (Throw e) -> Q s (Throw e)) ->
    prepared s' -> triples (_ ← discard temporary; Fail (DurableWriteError path phase NotPublished e)) Q s').
  { intros phase e Q s' HQ P. apply triple_seq. eapply triple_mono; [|by apply discarded]. intros s3 r _ [P3 ->].
    split; [by apply prepared_survives|]. destruct P3 as [[? ?] _]. apply HQ. by constructor. }
  apply triple_seq, triple_catch. eapply triple_mono; [|by apply write_phase]. intros s3 [[]|e] _ H3; [|by apply Old].
  apply triple_seq, triple_catch. eapply triple_mono; [|by apply sync_phase]. intros s4 [[]|e] _ H4; [|by apply Old].
  apply triple_seq, triple_catch. pose proof H4 as [P4 (k & E4 & _)]. apply triple_call; [by apply prepared_survives|].
  intros r s5 [[Hr ->]|(i & _ & _ & _ & -> & ->)].
  - destruct r as [|e]; [done|]. split; [by apply prepared_survives|]. by apply Old.
  - assert (A : after (rename temporary path s4)) by (by apply renamed_after). split; [by apply after_survives|].
    apply triple_catch. eapply triple_mono; [|apply (sync_tree (dirname path) after); [apply after_survives|apply after_flush|by intros s7 a H7; apply (af_directories s7 H7)|exact A]].
    intros s6 [[]|e] Hi [A6 F6]; [constructor; [by apply after_on_disk|apply A6]|]. split; [done|]. constructor.
    destruct A6 as [D6 _ (j & E6 & T6 & _) _]. exists j. split; [done|]. split; [apply T6; by left|done].
Qed.
End Phases.
End Write.

(** ** Theorems *)

(** C5: Wherever a durable write has come when the machine stops, and whatever failed on the way,
    the crash leaves at the path what was on the disk or the new data, whole. *)
Theorem crash_leaves_old_or_new self path data mode o s s' m' :
  path <> [] -> on_disk path o s -> unshared path s ->
  rtc (acts (does self)) (s, writeJsonFileDurable self path data mode) (s', m') ->
  forall c, crash s' c -> content c path o \/ content c path (Some (Json data)).
Proof.
  intros N Ho Hu R. pose proof (triple_acts _ _ _ _ _ _ _ (write_triple self path N data o mode s (conj Ho Hu)) R) as H.
  exact (triple_now _ _ _ _ _ H).
Qed.

(** C6: When a durable write returns, every crash leaves the new data; when it throws, the error is
    one of a durable write of this path: not published is what was on the disk, before and after
    any crash, and possibly published is read as the new data. *)
Theorem durable_write_reports_publication self path data mode o s s' m' :
  path <> [] -> on_disk path o s -> unshared path s ->
  rtc (acts (does self)) (s, writeJsonFileDurable self path data mode) (s', m') ->
  match m' with
  | Ret _ => on_disk path (Some (Json data)) s' /\ forall c, crash s' c -> reads c path (Json data)
  | Fail e => exists phase publication cause, e = DurableWriteError path phase publication cause /\
      match publication with
      | NotPublished => content s' path o /\ forall c, crash s' c -> content c path o
      | PossiblyPublished => phase = PhaseDirectoryFsync /\ reads s' path (Json data)
      end
  | Do _ _ => True
  end.
Proof.
  intros N Ho Hu R. pose proof (triple_acts _ _ _ _ _ _ _ (write_triple self path N data o mode s (conj Ho Hu)) R) as H.
  destruct m' as [u|e|c k]; [| |done]; destruct H as [_ H].
  - inversion H as [? D| |]. split; [done|]. intros c Hc. by apply (on_disk_crash path (Some (Json data)) s' c).
  - assert (Now : crash s' s') by (by split; left). inversion H as [|phase cause D _|cause D].
    + exists phase, NotPublished, cause. split; [done|]. split; [by eapply on_disk_crash|]. intros c. by apply on_disk_crash.
    + by exists PhaseDirectoryFsync, PossiblyPublished, cause.
Qed.

(** ** A write *)

Definition settings : Path := ["state.json"; "ti"]%string.
Definition old_text : Text := Json (VNum 1).
Definition flushed_value {A} (x : A) : Async A := {| latest := x; older := [] |}.
(** A directory with a file, on the disk. *)
Definition example_system : System :=
  {| sy_entry := fun p => flushed_value (if decide (p = settings) then Some (FileAt 0) else if decide (p = ["ti"%string]) then Some DirectoryAt else None);
     sy_text := fun i => flushed_value old_text; sy_mtime := fun _ => 0%float; sy_dead := [] |}.
Definition writer : Proc := {| pr_host := "here"; pr_pid := 7 |}.

Lemma example_below : below 1 example_system.
Proof.
  intros p i. cbn. intros [E|[]%elem_of_nil]%elem_of_cons. revert E. repeat case_decide; try done. intros [= ->]. lia.
Qed.
Lemma example_on_disk : on_disk settings (Some old_text) example_system.
Proof.
  split.
  - intros _ d Sd e. apply suffix_dirname in Sd as [->|Sd]; [by intros [->|[]%elem_of_nil]%elem_of_cons|].
    destruct Sd as [k E]. destruct k, d; try done. by intros [->|[]%elem_of_nil]%elem_of_cons.
  - intros e [->|[]%elem_of_nil]%elem_of_cons. exists 0. split; [done|]. by intros x [->|[]%elem_of_nil]%elem_of_cons.
Qed.
Lemma example_unshared : unshared settings example_system.
Proof.
  assert (Only : forall q i, entry example_system q = Some (FileAt i) -> q = settings /\ i = 0).
  { intros [|x q] i; cbn; [done|]. case_decide as E; [intros [= <-]; by split|]. by case_decide. }
  split; [by intros q i N [? _]%Only|]. by intros q r i [-> _]%Only [-> _]%Only.
Qed.

Definition example_write : Prog fs_reply PersistError unit := writeJsonFileDurable writer settings (VNum 2) None.
Definition example_end : nat * System * Prog fs_reply PersistError unit := complete writer 5 1 example_system example_write.

(** The write that is complete leaves the new data. *)
Lemma durable_write_reports_publication_witness :
  snd example_end = Ret tt /\ forall c, crash (snd (fst example_end)) c -> reads c settings (Json (VNum 2)).
Proof.
  assert (R : rtc (acts (does writer)) (example_system, example_write) (let '(_, s', m') := example_end in (s', m')))
    by exact (complete_acts writer 5 1 example_system example_write example_below).
  assert (E : snd example_end = Ret tt) by (vm_compute; reflexivity). split; [exact E|].
  revert E R. generalize example_end. intros [[n s'] m'] E R. cbn [snd fst] in *. subst m'.
  apply (durable_write_reports_publication writer settings (VNum 2) None (Some old_text) example_system s' (Ret tt));
    [discriminate|apply example_on_disk|apply example_unshared|exact R].
Defined.

(** The machine stops when the write has returned. *)
Lemma crash_leaves_old_or_new_witness :
  crash (snd (fst example_end)) (snd (fst example_end)) /\
  (content (snd (fst example_end)) settings (Some old_text) \/ content (snd (fst example_end)) settings (Some (Json (VNum 2)))).
Proof.
  assert (R : rtc (acts (does writer)) (example_system, example_write) (let '(_, s', m') := example_end in (s', m')))
    by exact (complete_acts writer 5 1 example_system example_write example_below).
  revert R. generalize example_end. intros [[n s'] m'] R. cbn [snd fst]. assert (Now : crash s' s') by (by split; left). split; [exact Now|].
  apply (crash_leaves_old_or_new writer settings (VNum 2) None (Some old_text) example_system s' m');
    [discriminate|apply example_on_disk|apply example_unshared|exact R|exact Now].
Defined.
