(* ===== verification/FileLocks.v ===== *)
(** * Locks exclude

    Processes of one machine or of several acquire a lock that is a file, work and release it,
    and any of them may end at any call.  Without a limit on its age, a lock has one holder, as
    long as no process ends between the reading of its name and the test whether it has ended;
    without that condition there is a run with two holders, and a process that ends before its
    name is written leaves a lock that is never acquired again. *)

From Stdlib Require Import ZArith Lia Bool Floats.
From stdpp Require Import base strings option list functions relations.
From S2P Require Import Prelude Effects Transitions JsNumber JsValue FileSystem Persist.

Local Open Scope nat_scope.

Section Lock.
Variable lock : Path.
Hypothesis not_root : lock <> [].

Definition gate : Path := gate_path lock.

(** ** What a process knows *)

(** Under the gate: the lock's text, and that it names a process that has ended. *)
Inductive Seen := Unseen | Saw (v : value) | SawDead (v : value).

(** The files it made, of the lock and of the gate. *)
Record Grip := { gr_lock : option nat; gr_gate : option nat; gr_seen : Seen }.
Definition empty_handed : Grip := {| gr_lock := None; gr_gate := None; gr_seen := Unseen |}.

Definition Ev : Type := Event fs_reply.

Definition next_lock (o : option nat) (e : Ev) : option nat :=
  match e with existT c r =>
    match c return fs_reply c -> option nat with
    | OpenExclusive p => fun r => match r with Ok i => if decide (p = lock) then Some i else o | Throw _ => o end
    | UnlinkSync p => fun r => if isOk r && bool_decide (p = lock) then None else o
    | _ => fun _ => o
    end r
  end.
Definition next_gate (o : option nat) (e : Ev) : option nat :=
  match e with existT c r =>
    match c return fs_reply c -> option nat with
    | OpenExclusive p => fun r => match r with Ok i => if decide (p = gate) then Some i else o | Throw _ => o end
    | UnlinkSync p => fun r => if isOk r && bool_decide (p = gate) then None else o
    | _ => fun _ => o
    end r
  end.
Definition next_seen (g : Grip) (e : Ev) : Seen :=
  let k := gr_seen g in
  match e with existT c r =>
    match c return fs_reply c -> Seen with
    | OpenExclusive p => fun r => if isOk r then Unseen else k
    | UnlinkSync p => fun r => if isOk r then Unseen else k
    | ReadFileSync p => fun r =>
        match r, gr_gate g with Ok (Json v), Some _ => if decide (p = lock) then Saw v else k | _, _ => k end
    | Kill pid => fun r =>
        match k with
        | Saw v => match r with Throw code => if decide (code = Some "ESRCH"%string) then SawDead v else Unseen | Ok _ => Unseen end
        | _ => k
        end
    | _ => fun _ => k
    end r
  end.
Definition next (g : Grip) (e : Ev) : Grip :=
  {| gr_lock := next_lock (gr_lock g) e; gr_gate := next_gate (gr_gate g) e; gr_seen := next_seen g e |}.

(** The process that a lock's text names. *)
Definition names (v : value) (q : Proc) : Prop := prop "host" v = VStr (pr_host q) /\ prop "pid" v = VNum (pr_pid q).

Section Process.
Variable self : Proc.

(** When a process makes a call. *)
Definition may (g : Grip) (c : FsCall) : Prop :=
  match c with
  | OpenExclusive p => p = lock \/ p = gate
  | WriteFd fd v => v = owner_of self /\ exists i, fd = OnFile i /\ (gr_lock g = Some i \/ gr_gate g = Some i)
  | UnlinkSync p =>
      (p = lock /\ (gr_lock g <> None \/ exists v, gr_seen g = SawDead v)) \/ (p = gate /\ gr_gate g <> None)
  | Kill pid => forall v, gr_seen g = Saw v -> names v {| pr_host := pr_host self; pr_pid := pid |}
  | MkdirSync p => p = dirname lock
  | WriteFileSync _ _ _ | RenameSync _ _ | ChmodSync _ _ => False
  | _ => True
  end.

Abbreviation wps := (wp may next).

(** Programs that neither make, write nor remove a file. *)
Definition harmless {A} (m : F A) : Prop := forall (Q : Grip -> result PersistError A -> Prop) g, (forall r, Q g r) -> wps m Q g.

Lemma harmless_ret {A} (a : A) : harmless (Ret a).
Proof. intros Q g HQ. apply HQ. Qed.
Lemma harmless_fail {A} e : harmless (Fail e : F A).
Proof. intros Q g HQ. apply HQ. Qed.
Lemma harmless_bind {A B} (m : F A) (f : A -> F B) : harmless m -> (forall a, harmless (f a)) -> harmless (m ≫= f).
Proof. intros Hm Hf Q g HQ. apply wp_bind, Hm. intros [a|e]; [by apply Hf|apply HQ]. Qed.
Lemma harmless_attempt {A} (m : F A) : harmless m -> harmless (attempt m).
Proof. intros Hm Q g HQ. apply wp_attempt, Hm. auto. Qed.
Lemma harmless_try {A} (m : F A) h : harmless m -> (forall e, harmless (h e)) -> harmless (tryCatch m h).
Proof. intros Hm Hh. apply harmless_bind; [by apply harmless_attempt|]. intros [a|e]; [apply harmless_ret|apply Hh]. Qed.
Lemma harmless_thrown {A} (r : result Code A) : harmless (thrown r).
Proof. destruct r; [apply harmless_ret|apply harmless_fail]. Qed.
Lemma harmless_call c : (forall g, may g c) -> (forall g r, next g (existT c r) = g) -> harmless (call c).
Proof. intros Hm Hn Q g HQ. apply wp_call; [done|]. intros r. by rewrite Hn. Qed.

Lemma next_same g e :
  next_lock (gr_lock g) e = gr_lock g -> next_gate (gr_gate g) e = gr_gate g -> next_seen g e = gr_seen g -> next g e = g.
Proof. destruct g. unfold next. cbn. congruence. Qed.

#[local] Ltac harmless_by_call :=
  lazymatch goal with |- harmless (call ?c) => apply (harmless_call c); [done|intros; by apply next_same] end.
#[local] Ltac harmless :=
  unfold existsSync, now_, mkdirSync, openRead, fsyncSync, closeSync, statSync;
  lazymatch goal with
  | |- harmless (call _) => harmless_by_call
  | _ => apply harmless_bind; [harmless_by_call|intros; apply harmless_thrown]
  end.

Lemma harmless_syncPath p : harmless (syncPath p).
Proof.
  apply harmless_bind; [harmless|]. intros fd. apply harmless_bind; [apply harmless_attempt; harmless|].
  intros r. apply harmless_bind; [harmless|]. intros []. destruct r; [apply harmless_ret|apply harmless_fail].
Qed.
Lemma harmless_tree p : harmless (syncDirectoryTree p).
Proof. induction p as [|x d IH]; (apply harmless_bind; [apply harmless_syncPath|intros []]); [apply harmless_ret|done]. Qed.
Lemma harmless_ensure : harmless (ensureDirectoryDurable (dirname lock)).
Proof.
  apply harmless_bind; [harmless|]. intros b. apply harmless_bind; [harmless|]. intros [].
  destruct (negb b); [apply harmless_tree|apply harmless_ret].
Qed.
Lemma harmless_start o : harmless (acquire_start lock o).
Proof.
  apply harmless_bind; [apply harmless_ensure|]. intros []. apply harmless_bind; [harmless|]. intros now. apply harmless_ret.
Qed.

(** No lock is older than infinity. *)
Lemma never_stale x : (infinity <? x)%float = false.
Proof.
  rewrite FloatAxioms.ltb_spec. replace (Prim2SF infinity) with (S754_infinity false) by reflexivity.
  by destruct (Prim2SF x) as [[]|[]| |[]].
Qed.

Lemma stale_never p (Q : Grip -> result PersistError bool -> Prop) g :
  Q g (Ok false) -> (forall e, Q g (Throw e)) -> wps (isStaleLock p infinity) Q g.
Proof.
  intros H0 He. apply wp_try, wp_call_bind; [done|]. intros now. rewrite next_same by done. apply wp_bind, wp_call_bind; [done|].
  intros r. rewrite next_same by done. destruct r as [st|e]; cbn [thrown of_result wp]; [by rewrite never_stale|].
  destruct (has_code _ _); cbn [wp]; auto.
Qed.

(** *** Making and removing the files *)

Definition has (p : Path) (g : Grip) : Prop := (p = lock /\ gr_lock g <> None) \/ (p = gate /\ gr_gate g <> None).

Lemma has_may p g : has p g -> may g (UnlinkSync p).
Proof. intros [[-> H]|[-> H]]; [left|right]; auto. Qed.

Lemma wp_cleanup {A} p fd error (Q : Grip -> result PersistError A -> Prop) g :
  has p g -> (forall g e, Q g (Throw e)) -> wps (_ ← finally (closeSync fd) (quietly (unlinkSync p)); Fail error) Q g.
Proof.
  intros Hp HQ. apply wp_bind, wp_bind, wp_attempt, wp_call_bind; [done|]. intros r. rewrite next_same by done.
  destruct r as [[]|e]; cbn [thrown of_result wp]; (apply wp_bind, wp_bind, wp_attempt, wp_call_bind; [by apply has_may|]);
    intros [[]|e']; cbn; apply HQ.
Qed.

Lemma wp_create p (Q : Grip -> result PersistError FileLock -> Prop) g :
  p = lock \/ p = gate -> (forall g l, has p g -> lk_path l = p -> Q g (Ok l)) -> (forall g e, Q g (Throw e)) ->
  wps (tryCreateLock self p) Q g.
Proof.
  intros Hp Hok Hno. unfold tryCreateLock, openExclusive. apply wp_bind, wp_call_bind; [done|]. intros [i|e]; cbn [thrown of_result wp]; [|by apply Hno].
  set (g1 := next g _).
  assert (Hi : gr_lock g1 = Some i \/ gr_gate g1 = Some i).
  { destruct Hp as [-> | ->]; [left|right]; cbn; by rewrite decide_True. }
  assert (H1 : has p g1).
  { destruct Hp as [-> | ->]; [left|right]; (split; [done|]); cbn; by rewrite decide_True. }
  clearbody g1. apply wp_try, wp_bind, wp_call_bind; [split; [done|by exists i]|]. intros r. rewrite next_same by done.
  destruct r as [[]|e]; cbn [thrown of_result wp]; [|by apply wp_cleanup].
  apply wp_bind, wp_call_bind; [done|]. intros r. rewrite next_same by done. destruct r as [[]|e]; cbn [thrown of_result wp]; [|by apply wp_cleanup].
  apply wp_bind, wp_call_bind; [done|]. intros r. rewrite next_same by done. destruct r as [st|e]; cbn [thrown of_result wp]; [|by apply wp_cleanup].
  by apply Hok.
Qed.

Lemma wp_unlock l (Q : Grip -> result PersistError unit -> Prop) g : has (lk_path l) g -> (forall g r, Q g r) -> wps (releaseFileLock l) Q g.
Proof.
  intros Hp HQ. apply wp_bind, wp_attempt, wp_call_bind; [done|]. intros r. rewrite next_same by done.
  destruct r as [[]|e]; cbn [thrown of_result wp]; (apply wp_bind, wp_attempt, wp_bind, wp_call_bind; [done|]);
    intros r'; rewrite next_same by done; destruct r' as [st|e']; cbn [thrown of_result wp];
    try destruct (_ && _); try (apply wp_call_bind; [by apply has_may|]; intros [[]|e2]); cbn [thrown of_result wp];
    try destruct (has_code _ _); apply HQ.
Qed.

(** *** Reclaiming *)

Lemma gate_ne : gate <> lock.
Proof. by apply with_suffix_ne. Qed.

Lemma wp_gate (Q : Grip -> result PersistError (option FileLock) -> Prop) g :
  (forall g, Q g (Ok None)) -> (forall g l, gr_gate g <> None -> lk_path l = gate -> Q g (Ok (Some l))) -> (forall g e, Q g (Throw e)) ->
  wps (tryGate self lock) Q g.
Proof.
  intros Hn Hs He. apply wp_try, wp_bind, wp_create; [by right| |].
  - intros g' l [[E _]|[_ Hg]] Hl; [by apply gate_ne in E|]. by apply Hs.
  - intros g' e. destruct (has_code _ _); cbn [wp]; auto.
Qed.

(** What is done under the gate leaves the gate. *)
Definition under {A} (m : F A) : Prop :=
  forall (Q : Grip -> result PersistError A -> Prop) g, gr_gate g <> None -> (forall g r, gr_gate g <> None -> Q g r) -> wps m Q g.

Lemma wp_under m (Q : Grip -> result PersistError bool -> Prop) g : under m -> (forall g r, Q g r) -> wps (under_gate self lock m) Q g.
Proof.
  intros Hm HQ. apply wp_bind, wp_gate; [intros; apply HQ|intros g' l Hg Hl|intros; apply HQ].
  apply wp_bind, wp_attempt, Hm; [done|]. intros g2 r Hg2. apply wp_bind, wp_unlock; [right; by rewrite Hl|].
  intros g3 [[]|e]; [|done]. destruct r; cbn; apply HQ.
Qed.

Lemma under_ret {A} (a : A) : under (Ret a).
Proof. intros Q g Hg HQ. by apply HQ. Qed.
Lemma under_fail {A} e : under (Fail e : F A).
Proof. intros Q g Hg HQ. by apply HQ. Qed.

Lemma owner_named v pid : owner_pid self v = Some pid -> names v {| pr_host := pr_host self; pr_pid := pid |}.
Proof.
  unfold owner_pid, names. destruct (prop "pid" v) as [| | |n| | |]; try done. unfold isLit, isString. destruct (prop "host" v); try (by cbn).
  destruct (String.eqb _ _) eqn:E; [|done]. apply String.eqb_eq in E as <-. cbn [andb pr_host pr_pid].
  destruct (_ && _); [|done]. by intros [= ->].
Qed.

Lemma under_read :
  forall (Q : Grip -> result PersistError (option value) -> Prop) g, gr_gate g <> None ->
  (forall g r, gr_gate g <> None -> (forall v pid, r = Ok (Some v) -> owner_pid self v = Some pid -> gr_seen g = Saw v) -> Q g r) ->
  wps (tryCatch (v ← readJsonFile lock; Ret (Some v))
    (fun error => match error with
                  | SyntaxErrorThrown => Ret None
                  | _ => if has_code "ENOENT" error then Ret None else Fail error
                  end)) Q g.
Proof.
  intros Q g Hg HQ. apply wp_try, wp_bind. unfold readJsonFile. apply wp_call_bind; [done|]. intros there. rewrite next_same by done.
  destruct there; cbn [negb]; [|cbn [wp]; apply HQ; [done|]; by intros v pid [= <-]].
  apply wp_call_bind; [done|]. intros [t|e].
  - apply wp_bind. cbn [thrown of_result wp]. destruct t as [v|]; cbn [wp].
    + apply HQ; [done|]. intros v' pid [= <-] _. cbn. destruct (gr_gate g); [|done]. by rewrite decide_True.
    + by apply HQ.
  - rewrite next_same by done. apply wp_bind. cbn [thrown of_result wp]. destruct (has_code "ENOENT" (SystemError e)); cbn [wp]; by apply HQ.
Qed.

Lemma under_dead : under (reclaim_dead self lock).
Proof.
  intros Q g Hg HQ. apply wp_bind, under_read; [done|]. intros g1 [o|e] Hg1 Hs; [|by apply HQ].
  destruct o as [v|]; cbn [option_bind]; [|by apply HQ]. destruct (owner_pid self v) as [pid|] eqn:Ep; [|by apply HQ].
  pose proof (Hs v pid eq_refl Ep) as Hv. apply wp_call_bind; [intros v' E; rewrite Hv in E; injection E as <-; by apply owner_named|].
  intros [[]|code]; [by apply HQ|]. case_bool_decide as Nc; cbn [negb]; [subst code|by apply HQ].
  set (g2 := next g1 _). assert (Hg2 : gr_gate g2 <> None) by done.
  assert (Hs2 : gr_seen g2 = SawDead v) by (cbn; rewrite Hv; by rewrite decide_True). clearbody g2.
  apply wp_bind. unfold removeFileDurable, unlinkSync. apply wp_bind, wp_bind, wp_call_bind; [left; split; [done|right; by exists v]|].
  intros r. set (g3 := next g2 _).
  assert (Hg3 : gr_gate g3 <> None).
  { cbn. case_bool_decide as E; [by destruct gate_ne|]. by rewrite andb_false_r. }
  clearbody g3. destruct r as [[]|e]; cbn [thrown of_result wp]; [|by apply HQ].
  apply harmless_tree. intros [[]|e]; by apply HQ.
Qed.

Definition ageless (o : ResolvedOptions) : Prop := ro_staleMs o = infinity.

Lemma wp_wait o deadline (Q : Grip -> result PersistError Verdict -> Prop) g :
  ageless o -> (forall g r, Q g r) -> wps (reclaimOrWaitForLock self lock o deadline) Q g.
Proof.
  intros Ho HQ.
  assert (Stale : forall g, wps (stale ← reclaimStaleLock self lock (ro_staleMs o);
    if (stale : bool) then Ret Retry else now ← now_; _ ← failIf (deadline <=? now)%float (LockTimeout lock); Ret Wait) Q g).
  { intros g1. apply wp_bind. unfold reclaimStaleLock. rewrite Ho. apply wp_bind, stale_never; [|intros; apply HQ].
    cbn [negb wp]. apply wp_call_bind; [done|]. intros now. rewrite next_same by done.
    destruct (deadline <=? now)%float; apply HQ. }
  apply wp_bind. destruct (ro_reclaimDeadOwner o); [|apply Stale]. apply wp_under; [apply under_dead|].
  intros g1 [[]|e]; [by apply HQ|apply Stale|by apply HQ].
Qed.

(** A turn ends with the lock, or with nothing. *)
Lemma wp_turn o deadline (Q : Grip -> result PersistError (option FileLock) -> Prop) g :
  ageless o -> (forall g l, gr_lock g <> None -> lk_path l = lock -> Q g (Ok (Some l))) -> (forall g, Q g (Ok None)) -> (forall g e, Q g (Throw e)) ->
  wps (acquire_turn self lock o deadline) Q g.
Proof.
  intros Ho Hl Hn He. apply wp_bind, wp_attempt, wp_create; [by left| |].
  - intros g1 l [[_ Hg]|[E _]] Hp; [by apply Hl|]. by destruct gate_ne.
  - intros g1 e. destruct (negb _); [by apply He|]. apply wp_bind, wp_wait; [done|]. intros g2 [[]|e2]; [by apply Hn| |by apply He].
    apply wp_call_bind; [done|]. intros []. by apply Hn.
Qed.
End Process.

(** ** Processes and threads *)

(** What a thread does: the start and the turns of acquiring, its work, the release. *)
Inductive Stage :=
  | Starting (m : F number)
  | Turning (deadline : number) (m : F (option FileLock))
  | Inside (l : FileLock)
  | Leaving (m : F unit)
  | Over.

Record Thread := { th_proc : Proc; th_options : ResolvedOptions; th_grip : Grip; th_stage : Stage }.

(** The call a stage makes next, and the stage after its reply. *)
Definition asks (g : Stage) : option {c : FsCall & fs_reply c -> Stage} :=
  match g with
  | Starting (Do c k) => Some (existT c (fun r => Starting (k r)))
  | Turning d (Do c k) => Some (existT c (fun r => Turning d (k r)))
  | Leaving (Do c k) => Some (existT c (fun r => Leaving (k r)))
  | _ => None
  end.

(** What follows the end of a program, and the work. *)
Definition follows (q : Proc) (o : ResolvedOptions) (g : Stage) : option Stage :=
  match g with
  | Starting (Ret deadline) => Some (Turning deadline (acquire_turn q lock o deadline))
  | Turning deadline (Ret None) => Some (Turning deadline (acquire_turn q lock o deadline))
  | Turning _ (Ret (Some l)) => Some (Inside l)
  | Inside l => Some (Leaving (releaseFileLock l))
  | Starting (Fail _) | Turning _ (Fail _) | Leaving (Ret _) | Leaving (Fail _) => Some Over
  | _ => None
  end.

Definition arrival (q : Proc) (o : ResolvedOptions) : Thread :=
  {| th_proc := q; th_options := o; th_grip := empty_handed; th_stage := Starting (acquire_start lock o) |}.
Definition replied (t : Thread) (e : Ev) (g : Stage) : Thread :=
  {| th_proc := th_proc t; th_options := th_options t; th_grip := next (th_grip t) e; th_stage := g |}.
Definition continued (t : Thread) (g : Stage) : Thread :=
  {| th_proc := th_proc t; th_options := th_options t; th_grip := th_grip t; th_stage := g |}.

Definition Pool : Type := System * list Thread.

Definition live (s : System) (t : Thread) : Prop := th_proc t ∉ sy_dead s.
Definition dies (q : Proc) (s : System) : System :=
  {| sy_entry := sy_entry s; sy_text := sy_text s; sy_mtime := sy_mtime s; sy_dead := q :: sy_dead s |}.

(** A thread has read the name of [q], which is of its machine, and has not asked for it yet. *)
Definition examined (P : Pool) (q : Proc) : Prop :=
  exists t v, t ∈ snd P /\ live (fst P) t /\ gr_seen (th_grip t) = Saw v /\ names v q /\ pr_host q = pr_host (th_proc t) /\ q <> th_proc t.

Section Steps.
(** When which process may end. *)
Variable deaths : Pool -> Proc -> Prop.

Inductive step : Pool -> Pool -> Prop :=
  | arrives s l q o : q ∉ sy_dead s -> ageless o -> step (s, l) (s, app l [arrival q o])
  | calls s l i t P :
      l !! i = Some t -> live s t ->
      match asks (th_stage t) with
      | Some (existT c k) => exists r s', does (th_proc t) s c r s' /\ P = (s', <[i := replied t (existT c r) (k r)]> l)
      | None => False
      end ->
      step (s, l) P
  | goes_on s l i t g :
      l !! i = Some t -> live s t -> follows (th_proc t) (th_options t) (th_stage t) = Some g -> step (s, l) (s, <[i := continued t g]> l)
  | ends s l q : deaths (s, l) q -> step (s, l) (dies q s, l).

(** Files before the first thread: neither the lock nor its gate is there. *)
Definition initial (P : Pool) : Prop := snd P = [] /\ entry (fst P) lock = None /\ entry (fst P) gate = None.
Definition reachable (P : Pool) : Prop := exists P0, initial P0 /\ rtc step P0 P.
End Steps.

(** ** The invariant *)

Definition at_lock (s : System) (v : value) : Prop := exists i, entry s lock = Some (FileAt i) /\ text s i = Json v.

Record claims (s : System) (q : Proc) (g : Grip) : Prop := {
  cl_lock : forall i, gr_lock g = Some i -> entry s lock = Some (FileAt i) /\ (text s i = Torn \/ text s i = Json (owner_of q));
  cl_gate : forall j, gr_gate g = Some j -> entry s gate = Some (FileAt j);
  cl_saw : forall v, gr_seen g = Saw v -> gr_gate g <> None /\
             forall d, names v d -> d ∈ sy_dead s -> pr_host d = pr_host q -> at_lock s v;
  cl_dead : forall v, gr_seen g = SawDead v -> gr_gate g <> None /\ (exists d, names v d /\ d ∈ sy_dead s) /\ at_lock s v
}.

(** What remains of a thread's programs. *)
Definition verified (t : Thread) : Prop :=
  let ok {A} (m : F A) (Q : Grip -> result PersistError A -> Prop) := wp (may (th_proc t)) next m Q (th_grip t) in
  match th_stage t with
  | Starting m => ok m (fun _ _ => True)
  | Turning _ m => ok m (fun g r => match r with Ok (Some l) => gr_lock g <> None /\ lk_path l = lock | _ => True end)
  | Inside l => gr_lock (th_grip t) <> None /\ lk_path l = lock
  | Leaving m => ok m (fun _ _ => True)
  | Over => True
  end.

Record pool_ok (P : Pool) : Prop := {
  ok_apart : forall i j, entry (fst P) lock = Some (FileAt i) -> entry (fst P) gate = Some (FileAt j) -> i <> j;
  ok_thread : forall a t, snd P !! a = Some t -> ageless (th_options t) /\ verified t /\ (live (fst P) t -> claims (fst P) (th_proc t) (th_grip t));
  ok_lock : forall a b t u, snd P !! a = Some t -> snd P !! b = Some u -> live (fst P) t -> live (fst P) u ->
              gr_lock (th_grip t) <> None -> gr_lock (th_grip u) <> None -> a = b;
  ok_gate : forall a b t u, snd P !! a = Some t -> snd P !! b = Some u -> live (fst P) t -> live (fst P) u ->
              gr_gate (th_grip t) <> None -> gr_gate (th_grip u) <> None -> a = b
}.

Lemma names_owner q d : names (owner_of q) d -> d = q.
Proof. destruct q as [h p], d as [h' p']. unfold names. cbn. intros [[= ->] [= ->]]. done. Qed.

(** The text of a live holder's lock names no process that has ended. *)
Lemma holder_not_dead s q i v d :
  q ∉ sy_dead s -> entry s lock = Some (FileAt i) -> text s i = Torn \/ text s i = Json (owner_of q) -> at_lock s v -> names v d -> d ∈ sy_dead s -> False.
Proof.
  intros L E T (i' & E' & T') N D. rewrite E in E'. injection E' as <-. destruct T as [T|T]; rewrite T in T'; [done|].
  injection T' as <-. apply names_owner in N as ->. done.
Qed.

(** ** What a call changes *)

Definition apart (s : System) : Prop := forall i j, entry s lock = Some (FileAt i) -> entry s gate = Some (FileAt j) -> i <> j.

(** A file that was made or removed. *)
Definition changed (e : Ev) : bool :=
  match e with existT c r =>
    match c return fs_reply c -> bool with
    | OpenExclusive _ => fun r => isOk r
    | UnlinkSync _ => fun r => isOk r
    | _ => fun _ => false
    end r
  end.

Inductive effect (self : Proc) (s s' : System) : Ev -> Prop :=
  | ef_none e : entry s' lock = entry s lock -> entry s' gate = entry s gate -> (forall i, text s' i = text s i) -> changed e = false ->
      effect self s s' e
  | ef_made p i : p = lock \/ p = gate -> entry s p = None -> unused s i -> entry s' p = Some (FileAt i) ->
      (forall q, q <> p -> entry s' q = entry s q) -> text s' i = Torn -> (forall j, j <> i -> text s' j = text s j) ->
      effect self s s' (existT (OpenExclusive p) (Ok i))
  | ef_removed p : p <> [] -> entry s' p = None -> (forall q, q <> p -> entry s' q = entry s q) -> (forall i, text s' i = text s i) ->
      effect self s s' (existT (UnlinkSync p) (Ok tt))
  | ef_written i r : (forall q, entry s' q = entry s q) ->
      text s' i = text s i \/ text s' i = Torn \/ text s' i = Json (owner_of self) ->
      (forall j, j <> i -> text s' j = text s j) -> effect self s s' (existT (WriteFd (OnFile i) (owner_of self)) r).

Lemma gate_root : gate <> [].
Proof. apply with_suffix_root. Qed.

Lemma not_above_dir p d : p <> [] -> dirname p = dirname lock -> d `suffix_of` dirname lock -> ~ p `suffix_of` d.
Proof.
  intros N E Sd Sp. destruct p as [|x p]; [done|]. cbn in E. subst p. apply (suffix_cons_self x (dirname lock)). by etrans.
Qed.

Lemma entry_mkdirs p d s : p <> [] -> dirname p = dirname lock -> d `suffix_of` dirname lock -> entry (mkdirs d s) p = entry s p.
Proof. intros N E Sd. destruct p as [|x p]; [done|]. unfold entry. by rewrite mkdirs_off by (by apply not_above_dir). Qed.

Lemma does_dead q s c r s' : does q s c r s' -> sy_dead s' = sy_dead s.
Proof.
  destruct c; cbn; intros D;
    repeat match goal with
           | H : _ /\ _ |- _ => destruct H
           | H : _ \/ _ |- _ => destruct H
           | H : exists _, _ |- _ => destruct H
           | H : fails _ _ _ |- _ => destruct H
           end; subst; try done.
  - destruct r; [destruct D as [-> _]|destruct D as (d & _ & ->)]; apply mkdirs_dead.
  - destruct fd, r; repeat match goal with H : _ \/ _ |- _ => destruct H | H : fails _ _ _ |- _ => destruct H end; by subst.
  - by destruct fd.
Qed.

Lemma does_effect self g s c r s' : may self g c -> does self s c r s' -> effect self s s' (existT c r).
Proof.
  assert (Same : forall c r s', s' = s -> changed (existT c r) = false -> effect self s s' (existT c r)) by (intros; subst; by apply ef_none).
  intros M D. destruct c as [p|p|p|p|fd v|fd|fd|fd|p v mode|p|p mode|a b|p|p|p t| |pid|ms]; cbn in M, D; try done.
  - destruct D as [-> _]. by apply Same.
  - subst p. assert (E : exists d, d `suffix_of` dirname lock /\ s' = mkdirs d s) by (destruct r; [exists (dirname lock); by destruct D|done]).
    destruct E as (d & Sd & ->). apply ef_none; try done.
    + by apply entry_mkdirs.
    + apply entry_mkdirs; [apply gate_root|by apply with_suffix_dirname|done].
    + intros i. unfold text. by rewrite mkdirs_text.
  - apply Same; [|done]. by destruct D as [[_ ->]|[-> _]].
  - destruct D as [[Hr ->]|(i & E & U & N & -> & at_ & ->)]; [by apply Same|].
    apply ef_made; try done.
    + rewrite entry_set_mtime. unfold create. rewrite entry_set_text. by apply entry_set_eq.
    + intros q Nq. rewrite entry_set_mtime. unfold create. rewrite entry_set_text. by apply entry_set_ne.
    + unfold text. cbn. by rewrite fn_lookup_insert.
    + intros j Nj. unfold text. cbn. by rewrite fn_lookup_insert_ne.
  - destruct M as (-> & i & -> & _). apply ef_written.
    + intros q. destruct r; [subst; apply entry_write|]. destruct D as [-> | ->]; [done|apply entry_set_text].
    + destruct r; [subst; right; right; apply text_write_eq|]. destruct D as [-> | ->]; [by left|right; left; apply text_set_eq].
    + intros j Nj. destruct r; [subst; by apply text_write_ne|]. destruct D as [-> | ->]; [done|by apply text_set_ne].
  - destruct D as [[Hr ->]|[-> ->]]; [by apply Same|]. apply ef_none; [apply entry_flush_fd|apply entry_flush_fd|apply text_flush_fd|done].
  - apply Same; [|done]. by destruct D as [[_ ->]|(i & _ & _ & ->)].
  - by apply Same.
  - apply Same; [|done]. by destruct D as [[_ ->]|(i & _ & _ & ->)].
  - destruct D as [[Hr ->]|(i & E & N & -> & ->)]; [by apply Same|].
    apply ef_removed; [done|by apply entry_set_eq|intros q Nq; by apply entry_set_ne|done].
  - apply Same; [|done]. by destruct D as [[_ ->]|(i & _ & _ & ->)].
  - destruct D as [[Hr ->]|(i & _ & _ & ->)]; [by apply Same|]. apply ef_none; [apply entry_set_mtime|apply entry_set_mtime|done|done].
  - by apply Same.
  - apply Same; [|done]. by destruct D.
  - by apply Same.
Qed.

(** A file that is made has no entry. *)
Lemma unused_entry s p i : unused s i -> entry s p <> Some (FileAt i).
Proof. intros U E. destruct p as [|x d]; [done|]. apply (U (x :: d)). rewrite <- E. by left. Qed.

Lemma effect_apart s s' u e : apart s -> effect u s s' e -> apart s'.
Proof.
  intros A Ef i j Ei Ej. destruct Ef as [e El Eg _ _|p k Hp En U Ek Eo _ _|p Np Ek Eo _|k r' Eo _ _].
  - rewrite El in Ei. rewrite Eg in Ej. by apply A.
  - destruct Hp as [-> | ->].
    + rewrite Ek in Ei. injection Ei as <-. rewrite Eo in Ej by apply gate_ne. intros ->. by eapply unused_entry.
    + rewrite Ek in Ej. injection Ej as <-. rewrite Eo in Ei by (intros E; by apply gate_ne). intros ->. by eapply unused_entry.
  - destruct (decide (lock = p)) as [<-|N1]; [congruence|]. destruct (decide (gate = p)) as [<-|N2]; [congruence|].
    rewrite Eo in Ei, Ej by done. by apply A.
  - rewrite Eo in Ei, Ej. by apply A.
Qed.

(** The name of a process that has ended stays, unless it is removed under the gate. *)
Lemma at_lock_kept u h s s' e v d :
  apart s -> u ∉ sy_dead s -> may u h (projT1 e) -> claims s u h -> effect u s s' e ->
  names v d -> d ∈ sy_dead s -> at_lock s v -> gr_gate h = None \/ changed e = false -> at_lock s' v.
Proof.
  intros A L M [Cl Cg _ Cd] Ef N D Hv Hg. pose proof Hv as (i & E & T).
  destruct Ef as [e El Eg Et _|p k Hp En U Ek Eo _ Et|p Np Ek Eo Et|k r Eo Tk Et]; cbn in M, Hg.
  - exists i. by rewrite El, Et.
  - exists i. destruct Hp as [-> | ->]; [congruence|]. rewrite Eo by (intros E'; by apply gate_ne). split; [done|].
    rewrite Et; [done|]. intros ->. by eapply unused_entry.
  - destruct Hg as [Hg|]; [|done]. destruct M as [[-> [Hh|(v' & Hv')]]|[-> Hh]]; [| |done].
    + destruct (gr_lock h) as [j|] eqn:Hj; [|done]. destruct (Cl j eq_refl). exfalso. by eapply holder_not_dead.
    + destruct (Cd v' Hv') as [Hh _]. done.
  - destruct M as (_ & k' & [= <-] & [Hk|Hk]).
    + destruct (Cl k Hk). exfalso. by eapply holder_not_dead.
    + exists i. rewrite Eo. split; [done|]. rewrite Et; [done|]. apply (A i k E). by apply Cg.
Qed.

(** What another thread claims. *)
Lemma claims_other q g u h s s' e :
  apart s -> q ∉ sy_dead s -> u ∉ sy_dead s -> may u h (projT1 e) -> claims s u h -> effect u s s' e -> sy_dead s' = sy_dead s ->
  (gr_lock g <> None -> gr_lock h = None) -> (gr_gate g <> None -> gr_gate h = None) -> claims s q g -> claims s' q g.
Proof.
  intros A Lq Lu M Cu Ef Ed Xl Xg [Cl Cg Cs Cd]. split.
  - intros i Hi. destruct (Cl i Hi) as [E T]. assert (Hh : gr_lock h = None) by (apply Xl; congruence).
    pose proof Cu as [_ Cg' _ Cd']. destruct Ef as [e El Eg Et _|p k Hp En U Ek Eo _ Et|p Np Ek Eo Et|k r Eo Tk Et]; cbn in M.
    + by rewrite El, Et.
    + destruct Hp as [-> | ->]; [congruence|]. rewrite Eo by (intros E'; by apply gate_ne). rewrite Et; [done|]. intros ->. by eapply unused_entry.
    + destruct M as [[-> [Hl|(v & Hv)]]|[-> Hl]]; [done| |].
      * destruct (Cd' v Hv) as (_ & (d & N & D) & Hat). exfalso. by eapply (holder_not_dead s q i).
      * rewrite Eo by (intros E'; by apply gate_ne). by rewrite Et.
    + destruct M as (_ & k' & [= <-] & [Hk|Hk]); [congruence|]. rewrite Eo. rewrite Et; [done|]. apply (A i k E). by apply Cg'.
  - intros j Hj. pose proof (Cg j Hj) as E. assert (Hh : gr_gate h = None) by (apply Xg; congruence).
    destruct Ef as [e El Eg Et _|p k Hp En U Ek Eo _ Et|p Np Ek Eo Et|k r Eo Tk Et]; cbn in M.
    + by rewrite Eg.
    + destruct Hp as [-> | ->]; [|congruence]. rewrite Eo; [done|apply gate_ne].
    + destruct M as [[-> _]|[-> Hl]]; [|done]. rewrite Eo; [done|apply gate_ne].
    + by rewrite Eo.
  - intros v Hv. destruct (Cs v Hv) as [Hg Hd]. split; [done|]. intros d N D Eh. rewrite Ed in D.
    eapply at_lock_kept; eauto.
  - intros v Hv. destruct (Cd v Hv) as (Hg & (d & N & D) & Hat). split; [done|]. rewrite Ed. split; [by exists d|].
    eapply at_lock_kept; eauto.
Qed.

(** What a thread claims after its own call. *)
Lemma kept_lock o e : changed e = false -> next_lock o e = o.
Proof. destruct e as [c r]. destruct c; try done; cbn in *; by destruct r. Qed.
Lemma kept_gate o e : changed e = false -> next_gate o e = o.
Proof. destruct e as [c r]. destruct c; try done; cbn in *; by destruct r. Qed.

Lemma lock_self q g s s' e i :
  may q g (projT1 e) -> claims s q g -> effect q s s' e -> next_lock (gr_lock g) e = Some i ->
  entry s' lock = Some (FileAt i) /\ (text s' i = Torn \/ text s' i = Json (owner_of q)).
Proof.
  intros M [Cl _ _ _] Ef Hi. destruct Ef as [e El Eg Et Ce|p k Hp En U Ek Eo Tk Et|p Np Ek Eo Et|k r Eo Tk Et]; cbn in M, Hi.
  - rewrite kept_lock in Hi by done. rewrite El, Et. by apply Cl.
  - case_decide as Ep; [injection Hi as ->; subst p; by auto|]. destruct (Cl i Hi) as [E T]. rewrite Eo by done. split; [done|].
    rewrite Et; [done|]. intros ->. by eapply unused_entry.
  - case_bool_decide as Ep; [done|]. destruct (Cl i Hi) as [E T]. rewrite Eo by done. by rewrite Et.
  - destruct (Cl i Hi) as [E T]. rewrite Eo. split; [done|]. destruct (decide (k = i)) as [->|N]; [|by rewrite Et].
    destruct Tk as [-> | [-> | ->]]; auto.
Qed.
Lemma gate_self q g s s' e j :
  may q g (projT1 e) -> claims s q g -> effect q s s' e -> next_gate (gr_gate g) e = Some j -> entry s' gate = Some (FileAt j).
Proof.
  intros M [_ Cg _ _] Ef Hj. destruct Ef as [e El Eg Et Ce|p k Hp En U Ek Eo Tk Et|p Np Ek Eo Et|k r Eo Tk Et]; cbn in M, Hj.
  - rewrite kept_gate in Hj by done. rewrite Eg. by apply Cg.
  - case_decide as Ep; [injection Hj as ->; by subst p|]. rewrite Eo by done. by apply Cg.
  - case_bool_decide as Ep; [done|]. rewrite Eo by done. by apply Cg.
  - rewrite Eo. by apply Cg.
Qed.

Lemma saw_self q g s s' c r v :
  apart s -> q ∉ sy_dead s -> may q g c -> does q s c r s' -> claims s q g -> next_seen g (existT c r) = Saw v ->
  next_gate (gr_gate g) (existT c r) <> None /\ forall d, names v d -> d ∈ sy_dead s' -> pr_host d = pr_host q -> at_lock s' v.
Proof.
  intros A L M D C Hs. pose proof (does_effect q g s c r s' M D) as Ef. rewrite (does_dead q s c r s' D).
  assert (Kept : gr_seen g = Saw v -> changed (existT c r) = false -> next_gate (gr_gate g) (existT c r) <> None /\
    forall d, names v d -> d ∈ sy_dead s -> pr_host d = pr_host q -> at_lock s' v).
  { intros Hv Hc. destruct (cl_saw _ _ _ C v Hv) as [Hg Hd]. split; [by rewrite kept_gate|]. intros d N Dd Eh.
    apply (at_lock_kept q g s s' (existT c r) v d); try done; [by apply (Hd d) || exact Hat|by right]. }
  destruct c; cbn in Hs; try (by apply Kept); try (destruct r; cbn in Hs; [done|by apply Kept]).
  - destruct r as [[v'|]|]; [|by apply Kept..]. destruct (gr_gate g) as [j|] eqn:Hj; [|by apply Kept].
    case_decide as Ep; [|by apply Kept]. injection Hs as ->. subst p. split; [done|]. intros _ _ _ _.
    destruct D as [[? _]|(i & E & [= Et] & ->)]; [done|]. by exists i.
  - destruct (gr_seen g) eqn:Hg; try done. destruct r as [|code]; [done|]. by case_decide.
Qed.
Lemma dead_self q g s s' c r v :
  apart s -> q ∉ sy_dead s -> may q g c -> does q s c r s' -> claims s q g -> next_seen g (existT c r) = SawDead v ->
  next_gate (gr_gate g) (existT c r) <> None /\ (exists d, names v d /\ d ∈ sy_dead s') /\ at_lock s' v.
Proof.
  intros A L M D C Hs. pose proof (does_effect q g s c r s' M D) as Ef. rewrite (does_dead q s c r s' D).
  assert (Kept : gr_seen g = SawDead v -> changed (existT c r) = false -> next_gate (gr_gate g) (existT c r) <> None /\
    (exists d, names v d /\ d ∈ sy_dead s) /\ at_lock s' v).
  { intros Hv Hc. destruct (cl_dead _ _ _ C v Hv) as (Hg & (d & N & Dd) & Hat). split; [by rewrite kept_gate|]. split; [by exists d|].
    apply (at_lock_kept q g s s' (existT c r) v d); try done. by right. }
  destruct c; cbn in Hs; try (by apply Kept); try (destruct r; cbn in Hs; [done|by apply Kept]).
  - destruct r as [[v'|]|]; [|by apply Kept..]. destruct (gr_gate g) as [j|] eqn:Hj; [|by apply Kept]. case_decide as Ep; [done|by apply Kept].
  - destruct (gr_seen g) eqn:Hg; [done| |by apply Kept]. destruct r as [|code]; [done|]. case_decide as Ec; [|done].
    injection Hs as ->. subst code. destruct D as [-> Dd]. pose proof (M v Hg) as N. destruct (cl_saw _ _ _ C v Hg) as [Hgate Hat].
    specialize (Dd eq_refl). split; [done|]. split; [by eexists|]. by eapply Hat.
Qed.

Lemma claims_self q g s s' c r :
  apart s -> q ∉ sy_dead s -> may q g c -> does q s c r s' -> claims s q g -> claims s' q (next g (existT c r)).
Proof.
  intros A L M D C. pose proof (does_effect q g s c r s' M D) as Ef. split; cbn [next gr_lock gr_gate gr_seen].
  - intros i. by eapply lock_self.
  - intros j. by eapply gate_self.
  - intros v. by eapply saw_self.
  - intros v. by eapply dead_self.
Qed.

(** ** Steps keep the invariant *)

Lemma verified_asks t :
  verified t ->
  match asks (th_stage t) with
  | Some (existT c k) => may (th_proc t) (th_grip t) c /\ forall r, verified (replied t (existT c r) (k r))
  | None => True
  end.
Proof. unfold verified. destruct (th_stage t) as [[|?|c k]|d [|?|c k]|l|[|?|c k]|]; cbn; try done. Qed.

Lemma verified_follows t g :
  ageless (th_options t) -> verified t -> follows (th_proc t) (th_options t) (th_stage t) = Some g -> verified (continued t g).
Proof.
  intros Ho V. unfold verified in *. cbn [continued th_proc th_options th_grip th_stage].
  assert (Turn : forall d, wp (may (th_proc t)) next (acquire_turn (th_proc t) lock (th_options t) d)
    (fun g r => match r with Ok (Some l) => gr_lock g <> None /\ lk_path l = lock | _ => True end) (th_grip t))
    by (intros d; by apply wp_turn).
  destruct (th_stage t) as [[d|e|c k]|d [[l|]|e|c k]|l|[u|e|c k]|]; cbn [follows]; try done; intros [= <-]; try exact I; try apply Turn; [exact V|].
  destruct V as [Hl Hp]. apply wp_unlock; [|done]. left. by rewrite Hp.
Qed.

(** A lock that is newly held had no file. *)
Lemma new_lock u s s' e o : effect u s s' e -> next_lock o e <> None -> o <> None \/ entry s lock = None.
Proof.
  destruct 1 as [e _ _ _ Ce|p k Hp En _ _ _ _ _|p _ _ _ _|k r _ _ _]; [rewrite kept_lock by done; by left|..]; cbn.
  - case_decide as Ep; [subst p; by right|by left].
  - case_bool_decide; [done|by left].
  - by left.
Qed.
Lemma new_gate u s s' e o : effect u s s' e -> next_gate o e <> None -> o <> None \/ entry s gate = None.
Proof.
  destruct 1 as [e _ _ _ Ce|p k Hp En _ _ _ _ _|p _ _ _ _|k r _ _ _]; [rewrite kept_gate by done; by left|..]; cbn.
  - case_decide as Ep; [subst p; by right|by left].
  - case_bool_decide; [done|by left].
  - by left.
Qed.

Lemma has_entry s q g : claims s q g -> (gr_lock g <> None -> entry s lock <> None) /\ (gr_gate g <> None -> entry s gate <> None).
Proof.
  intros [Cl Cg _ _]. split; [destruct (gr_lock g) as [i|]; [|done]; destruct (Cl i eq_refl); congruence|].
  destruct (gr_gate g) as [j|]; [|done]. rewrite (Cg j eq_refl). done.
Qed.

Lemma calls_ok s l i t c k r s' :
  pool_ok (s, l) -> l !! i = Some t -> live s t -> asks (th_stage t) = Some (existT c k) -> does (th_proc t) s c r s' ->
  pool_ok (s', <[i := replied t (existT c r) (k r)]> l).
Proof.
  intros [A T Xl Xg] Hi Lt Ha D. cbn in *. destruct (T i t Hi) as (Ao & V & C). specialize (C Lt).
  pose proof (verified_asks t V) as M. rewrite Ha in M. destruct M as [M Vk].
  pose proof (does_effect _ _ _ _ _ _ M D) as Ef. pose proof (does_dead _ _ _ _ _ D) as Ed.
  assert (Same : forall u, live s' u -> live s u) by (intros u; unfold live; by rewrite Ed).
  split; cbn.
  - by eapply effect_apart.
  - intros a u Hu. apply list_lookup_insert_Some in Hu as [(<- & <- & _)|[N Hu]].
    + split; [done|]. split; [apply Vk|]. intros _. cbn. by eapply claims_self.
    + destruct (T a u Hu) as (Ao' & Vu & Cu). split; [done|]. split; [done|]. intros Lu%Same.
      apply (claims_other (th_proc u) (th_grip u) (th_proc t) (th_grip t) s s' (existT c r)); try done; [| |by apply Cu].
      * intros Hg. destruct (gr_lock (th_grip t)) eqn:E; [|done]. exfalso. apply N, (Xl i a t u); try done. by rewrite E.
      * intros Hg. destruct (gr_gate (th_grip t)) eqn:E; [|done]. exfalso. apply N, (Xg i a t u); try done. by rewrite E.
  - assert (One : forall b u, l !! b = Some u -> live s u -> i <> b -> next_lock (gr_lock (th_grip t)) (existT c r) <> None -> gr_lock (th_grip u) <> None -> False).
    { intros b u Hu Lu N Hn Hg. destruct (T b u Hu) as (_ & _ & Cu). destruct (new_lock _ _ _ _ _ Ef Hn) as [Ho|En].
      - by apply N, (Xl i b t u).
      - destruct (has_entry s _ _ (Cu Lu)) as [He _]. by apply He. }
    intros a b u w Ha' Hb Lu%Same Lw%Same Hu Hw.
    apply list_lookup_insert_Some in Ha' as [(<- & <- & _)|[N1 Ha']]; apply list_lookup_insert_Some in Hb as [(<- & <- & _)|[N2 Hb]]; try done.
    + exfalso. by apply (One b w).
    + exfalso. by apply (One a u).
    + by apply (Xl a b u w).
  - assert (One : forall b u, l !! b = Some u -> live s u -> i <> b -> next_gate (gr_gate (th_grip t)) (existT c r) <> None -> gr_gate (th_grip u) <> None -> False).
    { intros b u Hu Lu N Hn Hg. destruct (T b u Hu) as (_ & _ & Cu). destruct (new_gate _ _ _ _ _ Ef Hn) as [Ho|En].
      - by apply N, (Xg i b t u).
      - destruct (has_entry s _ _ (Cu Lu)) as [_ He]. by apply He. }
    intros a b u w Ha' Hb Lu%Same Lw%Same Hu Hw.
    apply list_lookup_insert_Some in Ha' as [(<- & <- & _)|[N1 Ha']]; apply list_lookup_insert_Some in Hb as [(<- & <- & _)|[N2 Hb]]; try done.
    + exfalso. by apply (One b w).
    + exfalso. by apply (One a u).
    + by apply (Xg a b u w).
Qed.

Lemma arrives_ok s l q o : pool_ok (s, l) -> ageless o -> pool_ok (s, app l [arrival q o]).
Proof.
  intros [A T Xl Xg] Ho. cbn in *. split; cbn; [done|..].
  - intros a t [[_ Ha]|[_ <-]]%lookup_snoc_Some; [by eapply T|]. split; [done|]. split; [by apply harmless_start|by split].
  - intros a b t u [[_ Ha]|[_ <-]]%lookup_snoc_Some [[_ Hb]|[_ <-]]%lookup_snoc_Some; try done. by apply Xl.
  - intros a b t u [[_ Ha]|[_ <-]]%lookup_snoc_Some [[_ Hb]|[_ <-]]%lookup_snoc_Some; try done. by apply Xg.
Qed.

Lemma goes_on_ok s l i t g :
  pool_ok (s, l) -> l !! i = Some t -> follows (th_proc t) (th_options t) (th_stage t) = Some g -> pool_ok (s, <[i := continued t g]> l).
Proof.
  intros [A T Xl Xg] Hi Hg. cbn in *. destruct (T i t Hi) as (Ao & V & C).
  assert (Old : forall a u, <[i := continued t g]> l !! a = Some u -> exists v, l !! a = Some v /\ th_proc v = th_proc u /\ th_grip v = th_grip u).
  { intros a u [(<- & <- & _)|[_ Hu]]%list_lookup_insert_Some; [by exists t|by exists u]. }
  split; cbn; [done|..].
  - intros a u [(<- & <- & _)|[_ Hu]]%list_lookup_insert_Some; [|by eapply T]. split; [done|]. split; [by apply verified_follows|exact C].
  - intros a b u w (u' & Hu & Pu & Gu)%Old (w' & Hw & Pw & Gw)%Old. unfold live. rewrite <- Pu, <- Pw, <- Gu, <- Gw. by apply Xl.
  - intros a b u w (u' & Hu & Pu & Gu)%Old (w' & Hw & Pw & Gw)%Old. unfold live. rewrite <- Pu, <- Pw, <- Gu, <- Gw. by apply Xg.
Qed.

Lemma ends_ok s l q : pool_ok (s, l) -> ~ examined (s, l) q -> pool_ok (dies q s, l).
Proof.
  intros [A T Xl Xg] Hx. cbn in *.
  assert (Live : forall t, live (dies q s) t -> live s t /\ q <> th_proc t).
  { intros t Ht. unfold live in *. cbn in Ht. apply not_elem_of_cons in Ht as [N Ht]. by split. }
  split; cbn; [done|..].
  - intros a t Ha. destruct (T a t Ha) as (Ao & V & C). split; [done|]. split; [done|]. intros [Lt Nq]%Live.
    destruct (C Lt) as [Cl Cg Cs Cd]. split; [exact Cl|exact Cg| |].
    + intros v Hv. destruct (Cs v Hv) as [Hg Hd]. split; [done|]. intros d N [->|D]%elem_of_cons Eh; [|by apply (Hd d)].
      exfalso. apply Hx. exists t, v. split_and!; try done. by eapply list_elem_of_lookup_2.
    + intros v Hv. destruct (Cd v Hv) as (Hg & (d & N & D) & Hat). split; [done|]. split; [|done]. exists d. split; [done|]. by right.
  - intros a b t u Ha Hb [Lt _]%Live [Lu _]%Live. by apply Xl.
  - intros a b t u Ha Hb [Lt _]%Live [Lu _]%Live. by apply Xg.
Qed.

Section Exclusion.
Variable deaths : Pool -> Proc -> Prop.
Hypothesis prudent : forall P q, deaths P q -> ~ examined P q.

Lemma lock_step_ok P P' : step deaths P P' -> pool_ok P -> pool_ok P'.
Proof.
  destruct 1 as [s l q o Lq Ho|s l i t P Hi Lt Ha|s l i t g Hi Lt Hg|s l q Hq]; intros H.
  - by apply arrives_ok.
  - destruct (asks (th_stage t)) as [[c k]|] eqn:Ea; [|done]. destruct Ha as (r & s' & D & ->). by eapply calls_ok.
  - by eapply goes_on_ok.
  - apply ends_ok; [done|by apply prudent].
Qed.

Lemma lock_reachable_ok P : reachable deaths P -> pool_ok P.
Proof.
  intros (P0 & [E0 [El Eg]] & R). assert (H0 : pool_ok P0).
  { destruct P0 as [s l]. cbn in *. subst l. split; cbn; [|done..]. intros i j Ei. congruence. }
  clear E0 El Eg. induction R as [P|P P1 P2 S _ IH]; [done|]. apply IH. by eapply lock_step_ok.
Qed.

(** Nobody who runs made the lock's file, and it names nobody. *)
Definition orphaned (P : Pool) (i : nat) : Prop :=
  entry (fst P) lock = Some (FileAt i) /\ text (fst P) i = Torn /\
  forall a t, snd P !! a = Some t -> live (fst P) t -> gr_lock (th_grip t) = None.

Lemma orphaned_call s l a t c k r s' i :
  pool_ok (s, l) -> orphaned (s, l) i -> l !! a = Some t -> live s t -> asks (th_stage t) = Some (existT c k) -> does (th_proc t) s c r s' ->
  orphaned (s', <[a := replied t (existT c r) (k r)]> l) i.
Proof.
  intros [A T _ _] (E & Tx & Nl) Ha Lt Hk D. cbn in *. destruct (T a t Ha) as (_ & V & C). specialize (C Lt). pose proof (Nl a t Ha Lt) as Nt.
  pose proof (verified_asks t V) as M. rewrite Hk in M. destruct M as [M _].
  pose proof (does_effect _ _ _ _ _ _ M D) as Ef. pose proof (does_dead _ _ _ _ _ D) as Ed.
  assert (Keep : entry s' lock = Some (FileAt i) /\ text s' i = Torn).
  { change c with (projT1 (existT c r : Ev)) in M.
    destruct Ef as [e El _ Et _|p n Hp En U Ek Eo _ Et|p _ _ Eo Et|n r' Eo _ Et]; cbn in M.
    - by rewrite El, Et.
    - destruct Hp as [-> | ->]; [congruence|]. rewrite Eo by (intros E'; by apply gate_ne). rewrite Et; [done|]. intros ->. by eapply unused_entry.
    - destruct M as [[-> [Hl|(v & Hv)]]|[-> Hl]]; [done| |].
      + destruct (cl_dead _ _ _ C v Hv) as (_ & _ & (n & E' & T')). congruence.
      + rewrite Eo by (intros E'; by apply gate_ne). by rewrite Et.
    - destruct M as (_ & n' & [= <-] & [Hn|Hn]); [congruence|]. rewrite Eo, Et; [done|]. apply (A i n E). by apply (cl_gate _ _ _ C). }
  split; [apply Keep|]. split; [apply Keep|]. cbn. intros b u Hb Lu.
  assert (Lu' : live s u) by (unfold live in *; by rewrite Ed in Lu).
  apply list_lookup_insert_Some in Hb as [(<- & <- & _)|[_ Hb]]; [|by eapply Nl]. cbn.
  destruct (next_lock (gr_lock (th_grip t)) (existT c r)) eqn:En; [|done].
  destruct (new_lock _ _ _ _ (gr_lock (th_grip t)) Ef) as [?|?]; [by rewrite En|by rewrite Nt in *|congruence].
Qed.

Lemma orphaned_step P P' i : step deaths P P' -> pool_ok P -> orphaned P i -> orphaned P' i.
Proof.
  intros S Hok O. pose proof O as (E & Tx & Nl). destruct S as [s l q o Lq Ho|s l a t P Ha Lt Hk|s l a t g Ha Lt Hg|s l q Hq]; cbn in *.
  - split; [done|]. split; [done|]. intros b u [[_ Hb]|[_ <-]]%lookup_snoc_Some; [by eapply Nl|done].
  - destruct (asks (th_stage t)) as [[c k]|] eqn:Ea; [|done]. destruct Hk as (r & s' & D & ->). by eapply orphaned_call.
  - split; [done|]. split; [done|]. intros b u [(<- & <- & _)|[_ Hb]]%list_lookup_insert_Some; [by apply (Nl a t)|by eapply Nl].
  - split; [done|]. split; [done|]. cbn. intros b u Hb Lu. apply (Nl b u Hb). unfold live in *. cbn in Lu. by apply not_elem_of_cons in Lu as [_ Lu].
Qed.

Lemma orphaned_steps P P' i : rtc (step deaths) P P' -> pool_ok P -> orphaned P i -> pool_ok P' /\ orphaned P' i.
Proof.
  induction 1 as [P|P P1 P2 S _ IH]; [done|]. intros Hok O. apply IH; [by eapply lock_step_ok|by eapply orphaned_step].
Qed.
End Exclusion.
End Lock.

(** ** Theorems *)

(** The thread holds the lock: it is at work. *)
Definition holds (t : Thread) : Prop := exists l, th_stage t = Inside l.

(** What the condition on the ends of processes is. *)
Definition prudent (deaths : Pool -> Proc -> Prop) : Prop := forall P q, deaths P q -> ~ examined P q.

(** C7: A lock without a limit of age has at most one holder among the processes that run, whatever
    their calls reply and wherever any of them ends, if no process ends between the reading of its
    name by another and the test whether it has ended; and the holder's file is the lock's. *)
Theorem lock_has_one_holder lock deaths P i j t u :
  lock <> [] -> prudent deaths -> reachable lock deaths P ->
  snd P !! i = Some t -> snd P !! j = Some u -> live (fst P) t -> live (fst P) u -> holds t -> holds u ->
  i = j /\ exists k, entry (fst P) lock = Some (FileAt k).
Proof.
  intros N Hd R Hi Hj Lt Lu [lt Ht] [lu Hu]. pose proof (lock_reachable_ok lock N deaths Hd P R) as [_ T X _].
  destruct (T i t Hi) as (_ & Vt & Ct), (T j u Hj) as (_ & Vu & _). unfold verified in *. rewrite Ht in Vt. rewrite Hu in Vu.
  destruct Vt as [Gt _], Vu as [Gu _]. split; [by apply (X i j t u)|]. destruct (gr_lock (th_grip t)) as [k|] eqn:E; [|done].
  exists k. by apply (cl_lock _ _ _ _ (Ct Lt)).
Qed.

(** A process that ends after it made the lock's file and before its name is in it leaves a file
    that no process removes and a lock that is never held again. *)
Theorem nameless_lock_blocks_forever lock deaths P P' k :
  lock <> [] -> prudent deaths -> reachable lock deaths P -> orphaned lock P k -> rtc (step lock deaths) P P' ->
  entry (fst P') lock = Some (FileAt k) /\ forall i t, snd P' !! i = Some t -> live (fst P') t -> ~ holds t.
Proof.
  intros N Hd R O S. destruct (orphaned_steps lock N deaths Hd P P' k S (lock_reachable_ok lock N deaths Hd P R) O) as [[_ T _ _] (E & _ & Nl)].
  split; [done|]. intros i t Hi Lt [l Ht]. destruct (T i t Hi) as (_ & V & _). unfold verified in V. rewrite Ht in V.
  destruct V as [V _]. by apply V, (Nl i t).
Qed.

(** ** Runs *)

Inductive Command := Go (i n : nat) | Come (q : Proc) (o : ResolvedOptions) | Die (q : Proc).

Section Schedule.
Variable lock : Path.
Variable deaths : Pool -> Proc -> Prop.

(** A thread makes a call, or goes on. *)
Definition advance (i : nat) (x : nat * Pool) : nat * Pool :=
  let '(n, (s, l)) := x in
  match l !! i with
  | Some t =>
      if ended_proc s (th_proc t) then x
      else match asks (th_stage t) with
           | Some (existT c k) => let '(r, s') := perform (th_proc t) 5 n s c in (S n, (s', <[i := replied lock t (existT c r) (k r)]> l))
           | None => match follows lock (th_proc t) (th_options t) (th_stage t) with
                     | Some g => (n, (s, <[i := continued t g]> l))
                     | None => x
                     end
           end
  | None => x
  end.
Definition obey (x : nat * Pool) (c : Command) : nat * Pool :=
  let '(n, (s, l)) := x in
  match c with
  | Go i k => Nat.iter k (advance i) x
  | Come q o => if ended_proc s q then x else (n, (s, app l [arrival lock q o]))
  | Die q => (n, (dies q s, l))
  end.

Lemma not_ended s q : ended_proc s q = false -> q ∉ sy_dead s.
Proof.
  intros H D%list_elem_of_In. assert (ended_proc s q = true); [|congruence]. apply existsb_exists. exists q. split; [done|].
  rewrite String.eqb_refl. by apply FloatAxioms.Leibniz.eqb_spec.
Qed.

Lemma advance_steps i x : below (fst x) (fst (snd x)) -> rtc (step lock deaths) (snd x) (snd (advance i x)) /\ below (fst (advance i x)) (fst (snd (advance i x))).
Proof.
  destruct x as [n [s l]]. cbn. intros Hb. destruct (l !! i) as [t|] eqn:Hi; [|done]. destruct (ended_proc s (th_proc t)) eqn:Hd; [done|].
  apply not_ended in Hd. destruct (asks (th_stage t)) as [[c k]|] eqn:Ha.
  - pose proof (perform_does (th_proc t) 5 n s c Hb) as D. pose proof (perform_below (th_proc t) 5 n s c Hb) as B.
    destruct (perform (th_proc t) 5 n s c) as [r s']. cbn in *. split; [|exact B]. apply rtc_once. apply (calls _ _ _ _ i t); [done|done|].
    rewrite Ha. by exists r, s'.
  - destruct (follows lock _ _ _) as [g|] eqn:Hf; [|done]. cbn. split; [|done]. by apply rtc_once, goes_on.
Qed.

Definition allowed (x : nat * Pool) (c : Command) : Prop :=
  match c with Go _ _ => True | Come _ o => ageless o | Die q => deaths (snd x) q end.
Fixpoint all_allowed (x : nat * Pool) (l : list Command) : Prop :=
  match l with [] => True | c :: l => allowed x c /\ all_allowed (obey x c) l end.

Abbreviation leads x y := (rtc (step lock deaths) (snd x) (snd y) /\ below (fst y) (fst (snd y))).

Lemma obey_steps x c : allowed x c -> below (fst x) (fst (snd x)) -> leads x (obey x c).
Proof.
  destruct x as [n [s l]], c as [i k|q o|q]; cbn; intros Ha Hb.
  - induction k as [|k [IH B]]; [done|]. cbn [Nat.iter]. destruct (advance_steps i _ B) as [S B']. split; [by etrans|done].
  - destruct (ended_proc s q) eqn:E; [done|]. cbn. split; [|done]. apply rtc_once, arrives; [by apply not_ended|done].
  - split; [|done]. by apply rtc_once, ends.
Qed.

Lemma schedule_steps x l : all_allowed x l -> below (fst x) (fst (snd x)) -> leads x (fold_left obey l x).
Proof.
  revert x. induction l as [|c l IH]; intros x; [done|]. cbn. intros [Hc Hl] Hb. destruct (obey_steps x c Hc Hb) as [S B].
  destruct (IH _ Hl B) as [S' B']. split; [by etrans|done].
Qed.
End Schedule.

Definition run_lock : Path := ["run.lock"; "ti"]%string.
Definition empty_system : System :=
  {| sy_entry := fun p => {| latest := if decide (p = ["ti"%string]) then Some DirectoryAt else None; older := [] |};
     sy_text := fun _ => {| latest := Torn; older := [] |}; sy_mtime := fun _ => 0%float; sy_dead := [] |}.
Definition process (pid : number) : Proc := {| pr_host := "here"; pr_pid := pid |}.
Definition recovering : ResolvedOptions :=
  resolvedLockOptions {| fo_reclaimDeadOwner := Some true; fo_timeoutMs := None; fo_staleMs := Some infinity; fo_retryMs := None |}.
Definition at_first : nat * Pool := (0, (empty_system, [])).
Definition scheduled (l : list Command) : nat * Pool := fold_left (obey run_lock) l at_first.


Lemma empty_below : below 0 empty_system.
Proof. intros p i. cbn. intros [E|[]%elem_of_nil]%elem_of_cons. revert E. by case_decide. Qed.
Lemma scheduled_reachable deaths l : all_allowed run_lock deaths at_first l -> reachable run_lock deaths (snd (scheduled l)).
Proof.
  intros H. exists (snd at_first). split; [by split|]. by apply (schedule_steps run_lock deaths at_first l H), empty_below.
Qed.

Definition inside_at (i : nat) (P : Pool) : bool :=
  match snd P !! i with
  | Some t => negb (ended_proc (fst P) (th_proc t)) && match th_stage t with Inside _ => true | _ => false end
  | None => false
  end.
Lemma inside_holds i P : inside_at i P = true -> exists t, snd P !! i = Some t /\ live (fst P) t /\ holds t.
Proof.
  unfold inside_at. destruct (snd P !! i) as [t|]; [|done]. destruct (ended_proc _ _) eqn:E; [done|]. cbn.
  destruct (th_stage t) as [| |l| |] eqn:Es; try done. intros _. exists t. split; [done|]. split; [by apply not_ended|]. by exists l.
Qed.

(** One process reads the name of the holder and waits; the holder releases the lock and ends;
    another acquires it; then the first finds that the one it read has ended. *)
Definition overtaking : list Command :=
  [Come (process 1) recovering; Go 0 9; Come (process 2) recovering; Go 1 11; Go 0 5; Die (process 1); Come (process 3) recovering; Go 2 9; Go 1 17].

(** When a process may end at any time, the recovery of a lock can remove one that is held: there are
    two holders. *)
Theorem recovery_takes_a_held_lock :
  exists P i j t u, reachable run_lock (fun _ _ => True) P /\ i <> j /\ snd P !! i = Some t /\ snd P !! j = Some u /\
    live (fst P) t /\ live (fst P) u /\ holds t /\ holds u.
Proof.
  destruct (inside_holds 1 (snd (scheduled overtaking))) as (t & Ht & Lt & It); [by vm_compute|].
  destruct (inside_holds 2 (snd (scheduled overtaking))) as (u & Hu & Lu & Iu); [by vm_compute|].
  exists (snd (scheduled overtaking)), 1, 2, t, u. split; [apply scheduled_reachable; repeat split|].
  split; [discriminate|]. split; [exact Ht|]. split; [exact Hu|]. exact (conj Lt (conj Lu (conj It Iu))).
Qed.

Definition between (P : Pool) (q : Proc) : Prop := ~ examined P q.
Lemma none_examined P q : forallb (fun t => match gr_seen (th_grip t) with Saw _ => false | _ => true end) (snd P) = true -> between P q.
Proof. intros H (t & v & Ht%list_elem_of_In & _ & Hv & _). rewrite forallb_forall in H. specialize (H t Ht). by rewrite Hv in H. Qed.

(** A holder ends at work, and the next process recovers the lock. *)
Definition recovery : list Command := [Come (process 1) recovering; Go 0 9; Die (process 1); Come (process 2) recovering; Go 1 28].

Lemma lock_has_one_holder_witness :
  inside_at 1 (snd (scheduled recovery)) = true /\ (1 = 1 /\ exists k, entry (fst (snd (scheduled recovery))) run_lock = Some (FileAt k)).
Proof.
  assert (E : inside_at 1 (snd (scheduled recovery)) = true) by (vm_compute; reflexivity). split; [exact E|].
  destruct (inside_holds _ _ E) as (t & Ht & Lt & It).
  refine (lock_has_one_holder run_lock between (snd (scheduled recovery)) 1 1 t t _ _ _ Ht Ht Lt Lt It It); [discriminate|by intros P q|].
  apply scheduled_reachable. repeat split. apply none_examined. vm_compute. reflexivity.
Defined.

(** A process ends when it has made the file and not written to it. *)
Definition nameless : list Command := [Come (process 1) recovering; Go 0 5; Die (process 1)].

Lemma nameless_lock_blocks_forever_witness :
  exists k P', rtc (step run_lock between) (snd (scheduled nameless)) P' /\ length (snd P') = 2 /\ entry (fst P') run_lock = Some (FileAt k).
Proof.
  assert (R : reachable run_lock between (snd (scheduled nameless))).
  { apply scheduled_reachable. repeat split. apply none_examined. vm_compute. reflexivity. }
  assert (B : below (fst (scheduled nameless)) (fst (snd (scheduled nameless)))).
  { apply (schedule_steps run_lock between at_first nameless); [repeat split; apply none_examined; vm_compute; reflexivity|apply empty_below]. }
  destruct (schedule_steps run_lock between (scheduled nameless) [Come (process 2) recovering; Go 1 40]) as [S _]; [by repeat split|exact B|].
  eexists 3, _. split; [exact S|]. split; [vm_compute; reflexivity|].
  eapply (nameless_lock_blocks_forever run_lock between (snd (scheduled nameless))); [discriminate|by intros P q|exact R| |exact S].
  split; [vm_compute; reflexivity|]. split; [vm_compute; reflexivity|]. intros [|[|a]] t; [|done|done]. intros [= <-] L. exfalso. apply L.
  vm_compute. by left.
Defined.
