(* ===== verification/Handlers.v ===== *)
(** * Interfaces of programs

    A program over the operations of an interface is implemented by programs over another's
    calls, one for each operation.  What holds of every path of the program holds of the runs of
    its implementation, whose operations are runs of their handlers. *)

From Stdlib Require Import Lia Bool.
From stdpp Require Import base list option.
From S2P Require Import Prelude Effects.

(** ** Paths *)

Section Paths.
Context {C : Type} {reply : C -> Type} {X : Type}.

(** The calls a program makes when they are answered so, and what it ends with. *)
Inductive path {A} : Prog reply X A -> list (Event reply) -> result X A -> Prop :=
  | path_ret a : path (Ret a) [] (Ok a)
  | path_fail e : path (Fail e) [] (Throw e)
  | path_do c k r h res : path (k r) h res -> path (Do c k) (existT c r :: h) res.

Lemma path_inv {A} (m : Prog reply X A) h res :
  path m h res ->
  match m with
  | Ret a => h = [] /\ res = Ok a
  | Fail e => h = [] /\ res = Throw e
  | Do c k => exists r h', h = existT c r :: h' /\ path (k r) h' res
  end.
Proof. destruct 1; [done|done|eauto]. Qed.

(** A run is a path. *)
Lemma run_path {A} env h (m : Prog reply X A) : exists es, fst (run env h m) = app h es /\ path m es (snd (run env h m)).
Proof.
  revert h. induction m as [a|e|c k IH]; intros h; cbn [run fst snd]; [exists []; rewrite app_nil_r; split; constructor..|].
  destruct (IH (env h c) (app h [existT c (env h c)])) as (es & E & H). exists (existT c (env h c) :: es).
  rewrite E, <- app_assoc. split; [done|by constructor].
Qed.

(** Whatever the replies, a verified program is lawful and ends as it says. *)
Lemma wp_path {S A} (may : S -> C -> Prop) next (m : Prog reply X A) Q s h r :
  wp may next m Q s -> path m h r -> lawful may next s h /\ Q (observed next s h) r.
Proof.
  revert s h. induction m as [a|e|c k IH]; intros s h Hw Hp; apply path_inv in Hp.
  - by destruct Hp as [-> ->].
  - by destruct Hp as [-> ->].
  - destruct Hp as (x & h' & -> & Hp). destruct Hw as [Hm Hk]. destruct (IH x _ _ (Hk x) Hp) as [Hl HQ]. by split.
Qed.

Lemma path_bind {A B} (m : Prog reply X A) (f : A -> Prog reply X B) h res :
  path (m ≫= f) h res ->
  exists h1 r, path m h1 r /\
    match r with Ok a => exists h2, h = app h1 h2 /\ path (f a) h2 res | Throw e => h = h1 /\ res = Throw e end.
Proof.
  revert h. induction m as [a|e|c k IH]; intros h Hp.
  - exists [], (Ok a). split; [constructor|]. by exists h.
  - apply path_inv in Hp as [-> ->]. exists [], (Throw e). split; [constructor|done].
  - rewrite bind_Do in Hp. apply path_inv in Hp as (x & h' & -> & Hp). destruct (IH x _ Hp) as (h1 & r & H1 & Hr).
    exists (existT c x :: h1), r. split; [by constructor|]. destruct r as [a|e]; [|destruct Hr as [-> ->]; done].
    destruct Hr as (h2 & -> & H2). by exists h2.
Qed.

(** What a program returns or throws, in a program that cannot fail. *)
Fixpoint outcome {Y A} (m : Prog reply X A) : Prog reply Y (result X A) :=
  match m with Ret a => Ret (Ok a) | Fail e => Ret (Throw e) | Do c k => Do c (fun r => outcome (k r)) end.

Lemma run_outcome {Y A} env h (m : Prog reply X A) :
  run env h (outcome (Y := Y) m) = (fst (run env h m), Ok (snd (run env h m))).
Proof. revert h. induction m as [a|e|c k IH]; intros h; cbn [run outcome fst snd]; [done|done|apply IH]. Qed.
End Paths.

(** ** Implementations *)

Section Implementation.
Context {C D : Type} {reply : C -> Type} {reply' : D -> Type} {X : Type}.

(** A handler does not fail. *)
Variable handler : forall c : C, Prog reply' X (reply c).
Context (total : forall c env h, isOk (snd (run env h (handler c))) = true).

Fixpoint implement {A} (m : Prog reply X A) : Prog reply' X A :=
  match m with Ret a => Ret a | Fail e => Fail e | Do c k => r ← handler c; implement (k r) end.

(** The operations [es] are performed by their handlers, from [h] to [h']. *)
Inductive performs (env : Environment reply') : list (Event reply') -> list (Event reply) -> list (Event reply') -> Prop :=
  | performs_none h : performs env h [] h
  | performs_one h c r h1 es h2 :
      run env h (handler c) = (h1, Ok r) -> performs env h1 es h2 -> performs env h (existT c r :: es) h2.

(** A run of the implementation is a path of the program whose operations are runs of their handlers. *)
Theorem run_implement {A} env h (m : Prog reply X A) :
  exists es, performs env h es (fst (run env h (implement m))) /\ path m es (snd (run env h (implement m))).
Proof.
  revert h. induction m as [a|e|c k IH]; intros h; [exists []; split; constructor..|]. cbn [implement]. rewrite run_bind.
  pose proof (total c env h) as T. destruct (run env h (handler c)) as [h1 [r|e]] eqn:R; [|done].
  destruct (IH r h1) as (es & H1 & H2). exists (existT c r :: es). split; [by econstructor|by constructor].
Qed.

Lemma performs_extends env h es h' : performs env h es h' -> exists k, h' = app h k.
Proof.
  induction 1 as [h|h c r h1 es h2 R _ [k ->]]; [exists []; by rewrite app_nil_r|].
  destruct (run_extends env h (handler c)) as [j E]. rewrite R in E. cbn in E. subst h1. exists (app j k). by rewrite app_assoc.
Qed.

(** The handlers perform in one way: what is performed after some operations starts where they end. *)
Lemma performs_rest env h es1 c r es2 h3 h4 h' :
  performs env h (app es1 (existT c r :: es2)) h' -> performs env h es1 h3 -> run env h3 (handler c) = (h4, Ok r) ->
  performs env h4 es2 h'.
Proof.
  intros P P1 R. revert P. induction P1 as [h|h c1 r1 h1 es h2 R1 P1 IH]; cbn [app]; intros P; inversion P; subst; [|apply IH; [done|]].
  - simplify_eq. by congruence.
  - simplify_eq. congruence.
Qed.

(** A call is made by the handler of one of the operations. *)
Lemma performed_call env h es h' k1 e k2 :
  performs env h es h' -> h' = app h (app k1 (e :: k2)) ->
  exists es1 c r es2 h3 j1 j2, es = app es1 (existT c r :: es2) /\ performs env h es1 h3 /\
    run env h3 (handler c) = (app h3 (app j1 (e :: j2)), Ok r) /\ app h k1 = app h3 j1.
Proof.
  intros Hp. revert k1. induction Hp as [h|h c r h1 es h2 R Hp IH]; intros k1 Eh.
  - exfalso. apply (f_equal length) in Eh. rewrite !length_app in Eh. cbn in Eh. lia.
  - destruct (run_extends env h (handler c)) as [j Ej]. rewrite R in Ej. cbn [fst] in Ej. subst h1.
    destruct (performs_extends _ _ _ _ Hp) as [k Ek]. subst h2. rewrite <- app_assoc in Ek. apply app_inv_head in Ek.
    apply app_eq_app in Ek as (l & [[-> Ek]|[-> El]]).
    + assert (Eq : app h (app (app j l) (e :: k2)) = app (app h j) (app l (e :: k2))) by (by rewrite <- !app_assoc).
      destruct (IH l Eq) as (es1 & c' & r' & es2 & h3 & j1 & j2 & -> & P & R' & E3).
      exists (existT c r :: es1), c', r', es2, h3, j1, j2. split_and!; [done|by econstructor|done|by rewrite app_assoc].
    + destruct l as [|x l].
      * rewrite app_nil_r in *. cbn in El. subst k. destruct (IH [] ltac:(by rewrite app_nil_l, app_assoc)) as (es1 & c' & r' & es2 & h3 & j1 & j2 & -> & P & R' & E3).
        rewrite app_nil_r in E3. exists (existT c r :: es1), c', r', es2, h3, j1, j2. split_and!; [done|by econstructor|done|done].
      * injection El as <- ->. exists [], c, r, es, h, k1, l. split_and!; [done|constructor|done|done].
Qed.
End Implementation.
