(* ===== verification/Supervisor.v ===== *)
(** * The risk supervisor (packages/trading-engine/src/risk-supervisor.ts)

    One pass over the account: repair the stops of what is held, and on a breach cancel entries
    and close positions.  The pass is a program over the operations of the engine and its guard;
    each operation is implemented by the engine's programs. *)

From Stdlib Require Import ZArith Lia Bool Floats.
From stdpp Require Import base strings option list.
From S2P Require Import Prelude Effects Handlers JsNumber JsObject JsValue JsText AccountRisk RiskState RiskLedger Execution ExecutionJournal.
From S2P Require Import ExecutionRecovery Positions PaperFutures OrderPlan AccountFacts AccountGuard Engine.
Import AccountRisk.

#[local] Set Warnings "-inexact-float".

Local Open Scope float_scope.

(** ** Operations *)

Inductive Operation :=
  (* the guard: [state], [reconcileMutation], [inspect], [snapshot], [block] *)
  | GetState
  | ReconcileMutation (timeoutMs : number)
  | InspectAccount
  | TakeSnapshot
  | BlockEntries (reason : string)
  (* the engine *)
  | GetUnresolved
  | RecoverExecutions (options : RecoveryOptions)
  | ListExecutions
  | FindIntent (intentId : string)
  | ListTargets
  | ClaimRepair (id : string)
  | FinishRepair (id : string) (succeeded : bool)
  | RetireTarget (id : string)
  | Prepare (side : OrderSide) (intent : OrderIntent)
  | Place (plan : Plan) (policy : TradingEngineSubmissionPolicy)
  | Cancel (id symbol : string)
  (* [options.now] *)
  | ReadClock.

Definition answer (o : Operation) : Type :=
  match o with
  | GetState => option AccountRiskState
  | InspectAccount => Inspection
  | TakeSnapshot => AccountSnapshot
  | GetUnresolved | ListExecutions => list ExecutionRecord
  | RecoverExecutions _ => RecoveryReport
  | FindIntent _ => option string
  | ListTargets => list ProtectionTarget
  | ClaimRepair _ => string
  | Prepare _ _ => Plan
  | Place _ _ => PlaceResult * string
  | ReadClock => number
  | ReconcileMutation _ | BlockEntries _ | FinishRepair _ _ | RetireTarget _ | Cancel _ _ => unit
  end.

(** An operation returns or throws. *)
Definition o_reply (o : Operation) : Type := result EngineError (answer o).

Inductive SupervisionError := LimitsRequired | EngineFailed (e : EngineError).

Abbreviation Pass := (Prog o_reply SupervisionError).

Definition perform (o : Operation) : Pass (o_reply o) := call o.
Definition must (o : Operation) : Pass (answer o) := r ← perform o; of_result EngineFailed r.

(** ** Reports *)

Inductive ActionStatus := ActionCompleted | ActionUnknown | ActionFailed.

(** A reason is a text of its own, the message of an [AccountRiskError], or an issue of recovery. *)
Inductive ActionReason := Because (text : string) | RiskMessage (e : GuardError) | RecoveryIssue (issue : ExecutionIssue).

Record Action := { ac_action : string; ac_reference : string; ac_status : ActionStatus; ac_reason : option ActionReason }.

Record RiskSupervisionReport := {
  rs_at : number;
  rs_reasons : list string;
  rs_actions : list Action;
  rs_snapshot : option AccountSnapshot
}.

Record SupervisionOptions := { so_timeoutMs : number; so_protectionAttempts : number }.

Definition completed (action reference : string) : Action :=
  {| ac_action := action; ac_reference := reference; ac_status := ActionCompleted; ac_reason := None |}.

(** [error instanceof AccountRiskError ? error.message : text] *)
Definition reason_of (e : EngineError) (text : string) : ActionReason :=
  match e with
  | GuardRefused g | StoreFailed (GuardFailure g) => if is_account_risk g then RiskMessage g else Because text
  | _ => Because text
  end.
Definition not_completed (action reference : string) (status : ActionStatus) (e : EngineError) (text : string) : Action :=
  {| ac_action := action; ac_reference := reference; ac_status := status; ac_reason := Some (reason_of e text) |}.

(** A string that is given and not empty. *)
Definition truthy_text (s : option string) : option string := match s with Some t => if String.eqb t "" then None else Some t | None => None end.

Section Supervision.
Variable sha256 : string -> string.
(** [engine.getExecutionScope()] *)
Variable scope : ExecutionScope.
Definition position_mode : PositionMode := sc_positionMode scope.
Definition hedged : bool := bool_decide (position_mode = Hedge).

(** ** A controlled close *)

Definition no_intent (symbol : string) (type : OrderType) (amount : number) : OrderIntent :=
  {| it_symbol := symbol; it_type := type; it_amount := Some amount; it_quoteAmount := None; it_price := None; it_reduceOnly := None;
     it_positionSide := None; it_stopPrice := None; it_trailingPercent := None; it_closePosition := None |}.

(** Of a futures symbol the order only reduces. *)
Definition reducing (positionSide : option PositionSide) (i : OrderIntent) : OrderIntent :=
  if is_futures (it_symbol i) then
    {| it_symbol := it_symbol i; it_type := it_type i; it_amount := it_amount i; it_quoteAmount := it_quoteAmount i; it_price := it_price i;
       it_reduceOnly := Some true; it_positionSide := if hedged then positionSide else None; it_stopPrice := it_stopPrice i;
       it_trailingPercent := it_trailingPercent i; it_closePosition := it_closePosition i |}
  else i.
Definition with_stop (stopPrice : option number) (i : OrderIntent) : OrderIntent :=
  {| it_symbol := it_symbol i; it_type := it_type i; it_amount := it_amount i; it_quoteAmount := it_quoteAmount i; it_price := it_price i;
     it_reduceOnly := it_reduceOnly i; it_positionSide := it_positionSide i; it_stopPrice := stopPrice;
     it_trailingPercent := it_trailingPercent i; it_closePosition := it_closePosition i |}.

Definition same_position (p candidate : Position) : bool :=
  String.eqb (po_symbol candidate) (po_symbol p) && bool_decide (reduceSide candidate = reduceSide p)
  && bool_decide (po_positionSide candidate = po_positionSide p).

Definition close_intent (current : Position) : OrderIntent :=
  reducing (po_positionSide current) (no_intent (po_symbol current) Market (Math_abs (po_amount current))).

Definition optional_value {A} (f : A -> value) (o : option A) : value := match o with Some a => f a | None => VUndefined end.

(** The identity of a close: the same account, position and revision give the same. *)
Definition close_identity (snapshot : AccountSnapshot) (p current : Position) (revision : option Z) : string :=
  sha256 (stringify (VArr [VStr "risk-close"; scope_value scope; VStr (sn_epoch snapshot); VStr (po_symbol p);
    optional_value (fun s => VStr (position_side_name s)) (po_positionSide p); VNum (po_amount current); optional_value num_Z revision]%string)).

Definition protectedOrders (snapshot : AccountSnapshot) (current : Position) : list Order :=
  List.filter (fun o => verifiedReducingOrder (order_reduction o) current position_mode) (sn_orders snapshot).

Definition unconfirmed (intentId : string) (timeoutMs : number) (replacementIds : option (list string)) : TradingEngineSubmissionPolicy :=
  {| pl_intentId := Some intentId; pl_reference := None; pl_validates := false; pl_timeoutMs := Some timeoutMs;
     pl_protectionStopPrice := None; pl_replacementIds := replacementIds; pl_confirms := false; pl_allowUnconfirmedLive := Some true;
     pl_classifies := false |}.

Definition close_policy (snapshot : AccountSnapshot) (current : Position) (intentId : string) (timeoutMs : number) :
    TradingEngineSubmissionPolicy :=
  unconfirmed intentId timeoutMs
    (match protectedOrders snapshot current with [] => None | l => Some (map o_id l) end).

Definition controlledRiskClose (position : Position) (timeoutMs : number) (intentId : option string) : Pass unit :=
  snapshot ← must TakeSnapshot;
  match find (same_position position) (sn_positions snapshot) with
  | None => Ret tt
  | Some current =>
      s ← must GetState;
      let identity := close_identity snapshot position current (option_map ar_revision s) in
      plan ← must (Prepare (reduceSide current) (close_intent current));
      _ ← must (Place plan (close_policy snapshot current (default identity intentId) timeoutMs));
      Ret tt
  end.

(** ** Repairs *)

(** The actions taken and the last snapshot. *)
Record Progress := { pg_actions : list Action; pg_snapshot : AccountSnapshot }.
Definition report_action (a : Action) (p : Progress) : Progress :=
  {| pg_actions := app (pg_actions p) [a]; pg_snapshot := pg_snapshot p |}.

(** The position a target protects. *)
Definition protects (t : ProtectionTarget) (p : Position) : bool :=
  String.eqb (po_symbol p) (pt_symbol t) && bool_decide (reduceSide p = pt_side t)
  && (negb hedged || bool_decide (pt_positionSide t = po_positionSide p)).

(** Nothing that may still open the position: the entry is settled and no order of the other side is open. *)
Definition target_obsolete (t : ProtectionTarget) (entry : option ExecutionRecord) (s : AccountSnapshot) : bool :=
  match entry with Some e => negb (isUnresolvedExecution e) | None => true end
  && negb (existsb (fun o => String.eqb (o_symbol o) (pt_symbol t) && negb (bool_decide (o_side o = pt_side t))) (sn_orders s)).

Definition held_exposure (t : ProtectionTarget) (p : Position) (ex : RiskExposure) : bool :=
  negb (ex_pending ex) && String.eqb (ex_symbol ex) (po_symbol p)
  && (Math_sign (ex_notional ex) =? match pt_side t with Sell => 1 | Buy => -1 end).

Definition covered (limits : AccountRiskLimits) (exposure : option RiskExposure) : bool :=
  match exposure with Some ex => minProtectionCoveragePct limits <=? ex_protectionCoveragePct ex | None => false end.

Definition uncovered (p : Position) (exposure : option RiskExposure) : number :=
  Math_abs (po_amount p) * (1 - default 0 (option_map ex_protectionCoveragePct exposure) / 100).

Definition repair_intent (t : ProtectionTarget) (amount : number) : OrderIntent :=
  reducing (pt_positionSide t) (with_stop (pt_stopPrice t) (no_intent (pt_symbol t) StopMarket amount)).

Definition find_execution (id : string) (l : list ExecutionRecord) : option ExecutionRecord := find (fun r => String.eqb (ex_id r) id) l.
Definition settled_as (o : SettlementOutcome) (r : ExecutionRecord) : bool :=
  match ex_settlement r with Some st => bool_decide (set_outcome st = o) | None => false end.

(** Which repair is to be made: its claim and the failures before it, or the execution of an earlier one that is not resolved. *)
Definition claim_repair (t : ProtectionTarget) : Pass (string + string * number) :=
  repairId ← must (ClaimRepair (pt_id t));
  let failures := of_Z (default 0%Z (pt_failures t)) in
  previousId ← must (FindIntent repairId);
  match truthy_text previousId with
  | None => Ret (inr (repairId, failures))
  | Some previousId =>
      records ← must ListExecutions;
      match find_execution previousId records with
      | None => Ret (inl previousId)
      | Some previous =>
          if isUnresolvedExecution previous then Ret (inl previousId)
          else
            let committed := settled_as Commit previous in
            _ ← must (FinishRepair (pt_id t) committed);
            repairId ← must (ClaimRepair (pt_id t));
            Ret (inr (repairId, if committed then 0 else failures + 1))
      end
  end.

Definition place_repair (options : SupervisionOptions) (t : ProtectionTarget) (repairId : string) (amount : number) : Pass string :=
  plan ← must (Prepare (pt_side t) (repair_intent t amount));
  result ← must (Place plan (unconfirmed repairId (so_timeoutMs options) None));
  _ ← must (FinishRepair (pt_id t) true);
  Ret (snd result).

(** The [catch] of a repair. *)
Definition repair_failed (t : ProtectionTarget) (repairId : string) (e : EngineError) (p : Progress) : Pass Progress :=
  found ← must (FindIntent repairId);
  let status := match truthy_text found with Some _ => ActionUnknown | None => ActionFailed end in
  let p := report_action (not_completed "protect" repairId status e "protection-submission-failed") p in
  found ← must (FindIntent repairId);
  _ ← (match truthy_text found with None => must (FinishRepair (pt_id t) false) | Some _ => Ret tt end);
  _ ← must (BlockEntries "protection-repair-failed");
  Ret p.

(** [try { } catch (error) { }] around operations, whose errors are the engine's. *)
Definition caught {A} (m : Pass A) (h : EngineError -> Pass A) : Pass A :=
  tryCatch m (fun e => match e with EngineFailed e => h e | LimitsRequired => Fail LimitsRequired end).

Definition attempt_repair (options : SupervisionOptions) (t : ProtectionTarget) (repairId : string) (amount : number) (p : Progress) :
    Pass Progress :=
  r ← attempt (place_repair options t repairId amount);
  match r with
  | Throw (EngineFailed e) => repair_failed t repairId e p
  | Throw e => Fail e
  | Ok executionId =>
      let p := report_action (completed "protect" executionId) p in
      caught (snapshot ← must TakeSnapshot; Ret {| pg_actions := pg_actions p; pg_snapshot := snapshot |})
        (fun e => repair_failed t repairId e p)
  end.

(** One target of the loop. *)
Definition repair_target (options : SupervisionOptions) (limits : AccountRiskLimits) (executions : list ExecutionRecord)
    (t : ProtectionTarget) (p : Progress) : Pass Progress :=
  let entry := find_execution (pt_executionId t) executions in
  if match entry with Some e => settled_as Release e | None => false end then _ ← must (RetireTarget (pt_id t)); Ret p
  else
    let snapshot := pg_snapshot p in
    match find (protects t) (sn_positions snapshot) with
    | None => if target_obsolete t entry snapshot then _ ← must (RetireTarget (pt_id t)); Ret p else Ret p
    | Some position =>
        facts ← of_result (fun e => EngineFailed (GuardRefused e)) (accountRiskFacts snapshot position_mode);
        let exposure := find (held_exposure t position) (f_exposures facts) in
        if covered limits exposure then
          if given (pt_lastRepairIntentId t) then _ ← must (FinishRepair (pt_id t) true); Ret p else Ret p
        else
          c ← claim_repair t;
          match (c : string + string * number) with
          | inl previousId =>
              Ret (report_action {| ac_action := "protect"; ac_reference := previousId; ac_status := ActionUnknown; ac_reason := None |} p)
          | inr (repairId, failures) =>
              if so_protectionAttempts options <=? failures then
                Ret (report_action {| ac_action := "protect"; ac_reference := pt_id t; ac_status := ActionFailed;
                                      ac_reason := Some (Because "protection-attempts-exhausted") |} p)
              else attempt_repair options t repairId (uncovered position exposure) p
          end
    end.

Fixpoint repair_targets (options : SupervisionOptions) (limits : AccountRiskLimits) (executions : list ExecutionRecord)
    (targets : list ProtectionTarget) (p : Progress) : Pass Progress :=
  match targets with
  | [] => Ret p
  | t :: rest => p ← repair_target options limits executions t p; repair_targets options limits executions rest p
  end.

(** ** Breaches *)

(** Orders that reduce what is held, and spot sells, stay. *)
Definition an_exit (s : AccountSnapshot) (o : Order) : bool :=
  existsb (fun p => verifiedReducingOrder (order_reduction o) p position_mode) (sn_positions s)
  || (negb (is_futures (o_symbol o)) && bool_decide (o_side o = Sell)).

Fixpoint cancel_entries (s : AccountSnapshot) (orders : list Order) (actions : list Action) : Pass (list Action) :=
  match orders with
  | [] => Ret actions
  | o :: rest =>
      if an_exit s o then cancel_entries s rest actions
      else
        r ← perform (Cancel (o_id o) (o_symbol o));
        cancel_entries s rest
          (app actions [match r with
                        | Ok _ => completed "cancel-entry" (o_id o)
                        | Throw e => not_completed "cancel-entry" (o_id o) ActionUnknown e "cancellation-outcome-unknown"
                        end])
  end.

Definition may_fill (position : Position) (unresolved : list ExecutionRecord) : bool :=
  existsb (fun r => String.eqb (intent_symbol (ex_intent r)) (po_symbol position)) unresolved.

Fixpoint reduce_positions (options : SupervisionOptions) (positions : list Position) (actions : list Action) : Pass (list Action) :=
  match positions with
  | [] => Ret actions
  | position :: rest =>
      unresolved ← must GetUnresolved;
      if may_fill position unresolved then reduce_positions options rest actions
      else
        a ← caught (_ ← controlledRiskClose position (so_timeoutMs options) None; Ret (completed "reduce" (po_symbol position)))
              (fun e => Ret (not_completed "reduce" (po_symbol position) ActionFailed e "controlled-reduction-failed"));
        reduce_positions options rest (app actions [a])
  end.

(** ** A pass *)

Definition only_pending (reasons : list string) : bool := forallb (String.eqb "account-mutation-pending") reasons.

Definition one_recovery (options : SupervisionOptions) : RecoveryOptions :=
  {| rp_unknownOnly := true; rp_maxRecords := 1; rp_attemptsPerRecord := 1;
     rp_lookupTimeoutMs := Math_min (so_timeoutMs options) 10000; rp_backoffMs := 1000 |}.

Definition reconcile_mutation (options : SupervisionOptions) : Pass (list Action) :=
  r ← perform (ReconcileMutation (so_timeoutMs options));
  match r with
  | Ok _ => Ret []
  | Throw _ =>
      s ← must GetState;
      Ret [{| ac_action := "reconcile-mutation";
              ac_reference := match s with Some a => match ar_mutation a with Some m => mut_id m | None => "account" end | None => "account" end;
              ac_status := ActionUnknown; ac_reason := Some (Because "mutation-reconciliation-unavailable") |}%string]
  end.

Definition reconcile_unknown (options : SupervisionOptions) (actions : list Action) : Pass (list Action) :=
  unresolved ← must GetUnresolved;
  if existsb (fun r => bool_decide (ex_status r = UnknownOutcome)) unresolved then
    recovery ← must (RecoverExecutions (one_recovery options));
    Ret (app actions (map (fun i => {| ac_action := "reconcile"; ac_reference := fst i; ac_status := ActionUnknown;
                                       ac_reason := Some (RecoveryIssue (snd i)) |}) (rr_issues recovery)))
  else Ret actions.

(** [guard.state()!] *)
Definition must_state : Pass AccountRiskState :=
  s ← must GetState; match s with Some a => Ret a | None => Fail (EngineFailed (GuardRefused TypeErrorThrown)) end.

Definition on_breach (options : SupervisionOptions) (limits : AccountRiskLimits) (i : Inspection) (actions : list Action) : Pass (list Action) :=
  let snapshot := is_snapshot i in
  let reasons := a_reasons (is_assessment i) in
  if only_pending reasons then Ret actions
  else
    actions ← (if cancelEntriesOnBreach limits then cancel_entries snapshot (sn_orders snapshot) actions else Ret actions);
    if reduceOnBreach limits && negb (any_reason "stale:" reasons) then reduce_positions options (sn_positions snapshot) actions
    else Ret actions.

Definition superviseAccountRisk (options : SupervisionOptions) : Pass RiskSupervisionReport :=
  s ← must GetState;
  match s with
  | None => Fail LimitsRequired
  | Some _ =>
      at_ ← must ReadClock;
      actions ← reconcile_mutation options;
      actions ← reconcile_unknown options actions;
      observed ← must InspectAccount;
      state ← must_state;
      let limits := ar_limits state in
      executions ← must ListExecutions;
      targets ← must ListTargets;
      p ← repair_targets options limits executions targets {| pg_actions := actions; pg_snapshot := is_snapshot observed |};
      afterRepair ← must InspectAccount;
      actions ← on_breach options limits afterRepair (pg_actions p);
      Ret {| rs_at := at_; rs_reasons := a_reasons (is_assessment afterRepair); rs_actions := actions;
             rs_snapshot := Some (is_snapshot afterRepair) |}
  end.
End Supervision.

(** ** The operations of the engine *)

(** The journal's calls about intents and protection targets. *)
Inductive ProtectionCall :=
  | FindsIntent (intentId : string)
  | ListsTargets
  | ClaimsRepair (id : string)
  | FinishesRepair (id : string) (succeeded : bool)
  | RetiresTarget (id : string).

Definition protection_reply (c : ProtectionCall) : Type :=
  match c with
  | FindsIntent _ => option string
  | ListsTargets => list ProtectionTarget
  | ClaimsRepair _ => string
  | FinishesRepair _ _ | RetiresTarget _ => unit
  end.

Section Store.
Variable sha256 : string -> string.
Context {W : Type} `{ExecutionStore W}.

Definition protection_transaction (J : Journal) (c : ProtectionCall) : ST W JournalError (protection_reply c) :=
  match c with
  | FindsIntent intentId => findIntent sha256 J intentId
  | ListsTargets => protectionTargets sha256 J
  | ClaimsRepair id => claimProtectionRepair sha256 J id
  | FinishesRepair id succeeded => finishProtectionRepair J id succeeded
  | RetiresTarget id => retireProtectionTarget sha256 J id
  end.
End Store.

(** What a pass awaits besides the engine's calls: a reconciliation of the account mutation, which
    callers share and which outlives the wait for it, and a recovery of the journal. *)
Inductive SystemCall :=
  | EngineCall (c : Call)
  | OnProtection (c : ProtectionCall)
  | AwaitReconciliation (timeoutMs : number)
  | AwaitRecovery (options : RecoveryOptions).

Definition system_reply (c : SystemCall) : Type :=
  match c with
  | EngineCall c => reply c
  | OnProtection c => result JournalError (protection_reply c)
  | AwaitReconciliation _ => bool
  | AwaitRecovery _ => option RecoveryReport
  end.

Definition system_event (e : Event reply) : Event system_reply := match e with existT c r => existT (EngineCall c) r end.

(** A program of the engine as a program of the system. *)
Fixpoint in_system {X Y A} (m : Prog reply X A) : Prog system_reply Y (result X A) :=
  match m with Ret a => Ret (Ok a) | Fail e => Ret (Throw e) | Do c k => Do (EngineCall c) (fun r => in_system (k r)) end.

Definition on_protection {Y} (c : ProtectionCall) : Prog system_reply Y (result EngineError (protection_reply c)) :=
  r ← call (OnProtection c); Ret (mapError StoreFailed r).

Section Facade.
Variable sha256 : string -> string.
Variables toUpperCase toLowerCase : string -> string.
Variable pow : number -> number -> number.
Variable E : Engine.

Definition list_executions : P (list ExecutionRecord) := _ ← reject (negb (configured E)) NotConfigured; store ListRecords.

Definition implementation (o : Operation) : Prog system_reply Empty_set (o_reply o) :=
  match o with
  | GetState => in_system (guard_state E)
  | ReconcileMutation timeoutMs =>
      ok ← call (AwaitReconciliation timeoutMs); Ret (if (ok : bool) then Ok tt else Throw ClientThrew)
  | InspectAccount => in_system (with_guard E inspect)
  | TakeSnapshot => in_system ask_snapshot
  | BlockEntries reason => in_system (store (BlockAccount reason))
  | GetUnresolved => in_system unresolved_executions
  | RecoverExecutions options =>
      r ← call (AwaitRecovery options); Ret (match (r : option RecoveryReport) with Some r => Ok r | None => Throw ClientThrew end)
  | ListExecutions => in_system list_executions
  | FindIntent intentId => on_protection (FindsIntent intentId)
  | ListTargets => on_protection ListsTargets
  | ClaimRepair id => on_protection (ClaimsRepair id)
  | FinishRepair id succeeded => on_protection (FinishesRepair id succeeded)
  | RetireTarget id => on_protection (RetiresTarget id)
  | Prepare side intent => in_system (prepareOrder toUpperCase toLowerCase pow E side intent)
  | Place plan policy => in_system (placeOrder sha256 toUpperCase toLowerCase pow E plan policy)
  | Cancel id symbol => in_system (cancelOrder E id symbol None)
  | ReadClock => in_system (ask Now : P number)
  end.

(** The same, whose error is of any kind: it has none. *)
Fixpoint infallible {X A} (m : Prog system_reply Empty_set A) : Prog system_reply X A :=
  match m with Ret a => Ret a | Fail e => match e with end | Do c k => Do c (fun r => infallible (k r)) end.

(** A pass of an engine with this scope. *)
Definition supervision (scope : ExecutionScope) (options : SupervisionOptions) :
    Prog system_reply SupervisionError RiskSupervisionReport :=
  implement (fun o => infallible (implementation o)) (superviseAccountRisk sha256 scope options).
End Facade.
