(* ===== verification/SupervisionSafety.v ===== *)
(** * Safety of a supervision

    What a pass of the supervisor does, and when, whatever the operations of the engine return:
    the history of its operations decides which it may perform next. *)

From Stdlib Require Import ZArith Lia Bool Floats.
From stdpp Require Import base strings option list.
From S2P Require Import Prelude Effects Handlers JsNumber JsObject JsValue JsText AccountRisk RiskState RiskLedger Execution ExecutionJournal.
From S2P Require Import ExecutionRecovery Positions OrderPlan AccountFacts AccountGuard Engine EngineSafety EngineRuns Supervisor.
Import AccountRisk.

Local Open Scope nat_scope.

(** ** Histories *)

Abbreviation OEvent := (Event o_reply).

(** The most recent operation comes first. *)
Abbreviation History := (list (Event o_reply)).
Definition and_then (h : History) (e : OEvent) : History := e :: h.
Definition returned (o : Operation) (a : answer o) : OEvent := existT o (Ok a).
Definition threw (o : Operation) (e : EngineError) : OEvent := existT o (Throw e).

Definition inspection_of (e : OEvent) : option Inspection :=
  match e with existT o r =>
    match o return o_reply o -> option Inspection with InspectAccount => fun r => match r with Ok i => Some i | Throw _ => None end | _ => fun _ => None end r
  end.
Definition snapshot_of (e : OEvent) : option AccountSnapshot :=
  match e with existT o r =>
    match o return o_reply o -> option AccountSnapshot with
    | InspectAccount => fun r => match r with Ok i => Some (is_snapshot i) | Throw _ => None end
    | TakeSnapshot => fun r => match r with Ok s => Some s | Throw _ => None end
    | _ => fun _ => None
    end r
  end.
Definition targets_of (e : OEvent) : option (list ProtectionTarget) :=
  match e with existT o r =>
    match o return o_reply o -> option (list ProtectionTarget) with ListTargets => fun r => match r with Ok l => Some l | Throw _ => None end | _ => fun _ => None end r
  end.

(** The most recent answer of a kind. *)
Fixpoint latest_of {A} (f : OEvent -> option A) (h : History) : option A :=
  match h with [] => None | e :: rest => match f e with Some a => Some a | None => latest_of f rest end end.
Definition last_inspection : History -> option Inspection := latest_of inspection_of.
Definition last_snapshot : History -> option AccountSnapshot := latest_of snapshot_of.
Definition last_targets : History -> option (list ProtectionTarget) := latest_of targets_of.

Definition known_limits (limits : AccountRiskLimits) (h : History) : Prop :=
  exists st, In (returned GetState (Some st)) h /\ ar_limits st = limits.

Definition is_cancel (o : Operation) : bool := match o with Cancel _ _ => true | _ => false end.
Definition is_place (o : Operation) : bool := match o with Place _ _ => true | _ => false end.

(** The operations that may fail without ending the pass. *)
Definition tolerated (o : Operation) : bool :=
  match o with ReconcileMutation _ | Prepare _ _ | Place _ _ | Cancel _ _ | TakeSnapshot => true | _ => false end.

(** How an attempted cancellation is reported. *)
Definition cancel_action (e : OEvent) : option Action :=
  match e with existT o r =>
    match o return o_reply o -> option Action with
    | Cancel id _ => fun r => Some (match r with
                                    | Ok _ => completed "cancel-entry" id
                                    | Throw e => not_completed "cancel-entry" id ActionUnknown e "cancellation-outcome-unknown"
                                    end)
    | _ => fun _ => None
    end r
  end%string.
Definition is_cancel_action (a : Action) : bool := String.eqb (ac_action a) "cancel-entry".

Section Safety.
Variable sha256 : string -> string.
Variable scope : ExecutionScope.
Variable options : SupervisionOptions.

(** ** When operations are performed *)

(** The account was inspected after the repairs, and the limits are breached. *)
Definition breached (h : History) (i : Inspection) (limits : AccountRiskLimits) : Prop :=
  last_inspection h = Some i /\ only_pending (a_reasons (is_assessment i)) = false /\ known_limits limits h.

(** Only cancellations since the inspection. *)
Definition only_cancels (h : History) (i : Inspection) : Prop :=
  exists cs h0, h = app cs (returned InspectAccount i :: h0) /\ Forall (fun e : OEvent => is_cancel (projT1 e) = true) cs.

(** What the target protects has too little protection, by this amount. *)
Definition underprotected (limits : AccountRiskLimits) (s : AccountSnapshot) (t : ProtectionTarget) (amount : number) : Prop :=
  exists position facts, find (protects scope t) (sn_positions s) = Some position /\
    accountRiskFacts s (position_mode scope) = Ok facts /\
    covered limits (find (held_exposure t position) (f_exposures facts)) = false /\
    amount = uncovered position (find (held_exposure t position) (f_exposures facts)).

(** The claim of a repair: it is new, or that of an earlier one whose execution is settled, and attempts are left. *)
Inductive claimed (t : ProtectionTarget) : History -> string -> number -> History -> Prop :=
  | claimed_first repairId found h :
      truthy_text found = None ->
      claimed t (returned (FindIntent repairId) found :: returned (ClaimRepair (pt_id t)) repairId :: h) repairId
        (of_Z (default 0%Z (pt_failures t))) h
  | claimed_again repairId old found previousId records previous h :
      truthy_text found = Some previousId -> find_execution previousId records = Some previous -> isUnresolvedExecution previous = false ->
      claimed t (returned (ClaimRepair (pt_id t)) repairId
                 :: returned (FinishRepair (pt_id t) (settled_as Commit previous)) tt
                 :: returned ListExecutions records :: returned (FindIntent old) found :: returned (ClaimRepair (pt_id t)) old :: h) repairId
        (if settled_as Commit previous then 0 else of_Z (default 0%Z (pt_failures t)) + 1)%float h.

Inductive placement : History -> Plan -> TradingEngineSubmissionPolicy -> Prop :=
  | repairs t targets limits s amount repairId failures h' h plan :
      claimed t h' repairId failures h ->
      (so_protectionAttempts options <=? failures)%float = false ->
      last_targets h = Some targets -> In t targets -> known_limits limits h -> last_snapshot h = Some s ->
      underprotected limits s t amount ->
      placement (returned (Prepare (pt_side t) (repair_intent scope t amount)) plan :: h') plan (unconfirmed repairId (so_timeoutMs options) None)
  | closes position current limits i s st unresolved h plan :
      breached h i limits -> reduceOnBreach limits = true -> any_reason "stale:" (a_reasons (is_assessment i)) = false ->
      In position (sn_positions (is_snapshot i)) -> may_fill position unresolved = false ->
      find (same_position position) (sn_positions s) = Some current ->
      placement (returned (Prepare (reduceSide current) (close_intent scope current)) plan :: returned GetState st
                 :: returned TakeSnapshot s :: returned GetUnresolved unresolved :: h) plan
        (close_policy scope s current (close_identity sha256 scope s position current (option_map ar_revision st)) (so_timeoutMs options)).

(** A cancellation is of an entry. *)
Definition cancels_entry (h : History) (id symbol : string) : Prop :=
  exists i limits o, breached h i limits /\ only_cancels h i /\ cancelEntriesOnBreach limits = true /\
    In o (sn_orders (is_snapshot i)) /\ an_exit scope (is_snapshot i) o = false /\ id = o_id o /\ symbol = o_symbol o.

(** A target is retired when its opening was released, or when nothing is held and nothing may open it. *)
Definition retires (h : History) (id : string) : Prop :=
  exists t targets executions s, last_targets h = Some targets /\ In t targets /\ id = pt_id t /\
    In (returned ListExecutions executions) h /\ last_snapshot h = Some s /\
    let entry := find_execution (pt_executionId t) executions in
    (exists e, entry = Some e /\ settled_as Release e = true) \/
    (find (protects scope t) (sn_positions s) = None /\ target_obsolete t entry s = true).

Definition may_perform (h : History) (o : Operation) : Prop :=
  match o with
  | Place plan policy => placement h plan policy
  | Cancel id symbol => cancels_entry h id symbol
  | RetireTarget id => retires h id
  | _ => True
  end.

(** ** How a pass ends *)

(** What ends a pass with an error. *)
Definition ends_with (h : History) (e : SupervisionError) : Prop :=
  match e with
  | LimitsRequired => h = [returned GetState None]
  | EngineFailed e =>
      (exists o h', h = threw o e :: h' /\ tolerated o = false) \/
      (exists s g, last_snapshot h = Some s /\ accountRiskFacts s (position_mode scope) = Throw g /\ e = GuardRefused g) \/
      (exists h', h = returned GetState None :: h' /\ e = GuardRefused TypeErrorThrown)
  end.

(** Each attempted cancellation is reported, in order. *)
Definition reports_cancels (h : History) (actions : list Action) : Prop :=
  List.filter is_cancel_action actions = rev (omap cancel_action h).

Abbreviation legal := (wp may_perform and_then).

Lemma wp_must {A} o (f : answer o -> Pass A) Q h :
  may_perform h o -> (forall a, legal (f a) Q (returned o a :: h)) ->
  (forall e, Q (threw o e :: h) (Throw (EngineFailed e))) -> legal (must o ≫= f) Q h.
Proof. intros Hm H1 H2. split; [done|]. intros [a|e]; [apply H1|apply H2]. Qed.

Lemma wp_must_only o (Q : History -> result SupervisionError (answer o) -> Prop) h :
  may_perform h o -> (forall a, Q (returned o a :: h) (Ok a)) -> (forall e, Q (threw o e :: h) (Throw (EngineFailed e))) -> legal (must o) Q h.
Proof. intros Hm H1 H2. split; [done|]. intros [a|e]; [apply H1|apply H2]. Qed.

(** An operation without bearing on what a pass has found. *)
Definition plain (e : OEvent) : Prop := targets_of e = None /\ snapshot_of e = None /\ cancel_action e = None.

Lemma plain_inspection e : snapshot_of e = None -> inspection_of e = None.
Proof. by destruct e as [[] [a|e]]. Qed.

Lemma known_later limits e h : known_limits limits h -> known_limits limits (e :: h).
Proof. intros (st & Hi & Hl). exists st. split; [by right|done]. Qed.

(** An operation that is not tolerated failed. *)
Ltac ends := left; eexists _, _; split; [reflexivity|reflexivity].

(** ** Repairs *)

Section Repairs.
Context (limits : AccountRiskLimits) (executions : list ExecutionRecord) (targets : list ProtectionTarget).

(** What holds between the targets of the loop. *)
Record between (h : History) (p : Progress) : Prop := {
  bt_targets : last_targets h = Some targets;
  bt_limits : known_limits limits h;
  bt_executions : In (returned ListExecutions executions) h;
  bt_snapshot : last_snapshot h = Some (pg_snapshot p);
  bt_reports : reports_cancels h (pg_actions p)
}.

Definition progresses (h : History) (r : result SupervisionError Progress) : Prop :=
  match r with Ok p => between h p | Throw e => ends_with h e end.

Lemma between_plain e h p : plain e -> between h p -> between (e :: h) p.
Proof.
  intros (Ht & Hs & Hc) [H1 H2 H3 H4 H5]. split; [..|by right| |].
  - unfold last_targets in *. cbn. by rewrite Ht.
  - by apply known_later.
  - unfold last_snapshot in *. cbn. by rewrite Hs.
  - unfold reports_cancels in *. cbn. by rewrite Hc.
Qed.

Lemma between_report a h p : is_cancel_action a = false -> between h p -> between h (report_action a p).
Proof.
  intros Ha [H1 H2 H3 H4 H5]. split; [done..|]. unfold reports_cancels in *. cbn [report_action pg_actions].
  rewrite List.filter_app, H5. cbn [List.filter]. rewrite Ha. by rewrite app_nil_r.
Qed.

(** The operations performed since are without bearing. *)
Ltac plainly := repeat (apply between_plain; [by split|]).

Lemma wp_repair_failed t repairId e p h : between h p -> legal (repair_failed t repairId e p) progresses h.
Proof.
  intros H. unfold repair_failed. apply wp_must; [done| |intros x; ends]. intros found. cbv zeta.
  apply wp_must; [done| |intros x; ends]. intros found'.
  assert (Last : forall h', between h' p -> legal (_ ← must (BlockEntries "protection-repair-failed");
    Ret (report_action (not_completed "protect" repairId (match truthy_text found with Some _ => ActionUnknown | None => ActionFailed end) e
      "protection-submission-failed") p)) progresses h').
  { intros h' H'. apply wp_must; [done| |intros x; ends]. intros []. apply between_report; [done|]. by plainly. }
  apply wp_bind. destruct (truthy_text found'); [apply Last; by plainly|].
  apply wp_must_only; [done| |intros x; ends]. intros []. apply Last. by plainly.
Qed.

Lemma wp_place_repair t repairId amount h Q :
  (forall plan, may_perform (returned (Prepare (pt_side t) (repair_intent scope t amount)) plan :: h)
     (Place plan (unconfirmed repairId (so_timeoutMs options) None))) ->
  (forall h' r, (forall p, between h p -> between h' p) -> match r with Throw LimitsRequired => False | _ => True end -> Q h' r) ->
  legal (place_repair scope options t repairId amount) Q h.
Proof.
  intros Hm HQ. unfold place_repair.
  apply wp_must; [done| |intros x; apply HQ; [intros p H; by plainly|done]]. intros plan.
  apply wp_must; [done| |intros x; apply HQ; [intros p H; by plainly|done]]. intros result.
  apply wp_must; [done| |intros x; apply HQ; [intros p H; by plainly|done]]. intros []. apply HQ; [intros p H; by plainly|done].
Qed.

Lemma wp_attempt_repair t repairId amount p h :
  (forall plan, may_perform (returned (Prepare (pt_side t) (repair_intent scope t amount)) plan :: h)
     (Place plan (unconfirmed repairId (so_timeoutMs options) None))) ->
  between h p -> legal (attempt_repair scope options t repairId amount p) progresses h.
Proof.
  intros Hm H. unfold attempt_repair. apply wp_bind, wp_attempt, wp_place_repair; [done|].
  intros h1 [executionId|[|e]] K F; [|done|by apply wp_repair_failed, K].
  cbv zeta. assert (H1 : between h1 (report_action (completed "protect" executionId) p)) by (by apply between_report, K).
  apply wp_try, wp_must; [done| |].
  - intros s. destruct H1 as [? ? ? ? ?]. split; try done; [by apply known_later|by right].
  - intros e. apply wp_repair_failed. by plainly.
Qed.

Lemma wp_claim_repair t h Q :
  (forall h' previousId, (forall p, between h p -> between h' p) -> Q h' (Ok (inl previousId))) ->
  (forall h' repairId failures, (forall p, between h p -> between h' p) -> claimed t h' repairId failures h -> Q h' (Ok (inr (repairId, failures)))) ->
  (forall h' e, ends_with h' (EngineFailed e) -> Q h' (Throw (EngineFailed e))) -> legal (claim_repair t) Q h.
Proof.
  intros H1 H2 H3. unfold claim_repair.
  apply wp_must; [done| |intros x; apply H3; ends]. intros repairId. cbv zeta.
  apply wp_must; [done| |intros x; apply H3; ends]. intros found. destruct (truthy_text found) as [previousId|] eqn:F;
    [|by apply H2; [intros p H; plainly|constructor]].
  apply wp_must; [done| |intros x; apply H3; ends]. intros records.
  destruct (find_execution previousId records) as [previous|] eqn:Fr; [|by apply H1; intros p H; plainly].
  destruct (isUnresolvedExecution previous) eqn:U; [by apply H1; intros p H; plainly|].
  apply wp_must; [done| |intros x; apply H3; ends]. intros [].
  apply wp_must; [done| |intros x; apply H3; ends]. intros again. apply H2; [intros p H; by plainly|]. by econstructor.
Qed.

Lemma wp_retire t p h :
  between h p -> retires h (pt_id t) -> legal (_ ← must (RetireTarget (pt_id t)); Ret p) progresses h.
Proof. intros H R. apply wp_must; [done| |intros x; ends]. intros []. by plainly. Qed.

Lemma wp_held t position p h :
  In t targets -> between h p -> find (protects scope t) (sn_positions (pg_snapshot p)) = Some position ->
  legal (facts ← of_result (fun e => EngineFailed (GuardRefused e)) (accountRiskFacts (pg_snapshot p) (position_mode scope));
         let exposure := find (held_exposure t position) (f_exposures facts) in
         if covered limits exposure then
           if given (pt_lastRepairIntentId t) then _ ← must (FinishRepair (pt_id t) true); Ret p else Ret p
         else
           c ← claim_repair t;
           match (c : string + string * number) with
           | inl previousId =>
               Ret (report_action {| ac_action := "protect"; ac_reference := previousId; ac_status := ActionUnknown; ac_reason := None |} p)
           | inr (repairId, failures) =>
               if (so_protectionAttempts options <=? failures)%float then
                 Ret (report_action {| ac_action := "protect"; ac_reference := pt_id t; ac_status := ActionFailed;
                                       ac_reason := Some (Because "protection-attempts-exhausted") |} p)
               else attempt_repair scope options t repairId (uncovered position exposure) p
           end) progresses h.
Proof.
  intros Ht H Fp. apply wp_bind, wp_of_result.
  2:{ intros e Fa. right; left. exists (pg_snapshot p), e. by split; [apply H|]. }
  intros facts Ff. cbv zeta. destruct (covered limits _) eqn:C.
  { destruct (given _); [|done]. apply wp_must; [done| |intros x; ends]. intros []. by plainly. }
  apply wp_bind, wp_claim_repair; [| |by intros].
  - intros h' previousId K. apply between_report; [done|by apply K].
  - intros h' repairId failures K Cl. destruct (so_protectionAttempts options <=? failures)%float eqn:L;
      [apply between_report; [done|by apply K]|].
    apply wp_attempt_repair; [|by apply K]. intros plan. pose proof H as [H1 H2 H3 H4 H5].
    apply (repairs t targets limits (pg_snapshot p) _ repairId failures h' h); try done. by exists position, facts.
Qed.

Lemma wp_repair_target t p h :
  In t targets -> between h p -> legal (repair_target scope options limits executions t p) progresses h.
Proof.
  intros Ht H. pose proof H as [H1 H2 H3 H4 H5]. unfold repair_target. cbv zeta.
  assert (R : (let entry := find_execution (pt_executionId t) executions in
      (exists e, entry = Some e /\ settled_as Release e = true) \/
      (find (protects scope t) (sn_positions (pg_snapshot p)) = None /\ target_obsolete t entry (pg_snapshot p) = true)) -> retires h (pt_id t))
    by (intros Hc; by exists t, targets, executions, (pg_snapshot p)).
  cbv zeta in R. destruct (match find_execution (pt_executionId t) executions with Some e => settled_as Release e | None => false end) eqn:Re.
  - apply wp_retire; [done|]. apply R. left. destruct (find_execution (pt_executionId t) executions) as [e|]; [by exists e|done].
  - destruct (find (protects scope t) _) as [position|] eqn:Fp; [by apply wp_held|].
    destruct (target_obsolete t _ _) eqn:O; [|done]. apply wp_retire; [done|]. apply R. by right.
Qed.

Lemma wp_repair_targets l p h :
  incl l targets -> between h p -> legal (repair_targets scope options limits executions l p) progresses h.
Proof.
  revert p h. induction l as [|t l IH]; intros p h Hl H; [done|]. cbn [repair_targets]. apply wp_bind.
  eapply wp_mono; [|apply wp_repair_target; [apply Hl; by left|done]].
  intros h' [p'|e] H'; [|done]. apply IH; [|done]. intros x Hx. apply Hl. by right.
Qed.
End Repairs.

(** ** Breaches *)

Section Breaches.
Context (limits : AccountRiskLimits) (i : Inspection).

Definition acts_on (h : History) (actions : list Action) : Prop := breached h i limits /\ reports_cancels h actions.
Definition acted (h : History) (r : result SupervisionError (list Action)) : Prop :=
  match r with Ok actions => acts_on h actions | Throw e => ends_with h e end.

Lemma breached_later e h : inspection_of e = None -> breached h i limits -> breached (e :: h) i limits.
Proof. intros He (H1 & H2 & H3). split_and!; [|done|by apply known_later]. unfold last_inspection. cbn. by rewrite He. Qed.

Lemma acts_plain e h actions : inspection_of e = None -> cancel_action e = None -> acts_on h actions -> acts_on (e :: h) actions.
Proof. intros He Hc [H1 H2]. split; [by apply breached_later|]. unfold reports_cancels in *. cbn. by rewrite Hc. Qed.
Lemma acts_report a h actions : is_cancel_action a = false -> acts_on h actions -> acts_on h (app actions [a]).
Proof.
  intros Ha [H1 H2]. split; [done|]. unfold reports_cancels in *. rewrite List.filter_app, H2. cbn [List.filter]. by rewrite Ha, app_nil_r.
Qed.

Lemma wp_cancel_entries orders actions h :
  cancelEntriesOnBreach limits = true -> incl orders (sn_orders (is_snapshot i)) -> acts_on h actions -> only_cancels h i ->
  legal (cancel_entries scope (is_snapshot i) orders actions) acted h.
Proof.
  intros Hc. revert actions h. induction orders as [|o rest IH]; intros actions h Hl Ha Ho; [done|]. cbn [cancel_entries].
  assert (Hr : incl rest (sn_orders (is_snapshot i))) by (intros x Hx; apply Hl; by right).
  destruct (an_exit scope (is_snapshot i) o) eqn:X; [by apply IH|]. destruct Ha as [Hb Hp].
  split; [exists i, limits, o; split_and!; try done; apply Hl; by left|]. intros r. apply IH; [done| |].
  - split; [by apply breached_later|]. unfold reports_cancels in *. rewrite List.filter_app, Hp. cbn. by destruct r.
  - destruct Ho as (cs & h0 & -> & F). exists (existT (Cancel (o_id o) (o_symbol o)) r :: cs), h0. split; [done|]. by constructor.
Qed.

(** The events in front of a history. *)
Ltac newly :=
  match goal with |- exists new, ?l = app new ?h /\ _ =>
    let rec go l := match l with h => constr:(@nil OEvent) | ?e :: ?r => let x := go r in constr:(e :: x) end in
    let x := go l in exists x; split; [reflexivity|by repeat constructor]
  end.

(** A close of a position of the inspection; what it throws is the engine's. *)
Lemma wp_close position unresolved h (Q : History -> result SupervisionError unit -> Prop) :
  breached h i limits -> reduceOnBreach limits = true -> any_reason "stale:" (a_reasons (is_assessment i)) = false ->
  In position (sn_positions (is_snapshot i)) -> may_fill position unresolved = false ->
  (forall h' r, (forall actions, acts_on h actions -> acts_on h' actions) -> match r with Throw LimitsRequired => False | _ => True end -> Q h' r) ->
  legal (controlledRiskClose sha256 scope position (so_timeoutMs options) None) Q (returned GetUnresolved unresolved :: h).
Proof.
  intros Hb Hr Hs Hp Hu HQ. unfold controlledRiskClose.
  assert (K : forall h' r, (exists new, h' = app new h /\ Forall (fun e => inspection_of e = None /\ cancel_action e = None) new) ->
    match r with Throw LimitsRequired => False | _ => True end -> Q h' r).
  { intros h' r (new & -> & F) Hf. apply HQ; [|done]. intros actions Ha. induction F as [|e new [E1 E2] _ IH]; [done|]. by apply acts_plain. }
  assert (New : forall l (h' : History), h' = app l h -> Forall (fun e => inspection_of e = None /\ cancel_action e = None) l ->
    exists new, h' = app new h /\ Forall (fun e => inspection_of e = None /\ cancel_action e = None) new) by eauto.
  apply wp_must; [done| |intros x; apply K; [newly|done]]. intros s.
  destruct (find (same_position position) (sn_positions s)) as [current|] eqn:F; [|apply K; [newly|done]].
  apply wp_must; [done| |intros x; apply K; [newly|done]]. intros st. cbv zeta.
  apply wp_must; [done| |intros x; apply K; [newly|done]]. intros plan.
  apply wp_must; [by eapply closes| |intros x; apply K; [newly|done]]. intros result. apply K; [newly|done].
Qed.

Lemma wp_reduce_positions positions actions h :
  reduceOnBreach limits = true -> any_reason "stale:" (a_reasons (is_assessment i)) = false ->
  incl positions (sn_positions (is_snapshot i)) -> acts_on h actions ->
  legal (reduce_positions sha256 scope options positions actions) acted h.
Proof.
  intros Hr Hs. revert actions h. induction positions as [|position rest IH]; intros actions h Hl Ha; [done|]. cbn [reduce_positions].
  assert (Hrest : incl rest (sn_positions (is_snapshot i))) by (intros x Hx; apply Hl; by right).
  apply wp_must; [done| |intros x; ends]. intros unresolved.
  destruct (may_fill position unresolved) eqn:U; [apply IH; [done|by apply acts_plain]|].
  unfold caught. apply wp_bind, wp_try, wp_bind, (wp_close _ unresolved); [apply Ha|done|done|apply Hl; by left|done|].
  intros h' [[]|[|e]] K Hf; [|done|]; (apply IH; [done|]; apply acts_report; [done|by apply K]).
Qed.

Definition accounts_for (h : History) (r : result SupervisionError (list Action)) : Prop :=
  match r with Ok actions => last_inspection h = Some i /\ reports_cancels h actions | Throw e => ends_with h e end.

Lemma acted_accounts h r : acted h r -> accounts_for h r.
Proof. destruct r as [l|e]; [|done]. intros [(H & _) H']. done. Qed.

Lemma wp_on_breach actions h :
  last_inspection h = Some i -> known_limits limits h -> reports_cancels h actions -> only_cancels h i ->
  legal (on_breach sha256 scope options limits i actions) accounts_for h.
Proof.
  intros Hi Hl Hr Ho. unfold on_breach. cbv zeta. destruct (only_pending _) eqn:Op; [done|].
  assert (Ha : acts_on h actions) by done.
  apply wp_bind. apply (wp_mono _ _ _ acted).
  - intros h1 [l|e] H1; [|done]. destruct (reduceOnBreach limits && _) eqn:Rb; [|exact (acted_accounts h1 (Ok l) H1)].
    apply andb_true_iff in Rb as [Rb St%negb_true_iff]. eapply wp_mono; [apply acted_accounts|].
    apply wp_reduce_positions; [done|done|apply incl_refl|exact H1].
  - destruct (cancelEntriesOnBreach limits) eqn:Cb; [|done]. apply wp_cancel_entries; [done|apply incl_refl|done|done].
Qed.
End Breaches.

(** ** A pass *)

(** A pass that ends says what the last inspection found, and reports each cancellation. *)
Definition ended (h : History) (r : result SupervisionError RiskSupervisionReport) : Prop :=
  match r with
  | Ok report =>
      exists i, last_inspection h = Some i /\ rs_reasons report = a_reasons (is_assessment i) /\ rs_snapshot report = Some (is_snapshot i) /\
        reports_cancels h (rs_actions report)
  | Throw e => ends_with h e
  end.

Lemma wp_reconcile_mutation h (Q : History -> result SupervisionError (list Action) -> Prop) :
  (forall h' actions, List.filter is_cancel_action actions = [] -> omap cancel_action h' = omap cancel_action h -> Q h' (Ok actions)) ->
  (forall h' e, ends_with h' e -> Q h' (Throw e)) -> legal (reconcile_mutation options) Q h.
Proof.
  intros H1 H2. unfold reconcile_mutation. split; [done|]. intros [[]|e]; [by apply H1|].
  apply wp_must; [done| |intros x; apply H2; ends]. intros s. by apply H1.
Qed.

Lemma wp_reconcile_unknown actions h (Q : History -> result SupervisionError (list Action) -> Prop) :
  List.filter is_cancel_action actions = [] ->
  (forall h' actions, List.filter is_cancel_action actions = [] -> omap cancel_action h' = omap cancel_action h -> Q h' (Ok actions)) ->
  (forall h' e, ends_with h' e -> Q h' (Throw e)) -> legal (reconcile_unknown options actions) Q h.
Proof.
  intros Ha H1 H2. unfold reconcile_unknown. apply wp_must; [done| |intros x; apply H2; ends].
  intros unresolved. destruct (existsb _ unresolved); [|by apply H1].
  apply wp_must; [done| |intros x; apply H2; ends]. intros recovery. apply H1; [|done].
  rewrite List.filter_app, Ha. cbn [app]. by induction (rr_issues recovery).
Qed.

Lemma wp_supervision : legal (superviseAccountRisk sha256 scope options) ended [].
Proof.
  unfold superviseAccountRisk.
  apply wp_must; [done| |intros x; ends]. intros [a|]; [|done].
  apply wp_must; [done| |intros x; ends]. intros at_.
  apply wp_bind, wp_reconcile_mutation; [|by intros]. intros h1 actions1 A1 C1.
  apply wp_bind, wp_reconcile_unknown; [done| |by intros]. intros h2 actions2 A2 C2. rewrite C1 in C2. cbn in C2.
  apply wp_must; [done| |intros x; ends]. intros observed.
  unfold must_state. apply wp_bind, wp_must; [done| |intros x; ends]. intros [st|]; [|right; right; by eexists]. cbn [wp].
  apply wp_must; [done| |intros x; ends]. intros executions.
  apply wp_must; [done| |intros x; ends]. intros targets.
  apply wp_bind. eapply wp_mono; [|apply (wp_repair_targets (ar_limits st) executions targets targets); [apply incl_refl|]].
  - intros h3 [p|e] H3; [|done]. destruct H3 as [_ Hl _ _ Hr].
    apply wp_must; [done| |intros x; ends]. intros after.
    apply wp_bind. eapply wp_mono; [|apply wp_on_breach; [done|by apply known_later|done|by exists [], h3]].
    intros h4 [actions|e] H4; [|done]. destruct H4 as [Hi Hp]. exists after. by split_and!.
  - split; [done| |by right; left|done|].
    + exists st. split; [by right; right; left|done].
    + unfold reports_cancels. cbn. by rewrite C2, A2.
Qed.
End Safety.
