(* ===== verification/SupervisionRuns.v ===== *)
(** * Supervisions

    What every pass of the supervisor does: its placements, cancellations and retirements, how it
    ends, how many operations it performs; and what of this the engine sends. *)

From Stdlib Require Import ZArith Lia Bool Floats.
From stdpp Require Import base strings option list.
From S2P Require Import RecoverySafety JournalHistory PlanSafety GuardSafety.
From S2P Require Import Prelude Effects Handlers JsNumber JsObject JsValue JsText AccountRisk RiskState RiskLedger Execution ExecutionJournal.
From S2P Require Import ExecutionRecovery Positions OrderPlan AccountFacts AccountGuard Engine EngineSafety EngineRuns Supervisor SupervisionSafety.
Import AccountRisk.

Local Open Scope nat_scope.

(** ** The cost of programs *)

(** Operations whose answers bound the pass. *)
Definition bounding (o : Operation) : bool := match o with InspectAccount | ListTargets => true | _ => false end.

(** At most [n] operations, [m] placements among them and none that bounds. *)
Fixpoint costs {A} (n m : nat) (p : Pass A) {struct p} : Prop :=
  match p with
  | Ret _ | Fail _ => True
  | Do o k =>
      bounding o = false /\
      match n, m, is_place o with
      | S n, S m, true => forall r, costs n m (k r)
      | S n, m, false => forall r, costs n m (k r)
      | _, _, _ => False
      end
  end.

Lemma costs_mono {A} n m n' m' (p : Pass A) : costs n m p -> n <= n' -> m <= m' -> costs n' m' p.
Proof.
  revert n m n' m'. induction p as [a|e|o k IH]; intros n m n' m' H Hn Hm; [exact I|exact I|]. destruct H as [Hb H]. split; [done|].
  destruct n as [|n]; [by destruct m, (is_place o)|]. destruct n' as [|n']; [lia|].
  destruct (is_place o); destruct m as [|m]; [done| |destruct m' as [|m']..]; try (destruct m' as [|m']; [lia|]); try lia;
    intros r; (eapply IH; [apply H|lia|lia]).
Qed.

Lemma costs_bind {A B} n m n' m' (p : Pass A) (f : A -> Pass B) :
  costs n m p -> (forall a, costs n' m' (f a)) -> costs (n + n') (m + m') (p ≫= f).
Proof.
  intros Hp Hf. revert n m Hp. induction p as [a|e|o k IH]; intros n m Hp.
  - eapply costs_mono; [apply Hf|lia|lia].
  - exact I.
  - rewrite bind_Do. destruct Hp as [Hb H]. split; [done|]. destruct n as [|n]; [by destruct m, (is_place o)|]. cbn [Nat.add].
    destruct m as [|m], (is_place o); try done; cbn [Nat.add].
    + destruct m' as [|m']; intros r; exact (IH r n 0 (H r)).
    + intros r. exact (IH r n m (H r)).
    + intros r. exact (IH r n (S m) (H r)).
Qed.

Lemma costs_attempt {A} n m (p : Pass A) : costs n m p -> costs n m (attempt p).
Proof.
  revert n m. induction p as [a|e|o k IH]; intros n m H; [exact I|exact I|]. destruct H as [Hb H]. split; [done|].
  destruct n as [|n]; [by destruct m, (is_place o)|]. destruct m as [|m], (is_place o); try done; intros r; by apply IH.
Qed.

Lemma calls_app p (l l' : History) : calls p (app l l') = calls p l + calls p l'.
Proof. unfold calls. by rewrite List.filter_app, length_app. Qed.

Lemma calls_skip p (e : OEvent) (h : History) : p (projT1 e) = false -> calls p (e :: h) = calls p h.
Proof. intros He. unfold calls. cbn [List.filter]. by rewrite He. Qed.

Lemma wp_costs {A} n m (p : Pass A) h :
  costs n m p ->
  wp (fun _ _ => True) and_then p (fun h' _ => exists new, h' = app new h /\ length new <= n /\ calls is_place new <= m /\
    Forall (fun e : OEvent => bounding (projT1 e) = false) new) h.
Proof.
  revert n m h. induction p as [a|e|o k IH]; intros n m h H; [exists []; cbn; split_and!; [done|lia|cbn; lia|done]..|].
  destruct H as [Hb H]. split; [done|]. intros r.
  assert (K : forall n0 m0, costs n0 m0 (k r) -> S n0 <= n -> m0 + (if is_place o then 1 else 0) <= m ->
    wp (fun _ _ => True) and_then (k r) (fun h' _ => exists new, h' = app new h /\ length new <= n /\ calls is_place new <= m /\
      Forall (fun e : OEvent => bounding (projT1 e) = false) new) (and_then h (existT o r))).
  { intros n0 m0 H0 Ln Lm. eapply wp_mono; [|by apply IH]. intros h' _ (new & -> & L1 & L2 & F). exists (app new [existT o r]).
    rewrite <- app_assoc. split; [done|]. rewrite length_app, calls_app. split; [cbn; lia|].
    split; [unfold calls at 2; cbn [List.filter projT1]; revert Lm; destruct (is_place o); cbn [length]; lia|]. apply Forall_app. split; [done|]. by repeat constructor. }
  destruct n as [|n]; [by destruct m, (is_place o)|]. revert K H.
  destruct (is_place o); destruct m as [|m]; intros K H; try done; (eapply K; [apply H|lia|lia]).
Qed.

Lemma costs_must o : bounding o = false -> costs 1 (if is_place o then 1 else 0) (must o).
Proof. intros Hb. split; [done|]. destruct (is_place o); intros [a|e]; exact I. Qed.

Section Costs.
Context (sha256 : string -> string) (scope : ExecutionScope) (options : SupervisionOptions).

Lemma costs_repair_failed t repairId e p : costs 4 0 (repair_failed t repairId e p).
Proof.
  unfold repair_failed. apply (costs_bind 1 0 3 0); [by apply costs_must|]. intros found. apply (costs_bind 1 0 2 0); [by apply costs_must|].
  intros found'. apply (costs_bind 1 0 1 0); [destruct (truthy_text found'); [exact I|by apply costs_must]|].
  intros _. apply (costs_bind 1 0 0 0); [by apply costs_must|done].
Qed.

Lemma costs_claim_repair t : costs 5 0 (claim_repair t).
Proof.
  unfold claim_repair. apply (costs_bind 1 0 4 0); [by apply costs_must|]. intros repairId. apply (costs_bind 1 0 3 0); [by apply costs_must|].
  intros found. destruct (truthy_text found); [|exact I]. apply (costs_bind 1 0 2 0); [by apply costs_must|]. intros records.
  destruct (find_execution s records) as [previous|]; [|exact I]. destruct (isUnresolvedExecution previous); [exact I|].
  apply (costs_bind 1 0 1 0); [by apply costs_must|]. intros _. apply (costs_bind 1 0 0 0); [by apply costs_must|]. intros again. exact I.
Qed.

Lemma costs_place_repair t repairId amount : costs 3 1 (place_repair scope options t repairId amount).
Proof.
  unfold place_repair. apply (costs_bind 1 0 2 1); [by apply costs_must|]. intros plan. apply (costs_bind 1 1 1 0); [by apply costs_must|].
  intros result. apply (costs_bind 1 0 0 0); [by apply costs_must|]. intros _. exact I.
Qed.

Lemma costs_caught {A} n m n' m' (p : Pass A) h : costs n m p -> (forall e, costs n' m' (h e)) -> costs (n + n') (m + m') (caught p h).
Proof.
  intros Hp Hh. unfold caught, tryCatch. apply costs_bind; [by apply costs_attempt|]. intros [a|[|e]]; [exact I|exact I|apply Hh].
Qed.

Lemma costs_attempt_repair t repairId amount p : costs 8 1 (attempt_repair scope options t repairId amount p).
Proof.
  unfold attempt_repair. apply (costs_bind 3 1 5 0); [apply costs_attempt, costs_place_repair|].
  intros [executionId|[|e]]; [|exact I|eapply costs_mono; [apply costs_repair_failed|lia|lia]].
  apply (costs_caught 1 0 4 0); [|intros e; apply costs_repair_failed].
  apply (costs_bind 1 0 0 0); [by apply costs_must|]. intros s. exact I.
Qed.

Lemma costs_repair_target limits executions t p : costs 13 1 (repair_target scope options limits executions t p).
Proof.
  unfold repair_target. assert (One : forall o, bounding o = false -> is_place o = false -> costs 13 1 (_ ← must o; Ret p)).
  { intros o Hb Ho. apply (costs_bind 1 0 12 1); [|done]. pose proof (costs_must o Hb) as H. by rewrite Ho in H. }
  cbv zeta. destruct (match find_execution _ _ with Some e => _ | None => _ end); [by apply One|].
  destruct (find (protects scope t) _) as [position|]; [|destruct (target_obsolete _ _ _); [by apply One|exact I]].
  apply (costs_bind 0 0 13 1); [by destruct (accountRiskFacts _ _)|]. intros facts. destruct (covered _ _); [destruct (given _); [by apply One|exact I]|].
  apply (costs_bind 5 0 8 1); [apply costs_claim_repair|]. intros [previousId|[repairId failures]]; [exact I|].
  destruct (_ <=? _)%float; [exact I|apply costs_attempt_repair].
Qed.

Lemma costs_repair_targets limits executions l p : costs (13 * length l) (length l) (repair_targets scope options limits executions l p).
Proof.
  revert p. induction l as [|t l IH]; intros p; [exact I|]. cbn [repair_targets length]. eapply costs_mono; [|reflexivity..].
  replace (13 * S (length l)) with (13 + 13 * length l) by lia. change (S (length l)) with (1 + length l).
  apply costs_bind; [apply costs_repair_target|apply IH].
Qed.

Lemma costs_cancel_entries s orders actions : costs (length orders) 0 (cancel_entries scope s orders actions).
Proof.
  revert actions. induction orders as [|o rest IH]; intros actions; [exact I|]. cbn [cancel_entries length].
  destruct (an_exit scope s o); [eapply costs_mono; [apply IH|lia|lia]|]. split; [done|]. intros r. apply IH.
Qed.

Lemma costs_close position : costs 4 1 (controlledRiskClose sha256 scope position (so_timeoutMs options) None).
Proof.
  unfold controlledRiskClose. apply (costs_bind 1 0 3 1); [by apply costs_must|]. intros s.
  destruct (find (same_position position) _); [|exact I]. apply (costs_bind 1 0 2 1); [by apply costs_must|]. intros st. cbv zeta.
  apply (costs_bind 1 0 1 1); [by apply costs_must|]. intros plan. apply (costs_bind 1 1 0 0); [by apply costs_must|]. intros r. exact I.
Qed.

Lemma costs_reduce_positions positions actions :
  costs (5 * length positions) (length positions) (reduce_positions sha256 scope options positions actions).
Proof.
  revert actions. induction positions as [|position rest IH]; intros actions; [exact I|]. cbn [reduce_positions length].
  replace (5 * S (length rest)) with (1 + (4 + 5 * length rest)) by lia. apply (costs_bind 1 0 _ (S (length rest))); [by apply costs_must|].
  intros unresolved. destruct (may_fill position unresolved); [eapply costs_mono; [apply IH|lia|lia]|].
  change (S (length rest)) with (1 + length rest). apply costs_bind; [|intros a; apply IH].
  apply (costs_caught 4 1 0 0); [|done]. apply (costs_bind 4 1 0 0); [apply costs_close|]. intros _. exact I.
Qed.

Lemma costs_on_breach limits i actions :
  costs (length (sn_orders (is_snapshot i)) + 5 * length (sn_positions (is_snapshot i))) (length (sn_positions (is_snapshot i)))
    (on_breach sha256 scope options limits i actions).
Proof.
  unfold on_breach. cbv zeta. destruct (only_pending _); [exact I|]. apply (costs_bind _ 0).
  - destruct (cancelEntriesOnBreach limits); [apply costs_cancel_entries|exact I].
  - intros l. destruct (reduceOnBreach limits && _); [apply costs_reduce_positions|exact I].
Qed.
End Costs.

Lemma latest_unbounded {A} (f : OEvent -> option A) new h :
  (forall e : OEvent, bounding (projT1 e) = false -> f e = None) -> Forall (fun e : OEvent => bounding (projT1 e) = false) new ->
  latest_of f (app new h) = latest_of f h.
Proof. intros Hf F. induction F as [|e new He _ IH]; [done|]. cbn. by rewrite (Hf e He). Qed.
Lemma unbounded_targets (e : OEvent) : bounding (projT1 e) = false -> targets_of e = None.
Proof. by destruct e as [[] [a|x]]. Qed.
Lemma unbounded_inspection (e : OEvent) : bounding (projT1 e) = false -> inspection_of e = None.
Proof. by destruct e as [[] [a|x]]. Qed.

(** ** The bound of a pass *)

Definition targets_seen (h : History) : nat := length (default [] (last_targets h)).
Definition orders_seen (h : History) : nat := match last_inspection h with Some i => length (sn_orders (is_snapshot i)) | None => 0 end.
Definition positions_seen (h : History) : nat := match last_inspection h with Some i => length (sn_positions (is_snapshot i)) | None => 0 end.

Definition within_bounds (h : History) : Prop :=
  length h <= 11 + 13 * targets_seen h + orders_seen h + 5 * positions_seen h /\ calls is_place h <= targets_seen h + positions_seen h.

(** Before the targets are known. *)
Definition early (n : nat) (h : History) : Prop := length h <= n /\ calls is_place h = 0.

Lemma early_bounds n h : early n h -> n <= 11 -> within_bounds h.
Proof. intros [H1 H2] Hn. unfold within_bounds. lia. Qed.
Lemma early_next n e h : early n h -> is_place (projT1 e) = false -> early (S n) (e :: h).
Proof. intros [H1 H2] He. split; cbn [length]; [lia|]. unfold calls in *. cbn [List.filter]. by rewrite He. Qed.

Section Bound.
Context (sha256 : string -> string) (scope : ExecutionScope) (options : SupervisionOptions).
Abbreviation any := (wp (fun _ _ => True) and_then).

Lemma any_must {A} o (f : answer o -> Pass A) Q h :
  (forall a, any (f a) Q (returned o a :: h)) -> (forall e, Q (threw o e :: h) (Throw (EngineFailed e))) -> any (must o ≫= f) Q h.
Proof. intros H1 H2. split; [done|]. intros [a|e]; [apply H1|apply H2]. Qed.

Lemma any_costs {A} n (p : Pass A) Q k h :
  costs n 0 p -> early k h -> (forall h' r, early (k + n) h' -> Q h' r) -> any p Q h.
Proof.
  intros Hc [H1 H2] HQ. eapply wp_mono; [|by apply (wp_costs n 0)]. intros h' r (new & -> & L & P & F). apply HQ. split; [rewrite length_app; lia|].
  rewrite calls_app. lia.
Qed.

(** A loop that leaves what bounds the pass. *)
Lemma any_loop {A} n m (p : Pass A) Q h :
  costs n m p ->
  (forall h' r, length h' <= length h + n -> calls is_place h' <= calls is_place h + m -> last_targets h' = last_targets h ->
     last_inspection h' = last_inspection h -> Q h' r) -> any p Q h.
Proof.
  intros Hc HQ. eapply wp_mono; [|by apply (wp_costs n m)]. intros h' r (new & -> & L & P & F). apply HQ.
  - rewrite length_app. lia.
  - rewrite calls_app. lia.
  - unfold last_targets. apply latest_unbounded; [apply unbounded_targets|done].
  - unfold last_inspection. apply latest_unbounded; [apply unbounded_inspection|done].
Qed.

Lemma costs_reconcile_mutation : costs 2 0 (reconcile_mutation options).
Proof.
  unfold reconcile_mutation. split; [done|]. intros [[]|e]; [exact I|]. apply (costs_bind 1 0 0 0); [by apply costs_must|]. intros s. exact I.
Qed.
Lemma costs_reconcile_unknown actions : costs 2 0 (reconcile_unknown options actions).
Proof.
  unfold reconcile_unknown. apply (costs_bind 1 0 1 0); [by apply costs_must|]. intros l. destruct (existsb _ l); [|exact I].
  apply (costs_bind 1 0 0 0); [by apply costs_must|]. intros r. exact I.
Qed.

(** One more operation before the targets are known. *)
Ltac early_tac := intros ?; eapply early_bounds; [apply early_next; [eassumption|reflexivity]|lia].

Lemma wp_bounds : any (superviseAccountRisk sha256 scope options) (fun h _ => within_bounds h) [].
Proof.
  unfold superviseAccountRisk. assert (E0 : early 0 []) by done.
  apply any_must; [|early_tac]. intros s. assert (E1 : early 1 [returned GetState s]) by done. destruct s as [a|]; [|by eapply early_bounds; [exact E1|lia]].
  apply any_must; [|early_tac]. intros at_. pose proof (early_next _ (returned ReadClock at_) _ E1 eq_refl) as E2.
  apply wp_bind, (any_costs 2 _ _ 2); [apply costs_reconcile_mutation|done|]. intros h1 [actions1|e] E3; [|eapply early_bounds; [exact E3|lia]].
  apply wp_bind, (any_costs 2 _ _ 4); [apply costs_reconcile_unknown|done|]. intros h2 [actions2|e] E4; [|eapply early_bounds; [exact E4|lia]].
  apply any_must; [|early_tac]. intros observed. pose proof (early_next _ (returned InspectAccount observed) _ E4 eq_refl) as E5.
  unfold must_state. apply wp_bind, any_must; [|early_tac]. intros st. pose proof (early_next _ (returned GetState st) _ E5 eq_refl) as E6.
  destruct st as [st|]; cbn [wp]; [|eapply early_bounds; [exact E6|lia]].
  apply any_must; [|early_tac]. intros executions. pose proof (early_next _ (returned ListExecutions executions) _ E6 eq_refl) as E7.
  apply any_must; [|early_tac]. intros targets. pose proof (early_next _ (returned ListTargets targets) _ E7 eq_refl) as E8.
  destruct E8 as [L P]. apply wp_bind, (any_loop _ _ _ _ _ (costs_repair_targets scope options _ _ _ _)). intros h3 r L3 P3 T3 _.
  assert (P3' : calls is_place h3 <= 0 + length targets) by (rewrite <- P; exact P3).
  assert (L3' : length h3 <= 10 + 13 * length targets) by (etrans; [exact L3|apply Nat.add_le_mono_r, L]).
  clear L3 P3 L P. change (last_targets h3 = Some targets) in T3.
  assert (Stop : forall e, last_targets (e :: h3) = Some targets -> is_place (projT1 e) = false -> within_bounds (e :: h3)).
  { clear - L3' P3'. intros e Ht He. split; unfold targets_seen; rewrite Ht; cbn [default id length]; [lia|]. rewrite (calls_skip _ e h3 He). etrans; [exact P3'|lia]. }
  destruct r as [p|e]; [|split; unfold targets_seen; rewrite T3; cbn [default id]; lia].
  apply any_must; [|intros e; by apply Stop]. intros after.
  apply wp_bind, (any_loop _ _ _ _ _ (costs_on_breach sha256 scope options _ _ _)). intros h4 r L4 P4 T4 I4.
  assert (G : within_bounds h4).
  { assert (T4' : last_targets h4 = Some targets) by (by rewrite T4). assert (I4' : last_inspection h4 = Some after) by (by rewrite I4).
    rewrite calls_skip in P4 by done. cbn [length] in L4.
    unfold within_bounds, targets_seen, orders_seen, positions_seen. rewrite T4', I4'. cbn [default id]. lia. }
  by destruct r.
Qed.
End Bound.

(** ** The engine's calls *)

(** Programs of the engine that send nothing. *)
Fixpoint sends_nothing {A} (m : P A) : Prop :=
  match m with Ret _ | Fail _ => True | Do c k => is_issue c = false /\ forall r, sends_nothing (k r) end.

Lemma nothing_bind {A B} (m : P A) (f : A -> P B) : sends_nothing m -> (forall a, sends_nothing (f a)) -> sends_nothing (m ≫= f).
Proof.
  intros Hm Hf. induction m as [a|e|c k IH]; [apply Hf|exact I|]. rewrite bind_Do. destruct Hm as [Hc Hk]. split; [done|].
  intros r. by apply IH.
Qed.
Lemma nothing_attempt {A} (m : P A) : sends_nothing m -> sends_nothing (attempt m).
Proof. induction m as [a|e|c k IH]; cbn; [done|done|]. intros [Hc Hk]. split; [done|]. intros r. by apply IH. Qed.
Lemma nothing_try {A} (m : P A) h : sends_nothing m -> (forall e, sends_nothing (h e)) -> sends_nothing (tryCatch m h).
Proof. intros Hm Hh. apply nothing_bind; [by apply nothing_attempt|]. intros [a|e]; [done|apply Hh]. Qed.
Lemma nothing_result {T A} (f : T -> EngineError) (r : result T A) : sends_nothing (of_result f r).
Proof. by destruct r. Qed.
Lemma nothing_failIf c e : sends_nothing (failIf c e).
Proof. by destruct c. Qed.
Lemma nothing_ask c : is_issue c = false -> sends_nothing (ask c).
Proof. done. Qed.

Ltac nothing_tac :=
  repeat first
    [ exact I
    | apply nothing_bind; [|intros]
    | apply nothing_try; [|intros]
    | apply nothing_attempt
    | apply nothing_result
    | apply nothing_failIf
    | (apply nothing_ask; reflexivity)
    | progress unfold refuse_if, reject, guard_state, guard_state_, store, ask_snapshot, answered, throwIfAborted, finish, with_guard
    | case_match ].

Section System.
Variable sha256 : string -> string.
Variables toUpperCase toLowerCase : string -> string.
Variable pow : number -> number -> number.
Variable E : Engine.

Lemma nothing_inspect G : sends_nothing (inspect G).
Proof. unfold inspect. nothing_tac. Qed.
Lemma nothing_checkCancellation G ids symbol : sends_nothing (checkCancellation G ids symbol).
Proof. unfold checkCancellation. apply nothing_bind; [nothing_tac|]. intros [a|]; [|exact I]. apply nothing_bind; [apply nothing_inspect|intros]. nothing_tac. Qed.
Lemma nothing_cancel id symbol : sends_nothing (cancelOrder E id symbol None).
Proof.
  unfold cancelOrder, requireLiveOpenOrder, assertLiveCancellationKeepsProtection, claim_cancellation.
  nothing_tac.
Qed.
Lemma nothing_prepare side intent : sends_nothing (prepareOrder toUpperCase toLowerCase pow E side intent).
Proof. unfold prepareOrder, keep. nothing_tac. Qed.

(** What the engine is told when it is used after [k]. *)
Definition seen_by_engine (env : Environment system_reply) (k : list (Event system_reply)) : Environment reply :=
  fun h c => env (app k (map system_event h)) (EngineCall c).

Lemma run_in_system {Y A} env k h (m : P A) :
  run env (app k (map system_event h)) (in_system (Y := Y) m) =
  (app k (map system_event (fst (run (seen_by_engine env k) h m))), Ok (snd (run (seen_by_engine env k) h m))).
Proof.
  revert h. induction m as [a|e|c x IH]; intros h; [done|done|]. cbn [in_system run]. rewrite <- IH. f_equal. by rewrite map_app, <- app_assoc.
Qed.

Lemma run_infallible {X A} env h (m : Prog system_reply Empty_set A) :
  fst (run env h (infallible (X := X) m)) = fst (run env h m) /\
  exists a, snd (run env h m) = Ok a /\ snd (run env h (infallible (X := X) m)) = Ok a.
Proof. revert h. induction m as [a|[]|c k IH]; intros h; cbn [infallible run fst snd]; [by split; [|exists a]|]. apply IH. Qed.

Definition sends (c : SystemCall) : bool := match c with EngineCall c => is_issue c | _ => false end.

Lemma sends_after c r (h : list (Event system_reply)) : sends c = false -> calls sends (app h [existT c r]) = calls sends h.
Proof. intros Hc. unfold calls. rewrite List.filter_app, length_app. cbn [List.filter projT1]. rewrite Hc. apply Nat.add_0_r. Qed.

Lemma calls_in_system {Y A} env (m : P A) :
  sends_nothing m -> forall h, calls sends (fst (run env h (in_system (Y := Y) m))) = calls sends h.
Proof.
  intros Hm. induction m as [a|e|c x IH]; intros h; [done|done|]. destruct Hm as [Hc Hx]. cbn [in_system run]. rewrite IH by done.
  by apply sends_after.
Qed.

(** Only a placement sends. *)
Lemma implementation_sends o env h :
  is_place o = false -> calls sends (fst (run env h (implementation sha256 toUpperCase toLowerCase pow E o))) = calls sends h.
Proof.
  intros Ho. destruct o; try discriminate Ho; cbn [implementation];
    try (apply calls_in_system; unfold list_executions, unresolved_executions;
         first [apply nothing_cancel | apply nothing_prepare | (unfold with_guard; destruct (en_scope E); [apply nothing_inspect|exact I]) | nothing_tac]);
    try (cbn [run fst]; by apply sends_after).
Qed.

Lemma mapped_issue l j1 s u j2 :
  map system_event l = app j1 (existT (EngineCall (Issue s)) u :: j2) ->
  exists l1 v l2, l = app l1 (existT (Issue s) v :: l2) /\ j1 = map system_event l1.
Proof.
  intros H. apply map_eq_app in H as (l1 & l2 & -> & <- & H). destruct l2 as [|[c v] l2]; [done|].
  apply (f_equal (fun l => match l with e :: _ => Some (projT1 e) | [] => None end)) in H. injection H as ->. by exists l1, v, l2.
Qed.

Abbreviation handler := (fun o => infallible (X := SupervisionError) (implementation sha256 toUpperCase toLowerCase pow E o)).

Lemma handler_total o env h : isOk (snd (run env h (handler o))) = true.
Proof. destruct (run_infallible (X := SupervisionError) env h (implementation sha256 toUpperCase toLowerCase pow E o)) as (_ & a & _ & ->). done. Qed.

Lemma sends_count s u (l1 l2 : list (Event system_reply)) :
  calls sends (app l1 (existT (EngineCall (Issue s)) u :: l2)) = S (calls sends l1 + calls sends l2).
Proof. unfold calls. rewrite List.filter_app, length_app. cbn [List.filter projT1 sends is_issue length]. apply Nat.add_succ_r. Qed.

(** What is sent, is sent by a placement. *)
Lemma sent_by_placement env h3 o r j1 s u j2 :
  run env h3 (handler o) = (app h3 (app j1 (existT (EngineCall (Issue s)) u :: j2)), Ok r) -> is_place o = true.
Proof.
  intros R. destruct (is_place o) eqn:Ho; [done|exfalso]. pose proof (implementation_sends o env h3 Ho) as C.
  destruct (run_infallible (X := SupervisionError) env h3 (implementation sha256 toUpperCase toLowerCase pow E o)) as [Eh _].
  rewrite R in Eh. cbn [fst] in Eh. rewrite <- Eh, app_assoc, sends_count in C. unfold calls in C. rewrite List.filter_app, length_app in C. lia.
Qed.

(** The calls of a placement. *)
Lemma placement_calls env h3 plan policy k r :
  run env h3 (handler (Place plan policy)) = (app h3 k, Ok r) ->
  k = map system_event (fst (run (seen_by_engine env h3) [] (place sha256 toUpperCase toLowerCase pow E (PlacesOrder plan policy)))).
Proof.
  intros R. destruct (run_infallible (X := SupervisionError) env h3 (implementation sha256 toUpperCase toLowerCase pow E (Place plan policy))) as [Eh _].
  rewrite R in Eh. cbn [fst implementation] in Eh.
  pose proof (run_in_system (Y := Empty_set) env h3 [] (place sha256 toUpperCase toLowerCase pow E (PlacesOrder plan policy))) as R'.
  cbn [map] in R'. rewrite app_nil_r in R'. apply (app_inv_head h3). etrans; [exact Eh|]. exact (f_equal fst R').
Qed.
End System.

(** ** Theorems *)

Section Theorems.
Context (sha256 : string -> string) (scope : ExecutionScope) (options : SupervisionOptions).

(** A pass that performs these operations with these answers, and ends so. *)
Definition passes (h : list OEvent) (res : result SupervisionError RiskSupervisionReport) : Prop :=
  path (superviseAccountRisk sha256 scope options) h res.

Lemma observed_history h0 l : observed and_then h0 l = app (rev l) h0.
Proof. revert h0. induction l as [|e l IH]; intros h0; [done|]. cbn [rev]. rewrite <- app_assoc. apply IH. Qed.

(** What a pass performs, it may. *)
Lemma pass_performs h1 o r h2 res :
  passes (app h1 (existT o r :: h2)) res -> may_perform sha256 scope options (rev h1) o.
Proof.
  intros H. destruct (wp_path _ _ _ _ _ _ _ (wp_supervision sha256 scope options) H) as [Hl _]. apply lawful_at in Hl.
  by rewrite observed_history, app_nil_r in Hl.
Qed.

(** C8: Whatever a supervision sends to the exchange is sent by the placement of a plan it has just
    prepared, either a stop for a position with too little protection, of the amount that lacks
    it and under the claim of its target, or a close of a position on a breach when no execution
    of its symbol is unresolved; and as everything an engine sends it is a permitted submission.
    The operations before the placement and their answers are those of this run, whose calls up
    to the placement are [k0], and the pass goes on with what the placement answers in it. *)
Theorem supervision_submits toUpperCase toLowerCase pow E env k1 s u k2 :
  let operate := fun o => infallible (X := SupervisionError) (implementation sha256 toUpperCase toLowerCase pow E o) in
  let whole := run env [] (supervision sha256 toUpperCase toLowerCase pow E scope options) in
  fst whole = app k1 (existT (EngineCall (Issue s)) u :: k2) ->
  exists h1 plan policy r h2 k0 k j1 prepared rq,
    performs operate env [] h1 k0 /\
    run env k0 (operate (Place plan policy)) = (app k0 k, Ok r) /\
    performs operate env (app k0 k) h2 (fst whole) /\
    passes (app h1 (existT (Place plan policy) r :: h2)) (snd whole) /\
    placement sha256 scope options (rev h1) plan policy /\
    k1 = app k0 (map system_event j1) /\
    requested toUpperCase toLowerCase pow E (seen_by_engine env k0) (PlacesOrder plan policy) prepared rq /\
    permitted E rq (plan_checked toUpperCase toLowerCase pow E prepared) (watched j1) s.
Proof.
  cbv zeta. intros H. unfold supervision in *.
  destruct (run_implement _ (handler_total sha256 toUpperCase toLowerCase pow E) env [] (superviseAccountRisk sha256 scope options)) as (es & P & Hp).
  destruct (performed_call _ env [] es _ k1 _ k2 P H) as (h1 & o & r & h2 & k0 & j1 & j2 & -> & P1 & R & Ek). cbn [app] in Ek. subst k1.
  pose proof (sent_by_placement _ _ _ _ _ _ _ _ _ _ _ _ _ R) as Ho. destruct o; try discriminate Ho.
  pose proof (placement_calls _ _ _ _ _ _ _ _ _ _ _ R) as C. symmetry in C. destruct (mapped_issue _ _ _ _ _ C) as (l1 & v & l2 & El & ->).
  destruct (place_call _ _ _ _ _ _ _ _ _ _ El eq_refl) as (prepared & rq & Hr & _ & Hm).
  eexists h1, plan, policy, r, h2, k0, _, l1, prepared, rq.
  split_and!; [exact P1|exact R|exact (performs_rest _ _ _ _ _ _ _ _ _ _ P P1 R)|exact Hp|exact (pass_performs _ _ _ _ _ Hp)|done|exact Hr|exact Hm].
Qed.

(** C9: A supervision cancels only entries, on a breach and when it is configured to: open orders of
    the inspection after its repairs that reduce no position and are no spot sales, and before
    anything but cancellations happened. *)
Theorem only_entries_are_cancelled h1 id symbol r h2 res :
  passes (app h1 (existT (Cancel id symbol) r :: h2)) res -> cancels_entry scope (rev h1) id symbol.
Proof. intros H. exact (pass_performs _ _ _ _ _ H). Qed.

(** A supervision retires a protection target only when its opening was released, or when nothing
    it protects is held, its execution is settled and no order that opens it is left. *)
Theorem only_obsolete_targets_retire h1 id r h2 res :
  passes (app h1 (existT (RetireTarget id) r :: h2)) res -> retires scope (rev h1) id.
Proof. intros H. exact (pass_performs _ _ _ _ _ H). Qed.

(** C10: A supervision that ends reports what the last inspection found and each cancellation with its
    outcome; no failing preparation, placement, cancellation, close or snapshot ends it, only
    missing limits, a failing read or write of the store, a failing inspection, and a snapshot
    whose facts cannot be computed. *)
Theorem supervision_reports h res :
  passes h res -> ended scope (rev h) res.
Proof.
  intros H. destruct (wp_path _ _ _ _ _ _ _ (wp_supervision sha256 scope options) H) as [_ Hq]. by rewrite observed_history, app_nil_r in Hq.
Qed.

(** C11: A supervision terminates: it performs at most eleven operations, thirteen for each protection
    target, one for each open order and five for each position, and at most one placement for
    each target and each position. *)
Theorem supervision_is_bounded env :
  exists h res, run env [] (superviseAccountRisk sha256 scope options) = (h, res) /\ within_bounds (rev h).
Proof.
  exists (fst (run env [] (superviseAccountRisk sha256 scope options))), (snd (run env [] (superviseAccountRisk sha256 scope options))).
  split; [by destruct (run env [] _)|].
  destruct (wp_run _ _ _ _ _ env [] (wp_bounds sha256 scope options)) as (h' & -> & _ & H). by rewrite observed_history, app_nil_r in H.
Qed.
End Theorems.

(** ** A pass *)

Local Open Scope float_scope.

(** Half a bitcoin is held with one entry open. *)
Definition held_bitcoin : Position :=
  {| po_symbol := "BTC/USDT"; po_asset := "BTC"; po_amount := 0.5; po_quoteValue := None; po_valuationStatus := None;
     po_valuationReason := None; po_positionSide := None; po_leverage := None; po_marginType := None; po_markPrice := None;
     po_liquidationPrice := None; po_margin := None; po_avgEntryPrice := None; po_unrealizedPnl := None; po_unrealizedPnlPct := None;
     po_costBasisStatus := None; po_costBasisReason := None |}.
Definition entry_order : Order :=
  proposed_order {| in_symbol := "BTC/USDT"; in_side := Buy; in_type := Limit; in_amount := 0.25; in_price := Some 790; in_reduceOnly := None;
                    in_positionSide := None; in_stopPrice := None; in_trailingPercent := None; in_closePosition := None;
                    in_clientOrderId := None |} 0.
Definition account_with (positions : list Position) (orders : list Order) : AccountSnapshot :=
  {| sn_source := "exchange"; sn_epoch := "epoch"; sn_observedAt := day1; sn_oldestPriceAt := day1; sn_equity := 1000;
     sn_netExternalFlows := 1000; sn_marginUsed := 0; sn_positions := positions; sn_orders := orders;
     sn_prices := [("BTC/USDT"%string, {| pob_price := 800; pob_timestamp := day1 |})]; sn_limitations := [] |}.
Definition reducing_limits : AccountRiskLimits :=
  {| maxGrossExposure := 1000; maxNetExposure := 1000; maxAssetExposure := 600; maxLeverage := 3;
     maxMarginUsagePct := 50; maxDailyLoss := 50; maxDrawdown := 80; maxDataAgeMs := 60000;
     maxPriceDeviationPct := 2; minDepthRatio := 1; minLiquidationDistancePct := 10;
     minProtectionCoveragePct := 90; maxStopDistancePct := 5; cancelEntriesOnBreach := true; reduceOnBreach := true |}.
Definition guarded_state : AccountRiskState :=
  {| ar_limits := reducing_limits; ar_memory := None; ar_blockedReasons := []; ar_revision := 3; ar_mutation := None |}.
Definition breach : AccountRiskAssessment :=
  {| a_allowed := false; a_reasons := ["protection:BTC/USDT"%string]; a_grossExposure := 400; a_netExposure := 400; a_assetExposure := [];
     a_leverage := 1; a_marginUsagePct := 0; a_dailyLoss := 0; a_drawdown := 0; a_memory := good_memory |}.
Definition stop_target : ProtectionTarget :=
  {| pt_id := "target"; pt_scope := example_scope; pt_executionId := "opening"; pt_symbol := "BTC/USDT"; pt_positionSide := None;
     pt_side := Sell; pt_stopPrice := Some 780; pt_generation := 1; pt_failures := None; pt_lastRepairIntentId := None |}.

(** Operations that succeed; the snapshot after a repair may not be readable. *)
Definition operations (readable : bool) (s : AccountSnapshot) : Environment o_reply := fun h o =>
  match o return o_reply o with
  | GetState => Ok (Some guarded_state)
  | InspectAccount => Ok {| is_snapshot := s; is_assessment := breach; is_revision := 3 |}
  | TakeSnapshot => if readable then Ok s else Throw ClientThrew
  | GetUnresolved | ListExecutions => Ok []
  | RecoverExecutions _ => Throw ClientThrew
  | FindIntent _ => Ok (if existsb (fun e : OEvent => is_place (projT1 e)) h then Some "exec-2"%string else None)
  | ListTargets => Ok [stop_target]
  | ClaimRepair _ => Ok "repair"%string
  | Prepare _ _ => Ok 0%nat
  | Place _ _ => Ok (OrderResult canceled_order, "exec-2"%string)
  | ReadClock => Ok day1
  | ReconcileMutation _ | BlockEntries _ | FinishRepair _ _ | RetireTarget _ | Cancel _ _ => Ok tt
  end.

Definition example_options : SupervisionOptions := {| so_timeoutMs := 1000; so_protectionAttempts := 2 |}.
Definition example_pass (readable : bool) (s : AccountSnapshot) : list OEvent * result SupervisionError RiskSupervisionReport :=
  run (operations readable s) [] (superviseAccountRisk toy_sha256 example_scope example_options).
Definition uncovered_account : AccountSnapshot := account_with [held_bitcoin] [entry_order].

Definition actions_of (r : result SupervisionError RiskSupervisionReport) : list (string * ActionStatus) :=
  match r with Ok report => map (fun a => (ac_action a, ac_status a)) (rs_actions report) | Throw _ => [] end.

(** A pass that repairs, cancels and closes; one whose snapshot fails after the repair, which is then
    reported as completed and as unknown, and blocks entries; and one that finds nothing to protect. *)
Example example_actions :
  actions_of (snd (example_pass true uncovered_account)) =
    [("protect", ActionCompleted); ("cancel-entry", ActionCompleted); ("reduce", ActionCompleted)]%string /\
  actions_of (snd (example_pass false uncovered_account)) =
    [("protect", ActionCompleted); ("protect", ActionUnknown); ("cancel-entry", ActionCompleted); ("reduce", ActionFailed)]%string /\
  actions_of (snd (example_pass true (account_with [] []))) = [].
Proof. lazy. done. Qed.

Lemma example_path readable s : passes toy_sha256 example_scope example_options (fst (example_pass readable s)) (snd (example_pass readable s)).
Proof. destruct (run_path (operations readable s) [] (superviseAccountRisk toy_sha256 example_scope example_options)) as (es & Eh & H). unfold example_pass. by rewrite Eh. Qed.

Definition is_retirement (o : Operation) : bool := match o with RetireTarget _ => true | _ => false end.

Lemma only_entries_are_cancelled_witness :
  exists h1 id symbol r h2, fst (example_pass true uncovered_account) = app h1 (existT (Cancel id symbol) r :: h2) /\
    cancels_entry example_scope (rev h1) id symbol.
Proof.
  destruct (call_of_kind is_cancel (fst (example_pass true uncovered_account))) as (h1 & c & r & h2 & Eh & Hc); [lazy; discriminate|].
  destruct c; try discriminate Hc. exists h1, id, symbol, r, h2. split; [exact Eh|].
  apply (only_entries_are_cancelled toy_sha256 example_scope example_options h1 id symbol r h2 (snd (example_pass true uncovered_account))).
  rewrite <- Eh. apply example_path.
Defined.

Lemma only_obsolete_targets_retire_witness :
  exists h1 id r h2, fst (example_pass true (account_with [] [])) = app h1 (existT (RetireTarget id) r :: h2) /\
    retires example_scope (rev h1) id.
Proof.
  destruct (call_of_kind is_retirement (fst (example_pass true (account_with [] [])))) as (h1 & c & r & h2 & Eh & Hc); [lazy; discriminate|].
  destruct c; try discriminate Hc. exists h1, id, r, h2. split; [exact Eh|].
  apply (only_obsolete_targets_retire toy_sha256 example_scope example_options h1 id r h2 (snd (example_pass true (account_with [] [])))).
  rewrite <- Eh. apply example_path.
Defined.

Lemma supervision_reports_witness :
  ended example_scope (rev (fst (example_pass true uncovered_account))) (snd (example_pass true uncovered_account)) /\
  isOk (snd (example_pass true uncovered_account)) = true.
Proof.
  split; [|lazy; reflexivity].
  apply (supervision_reports toy_sha256 example_scope example_options), example_path.
Defined.

(** ** A close *)

Definition kept_plan (h : list (Event system_reply)) : option PreparedPlan :=
  fold_left (fun o (e : Event system_reply) => match projT1 e with EngineCall (KeepPlan prepared _) => Some prepared | _ => o end) h None.

Definition a_bitcoin : Balance := {| ba_asset := "BTC"; ba_free := 0.5; ba_used := 0; ba_total := 0.5; ba_quoteValue := None |}.
Definition plain_account : AccountSnapshot := account_with [held_bitcoin] [].

Definition guarded_store (c : StoreCall) : result JournalError (store_reply c) :=
  match c return result JournalError (store_reply c) with
  | LoadGuard => Ok (Some guarded_state)
  | ObserveAccount _ _ _ => Ok breach
  | ListRecords => Ok []
  | LoadAdmission => Ok {| as_generation := 0%Z; as_currentGeneration := 0%Z; as_stale := false |}
  | LoadMaintenance => Ok None
  | ClaimMutation _ _ _ _ => Ok "mutation"%string
  | PrepareExecution _ _ _ _ | BeginExecution _ _ => Ok begun_record
  | SettleExecution _ _ _ _ _ _ => Ok true
  | _ => Ok tt
  end.

(** A spot position is to be closed, and the market stays where it is. *)
Definition spot_system : Environment system_reply := fun h c =>
  match c return system_reply c with
  | EngineCall c =>
      match c return reply c with
      | OnStore c => guarded_store c
      | KeptPlan _ => kept_plan h
      | PreparedAt _ => Some day1
      | Now => day1
      | AskSnapshot => Answer plain_account
      | AskBalances => Some [a_bitcoin]
      | AskMarket =>
          let m := market_answers 800 in
          {| ma_market := ma_market m; ma_ticker := ma_ticker m; ma_balances := Some [a_bitcoin]; ma_positions := ma_positions m;
             ma_leverage := ma_leverage m; ma_feeRate := ma_feeRate m |}
      | c => example_env true (AnOrder no_plan) [] c
      end
  | OnProtection c =>
      match c return result JournalError (protection_reply c) with
      | FindsIntent _ => Ok None
      | ListsTargets => Ok []
      | ClaimsRepair _ => Ok "repair"%string
      | FinishesRepair _ _ | RetiresTarget _ => Ok tt
      end
  | AwaitReconciliation _ => true
  | AwaitRecovery _ => None
  end.

Definition closing_run : list (Event system_reply) * result SupervisionError RiskSupervisionReport :=
  run spot_system [] (supervision toy_sha256 same_text same_text a_pow example_engine example_scope example_options).

(** The position is closed by one submission. *)
Example closing_run_ends :
  calls sends (fst closing_run) = 1%nat /\ actions_of (snd closing_run) = [("reduce", ActionCompleted)]%string.
Proof. lazy. done. Qed.

Lemma supervision_submits_witness :
  exists k1 s u k2 h1 plan policy j1 rq checked, fst closing_run = app k1 (existT (EngineCall (Issue s)) u :: k2) /\
    placement toy_sha256 example_scope example_options (rev h1) plan policy /\ permitted example_engine rq checked (watched j1) s.
Proof.
  destruct (call_of_kind sends (fst closing_run)) as (k1 & c & u & k2 & Eh & Hc); [lazy; discriminate|].
  destruct c as [[]| | |]; try discriminate Hc.
  destruct (supervision_submits toy_sha256 example_scope example_options same_text same_text a_pow example_engine spot_system k1 s u k2 Eh)
    as (h1 & plan & policy & r & h2 & k0 & k & j1 & prepared & rq & P & _ & _ & _ & Hp & _ & _ & Hm).
  exists k1, s, u, k2, h1, plan, policy, j1, rq, (plan_checked same_text same_text a_pow example_engine prepared). split; [exact Eh|].
  split; [exact Hp|exact Hm].
Defined.
