(* ===== verification/Outbox.v ===== *)
(** * The outbox of notifications (packages/trading-agent/src/monitoring-state.ts)

    The persisted state of the monitors, by account scope: the notifications they queue, with
    their leases and retries, and the health of each source.  What a scope keeps of triggers,
    facts and orders is carried along as one value. *)

From Stdlib Require Import ZArith Lia Bool Ascii Floats.
From stdpp Require Import base strings option list.
From S2P Require Import Prelude Effects JsNumber JsObject JsValue JsText RiskState Execution ExecutionJournal.

Local Open Scope float_scope.

(** ** State *)

Definition MONITORING_MAX_AGE_MS : number := 300000.
Definition MONITORING_LEASE_MS : number := 30000.
Definition MAX_NOTIFICATIONS : nat := 256.
Definition RETENTION_MS : number := 604800000.

Inductive MonitoringError := InvalidScopeText | BacklogFull | NotificationMissing.

Record MonitoringScope := {
  ms_mode : TradingMode;
  ms_exchange : string;
  ms_marketType : MarketType;
  ms_quoteCurrency : string;
  ms_positionMode : option PositionMode;
  ms_accountId : string
}.

(** An execution scope is one with its position mode. *)
Definition monitoring_scope (s : ExecutionScope) : MonitoringScope :=
  {| ms_mode := sc_mode s; ms_exchange := sc_exchange s; ms_marketType := sc_marketType s; ms_quoteCurrency := sc_quoteCurrency s;
     ms_positionMode := Some (sc_positionMode s); ms_accountId := sc_accountId s |}.

Inductive ErrorCode := ObservationFailed | PollFailed | DeliveryFailed | NotificationExpired.

Record MonitorObservation := {
  mo_lastPollAt : option number;
  mo_lastObservationAt : option number;
  mo_lastSuccessAt : option number;
  mo_lastFailureAt : option number;
  mo_lastDeliveryFailureAt : option number;
  mo_errorCode : option ErrorCode
}.
Definition no_observation : MonitorObservation :=
  {| mo_lastPollAt := None; mo_lastObservationAt := None; mo_lastSuccessAt := None; mo_lastFailureAt := None;
     mo_lastDeliveryFailureAt := None; mo_errorCode := None |}.

Inductive NotificationSource := FromTriggers | FromOrders | FromPlans.
Inductive NotificationStatus := Pending | Delivering | Delivered | ExpiredUnsent | CancelledUnsent.

#[export] Instance NotificationSource_eq_dec : EqDecision NotificationSource.
Proof. solve_decision. Defined.
#[export] Instance NotificationStatus_eq_dec : EqDecision NotificationStatus.
Proof. solve_decision. Defined.

Record PlanReference := { rf_id : string; rf_version : Z; rf_eventId : string }.

(** What is sent, apart from its delivery. *)
Record Notice := {
  nt_source : NotificationSource;
  nt_customType : string;
  nt_content : string;
  nt_notices : list string;
  nt_warning : bool;
  nt_wake : bool;
  nt_triggerRevision : option string;
  nt_planReference : option PlanReference
}.

Record MonitoringNotification := {
  n_id : string;
  n_notice : Notice;
  n_createdAt : number;
  n_expiresAt : number;
  n_status : NotificationStatus;
  n_attempts : Z;
  n_nextAttemptAt : number;
  (** [leaseId] and [leaseUntil] *)
  n_lease : option (string * number);
  n_finishedAt : option number
}.

Record Health := { hl_triggers : MonitorObservation; hl_orders : MonitorObservation; hl_plans : option MonitorObservation }.

Record MonitoringScopeState := {
  ss_scope : MonitoringScope;
  ss_updatedAt : number;
  (** triggers, facts, their history, orders and the autonomous state *)
  ss_rest : value;
  ss_health : Health;
  ss_notifications : list MonitoringNotification
}.

Abbreviation MonitoringState := (list MonitoringScopeState).

(** ** Scopes *)

(** UTF-16 units of a text in WTF-8. *)
Fixpoint utf16_length (s : string) : Z :=
  match s with
  | EmptyString => 0
  | String c r => ((if code c <? 128 then 1 else if code c <? 192 then 0 else if code c <? 240 then 1 else 2) + utf16_length r)%Z
  end.

(** [text(value, max)] *)
Definition text_ok (max : Z) (s : string) : bool := negb (blank s) && (utf16_length s <=? max)%Z.

Definition validateMonitoringScope (s : MonitoringScope) : result MonitoringError unit :=
  throwIf (negb (text_ok 256 (ms_exchange s) && text_ok 256 (ms_quoteCurrency s) && text_ok 256 (ms_accountId s))) InvalidScopeText.

Definition monitoringScopeKey (s : MonitoringScope) : result MonitoringError string :=
  _ ← validateMonitoringScope s;
  Ok (stringify (VArr [VStr (mode_name (ms_mode s)); VStr (ms_exchange s); VStr (market_name (ms_marketType s)); VStr (ms_quoteCurrency s);
        VStr (ms_accountId s); match ms_positionMode s with Some m => VStr (position_mode_name m) | None => VUndefined end])).

(** The index of the scope's entry. *)
Fixpoint find_scope (key : string) (state : MonitoringState) (index : nat) : result MonitoringError (option nat) :=
  match state with
  | [] => Ok None
  | entry :: rest =>
      k ← monitoringScopeKey (ss_scope entry);
      if String.eqb k key then Ok (Some index) else find_scope key rest (S index)
  end.
Definition findMonitoringScope (state : MonitoringState) (s : MonitoringScope) : result MonitoringError (option nat) :=
  key ← monitoringScopeKey s; find_scope key state 0.

(** ** Notifications *)

Definition event_finished (e : MonitoringNotification) : bool := match n_finishedAt e with Some _ => true | None => false end.

(** Finishes an event, which gives up its lease. *)
Definition finish_as (status : NotificationStatus) (now : number) (e : MonitoringNotification) : MonitoringNotification :=
  {| n_id := n_id e; n_notice := n_notice e; n_createdAt := n_createdAt e; n_expiresAt := n_expiresAt e; n_status := status;
     n_attempts := n_attempts e; n_nextAttemptAt := n_nextAttemptAt e; n_lease := None; n_finishedAt := Some now |}.

Definition failed_with (code : ErrorCode) (now : number) (o : MonitorObservation) : MonitorObservation :=
  {| mo_lastPollAt := mo_lastPollAt o; mo_lastObservationAt := mo_lastObservationAt o; mo_lastSuccessAt := mo_lastSuccessAt o;
     mo_lastFailureAt := Some now; mo_lastDeliveryFailureAt := mo_lastDeliveryFailureAt o; mo_errorCode := Some code |}.

(** [entry.health[source] ??= {}] and its update. *)
Definition on_health (source : NotificationSource) (f : MonitorObservation -> MonitorObservation) (h : Health) : Health :=
  match source with
  | FromTriggers => {| hl_triggers := f (hl_triggers h); hl_orders := hl_orders h; hl_plans := hl_plans h |}
  | FromOrders => {| hl_triggers := hl_triggers h; hl_orders := f (hl_orders h); hl_plans := hl_plans h |}
  | FromPlans => {| hl_triggers := hl_triggers h; hl_orders := hl_orders h; hl_plans := Some (f (default no_observation (hl_plans h))) |}
  end.

Definition with_notifications (l : list MonitoringNotification) (entry : MonitoringScopeState) : MonitoringScopeState :=
  {| ss_scope := ss_scope entry; ss_updatedAt := ss_updatedAt entry; ss_rest := ss_rest entry; ss_health := ss_health entry;
     ss_notifications := l |}.
Definition with_health (h : Health) (entry : MonitoringScopeState) : MonitoringScopeState :=
  {| ss_scope := ss_scope entry; ss_updatedAt := ss_updatedAt entry; ss_rest := ss_rest entry; ss_health := h;
     ss_notifications := ss_notifications entry |}.

Definition overdue (now : number) (e : MonitoringNotification) : bool :=
  (bool_decide (n_status e = Pending) || bool_decide (n_status e = Delivering)) && (n_expiresAt e <=? now).
Definition retained (now : number) (e : MonitoringNotification) : bool :=
  match n_finishedAt e with Some t => now - t <? RETENTION_MS | None => true end.

Definition expire (now : number) (e : MonitoringNotification) : MonitoringNotification :=
  if overdue now e then finish_as ExpiredUnsent now e else e.

Definition pruneMonitoringNotifications (now : number) (entry : MonitoringScopeState) : MonitoringScopeState :=
  let health := fold_left (fun h e => if overdue now e then on_health (nt_source (n_notice e)) (failed_with NotificationExpired now) h else h)
                  (ss_notifications entry) (ss_health entry) in
  with_health health (with_notifications (List.filter (retained now) (map (expire now) (ss_notifications entry))) entry).

(** A scope that is seen for the first time. *)
Definition new_scope (s : MonitoringScope) (now : number) : MonitoringScopeState :=
  {| ss_scope := s; ss_updatedAt := now;
     ss_rest := VObj [("triggers", VArr []); ("facts", VArr []);
                      ("orders", VObj [("seeded", VBool false); ("known", VArr []); ("missing", VArr []); ("guards", VArr [])])]%string;
     ss_health := {| hl_triggers := no_observation; hl_orders := no_observation; hl_plans := None |};
     ss_notifications := [] |}.

Definition touch (now : number) (entry : MonitoringScopeState) : MonitoringScopeState :=
  pruneMonitoringNotifications now
    {| ss_scope := ss_scope entry; ss_updatedAt := now; ss_rest := ss_rest entry; ss_health := ss_health entry;
       ss_notifications := ss_notifications entry |}.

(** The state with the scope's entry, and the entry's index. *)
Definition ensureMonitoringScope (state : MonitoringState) (s : MonitoringScope) (now : number) :
    result MonitoringError (nat * MonitoringState) :=
  found ← findMonitoringScope state s;
  match found with
  | Some i => Ok (i, alter (touch now) i state)
  | None => Ok (length state, app state [touch now (new_scope s now)])
  end.

(** [while (length >= MAX_NOTIFICATIONS)]: finished events make room, the oldest first. *)
Fixpoint remove_finished (l : list MonitoringNotification) : option (list MonitoringNotification) :=
  match l with
  | [] => None
  | e :: rest => if event_finished e then Some rest else option_map (cons e) (remove_finished rest)
  end.
Fixpoint make_room (fuel : nat) (l : list MonitoringNotification) : result MonitoringError (list MonitoringNotification) :=
  if (length l <? MAX_NOTIFICATIONS)%nat then Ok l
  else
    match fuel, remove_finished l with
    | S fuel, Some l' => make_room fuel l'
    | _, _ => Throw BacklogFull
    end.

Definition queued (id : string) (notice : Notice) (now expiresAt : number) : MonitoringNotification :=
  {| n_id := id; n_notice := notice; n_createdAt := now; n_expiresAt := expiresAt; n_status := Pending; n_attempts := 0;
     n_nextAttemptAt := now; n_lease := None; n_finishedAt := None |}.

(** [id] is the random identity that is drawn. *)
Definition enqueueMonitoringNotification (id : string) (notice : Notice) (now : number) (expiresAt : option number)
    (entry : MonitoringScopeState) : result MonitoringError MonitoringScopeState :=
  let entry := pruneMonitoringNotifications now entry in
  l ← make_room (length (ss_notifications entry)) (ss_notifications entry);
  Ok (with_notifications (app l [queued id notice now (default (now + MONITORING_MAX_AGE_MS) expiresAt)]) entry).

Definition cancelTriggerNotifications (revisions : list string) (now : number) (entry : MonitoringScopeState) : MonitoringScopeState :=
  with_notifications (map (fun e => match nt_triggerRevision (n_notice e) with
                                    | Some r => if negb (String.eqb r "") && str_in revisions r && negb (event_finished e) then finish_as CancelledUnsent now e else e
                                    | None => e
                                    end) (ss_notifications entry)) entry.

(** ** Health *)

Definition polled (now : number) (observedAt : option number) (failed undelivered : bool) (o : MonitorObservation) : MonitorObservation :=
  let lastObservationAt := match observedAt with Some t => Some t | None => mo_lastObservationAt o end in
  let failure code := {| mo_lastPollAt := Some now; mo_lastObservationAt := lastObservationAt;
                         mo_lastSuccessAt := if failed then mo_lastSuccessAt o else match observedAt with Some _ => Some now | None => mo_lastSuccessAt o end;
                         mo_lastFailureAt := Some now; mo_lastDeliveryFailureAt := mo_lastDeliveryFailureAt o; mo_errorCode := Some code |} in
  if failed then failure ObservationFailed
  else if undelivered then failure DeliveryFailed
  else
    {| mo_lastPollAt := Some now; mo_lastObservationAt := lastObservationAt;
       mo_lastSuccessAt := match observedAt with Some _ => Some now | None => mo_lastSuccessAt o end;
       mo_lastFailureAt := mo_lastFailureAt o; mo_lastDeliveryFailureAt := mo_lastDeliveryFailureAt o;
       mo_errorCode := match observedAt with Some _ => None | None => mo_errorCode o end |}.

Definition recordMonitoringObservation (source : NotificationSource) (now : number) (observedAt : option number) (failed : bool)
    (entry : MonitoringScopeState) : MonitoringScopeState :=
  let undelivered := existsb (fun e => bool_decide (nt_source (n_notice e) = source) && bool_decide (n_status e = Pending)
                                       && (0 <? n_attempts e)%Z) (ss_notifications entry) in
  with_health (on_health source (polled now observedAt failed undelivered) (ss_health entry)) entry.

(** ** Delivery *)

(** The readings of the clock in a transaction, and the lease it draws. *)
Record DeliveryDraws := { dd_ensure : number; dd_due : number; dd_free : number; dd_lease : number; dd_leaseId : string }.

(** [find], and an update of what it finds. *)
Fixpoint update_found (id : string) (e' : MonitoringNotification) (l : list MonitoringNotification) : list MonitoringNotification :=
  match l with [] => [] | e :: rest => if String.eqb (n_id e) id then e' :: rest else e :: update_found id e' rest end.
Definition update_event (id : string) (e' : MonitoringNotification) (entry : MonitoringScopeState) : MonitoringScopeState :=
  with_notifications (update_found id e' (ss_notifications entry)) entry.
Definition find_event (id : string) (entry : MonitoringScopeState) : option MonitoringNotification :=
  find (fun e => String.eqb (n_id e) id) (ss_notifications entry).

(** Not finished, due, and not leased to another. *)
Definition claimable (d : DeliveryDraws) (e : MonitoringNotification) : bool :=
  negb (event_finished e) && negb (dd_due d <? n_nextAttemptAt e)
  && match n_lease e with Some (_, until) => negb (dd_free d <? until) | None => true end.

Definition leased (d : DeliveryDraws) (e : MonitoringNotification) : MonitoringNotification :=
  {| n_id := n_id e; n_notice := n_notice e; n_createdAt := n_createdAt e; n_expiresAt := n_expiresAt e; n_status := Delivering;
     n_attempts := n_attempts e + 1; n_nextAttemptAt := n_nextAttemptAt e;
     n_lease := Some (dd_leaseId d, dd_lease d + MONITORING_LEASE_MS); n_finishedAt := n_finishedAt e |}.

(** The first transaction of a delivery: the event with its lease, or none. *)
Definition claim_in (d : DeliveryDraws) (id : string) (entry : MonitoringScopeState) : option MonitoringNotification * MonitoringScopeState :=
  match find_event id entry with
  | Some e => if claimable d e then (Some (leased d e), update_event id (leased d e) entry) else (None, entry)
  | None => (None, entry)
  end.

Definition retry_ms (attempts : Z) : number := Math_min 60000 (of_Z (1000 * 2 ^ Z.min attempts 6)).

Definition delivered_at (now : number) (e : MonitoringNotification) : MonitoringNotification := finish_as Delivered now e.
Definition postponed (now : number) (e : MonitoringNotification) : MonitoringNotification :=
  {| n_id := n_id e; n_notice := n_notice e; n_createdAt := n_createdAt e; n_expiresAt := n_expiresAt e; n_status := Pending;
     n_attempts := n_attempts e; n_nextAttemptAt := now + retry_ms (n_attempts e); n_lease := None; n_finishedAt := n_finishedAt e |}.

Definition delivery_failure (d : DeliveryDraws) (o : MonitorObservation) : MonitorObservation :=
  {| mo_lastPollAt := mo_lastPollAt o; mo_lastObservationAt := mo_lastObservationAt o; mo_lastSuccessAt := mo_lastSuccessAt o;
     mo_lastFailureAt := Some (dd_free d); mo_lastDeliveryFailureAt := Some (dd_lease d); mo_errorCode := Some DeliveryFailed |}.

(** Held under the lease that was claimed. *)
Definition holds_lease (claimed e : MonitoringNotification) : bool :=
  bool_decide (n_status e = Delivering) && bool_decide (option_map fst (n_lease e) = option_map fst (n_lease claimed)).

(** The second transaction: the outcome is recorded under the lease of the claim. *)
Definition acknowledge_in (d : DeliveryDraws) (source : NotificationSource) (claimed : MonitoringNotification) (delivered : bool)
    (entry : MonitoringScopeState) : MonitoringScopeState :=
  match find_event (n_id claimed) entry with
  | Some e =>
      if negb (holds_lease claimed e) then entry
      else if delivered then update_event (n_id claimed) (delivered_at (dd_due d) e) entry
      else with_health (on_health source (delivery_failure d) (ss_health entry))
             (update_event (n_id claimed) (postponed (dd_due d) e) entry)
  | None => entry
  end.

(** What a transaction does with the scope's entry after [ensureMonitoringScope], put back in the state. *)
Definition on_scope {A} (s : MonitoringScope) (now : number) (f : MonitoringScopeState -> A * MonitoringScopeState) (state : MonitoringState) :
    result MonitoringError (A * MonitoringState) :=
  p ← ensureMonitoringScope state s now;
  match snd p !! fst p with
  | Some entry => let (a, entry') := f entry in Ok (a, <[fst p := entry']> (snd p))
  | None => Throw NotificationMissing
  end.

Definition claim_event (d : DeliveryDraws) (s : MonitoringScope) (id : string) :
    MonitoringState -> result MonitoringError (option MonitoringNotification * MonitoringState) :=
  on_scope s (dd_ensure d) (claim_in d id).
Definition acknowledge_event (d : DeliveryDraws) (s : MonitoringScope) (source : NotificationSource) (claimed : MonitoringNotification)
    (delivered : bool) : MonitoringState -> result MonitoringError (unit * MonitoringState) :=
  on_scope s (dd_ensure d) (fun entry => (tt, acknowledge_in d source claimed delivered entry)).

(** *** The loop *)

Inductive DeliveryCall :=
  | ReadScope
  | ClaimEvent (id : string)
  | AcknowledgeEvent (claimed : MonitoringNotification) (delivered : bool)
  | IsCurrent
  | DeliverEvent (e : MonitoringNotification)
  | DeliveryClock.

(** The callback answers or throws ([None]); the store may fail. *)
Definition delivery_reply (c : DeliveryCall) : Type :=
  match c with
  | ReadScope => result MonitoringError (list MonitoringNotification)
  | ClaimEvent _ => result MonitoringError (option MonitoringNotification)
  | AcknowledgeEvent _ _ => result MonitoringError unit
  | IsCurrent => bool
  | DeliverEvent _ => option bool
  | DeliveryClock => number
  end.

Abbreviation Delivery := (Prog delivery_reply MonitoringError).

Record MonitoringDeliveryReport := { dr_attempted : nat; dr_delivered : nat; dr_failures : list string }.

(** [leftover.nextAttemptAt - right.nextAttemptAt || left.attempts - right.attempts], in a stable sort. *)
Definition sorts_before (l r : MonitoringNotification) : bool :=
  (n_nextAttemptAt l <? n_nextAttemptAt r) || ((n_nextAttemptAt l =? n_nextAttemptAt r) && (n_attempts l <? n_attempts r)%Z).
Fixpoint insert_event (e : MonitoringNotification) (l : list MonitoringNotification) : list MonitoringNotification :=
  match l with [] => [e] | x :: rest => if sorts_before x e || negb (sorts_before e x) then x :: insert_event e rest else e :: l end.
Definition sort_events (l : list MonitoringNotification) : list MonitoringNotification := fold_left (fun acc e => insert_event e acc) l [].

(** The events that are due; the clock is read for each. *)
Fixpoint due_events (source : NotificationSource) (l : list MonitoringNotification) : Delivery (list MonitoringNotification) :=
  match l with
  | [] => Ret []
  | e :: rest =>
      due ← (if bool_decide (nt_source (n_notice e) = source) && negb (event_finished e) then
               now ← call DeliveryClock;
               if (n_nextAttemptAt e <=? now)%float then
                 match n_lease e with
                 | Some (_, until) => now ← call DeliveryClock; Ret (until <=? now)%float
                 | None => Ret true
                 end
               else Ret false
             else Ret false);
      others ← due_events source rest;
      Ret (if (due : bool) then e :: others else others)
  end.

Definition MAX_DELIVERIES : nat := 32.

Definition deliver_one (e : MonitoringNotification) (r : MonitoringDeliveryReport) : Delivery MonitoringDeliveryReport :=
  answer ← call (DeliverEvent e);
  let delivered := default false (answer : option bool) in
  done ← call (AcknowledgeEvent e delivered);
  _ ← of_result id (done : result MonitoringError unit);
  Ret {| dr_attempted := S (dr_attempted r); dr_delivered := if delivered then S (dr_delivered r) else dr_delivered r;
         dr_failures := if delivered then dr_failures r else app (dr_failures r) [n_id e] |}.

Fixpoint deliver_all (l : list MonitoringNotification) (r : MonitoringDeliveryReport) : Delivery MonitoringDeliveryReport :=
  match l with
  | [] => Ret r
  | candidate :: rest =>
      if (MAX_DELIVERIES <=? dr_attempted r)%nat then Ret r
      else
        current ← call IsCurrent;
        if negb current then Ret r
        else
          claimed ← call (ClaimEvent (n_id candidate));
          claimed ← of_result id (claimed : result MonitoringError (option MonitoringNotification));
          match (claimed : option MonitoringNotification) with
          | None => deliver_all rest r
          | Some e =>
              current ← call IsCurrent;
              if negb current then Ret r
              else r ← deliver_one e r; deliver_all rest r
          end
  end.

Definition deliverMonitoringNotifications (source : NotificationSource) : Delivery MonitoringDeliveryReport :=
  l ← call ReadScope;
  l ← of_result id (l : result MonitoringError (list MonitoringNotification));
  due ← due_events source l;
  deliver_all (sort_events due) {| dr_attempted := 0; dr_delivered := 0; dr_failures := [] |}.

(** ** Validation

    What else a scope keeps has its own validators, a parameter here. *)

Section Validation.
Variable rest_ok : value -> bool.

Definition time_ok (t : number) : bool := isFinite t && negb (t <? 0) && negb (8640000000000000 <? t).
Definition optional_time (t : option number) : bool := match t with Some t => time_ok t | None => true end.
Definition optional_text (max : Z) (s : option string) : bool := match s with Some s => text_ok max s | None => true end.

Definition validateObservation (o : MonitorObservation) : bool :=
  forallb optional_time [mo_lastPollAt o; mo_lastObservationAt o; mo_lastSuccessAt o; mo_lastFailureAt o; mo_lastDeliveryFailureAt o].

Definition notice_ok (n : Notice) : bool :=
  str_in match nt_source n with
         | FromTriggers => ["trigger"]
         | FromPlans => ["trade-plan-observation"]
         | FromOrders => ["order-fill"; "position-alert"]
         end%string (nt_customType n)
  && match nt_source n, nt_planReference n with
     | FromPlans, Some r => identifier (rf_id r) && identifier (rf_eventId r) && safe (rf_version r) && (1 <=? rf_version r)%Z && negb (nt_wake n)
     | FromPlans, None => false
     | _, Some _ => false
     | _, None => true
     end
  && text_ok 65536 (nt_content n)
  && (length (nt_notices n) <=? 256)%nat && forallb (text_ok 16384) (nt_notices n)
  && optional_text 256 (nt_triggerRevision n).

Definition validateNotification (e : MonitoringNotification) : bool :=
  text_ok 256 (n_id e) && notice_ok (n_notice e)
  && time_ok (n_createdAt e) && time_ok (n_expiresAt e) && time_ok (n_nextAttemptAt e)
  && negb (n_expiresAt e <? n_createdAt e) && negb (n_nextAttemptAt e <? n_createdAt e)
  && safe (n_attempts e) && (0 <=? n_attempts e)%Z
  && match n_lease e with Some (id, until) => text_ok 256 id && time_ok until && negb (until <? n_createdAt e) | None => true end
  && match n_finishedAt e with Some t => time_ok t && negb (t <? n_createdAt e) | None => true end
  && Bool.eqb (bool_decide (n_status e = Delivering)) (match n_lease e with Some _ => true | None => false end)
  && Bool.eqb (bool_decide (n_status e = Delivered) || bool_decide (n_status e = ExpiredUnsent) || bool_decide (n_status e = CancelledUnsent))
       (event_finished e).

Definition validate_scope_state (entry : MonitoringScopeState) : bool :=
  isOk (validateMonitoringScope (ss_scope entry)) && time_ok (ss_updatedAt entry) && rest_ok (ss_rest entry)
  && validateObservation (hl_triggers (ss_health entry)) && validateObservation (hl_orders (ss_health entry))
  && match hl_plans (ss_health entry) with Some o => validateObservation o | None => true end
  && (length (ss_notifications entry) <=? MAX_NOTIFICATIONS)%nat && forallb validateNotification (ss_notifications entry)
  && distinct (map n_id (ss_notifications entry)).

Definition validateMonitoringState (state : MonitoringState) : bool :=
  (length state <=? 64)%nat && forallb validate_scope_state state
  && distinct (map (fun entry => match monitoringScopeKey (ss_scope entry) with Ok k => k | Throw _ => "" end) state)%string.
End Validation.
