(* ===== verification/OutboxSafety.v ===== *)
(** * Safety of the outbox

    An event is leased to one delivery at a time, is not delivered again once it is finished, and
    is never dropped to make room before it is; a delivery pass sends what it has just claimed. *)

From Stdlib Require Import ZArith Lia Bool Ascii Floats.
From stdpp Require Import base strings option list.
From S2P Require Import Prelude Effects JsNumber JsObject JsValue JsText RiskState Execution ExecutionJournal Outbox.

Local Open Scope nat_scope.

(** ** Transactions *)

(** What a transaction does with a scope's entry. *)
Inductive OutboxStep :=
  | Claim (d : DeliveryDraws) (id : string)
  | Acknowledge (d : DeliveryDraws) (source : NotificationSource) (claimed : MonitoringNotification) (delivered : bool)
  | Enqueue (id : string) (notice : Notice) (now : number) (expiresAt : option number)
  | CancelTriggers (revisions : list string) (now : number)
  | RecordObservation (source : NotificationSource) (now : number) (observedAt : option number) (failed : bool).

(** The event that is claimed, and the entry; an error leaves it as it was. *)
Definition perform_step (step : OutboxStep) (entry : MonitoringScopeState) : option MonitoringNotification * MonitoringScopeState :=
  match step with
  | Claim d id => claim_in d id entry
  | Acknowledge d source claimed delivered => (None, acknowledge_in d source claimed delivered entry)
  | Enqueue id notice now expiresAt =>
      (None, match enqueueMonitoringNotification id notice now expiresAt entry with Ok entry' => entry' | Throw _ => entry end)
  | CancelTriggers revisions now => (None, cancelTriggerNotifications revisions now entry)
  | RecordObservation source now observedAt failed => (None, recordMonitoringObservation source now observedAt failed entry)
  end.

(** A transaction of a scope at a time; one that throws is not stored. *)
Record Transaction := { tx_scope : MonitoringScope; tx_now : number; tx_step : OutboxStep }.

Definition commit (t : Transaction) (state : MonitoringState) : option MonitoringNotification * MonitoringState :=
  match on_scope (tx_scope t) (tx_now t) (perform_step (tx_step t)) state with
  | Ok (a, state') => (a, state')
  | Throw _ => (None, state)
  end.
Definition stored_by (ts : list Transaction) (state : MonitoringState) : MonitoringState :=
  fold_left (fun state t => snd (commit t state)) ts state.

(** The entry of a scope. *)
Definition entry_of (s : MonitoringScope) (state : MonitoringState) : option MonitoringScopeState :=
  match findMonitoringScope state s with Ok (Some i) => state !! i | _ => None end.

(** ** Scopes of a state *)

(** Keys that can be computed, by index. *)
Lemma find_scope_found key state n i :
  find_scope key state n = Ok (Some i) ->
  exists entry, n <= i /\ state !! (i - n) = Some entry /\ monitoringScopeKey (ss_scope entry) = Ok key.
Proof.
  revert n. induction state as [|x state IH]; intros n; cbn; [done|]. destruct (monitoringScopeKey (ss_scope x)) as [k|] eqn:K; cbn; [|done].
  destruct (String.eqb_spec k key) as [->|N].
  - intros [= ->]. exists x. rewrite Nat.sub_diag. done.
  - intros H. destruct (IH _ H) as (e & L & E & Hk). exists e. split_and!; [lia| |done].
    replace (i - n) with (S (i - S n)) by lia. done.
Qed.

(** The search reads the keys only. *)
Lemma find_scope_keys key state state' n :
  map ss_scope state = map ss_scope state' -> find_scope key state n = find_scope key state' n.
Proof.
  revert state' n. induction state as [|x state IH]; intros [|y state'] n H; try done. cbn in *. injection H as Hx Hr. rewrite Hx.
  destruct (monitoringScopeKey (ss_scope y)) as [k|]; cbn; [|done]. destruct (String.eqb k key); [done|]. by apply IH.
Qed.

Lemma find_scope_app key state entry n :
  find_scope key state n = Ok None ->
  find_scope key (app state [entry]) n
  = match monitoringScopeKey (ss_scope entry) with
    | Ok k => Ok (if String.eqb k key then Some (n + length state) else None)
    | Throw e => Throw e
    end.
Proof.
  revert n. induction state as [|x state IH]; intros n; cbn.
  - intros _. destruct (monitoringScopeKey (ss_scope entry)) as [k|]; cbn; [|done]. rewrite Nat.add_0_r. by destruct (String.eqb k key).
  - destruct (monitoringScopeKey (ss_scope x)) as [k|]; cbn; [|done]. destruct (String.eqb k key); [done|]. intros H.
    rewrite (IH _ H). destruct (monitoringScopeKey (ss_scope entry)) as [k'|]; [|done]. by rewrite Nat.add_succ_r.
Qed.

Lemma find_scope_app_found key state entry n i :
  find_scope key state n = Ok (Some i) -> find_scope key (app state [entry]) n = Ok (Some i).
Proof.
  revert n. induction state as [|x state IH]; intros n; cbn; [done|]. destruct (monitoringScopeKey (ss_scope x)) as [k|]; cbn; [|done].
  destruct (String.eqb k key); [done|]. apply IH.
Qed.

(** Every entry's key can be computed when a search finds nothing. *)
Lemma scopes_alter (f : MonitoringScopeState -> MonitoringScopeState) i (state : MonitoringState) :
  (forall e, ss_scope (f e) = ss_scope e) -> map ss_scope (alter f i state) = map ss_scope state.
Proof.
  intros Hf. revert i. induction state as [|x state IH]; intros [|i]; cbn; try done; [by rewrite Hf|]. f_equal. apply IH.
Qed.

Lemma scope_touch now entry : ss_scope (touch now entry) = ss_scope entry.
Proof. done. Qed.

Lemma scope_perform step entry : ss_scope (snd (perform_step step entry)) = ss_scope entry.
Proof.
  destruct step as [d id|d source claimed delivered|id notice now expiresAt|revisions now|source now observedAt failed]; cbn; try done.
  - unfold claim_in. destruct (find_event id entry) as [e|]; [|done]. by destruct (claimable d e).
  - unfold acknowledge_in. destruct (find_event (n_id claimed) entry) as [e|]; [|done]. destruct (holds_lease claimed e); [|done].
    by destruct delivered.
  - unfold enqueueMonitoringNotification. by destruct (make_room _ _).
Qed.

Lemma find_scope_app_throw key state entry n x :
  find_scope key state n = Throw x -> find_scope key (app state [entry]) n = Throw x.
Proof.
  revert n. induction state as [|y state IH]; intros n; cbn; [done|]. destruct (monitoringScopeKey (ss_scope y)) as [k|]; cbn; [|done].
  destruct (String.eqb k key); [done|]. apply IH.
Qed.

(** What [ensureMonitoringScope] finds or adds. *)
Lemma ensure_spec s now state i state' :
  ensureMonitoringScope state s now = Ok (i, state') ->
  exists key, monitoringScopeKey s = Ok key /\ find_scope key state' 0 = Ok (Some i)
    /\ state' !! i = Some (touch now (default (new_scope s now) (entry_of s state)))
    /\ forall key', key' <> key ->
         match find_scope key' state' 0 with Ok (Some j) => state' !! j | _ => None end
         = match find_scope key' state 0 with Ok (Some j) => state !! j | _ => None end.
Proof.
  unfold ensureMonitoringScope, entry_of, findMonitoringScope. destruct (monitoringScopeKey s) as [key|] eqn:K; cbn; [|done].
  destruct (find_scope key state 0) as [[j|]|] eqn:F; cbn; intros [=]; subst.
  - destruct (find_scope_found _ _ _ _ F) as (entry & _ & E & Ke). rewrite Nat.sub_0_r in E. exists key. split; [done|].
    assert (Hk : forall key, find_scope key (alter (touch now) i state) 0 = find_scope key state 0).
    { intros key'. apply find_scope_keys, scopes_alter. apply scope_touch. }
    split_and!; [by rewrite Hk|by rewrite list_lookup_alter_eq, E|]. intros key' N. rewrite Hk.
    destruct (find_scope key' state 0) as [[j|]|] eqn:F'; try done. rewrite list_lookup_alter_ne; [done|]. intros ->.
    destruct (find_scope_found _ _ _ _ F') as (entry' & _ & E' & Ke'). rewrite Nat.sub_0_r in E'. congruence.
  - exists key. split; [done|]. pose proof (find_scope_app key state (touch now (new_scope s now)) 0 F) as Ha.
    rewrite scope_touch in Ha. cbn [new_scope ss_scope] in Ha. rewrite K, String.eqb_refl in Ha. split; [exact Ha|].
    split; [by rewrite lookup_app_r, Nat.sub_diag by lia|]. intros key' N.
    destruct (find_scope key' state 0) as [[j|]|] eqn:F'.
    + rewrite (find_scope_app_found _ _ _ _ _ F'). destruct (find_scope_found _ _ _ _ F') as (e & _ & E & _).
      rewrite Nat.sub_0_r in E. by apply lookup_app_l, (lookup_lt_Some _ _ _ E).
    + rewrite (find_scope_app _ _ _ _ F'), scope_touch. cbn [new_scope ss_scope]. rewrite K.
      destruct (String.eqb_spec key key') as [->|]; done.
    + by rewrite (find_scope_app_throw _ _ _ _ _ F').
Qed.

(** A transaction works on the touched entry of its scope and leaves the others alone. *)
Lemma on_scope_spec {A} s now (f : MonitoringScopeState -> A * MonitoringScopeState) state a state' :
  (forall e, ss_scope (snd (f e)) = ss_scope e) ->
  on_scope s now f state = Ok (a, state') ->
  exists entry', f (touch now (default (new_scope s now) (entry_of s state))) = (a, entry')
    /\ (forall s', monitoringScopeKey s' = monitoringScopeKey s -> entry_of s' state' = Some entry')
    /\ (forall s', monitoringScopeKey s' <> monitoringScopeKey s -> entry_of s' state' = entry_of s' state).
Proof.
  intros Hf. unfold on_scope. destruct (ensureMonitoringScope state s now) as [[i m]|] eqn:E; cbn; [|done].
  destruct (ensure_spec _ _ _ _ _ E) as (key & K & F & L & Ho). rewrite L.
  destruct (f (touch now (default (new_scope s now) (entry_of s state)))) as [a' entry'] eqn:Ef. intros [= -> <-]. exists entry'.
  pose proof (Hf (touch now (default (new_scope s now) (entry_of s state)))) as Hs. rewrite Ef in Hs. cbn in Hs.
  assert (Hk : forall key, find_scope key (<[i:=entry']> m) 0 = find_scope key m 0).
  { intros key'. apply find_scope_keys. rewrite list_insert_alter. clear - L Hs. revert i L.
    induction m as [|x m IH]; intros [|i] L; try done; cbn in *; [|f_equal; by apply IH].
    injection L as ->. by rewrite Hs. }
  split; [done|]. split; intros s' Es; unfold entry_of, findMonitoringScope.
  - rewrite Es, K. cbn. rewrite Hk, F. apply list_lookup_insert_eq. by apply lookup_lt_Some in L.
  - rewrite K in Es. destruct (monitoringScopeKey s') as [key'|]; cbn; [|done]. rewrite Hk.
    assert (N : key' <> key) by congruence. rewrite <- (Ho _ N).
    destruct (find_scope key' m 0) as [[j|]|] eqn:F'; try done. rewrite list_lookup_insert_ne; [done|]. intros ->.
    destruct (find_scope_found _ _ _ _ F) as (e1 & _ & E1 & K1). destruct (find_scope_found _ _ _ _ F') as (e2 & _ & E2 & K2).
    rewrite Nat.sub_0_r in E1, E2. congruence.
Qed.

Lemma transact_spec t state :
  (commit t state = (None, state)) \/
  exists entry', perform_step (tx_step t) (touch (tx_now t) (default (new_scope (tx_scope t) (tx_now t)) (entry_of (tx_scope t) state)))
                 = (fst (commit t state), entry')
    /\ (forall s, monitoringScopeKey s = monitoringScopeKey (tx_scope t) -> entry_of s (snd (commit t state)) = Some entry')
    /\ (forall s, monitoringScopeKey s <> monitoringScopeKey (tx_scope t) -> entry_of s (snd (commit t state)) = entry_of s state).
Proof.
  unfold commit. destruct (on_scope _ _ _ state) as [[a state']|] eqn:E; [right|by left]. cbn [fst snd].
  exact (on_scope_spec _ _ _ _ _ _ (scope_perform (tx_step t)) E).
Qed.

(** ** Properties of the events of an identity *)

Section Events.
Variable id : string.

Definition events_satisfy (P : MonitoringNotification -> Prop) (entry : MonitoringScopeState) : Prop :=
  Forall (fun e => n_id e = id -> P e) (ss_notifications entry).

Lemma found_satisfies P entry e : events_satisfy P entry -> find_event id entry = Some e -> P e.
Proof.
  unfold find_event. intros H F. apply find_some in F as [Hin He]. apply String.eqb_eq in He. apply list_elem_of_In in Hin.
  unfold events_satisfy in H. rewrite Forall_forall in H. by apply H.
Qed.

Lemma updated_satisfies P i e' l :
  (n_id e' = id -> P e') -> Forall (fun e => n_id e = id -> P e) l -> Forall (fun e => n_id e = id -> P e) (update_found i e' l).
Proof.
  intros He. induction 1 as [|x l Hx Hl IH]; cbn; [constructor|]. destruct (String.eqb (n_id x) i); by constructor.
Qed.

Lemma mapped_satisfies P (f : MonitoringNotification -> MonitoringNotification) l :
  (forall e, n_id (f e) = n_id e) -> (forall e, P e -> P (f e)) ->
  Forall (fun e => n_id e = id -> P e) l -> Forall (fun e => n_id e = id -> P e) (map f l).
Proof. intros Hi Hf. induction 1 as [|x l Hx Hl IH]; cbn; constructor; [|done]. rewrite Hi. auto. Qed.

Lemma filtered_satisfies {A} (Q : A -> Prop) p l : Forall Q l -> Forall Q (List.filter p l).
Proof. rewrite !List.Forall_forall. intros H x Hx. apply List.filter_In in Hx as [Hx _]. auto. Qed.

Lemma touched_satisfies (P : MonitoringNotification -> Prop) now entry :
  (forall e t, P e -> P (finish_as ExpiredUnsent t e)) -> events_satisfy P entry -> events_satisfy P (pruneMonitoringNotifications now entry).
Proof.
  intros Hf H. apply filtered_satisfies, mapped_satisfies; [| |exact H]; intros e; unfold expire; destruct (overdue now e); auto.
Qed.

Lemma room_satisfies (Q : MonitoringNotification -> Prop) fuel l l' : make_room fuel l = Ok l' -> Forall Q l -> Forall Q l'.
Proof.
  assert (Hr : forall l l', remove_finished l = Some l' -> Forall Q l -> Forall Q l').
  { clear. induction l as [|x l IH]; intros l' E H; [done|]. cbn in E. apply Forall_cons_1 in H as [Hx Hl].
    destruct (event_finished x); [by injection E as <-|]. destruct (remove_finished l) as [r|]; cbn in E; [|done]. injection E as <-.
    constructor; [done|]. by apply IH. }
  revert l. induction fuel as [|fuel IH]; intros l; cbn [make_room]; destruct (length l <? MAX_NOTIFICATIONS); try done; try (by intros [= ->]).
  destruct (remove_finished l) as [r|] eqn:E; [|done]. intros H Hl. apply (IH r H). by apply (Hr _ _ E).
Qed.

(** A property of the events of [id] that their ends keep, and their other changes unless they are
    of the kind [allowed]. *)
Definition allowed_claim (P : MonitoringNotification -> Prop) (step : OutboxStep) : Prop :=
  match step with
  | Claim d i => i = id -> forall e, P e -> claimable d e = true -> P (leased d e)
  | Acknowledge d _ claimed false => n_id claimed = id -> forall e, P e -> holds_lease claimed e = true -> P (postponed (dd_due d) e)
  | Enqueue i notice now expiresAt => i <> id
  | _ => True
  end.

Lemma perform_satisfies (P : MonitoringNotification -> Prop) step entry :
  (forall e s t, P e -> P (finish_as s t e)) -> allowed_claim P step -> events_satisfy P entry -> events_satisfy P (snd (perform_step step entry)).
Proof.
  intros Hf Ha H. destruct step as [d i|d source claimed delivered|i notice now expiresAt|revisions now|source now observedAt failed]; cbn.
  - unfold claim_in. destruct (find_event i entry) as [e|] eqn:F; [|done]. destruct (claimable d e) eqn:C; [|done].
    apply updated_satisfies; [|exact H]. cbn. unfold find_event in F. pose proof F as F'. apply find_some in F' as [_ Ei]. apply String.eqb_eq in Ei.
    intros E. subst. apply (Ha E); [|done]. rewrite E in F. by apply (found_satisfies P entry).
  - unfold acknowledge_in. destruct (find_event (n_id claimed) entry) as [e|] eqn:F; [|done].
    destruct (holds_lease claimed e) eqn:L; [|done]. pose proof F as F'. unfold find_event in F'. apply find_some in F' as [_ Ei]. apply String.eqb_eq in Ei.
    cbn [negb]. destruct delivered; (apply updated_satisfies; [|exact H]); cbn; intros E; rewrite Ei in E; rewrite E in F.
    + apply Hf. by apply (found_satisfies P entry).
    + apply (Ha E); [|done]. by apply (found_satisfies P entry).
  - unfold enqueueMonitoringNotification. destruct (make_room _ _) as [l|] eqn:R; [|done]. cbn.
    apply Forall_app_2; [|by repeat constructor]. eapply room_satisfies; [exact R|]. by apply touched_satisfies; [auto|].
  - apply mapped_satisfies; [| |exact H]; intros e; destruct (nt_triggerRevision _) as [r|]; try done;
      destruct (negb (String.eqb r "") && str_in revisions r && negb (event_finished e)); auto.
  - exact H.
Qed.

(** In the entry of a scope. *)
Definition scope_satisfies (s : MonitoringScope) (P : MonitoringNotification -> Prop) (state : MonitoringState) : Prop :=
  match entry_of s state with Some entry => events_satisfy P entry | None => True end.

Lemma touched_entry_satisfies s P now state :
  (forall e s t, P e -> P (finish_as s t e)) -> scope_satisfies s P state ->
  events_satisfy P (touch now (default (new_scope s now) (entry_of s state))).
Proof.
  unfold scope_satisfies. intros Hf H. apply touched_satisfies; [auto|]. destruct (entry_of s state) as [entry|]; [exact H|]. constructor.
Qed.
End Events.

Lemma entry_of_key s s' state : monitoringScopeKey s = monitoringScopeKey s' -> entry_of s state = entry_of s' state.
Proof. intros E. unfold entry_of, findMonitoringScope. by rewrite E. Qed.

(** The scopes have one key. *)
Definition same_scope (s s' : MonitoringScope) : bool :=
  match monitoringScopeKey s, monitoringScopeKey s' with Ok k, Ok k' => String.eqb k k' | _, _ => false end.

Lemma same_scope_key s s' : same_scope s s' = true -> monitoringScopeKey s = monitoringScopeKey s'.
Proof.
  unfold same_scope. destruct (monitoringScopeKey s), (monitoringScopeKey s'); try done. intros E. apply String.eqb_eq in E. by subst.
Qed.
Lemma key_same_scope s s' k : monitoringScopeKey s' = Ok k -> monitoringScopeKey s = monitoringScopeKey s' -> same_scope s s' = true.
Proof. intros K E. unfold same_scope. rewrite E, K. apply String.eqb_refl. Qed.

#[local] Instance key_eq_dec : EqDecision (result MonitoringError string).
Proof. assert (EqDecision MonitoringError) by solve_decision. solve_decision. Defined.

Lemma transact_satisfies id s P t state :
  (forall e s t, P e -> P (finish_as s t e)) -> (same_scope (tx_scope t) s = true -> allowed_claim id P (tx_step t)) ->
  scope_satisfies id s P state -> scope_satisfies id s P (snd (commit t state)).
Proof.
  intros Hf Ha H. destruct (transact_spec t state) as [->|(entry & Ep & Hs & Ho)]; [done|]. unfold scope_satisfies in *.
  destruct (decide (monitoringScopeKey s = monitoringScopeKey (tx_scope t))) as [E|N]; [|by rewrite Ho].
  destruct (monitoringScopeKey s) as [k|] eqn:K.
  - rewrite (Hs s ltac:(congruence)). pose proof (perform_satisfies id P (tx_step t) _ Hf (Ha ltac:(apply (key_same_scope _ _ k); congruence))
      (touched_entry_satisfies id (tx_scope t) P (tx_now t) state Hf ltac:(unfold scope_satisfies; rewrite <- (entry_of_key s) by congruence; exact H))) as Hp.
    by rewrite Ep in Hp.
  - unfold entry_of, findMonitoringScope. by rewrite K.
Qed.

Lemma after_satisfies id s P ts state :
  (forall e s t, P e -> P (finish_as s t e)) ->
  (forall t, In t ts -> same_scope (tx_scope t) s = true -> allowed_claim id P (tx_step t)) ->
  scope_satisfies id s P state -> scope_satisfies id s P (stored_by ts state).
Proof.
  intros Hf. revert state. induction ts as [|t ts IH]; intros state Ha H; [done|]. cbn. apply IH; [intros u Hu; apply Ha; by right|].
  apply transact_satisfies; [done| |done]. apply Ha. by left.
Qed.

(** A claim that succeeds leases an event that could be claimed. *)
Lemma transact_claims t state e :
  fst (commit t state) = Some e ->
  exists d id e0 key, tx_step t = Claim d id /\ e = leased d e0 /\ claimable d e0 = true /\ n_id e0 = id /\ monitoringScopeKey (tx_scope t) = Ok key /\
    find_event id (touch (tx_now t) (default (new_scope (tx_scope t) (tx_now t)) (entry_of (tx_scope t) state))) = Some e0 /\
    entry_of (tx_scope t) (snd (commit t state))
    = Some (update_event id e (touch (tx_now t) (default (new_scope (tx_scope t) (tx_now t)) (entry_of (tx_scope t) state)))).
Proof.
  intros Hc. destruct (transact_spec t state) as [E|(entry & Ep & Hs & _)]; [by rewrite E in Hc|]. rewrite Hc in Ep.
  assert (K : exists key, monitoringScopeKey (tx_scope t) = Ok key).
  { unfold commit, on_scope, ensureMonitoringScope, findMonitoringScope in Hc. destruct (monitoringScopeKey (tx_scope t)) as [k|]; [by exists k|done]. }
  destruct K as [key K]. rewrite (Hs _ eq_refl).
  destruct (tx_step t) as [d i|d source claimed delivered|i notice now expiresAt|revisions now|source now observedAt failed]; cbn in Ep; try done.
  unfold claim_in in Ep. destruct (find_event i _) as [e0|] eqn:F; [|done]. destruct (claimable d e0) eqn:C; [|done]. injection Ep as <- <-.
  exists d, i, e0, key. split_and!; try done. unfold find_event in F. apply find_some in F as [_ F]. by apply String.eqb_eq in F.
Qed.

(** ** One lease at a time *)

(** How often an identity occurs. *)
Definition occurrences (id : string) (l : list MonitoringNotification) : nat := length (List.filter (fun e => String.eqb (n_id e) id) l).

#[local] Arguments occurrences : simpl never.

(** A scope holds at most one event of the identity. *)
Definition one_event (id : string) (s : MonitoringScope) (state : MonitoringState) : Prop :=
  match entry_of s state with Some entry => occurrences id (ss_notifications entry) <= 1 | None => True end.

Lemma occurrences_cons id e l : occurrences id (e :: l) = (if String.eqb (n_id e) id then 1 else 0) + occurrences id l.
Proof. unfold occurrences. cbn. by destruct (String.eqb (n_id e) id). Qed.
Lemma occurrences_app id l l' : occurrences id (app l l') = occurrences id l + occurrences id l'.
Proof. unfold occurrences. by rewrite List.filter_app, length_app. Qed.
Lemma occurrences_filter id p l : occurrences id (List.filter p l) <= occurrences id l.
Proof. induction l as [|e l IH]; [done|]. cbn [List.filter]. destruct (p e); rewrite !occurrences_cons; lia. Qed.
Lemma occurrences_map id f l : (forall e, n_id (f e) = n_id e) -> occurrences id (map f l) = occurrences id l.
Proof. intros Hf. induction l as [|e l IH]; [done|]. cbn [map]. by rewrite !occurrences_cons, Hf, IH. Qed.
Lemma occurrences_update id i e' l : n_id e' = i -> occurrences id (update_found i e' l) = occurrences id l.
Proof.
  intros Ei. induction l as [|e l IH]; [done|]. cbn [update_found]. destruct (String.eqb_spec (n_id e) i) as [E|E]; rewrite !occurrences_cons; [|by rewrite IH].
  by rewrite Ei, E.
Qed.
Lemma occurrences_room id fuel l l' : make_room fuel l = Ok l' -> occurrences id l' <= occurrences id l.
Proof.
  assert (Hr : forall l l', remove_finished l = Some l' -> occurrences id l' <= occurrences id l).
  { clear. induction l as [|x l IH]; intros l' E; [done|]. cbn in E. rewrite occurrences_cons. destruct (event_finished x); [injection E as <-; lia|].
    destruct (remove_finished l) as [r|]; cbn in E; [|done]. injection E as <-. rewrite occurrences_cons. specialize (IH _ eq_refl). lia. }
  revert l. induction fuel as [|fuel IH]; intros l; cbn [make_room]; destruct (length l <? MAX_NOTIFICATIONS); try done; try (by intros [= ->]).
  destruct (remove_finished l) as [r|] eqn:E; [|done]. intros H. etrans; [apply (IH r H)|]. by apply Hr.
Qed.

(** A failed delivery is acknowledged under the lease. *)
Definition releases (s : MonitoringScope) (id lease : string) (t : Transaction) : bool :=
  same_scope (tx_scope t) s &&
  match tx_step t with
  | Acknowledge _ _ claimed delivered =>
      negb delivered && String.eqb (n_id claimed) id && bool_decide (option_map fst (n_lease claimed) = Some lease)
  | _ => false
  end.

(** The event is claimed when its lease has expired. *)
Definition reclaims (s : MonitoringScope) (id : string) (until : number) (t : Transaction) : bool :=
  same_scope (tx_scope t) s &&
  match tx_step t with Claim d i => String.eqb i id && negb (dd_free d <? until)%float | _ => false end.

Definition enqueues (id : string) (t : Transaction) : bool := match tx_step t with Enqueue i _ _ _ => String.eqb i id | _ => false end.

(** Finished, or held under a lease. *)
Definition leased_or_finished (lease : string) (until : number) (e : MonitoringNotification) : Prop :=
  event_finished e = true \/ (n_status e = Delivering /\ n_lease e = Some (lease, until)).

Lemma lease_kept s id lease until t :
  enqueues id t = false -> releases s id lease t = false -> reclaims s id until t = false -> same_scope (tx_scope t) s = true ->
  allowed_claim id (leased_or_finished lease until) (tx_step t).
Proof.
  unfold enqueues, releases, reclaims. intros He Hr Hc Hs. rewrite Hs in Hr, Hc.
  destruct (tx_step t) as [d i|d source claimed delivered|i notice now expiresAt|revisions now|source now observedAt failed]; cbn; try done.
  - intros -> e [F|[_ L]] C; unfold claimable in C; [by rewrite F in C|]. rewrite L in C. exfalso. cbn in Hc. rewrite String.eqb_refl in Hc.
    cbn in Hc. rewrite Hc, andb_false_r in C. done.
  - destruct delivered; [done|]. intros <- e [F|[_ L]] H; [by left|]. exfalso. cbn in Hr. rewrite String.eqb_refl in Hr.
    unfold holds_lease in H. apply andb_true_iff in H as [_ H]. apply bool_decide_eq_true in H. rewrite L in H. rewrite <- H in Hr.
    by apply bool_decide_eq_false in Hr.
  - intros ->. by rewrite String.eqb_refl in He.
Qed.

Lemma touched_once id now s state :
  one_event id s state -> occurrences id (ss_notifications (touch now (default (new_scope s now) (entry_of s state)))) <= 1.
Proof.
  unfold one_event. destruct (entry_of s state) as [entry|]; intros H; [|cbn; unfold occurrences; cbn; lia]. etrans; [apply occurrences_filter|].
  by rewrite (occurrences_map _ (expire now)) by (intros e; unfold expire; by destruct (overdue now e)).
Qed.

(** After an update the events of the identity are the new one. *)
Lemma updated_is id e' l : n_id e' = id -> occurrences id l <= 1 -> Forall (fun e => n_id e = id -> e = e') (update_found id e' l).
Proof.
  intros Ei. induction l as [|x l IH]; cbn [update_found]; [constructor|]. rewrite occurrences_cons. destruct (String.eqb_spec (n_id x) id) as [E|E]; intros H.
  - constructor; [done|]. rewrite Forall_forall. intros y Hy <-. exfalso. cut (occurrences (n_id y) l <> 0); [lia|]. unfold occurrences.
    intros Z. apply length_zero_iff_nil in Z. assert (Hin : In y (List.filter (fun e => String.eqb (n_id e) (n_id y)) l)).
    { apply List.filter_In. split; [by apply list_elem_of_In|apply String.eqb_refl]. } by rewrite Z in Hin.
  - constructor; [done|auto].
Qed.

Lemma existsb_false_In {A} (p : A -> bool) l x : existsb p l = false -> In x l -> p x = false.
Proof.
  intros E H. destruct (p x) eqn:Px; [|done]. rewrite <- E. symmetry. apply existsb_exists. by exists x.
Qed.

(** C16: an event is leased to one delivery at a time: between two claims of it, its first lease ran out at a claim, or the failure of
    a delivery was acknowledged under it. *)
Theorem one_lease_at_a_time state t ts t' e e' :
  one_event (n_id e) (tx_scope t) state ->
  fst (commit t state) = Some e ->
  fst (commit t' (stored_by ts (snd (commit t state)))) = Some e' -> n_id e' = n_id e -> same_scope (tx_scope t') (tx_scope t) = true ->
  existsb (enqueues (n_id e)) ts = false ->
  exists lease until, n_lease e = Some (lease, until) /\
    ((exists u, In u ts /\ releases (tx_scope t) (n_id e) lease u = true) \/
     (exists u, In u (app ts [t']) /\ reclaims (tx_scope t) (n_id e) until u = true)).
Proof.
  intros Hd Hc Hc' Ei Hs He. destruct (transact_claims _ _ _ Hc) as (d & id & e0 & key & _ & -> & _ & Ei0 & K & _ & Es). cbn in Ei, He, Hd.
  rewrite Ei0 in Ei, He, Hd. eexists _, _. split; [done|]. cbn [n_id leased]. rewrite Ei0.
  set (until := (dd_lease d + MONITORING_LEASE_MS)%float) in *.
  destruct (existsb (releases (tx_scope t) id (dd_leaseId d)) ts) eqn:R; [left; by apply existsb_exists in R|].
  destruct (existsb (reclaims (tx_scope t) id until) (app ts [t'])) eqn:C; [right; by apply existsb_exists in C|]. exfalso.
  rewrite existsb_app, orb_false_iff in C. destruct C as [C C']. cbn in C'. rewrite orb_false_r in C'.
  assert (H : scope_satisfies id (tx_scope t) (leased_or_finished (dd_leaseId d) until) (stored_by ts (snd (commit t state)))).
  { apply after_satisfies; [by left| |].
    - intros u Hu Su. apply (lease_kept (tx_scope t)); [by apply (existsb_false_In _ ts)|by apply (existsb_false_In _ ts)|by apply (existsb_false_In _ ts)|done].
    - unfold scope_satisfies. rewrite Es. eapply Forall_impl; [apply updated_is; [exact Ei0|by apply touched_once]|].
      cbn. intros x Hx E. right. by rewrite (Hx E). }
  destruct (transact_claims _ _ _ Hc') as (d' & id' & e1 & key' & Et & -> & C1 & Ei1 & _ & F1 & _). cbn in Ei. rewrite Ei1 in Ei. subst id'.
  pose proof (same_scope_key _ _ Hs) as Ek.
  pose proof (found_satisfies id _ _ _ (touched_entry_satisfies id (tx_scope t') (leased_or_finished (dd_leaseId d) until) (tx_now t') _ ltac:(by left)
    ltac:(unfold scope_satisfies; rewrite (entry_of_key _ _ _ Ek); exact H)) F1) as HP.
  unfold reclaims in C'. rewrite Hs, Et, String.eqb_refl in C'. cbn in C'. unfold claimable in C1.
  destruct HP as [F|[_ Le]]; [by rewrite F in C1|]. rewrite Le in C1. cbv beta iota in C1. fold until in C'. by rewrite C', andb_false_r in C1.
Qed.

(** ** Finished events *)

Lemma finished_not_claimed s id state ts t e :
  scope_satisfies id s (fun e => event_finished e = true) state -> existsb (enqueues id) ts = false -> same_scope (tx_scope t) s = true ->
  fst (commit t (stored_by ts state)) = Some e -> n_id e <> id.
Proof.
  intros H He Hs Hc Ei. destruct (transact_claims _ _ _ Hc) as (d & i & e0 & key & _ & -> & C & Ei0 & _ & F & _). cbn in Ei.
  rewrite Ei in Ei0. subst i. unfold claimable in C. cut (event_finished e0 = true); [intros Hf; by rewrite Hf in C|].
  refine (found_satisfies id (fun e => event_finished e = true) _ _ _ F). apply touched_entry_satisfies; [done|]. unfold scope_satisfies. rewrite (entry_of_key _ s) by (by apply same_scope_key).
  apply after_satisfies; [done| |done]. intros u Hu _. pose proof (existsb_false_In _ _ _ He Hu) as Hn. unfold enqueues in Hn.
  destruct (tx_step u) as [d' i|d' source claimed delivered|i notice now expiresAt|revisions now|source now observedAt failed]; cbn; try done.
  - by destruct delivered.
  - intros ->. by rewrite String.eqb_refl in Hn.
Qed.

(** A scope that is stored stays so, and its transactions are performed. *)
Lemma transact_stored t state entry :
  entry_of (tx_scope t) state = Some entry ->
  entry_of (tx_scope t) (snd (commit t state)) = Some (snd (perform_step (tx_step t) (touch (tx_now t) entry))).
Proof.
  intros E. assert (Hok : exists p, on_scope (tx_scope t) (tx_now t) (perform_step (tx_step t)) state = Ok p).
  { unfold on_scope, ensureMonitoringScope. unfold entry_of in E. destruct (findMonitoringScope state (tx_scope t)) as [[i|]|]; [|done..]. cbn.
    rewrite list_lookup_alter_eq, E. cbn. destruct (perform_step _ _). eauto. }
  destruct Hok as [[a state'] Eo]. unfold commit. rewrite Eo. destruct (on_scope_spec _ _ _ _ _ _ (scope_perform (tx_step t)) Eo) as (entry' & Ep & Hs & _).
  rewrite E in Ep. cbn in Ep. cbn [snd]. rewrite (Hs _ eq_refl), Ep. done.
Qed.

Lemma stored_stays s ts state : entry_of s state <> None -> entry_of s (stored_by ts state) <> None.
Proof.
  revert state. induction ts as [|t ts IH]; intros state H; [done|]. cbn. apply IH.
  destruct (transact_spec t state) as [->|(entry & _ & Hs & Ho)]; [done|].
  destruct (decide (monitoringScopeKey s = monitoringScopeKey (tx_scope t))) as [E|N]; [by rewrite Hs|by rewrite Ho].
Qed.

Lemma found_again id l e : find (fun e => String.eqb (n_id e) id) l = Some e -> update_found id e l = l.
Proof.
  induction l as [|x l IH]; [done|]. cbn. destruct (String.eqb (n_id x) id); [by intros [= ->]|]. intros H. by rewrite IH.
Qed.

(** A delivery that is acknowledged under its lease finishes the event. *)
Lemma acknowledged_finishes d source e entry lease until :
  events_satisfy (n_id e) (leased_or_finished lease until) entry -> option_map fst (n_lease e) = Some lease ->
  occurrences (n_id e) (ss_notifications entry) <= 1 ->
  events_satisfy (n_id e) (fun e => event_finished e = true) (acknowledge_in d source e true entry).
Proof.
  intros H L N. unfold acknowledge_in. destruct (find_event (n_id e) entry) as [e0|] eqn:F.
  - pose proof (found_satisfies _ _ _ _ H F) as HP. unfold find_event in F. pose proof (find_some _ _ F) as [Hin Ei]. apply String.eqb_eq in Ei.
    destruct (holds_lease e e0) eqn:Hl; cbn [negb].
    + eapply Forall_impl; [apply (updated_is (n_id e)); [exact Ei|exact N]|]. cbn. intros x Hx E. by rewrite (Hx E).
    + destruct HP as [Hf|[Hst Hle]].
      * pose proof (updated_is (n_id e) e0 _ Ei N) as Hu. unfold events_satisfy. rewrite (found_again _ _ _ F) in Hu.
        eapply Forall_impl; [exact Hu|]. cbn. intros x Hx E. by rewrite (Hx E).
      * unfold holds_lease in Hl. rewrite Hst, Hle, L, !bool_decide_eq_true_2 in Hl by done. done.
  - unfold events_satisfy. rewrite Forall_forall. intros x Hx E. exfalso. unfold find_event in F.
    pose proof (find_none _ _ F x ltac:(by apply list_elem_of_In)) as Hn. cbn in Hn. rewrite E, String.eqb_refl in Hn. done.
Qed.

Lemma perform_once id step entry :
  (match step with Enqueue i _ _ _ => String.eqb i id | _ => false end) = false -> occurrences id (ss_notifications entry) <= 1 ->
  occurrences id (ss_notifications (snd (perform_step step entry))) <= 1.
Proof.
  intros He H. destruct step as [d i|d source claimed delivered|i notice now expiresAt|revisions now|source now observedAt failed]; cbn; try done.
  - unfold claim_in. destruct (find_event i entry) as [e|] eqn:F; [|done]. destruct (claimable d e); [|done]. cbn.
    unfold find_event in F. apply find_some in F as [_ Ei]. apply String.eqb_eq in Ei. by rewrite occurrences_update.
  - unfold acknowledge_in. destruct (find_event (n_id claimed) entry) as [e|] eqn:F; [|done].
    unfold find_event in F. apply find_some in F as [_ Ei]. apply String.eqb_eq in Ei.
    destruct (holds_lease claimed e); [|done]. cbn [negb]. destruct delivered; cbn; by rewrite occurrences_update.
  - unfold enqueueMonitoringNotification. destruct (make_room _ _) as [l|] eqn:R; [|done]. cbn. rewrite occurrences_app, occurrences_cons. cbn.
    rewrite He. apply (occurrences_room id) in R. cbn in R. pose proof (occurrences_filter id (retained now) (map (expire now) (ss_notifications entry))) as Hp.
    rewrite (occurrences_map _ (expire now)) in Hp by (intros e; unfold expire; by destruct (overdue now e)). change (occurrences id []) with 0. lia.
  - rewrite occurrences_map; [done|]. intros e. destruct (nt_triggerRevision _) as [r|]; [|done].
    by destruct (negb (String.eqb r "") && str_in revisions r && negb (event_finished e)).
Qed.

Lemma transact_once id s t state :
  enqueues id t = false -> one_event id s state -> one_event id s (snd (commit t state)).
Proof.
  intros He H. destruct (transact_spec t state) as [->|(entry & Ep & Hs & Ho)]; [done|]. unfold one_event.
  destruct (decide (monitoringScopeKey s = monitoringScopeKey (tx_scope t))) as [E|N]; [|by rewrite Ho]. rewrite Hs by done.
  assert (H' : one_event id (tx_scope t) state) by (unfold one_event in *; by rewrite <- (entry_of_key s)).
  pose proof (perform_once id (tx_step t) _ He (touched_once id (tx_now t) _ _ H')) as Hp. by rewrite Ep in Hp.
Qed.

Lemma after_once id s ts state : existsb (enqueues id) ts = false -> one_event id s state -> one_event id s (stored_by ts state).
Proof.
  revert state. induction ts as [|t ts IH]; intros state He H; [done|]. cbn in He |- *. apply orb_false_iff in He as [He Hr].
  apply IH; [done|]. by apply transact_once.
Qed.

(** C17: a delivery that is acknowledged before its lease ran out is final: whatever happens next, the event is not claimed again. *)
Theorem delivered_is_final state t ts u ts' t' d source e e' :
  one_event (n_id e) (tx_scope t) state ->
  fst (commit t state) = Some e ->
  existsb (fun u => releases (tx_scope t) (n_id e) (default "" (fst <$> n_lease e)) u
                    || reclaims (tx_scope t) (n_id e) (default 0%float (snd <$> n_lease e)) u || enqueues (n_id e) u) ts = false ->
  same_scope (tx_scope u) (tx_scope t) = true -> tx_step u = Acknowledge d source e true ->
  existsb (enqueues (n_id e)) ts' = false -> same_scope (tx_scope t') (tx_scope t) = true ->
  fst (commit t' (stored_by ts' (snd (commit u (stored_by ts (snd (commit t state))))))) = Some e' -> n_id e' <> n_id e.
Proof.
  intros Hd Hc Hts Hu Eu He' Hs Hc'. destruct (transact_claims _ _ _ Hc) as (dc & id & e0 & key & Et & -> & _ & Ei0 & K & _ & Es).
  pose proof (same_scope_key _ _ Hu) as Ku. cbn [n_id leased n_lease fmap option_fmap option_map default fst snd] in *.
  rewrite Ei0 in *. set (until := (dd_lease dc + MONITORING_LEASE_MS)%float) in *.
  refine (finished_not_claimed (tx_scope t) id _ ts' t' e' _ He' Hs Hc').
  assert (Hts' : forall x, In x ts -> releases (tx_scope t) id (dd_leaseId dc) x = false /\ reclaims (tx_scope t) id until x = false /\ enqueues id x = false).
  { intros x Hx. pose proof (existsb_false_In _ _ _ Hts Hx) as Hf. cbn in Hf. rewrite !orb_false_iff in Hf. tauto. }
  assert (H : scope_satisfies id (tx_scope t) (leased_or_finished (dd_leaseId dc) until) (stored_by ts (snd (commit t state)))).
  { apply after_satisfies; [by left| |].
    - intros x Hx Sx. destruct (Hts' x Hx) as (? & ? & ?). by apply (lease_kept (tx_scope t)).
    - unfold scope_satisfies. rewrite Es. eapply Forall_impl; [apply updated_is; [exact Ei0|by apply touched_once]|].
      cbn. intros x Hx E. right. by rewrite (Hx E). }
  assert (H1 : one_event id (tx_scope t) (stored_by ts (snd (commit t state)))).
  { apply after_once.
    - destruct (existsb (enqueues id) ts) eqn:E; [|done]. apply existsb_exists in E as (x & Hx & Ex). destruct (Hts' x Hx) as (_ & _ & ?). congruence.
    - apply transact_once; [|done]. unfold enqueues. by rewrite Et. }
  pose proof (stored_stays (tx_scope t) ts (snd (commit t state)) ltac:(by rewrite Es)) as Hst.
  set (state1 := stored_by ts (snd (commit t state))) in *. unfold scope_satisfies.
  destruct (entry_of (tx_scope u) state1) as [entry|] eqn:Ee; [|by rewrite (entry_of_key _ _ _ Ku) in Ee].
  pose proof (transact_stored u state1 entry Ee) as Hp. rewrite (entry_of_key _ _ _ Ku) in Hp. rewrite Hp, Eu. cbn [perform_step snd].
  rewrite <- Ei0. apply (acknowledged_finishes d source (leased dc e0) _ (dd_leaseId dc) until); [|done|]; cbn [n_id leased]; rewrite Ei0.
  - pose proof (touched_entry_satisfies id (tx_scope u) (leased_or_finished (dd_leaseId dc) until) (tx_now u) state1 ltac:(by left)
      ltac:(unfold scope_satisfies; rewrite (entry_of_key _ _ _ Ku); exact H)) as Ht. by rewrite Ee in Ht.
  - pose proof (touched_once id (tx_now u) (tx_scope u) state1 ltac:(unfold one_event; rewrite (entry_of_key _ _ _ Ku); exact H1)) as Ht.
    by rewrite Ee in Ht.
Qed.

(** ** Room *)

Abbreviation unfinished := (List.filter (fun e => negb (event_finished e))).

Lemma remove_finished_spec l :
  match remove_finished l with
  | Some l' => unfinished l' = unfinished l /\ sublist l' l /\ length l = S (length l')
  | None => unfinished l = l
  end.
Proof.
  induction l as [|x l IH]; [done|]. cbn. destruct (event_finished x) eqn:F; cbn.
  - split_and!; [done|by constructor|done].
  - destruct (remove_finished l) as [r|]; cbn; [|by rewrite IH]. rewrite F. cbn. destruct IH as (-> & Hs & ->). split_and!; [done|by constructor|done].
Qed.

Lemma make_room_spec fuel l :
  length l <= fuel ->
  match make_room fuel l with
  | Ok l' => unfinished l' = unfinished l /\ sublist l' l /\ length l' < MAX_NOTIFICATIONS /\ (length l < MAX_NOTIFICATIONS -> l' = l)
  | Throw x => x = BacklogFull /\ MAX_NOTIFICATIONS <= length (unfinished l)
  end.
Proof.
  revert l. induction fuel as [|fuel IH]; intros l Hl; cbn [make_room]; destruct (Nat.ltb_spec (length l) MAX_NOTIFICATIONS) as [H|H]; try (by split_and!).
  - unfold MAX_NOTIFICATIONS in H. lia.
  - pose proof (remove_finished_spec l) as Hr. destruct (remove_finished l) as [r|]; [|by rewrite Hr].
    destruct Hr as (Eu & Hs & El). specialize (IH r ltac:(lia)). destruct (make_room fuel r) as [l'|x]; rewrite <- Eu; [|done].
    destruct IH as (? & Hs' & ? & _). split_and!; [done|by etrans|done|lia].
Qed.

(** A notification is queued behind those of the scope; only finished ones make room for it, and it is refused when as many as the
    scope may hold are unfinished. *)
Theorem enqueue_keeps_unfinished id notice now expiresAt entry :
  let before := ss_notifications (pruneMonitoringNotifications now entry) in
  match enqueueMonitoringNotification id notice now expiresAt entry with
  | Ok entry' => exists kept,
      ss_notifications entry' = app kept [queued id notice now (default (now + MONITORING_MAX_AGE_MS)%float expiresAt)] /\
      unfinished kept = unfinished before /\ sublist kept before /\ length (ss_notifications entry') <= MAX_NOTIFICATIONS /\
      (length before < MAX_NOTIFICATIONS -> kept = before)
  | Throw x => x = BacklogFull /\ MAX_NOTIFICATIONS <= length (unfinished before)
  end.
Proof.
  cbv zeta. unfold enqueueMonitoringNotification. pose proof (make_room_spec _ (ss_notifications (pruneMonitoringNotifications now entry)) (le_n _)) as H.
  destruct (make_room _ _) as [kept|x]; [|exact H]. destruct H as (Hu & Hs & Hl & He). exists kept. cbn [mbind result_bind].
  split_and!; [done|done|done| |done]. cbn. rewrite length_app. cbn. lia.
Qed.

(** ** Deliveries *)

Abbreviation DEvent := (Event delivery_reply).

Definition is_send (c : DeliveryCall) : bool := match c with DeliverEvent _ => true | _ => false end.
Definition is_ack (c : DeliveryCall) : bool := match c with AcknowledgeEvent _ _ => true | _ => false end.

(** The delivery that was made, with its answer. *)
Definition sent (e : DEvent) : option (MonitoringNotification * bool) :=
  match e with existT c r =>
    match c return delivery_reply c -> option (MonitoringNotification * bool) with
    | DeliverEvent n => fun answer => Some (n, default false answer)
    | _ => fun _ => None
    end r
  end.

Fixpoint deliveries (h : list DEvent) : list (MonitoringNotification * bool) :=
  match h with [] => [] | e :: rest => match sent e with Some x => app (deliveries rest) [x] | None => deliveries rest end end.

(** What may be called, the most recent call coming first: a delivery follows a claim of its event that was answered
    while the session was current, and its outcome is acknowledged before anything else. *)
Definition may_call (h : list DEvent) (c : DeliveryCall) : Prop :=
  match c with
  | DeliverEvent e =>
      exists id h', h = existT IsCurrent true :: existT (ClaimEvent id) (Ok (Some e)) :: existT IsCurrent true :: h' /\ length (deliveries h) < MAX_DELIVERIES
  | AcknowledgeEvent e delivered => exists answer h', h = existT (DeliverEvent e) answer :: h' /\ delivered = default false answer
  | _ => match h with e :: _ => sent e = None | [] => True end
  end.

(** What is reported of the deliveries. *)
Definition reports (h : list DEvent) (r : MonitoringDeliveryReport) : Prop :=
  dr_attempted r = length (deliveries h) /\ dr_delivered r = length (List.filter snd (deliveries h)) /\
  dr_failures r = map (fun x => n_id (fst x)) (List.filter (fun x => negb (snd x)) (deliveries h)).

Definition acknowledged (h : list DEvent) : Prop := match h with e :: _ => sent e = None | [] => True end.

(** A pass ends with a report, or with the failure of its last transaction. *)
Definition delivered_so (h : list DEvent) (r : result MonitoringError MonitoringDeliveryReport) : Prop :=
  match r with
  | Ok r => reports h r /\ length (deliveries h) <= MAX_DELIVERIES /\ acknowledged h
  | Throw x =>
      match h with
      | existT c r :: _ => match c return delivery_reply c -> Prop with
                           | ReadScope => fun r => r = Throw x
                           | ClaimEvent _ => fun r => r = Throw x
                           | AcknowledgeEvent _ _ => fun r => r = Throw x
                           | _ => fun _ => False
                           end r
      | [] => False
      end
  end.

Abbreviation track := (fun (h : list DEvent) (e : DEvent) => e :: h).
Abbreviation dwp m Q h := (wp may_call track m Q h).

Lemma reported h r n answer :
  reports h r ->
  reports (existT (DeliverEvent n) answer :: h)
    {| dr_attempted := S (dr_attempted r); dr_delivered := if default false answer then S (dr_delivered r) else dr_delivered r;
       dr_failures := if default false answer then dr_failures r else app (dr_failures r) [n_id n] |}.
Proof.
  intros (H1 & H2 & H3). unfold reports. cbn [deliveries sent dr_attempted dr_delivered dr_failures].
  rewrite length_app, !List.filter_app, length_app, map_app. cbn [List.filter snd fst]. rewrite H1, H2, H3.
  destruct (default false answer); cbn; rewrite ?app_nil_r; split_and!; try done; lia.
Qed.

Lemma deliver_all_spec l r h :
  reports h r -> length (deliveries h) <= MAX_DELIVERIES -> acknowledged h -> dwp (deliver_all l r) delivered_so h.
Proof.
  revert r h. induction l as [|candidate l IH]; intros r h Hr Hn Ha; cbn [deliver_all]; [done|].
  destruct (Nat.leb_spec MAX_DELIVERIES (dr_attempted r)) as [Hm|Hm]; [done|].
  apply wp_call_bind; [done|]. intros [|]; [|done]. apply wp_call_bind; [done|]. intros [[e|]|x]; cbn [of_result mbind Prog_bind]; [| |done].
  2: { apply IH; done. }
  apply wp_call_bind; [done|]. intros [|]; [|done]. apply wp_bind. unfold deliver_one.
  apply wp_call_bind.
  { eexists _, _. split; [done|]. cbn [deliveries sent]. destruct Hr as (H1 & _). lia. }
  intros answer. apply wp_call_bind; [by eexists _, _|]. intros [[]|x]; cbn [of_result mbind Prog_bind wp]; [|done].
  apply IH; [|cbn [deliveries sent]; rewrite length_app; destruct Hr as (H1 & _); cbn; lia|done].
  apply (reported _ r e answer) in Hr as Hr'. destruct Hr' as (H1 & H2 & H3). unfold reports in *.
  cbn [deliveries sent] in *. done.
Qed.

Lemma due_events_spec source l h (Q : list DEvent -> result MonitoringError (list MonitoringNotification) -> Prop) :
  acknowledged h -> (forall l' h', acknowledged h' -> deliveries h' = deliveries h -> Q h' (Ok l')) -> dwp (due_events source l) Q h.
Proof.
  revert h Q. induction l as [|e l IH]; intros h Q Ha HQ; cbn [due_events]; [by apply HQ|]. apply wp_bind.
  assert (Hrest : forall (due : bool) h', acknowledged h' -> deliveries h' = deliveries h ->
    dwp (others ← due_events source l; Ret (if due then e :: others else others)) Q h').
  { intros due h' Ha' Ed. apply wp_bind, IH; [done|]. intros l' h2 Ha2 Ed2. apply HQ; [done|by rewrite Ed2]. }
  destruct (bool_decide _ && negb (event_finished e)); [|by apply Hrest]. apply wp_call_bind; [done|]. intros now.
  destruct (n_nextAttemptAt e <=? now)%float; [|by apply Hrest]. destruct (n_lease e) as [[lease until]|]; [|by apply Hrest].
  apply wp_call_bind; [done|]. intros now'. by apply Hrest.
Qed.

(** C18: a pass delivers only what it has just claimed, while the session is current, acknowledges the outcome of each delivery before it
    goes on, makes at most 32 of them, and reports them all; it fails only when a transaction does. *)
Theorem deliveries_follow_claims source env :
  exists h, fst (run env [] (deliverMonitoringNotifications source)) = h /\
    lawful may_call track [] h /\ delivered_so (rev h) (snd (run env [] (deliverMonitoringNotifications source))).
Proof.
  assert (W : dwp (deliverMonitoringNotifications source) delivered_so []).
  { unfold deliverMonitoringNotifications. apply wp_call_bind; [done|]. intros [l|x]; cbn [of_result mbind Prog_bind]; [|done].
    apply wp_bind, due_events_spec; [done|]. intros l' h' Ha Ed. apply deliver_all_spec; unfold reports; rewrite ?Ed; [done|cbn; lia|done]. }
  destruct (wp_run may_call track _ _ _ env [] W) as (h & E & Hl & HQ). cbn in E. exists h. split_and!; [done|done|].
  assert (Eo : observed track [] h = rev h); [|by rewrite <- Eo].
  clear. cut (forall a, observed track a h = app (rev h) a); [intros H; by rewrite H, app_nil_r|]. unfold observed.
  induction h as [|e h IH]; intros a; cbn; [done|]. by rewrite IH, <- app_assoc.
Qed.

(** ** Examples *)

Definition example_scope : MonitoringScope :=
  {| ms_mode := Paper; ms_exchange := "binance"; ms_marketType := Spot; ms_quoteCurrency := "USDT"; ms_positionMode := None; ms_accountId := "main" |}.
Definition example_notice : Notice :=
  {| nt_source := FromTriggers; nt_customType := "trigger"; nt_content := "crossed"; nt_notices := []; nt_warning := false; nt_wake := true;
     nt_triggerRevision := None; nt_planReference := None |}.
Definition example_step (now : number) (step : OutboxStep) : Transaction := {| tx_scope := example_scope; tx_now := now; tx_step := step |}.
Definition example_draws (now : number) (lease : string) : DeliveryDraws :=
  {| dd_ensure := now; dd_due := now; dd_free := now; dd_lease := now; dd_leaseId := lease |}.
Definition example_state : MonitoringState := stored_by [example_step 0 (Enqueue "e1" example_notice 0 None)] [].
Definition example_claim (now : number) (lease : string) : Transaction := example_step now (Claim (example_draws now lease) "e1").
Definition example_claimed (now : number) (lease : string) : MonitoringNotification :=
  leased (example_draws now lease) (queued "e1" example_notice 0 300000).

(** Nobody else claims the event while the lease runs. *)
Example example_lease_excludes : fst (commit (example_claim 29999 "b") (snd (commit (example_claim 0 "a") example_state))) = None.
Proof. reflexivity. Qed.
(** A failed delivery is retried two seconds later. *)
Example example_retry :
  let state := snd (commit (example_step 10 (Acknowledge (example_draws 10 "") FromTriggers (example_claimed 0 "a") false))
                      (snd (commit (example_claim 0 "a") example_state))) in
  fst (commit (example_claim 2009 "b") state) = None /\ option_map n_attempts (fst (commit (example_claim 2010 "b") state)) = Some 2%Z.
Proof. by split. Qed.

Lemma one_lease_at_a_time_witness :
  exists lease until, n_lease (example_claimed 0 "a") = Some (lease, until) /\
    ((exists u, In u [] /\ releases example_scope "e1" lease u = true) \/
     (exists u, In u [example_claim 30000 "b"] /\ reclaims example_scope "e1" until u = true)).
Proof.
  apply (one_lease_at_a_time example_state (example_claim 0 "a") [] (example_claim 30000 "b") (example_claimed 0 "a")
           (leased (example_draws 30000 "b") (example_claimed 0 "a"))); try reflexivity. vm_compute. lia.
Defined.

Lemma delivered_is_final_witness :
  let claimed := example_claimed 0 "a" in
  let acknowledged := snd (commit (example_step 10 (Acknowledge (example_draws 10 "") FromTriggers claimed true)) (snd (commit (example_claim 0 "a") example_state))) in
  let next := example_step 40 (Enqueue "e2" example_notice 40 None) in
  let other := leased (example_draws 50 "c") (queued "e2" example_notice 40 300040) in
  fst (commit (example_step 50 (Claim (example_draws 50 "c") "e2")) (stored_by [next] acknowledged)) = Some other /\ n_id other <> "e1".
Proof.
  cbv zeta. split; [reflexivity|]. 
  apply (delivered_is_final example_state (example_claim 0 "a") []
           (example_step 10 (Acknowledge (example_draws 10 "") FromTriggers (example_claimed 0 "a") true))
           [example_step 40 (Enqueue "e2" example_notice 40 None)] (example_step 50 (Claim (example_draws 50 "c") "e2"))
           (example_draws 10 "") FromTriggers (example_claimed 0 "a")); try reflexivity. vm_compute. lia.
Defined.
