(* ===== verification/TradePlans.v ===== *)
(** * Trade plans (packages/trading-agent/src/plans: model.ts, intent.ts, store.ts)

    The plans of the agent in one private file, with the notifications about them: what a plan
    is, when a file of plans is valid, and the operations of the store as transactions on its
    state.  Dates are texts in the ISO format; [Date.parse] of other texts is a parameter. *)

From Stdlib Require Import ZArith Lia Bool Ascii Floats.
From stdpp Require Import base strings option list.
From S2P Require Import Prelude JsNumber JsMath JsObject JsDate JsValue JsText Json RiskState Execution ExecutionJournal Triggers Outbox.

Local Open Scope float_scope.

(** ** Canonical values (intent.ts) *)

(** The UTF-16 units of a text in WTF-8. *)
Fixpoint utf16 (s : string) : list Z :=
  match s with
  | EmptyString => []
  | String a r =>
      if (code a <? 128)%Z then code a :: utf16 r else
      match r with
      | String b r2 =>
          if (code a <? 224)%Z then ((code a - 192) * 64 + (code b - 128))%Z :: utf16 r2 else
          match r2 with
          | String c r3 =>
              if (code a <? 240)%Z then ((code a - 224) * 4096 + (code b - 128) * 64 + (code c - 128))%Z :: utf16 r3 else
              match r3 with
              | String d r4 =>
                  let point := ((code a - 240) * 262144 + (code b - 128) * 4096 + (code c - 128) * 64 + (code d - 128) - 65536)%Z in
                  (55296 + point / 1024)%Z :: (56320 + point mod 1024)%Z :: utf16 r4
              | EmptyString => []
              end
          | EmptyString => []
          end
      | EmptyString => []
      end
  end.

(** [left < right] of texts *)
Fixpoint units_before (l r : list Z) : bool :=
  match l, r with
  | _, [] => false
  | [], _ :: _ => true
  | a :: l, b :: r => (a <? b)%Z || ((a =? b)%Z && units_before l r)
  end.
Definition text_before (l r : string) : bool := units_before (utf16 l) (utf16 r).

Inductive PlanProblem :=
  | InvalidSubmissionValue | InvalidContent | InvalidDates | InvalidSymbol | PlanCapacity | PlanMissing | EventCapacity
  | RevisionConflict | VersionCapacity | StaleEpoch | ExpiredPlan | ActiveLimit | InvalidNote | NoteCapacity | PaperOnly | InvalidIntentId
  | IntentConflict | IntentCapacity | NotAPlanReference | NoMatchingIntent | SnapshotConflict | ExecutionCapacity | EvidenceLinked
  | InvalidWindow | MonitoringFailure (e : MonitoringError) | InvalidState | StateCapacity
  | InvalidReference | RuntimeChanged | NotActivated | ResetAccount | OtherSymbol | NotTracked | OtherDirection | UnsatisfiedPlan | StaleEvidence
  | BadEvaluation (e : TriggerError).

Abbreviation PlanResult := (result PlanProblem).

(** [.sort()] of entries by their keys, which differ. *)
Fixpoint insert_entry {A} (e : string * A) (l : list (string * A)) : list (string * A) :=
  match l with [] => [e] | x :: rest => if text_before (fst e) (fst x) then e :: l else x :: insert_entry e rest end.
Definition sort_entries {A} (l : list (string * A)) : list (string * A) := fold_left (fun acc e => insert_entry e acc) l [].

(** The value with its entries in order and none of them undefined; its text is what [canonicalPlanValue]
    writes. *)
Fixpoint canonical (v : value) : PlanResult value :=
  match v with
  | VNull | VBool _ | VStr _ => Ok v
  | VNum n => if isFinite n then Ok v else Throw InvalidSubmissionValue
  | VArr l =>
      items ← (fix items (l : list value) : PlanResult (list value) :=
                 match l with [] => Ok [] | x :: rest => a ← canonical x; rest ← items rest; Ok (a :: rest) end) l;
      Ok (VArr items)
  | VObj o =>
      entries ← (fix entries (o : list (string * value)) : PlanResult (list (string * value)) :=
                   match o with
                   | [] => Ok []
                   | (k, x) :: rest =>
                       match x with
                       | VUndefined => entries rest
                       | _ => a ← canonical x; rest ← entries rest; Ok ((k, a) :: rest)
                       end
                   end) o;
      Ok (VObj (sort_entries entries))
  | VUndefined => Throw InvalidSubmissionValue
  end.
Definition canonicalPlanValue (v : value) : PlanResult string := c ← canonical v; Ok (stringify c).

(** [{ ...rest }] without some keys *)
Definition without (keys : list string) (v : value) : value :=
  match v with VObj o => VObj (List.filter (fun e => negb (str_in keys (fst e))) o) | _ => v end.
Definition with_input (input : value) (intent : value) : value :=
  match intent with VObj o => VObj (o_set "input"%string input o) | _ => intent end.

Definition normalizedPlanIntent (intent : value) : PlanResult string :=
  let keys := if isLit "order" (prop "kind" intent) then ["clientOrderId"]
              else ["listClientOrderId"; "aboveClientOrderId"; "belowClientOrderId"] in
  canonicalPlanValue (with_input (without keys (prop "input" intent)) intent).

Definition isPlanIntent (v : value) : bool :=
  isRecord v && (isLit "order" (prop "kind" v) || isLit "oco" (prop "kind" v)) && isRecord (prop "input" v)
  && optional (isArray (forallb (isString (fun _ => true)))) (prop "replacementIds" v).

Definition planIntentIdentity (descriptor : value) : PlanResult value :=
  _ ← throwIf (negb (isRecord descriptor)) InvalidSubmissionValue;
  _ ← throwIf (negb (isPlanIntent (prop "intent" descriptor))) InvalidSubmissionValue;
  intent ← normalizedPlanIntent (prop "intent" descriptor);
  Ok (VObj (app [("intent", VStr intent); ("countTowardsDailyLimit", prop "countTowardsDailyLimit" descriptor)]
              (if defined (prop "protectionStopPrice" descriptor) then [("protectionStopPrice", prop "protectionStopPrice" descriptor)] else [])))%string.

(** ** Plans (model.ts) *)

Definition MAX_ACTIVE : nat := 20.
Definition MAX_PLANS : nat := 500.
Definition MAX_VERSIONS : nat := 100.
Definition MAX_NOTES : nat := 200.
Definition MAX_EVENTS : nat := 1000.
Definition PLAN_MAX_AGE_MS : number := 300000.

Inductive PlanFact := PriceFact | ClosedPriceFact.
Inductive PlanOperator := AboveValue | AtLeastValue | BelowValue | AtMostValue.
Record PlanCondition := { pc_fact : PlanFact; pc_operator : PlanOperator; pc_value : number }.

Inductive PlanTimeframe := OneMinute | FiveMinutes | FifteenMinutes | OneHour | FourHours | OneDay.
Inductive PlanDirection := LongPlan | ShortPlan | ObservePlan.

Record PlanEvidence := { pe_source : string; pe_reference : option string; pe_observedAt : string; pe_summary : string }.

Record PlanContent := {
  ct_symbol : string;
  ct_timeframe : PlanTimeframe;
  ct_direction : PlanDirection;
  ct_thesis : string;
  ct_entry : list PlanCondition;
  ct_invalidation : list PlanCondition;
  ct_expiresAt : string;
  ct_reviewAt : string;
  ct_risk : string;
  ct_proposedSizeNotes : option string;
  ct_proposedStopNotes : option string;
  ct_evidence : list PlanEvidence
}.

#[export] Instance PlanFact_eq_dec : EqDecision PlanFact.
Proof. solve_decision. Defined.
#[export] Instance PlanDirection_eq_dec : EqDecision PlanDirection.
Proof. solve_decision. Defined.

Definition fact_name (f : PlanFact) : string := match f with PriceFact => "price" | ClosedPriceFact => "closed_price" end.
Definition plan_operator_name (o : PlanOperator) : string := match o with AboveValue => "gt" | AtLeastValue => "gte" | BelowValue => "lt" | AtMostValue => "lte" end.
Definition timeframe_name (t : PlanTimeframe) : string :=
  match t with OneMinute => "1m" | FiveMinutes => "5m" | FifteenMinutes => "15m" | OneHour => "1h" | FourHours => "4h" | OneDay => "1d" end.
Definition direction_name (d : PlanDirection) : string := match d with LongPlan => "long" | ShortPlan => "short" | ObservePlan => "observe" end.
Definition tri_name (t : TriState) : string := match t with TTrue => "true" | TFalse => "false" | TUnknown => "unknown" end.

Definition condition_json (c : PlanCondition) : value :=
  VObj [("fact", VStr (fact_name (pc_fact c))); ("operator", VStr (plan_operator_name (pc_operator c))); ("value", VNum (pc_value c))]%string.
Definition evidence_json (e : PlanEvidence) : value :=
  VObj (concat [field "source" (VStr (pe_source e)); opt_field "reference" VStr (pe_reference e); field "observedAt" (VStr (pe_observedAt e));
    field "summary" (VStr (pe_summary e))])%string.
Definition content_json (c : PlanContent) : value :=
  VObj (concat [field "symbol" (VStr (ct_symbol c)); field "timeframe" (VStr (timeframe_name (ct_timeframe c)));
    field "direction" (VStr (direction_name (ct_direction c))); field "thesis" (VStr (ct_thesis c));
    field "entry" (VArr (map condition_json (ct_entry c))); field "invalidation" (VArr (map condition_json (ct_invalidation c)));
    field "expiresAt" (VStr (ct_expiresAt c)); field "reviewAt" (VStr (ct_reviewAt c)); field "risk" (VStr (ct_risk c));
    opt_field "proposedSizeNotes" VStr (ct_proposedSizeNotes c); opt_field "proposedStopNotes" VStr (ct_proposedStopNotes c);
    field "evidence" (VArr (map evidence_json (ct_evidence c)))])%string.

Record ObservedFact := { of_fact : PlanFact; of_value : number; of_observedAt : number }.
Record PlanObservation := {
  po_version : Z;
  po_at : string;
  po_entry : TriState;
  po_invalidation : TriState;
  po_expired : bool;
  po_reviewDue : bool;
  po_facts : list ObservedFact;
  po_limitations : list string
}.

Definition observation_json (o : PlanObservation) : value :=
  VObj [("version", num_Z (po_version o)); ("at", VStr (po_at o)); ("entry", VStr (tri_name (po_entry o)));
        ("invalidation", VStr (tri_name (po_invalidation o))); ("expired", VBool (po_expired o)); ("reviewDue", VBool (po_reviewDue o));
        ("facts", VArr (map (fun f => VObj [("fact", VStr (fact_name (of_fact f))); ("value", VNum (of_value f));
                                            ("observedAt", VNum (of_observedAt f))]) (po_facts o)));
        ("limitations", VArr (map VStr (po_limitations o)))]%string.

(** [orders] and [positions] are kept as they are. *)
Record PlanAccountObservation := {
  pa_version : Z;
  pa_at : string;
  pa_status : string;
  pa_orders : list value;
  pa_protection : string;
  pa_positions : list value;
  pa_limitations : list string
}.

Definition account_json (orders : list value) (o : PlanAccountObservation) : value :=
  VObj [("version", num_Z (pa_version o)); ("at", VStr (pa_at o)); ("status", VStr (pa_status o)); ("orders", VArr orders);
        ("protection", VStr (pa_protection o)); ("positions", VArr (pa_positions o)); ("limitations", VArr (map VStr (pa_limitations o)))]%string.

Inductive PlanStatus := Draft | Tracking | Archived.
#[export] Instance PlanStatus_eq_dec : EqDecision PlanStatus.
Proof. solve_decision. Defined.

Inductive NoteAuthor := ByModel | ByOperator.

Record PlanVersion := { pv_version : Z; pv_epoch : Z; pv_at : string; pv_content : PlanContent }.
Record PlanNote := { no_at : string; no_author : NoteAuthor; no_text : string }.
Record PlanEvent := { ev_id : string; ev_at : string; ev_version : Z; ev_kind : string; ev_detail : string }.
(** [pi_proposal] is what the stored text of the proposal parses to. *)
Record PlanIntent := { pi_id : string; pi_version : Z; pi_engineIntentId : string; pi_fingerprint : string; pi_proposal : value; pi_at : string }.
Record PlanExecution := { px_record : ExecutionRecord; px_fee : option number }.

Record TradePlan := {
  tp_id : string;
  tp_scope : ExecutionScope;
  tp_revision : Z;
  tp_status : PlanStatus;
  tp_activeVersion : option Z;
  tp_versions : list PlanVersion;
  tp_notes : list PlanNote;
  tp_observation : option PlanObservation;
  tp_accountObservation : option PlanAccountObservation;
  tp_events : list PlanEvent;
  tp_intents : list PlanIntent;
  tp_executions : list PlanExecution
}.

Record PlanState := {
  ps_plans : list TradePlan;
  ps_epochs : obj Z;
  ps_monitoring : option MonitoringState;
  ps_queryOffsets : option (obj Z)
}.

Definition initial_plans : PlanState := {| ps_plans := []; ps_epochs := []; ps_monitoring := None; ps_queryOffsets := None |}.

(** Scopes that were validated have the same fields. *)
Definition sameScope (l r : ExecutionScope) : bool := bool_decide (l = r).

(** [plan.versions[n - 1]] *)
Definition version_at (n : Z) (p : TradePlan) : option PlanVersion := if (1 <=? n)%Z then tp_versions p !! Z.to_nat (n - 1) else None.

Definition with_plans (l : list TradePlan) (s : PlanState) : PlanState :=
  {| ps_plans := l; ps_epochs := ps_epochs s; ps_monitoring := ps_monitoring s; ps_queryOffsets := ps_queryOffsets s |}.
Definition with_monitoring (m : MonitoringState) (s : PlanState) : PlanState :=
  {| ps_plans := ps_plans s; ps_epochs := ps_epochs s; ps_monitoring := Some m; ps_queryOffsets := ps_queryOffsets s |}.
Definition with_epochs (e : obj Z) (s : PlanState) : PlanState :=
  {| ps_plans := ps_plans s; ps_epochs := e; ps_monitoring := ps_monitoring s; ps_queryOffsets := ps_queryOffsets s |}.

(** ** Validation (model.ts) *)

Section Plans.
Variable sha256 : string -> string.
(** [Date.parse] *)
Variable parseDate : string -> number.
(** The typebox checks of the schemas of contents, states and proposals. *)
Variable check_content : PlanContent -> bool.
Variable check_state : PlanState -> bool.
Variable check_proposal : value -> bool.
(** The validators of what the notifications' scopes keep besides them, and the bound on the bytes of the file. *)
Variable rest_ok : value -> bool.
Variable fits : PlanState -> bool.

Definition planScopeKey (scope : ExecutionScope) : string :=
  sha256 (stringify (VArr [VStr (sc_accountId scope); VStr (mode_name (sc_mode scope)); VStr (sc_exchange scope);
    VStr (market_name (sc_marketType scope)); VStr (sc_quoteCurrency scope); VStr (position_mode_name (sc_positionMode scope))])).

Definition planIntentFingerprint (descriptor : value) : PlanResult string :=
  identity ← planIntentIdentity descriptor; text ← canonicalPlanValue identity; Ok (sha256 text).

Definition planExecutionMatchesProposal (proposal : value) (record : ExecutionRecord) : PlanResult bool :=
  if check_proposal proposal then
    saved ← normalizedPlanIntent (prop "intent" proposal);
    made ← normalizedPlanIntent (intent_value (ex_intent record));
    Ok (String.eqb saved made)
  else Ok false.

(** [new Date(value).toISOString() === value] *)
Definition canonicalTime (s : string) : bool := iso s.

Definition validatePlanContent (c : PlanContent) : PlanResult unit :=
  _ ← throwIf (negb (check_content c) || (8192 <? lengthZ (stringify (content_json c)))%Z) InvalidContent;
  throwIf (negb (canonicalTime (ct_expiresAt c)) || negb (canonicalTime (ct_reviewAt c)) || text_before (ct_expiresAt c) (ct_reviewAt c)
           || negb (forallb (fun e => canonicalTime (pe_observedAt e)) (ct_evidence c))) InvalidDates.

(** The versions from [index] on: numbered in order, of one symbol. *)
Fixpoint versions_ok (symbol : string) (index : Z) (l : list PlanVersion) : bool :=
  match l with
  | [] => true
  | v :: rest =>
      isOk (validatePlanContent (pv_content v)) && (pv_version v =? index + 1)%Z && canonicalTime (pv_at v)
      && String.eqb (ct_symbol (pv_content v)) symbol && versions_ok symbol (index + 1) rest
  end.

(** [plan.versions[0].content.symbol] *)
Definition plan_symbol (p : TradePlan) : string := match tp_versions p with v :: _ => ct_symbol (pv_content v) | [] => "" end.

Definition reference_is (p : TradePlan) (r : ExecutionRecord) (version : Z) : bool :=
  match ex_reference r with
  | Some ref => String.eqb (ref_kind ref) "trade-plan" && String.eqb (ref_id ref) (tp_id p) && (ref_version ref =? version)%Z
  | None => false
  end.
Definition intent_of_record (r : ExecutionRecord) (i : PlanIntent) : bool :=
  match ex_intentId r with Some id => String.eqb (pi_engineIntentId i) id | None => false end.

Definition has_version (n : Z) (p : TradePlan) : bool := match version_at n p with Some _ => true | None => false end.

Definition archived_ok (p : TradePlan) (x : PlanExecution) : bool :=
  let r := px_record x in
  isExecutionJournalState (VObj [("version", num_Z 1); ("records", VArr [record_value r])])%string
  && sameScope (ex_scope r) (tp_scope p)
  && existsb (fun i => reference_is p r (pi_version i) && intent_of_record r i
                       && match planExecutionMatchesProposal (pi_proposal i) r with Ok b => b | Throw _ => false end) (tp_intents p).

Definition plan_ok (p : TradePlan) : bool :=
  versions_ok (plan_symbol p) 0 (tp_versions p)
  && match tp_activeVersion p with Some n => has_version n p | None => negb (bool_decide (tp_status p = Tracking)) end
  && forallb canonicalTime (concat [map no_at (tp_notes p); map ev_at (tp_events p); map pi_at (tp_intents p)])
  && distinct (map ev_id (tp_events p))
  && distinct (map (fun i => String.append (show_digits (pi_version i)) (String.append ":" (pi_id i))) (tp_intents p))
  && forallb (fun n => has_version n p) (app (map ev_version (tp_events p)) (map pi_version (tp_intents p)))
  && forallb (fun i => match planIntentFingerprint (pi_proposal i) with Ok f => String.eqb f (pi_fingerprint i) | Throw _ => false end) (tp_intents p)
  && match tp_observation p with
     | Some o => canonicalTime (po_at o) && bool_decide (tp_activeVersion p = Some (po_version o))
                 && distinct (map (fun f => fact_name (of_fact f)) (po_facts o))
     | None => true
     end
  && match tp_accountObservation p with
     | Some o => canonicalTime (pa_at o) && bool_decide (tp_activeVersion p = Some (pa_version o))
     | None => true
     end
  && forallb (archived_ok p) (tp_executions p).

Definition validatePlanState (s : PlanState) : bool :=
  check_state s
  && match ps_monitoring s with Some m => validateMonitoringState rest_ok m | None => true end
  && distinct (map tp_id (ps_plans s)) && forallb plan_ok (ps_plans s).

(** ** The store (store.ts) *)

(** The readings of the clock and the identities an operation draws. *)
Record PlanDraws := {
  pd_at : Z;
  pd_expiry : Z;
  pd_cancel : Z;
  pd_event : Z;
  pd_id : string;
  pd_eventId : string;
  pd_noticeId : string
}.

Definition epoch_of (s : PlanState) (scope : ExecutionScope) : Z := default 0%Z (o_get (planScopeKey scope) (ps_epochs s)).

(** [this.find]: the index of the plan, and the plan. *)
Fixpoint find_plan (id : string) (scope : ExecutionScope) (index : nat) (l : list TradePlan) : PlanResult (nat * TradePlan) :=
  match l with
  | [] => Throw PlanMissing
  | p :: rest => if String.eqb (tp_id p) id && sameScope (tp_scope p) scope then Ok (index, p) else find_plan id scope (S index) rest
  end.
Definition findPlan (s : PlanState) (id : string) (scope : ExecutionScope) : PlanResult (nat * TradePlan) := find_plan id scope 0 (ps_plans s).
Definition put_plan (i : nat) (p : TradePlan) (s : PlanState) : PlanState := with_plans (<[i:=p]> (ps_plans s)) s.

(** [this.event]: the last slot is for the end of the tracking. *)
Definition add_event (d : PlanDraws) (kind detail : string) (version : Z) (p : TradePlan) : PlanResult TradePlan :=
  let limit := if String.eqb kind "archived" || String.eqb kind "paper-reset" then MAX_EVENTS else (MAX_EVENTS - 1)%nat in
  _ ← throwIf (limit <=? length (tp_events p))%nat EventCapacity;
  Ok {| tp_id := tp_id p; tp_scope := tp_scope p; tp_revision := tp_revision p; tp_status := tp_status p; tp_activeVersion := tp_activeVersion p;
        tp_versions := tp_versions p; tp_notes := tp_notes p; tp_observation := tp_observation p; tp_accountObservation := tp_accountObservation p;
        tp_events := app (tp_events p) [{| ev_id := pd_eventId d; ev_at := toISOString (pd_event d); ev_version := version; ev_kind := kind; ev_detail := detail |}];
        tp_intents := tp_intents p; tp_executions := tp_executions p |}.
Definition latest_version (p : TradePlan) : Z := Z.of_nat (length (tp_versions p)).

Definition monitored {A} (r : result MonitoringError A) : PlanResult A := mapError MonitoringFailure r.

(** Notifications of the plan that are not finished are cancelled. *)
Definition cancel_of (id : string) (now : number) (e : MonitoringNotification) : MonitoringNotification :=
  if match nt_planReference (n_notice e) with Some r => String.eqb (rf_id r) id | None => false end && negb (event_finished e)
  then finish_as CancelledUnsent now e else e.

Definition cancel_in (m : MonitoringState) (p : TradePlan) (now : number) : PlanResult (nat * MonitoringState) :=
  r ← monitored (ensureMonitoringScope m (monitoring_scope (tp_scope p)) now);
  Ok (fst r, alter (fun entry => with_notifications (map (cancel_of (tp_id p) now) (ss_notifications entry)) entry) (fst r) (snd r)).

Definition cancelNotifications (s : PlanState) (p : TradePlan) (now : number) : PlanResult PlanState :=
  match ps_monitoring s with
  | None => Ok s
  | Some m => r ← cancel_in m p now; Ok (with_monitoring (snd r) s)
  end.

Definition observation_text (p : TradePlan) : string :=
  stringify (VObj [("condition", match tp_observation p with Some o => observation_json o | None => VNull end);
                   ("totalOrders", num_Z (match tp_accountObservation p with Some o => Z.of_nat (length (pa_orders o)) | None => 0 end));
                   ("account", match tp_accountObservation p with Some o => account_json (firstn 20 (pa_orders o)) o | None => VNull end)])%string.

Definition observation_notice (p : TradePlan) (eventId : string) : Notice :=
  {| nt_source := FromPlans; nt_customType := "trade-plan-observation"; nt_content := observation_text p; nt_notices := [];
     nt_warning := match tp_observation p with Some o => bool_decide (po_invalidation o = TTrue) | None => false end
                   || match tp_accountObservation p with Some o => String.eqb (pa_protection o) "none" | None => false end;
     nt_wake := false; nt_triggerRevision := None;
     nt_planReference := Some {| rf_id := tp_id p; rf_version := default 0%Z (tp_activeVersion p); rf_eventId := eventId |} |}.

Definition delivered_of (id : string) (e : MonitoringNotification) : bool :=
  match nt_planReference (n_notice e) with Some r => String.eqb (rf_id r) id | None => false end && bool_decide (n_status e = Delivered).

Definition retimed (at_ : number) (e : MonitoringNotification) : MonitoringNotification :=
  {| n_id := n_id e; n_notice := n_notice e; n_createdAt := n_createdAt e; n_expiresAt := n_expiresAt e; n_status := n_status e;
     n_attempts := n_attempts e; n_nextAttemptAt := at_; n_lease := n_lease e; n_finishedAt := n_finishedAt e |}.

(** At most one notification of a plan waits, and a minute passes after the last that was delivered. *)
Definition queueObservation (d : PlanDraws) (s : PlanState) (p : TradePlan) (now : number) : PlanResult PlanState :=
  first ← monitored (ensureMonitoringScope (default [] (ps_monitoring s)) (monitoring_scope (tp_scope p)) now);
  r ← cancel_in (snd first) p now;
  entry ← match snd r !! fst r with Some entry => Ok entry | None => Throw (MonitoringFailure NotificationMissing) end;
  let lastDelivered := fold_left (fun m e => Math_max m (default 0 (n_finishedAt e)))
                         (List.filter (delivered_of (tp_id p)) (ss_notifications entry)) 0 in
  let eventId := match last (tp_events p) with Some e => ev_id e | None => ""%string end in
  entry' ← monitored (enqueueMonitoringNotification (pd_noticeId d) (observation_notice p eventId) now None entry);
  let notifications := match find_event (pd_noticeId d) entry' with
                       | Some e => update_found (pd_noticeId d) (retimed (Math_max now (lastDelivered + 60000)) e) (ss_notifications entry')
                       | None => ss_notifications entry'
                       end in
  Ok (with_monitoring (<[fst r := with_notifications notifications entry']> (snd r)) s).

(** *** The agent's operations *)

Definition draft (d : PlanDraws) (s : PlanState) (scope : ExecutionScope) (number_ : Z) (content : PlanContent) : PlanVersion :=
  {| pv_version := number_; pv_epoch := epoch_of s scope; pv_at := toISOString (pd_at d); pv_content := content |}.

Definition content_allowed (scope : ExecutionScope) (content : PlanContent) : PlanResult unit :=
  _ ← validatePlanContent content;
  throwIf (negb (validateTradingSymbol (ct_symbol content) (sc_marketType scope) (sc_quoteCurrency scope))) InvalidSymbol.

Definition createPlan (d : PlanDraws) (scope : ExecutionScope) (content : PlanContent) (s : PlanState) : PlanResult (TradePlan * PlanState) :=
  _ ← content_allowed scope content;
  _ ← throwIf (MAX_PLANS <=? length (ps_plans s))%nat PlanCapacity;
  p ← add_event d "created" "Model-authored research; not trading authorization" 1
        {| tp_id := pd_id d; tp_scope := scope; tp_revision := 1; tp_status := Draft; tp_activeVersion := None;
           tp_versions := [draft d s scope 1 content]; tp_notes := []; tp_observation := None; tp_accountObservation := None;
           tp_events := []; tp_intents := []; tp_executions := [] |};
  Ok (p, with_plans (app (ps_plans s) [p]) s).

Definition with_version (v : PlanVersion) (p : TradePlan) : TradePlan :=
  {| tp_id := tp_id p; tp_scope := tp_scope p; tp_revision := tp_revision p + 1; tp_status := tp_status p; tp_activeVersion := tp_activeVersion p;
     tp_versions := app (tp_versions p) [v]; tp_notes := tp_notes p; tp_observation := tp_observation p;
     tp_accountObservation := tp_accountObservation p; tp_events := tp_events p; tp_intents := tp_intents p; tp_executions := tp_executions p |}.

Definition revise (d : PlanDraws) (id : string) (scope : ExecutionScope) (expectedRevision : Z) (content : PlanContent) (s : PlanState) :
    PlanResult (TradePlan * PlanState) :=
  _ ← content_allowed scope content;
  f ← findPlan s id scope;
  let p := snd f in
  _ ← throwIf (negb (tp_revision p =? expectedRevision)%Z) RevisionConflict;
  _ ← throwIf (MAX_VERSIONS <=? length (tp_versions p))%nat VersionCapacity;
  let p := with_version (draft d s scope (latest_version p + 1) content) p in
  p ← add_event d "revised" "New draft; existing approved version is unchanged" (latest_version p) p;
  Ok (p, put_plan (fst f) p s).

Definition noted (n : PlanNote) (p : TradePlan) : TradePlan :=
  {| tp_id := tp_id p; tp_scope := tp_scope p; tp_revision := tp_revision p; tp_status := tp_status p; tp_activeVersion := tp_activeVersion p;
     tp_versions := tp_versions p; tp_notes := app (tp_notes p) [n]; tp_observation := tp_observation p;
     tp_accountObservation := tp_accountObservation p; tp_events := tp_events p; tp_intents := tp_intents p; tp_executions := tp_executions p |}.

(** The bytes of a text in UTF-8 are those of its WTF-8. *)
Definition note (d : PlanDraws) (id : string) (scope : ExecutionScope) (text : string) (author : NoteAuthor) (s : PlanState) :
    PlanResult (unit * PlanState) :=
  _ ← throwIf (blank text || (4096 <? lengthZ text)%Z) InvalidNote;
  f ← findPlan s id scope;
  _ ← throwIf (MAX_NOTES <=? length (tp_notes (snd f)))%nat NoteCapacity;
  Ok (tt, put_plan (fst f) (noted {| no_at := toISOString (pd_at d); no_author := author; no_text := text |} (snd f)) s).

(** *** The operator's operations *)

(** The status, the active version and a step of the revision; observations are dropped on demand. *)
Definition status_moved (status : PlanStatus) (active : option Z) (drop : bool) (p : TradePlan) : TradePlan :=
  {| tp_id := tp_id p; tp_scope := tp_scope p; tp_revision := tp_revision p + 1; tp_status := status; tp_activeVersion := active;
     tp_versions := tp_versions p; tp_notes := tp_notes p; tp_observation := if drop then None else tp_observation p;
     tp_accountObservation := if drop then None else tp_accountObservation p; tp_events := tp_events p; tp_intents := tp_intents p;
     tp_executions := tp_executions p |}.

Definition tracked_in (scope : ExecutionScope) (p : TradePlan) : bool := sameScope (tp_scope p) scope && bool_decide (tp_status p = Tracking).

Definition activate (d : PlanDraws) (id : string) (scope : ExecutionScope) (expectedRevision : Z) (s : PlanState) : PlanResult (TradePlan * PlanState) :=
  f ← findPlan s id scope;
  let p := snd f in
  _ ← throwIf (negb (tp_revision p =? expectedRevision)%Z) RevisionConflict;
  latest ← match last (tp_versions p) with Some v => Ok v | None => Throw InvalidState end;
  _ ← throwIf (negb (pv_epoch latest =? epoch_of s scope)%Z) StaleEpoch;
  _ ← throwIf (parseDate (ct_expiresAt (pv_content latest)) <=? of_Z (pd_expiry d)) ExpiredPlan;
  _ ← throwIf (negb (bool_decide (tp_status p = Tracking)) && (MAX_ACTIVE <=? length (List.filter (tracked_in scope) (ps_plans s)))%nat) ActiveLimit;
  s ← cancelNotifications s p (of_Z (pd_cancel d));
  let p := status_moved Tracking (Some (pv_version latest)) true p in
  p ← add_event d "activated" "Operator enabled read-only tracking, not order execution" (latest_version p) p;
  Ok (p, put_plan (fst f) p s).

Definition archive (d : PlanDraws) (id : string) (scope : ExecutionScope) (expectedRevision : Z) (s : PlanState) : PlanResult (unit * PlanState) :=
  f ← findPlan s id scope;
  let p := snd f in
  _ ← throwIf (negb (tp_revision p =? expectedRevision)%Z) RevisionConflict;
  if bool_decide (tp_status p = Archived) then Ok (tt, s)
  else
    s ← cancelNotifications s p (of_Z (pd_cancel d));
    p ← add_event d "archived" "Orders and positions are unchanged" (latest_version p) (status_moved Archived (tp_activeVersion p) false p);
    Ok (tt, put_plan (fst f) p s).

Definition remove (d : PlanDraws) (id : string) (scope : ExecutionScope) (expectedRevision : Z) (s : PlanState) : PlanResult (unit * PlanState) :=
  f ← findPlan s id scope;
  let p := snd f in
  _ ← throwIf (negb (tp_revision p =? expectedRevision)%Z) RevisionConflict;
  _ ← throwIf (negb (bool_decide (tp_status p = Archived)) || negb (Nat.eqb (length (tp_intents p)) 0)) EvidenceLinked;
  s ← cancelNotifications s p (of_Z (pd_cancel d));
  Ok (tt, with_plans (delete (fst f) (ps_plans s)) s).

(** *** The monitor's operations *)

Definition observed_plan (o : option PlanObservation) (a : option PlanAccountObservation) (p : TradePlan) : TradePlan :=
  {| tp_id := tp_id p; tp_scope := tp_scope p; tp_revision := tp_revision p; tp_status := tp_status p; tp_activeVersion := tp_activeVersion p;
     tp_versions := tp_versions p; tp_notes := tp_notes p; tp_observation := o; tp_accountObservation := a;
     tp_events := tp_events p; tp_intents := tp_intents p; tp_executions := tp_executions p |}.

Definition observation_changed (previous : option PlanObservation) (o : PlanObservation) : bool :=
  match previous with
  | None => true
  | Some q => negb (bool_decide (po_entry q = po_entry o)) || negb (bool_decide (po_invalidation q = po_invalidation o))
              || negb (Bool.eqb (po_expired q) (po_expired o)) || negb (Bool.eqb (po_reviewDue q) (po_reviewDue o))
  end.
Definition observation_kind (baseline : bool) (previous : option PlanObservation) (o : PlanObservation) : string :=
  match previous with
  | Some q => if baseline || (300000 <? parseDate (po_at o) - parseDate (po_at q)) then "observation-resumed" else "condition-change"
  | None => "condition-change"
  end.
Definition observation_detail (o : PlanObservation) : string :=
  stringify (VObj [("entry", VStr (tri_name (po_entry o))); ("invalidation", VStr (tri_name (po_invalidation o)));
                   ("expired", VBool (po_expired o)); ("reviewDue", VBool (po_reviewDue o))])%string.

(** Whether the plan still tracks the version, and nothing as late was observed. *)
Definition outdated (p : TradePlan) (version : Z) (at_ : string) (previous : option string) : bool :=
  negb (bool_decide (tp_status p = Tracking) && bool_decide (tp_activeVersion p = Some version))
  || match previous with Some before => negb (text_before before at_) | None => false end.

Definition last_event (p : TradePlan) : option string := option_map ev_id (last (tp_events p)).

Definition observePlan (d : PlanDraws) (id : string) (scope : ExecutionScope) (o : PlanObservation) (baseline : bool) (s : PlanState) :
    PlanResult (option string * PlanState) :=
  f ← findPlan s id scope;
  let p := snd f in
  if outdated p (po_version o) (po_at o) (option_map po_at (tp_observation p)) then Ok (None, s)
  else
    let q := observed_plan (Some o) (tp_accountObservation p) p in
    if negb (observation_changed (tp_observation p) o) then Ok (None, put_plan (fst f) q s)
    else
      q ← add_event d (observation_kind baseline (tp_observation p) o) (observation_detail o) (po_version o) q;
      s ← queueObservation d s q (parseDate (po_at o));
      Ok (last_event q, put_plan (fst f) q s).

Definition same_json (a b : value) : bool := String.eqb (stringify a) (stringify b).
Definition account_changed (previous : option PlanAccountObservation) (o : PlanAccountObservation) : bool :=
  match previous with
  | None => true
  | Some q => negb (String.eqb (pa_status q) (pa_status o)) || negb (String.eqb (pa_protection q) (pa_protection o))
              || negb (same_json (VArr (pa_orders q)) (VArr (pa_orders o))) || negb (same_json (VArr (pa_positions q)) (VArr (pa_positions o)))
  end.
Definition account_detail (previous : option PlanAccountObservation) (o : PlanAccountObservation) : string :=
  stringify (VObj [("status", VStr (pa_status o)); ("protection", VStr (pa_protection o)); ("positions", VArr (pa_positions o));
                   ("orderCount", num_Z (Z.of_nat (length (pa_orders o))));
                   ("changedOrders", VArr (firstn 1 (List.filter (fun order =>
                      negb (match previous with Some q => existsb (fun old => same_json old order) (pa_orders q) | None => false end)) (pa_orders o))))])%string.

Definition observeAccount (d : PlanDraws) (id : string) (scope : ExecutionScope) (o : PlanAccountObservation) (s : PlanState) :
    PlanResult (option string * PlanState) :=
  f ← findPlan s id scope;
  let p := snd f in
  if outdated p (pa_version o) (pa_at o) (option_map pa_at (tp_accountObservation p)) then Ok (None, s)
  else
    let q := observed_plan (tp_observation p) (Some o) p in
    if negb (account_changed (tp_accountObservation p) o) then Ok (None, put_plan (fst f) q s)
    else
      q ← add_event d "account-observation" (account_detail (tp_accountObservation p) o) (pa_version o) q;
      s ← queueObservation d s q (parseDate (pa_at o));
      Ok (last_event q, put_plan (fst f) q s).

(** A transaction on the notifications of the file, [this.monitoring.transact]. *)
Definition on_monitoring {A} (f : MonitoringState -> result MonitoringError (A * MonitoringState)) (s : PlanState) : PlanResult (A * PlanState) :=
  r ← monitored (f (default [] (ps_monitoring s)));
  Ok (fst r, with_monitoring (snd r) s).

Definition recordMonitorHealth (d : PlanDraws) (scope : ExecutionScope) (observedAt : option number) (failed : bool) : PlanState -> PlanResult (unit * PlanState) :=
  on_monitoring (on_scope (monitoring_scope scope) (of_Z (pd_at d)) (fun entry =>
    (tt, recordMonitoringObservation FromPlans (of_Z (pd_event d)) observedAt failed entry))).

(** *** The Paper reset *)

Definition same_paper_account (scope other : ExecutionScope) : bool :=
  bool_decide (sc_mode other = Paper) && String.eqb (sc_accountId other) (sc_accountId scope).

(** [new Set(keys)], each with its next epoch. *)
Fixpoint next_epochs (keys : list string) (seen : list string) (epochs : obj Z) : obj Z :=
  match keys with
  | [] => epochs
  | k :: rest =>
      if str_in seen k then next_epochs rest seen epochs
      else next_epochs rest (k :: seen) (o_set k (default 0%Z (o_get k epochs) + 1)%Z epochs)
  end.

Definition reset_plan (d : PlanDraws) (p : TradePlan) (s : PlanState) : PlanResult (TradePlan * PlanState) :=
  s ← cancelNotifications s p (of_Z (pd_cancel d));
  p ← add_event d "paper-reset" "Old evidence preserved; a new version and operator activation are required" (latest_version p)
        (status_moved Archived (tp_activeVersion p) true p);
  Ok (p, s).

(** The plans of the account from [index] on. *)
Fixpoint reset_plans (ds : nat -> PlanDraws) (scope : ExecutionScope) (l : list TradePlan) (index : nat) (s : PlanState) : PlanResult PlanState :=
  match l with
  | [] => Ok s
  | p :: rest =>
      if same_paper_account scope (tp_scope p) && negb (bool_decide (tp_status p = Archived)) then
        r ← reset_plan (ds index) p s;
        reset_plans ds scope rest (S index) (put_plan index (fst r) (snd r))
      else reset_plans ds scope rest (S index) s
  end.

Definition markPaperReset (ds : nat -> PlanDraws) (scope : ExecutionScope) (s : PlanState) : PlanResult (unit * PlanState) :=
  _ ← throwIf (negb (bool_decide (sc_mode scope = Paper))) PaperOnly;
  let scopes := scope :: map tp_scope (List.filter (fun p => same_paper_account scope (tp_scope p)) (ps_plans s)) in
  s ← reset_plans ds scope (ps_plans s) 0 (with_epochs (next_epochs (map planScopeKey scopes) [] (ps_epochs s)) s);
  Ok (tt, s).

(** *** Intents and executions *)

Definition intents_with (l : list PlanIntent) (p : TradePlan) : TradePlan :=
  {| tp_id := tp_id p; tp_scope := tp_scope p; tp_revision := tp_revision p; tp_status := tp_status p; tp_activeVersion := tp_activeVersion p;
     tp_versions := tp_versions p; tp_notes := tp_notes p; tp_observation := tp_observation p; tp_accountObservation := tp_accountObservation p;
     tp_events := tp_events p; tp_intents := l; tp_executions := tp_executions p |}.
Definition executions_with (l : list PlanExecution) (p : TradePlan) : TradePlan :=
  {| tp_id := tp_id p; tp_scope := tp_scope p; tp_revision := tp_revision p; tp_status := tp_status p; tp_activeVersion := tp_activeVersion p;
     tp_versions := tp_versions p; tp_notes := tp_notes p; tp_observation := tp_observation p; tp_accountObservation := tp_accountObservation p;
     tp_events := tp_events p; tp_intents := tp_intents p; tp_executions := l |}.

Definition intent_key (intentId : string) (version : Z) (i : PlanIntent) : bool := String.eqb (pi_id i) intentId && (pi_version i =? version)%Z.

Definition engine_intent (scope : ExecutionScope) (id : string) (version : Z) (intentId : string) : string :=
  sha256 (String.append (planScopeKey scope) (String.append ":" (String.append id (String.append ":"
    (String.append (show_digits version) (String.append ":" intentId)))))).

Definition saveIntent (d : PlanDraws) (id : string) (scope : ExecutionScope) (version : Z) (intentId : string) (descriptor : value) (s : PlanState) :
    PlanResult (string * PlanState) :=
  _ ← throwIf (negb (identifier intentId)) InvalidIntentId;
  proposal ← canonical descriptor;
  fingerprint ← planIntentFingerprint descriptor;
  f ← findPlan s id scope;
  let p := snd f in
  match find (intent_key intentId version) (tp_intents p) with
  | Some existing =>
      _ ← throwIf (negb (String.eqb (pi_fingerprint existing) fingerprint)) IntentConflict;
      Ok (pi_engineIntentId existing, s)
  | None =>
      _ ← throwIf (MAX_EVENTS <=? length (tp_intents p))%nat IntentCapacity;
      let engineIntentId := engine_intent scope id version intentId in
      Ok (engineIntentId,
          put_plan (fst f) (intents_with (app (tp_intents p)
            [{| pi_id := intentId; pi_version := version; pi_engineIntentId := engineIntentId; pi_fingerprint := fingerprint;
                pi_proposal := proposal; pi_at := toISOString (pd_at d) |}]) p) s)
  end.

(** Whether a saved intent of the version is that of the record, the first that matches. *)
Fixpoint saved_intent (r : ExecutionRecord) (version : Z) (l : list PlanIntent) : PlanResult bool :=
  match l with
  | [] => Ok false
  | i :: rest =>
      if (pi_version i =? version)%Z && intent_of_record r i then
        matches ← planExecutionMatchesProposal (pi_proposal i) r;
        if (matches : bool) then Ok true else saved_intent r version rest
      else saved_intent r version rest
  end.

(** The record without the acknowledgement of its archive. *)
Definition snapshot_value (r : ExecutionRecord) : value := without ["archiveAcknowledgedRevision"%string] (record_value r).

Definition archiveExecution (r : ExecutionRecord) (s : PlanState) : PlanResult (unit * PlanState) :=
  reference ← match ex_reference r with
              | Some ref => if String.eqb (ref_kind ref) "trade-plan" then Ok ref else Throw NotAPlanReference
              | None => Throw NotAPlanReference
              end;
  f ← findPlan s (ref_id reference) (ex_scope r);
  let p := snd f in
  saved ← (if has_version (ref_version reference) p then saved_intent r (ref_version reference) (tp_intents p) else Ok false);
  _ ← throwIf (negb saved) NoMatchingIntent;
  match find (fun x => String.eqb (ex_id (px_record x)) (ex_id r) && (ex_revision (px_record x) =? ex_revision r)%Z) (tp_executions p) with
  | Some x =>
      stored ← canonicalPlanValue (snapshot_value (px_record x));
      current ← canonicalPlanValue (snapshot_value r);
      _ ← throwIf (negb (String.eqb stored current)) SnapshotConflict;
      Ok (tt, s)
  | None =>
      _ ← throwIf (MAX_EVENTS <=? length (tp_executions p))%nat ExecutionCapacity;
      Ok (tt, put_plan (fst f) (executions_with (app (tp_executions p)
                [{| px_record := r; px_fee := observedExecutionFee (ex_scope r) (ex_evidence r) |}]) p) s)
  end.

Definition claimQueryOffset (scope : ExecutionScope) (count pageSize : Z) (s : PlanState) : PlanResult (Z * PlanState) :=
  _ ← throwIf (negb (safe count) || (count <? 1)%Z || negb (safe pageSize) || (pageSize <? 1)%Z) InvalidWindow;
  let offsets := default [] (ps_queryOffsets s) in
  let key := planScopeKey scope in
  let offset := (default 0 (o_get key offsets) mod count)%Z in
  Ok (offset, {| ps_plans := ps_plans s; ps_epochs := ps_epochs s; ps_monitoring := ps_monitoring s;
                 ps_queryOffsets := Some (o_set key (trunc (of_Z offset + of_Z pageSize) mod count)%Z offsets) |}).

(** *** Transactions (private-store.ts)

    The result is stored when the state is valid and its file not too large. *)
Definition transactPlans {A} (operation : PlanState -> PlanResult (A * PlanState)) (s : PlanState) : PlanResult (A * PlanState) :=
  r ← operation s;
  _ ← throwIf (negb (validatePlanState (snd r))) InvalidState;
  _ ← throwIf (negb (fits (snd r))) StateCapacity;
  Ok r.
End Plans.
