(* ===== verification/PlanGate.v ===== *)
(** * Submissions under a plan (packages/trading-agent/src/plans/runtime.ts)

    The evaluation of a plan's conditions on observed facts, and the gate that a submission which
    names a plan passes before it is prepared and again before it is sent. *)

From Stdlib Require Import ZArith Lia Bool Ascii Floats.
From stdpp Require Import base strings option list.
From S2P Require Import Prelude JsNumber JsObject JsDate JsValue JsText AccountRisk RiskState Execution ExecutionJournal Triggers Outbox TradePlans.

Local Open Scope float_scope.

Definition period (t : PlanTimeframe) : number :=
  match t with
  | OneMinute => 60000 | FiveMinutes => 300000 | FifteenMinutes => 900000 | OneHour => 3600000 | FourHours => 14400000 | OneDay => 86400000
  end.

Record SubmissionReference := { sr_id : string; sr_version : Z; sr_intentId : string }.
Record PlanSubmission := {
  su_intent : ExecutionIntent;
  su_countTowardsDailyLimit : bool;
  su_protectionStopPrice : option number;
  su_referencePrice : option number;
  su_referenceTimestamp : option number
}.

Definition submission_json (u : PlanSubmission) : value :=
  VObj (concat [field "intent" (intent_value (su_intent u)); field "countTowardsDailyLimit" (VBool (su_countTowardsDailyLimit u));
    opt_field "protectionStopPrice" VNum (su_protectionStopPrice u); opt_field "referencePrice" VNum (su_referencePrice u);
    opt_field "referenceTimestamp" VNum (su_referenceTimestamp u)])%string.

(** What the engine answers: [getExecutionScope()] and [getExecutionStatus()]. *)
Record EngineView := { vw_scope : ExecutionScope; vw_staleRuntime : bool; vw_maintenance : bool }.

(** ** Evaluation *)

(** The facts of an evaluation, by name. *)
Definition fact_of (value observedAt : number) : FactValue :=
  {| f_value := SNum value; f_observedAt := observedAt; f_previousValue := None; f_previousObservedAt := None; f_history := None; f_quality := None |}.
Definition snapshot (l : list ObservedFact) : FactSnapshot :=
  fold_left (fun o f => o_set (fact_name (of_fact f)) (fact_of (of_value f) (of_observedAt f)) o) l [].

Definition age_limit (t : PlanTimeframe) (key : string) : number :=
  if String.eqb key "closed_price" then period t + PLAN_MAX_AGE_MS else PLAN_MAX_AGE_MS.
Definition fresh_facts (t : PlanTimeframe) (now : number) (facts : FactSnapshot) : FactSnapshot :=
  List.filter (fun e => now - f_observedAt (snd e) <=? age_limit t (fst e)) facts.

Definition trigger_operator (o : PlanOperator) : CompareOperator :=
  match o with AboveValue => OpGt | AtLeastValue => OpGte | BelowValue => OpLt | AtMostValue => OpLte end.
Definition trigger_condition (c : PlanCondition) : Condition :=
  CCompare (fact_name (pc_fact c)) (trigger_operator (pc_operator c)) (SNum (pc_value c)).

Section Gate.
Variable parseDate : string -> number.

Definition evaluator_options (t : PlanTimeframe) : EvaluatorOptions :=
  {| o_maxAgeMs := Some (period t + PLAN_MAX_AGE_MS); o_futureToleranceMs := Some 0; o_maxChangeWindowSec := None; o_changeBaselineToleranceMs := None |}.
Definition evaluate_conditions (t : PlanTimeframe) (facts : FactSnapshot) (now : number) (condition : Condition) : PlanResult TriState :=
  r ← mapError BadEvaluation (evaluateCondition parseDate condition (fresh_facts t now facts) now None (evaluator_options t) None);
  Ok (e_state r).

(** [facts[fact]], when it is a number *)
Definition kept_fact (facts : FactSnapshot) (f : PlanFact) : list ObservedFact :=
  match o_get (fact_name f) facts with
  | Some v => match f_value v with SNum n => [{| of_fact := f; of_value := n; of_observedAt := f_observedAt v |}] | _ => [] end
  | None => []
  end.

Definition evaluatePlan (content : PlanContent) (version : Z) (facts : FactSnapshot) (now : Z) (limitations : list string) : PlanResult PlanObservation :=
  let t := ct_timeframe content in
  entry ← evaluate_conditions t facts (of_Z now) (CAll (map trigger_condition (ct_entry content)));
  invalidation ← evaluate_conditions t facts (of_Z now) (CAny (map trigger_condition (ct_invalidation content)));
  Ok {| po_version := version; po_at := toISOString now; po_entry := entry; po_invalidation := invalidation;
        po_expired := parseDate (ct_expiresAt content) <=? of_Z now; po_reviewDue := parseDate (ct_reviewAt content) <=? of_Z now;
        po_facts := app (kept_fact facts PriceFact) (kept_fact facts ClosedPriceFact); po_limitations := limitations |}.

(** ** The gate *)

Variable sha256 : string -> string.

Definition activated (version : Z) (p : TradePlan) : bool :=
  existsb (fun e => String.eqb (ev_kind e) "activated" && (ev_version e =? version)%Z) (tp_events p).

(** [direction === "observe" || (direction === "long" ? "buy" : "sell") !== side] *)
Definition other_direction (d : PlanDirection) (side : OrderSide) : bool :=
  match d with ObservePlan => true | LongPlan => negb (bool_decide (side = Buy)) | ShortPlan => negb (bool_decide (side = Sell)) end.

Definition unsatisfied (o : option PlanObservation) (version : Z) (now : number) : bool :=
  match o with
  | None => true
  | Some o => negb (po_version o =? version)%Z || (now <? parseDate (po_at o)) || (PLAN_MAX_AGE_MS <? now - parseDate (po_at o))
              || po_expired o || negb (bool_decide (po_entry o = TTrue)) || negb (bool_decide (po_invalidation o = TFalse))
  end.

(** What an opening needs besides. *)
Definition validate_opening (p : TradePlan) (v : PlanVersion) (version : Z) (side : OrderSide) (now : Z) : PlanResult unit :=
  _ ← throwIf (negb (bool_decide (tp_status p = Tracking)) || negb (bool_decide (tp_activeVersion p = Some version))) NotTracked;
  _ ← throwIf (parseDate (ct_expiresAt (pv_content v)) <=? of_Z now) ExpiredPlan;
  _ ← throwIf (other_direction (ct_direction (pv_content v)) side) OtherDirection;
  _ ← throwIf (unsatisfied (tp_observation p) version (of_Z now)) UnsatisfiedPlan;
  let facts := match tp_observation p with Some o => po_facts o | None => [] end in
  evaluated ← evaluatePlan (pv_content v) version (snapshot facts) now [];
  throwIf (negb (bool_decide (po_entry evaluated = TTrue)) || negb (bool_decide (po_invalidation evaluated = TFalse))) StaleEvidence.

(** The file of plans is read twice, for the epoch ([se]) and for the plan ([sp]). *)
Definition validatePlanSubmission (view : EngineView) (reference : SubmissionReference) (submission : PlanSubmission) (se sp : PlanState) (now : Z) :
    PlanResult TradePlan :=
  _ ← throwIf (negb (identifier (sr_id reference)) || negb (safe (sr_version reference)) || (sr_version reference <? 1)%Z
               || negb (identifier (sr_intentId reference))) InvalidReference;
  let scope := vw_scope view in
  let generation := epoch_of sha256 se scope in
  _ ← throwIf (vw_staleRuntime view || vw_maintenance view) RuntimeChanged;
  f ← findPlan sp (sr_id reference) scope;
  let p := snd f in
  v ← match version_at (sr_version reference) p with
      | Some v => if activated (sr_version reference) p then Ok v else Throw NotActivated
      | None => Throw NotActivated
      end;
  _ ← throwIf (negb (pv_epoch v =? generation)%Z) ResetAccount;
  _ ← throwIf (negb (String.eqb (ct_symbol (pv_content v)) (intent_symbol (su_intent submission)))) OtherSymbol;
  _ ← (if su_countTowardsDailyLimit submission
       then validate_opening p v (sr_version reference) (intent_side (su_intent submission)) now else Ok tt);
  Ok p.

(** *** The submission *)

Variable check_content : PlanContent -> bool.
Variable check_state : PlanState -> bool.
Variable check_proposal : value -> bool.
Variable rest_ok : value -> bool.
Variable fits : PlanState -> bool.

Abbreviation plan_transaction := (transactPlans sha256 check_content check_state check_proposal rest_ok fits).

(** The submission is checked, and its intent is saved in the file as it is then ([ss]), under the scope as it is then. *)
Definition preparePlanSubmission (d : PlanDraws) (view : EngineView) (reference : SubmissionReference) (submission : PlanSubmission) (se sp : PlanState) (now : Z)
    (scope : ExecutionScope) (ss : PlanState) : PlanResult (string * PlanState) :=
  _ ← validatePlanSubmission view reference submission se sp now;
  plan_transaction (saveIntent sha256 d (sr_id reference) scope (sr_version reference) (sr_intentId reference) (submission_json submission)) ss.
End Gate.

(** ** The plan that is found *)

Lemma find_plan_found id scope l n i p :
  find_plan id scope n l = Ok (i, p) -> exists j, i = (n + j)%nat /\ l !! j = Some p /\ tp_id p = id /\ tp_scope p = scope.
Proof.
  revert n. induction l as [|x l IH]; intros n; cbn; [done|]. destruct (String.eqb (tp_id x) id && sameScope (tp_scope x) scope) eqn:E.
  - intros [= <- <-]. exists 0%nat. apply andb_true_iff in E as [E1 E2]. apply String.eqb_eq in E1. apply bool_decide_eq_true in E2.
    split_and!; [lia|done|done|done].
  - intros H. destruct (IH _ H) as (j & -> & Hj & H1 & H2). exists (S j). split_and!; [lia|done|done|done].
Qed.
Lemma findPlan_found s id scope i p : findPlan s id scope = Ok (i, p) -> ps_plans s !! i = Some p /\ tp_id p = id /\ tp_scope p = scope.
Proof. intros H. destruct (find_plan_found _ _ _ _ _ _ H) as (j & -> & Hj & H1 & H2). done. Qed.

Lemma found_in s id scope i p : findPlan s id scope = Ok (i, p) -> In p (ps_plans s) /\ tp_id p = id /\ tp_scope p = scope.
Proof.
  intros H. destruct (findPlan_found _ _ _ _ _ H) as (L & Ei & Es). split_and!; [|done|done]. apply list_elem_of_In. by eapply list_elem_of_lookup_2.
Qed.

(** ** What the gate accepts *)

Section Accepted.
Variable parseDate : string -> number.
Variable sha256 : string -> string.

Lemma gate_accepts view reference submission se sp now p :
  validatePlanSubmission parseDate sha256 view reference submission se sp now = Ok p ->
  vw_staleRuntime view = false /\ vw_maintenance view = false /\
  exists i v, findPlan sp (sr_id reference) (vw_scope view) = Ok (i, p) /\ version_at (sr_version reference) p = Some v /\
    activated (sr_version reference) p = true /\ pv_epoch v = epoch_of sha256 se (vw_scope view) /\
    ct_symbol (pv_content v) = intent_symbol (su_intent submission) /\
    (su_countTowardsDailyLimit submission = true ->
     validate_opening parseDate p v (sr_version reference) (intent_side (su_intent submission)) now = Ok tt).
Proof.
  unfold validatePlanSubmission. intros H. inv_ok. destruct r1 as [i q]. cbn [fst snd] in *.
  match goal with E : vw_staleRuntime _ || _ = false |- _ => apply orb_false_iff in E as [-> ->] end.
  destruct (version_at (sr_version reference) q) as [v|] eqn:Ev; [|done]. destruct (activated (sr_version reference) q) eqn:Ea; [|done]. inv_ok.
  split_and!; [done|done|]. exists i, r2. split_and!; try done.
  - match goal with E : negb (pv_epoch _ =? _)%Z = false |- _ => by apply negb_false_iff, Z.eqb_eq in E end.
  - match goal with E : negb (String.eqb _ _) = false |- _ => by apply negb_false_iff, String.eqb_eq in E end.
  - intros Ec. rewrite Ec in *. match goal with E : validate_opening _ _ _ _ _ _ = Ok ?u |- _ => by destruct u end.
Qed.

(** *** Conditions on fresh facts *)

(** A recorded fact is the named one, not from the future, and recent enough. *)
Definition fresh_fact (t : PlanTimeframe) (now : number) (f : ObservedFact) : Prop :=
  (of_observedAt f <=? now + 0)%float = true /\ (now - of_observedAt f <=? age_limit t (fact_name (of_fact f)))%float = true.

(** What an operator says of two finite numbers. *)
Definition operator_holds (o : PlanOperator) (observed threshold : number) : bool :=
  match o with
  | AboveValue => threshold <? observed | AtLeastValue => threshold <=? observed
  | BelowValue => observed <? threshold | AtMostValue => observed <=? threshold
  end.

Definition decided (t : PlanTimeframe) (now : number) (facts : list ObservedFact) (c : PlanCondition) (outcome : bool) : Prop :=
  exists f, In f facts /\ of_fact f = pc_fact c /\ fresh_fact t now f /\ isFinite (of_value f) = true /\ operator_holds (pc_operator c) (of_value f) (pc_value c) = outcome.

Lemma snapshot_get l k v : o_get k (snapshot l) = Some v -> exists f, In f l /\ fact_name (of_fact f) = k /\ v = fact_of (of_value f) (of_observedAt f).
Proof.
  unfold snapshot. cut (forall o, o_get k (fold_left (fun o f => o_set (fact_name (of_fact f)) (fact_of (of_value f) (of_observedAt f)) o) l o) = Some v ->
    o_get k o = Some v \/ exists f, In f l /\ fact_name (of_fact f) = k /\ v = fact_of (of_value f) (of_observedAt f)).
  { intros H G. destruct (H [] G) as [E|E]; [done|exact E]. }
  induction l as [|f l IH]; intros o H; [by left|]. cbn in H. destruct (IH _ H) as [E|(g & Hg & Eg & Ev)]; [|right; exists g; by split_and!; [right|..]].
  destruct (decide (fact_name (of_fact f) = k)) as [<-|N].
  - rewrite o_get_set_eq in E. injection E as <-. right. exists f. by split_and!; [left|..].
  - rewrite o_get_set_ne in E by done. by left.
Qed.

Lemma o_get_filter {A} (p : string * A -> bool) k (o : list (string * A)) v :
  o_get k (List.filter p o) = Some v -> NoDup (map fst o) -> o_get k o = Some v /\ p (k, v) = true.
Proof.
  induction o as [|[j w] o IH]; [done|]. cbn [List.filter map fst]. rewrite NoDup_cons. intros H [N Hn]. destruct (p (j, w)) eqn:P.
  - cbn in H |- *. destruct (String.eqb_spec k j) as [->|Nk]; [injection H as ->; done|]. by apply IH.
  - destruct (IH H Hn) as [E Pk]. split; [|done]. cbn. destruct (String.eqb_spec k j) as [->|Nk]; [|done]. exfalso. apply N.
    clear - E. induction o as [|[i w'] o IH]; [done|]. cbn in E |- *. destruct (String.eqb_spec j i) as [->|Nj]; [by left|right; auto].
Qed.

Lemma fact_name_inj f g : fact_name f = fact_name g -> f = g.
Proof. by destruct f, g. Qed.

Lemma snapshot_wf l : NoDup (map fst (snapshot l)).
Proof.
  unfold snapshot. cut (forall o : FactSnapshot, o_wf o -> o_wf (fold_left (fun o f => o_set (fact_name (of_fact f)) (fact_of (of_value f) (of_observedAt f)) o) l o)).
  - intros H. apply H, o_wf_nil.
  - induction l as [|f l IH]; intros o H; [done|]. cbn. apply IH. by apply o_wf_set.
Qed.

(** The atoms are evaluated one by one. *)
Definition atom (facts : FactSnapshot) (now : number) (options : Options) (c : PlanCondition) : TriState :=
  evaluate_compare now options (o_get (fact_name (pc_fact c)) facts) (trigger_operator (pc_operator c)) (SNum (pc_value c)).

Lemma evaluate_atoms facts now options path cs index states :
  fst (evaluate_children (evaluate parseDate facts now options) path (map trigger_condition cs) index states) = map (atom facts now options) cs.
Proof. revert index states. induction cs as [|c cs IH]; intros index states; [done|]. cbn. f_equal. apply IH. Qed.

Lemma tri_all_true l x : tri_all l = TTrue -> In x l -> x = TTrue.
Proof.
  unfold tri_all, every_state. destruct (includes_state TFalse l); [done|]. destruct (forallb _ l) eqn:E; [|done]. intros _ Hin.
  rewrite forallb_forall in E. by apply E, bool_decide_eq_true in Hin.
Qed.
Lemma tri_any_false l x : tri_any l = TFalse -> In x l -> x = TFalse.
Proof.
  unfold tri_any, every_state. destruct (includes_state TTrue l); [done|]. destruct (forallb _ l) eqn:E; [|done]. intros _ Hin.
  rewrite forallb_forall in E. by apply E, bool_decide_eq_true in Hin.
Qed.

(** An atom that is not unknown was decided by a fresh fact. *)
Lemma atom_decided t facts now options c outcome :
  futureToleranceMs options = 0 -> atom (fresh_facts t now (snapshot facts)) now options c = of_bool outcome -> decided t now facts c outcome.
Proof.
  intros Ht. unfold atom, evaluate_compare. destruct (o_get _ (fresh_facts t now (snapshot facts))) as [v|] eqn:G; [|by destruct outcome].
  destruct (validObservation (Some v) now options) eqn:V; [|by destruct outcome]. intros C.
  apply o_get_filter in G as [G A]; [|apply snapshot_wf]. destruct (snapshot_get _ _ _ G) as (f & Hf & En & ->). cbn [fst snd fact_of f_value f_observedAt] in *.
  apply fact_name_inj in En. unfold validObservation in V. cbn [fact_of f_observedAt] in V. rewrite Ht in V. bool_hyps.
  unfold compare in C. destruct (isFinite (of_value f)) eqn:Fin; cbn [negb] in C; [|by destruct outcome].
  exists f. split_and!; [done|done|split; [done|by rewrite En]|done|].
  destruct (pc_operator c); cbn -[isFinite] in C |- *; (destruct (isFinite (pc_value c)); cbn -[isFinite] in C; [|by destruct outcome]);
    match type of C with of_bool ?b = _ => by destruct b, outcome end.
Qed.

(** The options are accepted at every finite time. *)
Lemma evaluate_conditions_Ok t facts now condition state :
  evaluate_conditions parseDate t facts now condition = Ok state ->
  exists options, futureToleranceMs options = 0 /\ e_state (evaluate parseDate (fresh_facts t now facts) now options condition [] "$") = state.
Proof.
  unfold evaluate_conditions. intros H. inv_ok. match goal with E : mapError _ ?m = Ok _ |- _ => destruct m as [x|] eqn:Em; [|done]; injection E as -> end.
  unfold evaluateCondition in Em. inv_ok. eexists. split; [|done].
  match goal with E : normalizeOptions _ = Ok _ |- _ => unfold normalizeOptions in E; inv_ok; done end.
Qed.

Lemma conditions_hold t facts now cs :
  evaluate_conditions parseDate t (snapshot facts) now (CAll (map trigger_condition cs)) = Ok TTrue -> Forall (fun c => decided t now facts c true) cs.
Proof.
  intros H. destruct (evaluate_conditions_Ok _ _ _ _ _ H) as (options & Ht & E). cbn [evaluate e_state] in E. rewrite evaluate_atoms in E.
  apply List.Forall_forall. intros c Hc. apply (atom_decided t facts now options c true Ht). apply (tri_all_true _ _ E). by apply in_map.
Qed.

Lemma conditions_fail t facts now cs :
  evaluate_conditions parseDate t (snapshot facts) now (CAny (map trigger_condition cs)) = Ok TFalse -> Forall (fun c => decided t now facts c false) cs.
Proof.
  intros H. destruct (evaluate_conditions_Ok _ _ _ _ _ H) as (options & Ht & E). cbn [evaluate e_state] in E. rewrite evaluate_atoms in E.
  apply List.Forall_forall. intros c Hc. apply (atom_decided t facts now options c false Ht). apply (tri_any_false _ _ E). by apply in_map.
Qed.

(** C12: an opening is accepted only under the version of a plan that is tracked in the scope of the engine, in its current epoch, for its symbol
    and direction and before it expires, when each entry condition holds and each invalidation fails on a recorded fact that is fresh now. *)
Theorem opening_needs_fresh_evidence view reference submission se sp now p :
  validatePlanSubmission parseDate sha256 view reference submission se sp now = Ok p ->
  su_countTowardsDailyLimit submission = true ->
  exists v o, In p (ps_plans sp) /\ tp_id p = sr_id reference /\ tp_scope p = vw_scope view /\ vw_maintenance view = false /\
    tp_status p = Tracking /\ tp_activeVersion p = Some (sr_version reference) /\ version_at (sr_version reference) p = Some v /\
    pv_epoch v = epoch_of sha256 se (vw_scope view) /\ ct_symbol (pv_content v) = intent_symbol (su_intent submission) /\
    other_direction (ct_direction (pv_content v)) (intent_side (su_intent submission)) = false /\
    (parseDate (ct_expiresAt (pv_content v)) <=? of_Z now)%float = false /\ tp_observation p = Some o /\
    Forall (fun c => decided (ct_timeframe (pv_content v)) (of_Z now) (po_facts o) c true) (ct_entry (pv_content v)) /\
    Forall (fun c => decided (ct_timeframe (pv_content v)) (of_Z now) (po_facts o) c false) (ct_invalidation (pv_content v)).
Proof.
  intros H Hc. destruct (gate_accepts _ _ _ _ _ _ _ H) as (_ & Hm & i & v & F & Ev & _ & Ee & Es & Ho). specialize (Ho Hc). unfold validate_opening in Ho.
  inv_ok. bool_hyps. destruct (tp_observation p) as [o|]; [|done]. exists v, o.
  destruct (found_in _ _ _ _ _ F) as (? & ? & ?).
  repeat match goal with E : bool_decide _ = true |- _ => apply bool_decide_eq_true in E end.
  match goal with E : evaluatePlan _ _ _ _ _ _ = Ok _ |- _ => unfold evaluatePlan in E; inv_ok; cbn [po_entry po_invalidation] in * end. subst.
  split_and!; try done; [by apply conditions_hold|by apply conditions_fail].
Qed.
End Accepted.
