(* ===== verification/PlanHistory.v ===== *)
(** * Histories of plans

    The operations of the store in any order: what they may change of a plan, and what follows for
    the submissions that the gate accepts. *)

From Stdlib Require Import ZArith Lia Bool Ascii Floats.
From stdpp Require Import base strings option list.
From S2P Require Import Prelude JsNumber JsObject JsDate JsValue JsText AccountRisk RiskState Execution ExecutionJournal Triggers Outbox TradePlans PlanGate.

Local Open Scope Z_scope.

(** ** Operations *)

Inductive PlanOp :=
  | CreatePlan (d : PlanDraws) (scope : ExecutionScope) (content : PlanContent)
  | RevisePlan (d : PlanDraws) (id : string) (scope : ExecutionScope) (expectedRevision : Z) (content : PlanContent)
  | NotePlan (d : PlanDraws) (id : string) (scope : ExecutionScope) (text : string) (author : NoteAuthor)
  | ActivatePlan (d : PlanDraws) (id : string) (scope : ExecutionScope) (expectedRevision : Z)
  | ArchivePlan (d : PlanDraws) (id : string) (scope : ExecutionScope) (expectedRevision : Z)
  | RemovePlan (d : PlanDraws) (id : string) (scope : ExecutionScope) (expectedRevision : Z)
  | ObservePlanFacts (d : PlanDraws) (id : string) (scope : ExecutionScope) (o : PlanObservation) (baseline : bool)
  | ObservePlanAccount (d : PlanDraws) (id : string) (scope : ExecutionScope) (o : PlanAccountObservation)
  | ResetPaper (ds : nat -> PlanDraws) (scope : ExecutionScope)
  | SavePlanIntent (d : PlanDraws) (id : string) (scope : ExecutionScope) (version : Z) (intentId : string) (descriptor : value)
  | ArchivePlanExecution (r : ExecutionRecord)
  | ClaimPlanQuery (scope : ExecutionScope) (count pageSize : Z)
  (** health, claims and acknowledgements of notifications *)
  | NotifyPlans (f : MonitoringState -> result MonitoringError (unit * MonitoringState)).

Section History.
Variable sha256 : string -> string.
Variable parseDate : string -> number.
Variable check_content : PlanContent -> bool.
Variable check_state : PlanState -> bool.
Variable check_proposal : value -> bool.
Variable rest_ok : value -> bool.
Variable fits : PlanState -> bool.

Definition only_state {A} (r : PlanResult (A * PlanState)) : PlanResult (unit * PlanState) := p ← r; Ok (tt, snd p).

Definition plan_operation (op : PlanOp) (s : PlanState) : PlanResult (unit * PlanState) :=
  match op with
  | CreatePlan d scope content => only_state (createPlan sha256 check_content d scope content s)
  | RevisePlan d id scope rev content => only_state (revise sha256 check_content d id scope rev content s)
  | NotePlan d id scope text author => note d id scope text author s
  | ActivatePlan d id scope rev => only_state (activate sha256 parseDate d id scope rev s)
  | ArchivePlan d id scope rev => archive d id scope rev s
  | RemovePlan d id scope rev => remove d id scope rev s
  | ObservePlanFacts d id scope o baseline => only_state (observePlan parseDate d id scope o baseline s)
  | ObservePlanAccount d id scope o => only_state (observeAccount parseDate d id scope o s)
  | ResetPaper ds scope => markPaperReset sha256 ds scope s
  | SavePlanIntent d id scope version intentId descriptor => only_state (saveIntent sha256 d id scope version intentId descriptor s)
  | ArchivePlanExecution r => archiveExecution check_proposal r s
  | ClaimPlanQuery scope count pageSize => only_state (claimQueryOffset sha256 scope count pageSize s)
  | NotifyPlans f => on_monitoring f s
  end.

Definition run_plan_op (op : PlanOp) (s : PlanState) : PlanResult (unit * PlanState) :=
  transactPlans sha256 check_content check_state check_proposal rest_ok fits (plan_operation op) s.

(** A transaction that throws stores nothing. *)
Definition after_op (s : PlanState) (op : PlanOp) : PlanState := match run_plan_op op s with Ok r => snd r | Throw _ => s end.
Definition after_ops (ops : list PlanOp) (s : PlanState) : PlanState := fold_left after_op ops s.

(** ** What an operation may change of a plan *)

Definition activates (id : string) (op : PlanOp) : bool := match op with ActivatePlan _ i _ _ => String.eqb i id | _ => false end.
Definition creates (id : string) (op : PlanOp) : bool := match op with CreatePlan d _ _ => String.eqb (pd_id d) id | _ => false end.

Record change (op : PlanOp) (s : PlanState) (p p' : TradePlan) : Prop := {
  ch_id : tp_id p' = tp_id p;
  ch_scope : tp_scope p' = tp_scope p;
  ch_versions : exists l, tp_versions p' = app (tp_versions p) l /\ Forall (fun v => pv_epoch v = epoch_of sha256 s (tp_scope p)) l;
  ch_notes : exists l, tp_notes p' = app (tp_notes p) l;
  ch_events : exists l, tp_events p' = app (tp_events p) l /\
    Forall (fun e => ev_kind e = "activated"%string -> activates (tp_id p) op = true /\ ev_version e = latest_version p) l;
  ch_intents : exists l, tp_intents p' = app (tp_intents p) l;
  ch_executions : exists l, tp_executions p' = app (tp_executions p) l;
  ch_tracking : tp_status p' = Tracking ->
    (tp_status p = Tracking /\ tp_activeVersion p' = tp_activeVersion p) \/
    (activates (tp_id p) op = true /\ tp_versions p' = tp_versions p /\
     exists v, last (tp_versions p) = Some v /\ pv_epoch v = epoch_of sha256 s (tp_scope p) /\ tp_activeVersion p' = Some (pv_version v))
}.

Lemma change_refl op s p : change op s p p.
Proof. split; try (by exists []; rewrite app_nil_r); try done. by left. Qed.

Lemma change_all op s l : Forall2 (change op s) l l.
Proof. induction l; constructor; auto using change_refl. Qed.

Lemma change_one op s i p p' l : l !! i = Some p -> change op s p p' -> Forall2 (change op s) l (<[i:=p']> l).
Proof.
  revert i. induction l as [|x l IH]; intros [|i] E H; try done; cbn in *.
  - injection E as ->. constructor; [done|apply change_all].
  - constructor; [apply change_refl|by apply IH].
Qed.

(** Adding an event. *)
Lemma add_event_spec d kind detail version p p' :
  add_event d kind detail version p = Ok p' ->
  exists e, ev_kind e = kind /\ ev_version e = version /\ tp_events p' = app (tp_events p) [e] /\
    tp_id p' = tp_id p /\ tp_scope p' = tp_scope p /\ tp_status p' = tp_status p /\ tp_activeVersion p' = tp_activeVersion p /\ tp_versions p' = tp_versions p /\
    tp_notes p' = tp_notes p /\ tp_intents p' = tp_intents p /\ tp_executions p' = tp_executions p.
Proof. unfold add_event. destruct (_ <=? _)%nat; cbn; [done|]. intros [= <-].
  exists {| ev_id := pd_eventId d; ev_at := toISOString (pd_event d); ev_version := version; ev_kind := kind; ev_detail := detail |}. by split_and!.
Qed.

(** The notifications are apart from the plans and their epochs. *)
Definition same_plans (s s' : PlanState) : Prop := ps_plans s' = ps_plans s /\ ps_epochs s' = ps_epochs s.

Lemma cancelNotifications_same s p now s' : cancelNotifications s p now = Ok s' -> same_plans s s'.
Proof.
  unfold cancelNotifications. destruct (ps_monitoring s) as [m|]; [|by intros [= <-]]. destruct (cancel_in m p now) as [r|]; cbn; [|done].
  by intros [= <-].
Qed.

Lemma queueObservation_same d s p now s' : queueObservation d s p now = Ok s' -> same_plans s s'.
Proof.
  unfold queueObservation. destruct (monitored _) as [first|]; cbn; [|done]. destruct (cancel_in (snd first) p now) as [r|]; cbn; [|done].
  destruct (snd r !! fst r) as [entry|]; cbn; [|done]. destruct (monitored _) as [entry'|]; cbn; [|done]. by intros [= <-].
Qed.

(** An event is added to what changes besides. *)
Lemma change_event op s p q q' d kind detail version :
  add_event d kind detail version q = Ok q' -> (kind = "activated"%string -> activates (tp_id p) op = true /\ version = latest_version p) ->
  tp_events q = tp_events p -> change op s p q -> change op s p q'.
Proof.
  intros H Hk Ee Hq. destruct (add_event_spec _ _ _ _ _ _ H) as (e & Ek & Ev & Ev' & Ei & Es & Est & Ea & Evs & En & Eint & Ex).
  destruct Hq as [H1 H2 H3 H4 H5 H6 H7 H8]. split; rewrite ?Ei, ?Es, ?Est, ?Ea, ?Evs, ?En, ?Eint, ?Ex; try done.
  exists [e]. rewrite Ev', Ee. split; [done|]. constructor; [|constructor]. rewrite Ek, Ev. exact Hk.
Qed.

Lemma app_self {A} (l : list A) : exists l', l = app l l'.
Proof. exists []. by rewrite app_nil_r. Qed.

(** A plan whose evidence and versions stay, tracked no more than before. *)
Lemma change_kept op s p q :
  tp_id q = tp_id p -> tp_scope q = tp_scope p -> tp_versions q = tp_versions p -> tp_events q = tp_events p ->
  (exists l, tp_notes q = app (tp_notes p) l) -> (exists l, tp_intents q = app (tp_intents p) l) -> (exists l, tp_executions q = app (tp_executions p) l) ->
  (tp_status q = Tracking -> tp_status p = Tracking /\ tp_activeVersion q = tp_activeVersion p) -> change op s p q.
Proof.
  intros Hi Hs Hv He Hn Hint Hx Ht. split; try done.
  - exists []. by rewrite Hv, app_nil_r.
  - exists []. by rewrite He, app_nil_r.
  - intros E. left. by apply Ht.
Qed.

Record fresh_plan (d : PlanDraws) (scope : ExecutionScope) (s : PlanState) (p : TradePlan) : Prop := {
  fr_id : tp_id p = pd_id d;
  fr_scope : tp_scope p = scope;
  fr_status : tp_status p = Draft;
  fr_epochs : Forall (fun v => pv_epoch v = epoch_of sha256 s scope) (tp_versions p);
  fr_events : Forall (fun e => ev_kind e <> "activated"%string) (tp_events p)
}.

(** What an operation does to the plans and the epochs. *)
Definition plan_effect (op : PlanOp) (s s' : PlanState) : Prop :=
  match op with
  | CreatePlan d scope _ =>
      (exists p, ps_plans s' = app (ps_plans s) [p] /\ fresh_plan d scope s p) /\ ps_epochs s' = ps_epochs s
  | RemovePlan _ id _ _ =>
      (exists i p, ps_plans s !! i = Some p /\ tp_id p = id /\ tp_status p = Archived /\ tp_intents p = [] /\ ps_plans s' = delete i (ps_plans s)) /\
      ps_epochs s' = ps_epochs s
  | ResetPaper _ scope =>
      sc_mode scope = Paper /\
      Forall2 (fun p p' => change op s p p' /\ (same_paper_account scope (tp_scope p) = true -> tp_status p' = Archived)) (ps_plans s) (ps_plans s') /\
      ps_epochs s' = next_epochs (map (planScopeKey sha256) (scope :: map tp_scope (List.filter (fun p => same_paper_account scope (tp_scope p)) (ps_plans s)))) []
                       (ps_epochs s)
  | _ => Forall2 (change op s) (ps_plans s) (ps_plans s') /\ ps_epochs s' = ps_epochs s
  end.

Lemma only_state_Ok {A} (r : PlanResult (A * PlanState)) (x : unit * PlanState) : only_state r = Ok x -> exists a, r = Ok (a, snd x).
Proof. destruct r as [[a s]|]; cbn; [|done]. intros [= <-]. by exists a. Qed.

Ltac op_ok H := unfold only_state in H; inv_ok; cbn [snd fst] in *.

Lemma createPlan_effect d scope content s p s' :
  createPlan sha256 check_content d scope content s = Ok (p, s') -> plan_effect (CreatePlan d scope content) s s'.
Proof.
  unfold createPlan. intros H. inv_ok. cbn. split; [|done]. eexists. split; [done|].
  match goal with E : add_event _ _ _ _ _ = Ok _ |- _ => destruct (add_event_spec _ _ _ _ _ _ E) as (e & Ek & _ & Ee & Ei & Es & Est & _ & Ev & _ & _ & _) end.
  split; rewrite ?Ei, ?Es, ?Est, ?Ev, ?Ee; try done; cbn; constructor; try done. by rewrite Ek.
Qed.

Lemma revise_effect d id scope rev content s p s' :
  revise sha256 check_content d id scope rev content s = Ok (p, s') -> plan_effect (RevisePlan d id scope rev content) s s'.
Proof.
  unfold revise. intros H. inv_ok. split; [|done]. destruct r0 as [i q]. cbn [fst snd] in *.
  match goal with E : findPlan _ _ _ = Ok _ |- _ => destruct (findPlan_found _ _ _ _ _ E) as (L & Ei & Es) end.
  eapply change_one; [exact L|]. eapply change_event; [eassumption|done|done|]. split; cbn; try done; try apply app_self.
  - eexists. split; [done|]. constructor; [|constructor]. cbn. by rewrite Es.
  - exists []. by rewrite app_nil_r.
  - by left.
Qed.

(** The plan that was found is the one that changes. *)
Ltac found L Ei Es :=
  match goal with E : findPlan _ _ _ = Ok ?f |- _ =>
    let i := fresh "i" in let q := fresh "q" in destruct f as [i q]; destruct (findPlan_found _ _ _ _ _ E) as (L & Ei & Es); cbn [fst snd] in *
  end.

Lemma note_effect d id scope text author s u s' : note d id scope text author s = Ok (u, s') -> plan_effect (NotePlan d id scope text author) s s'.
Proof.
  unfold note. intros H. inv_ok. found L Ei Es. split; [|done]. eapply change_one; [exact L|].
  apply change_kept; cbn; try done; try apply app_self. by eexists.
Qed.

Lemma activate_effect d id scope rev s p s' :
  activate sha256 parseDate d id scope rev s = Ok (p, s') -> plan_effect (ActivatePlan d id scope rev) s s'.
Proof.
  unfold activate. intros H. inv_ok. found L Ei Es. destruct (last (tp_versions q)) as [v|] eqn:Ev; [|done]. inv_ok.
  match goal with E : cancelNotifications _ _ _ = Ok _ |- _ => destruct (cancelNotifications_same _ _ _ _ E) as [Ep Ee] end.
  match goal with E : (negb (pv_epoch _ =? _)) = false |- _ => rename E into Eepoch end.
  apply negb_false_iff, Z.eqb_eq in Eepoch.
  assert (Ha : activates (tp_id q) (ActivatePlan d (tp_id q) (tp_scope q) rev) = true) by apply String.eqb_refl.
  split; [|exact Ee]. cbn [ps_plans put_plan with_plans]. rewrite Ep. eapply change_one; [exact L|].
  eapply change_event; [eassumption|intros _; done|done|]. split; cbn [status_moved tp_id tp_scope tp_versions tp_notes tp_events tp_intents tp_executions tp_status tp_activeVersion]; try done; try apply app_self.
  - exists []. by rewrite app_nil_r.
  - exists []. by rewrite app_nil_r.
  - intros _. right. split_and!; [done|done|]. by eexists.
Qed.

Lemma archive_effect d id scope rev s u s' : archive d id scope rev s = Ok (u, s') -> plan_effect (ArchivePlan d id scope rev) s s'.
Proof.
  unfold archive. intros H. inv_ok. found L Ei Es. destruct (bool_decide _) eqn:B; inv_ok; [split; [apply change_all|done]|].
  match goal with E : cancelNotifications _ _ _ = Ok _ |- _ => destruct (cancelNotifications_same _ _ _ _ E) as [Ep Ee] end.
  split; [|exact Ee]. cbn [ps_plans put_plan with_plans]. rewrite Ep. eapply change_one; [exact L|].
  eapply change_event; [eassumption|done|done|]. apply change_kept; cbn; try done; apply app_self.
Qed.

Lemma remove_effect d id scope rev s u s' : remove d id scope rev s = Ok (u, s') -> plan_effect (RemovePlan d id scope rev) s s'.
Proof.
  unfold remove. intros H. inv_ok. found L Ei Es.
  match goal with E : cancelNotifications _ _ _ = Ok _ |- _ => destruct (cancelNotifications_same _ _ _ _ E) as [Ep Ee] end.
  match goal with E : _ || _ = false |- _ => apply orb_false_iff in E as [Est Eint] end.
  apply negb_false_iff, bool_decide_eq_true in Est. apply negb_false_iff, Nat.eqb_eq, length_zero_iff_nil in Eint.
  split; [|exact Ee]. exists i, q. split_and!; try done. cbn [ps_plans with_plans]. by rewrite Ep.
Qed.

Lemma observation_kind_not baseline previous o : observation_kind parseDate baseline previous o <> "activated"%string.
Proof. unfold observation_kind. destruct previous as [q|]; [|done]. by destruct (baseline || _). Qed.

Lemma observePlan_effect d id scope o baseline s a s' :
  observePlan parseDate d id scope o baseline s = Ok (a, s') -> plan_effect (ObservePlanFacts d id scope o baseline) s s'.
Proof.
  unfold observePlan. intros H. inv_ok. found L Ei Es. destruct (outdated _ _ _ _); inv_ok; [split; [apply change_all|done]|].
  assert (Hc : forall op x y, change op s q (observed_plan x y q)).
  { intros op x y. apply change_kept; cbn; try done; apply app_self. }
  destruct (negb (observation_changed _ o)); inv_ok; [split; [|done]; by eapply change_one|].
  match goal with E : queueObservation _ _ _ _ = Ok _ |- _ => destruct (queueObservation_same _ _ _ _ _ E) as [Ep Ee] end.
  split; [|exact Ee]. cbn [ps_plans put_plan with_plans]. rewrite Ep. eapply change_one; [exact L|].
  eapply change_event; [eassumption| |done|apply Hc]. intros K. by apply observation_kind_not in K.
Qed.

Lemma observeAccount_effect d id scope o s a s' :
  observeAccount parseDate d id scope o s = Ok (a, s') -> plan_effect (ObservePlanAccount d id scope o) s s'.
Proof.
  unfold observeAccount. intros H. inv_ok. found L Ei Es. destruct (outdated _ _ _ _); inv_ok; [split; [apply change_all|done]|].
  assert (Hc : forall op x y, change op s q (observed_plan x y q)).
  { intros op x y. apply change_kept; cbn; try done; apply app_self. }
  destruct (negb (account_changed _ o)); inv_ok; [split; [|done]; by eapply change_one|].
  match goal with E : queueObservation _ _ _ _ = Ok _ |- _ => destruct (queueObservation_same _ _ _ _ _ E) as [Ep Ee] end.
  split; [|exact Ee]. cbn [ps_plans put_plan with_plans]. rewrite Ep. eapply change_one; [exact L|].
  eapply change_event; [eassumption|done|done|apply Hc].
Qed.

Lemma saveIntent_effect d id scope version intentId descriptor s a s' :
  saveIntent sha256 d id scope version intentId descriptor s = Ok (a, s') -> plan_effect (SavePlanIntent d id scope version intentId descriptor) s s'.
Proof.
  unfold saveIntent. intros H. inv_ok. found L Ei Es. destruct (find _ (tp_intents q)) as [x|]; inv_ok; [split; [apply change_all|done]|].
  split; [|done]. eapply change_one; [exact L|]. apply change_kept; cbn; try done; try apply app_self. by eexists.
Qed.

Lemma archiveExecution_effect r s u s' : archiveExecution check_proposal r s = Ok (u, s') -> plan_effect (ArchivePlanExecution r) s s'.
Proof.
  unfold archiveExecution. intros H. inv_ok. found L Ei Es. destruct (find _ (tp_executions q)) as [x|]; inv_ok; [split; [apply change_all|done]|].
  split; [|done]. eapply change_one; [exact L|]. apply change_kept; cbn; try done; try apply app_self. by eexists.
Qed.

Definition reset_change (op : PlanOp) (s : PlanState) (scope : ExecutionScope) (p p' : TradePlan) : Prop :=
  change op s p p' /\ (same_paper_account scope (tp_scope p) = true -> tp_status p' = Archived).

Lemma reset_plan_effect op s0 d scope p s p' s' : reset_plan d p s = Ok (p', s') -> reset_change op s0 scope p p' /\ same_plans s s'.
Proof.
  unfold reset_plan. intros H. inv_ok.
  match goal with E : cancelNotifications _ _ _ = Ok _ |- _ => apply cancelNotifications_same in E end.
  match goal with E : add_event _ _ _ _ _ = Ok _ |- _ => rename E into Ea end. split; [|done]. split.
  - eapply change_event; [exact Ea|done|done|]. apply change_kept; cbn; try done; apply app_self.
  - intros _. destruct (add_event_spec _ _ _ _ _ _ Ea) as (e & _ & _ & _ & _ & _ & -> & _). done.
Qed.

Lemma reset_plans_effect op s0 ds scope l dn s s' :
  ps_plans s = app dn l -> reset_plans ds scope l (length dn) s = Ok s' ->
  exists l', ps_plans s' = app dn l' /\ Forall2 (reset_change op s0 scope) l l' /\ ps_epochs s' = ps_epochs s.
Proof.
  revert dn s. induction l as [|p l IH]; intros dn s E; cbn [reset_plans]; [intros [= <-]; by exists []|].
  assert (Hnext : forall p' s1, ps_plans s1 = app dn (p' :: l) -> ps_epochs s1 = ps_epochs s -> reset_change op s0 scope p p' ->
    reset_plans ds scope l (S (length dn)) s1 = Ok s' ->
    exists l', ps_plans s' = app dn l' /\ Forall2 (reset_change op s0 scope) (p :: l) l' /\ ps_epochs s' = ps_epochs s).
  { intros p' s1 E1 Ee Hc H. replace (S (length dn)) with (length (app dn [p'])) in H by (rewrite length_app; cbn; lia).
    destruct (IH (app dn [p']) s1 ltac:(by rewrite E1, <- app_assoc) H) as (l' & E' & HF & Ee'). exists (p' :: l').
    rewrite E', <- app_assoc. split_and!; [done|by constructor|congruence]. }
  destruct (same_paper_account scope (tp_scope p) && negb (bool_decide (tp_status p = Archived))) eqn:B; intros H.
  - inv_ok. destruct r as [p' s1]. cbn [fst snd] in *. match goal with E : reset_plan _ _ _ = Ok _ |- _ => destruct (reset_plan_effect op s0 _ scope _ _ _ _ E) as [Hc [Ep Ee]] end.
    eapply (Hnext p' (put_plan (length dn) p' s1)); [|exact Ee|exact Hc|exact H]. cbn. rewrite Ep, E, insert_app_r_alt by lia.
    by rewrite Nat.sub_diag.
  - eapply (Hnext p s); try done. split; [apply change_refl|]. intros Ha. rewrite Ha in B. cbn in B. by apply negb_false_iff, bool_decide_eq_true in B.
Qed.

Lemma markPaperReset_effect ds scope s u s' : markPaperReset sha256 ds scope s = Ok (u, s') -> plan_effect (ResetPaper ds scope) s s'.
Proof.
  unfold markPaperReset. intros H. inv_ok.
  match goal with E : negb (bool_decide (sc_mode _ = Paper)) = false |- _ => apply negb_false_iff, bool_decide_eq_true in E end.
  match goal with E : reset_plans _ _ _ _ _ = Ok _ |- _ => rename E into Er end.
  destruct (reset_plans_effect (ResetPaper ds scope) s ds scope (ps_plans s) [] (with_epochs _ s) _ eq_refl Er) as (l' & El & HF & Ee). split; [done|]. cbn in El. rewrite El. by split.
Qed.

Lemma operation_effect op s s' : plan_operation op s = Ok (tt, s') -> plan_effect op s s'.
Proof.
  destruct op; cbn [plan_operation]; intros H; try (apply only_state_Ok in H as [a H]; cbn [snd] in H).
  - by eapply createPlan_effect.
  - by eapply revise_effect.
  - by eapply note_effect.
  - by eapply activate_effect.
  - by eapply archive_effect.
  - by eapply remove_effect.
  - by eapply observePlan_effect.
  - by eapply observeAccount_effect.
  - by eapply markPaperReset_effect.
  - by eapply saveIntent_effect.
  - by eapply archiveExecution_effect.
  - unfold claimQueryOffset in H. inv_ok. split; [apply change_all|done].
  - unfold on_monitoring in H. inv_ok. split; [apply change_all|done].
Qed.

(** ** Transactions *)

Definition valid (s : PlanState) : Prop := validatePlanState sha256 check_content check_state check_proposal rest_ok s = true.

Lemma run_plan_op_Ok op s r : run_plan_op op s = Ok r -> plan_effect op s (snd r) /\ valid (snd r).
Proof.
  unfold run_plan_op, transactPlans. intros H. inv_ok. destruct r as [[] s']. cbn [snd] in *. split; [by apply operation_effect|].
  unfold valid. match goal with E : negb _ = false |- _ => by apply negb_false_iff in E end.
Qed.

Lemma after_op_cases s op : after_op s op = s \/ (plan_effect op s (after_op s op) /\ valid (after_op s op)).
Proof. unfold after_op. destruct (run_plan_op op s) as [r|] eqn:E; [right; by apply run_plan_op_Ok|by left]. Qed.

(** What the validation of a state says of its plans. *)
Lemma valid_plan_ids s : valid s -> NoDup (map tp_id (ps_plans s)).
Proof.
  unfold valid, validatePlanState. intros H. bool_hyps. match goal with E : distinct _ = true |- _ => revert E end.
  generalize (map tp_id (ps_plans s)). induction l as [|x l IH]; cbn; [constructor|]. intros E. bool_hyps. constructor; [|by apply IH].
  match goal with E : str_in _ _ = false |- _ => rename E into En end. unfold str_in in En. intros Hin. apply list_elem_of_In in Hin.
  assert (existsb (String.eqb x) l = true); [|congruence]. apply existsb_exists. exists x. split; [done|apply String.eqb_refl].
Qed.

Lemma versions_numbered symbol i l n v : versions_ok check_content symbol i l = true -> l !! n = Some v -> pv_version v = i + Z.of_nat n + 1.
Proof.
  revert i n. induction l as [|x l IH]; intros i [|n] H E; try done; cbn in H, E; bool_hyps.
  - injection E as ->. lia.
  - match goal with Hr : versions_ok _ _ _ l = true |- _ => pose proof (IH _ _ Hr E) end. lia.
Qed.

Lemma valid_numbered s p n v : valid s -> In p (ps_plans s) -> tp_versions p !! n = Some v -> pv_version v = Z.of_nat n + 1.
Proof.
  unfold valid, validatePlanState. intros H Hin E. bool_hyps. match goal with E : forallb plan_ok _ = true |- _ => rename E into Ha | E : forallb _ (ps_plans s) = true |- _ => rename E into Ha end.
  rewrite forallb_forall in Ha. specialize (Ha _ Hin). unfold plan_ok in Ha. bool_hyps.
  match goal with E : versions_ok _ _ _ _ = true |- _ => pose proof (versions_numbered _ _ _ _ _ E ltac:(eassumption)) end. lia.
Qed.

(** ** Epochs *)

Definition epoch_at (k : string) (o : obj Z) : Z := default 0 (o_get k o).

Lemma epoch_set k j v o : epoch_at k (o_set j v o) = if decide (k = j) then v else epoch_at k o.
Proof. unfold epoch_at. destruct (decide (k = j)) as [->|N]; [by rewrite o_get_set_eq|by rewrite o_get_set_ne]. Qed.

Lemma next_epochs_spec keys seen o k :
  epoch_at k o <= epoch_at k (next_epochs keys seen o) /\
  (In k keys -> str_in seen k = false -> epoch_at k o < epoch_at k (next_epochs keys seen o)).
Proof.
  revert seen o. induction keys as [|j keys IH]; intros seen o; cbn [next_epochs]; [split; [lia|done]|].
  destruct (str_in seen j) eqn:Sj.
  - destruct (IH seen o) as [H1 H2]. split; [done|]. intros [->|Hin] Hs; [congruence|auto].
  - set (o' := o_set j (default 0 (o_get j o) + 1) o). destruct (IH (j :: seen) o') as [H1 H2].
    assert (He : epoch_at k o' = if decide (k = j) then epoch_at k o + 1 else epoch_at k o).
    { unfold o'. rewrite epoch_set. by destruct (decide (k = j)) as [->|]. }
    rewrite He in H1, H2. destruct (decide (k = j)) as [->|N]; [split; [lia|intros _ _; lia]|]. split; [done|]. intros [->|Hin] Hs; [done|].
    apply H2; [done|]. unfold str_in in *. cbn. rewrite Hs. destruct (String.eqb_spec k j); done.
Qed.

Lemma epochs_grow op s s' scope : plan_effect op s s' -> epoch_of sha256 s scope <= epoch_of sha256 s' scope.
Proof.
  unfold epoch_of. destruct op; cbn [plan_effect]; intros H; try (destruct H as [_ ->]; lia).
  destruct H as (_ & _ & ->). apply next_epochs_spec.
Qed.

Lemma after_op_grow op s scope : epoch_of sha256 s scope <= epoch_of sha256 (after_op s op) scope.
Proof. destruct (after_op_cases s op) as [->|[H _]]; [lia|by eapply epochs_grow]. Qed.

Lemma reset_grows ds scope s s' p :
  plan_effect (ResetPaper ds scope) s s' -> In p (ps_plans s) -> same_paper_account scope (tp_scope p) = true ->
  epoch_of sha256 s (tp_scope p) < epoch_of sha256 s' (tp_scope p).
Proof.
  intros (_ & _ & Ee) Hin Ha. unfold epoch_of. rewrite Ee. apply next_epochs_spec; [|done]. cbn. right. apply in_map, in_map. by apply List.filter_In.
Qed.

(** ** Plans along a history *)

(** A plan of a state comes from one before, or was created. *)
Lemma effect_back op s s' p' :
  plan_effect op s s' -> In p' (ps_plans s') ->
  (exists p, In p (ps_plans s) /\ change op s p p') \/
  (exists d scope content, op = CreatePlan d scope content /\ fresh_plan d scope s p').
Proof.
  intros H Hin.
  assert (HF : forall l, Forall2 (change op s) l (ps_plans s') -> exists p, In p l /\ change op s p p').
  { intros l HF. apply list_elem_of_In, list_elem_of_lookup in Hin as [i Hi]. destruct (Forall2_lookup_r _ _ _ _ _ HF Hi) as (p & Hp & Hc).
    exists p. split; [|done]. apply list_elem_of_In, list_elem_of_lookup. by exists i. }
  destruct op; cbn [plan_effect] in H; try (left; apply HF, H).
  - destruct H as [(p & E & Hf) _]. rewrite E in Hin. apply in_app_or in Hin as [Hin|[->|[]]]; [left; exists p'; auto using change_refl|right; eauto].
  - destruct H as [(i & p & _ & _ & _ & _ & E) _]. rewrite E in Hin. left. exists p'. split; [|apply change_refl].
    apply list_elem_of_In. apply list_elem_of_In in Hin. eapply elem_of_submseteq; [exact Hin|]. apply sublist_submseteq, sublist_delete.
  - left. apply HF. destruct H as (_ & H & _). eapply Forall2_impl; [exact H|]. by intros x y [Hc _].
Qed.

(** A plan of a state stays, or is removed without intents. *)
Lemma effect_forth op s s' p :
  plan_effect op s s' -> In p (ps_plans s) -> tp_intents p <> [] ->
  exists p', In p' (ps_plans s') /\ change op s p p'.
Proof.
  intros H Hin Hint. pose proof Hin as Hin'. apply list_elem_of_In, list_elem_of_lookup in Hin as [i Hi].
  assert (HF : forall l', Forall2 (change op s) (ps_plans s) l' -> exists p', In p' l' /\ change op s p p').
  { intros l' HF. destruct (Forall2_lookup_l _ _ _ _ _ HF Hi) as (p' & Hp & Hc). exists p'. split; [|done]. apply list_elem_of_In, list_elem_of_lookup. by exists i. }
  destruct op; cbn [plan_effect] in H; try (apply HF, H).
  - destruct H as [(q & -> & Hf) _]. exists p. split; [apply in_or_app; by left|apply change_refl].
  - destruct H as [(j & q & Hj & _ & _ & Hq & ->) _]. exists p. split; [|apply change_refl]. destruct (decide (i = j)) as [->|N].
    + rewrite Hi in Hj. injection Hj as ->. done.
    + apply list_elem_of_In, list_elem_of_lookup. destruct (decide (i < j)%nat) as [L|L].
      * exists i. rewrite list_lookup_delete_lt; done.
      * exists (i - 1)%nat. rewrite list_lookup_delete_ge by lia. replace (S (i - 1)) with i by lia. done.
  - apply HF. destruct H as (_ & H & _). eapply Forall2_impl; [exact H|]. by intros x y [Hc _].
Qed.

(** ** States of a history *)

Record sound (s : PlanState) : Prop := {
  so_ids : NoDup (map tp_id (ps_plans s));
  so_numbered : forall p n v, In p (ps_plans s) -> tp_versions p !! n = Some v -> pv_version v = Z.of_nat n + 1;
  so_epochs : forall p v, In p (ps_plans s) -> In v (tp_versions p) -> pv_epoch v <= epoch_of sha256 s (tp_scope p)
}.

Lemma sound_initial : sound initial_plans.
Proof. split; [apply NoDup_nil_2|by intros p n v []|by intros p v []]. Qed.

Lemma sound_step s op : sound s -> sound (after_op s op).
Proof.
  intros H. destruct (after_op_cases s op) as [->|[He Hv]]; [done|]. split; [by apply valid_plan_ids|by intros p n v; apply valid_numbered|].
  intros p' v Hp Hin. pose proof (epochs_grow _ _ _ (tp_scope p') He) as Hg.
  destruct (effect_back _ _ _ _ He Hp) as [(p & Hp0 & Hc)|(d & scope & content & -> & Hf)].
  - destruct (ch_versions _ _ _ _ Hc) as (l & E & Hl). pose proof (ch_scope _ _ _ _ Hc) as Es. rewrite E in Hin. apply in_app_or in Hin as [Hin|Hin].
    + pose proof (so_epochs _ H p v Hp0 Hin). rewrite Es in *. lia.
    + rewrite List.Forall_forall in Hl. rewrite (Hl _ Hin), Es. rewrite Es in Hg. exact Hg.
  - destruct Hf as [_ Es _ Hl _]. rewrite List.Forall_forall in Hl. rewrite (Hl _ Hin), Es. rewrite Es in Hg. exact Hg.
Qed.

Lemma sound_after ops s : sound s -> sound (after_ops ops s).
Proof. revert s. induction ops as [|op ops IH]; intros s H; [done|]. cbn. by apply IH, sound_step. Qed.

(** The plan of an identity is the one that is found. *)
Lemma sound_unique s p q : sound s -> In p (ps_plans s) -> In q (ps_plans s) -> tp_id p = tp_id q -> p = q.
Proof.
  intros H Hp Hq E. apply list_elem_of_In, list_elem_of_lookup in Hp as [i Hi]. apply list_elem_of_In, list_elem_of_lookup in Hq as [j Hj].
  assert (i = j); [|congruence]. apply (NoDup_lookup (tp_id <$> ps_plans s) i j (tp_id p) (so_ids _ H)); [by rewrite list_lookup_fmap, Hi|].
  by rewrite list_lookup_fmap, Hj, E.
Qed.

Lemma in_found s id scope p : sound s -> In p (ps_plans s) -> tp_id p = id -> tp_scope p = scope -> exists i, findPlan s id scope = Ok (i, p).
Proof.
  intros Hs Hin Ei Es. unfold findPlan. cut (exists i q, find_plan id scope 0 (ps_plans s) = Ok (i, q)).
  - intros (i & q & F). exists i. destruct (found_in s id scope i q F) as (Hq & Eq & _). assert (p = q) as -> by (apply (sound_unique s); congruence). done.
  - generalize 0%nat. induction (ps_plans s) as [|x l IH]; intros n; [done|]. cbn. destruct (_ && sameScope (tp_scope x) scope) eqn:B; [eauto|].
    destruct Hin as [->|Hin]; [|by apply IH]. rewrite Ei, String.eqb_refl in B. unfold sameScope in B. by rewrite Es, bool_decide_eq_true_2 in B.
Qed.

(** ** Activation *)

(** Every activation in the events of a plan was an operation that activated its latest version. *)
Lemma activation_performed ops p e :
  In p (ps_plans (after_ops ops initial_plans)) -> In e (tp_events p) -> ev_kind e = "activated"%string ->
  exists ops1 op ops2 p0, ops = app ops1 (op :: ops2) /\ activates (tp_id p) op = true /\
    In p0 (ps_plans (after_ops ops1 initial_plans)) /\ tp_id p0 = tp_id p /\ tp_scope p0 = tp_scope p /\ latest_version p0 = ev_version e.
Proof.
  revert p. induction ops as [|op ops IH] using rev_ind; intros p Hp He Hk; [done|].
  unfold after_ops in Hp. rewrite fold_left_app in Hp. cbn in Hp. fold (after_ops ops initial_plans) in Hp.
  assert (Hold : In p (ps_plans (after_ops ops initial_plans)) \/ (exists q, In q (ps_plans (after_ops ops initial_plans)) /\ change op (after_ops ops initial_plans) q p)
    \/ Forall (fun e => ev_kind e <> "activated"%string) (tp_events p)).
  { destruct (after_op_cases (after_ops ops initial_plans) op) as [E|[Hf _]]; [left; congruence|right].
    destruct (effect_back _ _ _ _ Hf Hp) as [?|(d & scope & content & _ & Hfr)]; [by left|right; apply Hfr]. }
  assert (Hlift : forall q, In q (ps_plans (after_ops ops initial_plans)) -> In e (tp_events q) -> tp_id q = tp_id p -> tp_scope q = tp_scope p ->
    exists ops1 op' ops2 p0, app ops [op] = app ops1 (op' :: ops2) /\ activates (tp_id p) op' = true /\
      In p0 (ps_plans (after_ops ops1 initial_plans)) /\ tp_id p0 = tp_id p /\ tp_scope p0 = tp_scope p /\ latest_version p0 = ev_version e).
  { intros q Hq Heq Ei Es. destruct (IH q Hq Heq Hk) as (ops1 & op' & ops2 & p0 & -> & H). exists ops1, op', (app ops2 [op]), p0.
    rewrite <- app_assoc. rewrite <- Ei, <- Es. by split. }
  destruct Hold as [Hold|[(q & Hq & Hc)|Hn]]; [by apply (Hlift p)| |].
  - destruct (ch_events _ _ _ _ Hc) as (l & El & Hl). rewrite El in He. apply in_app_or in He as [He|He].
    + apply (Hlift q); try done; symmetry; [apply (ch_id _ _ _ _ Hc)|apply (ch_scope _ _ _ _ Hc)].
    + rewrite List.Forall_forall in Hl. destruct (Hl _ He Hk) as [Ha Ev]. exists ops, op, [], q.
      rewrite (ch_id _ _ _ _ Hc), (ch_scope _ _ _ _ Hc). by split_and!.
  - rewrite List.Forall_forall in Hn. by apply Hn in He.
Qed.

(** C13: whatever the operations of the store before it, a submission is accepted only under a version that the operator activated when it was
    the latest of its plan; no operation of the agent or the monitor has that effect. *)
Theorem accepted_version_was_activated ops view reference submission se now p :
  validatePlanSubmission parseDate sha256 view reference submission se (after_ops ops initial_plans) now = Ok p ->
  exists ops1 op ops2 p0, ops = app ops1 (op :: ops2) /\ activates (sr_id reference) op = true /\
    In p0 (ps_plans (after_ops ops1 initial_plans)) /\ tp_id p0 = sr_id reference /\ tp_scope p0 = vw_scope view /\
    latest_version p0 = sr_version reference.
Proof.
  intros H. destruct (gate_accepts _ _ _ _ _ _ _ _ _ H) as (_ & _ & i & v & F & _ & Ha & _). destruct (found_in _ _ _ _ _ F) as (Hin & Ei & Es).
  unfold activated in Ha. apply existsb_exists in Ha as (e & He & Hk). apply andb_true_iff in Hk as [Hk Hv].
  apply String.eqb_eq in Hk. apply Z.eqb_eq in Hv.
  destruct (activation_performed ops p e Hin He Hk) as (ops1 & op & ops2 & p0 & Eo & Hact & Hp0 & E1 & E2 & E3).
  exists ops1, op, ops2, p0. rewrite <- Ei, <- Es, <- Hv. by split_and!.
Qed.

(** ** The Paper reset *)

Section Reset.
Variable id : string.
Variable scope : ExecutionScope.
Variable versions : list PlanVersion.
Variable epoch : Z.
Context (old : forall v, In v versions -> pv_epoch v <= epoch).

(** The plan has the old versions, and is tracked only under a later one. *)
Definition disarmed (acted : bool) (s : PlanState) : Prop :=
  epoch < epoch_of sha256 s scope /\
  forall p, In p (ps_plans s) -> tp_id p = id ->
    tp_scope p = scope /\ (exists l, tp_versions p = app versions l) /\
    (tp_status p = Tracking -> exists m, tp_activeVersion p = Some m /\ Z.of_nat (length versions) < m /\ acted = true).

Lemma disarmed_step acted op s :
  sound s -> creates id op = false -> disarmed acted s -> disarmed (acted || activates id op) (after_op s op).
Proof.
  intros Hs Hcr [He Hp]. split; [pose proof (after_op_grow op s scope); lia|]. intros p' Hin Ei.
  destruct (after_op_cases s op) as [E|[Hf _]].
  { rewrite E in Hin. destruct (Hp p' Hin Ei) as (? & ? & Ht). split_and!; [done|done|]. intros T. destruct (Ht T) as (m & ? & ? & ->). by exists m. }
  destruct (effect_back _ _ _ _ Hf Hin) as [(p & Hin0 & Hc)|(d & sc & content & -> & Hfr)].
  2: { cbn in Hcr. apply String.eqb_neq in Hcr. by rewrite (fr_id _ _ _ _ Hfr) in Ei. }
  pose proof (ch_id _ _ _ _ Hc) as Eid. destruct (Hp p Hin0 ltac:(congruence)) as (Es & (l & El) & Ht).
  destruct (ch_versions _ _ _ _ Hc) as (l' & El' & _). split_and!; [by rewrite (ch_scope _ _ _ _ Hc)|exists (app l l'); by rewrite El', El, app_assoc|].
  intros T. destruct (ch_tracking _ _ _ _ Hc T) as [[T0 Ea]|(Ha & Ev & v & Lv & Ee & Ea)].
  - destruct (Ht T0) as (m & ? & ? & ->). exists m. by rewrite Ea.
  - assert (Hi : activates id op = true) by (by rewrite <- Ei, Eid). rewrite Ea, Hi, orb_true_r. exists (pv_version v). split_and!; [done| |done].
    rewrite Es in Ee. destruct l as [|w l].
    + rewrite app_nil_r in El. rewrite El in Lv. pose proof (old v ltac:(apply list_elem_of_In; by apply last_Some_elem_of)). lia.
    + rewrite last_lookup in Lv. rewrite (so_numbered _ Hs p _ v Hin0 Lv). rewrite El, length_app. cbn. lia.
Qed.

Lemma disarmed_after ops acted s :
  sound s -> existsb (creates id) ops = false -> disarmed acted s -> disarmed (acted || existsb (activates id) ops) (after_ops ops s).
Proof.
  revert acted s. induction ops as [|op ops IH]; intros acted s Hs Hc H; [by rewrite orb_false_r|]. cbn in *. apply orb_false_iff in Hc as [Hc Hcs].
  rewrite orb_assoc. apply IH; [by apply sound_step|done|]. by apply disarmed_step.
Qed.
End Reset.

(** C14: after a reset of the Paper account no opening is accepted under a plan it had, until the operator activated a version that was written
    after the reset. *)
Theorem reset_disarms_plans ops0 ds rscope r ops id scope i p0 view reference submission se now p :
  findPlan (after_ops ops0 initial_plans) id scope = Ok (i, p0) -> same_paper_account rscope scope = true ->
  run_plan_op (ResetPaper ds rscope) (after_ops ops0 initial_plans) = Ok r ->
  existsb (creates id) ops = false ->
  sr_id reference = id -> vw_scope view = scope -> su_countTowardsDailyLimit submission = true ->
  validatePlanSubmission parseDate sha256 view reference submission se (after_ops ops (snd r)) now = Ok p ->
  Z.of_nat (length (tp_versions p0)) < sr_version reference /\ existsb (activates id) ops = true.
Proof.
  intros F Ha Hr Hcr Ei Es Hc H. destruct (found_in _ _ _ _ _ F) as (Hin0 & Ei0 & Es0).
  pose proof (sound_after ops0 _ sound_initial) as S0. set (s0 := after_ops ops0 initial_plans) in *.
  assert (E1 : after_op s0 (ResetPaper ds rscope) = snd r) by (unfold after_op; by rewrite Hr).
  destruct (run_plan_op_Ok _ _ _ Hr) as [Hf _]. pose proof (sound_step _ (ResetPaper ds rscope) S0) as S1. rewrite E1 in S1.
  assert (D : disarmed id scope (tp_versions p0) (epoch_of sha256 s0 scope) false (snd r)).
  { split; [rewrite <- Es0; apply (reset_grows ds rscope _ _ p0 Hf Hin0); by rewrite Es0|]. intros q Hq Eq.
    destruct Hf as (_ & HF & _). apply list_elem_of_In, list_elem_of_lookup in Hq as [j Hj].
    destruct (Forall2_lookup_r _ _ _ _ _ HF Hj) as (q0 & Hq0 & Hch & Hst).
    assert (q0 = p0) as ->.
    { apply (sound_unique s0); [done|apply list_elem_of_In; by eapply list_elem_of_lookup_2|done|]. rewrite <- (ch_id _ _ _ _ Hch). congruence. }
    split_and!; [by rewrite (ch_scope _ _ _ _ Hch)|by destruct (ch_versions _ _ _ _ Hch) as (l & -> & _); exists l|].
    intros T. rewrite Hst in T; [done|by rewrite Es0]. }
  apply (disarmed_after id scope (tp_versions p0) (epoch_of sha256 s0 scope)) with (ops := ops) in D; [|intros v Hv; rewrite <- Es0; by apply (so_epochs _ S0)|done|done].
  destruct (opening_needs_fresh_evidence _ _ _ _ _ _ _ _ _ H Hc) as (v & o & Hin & Eid & _ & _ & T & Ea & _).
  destruct D as [_ D]. destruct (D p Hin ltac:(congruence)) as (_ & _ & Ht). destruct (Ht T) as (m & Em & Hm & Hacted). split; [|exact Hacted].
  rewrite Ea in Em. injection Em as ->. exact Hm.
Qed.

(** ** Evidence *)

(** The plan with everything recorded of it. *)
Record grown (p p' : TradePlan) : Prop := {
  gr_id : tp_id p' = tp_id p;
  gr_scope : tp_scope p' = tp_scope p;
  gr_versions : exists l, tp_versions p' = app (tp_versions p) l;
  gr_notes : exists l, tp_notes p' = app (tp_notes p) l;
  gr_events : exists l, tp_events p' = app (tp_events p) l;
  gr_intents : exists l, tp_intents p' = app (tp_intents p) l;
  gr_executions : exists l, tp_executions p' = app (tp_executions p) l
}.

Lemma grown_refl p : grown p p.
Proof. split; try done; apply app_self. Qed.

Lemma app_trans {A} (a b c : list A) : (exists l, b = app a l) -> (exists l, c = app b l) -> exists l, c = app a l.
Proof. intros [l ->] [l' ->]. exists (app l l'). by rewrite app_assoc. Qed.

Lemma grown_trans p q r : grown p q -> grown q r -> grown p r.
Proof. intros [] []. split; try congruence; by eapply app_trans. Qed.

Lemma change_grown op s p p' : change op s p p' -> grown p p'.
Proof.
  intros [? ? [l [? _]] ? [l' [? _]] ? ? _]. split; try done; by eexists.
Qed.

(** A plan with intents is never removed, and what is recorded of it only grows. *)
Lemma evidence_kept ops s p :
  In p (ps_plans s) -> tp_intents p <> [] -> exists p', In p' (ps_plans (after_ops ops s)) /\ grown p p'.
Proof.
  revert s p. induction ops as [|op ops IH]; intros s p Hin Hint; [exists p; auto using grown_refl|]. cbn.
  assert (H : exists q, In q (ps_plans (after_op s op)) /\ grown p q).
  { destruct (after_op_cases s op) as [->|[Hf _]]; [exists p; auto using grown_refl|].
    destruct (effect_forth _ _ _ _ Hf Hin Hint) as (q & Hq & Hc). exists q. split; [done|by eapply change_grown]. }
  destruct H as (q & Hq & Hg). destruct (IH (after_op s op) q Hq) as (p' & Hp' & Hg').
  - destruct (gr_intents _ _ Hg) as [l ->]. by destruct (tp_intents p).
  - exists p'. split; [done|by eapply grown_trans].
Qed.

Lemma find_plan_put id scope n l i p p' :
  find_plan id scope n l = Ok ((n + i)%nat, p) -> tp_id p' = id -> tp_scope p' = scope -> find_plan id scope n (<[i:=p']> l) = Ok ((n + i)%nat, p').
Proof.
  intros F Ei Es. revert n i F. induction l as [|x l IH]; intros n i; cbn [find_plan]; [done|].
  destruct (String.eqb (tp_id x) id && sameScope (tp_scope x) scope) eqn:B.
  - intros [= Ein ->]. assert (i = 0%nat) as -> by lia. cbn [insert list_insert find_plan]. unfold sameScope.
    by rewrite Ei, Es, String.eqb_refl, bool_decide_eq_true_2, Nat.add_0_r.
  - intros F. destruct (find_plan_found _ _ _ _ _ _ F) as (j & Ej & _). destruct i as [|i]; [lia|]. cbn. rewrite B.
    replace (n + S i)%nat with (S n + i)%nat in * by lia. by apply IH.
Qed.

Lemma findPlan_put s id scope i p p' :
  findPlan s id scope = Ok (i, p) -> tp_id p' = tp_id p -> tp_scope p' = tp_scope p -> findPlan (put_plan i p' s) id scope = Ok (i, p').
Proof.
  intros F Ei Es. destruct (findPlan_found _ _ _ _ _ F) as (_ & E1 & E2). apply (find_plan_put id scope 0 _ i p p' F); congruence.
Qed.

Lemma find_app_some {A} (f : A -> bool) l l' x : find f l = Some x -> find f (app l l') = Some x.
Proof. intros H. induction l as [|y l IH]; cbn in *; [done|]. destruct (f y); [done|auto]. Qed.

(** What a saved intent leaves in the file. *)
Lemma saveIntent_saved d id scope version intentId descriptor s engineId s' :
  saveIntent sha256 d id scope version intentId descriptor s = Ok (engineId, s') ->
  exists i p x fingerprint, findPlan s' id scope = Ok (i, p) /\ planIntentFingerprint sha256 descriptor = Ok fingerprint /\
    find (intent_key intentId version) (tp_intents p) = Some x /\ pi_engineIntentId x = engineId /\ pi_fingerprint x = fingerprint.
Proof.
  unfold saveIntent. intros H. inv_ok. match goal with E : findPlan _ _ _ = Ok ?f |- _ => destruct f as [i q]; rename E into F end. cbn [fst snd] in *.
  destruct (find (intent_key intentId version) (tp_intents q)) as [x|] eqn:Fx; inv_ok.
  - exists i, q, x, r1. split_and!; try done. match goal with E : negb _ = false |- _ => by apply negb_false_iff, String.eqb_eq in E end.
  - eexists i, _, _, r1. split_and!; [by eapply findPlan_put|done| | |]; [cbn [tp_intents intents_with]; rewrite find_app_none by done; cbn [find]; unfold intent_key at 1; cbn; by rewrite String.eqb_refl, Z.eqb_refl|done|done].
Qed.

Abbreviation save_intent d id scope version intentId descriptor :=
  (transactPlans sha256 check_content check_state check_proposal rest_ok fits (saveIntent sha256 d id scope version intentId descriptor)).

Lemma save_intent_Ok d id scope version intentId descriptor s engineId s' :
  save_intent d id scope version intentId descriptor s = Ok (engineId, s') ->
  saveIntent sha256 d id scope version intentId descriptor s = Ok (engineId, s') /\ after_op s (SavePlanIntent d id scope version intentId descriptor) = s'.
Proof.
  unfold after_op, run_plan_op, transactPlans. intros H. inv_ok. cbn [snd] in *. split; [done|]. cbn [plan_operation only_state].
  match goal with E : saveIntent _ _ _ _ _ _ _ _ = Ok _ |- _ => rewrite E end. cbn [only_state mbind result_bind snd].
  do 2 (rewrite throwIf_pass by done). done.
Qed.

(** C15: an intent of a plan binds its order for good: whatever happens in between, saving it again answers the same identity for the engine, and
    only for a submission of the same fingerprint. *)
Theorem saved_intent_binds ops0 d id scope version intentId descriptor engineId s1 ops d' descriptor' engineId' s2 :
  save_intent d id scope version intentId descriptor (after_ops ops0 initial_plans) = Ok (engineId, s1) ->
  save_intent d' id scope version intentId descriptor' (after_ops ops s1) = Ok (engineId', s2) ->
  engineId' = engineId /\ planIntentFingerprint sha256 descriptor' = planIntentFingerprint sha256 descriptor.
Proof.
  intros H1 H2. apply save_intent_Ok in H1 as [H1 E1]. apply save_intent_Ok in H2 as [H2 _].
  assert (S1 : sound s1) by (rewrite <- E1; apply sound_step, sound_after, sound_initial).
  destruct (saveIntent_saved _ _ _ _ _ _ _ _ _ H1) as (i & p & x & fp & F & Efp & Fx & <- & <-). destruct (found_in _ _ _ _ _ F) as (Hin & Ei & Es).
  destruct (evidence_kept ops s1 p Hin) as (p2 & Hin2 & Hg); [by intros E; rewrite E in Fx|].
  destruct (in_found (after_ops ops s1) id scope p2) as [j F2]; [by apply sound_after|done|by rewrite (gr_id _ _ Hg)|by rewrite (gr_scope _ _ Hg)|].
  destruct (gr_intents _ _ Hg) as [l El]. apply (find_app_some _ _ l) in Fx. rewrite <- El in Fx.
  unfold saveIntent in H2. inv_ok. rewrite F2 in *.
  match goal with E : Ok (j, p2) = Ok ?f |- _ => injection E as <- end. cbn [fst snd] in H2. rewrite Fx in H2. inv_ok. split; [done|].
  match goal with E : negb (String.eqb _ _) = false |- _ => apply negb_false_iff, String.eqb_eq in E; congruence end.
Qed.
End History.

(** ** Examples *)

Definition example_dates (s : string) : number := match parseISO s with Some t => of_Z t | None => nan end.
Definition example_hash (s : string) : string := s.
Definition accept_all {A} (x : A) : bool := true.

Definition example_plan_scope : ExecutionScope :=
  {| sc_accountId := "main"; sc_exchange := "binance"; sc_mode := Paper; sc_marketType := Spot; sc_quoteCurrency := "USDT"; sc_positionMode := OneWay |}.
Definition example_start : Z := 1700000000000.
Definition example_plan_draws (seconds : Z) (event notice : string) : PlanDraws :=
  let now := (example_start + 1000 * seconds)%Z in
  {| pd_at := now; pd_expiry := now; pd_cancel := now; pd_event := now; pd_id := "plan"; pd_eventId := event; pd_noticeId := notice |}.
Definition example_content : PlanContent :=
  {| ct_symbol := "BTC/USDT"; ct_timeframe := OneHour; ct_direction := LongPlan; ct_thesis := "breakout";
     ct_entry := [{| pc_fact := PriceFact; pc_operator := AboveValue; pc_value := 100 |}];
     ct_invalidation := [{| pc_fact := PriceFact; pc_operator := BelowValue; pc_value := 90 |}];
     ct_expiresAt := "2030-01-01T00:00:00.000Z"; ct_reviewAt := "2029-01-01T00:00:00.000Z"; ct_risk := "one percent";
     ct_proposedSizeNotes := None; ct_proposedStopNotes := None;
     ct_evidence := [{| pe_source := "chart"; pe_reference := None; pe_observedAt := "2023-11-14T22:00:00.000Z"; pe_summary := "range high" |}] |}.
Definition example_seen (version seconds : Z) : PlanObservation :=
  {| po_version := version; po_at := toISOString (example_start + 1000 * seconds); po_entry := TTrue; po_invalidation := TFalse; po_expired := false;
     po_reviewDue := false; po_facts := [{| of_fact := PriceFact; of_value := 105; of_observedAt := of_Z (example_start + 1000 * seconds) |}];
     po_limitations := [] |}.

Abbreviation example_after := (after_ops example_hash example_dates accept_all accept_all accept_all accept_all accept_all).

Definition example_approved : list PlanOp :=
  [CreatePlan (example_plan_draws 0 "e1" "") example_plan_scope example_content;
   ActivatePlan (example_plan_draws 1 "e2" "") "plan" example_plan_scope 1;
   ObservePlanFacts (example_plan_draws 2 "e3" "n1") "plan" example_plan_scope (example_seen 1 2) false].
Definition example_reset : PlanOp := ResetPaper (fun _ => example_plan_draws 10 "e4" "") example_plan_scope.
Definition example_renewed : list PlanOp :=
  [RevisePlan (example_plan_draws 20 "e5" "") "plan" example_plan_scope 3 example_content;
   ActivatePlan (example_plan_draws 21 "e6" "") "plan" example_plan_scope 4;
   ObservePlanFacts (example_plan_draws 22 "e7" "n2") "plan" example_plan_scope (example_seen 2 22) false].

Definition example_view : EngineView := {| vw_scope := example_plan_scope; vw_staleRuntime := false; vw_maintenance := false |}.
Definition example_reference (version : Z) : SubmissionReference := {| sr_id := "plan"; sr_version := version; sr_intentId := "i1" |}.
Definition example_placement (amount : number) : PlaceOrderInput :=
  {| in_symbol := "BTC/USDT"; in_side := Buy; in_type := Execution.Market; in_amount := amount; in_price := None; in_reduceOnly := None;
     in_positionSide := None; in_stopPrice := None; in_trailingPercent := None; in_closePosition := None; in_clientOrderId := None |}.
Definition example_submission (amount : number) : PlanSubmission :=
  {| su_intent := Execution.OrderIntent (example_placement amount) None; su_countTowardsDailyLimit := true; su_protectionStopPrice := None;
     su_referencePrice := None; su_referenceTimestamp := None |}.

Definition example_gate (version : Z) (s : PlanState) (seconds : Z) : PlanResult TradePlan :=
  validatePlanSubmission example_dates example_hash example_view (example_reference version) (example_submission 1) s s (example_start + 1000 * seconds).

(** The states of the example, computed once. *)
Definition approved_state : PlanState := Eval vm_compute in example_after example_approved initial_plans.
Definition reset_state : PlanState := Eval vm_compute in example_after [example_reset] approved_state.
Definition renewed_state : PlanState := Eval vm_compute in example_after example_renewed reset_state.

Lemma approved_state_eq : example_after example_approved initial_plans = approved_state.
Proof. vm_compute. reflexivity. Qed.
Lemma reset_state_eq : run_plan_op example_hash example_dates accept_all accept_all accept_all accept_all accept_all example_reset approved_state = Ok (tt, reset_state).
Proof. vm_compute. reflexivity. Qed.
Lemma renewed_state_eq : example_after example_renewed reset_state = renewed_state.
Proof. vm_compute. reflexivity. Qed.

(** A tracked plan with fresh evidence is accepted, and no longer when its evidence has aged. *)
Example example_accepted : isOk (example_gate 1 approved_state 3) = true /\ example_gate 1 approved_state 303 = Throw UnsatisfiedPlan.
Proof. by vm_compute. Qed.

(** A plan cannot be archived while the clock reads before its pending notification was queued. *)
Definition example_archive (seconds : Z) : PlanResult (unit * PlanState) :=
  run_plan_op example_hash example_dates accept_all accept_all accept_all accept_all accept_all
    (ArchivePlan (example_plan_draws seconds "e4" "") "plan" example_plan_scope 2) approved_state.
Example archive_before_the_notification : example_archive 1 = Throw InvalidState /\ isOk (example_archive 2) = true.
Proof. by vm_compute. Qed.

(** The reset closes the gate; the old version stays unusable. *)
Example example_after_reset :
  example_gate 1 reset_state 11 = Throw ResetAccount /\ example_gate 1 renewed_state 23 = Throw ResetAccount /\
  isOk (example_gate 2 renewed_state 23) = true.
Proof. by vm_compute. Qed.

(** The plan that the gate accepts. *)
Definition accepted_plan (r : PlanResult TradePlan) : TradePlan :=
  match r with
  | Ok p => p
  | Throw _ => {| tp_id := ""; tp_scope := example_plan_scope; tp_revision := 0; tp_status := Draft; tp_activeVersion := None; tp_versions := [];
                  tp_notes := []; tp_observation := None; tp_accountObservation := None; tp_events := []; tp_intents := []; tp_executions := [] |}
  end.

Lemma opening_needs_fresh_evidence_witness :
  tp_status (accepted_plan (example_gate 1 approved_state 3)) = Tracking /\
  Forall (fun c => decided OneHour (of_Z (example_start + 3000)) (po_facts (example_seen 1 2)) c true) (ct_entry example_content).
Proof.
  destruct (opening_needs_fresh_evidence example_dates example_hash example_view (example_reference 1) (example_submission 1)
    approved_state approved_state (example_start + 1000 * 3) (accepted_plan (example_gate 1 approved_state 3)) ltac:(vm_compute; reflexivity) eq_refl)
    as (v & o & _ & _ & _ & _ & Ht & _ & Ev & _ & _ & _ & _ & Eo & Hentry & _).
  split; [exact Ht|]. vm_compute in Ev. injection Ev as <-. vm_compute in Eo. injection Eo as <-. exact Hentry.
Defined.

Lemma accepted_version_was_activated_witness :
  exists ops1 op ops2 p0, example_approved = app ops1 (op :: ops2) /\ activates "plan" op = true /\
    In p0 (ps_plans (example_after ops1 initial_plans)) /\ tp_id p0 = "plan"%string /\ tp_scope p0 = example_plan_scope /\ latest_version p0 = 1.
Proof.
  apply (accepted_version_was_activated example_hash example_dates accept_all accept_all accept_all accept_all accept_all example_approved example_view
    (example_reference 1) (example_submission 1) approved_state (example_start + 1000 * 3) (accepted_plan (example_gate 1 approved_state 3))).
  rewrite approved_state_eq. vm_compute. reflexivity.
Defined.

Lemma reset_disarms_plans_witness : 1 < 2 /\ existsb (activates "plan") example_renewed = true.
Proof.
  apply (reset_disarms_plans example_hash example_dates accept_all accept_all accept_all accept_all accept_all example_approved
    (fun _ => example_plan_draws 10 "e4" "") example_plan_scope (tt, reset_state) example_renewed "plan" example_plan_scope 0
    (accepted_plan (example_gate 1 approved_state 3)) example_view (example_reference 2) (example_submission 1) renewed_state
    (example_start + 1000 * 23) (accepted_plan (example_gate 2 renewed_state 23))); cbn [snd]; rewrite ?approved_state_eq, ?renewed_state_eq;
    try exact reset_state_eq; vm_compute; reflexivity.
Defined.

(** The intent of the plan, saved again after a note. *)
Definition example_save (seconds : Z) (amount : number) (s : PlanState) : PlanResult (string * PlanState) :=
  transactPlans example_hash accept_all accept_all accept_all accept_all accept_all
    (saveIntent example_hash (example_plan_draws seconds "" "") "plan" example_plan_scope 1 "i1" (submission_json (example_submission amount))) s.
Definition saved_result (r : PlanResult (string * PlanState)) : string * PlanState := match r with Ok x => x | Throw _ => ("", initial_plans)%string end.
Definition example_first : string * PlanState := Eval vm_compute in saved_result (example_save 4 1 approved_state).
Definition example_noted : list PlanOp := [NotePlan (example_plan_draws 5 "" "") "plan" example_plan_scope "ok" ByModel].
Definition noted_state : PlanState := Eval vm_compute in example_after example_noted (snd example_first).
Definition example_second : string * PlanState := Eval vm_compute in saved_result (example_save 6 1 noted_state).

Lemma noted_state_eq : example_after example_noted (snd example_first) = noted_state.
Proof. vm_compute. reflexivity. Qed.

(** Another amount is refused. *)
Example example_conflict : example_save 6 2 noted_state = Throw IntentConflict.
Proof. vm_compute. reflexivity. Qed.

Lemma saved_intent_binds_witness :
  fst example_second = fst example_first /\
  planIntentFingerprint example_hash (submission_json (example_submission 1)) = planIntentFingerprint example_hash (submission_json (example_submission 1)).
Proof.
  apply (saved_intent_binds example_hash example_dates accept_all accept_all accept_all accept_all accept_all example_approved
    (example_plan_draws 4 "" "") "plan" example_plan_scope 1 "i1" (submission_json (example_submission 1)) (fst example_first) (snd example_first)
    example_noted (example_plan_draws 6 "" "") (submission_json (example_submission 1)) (fst example_second) (snd example_second));
    rewrite ?approved_state_eq, ?noted_state_eq; vm_compute; reflexivity.
Defined.
